(* ===== verification/_CoqProject ===== *)
-Q . S2P
Prelude.v
Zx.v
UserCopy.v
Dispatcher.v
Peered.v
MBuf.v
MBufFacts.v
MBufDatagram.v
Socket.v
SocketFacts.v
Fifo.v
FifoFacts.v
WaitQueue.v
WaitQueueFacts.v
Semaphore.v
SemaphoreFacts.v
EventFacts.v
Port.v
PortSema.v
PortFacts.v
PortSystem.v
MessagePacket.v
MessagePacketFacts.v
Channel.v
ChannelFacts.v
Deadline.v
JobPolicy.v
JobPolicyFacts.v
GPArena.v
GPArenaFacts.v
SlotArena.v
Handle.v
HandleFacts.v
ProcessHandles.v
ProcessHandlesFacts.v
ChannelSyscalls.v
ChannelSyscallsFacts.v
HandleSystem.v
ChannelFlight.v
HandleScenarios.v
WaitObserver.v
WaitObserverFacts.v
Pow2Range.v
Pow2RangeFacts.v
Thread.v
Tasks.v
TaskSystem.v
TaskFacts.v
TaskProcessFacts.v
TaskThreadFacts.v
TaskWorkFacts.v
TaskJobFacts.v
TaskTreeFacts.v
TaskTreeSteps.v
TaskMemberSteps.v
TaskTheorems.v
TaskTermination.v
TaskScenarios.v
Timer.v
TimerFacts.v
TimerSystem.v
TimerInv.v
TimerSteps.v
TimerTheorems.v
TimerDispatcher.v
TimerDispatcherFacts.v
TimerDispatcherSteps.v
TimerDispatcherTheorems.v
OwnedWaitQueue.v
OwnedWaitQueueFacts.v
OwnedWaitQueueSteps.v
OwnedWaitQueueOps.v
OwnedWaitQueueWake.v
OwnedWaitQueueTheorems.v
Futex.v
FutexFacts.v
FutexSystem.v
FutexSteps.v
FutexWake.v
FutexTheorems.v
