(* ===== verification/Prelude.v ===== *)
(** * Zircon kernel objects

    A verification of the object layer of the Zircon kernel ([src/zircon/kernel]) and
    of the kernel primitives and libraries it stands on.  The functions of the code
    are translated into Rocq functions on explicit states.  The theorems are about
    these functions, and about every run of them in any interleaving the locks of the
    code admit.

    ** The program and its model

    User code reaches kernel objects through handles.  A system call looks its handles
    up in the table of the calling process, works on the objects and copies results to
    user memory.  Objects carry signals, which observers watch for threads that wait
    and for ports.  Channels, sockets and fifos are pairs of objects that close
    together.  Jobs, processes and threads form a tree that is killed from the top and
    torn down from the bottom.

    - This file: machine integers, lists, and the tactics and hints that the other
      files share.  [Zx.v]: the constants of [system/public/zircon].
    - [UserCopy.v]: [user_ptr] and the copies of [arch/x86/user_copy.cc], with faults
      at any byte.
    - [Dispatcher.v], [Peered.v]: [object/dispatcher.cc] and [dispatcher.h]: signals,
      observer lists, handle counts, pairs of objects.  An observer is the class
      [StateObserver] with its laws; [Port.v] and [WaitObserver.v] have the instances.
      A subclass of [PeeredDispatcher] is an instance of [PeeredSelf].
    - [MBuf.v], [MBufFacts.v], [MBufDatagram.v], [Socket.v], [SocketFacts.v]:
      [object/mbuf.cc] and [object/socket_dispatcher.cc].
    - [Fifo.v], [FifoFacts.v]: [object/fifo_dispatcher.cc].
    - [WaitQueue.v], [WaitQueueFacts.v]: [kernel/wait.cc].  [Semaphore.v],
      [SemaphoreFacts.v], [EventFacts.v]: [kernel/semaphore.cc] and [kernel/event.cc],
      on top of wait queues.
    - [Port.v], [PortSema.v], [PortFacts.v], [PortSystem.v]:
      [object/port_dispatcher.cc].  The semaphore of a port is the class
      [PortSemaphore], of which the semaphore of the kernel is an instance.
    - [WaitObserver.v], [WaitObserverFacts.v]: [object/wait_state_observer.cc] and
      [syscalls/object_wait.cc].
    - [MessagePacket.v], [MessagePacketFacts.v]: [object/message_packet.cc] and
      [object/buffer_chain.h].  [Channel.v], [ChannelFacts.v]:
      [object/channel_dispatcher.cc].
    - [GPArena.v], [GPArenaFacts.v], [SlotArena.v]: the lock-free arena of
      [lib/fbl/include/fbl/gparena.h], and the class of what handles ask of it.
    - [Handle.v], [HandleFacts.v], [ProcessHandles.v], [ProcessHandlesFacts.v]:
      [object/handle.cc], the handle table of [object/process_dispatcher.cc],
      [syscalls/handle_ops.cc] and [object/user_handles.cc].
    - [ChannelSyscalls.v], [ChannelSyscallsFacts.v], [ChannelFlight.v],
      [HandleSystem.v], [HandleScenarios.v]: [syscalls/channel.cc] and handles in the
      system as a whole.  The system calls are proved against an interface of
      channels, which [ChannelFlight.v] shows a pair of dispatchers to implement.
    - [Deadline.v], [JobPolicy.v], [JobPolicyFacts.v]: [zircon/time.h],
      [kernel/deadline.cc] and [object/job_policy.cc].
    - [Pow2Range.v], [Pow2RangeFacts.v]: [lib/pow2_range_allocator].
    - [Thread.v], [Tasks.v], [TaskSystem.v]: the life of threads
      ([object/thread_dispatcher.cc], [object/thread_state.h], the signals of
      [kernel/thread.cc]), of processes ([object/process_dispatcher.cc]), of jobs
      ([object/job_dispatcher.cc]) and suspend tokens, and the system of all of them.
      [TaskFacts.v], [TaskProcessFacts.v], [TaskThreadFacts.v], [TaskWorkFacts.v],
      [TaskJobFacts.v], [TaskTreeFacts.v], [TaskTreeSteps.v], [TaskMemberSteps.v]:
      its invariant and that every event keeps it.  [TaskTheorems.v],
      [TaskTermination.v], [TaskScenarios.v]: what follows.
    - [Timer.v], [TimerSystem.v]: [kernel/timer.cc] and its timers, interrupts and
      callbacks on several processors; [TimerFacts.v], [TimerInv.v], [TimerSteps.v]:
      the invariant and that every step keeps it; [TimerTheorems.v].
    - [TimerDispatcher.v]: [object/timer_dispatcher.cc] and the deferred calls of
      [kernel/dpc.cc], in a system with the kernel timers;
      [TimerDispatcherFacts.v], [TimerDispatcherSteps.v], [TimerDispatcherTheorems.v].
    - [OwnedWaitQueue.v]: [kernel/owned_wait_queue.cc] with the priorities of
      [kernel/fair_scheduler.cc] and their propagation; [OwnedWaitQueueFacts.v],
      [OwnedWaitQueueSteps.v], [OwnedWaitQueueOps.v], [OwnedWaitQueueWake.v]: the loop,
      changes of owners, and each operation; [OwnedWaitQueueTheorems.v].
    - [Futex.v]: [object/futex_context.cc] and [syscalls/futex.cc] over owned wait queues,
      each call cut at the locks it takes; [FutexSystem.v]: the threads of a process in
      any interleaving, and the invariant; [FutexFacts.v]: the pool of states and its
      reference counts; [FutexSteps.v], [FutexWake.v]: that each step keeps the invariant;
      [FutexTheorems.v].

    ** How code is modelled

    Integers are [Z], kept in their width by [u32] and [u64] where the code can wrap.
    Objects that the code finds through pointers are kept in maps by address or koid;
    lists the code links through its objects are lists of these names.  A function
    that holds its lock throughout is one definition.  A function that lets it go, or
    blocks, is one definition per critical section, and runs interleave the sections
    of any number of threads.  The tasks are the largest such system: a state has, for
    each activity of the kernel, the calls it still has to make.  Atomic operations of
    the arena are steps of their own; memory is sequentially consistent.

    Failures of allocation are arguments of the operation they occur in.  Copies from
    and to user memory fault at any address the memory of the model does not have.
    [None] is a failed assertion, a panic, a dangling pointer or a loop without end;
    theorems about a component say that it does not occur, or when it does.

    ** What the theorems show

    - Tasks: no interleaving of system calls, callbacks of the scheduler and dropped
      references fails an assertion or touches a destroyed object; jobs form a tree
      with counts and signals that agree with it; killing a job leaves nothing below
      it alive, waits only for threads to end, and all work comes to an end; a thread
      is stopped exactly while a suspend token for it or its process exists.
    - Handles: each live handle is in one process, in one message, or lost by a read
      whose copy failed; no call adds rights; values resolve exactly to the handles of
      their process.  The arena gives a slot to one client at a time.
    - Channels, sockets, fifos: refinement to queues of messages, bytes and elements,
      agreement of signals with the queues, calls that get the reply with their
      transaction id.
    - Waiting: wait queues are priority queues; semaphores lose no permit; a packet in
      a port finds a waiting thread; waits report why they were woken.
    - Policies: the packed bits are an array of entries, and no call widens a policy.
    - Timers: queues are in order, the one-shot timers of the processors are set early
      enough, and a timer is put together with the nearest one its slack allows.  A
      timer object never fails or is used after its end, is signalled neither early
      nor by a timer that has been cancelled, and never loses a timer it has set.
    - Owned wait queues: every operation ends, also when owners wait in a circle, and
      owners and queues agree; inherited priorities are exact as long as no queue is
      taken from an owner that waits, and examples show what happens otherwise.
      [WakeAndRequeue] loses no thread.
    - Futexes: no assertion fails and no state is missing or leaked, references are
      counted exactly, wakes and requeues lose no thread that has seen the value it
      expects, and an owner does not wait for its futex; the one requeue that breaks
      this is excluded by [strands_owner] and shown to fail.
    - Allocators: free and allocated blocks partition the ranges, and an allocation
      fails only when there is no block of its size.
    - Findings: theorems and examples that show where the code departs from what its
      comments say.

    ** Bounds and fuel

    Loops that are not structural have fuel computed from their input, and the
    theorems show that it is enough: the number of buffers and bytes of a chain
    ([MBuf.v]), of elements of a copy ([Fifo.v]), of buckets and free blocks
    ([Pow2Range.v]), of threads and the sum of inherited priorities
    ([OwnedWaitQueue.v]).  Loops of the tasks are events that run one step each; that they
    end is a theorem.  Reference counts and counts of children are not bounded: each
    unit stands for an object in memory.

    ** Not modelled

    - Virtual memory, the scheduler, architecture and platform code, drivers and user
      space.  They are thousands of files that share no state with the objects here
      but through the calls the model has as parameters or events.
    - Kernel objects that only drive hardware or the virtual memory system: VMOs and
      VMARs, IOMMU, BTI, PCI, guests and VCPUs.
    - Of the modelled objects: names, information and statistics for debugging,
      tracing, counters, [fbl::Canary], and the choice of the exception channel.
    - Objects are kept alive by reference counts.  Where the last reference is dropped
      is an event of the model that needs that nothing refers to the object; the
      counts themselves are modelled for timer objects and futex states only.
    - Handles that are transferred act on one pair of channels at a time; what closing
      the last handle to an object of another kind does is recorded as an effect.
    - Deadlines: a wait with a deadline may end at any time. *)

From stdpp Require Export base option list numbers gmap.
From Stdlib Require Export ZArith Lia Bool.

#[global] Open Scope Z_scope.

(** ** Machine integers *)

(** A [w]-bit unsigned integer is a [Z] in [[0, 2^w)]; every operation of the
    sources that can wrap is followed by one of these. *)
Definition u16 (x : Z) : Z := x mod 2 ^ 16.
Definition u32 (x : Z) : Z := x mod 2 ^ 32.
Definition u64 (x : Z) : Z := x mod 2 ^ 64.

Definition is_u32 (x : Z) : Prop := 0 <= x < 2 ^ 32.
Definition is_u64 (x : Z) : Prop := 0 <= x < 2 ^ 64.

Declare Scope zx_scope.
Delimit Scope zx_scope with zx.

(** C's [a & b], [a | b] and [a & ~b] on unsigned operands. *)
Notation "a '.&' b" := (Z.land a b) (at level 40, left associativity) : zx_scope.
Notation "a '.|' b" := (Z.lor a b) (at level 50, left associativity) : zx_scope.
Notation "a '.&~' b" := (Z.ldiff a b) (at level 40, left associativity) : zx_scope.
#[global] Open Scope zx_scope.

(** The truth value of the C expression [s & m]. *)
Definition has (s m : Z) : bool := negb (Z.land s m =? 0).

(** C truthiness of an unsigned integer. *)
Definition nz (x : Z) : bool := negb (x =? 0).

(** The length of a list as a [size_t] quantity. *)
Definition zlen {A} (l : list A) : Z := Z.of_nat (length l).

(** [memcpy] into a buffer: [new] replaces the bytes of [l] from index [off]. *)
Definition splice {A} (off : nat) (new l : list A) : list A :=
  take off l ++ new ++ drop (off + length new) l.

(** The [n] bytes of [l] from index [off]. *)
Definition slice {A} (off n : nat) (l : list A) : list A := take n (drop off l).

(** ** Tactics *)

(** Destructs the scrutinee of the innermost [match] or [if] of the goal. *)
Ltac dmatch :=
  match goal with
  | |- context [match ?x with _ => _ end] =>
      lazymatch x with
      | context [match _ with _ => _ end] => fail
      | _ => let E := fresh "E" in destruct x eqn:E
      end
  end.

Ltac dmatch_in H :=
  match type of H with
  | context [match ?x with _ => _ end] =>
      lazymatch x with
      | context [match _ with _ => _ end] => fail
      | _ => let E := fresh "E" in destruct x eqn:E
      end
  end.

(** Turns boolean comparisons of the context into propositions [lia] reads. *)
Ltac b2p :=
  repeat match goal with
  | H : (_ && _)%bool = true |- _ => apply andb_prop in H; destruct H
  | H : (_ || _)%bool = false |- _ => apply orb_false_elim in H; destruct H
  | H : negb _ = true |- _ => apply negb_true_iff in H
  | H : negb _ = false |- _ => apply negb_false_iff in H
  | H : (_ =? _) = true |- _ => apply Z.eqb_eq in H
  | H : (_ =? _) = false |- _ => apply Z.eqb_neq in H
  | H : (_ <? _) = true |- _ => apply Z.ltb_lt in H
  | H : (_ <? _) = false |- _ => apply Z.ltb_ge in H
  | H : (_ <=? _) = true |- _ => apply Z.leb_le in H
  | H : (_ <=? _) = false |- _ => apply Z.leb_gt in H
  | H : (_ >? _) = _ |- _ => rewrite Z.gtb_ltb in H
  | H : (_ >=? _) = _ |- _ => rewrite Z.geb_leb in H
  | H : nz _ = _ |- _ => unfold nz in H
  end.

(** ** Hint databases *)

(** [zx]: rewriting of signal sets and list lengths. *)
Create HintDb zx discriminated.
Create Rewrite HintDb zxlen.

(** ** Integers *)

Lemma u32_range x : is_u32 (u32 x).
Proof. unfold is_u32, u32. apply Z.mod_pos_bound. lia. Qed.

Lemma u32_id x : is_u32 x -> u32 x = x.
Proof. unfold is_u32, u32. apply Z.mod_small. Qed.

Lemma u64_range x : is_u64 (u64 x).
Proof. unfold is_u64, u64. apply Z.mod_pos_bound. lia. Qed.

Lemma u64_id x : is_u64 x -> u64 x = x.
Proof. unfold is_u64, u64. apply Z.mod_small. Qed.

Lemma u32_add_l x y : u32 (u32 x + y) = u32 (x + y).
Proof. unfold u32. apply Zplus_mod_idemp_l. Qed.

Lemma u32_sub_r x y : u32 (x - u32 y) = u32 (x - y).
Proof. unfold u32. apply Zminus_mod_idemp_r. Qed.

Lemma u32_sub_l x y : u32 (u32 x - y) = u32 (x - y).
Proof. unfold u32. apply Zminus_mod_idemp_l. Qed.

(** [x & (x - 1)] is the usual test for a power of two. *)
Lemma pow2_land x : 0 < x -> x .& (x - 1) = 0 -> x = 2 ^ Z.log2 x.
Proof.
  intros Hx H. pose proof (Z.log2_spec x Hx) as [H1 H2]. pose proof (Z.log2_nonneg x) as Hl.
  destruct (Z.eq_dec x (2 ^ Z.log2 x)) as [|Hne]; [done|].
  assert (Z.testbit (x .& (x - 1)) (Z.log2 x) = true) as HT.
  { rewrite Z.land_spec. rewrite Z.bit_log2 by done.
    assert (Z.log2 (x - 1) = Z.log2 x) as <- by (apply Z.log2_unique; lia).
    apply Z.bit_log2. pose proof (Z.pow_pos_nonneg 2 (Z.log2 x)). lia. }
  by rewrite H, Z.bits_0 in HT.
Qed.

(** ** Signal sets *)

Lemma has_bit s k : 0 <= k -> has s (2 ^ k) = Z.testbit s k.
Proof.
  intros Hk. unfold has.
  destruct (Z.testbit s k) eqn:E.
  - apply negb_true_iff, Z.eqb_neq. intros H.
    assert (Z.testbit (Z.land s (2 ^ k)) k = false) as HF by (rewrite H; apply Z.bits_0).
    rewrite Z.land_spec, E, Z.pow2_bits_true in HF by lia. discriminate.
  - apply negb_false_iff, Z.eqb_eq. apply Z.bits_inj'. intros n Hn.
    rewrite Z.land_spec, Z.bits_0, Z.pow2_bits_eqb by lia.
    destruct (Z.eqb_spec k n) as [->|]; [by rewrite E | by rewrite andb_false_r].
Qed.

(** The effect of [signals = (signals & ~clear) | set] on one signal. *)
Lemma has_update s clear set k :
  0 <= k ->
  has (s .&~ clear .| set) (2 ^ k) =
  Z.testbit set k || (has s (2 ^ k) && negb (Z.testbit clear k)).
Proof.
  intros Hk. rewrite !has_bit by done.
  rewrite Z.lor_spec, Z.ldiff_spec. by rewrite orb_comm.
Qed.

Lemma has_0_l m : has 0 m = false.
Proof. unfold has. by rewrite Z.land_0_l. Qed.

Lemma has_0_r s : has s 0 = false.
Proof. unfold has. by rewrite Z.land_0_r. Qed.

Lemma has_comm s m : has s m = has m s.
Proof. unfold has. by rewrite Z.land_comm. Qed.

(** ** Lists *)

Lemma zlen_nonneg {A} (l : list A) : 0 <= zlen l.
Proof. unfold zlen. lia. Qed.

Lemma zlen_nil {A} : zlen (@nil A) = 0.
Proof. done. Qed.

Lemma zlen_cons {A} (x : A) l : zlen (x :: l) = 1 + zlen l.
Proof. unfold zlen. simpl. lia. Qed.

Lemma zlen_app {A} (l k : list A) : zlen (l ++ k) = zlen l + zlen k.
Proof. unfold zlen. rewrite length_app. lia. Qed.

Lemma zlen_0 {A} (l : list A) : zlen l = 0 <-> l = [].
Proof. unfold zlen. destruct l; simpl; split; intros; (done || lia). Qed.

Lemma filter_ne_id (t : Z) (l : list Z) : t ∉ l -> filter (fun x => x <> t) l = l.
Proof.
  induction l as [|x l IH]; intros H; [done|]. apply not_elem_of_cons in H as [Hx H].
  rewrite filter_cons_True by congruence. by rewrite IH.
Qed.

Lemma zlen_filter_ne t (l : list Z) :
  NoDup l -> t ∈ l -> zlen (filter (fun x => x <> t) l) = zlen l - 1.
Proof.
  intros Hnd Hin. apply list_elem_of_split in Hin as (l1 & l2 & ->).
  apply NoDup_app in Hnd as (_ & Hd & Hnd2). apply NoDup_cons in Hnd2 as [Hni _].
  rewrite filter_app, filter_cons_False by (intros HF; by apply HF).
  rewrite !filter_ne_id; [rewrite !zlen_app, zlen_cons; lia | done|].
  intros HF. apply (Hd _ HF). apply list_elem_of_here.
Qed.

#[export] Instance zlen_perm {A} : Proper (Permutation ==> eq) (@zlen A).
Proof. intros l k H. unfold zlen. by rewrite H. Qed.

Lemma length_splice {A} off (new l : list A) :
  (off + length new <= length l)%nat -> length (splice off new l) = length l.
Proof.
  intros H. unfold splice.
  rewrite !length_app, length_take, length_drop. lia.
Qed.

Lemma length_slice {A} off n (l : list A) :
  (off + n <= length l)%nat -> length (slice off n l) = n.
Proof. intros H. unfold slice. rewrite length_take, length_drop. lia. Qed.

(** Reading back what [splice] wrote just after an existing slice. *)
Lemma slice_splice_extend {A} off n (new l : list A) :
  (off + n + length new <= length l)%nat ->
  slice off (n + length new) (splice (off + n) new l) = slice off n l ++ new.
Proof.
  intros H. unfold slice, splice.
  rewrite drop_app_le by (rewrite length_take; lia).
  rewrite <- take_drop_commute.
  rewrite take_app_ge by (rewrite length_take, length_drop; lia).
  f_equal. rewrite length_take, length_drop.
  rewrite take_app_le by lia.
  rewrite take_ge; [done | lia].
Qed.

(** [splice] leaves the slice before it alone. *)
Lemma slice_splice_before {A} off n (new l : list A) :
  (off + n <= length l)%nat -> slice off n (splice (off + n) new l) = slice off n l.
Proof.
  intros H. unfold slice, splice.
  rewrite drop_app_le by (rewrite length_take; lia).
  rewrite <- take_drop_commute.
  rewrite take_app_le by (rewrite length_take, length_drop; lia).
  rewrite take_take. f_equal. lia.
Qed.

(** [splice] changes no slice disjoint from what it wrote, and the written slice
    is what was written. *)
Lemma slice_splice_lt {A} a n off (new l : list A) :
  (a + n <= off)%nat -> (off <= length l)%nat -> slice a n (splice off new l) = slice a n l.
Proof.
  intros H Hl. unfold slice, splice.
  rewrite drop_app_le by (rewrite length_take; lia).
  rewrite take_app_le by (rewrite length_drop, length_take; lia).
  rewrite skipn_firstn_comm, take_take. f_equal. lia.
Qed.

Lemma slice_splice_gt {A} a n off (new l : list A) :
  (off + length new <= a)%nat -> (off <= length l)%nat -> slice a n (splice off new l) = slice a n l.
Proof.
  intros H Hl. unfold slice, splice. f_equal.
  rewrite drop_app_ge by (rewrite length_take; lia).
  rewrite length_take. replace (off `min` length l)%nat with off by lia.
  rewrite drop_app_ge by lia. rewrite drop_drop. f_equal. lia.
Qed.

Lemma slice_splice_eq {A} off (new l : list A) :
  (off <= length l)%nat -> slice off (length new) (splice off new l) = new.
Proof.
  intros H. unfold slice, splice. rewrite drop_app_ge by (rewrite length_take; lia).
  rewrite length_take. replace (off - off `min` length l)%nat with 0%nat by lia.
  rewrite drop_0, take_app_le by lia. by rewrite take_ge.
Qed.

Lemma slice_app {A} a n k (l : list A) : slice a n l ++ slice (a + n) k l = slice a (n + k) l.
Proof.
  unfold slice. rewrite <- drop_drop. generalize (drop a l) as l'. intros l'.
  rewrite <- (take_drop n (take (n + k) l')). f_equal; [rewrite take_take; f_equal; lia|].
  rewrite skipn_firstn_comm. f_equal. lia.
Qed.

#[export] Hint Rewrite @zlen_nil @zlen_cons @zlen_app : zxlen.

(** ** Filters *)

Lemma filter_ext_in {A} (P Q : A -> Prop) `{!forall x, Decision (P x)} `{!forall x, Decision (Q x)} (l : list A) :
  (forall x, x ∈ l -> (P x <-> Q x)) -> filter P l = filter Q l.
Proof.
  induction l as [|x l IH]; intros Hpq; [done|].
  assert (filter P l = filter Q l) as E by (apply IH; intros y Hy; by apply Hpq, list_elem_of_further).
  pose proof (Hpq x (list_elem_of_here _ _)) as Hx. destruct (decide (P x)) as [HP|HP].
  - rewrite !filter_cons_True, E by tauto. done.
  - rewrite !filter_cons_False, E by tauto. done.
Qed.

Lemma filter_all {A} (P : A -> Prop) `{!forall x, Decision (P x)} (l : list A) :
  (forall x, x ∈ l -> P x) -> filter P l = l.
Proof.
  induction l as [|x l IH]; intros HP; [done|]. rewrite filter_cons_True by apply HP, list_elem_of_here.
  rewrite IH; [done|]. intros y Hy. by apply HP, list_elem_of_further.
Qed.

Lemma filter_none {A} (P : A -> Prop) `{!forall x, Decision (P x)} (l : list A) :
  (forall x, x ∈ l -> ~ P x) -> filter P l = [].
Proof.
  induction l as [|x l IH]; intros HP; [done|]. rewrite filter_cons_False by apply HP, list_elem_of_here.
  apply IH. intros y Hy. by apply HP, list_elem_of_further.
Qed.

(** ** Counting *)

(** How often [a] is in the list. *)
Fixpoint times {A} `{EqDecision A} (a : A) (l : list A) : Z :=
  match l with [] => 0 | b :: l => (if decide (b = a) then 1 else 0) + times a l end.

Section Times.
Context {A : Type} `{EqDecision A}.
Implicit Types (a b : A) (l : list A).

Lemma times_app a l l' : times a (l ++ l') = times a l + times a l'.
Proof. induction l as [|b l IH]; simpl; [done|]. rewrite IH. lia. Qed.
Lemma times_nonneg a l : 0 <= times a l.
Proof. induction l as [|b l IH]; simpl; [done|]. destruct (decide (b = a)); lia. Qed.
Lemma times_in a l : a ∈ l <-> 0 < times a l.
Proof.
  induction l as [|b l IH]; simpl; [split; [by intros ?%not_elem_of_nil | lia]|]. rewrite elem_of_cons, IH. pose proof (times_nonneg a l).
  destruct (decide (b = a)) as [->|]; split; [lia | by left | intros [?|?]; [congruence | lia] | right; lia].
Qed.
Lemma times_not_in a l : a ∉ l <-> times a l = 0.
Proof. rewrite times_in. pose proof (times_nonneg a l). lia. Qed.
#[global] Instance times_perm a : Proper ((≡ₚ) ==> (=)) (times a).
Proof. intros l l' H. induction H; simpl; [done | lia | lia | congruence]. Qed.
End Times.
