(* ===== verification/Zx.v ===== *)
(** * The system's public constants

    The status codes, signal masks, rights and option bits of
    [zircon/system/public/zircon] that the kernel objects use.  Statuses are an
    enumeration with their numeric codes; masks are integers with the values of
    the headers. *)

From S2P Require Import Prelude.

(** ** errors.h *)

Inductive zx_status_t :=
| ZX_OK
| ZX_ERR_INTERNAL
| ZX_ERR_NOT_SUPPORTED
| ZX_ERR_NO_RESOURCES
| ZX_ERR_NO_MEMORY
| ZX_ERR_INTERNAL_INTR_RETRY
| ZX_ERR_INVALID_ARGS
| ZX_ERR_BAD_HANDLE
| ZX_ERR_WRONG_TYPE
| ZX_ERR_OUT_OF_RANGE
| ZX_ERR_BUFFER_TOO_SMALL
| ZX_ERR_BAD_STATE
| ZX_ERR_TIMED_OUT
| ZX_ERR_SHOULD_WAIT
| ZX_ERR_CANCELED
| ZX_ERR_PEER_CLOSED
| ZX_ERR_NOT_FOUND
| ZX_ERR_ALREADY_EXISTS
| ZX_ERR_ALREADY_BOUND
| ZX_ERR_ACCESS_DENIED
| ZX_ERR_STOP
| ZX_ERR_NEXT
| ZX_ERR_INTERNAL_INTR_KILLED.

Definition status_code (s : zx_status_t) : Z :=
  match s with
  | ZX_OK => 0
  | ZX_ERR_INTERNAL => -1
  | ZX_ERR_NOT_SUPPORTED => -2
  | ZX_ERR_NO_RESOURCES => -3
  | ZX_ERR_NO_MEMORY => -4
  | ZX_ERR_INTERNAL_INTR_RETRY => -6
  | ZX_ERR_INVALID_ARGS => -10
  | ZX_ERR_BAD_HANDLE => -11
  | ZX_ERR_WRONG_TYPE => -12
  | ZX_ERR_OUT_OF_RANGE => -14
  | ZX_ERR_BUFFER_TOO_SMALL => -15
  | ZX_ERR_BAD_STATE => -20
  | ZX_ERR_TIMED_OUT => -21
  | ZX_ERR_SHOULD_WAIT => -22
  | ZX_ERR_CANCELED => -23
  | ZX_ERR_PEER_CLOSED => -24
  | ZX_ERR_NOT_FOUND => -25
  | ZX_ERR_ALREADY_EXISTS => -26
  | ZX_ERR_ALREADY_BOUND => -27
  | ZX_ERR_ACCESS_DENIED => -30
  | ZX_ERR_STOP => -60
  | ZX_ERR_NEXT => -61
  | ZX_ERR_INTERNAL_INTR_KILLED => -502
  end.

#[export] Instance zx_status_t_eq_dec : EqDecision zx_status_t.
Proof. solve_decision. Defined.

(** [status != ZX_OK]. *)
Definition is_err (s : zx_status_t) : bool := bool_decide (s <> ZX_OK).

Lemma is_err_false s : is_err s = false <-> s = ZX_OK.
Proof.
  unfold is_err. rewrite bool_decide_eq_false. split; [|congruence].
  intros H. destruct (decide (s = ZX_OK)); [done | by destruct H].
Qed.

Lemma is_err_true s : is_err s = true <-> s <> ZX_OK.
Proof. unfold is_err. by rewrite bool_decide_eq_true. Qed.

(** ** types.h: signals *)

Definition ZX_USER_SIGNAL_ALL : Z := 0xff000000.
Definition ZX_OBJECT_READABLE : Z := 2 ^ 0.
Definition ZX_OBJECT_WRITABLE : Z := 2 ^ 1.
Definition ZX_OBJECT_PEER_CLOSED : Z := 2 ^ 2.
Definition ZX_OBJECT_SIGNALED : Z := 2 ^ 3.
Definition ZX_OBJECT_SIGNAL_4 : Z := 2 ^ 4.
Definition ZX_OBJECT_SIGNAL_5 : Z := 2 ^ 5.
Definition ZX_OBJECT_SIGNAL_10 : Z := 2 ^ 10.
Definition ZX_OBJECT_SIGNAL_11 : Z := 2 ^ 11.
Definition ZX_SIGNAL_HANDLE_CLOSED : Z := 2 ^ 23.

Definition ZX_EVENT_SIGNALED := ZX_OBJECT_SIGNALED.
Definition ZX_EVENTPAIR_SIGNALED := ZX_OBJECT_SIGNALED.
Definition ZX_EVENTPAIR_PEER_CLOSED := ZX_OBJECT_PEER_CLOSED.
Definition ZX_CHANNEL_READABLE := ZX_OBJECT_READABLE.
Definition ZX_CHANNEL_WRITABLE := ZX_OBJECT_WRITABLE.
Definition ZX_CHANNEL_PEER_CLOSED := ZX_OBJECT_PEER_CLOSED.
Definition ZX_CLOCK_STARTED := ZX_OBJECT_SIGNAL_4.
Definition ZX_SOCKET_READABLE := ZX_OBJECT_READABLE.
Definition ZX_SOCKET_WRITABLE := ZX_OBJECT_WRITABLE.
Definition ZX_SOCKET_PEER_CLOSED := ZX_OBJECT_PEER_CLOSED.
Definition ZX_SOCKET_PEER_WRITE_DISABLED := ZX_OBJECT_SIGNAL_4.
Definition ZX_SOCKET_WRITE_DISABLED := ZX_OBJECT_SIGNAL_5.
Definition ZX_SOCKET_READ_THRESHOLD := ZX_OBJECT_SIGNAL_10.
Definition ZX_SOCKET_WRITE_THRESHOLD := ZX_OBJECT_SIGNAL_11.
Definition ZX_FIFO_READABLE := ZX_OBJECT_READABLE.
Definition ZX_FIFO_WRITABLE := ZX_OBJECT_WRITABLE.
Definition ZX_FIFO_PEER_CLOSED := ZX_OBJECT_PEER_CLOSED.
Definition ZX_TASK_TERMINATED := ZX_OBJECT_SIGNALED.
Definition ZX_JOB_NO_JOBS := ZX_OBJECT_SIGNAL_4.
Definition ZX_JOB_NO_PROCESSES := ZX_OBJECT_SIGNAL_5.
Definition ZX_THREAD_TERMINATED := ZX_OBJECT_SIGNALED.
Definition ZX_THREAD_RUNNING := ZX_OBJECT_SIGNAL_4.
Definition ZX_THREAD_SUSPENDED := ZX_OBJECT_SIGNAL_5.
Definition ZX_TIMER_SIGNALED := ZX_OBJECT_SIGNALED.

(** ** types.h: option bits and identifiers *)

Definition ZX_SOCKET_SHUTDOWN_WRITE : Z := 2 ^ 0.
Definition ZX_SOCKET_SHUTDOWN_READ : Z := 2 ^ 1.
Definition ZX_SOCKET_DATAGRAM : Z := 2 ^ 0.
Definition ZX_SOCKET_CREATE_MASK : Z := ZX_SOCKET_DATAGRAM.
Definition ZX_CHANNEL_MAX_MSG_BYTES : Z := 65536.
Definition ZX_CHANNEL_MAX_MSG_HANDLES : Z := 64.
Definition ZX_TIMER_SLACK_CENTER : Z := 0.
Definition ZX_TIMER_SLACK_EARLY : Z := 1.
Definition ZX_TIMER_SLACK_LATE : Z := 2.
Definition ZX_KOID_INVALID : Z := 0.
Definition ZX_KOID_FIRST : Z := 1024.

(** ** rights.h *)

Definition ZX_RIGHT_DUPLICATE : Z := 2 ^ 0.
Definition ZX_RIGHT_TRANSFER : Z := 2 ^ 1.
Definition ZX_RIGHT_READ : Z := 2 ^ 2.
Definition ZX_RIGHT_WRITE : Z := 2 ^ 3.
Definition ZX_RIGHT_GET_PROPERTY : Z := 2 ^ 6.
Definition ZX_RIGHT_SET_PROPERTY : Z := 2 ^ 7.
Definition ZX_RIGHT_ENUMERATE : Z := 2 ^ 8.
Definition ZX_RIGHT_DESTROY : Z := 2 ^ 9.
Definition ZX_RIGHT_SET_POLICY : Z := 2 ^ 10.
Definition ZX_RIGHT_GET_POLICY : Z := 2 ^ 11.
Definition ZX_RIGHT_SIGNAL : Z := 2 ^ 12.
Definition ZX_RIGHT_SIGNAL_PEER : Z := 2 ^ 13.
Definition ZX_RIGHT_WAIT : Z := 2 ^ 14.
Definition ZX_RIGHT_INSPECT : Z := 2 ^ 15.
Definition ZX_RIGHT_MANAGE_JOB : Z := 2 ^ 16.
Definition ZX_RIGHT_MANAGE_PROCESS : Z := 2 ^ 17.
Definition ZX_RIGHT_MANAGE_THREAD : Z := 2 ^ 18.

Definition ZX_RIGHTS_BASIC : Z :=
  ZX_RIGHT_TRANSFER .| ZX_RIGHT_DUPLICATE .| ZX_RIGHT_WAIT .| ZX_RIGHT_INSPECT.
Definition ZX_RIGHTS_IO : Z := ZX_RIGHT_READ .| ZX_RIGHT_WRITE.
Definition ZX_RIGHTS_PROPERTY : Z := ZX_RIGHT_GET_PROPERTY .| ZX_RIGHT_SET_PROPERTY.
Definition ZX_RIGHTS_POLICY : Z := ZX_RIGHT_GET_POLICY .| ZX_RIGHT_SET_POLICY.

Definition ZX_DEFAULT_CHANNEL_RIGHTS : Z :=
  (ZX_RIGHTS_BASIC .&~ ZX_RIGHT_DUPLICATE) .| ZX_RIGHTS_IO .| ZX_RIGHT_SIGNAL
  .| ZX_RIGHT_SIGNAL_PEER.
Definition ZX_DEFAULT_EVENT_RIGHTS : Z := ZX_RIGHTS_BASIC .| ZX_RIGHT_SIGNAL.
Definition ZX_DEFAULT_EVENTPAIR_RIGHTS : Z :=
  ZX_RIGHTS_BASIC .| ZX_RIGHT_SIGNAL .| ZX_RIGHT_SIGNAL_PEER.
Definition ZX_DEFAULT_FIFO_RIGHTS : Z :=
  ZX_RIGHTS_BASIC .| ZX_RIGHTS_IO .| ZX_RIGHT_SIGNAL .| ZX_RIGHT_SIGNAL_PEER.
Definition ZX_DEFAULT_JOB_RIGHTS : Z :=
  ZX_RIGHTS_BASIC .| ZX_RIGHTS_IO .| ZX_RIGHTS_PROPERTY .| ZX_RIGHTS_POLICY
  .| ZX_RIGHT_ENUMERATE .| ZX_RIGHT_DESTROY .| ZX_RIGHT_SIGNAL .| ZX_RIGHT_MANAGE_JOB
  .| ZX_RIGHT_MANAGE_PROCESS .| ZX_RIGHT_MANAGE_THREAD.
Definition ZX_DEFAULT_PORT_RIGHTS : Z :=
  (ZX_RIGHTS_BASIC .&~ ZX_RIGHT_WAIT) .| ZX_RIGHTS_IO.
Definition ZX_DEFAULT_SOCKET_RIGHTS : Z :=
  ZX_RIGHTS_BASIC .| ZX_RIGHTS_IO .| ZX_RIGHT_GET_PROPERTY .| ZX_RIGHT_SET_PROPERTY
  .| ZX_RIGHT_SIGNAL .| ZX_RIGHT_SIGNAL_PEER.
Definition ZX_DEFAULT_TIMER_RIGHTS : Z := ZX_RIGHTS_BASIC .| ZX_RIGHT_WRITE .| ZX_RIGHT_SIGNAL.
