(* ===== verification/UserCopy.v ===== *)
(** * Copies between the kernel and user memory

    [user_ptr] of [lib/user_copy/user_ptr.h] over [arch_copy_from_user] and
    [arch_copy_to_user] of [arch/x86/user_copy.cc]: a copy whose range is not
    within the user address space fails before any byte; otherwise the bytes
    before the first faulting address are copied (the [rep movsb] path of
    [user_copy.S]) and the copy reports [ZX_ERR_INVALID_ARGS]. *)

From S2P Require Import Prelude Zx.

(** A byte is a [Z]; the code copies bytes and never computes with them, except
    for the transaction identifier at the head of a channel message. *)
Abbreviation byte := Z (only parsing).

(** ** Addresses *)

(** The x86-64 values of the build. *)
Definition USER_ASPACE_BASE : Z := 0x1000000.
Definition USER_ASPACE_SIZE : Z := 0x7ffffefff000.

Definition is_user_address (va : Z) : bool :=
  (va >=? USER_ASPACE_BASE) && (va <=? USER_ASPACE_BASE + (USER_ASPACE_SIZE - 1)).

Definition is_user_address_range (va len : Z) : bool :=
  (u64 (va + len) >=? va) && is_user_address va && ((len =? 0) || is_user_address (va + len - 1)).

(** ** Pointers *)

(** A user pointer, [None] when null, with what the process's memory holds: the
    byte at each address it can read. *)
Record user_in_ptr := { ui_mem : Z -> option byte; ui_ptr : option Z }.

(** A user pointer with the addresses the process can write. *)
Record user_out_ptr := { uo_ok : Z -> bool; uo_ptr : option Z }.

(** The bytes written so far through user pointers, by address. *)
Abbreviation user_mem := (gmap Z byte).

Definition in_byte_offset (p : user_in_ptr) (offset : Z) : user_in_ptr :=
  {| ui_mem := ui_mem p; ui_ptr := (fun a => a + offset) <$> ui_ptr p |}.

Definition out_byte_offset (p : user_out_ptr) (offset : Z) : user_out_ptr :=
  {| uo_ok := uo_ok p; uo_ptr := (fun a => a + offset) <$> uo_ptr p |}.

(** [can_access(ptr, len)]; the null pointer is not a user address. *)
Definition can_access (ptr : option Z) (len : Z) : bool :=
  match ptr with Some va => is_user_address_range va len | None => false end.

(** ** Copies *)

(** The bytes at [n] consecutive addresses up to the first fault. *)
Fixpoint user_read (mem : Z -> option byte) (va : Z) (n : nat) : list byte :=
  match n with
  | O => []
  | S n' =>
      match mem va with
      | None => []
      | Some b => b :: user_read mem (va + 1) n'
      end
  end.

(** Returns the status and the bytes that reached the destination. *)
Definition copy_array_from_user (src : user_in_ptr) (count : Z) : zx_status_t * list byte :=
  if negb (can_access (ui_ptr src) count) then (ZX_ERR_INVALID_ARGS, [])
  else
    let bs := user_read (ui_mem src) (default 0 (ui_ptr src)) (Z.to_nat count) in
    (if (length bs =? Z.to_nat count)%nat then ZX_OK else ZX_ERR_INVALID_ARGS, bs).

Fixpoint user_write (ok : Z -> bool) (va : Z) (src : list byte) (m : user_mem)
    : zx_status_t * user_mem :=
  match src with
  | [] => (ZX_OK, m)
  | b :: src' =>
      if ok va then user_write ok (va + 1) src' (<[va := b]> m)
      else (ZX_ERR_INVALID_ARGS, m)
  end.

Definition copy_array_to_user (dst : user_out_ptr) (src : list byte) (m : user_mem)
    : zx_status_t * user_mem :=
  if negb (can_access (uo_ptr dst) (zlen src)) then (ZX_ERR_INVALID_ARGS, m)
  else user_write (uo_ok dst) (default 0 (uo_ptr dst)) src m.

(** ** What a completed copy has done *)

(** Memory after writing [l] at [va]. *)
Fixpoint mem_write (va : Z) (l : list byte) (m : user_mem) : user_mem :=
  match l with
  | [] => m
  | b :: l' => mem_write (va + 1) l' (<[va := b]> m)
  end.

(** The address of a destination that is not null. *)
Definition uo_addr (dst : user_out_ptr) : Z := default 0 (uo_ptr dst).

(** [n] addresses from [ptr] are user addresses. *)
Definition user_range (ptr : option Z) (n : Z) : Prop :=
  exists va, ptr = Some va /\ USER_ASPACE_BASE <= va /\ va < USER_ASPACE_BASE + USER_ASPACE_SIZE /\
    va + n <= USER_ASPACE_BASE + USER_ASPACE_SIZE.

(** The source buffer holds [l]. *)
Definition in_buffer (src : user_in_ptr) (l : list byte) : Prop :=
  user_range (ui_ptr src) (zlen l) /\
  forall va i b, ui_ptr src = Some va -> l !! i = Some b -> ui_mem src (va + Z.of_nat i) = Some b.

(** The destination can take [n] bytes. *)
Definition out_buffer (dst : user_out_ptr) (n : Z) : Prop :=
  user_range (uo_ptr dst) n /\
  forall va i, uo_ptr dst = Some va -> 0 <= i < n -> uo_ok dst (va + i) = true.

(** A source that holds exactly [l] and a destination with room, for concrete
    runs. *)
Definition user_in_of (l : list byte) : user_in_ptr :=
  {| ui_mem := fun va => if va <? USER_ASPACE_BASE then None
                         else l !! Z.to_nat (va - USER_ASPACE_BASE);
     ui_ptr := Some USER_ASPACE_BASE |}.

Definition user_out_all : user_out_ptr :=
  {| uo_ok := fun _ => true; uo_ptr := Some USER_ASPACE_BASE |}.

Lemma is_user_address_iff va :
  is_user_address va = true <-> USER_ASPACE_BASE <= va < USER_ASPACE_BASE + USER_ASPACE_SIZE.
Proof. unfold is_user_address. rewrite andb_true_iff, Z.geb_le, Z.leb_le. lia. Qed.

Lemma aspace_end : 0 < USER_ASPACE_BASE /\ USER_ASPACE_BASE + USER_ASPACE_SIZE < 2 ^ 64.
Proof. done. Qed.

Lemma can_access_iff ptr n : 0 <= n -> can_access ptr n = true <-> user_range ptr n.
Proof.
  intros Hn. destruct ptr as [va|]; [|split; [done | by intros (? & ? & _)]].
  unfold can_access, is_user_address_range. pose proof aspace_end as He.
  rewrite !andb_true_iff, orb_true_iff, !is_user_address_iff, Z.geb_le, Z.eqb_eq.
  split.
  - intros [[_ H1] H2]. exists va. split_and!; [done|lia..].
  - intros (va' & E & H1 & H2 & H3). injection E as <-. rewrite u64_id by (unfold is_u64; lia).
    split_and!; lia.
Qed.

Lemma can_access_range ptr n : user_range ptr n -> 0 <= n -> can_access ptr n = true.
Proof. intros H Hn. by apply can_access_iff. Qed.

Lemma user_range_app ptr n k :
  user_range ptr n -> user_range ((fun a => a + n) <$> ptr) k -> user_range ptr (n + k).
Proof.
  intros (va & -> & H1 & H2 & H3) (va' & E & H4 & H5 & H6). injection E as <-.
  exists va. split_and!; [done|lia..].
Qed.

Lemma user_range_offset ptr n k :
  user_range ptr n -> 0 <= k < n -> user_range ((fun a => a + k) <$> ptr) (n - k).
Proof. intros (va & -> & H1 & H2 & H3) Hk. exists (va + k). simpl. split_and!; (done || lia). Qed.

Lemma user_range_mono ptr n k : user_range ptr n -> k <= n -> user_range ptr k.
Proof. intros (va & -> & H1 & H2 & H3) Hk. exists va. split_and!; (done || lia). Qed.

Lemma user_read_length mem va n : (length (user_read mem va n) <= n)%nat.
Proof.
  revert va. induction n as [|n IH]; intros va; simpl; [lia|].
  destruct (mem va); simpl; [specialize (IH (va + 1)); lia | lia].
Qed.

Lemma user_read_buffer mem va l :
  (forall i b, l !! i = Some b -> mem (va + Z.of_nat i) = Some b) ->
  user_read mem va (length l) = l.
Proof.
  revert va. induction l as [|b l IH]; intros va H; simpl; [done|].
  pose proof (H 0%nat b eq_refl) as H0. rewrite Z.add_0_r in H0. rewrite H0.
  f_equal. apply IH. intros i c Hi. rewrite <- (H (S i) c Hi). f_equal. lia.
Qed.

Lemma user_read_app mem va a b :
  length (user_read mem va a) = a ->
  user_read mem va (a + b) = user_read mem va a ++ user_read mem (va + Z.of_nat a) b.
Proof.
  revert va. induction a as [|a IH]; intros va H; simpl in *; [by rewrite Z.add_0_r|].
  destruct (mem va); simpl in *; [|done].
  rewrite IH by lia. do 2 f_equal. f_equal. lia.
Qed.

Lemma copy_from_length src count :
  (length (copy_array_from_user src count).2 <= Z.to_nat count)%nat.
Proof. unfold copy_array_from_user. destruct (negb _); simpl; [lia | apply user_read_length]. Qed.

Lemma copy_from_ok_length src count bs :
  copy_array_from_user src count = (ZX_OK, bs) -> length bs = Z.to_nat count.
Proof.
  unfold copy_array_from_user. intros H. destruct (negb _); [done|].
  destruct (Nat.eqb_spec (length (user_read (ui_mem src) (default 0 (ui_ptr src)) (Z.to_nat count)))
              (Z.to_nat count)); by simplify_eq.
Qed.

Lemma copy_from_status src count st bs :
  copy_array_from_user src count = (st, bs) -> st <> ZX_OK -> st = ZX_ERR_INVALID_ARGS.
Proof.
  unfold copy_array_from_user. intros H Hst. destruct (negb _); [by simplify_eq|].
  destruct (_ =? _)%nat; by simplify_eq.
Qed.

(** Two consecutive copies are one. *)
Lemma copy_from_app src n k l l' :
  0 <= n -> 0 <= k ->
  copy_array_from_user src n = (ZX_OK, l) ->
  copy_array_from_user (in_byte_offset src n) k = (ZX_OK, l') ->
  copy_array_from_user src (n + k) = (ZX_OK, l ++ l').
Proof.
  intros Hn Hk H1 H2. pose proof (copy_from_ok_length _ _ _ H1) as L1.
  pose proof (copy_from_ok_length _ _ _ H2) as L2.
  unfold copy_array_from_user in *.
  destruct (can_access (ui_ptr src) n) eqn:E1; cbn [negb] in H1; [|done].
  destruct (can_access (ui_ptr (in_byte_offset src n)) k) eqn:E2; cbn [negb] in H2; [|done].
  apply can_access_iff in E1, E2; [|lia..]. destruct (E1) as (va & Hva & _).
  rewrite (can_access_range _ (n + k)) by (by apply user_range_app || lia). cbn [negb].
  cbn [in_byte_offset ui_ptr ui_mem] in *. rewrite Hva in *. cbn [fmap option_fmap option_map default] in *.
  injection H1 as H1s H1. injection H2 as H2s H2. cbn [id] in *. unfold id in *.
  rewrite Z2Nat.inj_add by lia. rewrite user_read_app by congruence.
  rewrite H1, Z2Nat.id by lia. rewrite H2, length_app, L1, L2. by rewrite Nat.eqb_refl.
Qed.

(** Copying from a buffer that holds at least [count] bytes succeeds with the
    first [count] of them. *)
Lemma copy_from_buffer src l count :
  in_buffer src l -> 0 <= count <= zlen l ->
  copy_array_from_user src count = (ZX_OK, take (Z.to_nat count) l).
Proof.
  intros [Hr Hb] Hc. unfold copy_array_from_user.
  rewrite can_access_range by (try done; try lia; by eapply user_range_mono; [done|lia]). simpl.
  destruct Hr as (va & Hva & _). rewrite Hva. simpl. unfold zlen in *.
  assert (user_read (ui_mem src) va (Z.to_nat count) = take (Z.to_nat count) l) as ->.
  { rewrite <- (user_read_buffer (ui_mem src) va (take (Z.to_nat count) l)) at 1.
    - rewrite length_take. f_equal. lia.
    - intros i b Hi. apply Hb; [done|]. apply lookup_take_Some in Hi. tauto. }
  rewrite length_take. by rewrite (proj2 (Nat.eqb_eq _ _)) by lia.
Qed.

Lemma in_buffer_offset src l n :
  in_buffer src l -> 0 <= n < zlen l -> in_buffer (in_byte_offset src n) (drop (Z.to_nat n) l).
Proof.
  intros [Hr Hb] Hn. split.
  - replace (zlen (drop (Z.to_nat n) l)) with (zlen l - n)
      by (unfold zlen in *; rewrite length_drop; lia).
    by apply user_range_offset.
  - intros va i b Hva Hi. simpl in *. destruct (ui_ptr src) as [va0|] eqn:E; simplify_eq/=.
    rewrite lookup_drop in Hi. rewrite <- (Hb va0 _ _ eq_refl Hi). f_equal. lia.
Qed.

Lemma in_buffer_of l : zlen l <= USER_ASPACE_SIZE -> in_buffer (user_in_of l) l.
Proof.
  intros Hl. split.
  - exists USER_ASPACE_BASE. pose proof (zlen_nonneg l). unfold USER_ASPACE_SIZE in *.
    split_and!; (done || lia).
  - intros va i b Hva Hi. unfold user_in_of in *. cbn [ui_mem ui_ptr] in *. simplify_eq.
    destruct (Z.ltb_spec (USER_ASPACE_BASE + Z.of_nat i) USER_ASPACE_BASE); [lia|].
    rewrite <- Hi. f_equal. lia.
Qed.

Lemma user_write_ok ok va l m :
  (forall i, 0 <= i < zlen l -> ok (va + i) = true) ->
  user_write ok va l m = (ZX_OK, mem_write va l m).
Proof.
  unfold zlen. revert va m. induction l as [|b l IH]; intros va m H; simpl; [done|].
  rewrite <- (Z.add_0_r va) at 1. rewrite H by (simpl; lia).
  apply IH. intros i Hi. rewrite <- Z.add_assoc. apply H. simpl. lia.
Qed.

Lemma copy_to_buffer dst l m n :
  out_buffer dst n -> zlen l <= n ->
  copy_array_to_user dst l m = (ZX_OK, mem_write (uo_addr dst) l m).
Proof.
  intros [Hr H] Hl. unfold copy_array_to_user.
  rewrite can_access_range by (try apply zlen_nonneg; by eapply user_range_mono). simpl.
  unfold uo_addr. destruct Hr as (va & Hva & _). rewrite Hva. simpl.
  apply user_write_ok. intros i Hi. apply H; [done|lia].
Qed.

Lemma copy_to_ok_inv dst l m m' :
  copy_array_to_user dst l m = (ZX_OK, m') ->
  m' = mem_write (uo_addr dst) l m /\ exists va, uo_ptr dst = Some va.
Proof.
  unfold copy_array_to_user, uo_addr. intros H. destruct (uo_ptr dst) as [va|]; [|done].
  destruct (negb _) in H; [done|]. split; [|by exists va]. simpl in *. revert va m H.
  induction l as [|b l IH]; intros va m; simpl; [congruence|].
  destruct (uo_ok dst va); [apply IH | discriminate].
Qed.

Lemma uo_addr_offset dst va k : uo_ptr dst = Some va -> uo_addr (out_byte_offset dst k) = uo_addr dst + k.
Proof. unfold uo_addr, out_byte_offset. simpl. by intros ->. Qed.

Lemma out_buffer_ptr dst n : out_buffer dst n -> exists va, uo_ptr dst = Some va.
Proof. intros [(va & ? & _) _]. by exists va. Qed.

Lemma mem_write_app va l k m :
  mem_write va (l ++ k) m = mem_write (va + zlen l) k (mem_write va l m).
Proof.
  unfold zlen. revert va m. induction l as [|b l IH]; intros va m; simpl.
  - by rewrite Z.add_0_r.
  - rewrite IH. f_equal. lia.
Qed.

Lemma out_buffer_offset dst n k :
  out_buffer dst n -> 0 <= k < n -> out_buffer (out_byte_offset dst k) (n - k).
Proof.
  intros [Hr H] Hk. split; [by apply user_range_offset|].
  intros va i Hva Hi. simpl in *. destruct (uo_ptr dst) as [va0|] eqn:E; simplify_eq/=.
  rewrite <- Z.add_assoc. apply H; [done|lia].
Qed.

Lemma out_buffer_mono dst n k : out_buffer dst n -> k <= n -> out_buffer dst k.
Proof.
  intros [Hr H] Hk. split; [by eapply user_range_mono|]. intros va i Hva Hi. apply H; [done|lia].
Qed.

Lemma mem_write_lookup_lt va l m i : i < va -> mem_write va l m !! i = m !! i.
Proof.
  revert va m. induction l as [|b l IH]; intros va m Hi; simpl; [done|].
  rewrite IH by lia. apply lookup_insert_ne. lia.
Qed.

(** Each written byte is read back at its place. *)
Lemma mem_write_lookup va l m i b :
  l !! i = Some b -> mem_write va l m !! (va + Z.of_nat i) = Some b.
Proof.
  revert va m i. induction l as [|c l IH]; intros va m i Hi; [done|].
  destruct i as [|i]; simpl in *.
  - rewrite Z.add_0_r, mem_write_lookup_lt by lia. simplify_eq. apply lookup_insert_eq.
  - replace (va + Z.of_nat (S i)) with (va + 1 + Z.of_nat i) by lia. by apply IH.
Qed.

(** The [n] bytes a process sees at [va]. *)
Definition mem_slice (m : user_mem) (va : Z) (n : nat) : list byte :=
  map (fun i => default 0 (m !! (va + Z.of_nat i))) (seq 0 n).

Lemma mem_slice_write va l m : mem_slice (mem_write va l m) va (length l) = l.
Proof.
  apply list_eq. intros i. unfold mem_slice. rewrite list_lookup_fmap.
  destruct (l !! i) as [b|] eqn:E.
  - pose proof (lookup_lt_Some _ _ _ E). rewrite lookup_seq_lt by done. simpl.
    by rewrite (mem_write_lookup _ _ _ _ _ E).
  - apply lookup_ge_None in E. by rewrite lookup_seq_ge.
Qed.

Lemma mem_slice_take va n l m :
  (n <= length l)%nat -> mem_slice (mem_write va (take n l) m) va n = take n l.
Proof.
  intros H. pose proof (mem_slice_write va (take n l) m) as E.
  by rewrite length_take_le in E.
Qed.

Lemma out_buffer_all n : 0 <= n <= USER_ASPACE_SIZE -> out_buffer user_out_all n.
Proof.
  intros Hn. split; [|done]. exists USER_ASPACE_BASE. unfold USER_ASPACE_SIZE in *.
  split_and!; (done || lia).
Qed.

(** [bs] are the [n] bytes at offset [pos] of the source; nothing is said of a
    source from which nothing was copied. *)
Definition copied (src : user_in_ptr) (pos n : Z) (bs : list byte) : Prop :=
  zlen bs = n /\ (0 < n -> copy_array_from_user (in_byte_offset src pos) n = (ZX_OK, bs)).

Lemma in_byte_offset_add src a b :
  in_byte_offset (in_byte_offset src a) b = in_byte_offset src (a + b).
Proof.
  unfold in_byte_offset. simpl. f_equal. destruct (ui_ptr src); simpl; [f_equal; lia | done].
Qed.

Lemma in_byte_offset_0 src : in_byte_offset src 0 = src.
Proof.
  unfold in_byte_offset. destruct src as [mem [va|]]; simpl; [by rewrite Z.add_0_r | done].
Qed.

Lemma copied_nil src pos : copied src pos 0 [].
Proof. split; [done|lia]. Qed.

Lemma copied_app src pos n k l l' :
  0 <= k -> copy_array_from_user (in_byte_offset src pos) n = (ZX_OK, l) -> 0 < n ->
  copied src (pos + n) k l' -> copied src pos (n + k) (l ++ l').
Proof.
  intros Hk H1 Hn [Hl H2]. pose proof (copy_from_ok_length _ _ _ H1) as L1. split.
  - rewrite zlen_app. unfold zlen in *. lia.
  - intros _. destruct (decide (k = 0)) as [->|Hk0].
    + apply zlen_0 in Hl. subst l'. by rewrite Z.add_0_r, app_nil_r.
    + rewrite <- in_byte_offset_add in H2. apply copy_from_app; [lia|lia|done|apply H2; lia].
Qed.

Lemma copied_buffer src l n bs :
  in_buffer src l -> copied src 0 n bs -> 0 <= n <= zlen l -> bs = take (Z.to_nat n) l.
Proof.
  intros Hl [Hz Hc] Hn. destruct (decide (n = 0)) as [->|Hn0]; [by apply zlen_0|].
  rewrite in_byte_offset_0 in Hc. rewrite (copy_from_buffer _ l) in Hc by done.
  specialize (Hc ltac:(lia)). congruence.
Qed.
