(* ===== verification/Dispatcher.v ===== *)
(** * Dispatchers and state observers

    [object/dispatcher.h], [object/dispatcher.cc] and [object/state_observer.h]:
    the signal state every kernel object carries, the observers that watch it,
    and the two families of dispatchers, [SoloDispatcher] and
    [PeeredDispatcher].

    Observers are an interface, the type class [StateObserver]: a callback takes
    the observer and the part [W] of the kernel it can change (a port's queue, a
    thread's event) and returns the flags with both updated.  The laws a client
    of the observer list relies on are [StateObserverLaws]; [WaitObserver.v] and
    [Port.v] give the two instances of the kernel. *)

From S2P Require Import Prelude Zx.

(** ** The observer interface (state_observer.h) *)

Abbreviation Flags := Z (only parsing).
Definition kNeedRemoval : Flags := 1.
Definition kHandled : Flags := 2.

Record CountEntry := { ce_count : Z; ce_signal : Z }.
(** [struct CountInfo { ... entry[2]; }] *)
Record CountInfo := { entry0 : CountEntry; entry1 : CountEntry }.
Definition entries (c : CountInfo) : list CountEntry := [entry0 c; entry1 c].

(** [observer_id] is the address of the observer. *)
Class StateObserver (W O : Type) := {
  observer_id : O -> Z;
  OnInitialize : Z -> option CountInfo -> O -> W -> Flags * O * W;
  OnStateChange : Z -> O -> W -> Flags * O * W;
  OnCancel : Z -> O -> W -> Flags * O * W;
  OnCancelByKey : Z -> Z -> Z -> O -> W -> Flags * O * W;
  OnRemoved : O -> W -> W;
}.

(** A callback updates the observer in place: its address does not change. *)
Class StateObserverLaws (W O : Type) `{!StateObserver W O} := {
  OnInitialize_id s ci o w : observer_id (OnInitialize s ci o w).1.2 = observer_id o;
  OnStateChange_id s o w : observer_id (OnStateChange s o w).1.2 = observer_id o;
  OnCancel_id h o w : observer_id (OnCancel h o w).1.2 = observer_id o;
  OnCancelByKey_id h p k o w : observer_id (OnCancelByKey h p k o w).1.2 = observer_id o;
}.

(** ** The dispatcher's own state *)

Record Dispatcher (O : Type) := mkDispatcher {
  koid_ : Z;
  handle_count_ : Z;
  signals_ : Z;
  observers_ : list O;
}.
Arguments mkDispatcher {O}.
Arguments koid_ {O}.
Arguments handle_count_ {O}.
Arguments signals_ {O}.
Arguments observers_ {O}.

(** [GenerateKernelObjectId]: the identifier and the counter's next value. *)
Definition GenerateKernelObjectId (global_koid : Z) : Z * Z := (global_koid, u64 (global_koid + 1)).

(** [Dispatcher::Dispatcher(signals)]. *)
Definition new_dispatcher {O} (koid signals : Z) : Dispatcher O :=
  {| koid_ := koid; handle_count_ := 0; signals_ := signals; observers_ := [] |}.

Definition increment_handle_count {O} (d : Dispatcher O) : Dispatcher O :=
  {| koid_ := koid_ d; handle_count_ := u32 (handle_count_ d + 1);
     signals_ := signals_ d; observers_ := observers_ d |}.

(** Returns [true] exactly when the count was one. *)
Definition decrement_handle_count {O} (d : Dispatcher O) : bool * Dispatcher O :=
  (handle_count_ d =? 1,
   {| koid_ := koid_ d; handle_count_ := u32 (handle_count_ d - 1);
      signals_ := signals_ d; observers_ := observers_ d |}).

Definition with_observers {O} (obs : list O) (d : Dispatcher O) : Dispatcher O :=
  {| koid_ := koid_ d; handle_count_ := handle_count_ d;
     signals_ := signals_ d; observers_ := obs |}.

Definition with_signals {O} (s : Z) (d : Dispatcher O) : Dispatcher O :=
  {| koid_ := koid_ d; handle_count_ := handle_count_ d;
     signals_ := s; observers_ := observers_ d |}.

Section Observers.
Context {W O : Type} {SO : StateObserver W O}.

(** The loop of [UpdateStateHelper] over the observer list. *)
Fixpoint notify_loop (sigs : Z) (obs : list O) (w : W) : list O * W :=
  match obs with
  | [] => ([], w)
  | o :: rest =>
      let '(fl, o', w1) := OnStateChange sigs o w in
      if has fl kNeedRemoval then notify_loop sigs rest (OnRemoved o' w1)
      else let '(rest', w2) := notify_loop sigs rest w1 in (o' :: rest', w2)
  end.

(** [UpdateStateHelper], the body of [UpdateState] and [UpdateStateLocked]. *)
Definition UpdateState (clear_mask set_mask : Z) (d : Dispatcher O) (w : W) : Dispatcher O * W :=
  let previous_signals := signals_ d in
  let new_signals := (signals_ d .&~ clear_mask) .| set_mask in
  let d1 := with_signals new_signals d in
  if previous_signals =? new_signals then (d1, w)
  else let '(obs, w1) := notify_loop new_signals (observers_ d1) w in (with_observers obs d1, w1).

(** [AddObserverHelper], the body of [AddObserver] and [AddObserverLocked]. *)
Definition AddObserverLocked (o : O) (cinfo : option CountInfo) (d : Dispatcher O) (w : W)
    : Dispatcher O * W :=
  let '(fl, o', w1) := OnInitialize (signals_ d) cinfo o w in
  if has fl kNeedRemoval then (d, OnRemoved o' w1)
  else (with_observers (o' :: observers_ d) d, w1).

(** [Dispatcher::AddObserver]; [rights] is the subclass's [default_rights()],
    from which [is_waitable] is computed. *)
Definition is_waitable (rights : Z) : bool := has rights ZX_RIGHT_WAIT.

Definition AddObserver (rights : Z) (o : O) (d : Dispatcher O) (w : W)
    : zx_status_t * Dispatcher O * W :=
  if negb (is_waitable rights) then (ZX_ERR_NOT_SUPPORTED, d, w)
  else let '(d1, w1) := AddObserverLocked o None d w in (ZX_OK, d1, w1).

Fixpoint erase_id (id : Z) (obs : list O) : list O :=
  match obs with
  | [] => []
  | o :: rest => if observer_id o =? id then rest else o :: erase_id id rest
  end.

Definition in_container (id : Z) (obs : list O) : bool :=
  existsb (fun o => observer_id o =? id) obs.

Definition RemoveObserver (id : Z) (d : Dispatcher O) : bool * Dispatcher O :=
  if in_container id (observers_ d) then (true, with_observers (erase_id id (observers_ d)) d)
  else (false, d).

(** [CancelWithFunc]: flags accumulated over the list, observers that ask for it
    removed; the removal bit is stripped from the result. *)
Fixpoint cancel_loop (f : O -> W -> Flags * O * W) (flags : Flags) (obs : list O) (w : W)
    : Flags * list O * W :=
  match obs with
  | [] => (flags, [], w)
  | o :: rest =>
      let '(it_flags, o', w1) := f o w in
      let flags := flags .| it_flags in
      if has it_flags kNeedRemoval then cancel_loop f flags rest (OnRemoved o' w1)
      else let '(fl, rest', w2) := cancel_loop f flags rest w1 in (fl, o' :: rest', w2)
  end.

Definition CancelWithFunc (f : O -> W -> Flags * O * W) (d : Dispatcher O) (w : W)
    : Flags * Dispatcher O * W :=
  let '(flags, obs, w1) := cancel_loop f 0 (observers_ d) w in
  (flags .&~ kNeedRemoval, with_observers obs d, w1).

Definition Cancel (handle : Z) (d : Dispatcher O) (w : W) : Dispatcher O * W :=
  let '(_, d1, w1) := CancelWithFunc (OnCancel handle) d w in (d1, w1).

Definition CancelByKey (handle port key : Z) (d : Dispatcher O) (w : W) : bool * Dispatcher O * W :=
  let '(flags, d1, w1) := CancelWithFunc (OnCancelByKey handle port key) d w in
  (has flags kHandled, d1, w1).

(** ** SoloDispatcher *)

Definition solo_user_signal_self (rights extra_signals clear_mask set_mask : Z)
    (d : Dispatcher O) (w : W) : zx_status_t * Dispatcher O * W :=
  if negb (is_waitable rights) then (ZX_ERR_NOT_SUPPORTED, d, w)
  else
    let allowed_signals := ZX_USER_SIGNAL_ALL .| extra_signals in
    if nz (set_mask .&~ allowed_signals) || nz (clear_mask .&~ allowed_signals)
    then (ZX_ERR_INVALID_ARGS, d, w)
    else let '(d1, w1) := UpdateState clear_mask set_mask d w in (ZX_OK, d1, w1).

Definition solo_user_signal_peer (clear_mask set_mask : Z) : zx_status_t := ZX_ERR_NOT_SUPPORTED.

End Observers.

(** ** Lemmas on the observer list *)

Section ObserverLemmas.
Context {W O : Type} {SO : StateObserver W O}.

Definition ids (obs : list O) : list Z := map observer_id obs.

Lemma UpdateState_signals clear set d (w : W) :
  signals_ (UpdateState clear set d w).1 = (signals_ d .&~ clear) .| set.
Proof. unfold UpdateState. repeat dmatch; done. Qed.

Lemma UpdateState_koid clear set d (w : W) :
  koid_ (UpdateState clear set d w).1 = koid_ d /\
  handle_count_ (UpdateState clear set d w).1 = handle_count_ d.
Proof. unfold UpdateState. repeat dmatch; done. Qed.

Lemma UpdateState_idem clear set d (w : W) :
  (signals_ d .&~ clear) .| set = signals_ d -> UpdateState clear set d w = (d, w).
Proof.
  intros H. unfold UpdateState. rewrite H, Z.eqb_refl. by destruct d.
Qed.

Lemma AddObserverLocked_signals o ci d (w : W) :
  signals_ (AddObserverLocked o ci d w).1 = signals_ d.
Proof. unfold AddObserverLocked. repeat dmatch; done. Qed.

Lemma notify_loop_ids `{!StateObserverLaws W O} sigs obs (w : W) :
  ids (notify_loop sigs obs w).1 `sublist_of` ids obs.
Proof.
  revert w. induction obs as [|o rest IH]; intros w; simpl; [done|].
  destruct (OnStateChange sigs o w) as [[fl o'] w1] eqn:E.
  pose proof (OnStateChange_id sigs o w) as Hid. rewrite E in Hid. simpl in Hid.
  destruct (has fl kNeedRemoval).
  - by constructor.
  - specialize (IH w1). destruct (notify_loop sigs rest w1) as [rest' w2]. simpl in *.
    rewrite Hid. by constructor.
Qed.

Lemma cancel_loop_ids f flags obs (w : W) :
  (forall o w, observer_id (f o w).1.2 = observer_id o) ->
  ids (cancel_loop f flags obs w).1.2 `sublist_of` ids obs.
Proof.
  intros Hf. revert flags w. induction obs as [|o rest IH]; intros flags w; simpl; [done|].
  destruct (f o w) as [[fl o'] w1] eqn:E.
  pose proof (Hf o w) as Hid. rewrite E in Hid. simpl in Hid.
  destruct (has fl kNeedRemoval).
  - by constructor.
  - specialize (IH (flags .| fl) w1).
    destruct (cancel_loop f (flags .| fl) rest w1) as [[fl2 rest'] w2]. simpl in *.
    rewrite Hid. by constructor.
Qed.

Lemma has_lor_l a b m : has (a .| b) m = has a m || has b m.
Proof.
  unfold has. rewrite Z.land_lor_distr_l.
  destruct (Z.eqb_spec (Z.land a m) 0) as [E|E].
  - by rewrite E, Z.lor_0_l.
  - simpl. apply negb_true_iff, Z.eqb_neq. intros H. apply Z.lor_eq_0_iff in H. tauto.
Qed.

(** The accumulated flags hold [m] when they did before or some observer, called
    in list order with the state its predecessors left, returned it. *)
Lemma cancel_loop_flags_mono f flags obs (w : W) m :
  has flags m = true -> has (cancel_loop f flags obs w).1.1 m = true.
Proof.
  revert flags w. induction obs as [|o rest IH]; intros flags w H; simpl; [done|].
  destruct (f o w) as [[fl o'] w1].
  assert (has (flags .| fl) m = true) as H' by (rewrite has_lor_l, H; done).
  destruct (has fl kNeedRemoval); [by apply IH|].
  specialize (IH (flags .| fl) w1 H').
  by destruct (cancel_loop f (flags .| fl) rest w1) as [[fl2 rest'] w2].
Qed.

Lemma erase_id_ids id (obs : list O) : ids (erase_id id obs) `sublist_of` ids obs.
Proof.
  induction obs as [|o rest IH]; simpl; [done|].
  destruct (observer_id o =? id); simpl; by constructor.
Qed.

Lemma erase_id_not_in id (obs : list O) :
  NoDup (ids obs) -> id ∉ ids (erase_id id obs).
Proof.
  induction obs as [|o rest IH]; simpl; intros Hnd; [apply not_elem_of_nil|].
  apply NoDup_cons in Hnd as [Hni Hnd].
  destruct (Z.eqb_spec (observer_id o) id) as [<-|Hne]; simpl; [done|].
  apply not_elem_of_cons. split; [congruence | by apply IH].
Qed.

Lemma in_container_iff id (obs : list O) : in_container id obs = true <-> id ∈ ids obs.
Proof.
  unfold in_container, ids. rewrite existsb_exists. split.
  - intros (o & Ho & He). apply Z.eqb_eq in He. subst.
    apply list_elem_of_In, in_map. done.
  - intros Hi. apply list_elem_of_In, in_map_iff in Hi as (o & He & Ho).
    exists o. split; [done | by apply Z.eqb_eq].
Qed.

End ObserverLemmas.

(** A kernel in which nothing is waiting, for concrete runs. *)
#[export] Instance no_observers : StateObserver unit Empty_set := {
  observer_id o := match o with end;
  OnInitialize _ _ o w := (0, o, w);
  OnStateChange _ o w := (0, o, w);
  OnCancel _ o w := (0, o, w);
  OnCancelByKey _ _ _ o w := (0, o, w);
  OnRemoved _ w := w;
}.
