(* ===== verification/Peered.v ===== *)
(** * Peered dispatchers

    The [PeeredDispatcher] template of [object/dispatcher.h].  Two endpoints are
    created together, share one lock and point at each other until one of them
    loses its last handle.  A pair is modelled as one state, [PeerSys]: both
    endpoints, what else the lock of the pair protects ([shared]) and the part of
    the kernel the observers reach ([world]).  An operation names the endpoint it
    is called on by its [side]; a non-null [peer_] always points at the other
    side.  [X] is what a subclass adds to an endpoint; its [on_zero_handles_locked]
    and [OnPeerZeroHandlesLocked], static members of the template's [Self]
    argument, are the class [PeeredSelf]. *)

From S2P Require Import Prelude Zx Dispatcher.

Inductive side := Side0 | Side1.

#[export] Instance side_eq_dec : EqDecision side.
Proof. solve_decision. Defined.

Definition other (sd : side) : side :=
  match sd with Side0 => Side1 | Side1 => Side0 end.

Section Peered.
Context {W O : Type} {SO : StateObserver W O} {X Y : Type}.

Record Endpoint := mkEndpoint {
  base : Dispatcher O;
  peer_koid_ : Z;
  peer_ : bool;
  ext : X;
}.

Record PeerSys := mkPeerSys {
  ep0 : Endpoint;
  ep1 : Endpoint;
  shared : Y;
  world : W;
}.

Definition get (sd : side) (p : PeerSys) : Endpoint :=
  match sd with Side0 => ep0 p | Side1 => ep1 p end.

Definition put (sd : side) (e : Endpoint) (p : PeerSys) : PeerSys :=
  match sd with
  | Side0 => {| ep0 := e; ep1 := ep1 p; shared := shared p; world := world p |}
  | Side1 => {| ep0 := ep0 p; ep1 := e; shared := shared p; world := world p |}
  end.

Definition put_world (w : W) (p : PeerSys) : PeerSys :=
  {| ep0 := ep0 p; ep1 := ep1 p; shared := shared p; world := w |}.

Definition put_shared (y : Y) (p : PeerSys) : PeerSys :=
  {| ep0 := ep0 p; ep1 := ep1 p; shared := y; world := world p |}.

Definition with_base (d : Dispatcher O) (e : Endpoint) : Endpoint :=
  {| base := d; peer_koid_ := peer_koid_ e; peer_ := peer_ e; ext := ext e |}.
Definition with_ext (x : X) (e : Endpoint) : Endpoint :=
  {| base := base e; peer_koid_ := peer_koid_ e; peer_ := peer_ e; ext := x |}.
Definition with_peer (b : bool) (e : Endpoint) : Endpoint :=
  {| base := base e; peer_koid_ := peer_koid_ e; peer_ := b; ext := ext e |}.

(** Views of one side. *)
Definition sig (sd : side) (p : PeerSys) : Z := signals_ (base (get sd p)).
Definition xt (sd : side) (p : PeerSys) : X := ext (get sd p).
Definition has_peer (sd : side) (p : PeerSys) : bool := peer_ (get sd p).
Definition put_peer (sd : side) (b : bool) (p : PeerSys) : PeerSys :=
  put sd (with_peer b (get sd p)) p.
Definition put_xt (sd : side) (x : X) (p : PeerSys) : PeerSys := put sd (with_ext x (get sd p)) p.

(** [UpdateStateLocked] on one endpoint of the pair. *)
Definition UpdateStateLocked (sd : side) (clear_mask set_mask : Z) (p : PeerSys) : PeerSys :=
  let '(d, w) := UpdateState clear_mask set_mask (base (get sd p)) (world p) in
  put_world w (put sd (with_base d (get sd p)) p).

(** [AddObserverLocked] on one endpoint of the pair. *)
Definition AddObserverLockedAt (sd : side) (o : O) (ci : option CountInfo) (p : PeerSys) : PeerSys :=
  let '(d, w) := AddObserverLocked o ci (base (get sd p)) (world p) in
  put_world w (put sd (with_base d (get sd p)) p).

(** The pair after both constructors and both [Init] calls: koids in creation
    order, each endpoint pointing at the other. *)
Definition new_pair (k0 k1 signals : Z) (x0 x1 : X) (y : Y) (w : W) : PeerSys :=
  {| ep0 := {| base := new_dispatcher k0 signals; peer_koid_ := k1; peer_ := true; ext := x0 |};
     ep1 := {| base := new_dispatcher k1 signals; peer_koid_ := k0; peer_ := true; ext := x1 |};
     shared := y; world := w |}.

End Peered.

Arguments Endpoint : clear implicits.
Arguments PeerSys : clear implicits.

Class PeeredSelf (W O X Y : Type) := {
  peered_rights : Z;
  extra_signals : Z;
  on_zero_handles_locked : side -> PeerSys W O X Y -> PeerSys W O X Y;
  OnPeerZeroHandlesLocked : side -> PeerSys W O X Y -> PeerSys W O X Y;
}.

Section PeeredOps.
Context {W O : Type} {SO : StateObserver W O} {X Y : Type} {PS : PeeredSelf W O X Y}.
Implicit Types p : PeerSys W O X Y.

Definition user_signal_self (sd : side) (clear_mask set_mask : Z) p
    : zx_status_t * PeerSys W O X Y :=
  let allowed_signals := ZX_USER_SIGNAL_ALL .| extra_signals in
  if nz (set_mask .&~ allowed_signals) || nz (clear_mask .&~ allowed_signals)
  then (ZX_ERR_INVALID_ARGS, p)
  else (ZX_OK, UpdateStateLocked sd clear_mask set_mask p).

Definition user_signal_peer (sd : side) (clear_mask set_mask : Z) p
    : zx_status_t * PeerSys W O X Y :=
  let allowed_signals := ZX_USER_SIGNAL_ALL .| extra_signals in
  if nz (set_mask .&~ allowed_signals) || nz (clear_mask .&~ allowed_signals)
  then (ZX_ERR_INVALID_ARGS, p)
  else if negb (has_peer sd p) then (ZX_ERR_PEER_CLOSED, p)
  else (ZX_OK, UpdateStateLocked (other sd) clear_mask set_mask p).

(** [PeeredDispatcher::on_zero_handles]: the endpoint drops its peer, runs its
    own hook, and then the former peer forgets it and runs the other hook. *)
Definition on_zero_handles (sd : side) p : PeerSys W O X Y :=
  let peer := has_peer sd p in
  let p := put_peer sd false p in
  let p := on_zero_handles_locked sd p in
  if peer then OnPeerZeroHandlesLocked (other sd) (put_peer (other sd) false p) else p.

Definition PeerHasClosed (sd : side) p : bool := negb (has_peer sd p).

End PeeredOps.

(** ** Lemmas *)

Section PeeredLemmas.
Context {W O : Type} {SO : StateObserver W O} {X Y : Type}.
Implicit Types p : PeerSys W O X Y.

Lemma other_other sd : other (other sd) = sd.
Proof. by destruct sd. Qed.

Lemma other_ne sd : other sd <> sd.
Proof. by destruct sd. Qed.

Lemma get_put_eq sd e p : get sd (put sd e p) = e.
Proof. by destruct sd. Qed.

Lemma get_put_other sd e p : get (other sd) (put sd e p) = get (other sd) p.
Proof. by destruct sd. Qed.

Lemma get_other_put sd e p : get sd (put (other sd) e p) = get sd p.
Proof. by destruct sd. Qed.

Lemma get_put_world sd w p : get sd (put_world w p) = get sd p.
Proof. by destruct sd. Qed.

Lemma get_put_shared sd y p : get sd (put_shared y p) = get sd p.
Proof. by destruct sd. Qed.

Lemma put_get sd p : put sd (get sd p) p = p.
Proof. by destruct sd, p. Qed.

Lemma shared_put sd e p : shared (put sd e p) = shared p.
Proof. by destruct sd. Qed.

Lemma get_update_other sd c s p :
  get (other sd) (UpdateStateLocked sd c s p) = get (other sd) p.
Proof.
  unfold UpdateStateLocked. destruct (UpdateState _ _ _ _) as [d w].
  by rewrite get_put_world, get_put_other.
Qed.

Lemma get_other_update sd c s p :
  get sd (UpdateStateLocked (other sd) c s p) = get sd p.
Proof. rewrite <- (other_other sd) at 1 3. apply get_update_other. Qed.

Lemma get_update_eq sd c s p :
  get sd (UpdateStateLocked sd c s p) =
  with_base (UpdateState c s (base (get sd p)) (world p)).1 (get sd p).
Proof.
  unfold UpdateStateLocked. destruct (UpdateState _ _ _ _) as [d w].
  by rewrite get_put_world, get_put_eq.
Qed.

Lemma sig_update_eq sd c s p : sig sd (UpdateStateLocked sd c s p) = (sig sd p .&~ c) .| s.
Proof. unfold sig. rewrite get_update_eq. apply UpdateState_signals. Qed.

Lemma sig_update_other sd c s p : sig (other sd) (UpdateStateLocked sd c s p) = sig (other sd) p.
Proof. unfold sig. by rewrite get_update_other. Qed.

Lemma sig_other_update sd c s p : sig sd (UpdateStateLocked (other sd) c s p) = sig sd p.
Proof. unfold sig. by rewrite get_other_update. Qed.

Lemma xt_update sd sd' c s p : xt sd (UpdateStateLocked sd' c s p) = xt sd p.
Proof.
  unfold xt. destruct (decide (sd = sd')) as [->|Hne].
  - by rewrite get_update_eq.
  - assert (sd = other sd') as -> by (destruct sd, sd'; done). by rewrite get_update_other.
Qed.

Lemma has_peer_update sd sd' c s p : has_peer sd (UpdateStateLocked sd' c s p) = has_peer sd p.
Proof.
  unfold has_peer. destruct (decide (sd = sd')) as [->|Hne].
  - by rewrite get_update_eq.
  - assert (sd = other sd') as -> by (destruct sd, sd'; done). by rewrite get_update_other.
Qed.

Lemma shared_update sd c s p : shared (UpdateStateLocked sd c s p) = shared p.
Proof.
  unfold UpdateStateLocked. destruct (UpdateState _ _ _ _) as [d w].
  cbn [shared put_world]. by rewrite shared_put.
Qed.

Lemma sig_put_xt sd sd' x p : sig sd (put_xt sd' x p) = sig sd p.
Proof. by destruct sd, sd'. Qed.

Lemma has_peer_put_xt sd sd' x p : has_peer sd (put_xt sd' x p) = has_peer sd p.
Proof. by destruct sd, sd'. Qed.

Lemma xt_put_xt_eq sd x p : xt sd (put_xt sd x p) = x.
Proof. by destruct sd. Qed.

Lemma xt_put_xt_other sd x p : xt (other sd) (put_xt sd x p) = xt (other sd) p.
Proof. by destruct sd. Qed.

Lemma xt_other_put_xt sd x p : xt sd (put_xt (other sd) x p) = xt sd p.
Proof. by destruct sd. Qed.

Lemma shared_put_xt sd x p : shared (put_xt sd x p) = shared p.
Proof. by destruct sd. Qed.

Lemma sig_put_shared sd y p : sig sd (put_shared y p) = sig sd p.
Proof. by destruct sd. Qed.

Lemma xt_put_shared sd y p : xt sd (put_shared y p) = xt sd p.
Proof. by destruct sd. Qed.

Lemma has_peer_put_shared sd y p : has_peer sd (put_shared y p) = has_peer sd p.
Proof. by destruct sd. Qed.

Lemma sig_put_peer sd sd' b p : sig sd (put_peer sd' b p) = sig sd p.
Proof. by destruct sd, sd'. Qed.

Lemma xt_put_peer sd sd' b p : xt sd (put_peer sd' b p) = xt sd p.
Proof. by destruct sd, sd'. Qed.

Lemma has_peer_put_peer_eq sd b p : has_peer sd (put_peer sd b p) = b.
Proof. by destruct sd. Qed.

Lemma has_peer_put_peer_other sd b p :
  has_peer (other sd) (put_peer sd b p) = has_peer (other sd) p.
Proof. by destruct sd. Qed.

Lemma has_peer_other_put_peer sd b p :
  has_peer sd (put_peer (other sd) b p) = has_peer sd p.
Proof. by destruct sd. Qed.

(** Updates of one signal, read back. *)
Lemma has_sig_update_eq sd c s p k :
  0 <= k ->
  has (sig sd (UpdateStateLocked sd c s p)) (2 ^ k) =
  Z.testbit s k || (has (sig sd p) (2 ^ k) && negb (Z.testbit c k)).
Proof. intros Hk. rewrite sig_update_eq. by apply has_update. Qed.

(** An update that sets and clears nothing changes nothing, so guarding an update
    by its mask makes no difference. *)
Lemma update_nop sd p : UpdateStateLocked sd 0 0 p = p.
Proof.
  unfold UpdateStateLocked. rewrite UpdateState_idem by (by rewrite Z.ldiff_0_r, Z.lor_0_r).
  by destruct sd, p as [[] [] ? ?].
Qed.

Lemma update_if_clear sd c p :
  (if nz c then UpdateStateLocked sd c 0 p else p) = UpdateStateLocked sd c 0 p.
Proof.
  unfold nz. destruct (Z.eqb_spec c 0) as [->|]; simpl; [by rewrite update_nop | done].
Qed.

Lemma update_if_set sd s p :
  (if nz s then UpdateStateLocked sd 0 s p else p) = UpdateStateLocked sd 0 s p.
Proof.
  unfold nz. destruct (Z.eqb_spec s 0) as [->|]; simpl; [by rewrite update_nop | done].
Qed.

Lemma update_cond_set (b : bool) sd s p :
  (if b then UpdateStateLocked sd 0 s p else p) = UpdateStateLocked sd 0 (if b then s else 0) p.
Proof. destruct b; [done | by rewrite update_nop]. Qed.

Lemma update_cond_clear (b : bool) sd c p :
  (if b then UpdateStateLocked sd c 0 p else p) = UpdateStateLocked sd (if b then c else 0) 0 p.
Proof. destruct b; [done | by rewrite update_nop]. Qed.

(** A property of both sides, from it for one side and the other. *)
Lemma both_sides sd (P : side -> Prop) : P sd -> P (other sd) -> forall sd', P sd'.
Proof. by destruct sd; intros ? ? []. Qed.

Lemma testbit_if (b : bool) m k : Z.testbit (if b then m else 0) k = b && Z.testbit m k.
Proof. destruct b; [done|]. apply Z.bits_0. Qed.

(** User signals are the top eight bits, which the kernel's own signals avoid. *)
Lemma user_mask_bit m k :
  nz (m .&~ (ZX_USER_SIGNAL_ALL .| 0)) = false -> 0 <= k < 24 -> Z.testbit m k = false.
Proof.
  unfold nz. intros H Hk. apply negb_false_iff, Z.eqb_eq in H.
  assert (Z.testbit (m .&~ (ZX_USER_SIGNAL_ALL .| 0)) k = false) as HF by (rewrite H; apply Z.bits_0).
  rewrite Z.ldiff_spec, Z.lor_0_r in HF.
  assert (Z.testbit ZX_USER_SIGNAL_ALL k = false) as Hz.
  { assert (forallb (fun k => negb (Z.testbit ZX_USER_SIGNAL_ALL (Z.of_nat k))) (seq 0 24) = true)
      as HB by reflexivity.
    rewrite forallb_forall in HB. specialize (HB (Z.to_nat k)). rewrite Z2Nat.id in HB by lia.
    apply negb_true_iff, HB, in_seq. lia. }
  by rewrite Hz, andb_true_r in HF.
Qed.

End PeeredLemmas.

Create Rewrite HintDb peer.
#[export] Hint Rewrite @other_other @get_put_eq @get_put_other @get_other_put @get_put_world
  @get_put_shared @get_update_other @get_other_update @sig_update_eq @sig_update_other
  @sig_other_update @xt_update @has_peer_update @shared_update @sig_put_xt @has_peer_put_xt
  @xt_put_xt_eq @xt_put_xt_other @xt_other_put_xt @shared_put_xt @sig_put_shared @xt_put_shared
  @has_peer_put_shared @sig_put_peer @xt_put_peer @has_peer_put_peer_eq
  @has_peer_put_peer_other @has_peer_other_put_peer : peer.

(** Reduces signal tests of the goal: peered updates are pushed to the underlying
    signal sets and tests of a single bit of a constant mask are computed. *)
Ltac bits :=
  repeat match goal with
  | |- context [Z.testbit ?a ?k] =>
      let r := eval vm_compute in (Z.testbit a k) in
      match r with
      | true => change (Z.testbit a k) with true
      | false => change (Z.testbit a k) with false
      end
  end.

(** Reads the signals after a series of updates. *)
Ltac sigs :=
  autorewrite with peer; rewrite ?has_update by lia; rewrite ?Z.lor_spec, ?testbit_if, ?Z.bits_0;
  bits;
  repeat progress (cbn [negb]; rewrite ?andb_true_r, ?andb_false_r, ?orb_false_r, ?orb_true_r,
                   ?orb_false_l, ?andb_true_l, ?andb_false_l).

(** Decides goals on integer comparisons held as booleans. *)
Ltac zbool :=
  repeat match goal with
  | |- context [?a =? ?b] => destruct (Z.eqb_spec a b)
  | |- context [?a <? ?b] => destruct (Z.ltb_spec a b)
  | |- context [?a <=? ?b] => destruct (Z.leb_spec a b)
  | |- context [?a >? ?b] => rewrite (Z.gtb_ltb a b)
  | |- context [?a >=? ?b] => rewrite (Z.geb_leb a b)
  end; simpl; try done; try lia.
