(* ===== verification/MBuf.v ===== *)
(** * MBufChain: the byte store behind sockets

    [object/mbuf.h] and [object/mbuf.cc].  A chain is a list of fixed-size
    buffers from the oldest ([tail_.front()]) to the one being filled ([head_]),
    with a list of free buffers kept for reuse.  Buffers have addresses, because
    [head_] is a pointer into the list [tail_] and the code compares and
    dereferences it.  A result of [None] stands for a dereference of a pointer
    that is not in the list, or a loop that did not finish within its fuel; the
    theorems show neither happens on a well-formed chain. *)

From S2P Require Import Prelude Zx UserCopy.

Module MBufChain.

(** ** Data *)

Definition kHeaderSize : Z := 8 + 4 * 4.
Definition kMallocSize : Z := 2048 - 16.
Definition kPayloadSize : Z := kMallocSize - kHeaderSize.
Definition kSizeMax : Z := 128 * kPayloadSize.
Arguments kPayloadSize : simpl never.
Arguments kSizeMax : simpl never.

Record MBuf := mkMBuf {
  addr : Z;
  off_ : Z;
  len_ : Z;
  pkt_len_ : Z;
  data_ : list byte;
}.

(** [char data_[kPayloadSize] = {0};] *)
Definition zero_payload : list byte := replicate (Z.to_nat kPayloadSize) 0.
Arguments zero_payload : simpl never.

(** The allocator: [oom n] says whether the [n]-th allocation fails.  A new
    buffer's address is its allocation number. *)
Record heap := { next_addr : Z; oom : Z -> bool }.

Record t := mkChain {
  freelist_ : list MBuf;
  tail_ : list MBuf;
  head_ : option Z;
  size_ : Z;
  heap_ : heap;
}.

Definition empty (h : heap) : t :=
  {| freelist_ := []; tail_ := []; head_ := None; size_ := 0; heap_ := h |}.

Definition with_tail (l : list MBuf) (c : t) : t :=
  {| freelist_ := freelist_ c; tail_ := l; head_ := head_ c; size_ := size_ c; heap_ := heap_ c |}.
Definition with_free (l : list MBuf) (c : t) : t :=
  {| freelist_ := l; tail_ := tail_ c; head_ := head_ c; size_ := size_ c; heap_ := heap_ c |}.
Definition with_head (h : option Z) (c : t) : t :=
  {| freelist_ := freelist_ c; tail_ := tail_ c; head_ := h; size_ := size_ c; heap_ := heap_ c |}.
Definition with_size (n : Z) (c : t) : t :=
  {| freelist_ := freelist_ c; tail_ := tail_ c; head_ := head_ c; size_ := n; heap_ := heap_ c |}.
Definition with_heap (h : heap) (c : t) : t :=
  {| freelist_ := freelist_ c; tail_ := tail_ c; head_ := head_ c; size_ := size_ c; heap_ := h |}.

(** [MBuf::rem]. *)
Definition rem (b : MBuf) : Z := kPayloadSize - (off_ b + len_ b).

Definition is_full (c : t) : bool := size_ c >=? kSizeMax.
Definition is_empty (c : t) : bool := size_ c =? 0.
Definition max_size (c : t) : Z := kSizeMax.

(** [MBufChain::size(datagram)]. *)
Definition size (datagram : bool) (c : t) : Z :=
  if datagram && nz (size_ c)
  then match tail_ c with b :: _ => pkt_len_ b | [] => 0 end
  else size_ c.

(** ** Buffer allocation *)

Definition AllocMBuf (c : t) : option MBuf * t :=
  match freelist_ c with
  | [] =>
      let n := next_addr (heap_ c) in
      let c := with_heap {| next_addr := n + 1; oom := oom (heap_ c) |} c in
      if oom (heap_ c) n then (None, c)
      else (Some {| addr := n; off_ := 0; len_ := 0; pkt_len_ := 0;
                    data_ := zero_payload |}, c)
  | b :: rest => (Some b, with_free rest c)
  end.

(** [off_] and [len_] are reset; [pkt_len_] and the data are left as they are. *)
Definition FreeMBuf (b : MBuf) (c : t) : t :=
  with_free ({| addr := addr b; off_ := 0; len_ := 0; pkt_len_ := pkt_len_ b; data_ := data_ b |}
               :: freelist_ c) c.

(** [while (!bufs.is_empty()) FreeMBuf(bufs.pop_front());] *)
Fixpoint FreeAll (bufs : list MBuf) (c : t) : t :=
  match bufs with [] => c | b :: rest => FreeAll rest (FreeMBuf b c) end.

(** ** Pointers into [tail_] *)

Fixpoint find_addr (a : Z) (l : list MBuf) : option MBuf :=
  match l with
  | [] => None
  | b :: rest => if addr b =? a then Some b else find_addr a rest
  end.

Fixpoint update_addr (a : Z) (b' : MBuf) (l : list MBuf) : list MBuf :=
  match l with
  | [] => []
  | b :: rest => if addr b =? a then b' :: rest else b :: update_addr a b' rest
  end.

(** [tail_.insert_after(tail_.make_iterator( *head_), next)]. *)
Fixpoint insert_after (a : Z) (next : MBuf) (l : list MBuf) : list MBuf :=
  match l with
  | [] => []
  | b :: rest => if addr b =? a then b :: next :: rest else b :: insert_after a next rest
  end.

Definition head_is (a : Z) (c : t) : bool :=
  match head_ c with Some h => h =? a | None => false end.

(** ** Reading *)

(** The consuming loop of [ReadHelper].  [tl] is [chain->tail_], whose front is
    always the iterator's buffer.  A front that still holds data after the copy
    means [len - pos] bytes were copied, so the loop condition has become
    false. *)
Fixpoint read_loop (datagram : bool) (dst : user_out_ptr) (len pos : Z) (tl : list MBuf)
    (c : t) (m : user_mem) : zx_status_t * Z * t * user_mem :=
  match tl with
  | [] => (ZX_OK, pos, c, m)
  | it :: rest =>
      if negb (pos <? len) then (ZX_OK, pos, c, m)
      else
        let copy_len := Z.min (len_ it) (len - pos) in
        let src := slice (Z.to_nat (off_ it)) (Z.to_nat copy_len) (data_ it) in
        let '(status, m') := copy_array_to_user (out_byte_offset dst pos) src m in
        if is_err status then (status, pos, c, m')
        else
          let pos := pos + copy_len in
          let it := {| addr := addr it; off_ := off_ it + copy_len; len_ := len_ it - copy_len;
                       pkt_len_ := pkt_len_ it; data_ := data_ it |} in
          let c := with_size (size_ c - copy_len) (with_tail (it :: rest) c) in
          if (len_ it =? 0) || datagram then
            let c := with_size (size_ c - len_ it) c in
            let c := if head_is (addr it) c then with_head None c else c in
            let c := FreeMBuf it (with_tail rest c) in
            read_loop datagram dst len pos rest c m'
          else (ZX_OK, pos, c, m')
  end.

(** The loop that drops the rest of a datagram. *)
Fixpoint drain_loop (tl : list MBuf) (c : t) : t :=
  match tl with
  | [] => c
  | cur :: rest =>
      if pkt_len_ cur =? 0 then
        let c := with_size (size_ c - len_ cur) (with_tail rest c) in
        let c := if head_is (addr cur) c then with_head None c else c in
        drain_loop rest (FreeMBuf cur c)
      else c
  end.

(** The reading loop of [ReadHelper] on a const chain. *)
Fixpoint peek_loop (dst : user_out_ptr) (len pos : Z) (tl : list MBuf) (m : user_mem)
    : zx_status_t * Z * user_mem :=
  match tl with
  | [] => (ZX_OK, pos, m)
  | it :: rest =>
      if negb (pos <? len) then (ZX_OK, pos, m)
      else
        let copy_len := Z.min (len_ it) (len - pos) in
        let src := slice (Z.to_nat (off_ it)) (Z.to_nat copy_len) (data_ it) in
        let '(status, m') := copy_array_to_user (out_byte_offset dst pos) src m in
        if is_err status then (status, pos, m')
        else peek_loop dst len (pos + copy_len) rest m'
  end.

(** [if (datagram && len > front().pkt_len_) len = front().pkt_len_;] *)
Definition clip_len (datagram : bool) (len : Z) (c : t) : Z :=
  match tail_ c with
  | b :: _ => if datagram && (len >? pkt_len_ b) then pkt_len_ b else len
  | [] => len
  end.

(** Status, [*actual], the chain and the user memory.  [*actual] is only written
    on [ZX_OK]. *)
Definition Read (dst : user_out_ptr) (len : Z) (datagram : bool) (c : t) (m : user_mem)
    : zx_status_t * Z * t * user_mem :=
  if size_ c =? 0 then (ZX_OK, 0, c, m)
  else
    let len := clip_len datagram len c in
    let '(status, pos, c, m) := read_loop datagram dst len 0 (tail_ c) c m in
    if is_err status then (status, 0, c, m)
    else
      let c := if datagram then drain_loop (tail_ c) c else c in
      (ZX_OK, pos, c, m).

Definition Peek (dst : user_out_ptr) (len : Z) (datagram : bool) (c : t) (m : user_mem)
    : zx_status_t * Z * user_mem :=
  if size_ c =? 0 then (ZX_OK, 0, m)
  else
    let len := clip_len datagram len c in
    let '(status, pos, m) := peek_loop dst len 0 (tail_ c) m in
    if is_err status then (status, 0, m) else (ZX_OK, pos, m).

(** ** Writing datagrams *)

(** The allocation loop: [bufs] is built front first. *)
Fixpoint alloc_bufs (need : nat) (bufs : list MBuf) (c : t) : bool * list MBuf * t :=
  match need with
  | O => (true, bufs, c)
  | S need' =>
      match AllocMBuf c with
      | (None, c) => (false, bufs, c)
      | (Some b, c) => alloc_bufs need' (b :: bufs) c
      end
  end.

(** The copy loop: the buffers, filled as far as the copies went. *)
Fixpoint fill_bufs (src : user_in_ptr) (len pos : Z) (bufs : list MBuf)
    : zx_status_t * list MBuf :=
  match bufs with
  | [] => (ZX_OK, [])
  | b :: rest =>
      let copy_len := Z.min kPayloadSize (len - pos) in
      let '(status, bs) := copy_array_from_user (in_byte_offset src pos) copy_len in
      let data := splice 0 bs (data_ b) in
      if is_err status then
        (ZX_ERR_INVALID_ARGS,
         {| addr := addr b; off_ := off_ b; len_ := len_ b; pkt_len_ := pkt_len_ b;
            data_ := data |} :: rest)
      else
        let b' := {| addr := addr b; off_ := off_ b; len_ := len_ b + copy_len;
                     pkt_len_ := pkt_len_ b; data_ := data |} in
        let '(st, rest') := fill_bufs src len (pos + copy_len) rest in (st, b' :: rest')
  end.

(** [bufs.front().pkt_len_ = len]. *)
Definition set_pkt_len (len : Z) (bufs : list MBuf) : list MBuf :=
  match bufs with
  | [] => []
  | b :: rest =>
      {| addr := addr b; off_ := off_ b; len_ := len_ b; pkt_len_ := len; data_ := data_ b |} :: rest
  end.

(** Puts the built packet on the chain. *)
Fixpoint enqueue (bufs : list MBuf) (c : t) : t :=
  match bufs with
  | [] => c
  | next :: rest =>
      let tl := match head_ c with
                | None => next :: tail_ c
                | Some h => insert_after h next (tail_ c)
                end in
      enqueue rest (with_head (Some (addr next)) (with_tail tl c))
  end.

Definition WriteDatagram (src : user_in_ptr) (len : Z) (c : t) : zx_status_t * Z * t :=
  if len =? 0 then (ZX_ERR_INVALID_ARGS, 0, c)
  else if len >? kSizeMax then (ZX_ERR_OUT_OF_RANGE, 0, c)
  else if len + size_ c >? kSizeMax then (ZX_ERR_SHOULD_WAIT, 0, c)
  else
    let need := 1 + (len - 1) / kPayloadSize in
    let '(ok, bufs, c) := alloc_bufs (Z.to_nat need) [] c in
    if negb ok then (ZX_ERR_SHOULD_WAIT, 0, FreeAll bufs c)
    else
      let '(status, bufs) := fill_bufs src len 0 bufs in
      if is_err status then (ZX_ERR_INVALID_ARGS, 0, FreeAll bufs c)
      else
        let c := enqueue (set_pkt_len len bufs) c in
        (ZX_OK, len, with_size (size_ c + len) c).

(** ** Writing streams *)

Fixpoint write_loop (fuel : nat) (src : user_in_ptr) (len pos : Z) (c : t)
    : option (zx_status_t * Z * t) :=
  match fuel with
  | O => None
  | S fuel =>
      if negb (pos <? len) then Some (ZX_OK, pos, c)
      else
        a ← head_ c;
        h ← find_addr a (tail_ c);
        let '(ok, c) :=
          if rem h =? 0 then
            match AllocMBuf c with
            | (None, c) => (false, c)
            | (Some next, c) =>
                (true, with_head (Some (addr next)) (with_tail (insert_after a next (tail_ c)) c))
            end
          else (true, c) in
        if negb ok then Some (ZX_OK, pos, c)
        else
          a ← head_ c;
          h ← find_addr a (tail_ c);
          let copy_len := Z.min (rem h) (len - pos) in
          let over := size_ c + copy_len >? kSizeMax in
          let copy_len := if over then kSizeMax - size_ c else copy_len in
          if over && (copy_len =? 0) then Some (ZX_OK, pos, c)
          else
            let '(status, bs) := copy_array_from_user (in_byte_offset src pos) copy_len in
            let data := splice (Z.to_nat (off_ h + len_ h)) bs (data_ h) in
            if is_err status then
              Some (status, pos,
                    with_tail (update_addr a {| addr := addr h; off_ := off_ h; len_ := len_ h;
                                                pkt_len_ := pkt_len_ h; data_ := data |}
                                 (tail_ c)) c)
            else
              let c := with_tail (update_addr a {| addr := addr h; off_ := off_ h;
                                                   len_ := len_ h + copy_len;
                                                   pkt_len_ := pkt_len_ h; data_ := data |}
                                    (tail_ c)) c in
              write_loop fuel src len (pos + copy_len) (with_size (size_ c + copy_len) c)
  end.

(** Every iteration of the loop copies at least one byte. *)
Definition write_fuel (len : Z) : nat := S (Z.to_nat len).

Definition WriteStream (src : user_in_ptr) (len : Z) (c : t) : option (zx_status_t * Z * t) :=
  let '(ok, c) :=
    match head_ c with
    | Some _ => (true, c)
    | None =>
        match AllocMBuf c with
        | (None, c) => (false, c)
        | (Some b, c) => (true, with_tail (b :: tail_ c) (with_head (Some (addr b)) c))
        end
    end in
  if negb ok then Some (ZX_ERR_SHOULD_WAIT, 0, c)
  else
    '(status, pos, c) ← write_loop (write_fuel len) src len 0 c;
    if is_err status then Some (status, 0, c)
    else if pos =? 0 then Some (ZX_ERR_SHOULD_WAIT, 0, c)
    else Some (ZX_OK, pos, c).

End MBufChain.
