(* ===== verification/MBufFacts.v ===== *)
(** * Correctness of MBufChain

    The well-formedness invariant of a chain, its preservation by the stream
    operations (faulting copies and failed allocations included), and the
    refinement of a stream chain to a bounded byte queue. *)

From S2P Require Import Prelude Zx UserCopy MBuf.
Import MBufChain.

Lemma kPayloadSize_eq : kPayloadSize = 2008.
Proof. done. Qed.

Lemma kSizeMax_eq : kSizeMax = 257024.
Proof. done. Qed.

Lemma length_zero_payload : length zero_payload = Z.to_nat kPayloadSize.
Proof. apply length_replicate. Qed.

#[local] Opaque kPayloadSize kSizeMax zero_payload copy_array_from_user copy_array_to_user.

(** ** The invariant *)

Definition wf_mbuf (b : MBuf) : Prop :=
  length (data_ b) = Z.to_nat kPayloadSize /\ 0 <= off_ b /\ 0 <= len_ b /\
  off_ b + len_ b <= kPayloadSize /\ 0 <= pkt_len_ b.

(** The bytes a buffer holds, and those of a list of buffers. *)
Definition bytes (b : MBuf) : list byte := slice (Z.to_nat (off_ b)) (Z.to_nat (len_ b)) (data_ b).
Definition contents (l : list MBuf) : list byte := flat_map bytes l.
Definition total (l : list MBuf) : Z := foldr (fun b n => len_ b + n) 0 l.

(** Buffers the chain owns or is building a packet from: distinct addresses, all
    handed out by the allocator. *)
Definition pool_ok (n : Z) (l : list MBuf) : Prop :=
  Forall wf_mbuf l /\ NoDup (map addr l) /\ Forall (fun b => addr b < n) l.

Definition idle (b : MBuf) : Prop := off_ b = 0 /\ len_ b = 0.

(** [ex] are buffers taken from the chain and not yet put back. *)
Record shape (ex : list MBuf) (c : t) : Prop := {
  shape_pool : pool_ok (next_addr (heap_ c)) (ex ++ tail_ c ++ freelist_ c);
  shape_head : head_ c = addr <$> last (tail_ c);
  shape_idle : Forall idle (freelist_ c);
}.

Record wf (c : t) : Prop := {
  wf_shape : shape [] c;
  wf_size : size_ c = total (tail_ c);
  wf_max : size_ c <= kSizeMax;
}.

(** ** Buffers and lists of buffers *)

Lemma wf_bytes_length b : wf_mbuf b -> zlen (bytes b) = len_ b.
Proof.
  intros (Hl & Ho & Hn & Hb & _). unfold zlen, bytes. rewrite kPayloadSize_eq in *.
  rewrite length_slice; lia.
Qed.

Lemma contents_length l : Forall wf_mbuf l -> zlen (contents l) = total l.
Proof.
  induction 1 as [|b l Hb Hl IH]; simpl; [done|].
  by rewrite zlen_app, wf_bytes_length, IH.
Qed.

Lemma total_nonneg l : Forall wf_mbuf l -> 0 <= total l.
Proof. intros H. rewrite <- contents_length by done. apply zlen_nonneg. Qed.

Lemma total_app l k : total (l ++ k) = total l + total k.
Proof. induction l as [|b l IH]; simpl; [done | rewrite IH; lia]. Qed.

Lemma contents_app l k : contents (l ++ k) = contents l ++ contents k.
Proof. apply flat_map_app. Qed.

Lemma pool_ok_perm n l k : l ≡ₚ k -> pool_ok n l -> pool_ok n k.
Proof.
  intros HP (H1 & H2 & H3). split; [|split].
  - by rewrite <- HP.
  - by rewrite <- HP.
  - by rewrite <- HP.
Qed.

Lemma pool_ok_replace n l b b' k :
  pool_ok n (l ++ b :: k) -> wf_mbuf b' -> addr b' = addr b -> pool_ok n (l ++ b' :: k).
Proof.
  intros (H1 & H2 & H3) Hw Ha. apply Forall_app in H1 as [H1a H1b].
  apply Forall_app in H3 as [H3a H3b].
  apply Forall_cons in H1b as [_ H1b]. apply Forall_cons in H3b as [H3x H3b].
  split; [|split].
  - apply Forall_app. split; [done | by constructor].
  - rewrite map_app in *. simpl in *. by rewrite Ha.
  - apply Forall_app. split; [done|]. constructor; [by rewrite Ha | done].
Qed.

Lemma pool_ok_tail n l k : pool_ok n (l ++ k) -> pool_ok n k.
Proof.
  intros (H1 & H2 & H3). apply Forall_app in H1, H3. rewrite map_app in H2.
  apply NoDup_app in H2. split; [|split]; tauto.
Qed.

Lemma pool_ok_mono n n' l : n <= n' -> pool_ok n l -> pool_ok n' l.
Proof.
  intros Hn (H1 & H2 & H3). split; [done|]. split; [done|].
  eapply Forall_impl; [exact H3 | simpl; lia].
Qed.

Lemma wf_bufs c : wf c -> Forall wf_mbuf (tail_ c).
Proof.
  intros [[(H & _) _ _] _ _]. simpl in H. by apply Forall_app in H as [? _].
Qed.

Lemma wf_contents_size c : wf c -> zlen (contents (tail_ c)) = size_ c.
Proof. intros H. rewrite (wf_size _ H). apply contents_length, wf_bufs, H. Qed.

Lemma wf_size_nonneg c : wf c -> 0 <= size_ c.
Proof. intros H. rewrite (wf_size _ H). apply total_nonneg, wf_bufs, H. Qed.

Lemma wf_empty h : wf (empty h).
Proof.
  split; [split|..]; simpl; try done. split; [constructor|]. split; constructor.
Qed.

(** ** Allocation and release *)

Lemma AllocMBuf_some ex c b c' :
  shape ex c -> AllocMBuf c = (Some b, c') ->
  shape (b :: ex) c' /\ idle b /\ tail_ c' = tail_ c /\ head_ c' = head_ c /\ size_ c' = size_ c /\
  oom (heap_ c') = oom (heap_ c).
Proof.
  intros [Hp Hh Hi] H. unfold AllocMBuf in H.
  destruct (freelist_ c) as [|f rest] eqn:Ef.
  - destruct (oom _ _) eqn:Eo in H; simplify_eq. split_and!; try done.
    split; [|done|]; simpl; [|by rewrite Ef].
    rewrite Ef, app_nil_r in *. destruct Hp as (H1 & H2 & H3). split; [|split].
    + constructor; [|done]. split_and!; cbn [data_ off_ len_ pkt_len_]; try lia.
      * apply length_zero_payload.
      * rewrite kPayloadSize_eq. lia.
    + simpl. apply NoDup_cons. split; [|done]. intros HF.
      apply list_elem_of_In, in_map_iff in HF as (x & Hx & HI).
      rewrite Forall_forall in H3. specialize (H3 x (proj2 (list_elem_of_In _ _) HI)).
      simpl in H3. lia.
    + constructor; simpl; [lia|]. eapply Forall_impl; [exact H3 | simpl; lia].
  - simplify_eq. apply Forall_cons in Hi as [Hb Hi]. split_and!; try done.
    split; [|done|done]. simpl. eapply pool_ok_perm; [|exact Hp].
    rewrite !app_assoc. rewrite <- Permutation_middle. by rewrite <- !app_assoc.
Qed.

Lemma AllocMBuf_none ex c c' :
  shape ex c -> AllocMBuf c = (None, c') ->
  shape ex c' /\ tail_ c' = tail_ c /\ size_ c' = size_ c /\
  oom (heap_ c) (next_addr (heap_ c)) = true.
Proof.
  intros [Hp Hh Hi] H. unfold AllocMBuf in H.
  destruct (freelist_ c) as [|f rest] eqn:Ef; [|done].
  destruct (oom _ _) eqn:Eo in H; simplify_eq. split_and!; try done.
  split; [|done|]; simpl; [|by rewrite Ef].
  rewrite Ef. eapply pool_ok_mono; [|exact Hp]. lia.
Qed.

Lemma FreeMBuf_shape b ex c : shape (b :: ex) c -> shape ex (FreeMBuf b c).
Proof.
  intros [Hp Hh Hi]. split; [|done|].
  - simpl. pose proof Hp as (Hw & _). apply Forall_cons in Hw as [(? & ? & ? & ? & ?) _].
    eapply (pool_ok_replace _ [] b) with (b' := mkMBuf _ 0 0 _ _) in Hp.
    + eapply pool_ok_perm; [|exact Hp]. simpl.
      rewrite !app_assoc. rewrite <- Permutation_middle. by rewrite <- !app_assoc.
    + by split_and!.
    + done.
  - constructor; [done | exact Hi].
Qed.

Lemma FreeAll_shape bufs c : shape bufs c -> shape [] (FreeAll bufs c).
Proof.
  revert c. induction bufs as [|b bufs IH]; intros c H; simpl; [done|].
  apply IH, FreeMBuf_shape, H.
Qed.

Lemma FreeAll_fields bufs c :
  tail_ (FreeAll bufs c) = tail_ c /\ size_ (FreeAll bufs c) = size_ c.
Proof.
  revert c. induction bufs as [|b bufs IH]; intros c; simpl; [done|].
  by destruct (IH (FreeMBuf b c)) as [-> ->].
Qed.

(** ** The last buffer, which [head_] points at *)

Lemma find_addr_last l b : addr b ∉ map addr l -> find_addr (addr b) (l ++ [b]) = Some b.
Proof.
  induction l as [|x l IH]; simpl; intros H; [by rewrite Z.eqb_refl|].
  apply not_elem_of_cons in H as [Hne H].
  destruct (Z.eqb_spec (addr x) (addr b)); [congruence | by apply IH].
Qed.

Lemma update_addr_last l b b' :
  addr b ∉ map addr l -> update_addr (addr b) b' (l ++ [b]) = l ++ [b'].
Proof.
  induction l as [|x l IH]; simpl; intros H; [by rewrite Z.eqb_refl|].
  apply not_elem_of_cons in H as [Hne H].
  destruct (Z.eqb_spec (addr x) (addr b)); [congruence|]. by rewrite IH.
Qed.

Lemma insert_after_last l b x :
  addr b ∉ map addr l -> insert_after (addr b) x (l ++ [b]) = l ++ [b; x].
Proof.
  induction l as [|y l IH]; simpl; intros H; [by rewrite Z.eqb_refl|].
  apply not_elem_of_cons in H as [Hne H].
  destruct (Z.eqb_spec (addr y) (addr b)); [congruence|]. by rewrite IH.
Qed.

Lemma shape_last_fresh ex c l b :
  shape ex c -> tail_ c = l ++ [b] -> addr b ∉ map addr l.
Proof.
  intros [Hp _ _] Ht. apply pool_ok_tail in Hp as (_ & Hnd & _).
  rewrite Ht, map_app in Hnd. apply NoDup_app in Hnd as (Hnd & _).
  rewrite map_app in Hnd. apply NoDup_app in Hnd as (_ & Hd & _).
  intros HF. apply (Hd _ HF). simpl. apply list_elem_of_here.
Qed.

(** Putting a new buffer after [head_]. *)
Lemma shape_append b ex c c' :
  shape (b :: ex) c -> freelist_ c' = freelist_ c -> heap_ c' = heap_ c ->
  head_ c' = Some (addr b) -> tail_ c' = tail_ c ++ [b] -> shape ex c'.
Proof.
  intros [Hp Hh Hi] Hf He Hhd Ht. split.
  - rewrite Hf, He, Ht. eapply pool_ok_perm; [|exact Hp]. simpl.
    rewrite <- app_assoc. simpl. rewrite !(app_assoc ex). apply Permutation_middle.
  - by rewrite Ht, last_snoc, Hhd.
  - by rewrite Hf.
Qed.

(** Rewriting the last buffer in place. *)
Lemma shape_update_last b' ex c l b c' :
  shape ex c -> tail_ c = l ++ [b] -> wf_mbuf b' -> addr b' = addr b ->
  freelist_ c' = freelist_ c -> heap_ c' = heap_ c -> head_ c' = head_ c ->
  tail_ c' = l ++ [b'] -> shape ex c'.
Proof.
  intros [Hp Hh Hi] Ht Hw Ha Hf He Hhd Ht'. split.
  - rewrite Hf, He, Ht'. rewrite Ht in Hp. rewrite <- app_assoc in *. simpl in *.
    rewrite app_assoc in *. by eapply pool_ok_replace.
  - rewrite Hhd, Hh, Ht, Ht', !last_snoc. simpl. by rewrite Ha.
  - by rewrite Hf.
Qed.

(** Taking the oldest buffer off the chain and freeing it; [it'] is the buffer
    with its offsets as the caller left them. *)
Lemma shape_pop it it' rest c c' :
  shape [] c -> tail_ c = it :: rest -> wf_mbuf it' -> addr it' = addr it ->
  tail_ c' = rest ->
  freelist_ c' = {| addr := addr it'; off_ := 0; len_ := 0; pkt_len_ := pkt_len_ it';
                    data_ := data_ it' |} :: freelist_ c ->
  head_ c' = (if head_is (addr it') c then None else head_ c) -> heap_ c' = heap_ c ->
  shape [] c'.
Proof.
  intros [Hp Hh Hi] Ht (Hw1 & _ & _ & _ & Hw5) Ha Ht' Hf Hhd He. split.
  - rewrite Hf, He, Ht'. rewrite Ht in Hp.
    eapply (pool_ok_replace _ [] it) with (b' := mkMBuf (addr it') 0 0 (pkt_len_ it') (data_ it')) in Hp.
    + eapply pool_ok_perm; [|exact Hp]. simpl. apply Permutation_middle.
    + by split_and!.
    + done.
  - rewrite Hhd, Ht'. unfold head_is. rewrite Hh, Ht.
    destruct rest as [|r rest]; [by simpl; rewrite Ha, Z.eqb_refl|].
    rewrite last_cons_cons. destruct (last (r :: rest)) as [lst|] eqn:El; [|done].
    apply last_Some_elem_of in El. rewrite Ht in Hp. destruct Hp as (_ & Hnd & _).
    apply NoDup_cons in Hnd as [Hni _]. simpl.
    destruct (Z.eqb_spec (addr lst) (addr it')) as [E|]; [|done].
    destruct Hni. rewrite <- Ha, <- E.
    apply (list_elem_of_fmap_2 addr ((r :: rest) ++ freelist_ c)).
    apply elem_of_app. by left.
  - rewrite Hf. by constructor.
Qed.

(** A buffer after [n] of its bytes were read. *)
Definition advance (n : Z) (b : MBuf) : MBuf :=
  {| addr := addr b; off_ := off_ b + n; len_ := len_ b - n; pkt_len_ := pkt_len_ b;
     data_ := data_ b |}.

Lemma advance_wf n b : wf_mbuf b -> 0 <= n <= len_ b -> wf_mbuf (advance n b).
Proof. intros (? & ? & ? & ? & ?) Hn. split_and!; simpl; lia || done. Qed.

Lemma advance_bytes n b :
  wf_mbuf b -> 0 <= n <= len_ b -> bytes (advance n b) = drop (Z.to_nat n) (bytes b).
Proof.
  intros (Hl & Ho & Hn & Hb & _) Hr. unfold bytes, slice, advance. simpl.
  rewrite Z2Nat.inj_add, Z2Nat.inj_sub by lia.
  rewrite skipn_firstn_comm. by rewrite drop_drop.
Qed.

Lemma slice_take_bytes n b :
  wf_mbuf b -> 0 <= n <= len_ b ->
  slice (Z.to_nat (off_ b)) (Z.to_nat n) (data_ b) = take (Z.to_nat n) (bytes b).
Proof.
  intros _ Hr. unfold bytes, slice. rewrite take_take. f_equal. lia.
Qed.

(** The chain once its oldest buffer was taken off and freed, [n] bytes being
    given back to the size. *)
Definition popped (it : MBuf) (rest : list MBuf) (n : Z) (c : t) : t :=
  {| freelist_ := {| addr := addr it; off_ := 0; len_ := 0; pkt_len_ := pkt_len_ it;
                     data_ := data_ it |} :: freelist_ c;
     tail_ := rest;
     head_ := if head_is (addr it) c then None else head_ c;
     size_ := size_ c - n; heap_ := heap_ c |}.

Lemma popped_wf it it' rest c :
  wf c -> tail_ c = it :: rest -> wf_mbuf it' -> addr it' = addr it ->
  wf (popped it' rest (len_ it) c).
Proof.
  intros H Ht Hw Ha. pose proof (wf_bufs _ H) as Hb. rewrite Ht in Hb.
  apply Forall_cons in Hb as [(_ & _ & Hlen & _) Hb].
  pose proof (wf_size _ H) as Hs. pose proof (wf_max _ H) as Hm. rewrite Ht in Hs. simpl in Hs.
  split; simpl; [|lia|lia].
  by eapply (shape_pop it it' rest c); try apply (wf_shape _ H).
Qed.

(** One unfolding of each loop, in terms of [popped]. *)
Lemma read_loop_cons datagram dst len pos it rest c m :
  read_loop datagram dst len pos (it :: rest) c m =
  if negb (pos <? len) then (ZX_OK, pos, c, m)
  else
    let n := Z.min (len_ it) (len - pos) in
    let '(status, m') := copy_array_to_user (out_byte_offset dst pos)
                           (slice (Z.to_nat (off_ it)) (Z.to_nat n) (data_ it)) m in
    if is_err status then (status, pos, c, m')
    else if (len_ it - n =? 0) || datagram
    then read_loop datagram dst len (pos + n) rest (popped (advance n it) rest (len_ it) c) m'
    else (ZX_OK, pos + n, with_size (size_ c - n) (with_tail (advance n it :: rest) c), m').
Proof.
  simpl. destruct (negb (pos <? len)); [done|].
  destruct (copy_array_to_user _ _ _) as [status m']. destruct (is_err status); [done|].
  destruct ((len_ it - Z.min (len_ it) (len - pos) =? 0) || datagram); [|done].
  f_equal. unfold popped, head_is. simpl.
  replace (size_ c - len_ it) with
    (size_ c - Z.min (len_ it) (len - pos) - (len_ it - Z.min (len_ it) (len - pos))) by lia.
  destruct (head_ c) as [h|] eqn:Eh; [destruct (h =? addr it)|];
    unfold FreeMBuf, with_free; simpl; by rewrite ?Eh.
Qed.

Lemma drain_loop_cons cur rest c :
  drain_loop (cur :: rest) c =
  if pkt_len_ cur =? 0 then drain_loop rest (popped cur rest (len_ cur) c) else c.
Proof.
  simpl. destruct (pkt_len_ cur =? 0); [|done]. f_equal. unfold popped, head_is. simpl.
  destruct (head_ c) as [h|] eqn:Eh; [destruct (h =? addr cur)|];
    unfold FreeMBuf, with_free; simpl; by rewrite ?Eh.
Qed.

(** The consuming loop on a stream, whatever the copies do: what leaves the chain
    is what was counted in [pos], and a fault stops it in a well-formed state. *)
Lemma read_loop_stream dst len tl pos c m st pos' c' m' :
  read_loop false dst len pos tl c m = (st, pos', c', m') ->
  wf c -> tail_ c = tl ->
  wf c' /\ pos <= pos' /\ pos' - pos <= total tl /\
  contents (tail_ c') = drop (Z.to_nat (pos' - pos)) (contents tl) /\
  (st = ZX_OK -> pos' - pos = Z.max 0 (Z.min (len - pos) (total tl)) /\
     m' = mem_write (uo_addr dst + pos) (take (Z.to_nat (pos' - pos)) (contents tl)) m) /\
  (0 <= pos -> out_buffer dst len -> st = ZX_OK).
Proof.
  revert pos c m. induction tl as [|it rest IH]; intros pos c m H Hwf Ht.
  { simpl in H. simplify_eq. rewrite Ht, Z.sub_diag. split_and!; simpl; try done; try lia.
    intros _. split; [lia|done]. }
  rewrite read_loop_cons in H.
  pose proof (wf_bufs _ Hwf) as Hb. rewrite Ht in Hb. apply Forall_cons in Hb as [Hit Hb].
  pose proof (total_nonneg _ Hb) as Htn. pose proof Hit as (_ & _ & Hlen & _).
  destruct (Z.ltb_spec pos len) as [Hpl|Hpl]; cbn [negb] in H.
  2: { simplify_eq. rewrite Ht, Z.sub_diag. simpl total. split_and!; try done; try lia.
       intros _. split; [lia|done]. }
  set (n := Z.min (len_ it) (len - pos)) in *.
  assert (0 <= n <= len_ it) as Hn by lia.
  rewrite slice_take_bytes in H by done.
  destruct (copy_array_to_user _ _ m) as [status m1] eqn:Ecopy.
  destruct (is_err status) eqn:Ee.
  { simplify_eq. rewrite Ht, Z.sub_diag. simpl total.
    apply is_err_true in Ee. split_and!; try done; try lia.
    intros Hp Hob. exfalso. apply Ee.
    erewrite copy_to_buffer in Ecopy; [by simplify_eq | apply out_buffer_offset; [done|lia]|].
    unfold zlen. rewrite length_take. lia. }
  apply is_err_false in Ee. subst status. apply copy_to_ok_inv in Ecopy as [Ecopy [va Hva]].
  simpl in Hva. destruct (uo_ptr dst) as [va0|] eqn:Hva0; [|done].
  rewrite (uo_addr_offset _ va0) in Ecopy by done.
  pose proof (wf_bytes_length _ Hit) as Hbl.
  rewrite orb_false_r in H.
  destruct (Z.eqb_spec (len_ it - n) 0) as [Hz|Hz].
  - assert (n = len_ it) as Hnl by lia.
    apply IH in H as (Hwf' & Hpos & Hle & Hc & Hok & Hfin); [|by eapply popped_wf; eauto using advance_wf|done].
    simpl total. simpl contents.
    assert (Z.to_nat (pos' - pos) = (length (bytes it) + Z.to_nat (pos' - (pos + n)))%nat) as Epos
      by (unfold zlen in Hbl; lia).
    split_and!; try done; try lia.
    + rewrite Hc, Epos. by rewrite drop_app_add.
    + intros Hst. destruct (Hok Hst) as [Hcnt Hm]. split; [lia|].
      rewrite Epos, take_app_add, mem_write_app, Hm, Ecopy.
      rewrite (take_ge (bytes it)) by (unfold zlen in Hbl; lia).
      f_equal. lia.
    + intros Hp. apply Hfin. lia.
  - simplify_eq. assert (n = len - pos) as Hnl by lia.
    simpl total. simpl contents. replace (pos + n - pos) with n by lia.
    rewrite drop_app_le, take_app_le by (unfold zlen in Hbl; lia).
    split_and!; try done; try lia.
    + pose proof (wf_size _ Hwf) as Hs. pose proof (wf_max _ Hwf). rewrite Ht in Hs. simpl in Hs.
      split; simpl; [|lia|lia].
      destruct (wf_shape _ Hwf) as [Hp Hh Hi]. rewrite Ht in Hp, Hh. split; [| |done].
      * eapply (pool_ok_replace _ [] it); [exact Hp | by apply advance_wf | done].
      * simpl. rewrite Hh. by destruct rest.
    + by rewrite advance_bytes.
    + intros _. split; [lia|done].
Qed.

(** ** Reading a stream *)

(** What [Peek] computes is what [Read] computes, without the chain. *)
Lemma peek_read_loop datagram dst len pos tl c m :
  peek_loop dst len pos tl m =
  let '(st, pos', _, m') := read_loop datagram dst len pos tl c m in (st, pos', m').
Proof.
  revert pos c m. induction tl as [|it rest IH]; intros pos c m; [done|].
  rewrite read_loop_cons. simpl. destruct (negb (pos <? len)); [done|].
  destruct (copy_array_to_user _ _ m) as [status m']. destruct (is_err status); [done|].
  destruct ((len_ it - Z.min (len_ it) (len - pos) =? 0) || datagram) eqn:E; [apply IH|].
  b2p. replace (pos + Z.min (len_ it) (len - pos)) with len by lia.
  destruct rest; [done|]. simpl. by rewrite Z.ltb_irrefl.
Qed.

(** The consuming read of a stream on every outcome. *)
Lemma Read_stream_cases dst len c m st actual c' m' :
  wf c -> 0 <= len -> Read dst len false c m = (st, actual, c', m') ->
  wf c' /\
  (exists k, (k <= length (contents (tail_ c)))%nat /\ contents (tail_ c') = drop k (contents (tail_ c)) /\
     (st = ZX_OK -> k = Z.to_nat actual)) /\
  (st = ZX_OK -> actual = Z.min len (size_ c) /\
     m' = mem_write (uo_addr dst) (take (Z.to_nat actual) (contents (tail_ c))) m) /\
  (out_buffer dst len -> st = ZX_OK).
Proof.
  intros Hwf Hlen H. unfold Read in H. pose proof (wf_contents_size _ Hwf) as Hcs.
  destruct (Z.eqb_spec (size_ c) 0) as [Hz|Hz].
  { simplify_eq. split_and!; try done; [exists 0%nat; split_and!; (done || lia) | intros _; split; [lia|done]]. }
  assert (clip_len false len c = len) as Hcl by (unfold clip_len; by destruct (tail_ c)).
  rewrite Hcl in H.
  destruct (read_loop _ _ _ _ _ _ _) as [[[st1 pos] c1] m1] eqn:E.
  apply read_loop_stream in E as (Hwf' & Hpos & Hle & Hc & Hok & Hfin); [|done|done].
  rewrite Z.sub_0_r, Z.add_0_r in *. rewrite <- (wf_size _ Hwf) in Hok, Hle.
  pose proof (wf_size_nonneg _ Hwf).
  destruct (is_err st1) eqn:Ee; simplify_eq.
  - apply is_err_true in Ee. split_and!; try done; [|by intros; apply Hfin].
    exists (Z.to_nat pos). split_and!; try done. unfold zlen in Hcs. lia.
  - apply is_err_false in Ee. subst. destruct Hok as [Hcnt Hm]; [done|].
    split_and!; try done; [|intros _; split; [lia|done]].
    exists (Z.to_nat actual). split_and!; try done. unfold zlen in Hcs. lia.
Qed.

(** ** Writing a stream *)

(** The buffer [head_] points at, once [bs] was copied behind its bytes and
    [n] of them counted. *)
Definition filled (bs : list byte) (n : Z) (h : MBuf) : MBuf :=
  {| addr := addr h; off_ := off_ h; len_ := len_ h + n; pkt_len_ := pkt_len_ h;
     data_ := splice (Z.to_nat (off_ h + len_ h)) bs (data_ h) |}.

Lemma filled_0 bs h :
  filled bs 0 h = {| addr := addr h; off_ := off_ h; len_ := len_ h; pkt_len_ := pkt_len_ h;
                     data_ := splice (Z.to_nat (off_ h + len_ h)) bs (data_ h) |}.
Proof. unfold filled. f_equal. lia. Qed.

Lemma filled_wf bs n h :
  wf_mbuf h -> 0 <= n <= rem h -> (length bs <= Z.to_nat (rem h))%nat -> wf_mbuf (filled bs n h).
Proof.
  unfold rem. intros (Hl & Ho & Hn & Hb & Hp) Hr Hbs. split_and!; simpl; try lia.
  rewrite length_splice; lia.
Qed.

Lemma filled_bytes bs h :
  wf_mbuf h -> (length bs <= Z.to_nat (rem h))%nat ->
  bytes (filled bs (zlen bs) h) = bytes h ++ bs.
Proof.
  unfold rem, zlen. intros (Hl & Ho & Hn & Hb & Hp) Hbs. unfold bytes, filled. simpl.
  rewrite Z2Nat.inj_add, Nat2Z.id by lia. rewrite Z2Nat.inj_add by lia.
  apply slice_splice_extend. lia.
Qed.

Lemma filled_bytes_fault bs h : wf_mbuf h -> bytes (filled bs 0 h) = bytes h.
Proof.
  intros (Hl & Ho & Hn & Hb & Hp). unfold bytes, filled. simpl. rewrite Z.add_0_r.
  rewrite Z2Nat.inj_add by lia. apply slice_splice_before. lia.
Qed.

Lemma wf_last c l h :
  wf c -> tail_ c = l ++ [h] ->
  head_ c = Some (addr h) /\ find_addr (addr h) (tail_ c) = Some h /\ wf_mbuf h /\
  addr h ∉ map addr l.
Proof.
  intros Hwf Ht. pose proof (shape_last_fresh _ _ _ _ (wf_shape _ Hwf) Ht) as Hf.
  pose proof (wf_bufs _ Hwf) as Hb. rewrite Ht in *. apply Forall_app in Hb as [_ Hb].
  split_and!; [by rewrite (shape_head _ _ (wf_shape _ Hwf)), Ht, last_snoc
              | by apply find_addr_last | by inv Hb | done].
Qed.

(** Filling the last buffer of a well-formed chain. *)
Lemma fill_last_wf c l h bs n :
  wf c -> tail_ c = l ++ [h] -> 0 <= n <= rem h -> (length bs <= Z.to_nat (rem h))%nat ->
  size_ c + n <= kSizeMax ->
  wf (with_size (size_ c + n) (with_tail (update_addr (addr h) (filled bs n h) (tail_ c)) c)) /\
  update_addr (addr h) (filled bs n h) (tail_ c) = l ++ [filled bs n h].
Proof.
  intros Hwf Ht Hn Hbs Hsz. destruct (wf_last _ _ _ Hwf Ht) as (_ & _ & Hw & Hni).
  pose proof (update_addr_last l h (filled bs n h) Hni) as Hu. rewrite Ht. split; [|done].
  split; simpl; rewrite ?Hu.
  - eapply (shape_update_last (filled bs n h)); try apply (wf_shape _ Hwf); try done.
    by apply filled_wf.
  - rewrite (wf_size _ Hwf), Ht, !total_app. simpl. lia.
  - done.
Qed.

(** Growing the chain by a buffer taken from the free list or the allocator. *)
Lemma grow_wf c next c1 c2 :
  wf c -> AllocMBuf c = (Some next, c1) ->
  tail_ c2 = tail_ c ++ [next] -> head_ c2 = Some (addr next) -> freelist_ c2 = freelist_ c1 ->
  heap_ c2 = heap_ c1 -> size_ c2 = size_ c1 ->
  wf c2 /\ rem next = kPayloadSize /\ bytes next = [] /\ contents (tail_ c2) = contents (tail_ c) /\
  oom (heap_ c2) = oom (heap_ c) /\ size_ c2 = size_ c.
Proof.
  intros Hwf Ha Ht Hh Hf He Hs.
  destruct (AllocMBuf_some [] c next c1 (wf_shape _ Hwf) Ha) as (Hsh & [Hio Hil] & Ht1 & _ & Hs1 & Ho).
  assert (bytes next = []) as Hbn by (unfold bytes, slice; by rewrite Hil).
  assert (size_ c2 = size_ c) as Hs2 by congruence.
  split_and!; try done.
  - split.
    + eapply (shape_append next); try done. by rewrite Ht1.
    + rewrite Hs2, Ht, total_app, (wf_size _ Hwf). simpl. lia.
    + rewrite Hs2. apply (wf_max _ Hwf).
  - unfold rem. lia.
  - rewrite Ht, contents_app. simpl. by rewrite Hbn, !app_nil_r.
  - by rewrite He.
Qed.

(** The outcome of a run of the copy loop from [pos]: the chain grew by the
    bytes between [pos] and [pos'] of the source, and by all that fits unless a
    copy or an allocation failed. *)
Record written (src : user_in_ptr) (len pos : Z) (c : t) (st : zx_status_t) (pos' : Z) (c' : t)
    : Prop := {
  wr_wf : wf c';
  wr_head : tail_ c' <> [];
  wr_pos : pos <= pos' <= len;
  wr_bytes : exists bs, copied src pos (pos' - pos) bs /\
               contents (tail_ c') = contents (tail_ c) ++ bs;
  wr_ok : forall l, in_buffer src l -> zlen l = len -> st = ZX_OK;
  wr_all : st = ZX_OK -> (forall n, oom (heap_ c) n = false) ->
             pos' - pos = Z.min (len - pos) (kSizeMax - size_ c);
  wr_heap : oom (heap_ c') = oom (heap_ c);
  wr_status : st <> ZX_OK -> st = ZX_ERR_INVALID_ARGS;
}.

(** A loop that stops without copying. *)
Lemma written_stop src len pos c c' :
  wf c' -> tail_ c' <> [] -> pos <= len -> contents (tail_ c') = contents (tail_ c) ->
  oom (heap_ c') = oom (heap_ c) ->
  ((forall n, oom (heap_ c) n = false) -> Z.min (len - pos) (kSizeMax - size_ c) = 0) ->
  written src len pos c ZX_OK pos c'.
Proof.
  intros Hwf Hne Hpos Hc Ho Hfull. split; try done; try lia.
  - exists []. rewrite Z.sub_diag, Hc, app_nil_r. split; [apply copied_nil | done].
  - intros _ H. rewrite Hfull by done. lia.
Qed.

Lemma written_fault src len pos c c' st :
  wf c' -> tail_ c' <> [] -> pos <= len -> contents (tail_ c') = contents (tail_ c) ->
  oom (heap_ c') = oom (heap_ c) -> st = ZX_ERR_INVALID_ARGS ->
  (forall l, in_buffer src l -> zlen l = len -> False) ->
  written src len pos c st pos c'.
Proof.
  intros Hwf Hne Hpos Hc Ho -> Hbuf. split; try done; try lia.
  - exists []. rewrite Z.sub_diag, Hc, app_nil_r. split; [apply copied_nil | done].
  - intros l Hl Hlen. by destruct (Hbuf l Hl Hlen).
Qed.

(** A loop whose first iteration copied [bs]. *)
Lemma written_trans src len pos c n bs c1 st pos' c' :
  0 < n -> copy_array_from_user (in_byte_offset src pos) n = (ZX_OK, bs) ->
  contents (tail_ c1) = contents (tail_ c) ++ bs -> oom (heap_ c1) = oom (heap_ c) ->
  size_ c1 = size_ c + n -> n <= Z.min (len - pos) (kSizeMax - size_ c) ->
  written src len (pos + n) c1 st pos' c' -> written src len pos c st pos' c'.
Proof.
  intros Hn Hbs Hc Ho Hs Hle [Hwf Hne Hpos (bs' & Hcp & Hc') Hok Hall Hh Hst]. split; try done; try lia.
  - exists (bs ++ bs'). split; [|by rewrite Hc', Hc, app_assoc].
    replace (pos' - pos) with (n + (pos' - (pos + n))) by lia.
    apply copied_app; (done || lia).
  - intros Hs0 Hoom. rewrite Ho in Hall. specialize (Hall Hs0 Hoom). lia.
  - by rewrite Hh.
Qed.

(** The part of the loop body that runs once [head_] has room. *)
Definition write_fill (k : Z -> t -> option (zx_status_t * Z * t)) (src : user_in_ptr)
    (len pos : Z) (c : t) : option (zx_status_t * Z * t) :=
  a ← head_ c;
  h ← find_addr a (tail_ c);
  let copy_len := Z.min (rem h) (len - pos) in
  let over := size_ c + copy_len >? kSizeMax in
  let copy_len := if over then kSizeMax - size_ c else copy_len in
  if over && (copy_len =? 0) then Some (ZX_OK, pos, c)
  else
    let '(status, bs) := copy_array_from_user (in_byte_offset src pos) copy_len in
    if is_err status then
      Some (status, pos, with_tail (update_addr a (filled bs 0 h) (tail_ c)) c)
    else
      let c := with_tail (update_addr a (filled bs copy_len h) (tail_ c)) c in
      k (pos + copy_len) (with_size (size_ c + copy_len) c).

Lemma write_loop_S fuel src len pos c :
  write_loop (S fuel) src len pos c =
  if negb (pos <? len) then Some (ZX_OK, pos, c)
  else
    a ← head_ c;
    h ← find_addr a (tail_ c);
    if rem h =? 0 then
      match AllocMBuf c with
      | (None, c) => Some (ZX_OK, pos, c)
      | (Some next, c) =>
          write_fill (write_loop fuel src len) src len pos
            (with_head (Some (addr next)) (with_tail (insert_after a next (tail_ c)) c))
      end
    else write_fill (write_loop fuel src len) src len pos c.
Proof.
  simpl. destruct (negb (pos <? len)); [done|].
  destruct (head_ c) as [a|]; simpl; [|done]. destruct (find_addr a (tail_ c)) as [h|]; simpl; [|done].
  unfold write_fill.
  destruct (rem h =? 0); [destruct (AllocMBuf c) as [[next|] c1]; [|done]|]; simpl.
  - destruct (find_addr (addr next) _) as [h'|]; simpl; [|done].
    destruct (_ && _); [done|]. destruct (copy_array_from_user _ _) as [st bs].
    destruct (is_err st); [by rewrite filled_0 | done].
  - destruct (head_ c) as [a'|]; simpl; [|done]. destruct (find_addr a' _) as [h'|]; simpl; [|done].
    destruct (_ && _); [done|]. destruct (copy_array_from_user _ _) as [st bs].
    destruct (is_err st); [by rewrite filled_0 | done].
Qed.

Lemma write_fill_spec k src len pos c l h :
  wf c -> tail_ c = l ++ [h] -> 0 < rem h -> 0 <= pos < len ->
  (forall pos1 c1, wf c1 -> tail_ c1 <> [] -> pos < pos1 <= len ->
     exists st pos' c', k pos1 c1 = Some (st, pos', c') /\ written src len pos1 c1 st pos' c') ->
  exists st pos' c',
    write_fill k src len pos c = Some (st, pos', c') /\ written src len pos c st pos' c'.
Proof.
  intros Hwf Ht Hrem Hpos Hk. destruct (wf_last _ _ _ Hwf Ht) as (Hh & Hf & Hw & Hni).
  pose proof (wf_max _ Hwf) as Hmax.
  assert (forall x, l ++ [x] <> []) as Hne by (by intros x; destruct l).
  unfold write_fill. rewrite Hh. cbn [mbind option_bind]. rewrite Hf. cbn [mbind option_bind].
  set (over := size_ c + Z.min (rem h) (len - pos) >? kSizeMax).
  set (n := if over then kSizeMax - size_ c else Z.min (rem h) (len - pos)).
  assert (over = true /\ n = kSizeMax - size_ c /\ n < Z.min (rem h) (len - pos) \/
          over = false /\ n = Z.min (rem h) (len - pos) /\ size_ c + n <= kSizeMax) as Hover.
  { subst n. destruct over eqn:E; unfold over in E; b2p; [left|right]; split_and!; (done || lia). }
  clearbody over n.
  destruct (over && (n =? 0)) eqn:Estop.
  { apply andb_prop in Estop as [-> En]. b2p. exists ZX_OK, pos, c. split; [done|].
    apply written_stop; try done; [by rewrite Ht | lia | intros _; lia]. }
  assert (0 < n) as Hn0.
  { apply andb_false_iff in Estop as [->|En]; b2p; [|lia]. destruct Hover as [[? _]|]; [done|lia]. }
  destruct (copy_array_from_user (in_byte_offset src pos) n) as [st bs] eqn:Ecp.
  pose proof (copy_from_length (in_byte_offset src pos) n) as Hbl. rewrite Ecp in Hbl. simpl in Hbl.
  destruct (is_err st) eqn:Ee.
  - apply is_err_true in Ee. eexists _, _, _. split; [done|].
    destruct (fill_last_wf c l h bs 0 Hwf Ht) as [Hwf' Hu]; [lia|lia|lia|].
    rewrite Z.add_0_r in Hwf'. apply written_fault; try done; [simpl; by rewrite Hu | lia | | by eapply copy_from_status |].
    + simpl. rewrite Hu, Ht, !contents_app. simpl. by rewrite filled_bytes_fault.
    + intros bl Hb Hlen. apply Ee.
      rewrite (copy_from_buffer _ (drop (Z.to_nat pos) bl)) in Ecp;
        [by simplify_eq | apply in_buffer_offset; [done|unfold zlen in *; lia]|].
      unfold zlen in *. rewrite length_drop. lia.
  - apply is_err_false in Ee. subst st. pose proof (copy_from_ok_length _ _ _ Ecp) as Hlb.
    destruct (fill_last_wf c l h bs n Hwf Ht) as [Hwf' Hu]; [lia|lia|lia|].
    destruct (Hk (pos + n) _ Hwf') as (st' & pos' & c' & HE & Hwr); [simpl; rewrite Hu; by destruct l | lia |].
    exists st', pos', c'. split; [exact HE|].
    eapply (written_trans _ _ _ _ n bs); try exact Hwr; try done; try lia.
    simpl. rewrite Hu, Ht, !contents_app. simpl. rewrite !app_nil_r.
    replace n with (zlen bs) by (unfold zlen; lia). rewrite filled_bytes by (done || lia).
    by rewrite app_assoc.
Qed.

(** The loop of [WriteStream] ends within its fuel, never follows a pointer out
    of the chain, and has the outcome of [written]. *)
Lemma write_loop_spec fuel src len pos c :
  wf c -> tail_ c <> [] -> 0 <= pos <= len -> len - pos < Z.of_nat fuel ->
  exists st pos' c',
    write_loop fuel src len pos c = Some (st, pos', c') /\ written src len pos c st pos' c'.
Proof.
  revert pos c. induction fuel as [|fuel IH]; intros pos c Hwf Hne Hpos Hfuel; [lia|].
  rewrite write_loop_S. destruct (Z.ltb_spec pos len) as [Hl|Hl]; cbn [negb].
  2: { exists ZX_OK, pos, c. split; [done|]. pose proof (wf_max _ Hwf).
       apply written_stop; try done; [lia | intros _; lia]. }
  destruct (exists_last Hne) as (l & h & Ht).
  destruct (wf_last _ _ _ Hwf Ht) as (Hh & Hf & Hw & Hni).
  rewrite Hh. cbn [mbind option_bind]. rewrite Hf. cbn [mbind option_bind].
  assert (forall pos1 c1, wf c1 -> tail_ c1 <> [] -> pos < pos1 <= len ->
     exists st pos' c', write_loop fuel src len pos1 c1 = Some (st, pos', c') /\
       written src len pos1 c1 st pos' c') as Hk by (intros; apply IH; (done || lia)).
  destruct (Z.eqb_spec (rem h) 0) as [Hr|Hr].
  2: { eapply write_fill_spec; [exact Hwf | exact Ht | | lia | exact Hk]. destruct Hw as (_ & _ & _ & Hw & _). unfold rem in *. lia. }
  destruct (AllocMBuf c) as [[next|] c1] eqn:Ea.
  - destruct (AllocMBuf_some [] c next c1 (wf_shape _ Hwf) Ea) as (_ & _ & Ht1 & _).
    pose proof (insert_after_last l h next Hni) as Hi. rewrite <- Ht, <- Ht1 in Hi.
    set (c2 := with_head (Some (addr next)) (with_tail (insert_after (addr h) next (tail_ c1)) c1)).
    assert (tail_ c2 = tail_ c ++ [next]) as Ht2
      by (simpl; rewrite Hi, Ht; by rewrite <- app_assoc).
    destruct (grow_wf c next c1 c2) as (Hwf2 & Hrn & _ & Hc2 & Ho2 & Hs2); try done.
    destruct (write_fill_spec (write_loop fuel src len) src len pos c2 (tail_ c) next)
      as (st & pos' & c' & HE & Hwr); [done | done | rewrite Hrn, kPayloadSize_eq; lia | lia | done|].
    exists st, pos', c'. split; [exact HE|].
    destruct Hwr as [? ? ? Hb ? Hall ? ?]. split; try done.
    + by rewrite Hc2 in Hb.
    + by rewrite Ho2, Hs2 in Hall.
    + by rewrite <- Ho2.
  - destruct (AllocMBuf_none [] c c1 (wf_shape _ Hwf) Ea) as (Hsh & Ht1 & Hs1 & Hoom).
    exists ZX_OK, pos, c1. split; [done|].
    apply written_stop; rewrite ?Ht1; try done; [|lia| |].
    + split; rewrite ?Ht1, ?Hs1; [done | apply (wf_size _ Hwf) | apply (wf_max _ Hwf)].
    + unfold AllocMBuf in Ea. destruct (freelist_ c); [|done].
      destruct (oom _ _) in Ea; by simplify_eq.
    + intros Hno. by rewrite Hno in Hoom.
Qed.

Lemma wf_head_none c : wf c -> head_ c = None -> tail_ c = [].
Proof.
  intros Hwf Hh. rewrite (shape_head _ _ (wf_shape _ Hwf)) in Hh.
  destruct (tail_ c) as [|b l] using rev_ind; [done|]. by rewrite last_snoc in Hh.
Qed.

Lemma wf_head_some c a : wf c -> head_ c = Some a -> tail_ c <> [].
Proof. intros Hwf Hh Ht. by rewrite (shape_head _ _ (wf_shape _ Hwf)), Ht in Hh. Qed.

(** A stream write on every outcome: the chain stays well formed and grows by a
    prefix [bs] of the source, also when the write reports an error; unless a copy
    or an allocation failed, [bs] is all that fits. *)
Record stream_write_post (src : user_in_ptr) (len : Z) (c : t) (st : zx_status_t) (n : Z) (c' : t)
    (bs : list byte) : Prop := {
  sw_wf : wf c';
  sw_heap : oom (heap_ c') = oom (heap_ c);
  sw_copy : copied src 0 (zlen bs) bs;
  sw_len : zlen bs <= len;
  sw_contents : contents (tail_ c') = contents (tail_ c) ++ bs;
  sw_ok : st = ZX_OK -> n = zlen bs /\ 0 < n;
  sw_err : st <> ZX_OK -> n = 0;
  sw_wait : st = ZX_ERR_SHOULD_WAIT -> bs = [];
  sw_nofault : forall l, in_buffer src l -> zlen l = len -> st = ZX_OK \/ st = ZX_ERR_SHOULD_WAIT;
  sw_all : forall l, in_buffer src l -> zlen l = len -> (forall k, oom (heap_ c) k = false) ->
    zlen bs = Z.min len (kSizeMax - size_ c) /\
    st = if zlen bs =? 0 then ZX_ERR_SHOULD_WAIT else ZX_OK;
}.

(** The part of [WriteStream] after [head_] was made to exist. *)
Lemma stream_write_tail src len c c1 :
  wf c1 -> tail_ c1 <> [] -> 0 <= len -> contents (tail_ c1) = contents (tail_ c) ->
  oom (heap_ c1) = oom (heap_ c) -> size_ c1 = size_ c ->
  exists st n c' bs,
    ('(status, pos, c') ← write_loop (write_fuel len) src len 0 c1;
     if is_err status then Some (status, 0, c')
     else if pos =? 0 then Some (ZX_ERR_SHOULD_WAIT, 0, c')
     else Some (ZX_OK, pos, c')) = Some (st, n, c') /\ stream_write_post src len c st n c' bs.
Proof.
  intros Hwf1 Hne Hlen Hc1 Ho1 Hs1.
  destruct (write_loop_spec (write_fuel len) src len 0 c1) as (st & pos & c' & HE & Hwr);
    [done|done|lia|unfold write_fuel; lia|].
  rewrite HE. cbn [mbind option_bind]. destruct Hwr as [Hwf' _ Hp (bs & Hcp & Hcc) Hok Hall Hh Hst].
  rewrite Z.sub_0_r in *. assert (pos = zlen bs) as -> by (by destruct Hcp).
  rewrite Hc1 in Hcc. rewrite Ho1, Hs1 in *.
  destruct (is_err st) eqn:Ee; [|destruct (Z.eqb_spec (zlen bs) 0) as [Hz|Hz]].
  - apply is_err_true in Ee. eexists _, _, _, bs. split; [done|].
    split; try done; try lia; [by intros ->; apply Hst in Ee | |];
      intros l Hl Hll; by rewrite (Hok l Hl Hll) in Ee.
  - apply is_err_false in Ee. eexists _, _, _, bs. split; [done|].
    split; try done; try lia; [intros _; by apply zlen_0 | by right|].
    intros l Hl Hll Ho. specialize (Hall Ee Ho). rewrite Hz in *. split; [lia|done].
  - apply is_err_false in Ee. eexists _, _, _, bs. split; [done|].
    split; try done; try lia; [by left|].
    intros l Hl Hll Ho. specialize (Hall Ee Ho). split; [lia | by rewrite (proj2 (Z.eqb_neq _ _))].
Qed.

(** [WriteStream] always returns: its loop ends and no pointer is dangling. *)
Lemma WriteStream_cases src len c :
  wf c -> 0 <= len ->
  exists st n c' bs, WriteStream src len c = Some (st, n, c') /\ stream_write_post src len c st n c' bs.
Proof.
  intros Hwf Hlen. unfold WriteStream. destruct (head_ c) as [a|] eqn:Eh.
  { cbn [negb]. apply stream_write_tail; try done. by eapply wf_head_some. }
  pose proof (wf_head_none _ Hwf Eh) as Ht.
  destruct (AllocMBuf c) as [[b|] c1] eqn:Ea; cbn [negb].
  - destruct (AllocMBuf_some [] c b c1 (wf_shape _ Hwf) Ea) as (_ & _ & Ht1 & _).
    set (c2 := with_tail (b :: tail_ c1) (with_head (Some (addr b)) c1)).
    assert (tail_ c2 = tail_ c ++ [b]) as Ht2 by (simpl; by rewrite Ht1, Ht).
    destruct (grow_wf c b c1 c2) as (Hwf2 & _ & _ & Hc2 & Ho2 & Hs2); try done.
    by apply stream_write_tail.
  - destruct (AllocMBuf_none [] c c1 (wf_shape _ Hwf) Ea) as (Hsh & Ht1 & Hs1 & Hoom).
    eexists _, _, _, []. split; [done|].
    pose proof (wf_size _ Hwf). pose proof (wf_max _ Hwf).
    split; rewrite ?Ht1, ?app_nil_r; try done.
    + split; rewrite ?Ht1, ?Hs1; done.
    + unfold AllocMBuf in Ea. destruct (freelist_ c); [|done]. destruct (oom _ _) in Ea; by simplify_eq.
    + by right.
    + intros l _ _ Ho. by rewrite Ho in Hoom.
Qed.

(** ** A stream chain as a bounded byte queue *)

(** A run of writes of the given bytes and of reads of the given lengths, with
    the bytes the writers were told were sent and those the readers were given. *)
Inductive stream_op :=
| SWrite (l : list byte)
| SRead (len : nat).

Definition stream_step (op : stream_op) (c : t) : option (t * list byte * list byte) :=
  match op with
  | SWrite l =>
      '(st, n, c') ← WriteStream (user_in_of l) (zlen l) c;
      Some (c', take (Z.to_nat n) l, [])
  | SRead len =>
      let '(st, actual, c', m) := Read user_out_all (Z.of_nat len) false c ∅ in
      Some (c', [], mem_slice m USER_ASPACE_BASE (Z.to_nat actual))
  end.

Fixpoint stream_run (ops : list stream_op) (c : t) : option (t * list byte * list byte) :=
  match ops with
  | [] => Some (c, [], [])
  | op :: ops =>
      '(c1, s1, r1) ← stream_step op c;
      '(c2, s2, r2) ← stream_run ops c1;
      Some (c2, s1 ++ s2, r1 ++ r2)
  end.

(** A buffer that fits the user address space. *)
Definition stream_op_ok (op : stream_op) : Prop :=
  match op with
  | SWrite l => zlen l <= USER_ASPACE_SIZE
  | SRead len => Z.of_nat len <= USER_ASPACE_SIZE
  end.

Lemma stream_step_queue op c :
  wf c -> stream_op_ok op ->
  exists c' s r, stream_step op c = Some (c', s, r) /\ wf c' /\
    contents (tail_ c) ++ s = r ++ contents (tail_ c').
Proof.
  intros Hwf Hop. destruct op as [l|len]; simpl in *.
  - pose proof (in_buffer_of l Hop) as Hib.
    destruct (WriteStream_cases (user_in_of l) (zlen l) c Hwf (zlen_nonneg l))
      as (st & n & c' & bs & HE & Hpost).
    rewrite HE. cbn [mbind option_bind]. eexists _, _, _. split; [done|].
    split; [apply (sw_wf _ _ _ _ _ _ _ Hpost)|]. simpl. rewrite (sw_contents _ _ _ _ _ _ _ Hpost).
    f_equal. pose proof (sw_copy _ _ _ _ _ _ _ Hpost) as Hcp. pose proof (sw_len _ _ _ _ _ _ _ Hpost).
    apply (copied_buffer _ l) in Hcp; [|done|pose proof (zlen_nonneg bs); lia]. destruct (decide (st = ZX_OK)) as [Hst|Hst].
    + by destruct (sw_ok _ _ _ _ _ _ _ Hpost Hst) as [-> _].
    + rewrite (sw_err _ _ _ _ _ _ _ Hpost Hst). change (Z.to_nat 0) with 0%nat. rewrite take_0.
      destruct (sw_nofault _ _ _ _ _ _ _ Hpost l Hib eq_refl) as [|Hw]; [done|].
      by rewrite (sw_wait _ _ _ _ _ _ _ Hpost Hw).
  - destruct (Read user_out_all (Z.of_nat len) false c ∅) as [[[st actual] c'] m] eqn:HE.
    apply Read_stream_cases in HE as (Hwf' & (k & Hk & Hc & Hka) & Hm & Hok); [|done|lia].
    specialize (Hok (out_buffer_all (Z.of_nat len) ltac:(lia))). destruct (Hm Hok) as [Hact ->]. rewrite (Hka Hok) in *.
    eexists _, _, _. split; [done|]. split; [done|]. rewrite app_nil_r, Hc.
    change (uo_addr user_out_all) with USER_ASPACE_BASE. rewrite mem_slice_take by lia. by rewrite take_drop.
Qed.

Lemma stream_run_queue ops c :
  wf c -> Forall stream_op_ok ops ->
  exists c' s r, stream_run ops c = Some (c', s, r) /\ wf c' /\
    contents (tail_ c) ++ s = r ++ contents (tail_ c').
Proof.
  intros Hwf Hops. revert c Hwf. induction Hops as [|op ops Hop _ IH]; intros c Hwf; simpl.
  { exists c, [], []. split_and!; try done. by rewrite app_nil_r. }
  destruct (stream_step_queue op c Hwf Hop) as (c1 & s1 & r1 & -> & Hwf1 & H1). cbn [mbind option_bind].
  destruct (IH c1 Hwf1) as (c2 & s2 & r2 & -> & Hwf2 & H2). cbn [mbind option_bind].
  eexists _, _, _. split; [done|]. split; [done|].
  by rewrite app_assoc, H1, <- !app_assoc, H2.
Qed.

(** A write of a readable buffer when no allocation fails. *)
Lemma WriteStream_fits src l c :
  wf c -> in_buffer src l -> (forall k, oom (heap_ c) k = false) ->
  let n := Z.min (zlen l) (kSizeMax - size_ c) in
  exists c',
    WriteStream src (zlen l) c =
      Some (if n =? 0 then ZX_ERR_SHOULD_WAIT else ZX_OK, n, c') /\
    wf c' /\ contents (tail_ c') = contents (tail_ c) ++ take (Z.to_nat n) l.
Proof.
  intros Hwf Hl Ho n.
  destruct (WriteStream_cases src (zlen l) c Hwf (zlen_nonneg l)) as (st & k & c' & bs & HE & Hp).
  destruct (sw_all _ _ _ _ _ _ _ Hp l Hl eq_refl Ho) as [Hbs Hst]. fold n in Hbs.
  pose proof (sw_copy _ _ _ _ _ _ _ Hp) as Hcp. pose proof (zlen_nonneg bs).
  apply (copied_buffer _ l) in Hcp as Hb; [|done|lia].
  exists c'. rewrite Hbs in *. split_and!.
  - rewrite HE, Hst. f_equal. f_equal. f_equal. destruct (Z.eqb_spec n 0) as [Hz|Hz].
    + rewrite Hz. apply (sw_err _ _ _ _ _ _ _ Hp). by rewrite Hst.
    + destruct (sw_ok _ _ _ _ _ _ _ Hp) as [-> _]; [by rewrite Hst | done].
  - apply (sw_wf _ _ _ _ _ _ _ Hp).
  - rewrite (sw_contents _ _ _ _ _ _ _ Hp). by rewrite <- Hb.
Qed.

(** ** Theorems *)


(** a stream write of a readable buffer, when no allocation fails, takes
    exactly what fits: [min len (kSizeMax - size)] bytes are appended in order and
    counted, and [ZX_ERR_SHOULD_WAIT] is returned only when that is nothing. *)
Theorem WriteStream_takes_what_fits src l c :
  wf c -> in_buffer src l -> (forall k, oom (heap_ c) k = false) ->
  let n := Z.min (zlen l) (kSizeMax - size_ c) in
  exists c',
    WriteStream src (zlen l) c =
      Some (if n =? 0 then ZX_ERR_SHOULD_WAIT else ZX_OK, n, c') /\
    wf c' /\ contents (tail_ c') = contents (tail_ c) ++ take (Z.to_nat n) l.
Proof. apply WriteStream_fits. Qed.

(** C40: [Peek] has the status, the count and the effect on user memory of [Read],
    faults included, for streams and for datagrams. *)
Theorem Peek_is_Read dst len datagram c m :
  Peek dst len datagram c m =
  let '(st, actual, _, m') := Read dst len datagram c m in (st, actual, m').
Proof.
  unfold Peek, Read. destruct (size_ c =? 0); [done|].
  rewrite (peek_read_loop datagram _ _ _ _ c).
  destruct (read_loop _ _ _ _ _ _ _) as [[[st pos] c'] m']. by destruct (is_err st).
Qed.

Lemma WriteStream_takes_what_fits_witness :
  exists c',
    WriteStream (user_in_of [7; 8; 9]) 3 (empty {| next_addr := 0; oom := fun _ => false |}) =
      Some (ZX_OK, 3, c') /\ wf c' /\ contents (tail_ c') = [7; 8; 9].
Proof.
  apply (WriteStream_takes_what_fits (user_in_of [7; 8; 9]) [7; 8; 9]
           (empty {| next_addr := 0; oom := fun _ => false |})).
  - apply wf_empty.
  - by apply in_buffer_of.
  - done.
Defined.

