(* ===== verification/MBufDatagram.v ===== *)
(** * Datagrams in an MBufChain

    A datagram chain is a queue of packets, each a run of buffers whose first
    one carries the packet's length.  Writes append a packet or change nothing;
    reads that take a whole packet remove exactly it.  A read that takes less
    than a packet drops the rest of it only as long as the packet's other buffers
    have [pkt_len_] 0, which [FreeMBuf] does not ensure for reused buffers. *)

From S2P Require Import Prelude Zx UserCopy MBuf MBufFacts.
Import MBufChain.

#[local] Opaque kPayloadSize kSizeMax zero_payload copy_array_from_user copy_array_to_user.

(** ** Well-formedness under datagram operations *)

Lemma read_loop_wf datagram dst len tl pos c m st pos' c' m' :
  read_loop datagram dst len pos tl c m = (st, pos', c', m') -> wf c -> tail_ c = tl -> wf c'.
Proof.
  destruct datagram; [|intros H Hwf Ht; by apply read_loop_stream in H as (? & _)].
  revert pos c m. induction tl as [|it rest IH]; intros pos c m H Hwf Ht.
  { simpl in H. by simplify_eq. }
  rewrite read_loop_cons in H. destruct (Z.ltb_spec pos len); cbn [negb] in H; [|by simplify_eq].
  destruct (copy_array_to_user _ _ m) as [status m1].
  destruct (is_err status); [by simplify_eq|]. rewrite orb_true_r in H.
  pose proof (wf_bufs _ Hwf) as Hb. rewrite Ht in Hb. apply Forall_cons in Hb as [Hit Hb].
  apply IH in H; [done| |done]. eapply popped_wf; try done.
  apply advance_wf; [done|]. destruct Hit as (_ & _ & ? & _). lia.
Qed.

Lemma drain_loop_wf tl c : wf c -> tail_ c = tl -> wf (drain_loop tl c).
Proof.
  revert c. induction tl as [|it rest IH]; intros c Hwf Ht; [done|].
  rewrite drain_loop_cons. destruct (pkt_len_ it =? 0); [|done].
  pose proof (wf_bufs _ Hwf) as Hb. rewrite Ht in Hb. apply Forall_cons in Hb as [Hit Hb].
  apply IH; [|done]. by eapply popped_wf.
Qed.

Lemma Read_wf dst len datagram c m st actual c' m' :
  wf c -> Read dst len datagram c m = (st, actual, c', m') -> wf c'.
Proof.
  intros Hwf H. unfold Read in H. destruct (size_ c =? 0); [by simplify_eq|].
  destruct (read_loop _ _ _ _ _ _ _) as [[[st1 pos] c1] m1] eqn:E.
  apply read_loop_wf in E; [|done|done].
  destruct (is_err st1), datagram; simplify_eq; try done. by apply drain_loop_wf.
Qed.

(** ** Building a packet *)

Lemma alloc_bufs_spec need bufs c ok bufs' c' :
  shape bufs c -> Forall idle bufs -> alloc_bufs need bufs c = (ok, bufs', c') ->
  shape bufs' c' /\ Forall idle bufs' /\ tail_ c' = tail_ c /\ size_ c' = size_ c /\
  (ok = true -> length bufs' = (need + length bufs)%nat) /\
  oom (heap_ c') = oom (heap_ c) /\ ((forall n, oom (heap_ c) n = false) -> ok = true).
Proof.
  revert bufs c. induction need as [|need IH]; intros bufs c Hsh Hi H; simpl in H.
  { by simplify_eq. }
  destruct (AllocMBuf c) as [[b|] c1] eqn:Ea.
  - destruct (AllocMBuf_some _ _ _ _ Hsh Ea) as (Hsh1 & Hb & Ht & _ & Hs & Ho).
    apply IH in H as (? & ? & Ht' & Hs' & Hl & Ho' & Hok); [|done|by constructor].
    split_and!; try done; try congruence.
    + intros E. rewrite (Hl E). simpl. lia.
    + by rewrite Ho in Hok.
  - destruct (AllocMBuf_none _ _ _ Hsh Ea) as (Hsh1 & Ht & Hs & Ho). simplify_eq.
    split_and!; try done.
    + unfold AllocMBuf in Ea. destruct (freelist_ c); [|done]. destruct (oom _ _) in Ea; by simplify_eq.
    + intros Hn. by rewrite Hn in Ho.
Qed.

(** Buffers of a packet being built may be rewritten as long as they keep their
    identity. *)
Definition same_buf (b b' : MBuf) : Prop := addr b' = addr b /\ wf_mbuf b'.

Lemma shape_rewrite bufs bufs' c : Forall2 same_buf bufs bufs' -> shape bufs c -> shape bufs' c.
Proof.
  intros H [Hp Hh Hi]. split; [|done|done].
  cut (forall l, pool_ok (next_addr (heap_ c)) (l ++ bufs ++ tail_ c ++ freelist_ c) ->
                 pool_ok (next_addr (heap_ c)) (l ++ bufs' ++ tail_ c ++ freelist_ c)).
  { intros Hcut. by apply (Hcut []). }
  clear Hp Hh Hi. induction H as [|b b' bufs bufs' [Ha Hw] _ IH]; intros l Hl; [done|].
  simpl in *. change (b' :: bufs' ++ tail_ c ++ freelist_ c) with ([b'] ++ bufs' ++ tail_ c ++ freelist_ c).
  rewrite app_assoc. apply IH. rewrite <- app_assoc. simpl. by eapply pool_ok_replace.
Qed.

(** A packet's buffers: the bytes they hold, none of them empty. *)
Definition nonempty_buf (b : MBuf) : Prop := 0 < len_ b.

(** The fill loop, whatever the copies do, keeps the buffers well formed; when
    it succeeds they hold the source's bytes. *)
Lemma fill_bufs_spec src len pos bufs st bufs' :
  fill_bufs src len pos bufs = (st, bufs') ->
  Forall wf_mbuf bufs -> Forall idle bufs -> 0 <= pos ->
  (Z.of_nat (length bufs) - 1) * kPayloadSize < len - pos \/ bufs = [] ->
  len - pos <= Z.of_nat (length bufs) * kPayloadSize ->
  Forall2 same_buf bufs bufs' /\
  (st = ZX_OK -> Forall nonempty_buf bufs' /\
     copied src pos (Z.max 0 (len - pos)) (contents bufs')) /\
  (forall l, in_buffer src l -> zlen l = len -> st = ZX_OK).
Proof.
  rewrite kPayloadSize_eq.
  revert pos bufs'. induction bufs as [|b rest IH]; intros pos bufs' H Hw Hi Hp Hlo Hhi; simpl in H.
  { simplify_eq. simpl in Hhi. split_and!; [constructor | | done].
    intros _. split; [constructor|]. replace (Z.max 0 (len - pos)) with 0 by lia. apply copied_nil. }
  apply Forall_cons in Hw as [Hwb Hw]. apply Forall_cons in Hi as [[Hib1 Hib2] Hi].
  destruct Hlo as [Hlo|]; [|done]. cbn [length] in Hlo, Hhi.
  rewrite kPayloadSize_eq in H. set (n := Z.min 2008 (len - pos)) in *.
  assert (0 < n <= 2008) as Hn by lia.
  assert (rem b = 2008) as Hrem by (unfold rem; rewrite kPayloadSize_eq; lia).
  destruct (copy_array_from_user (in_byte_offset src pos) n) as [status bs] eqn:Ecp.
  pose proof (copy_from_length (in_byte_offset src pos) n) as Hbl. rewrite Ecp in Hbl. simpl in Hbl.
  assert (splice 0 bs (data_ b) = data_ (filled bs n b)) as Hd
    by (unfold filled; simpl; by rewrite Hib1, Hib2).
  destruct (is_err status) eqn:Ee; [|destruct (fill_bufs src len (pos + n) rest) as [st1 rest1] eqn:Er].
  - apply is_err_true in Ee. simplify_eq. split_and!; [|done|].
    + constructor; [|by clear -Hw; induction Hw; constructor].
      split; [done|]. rewrite Hd. rewrite <- (Z.add_0_r (len_ b)). apply (filled_wf bs 0); (lia || done).
    + intros l Hl Hlen. destruct Ee.
      rewrite (copy_from_buffer _ (drop (Z.to_nat pos) l)) in Ecp;
        [by simplify_eq | apply in_buffer_offset; [done|unfold zlen in *; lia]|].
      unfold zlen in *. rewrite length_drop. lia.
  - apply is_err_false in Ee. simplify_eq. pose proof (copy_from_ok_length _ _ _ Ecp) as Hlb.
    apply IH in Er as (HF & Hok & Hnf); [|done|done|lia|destruct rest; [by right | left; simpl length in *; lia]|lia].
    rewrite Hd. change (mkMBuf _ _ _ _ _) with (filled bs n b).
    split_and!; [constructor; [split; [done|]; apply filled_wf; (lia || done) | done] | | done].
    intros Hst. destruct (Hok Hst) as [Hne Hc]. split; [constructor; [unfold nonempty_buf; simpl; lia | done]|].
    simpl. replace (Z.max 0 (len - pos)) with (n + Z.max 0 (len - (pos + n))) by lia.
    assert (bytes (filled bs n b) = bs) as ->.
    { replace n with (zlen bs) by (unfold zlen; lia). rewrite filled_bytes by (done || lia).
      unfold bytes, slice. by rewrite Hib2. }
    apply copied_app; (done || lia).
Qed.

Lemma enqueue_spec bufs c :
  shape bufs c -> shape [] (enqueue bufs c) /\ tail_ (enqueue bufs c) = tail_ c ++ bufs /\
  size_ (enqueue bufs c) = size_ c /\ heap_ (enqueue bufs c) = heap_ c.
Proof.
  revert c. induction bufs as [|next rest IH]; intros c Hsh; simpl; [by rewrite app_nil_r|].
  set (tl := match head_ c with None => _ | Some h => _ end).
  assert (tl = tail_ c ++ [next]) as Htl.
  { subst tl. rewrite (shape_head _ _ Hsh). destruct (tail_ c) as [|b l _] eqn:Et using rev_ind; [done|].
    rewrite last_snoc. simpl. rewrite insert_after_last; [by rewrite <- app_assoc|].
    by eapply shape_last_fresh. }
  destruct (IH (with_head (Some (addr next)) (with_tail tl c))) as (Hs & Ht & Hz & Hh).
  { by eapply (shape_append next). }
  split_and!; try done. rewrite Ht. simpl. by rewrite Htl, <- app_assoc.
Qed.

(** The buffers [g] hold the datagram [d]. *)
Definition packet (g : list MBuf) (d : list byte) : Prop :=
  contents g = d /\ d <> [] /\ Forall nonempty_buf g /\
  exists b body, g = b :: body /\ pkt_len_ b = zlen d.

(** The buffers [tl] hold the queue of datagrams [ds]. *)
Definition packets (tl : list MBuf) (ds : list (list byte)) : Prop :=
  exists gs, tl = concat gs /\ Forall2 packet gs ds.

Lemma set_pkt_len_spec n bufs :
  0 <= n -> Forall wf_mbuf bufs ->
  Forall2 same_buf bufs (set_pkt_len n bufs) /\ contents (set_pkt_len n bufs) = contents bufs /\
  total (set_pkt_len n bufs) = total bufs /\
  (Forall nonempty_buf bufs -> Forall nonempty_buf (set_pkt_len n bufs)).
Proof.
  intros Hn Hw. destruct Hw as [|b bufs (? & ? & ? & ? & ?) Hw]; simpl; [by split_and!|].
  split_and!; try done.
  - constructor; [by split|]. clear -Hw. by induction Hw; constructor.
  - intros HF. apply Forall_cons in HF as [? ?]. by constructor.
Qed.

Lemma same_buf_trans l k m : Forall2 same_buf l k -> Forall2 same_buf k m -> Forall2 same_buf l m.
Proof.
  intros H. revert m. induction H as [|x y l k [Ha _] _ IH]; intros m Hm; inversion Hm; subst; constructor.
  - destruct H1 as [Hb ?]. split; [congruence|done].
  - by apply IH.
Qed.

Lemma same_buf_wf l k : Forall2 same_buf l k -> Forall wf_mbuf k.
Proof. induction 1 as [|x y l k [_ ?] _ IH]; by constructor. Qed.

Lemma shape_free_wf c c1 bufs :
  wf c -> shape bufs c1 -> tail_ c1 = tail_ c -> size_ c1 = size_ c ->
  wf (FreeAll bufs c1) /\ tail_ (FreeAll bufs c1) = tail_ c.
Proof.
  intros Hwf Hsh Ht Hs. destruct (FreeAll_fields bufs c1) as [Ht' Hs'].
  split; [|congruence]. split; [by apply FreeAll_shape|..]; rewrite ?Hs', ?Ht', Hs, ?Ht; apply Hwf.
Qed.

(** The number of buffers [WriteDatagram] takes for [len] bytes. *)
Lemma need_bounds len :
  0 < len -> let need := 1 + (len - 1) / kPayloadSize in
  0 < need /\ (need - 1) * kPayloadSize < len <= need * kPayloadSize.
Proof.
  intros H need. subst need. rewrite kPayloadSize_eq.
  pose proof (Z.div_mod (len - 1) 2008). pose proof (Z.mod_pos_bound (len - 1) 2008). lia.
Qed.

Definition datagram_status (len : Z) (c : t) : zx_status_t :=
  if len =? 0 then ZX_ERR_INVALID_ARGS else if len >? kSizeMax then ZX_ERR_OUT_OF_RANGE
  else if len + size_ c >? kSizeMax then ZX_ERR_SHOULD_WAIT else ZX_OK.

(** A datagram write appends one whole packet or changes nothing but the free
    list. *)
Lemma WriteDatagram_cases src len c st n c' :
  wf c -> 0 <= len -> WriteDatagram src len c = (st, n, c') ->
  wf c' /\
  (st <> ZX_OK -> n = 0 /\ tail_ c' = tail_ c) /\
  (st = ZX_OK -> n = len /\ exists g d, tail_ c' = tail_ c ++ g /\ packet g d /\
     copy_array_from_user src len = (ZX_OK, d)) /\
  (forall l, in_buffer src l -> zlen l = len -> (forall k, oom (heap_ c) k = false) ->
     st = datagram_status len c).
Proof.
  intros Hwf Hlen H. unfold WriteDatagram in H. unfold datagram_status.
  destruct (Z.eqb_spec len 0) as [|Hl0]; [by simplify_eq|].
  destruct (len >? kSizeMax) eqn:E1; [by simplify_eq|].
  destruct (len + size_ c >? kSizeMax) eqn:E2; [by simplify_eq|]. b2p.
  destruct (need_bounds len) as [Hn0 Hn]; [lia|].
  set (need := 1 + (len - 1) / kPayloadSize) in *. clearbody need.
  destruct (alloc_bufs (Z.to_nat need) [] c) as [[ok bufs] c1] eqn:Ea.
  apply alloc_bufs_spec in Ea as (Hsh1 & Hi1 & Ht1 & Hs1 & Hlen1 & Ho1 & Hok1);
    [|apply (wf_shape _ Hwf)|constructor].
  destruct ok; cbn [negb] in H.
  2: { simplify_eq. destruct (shape_free_wf c c1 bufs Hwf Hsh1 Ht1 Hs1).
       split_and!; try done. intros l _ _ Ho. by specialize (Hok1 Ho). }
  destruct (fill_bufs src len 0 bufs) as [st1 bufs1] eqn:Ef.
  pose proof (shape_pool _ _ Hsh1) as (Hw1 & _). apply Forall_app in Hw1 as [Hw1 _].
  specialize (Hlen1 eq_refl). simpl in Hlen1. rewrite Nat.add_0_r in Hlen1.
  apply fill_bufs_spec in Ef as (HF & Hok & Hnf); [|done|done|lia|left; lia|lia].
  pose proof (shape_rewrite _ _ _ HF Hsh1) as Hsh2.
  destruct (is_err st1) eqn:Ee.
  { apply is_err_true in Ee. simplify_eq. destruct (shape_free_wf c c1 bufs1 Hwf Hsh2 Ht1 Hs1).
    split_and!; try done. intros l Hl Hll _. by rewrite (Hnf l Hl Hll) in Ee. }
  apply is_err_false in Ee. destruct (Hok Ee) as [Hne Hcp].
  destruct (set_pkt_len_spec len bufs1) as (HF2 & Hc2 & Htot & Hne2); [lia|by eapply same_buf_wf|].
  pose proof (shape_rewrite _ _ _ HF2 Hsh2) as Hsh3.
  destruct (enqueue_spec _ _ Hsh3) as (Hsh4 & Ht4 & Hs4 & Hh4). simplify_eq.
  replace (Z.max 0 (n - 0)) with n in Hcp by lia.
  destruct Hcp as [_ Hcp]. specialize (Hcp ltac:(lia)).
  rewrite in_byte_offset_0 in Hcp. pose proof (copy_from_ok_length _ _ _ Hcp) as Hcl.
  assert (total bufs1 = n) as Htb
    by (rewrite <- contents_length by (by eapply same_buf_wf); unfold zlen; lia).
  split_and!; try done.
  - split; simpl; [by destruct Hsh4; split| |lia].
    rewrite Ht4, Hs4, total_app, Hs1, Ht1, Htot, Htb. by rewrite (wf_size _ Hwf).
  - intros _. split; [done|]. exists (set_pkt_len n bufs1), (contents bufs1).
    simpl. rewrite Ht4, Ht1. split_and!; try done. split_and!; try done; [intros Hz; rewrite Hz in Hcl; simpl in Hcl; lia | by apply Hne2|].
    destruct bufs1 as [|b body]; [simpl in Hcl; lia|]. eexists _, _. split; [done|]. simpl.
    simpl in Hcl. unfold zlen. rewrite Hcl. lia.
Qed.

(** ** Reading a packet *)

(** The consuming loop on the packet at the front, with a length that was cut to
    the packet's: it takes buffers off the packet and off nothing else. *)
Lemma read_loop_packet dst len g rest pos c m :
  wf c -> tail_ c = g ++ rest -> Forall nonempty_buf g -> 0 <= pos -> out_buffer dst len ->
  len - pos <= total g ->
  exists c' g',
    read_loop true dst len pos (g ++ rest) c m =
      (ZX_OK, Z.max pos len, c',
       mem_write (uo_addr dst + pos) (take (Z.to_nat (len - pos)) (contents g)) m) /\
    wf c' /\ tail_ c' = g' ++ rest /\ g' `suffix_of` g /\
    (len - pos = total g -> g' = []) /\ (0 < len - pos -> g' `suffix_of` tail g).
Proof.
  revert pos c m. induction g as [|it g IH]; intros pos c m Hwf Ht Hne Hp Hob Hle.
  - simpl in *. exists c, []. split_and!; try done; try lia.
    replace (Z.to_nat (len - pos)) with 0%nat by lia. rewrite Z.max_l by lia.
    destruct rest; simpl; [done|]. destruct (Z.ltb_spec pos len); [lia|done].
  - simpl app in *. rewrite read_loop_cons. apply Forall_cons in Hne as [Hit Hne].
    destruct (Z.ltb_spec pos len) as [Hpl|Hpl]; cbn [negb].
    2: { exists c, (it :: g). replace (Z.to_nat (len - pos)) with 0%nat by lia. rewrite Z.max_l by lia.
         split_and!; try done; try lia. simpl. intros Hz.
         pose proof (wf_bufs _ Hwf) as Hb. rewrite Ht in Hb. apply Forall_cons in Hb as [_ Hb].
         apply Forall_app in Hb as [Hb _]. pose proof (total_nonneg _ Hb). unfold nonempty_buf in Hit. lia. }
    pose proof (wf_bufs _ Hwf) as Hb. rewrite Ht in Hb. apply Forall_cons in Hb as [Hw Hb].
    unfold nonempty_buf in Hit. set (n := Z.min (len_ it) (len - pos)).
    assert (0 < n <= len_ it) as Hn by lia.
    rewrite slice_take_bytes by (done || lia). pose proof (wf_bytes_length _ Hw) as Hbl.
    destruct (out_buffer_ptr _ _ Hob) as [va Hva].
    rewrite (copy_to_buffer _ _ _ (len - pos)); [|apply out_buffer_offset; [done|lia]|].
    2: { unfold zlen. rewrite length_take. lia. }
    rewrite (uo_addr_offset _ va) by done. change (is_err ZX_OK) with false. cbv iota beta. rewrite orb_true_r.
    destruct (IH (pos + n) (popped (advance n it) (g ++ rest) (len_ it) c)
                (mem_write (uo_addr dst + pos) (take (Z.to_nat n) (bytes it)) m))
      as (c' & g' & HE & Hwf' & Ht' & Hsuf & Hall & Hsome); try done; try lia.
    { eapply popped_wf; try done. apply advance_wf; [done|lia]. }
    { simpl in Hle. apply Forall_app in Hb as [Hb _]. pose proof (total_nonneg _ Hb). lia. }
    exists c', g'. split_and!; try done.
    + cbv zeta. rewrite HE. f_equal; [f_equal; f_equal; lia|]. simpl.
      unfold zlen in Hbl. destruct (decide (len - pos <= len_ it)) as [Hc|Hc].
      * replace (Z.to_nat (len - (pos + n))) with 0%nat by lia. rewrite take_0. simpl.
        replace n with (len - pos) by lia. by rewrite take_app_le by lia.
      * replace (Z.to_nat (len - pos)) with (length (bytes it) + Z.to_nat (len - (pos + n)))%nat by lia.
        rewrite take_app_add, mem_write_app, (take_ge (bytes it)) by lia.
        f_equal. unfold zlen. lia.
    + by apply suffix_cons_r.
    + intros Hz. apply Hall. simpl in Hz.
      apply Forall_app in Hb as [Hb _]. pose proof (total_nonneg _ Hb). lia.
Qed.

Lemma drain_loop_packet g rest c :
  Forall (fun b => pkt_len_ b = 0) g -> (forall b, head rest = Some b -> pkt_len_ b <> 0) ->
  tail_ c = g ++ rest -> tail_ (drain_loop (g ++ rest) c) = rest.
Proof.
  intros Hg Hr. revert c. induction Hg as [|b g Hb _ IH]; intros c Ht.
  - simpl app in *. destruct rest as [|b rest]; [done|]. rewrite drain_loop_cons.
    destruct (Z.eqb_spec (pkt_len_ b) 0) as [E|E]; [by destruct (Hr b) | done].
  - simpl app. rewrite drain_loop_cons, Hb. simpl. by apply IH.
Qed.

Lemma packets_cons_inv tl d ds :
  packets tl (d :: ds) ->
  exists b body rest, tl = (b :: body) ++ rest /\ packet (b :: body) d /\ pkt_len_ b = zlen d /\
    packets rest ds /\ (forall b', head rest = Some b' -> pkt_len_ b' <> 0).
Proof.
  intros (gs & -> & HF). inversion HF as [|g d' gs' ds' Hg HF']; subst.
  pose proof Hg as (Hc & Hd & Hne & b & body & -> & Hp). exists b, body, (concat gs').
  split_and!; try done; [by exists gs'|].
  intros b' Hb'. destruct HF' as [|g2 d2 gs2 ds2 (Hc2 & Hd2 & Hne2 & b2 & body2 & -> & Hp2) _]; [done|].
  simpl in Hb'. simplify_eq. rewrite Hp2. by rewrite zlen_0.
Qed.

(** Reading the front packet, whole or cut short.  A cut read needs the other
    buffers of the packet to have [pkt_len_] 0. *)
Lemma Read_packet dst len c m b body rest d :
  wf c -> tail_ c = (b :: body) ++ rest -> packet (b :: body) d -> pkt_len_ b = zlen d ->
  (forall b', head rest = Some b' -> pkt_len_ b' <> 0) ->
  0 < len -> out_buffer dst len ->
  zlen d <= len \/ Forall (fun b => pkt_len_ b = 0) body ->
  exists c',
    Read dst len true c m =
      (ZX_OK, Z.min len (zlen d), c', mem_write (uo_addr dst) (take (Z.to_nat len) d) m) /\
    wf c' /\ tail_ c' = rest.
Proof.
  intros Hwf Ht (Hc & Hd & Hne & _) Hp Hr Hlen Hob Hcut.
  pose proof (wf_bufs _ Hwf) as Hb. rewrite Ht in Hb. apply Forall_app in Hb as [Hb Hb'].
  pose proof (contents_length _ Hb) as Htot. rewrite Hc in Htot.
  pose proof (total_nonneg _ Hb'). assert (0 < zlen d) as Hd0.
  { pose proof (zlen_nonneg d). destruct (decide (zlen d = 0)) as [E|]; [by apply zlen_0 in E | lia]. }
  unfold Read. rewrite (proj2 (Z.eqb_neq (size_ c) 0)).
  2: { rewrite (wf_size _ Hwf), Ht, total_app. lia. }
  assert (clip_len true len c = Z.min len (zlen d)) as ->.
  { unfold clip_len. rewrite Ht. simpl. rewrite Hp. destruct (Z.gtb_spec len (zlen d)); lia. }
  rewrite Ht.
  destruct (read_loop_packet dst (Z.min len (zlen d)) (b :: body) rest 0 c m)
    as (c' & g' & -> & Hwf' & Ht' & Hsuf & Hall & Hbody); try done; try lia.
  { eapply out_buffer_mono; [done|lia]. }
  rewrite Z.max_r, Z.sub_0_r, Z.add_0_r by lia. change (is_err ZX_OK) with false. cbv iota beta.
  rewrite Hc.
  assert (take (Z.to_nat (Z.min len (zlen d))) d = take (Z.to_nat len) d) as ->.
  { unfold zlen. destruct (decide (len <= Z.of_nat (length d))); [f_equal; lia|].
    rewrite !take_ge; (done || lia). }
  exists (drain_loop (tail_ c') c'). split; [done|]. split; [by apply drain_loop_wf|].
  rewrite Ht'. apply drain_loop_packet; [|done|done].
  destruct Hcut as [Hfull|H0]; [rewrite Hall by lia; constructor|].
  destruct Hbody as [pre Hpre]; [lia|]. simpl in Hpre. rewrite Hpre in H0.
  by apply Forall_app in H0 as [_ ?].
Qed.

(** ** A datagram chain as a queue of datagrams *)

Inductive dgram_op :=
| DWrite (l : list byte)
| DRead (len : Z).

(** The chain, the datagrams the writer was told were sent, and those the reader
    got. *)
Definition dgram_step (op : dgram_op) (c : t) : t * list (list byte) * list (list byte) :=
  match op with
  | DWrite l =>
      let '(st, n, c') := WriteDatagram (user_in_of l) (zlen l) c in
      (c', if is_err st then [] else [l], [])
  | DRead len =>
      let '(st, actual, c', m) := Read user_out_all len true c ∅ in
      (c', [], if actual =? 0 then [] else [mem_slice m USER_ASPACE_BASE (Z.to_nat actual)])
  end.

Fixpoint dgram_run (ops : list dgram_op) (c : t) : t * list (list byte) * list (list byte) :=
  match ops with
  | [] => (c, [], [])
  | op :: ops =>
      let '(c1, s1, r1) := dgram_step op c in
      let '(c2, s2, r2) := dgram_run ops c1 in
      (c2, s1 ++ s2, r1 ++ r2)
  end.

(** Buffers in user space, and room for the longest datagram in a read. *)
Definition whole (op : dgram_op) : Prop :=
  match op with
  | DWrite l => zlen l <= USER_ASPACE_SIZE
  | DRead len => kSizeMax <= len <= USER_ASPACE_SIZE
  end.

Lemma packets_nil_inv tl : packets tl [] -> tl = [].
Proof. intros (gs & -> & HF). by inversion HF. Qed.

Lemma packets_snoc tl ds g d : packets tl ds -> packet g d -> packets (tl ++ g) (ds ++ [d]).
Proof.
  intros (gs & -> & HF) Hg. exists (gs ++ [g]). split; [by rewrite concat_app; simpl; rewrite app_nil_r|].
  apply Forall2_app; [done | by constructor].
Qed.

Lemma dgram_step_queue op c ds :
  wf c -> packets (tail_ c) ds -> whole op ->
  exists c' s r ds', dgram_step op c = (c', s, r) /\ wf c' /\ packets (tail_ c') ds' /\
    ds ++ s = r ++ ds'.
Proof.
  intros Hwf Hq Hop. destruct op as [l|len]; simpl in *.
  - destruct (WriteDatagram (user_in_of l) (zlen l) c) as [[st n] c'] eqn:E.
    apply WriteDatagram_cases in E as (Hwf' & Herr & Hok & _); [|done|apply zlen_nonneg].
    destruct (is_err st) eqn:Ee.
    + apply is_err_true in Ee. destruct (Herr Ee) as [_ Ht]. exists c', [], [], ds.
      rewrite Ht, app_nil_r. by split_and!.
    + apply is_err_false in Ee. destruct (Hok Ee) as (_ & g & d & Ht & Hg & Hcp).
      rewrite (copy_from_buffer _ l) in Hcp by (by apply in_buffer_of || (pose proof (zlen_nonneg l); lia)).
      injection Hcp as Hd. unfold zlen in Hd. rewrite Nat2Z.id, firstn_all in Hd. subst d.
      exists c', [l], [], (ds ++ [l]). split_and!; try done. rewrite Ht. by apply packets_snoc.
  - destruct ds as [|d ds].
    + apply packets_nil_inv in Hq as Ht. unfold Read.
      assert (size_ c = 0) as -> by (by rewrite (wf_size _ Hwf), Ht). exists c, [], [], [].
      by split_and!.
    + destruct (packets_cons_inv _ _ _ Hq) as (b & body & rest & Ht & Hp & Hpl & Hq' & Hr).
      pose proof (wf_contents_size _ Hwf) as Hcs. pose proof (wf_max _ Hwf) as Hmax.
      pose proof Hp as (Hc & Hd & _).
      assert (zlen d <= len) as Hle.
      { rewrite Ht, contents_app, Hc, zlen_app in Hcs. pose proof (zlen_nonneg (contents rest)). lia. }
      destruct (Read_packet user_out_all len c ∅ b body rest d) as (c' & -> & Hwf' & Ht');
        try done; [rewrite kSizeMax_eq in Hop; lia | apply out_buffer_all; rewrite kSizeMax_eq in Hop; lia | by left|].
      rewrite Z.min_r by done. rewrite (proj2 (Z.eqb_neq _ _)) by (by rewrite zlen_0).
      exists c', [], [d], ds. split_and!; try done; [|by rewrite Ht' | by rewrite app_nil_r].
      f_equal. f_equal. unfold zlen in *. rewrite Nat2Z.id, take_ge by lia. apply mem_slice_write.
Qed.

Lemma dgram_run_queue ops c ds :
  wf c -> packets (tail_ c) ds -> Forall whole ops ->
  exists c' s r ds', dgram_run ops c = (c', s, r) /\ wf c' /\ packets (tail_ c') ds' /\
    ds ++ s = r ++ ds'.
Proof.
  intros Hwf Hq Hops. revert c ds Hwf Hq. induction Hops as [|op ops Hop _ IH]; intros c ds Hwf Hq; simpl.
  { exists c, [], [], ds. by rewrite app_nil_r. }
  destruct (dgram_step_queue op c ds Hwf Hq Hop) as (c1 & s1 & r1 & ds1 & -> & Hwf1 & Hq1 & H1).
  destruct (IH c1 ds1 Hwf1 Hq1) as (c2 & s2 & r2 & ds2 & -> & Hwf2 & Hq2 & H2).
  eexists _, _, _, ds2. split_and!; try done. by rewrite app_assoc, H1, <- !app_assoc, H2.
Qed.

(** ** What a client that never faults can rely on *)

(** Chains written with datagrams: no empty buffer, and a packet length on the
    first one. *)
Definition dgram_ok (c : t) : Prop :=
  Forall nonempty_buf (tail_ c) /\ forall b, head (tail_ c) = Some b -> pkt_len_ b <> 0.

Definition chain_ok (datagram : bool) (c : t) : Prop := wf c /\ (datagram = true -> dgram_ok c).

Lemma chain_ok_empty datagram h : chain_ok datagram (empty h).
Proof. split; [apply wf_empty|]. intros _. split; [constructor | done]. Qed.

Lemma wf_pop_size c it rest : wf c -> tail_ c = it :: rest -> 0 <= len_ it.
Proof.
  intros Hwf Ht. pose proof (wf_bufs _ Hwf) as Hb. rewrite Ht in Hb.
  by apply Forall_cons in Hb as [(_ & _ & ? & _) _].
Qed.

Lemma read_loop_dgram dst len tl pos c m :
  wf c -> tail_ c = tl -> Forall nonempty_buf tl -> 0 <= pos -> out_buffer dst len ->
  exists pos' c' m',
    read_loop true dst len pos tl c m = (ZX_OK, pos', c', m') /\ wf c' /\
    Forall nonempty_buf (tail_ c') /\ pos <= pos' /\ size_ c' <= size_ c /\
    (len <= pos -> c' = c /\ pos' = pos) /\
    (pos < len -> tl <> [] -> pos < pos' /\ size_ c' < size_ c).
Proof.
  revert pos c m. induction tl as [|it rest IH]; intros pos c m Hwf Ht Hne Hp Hob.
  { exists pos, c, m. rewrite Ht. by split_and!. }
  rewrite read_loop_cons. destruct (Z.ltb_spec pos len) as [Hpl|Hpl]; cbn [negb].
  2: { exists pos, c, m. rewrite Ht. split_and!; try done; lia. }
  pose proof (wf_bufs _ Hwf) as Hb. rewrite Ht in Hb. apply Forall_cons in Hb as [Hw Hb].
  apply Forall_cons in Hne as [Hit Hne]. unfold nonempty_buf in Hit.
  set (n := Z.min (len_ it) (len - pos)). assert (0 < n <= len_ it) as Hn by lia.
  rewrite slice_take_bytes by (done || lia). pose proof (wf_bytes_length _ Hw) as Hbl.
  rewrite (copy_to_buffer _ _ _ (len - pos)); [|apply out_buffer_offset; [done|lia]|].
  2: { unfold zlen. rewrite length_take. lia. }
  change (is_err ZX_OK) with false. cbv iota beta zeta. rewrite orb_true_r.
  edestruct (IH (pos + n) (popped (advance n it) rest (len_ it) c))
    as (pos' & c' & m' & HE & Hwf' & Hne' & Hpos & Hs & _ & _); [| |done|lia|done|].
  { eapply popped_wf; try done. apply advance_wf; [done|lia]. }
  { done. }
  rewrite HE. exists pos', c', m'. simpl in Hs. split_and!; try done; lia.
Qed.

Lemma drain_loop_dgram tl c :
  wf c -> tail_ c = tl -> Forall nonempty_buf tl ->
  wf (drain_loop tl c) /\ dgram_ok (drain_loop tl c) /\ size_ (drain_loop tl c) <= size_ c /\
  ((forall b, head tl = Some b -> pkt_len_ b <> 0) -> drain_loop tl c = c).
Proof.
  revert c. induction tl as [|it rest IH]; intros c Hwf Ht Hne.
  { simpl. split_and!; try done. split; rewrite Ht; done. }
  rewrite drain_loop_cons. apply Forall_cons in Hne as [Hit Hne].
  destruct (Z.eqb_spec (pkt_len_ it) 0) as [E|E].
  - pose proof (wf_pop_size _ _ _ Hwf Ht).
    destruct (IH (popped it rest (len_ it) c)) as (Hwf' & Hd & Hs & _); [|done|done|].
    { pose proof (wf_bufs _ Hwf) as Hb. rewrite Ht in Hb. apply Forall_cons in Hb as [Hw Hb].
      by eapply popped_wf. }
    split_and!; try done; [simpl in Hs; lia|]. intros Hh. by destruct (Hh it).
  - split_and!; try done. split; rewrite Ht; [by constructor|]. intros b Hb. by simplify_eq/=.
Qed.

(** A read whose destination can be written. *)
Lemma Read_nofault datagram dst len c m :
  chain_ok datagram c -> 0 <= len -> out_buffer dst len ->
  exists actual c' m',
    Read dst len datagram c m = (ZX_OK, actual, c', m') /\ chain_ok datagram c' /\
    0 <= actual /\ size_ c' <= size_ c /\
    (actual = 0 -> size_ c' = size_ c) /\ (0 < actual -> size_ c' < size_ c).
Proof.
  intros [Hwf Hd] Hlen Hob. destruct datagram; cycle 1.
  { destruct (Read dst len false c m) as [[[st actual] c'] m'] eqn:E.
    apply Read_stream_cases in E as (Hwf' & (k & Hk & Hc & Hka) & Hm & Hok); [|done|done].
    specialize (Hok Hob). subst st. destruct Hm as [Hact _]; [done|]. specialize (Hka eq_refl).
    pose proof (wf_contents_size _ Hwf) as Hs. pose proof (wf_contents_size _ Hwf') as Hs'.
    rewrite Hc in Hs'. unfold zlen in *. rewrite length_drop in Hs'.
    exists actual, c', m'. split_and!; try done; lia. }
  destruct (Hd eq_refl) as [Hne Hf]. unfold Read.
  destruct (Z.eqb_spec (size_ c) 0) as [Hz|Hz].
  { exists 0, c, m. by split_and!. }
  destruct (read_loop_dgram dst (clip_len true len c) (tail_ c) 0 c m)
    as (pos' & c' & m' & -> & Hwf' & Hne' & Hpos & Hs & Hstop & Hgo); try done.
  { eapply out_buffer_mono; [done|]. unfold clip_len. destruct (tail_ c) as [|b tl]; [done|].
    simpl. destruct (Z.gtb_spec len (pkt_len_ b)); lia. }
  change (is_err ZX_OK) with false. cbv iota beta.
  destruct (drain_loop_dgram (tail_ c') c' Hwf' eq_refl Hne') as (Hwf2 & Hd2 & Hs2 & Hid).
  exists pos', (drain_loop (tail_ c') c'), m'. split_and!; try done; try lia.
  - destruct (decide (0 < clip_len true len c)) as [Hc|Hc].
    + destruct Hgo; [done| |lia]. intros Ht. destruct Hz. by rewrite (wf_size _ Hwf), Ht.
    + destruct Hstop as [-> ->]; [lia|]. intros _. by rewrite Hid.
  - intros Ha. destruct (decide (0 < clip_len true len c)) as [Hc|Hc]; [|lia].
    destruct Hgo; [done| |lia]. intros Ht. destruct Hz. by rewrite (wf_size _ Hwf), Ht.
Qed.

(** A write from a readable buffer, whichever allocations fail. *)
Lemma Write_nofault (datagram : bool) src l c :
  chain_ok datagram c -> in_buffer src l ->
  exists st n c',
    (if datagram then Some (WriteDatagram src (zlen l) c) else WriteStream src (zlen l) c) =
      Some (st, n, c') /\ chain_ok datagram c' /\
    (st = ZX_OK -> 0 < n /\ size_ c' = size_ c + n) /\ (st <> ZX_OK -> size_ c' = size_ c).
Proof.
  intros [Hwf Hd] Hl. pose proof (zlen_nonneg l) as Hz. destruct datagram.
  - destruct (WriteDatagram src (zlen l) c) as [[st n] c'] eqn:E. exists st, n, c'.
    split; [done|]. apply WriteDatagram_cases in E as (Hwf' & Herr & Hok & _); [|done|done].
    destruct (Hd eq_refl) as [Hne Hf].
    pose proof (wf_size _ Hwf) as Hs. pose proof (wf_size _ Hwf') as Hs'.
    split_and!.
    + split; [done|]. intros _. destruct (decide (st = ZX_OK)) as [Hst|Hst].
      * destruct (Hok Hst) as (_ & g & d & Ht & (_ & Hd0 & Hg & b & body & -> & Hp) & _).
        split; rewrite Ht; [by apply Forall_app|]. intros b' Hb'.
        destruct (tail_ c) as [|x tl]; simplify_eq/=; [|by apply Hf]. rewrite Hp. by rewrite zlen_0.
      * destruct (Herr Hst) as [_ Ht]. split; rewrite Ht; done.
    + intros Hst. destruct (Hok Hst) as (-> & g & d & Ht & (Hc & Hd0 & Hg & _) & Hcp).
      pose proof (copy_from_ok_length _ _ _ Hcp) as Hdl.
      rewrite Ht, total_app in Hs'. pose proof (wf_bufs _ Hwf') as Hb. rewrite Ht in Hb.
      apply Forall_app in Hb as [_ Hb]. pose proof (contents_length _ Hb) as Hct. rewrite Hc in Hct.
      pose proof (zlen_0 d) as Hd00. unfold zlen in *. destruct (length d) eqn:El; [|lia].
      by destruct Hd0, d.
    + intros Hst. destruct (Herr Hst) as [_ Ht]. congruence.
  - destruct (WriteStream_cases src (zlen l) c Hwf Hz) as (st & n & c' & bs & HE & Hp).
    exists st, n, c'. split; [done|]. pose proof (sw_wf _ _ _ _ _ _ _ Hp) as Hwf'.
    pose proof (wf_contents_size _ Hwf) as Hs. pose proof (wf_contents_size _ Hwf') as Hs'.
    rewrite (sw_contents _ _ _ _ _ _ _ Hp), zlen_app in Hs'.
    split_and!; [by split | |].
    + intros Hst. destruct (sw_ok _ _ _ _ _ _ _ Hp Hst). lia.
    + intros Hst. destruct (sw_nofault _ _ _ _ _ _ _ Hp l Hl eq_refl) as [|Hw]; [done|].
      rewrite (sw_wait _ _ _ _ _ _ _ Hp Hw), zlen_nil in Hs'. lia.
Qed.

(** ** Theorems *)

(** a datagram chain keeps message boundaries and order.  In any run of writes
    and of reads with room for the longest datagram, whichever allocations fail,
    the datagrams read are those whose write was accepted, whole and in order; the
    chain holds the others. *)
Theorem datagram_integrity h ops :
  Forall whole ops ->
  exists c sent received waiting,
    dgram_run ops (empty h) = (c, sent, received) /\ sent = received ++ waiting /\
    packets (tail_ c) waiting /\ size_ c <= kSizeMax.
Proof.
  intros Hops. destruct (dgram_run_queue ops (empty h) [] (wf_empty h)) as (c & s & r & ds & HE & Hwf & Hq & H).
  - by exists [].
  - done.
  - exists c, s, r, ds. split_and!; try done. apply (wf_max _ Hwf).
Qed.

Lemma datagram_integrity_witness :
  exists c sent received waiting,
    dgram_run [DWrite [1; 2; 3]; DWrite []; DWrite [4]; DRead kSizeMax]
      (empty {| next_addr := 0; oom := fun _ => false |}) = (c, sent, received) /\
    sent = received ++ waiting /\ packets (tail_ c) waiting /\ size_ c <= kSizeMax.
Proof. apply datagram_integrity. by repeat constructor. Defined.

(** a read of less than the front datagram returns its first bytes and drops
    the rest of it, when the buffers behind the first have [pkt_len_] 0; in
    particular for every datagram that fits one buffer. *)
Theorem short_read_drops_rest dst len c m b body rest d :
  wf c -> tail_ c = (b :: body) ++ rest -> packet (b :: body) d ->
  (forall b', head rest = Some b' -> pkt_len_ b' <> 0) ->
  0 < len -> out_buffer dst len -> Forall (fun b => pkt_len_ b = 0) body ->
  exists c',
    Read dst len true c m =
      (ZX_OK, Z.min len (zlen d), c', mem_write (uo_addr dst) (take (Z.to_nat len) d) m) /\
    wf c' /\ tail_ c' = rest.
Proof.
  intros Hwf Ht Hp Hr Hlen Hob H0. eapply Read_packet; try done; [|by right].
  destruct Hp as (_ & _ & _ & b0 & body0 & E & Hpl). by simplify_eq.
Qed.

#[local] Transparent kPayloadSize kSizeMax zero_payload copy_array_from_user copy_array_to_user.

Definition plain_heap : heap := {| next_addr := 0; oom := fun _ => false |}.

Definition short_read_chain : t := (WriteDatagram (user_in_of [5; 6; 7]) 3 (empty plain_heap)).2.

Lemma short_read_drops_rest_witness :
  exists c',
    Read user_out_all 2 true short_read_chain ∅ =
      (ZX_OK, 2, c', mem_write USER_ASPACE_BASE [5; 6] ∅) /\ wf c' /\ tail_ c' = [].
Proof.
  destruct (tail_ short_read_chain) as [|b body] eqn:Ht; [vm_compute in Ht; discriminate|].
  apply (short_read_drops_rest user_out_all 2 short_read_chain ∅ b body [] [5; 6; 7]).
  - unfold short_read_chain.
    destruct (WriteDatagram (user_in_of [5; 6; 7]) 3 (empty plain_heap)) as [[st n] c'] eqn:E.
    by apply WriteDatagram_cases in E as (Hwf & _); [|apply wf_empty|].
  - by rewrite app_nil_r.
  - rewrite <- Ht. split_and!; [vm_compute; reflexivity | done | |].
    + vm_compute. repeat constructor.
    + exists b, body. split; [done|]. vm_compute in Ht. by simplify_eq.
  - done.
  - lia.
  - by apply out_buffer_all.
  - vm_compute in Ht. simplify_eq. constructor.
Defined.

(** without that proviso a short read does not drop the rest of its datagram.
    After a 10-byte datagram was written and read, its buffer is reused as the
    second one of a 3000-byte datagram and still carries [pkt_len_] 10; reading 5
    bytes of that datagram leaves a spurious 10-byte datagram in the chain, which
    the next read returns. *)
Theorem short_read_leaves_spurious_datagram :
  let '(c, sent, received) :=
    dgram_run [DWrite (repeat 1 10); DRead kSizeMax; DWrite (repeat 2 3000); DRead 5; DRead kSizeMax]
      (empty plain_heap) in
  sent = [repeat 1 10; repeat 2 3000] /\
  received = [repeat 1 10; repeat 2 5; repeat 2 10].
Proof. vm_compute. repeat split. Qed.
