(* ===== verification/Socket.v ===== *)
(** * SocketDispatcher

    [object/socket_dispatcher.cc].  Each endpoint owns the chain of bytes its peer
    wrote to it; signals of both endpoints follow the amount of data in the two
    chains, the thresholds and the shutdown state. *)

From S2P Require Import Prelude Zx UserCopy Dispatcher Peered MBuf MBufFacts MBufDatagram.

Module SocketDispatcher.

(** ** Data *)

Record Socket := mkSocket {
  flags_ : Z;
  data_ : MBufChain.t;
  read_threshold_ : Z;
  write_threshold_ : Z;
  read_disabled_ : bool;
}.

Definition with_data (c : MBufChain.t) (s : Socket) : Socket :=
  {| flags_ := flags_ s; data_ := c; read_threshold_ := read_threshold_ s;
     write_threshold_ := write_threshold_ s; read_disabled_ := read_disabled_ s |}.
Definition with_read_threshold (v : Z) (s : Socket) : Socket :=
  {| flags_ := flags_ s; data_ := data_ s; read_threshold_ := v;
     write_threshold_ := write_threshold_ s; read_disabled_ := read_disabled_ s |}.
Definition with_write_threshold (v : Z) (s : Socket) : Socket :=
  {| flags_ := flags_ s; data_ := data_ s; read_threshold_ := read_threshold_ s;
     write_threshold_ := v; read_disabled_ := read_disabled_ s |}.
Definition with_read_disabled (b : bool) (s : Socket) : Socket :=
  {| flags_ := flags_ s; data_ := data_ s; read_threshold_ := read_threshold_ s;
     write_threshold_ := write_threshold_ s; read_disabled_ := b |}.

Definition is_full (s : Socket) : bool := MBufChain.is_full (data_ s).
Definition is_empty (s : Socket) : bool := MBufChain.is_empty (data_ s).
Definition is_datagram (s : Socket) : bool := has (flags_ s) ZX_SOCKET_DATAGRAM.

Inductive ReadType := kConsume | kPeek.

Record zx_info_socket_t := {
  options : Z;
  rx_buf_max : Z;
  rx_buf_size : Z;
  rx_buf_available : Z;
  tx_buf_max : Z;
  tx_buf_size : Z;
}.

(** The constructor's initial values. *)
Definition new_socket (flags : Z) (h : MBufChain.heap) : Socket :=
  {| flags_ := flags; data_ := MBufChain.empty h; read_threshold_ := 0; write_threshold_ := 0;
     read_disabled_ := false |}.

Section Ops.
Context {W O : Type} {SO : StateObserver W O}.
Abbreviation sys := (PeerSys W O Socket unit).
Implicit Types p : sys.

(** ** Creation and closing *)

(** [oom] says which of the three allocations fail (the holder, the first and
    the second endpoint); [k0] and [k1] are the koids the endpoints get. *)
Definition Create (oom : nat -> bool) (k0 k1 flags : Z) (h0 h1 : MBufChain.heap) (w : W)
    : zx_status_t * option sys :=
  if nz (flags .&~ ZX_SOCKET_CREATE_MASK) then (ZX_ERR_INVALID_ARGS, None)
  else if oom 0%nat then (ZX_ERR_NO_MEMORY, None)
  else if oom 1%nat then (ZX_ERR_NO_MEMORY, None)
  else if oom 2%nat then (ZX_ERR_NO_MEMORY, None)
  else (ZX_OK, Some (new_pair k0 k1 ZX_SOCKET_WRITABLE (new_socket flags h0) (new_socket flags h1) tt w)).

Definition on_zero_handles_locked (sd : side) p : sys := p.

Definition OnPeerZeroHandlesLocked (sd : side) p : sys :=
  UpdateStateLocked sd ZX_SOCKET_WRITABLE ZX_SOCKET_PEER_CLOSED p.

#[export] Instance socket_self : PeeredSelf W O Socket unit := {
  peered_rights := ZX_DEFAULT_SOCKET_RIGHTS;
  extra_signals := 0;
  Peered.on_zero_handles_locked := on_zero_handles_locked;
  Peered.OnPeerZeroHandlesLocked := OnPeerZeroHandlesLocked;
}.

Definition UserSignalSelfLocked (sd : side) (clear_mask set_mask : Z) p : zx_status_t * sys :=
  (ZX_OK, UpdateStateLocked sd clear_mask set_mask p).

(** ** Shutdown *)

Definition ShutdownOtherLocked (sd : side) (how : Z) p : zx_status_t * sys :=
  let shutdown_read := has how ZX_SOCKET_SHUTDOWN_READ in
  let shutdown_write := has how ZX_SOCKET_SHUTDOWN_WRITE in
  let clear_mask := if shutdown_read then ZX_SOCKET_WRITABLE else 0 in
  let set_mask := (if shutdown_read then ZX_SOCKET_WRITE_DISABLED else 0)
                  .| (if shutdown_write then ZX_SOCKET_PEER_WRITE_DISABLED else 0) in
  let p := if shutdown_write then put_xt sd (with_read_disabled true (xt sd p)) p else p in
  (ZX_OK, UpdateStateLocked sd clear_mask set_mask p).

Definition Shutdown (sd : side) (how : Z) p : zx_status_t * sys :=
  let shutdown_read := has how ZX_SOCKET_SHUTDOWN_READ in
  let shutdown_write := has how ZX_SOCKET_SHUTDOWN_WRITE in
  let signals := sig sd p in
  let want_signals := (if shutdown_read then ZX_SOCKET_PEER_WRITE_DISABLED else 0)
                      .| (if shutdown_write then ZX_SOCKET_WRITE_DISABLED else 0) in
  let have_signals := signals .& (ZX_SOCKET_PEER_WRITE_DISABLED .| ZX_SOCKET_WRITE_DISABLED) in
  if want_signals =? have_signals then (ZX_OK, p)
  else
    let clear_mask := if shutdown_write then ZX_SOCKET_WRITABLE else 0 in
    let set_mask := (if shutdown_read then ZX_SOCKET_PEER_WRITE_DISABLED else 0)
                    .| (if shutdown_write then ZX_SOCKET_WRITE_DISABLED else 0) in
    let p := if shutdown_read then put_xt sd (with_read_disabled true (xt sd p)) p else p in
    let p := UpdateStateLocked sd clear_mask set_mask p in
    if has_peer sd p then ShutdownOtherLocked (other sd) how p else (ZX_OK, p).

(** ** Writing *)

(** Called on the reading endpoint; the writer is its peer. *)
Definition WriteSelfLocked (sd : side) (src : user_in_ptr) (len : Z) p
    : option (zx_status_t * Z * sys) :=
  let s := xt sd p in
  if is_full s then Some (ZX_ERR_SHOULD_WAIT, 0, p)
  else
    let was_empty := is_empty s in
    '(status, st, data) ←
      (if is_datagram s then Some (MBufChain.WriteDatagram src len (data_ s))
       else MBufChain.WriteStream src len (data_ s));
    let s := with_data data s in
    let p := put_xt sd s p in
    if is_err status then Some (status, 0, p)
    else
      let set :=
        if st >? 0 then
          (if was_empty then ZX_SOCKET_READABLE else 0)
          .| (if (read_threshold_ s >? 0) && (MBufChain.size false data >=? read_threshold_ s)
              then ZX_SOCKET_READ_THRESHOLD else 0)
        else 0 in
      let p := if nz set then UpdateStateLocked sd 0 set p else p in
      let clear_threshold :=
        if (st >? 0) && has_peer sd p then
          let peer_write_threshold := write_threshold_ (xt (other sd) p) in
          if (peer_write_threshold >? 0)
             && (MBufChain.max_size data - MBufChain.size false data <? peer_write_threshold)
          then ZX_SOCKET_WRITE_THRESHOLD else 0
        else 0 in
      let clear := clear_threshold
                   .| (if has_peer sd p && is_full s then ZX_SOCKET_WRITABLE else 0) in
      let p := if nz clear then UpdateStateLocked (other sd) clear 0 p else p in
      Some (status, st, p).

(** Status, [*nwritten] (0 where the code does not write it) and the pair. *)
Definition Write (sd : side) (src : user_in_ptr) (len : Z) p : option (zx_status_t * Z * sys) :=
  if negb (has_peer sd p) then Some (ZX_ERR_PEER_CLOSED, 0, p)
  else
    let signals := sig sd p in
    if has signals ZX_SOCKET_WRITE_DISABLED then Some (ZX_ERR_BAD_STATE, 0, p)
    else if len =? 0 then Some (ZX_OK, 0, p)
    else if negb (len =? u32 len) then Some (ZX_ERR_INVALID_ARGS, 0, p)
    else WriteSelfLocked (other sd) src len p.

(** ** Reading *)

(** Status, [*nread], the pair and the user memory. *)
Definition Read (sd : side) (type : ReadType) (dst : user_out_ptr) (len : Z) p (m : user_mem)
    : zx_status_t * Z * sys * user_mem :=
  let s := xt sd p in
  if negb (len =? u32 len) then (ZX_ERR_INVALID_ARGS, 0, p, m)
  else if is_empty s then
    (if negb (has_peer sd p) then ZX_ERR_PEER_CLOSED
     else if read_disabled_ s then ZX_ERR_BAD_STATE else ZX_ERR_SHOULD_WAIT, 0, p, m)
  else
    match type with
    | kPeek =>
        let '(status, actual, m) := MBufChain.Peek dst len (is_datagram s) (data_ s) m in
        if is_err status then (status, 0, p, m) else (ZX_OK, actual, p, m)
    | kConsume =>
        let was_full := is_full s in
        let '(status, actual, data, m) := MBufChain.Read dst len (is_datagram s) (data_ s) m in
        let s := with_data data s in
        let p := put_xt sd s p in
        if is_err status then (status, 0, p, m)
        else
          let clear :=
            (if (read_threshold_ s >? 0) && (MBufChain.size false data <? read_threshold_ s)
             then ZX_SOCKET_READ_THRESHOLD else 0)
            .| (if is_empty s then ZX_SOCKET_READABLE else 0) in
          let p := if nz clear then UpdateStateLocked sd clear 0 p else p in
          let p :=
            if has_peer sd p then
              let peer_write_threshold := write_threshold_ (xt (other sd) p) in
              let set :=
                (if (peer_write_threshold >? 0)
                    && (MBufChain.max_size data - MBufChain.size false data >=? peer_write_threshold)
                 then ZX_SOCKET_WRITE_THRESHOLD else 0)
                .| (if was_full && (actual >? 0) then ZX_SOCKET_WRITABLE else 0) in
              if nz set then UpdateStateLocked (other sd) 0 set p else p
            else p in
          (ZX_OK, actual, p, m)
    end.

(** ** Properties of an endpoint *)

Definition GetInfo (sd : side) p : zx_info_socket_t :=
  let s := xt sd p in
  {| options := flags_ s;
     rx_buf_max := MBufChain.max_size (data_ s);
     rx_buf_size := MBufChain.size false (data_ s);
     rx_buf_available := MBufChain.size (is_datagram s) (data_ s);
     tx_buf_max := if has_peer sd p then MBufChain.max_size (data_ (xt (other sd) p)) else 0;
     tx_buf_size := if has_peer sd p then MBufChain.size false (data_ (xt (other sd) p)) else 0 |}.

Definition GetReadThreshold (sd : side) p : Z := read_threshold_ (xt sd p).
Definition GetWriteThreshold (sd : side) p : Z := write_threshold_ (xt sd p).

Definition SetReadThreshold (sd : side) (value : Z) p : zx_status_t * sys :=
  let data := data_ (xt sd p) in
  if value >? MBufChain.max_size data then (ZX_ERR_INVALID_ARGS, p)
  else
    let p := put_xt sd (with_read_threshold value (xt sd p)) p in
    if value =? 0 then (ZX_OK, UpdateStateLocked sd ZX_SOCKET_READ_THRESHOLD 0 p)
    else if MBufChain.size false data >=? value
    then (ZX_OK, UpdateStateLocked sd 0 ZX_SOCKET_READ_THRESHOLD p)
    else (ZX_OK, UpdateStateLocked sd ZX_SOCKET_READ_THRESHOLD 0 p).

Definition SetWriteThreshold (sd : side) (value : Z) p : zx_status_t * sys :=
  if negb (has_peer sd p) then (ZX_ERR_PEER_CLOSED, p)
  else
    let peer_data := data_ (xt (other sd) p) in
    if value >? MBufChain.max_size peer_data then (ZX_ERR_INVALID_ARGS, p)
    else
      let p := put_xt sd (with_write_threshold value (xt sd p)) p in
      if value =? 0 then (ZX_OK, UpdateStateLocked sd ZX_SOCKET_WRITE_THRESHOLD 0 p)
      else if MBufChain.max_size peer_data - MBufChain.size false peer_data >=? value
      then (ZX_OK, UpdateStateLocked sd 0 ZX_SOCKET_WRITE_THRESHOLD p)
      else (ZX_OK, UpdateStateLocked sd ZX_SOCKET_WRITE_THRESHOLD 0 p).

End Ops.

End SocketDispatcher.
