(* ===== verification/SocketFacts.v ===== *)
(** * Correctness of SocketDispatcher

    The signals of both endpoints agree with the data, the thresholds and the
    shutdown state, in every state reached by operations whose copies do not
    fault, whichever allocations fail. *)

From S2P Require Import Prelude Zx UserCopy Dispatcher Peered MBuf MBufFacts MBufDatagram Socket.
Import SocketDispatcher.

#[local] Opaque MBufChain.kSizeMax.

Section Socket.
Context {W O : Type} {SO : StateObserver W O}.
Abbreviation sys := (PeerSys W O Socket unit).
Implicit Types p : sys.

(** ** The invariant *)

Definition room (s : Socket) : Z := MBufChain.kSizeMax - MBufChain.size_ (data_ s).

(** What holds of one endpoint whether its peer is open or not. *)
Record end_inv (sd : side) p : Prop := {
  ei_chain : chain_ok (is_datagram (xt sd p)) (data_ (xt sd p));
  ei_readable : has (sig sd p) ZX_SOCKET_READABLE = negb (is_empty (xt sd p));
  ei_read_threshold : has (sig sd p) ZX_SOCKET_READ_THRESHOLD =
    (0 <? read_threshold_ (xt sd p)) && (read_threshold_ (xt sd p) <=? MBufChain.size_ (data_ (xt sd p)));
  ei_peer_write_disabled : has (sig sd p) ZX_SOCKET_PEER_WRITE_DISABLED = read_disabled_ (xt sd p);
}.

(** What holds of an endpoint whose peer is open.  [ZX_SOCKET_WRITABLE] is never
    set when the peer's buffer is full, and always set when it is not and
    writing was not shut down. *)
Record link_inv (sd : side) p : Prop := {
  li_write_disabled : has (sig sd p) ZX_SOCKET_WRITE_DISABLED = read_disabled_ (xt (other sd) p);
  li_write_threshold : has (sig sd p) ZX_SOCKET_WRITE_THRESHOLD =
    (0 <? write_threshold_ (xt sd p)) && (write_threshold_ (xt sd p) <=? room (xt (other sd) p));
  li_full : room (xt (other sd) p) <= 0 -> has (sig sd p) ZX_SOCKET_WRITABLE = false;
  li_room : 0 < room (xt (other sd) p) -> read_disabled_ (xt (other sd) p) = false ->
            has (sig sd p) ZX_SOCKET_WRITABLE = true;
  li_open : has (sig sd p) ZX_SOCKET_PEER_CLOSED = false;
}.

Record sock_inv p : Prop := {
  si_peer : has_peer Side0 p = has_peer Side1 p;
  si_end : forall sd, end_inv sd p;
  si_link : has_peer Side0 p = true -> forall sd, link_inv sd p;
}.

Lemma sock_inv_intro sd p :
  has_peer sd p = has_peer (other sd) p -> end_inv sd p -> end_inv (other sd) p ->
  (has_peer sd p = true -> link_inv sd p /\ link_inv (other sd) p) -> sock_inv p.
Proof.
  intros Hp H1 H2 Hl. split; [by destruct sd | by apply (both_sides sd)|].
  intros Hh. assert (has_peer sd p = true) as Hs by (destruct sd; simpl in *; congruence).
  destruct (Hl Hs). by apply (both_sides sd).
Qed.

Lemma si_peer_other sd p : sock_inv p -> has_peer (other sd) p = has_peer sd p.
Proof. intros [H _ _]. by destruct sd. Qed.

Lemma si_link_at sd p : sock_inv p -> has_peer sd p = true -> link_inv sd p /\ link_inv (other sd) p.
Proof.
  intros [H _ Hl] Hp. assert (has_peer Side0 p = true) by (destruct sd; simpl in *; congruence).
  split; by apply Hl.
Qed.

(** ** Preservation *)

Ltac sock_consts :=
  unfold ZX_SOCKET_READABLE, ZX_SOCKET_WRITABLE, ZX_SOCKET_PEER_CLOSED, ZX_SOCKET_PEER_WRITE_DISABLED,
    ZX_SOCKET_WRITE_DISABLED, ZX_SOCKET_READ_THRESHOLD, ZX_SOCKET_WRITE_THRESHOLD,
    ZX_OBJECT_READABLE, ZX_OBJECT_WRITABLE, ZX_OBJECT_PEER_CLOSED, ZX_OBJECT_SIGNAL_4,
    ZX_OBJECT_SIGNAL_5, ZX_OBJECT_SIGNAL_10, ZX_OBJECT_SIGNAL_11 in *.

Ltac sock_unfold :=
  unfold is_full, is_empty, room, MBufChain.is_full, MBufChain.is_empty, MBufChain.max_size,
    MBufChain.size in *; cbn [andb with_data data_ flags_ read_threshold_ write_threshold_
    read_disabled_ with_read_threshold with_write_threshold with_read_disabled] in *.

(** Evaluates a signal of the invariant after updates, from the invariant before
    them. *)
Ltac sock_finish :=
  sock_consts; sigs;
  repeat match goal with
  | H : has (sig _ _) _ = _ |- context [has _ _] => rewrite H
  end; sock_unfold; try done; zbool; intros; rewrite ?andb_true_r;
  try match goal with
  | H : _ -> has ?x ?k = false |- context [has ?x ?k] => rewrite H by lia
  | H : _ -> _ -> has ?x ?k = true |- context [has ?x ?k] => rewrite H by (done || lia)
  end; try done; try lia.

(** Replacing the chain of an endpoint by one of the same size. *)
Lemma replace_data_inv sd c p :
  sock_inv p -> chain_ok (is_datagram (xt sd p)) c -> MBufChain.size_ c = MBufChain.size_ (data_ (xt sd p)) ->
  sock_inv (put_xt sd (with_data c (xt sd p)) p).
Proof.
  intros Hinv Hc Hs. pose proof (si_end p Hinv sd) as [Hch Hr Hrt Hpd].
  pose proof (si_end p Hinv (other sd)) as [Hch2 Hr2 Hrt2 Hpd2].
  pose proof (si_peer_other sd p Hinv).
  apply (sock_inv_intro sd); [by autorewrite with peer| | |].
  - split; autorewrite with peer; sock_unfold; rewrite ?Hs; done.
  - split; autorewrite with peer; done.
  - autorewrite with peer. intros Hp. destruct (si_link_at sd p Hinv Hp) as [[] []].
    split; split; autorewrite with peer in *; sock_unfold; rewrite ?Hs; done.
Qed.

(** A write reaches the invariant again, or stops before changing anything. *)
Lemma WriteSelfLocked_inv sd src l p :
  sock_inv p -> has_peer sd p = true -> in_buffer src l ->
  exists st n p', WriteSelfLocked sd src (zlen l) p = Some (st, n, p') /\ sock_inv p'.
Proof.
  intros Hinv Hp Hl. unfold WriteSelfLocked.
  destruct (is_full (xt sd p)) eqn:Ef; [by eexists _, _, _|].
  pose proof (si_end p Hinv sd) as [Hch Hr Hrt Hpd].
  pose proof (wf_size_nonneg _ (proj1 Hch)) as Hnn.
  destruct (Write_nofault (is_datagram (xt sd p)) src l (data_ (xt sd p)) Hch Hl)
    as (st & n & c' & HE & Hch' & Hok & Herr).
  rewrite HE. cbn [mbind option_bind]. rewrite !update_if_set, !update_if_clear.
  destruct (is_err st) eqn:Ee.
  - apply is_err_true in Ee. eexists _, _, _. split; [done|]. apply (replace_data_inv sd); auto.
  - apply is_err_false in Ee. destruct (Hok Ee) as [Hn Hs].
    rewrite (proj2 (Z.gtb_lt n 0)) by done. autorewrite with peer. rewrite Hp. cbn [andb].
    eexists _, _, _. split; [done|].
    destruct (si_link_at sd p Hinv Hp) as [[Hwd Hwt Hfu Hro Hop] [Hwd' Hwt' Hfu' Hro' Hop']].
    pose proof (si_end p Hinv (other sd)) as [Hch2 Hr2 Hrt2 Hpd2]. pose proof (si_peer_other sd p Hinv).
    sock_consts. rewrite other_other in *. apply (sock_inv_intro sd); [by autorewrite with peer| | |].
    + split; sock_finish.
    + split; sock_finish.
    + intros _. split; split; sock_finish.
Qed.

Lemma Write_inv sd src l p :
  sock_inv p -> in_buffer src l ->
  exists st n p', Write sd src (zlen l) p = Some (st, n, p') /\ sock_inv p'.
Proof.
  intros Hinv Hl. unfold Write. pose proof (si_peer_other sd p Hinv) as Ho.
  destruct (has_peer sd p) eqn:Hp; simpl; [|by eexists _, _, _].
  destruct (has (sig sd p) _); [by eexists _, _, _|]. destruct (zlen l =? 0); [by eexists _, _, _|].
  destruct (negb _); [by eexists _, _, _|]. by apply WriteSelfLocked_inv.
Qed.

Lemma Read_inv sd type dst len p m :
  sock_inv p -> 0 <= len -> out_buffer dst len -> sock_inv (Read sd type dst len p m).1.2.
Proof.
  intros Hinv Hlen Hob. unfold Read. destruct (negb (len =? u32 len)); [done|].
  destruct (is_empty (xt sd p)) eqn:Eemp; [done|]. destruct type; cycle 1.
  { repeat dmatch; done. }
  pose proof (si_end p Hinv sd) as [Hch Hr Hrt Hpd]. pose proof (wf_max _ (proj1 Hch)) as Hmax.
  destruct (Read_nofault (is_datagram (xt sd p)) dst len (data_ (xt sd p)) m Hch Hlen Hob)
    as (actual & c' & m' & HE & Hch' & Ha & Hs & Hs0 & Hs1).
  pose proof (wf_size_nonneg _ (proj1 Hch')) as Hnn.
  rewrite HE. change (is_err ZX_OK) with false. cbv iota beta zeta. cbn [fst snd].
  rewrite update_if_set, update_if_clear. autorewrite with peer.
  pose proof (si_end p Hinv (other sd)) as [Hch2 Hr2 Hrt2 Hpd2].
  pose proof (si_peer_other sd p Hinv) as Hpo.
  destruct (has_peer sd p) eqn:Hp.
  - destruct (si_link_at sd p Hinv Hp) as [[Hwd Hwt Hfu Hro Hop] [Hwd' Hwt' Hfu' Hro' Hop']].
    sock_consts. rewrite other_other in *.
    apply (sock_inv_intro sd); [autorewrite with peer; congruence|split; sock_finish|split; sock_finish|].
    intros _. split; split; sock_finish.
  - apply (sock_inv_intro sd); [autorewrite with peer; congruence|split; sock_finish|split; sock_finish|].
    autorewrite with peer. congruence.
Qed.

(** The invariant of both sides, with the facts of a connected pair if there are
    any, as hypotheses on one side and the other. *)
Ltac sock_open sd p Hinv :=
  pose proof (si_end p Hinv sd) as [Hch Hr Hrt Hpd];
  pose proof (si_end p Hinv (other sd)) as [Hch2 Hr2 Hrt2 Hpd2];
  pose proof (si_peer_other sd p Hinv) as Hpo;
  pose proof (wf_size_nonneg _ (proj1 Hch)) as Hnn; pose proof (wf_max _ (proj1 Hch)) as Hmax;
  pose proof (wf_max _ (proj1 Hch2)) as Hmax2.

Ltac sock_link sd p Hinv Hp :=
  destruct (si_link_at sd p Hinv Hp) as [[Hwd Hwt Hfu Hro Hop] [Hwd' Hwt' Hfu' Hro' Hop']];
  sock_consts; rewrite other_other in *.

Ltac sock_close sd :=
  apply (sock_inv_intro sd); [autorewrite with peer; congruence | split; sock_finish | split; sock_finish |];
  autorewrite with peer; try congruence; intros _; split; split; sock_finish.

Lemma SetReadThreshold_inv sd v p :
  sock_inv p -> 0 <= v -> sock_inv (SetReadThreshold sd v p).2.
Proof.
  intros Hinv Hv. unfold SetReadThreshold. destruct (v >? _) eqn:Ev; [done|].
  sock_open sd p Hinv. destruct (has_peer sd p) eqn:Hp.
  - sock_link sd p Hinv Hp.
    destruct (Z.eqb_spec v 0) as [->|Hv0]; [|destruct (MBufChain.size false _ >=? v) eqn:Es];
      simpl snd; unfold MBufChain.size in *; cbn [andb] in *; b2p; sock_close sd.
  - destruct (Z.eqb_spec v 0) as [->|Hv0]; [|destruct (MBufChain.size false _ >=? v) eqn:Es];
      simpl snd; unfold MBufChain.size in *; cbn [andb] in *; b2p; sock_close sd.
Qed.

Lemma SetWriteThreshold_inv sd v p :
  sock_inv p -> 0 <= v -> sock_inv (SetWriteThreshold sd v p).2.
Proof.
  intros Hinv Hv. unfold SetWriteThreshold. destruct (has_peer sd p) eqn:Hp; cbn [negb]; [|done].
  destruct (v >? _) eqn:Ev; [done|]. sock_open sd p Hinv. sock_link sd p Hinv Hp.
  destruct (Z.eqb_spec v 0) as [->|Hv0]; [|destruct (_ - MBufChain.size false _ >=? v) eqn:Es];
    simpl snd; unfold MBufChain.size, MBufChain.max_size in *; cbn [andb] in *; b2p; sock_close sd.
Qed.

Lemma OnPeerZero_inv sd p :
  sock_inv p -> sock_inv (on_zero_handles sd p).
Proof.
  intros Hinv. unfold on_zero_handles. cbn [Peered.on_zero_handles_locked Peered.OnPeerZeroHandlesLocked socket_self].
  unfold on_zero_handles_locked, OnPeerZeroHandlesLocked. sock_open sd p Hinv.
  destruct (has_peer sd p) eqn:Hp.
  - sock_consts. apply (sock_inv_intro sd); [by autorewrite with peer | split; sock_finish | split; sock_finish|].
    autorewrite with peer. done.
  - apply (sock_inv_intro sd); [autorewrite with peer; congruence | split; sock_finish | split; sock_finish|].
    autorewrite with peer. done.
Qed.

Lemma Shutdown_inv sd how p : sock_inv p -> sock_inv (Shutdown sd how p).2.
Proof.
  intros Hinv. unfold Shutdown, ShutdownOtherLocked. destruct (_ =? _); [done|].
  sock_open sd p Hinv.
  generalize (has how ZX_SOCKET_SHUTDOWN_READ) (has how ZX_SOCKET_SHUTDOWN_WRITE). intros rd wr.
  rewrite has_peer_update. replace (has_peer sd (if rd then _ else p)) with (has_peer sd p)
    by (destruct rd; by autorewrite with peer).
  destruct (has_peer sd p) eqn:Hp; simpl snd.
  - sock_link sd p Hinv Hp. destruct rd, wr; sock_close sd.
  - destruct rd, wr; sock_consts; sock_close sd.
Qed.

Lemma user_update_inv sd c s p :
  nz (c .&~ (ZX_USER_SIGNAL_ALL .| 0)) = false -> nz (s .&~ (ZX_USER_SIGNAL_ALL .| 0)) = false ->
  sock_inv p -> sock_inv (UpdateStateLocked sd c s p).
Proof.
  intros Hc Hs Hinv. sock_open sd p Hinv.
  pose proof (fun k => user_mask_bit c k Hc) as Bc. pose proof (fun k => user_mask_bit s k Hs) as Bs.
  destruct (has_peer sd p) eqn:Hp.
  - sock_link sd p Hinv Hp. apply (sock_inv_intro sd);
      [autorewrite with peer; congruence | split; sock_consts; autorewrite with peer;
       rewrite ?has_update, ?Bs, ?Bc by lia; sock_finish | split; sock_finish |].
    intros _; split; split; sock_consts; autorewrite with peer;
       rewrite ?has_update, ?Bs, ?Bc by lia; sock_finish.
  - apply (sock_inv_intro sd);
      [autorewrite with peer; congruence | split; sock_consts; autorewrite with peer;
       rewrite ?has_update, ?Bs, ?Bc by lia; sock_finish | split; sock_finish |].
    autorewrite with peer. congruence.
Qed.

Lemma user_signal_self_inv sd c s p : sock_inv p -> sock_inv (user_signal_self sd c s p).2.
Proof.
  intros Hinv. unfold user_signal_self. cbn [extra_signals socket_self].
  destruct (nz (s .&~ _)) eqn:Es; [done|]. destruct (nz (c .&~ _)) eqn:Ec; [done|].
  by apply user_update_inv.
Qed.

Lemma user_signal_peer_inv sd c s p : sock_inv p -> sock_inv (user_signal_peer sd c s p).2.
Proof.
  intros Hinv. unfold user_signal_peer. cbn [extra_signals socket_self].
  destruct (nz (s .&~ _)) eqn:Es; [done|]. destruct (nz (c .&~ _)) eqn:Ec; [done|]. simpl.
  destruct (has_peer sd p); [|done]. by apply user_update_inv.
Qed.

Lemma Create_inv oom k0 k1 flags h0 h1 (w : W) p :
  Create oom k0 k1 flags h0 h1 w = (ZX_OK, Some p) -> sock_inv p.
Proof.
  unfold Create. intros H. repeat (dmatch_in H; [done|]). simplify_eq.
  apply (sock_inv_intro Side0); [done| | |intros _; split];
    split; try done; try apply chain_ok_empty; unfold room; simpl; rewrite kSizeMax_eq; lia.
Qed.

(** ** Runs *)

(** One operation of a process on one endpoint, with memory that does not fault. *)
Inductive sock_step : sys -> sys -> Prop :=
| step_write sd src l p st n p' :
    in_buffer src l -> Write sd src (zlen l) p = Some (st, n, p') -> sock_step p p'
| step_read sd type dst len p m :
    0 <= len -> out_buffer dst len -> sock_step p (Read sd type dst len p m).1.2
| step_shutdown sd how p : sock_step p (Shutdown sd how p).2
| step_read_threshold sd v p : 0 <= v -> sock_step p (SetReadThreshold sd v p).2
| step_write_threshold sd v p : 0 <= v -> sock_step p (SetWriteThreshold sd v p).2
| step_signal_self sd c s p : sock_step p (user_signal_self sd c s p).2
| step_signal_peer sd c s p : sock_step p (user_signal_peer sd c s p).2
| step_close sd p : sock_step p (on_zero_handles sd p).

Inductive sock_reachable : sys -> Prop :=
| reach_create oom k0 k1 flags h0 h1 w p :
    Create oom k0 k1 flags h0 h1 w = (ZX_OK, Some p) -> sock_reachable p
| reach_step p p' : sock_reachable p -> sock_step p p' -> sock_reachable p'.

Lemma sock_step_inv p p' : sock_inv p -> sock_step p p' -> sock_inv p'.
Proof.
  intros Hinv. destruct 1.
  - destruct (Write_inv sd src l p) as (st' & n' & p'' & HE & H'); [done..|]. congruence.
  - by apply Read_inv.
  - by apply Shutdown_inv.
  - by apply SetReadThreshold_inv.
  - by apply SetWriteThreshold_inv.
  - by apply user_signal_self_inv.
  - by apply user_signal_peer_inv.
  - by apply OnPeerZero_inv.
Qed.

Lemma sock_reachable_inv p : sock_reachable p -> sock_inv p.
Proof. induction 1; [by eapply Create_inv | by eapply sock_step_inv]. Qed.

(** ** Theorems *)

(** socket signals tell the truth.  In every state reached from
    [SocketDispatcher::Create] by writes, reads, peeks, shutdowns, threshold changes,
    user signals and closes with memory that does not fault, whichever allocations
    fail: an endpoint is [READABLE] exactly when bytes wait for it and
    [READ_THRESHOLD] exactly when at least its (non-zero) threshold of them do;
    [PEER_WRITE_DISABLED] and [WRITE_DISABLED] follow the shutdowns; and while both
    ends are open an endpoint is never [WRITABLE] when the peer's buffer is full,
    always is when it is not and writing is not shut down, and [WRITE_THRESHOLD]
    follows the space left. *)
Theorem socket_signals p : sock_reachable p -> sock_inv p.
Proof. apply sock_reachable_inv. Qed.

(** a stream write of a readable buffer through an open endpoint that may write
    delivers, when no allocation fails, exactly the bytes that fit to the end of
    what the peer will read, and reports their number. *)
Theorem socket_write_delivers sd src l p :
  sock_inv p -> has_peer sd p = true -> has (sig sd p) ZX_SOCKET_WRITE_DISABLED = false ->
  is_datagram (xt (other sd) p) = false -> 0 < zlen l < 2 ^ 32 -> in_buffer src l ->
  (forall k, MBufChain.oom (MBufChain.heap_ (data_ (xt (other sd) p))) k = false) ->
  let n := Z.min (zlen l) (room (xt (other sd) p)) in
  exists p',
    Write sd src (zlen l) p = Some (if n =? 0 then ZX_ERR_SHOULD_WAIT else ZX_OK, n, p') /\
    sock_inv p' /\
    contents (MBufChain.tail_ (data_ (xt (other sd) p'))) =
      contents (MBufChain.tail_ (data_ (xt (other sd) p))) ++ take (Z.to_nat n) l.
Proof.
  intros Hinv Hp Hwd Hdg Hz Hl Ho n.
  destruct (Write_inv sd src l p Hinv Hl) as (st & k & p' & HE & Hinv').
  pose proof (ei_chain _ _ (si_end _ Hinv (other sd))) as [Hwf _].
  pose proof (wf_max _ Hwf) as Hmax. subst n.
  destruct (WriteStream_fits src l (data_ (xt (other sd) p)) Hwf Hl Ho) as (c' & HE1 & Hwf' & Hc').
  fold (room (xt (other sd) p)) in *. set (n := Z.min (zlen l) (room (xt (other sd) p))) in *.
  exists p'. rewrite HE. split_and!; [|done|].
  all: unfold Write, WriteSelfLocked in HE; rewrite Hp, Hwd in HE; cbn [negb] in HE;
    rewrite (proj2 (Z.eqb_neq (zlen l) 0)) in HE by lia;
    rewrite (proj2 (Z.eqb_eq (zlen l) _)) in HE by (by rewrite u32_id by (unfold is_u32; lia));
    cbn [negb] in HE; destruct (is_full (xt (other sd) p)) eqn:Ef.
  all: unfold is_full, MBufChain.is_full in Ef; b2p; unfold room in *.
  1, 3: assert (n = 0) as -> by lia; simplify_eq; rewrite ?app_nil_r; done.
  all: assert (0 < n) as Hn by lia; rewrite Hdg, HE1 in HE; cbn [mbind option_bind] in HE;
    rewrite (proj2 (Z.eqb_neq n 0)) in HE by lia; change (is_err ZX_OK) with false in HE;
    cbv iota in HE; rewrite update_if_set, update_if_clear in HE; injection HE as Est Ek Ep; subst st k p'.
  - by rewrite (proj2 (Z.eqb_neq n 0)) by lia.
  - autorewrite with peer. simpl. exact Hc'.
Qed.

End Socket.

(** ** Concrete runs *)

Definition plain_pair (flags : Z) : PeerSys unit Empty_set Socket unit :=
  new_pair 1024 1025 ZX_SOCKET_WRITABLE (new_socket flags plain_heap) (new_socket flags plain_heap) tt tt.

Lemma plain_pair_created :
  Create (fun _ => false) 1024 1025 0 plain_heap plain_heap tt = (ZX_OK, Some (plain_pair 0)).
Proof. reflexivity. Qed.

Lemma socket_signals_witness :
  sock_inv (Shutdown Side0 ZX_SOCKET_SHUTDOWN_WRITE (plain_pair 0)).2.
Proof.
  apply (socket_signals (Shutdown Side0 ZX_SOCKET_SHUTDOWN_WRITE (plain_pair 0)).2).
  eapply reach_step; [|apply step_shutdown]. eapply reach_create, plain_pair_created.
Defined.

Lemma socket_write_delivers_witness :
  exists p',
    Write Side0 (user_in_of [1; 2; 3]) 3 (plain_pair 0) = Some (ZX_OK, 3, p') /\ sock_inv p' /\
    contents (MBufChain.tail_ (data_ (xt Side1 p'))) = [1; 2; 3].
Proof.
  apply (socket_write_delivers Side0 (user_in_of [1; 2; 3]) [1; 2; 3] (plain_pair 0)); try done.
  - eapply Create_inv, plain_pair_created.
  - by apply in_buffer_of.
Defined.

(** A source whose pages after the first 2008 bytes cannot be read. *)
Definition faulting_source : user_in_ptr :=
  {| ui_mem := fun va => if va <? USER_ASPACE_BASE + 2008 then Some 7 else None;
     ui_ptr := Some USER_ASPACE_BASE |}.

(** when the copy of a stream write faults after some bytes went in, they stay
    in the peer's buffer but [READABLE] is not raised, and the next write does not
    raise it either because the buffer is no longer empty: a reader waiting for the
    signal is not woken for data it could read. *)
Theorem faulting_write_loses_readable :
  match Write Side0 faulting_source 3000 (plain_pair 0) with
  | Some (st1, _, p1) =>
      st1 = ZX_ERR_INVALID_ARGS /\ rx_buf_size (GetInfo Side1 p1) = 2008 /\
      has (sig Side1 p1) ZX_SOCKET_READABLE = false /\
      match Write Side0 (user_in_of [1]) 1 p1 with
      | Some (st2, n, p2) =>
          st2 = ZX_OK /\ n = 1 /\ rx_buf_size (GetInfo Side1 p2) = 2009 /\
          has (sig Side1 p2) ZX_SOCKET_READABLE = false
      | None => False
      end
  | None => False
  end.
Proof. vm_compute. by split_and!. Qed.

Definition endless_source : user_in_ptr := {| ui_mem := fun _ => Some 7; ui_ptr := Some USER_ASPACE_BASE |}.

(** an endpoint that shut down its writing is signalled [WRITABLE] again when the
    peer reads from a full buffer, although writing to it only ever fails. *)
Theorem read_raises_writable_after_shutdown :
  match Write Side0 endless_source MBufChain.kSizeMax (plain_pair 0) with
  | Some (st1, n, p1) =>
      let '(st2, p2) := Shutdown Side0 ZX_SOCKET_SHUTDOWN_WRITE p1 in
      let '(st3, actual, p3, _) := Read Side1 kConsume user_out_all 1 p2 ∅ in
      st1 = ZX_OK /\ n = MBufChain.kSizeMax /\ st2 = ZX_OK /\ st3 = ZX_OK /\ actual = 1 /\
      has (sig Side0 p2) ZX_SOCKET_WRITABLE = false /\ has (sig Side0 p3) ZX_SOCKET_WRITABLE = true /\
      match Write Side0 (user_in_of [1]) 1 p3 with
      | Some (st4, _, _) => st4 = ZX_ERR_BAD_STATE
      | None => False
      end
  | None => False
  end.
Proof. vm_compute. by split_and!. Qed.
