(* ===== verification/Fifo.v ===== *)
(** * FifoDispatcher

    [object/fifo_dispatcher.cc].  Each endpoint has a ring of [elem_count_]
    elements, a power of two, that its peer fills; [head_] and [tail_] are free
    running 32-bit counters and only their difference and their low bits are
    used.  A [None] result stands for a copy loop that did not finish within its
    fuel, which the theorems exclude. *)

From S2P Require Import Prelude Zx UserCopy Dispatcher Peered.

Module FifoDispatcher.

(** ** Data *)

Definition kMaxSizeBytes : Z := 4096.

Record Fifo := mkFifo {
  elem_count_ : Z;
  elem_size_ : Z;
  mask_ : Z;
  head_ : Z;
  tail_ : Z;
  data_ : list byte;
}.

Definition with_head (h : Z) (f : Fifo) : Fifo :=
  {| elem_count_ := elem_count_ f; elem_size_ := elem_size_ f; mask_ := mask_ f; head_ := h;
     tail_ := tail_ f; data_ := data_ f |}.
Definition with_tail (t : Z) (f : Fifo) : Fifo :=
  {| elem_count_ := elem_count_ f; elem_size_ := elem_size_ f; mask_ := mask_ f; head_ := head_ f;
     tail_ := t; data_ := data_ f |}.
Definition with_data (d : list byte) (f : Fifo) : Fifo :=
  {| elem_count_ := elem_count_ f; elem_size_ := elem_size_ f; mask_ := mask_ f; head_ := head_ f;
     tail_ := tail_ f; data_ := d |}.

(** The constructor; [data] is the uninitialised array it is given. *)
Definition new_fifo (count elem_size : Z) (data : list byte) : Fifo :=
  {| elem_count_ := count; elem_size_ := elem_size; mask_ := u32 (count - 1); head_ := 0;
     tail_ := 0; data_ := data |}.

(** ** The copy loops *)

(** The loop of [WriteSelfLocked]: the status and the ring, with [head_] where
    the loop left it. *)
Fixpoint write_loop (fuel : nat) (ptr : user_in_ptr) (count : Z) (f : Fifo)
    : option (zx_status_t * Fifo) :=
  match fuel with
  | O => None
  | S fuel =>
      if negb (count >? 0) then Some (ZX_OK, f)
      else
        let offset := head_ f .& mask_ f in
        let n := u32 (elem_count_ f - offset) in
        let to_copy := if count >? n then n else count in
        let '(status, bs) := copy_array_from_user ptr (to_copy * elem_size_ f) in
        let f := with_data (splice (Z.to_nat (u32 (offset * elem_size_ f))) bs (data_ f)) f in
        if is_err status then Some (ZX_ERR_INVALID_ARGS, f)
        else write_loop fuel (in_byte_offset ptr (to_copy * elem_size_ f)) (count - to_copy)
               (with_head (u32 (head_ f + u32 to_copy)) f)
  end.

(** The loop of [ReadToUser]. *)
Fixpoint read_loop (fuel : nat) (ptr : user_out_ptr) (count : Z) (f : Fifo) (m : user_mem)
    : option (zx_status_t * Fifo * user_mem) :=
  match fuel with
  | O => None
  | S fuel =>
      if negb (count >? 0) then Some (ZX_OK, f, m)
      else
        let offset := tail_ f .& mask_ f in
        let n := u32 (elem_count_ f - offset) in
        let to_copy := if count >? n then n else count in
        let src := slice (Z.to_nat (u32 (offset * elem_size_ f))) (Z.to_nat (to_copy * elem_size_ f))
                     (data_ f) in
        let '(status, m) := copy_array_to_user ptr src m in
        if is_err status then Some (ZX_ERR_INVALID_ARGS, f, m)
        else read_loop fuel (out_byte_offset ptr (to_copy * elem_size_ f)) (count - to_copy)
               (with_tail (u32 (tail_ f + u32 to_copy)) f) m
  end.

(** Every iteration copies at least one element. *)
Definition loop_fuel (count : Z) : nat := S (Z.to_nat count).

Section Ops.
Context {W O : Type} {SO : StateObserver W O}.
Abbreviation sys := (PeerSys W O Fifo unit).
Implicit Types p : sys.

(** ** Creation and closing *)

(** [oom] says which of the five allocations fail, in the order of the code. *)
Definition Create (oom : nat -> bool) (k0 k1 count elemsize : Z) (data0 data1 : list byte) (w : W)
    : zx_status_t * option sys :=
  if negb (nz count) || negb (nz elemsize) || nz (count .& (count - 1)) || (count >? kMaxSizeBytes)
     || (elemsize >? kMaxSizeBytes) || (u64 (count * elemsize) >? kMaxSizeBytes)
  then (ZX_ERR_OUT_OF_RANGE, None)
  else if oom 0%nat || oom 1%nat || oom 2%nat || oom 3%nat || oom 4%nat then (ZX_ERR_NO_MEMORY, None)
  else (ZX_OK, Some (new_pair k0 k1 ZX_FIFO_WRITABLE (new_fifo (u32 count) (u32 elemsize) data0)
                       (new_fifo (u32 count) (u32 elemsize) data1) tt w)).

Definition on_zero_handles_locked (sd : side) p : sys := p.

Definition OnPeerZeroHandlesLocked (sd : side) p : sys :=
  UpdateStateLocked sd ZX_FIFO_WRITABLE ZX_FIFO_PEER_CLOSED p.

#[export] Instance fifo_self : PeeredSelf W O Fifo unit := {
  peered_rights := ZX_DEFAULT_FIFO_RIGHTS;
  extra_signals := 0;
  Peered.on_zero_handles_locked := on_zero_handles_locked;
  Peered.OnPeerZeroHandlesLocked := OnPeerZeroHandlesLocked;
}.

Definition UserSignalSelfLocked (sd : side) (clear_mask set_mask : Z) p : zx_status_t * sys :=
  (ZX_OK, UpdateStateLocked sd clear_mask set_mask p).

(** ** Writing *)

(** Called on the reading endpoint by its peer, which therefore exists. *)
Definition WriteSelfLocked (sd : side) (elem_size : Z) (ptr : user_in_ptr) (count : Z) p
    : option (zx_status_t * Z * sys) :=
  let f := xt sd p in
  if negb (elem_size =? elem_size_ f) then Some (ZX_ERR_OUT_OF_RANGE, 0, p)
  else if count =? 0 then Some (ZX_ERR_OUT_OF_RANGE, 0, p)
  else
    let old_head := head_ f in
    let avail := u32 (elem_count_ f - u32 (head_ f - tail_ f)) in
    if avail =? 0 then Some (ZX_ERR_SHOULD_WAIT, 0, p)
    else
      let was_empty := avail =? elem_count_ f in
      let count := if count >? avail then avail else count in
      '(status, f) ← write_loop (loop_fuel count) ptr count f;
      if is_err status then Some (status, 0, put_xt sd (with_head old_head f) p)
      else
        let p := put_xt sd f p in
        let p := if was_empty then UpdateStateLocked sd 0 ZX_FIFO_READABLE p else p in
        let p := if elem_count_ f =? u32 (head_ f - tail_ f)
                 then UpdateStateLocked (other sd) ZX_FIFO_WRITABLE 0 p else p in
        Some (ZX_OK, u32 (head_ f - old_head), p).

Definition WriteFromUser (sd : side) (elem_size : Z) (ptr : user_in_ptr) (count : Z) p
    : option (zx_status_t * Z * sys) :=
  if negb (has_peer sd p) then Some (ZX_ERR_PEER_CLOSED, 0, p)
  else WriteSelfLocked (other sd) elem_size ptr count p.

(** ** Reading *)

Definition ReadToUser (sd : side) (elem_size : Z) (ptr : user_out_ptr) (count : Z) p (m : user_mem)
    : option (zx_status_t * Z * sys * user_mem) :=
  let f := xt sd p in
  if negb (elem_size =? elem_size_ f) then Some (ZX_ERR_OUT_OF_RANGE, 0, p, m)
  else if count =? 0 then Some (ZX_ERR_OUT_OF_RANGE, 0, p, m)
  else
    let old_tail := tail_ f in
    let avail := u32 (head_ f - tail_ f) in
    if avail =? 0
    then Some (if has_peer sd p then ZX_ERR_SHOULD_WAIT else ZX_ERR_PEER_CLOSED, 0, p, m)
    else
      let was_full := avail =? elem_count_ f in
      let count := if count >? avail then avail else count in
      '(status, f, m) ← read_loop (loop_fuel count) ptr count f m;
      if is_err status then Some (status, 0, put_xt sd (with_tail old_tail f) p, m)
      else
        let p := put_xt sd f p in
        let p := if was_full && has_peer sd p
                 then UpdateStateLocked (other sd) 0 ZX_FIFO_WRITABLE p else p in
        let p := if u32 (head_ f - tail_ f) =? 0
                 then UpdateStateLocked sd ZX_FIFO_READABLE 0 p else p in
        Some (ZX_OK, u32 (tail_ f - old_tail), p, m).

End Ops.

End FifoDispatcher.
