(* ===== verification/FifoFacts.v ===== *)
(** * Correctness of FifoDispatcher

    A ring is a bounded queue of elements: the refinement, wrap-around of the
    array and of the 32-bit counters and roll-back on faults included, and the
    agreement of the signals of both endpoints with the two queues. *)

From S2P Require Import Prelude Zx UserCopy Dispatcher Peered Fifo.
Import FifoDispatcher.

#[local] Opaque copy_array_from_user copy_array_to_user.

(** ** Runs of slots *)

Section Runs.
Context (N esz : Z) (HN : 0 < N) (Hesz : 0 < esz).

(** The bytes of slot [i]. *)
Definition slot (i : Z) (d : list byte) : list byte :=
  slice (Z.to_nat (i * esz)) (Z.to_nat esz) d.

(** The bytes of the [n] elements from counter value [T]. *)
Definition run (T : Z) (n : nat) (d : list byte) : list byte :=
  flat_map (fun j => slot ((T + Z.of_nat j) mod N) d) (seq 0 n).

Lemma run_S T n d : run T (S n) d = slot (T mod N) d ++ run (T + 1) n d.
Proof.
  unfold run. simpl. rewrite Z.add_0_r. f_equal.
  rewrite <- seq_shift, !flat_map_concat_map, map_map. f_equal. apply map_ext. intros j.
  do 2 f_equal. lia.
Qed.

Lemma run_app T n k d : run T (n + k) d = run T n d ++ run (T + Z.of_nat n) k d.
Proof.
  revert T. induction n as [|n IH]; intros T.
  - simpl. by rewrite Z.add_0_r.
  - rewrite Nat.add_succ_l, !run_S, IH, <- app_assoc. do 3 f_equal. lia.
Qed.

(** A run that does not wrap around is a slice of the array. *)
Lemma run_contig T n d :
  T mod N + Z.of_nat n <= N ->
  run T n d = slice (Z.to_nat ((T mod N) * esz)) (Z.to_nat (Z.of_nat n * esz)) d.
Proof.
  revert T. induction n as [|n IH]; intros T H; [done|].
  rewrite run_S. unfold slot. pose proof (Z.mod_pos_bound T N HN) as Hb.
  destruct n as [|n].
  { unfold run. simpl flat_map. rewrite app_nil_r. f_equal. lia. }
  assert ((T + 1) mod N = T mod N + 1) as Hm.
  { rewrite <- Zplus_mod_idemp_l. apply Z.mod_small. lia. }
  rewrite IH, Hm by (rewrite Hm; lia).
  replace (Z.to_nat ((T mod N + 1) * esz)) with (Z.to_nat (T mod N * esz) + Z.to_nat esz)%nat by nia.
  rewrite slice_app. f_equal. nia.
Qed.

(** Writing behind a run leaves the run as it was. *)
Lemma run_splice_before T n k bs d :
  Z.of_nat n + k <= N -> (T + Z.of_nat n) mod N + k <= N -> 0 <= k ->
  (length bs <= Z.to_nat (k * esz))%nat -> length d = Z.to_nat (N * esz) ->
  run T n (splice (Z.to_nat (((T + Z.of_nat n) mod N) * esz)) bs d) = run T n d.
Proof.
  intros Hnk Hok Hk Hbs Hd. unfold run. rewrite !flat_map_concat_map. f_equal. apply map_ext_in.
  intros j Hj. apply in_seq in Hj. unfold slot. set (o := (T + Z.of_nat n) mod N) in *.
  set (i := (T + Z.of_nat j) mod N).
  pose proof (Z.mod_pos_bound (T + Z.of_nat n) N HN) as Ho. fold o in Ho.
  pose proof (Z.mod_pos_bound (T + Z.of_nat j) N HN) as Hi. fold i in Hi.
  assert (i < o \/ o + k <= i) as [Hlt|Hge].
  { destruct (decide (i < o)); [by left|]. destruct (decide (o + k <= i)); [by right|]. exfalso.
    pose proof (Z.div_mod (T + Z.of_nat n) N) as D1. pose proof (Z.div_mod (T + Z.of_nat j) N) as D2.
    fold o in D1. fold i in D2.
    set (q := (T + Z.of_nat n) / N - (T + Z.of_nat j) / N).
    assert (N * q = (Z.of_nat n - Z.of_nat j) + (i - o)) as Hq by (subst q; lia).
    assert (0 < N * q < N) as [Hq1 Hq2] by lia.
    assert (q <= 0 \/ 1 <= q) as [|] by lia; nia. }
  - apply slice_splice_lt; nia.
  - apply slice_splice_gt; nia.
Qed.

(** The run just written is what was written. *)
Lemma run_splice_here T k bs d :
  T mod N + Z.of_nat k <= N -> length bs = Z.to_nat (Z.of_nat k * esz) ->
  length d = Z.to_nat (N * esz) ->
  run T k (splice (Z.to_nat ((T mod N) * esz)) bs d) = bs.
Proof.
  intros Hk Hbs Hd. rewrite run_contig by done. rewrite <- Hbs. apply slice_splice_eq.
  pose proof (Z.mod_pos_bound T N HN). nia.
Qed.

Lemma length_run T n d : length d = Z.to_nat (N * esz) -> length (run T n d) = Z.to_nat (Z.of_nat n * esz).
Proof.
  intros Hd. revert T. induction n as [|n IH]; intros T; [done|].
  rewrite run_S, length_app, IH. unfold slot. pose proof (Z.mod_pos_bound T N HN).
  rewrite length_slice by nia. nia.
Qed.

End Runs.

(** ** The ring *)

Definition used (f : Fifo) : Z := u32 (head_ f - tail_ f).

Record ring_ok (f : Fifo) : Prop := {
  ro_pow : exists k, 0 <= k <= 12 /\ elem_count_ f = 2 ^ k;
  ro_mask : mask_ f = elem_count_ f - 1;
  ro_size : 0 < elem_size_ f;
  ro_max : elem_count_ f * elem_size_ f <= kMaxSizeBytes;
  ro_data : length (data_ f) = Z.to_nat (elem_count_ f * elem_size_ f);
  ro_head : is_u32 (head_ f);
  ro_tail : is_u32 (tail_ f);
  ro_used : used f <= elem_count_ f;
}.

(** The queue a ring holds, as bytes. *)
Definition queue (f : Fifo) : list byte :=
  run (elem_count_ f) (elem_size_ f) (tail_ f) (Z.to_nat (used f)) (data_ f).

Lemma ring_pos f : ring_ok f -> 0 < elem_count_ f <= 4096.
Proof.
  intros H. destruct (ro_pow _ H) as (k & Hk & ->). split; [apply Z.pow_pos_nonneg; lia|].
  change 4096 with (2 ^ 12). apply Z.pow_le_mono_r; lia.
Qed.

Lemma used_range f : 0 <= used f < 2 ^ 32.
Proof. apply (u32_range (head_ f - tail_ f)). Qed.

(** The low bits of a counter are its value modulo the element count, and
    reducing it to 32 bits does not change them. *)
Lemma ring_mask f x : ring_ok f -> x .& mask_ f = x mod elem_count_ f.
Proof.
  intros H. destruct (ro_pow _ H) as (k & Hk & E). rewrite (ro_mask _ H), E.
  replace (2 ^ k - 1) with (Z.ones k) by (rewrite Z.ones_equiv; lia). apply Z.land_ones; lia.
Qed.

Lemma ring_u32_mod f x : ring_ok f -> u32 x mod elem_count_ f = x mod elem_count_ f.
Proof.
  intros H. destruct (ro_pow _ H) as (k & Hk & ->). unfold u32.
  replace (2 ^ 32) with (2 ^ k * 2 ^ (32 - k)) by (rewrite <- Z.pow_add_r by lia; f_equal; lia).
  rewrite Z.rem_mul_r by (apply Z.pow_nonzero || apply Z.pow_pos_nonneg; lia).
  rewrite Z.mul_comm, Z_mod_plus_full. apply Z.mod_mod. apply Z.pow_nonzero; lia.
Qed.

Lemma run_u32 f T n d :
  ring_ok f -> run (elem_count_ f) (elem_size_ f) (u32 T) n d = run (elem_count_ f) (elem_size_ f) T n d.
Proof.
  intros H. unfold run. rewrite !flat_map_concat_map. f_equal. apply map_ext. intros j.
  f_equal. rewrite <- Zplus_mod_idemp_l, (ring_u32_mod f) by done. by rewrite Zplus_mod_idemp_l.
Qed.

(** [head_] is [used] elements after [tail_]. *)
Lemma ring_head f : ring_ok f -> head_ f = u32 (tail_ f + used f).
Proof.
  intros H. unfold used. rewrite Z.add_comm, u32_add_l. replace (head_ f - tail_ f + tail_ f) with (head_ f) by lia.
  symmetry. apply u32_id, (ro_head _ H).
Qed.

Lemma ring_head_mod f : ring_ok f -> head_ f mod elem_count_ f = (tail_ f + used f) mod elem_count_ f.
Proof. intros H. rewrite (ring_head _ H) at 1. by apply ring_u32_mod. Qed.

Lemma length_queue f : ring_ok f -> zlen (queue f) = used f * elem_size_ f.
Proof.
  intros H. unfold zlen, queue. pose proof (ring_pos _ H). pose proof (ro_size _ H).
  pose proof (used_range f). rewrite length_run by (try lia; apply (ro_data _ H)). nia.
Qed.

(** ** The write loop *)

(** What the loops do not change. *)
Definition same_ring (f f' : Fifo) : Prop :=
  elem_count_ f' = elem_count_ f /\ elem_size_ f' = elem_size_ f /\ mask_ f' = mask_ f /\
  tail_ f' = tail_ f /\ length (data_ f') = length (data_ f).

Lemma same_ring_trans f g h : same_ring f g -> same_ring g h -> same_ring f h.
Proof. intros (? & ? & ? & ? & ?) (? & ? & ? & ? & ?). split_and!; congruence. Qed.

(** One iteration's quantities without the machine arithmetic. *)
Lemma loop_step x count f :
  ring_ok f -> 0 < count ->
  let o := x mod elem_count_ f in
  let n := u32 (elem_count_ f - (x .& mask_ f)) in
  let c := if count >? n then n else count in
  x .& mask_ f = o /\ c = Z.min count (elem_count_ f - o) /\ 0 < c <= count /\ o + c <= elem_count_ f /\
  0 <= o /\ u32 c = c /\ u32 (o * elem_size_ f) = o * elem_size_ f.
Proof.
  intros H Hc o n c. pose proof (ring_pos _ H) as HN. pose proof (ro_size _ H) as He.
  pose proof (ro_max _ H) as Hm. unfold kMaxSizeBytes in Hm.
  pose proof (Z.mod_pos_bound x (elem_count_ f)) as Hx. fold o in Hx.
  assert (n = elem_count_ f - o) as Hn.
  { subst n. rewrite ring_mask by done. fold o. apply u32_id. unfold is_u32. lia. }
  assert (c = Z.min count (elem_count_ f - o)) as Hcc by (subst c; rewrite Hn; destruct (Z.gtb_spec count (elem_count_ f - o)); lia).
  split_and!; try lia; [by apply ring_mask | |];
    apply u32_id; unfold is_u32; nia.
Qed.

(** The ring after [c] elements were copied behind its queue. *)
Lemma push_ok f c bs :
  ring_ok f -> 0 < c -> used f + c <= elem_count_ f -> head_ f mod elem_count_ f + c <= elem_count_ f ->
  length bs = Z.to_nat (c * elem_size_ f) ->
  let f' := with_head (u32 (head_ f + c))
              (with_data (splice (Z.to_nat (head_ f mod elem_count_ f * elem_size_ f)) bs (data_ f)) f) in
  ring_ok f' /\ used f' = used f + c /\ queue f' = queue f ++ bs /\ same_ring f f'.
Proof.
  intros H Hc Hu Ho Hbs f'. pose proof (ring_pos _ H) as HN. pose proof (ro_size _ H) as He.
  pose proof (used_range f) as Hur. pose proof (Z.mod_pos_bound (head_ f) (elem_count_ f)) as Hm.
  assert (length (data_ f') = length (data_ f)) as Hl.
  { simpl. apply length_splice. rewrite (ro_data _ H). nia. }
  assert (used f' = used f + c) as Hu'.
  { unfold used. simpl. rewrite u32_sub_l. rewrite (ring_head _ H) at 1.
    replace (u32 (tail_ f + used f) + c - tail_ f) with (u32 (tail_ f + used f) - (tail_ f - c)) by lia.
    rewrite u32_sub_l. replace (tail_ f + used f - (tail_ f - c)) with (used f + c) by lia.
    fold (used f). apply u32_id. unfold is_u32. lia. }
  assert (ring_ok f') as H'.
  { destruct H. split; try done; [by rewrite Hl | apply u32_range | rewrite Hu'; done]. }
  split_and!; try done.
  unfold queue. rewrite Hu'. cbn [elem_count_ elem_size_ tail_ data_ f' with_head with_data].
  rewrite Z2Nat.inj_add by lia. rewrite run_app, Z2Nat.id by lia.
  rewrite (ring_head_mod _ H) in *. f_equal.
  - rewrite <- (Z2Nat.id (used f)) at 2 by lia.
    apply run_splice_before with (k := c); rewrite ?Z2Nat.id by lia; try lia; try apply (ro_data _ H).
  - apply run_splice_here; try lia; try apply (ro_data _ H); rewrite Z2Nat.id; lia || done.
Qed.

(** Bytes copied into free slots and not counted leave the queue alone. *)
Lemma spill_ok f c bs :
  ring_ok f -> 0 < c -> used f + c <= elem_count_ f -> head_ f mod elem_count_ f + c <= elem_count_ f ->
  (length bs <= Z.to_nat (c * elem_size_ f))%nat ->
  let d := splice (Z.to_nat (head_ f mod elem_count_ f * elem_size_ f)) bs (data_ f) in
  length d = length (data_ f) /\
  run (elem_count_ f) (elem_size_ f) (tail_ f) (Z.to_nat (used f)) d = queue f.
Proof.
  intros H Hc Hu Ho Hbs d. pose proof (ring_pos _ H) as HN. pose proof (ro_size _ H) as He.
  pose proof (used_range f) as Hur. pose proof (Z.mod_pos_bound (head_ f) (elem_count_ f)) as Hm.
  split; [apply length_splice; rewrite (ro_data _ H); nia|].
  subst d. rewrite (ring_head_mod _ H) in *. unfold queue.
  rewrite <- (Z2Nat.id (used f)) at 2 by lia.
  apply run_splice_before with (k := c); rewrite ?Z2Nat.id by lia; try lia; try apply (ro_data _ H).
Qed.

(** The prefix of a longer run. *)
Lemma run_prefix N esz T n k d l l' :
  0 < N -> 0 < esz -> length d = Z.to_nat (N * esz) -> length l = Z.to_nat (Z.of_nat n * esz) ->
  run N esz T (n + k) d = l ++ l' -> run N esz T n d = l.
Proof.
  intros HN He Hd Hl H. rewrite run_app in H. apply app_inj_1 in H as [H _]; [done|].
  rewrite length_run by done. by symmetry.
Qed.

Lemma fifo_write_loop_spec fuel ptr count f :
  ring_ok f -> 0 <= count -> used f + count <= elem_count_ f -> count < Z.of_nat fuel ->
  exists st f',
    write_loop fuel ptr count f = Some (st, f') /\ same_ring f f' /\
    (st = ZX_OK -> ring_ok f' /\ used f' = used f + count /\
       exists bs, copied ptr 0 (count * elem_size_ f) bs /\ queue f' = queue f ++ bs) /\
    (st <> ZX_OK -> st = ZX_ERR_INVALID_ARGS /\
       run (elem_count_ f) (elem_size_ f) (tail_ f) (Z.to_nat (used f)) (data_ f') = queue f) /\
    (forall l, in_buffer ptr l -> zlen l = count * elem_size_ f -> st = ZX_OK).
Proof.
  revert ptr count f. induction fuel as [|fuel IH]; intros ptr count f H Hc Hu Hf; [lia|]. simpl.
  destruct (Z.gtb_spec count 0) as [Hpos|Hpos]; cbn [negb].
  2: { assert (count = 0) as -> by lia. exists ZX_OK, f. split_and!; try done.
       intros _. split_and!; try done; [lia|]. exists []. rewrite app_nil_r.
       split; [apply copied_nil | done]. }
  destruct (loop_step (head_ f) count f H) as (E1 & E2 & Hc1 & Ho & Ho0 & E3 & E4); [lia|].
  set (c := if count >? _ then _ else count) in *. rewrite E1, E4.
  set (o := head_ f mod elem_count_ f) in *. pose proof (ro_size _ H) as He.
  destruct (copy_array_from_user ptr (c * elem_size_ f)) as [status bs] eqn:Ecp.
  pose proof (copy_from_length ptr (c * elem_size_ f)) as Hbl. rewrite Ecp in Hbl. simpl in Hbl.
  destruct (is_err status) eqn:Ee.
  - apply is_err_true in Ee. eexists _, _. split; [done|].
    destruct (spill_ok f c bs H) as [Hl Hq]; [lia|lia|done|done|].
    split_and!; try done. intros l Hl' Hll. destruct Ee.
    rewrite (copy_from_buffer _ l) in Ecp by (done || nia). by simplify_eq.
  - apply is_err_false in Ee. subst status. pose proof (copy_from_ok_length _ _ _ Ecp) as Hlb.
    destruct (push_ok f c bs H) as (H' & Hu' & Hq' & Hs'); [lia|lia|done|done|].
    rewrite E3. cbn [with_data with_head head_ elem_size_] in *.
    set (f1 := with_head _ _) in *.
    destruct (IH (in_byte_offset ptr (c * elem_size_ f)) (count - c) f1)
      as (st & f' & HE & Hs & Hok & Herr & Hin); [done|lia|rewrite Hu'; simpl; lia|lia|].
    exists st, f'. split; [exact HE|]. split; [by eapply same_ring_trans|].
    pose proof (used_range f) as Hur. pose proof (ring_pos _ H) as HN. split_and!.
    + intros Hst. destruct (Hok Hst) as (Hr & Hu1 & bs' & Hcp & Hq). split_and!; [done|lia|].
      exists (bs ++ bs'). split; [|by rewrite Hq, Hq', app_assoc].
      replace (count * elem_size_ f) with (c * elem_size_ f + (count - c) * elem_size_ f) by lia.
      apply copied_app; [nia | by rewrite in_byte_offset_0 | nia |].
      destruct Hcp as [Hcp1 Hcp2]. split; [done|]. by rewrite in_byte_offset_add, Z.add_0_r in Hcp2.
    + intros Hst. destruct (Herr Hst) as [Hi Hq]. split; [done|].
      rewrite Hu', Z2Nat.inj_add in Hq by lia. rewrite Hq' in Hq.
      destruct Hs as (_ & _ & _ & _ & Hs). destruct Hs' as (_ & _ & _ & _ & Hs').
      eapply run_prefix; [lia|done| | |exact Hq]; [by rewrite Hs, Hs'; apply (ro_data _ H)|].
      pose proof (length_queue _ H) as Hlq. unfold zlen in Hlq. rewrite Z2Nat.id by lia. lia.
    + intros l Hl Hll. destruct (decide (count - c = 0)) as [Hz|Hz].
      * rewrite Hz in HE. destruct fuel; [lia|]. simpl in HE. by simplify_eq.
      * apply (Hin (drop (Z.to_nat (c * elem_size_ f)) l)).
        -- apply in_buffer_offset; [done|nia].
        -- unfold zlen in *. rewrite length_drop. simpl. nia.
Qed.

(** ** The read loop *)

(** The ring after its first [c] elements were taken. *)
Lemma pop_ok f c :
  ring_ok f -> 0 < c -> c <= used f -> tail_ f mod elem_count_ f + c <= elem_count_ f ->
  let f' := with_tail (u32 (tail_ f + c)) f in
  ring_ok f' /\ used f' = used f - c /\
  queue f = slice (Z.to_nat (tail_ f mod elem_count_ f * elem_size_ f)) (Z.to_nat (c * elem_size_ f))
              (data_ f) ++ queue f'.
Proof.
  intros H Hc Hu Ho f'. pose proof (ring_pos _ H) as HN. pose proof (ro_size _ H) as He.
  pose proof (used_range f) as Hur.
  assert (used f' = used f - c) as Hu'.
  { unfold used. simpl. rewrite u32_sub_r. rewrite (ring_head _ H) at 1. rewrite u32_sub_l.
    replace (tail_ f + used f - (tail_ f + c)) with (used f - c) by lia. fold (used f).
    apply u32_id. unfold is_u32. lia. }
  assert (ring_ok f') as H'.
  { pose proof (ro_used _ H). destruct H. split; try done; [apply u32_range | rewrite Hu'; simpl; lia]. }
  split_and!; try done. unfold queue. rewrite Hu'.
  cbn [elem_count_ elem_size_ tail_ data_ f' with_tail]. rewrite (run_u32 f) by done.
  replace (Z.to_nat (used f)) with (Z.to_nat c + Z.to_nat (used f - c))%nat by lia.
  rewrite run_app, Z2Nat.id by lia. f_equal. rewrite run_contig by lia. f_equal. f_equal. lia.
Qed.

Lemma read_loop_spec fuel ptr count f m :
  ring_ok f -> 0 <= count <= used f -> count < Z.of_nat fuel ->
  exists st f' m',
    read_loop fuel ptr count f m = Some (st, f', m') /\ f' = with_tail (tail_ f') f /\
    (st = ZX_OK -> ring_ok f' /\ used f' = used f - count /\
       exists bs, zlen bs = count * elem_size_ f /\ queue f = bs ++ queue f' /\
                  m' = mem_write (uo_addr ptr) bs m) /\
    (st <> ZX_OK -> st = ZX_ERR_INVALID_ARGS) /\
    (out_buffer ptr (count * elem_size_ f) -> st = ZX_OK).
Proof.
  revert ptr count f m. induction fuel as [|fuel IH]; intros ptr count f m H Hc Hf; [lia|]. simpl.
  destruct (Z.gtb_spec count 0) as [Hpos|Hpos]; cbn [negb].
  2: { assert (count = 0) as -> by lia. exists ZX_OK, f, m. split_and!; try done; [by destruct f|].
       intros _. split_and!; try done; [lia|]. by exists []. }
  destruct (loop_step (tail_ f) count f H) as (E1 & E2 & Hc1 & Ho & Ho0 & E3 & E4); [lia|].
  set (c := if count >? _ then _ else count) in *. rewrite E1, E4.
  set (o := tail_ f mod elem_count_ f) in *. pose proof (ro_size _ H) as He.
  destruct (pop_ok f c H) as (H' & Hu' & Hq'); [lia|lia|done|]. fold o in Hq'.
  set (bs := slice _ _ _) in *.
  assert (zlen bs = c * elem_size_ f) as Hbs.
  { unfold zlen, bs. rewrite length_slice; [nia|]. rewrite (ro_data _ H).
    pose proof (ring_pos _ H). nia. }
  destruct (copy_array_to_user ptr bs m) as [status m1] eqn:Ecp. destruct (is_err status) eqn:Ee.
  - apply is_err_true in Ee. eexists _, _, _. split; [done|]. split_and!; try done; [by destruct f|].
    intros Hob. destruct Ee. erewrite copy_to_buffer in Ecp; [by simplify_eq | done | nia].
  - apply is_err_false in Ee. subst status. apply copy_to_ok_inv in Ecp as [Hm1 [va Hva]].
    rewrite E3. destruct (IH (out_byte_offset ptr (c * elem_size_ f)) (count - c)
                            (with_tail (u32 (tail_ f + c)) f) m1)
      as (st & f' & m' & HE & Hf' & Hok & Herr & Hob); [done|rewrite Hu'; lia|lia|].
    exists st, f', m'. split; [exact HE|]. split_and!; try done.
    + intros Hst. destruct (Hok Hst) as (Hr & Hu1 & bs' & Hl & Hq & Hm). split_and!; [done|lia|].
      exists (bs ++ bs'). rewrite zlen_app, Hbs, Hl. simpl. split_and!.
      * lia.
      * by rewrite Hq', Hq, app_assoc.
      * rewrite mem_write_app, Hbs, <- Hm1, Hm. by rewrite (uo_addr_offset _ va).
    + intros Hb. destruct (decide (count - c = 0)) as [Hz|Hz].
      * rewrite Hz in HE. destruct fuel; [lia|]. simpl in HE. by simplify_eq.
      * apply Hob. simpl. replace ((count - c) * elem_size_ f) with (count * elem_size_ f - c * elem_size_ f) by lia.
        apply out_buffer_offset; [done|nia].
Qed.

(** ** Both endpoints *)

Section Fifo.
Context {W O : Type} {SO : StateObserver W O}.
Abbreviation sys := (PeerSys W O Fifo unit).
Implicit Types p : sys.

Definition free (f : Fifo) : Z := elem_count_ f - used f.

Record fifo_end (sd : side) p : Prop := {
  fe_ring : ring_ok (xt sd p);
  fe_readable : has (sig sd p) ZX_FIFO_READABLE = negb (used (xt sd p) =? 0);
}.

(** While both ends are open, [WRITABLE] is exactly room in the peer's ring. *)
Definition fifo_link (sd : side) p : Prop :=
  has (sig sd p) ZX_FIFO_WRITABLE = negb (free (xt (other sd) p) =? 0) /\
  has (sig sd p) ZX_FIFO_PEER_CLOSED = false.

Record fifo_inv p : Prop := {
  fi_peer : has_peer Side0 p = has_peer Side1 p;
  fi_end : forall sd, fifo_end sd p;
  fi_link : has_peer Side0 p = true -> forall sd, fifo_link sd p;
}.

Lemma fifo_inv_intro sd p :
  has_peer sd p = has_peer (other sd) p -> fifo_end sd p -> fifo_end (other sd) p ->
  (has_peer sd p = true -> fifo_link sd p /\ fifo_link (other sd) p) -> fifo_inv p.
Proof.
  intros Hp H1 H2 Hl. split; [by destruct sd | by apply (both_sides sd)|].
  intros Hh. assert (has_peer sd p = true) as Hs by (destruct sd; simpl in *; congruence).
  destruct (Hl Hs). by apply (both_sides sd).
Qed.

Lemma fi_peer_other sd p : fifo_inv p -> has_peer (other sd) p = has_peer sd p.
Proof. intros [H _ _]. by destruct sd. Qed.

Lemma fi_link_at sd p : fifo_inv p -> has_peer sd p = true -> fifo_link sd p /\ fifo_link (other sd) p.
Proof.
  intros [H _ Hl] Hp. assert (has_peer Side0 p = true) by (destruct sd; simpl in *; congruence).
  split; by apply Hl.
Qed.

Ltac fifo_consts :=
  unfold ZX_FIFO_READABLE, ZX_FIFO_WRITABLE, ZX_FIFO_PEER_CLOSED, ZX_OBJECT_READABLE,
    ZX_OBJECT_WRITABLE, ZX_OBJECT_PEER_CLOSED in *.

Ltac fifo_finish :=
  fifo_consts; sigs;
  repeat match goal with
  | H : has (sig _ _) _ = _ |- context [has _ _] => rewrite H
  end; try done; unfold free in *; zbool.

(** What a write did, on every outcome. *)
Record write_post (sd : side) (elem_size : Z) (ptr : user_in_ptr) (count : Z) p
    (st : zx_status_t) (actual : Z) (p' : sys) : Prop := {
  wp_inv : fifo_inv p';
  wp_self : xt sd p' = xt sd p;
  wp_ok : st = ZX_OK -> actual = Z.min count (free (xt (other sd) p)) /\ 0 < actual /\
    exists bs, copied ptr 0 (actual * elem_size) bs /\
               queue (xt (other sd) p') = queue (xt (other sd) p) ++ bs;
  wp_err : st <> ZX_OK -> actual = 0 /\ queue (xt (other sd) p') = queue (xt (other sd) p) /\
    sig Side0 p' = sig Side0 p /\ sig Side1 p' = sig Side1 p;
  wp_status : forall l, in_buffer ptr l -> zlen l = Z.min count (free (xt (other sd) p)) * elem_size ->
    st = if negb (has_peer sd p) then ZX_ERR_PEER_CLOSED
         else if negb (elem_size =? elem_size_ (xt (other sd) p)) then ZX_ERR_OUT_OF_RANGE
         else if count =? 0 then ZX_ERR_OUT_OF_RANGE
         else if free (xt (other sd) p) =? 0 then ZX_ERR_SHOULD_WAIT else ZX_OK;
}.

Lemma write_stop sd es ptr count p st :
  fifo_inv p -> st <> ZX_OK ->
  st = (if negb (has_peer sd p) then ZX_ERR_PEER_CLOSED
        else if negb (es =? elem_size_ (xt (other sd) p)) then ZX_ERR_OUT_OF_RANGE
        else if count =? 0 then ZX_ERR_OUT_OF_RANGE
        else if free (xt (other sd) p) =? 0 then ZX_ERR_SHOULD_WAIT else ZX_OK) ->
  write_post sd es ptr count p st 0 p.
Proof. intros H1 H2 H3. by split. Qed.

Lemma avail_free f : ring_ok f -> u32 (elem_count_ f - u32 (head_ f - tail_ f)) = free f.
Proof.
  intros H. fold (used f). unfold free. pose proof (used_range f). pose proof (ring_pos _ H).
  pose proof (ro_used _ H). apply u32_id. unfold is_u32. lia.
Qed.

(** Replacing a ring by one with the same counters' distance. *)
Lemma replace_ring_inv sd f p :
  fifo_inv p -> ring_ok f -> used f = used (xt sd p) -> elem_count_ f = elem_count_ (xt sd p) ->
  fifo_inv (put_xt sd f p).
Proof.
  intros Hinv Hr Hu Hc. pose proof (fi_end p Hinv sd) as [Hr1 Hrd1].
  pose proof (fi_end p Hinv (other sd)) as [Hr2 Hrd2]. pose proof (fi_peer_other sd p Hinv) as Hpo.
  apply (fifo_inv_intro sd); [by autorewrite with peer | | |].
  - split; autorewrite with peer; [done | by rewrite Hu].
  - split; autorewrite with peer; done.
  - autorewrite with peer. intros Hp. destruct (fi_link_at sd p Hinv Hp) as [[Hw Hpc] [Hw' Hpc']].
    split; split; autorewrite with peer in *; try done. unfold free in *. by rewrite Hu, Hc.
Qed.

(** The signals after [c] elements were put into the ring of [sd]. *)
Lemma push_inv sd f' c p :
  fifo_inv p -> has_peer sd p = true -> ring_ok f' -> elem_count_ f' = elem_count_ (xt sd p) ->
  0 < c -> used f' = used (xt sd p) + c ->
  fifo_inv (UpdateStateLocked (other sd) (if elem_count_ f' =? used f' then ZX_FIFO_WRITABLE else 0) 0
              (UpdateStateLocked sd 0 (if free (xt sd p) =? elem_count_ (xt sd p) then ZX_FIFO_READABLE else 0)
                 (put_xt sd f' p))).
Proof.
  intros Hinv Hp Hr Hc H0 Hu. pose proof (fi_end p Hinv sd) as [Hr1 Hrd1].
  pose proof (fi_end p Hinv (other sd)) as [Hr2 Hrd2]. pose proof (fi_peer_other sd p Hinv) as Hpo.
  destruct (fi_link_at sd p Hinv Hp) as [[Hw Hpc] [Hw' Hpc']]. pose proof (used_range (xt sd p)). pose proof (ro_used _ Hr).
  fifo_consts. rewrite other_other in *.
  apply (fifo_inv_intro sd); [by autorewrite with peer | split; fifo_finish | split; fifo_finish |].
  intros _. split; split; fifo_finish.
Qed.

(** The signals after [c] elements were taken from the ring of [sd]. *)
Lemma pop_inv sd f' c p :
  fifo_inv p -> ring_ok f' -> elem_count_ f' = elem_count_ (xt sd p) ->
  0 < c -> used f' = used (xt sd p) - c ->
  fifo_inv (UpdateStateLocked sd (if used f' =? 0 then ZX_FIFO_READABLE else 0) 0
              (UpdateStateLocked (other sd) 0
                 (if (used (xt sd p) =? elem_count_ (xt sd p)) && has_peer sd p then ZX_FIFO_WRITABLE else 0)
                 (put_xt sd f' p))).
Proof.
  intros Hinv Hr Hc H0 Hu. pose proof (fi_end p Hinv sd) as [Hr1 Hrd1].
  pose proof (fi_end p Hinv (other sd)) as [Hr2 Hrd2]. pose proof (fi_peer_other sd p Hinv) as Hpo.
  pose proof (used_range (xt sd p)). pose proof (used_range f').
  destruct (has_peer sd p) eqn:Hp.
  - destruct (fi_link_at sd p Hinv Hp) as [[Hw Hpc] [Hw' Hpc']]. fifo_consts. rewrite other_other in *.
    pose proof (ro_used _ Hr1).
    apply (fifo_inv_intro sd); [autorewrite with peer; congruence | split; fifo_finish | split; fifo_finish |].
    intros _. split; split; fifo_finish.
  - apply (fifo_inv_intro sd); [autorewrite with peer; congruence | split; fifo_finish | split; fifo_finish |].
    autorewrite with peer. congruence.
Qed.

Lemma WriteFromUser_post sd es ptr count p :
  fifo_inv p -> 0 <= count ->
  exists st actual p', WriteFromUser sd es ptr count p = Some (st, actual, p') /\
    write_post sd es ptr count p st actual p'.
Proof.
  intros Hinv Hc. unfold WriteFromUser, WriteSelfLocked.
  destruct (has_peer sd p) eqn:Hp; cbn [negb].
  2: { eexists _, _, _. split; [done|]. apply write_stop; try done. by rewrite Hp. }
  destruct (negb (es =? _)) eqn:Ees.
  { eexists _, _, _. split; [done|]. apply write_stop; try done. by rewrite Hp, Ees. }
  destruct (count =? 0) eqn:Ec0.
  { eexists _, _, _. split; [done|]. apply write_stop; try done. by rewrite Hp, Ees, Ec0. }
  pose proof (fe_ring _ _ (fi_end p Hinv (other sd))) as Hr. pose proof (fi_peer_other sd p Hinv) as Hpo.
  rewrite avail_free by done. destruct (free (xt (other sd) p) =? 0) eqn:Ef.
  { eexists _, _, _. split; [done|]. apply write_stop; try done. by rewrite Hp, Ees, Ec0, Ef. }
  b2p. subst es. set (f := xt (other sd) p) in *.
  pose proof (used_range f) as Hur. pose proof (ro_used _ Hr) as Hru.
  pose proof (ring_pos _ Hr) as HN.
  set (c := if count >? free f then free f else count).
  assert (c = Z.min count (free f)) as Hcm by (subst c; destruct (Z.gtb_spec count (free f)); lia).
  clearbody c. assert (0 < c /\ used f + c <= elem_count_ f) as [Hc0 Hcu] by (unfold free in *; lia).
  destruct (fifo_write_loop_spec (loop_fuel c) ptr c f Hr) as (st & f' & HE & Hs & Hok & Herr & Hin);
    [lia|lia|unfold loop_fuel; lia|].
  rewrite HE. cbn [mbind option_bind]. destruct Hs as (Hs1 & Hs2 & Hs3 & Hs4 & Hs5).
  destruct (is_err st) eqn:Ee.
  - apply is_err_true in Ee. destruct (Herr Ee) as [Hi Hq].
    set (f2 := with_head (head_ f) f').
    assert (used f2 = used f) as Hu2 by (unfold used; simpl; by rewrite Hs4).
    assert (ring_ok f2) as Hr' by (destruct Hr; split; rewrite ?Hu2; simpl; rewrite ?Hs1, ?Hs2, ?Hs3, ?Hs4, ?Hs5; done).
    eexists _, _, _. split; [done|]. split; autorewrite with peer; try done.
    + by apply replace_ring_inv.
    + intros _. unfold queue at 1. rewrite Hu2. simpl. by rewrite Hs1, Hs2, Hs4.
    + intros l Hl Hll. destruct Ee. apply (Hin l Hl). by rewrite Hcm.
  - apply is_err_false in Ee. destruct (Hok Ee) as (Hr' & Hu' & bs & Hcp & Hq).
    rewrite update_cond_set, update_cond_clear. eexists _, _, _. split; [done|].
    assert (u32 (head_ f' - head_ f) = c) as ->.
    { rewrite (ring_head _ Hr'), (ring_head _ Hr), Hu', Hs4, u32_sub_l, u32_sub_r.
      replace (_ - _) with c by lia. apply u32_id. unfold is_u32. lia. }
    split; autorewrite with peer; try done.
    + fold (used f'). rewrite <- (other_other sd) at 1. apply (push_inv (other sd) f' c); try done. congruence.
    + intros _. split_and!; [done|lia|]. by exists bs.
    + intros l _ _. fold f. rewrite Hp, Z.eqb_refl. cbn [negb].
      rewrite (proj2 (Z.eqb_neq _ _)), (proj2 (Z.eqb_neq _ _)) by done. done.
Qed.

(** What a read did, on every outcome. *)
Record read_post (sd : side) (elem_size : Z) (ptr : user_out_ptr) (count : Z) p (m : user_mem)
    (st : zx_status_t) (actual : Z) (p' : sys) (m' : user_mem) : Prop := {
  rp_inv : fifo_inv p';
  rp_peer : xt (other sd) p' = xt (other sd) p;
  rp_ok : st = ZX_OK -> actual = Z.min count (used (xt sd p)) /\ 0 < actual /\
    exists bs, zlen bs = actual * elem_size /\ queue (xt sd p) = bs ++ queue (xt sd p') /\
               m' = mem_write (uo_addr ptr) bs m;
  rp_err : st <> ZX_OK -> actual = 0 /\ p' = p;
  rp_status : out_buffer ptr (Z.min count (used (xt sd p)) * elem_size) ->
    st = if negb (elem_size =? elem_size_ (xt sd p)) then ZX_ERR_OUT_OF_RANGE
         else if count =? 0 then ZX_ERR_OUT_OF_RANGE
         else if used (xt sd p) =? 0
         then (if has_peer sd p then ZX_ERR_SHOULD_WAIT else ZX_ERR_PEER_CLOSED)
         else ZX_OK;
}.

Lemma put_xt_same sd p : put_xt sd (xt sd p) p = p.
Proof. by destruct sd, p as [[] [] ? ?]. Qed.

Lemma ReadToUser_post sd es ptr count p m :
  fifo_inv p -> 0 <= count ->
  exists st actual p' m', ReadToUser sd es ptr count p m = Some (st, actual, p', m') /\
    read_post sd es ptr count p m st actual p' m'.
Proof.
  intros Hinv Hc. unfold ReadToUser. destruct (negb (es =? _)) eqn:Ees.
  { eexists _, _, _, _. split; [done|]. split; try done. intros _. by rewrite Ees. }
  destruct (count =? 0) eqn:Ec0.
  { eexists _, _, _, _. split; [done|]. split; try done. intros _. by rewrite Ees, Ec0. }
  pose proof (fe_ring _ _ (fi_end p Hinv sd)) as Hr. fold (used (xt sd p)).
  destruct (used (xt sd p) =? 0) eqn:Ef.
  { eexists _, _, _, _. split; [done|]. split; try done; try (by destruct (has_peer sd p)).
    intros _. by rewrite Ees, Ec0, Ef. }
  b2p. subst es. set (f := xt sd p) in *.
  pose proof (used_range f) as Hur. pose proof (ro_used _ Hr) as Hru. pose proof (ring_pos _ Hr) as HN.
  set (c := if count >? used f then used f else count).
  assert (c = Z.min count (used f)) as Hcm by (subst c; destruct (Z.gtb_spec count (used f)); lia).
  clearbody c.
  destruct (read_loop_spec (loop_fuel c) ptr c f m Hr) as (st & f' & m' & HE & Hf' & Hok & Herr & Hin);
    [lia|unfold loop_fuel; lia|].
  rewrite HE. cbn [mbind option_bind]. destruct (is_err st) eqn:Ee.
  - apply is_err_true in Ee. assert (with_tail (tail_ f) f' = f) as Hw by (rewrite Hf'; by destruct f).
    rewrite Hw. unfold f. rewrite put_xt_same. eexists _, _, _, _. split; [done|]. split; try done.
    intros Hob. destruct Ee. apply Hin. by rewrite Hcm.
  - apply is_err_false in Ee. destruct (Hok Ee) as (Hr' & Hu' & bs & Hl & Hq & Hm).
    rewrite update_cond_set, update_cond_clear. eexists _, _, _, _. split; [done|].
    assert (u32 (tail_ f' - tail_ f) = c) as ->.
    { replace (tail_ f' - tail_ f) with ((head_ f - tail_ f) - (head_ f' - tail_ f')) by (rewrite Hf'; simpl; lia).
      rewrite <- u32_sub_l, <- u32_sub_r. fold (used f) (used f').
      replace (used f - used f') with c by lia. apply u32_id. unfold is_u32. lia. }
    split; autorewrite with peer; try done.
    + fold (used f'). apply (pop_inv sd f' c); try done; [by rewrite Hf' | lia].
    + intros _. split_and!; [done|lia|]. by exists bs.
    + intros _. fold f. rewrite Z.eqb_refl. cbn [negb].
      rewrite (proj2 (Z.eqb_neq _ _)), (proj2 (Z.eqb_neq _ _)) by done. done.
Qed.

(** ** Runs *)

Lemma new_fifo_ok count es data :
  0 < count -> 0 < es -> count .& (count - 1) = 0 -> count <= kMaxSizeBytes -> count * es <= kMaxSizeBytes ->
  zlen data = count * es -> ring_ok (new_fifo count es data).
Proof.
  unfold kMaxSizeBytes. intros Hc He Hp Hm Hm2 Hd.
  assert (u32 (count - 1) = count - 1) as Hu by (apply u32_id; unfold is_u32; lia).
  split; simpl; try done; try lia.
  - exists (Z.log2 count). split; [|by apply pow2_land]. split; [apply Z.log2_nonneg|].
    change 12 with (Z.log2 4096). by apply Z.log2_le_mono.
  - unfold zlen in Hd. lia.
  - change (used (new_fifo count es data)) with 0. lia.
Qed.

Lemma fifo_Create_inv oom k0 k1 count es d0 d1 (w : W) p :
  is_u64 count -> is_u64 es -> zlen d0 = u64 (count * es) -> zlen d1 = u64 (count * es) ->
  Create oom k0 k1 count es d0 d1 w = (ZX_OK, Some p) -> fifo_inv p.
Proof.
  unfold Create, kMaxSizeBytes. intros Hc He Hd0 Hd1 H. dmatch_in H; [done|]. dmatch_in H; [done|].
  simplify_eq. b2p. unfold is_u64 in *.
  rewrite u64_id in * by (unfold is_u64; nia).
  assert (u32 count = count) as Hcu by (apply u32_id; unfold is_u32; lia).
  assert (u32 es = es) as Heu by (apply u32_id; unfold is_u32; lia). rewrite Hcu, Heu.
  assert (forall d, zlen d = count * es -> ring_ok (new_fifo count es d)) as Hok
    by (intros; apply new_fifo_ok; unfold kMaxSizeBytes; (done || lia)).
  assert (forall d, used (new_fifo count es d) = 0) as Hu by done.
  apply (fifo_inv_intro Side0); try done; [by split; [apply Hok|]..|].
  assert (forall d, free (new_fifo count es d) = count) as Hf
    by (intros d; unfold free; rewrite Hu; simpl; lia).
  intros _. split; (split; [|done]);
    match goal with |- context [xt ?sd ?q] => change (xt sd q) with (new_fifo count es d1) || change (xt sd q) with (new_fifo count es d0) end;
    rewrite Hf, (proj2 (Z.eqb_neq count 0)) by lia; reflexivity.
Qed.

(** One operation on one endpoint, with any user memory. *)
Inductive fifo_step : sys -> sys -> Prop :=
| fstep_write sd es ptr count p st actual p' :
    0 <= count -> WriteFromUser sd es ptr count p = Some (st, actual, p') -> fifo_step p p'
| fstep_read sd es ptr count p m st actual p' m' :
    0 <= count -> ReadToUser sd es ptr count p m = Some (st, actual, p', m') -> fifo_step p p'
| fstep_signal_self sd c s p : fifo_step p (user_signal_self sd c s p).2
| fstep_signal_peer sd c s p : fifo_step p (user_signal_peer sd c s p).2
| fstep_close sd p : fifo_step p (on_zero_handles sd p).

Inductive fifo_reachable : sys -> Prop :=
| freach_create oom k0 k1 count es d0 d1 w p :
    is_u64 count -> is_u64 es -> zlen d0 = u64 (count * es) -> zlen d1 = u64 (count * es) ->
    Create oom k0 k1 count es d0 d1 w = (ZX_OK, Some p) -> fifo_reachable p
| freach_step p p' : fifo_reachable p -> fifo_step p p' -> fifo_reachable p'.

Lemma fifo_close_inv sd p : fifo_inv p -> fifo_inv (on_zero_handles sd p).
Proof.
  intros Hinv. unfold on_zero_handles.
  cbn [Peered.on_zero_handles_locked Peered.OnPeerZeroHandlesLocked fifo_self].
  unfold on_zero_handles_locked, OnPeerZeroHandlesLocked.
  pose proof (fi_end p Hinv sd) as [Hr Hrd]. pose proof (fi_end p Hinv (other sd)) as [Hr2 Hrd2].
  pose proof (fi_peer_other sd p Hinv) as Hpo. destruct (has_peer sd p) eqn:Hp; fifo_consts.
  - apply (fifo_inv_intro sd); [by autorewrite with peer | split; fifo_finish | split; fifo_finish|].
    by autorewrite with peer.
  - apply (fifo_inv_intro sd); [autorewrite with peer; congruence | split; fifo_finish | split; fifo_finish|].
    by autorewrite with peer.
Qed.

Lemma fifo_user_inv sd c s p :
  nz (c .&~ (ZX_USER_SIGNAL_ALL .| 0)) = false -> nz (s .&~ (ZX_USER_SIGNAL_ALL .| 0)) = false ->
  fifo_inv p -> fifo_inv (UpdateStateLocked sd c s p).
Proof.
  intros Hc Hs Hinv.
  pose proof (fun k => user_mask_bit c k Hc) as Bc. pose proof (fun k => user_mask_bit s k Hs) as Bs.
  pose proof (fi_end p Hinv sd) as [Hr Hrd]. pose proof (fi_end p Hinv (other sd)) as [Hr2 Hrd2].
  pose proof (fi_peer_other sd p Hinv) as Hpo.
  apply (fifo_inv_intro sd); [by autorewrite with peer | | split; fifo_finish |].
  - split; fifo_consts; autorewrite with peer; rewrite ?has_update, ?Bs, ?Bc by lia; fifo_finish.
  - autorewrite with peer. intros Hp.
    destruct (fi_link_at sd p Hinv Hp) as [[Hw Hpc] [Hw' Hpc']].
    split; split; fifo_consts; autorewrite with peer in *; rewrite ?has_update, ?Bs, ?Bc by lia; fifo_finish.
Qed.

Lemma fifo_step_inv p p' : fifo_inv p -> fifo_step p p' -> fifo_inv p'.
Proof.
  intros Hinv. destruct 1.
  - destruct (WriteFromUser_post sd es ptr count p) as (st' & a' & p'' & HE & [Hi _ _ _ _]); [done..|].
    congruence.
  - destruct (ReadToUser_post sd es ptr count p m) as (st' & a' & p'' & m'' & HE & [Hi _ _ _ _]); [done..|].
    congruence.
  - unfold user_signal_self. cbn [extra_signals fifo_self].
    destruct (nz (s .&~ _)) eqn:Es; [done|]. destruct (nz (c .&~ _)) eqn:Ec; [done|].
    by apply fifo_user_inv.
  - unfold user_signal_peer. cbn [extra_signals fifo_self].
    destruct (nz (s .&~ _)) eqn:Es; [done|]. destruct (nz (c .&~ _)) eqn:Ec; [done|]. simpl.
    destruct (has_peer sd p); [|done]. by apply fifo_user_inv.
  - by apply fifo_close_inv.
Qed.

Lemma fifo_reachable_inv p : fifo_reachable p -> fifo_inv p.
Proof.
  induction 1 as [oom k0 k1 count es d0 d1 w p H1 H2 H3 H4 H5|]; [|by eapply fifo_step_inv].
  exact (fifo_Create_inv oom k0 k1 count es d0 d1 w p H1 H2 H3 H4 H5).
Qed.

(** ** Theorems *)

(** fifo signals tell the truth, faults included.  In every state reached from
    [FifoDispatcher::Create] by writes, reads, user signals and closes, with user
    memory that may fault anywhere, an endpoint is [READABLE] exactly when its ring
    holds an element, and while both ends are open it is [WRITABLE] exactly when the
    peer's ring has a free slot. *)
Theorem fifo_signals p : fifo_reachable p -> fifo_inv p.
Proof. apply fifo_reachable_inv. Qed.

(** a write through one endpoint returns and either puts the first
    [min count free] elements of the source behind the peer's queue, or leaves both
    queues and all signals as they were, also when the second of its two copies
    faults; without faults the status is the one the arguments and the queue call
    for.  The array and the 32-bit counters may wrap around. *)
Theorem fifo_write sd es ptr count p :
  fifo_reachable p -> 0 <= count ->
  exists st actual p', WriteFromUser sd es ptr count p = Some (st, actual, p') /\
    write_post sd es ptr count p st actual p'.
Proof. intros H Hc. apply WriteFromUser_post; [by apply fifo_reachable_inv | done]. Qed.

(** a read returns and either moves the first [min count used] elements of the
    endpoint's queue to the destination, in order, or changes nothing. *)
Theorem fifo_read sd es ptr count p m :
  fifo_reachable p -> 0 <= count ->
  exists st actual p' m', ReadToUser sd es ptr count p m = Some (st, actual, p', m') /\
    read_post sd es ptr count p m st actual p' m'.
Proof. intros H Hc. apply ReadToUser_post; [by apply fifo_reachable_inv | done]. Qed.

End Fifo.

(** ** Concrete runs *)

Definition plain_fifo : PeerSys unit Empty_set Fifo unit :=
  new_pair 1024 1025 ZX_FIFO_WRITABLE (new_fifo 4 2 (repeat 0 8)) (new_fifo 4 2 (repeat 0 8)) tt tt.

Lemma plain_fifo_reachable : fifo_reachable plain_fifo.
Proof.
  by apply (freach_create (fun _ => false) 1024 1025 4 2 (repeat 0 8) (repeat 0 8) tt).
Qed.

Lemma fifo_signals_witness : fifo_inv (on_zero_handles Side0 plain_fifo).
Proof.
  apply (fifo_signals (on_zero_handles Side0 plain_fifo)).
  eapply freach_step; [apply plain_fifo_reachable | apply fstep_close].
Defined.

Lemma fifo_write_witness :
  exists st actual p', WriteFromUser Side0 2 (user_in_of [1; 2; 3; 4]) 2 plain_fifo = Some (st, actual, p') /\
    write_post Side0 2 (user_in_of [1; 2; 3; 4]) 2 plain_fifo st actual p'.
Proof. apply (fifo_write Side0 2 (user_in_of [1; 2; 3; 4]) 2 plain_fifo); [apply plain_fifo_reachable | lia]. Defined.

Lemma fifo_read_witness :
  exists st actual p' m', ReadToUser Side0 2 user_out_all 2 plain_fifo ∅ = Some (st, actual, p', m') /\
    read_post Side0 2 user_out_all 2 plain_fifo ∅ st actual p' m'.
Proof. apply (fifo_read Side0 2 user_out_all 2 plain_fifo ∅); [apply plain_fifo_reachable | lia]. Defined.
