(* ===== verification/WaitQueue.v ===== *)
(** * Wait queues

    [kernel/wait.cc] and [kernel/wait_queue_internal.h]: the queues of blocked
    threads behind every blocking primitive of the kernel.  A queue is a list of
    groups, one per priority, highest first; a group is the list of its threads
    in arrival order, the first being the one linked in [wait->heads].  Threads
    and queues are named by their addresses.  The scheduler is outside the model:
    [sched_unblock] makes a thread ready, and a thread that was made ready runs
    again at any later point. *)

From S2P Require Import Prelude Zx.

Module WaitQueue.

(** ** Data *)

Inductive thread_state :=
| THREAD_INITIAL | THREAD_READY | THREAD_RUNNING | THREAD_BLOCKED | THREAD_BLOCKED_READ_LOCK
| THREAD_SLEEPING | THREAD_SUSPENDED | THREAD_DEATH.

Definition THREAD_SIGNAL_KILL : Z := 2 ^ 0.
Definition THREAD_SIGNAL_SUSPEND : Z := 2 ^ 1.
Definition ZX_TIME_INFINITE : Z := 2 ^ 63 - 1.

(** The fields of [thread_t] the wait queue code uses. *)
Record thread_t := mkThread {
  state : thread_state;
  effec_priority : Z;
  signals : Z;
  interruptable : bool;
  blocked_status : zx_status_t;
  blocking_wait_queue : option Z;
}.

Record wait_queue_t := mkWaitQueue {
  count : Z;
  heads : list (list Z);
}.

Inductive ResourceOwnership := Normal | Reader.

(** What the thread lock protects: all threads, all queues, and the threads made
    ready so far, in order. *)
Record kernel := mkKernel {
  threads : gmap Z thread_t;
  queues : gmap Z wait_queue_t;
  ready : list Z;
}.

Definition with_thread (t : Z) (th : thread_t) (k : kernel) : kernel :=
  {| threads := <[t := th]> (threads k); queues := queues k; ready := ready k |}.
Definition with_queue (w : Z) (q : wait_queue_t) (k : kernel) : kernel :=
  {| threads := threads k; queues := <[w := q]> (queues k); ready := ready k |}.

Definition wait_queue_init : wait_queue_t := {| count := 0; heads := [] |}.

(** ** The queue structure *)

Section Structure.
Context (pri : Z -> Z).

(** The priority of a group is that of the thread at its head. *)
Definition group_pri (g : list Z) : Z := match g with h :: _ => pri h | [] => 0 end.

Fixpoint wait_queue_insert (t : Z) (gs : list (list Z)) : list (list Z) :=
  match gs with
  | [] => [[t]]
  | g :: rest =>
      if pri t >? group_pri g then [t] :: g :: rest
      else if group_pri g =? pri t then (g ++ [t]) :: rest
      else g :: wait_queue_insert t rest
  end.

End Structure.

(** [wait_queue_remove_head] and [wait_queue_remove_thread]: a thread alone in
    its group takes the group with it; the next one becomes head otherwise; a
    thread that is no head is taken from the middle. *)
Fixpoint wait_queue_remove_thread (t : Z) (gs : list (list Z)) : list (list Z) :=
  match gs with
  | [] => []
  | [] :: rest => [] :: wait_queue_remove_thread t rest
  | (h :: g) :: rest =>
      if h =? t then match g with [] => rest | _ => g :: rest end
      else if bool_decide (t ∈ g) then (h :: filter (fun x => x <> t) g) :: rest
      else (h :: g) :: wait_queue_remove_thread t rest
  end.

Definition wait_queue_peek (q : wait_queue_t) : option Z :=
  match heads q with (h :: _) :: _ => Some h | _ => None end.

Definition wait_queue_is_empty (q : wait_queue_t) : bool := count q =? 0.

(** ** Operations under the thread lock *)

Definition prio (k : kernel) (t : Z) : Z :=
  match threads k !! t with Some th => effec_priority th | None => 0 end.

Definition wait_queue_blocked_priority (w : Z) (k : kernel) : Z :=
  match queues k !! w with
  | Some q => match wait_queue_peek q with Some t => prio k t | None => -1 end
  | None => -1
  end.

(** [None] stands for the use of a queue or thread that does not exist. *)
Definition wait_queue_dequeue_thread_internal (w t : Z) (wait_queue_error : zx_status_t) (k : kernel)
    : option kernel :=
  q ← queues k !! w;
  th ← threads k !! t;
  Some (with_thread t {| state := state th; effec_priority := effec_priority th; signals := signals th;
                         interruptable := interruptable th; blocked_status := wait_queue_error;
                         blocking_wait_queue := None |}
          (with_queue w {| count := count q - 1; heads := wait_queue_remove_thread t (heads q) |} k)).

(** [sched_unblock], as far as the queues see it. *)
Definition sched_unblock (t : Z) (k : kernel) : option kernel :=
  th ← threads k !! t;
  Some {| threads := <[t := {| state := THREAD_READY; effec_priority := effec_priority th;
                               signals := signals th; interruptable := interruptable th;
                               blocked_status := blocked_status th;
                               blocking_wait_queue := blocking_wait_queue th |}]> (threads k);
          queues := queues k; ready := ready k ++ [t] |}.

(** [wait_queue_block_etc_pre] for thread [t] at time [now]. *)
Definition wait_queue_block_etc_pre (w t : Z) (deadline now signal_mask : Z) (reason : ResourceOwnership)
    (k : kernel) : option (zx_status_t * kernel) :=
  q ← queues k !! w;
  th ← threads k !! t;
  if negb (deadline =? ZX_TIME_INFINITE) && (deadline <=? now) then Some (ZX_ERR_TIMED_OUT, k)
  else
    let pending := signals th .&~ signal_mask in
    if interruptable th && nz pending && has (signals th) THREAD_SIGNAL_KILL
    then Some (ZX_ERR_INTERNAL_INTR_KILLED, k)
    else if interruptable th && nz pending && has (signals th) THREAD_SIGNAL_SUSPEND
    then Some (ZX_ERR_INTERNAL_INTR_RETRY, k)
    else
      Some (ZX_OK,
            with_thread t {| state := match reason with Normal => THREAD_BLOCKED | Reader => THREAD_BLOCKED_READ_LOCK end;
                             effec_priority := effec_priority th; signals := signals th;
                             interruptable := interruptable th; blocked_status := ZX_OK;
                             blocking_wait_queue := Some w |}
              (with_queue w {| count := count q + 1; heads := wait_queue_insert (prio k) t (heads q) |} k)).

(** The number of threads woken. *)
Definition wait_queue_wake_one (w : Z) (wait_queue_error : zx_status_t) (k : kernel)
    : option (Z * kernel) :=
  q ← queues k !! w;
  match wait_queue_peek q with
  | None => Some (0, k)
  | Some t =>
      k ← wait_queue_dequeue_thread_internal w t wait_queue_error k;
      k ← sched_unblock t k;
      Some (1, k)
  end.

Definition wait_queue_dequeue_one (w : Z) (wait_queue_error : zx_status_t) (k : kernel)
    : option (option Z * kernel) :=
  q ← queues k !! w;
  match wait_queue_peek q with
  | None => Some (None, k)
  | Some t => k ← wait_queue_dequeue_thread_internal w t wait_queue_error k; Some (Some t, k)
  end.

(** The loop of [wait_queue_wake_all]: the threads taken off, in order. *)
Fixpoint drain_queue (fuel : nat) (w : Z) (wait_queue_error : zx_status_t) (k : kernel)
    : option (list Z * kernel) :=
  match fuel with
  | O => None
  | S fuel =>
      q ← queues k !! w;
      match wait_queue_peek q with
      | None => Some ([], k)
      | Some t =>
          k ← wait_queue_dequeue_thread_internal w t wait_queue_error k;
          '(ts, k) ← drain_queue fuel w wait_queue_error k;
          Some (t :: ts, k)
      end
  end.

(** [sched_unblock_list]. *)
Fixpoint sched_unblock_list (ts : list Z) (k : kernel) : option kernel :=
  match ts with
  | [] => Some k
  | t :: ts => k ← sched_unblock t k; sched_unblock_list ts k
  end.

Definition wait_queue_wake_all (w : Z) (wait_queue_error : zx_status_t) (k : kernel)
    : option (Z * kernel) :=
  q ← queues k !! w;
  if count q =? 0 then Some (0, k)
  else
    '(ts, k) ← drain_queue (S (Z.to_nat (count q))) w wait_queue_error k;
    k ← sched_unblock_list ts k;
    Some (zlen ts, k).

Definition is_blocked (s : thread_state) : bool :=
  match s with THREAD_BLOCKED | THREAD_BLOCKED_READ_LOCK => true | _ => false end.

Definition wait_queue_unblock_thread (t : Z) (wait_queue_error : zx_status_t) (k : kernel)
    : option (zx_status_t * kernel) :=
  th ← threads k !! t;
  if negb (is_blocked (state th)) then Some (ZX_ERR_BAD_STATE, k)
  else
    w ← blocking_wait_queue th;
    k ← wait_queue_dequeue_thread_internal w t wait_queue_error k;
    k ← sched_unblock t k;
    Some (ZX_OK, k).

Definition wait_queue_move_thread (source dest t : Z) (k : kernel) : option kernel :=
  sq ← queues k !! source;
  th ← threads k !! t;
  let k := with_queue source {| count := count sq - 1; heads := wait_queue_remove_thread t (heads sq) |} k in
  dq ← queues k !! dest;
  let k := with_queue dest {| count := count dq + 1; heads := wait_queue_insert (prio k) t (heads dq) |} k in
  Some (with_thread t {| state := state th; effec_priority := effec_priority th; signals := signals th;
                         interruptable := interruptable th; blocked_status := blocked_status th;
                         blocking_wait_queue := Some dest |} k).

(** The thread's effective priority becomes [new_prio] and its queue is put back
    in order; [wait_queue_priority_changed] on a queue without an owner. *)
Definition wait_queue_priority_changed (t new_prio : Z) (k : kernel) : option kernel :=
  th ← threads k !! t;
  let k := with_thread t {| state := state th; effec_priority := new_prio; signals := signals th;
                            interruptable := interruptable th; blocked_status := blocked_status th;
                            blocking_wait_queue := blocking_wait_queue th |} k in
  w ← blocking_wait_queue th;
  q ← queues k !! w;
  Some (with_queue w {| count := count q;
                        heads := wait_queue_insert (prio k) t (wait_queue_remove_thread t (heads q)) |} k).

(** [wait_queue_destroy] panics on a queue with waiters. *)
Definition wait_queue_destroy (w : Z) (k : kernel) : option kernel :=
  q ← queues k !! w;
  if negb (count q =? 0) then None
  else Some {| threads := threads k; queues := delete w (queues k); ready := ready k |}.

End WaitQueue.
