(* ===== verification/WaitQueueFacts.v ===== *)
(** * Correctness of wait queues

    The grouped queue refines a list kept in priority order with ties in arrival
    order; the threads in a queue are exactly those marked as blocked on it; and
    every operation keeps both. *)

From Stdlib Require Import Sorting.Sorted.
From S2P Require Import Prelude Zx WaitQueue.
Import WaitQueue.

(** ** The queue structure *)

Section Structure.
Context (pri : Z -> Z).

(** The reference: a list in priority order, new threads behind those of at
    least their priority. *)
Fixpoint ins (t : Z) (l : list Z) : list Z :=
  match l with
  | [] => [t]
  | x :: r => if pri t >? pri x then t :: x :: r else x :: ins t r
  end.

Definition group_ok (g : list Z) : Prop :=
  g <> [] /\ Forall (fun t => pri t = group_pri pri g) g.

Record gs_ok (gs : list (list Z)) : Prop := {
  gs_group : Forall group_ok gs;
  gs_sorted : StronglySorted (fun a b => group_pri pri b < group_pri pri a) gs;
}.

Lemma gs_ok_nil : gs_ok [].
Proof. split; constructor. Qed.

Lemma gs_ok_cons g gs :
  gs_ok (g :: gs) <->
  group_ok g /\ Forall (fun b => group_pri pri b < group_pri pri g) gs /\ gs_ok gs.
Proof.
  split.
  - intros [H1 H2]. apply Forall_cons in H1 as [Hg H1]. inversion H2; subst. by split_and!.
  - intros (Hg & Hl & [H1 H2]). split; by constructor.
Qed.

Lemma group_pri_elem g x : group_ok g -> x ∈ g -> pri x = group_pri pri g.
Proof. intros [_ H] Hx. rewrite Forall_forall in H. by apply H. Qed.

Lemma group_pri_app g l : g <> [] -> group_pri pri (g ++ l) = group_pri pri g.
Proof. by destruct g. Qed.

(** Everything behind a group has a lower priority. *)
Lemma flat_lower p gs :
  gs_ok gs -> Forall (fun b => group_pri pri b < p) gs -> Forall (fun x => pri x < p) (concat gs).
Proof.
  intros Hok Hl. induction gs as [|g gs IH]; simpl; [constructor|].
  apply gs_ok_cons in Hok as (Hg & _ & Hok). apply Forall_cons in Hl as [Hp Hl].
  apply Forall_app. split; [|by apply IH].
  apply Forall_forall. intros x Hx. rewrite (group_pri_elem g x) by done. done.
Qed.

Lemma ins_pass t l k : Forall (fun x => pri t <= pri x) l -> ins t (l ++ k) = l ++ ins t k.
Proof.
  induction 1 as [|x l Hx _ IH]; simpl; [done|].
  destruct (Z.gtb_spec (pri t) (pri x)); [lia|]. by rewrite IH.
Qed.

Lemma ins_front t l : Forall (fun x => pri x < pri t) l -> ins t l = t :: l.
Proof. destruct 1 as [|x l Hx _]; simpl; [done|]. destruct (Z.gtb_spec (pri t) (pri x)); [done|lia]. Qed.

Lemma group_pass t g : group_ok g -> pri t <= group_pri pri g -> Forall (fun x => pri t <= pri x) g.
Proof. intros Hg Hp. apply Forall_forall. intros x Hx. by rewrite (group_pri_elem g x). Qed.

Lemma insert_flat t gs : gs_ok gs -> concat (wait_queue_insert pri t gs) = ins t (concat gs).
Proof.
  induction gs as [|g gs IH]; intros Hok; [done|]. simpl.
  pose proof Hok as (Hg & Hl & Hok')%gs_ok_cons.
  destruct (Z.gtb_spec (pri t) (group_pri pri g)) as [Hgt|Hle]; [|destruct (Z.eqb_spec (group_pri pri g) (pri t)) as [He|Hne]].
  - simpl. symmetry. apply (ins_front t (concat (g :: gs))). apply flat_lower; [done|].
    apply gs_ok_cons in Hok as (_ & _ & _). constructor; [done|].
    eapply Forall_impl; [exact Hl | simpl; lia].
  - simpl. rewrite ins_pass by (apply group_pass; (done || lia)). rewrite <- app_assoc. f_equal. simpl.
    symmetry. apply ins_front, flat_lower; [done|]. eapply Forall_impl; [exact Hl | simpl; lia].
  - simpl. rewrite ins_pass by (apply group_pass; (done || lia)). by rewrite IH.
Qed.

Lemma insert_ok t gs : gs_ok gs -> gs_ok (wait_queue_insert pri t gs).
Proof.
  assert (group_ok [t]) as Ht by (split; [done | by repeat constructor]).
  assert (forall p gs, gs_ok gs -> pri t < p -> Forall (fun b => group_pri pri b < p) gs ->
            Forall (fun b => group_pri pri b < p) (wait_queue_insert pri t gs)) as Hlow.
  { intros p gs'. induction gs' as [|g gs' IH]; intros Hok Hp Hl; simpl; [by repeat constructor|].
    apply Forall_cons in Hl as [Hg Hl]. apply gs_ok_cons in Hok as ([Hne _] & _ & Hok).
    destruct (pri t >? _); [by repeat constructor|]. destruct (_ =? _); constructor; try done.
    - by rewrite group_pri_app.
    - by apply IH. }
  induction gs as [|g gs IH]; intros Hok; simpl.
  { apply gs_ok_cons. split_and!; [done | constructor | apply gs_ok_nil]. }
  pose proof Hok as (Hg & Hl & Hok')%gs_ok_cons.
  destruct (Z.gtb_spec (pri t) (group_pri pri g)) as [Hgt|Hle]; [|destruct (Z.eqb_spec (group_pri pri g) (pri t)) as [He|Hne]].
  - apply gs_ok_cons. split_and!; [done | | done]. constructor; [done|].
    eapply Forall_impl; [exact Hl | simpl; lia].
  - destruct Hg as [Hne Hg]. apply gs_ok_cons. split_and!; [|by rewrite group_pri_app | done].
    split; [by destruct g|]. rewrite group_pri_app by done. apply Forall_app. split; [done|].
    by repeat constructor.
  - apply gs_ok_cons. split_and!; [done | | by apply IH]. apply Hlow; [done | lia | done].
Qed.

Lemma remove_flat t gs :
  Forall (fun g => g <> []) gs -> NoDup (concat gs) ->
  concat (wait_queue_remove_thread t gs) = filter (fun x => x <> t) (concat gs).
Proof.
  induction gs as [|[|h g] gs IH]; intros Hne Hnd; [done| |].
  { apply Forall_cons in Hne as [? _]. done. }
  apply Forall_cons in Hne as [_ Hne]. simpl in Hnd. apply NoDup_cons in Hnd as [Hni Hnd].
  pose proof Hnd as (Hg & Hd & Hnd')%NoDup_app. simpl.
  destruct (Z.eqb_spec h t) as [->|Hht].
  - rewrite filter_cons_False by (intros HF; by apply HF). rewrite filter_ne_id by done. by destruct g.
  - rewrite filter_cons_True by done. destruct (decide (t ∈ g)) as [Hin|Hin].
    + rewrite bool_decide_eq_true_2 by done. simpl. rewrite filter_app. f_equal. f_equal.
      rewrite (filter_ne_id t (concat gs)); [done|]. by apply Hd.
    + rewrite bool_decide_eq_false_2 by done. simpl. rewrite filter_app, filter_ne_id by done.
      by rewrite IH.
Qed.

Lemma remove_head_pri t gs g :
  gs_ok gs -> NoDup (concat gs) -> g ∈ wait_queue_remove_thread t gs ->
  exists g', g' ∈ gs /\ group_pri pri g = group_pri pri g'.
Proof.
  induction gs as [|[|h g0] gs IH]; intros Hok Hnd Hg; simpl in Hg; [by apply not_elem_of_nil in Hg| |].
  { apply gs_ok_cons in Hok as ([? _] & _). done. }
  pose proof Hok as ((_ & Hp) & Hl & Hok')%gs_ok_cons. simpl in Hnd. apply NoDup_cons in Hnd as [Hni Hnd].
  apply NoDup_app in Hnd as (Hg0 & _ & Hnd').
  destruct (Z.eqb_spec h t) as [->|Hht].
  - destruct g0 as [|h2 g0]; [exists g; split; [by apply list_elem_of_further | done]|].
    apply elem_of_cons in Hg as [->|Hg]; [|exists g; split; [by apply list_elem_of_further | done]].
    eexists. split; [apply list_elem_of_here|]. simpl. apply Forall_cons in Hp as [_ Hp].
    by apply Forall_cons in Hp as [Hp _].
  - destruct (bool_decide (t ∈ g0)).
    + apply elem_of_cons in Hg as [->|Hg]; [|exists g; split; [by apply list_elem_of_further | done]].
      eexists. split; [apply list_elem_of_here | done].
    + apply elem_of_cons in Hg as [->|Hg]; [eexists; split; [apply list_elem_of_here | done]|].
      destruct (IH Hok' Hnd' Hg) as (g' & Hg' & E). exists g'. split; [by apply list_elem_of_further | done].
Qed.

Lemma remove_ok t gs : gs_ok gs -> NoDup (concat gs) -> gs_ok (wait_queue_remove_thread t gs).
Proof.
  induction gs as [|[|h g] gs IH]; intros Hok Hnd; simpl; [done| |].
  { apply gs_ok_cons in Hok as ([? _] & _). done. }
  pose proof Hok as ((_ & Hp) & Hl & Hok')%gs_ok_cons. simpl in Hnd. apply NoDup_cons in Hnd as [Hni Hnd].
  apply NoDup_app in Hnd as (Hg0 & _ & Hnd'). apply Forall_cons in Hp as [_ Hp]. simpl in Hp, Hl.
  destruct (Z.eqb_spec h t) as [->|Hht].
  - destruct g as [|h2 g]; [done|]. pose proof Hp as [Hh2 _]%Forall_cons.
    apply gs_ok_cons. simpl. rewrite Hh2. split_and!; try done. split; [done|]. simpl. by rewrite Hh2.
  - destruct (bool_decide (t ∈ g)).
    + apply gs_ok_cons. split_and!; try done. split; [done|]. constructor; [done|].
      simpl. rewrite Forall_forall in *. intros x [_ Hx]%list_elem_of_filter. by apply Hp.
    + apply gs_ok_cons. split_and!; [split; [done | by constructor] | | by apply IH].
      apply Forall_forall. intros g' Hg'. destruct (remove_head_pri _ _ _ Hok' Hnd' Hg') as (g2 & Hg2 & ->).
      rewrite Forall_forall in Hl. by apply Hl.
Qed.

(** In priority order. *)
Lemma flat_sorted gs : gs_ok gs -> StronglySorted (fun a b => pri b <= pri a) (concat gs).
Proof.
  induction gs as [|g gs IH]; intros Hok; simpl; [constructor|].
  pose proof Hok as (Hg & Hl & Hok')%gs_ok_cons. specialize (IH Hok').
  pose proof (flat_lower _ _ Hok' Hl) as Hlow.
  assert (forall x y, x ∈ g -> y ∈ g -> pri x = pri y) as Hsame
    by (intros x y Hx Hy; by rewrite (group_pri_elem g x), (group_pri_elem g y)).
  assert (forall x, x ∈ g -> pri x = group_pri pri g) as Hgp by (intros x; by apply group_pri_elem).
  generalize dependent (group_pri pri g). intros p _ Hlow Hgp. clear Hg Hok.
  induction g as [|x g IHg]; simpl; [done|].
  constructor.
  - apply IHg; intros; [apply Hsame; by apply list_elem_of_further | apply Hgp; by apply list_elem_of_further].
  - apply Forall_app. split.
    + apply Forall_forall. intros y Hy. rewrite (Hsame x y); [done | apply list_elem_of_here | by apply list_elem_of_further].
    + rewrite (Hgp x) by apply list_elem_of_here. eapply Forall_impl; [exact Hlow | simpl; lia].
Qed.

Lemma ins_perm t l : ins t l ≡ₚ t :: l.
Proof.
  induction l as [|x l IH]; simpl; [done|]. destruct (pri t >? pri x); [done|].
  rewrite IH. apply Permutation_swap.
Qed.

Lemma ins_split t l :
  StronglySorted (fun a b => pri b <= pri a) l ->
  exists hi lo, l = hi ++ lo /\ ins t l = hi ++ t :: lo /\
    Forall (fun x => pri t <= pri x) hi /\ Forall (fun x => pri x < pri t) lo.
Proof.
  induction 1 as [|x l Hs (hi & lo & El & Ei & Hhi & Hlo) Hx]; simpl; [by exists [], []|].
  rewrite Ei. destruct (Z.gtb_spec (pri t) (pri x)).
  - exists [], (x :: l). split_and!; try done. constructor; [lia|].
    eapply Forall_impl; [exact Hx|]. simpl. lia.
  - exists (x :: hi), lo. rewrite El. split_and!; try done. by constructor.
Qed.

End Structure.

Lemma insert_ext pri pri' t gs :
  (forall x, x ∈ t :: concat gs -> pri' x = pri x) -> Forall (fun g => g <> []) gs ->
  wait_queue_insert pri' t gs = wait_queue_insert pri t gs.
Proof.
  intros H. induction 1 as [|g gs Hne _ IH]; simpl; [done|].
  assert (group_pri pri' g = group_pri pri g) as ->.
  { destruct g as [|h g]; [done|]. simpl. apply H. apply list_elem_of_further. simpl. apply list_elem_of_here. }
  rewrite (H t) by apply list_elem_of_here. rewrite IH; [done|].
  intros x Hx. apply H. apply elem_of_cons in Hx as [->|Hx]; [apply list_elem_of_here|].
  apply list_elem_of_further. simpl. apply elem_of_app. by right.
Qed.

Lemma ins_ext pri pri' t l : (forall x, pri' x = pri x) -> ins pri' t l = ins pri t l.
Proof. intros H. induction l as [|x l IH]; simpl; [done|]. by rewrite !H, IH. Qed.

Lemma gs_ok_ext pri pri' gs :
  (forall x, x ∈ concat gs -> pri' x = pri x) -> gs_ok pri gs -> gs_ok pri' gs.
Proof.
  intros H Hok. induction gs as [|g gs IH]; [apply gs_ok_nil|].
  apply gs_ok_cons in Hok as ((Hne & Hg) & Hl & Hok).
  assert (forall g', g' ∈ g :: gs -> g' <> [] -> group_pri pri' g' = group_pri pri g') as Hgp.
  { intros [|h g'] Hin Hne'; [done|]. simpl. apply H. apply list_elem_of_In, in_concat. exists (h :: g').
    split; [by apply list_elem_of_In | by left]. }
  assert (forall x, x ∈ g -> pri' x = pri x) as Hpx.
  { intros x Hx. apply H. simpl. apply elem_of_app. by left. }
  apply gs_ok_cons. rewrite (Hgp g) by (apply list_elem_of_here || done). split_and!.
  - split; [done|]. rewrite (Hgp g) by (apply list_elem_of_here || done).
    apply Forall_forall. intros x Hx. rewrite Hpx by done. rewrite Forall_forall in Hg. by apply Hg.
  - apply Forall_forall. intros g' Hg'. rewrite Forall_forall in Hl. specialize (Hl g' Hg').
    destruct Hok as [Hgs _]. rewrite Forall_forall in Hgs. destruct (Hgs g' Hg') as [Hne' _].
    rewrite Hgp; [done | by apply list_elem_of_further | done].
  - apply IH; [|done]. intros x Hx. apply H. simpl. apply elem_of_app. by right.
Qed.

Lemma gs_ok_nonempty pri gs : gs_ok pri gs -> Forall (fun g => g <> []) gs.
Proof. intros [H _]. eapply Forall_impl; [exact H | by intros g []]. Qed.

Lemma peek_flat q pri : gs_ok pri (heads q) -> wait_queue_peek q = head (concat (heads q)).
Proof.
  intros Hok. unfold wait_queue_peek. destruct (heads q) as [|[|h g] gs]; [done| |done].
  apply gs_ok_cons in Hok as ([? _] & _). done.
Qed.

(** ** Threads and queues *)

(** [L] are threads taken off a queue and not yet made ready. *)
Record k_inv (L : list Z) (k : kernel) : Prop := {
  ki_queue : forall w q, queues k !! w = Some q ->
    gs_ok (prio k) (heads q) /\ NoDup (concat (heads q)) /\ count q = zlen (concat (heads q));
  ki_member : forall w q t, queues k !! w = Some q ->
    t ∈ concat (heads q) <-> exists th, threads k !! t = Some th /\ blocking_wait_queue th = Some w;
  ki_blocked : forall t th, threads k !! t = Some th ->
    match blocking_wait_queue th with
    | Some w => is_blocked (state th) = true /\ is_Some (queues k !! w) /\ t ∉ L
    | None => t ∉ L -> is_blocked (state th) = false
    end;
}.

Lemma k_inv_perm L L' k : L ≡ₚ L' -> k_inv L k -> k_inv L' k.
Proof.
  intros HP [H1 H2 H3]. split; try done. intros t th Ht. specialize (H3 t th Ht).
  destruct (blocking_wait_queue th); [|by rewrite <- HP]. by rewrite <- HP.
Qed.

(** The threads waiting on a queue, in the order they will be woken. *)
Definition waiters (w : Z) (k : kernel) : list Z :=
  match queues k !! w with Some q => concat (heads q) | None => [] end.

Lemma prio_with_thread t th th0 k x :
  threads k !! t = Some th0 -> effec_priority th = effec_priority th0 ->
  prio (with_thread t th k) x = prio k x.
Proof.
  intros H0 He. unfold prio, with_thread. simpl. destruct (decide (t = x)) as [->|Hne].
  - by rewrite lookup_insert_eq, H0.
  - by rewrite lookup_insert_ne.
Qed.

Lemma filter_ne_perm t (l : list Z) : NoDup l -> t ∈ l -> l ≡ₚ t :: filter (fun x => x <> t) l.
Proof.
  intros Hnd Hin. apply list_elem_of_split in Hin as (l1 & l2 & ->).
  apply NoDup_app in Hnd as (_ & Hd & Hnd2). apply NoDup_cons in Hnd2 as [Hni _].
  rewrite filter_app, filter_cons_False by (intros HF; by apply HF).
  rewrite !filter_ne_id; [by rewrite Permutation_middle | done|].
  intros HF. apply (Hd _ HF). apply list_elem_of_here.
Qed.

(** Taking a thread off its queue. *)
Lemma dequeue_inv L w t e k q th :
  k_inv L k -> queues k !! w = Some q -> threads k !! t = Some th -> blocking_wait_queue th = Some w ->
  exists k', wait_queue_dequeue_thread_internal w t e k = Some k' /\ k_inv (t :: L) k' /\
    waiters w k' = filter (fun x => x <> t) (waiters w k) /\
    (forall w', w' <> w -> waiters w' k' = waiters w' k) /\ ready k' = ready k /\
    is_Some (queues k' !! w) /\
    threads k' = <[t := {| state := state th; effec_priority := effec_priority th; signals := signals th;
                           interruptable := interruptable th; blocked_status := e;
                           blocking_wait_queue := None |}]> (threads k).
Proof.
  intros Hinv Hq Ht Hb. unfold wait_queue_dequeue_thread_internal. rewrite Hq, Ht. cbn [mbind option_bind].
  set (th' := mkThread _ _ _ _ _ _). set (q' := mkWaitQueue _ _).
  set (k' := with_thread t th' (with_queue w q' k)). exists k'. split; [done|].
  destruct (ki_queue _ _ Hinv w q Hq) as (Hok & Hnd & Hc).
  assert (t ∈ concat (heads q)) as Hin by (apply (ki_member _ _ Hinv w q t Hq); by exists th).
  assert (forall x, prio k' x = prio k x) as Hp by (intros x; by apply (prio_with_thread t th' th (with_queue w q' k))).
  pose proof (remove_flat t (heads q) (gs_ok_nonempty _ _ Hok) Hnd) as Hfl.
  assert (queues k' !! w = Some q') as Hqw by apply lookup_insert_eq.
  assert (forall w', w' <> w -> queues k' !! w' = queues k !! w') as Hqo
    by (intros w' Hw'; by apply lookup_insert_ne).
  split_and!; try done.
  - split.
    + intros w' q0 Hq0. destruct (decide (w' = w)) as [->|Hne].
      * rewrite Hqw in Hq0. simplify_eq. simpl. rewrite Hfl. split_and!.
        -- eapply gs_ok_ext; [|by apply remove_ok]. by intros.
        -- by apply NoDup_filter.
        -- rewrite zlen_filter_ne by done. lia.
      * rewrite Hqo in Hq0 by done. destruct (ki_queue _ _ Hinv w' q0 Hq0) as (? & ? & ?).
        split_and!; try done. eapply gs_ok_ext; [|done]. by intros.
    + intros w' q0 x Hq0. destruct (decide (x = t)) as [->|Hxt].
      { simpl. rewrite lookup_insert_eq. split.
        - intros Hx. destruct (decide (w' = w)) as [->|Hne].
          + rewrite Hqw in Hq0. simplify_eq. simpl in Hx. rewrite Hfl in Hx.
            apply list_elem_of_filter in Hx as [Hx _]. by destruct Hx.
          + rewrite Hqo in Hq0 by done. apply (ki_member _ _ Hinv w' q0 t Hq0) in Hx as (th0 & Hth0 & Hb0).
            congruence.
        - intros (th0 & Hth0 & Hb0). by simplify_eq. }
      simpl. rewrite lookup_insert_ne by done. destruct (decide (w' = w)) as [->|Hne].
      * rewrite Hqw in Hq0. simplify_eq. simpl. rewrite Hfl, list_elem_of_filter.
        rewrite <- (ki_member _ _ Hinv w q x Hq). tauto.
      * rewrite Hqo in Hq0 by done. apply (ki_member _ _ Hinv w' q0 x Hq0).
    + intros x th0 Hx. simpl in Hx. destruct (decide (x = t)) as [->|Hxt].
      * rewrite lookup_insert_eq in Hx. simplify_eq. simpl. intros Hni. destruct Hni. apply list_elem_of_here.
      * rewrite lookup_insert_ne in Hx by done. pose proof (ki_blocked _ _ Hinv x th0 Hx) as Hkb.
        destruct (blocking_wait_queue th0) as [w0|].
        -- destruct Hkb as (H1 & H2 & H3). split_and!; [done | |by apply not_elem_of_cons].
           destruct (decide (w0 = w)) as [->|Hne]; [by rewrite Hqw | by rewrite Hqo].
        -- intros Hni. apply Hkb. apply not_elem_of_cons in Hni. tauto.
  - unfold waiters. rewrite Hqw, Hq. exact Hfl.
  - intros w' Hw'. unfold waiters. by rewrite Hqo.
Qed.

(** Making a thread ready. *)
Lemma unblock_inv L t k th :
  k_inv (t :: L) k -> threads k !! t = Some th -> blocking_wait_queue th = None ->
  exists k', sched_unblock t k = Some k' /\ k_inv L k' /\ queues k' = queues k /\
    ready k' = ready k ++ [t] /\
    (forall x, x <> t -> threads k' !! x = threads k !! x) /\
    exists th', threads k' !! t = Some th' /\ blocked_status th' = blocked_status th /\
      state th' = THREAD_READY /\ blocking_wait_queue th' = None.
Proof.
  intros Hinv Ht Hb. unfold sched_unblock. rewrite Ht. cbn [mbind option_bind]. eexists. split; [done|].
  set (th' := mkThread _ _ _ _ _ _).
  assert (forall x, prio {| threads := <[t := th']> (threads k); queues := queues k; ready := ready k ++ [t] |} x = prio k x) as Hp.
  { intros x. unfold prio. simpl. destruct (decide (t = x)) as [->|];
      [by rewrite lookup_insert_eq, Ht | by rewrite lookup_insert_ne]. }
  split_and!; try done.
  - split; simpl.
    + intros w q Hq. destruct (ki_queue _ _ Hinv w q Hq) as (? & ? & ?). split_and!; try done.
      eapply gs_ok_ext; [|done]. intros x _. apply Hp.
    + intros w q x Hq. rewrite (ki_member _ _ Hinv w q x Hq). destruct (decide (t = x)) as [<-|Hne].
      * rewrite lookup_insert_eq. split; intros (th0 & Hth0 & Hb0); simplify_eq; simpl in *; congruence.
      * by rewrite lookup_insert_ne.
    + intros x th0 Hx. destruct (decide (t = x)) as [<-|Hne].
      * rewrite lookup_insert_eq in Hx. simplify_eq. simpl. rewrite Hb. done.
      * rewrite lookup_insert_ne in Hx by done. pose proof (ki_blocked _ _ Hinv x th0 Hx) as Hkb.
        destruct (blocking_wait_queue th0).
        -- destruct Hkb as (? & ? & Hni). apply not_elem_of_cons in Hni as [_ ?]. by split_and!.
        -- intros Hni. apply Hkb. apply not_elem_of_cons. by split; [congruence|].
  - intros x Hx. simpl. by rewrite lookup_insert_ne.
  - exists th'. simpl. by rewrite lookup_insert_eq.
Qed.

Lemma waiters_nodup L w k : k_inv L k -> NoDup (waiters w k).
Proof.
  intros Hinv. unfold waiters. destruct (queues k !! w) as [q|] eqn:Hq; [|constructor].
  apply (ki_queue _ _ Hinv w q Hq).
Qed.

Lemma waiters_blocked L w k t :
  k_inv L k -> t ∈ waiters w k ->
  exists q th, queues k !! w = Some q /\ threads k !! t = Some th /\ blocking_wait_queue th = Some w.
Proof.
  intros Hinv Ht. unfold waiters in Ht. destruct (queues k !! w) as [q|] eqn:Hq; [|by apply not_elem_of_nil in Ht].
  apply (ki_member _ _ Hinv w q t Hq) in Ht as (th & ? & ?). by exists q, th.
Qed.

Lemma peek_waiters L w k q : k_inv L k -> queues k !! w = Some q -> wait_queue_peek q = head (waiters w k).
Proof.
  intros Hinv Hq. unfold waiters. rewrite Hq. eapply peek_flat. apply (ki_queue _ _ Hinv w q Hq).
Qed.

(** A thread taken off its queue and made ready with a status. *)
Lemma release_inv w t e k :
  k_inv [] k -> t ∈ waiters w k ->
  exists k1 k', wait_queue_dequeue_thread_internal w t e k = Some k1 /\ sched_unblock t k1 = Some k' /\
    k_inv [] k' /\ waiters w k' = filter (fun x => x <> t) (waiters w k) /\
    (forall w', w' <> w -> waiters w' k' = waiters w' k) /\ ready k' = ready k ++ [t] /\
    exists th', threads k' !! t = Some th' /\ blocked_status th' = e /\ state th' = THREAD_READY.
Proof.
  intros Hinv Ht. destruct (waiters_blocked _ _ _ _ Hinv Ht) as (q & th & Hq & Hth & Hb).
  destruct (dequeue_inv [] w t e k q th Hinv Hq Hth Hb) as (k1 & H1 & Hinv1 & Hw1 & Hwo & Hr1 & _ & Ht1).
  destruct (unblock_inv [] t k1 (mkThread (state th) (effec_priority th) (signals th) (interruptable th) e None))
    as (k' & H2 & Hinv2 & Hq2 & Hr2 & Hto & th' & Hth' & Hbs & Hst & _);
    [done | by rewrite Ht1, lookup_insert_eq | done|].
  exists k1, k'. split_and!; try done.
  - unfold waiters in *. by rewrite Hq2.
  - intros w' Hw'. rewrite <- (Hwo w' Hw'). unfold waiters. by rewrite Hq2.
  - by rewrite Hr2, Hr1.
  - by exists th'.
Qed.

Lemma filter_head t (l : list Z) : NoDup (t :: l) -> filter (fun x => x <> t) (t :: l) = l.
Proof.
  intros Hnd. apply NoDup_cons in Hnd as [Hni _].
  rewrite filter_cons_False by (intros HF; by apply HF). by apply filter_ne_id.
Qed.

Lemma wake_one_spec w e k :
  k_inv [] k -> is_Some (queues k !! w) ->
  exists n k', wait_queue_wake_one w e k = Some (n, k') /\ k_inv [] k' /\
    match waiters w k with
    | [] => n = 0 /\ k' = k
    | t :: rest =>
        n = 1 /\ waiters w k' = rest /\ ready k' = ready k ++ [t] /\
        exists th', threads k' !! t = Some th' /\ blocked_status th' = e /\ state th' = THREAD_READY
    end.
Proof.
  intros Hinv [q Hq]. unfold wait_queue_wake_one. rewrite Hq. cbn [mbind option_bind].
  rewrite (peek_waiters [] w k q Hinv Hq). pose proof (waiters_nodup _ w _ Hinv) as Hnd.
  destruct (waiters w k) as [|t rest] eqn:Ew; simpl; [by eexists _, _|].
  destruct (release_inv w t e k Hinv) as (k1 & k' & -> & H2 & Hinv' & Hw & _ & Hr & Hth);
    [rewrite Ew; apply list_elem_of_here|].
  cbn [mbind option_bind]. rewrite H2. cbn [mbind option_bind]. eexists _, _. split; [done|].
  split_and!; try done. by rewrite Hw, Ew, filter_head.
Qed.

(** Draining a queue takes its threads in order. *)
Lemma drain_spec fuel L w e k :
  k_inv L k -> is_Some (queues k !! w) -> (length (waiters w k) < fuel)%nat ->
  exists k', drain_queue fuel w e k = Some (waiters w k, k') /\ k_inv (rev (waiters w k) ++ L) k' /\
    waiters w k' = [] /\ ready k' = ready k /\
    (forall w', w' <> w -> waiters w' k' = waiters w' k) /\
    (forall t, t ∈ waiters w k -> exists th', threads k' !! t = Some th' /\ blocked_status th' = e /\
       blocking_wait_queue th' = None) /\
    (forall t, t ∉ waiters w k -> threads k' !! t = threads k !! t).
Proof.
  revert L k. induction fuel as [|fuel IH]; intros L k Hinv [q Hq] Hf; [lia|]. simpl.
  rewrite Hq. cbn [mbind option_bind]. rewrite (peek_waiters L w k q Hinv Hq).
  pose proof (waiters_nodup _ w _ Hinv) as Hnd.
  destruct (waiters w k) as [|t rest] eqn:Ew; simpl.
  { exists k. split_and!; try done. intros t Ht. by apply not_elem_of_nil in Ht. }
  destruct (waiters_blocked L w k t Hinv) as (q' & th & Hq' & Hth & Hb); [rewrite Ew; apply list_elem_of_here|].
  destruct (dequeue_inv L w t e k q th Hinv Hq Hth Hb) as (k1 & -> & Hinv1 & Hw1 & Hwo & Hr1 & Hsome & Ht1).
  cbn [mbind option_bind]. rewrite Ew, filter_head in Hw1 by done.
  destruct (IH (t :: L) k1 Hinv1 Hsome) as (k' & HE & Hinv' & Hw' & Hr' & Hwo' & Hth' & Hto').
  { rewrite Hw1. simpl in Hf. lia. }
  rewrite HE, Hw1 in *. cbn [mbind option_bind]. exists k'. split; [done|].
  pose proof Hnd as [Hni _]%NoDup_cons. split_and!; try done.
  - by rewrite <- app_assoc.
  - by rewrite Hr', Hr1.
  - intros w' Hne. by rewrite Hwo', Hwo.
  - intros x Hx. apply elem_of_cons in Hx as [->|Hx]; [|by apply Hth'].
    rewrite Hto', Ht1, lookup_insert_eq by done. eexists. by split_and!.
  - intros x Hx. apply not_elem_of_cons in Hx as [Hxt Hx].
    rewrite Hto', Ht1 by done. by rewrite lookup_insert_ne.
Qed.

Lemma unblock_list_spec ts L k :
  k_inv (rev ts ++ L) k -> NoDup ts ->
  (forall t, t ∈ ts -> exists th, threads k !! t = Some th /\ blocking_wait_queue th = None) ->
  exists k', sched_unblock_list ts k = Some k' /\ k_inv L k' /\ queues k' = queues k /\
    ready k' = ready k ++ ts /\
    (forall t th, t ∈ ts -> threads k !! t = Some th -> exists th', threads k' !! t = Some th' /\
       blocked_status th' = blocked_status th /\ state th' = THREAD_READY) /\
    (forall t, t ∉ ts -> threads k' !! t = threads k !! t).
Proof.
  revert k. induction ts as [|t ts IH]; intros k Hinv Hnd Hth; simpl.
  { exists k. split_and!; try done; [by rewrite app_nil_r|]. intros t th Ht. by apply not_elem_of_nil in Ht. }
  apply NoDup_cons in Hnd as [Hni Hnd].
  destruct (Hth t) as (th & Ht & Hb); [apply list_elem_of_here|].
  destruct (unblock_inv (rev ts ++ L) t k th) as (k1 & -> & Hinv1 & Hq1 & Hr1 & Hto & th1 & Ht1 & Hbs & Hst & Hbn); try done.
  { simpl in Hinv. eapply k_inv_perm; [|exact Hinv]. rewrite <- app_assoc. simpl.
    symmetry. apply Permutation_middle. }
  cbn [mbind option_bind]. destruct (IH k1 Hinv1 Hnd) as (k' & HE & Hinv' & Hq' & Hr' & Hth' & Hto').
  { intros x Hx. rewrite Hto by congruence. apply Hth. by apply list_elem_of_further. }
  exists k'. split_and!; try done; try congruence.
  - rewrite Hr', Hr1, <- app_assoc. done.
  - intros x thx Hx Htx. apply elem_of_cons in Hx as [->|Hx].
    + rewrite Hto' by done. exists th1. simplify_eq. by split_and!.
    + apply Hth'; [done|]. rewrite Hto; [done | congruence].
  - intros x Hx. apply not_elem_of_cons in Hx as [? ?]. by rewrite Hto', Hto.
Qed.

Lemma wake_all_spec w e k :
  k_inv [] k -> is_Some (queues k !! w) ->
  exists k', wait_queue_wake_all w e k = Some (zlen (waiters w k), k') /\ k_inv [] k' /\
    waiters w k' = [] /\ ready k' = ready k ++ waiters w k /\
    (forall w', w' <> w -> waiters w' k' = waiters w' k) /\
    (forall t, t ∈ waiters w k -> exists th', threads k' !! t = Some th' /\ blocked_status th' = e /\
       state th' = THREAD_READY).
Proof.
  intros Hinv [q Hq]. unfold wait_queue_wake_all. rewrite Hq. cbn [mbind option_bind].
  destruct (ki_queue _ _ Hinv w q Hq) as (_ & Hnd & Hc).
  assert (waiters w k = concat (heads q)) as Ew by (unfold waiters; by rewrite Hq).
  destruct (Z.eqb_spec (count q) 0) as [Hz|Hz].
  { rewrite Hc in Hz. apply zlen_0 in Hz. rewrite Ew, Hz. exists k. rewrite app_nil_r.
    split_and!; try done; [congruence|]. intros t Ht. by apply not_elem_of_nil in Ht. }
  destruct (drain_spec (S (Z.to_nat (count q))) [] w e k Hinv) as (k1 & -> & Hinv1 & Hw1 & Hr1 & Hwo & Hth & Hto).
  { by rewrite Hq. }
  { rewrite Ew, Hc. unfold zlen. lia. }
  cbn [mbind option_bind].
  destruct (unblock_list_spec (waiters w k) [] k1) as (k' & -> & Hinv' & Hq' & Hr' & Hth' & Hto').
  { exact Hinv1. }
  { by rewrite Ew. }
  { intros t Ht. destruct (Hth t Ht) as (th & ? & _ & ?). by exists th. }
  cbn [mbind option_bind]. exists k'. split_and!; try done.
  - unfold waiters in *. by rewrite Hq'.
  - by rewrite Hr', Hr1.
  - intros w' Hw'. rewrite <- (Hwo w' Hw'). unfold waiters. by rewrite Hq'.
  - intros t Ht. destruct (Hth t Ht) as (th & Hth1 & Hbs & _).
    destruct (Hth' t th Ht Hth1) as (th' & ? & ? & ?). exists th'. split_and!; [done|congruence|done].
Qed.

(** Adding a thread that waits on nothing to a queue, with its new record. *)
Lemma enqueue_inv L w t th th' q k :
  k_inv L k -> (forall x, x ∈ L -> x = t) -> queues k !! w = Some q -> threads k !! t = Some th -> blocking_wait_queue th = None ->
  effec_priority th' = effec_priority th -> is_blocked (state th') = true -> blocking_wait_queue th' = Some w ->
  let k' := with_thread t th' (with_queue w {| count := count q + 1;
                                               heads := wait_queue_insert (prio k) t (heads q) |} k) in
  k_inv [] k' /\ waiters w k' = ins (prio k) t (waiters w k) /\
  (forall w', w' <> w -> waiters w' k' = waiters w' k).
Proof.
  intros Hinv HL Hq Ht Hb He Hst Hb' k'. destruct (ki_queue _ _ Hinv w q Hq) as (Hok & Hnd & Hc).
  pose proof (insert_flat (prio k) t (heads q) Hok) as Hfl.
  assert (t ∉ concat (heads q)) as Hni.
  { rewrite (ki_member _ _ Hinv w q t Hq). intros (th0 & ? & ?). congruence. }
  assert (forall x, prio k' x = prio k x) as Hp.
  { intros x. by apply (prio_with_thread t th' th (with_queue w _ k)). }
  set (q' := mkWaitQueue _ _) in k'.
  assert (queues k' !! w = Some q') as Hqw by apply lookup_insert_eq.
  assert (forall w', w' <> w -> queues k' !! w' = queues k !! w') as Hqo
    by (intros w' Hw'; by apply lookup_insert_ne).
  split_and!.
  - split.
    + intros w' q0 Hq0. destruct (decide (w' = w)) as [->|Hne].
      * rewrite Hqw in Hq0. simplify_eq. simpl. rewrite Hfl, ins_perm. split_and!.
        -- eapply gs_ok_ext; [|by apply insert_ok]. by intros.
        -- by apply NoDup_cons.
        -- rewrite zlen_cons, Hc. lia.
      * rewrite Hqo in Hq0 by done. destruct (ki_queue _ _ Hinv w' q0 Hq0) as (? & ? & ?).
        split_and!; try done. eapply gs_ok_ext; [|done]. by intros.
    + intros w' q0 x Hq0. simpl. destruct (decide (x = t)) as [->|Hxt].
      * rewrite lookup_insert_eq. destruct (decide (w' = w)) as [->|Hne].
        -- rewrite Hqw in Hq0. simplify_eq. simpl. rewrite Hfl, ins_perm. split; [by exists th'|].
           intros _. apply list_elem_of_here.
        -- rewrite Hqo in Hq0 by done. rewrite (ki_member _ _ Hinv w' q0 t Hq0).
           split; intros (th0 & ? & ?); congruence.
      * rewrite lookup_insert_ne by done. destruct (decide (w' = w)) as [->|Hne].
        -- rewrite Hqw in Hq0. simplify_eq. simpl. rewrite Hfl, ins_perm, elem_of_cons.
           rewrite (ki_member _ _ Hinv w q x Hq). split; [intros [?|?]; [congruence | done] | by right].
        -- rewrite Hqo in Hq0 by done. apply (ki_member _ _ Hinv w' q0 x Hq0).
    + intros x th0 Hx. simpl in Hx. destruct (decide (x = t)) as [->|Hxt].
      * rewrite lookup_insert_eq in Hx. simplify_eq. rewrite Hb'. split_and!; [done | by rewrite Hqw | apply not_elem_of_nil].
      * rewrite lookup_insert_ne in Hx by done. pose proof (ki_blocked _ _ Hinv x th0 Hx) as Hkb.
        destruct (blocking_wait_queue th0) as [w0|]; [|intros _; apply Hkb; intros Hx'; by apply Hxt, HL].
        destruct Hkb as (? & ? & ?). split_and!; [done | | apply not_elem_of_nil].
        destruct (decide (w0 = w)) as [->|Hne]; [by rewrite Hqw | by rewrite Hqo].
  - unfold waiters. rewrite Hqw, Hq. exact Hfl.
  - intros w' Hw'. unfold waiters. by rewrite Hqo.
Qed.

Lemma block_spec w t deadline now mask reason k q th :
  k_inv [] k -> queues k !! w = Some q -> threads k !! t = Some th -> blocking_wait_queue th = None ->
  exists st k', wait_queue_block_etc_pre w t deadline now mask reason k = Some (st, k') /\ k_inv [] k' /\
    (st = ZX_OK -> waiters w k' = ins (prio k) t (waiters w k)) /\ (st <> ZX_OK -> k' = k).
Proof.
  intros Hinv Hq Ht Hb. unfold wait_queue_block_etc_pre. rewrite Hq, Ht. cbn [mbind option_bind].
  destruct (negb _ && _); [by eexists _, _|]. destruct (_ && _ && _); [by eexists _, _|].
  destruct (_ && _ && _); [by eexists _, _|]. eexists _, _. split; [done|].
  match goal with |- context [with_thread t ?th' _] =>
    destruct (enqueue_inv [] w t th th' q k) as (Hi & Hw & _); try done end.
  { by intros x Hx%elem_of_nil. }
  { by destruct reason. }
Qed.

Lemma unblock_thread_spec t e k th :
  k_inv [] k -> threads k !! t = Some th ->
  exists st k', wait_queue_unblock_thread t e k = Some (st, k') /\ k_inv [] k' /\
    match blocking_wait_queue th with
    | None => st = ZX_ERR_BAD_STATE /\ k' = k
    | Some w => st = ZX_OK /\ waiters w k' = filter (fun x => x <> t) (waiters w k) /\
                ready k' = ready k ++ [t] /\
                exists th', threads k' !! t = Some th' /\ blocked_status th' = e /\ state th' = THREAD_READY
    end.
Proof.
  intros Hinv Ht. unfold wait_queue_unblock_thread. rewrite Ht. cbn [mbind option_bind].
  pose proof (ki_blocked _ _ Hinv t th Ht) as Hkb. destruct (blocking_wait_queue th) as [w|] eqn:Hb.
  - destruct Hkb as (Hs & [q Hq] & _). rewrite Hs. cbn [negb mbind option_bind].
    destruct (release_inv w t e k Hinv) as (k1 & k' & -> & H2 & Hi & Hw & _ & Hr & Hth).
    { unfold waiters. rewrite Hq. apply (ki_member _ _ Hinv w q t Hq). by exists th. }
    cbn [mbind option_bind]. rewrite H2. cbn [mbind option_bind]. eexists _, _. by split_and!.
  - rewrite Hkb by apply not_elem_of_nil. cbn [negb]. by eexists _, _.
Qed.

Lemma priority_changed_spec L t p k th w :
  k_inv L k -> threads k !! t = Some th -> blocking_wait_queue th = Some w ->
  exists k', wait_queue_priority_changed t p k = Some k' /\ k_inv L k' /\ prio k' t = p /\
    waiters w k' = ins (prio k') t (filter (fun x => x <> t) (waiters w k)).
Proof.
  intros Hinv Ht Hb. unfold wait_queue_priority_changed. rewrite Ht. cbn [mbind option_bind]. rewrite Hb.
  cbn [mbind option_bind]. pose proof (ki_blocked _ _ Hinv t th Ht) as Hkb. rewrite Hb in Hkb.
  destruct Hkb as (Hs & [q Hq] & HL). set (th' := mkThread _ _ _ _ _ _).
  set (k1 := with_thread t th' k). assert (queues k1 !! w = Some q) as -> by done. cbn [mbind option_bind].
  eexists. split; [done|]. destruct (ki_queue _ _ Hinv w q Hq) as (Hok & Hnd & Hc).
  pose proof (remove_flat t (heads q) (gs_ok_nonempty _ _ Hok) Hnd) as Hfl.
  assert (forall x, x <> t -> prio k1 x = prio k x) as Hpx
    by (intros x Hx; unfold prio; simpl; by rewrite lookup_insert_ne).
  assert (forall gs, gs_ok (prio k) gs -> t ∉ concat gs -> gs_ok (prio k1) gs) as Hext.
  { intros gs Hgs Hni. eapply gs_ok_ext; [|exact Hgs]. intros x Hx. apply Hpx. congruence. }
  assert (gs_ok (prio k1) (wait_queue_remove_thread t (heads q))) as Hok1.
  { apply Hext; [by apply remove_ok|]. rewrite Hfl. intros [HF _]%list_elem_of_filter. by apply HF. }
  assert (t ∈ concat (heads q)) as Hin by (apply (ki_member _ _ Hinv w q t Hq); by exists th).
  pose proof (insert_flat (prio k1) t _ Hok1) as Hfl1. rewrite Hfl in Hfl1.
  assert (ins (prio k1) t (filter (fun x => x <> t) (concat (heads q))) ≡ₚ concat (heads q)) as HP.
  { rewrite ins_perm. symmetry. by apply filter_ne_perm. }
  split_and!.
  - split.
    + intros w' q0 Hq0. simpl in Hq0. destruct (decide (w' = w)) as [->|Hne].
      * rewrite lookup_insert_eq in Hq0. simplify_eq. simpl. rewrite Hfl1. split_and!.
        -- by apply (insert_ok (prio k1)).
        -- by rewrite HP.
        -- unfold zlen. rewrite HP. exact Hc.
      * rewrite lookup_insert_ne in Hq0 by done. destruct (ki_queue _ _ Hinv w' q0 Hq0) as (? & ? & ?).
        split_and!; try done. apply Hext; [done|]. rewrite (ki_member _ _ Hinv w' q0 t Hq0).
        intros (th0 & ? & ?). congruence.
    + intros w' q0 x Hq0. simpl in *.
      assert ((exists th0, <[t := th']> (threads k) !! x = Some th0 /\ blocking_wait_queue th0 = Some w') <->
              exists th0, threads k !! x = Some th0 /\ blocking_wait_queue th0 = Some w') as ->.
      { destruct (decide (t = x)) as [<-|Hne]; [|by rewrite lookup_insert_ne].
        rewrite lookup_insert_eq. split; intros (th0 & ? & ?); simplify_eq; eexists; (split; [done|]); simpl in *; congruence. }
      destruct (decide (w' = w)) as [->|Hne].
      * rewrite lookup_insert_eq in Hq0. simplify_eq. simpl. rewrite Hfl1, HP. by apply ki_member with (L := L).
      * rewrite lookup_insert_ne in Hq0 by done. by apply ki_member with (L := L).
    + intros x th0 Hx. simpl in Hx. destruct (decide (t = x)) as [<-|Hne].
      * rewrite lookup_insert_eq in Hx. simplify_eq. simpl. split_and!; [done | | done].
        rewrite lookup_insert_eq. by eexists.
      * rewrite lookup_insert_ne in Hx by done. pose proof (ki_blocked _ _ Hinv x th0 Hx) as Hkb.
        destruct (blocking_wait_queue th0) as [w0|]; [|done]. destruct Hkb as (? & ? & ?). split_and!; try done.
        simpl. destruct (decide (w0 = w)) as [->|]; [rewrite lookup_insert_eq; by eexists | by rewrite lookup_insert_ne].
  - unfold prio. simpl. by rewrite lookup_insert_eq.
  - unfold waiters. simpl. rewrite lookup_insert_eq, Hq. exact Hfl1.
Qed.

Lemma move_thread_spec src dst t k th dq :
  k_inv [] k -> src <> dst -> threads k !! t = Some th -> blocking_wait_queue th = Some src ->
  queues k !! dst = Some dq ->
  exists k', wait_queue_move_thread src dst t k = Some k' /\ k_inv [] k' /\
    waiters src k' = filter (fun x => x <> t) (waiters src k) /\
    waiters dst k' = ins (prio k) t (waiters dst k) /\ ready k' = ready k.
Proof.
  intros Hinv Hne Ht Hb Hd. pose proof (ki_blocked _ _ Hinv t th Ht) as Hkb. rewrite Hb in Hkb.
  destruct Hkb as (Hs & [q Hq] & _).
  destruct (dequeue_inv [] src t (blocked_status th) k q th Hinv Hq Ht Hb)
    as (k1 & H1 & Hinv1 & Hw1 & Hwo & Hr1 & _ & Ht1).
  unfold wait_queue_dequeue_thread_internal in H1. rewrite Hq, Ht in H1. cbn [mbind option_bind] in H1.
  injection H1 as H1.
  assert (queues k1 !! dst = Some dq) as Hd1 by (subst k1; simpl; by rewrite lookup_insert_ne).
  assert (forall x, prio k1 x = prio k x) as Hp.
  { intros x. subst k1. by apply (prio_with_thread t _ th (with_queue src _ k)). }
  set (th' := mkThread (state th) (effec_priority th) (signals th) (interruptable th) (blocked_status th) (Some dst)).
  set (th0 := mkThread _ _ _ _ _ None) in Ht1.
  destruct (enqueue_inv [t] dst t th0 th' dq k1 Hinv1) as (Hi & Hwd & Hwo');
    [by intros x ->%list_elem_of_singleton | done | rewrite Ht1; apply lookup_insert_eq | done.. |].
  unfold wait_queue_move_thread. rewrite Hq, Ht. cbn [mbind option_bind].
  set (k0 := with_queue src _ k). assert (queues k0 !! dst = Some dq) as -> by (simpl; by rewrite lookup_insert_ne).
  cbn [mbind option_bind]. eexists. split; [reflexivity|]. fold th'.
  match type of Hi with k_inv [] ?x => match goal with |- k_inv [] ?y /\ _ => assert (y = x) as -> end end.
  { unfold with_thread, with_queue. simpl. rewrite Ht1, insert_insert_eq, Hr1.
    rewrite (insert_ext (prio k0) (prio k1)); [by subst k1 | intros x _; apply Hp|].
    apply (gs_ok_nonempty (prio k)), (ki_queue _ _ Hinv dst dq Hd). }
  split_and!; [done | by rewrite Hwo' | | done].
  rewrite Hwd, Hwo by done. apply ins_ext. done.
Qed.

(** ** What the operations leave alone *)

Definition bstatus (k : kernel) (t : Z) : option zx_status_t := blocked_status <$> threads k !! t.

Definition same_queues (k k' : kernel) : Prop := forall w, is_Some (queues k !! w) <-> is_Some (queues k' !! w).

Lemma same_queues_refl k : same_queues k k.
Proof. done. Qed.

Lemma same_queues_trans k1 k2 k3 : same_queues k1 k2 -> same_queues k2 k3 -> same_queues k1 k3.
Proof. intros H1 H2 w. by rewrite (H1 w). Qed.

Lemma same_queues_with_queue w q q' k : queues k !! w = Some q -> same_queues k (with_queue w q' k).
Proof.
  intros Hq w'. simpl. destruct (decide (w' = w)) as [->|]; [|by rewrite lookup_insert_ne].
  rewrite lookup_insert_eq, Hq. split; by eexists.
Qed.

Lemma bstatus_with_thread_ne t th k x : x <> t -> bstatus (with_thread t th k) x = bstatus k x.
Proof. intros H. unfold bstatus. simpl. by rewrite lookup_insert_ne. Qed.

Lemma bstatus_with_thread t th th0 k x :
  threads k !! t = Some th0 -> blocked_status th = blocked_status th0 ->
  bstatus (with_thread t th k) x = bstatus k x.
Proof.
  intros Ht H. destruct (decide (x = t)) as [->|]; [|by apply bstatus_with_thread_ne].
  unfold bstatus. simpl. by rewrite lookup_insert_eq, Ht; simpl; rewrite H.
Qed.

Lemma dequeue_frame w t e k k' :
  wait_queue_dequeue_thread_internal w t e k = Some k' ->
  same_queues k k' /\ forall x, x <> t -> bstatus k' x = bstatus k x.
Proof.
  unfold wait_queue_dequeue_thread_internal. destruct (queues k !! w) as [q|] eqn:Hq; [|done].
  destruct (threads k !! t); [|done]. cbn [mbind option_bind]. intros [= <-]. split.
  - by apply same_queues_with_queue with (q := q).
  - intros x Hx. by rewrite bstatus_with_thread_ne.
Qed.

Lemma unblock_frame t k k' :
  sched_unblock t k = Some k' -> same_queues k k' /\ forall x, bstatus k' x = bstatus k x.
Proof.
  unfold sched_unblock. destruct (threads k !! t) as [th|] eqn:Ht; [|done]. cbn [mbind option_bind].
  intros [= <-]. split; [done|]. intros x. by apply (bstatus_with_thread t _ th k x Ht).
Qed.

Lemma wake_one_frame w e k n k' :
  k_inv [] k -> wait_queue_wake_one w e k = Some (n, k') ->
  same_queues k k' /\ forall x, x ∉ waiters w k -> bstatus k' x = bstatus k x.
Proof.
  intros Hinv. unfold wait_queue_wake_one. destruct (queues k !! w) as [q|] eqn:Hq; [|done].
  cbn [mbind option_bind]. rewrite (peek_waiters [] w k q Hinv Hq).
  destruct (waiters w k) as [|t rest]; simpl; [by intros [= <- <-]|].
  destruct (wait_queue_dequeue_thread_internal w t e k) as [k1|] eqn:H1; [|done]. cbn [mbind option_bind].
  destruct (sched_unblock t k1) as [k2|] eqn:H2; [|done]. cbn [mbind option_bind]. intros [= <- <-].
  apply dequeue_frame in H1 as [Hq1 Hb1]. apply unblock_frame in H2 as [Hq2 Hb2].
  split; [by eapply same_queues_trans|]. intros x Hx. rewrite Hb2. apply Hb1.
  intros ->. apply Hx, list_elem_of_here.
Qed.

Lemma drain_frame fuel w e k ts k' : drain_queue fuel w e k = Some (ts, k') -> same_queues k k'.
Proof.
  revert k ts k'. induction fuel as [|fuel IH]; intros k ts k'; simpl; [done|].
  destruct (queues k !! w) as [q|]; [|done]. cbn [mbind option_bind].
  destruct (wait_queue_peek q) as [t|]; [|by intros [= <- <-]].
  destruct (wait_queue_dequeue_thread_internal w t e k) as [k1|] eqn:H1; [|done]. cbn [mbind option_bind].
  destruct (drain_queue fuel w e k1) as [[ts2 k2]|] eqn:H2; [|done]. cbn [mbind option_bind]. intros [= <- <-].
  apply dequeue_frame in H1 as [H1 _]. eapply same_queues_trans; [exact H1 | by eapply IH].
Qed.

Lemma unblock_list_frame ts k k' : sched_unblock_list ts k = Some k' -> same_queues k k'.
Proof.
  revert k. induction ts as [|t ts IH]; intros k; simpl; [by intros [= <-]|].
  destruct (sched_unblock t k) as [k1|] eqn:H1; [|done]. cbn [mbind option_bind]. intros H2.
  apply unblock_frame in H1 as [H1 _]. eapply same_queues_trans; [exact H1 | by apply IH].
Qed.

Lemma wake_all_frame w e k n k' : wait_queue_wake_all w e k = Some (n, k') -> same_queues k k'.
Proof.
  unfold wait_queue_wake_all. destruct (queues k !! w) as [q|]; [|done]. cbn [mbind option_bind].
  destruct (count q =? 0); [by intros [= <- <-]|].
  destruct (drain_queue _ w e k) as [[ts k1]|] eqn:H1; [|done]. cbn [mbind option_bind].
  destruct (sched_unblock_list ts k1) as [k2|] eqn:H2; [|done]. cbn [mbind option_bind]. intros [= <- <-].
  eapply same_queues_trans; [by eapply drain_frame | by eapply unblock_list_frame].
Qed.

Lemma block_frame w t deadline now mask reason k st k' :
  wait_queue_block_etc_pre w t deadline now mask reason k = Some (st, k') ->
  same_queues k k' /\ forall x, x <> t -> bstatus k' x = bstatus k x.
Proof.
  unfold wait_queue_block_etc_pre. destruct (queues k !! w) as [q|] eqn:Hq; [|done].
  destruct (threads k !! t); [|done]. cbn [mbind option_bind].
  repeat (destruct (_ && _); [by intros [= <- <-]|]). intros [= <- <-]. split.
  - by apply same_queues_with_queue with (q := q).
  - intros x Hx. by rewrite bstatus_with_thread_ne.
Qed.

Lemma unblock_thread_frame t e k st k' :
  wait_queue_unblock_thread t e k = Some (st, k') ->
  same_queues k k' /\ forall x, x <> t -> bstatus k' x = bstatus k x.
Proof.
  unfold wait_queue_unblock_thread. destruct (threads k !! t) as [th|]; [|done]. cbn [mbind option_bind].
  destruct (negb _); [by intros [= <- <-]|]. destruct (blocking_wait_queue th) as [w|]; [|done].
  cbn [mbind option_bind]. destruct (wait_queue_dequeue_thread_internal w t e k) as [k1|] eqn:H1; [|done].
  cbn [mbind option_bind]. destruct (sched_unblock t k1) as [k2|] eqn:H2; [|done]. intros [= <- <-].
  apply dequeue_frame in H1 as [Hq1 Hb1]. apply unblock_frame in H2 as [Hq2 Hb2].
  split; [by eapply same_queues_trans|]. intros x Hx. rewrite Hb2. by apply Hb1.
Qed.

Lemma priority_changed_frame t p k k' :
  wait_queue_priority_changed t p k = Some k' -> same_queues k k' /\ forall x, bstatus k' x = bstatus k x.
Proof.
  unfold wait_queue_priority_changed. destruct (threads k !! t) as [th|] eqn:Ht; [|done].
  cbn [mbind option_bind]. destruct (blocking_wait_queue th) as [w|]; [|done]. cbn [mbind option_bind].
  set (k1 := with_thread t _ k). destruct (queues k1 !! w) as [q|] eqn:Hq; [|done]. cbn [mbind option_bind].
  intros [= <-]. split.
  - exact (same_queues_with_queue w q _ k1 Hq).
  - intros x. by apply (bstatus_with_thread t _ th k x Ht).
Qed.

(** ** Runs of the kernel *)

(** What running threads, timers and other threads do to the queues; a thread that
    blocks is one that is not already blocked. *)
Inductive k_step (k : kernel) : kernel -> Prop :=
| step_block w t th deadline now mask reason st k' :
    threads k !! t = Some th -> is_blocked (state th) = false ->
    wait_queue_block_etc_pre w t deadline now mask reason k = Some (st, k') -> k_step k k'
| step_wake_one w e n k' : wait_queue_wake_one w e k = Some (n, k') -> k_step k k'
| step_wake_all w e n k' : wait_queue_wake_all w e k = Some (n, k') -> k_step k k'
| step_unblock t e st k' : wait_queue_unblock_thread t e k = Some (st, k') -> k_step k k'
| step_priority t p k' : wait_queue_priority_changed t p k = Some k' -> k_step k k'
| step_move src dst t th k' :
    src <> dst -> threads k !! t = Some th -> blocking_wait_queue th = Some src ->
    wait_queue_move_thread src dst t k = Some k' -> k_step k k'.

(** Nothing blocked, every queue as [wait_queue_init] leaves it. *)
Definition k_init (k : kernel) : Prop :=
  (forall w q, queues k !! w = Some q -> q = wait_queue_init) /\
  (forall t th, threads k !! t = Some th -> blocking_wait_queue th = None /\ is_blocked (state th) = false).

Lemma k_init_inv k : k_init k -> k_inv [] k.
Proof.
  intros [Hq Ht]. split.
  - intros w q ->%Hq. split_and!; [apply gs_ok_nil | constructor | done].
  - intros w q t ->%Hq. simpl. split; [by intros ?%elem_of_nil|].
    intros (th & [Hb _]%Ht & Hw). congruence.
  - intros t th [-> Hs]%Ht. done.
Qed.

Lemma not_blocked k t th :
  k_inv [] k -> threads k !! t = Some th -> is_blocked (state th) = false -> blocking_wait_queue th = None.
Proof.
  intros Hinv Ht Hs. pose proof (ki_blocked _ _ Hinv t th Ht) as Hkb.
  destruct (blocking_wait_queue th); [|done]. destruct Hkb as (? & _). congruence.
Qed.

Lemma priority_changed_blocked t p k k' :
  wait_queue_priority_changed t p k = Some k' ->
  exists th w, threads k !! t = Some th /\ blocking_wait_queue th = Some w.
Proof.
  unfold wait_queue_priority_changed. destruct (threads k !! t) as [th|]; [|done]. cbn [mbind option_bind].
  destruct (blocking_wait_queue th) as [w|] eqn:Hb; [|done]. intros _. by exists th, w.
Qed.

Lemma k_step_inv k k' : k_step k k' -> k_inv [] k -> k_inv [] k'.
Proof.
  intros [w t th dl now mask reason st k1 Ht Hs H | w e n k1 H | w e n k1 H | t e st k1 H | t p k1 H
         | src dst t th k1 Hne Ht Hb H] Hinv.
  - destruct (queues k !! w) as [q|] eqn:Hq; [|unfold wait_queue_block_etc_pre in H; by rewrite Hq in H].
    destruct (block_spec w t dl now mask reason k q th) as (? & ? & ? & ? & _);
      [done.. | by eapply not_blocked |]. congruence.
  - destruct (wake_one_spec w e k Hinv) as (? & ? & ? & ? & _); [|congruence].
    unfold wait_queue_wake_one in H. by destruct (queues k !! w).
  - destruct (wake_all_spec w e k Hinv) as (? & ? & ? & _); [|congruence].
    unfold wait_queue_wake_all in H. by destruct (queues k !! w).
  - destruct (threads k !! t) as [th|] eqn:Ht; [|unfold wait_queue_unblock_thread in H; by rewrite Ht in H].
    destruct (unblock_thread_spec t e k th Hinv Ht) as (? & ? & ? & ? & _). congruence.
  - destruct (priority_changed_blocked t p k k1 H) as (th & w & Ht & Hb).
    destruct (priority_changed_spec [] t p k th w Hinv Ht Hb) as (k2 & H2 & ? & _). congruence.
  - destruct (queues k !! dst) as [dq|] eqn:Hd.
    + destruct (move_thread_spec src dst t k th dq Hinv Hne Ht Hb Hd) as (? & ? & ? & _). congruence.
    + unfold wait_queue_move_thread in H. destruct (queues k !! src); [|done]. rewrite Ht in H.
      cbn [mbind option_bind] in H. simpl in H. by rewrite lookup_insert_ne, Hd in H.
Qed.

Lemma k_reach_inv k0 k : k_init k0 -> rtc k_step k0 k -> k_inv [] k.
Proof.
  intros H0 Hr. apply k_init_inv in H0. induction Hr as [|k k1 k2 Hs _ IH]; [done|].
  apply IH. by eapply k_step_inv.
Qed.

Lemma waiters_sorted w k :
  k_inv [] k -> StronglySorted (fun a b => prio k b <= prio k a) (waiters w k).
Proof.
  intros Hinv. unfold waiters. destruct (queues k !! w) as [q|] eqn:Hq; [|constructor].
  apply flat_sorted. by apply (ki_queue _ _ Hinv w q Hq).
Qed.

(** after any sequence of blocks, wakes, unblocks, timeouts, priority changes
    and moves, every wait queue holds its threads by decreasing effective
    priority, each once; [count] is their number; and a thread is in a queue
    exactly when its own record says that it is blocked there. *)
Theorem wait_queue_invariant k0 k w q :
  k_init k0 -> rtc k_step k0 k -> queues k !! w = Some q ->
  StronglySorted (fun a b => prio k b <= prio k a) (waiters w k) /\ NoDup (waiters w k) /\
  count q = zlen (waiters w k) /\
  forall t, t ∈ waiters w k <->
    exists th, threads k !! t = Some th /\ blocking_wait_queue th = Some w /\ is_blocked (state th) = true.
Proof.
  intros H0 Hr Hq. pose proof (k_reach_inv _ _ H0 Hr) as Hinv. split_and!.
  - by apply waiters_sorted.
  - by eapply waiters_nodup.
  - unfold waiters. rewrite Hq. by apply (ki_queue _ _ Hinv w q Hq).
  - intros t. unfold waiters. rewrite Hq, (ki_member _ _ Hinv w q t Hq). split; intros (th & Ht & Hb).
    + exists th. split_and!; try done. pose proof (ki_blocked _ _ Hinv t th Ht) as Hkb.
      rewrite Hb in Hkb. by destruct Hkb.
    + exists th. by destruct Hb.
Qed.

(** in any reachable state a thread that blocks goes behind the threads of at
    least its priority and in front of the others, and a wake takes the front
    thread: the highest priority one, the longest waiting among equals; it is made
    ready with the status the waker passes, and the other waiters stay. *)
Theorem wait_queue_wakes_highest_first k0 k w q e :
  k_init k0 -> rtc k_step k0 k -> queues k !! w = Some q ->
  (forall t th deadline now mask reason k',
     threads k !! t = Some th -> is_blocked (state th) = false ->
     wait_queue_block_etc_pre w t deadline now mask reason k = Some (ZX_OK, k') ->
     exists hi lo, waiters w k = hi ++ lo /\ waiters w k' = hi ++ t :: lo /\
       Forall (fun x => prio k t <= prio k x) hi /\ Forall (fun x => prio k x < prio k t) lo) /\
  exists n k', wait_queue_wake_one w e k = Some (n, k') /\
    match waiters w k with
    | [] => n = 0 /\ k' = k
    | t :: rest => n = 1 /\ waiters w k' = rest /\ ready k' = ready k ++ [t] /\
        Forall (fun x => prio k x <= prio k t) rest /\
        exists th, threads k' !! t = Some th /\ blocked_status th = e /\ state th = THREAD_READY
    end.
Proof.
  intros H0 Hr Hq. pose proof (k_reach_inv _ _ H0 Hr) as Hinv.
  pose proof (waiters_sorted w k Hinv) as Hsort. split.
  - intros t th dl now mask reason k' Ht Hs H.
    destruct (block_spec w t dl now mask reason k q th) as (st & k1 & H1 & _ & Hw & _);
      [done.. | by eapply not_blocked |].
    rewrite H in H1. injection H1 as <- <-. rewrite (Hw eq_refl). by apply ins_split.
  - destruct (wake_one_spec w e k Hinv) as (n & k' & H & _ & Hm); [by eexists|].
    exists n, k'. split; [done|]. destruct (waiters w k) as [|t rest]; [done|].
    destruct Hm as (? & ? & ? & ?). apply StronglySorted_inv in Hsort as [_ Hf]. by split_and!.
Qed.

(** Three threads and a queue, for the examples. *)
Definition ex_thread (p : Z) : thread_t := mkThread THREAD_READY p 0 false ZX_OK None.
Definition ex_kernel : kernel :=
  {| threads := {[1 := ex_thread 10; 2 := ex_thread 20; 3 := ex_thread 10]};
     queues := {[7 := wait_queue_init]}; ready := [] |}.
Definition ex_block (t : Z) (k : kernel) : kernel :=
  match wait_queue_block_etc_pre 7 t ZX_TIME_INFINITE 0 0 Normal k with Some (_, k) => k | None => k end.

Lemma ex_kernel_init : k_init ex_kernel.
Proof.
  split.
  - apply (map_Forall_singleton (fun _ q => q = wait_queue_init)). done.
  - intros t th. unfold ex_kernel. simpl.
    repeat (rewrite lookup_insert_Some; intros [[_ <-]|[_ H]]; [done|revert H]).
    by rewrite lookup_singleton_Some; intros [_ <-].
Qed.

Lemma ex_block_run : rtc k_step ex_kernel (ex_block 3 (ex_block 2 (ex_block 1 ex_kernel))).
Proof.
  eapply rtc_l; [|eapply rtc_l; [|eapply rtc_l; [|apply rtc_refl]]].
  - by apply (step_block _ 7 1 (ex_thread 10) ZX_TIME_INFINITE 0 0 Normal ZX_OK).
  - by apply (step_block _ 7 2 (ex_thread 20) ZX_TIME_INFINITE 0 0 Normal ZX_OK).
  - by apply (step_block _ 7 3 (ex_thread 10) ZX_TIME_INFINITE 0 0 Normal ZX_OK).
Qed.

Lemma wait_queue_invariant_witness :
  waiters 7 (ex_block 3 (ex_block 2 (ex_block 1 ex_kernel))) = [2; 1; 3] /\ NoDup [2; 1; 3].
Proof.
  split; [vm_compute; reflexivity|].
  exact (proj1 (proj2 (wait_queue_invariant _ _ 7 _ ex_kernel_init ex_block_run eq_refl))).
Defined.

Lemma wait_queue_wakes_highest_first_witness :
  exists n k', wait_queue_wake_one 7 ZX_OK (ex_block 3 (ex_block 2 (ex_block 1 ex_kernel))) = Some (n, k') /\
    n = 1 /\ waiters 7 k' = [1; 3].
Proof.
  destruct (proj2 (wait_queue_wakes_highest_first _ _ 7 _ ZX_OK ex_kernel_init ex_block_run eq_refl))
    as (n & k' & H & Hm).
  exists n, k'. split; [exact H|]. split; [exact (proj1 Hm) | exact (proj1 (proj2 Hm))].
Defined.
