(* ===== verification/Semaphore.v ===== *)
(** * Counting semaphores and events

    [kernel/semaphore.cc] and [kernel/event.cc].  A blocking call is two
    definitions: what runs up to [sched_block], under the thread lock, and what
    runs when the scheduler resumes the thread; other threads run in between.
    [count_] is an [int64_t] that changes by one and is kept in [Z]. *)

From S2P Require Import Prelude Zx WaitQueue.
Import WaitQueue.

Definition set_interruptable (t : Z) (b : bool) (k : kernel) : kernel :=
  match threads k !! t with
  | Some th => with_thread t {| state := state th; effec_priority := effec_priority th;
                                signals := signals th; interruptable := b;
                                blocked_status := blocked_status th;
                                blocking_wait_queue := blocking_wait_queue th |} k
  | None => k
  end.

(** What a call that may block does first: return, or block. *)
Inductive entry := Returned (st : zx_status_t) | Blocked.

Module Semaphore.

Record Semaphore := mkSemaphore { count_ : Z; waitq_ : Z }.

Definition new_Semaphore (initial_count w : Z) : Semaphore := mkSemaphore initial_count w.

Definition Post (s : Semaphore) (k : kernel) : option (Z * Semaphore * kernel) :=
  let s := mkSemaphore (count_ s + 1) (waitq_ s) in
  if count_ s <=? 0
  then '(_, k) ← wait_queue_wake_one (waitq_ s) ZX_OK k; Some (count_ s, s, k)
  else Some (count_ s, s, k).

(** [Wait] up to the point where the thread blocks. *)
Definition Wait_enter (t deadline now : Z) (s : Semaphore) (k : kernel)
    : option (entry * Semaphore * kernel) :=
  let s := mkSemaphore (count_ s - 1) (waitq_ s) in
  if count_ s <? 0 then
    let k := set_interruptable t true k in
    '(ret, k) ← wait_queue_block_etc_pre (waitq_ s) t deadline now 0 Normal k;
    if is_err ret
    then Some (Returned ret, mkSemaphore (count_ s + 1) (waitq_ s), set_interruptable t false k)
    else Some (Blocked, s, k)
  else Some (Returned ZX_OK, s, k).

(** [Wait] from the point where the thread runs again. *)
Definition Wait_resume (t : Z) (s : Semaphore) (k : kernel) : option (zx_status_t * Semaphore * kernel) :=
  th ← threads k !! t;
  let ret := blocked_status th in
  Some (ret, if is_err ret then mkSemaphore (count_ s + 1) (waitq_ s) else s, set_interruptable t false k).

End Semaphore.

Module Event.

Definition EVENT_FLAG_AUTOUNSIGNAL : Z := 1.

(** [result]: [None] is [INT_MAX], not signaled. *)
Record event_t := mkEvent { result : option zx_status_t; flags : Z; wait : Z }.

Definition event_init (initial : bool) (flags w : Z) : event_t :=
  mkEvent (if initial then Some ZX_OK else None) flags w.

Definition event_wait_enter (t deadline now : Z) (interruptable : bool) (signal_mask : Z)
    (e : event_t) (k : kernel) : option (entry * event_t * kernel) :=
  let k := set_interruptable t interruptable k in
  match result e with
  | Some r =>
      let e := if has (flags e) EVENT_FLAG_AUTOUNSIGNAL then mkEvent None (flags e) (wait e) else e in
      Some (Returned r, e, set_interruptable t false k)
  | None =>
      '(ret, k) ← wait_queue_block_etc_pre (wait e) t deadline now signal_mask Normal k;
      if is_err ret then Some (Returned ret, e, set_interruptable t false k)
      else Some (Blocked, e, k)
  end.

Definition event_wait_resume (t : Z) (e : event_t) (k : kernel) : option (zx_status_t * event_t * kernel) :=
  th ← threads k !! t;
  Some (blocked_status th, e, set_interruptable t false k).

Definition event_signal_internal (e : event_t) (wait_result : zx_status_t) (k : kernel)
    : option (Z * event_t * kernel) :=
  match result e with
  | Some _ => Some (0, e, k)
  | None =>
      if has (flags e) EVENT_FLAG_AUTOUNSIGNAL then
        '(wake_count, k) ← wait_queue_wake_one (wait e) wait_result k;
        if wake_count <=? 0 then Some (wake_count, mkEvent (Some wait_result) (flags e) (wait e), k)
        else Some (wake_count, e, k)
      else
        '(wake_count, k) ← wait_queue_wake_all (wait e) wait_result k;
        Some (wake_count, mkEvent (Some wait_result) (flags e) (wait e), k)
  end.

Definition event_signal (e : event_t) (k : kernel) : option (Z * event_t * kernel) :=
  event_signal_internal e ZX_OK k.

Definition event_unsignal (e : event_t) : event_t := mkEvent None (flags e) (wait e).

(** [wait_queue_destroy] panics when threads still wait. *)
Definition event_destroy (e : event_t) (k : kernel) : option (event_t * kernel) :=
  k ← wait_queue_destroy (wait e) k;
  Some (mkEvent None 0 (wait e), k).

End Event.
