(* ===== verification/SemaphoreFacts.v ===== *)
(** * Correctness of semaphores and events

    Runs of any number of threads that post, wait, time out and resume, in any
    interleaving. *)

From S2P Require Import Prelude Zx WaitQueue WaitQueueFacts Semaphore.
Import WaitQueue Semaphore.Semaphore.

(** ** Marking a thread as interruptable *)

Lemma set_interruptable_spec t b k :
  queues (set_interruptable t b k) = queues k /\ ready (set_interruptable t b k) = ready k /\
  (forall x, bstatus (set_interruptable t b k) x = bstatus k x) /\
  (forall x, prio (set_interruptable t b k) x = prio k x) /\
  forall x, (fun th => (state th, blocking_wait_queue th)) <$> threads (set_interruptable t b k) !! x =
            (fun th => (state th, blocking_wait_queue th)) <$> threads k !! x.
Proof.
  unfold set_interruptable. destruct (threads k !! t) as [th|] eqn:Ht; [|done]. split_and!; try done.
  - intros x. by apply (bstatus_with_thread t _ th k x Ht).
  - intros x. by apply (prio_with_thread t _ th k x Ht).
  - intros x. simpl. destruct (decide (x = t)) as [->|]; [|by rewrite lookup_insert_ne].
    by rewrite lookup_insert_eq, Ht.
Qed.

Lemma set_interruptable_lookup t b k x th' :
  threads (set_interruptable t b k) !! x = Some th' ->
  exists th, threads k !! x = Some th /\ state th' = state th /\ blocking_wait_queue th' = blocking_wait_queue th.
Proof.
  intros H. destruct (set_interruptable_spec t b k) as (_ & _ & _ & _ & Hx). specialize (Hx x). rewrite H in Hx.
  destruct (threads k !! x) as [th|]; [|done]. simpl in Hx. injection Hx as H1 H2. by exists th.
Qed.

Lemma set_interruptable_lookup' t b k x th :
  threads k !! x = Some th ->
  exists th', threads (set_interruptable t b k) !! x = Some th' /\ state th' = state th /\
    blocking_wait_queue th' = blocking_wait_queue th.
Proof.
  intros H. destruct (set_interruptable_spec t b k) as (_ & _ & _ & _ & Hx). specialize (Hx x). rewrite H in Hx.
  destruct (threads (set_interruptable t b k) !! x) as [th'|]; [|done]. injection Hx as H1 H2. by exists th'.
Qed.

Lemma set_interruptable_inv L t b k : k_inv L k -> k_inv L (set_interruptable t b k).
Proof.
  intros [H1 H2 H3]. destruct (set_interruptable_spec t b k) as (Hq & _ & _ & Hp & _). split.
  - intros w q Hw. rewrite Hq in Hw. destruct (H1 w q Hw) as (Hok & ? & ?). split_and!; try done.
    eapply gs_ok_ext; [|exact Hok]. by intros.
  - intros w q x Hw. rewrite Hq in Hw. rewrite (H2 w q x Hw). split; intros (th & Hx & Hb).
    + apply (set_interruptable_lookup' t b) in Hx as (th' & ? & _ & Hb'). exists th'. by rewrite Hb'.
    + apply set_interruptable_lookup in Hx as (th' & ? & _ & Hb'). exists th'. by rewrite <- Hb'.
  - intros x th Hx. apply set_interruptable_lookup in Hx as (th' & Hx & -> & ->). rewrite Hq. by apply H3.
Qed.

Lemma set_interruptable_waiters t b k w : waiters w (set_interruptable t b k) = waiters w k.
Proof. unfold waiters. by rewrite (proj1 (set_interruptable_spec t b k)). Qed.

(** ** Runs of a semaphore *)

(** The threads inside [Wait], and how often [Post] ran and [Wait] succeeded. *)
Record sem_sys := mkSys {
  sem : Semaphore;
  kern : kernel;
  inwait : list Z;
  posts : Z;
  acquired : Z;
}.

Definition won (st : zx_status_t) : Z := if is_err st then 0 else 1.

(** With [errs] false no blocked thread is unblocked with an error. *)
Inductive sem_step (errs : bool) (y : sem_sys) : sem_sys -> Prop :=
| ss_post n s' k' :
    Post (sem y) (kern y) = Some (n, s', k') ->
    sem_step errs y (mkSys s' k' (inwait y) (posts y + 1) (acquired y))
| ss_enter_return t th deadline now st s' k' :
    threads (kern y) !! t = Some th -> is_blocked (state th) = false -> t ∉ inwait y ->
    Wait_enter t deadline now (sem y) (kern y) = Some (Returned st, s', k') ->
    sem_step errs y (mkSys s' k' (inwait y) (posts y) (acquired y + won st))
| ss_enter_block t th deadline now s' k' :
    threads (kern y) !! t = Some th -> is_blocked (state th) = false -> t ∉ inwait y ->
    Wait_enter t deadline now (sem y) (kern y) = Some (Blocked, s', k') ->
    sem_step errs y (mkSys s' k' (t :: inwait y) (posts y) (acquired y))
| ss_resume t th st s' k' :
    threads (kern y) !! t = Some th -> is_blocked (state th) = false -> t ∈ inwait y ->
    Wait_resume t (sem y) (kern y) = Some (st, s', k') ->
    sem_step errs y (mkSys s' k' (filter (fun x => x <> t) (inwait y)) (posts y) (acquired y + won st))
| ss_error t e st k' :
    errs = true -> t ∈ waiters (waitq_ (sem y)) (kern y) -> is_err e = true ->
    wait_queue_unblock_thread t e (kern y) = Some (st, k') ->
    sem_step errs y (mkSys (sem y) k' (inwait y) (posts y) (acquired y))
| ss_priority t p k' :
    t ∈ waiters (waitq_ (sem y)) (kern y) ->
    wait_queue_priority_changed t p (kern y) = Some k' ->
    sem_step errs y (mkSys (sem y) k' (inwait y) (posts y) (acquired y)).

Definition sem_init (y : sem_sys) (initial : Z) : Prop :=
  k_init (kern y) /\ is_Some (queues (kern y) !! waitq_ (sem y)) /\ count_ (sem y) = initial /\
  inwait y = [] /\ posts y = 0 /\ acquired y = 0.

(** A thread inside [Wait] that no post has served: still blocked, or unblocked
    with an error. *)
Definition unserved (w : Z) (k : kernel) (t : Z) : Prop := t ∈ waiters w k \/ bstatus k t <> Some ZX_OK.
#[export] Instance unserved_dec w k t : Decision (unserved w k t).
Proof. unfold unserved. apply _. Defined.

Record sem_inv (errs : bool) (initial : Z) (y : sem_sys) : Prop := {
  si_kern : k_inv [] (kern y);
  si_queue : is_Some (queues (kern y) !! waitq_ (sem y));
  si_nodup : NoDup (inwait y);
  si_waiting : forall t, t ∈ waiters (waitq_ (sem y)) (kern y) -> t ∈ inwait y;
  si_count : count_ (sem y) = initial + posts y - acquired y - zlen (inwait y);
  si_blocked : errs = false -> zlen (waiters (waitq_ (sem y)) (kern y)) = Z.max 0 (- count_ (sem y));
  si_status : errs = false -> forall t, t ∈ inwait y -> t ∉ waiters (waitq_ (sem y)) (kern y) ->
              bstatus (kern y) t = Some ZX_OK;
  si_nonneg : 0 <= count_ (sem y) + zlen (filter (unserved (waitq_ (sem y)) (kern y)) (inwait y));
}.

Lemma filter_drop_one (P Q : Z -> Prop) `{!forall x, Decision (P x)} `{!forall x, Decision (Q x)} t (l : list Z) :
  NoDup l -> t ∈ l -> P t -> (forall x, x ∈ l -> (Q x <-> P x /\ x <> t)) ->
  zlen (filter Q l) = zlen (filter P l) - 1.
Proof.
  intros Hnd Hin HP HQ. rewrite <- (zlen_filter_ne t); [|by apply NoDup_filter | by apply list_elem_of_filter].
  rewrite list_filter_filter. f_equal. apply filter_ext_in. intros x Hx. rewrite (HQ x Hx). tauto.
Qed.

Lemma sem_init_inv errs initial y : 0 <= initial -> sem_init y initial -> sem_inv errs initial y.
Proof.
  intros Hpos (Hk & Hq & Hc & Hi & Hp & Ha). pose proof (k_init_inv _ Hk) as Hinv.
  assert (waiters (waitq_ (sem y)) (kern y) = []) as Hw.
  { unfold waiters. destruct Hq as [q Hq]. rewrite Hq. destruct Hk as [Hk _]. by rewrite (Hk _ _ Hq). }
  split; rewrite ?Hw, ?Hi; try done.
  - constructor.
  - unfold zlen. simpl. lia.
  - intros _. unfold zlen. simpl. lia.
  - unfold zlen. simpl. lia.
Qed.

Lemma post_inv errs initial y n s' k' :
  sem_inv errs initial y -> Post (sem y) (kern y) = Some (n, s', k') ->
  sem_inv errs initial (mkSys s' k' (inwait y) (posts y + 1) (acquired y)).
Proof.
  intros [Hk Hq Hnd Hw Hc Hb Hst Hnn]. unfold Post. simpl. destruct (Z.leb_spec (count_ (sem y) + 1) 0) as [Hle|Hgt].
  - destruct (wake_one_spec (waitq_ (sem y)) ZX_OK (kern y) Hk Hq) as (m & k1 & Hwk & Hk1 & Hm).
    rewrite Hwk. cbn [mbind option_bind]. intros [= <- <- <-].
    destruct (wake_one_frame _ _ _ _ _ Hk Hwk) as [Hsq Hfr].
    destruct (waiters (waitq_ (sem y)) (kern y)) as [|t rest] eqn:Ew.
    + destruct Hm as [-> ->]. split; simpl; rewrite ?Ew; try done; [lia | | lia].
      intros He. specialize (Hb He). rewrite zlen_nil in *. lia.
    + destruct Hm as (-> & Hr & _ & th' & Ht' & Hs' & _). split; simpl; rewrite ?Hr; try done.
      * by apply Hsq.
      * intros x Hx. apply Hw. by apply list_elem_of_further.
      * lia.
      * intros He. specialize (Hb He). rewrite zlen_cons in Hb. lia.
      * intros He x Hx Hni. destruct (decide (x = t)) as [->|Hne].
        -- unfold bstatus. rewrite Ht'. simpl. by rewrite Hs'.
        -- assert (x ∉ t :: rest) as Hx' by (by apply not_elem_of_cons). rewrite Hfr by done. by apply Hst.
      * rewrite (filter_drop_one (unserved (waitq_ (sem y)) (kern y)) _ t); [lia | done | | |].
        -- apply Hw, list_elem_of_here.
        -- left. rewrite Ew. apply list_elem_of_here.
        -- intros x Hx. unfold unserved. rewrite Hr, Ew. pose proof (waiters_nodup _ (waitq_ (sem y)) _ Hk) as Hn.
           rewrite Ew in Hn. apply NoDup_cons in Hn as [Hnt _]. rewrite elem_of_cons.
           destruct (decide (x = t)) as [->|Hne].
           ++ unfold bstatus. rewrite Ht'. simpl. rewrite Hs'. split; [by intros [|] | by intros []].
           ++ destruct (decide (x ∈ rest)); [tauto|]. rewrite Hfr by (by apply not_elem_of_cons). tauto.
  - intros [= <- <- <-]. split; simpl; try done; [lia | | lia]. intros He. specialize (Hb He). lia.
Qed.

Lemma enter_return_inv errs initial y t th deadline now st s' k' :
  sem_inv errs initial y -> threads (kern y) !! t = Some th -> is_blocked (state th) = false ->
  Wait_enter t deadline now (sem y) (kern y) = Some (Returned st, s', k') ->
  sem_inv errs initial (mkSys s' k' (inwait y) (posts y) (acquired y + won st)).
Proof.
  intros [Hk Hq Hnd Hw Hc Hb Hst Hnn] Ht Hs. unfold Wait_enter. simpl.
  destruct (Z.ltb_spec (count_ (sem y) - 1) 0) as [Hlt|Hge].
  - set (k0 := set_interruptable t true (kern y)).
    destruct (set_interruptable_lookup' t true _ _ _ Ht) as (th' & Ht' & Hs' & _).
    pose proof (set_interruptable_inv [] t true _ Hk) as Hk0. fold k0 in Hk0, Ht'.
    assert (is_Some (queues k0 !! waitq_ (sem y))) as [q Hq0]
      by (unfold k0; by rewrite (proj1 (set_interruptable_spec t true (kern y)))).
    destruct (block_spec (waitq_ (sem y)) t deadline now 0 Normal k0 q th' Hk0 Hq0 Ht') as (ret & k1 & -> & _ & _ & Hne);
      [by apply (not_blocked k0 t); [| |rewrite Hs'] |].
    cbn [mbind option_bind]. destruct (is_err ret) eqn:Hret; [|done]. intros [= <- <- <-].
    rewrite (Hne (proj1 (is_err_true _) Hret)). unfold won. rewrite Hret.
    set (k2 := set_interruptable t false k0).
    assert (queues k2 = queues (kern y)) as Hq2.
    { unfold k2. rewrite (proj1 (set_interruptable_spec t false k0)). apply set_interruptable_spec. }
    assert (waiters (waitq_ (sem y)) k2 = waiters (waitq_ (sem y)) (kern y)) as Hw2 by (unfold waiters; by rewrite Hq2).
    split; simpl; rewrite ?Hw2, ?Hq2; try done.
    + by apply set_interruptable_inv.
    + lia.
    + intros He. rewrite (Hb He). lia.
    + intros He x Hx Hni. rewrite <- (Hst He x Hx Hni). unfold k2, k0.
      destruct (set_interruptable_spec t false (set_interruptable t true (kern y))) as (_ & _ & -> & _).
      apply set_interruptable_spec.
    + rewrite (filter_ext_in _ (unserved (waitq_ (sem y)) (kern y))); [lia|]. intros x _. unfold unserved.
      rewrite Hw2. unfold k2, k0.
      destruct (set_interruptable_spec t false (set_interruptable t true (kern y))) as (_ & _ & -> & _).
      by destruct (set_interruptable_spec t true (kern y)) as (_ & _ & -> & _).
  - intros [= <- <- <-]. pose proof (zlen_nonneg (filter (unserved (waitq_ (sem y)) (kern y)) (inwait y))).
    split; simpl; try done; [unfold won; simpl; lia | | lia]. intros He. rewrite (Hb He). lia.
Qed.

Lemma enter_block_inv errs initial y t th deadline now s' k' :
  sem_inv errs initial y -> threads (kern y) !! t = Some th -> is_blocked (state th) = false -> t ∉ inwait y ->
  Wait_enter t deadline now (sem y) (kern y) = Some (Blocked, s', k') ->
  sem_inv errs initial (mkSys s' k' (t :: inwait y) (posts y) (acquired y)).
Proof.
  intros [Hk Hq Hnd Hw Hc Hb Hst Hnn] Ht Hs Hni. unfold Wait_enter. simpl.
  destruct (Z.ltb_spec (count_ (sem y) - 1) 0) as [Hlt|Hge]; [|done].
  set (k0 := set_interruptable t true (kern y)).
  destruct (set_interruptable_lookup' t true _ _ _ Ht) as (th' & Ht' & Hs' & _).
  pose proof (set_interruptable_inv [] t true _ Hk) as Hk0. fold k0 in Hk0, Ht'.
  assert (is_Some (queues k0 !! waitq_ (sem y))) as [q Hq0]
    by (unfold k0; by rewrite (proj1 (set_interruptable_spec t true (kern y)))).
  destruct (block_spec (waitq_ (sem y)) t deadline now 0 Normal k0 q th' Hk0 Hq0 Ht')
    as (ret & k1 & H1 & Hk1 & Hok & _); [by apply (not_blocked k0 t); [| |rewrite Hs'] |].
  rewrite H1. cbn [mbind option_bind]. destruct (is_err ret) eqn:Hret; [done|]. intros [= <- <-].
  apply is_err_false in Hret as ->. specialize (Hok eq_refl). unfold k0 in Hok at 2; rewrite set_interruptable_waiters in Hok.
  destruct (block_frame _ _ _ _ _ _ _ _ _ H1) as [Hsq Hfr].
  split; simpl; rewrite ?Hok, ?ins_perm; try done.
  - apply Hsq. by eexists.
  - by apply NoDup_cons.
  - intros x. rewrite ins_perm. rewrite !elem_of_cons. intros [->|Hx]; [by left|]. right. by apply Hw.
  - rewrite zlen_cons. lia.
  - intros He. rewrite zlen_cons, (Hb He). lia.
  - intros He x [->|Hx]%elem_of_cons Hnx; rewrite ins_perm in Hnx.
    { destruct Hnx. apply list_elem_of_here. }
    apply not_elem_of_cons in Hnx as [Hne Hnx]. rewrite Hfr by done.
    rewrite <- (Hst He x Hx Hnx). apply set_interruptable_spec.
  - rewrite filter_cons_True by (left; rewrite Hok, ins_perm; apply list_elem_of_here). rewrite zlen_cons.
    rewrite (filter_ext_in _ (unserved (waitq_ (sem y)) (kern y))); [lia|]. intros x Hx. unfold unserved.
    assert (x <> t) as Hxt by congruence. rewrite Hok, ins_perm, elem_of_cons, Hfr by done.
    destruct (set_interruptable_spec t true (kern y)) as (_ & _ & -> & _). tauto.
Qed.

Lemma resume_inv errs initial y t th st s' k' :
  sem_inv errs initial y -> threads (kern y) !! t = Some th -> is_blocked (state th) = false -> t ∈ inwait y ->
  Wait_resume t (sem y) (kern y) = Some (st, s', k') ->
  sem_inv errs initial (mkSys s' k' (filter (fun x => x <> t) (inwait y)) (posts y) (acquired y + won st)).
Proof.
  intros [Hk Hq Hnd Hw Hc Hb Hst Hnn] Ht Hs Hin. unfold Wait_resume. rewrite Ht. cbn [mbind option_bind].
  intros [= <- <- <-]. destruct (set_interruptable_spec t false (kern y)) as (Hqe & _ & Hbs & _).
  assert (t ∉ waiters (waitq_ (sem y)) (kern y)) as Hnw.
  { intros Hx. destruct (waiters_blocked _ _ _ _ Hk Hx) as (q & th0 & _ & Ht0 & Hb0). rewrite Ht in Ht0.
    injection Ht0 as <-. pose proof (not_blocked _ _ _ Hk Ht Hs). congruence. }
  assert (waitq_ (if is_err (blocked_status th) then mkSemaphore (count_ (sem y) + 1) (waitq_ (sem y)) else sem y)
          = waitq_ (sem y)) as Hwq by by destruct (is_err _).
  split; simpl; rewrite ?Hwq, ?set_interruptable_waiters, ?Hqe; try done.
  - by apply set_interruptable_inv.
  - by apply NoDup_filter.
  - intros x Hx. apply list_elem_of_filter. split; [congruence | by apply Hw].
  - rewrite (zlen_filter_ne t) by done. unfold won. destruct (is_err (blocked_status th)); simpl; lia.
  - intros He. specialize (Hst He t Hin Hnw). unfold bstatus in Hst. rewrite Ht in Hst. injection Hst as ->.
    simpl. by apply Hb.
  - intros He x [_ Hx]%list_elem_of_filter Hnx. rewrite Hbs. by apply Hst.
  - set (P := unserved (waitq_ (sem y)) (kern y)) in *.
    assert (filter (unserved (waitq_ (sem y)) (set_interruptable t false (kern y))) (filter (fun x => x <> t) (inwait y))
            = filter (fun x => x <> t) (filter P (inwait y))) as ->.
    { rewrite !list_filter_filter. apply filter_ext_in. intros x _. unfold P, unserved.
      rewrite set_interruptable_waiters, Hbs. tauto. }
    destruct (is_err (blocked_status th)) eqn:He.
    + rewrite zlen_filter_ne; [simpl; lia | by apply NoDup_filter|]. apply list_elem_of_filter. split; [|done].
      right. unfold bstatus. rewrite Ht. simpl. apply is_err_true in He. congruence.
    + rewrite filter_ne_id; [done|]. intros [[HF|HF] _]%list_elem_of_filter; [done|]. apply HF.
      unfold bstatus. rewrite Ht. simpl. by apply is_err_false in He as ->.
Qed.

Lemma error_inv initial y t e st k' :
  sem_inv true initial y -> t ∈ waiters (waitq_ (sem y)) (kern y) -> is_err e = true ->
  wait_queue_unblock_thread t e (kern y) = Some (st, k') ->
  sem_inv true initial (mkSys (sem y) k' (inwait y) (posts y) (acquired y)).
Proof.
  intros [Hk Hq Hnd Hw Hc Hb Hst Hnn] Hin Herr Hu. destruct (waiters_blocked _ _ _ _ Hk Hin) as (q & th & Hq0 & Ht & Hbw).
  destruct (unblock_thread_spec t e (kern y) th Hk Ht) as (st' & k1 & Hu' & Hk1 & Hm). rewrite Hbw in Hm.
  rewrite Hu in Hu'. injection Hu' as <- <-.
  destruct Hm as (_ & Hw' & _ & th' & Ht' & Hs' & _).
  destruct (unblock_thread_frame _ _ _ _ _ Hu) as [Hsq Hfr].
  split; simpl; try done.
  - by apply Hsq.
  - intros x. rewrite Hw'. intros [_ Hx]%list_elem_of_filter. by apply Hw.
  - rewrite (filter_ext_in _ (unserved (waitq_ (sem y)) (kern y))); [done|]. intros x _. unfold unserved.
    rewrite Hw', list_elem_of_filter. destruct (decide (x = t)) as [->|Hne].
    + unfold bstatus. rewrite Ht'. simpl. apply is_err_true in Herr. split; [by left|]. right. congruence.
    + rewrite Hfr by done. tauto.
Qed.

Lemma priority_inv errs initial y t p k' :
  sem_inv errs initial y -> t ∈ waiters (waitq_ (sem y)) (kern y) ->
  wait_queue_priority_changed t p (kern y) = Some k' ->
  sem_inv errs initial (mkSys (sem y) k' (inwait y) (posts y) (acquired y)).
Proof.
  intros [Hk Hq Hnd Hw Hc Hb Hst Hnn] Hin Hu. destruct (waiters_blocked _ _ _ _ Hk Hin) as (q & th & Hq0 & Ht & Hbw).
  destruct (priority_changed_spec [] t p (kern y) th _ Hk Ht Hbw) as (k1 & Hu' & Hk1 & _ & Hw').
  rewrite Hu in Hu'. injection Hu' as <-. destruct (priority_changed_frame _ _ _ _ Hu) as [Hsq Hbs].
  assert (waiters (waitq_ (sem y)) k' ≡ₚ waiters (waitq_ (sem y)) (kern y)) as HP.
  { rewrite Hw', ins_perm. symmetry. apply filter_ne_perm; [by eapply waiters_nodup | done]. }
  split; simpl; try done.
  - by apply Hsq.
  - intros x. rewrite HP. apply Hw.
  - rewrite HP. done.
  - intros He x Hx. rewrite HP, Hbs. by apply Hst.
  - rewrite (filter_ext_in _ (unserved (waitq_ (sem y)) (kern y))); [done|]. intros x _. unfold unserved.
    by rewrite HP, Hbs.
Qed.

Lemma sem_reach_inv errs initial y0 y :
  0 <= initial -> sem_init y0 initial -> rtc (sem_step errs) y0 y -> sem_inv errs initial y.
Proof.
  intros Hpos H0 Hr. apply (sem_init_inv errs) in H0; [|done].
  induction Hr as [|y1 y2 y3 Hs _ IH]; [done|]. apply IH. clear IH.
  destruct Hs as [ | | | | t e st k' -> | ].
  - by eapply post_inv.
  - by eapply enter_return_inv.
  - by eapply enter_block_inv.
  - by eapply resume_inv.
  - by eapply error_inv.
  - by eapply priority_inv.
Qed.

(** whatever the interleaving, timeouts and kills included, [count_] is the
    initial count plus the posts, minus the successful waits, minus the threads
    that are inside [Wait]; so no permit is created or lost. *)
Theorem semaphore_conserves_permits initial y0 y :
  0 <= initial -> sem_init y0 initial -> rtc (sem_step true) y0 y ->
  count_ (sem y) = initial + posts y - acquired y - zlen (inwait y).
Proof. intros H H0 Hr. by apply (si_count true), sem_reach_inv with (y0 := y0). Qed.

(** as long as no blocked thread is unblocked by a timeout or a kill, exactly
    [-count_] threads are blocked when [count_] is negative and none otherwise: a
    thread never stays blocked while a permit is available, and a thread that
    comes out of the queue returns [ZX_OK]. *)
Theorem semaphore_no_lost_wakeup initial y0 y :
  0 <= initial -> sem_init y0 initial -> rtc (sem_step false) y0 y ->
  zlen (waiters (waitq_ (sem y)) (kern y)) = Z.max 0 (- count_ (sem y)) /\
  forall t st s' k', t ∈ inwait y -> t ∉ waiters (waitq_ (sem y)) (kern y) ->
    Wait_resume t (sem y) (kern y) = Some (st, s', k') -> st = ZX_OK /\ s' = sem y.
Proof.
  intros H H0 Hr. pose proof (sem_reach_inv false _ _ _ H H0 Hr) as Hi. split; [by apply (si_blocked _ _ _ Hi)|].
  intros t st s' k' Hin Hni. pose proof (si_status _ _ _ Hi eq_refl t Hin Hni) as Hst.
  unfold Wait_resume, bstatus in *. destruct (threads (kern y) !! t) as [th|]; [|done].
  injection Hst as Hst. cbn [mbind option_bind]. rewrite Hst. by intros [= <- <- <-].
Qed.

(** ** Runs as functions *)

Definition do_post (y : sem_sys) : sem_sys :=
  match Post (sem y) (kern y) with
  | Some (_, s, k) => mkSys s k (inwait y) (posts y + 1) (acquired y)
  | None => y
  end.
Definition do_enter (t deadline : Z) (y : sem_sys) : sem_sys :=
  match Wait_enter t deadline 0 (sem y) (kern y) with
  | Some (Returned st, s, k) => mkSys s k (inwait y) (posts y) (acquired y + won st)
  | Some (Blocked, s, k) => mkSys s k (t :: inwait y) (posts y) (acquired y)
  | None => y
  end.
Definition do_resume (t : Z) (y : sem_sys) : sem_sys :=
  match Wait_resume t (sem y) (kern y) with
  | Some (st, s, k) => mkSys s k (filter (fun x => x <> t) (inwait y)) (posts y) (acquired y + won st)
  | None => y
  end.
Definition do_timeout (t : Z) (y : sem_sys) : sem_sys :=
  match wait_queue_unblock_thread t ZX_ERR_TIMED_OUT (kern y) with
  | Some (_, k) => mkSys (sem y) k (inwait y) (posts y) (acquired y)
  | None => y
  end.

(** [t] exists and is not blocked. *)
Definition runs (t : Z) (k : kernel) : bool :=
  match threads k !! t with Some th => negb (is_blocked (state th)) | None => false end.

Lemma runs_thread t k : runs t k = true -> exists th, threads k !! t = Some th /\ is_blocked (state th) = false.
Proof. unfold runs. destruct (threads k !! t) as [th|]; [|done]. intros H%negb_true_iff. by exists th. Qed.

Lemma do_post_run errs y : rtc (sem_step errs) y (do_post y).
Proof.
  unfold do_post. destruct (Post (sem y) (kern y)) as [[[n s'] k']|] eqn:H; [|done].
  apply rtc_once. by eapply ss_post.
Qed.
Lemma do_enter_run errs t deadline y :
  runs t (kern y) && bool_decide (t ∉ inwait y) = true -> rtc (sem_step errs) y (do_enter t deadline y).
Proof.
  intros [(th & Ht & Hs)%runs_thread Hni%bool_decide_eq_true]%andb_true_iff. unfold do_enter.
  destruct (Wait_enter t deadline 0 (sem y) (kern y)) as [[[[st|] s'] k']|] eqn:H; [| |done]; apply rtc_once.
  - by eapply ss_enter_return.
  - by eapply ss_enter_block.
Qed.
Lemma do_resume_run errs t y :
  runs t (kern y) && bool_decide (t ∈ inwait y) = true -> rtc (sem_step errs) y (do_resume t y).
Proof.
  intros [(th & Ht & Hs)%runs_thread Hin%bool_decide_eq_true]%andb_true_iff. unfold do_resume.
  destruct (Wait_resume t (sem y) (kern y)) as [[[st s'] k']|] eqn:H; [|done]. apply rtc_once. by eapply ss_resume.
Qed.
Lemma do_timeout_run t y :
  bool_decide (t ∈ waiters (waitq_ (sem y)) (kern y)) = true -> rtc (sem_step true) y (do_timeout t y).
Proof.
  intros Hin%bool_decide_eq_true. unfold do_timeout.
  destruct (wait_queue_unblock_thread t ZX_ERR_TIMED_OUT (kern y)) as [[st k']|] eqn:H; [|done].
  apply rtc_once. by apply (ss_error true y t ZX_ERR_TIMED_OUT st).
Qed.

Definition ex_sys : sem_sys := mkSys (new_Semaphore 0 7) ex_kernel [] 0 0.

Lemma ex_sys_init : sem_init ex_sys 0.
Proof. split; [apply ex_kernel_init|]. split; [by eexists | done]. Qed.

Lemma ex_sys_run errs :
  rtc (sem_step errs) ex_sys (do_post (do_enter 2 ZX_TIME_INFINITE (do_enter 1 ZX_TIME_INFINITE ex_sys))).
Proof.
  etrans; [|apply do_post_run]. etrans; [|by apply do_enter_run]. by apply do_enter_run.
Qed.

Lemma semaphore_conserves_permits_witness :
  count_ (sem (do_post (do_enter 2 ZX_TIME_INFINITE (do_enter 1 ZX_TIME_INFINITE ex_sys)))) = 0 + 1 - 0 - 2.
Proof. exact (semaphore_conserves_permits 0 _ _ (Z.le_refl 0) ex_sys_init (ex_sys_run true)). Defined.

Lemma semaphore_no_lost_wakeup_witness :
  let y := do_post (do_enter 2 ZX_TIME_INFINITE (do_enter 1 ZX_TIME_INFINITE ex_sys)) in
  waiters 7 (kern y) = [1] /\ count_ (sem y) = -1 /\
  forall st s' k', Wait_resume 2 (sem y) (kern y) = Some (st, s', k') -> st = ZX_OK.
Proof.
  split; [vm_compute; reflexivity|]. split; [vm_compute; reflexivity|]. intros st s' k' H.
  refine (proj1 (proj2 (semaphore_no_lost_wakeup 0 _ _ (Z.le_refl 0) ex_sys_init (ex_sys_run false)) 2 st s' k' _ _ H)).
  - apply (bool_decide_unpack _). vm_compute. exact I.
  - apply (bool_decide_unpack _). vm_compute. exact I.
Defined.

(** a wait that times out can leave another waiter blocked for ever.  Thread 1
    times out and leaves the queue; before it runs again to give its decrement of
    [count_] back, a post finds the queue empty and thread 2 blocks although that
    post's permit is free; thread 1 then runs, and the next post takes [count_]
    from 0 to 1 and wakes nobody.  In the end two posts have been made, no wait
    has succeeded, no call is in progress but that of the blocked thread 2. *)
Theorem semaphore_timeout_loses_wakeup :
  exists y, rtc (sem_step true) ex_sys y /\ posts y = 2 /\ acquired y = 0 /\ inwait y = [2] /\
    waiters 7 (kern y) = [2] /\ count_ (sem y) = 1.
Proof.
  exists (do_post (do_resume 1 (do_enter 2 ZX_TIME_INFINITE (do_post (do_timeout 1 (do_enter 1 100 ex_sys)))))).
  split; [|split_and!; vm_compute; reflexivity].
  etrans; [|apply do_post_run]. etrans; [|apply do_resume_run; vm_compute; reflexivity].
  etrans; [|apply do_enter_run; vm_compute; reflexivity]. etrans; [|apply do_post_run].
  etrans; [|apply do_timeout_run; vm_compute; reflexivity]. apply do_enter_run. vm_compute. reflexivity.
Qed.
