(* ===== verification/EventFacts.v ===== *)
(** * Correctness of events

    Runs of any number of threads that wait for, signal and unsignal one event. *)

From S2P Require Import Prelude Zx WaitQueue WaitQueueFacts Semaphore SemaphoreFacts.
Import WaitQueue Semaphore.Event.

Inductive ev_step : event_t * kernel -> event_t * kernel -> Prop :=
| es_enter e k t th deadline now intr mask r e' k' :
    threads k !! t = Some th -> is_blocked (state th) = false ->
    event_wait_enter t deadline now intr mask e k = Some (r, e', k') -> ev_step (e, k) (e', k')
| es_resume e k t st e' k' :
    event_wait_resume t e k = Some (st, e', k') -> ev_step (e, k) (e', k')
| es_signal e k st n e' k' :
    event_signal_internal e st k = Some (n, e', k') -> ev_step (e, k) (e', k')
| es_unsignal e k : ev_step (e, k) (event_unsignal e, k)
| es_unblock e k t err st k' :
    t ∈ waiters (wait e) k -> wait_queue_unblock_thread t err k = Some (st, k') -> ev_step (e, k) (e, k')
| es_priority e k t p k' :
    t ∈ waiters (wait e) k -> wait_queue_priority_changed t p k = Some k' -> ev_step (e, k) (e, k').

Record ev_inv (x : event_t * kernel) : Prop := {
  ei_kern : k_inv [] x.2;
  ei_queue : is_Some (queues x.2 !! wait x.1);
  ei_signaled : result x.1 <> None -> waiters (wait x.1) x.2 = [];
}.

(** The three shapes of a signal. *)
Lemma signal_spec e st k :
  ev_inv (e, k) ->
  exists n e' k', event_signal_internal e st k = Some (n, e', k') /\ ev_inv (e', k') /\
    match result e with
    | Some _ => n = 0 /\ e' = e /\ k' = k
    | None =>
        if has (flags e) EVENT_FLAG_AUTOUNSIGNAL then
          match waiters (wait e) k with
          | [] => n = 0 /\ result e' = Some st /\ k' = k
          | t :: rest => n = 1 /\ result e' = None /\ waiters (wait e) k' = rest /\
                         ready k' = ready k ++ [t] /\ bstatus k' t = Some st
          end
        else n = zlen (waiters (wait e) k) /\ result e' = Some st /\ waiters (wait e) k' = [] /\
             ready k' = ready k ++ waiters (wait e) k /\
             forall t, t ∈ waiters (wait e) k -> bstatus k' t = Some st
    end.
Proof.
  intros [Hk Hq Hs]. simpl in *. unfold event_signal_internal. destruct (result e) as [r|] eqn:Hr.
  { exists 0, e, k. split_and!; try done. split; simpl; [done | done | by rewrite Hr]. }
  destruct (has (flags e) EVENT_FLAG_AUTOUNSIGNAL).
  - destruct (wake_one_spec (wait e) st k Hk Hq) as (n & k' & Hw & Hk' & Hm).
    destruct (wake_one_frame _ _ _ _ _ Hk Hw) as [Hsq _]. rewrite Hw. cbn [mbind option_bind].
    destruct (waiters (wait e) k) as [|t rest] eqn:Ew.
    + destruct Hm as [-> ->]. eexists _, _, _. split; [done|]. split_and!; try done.
    + destruct Hm as (-> & Hrest & Hrd & th & Ht & Hb & _). eexists _, _, _. split; [done|]. split_and!; try done.
      * split; simpl; [done | by apply Hsq | by rewrite Hr].
      * unfold bstatus. rewrite Ht. simpl. by rewrite Hb.
  - destruct (wake_all_spec (wait e) st k Hk Hq) as (k' & Hw & Hk' & He & Hrd & Hoth & Hth). rewrite Hw.
    cbn [mbind option_bind]. eexists _, _, _. split; [done|]. split_and!; try done.
    + split; simpl; [done | | done]. by apply (wake_all_frame (wait e) st k _ _ Hw).
    + intros t Ht. destruct (Hth t Ht) as (th & Ht' & Hb & _). unfold bstatus. rewrite Ht'. simpl. by rewrite Hb.
Qed.

Lemma enter_inv e k t th deadline now intr mask r e' k' :
  ev_inv (e, k) -> threads k !! t = Some th -> is_blocked (state th) = false ->
  event_wait_enter t deadline now intr mask e k = Some (r, e', k') -> ev_inv (e', k').
Proof.
  intros [Hk Hq Hs] Ht Hb. simpl in *. unfold event_wait_enter.
  set (k0 := set_interruptable t intr k). pose proof (set_interruptable_inv [] t intr _ Hk) as Hk0.
  assert (queues k0 = queues k) as Hq0 by apply set_interruptable_spec.
  destruct (result e) as [res|] eqn:Hr.
  - intros [= <- <- <-].
    set (e1 := if has (flags e) EVENT_FLAG_AUTOUNSIGNAL then _ else _).
    assert (wait e1 = wait e) as Hw1 by (unfold e1; by destruct (has _ _)).
    split; simpl; rewrite ?Hw1.
    + by apply set_interruptable_inv.
    + destruct (set_interruptable_spec t false k0) as (-> & _). by rewrite Hq0.
    + intros _. rewrite set_interruptable_waiters. unfold k0. rewrite set_interruptable_waiters. by apply Hs.
  - destruct (set_interruptable_lookup' t intr _ _ _ Ht) as (th' & Ht' & Hs' & _).
    assert (is_Some (queues k0 !! wait e)) as [q Hqe] by by rewrite Hq0.
    destruct (block_spec (wait e) t deadline now mask Normal k0 q th' Hk0 Hqe Ht') as (ret & k1 & H1 & Hk1 & _);
      [by apply (not_blocked k0 t); [| |rewrite Hs'] |].
    destruct (block_frame _ _ _ _ _ _ _ _ _ H1) as [Hsq _].
    rewrite H1. cbn [mbind option_bind]. destruct (is_err ret); intros [= <- <- <-]; split; simpl; try done.
    + by apply set_interruptable_inv.
    + destruct (set_interruptable_spec t false k1) as (-> & _). apply Hsq. by eexists.
    + apply Hsq. by eexists.
Qed.

Lemma ev_step_inv x x' : ev_step x x' -> ev_inv x -> ev_inv x'.
Proof.
  intros [e k t th dl now intr mask r e' k' Ht Hb H | e k t st e' k' H | e k st n e' k' H | e k
         | e k t err st k' Hin H | e k t p k' Hin H] Hi.
  - by eapply enter_inv.
  - unfold event_wait_resume in H. destruct (threads k !! t); [|done]. cbn [mbind option_bind] in H.
    injection H as <- <- <-. destruct Hi as [Hk Hq Hs]. simpl in *.
    split; simpl; rewrite ?set_interruptable_waiters; [by apply set_interruptable_inv | | done].
    by destruct (set_interruptable_spec t false k) as (-> & _).
  - destruct (signal_spec e st k Hi) as (? & ? & ? & H' & ? & _). congruence.
  - destruct Hi as [Hk Hq Hs]. by split.
  - destruct Hi as [Hk Hq Hs]. simpl in *. destruct (waiters_blocked _ _ _ _ Hk Hin) as (q & th & _ & Ht & Hb).
    destruct (unblock_thread_spec t err k th Hk Ht) as (? & k1 & H' & Hk1 & Hm). rewrite Hb in Hm.
    rewrite H in H'. injection H' as <- <-. split; simpl; [done | by apply (proj1 (unblock_thread_frame _ _ _ _ _ H))|].
    intros Hr. rewrite (Hs Hr) in Hin. by apply elem_of_nil in Hin.
  - destruct Hi as [Hk Hq Hs]. simpl in *. destruct (waiters_blocked _ _ _ _ Hk Hin) as (q & th & _ & Ht & Hb).
    destruct (priority_changed_spec [] t p k th _ Hk Ht Hb) as (k1 & H' & Hk1 & _).
    rewrite H in H'. injection H' as <-. split; simpl; [done | by apply (priority_changed_frame _ _ _ _ H)|].
    intros Hr. rewrite (Hs Hr) in Hin. by apply elem_of_nil in Hin.
Qed.

Definition ev_init (e : event_t) (k : kernel) : Prop := k_init k /\ is_Some (queues k !! wait e).

Lemma ev_reach_inv e0 k0 e k : ev_init e0 k0 -> rtc ev_step (e0, k0) (e, k) -> ev_inv (e, k).
Proof.
  intros [Hk Hq] Hr. assert (ev_inv (e0, k0)) as H0.
  { split; simpl; [by apply k_init_inv | done|]. intros _. unfold waiters. destruct Hq as [q Hq]. rewrite Hq.
    destruct Hk as [Hk _]. by rewrite (Hk _ _ Hq). }
  induction Hr as [|x1 x2 x3 Hs _ IH]; [done|]. apply IH. by eapply ev_step_inv.
Qed.

(** no thread stays blocked on a signaled event, whatever the interleaving of
    waits, signals, unsignals, timeouts and kills. *)
Theorem event_signaled_has_no_waiters e0 k0 e k :
  ev_init e0 k0 -> rtc ev_step (e0, k0) (e, k) -> result e <> None -> waiters (wait e) k = [].
Proof. intros H0 Hr. exact (ei_signaled _ (ev_reach_inv _ _ _ _ H0 Hr)). Qed.

(** a signal is never lost and never released twice: on an auto-unsignal event
    it wakes the front waiter with the given result and leaves the event
    unsignaled, or with no waiter is stored for the next wait; on a plain event it
    wakes every waiter in order with that result and is stored; on an event that
    is signaled already it changes nothing.  The count returned is the number of
    threads released. *)
Theorem event_signal_releases e0 k0 e k st :
  ev_init e0 k0 -> rtc ev_step (e0, k0) (e, k) ->
  exists n e' k', event_signal_internal e st k = Some (n, e', k') /\
    match result e with
    | Some _ => n = 0 /\ e' = e /\ k' = k
    | None =>
        if has (flags e) EVENT_FLAG_AUTOUNSIGNAL then
          match waiters (wait e) k with
          | [] => n = 0 /\ result e' = Some st /\ k' = k
          | t :: rest => n = 1 /\ result e' = None /\ waiters (wait e) k' = rest /\
                         ready k' = ready k ++ [t] /\ bstatus k' t = Some st
          end
        else n = zlen (waiters (wait e) k) /\ result e' = Some st /\ waiters (wait e) k' = [] /\
             ready k' = ready k ++ waiters (wait e) k /\
             forall t, t ∈ waiters (wait e) k -> bstatus k' t = Some st
    end.
Proof.
  intros H0 Hr. destruct (signal_spec e st k (ev_reach_inv _ _ _ _ H0 Hr)) as (n & e' & k' & H & _ & Hm).
  by exists n, e', k'.
Qed.

(** ** An event with two waiters *)

Definition ex_event : event_t := event_init false EVENT_FLAG_AUTOUNSIGNAL 7.
Definition ex_enter (t : Z) (x : event_t * kernel) : event_t * kernel :=
  match event_wait_enter t ZX_TIME_INFINITE 0 true 0 x.1 x.2 with Some (_, e, k) => (e, k) | None => x end.
Definition ex_waiting : event_t * kernel := ex_enter 2 (ex_enter 1 (ex_event, ex_kernel)).

Lemma ex_enter_run t x : runs t x.2 = true -> rtc ev_step x (ex_enter t x).
Proof.
  destruct x as [e k]. intros (th & Ht & Hb)%runs_thread. unfold ex_enter. simpl.
  destruct (event_wait_enter t ZX_TIME_INFINITE 0 true 0 e k) as [[[r e'] k']|] eqn:H; [|done].
  apply rtc_once. by eapply es_enter.
Qed.

Lemma ex_event_init : ev_init ex_event ex_kernel.
Proof. split; [apply ex_kernel_init | by eexists]. Qed.

Lemma ex_waiting_run : rtc ev_step (ex_event, ex_kernel) (ex_waiting.1, ex_waiting.2).
Proof. rewrite <- surjective_pairing. etrans; [|by apply ex_enter_run]. by apply ex_enter_run. Qed.

Lemma ex_signal_run : rtc ev_step (ex_event, ex_kernel) (mkEvent (Some ZX_OK) 1 7, ex_kernel).
Proof. apply rtc_once. by apply (es_signal _ _ ZX_OK 0). Qed.

Lemma event_signaled_has_no_waiters_witness : waiters 7 ex_kernel = [].
Proof. by apply (event_signaled_has_no_waiters _ _ _ _ ex_event_init ex_signal_run). Defined.

Lemma event_signal_releases_witness :
  exists n e' k', event_signal_internal ex_waiting.1 ZX_ERR_CANCELED ex_waiting.2 = Some (n, e', k') /\
    n = 1 /\ waiters 7 k' = [1].
Proof.
  destruct (event_signal_releases _ _ _ _ ZX_ERR_CANCELED ex_event_init ex_waiting_run) as (n & e' & k' & H & Hm).
  exists n, e', k'. split; [exact H|]. exact (conj (proj1 Hm) (proj1 (proj2 (proj2 Hm)))).
Defined.
