(* ===== verification/Port.v ===== *)
(** * Ports

    [object/port_dispatcher.cc] and [object/port_dispatcher.h]: the packet queue,
    the interrupt packet queue, the observers a port plants on other objects and
    who destroys them.  A [PortObserver] contains its packet, so both have one
    address.  [dispatcher_] holds that field of every observer of the port,
    [heap] the observers that have not been destroyed, [arena_] the free slots of
    the arena of packets.  A critical section that is followed by a post is a
    definition of its own, since other threads may run in between.

    The semaphore is an interface, [PortSemaphore]: what the port needs to know of
    it.  [PortSystem.v] gives the instance of [Semaphore.v]. *)

From S2P Require Import Prelude Zx Dispatcher.

Class PortSemaphore (S : Type) := {
  sema_Post : S -> S;
  (** permits posted and not yet taken by a successful wait *)
  sema_permits : S -> Z;
  (** a [Wait] of some thread returns [ZX_OK] *)
  sema_acquire : S -> S -> Prop;
  (** anything else that happens to the semaphore *)
  sema_other : S -> S -> Prop;
}.

Class PortSemaphoreLaws (S : Type) `{!PortSemaphore S} := {
  sema_permits_nonneg s : 0 <= sema_permits s;
  sema_Post_permits s : sema_permits (sema_Post s) = sema_permits s + 1;
  sema_acquire_permits s s' : sema_acquire s s' -> sema_permits s' = sema_permits s - 1;
  sema_other_permits s s' : sema_other s s' -> sema_permits s' = sema_permits s;
}.

Module PortDispatcher.

Definition ZX_WAIT_ASYNC_TIMESTAMP : Z := 1.
Definition ZX_PKT_TYPE_USER : Z := 0.
Definition ZX_PKT_TYPE_SIGNAL_ONE : Z := 1.
Definition ZX_PKT_TYPE_INTERRUPT : Z := 7.
Definition ZX_PORT_BIND_TO_INTERRUPT : Z := 1.
Definition kMaxAllocatedPacketCount : Z := 16 * 1024.
Definition kMaxAllocatedPacketCountPerPort : Z := kMaxAllocatedPacketCount / 8.

(** [zx_port_packet_t]; the union is its 32 bytes, the first word in halves:
    [signal.trigger] and [signal.observed], [signal.count], [signal.timestamp]. *)
Record zx_port_packet_t := mkPkt {
  key : Z; type : Z; status : zx_status_t;
  trigger : Z; observed : Z; count : Z; timestamp : Z; word3 : Z;
}.

Inductive PortAllocator := port_allocator | other_allocator (a : Z).

Record PortPacket := mkPacket {
  pp_addr : Z;
  packet : zx_port_packet_t;
  handle : Z;
  observer : option Z;
  allocator : option PortAllocator;
}.

Definition is_ephemeral (pp : PortPacket) : bool := bool_decide (is_Some (allocator pp)).
Definition IsDefaultAllocatedEphemeral (pp : PortPacket) : bool :=
  match allocator pp with Some port_allocator => true | _ => false end.

Record PortInterruptPacket := mkInterruptPacket { ip_addr : Z; ip_timestamp : Z; ip_key : Z }.

Record PortObserver := mkObserver {
  po_addr : Z;
  po_options : Z;
  trigger_ : Z;
  po_handle : Z;
  po_key : Z;
  port_ : Z;
}.

Record Port (S : Type) := mkPort {
  port_id : Z;
  options_ : Z;
  sema_ : S;
  zero_handles_ : bool;
  num_ephemeral_packets_ : Z;
  packets_ : list PortPacket;
  interrupt_packets_ : list PortInterruptPacket;
  observers_ : list Z;
  dispatcher_ : gmap Z Z;
  heap : gset Z;
  arena_ : list Z;
  current_time : Z;
}.
Arguments mkPort {S}.
Arguments port_id {S}.
Arguments options_ {S}.
Arguments sema_ {S}.
Arguments zero_handles_ {S}.
Arguments num_ephemeral_packets_ {S}.
Arguments packets_ {S}.
Arguments interrupt_packets_ {S}.
Arguments observers_ {S}.
Arguments dispatcher_ {S}.
Arguments heap {S}.
Arguments arena_ {S}.
Arguments current_time {S}.

Section Ops.
Context {S : Type} {SemaOps : PortSemaphore S}.
Local Abbreviation Port := (Port S).

Definition with_sema (s : S) (p : Port) : Port :=
  mkPort (port_id p) (options_ p) s (zero_handles_ p) (num_ephemeral_packets_ p) (packets_ p)
    (interrupt_packets_ p) (observers_ p) (dispatcher_ p) (heap p) (arena_ p) (current_time p).
Definition with_zero_handles (p : Port) : Port :=
  mkPort (port_id p) (options_ p) (sema_ p) true (num_ephemeral_packets_ p) (packets_ p)
    (interrupt_packets_ p) (observers_ p) (dispatcher_ p) (heap p) (arena_ p) (current_time p).
Definition with_packets (n : Z) (ps : list PortPacket) (p : Port) : Port :=
  mkPort (port_id p) (options_ p) (sema_ p) (zero_handles_ p) n ps
    (interrupt_packets_ p) (observers_ p) (dispatcher_ p) (heap p) (arena_ p) (current_time p).
Definition with_interrupts (ips : list PortInterruptPacket) (p : Port) : Port :=
  mkPort (port_id p) (options_ p) (sema_ p) (zero_handles_ p) (num_ephemeral_packets_ p) (packets_ p)
    ips (observers_ p) (dispatcher_ p) (heap p) (arena_ p) (current_time p).
Definition with_observers (obs : list Z) (d : gmap Z Z) (p : Port) : Port :=
  mkPort (port_id p) (options_ p) (sema_ p) (zero_handles_ p) (num_ephemeral_packets_ p) (packets_ p)
    (interrupt_packets_ p) obs d (heap p) (arena_ p) (current_time p).
Definition with_heap (h : gset Z) (p : Port) : Port :=
  mkPort (port_id p) (options_ p) (sema_ p) (zero_handles_ p) (num_ephemeral_packets_ p) (packets_ p)
    (interrupt_packets_ p) (observers_ p) (dispatcher_ p) h (arena_ p) (current_time p).
Definition with_arena (a : list Z) (p : Port) : Port :=
  mkPort (port_id p) (options_ p) (sema_ p) (zero_handles_ p) (num_ephemeral_packets_ p) (packets_ p)
    (interrupt_packets_ p) (observers_ p) (dispatcher_ p) (heap p) a (current_time p).

Definition Post (p : Port) : Port := with_sema (sema_Post (sema_ p)) p.

(** ** Packets *)

(** [ArenaPortAllocator::Alloc]: a packet of zeros in a free slot. *)
Definition zero_pkt : zx_port_packet_t := mkPkt 0 0 ZX_OK 0 0 0 0 0.
Definition Alloc (p : Port) : option (PortPacket * Port) :=
  match arena_ p with
  | [] => None
  | a :: rest => Some (mkPacket a zero_pkt 0 None (Some port_allocator), with_arena rest p)
  end.

Definition Free (pp : PortPacket) (p : Port) : Port :=
  if IsDefaultAllocatedEphemeral pp then with_arena (pp_addr pp :: arena_ p) p else p.

(** [unique_ptr<PortObserver>::reset] on the packet's [observer]. *)
Definition reset_observer (pp : PortPacket) (p : Port) : Port :=
  match observer pp with Some o => with_heap (heap p ∖ {[o]}) p | None => p end.

Definition InContainer (a : Z) (ps : list PortPacket) : bool := existsb (fun pp => pp_addr pp =? a) ps.
Definition erase (a : Z) (ps : list PortPacket) : list PortPacket := filter (fun pp => pp_addr pp <> a) ps.

Definition with_pkt (k : zx_port_packet_t) (pp : PortPacket) : PortPacket :=
  mkPacket (pp_addr pp) k (handle pp) (observer pp) (allocator pp).
Definition with_observer (o : option Z) (pp : PortPacket) : PortPacket :=
  mkPacket (pp_addr pp) (packet pp) (handle pp) o (allocator pp).
Definition with_observed (obs cnt : Z) (k : zx_port_packet_t) : zx_port_packet_t :=
  mkPkt (key k) (type k) (status k) (trigger k) obs cnt (timestamp k) (word3 k).

(** The change of [num_ephemeral_packets_] when [pp] comes ([1]) or goes ([-1]). *)
Definition count_ephemeral (delta : Z) (pp : PortPacket) (n : Z) : Z :=
  if IsDefaultAllocatedEphemeral pp then u64 (n + delta) else n.

(** The critical section of [Queue]; the boolean says that a post follows. *)
Definition Queue_locked (pp : PortPacket) (obs cnt : Z) (p : Port) : zx_status_t * bool * Port :=
  if zero_handles_ p then (ZX_ERR_BAD_HANDLE, false, p)
  else if IsDefaultAllocatedEphemeral pp && (num_ephemeral_packets_ p >? kMaxAllocatedPacketCountPerPort)
  then (ZX_ERR_SHOULD_WAIT, false, p)
  else if nz obs && InContainer (pp_addr pp) (packets_ p) then
    (ZX_OK, false,
     with_packets (num_ephemeral_packets_ p)
       (map (fun q => if pp_addr q =? pp_addr pp
                      then with_pkt (with_observed (observed (packet q) .| obs) (count (packet q)) (packet q)) q
                      else q) (packets_ p)) p)
  else
    let pp := if nz obs then with_pkt (with_observed obs cnt (packet pp)) pp else pp in
    (ZX_OK, true,
     with_packets (count_ephemeral 1 pp (num_ephemeral_packets_ p)) (packets_ p ++ [pp]) p).

Definition Queue (pp : PortPacket) (obs cnt : Z) (p : Port) : zx_status_t * Port :=
  let '(st, post, p) := Queue_locked pp obs cnt p in
  (st, if post then Post p else p).

Definition user_packet (k : zx_port_packet_t) (pp : PortPacket) : PortPacket :=
  with_pkt (mkPkt (key k) ZX_PKT_TYPE_USER (status k) (trigger k) (observed k) (count k)
                  (timestamp k) (word3 k)) pp.

Definition QueueUser (k : zx_port_packet_t) (p : Port) : zx_status_t * Port :=
  match Alloc p with
  | None => (ZX_ERR_NO_MEMORY, p)
  | Some (pp, p) =>
      let '(st, p) := Queue (user_packet k pp) 0 0 p in
      (st, if is_err st then Free pp p else p)
  end.

(** ** Interrupt packets *)

Definition interrupt_InContainer (a : Z) (ips : list PortInterruptPacket) : bool :=
  existsb (fun ip => ip_addr ip =? a) ips.

Definition RemoveInterruptPacket (a : Z) (p : Port) : bool * Port :=
  if interrupt_InContainer a (interrupt_packets_ p)
  then (true, with_interrupts (filter (fun ip => ip_addr ip <> a) (interrupt_packets_ p)) p)
  else (false, p).

Definition QueueInterruptPacket_locked (a k ts : Z) (p : Port) : bool * Port :=
  if interrupt_InContainer a (interrupt_packets_ p) then (false, p)
  else (true, with_interrupts (interrupt_packets_ p ++ [mkInterruptPacket a ts k]) p).

Definition QueueInterruptPacket (a k ts : Z) (p : Port) : bool * Port :=
  let '(queued, p) := QueueInterruptPacket_locked a k ts p in
  (queued, if queued then Post p else p).

(** ** Dequeue, after a wait on the semaphore that succeeded *)

(** The packet reported for an interrupt: [interrupt.timestamp] is the first word. *)
Definition interrupt_pkt (ip : PortInterruptPacket) : zx_port_packet_t :=
  mkPkt (ip_key ip) ZX_PKT_TYPE_INTERRUPT ZX_OK (u32 (ip_timestamp ip)) (u32 (ip_timestamp ip / 2 ^ 32)) 0 0 0.

Definition Dequeue_interrupt (p : Port) : option (zx_port_packet_t * Port) :=
  if options_ p =? ZX_PORT_BIND_TO_INTERRUPT then
    match interrupt_packets_ p with
    | ip :: rest => Some (interrupt_pkt ip, with_interrupts rest p)
    | [] => None
    end
  else None.

Definition Dequeue_packet (p : Port) : option (zx_port_packet_t * Port) :=
  match packets_ p with
  | [] => None
  | pp :: rest =>
      let p := with_packets (count_ephemeral (-1) pp (num_ephemeral_packets_ p)) rest p in
      let p := reset_observer pp p in
      Some (packet pp, if is_ephemeral pp then Free pp p else p)
  end.

(** One turn of the loop: [None] goes back to wait. *)
Definition Dequeue_turn (p : Port) : option (zx_port_packet_t * Port) :=
  match Dequeue_interrupt p with Some r => Some r | None => Dequeue_packet p end.

(** ** Cancellation *)

(** The loop of [CancelQueued(handle, key)]. *)
Fixpoint cancel_queued_loop (h k : Z) (ps : list PortPacket) (n : Z) (destroyed : gset Z)
    : bool * list PortPacket * Z * gset Z :=
  match ps with
  | [] => (false, [], n, destroyed)
  | pp :: rest =>
      if (handle pp =? h) && (key (packet pp) =? k) then
        let n := count_ephemeral (-1) pp n in
        let destroyed := match observer pp with Some o => {[o]} ∪ destroyed | None => destroyed end in
        let '(_, rest, n, destroyed) := cancel_queued_loop h k rest n destroyed in
        (true, rest, n, destroyed)
      else
        let '(removed, rest, n, destroyed) := cancel_queued_loop h k rest n destroyed in
        (removed, pp :: rest, n, destroyed)
  end.

Definition CancelQueued (h k : Z) (p : Port) : bool * Port :=
  let '(packet_removed, ps, n, destroyed) :=
    cancel_queued_loop h k (packets_ p) (num_ephemeral_packets_ p) ∅ in
  (packet_removed, with_heap (heap p ∖ destroyed) (with_packets n ps p)).

Definition CancelQueued_packet (a : Z) (p : Port) : bool * Port :=
  match List.find (fun pp => pp_addr pp =? a) (packets_ p) with
  | Some pp =>
      (true, reset_observer pp
               (with_packets (count_ephemeral (-1) pp (num_ephemeral_packets_ p)) (erase a (packets_ p)) p))
  | None => (false, p)
  end.

(** ** Observers *)

(** Decides the fate of an observer its dispatcher has let go of. *)
Definition MaybeReap (o : Z) (p : Port) : Port :=
  match dispatcher_ p !! o with
  | Some _ =>
      let p := with_observers (filter (fun x => x <> o) (observers_ p)) (delete o (dispatcher_ p)) p in
      if InContainer o (packets_ p)
      then with_packets (num_ephemeral_packets_ p)
             (map (fun q => if pp_addr q =? o then with_observer (Some o) q else q) (packets_ p)) p
      else with_heap (heap p ∖ {[o]}) p
  | None => p
  end.

(** The observer's own packet. *)
Definition observer_packet (o : PortObserver) (ts : Z) : PortPacket :=
  mkPacket (po_addr o) (mkPkt (po_key o) ZX_PKT_TYPE_SIGNAL_ONE ZX_OK (trigger_ o) 0 0 ts 0)
    (po_handle o) None None.

Definition MaybeQueue (new_state cnt : Z) (o : PortObserver) (p : Port) : Flags * PortObserver * Port :=
  if negb (has (trigger_ o) new_state) then (0, o, p)
  else
    let ts := if has (po_options o) ZX_WAIT_ASYNC_TIMESTAMP then current_time p else 0 in
    let '(_, p) := Queue (observer_packet o ts) new_state cnt p in
    (kNeedRemoval, o, p).

(** The count reported with the first matching entry of [cinfo]. *)
Definition initial_count (o : PortObserver) (cinfo : option CountInfo) : Z :=
  match cinfo with
  | None => 1
  | Some ci =>
      match List.find (fun e => has (ce_signal e) (trigger_ o) && (ce_count e >? 0)) (entries ci) with
      | Some e => ce_count e
      | None => 1
      end
  end.

#[export] Instance PortObserver_observer : StateObserver Port PortObserver := {
  observer_id := po_addr;
  OnInitialize initial_state cinfo o p := MaybeQueue initial_state (initial_count o cinfo) o p;
  OnStateChange new_state o p := MaybeQueue new_state 1 o p;
  OnCancel h o p := (if po_handle o =? h then kHandled .| kNeedRemoval else 0, o, p);
  OnCancelByKey h port k o p :=
    (if negb (po_handle o =? h) || negb (po_key o =? k) || negb (port_ o =? port) then 0
     else kHandled .| kNeedRemoval, o, p);
  OnRemoved o p := MaybeReap (po_addr o) p;
}.

#[export] Instance PortObserver_laws : StateObserverLaws Port PortObserver.
Proof.
  split; intros; simpl; try done; unfold MaybeQueue; destruct (negb _); try done;
    by destruct (Queue _ _ _ _).
Qed.

(** The objects a port may watch, by address. *)
Abbreviation Objects := (gmap Z (Dispatcher PortObserver)).

(** [MakeObserver]; [alloc] is the result of [new], [obj] the object of the handle
    [h] and [rights] its [default_rights()]. *)
Definition MakeObserver (opts h : Z) (obj rights : Z) (k sigs : Z) (alloc : option Z) (p : Port) (objs : Objects)
    : option (zx_status_t * Port * Objects) :=
  d ← objs !! obj;
  if negb (is_waitable rights) then Some (ZX_ERR_NOT_SUPPORTED, p, objs)
  else
    match alloc with
    | None => Some (ZX_ERR_NO_MEMORY, p, objs)
    | Some a =>
        let o := mkObserver a opts sigs h k (port_id p) in
        let p := with_heap ({[a]} ∪ heap p) p in
        let p := with_observers (a :: observers_ p) (<[a := obj]> (dispatcher_ p)) p in
        let '(st, d, p) := AddObserver rights o d p in
        Some (st, p, <[obj := d]> objs)
    end.

(** ** The last handle goes *)

Fixpoint free_packets (ps : list PortPacket) (p : Port) : Port :=
  match ps with
  | [] => p
  | pp :: rest =>
      let p := with_packets (num_ephemeral_packets_ p) rest p in
      if IsDefaultAllocatedEphemeral pp
      then free_packets rest (Free pp (with_packets (count_ephemeral (-1) pp (num_ephemeral_packets_ p)) rest p))
      else free_packets rest (reset_observer pp p)
  end.

(** [UnlinkDispatcherLocked] and [RemoveObserver] for each observer left. *)
Fixpoint remove_observers (obs : list Z) (p : Port) (objs : Objects) : option (Port * Objects) :=
  match obs with
  | [] => Some (p, objs)
  | o :: rest =>
      dp ← dispatcher_ p !! o;
      d ← objs !! dp;
      let p := with_observers rest (delete o (dispatcher_ p)) p in
      let objs := <[dp := (RemoveObserver o d).2]> objs in
      remove_observers rest (with_heap (heap p ∖ {[o]}) p) objs
  end.

(** [None]: the assertion that the observer has a dispatcher fails. *)
Definition on_zero_handles (p : Port) (objs : Objects) : option (Port * Objects) :=
  let p := with_zero_handles p in
  let p := free_packets (packets_ p) p in
  remove_observers (observers_ p) p objs.

(** ** Creation *)

Definition Create (id opts : Z) (alloc : bool) (s : S) (arena : list Z) (now : Z) : zx_status_t + Port :=
  if nz opts && negb (opts =? ZX_PORT_BIND_TO_INTERRUPT) then inl ZX_ERR_INVALID_ARGS
  else if negb alloc then inl ZX_ERR_NO_MEMORY
  else inr (mkPort id opts s false 0 [] [] [] ∅ ∅ arena now).

End Ops.

(** [sys_port_cancel], past the handle lookups, for the object [obj]. *)
Definition port_cancel {S} `{PortSemaphore S} (obj rights h k : Z) (p : Port S)
    (objs : gmap Z (Dispatcher PortObserver)) : option (zx_status_t * Port S * gmap Z (Dispatcher PortObserver)) :=
  d ← objs !! obj;
  if negb (is_waitable rights) then Some (ZX_ERR_NOT_SUPPORTED, p, objs)
  else
    let '(had_observer, d, p) := CancelByKey h (port_id p) k d p in
    let '(packet_removed, p) := CancelQueued h k p in
    Some (if had_observer || packet_removed then ZX_OK else ZX_ERR_NOT_FOUND, p, <[obj := d]> objs).

End PortDispatcher.
