(* ===== verification/PortSema.v ===== *)
(** * The semaphore of a port

    [Semaphore.v] as an instance of the interface [Port.v] uses.  Its states are
    those of a semaphore created with count zero and used by any number of
    threads; [errs] says whether waits may time out or be killed. *)

From S2P Require Import Prelude Zx WaitQueue WaitQueueFacts Semaphore SemaphoreFacts Port.
Import WaitQueue Semaphore.Semaphore.

Record sema (errs : bool) := mkSema {
  sys :> sem_sys;
  sys_run : exists y0, sem_init y0 0 /\ rtc (sem_step errs) y0 sys;
}.
Arguments mkSema {errs}.
Arguments sys {errs}.
Arguments sys_run {errs}.

Lemma sema_inv {errs} (s : sema errs) : sem_inv errs 0 s.
Proof. destruct (sys_run s) as (y0 & H0 & Hr). by apply (sem_reach_inv errs 0 y0). Qed.

Lemma sema_post_run {errs} (s : sema errs) : exists y0, sem_init y0 0 /\ rtc (sem_step errs) y0 (do_post s).
Proof. destruct (sys_run s) as (y0 & H0 & Hr). exists y0. split; [done|]. etrans; [done | apply do_post_run]. Qed.

#[export] Instance sema_port errs : PortSemaphore (sema errs) := {
  sema_Post s := mkSema (do_post s) (sema_post_run s);
  sema_permits s := posts s - acquired s;
  sema_acquire s s' := sem_step errs s s' /\ posts s' = posts s /\ acquired s' = acquired s + 1;
  sema_other s s' := sem_step errs s s' /\ posts s' = posts s /\ acquired s' = acquired s;
}.

(** A post always finds the semaphore's queue. *)
Lemma do_post_posts errs y :
  sem_inv errs 0 y -> posts (do_post y) = posts y + 1 /\ acquired (do_post y) = acquired y.
Proof.
  intros Hi. unfold do_post, Post. simpl. destruct (count_ (sem y) + 1 <=? 0); [|done].
  destruct (wake_one_spec (waitq_ (sem y)) ZX_OK (kern y) (si_kern _ _ _ Hi) (si_queue _ _ _ Hi))
    as (n & k' & -> & _). done.
Qed.

#[export] Instance sema_port_laws errs : PortSemaphoreLaws (sema errs).
Proof.
  split.
  - intros s. pose proof (si_nonneg _ _ _ (sema_inv s)) as Hn. pose proof (si_count _ _ _ (sema_inv s)) as Hc.
    pose proof (length_filter (unserved (waitq_ (sem s)) (kern s)) (inwait s)) as Hl.
    unfold zlen in *. simpl. lia.
  - intros s. simpl. destruct (do_post_posts errs s (sema_inv s)) as [-> ->]. lia.
  - intros s s' (_ & Hp & Ha). simpl. lia.
  - intros s s' (_ & Hp & Ha). simpl. lia.
Qed.

(** By conservation, the permits are those of the count and of the threads inside
    [Wait]. *)
Lemma sema_permits_count {errs} (s : sema errs) :
  sema_permits s = count_ (sem s) + zlen (inwait s).
Proof. pose proof (si_count _ _ _ (sema_inv s)). simpl. lia. Qed.

(** A new semaphore, for concrete runs. *)
Definition new_sema errs : sema errs :=
  mkSema ex_sys (ex_intro _ ex_sys (conj ex_sys_init (rtc_refl _ _))).
