(* ===== verification/PortFacts.v ===== *)
(** * Correctness of ports: observers and packets

    Who owns an observer and its packet, in every state a port and the objects it
    watches can reach by [zx_object_wait_async], signal changes, cancellation,
    user packets, dequeues and the close of the port. *)

From S2P Require Import Prelude Zx Dispatcher Port PortSema.
Import PortDispatcher.

Abbreviation Objects := (gmap Z (Dispatcher PortObserver)).

Section PortFacts.
Context {S : Type} {SemaOps : PortSemaphore S}.
Implicit Types (p : Port S) (pp : PortPacket) (a : Z).

Definition addrs (ps : list PortPacket) : list Z := map pp_addr ps.

(** A packet in the queue: one of an observer, which it owns, that fired on a
    signal it waits for; or one from the arena, which owns nothing. *)
Definition packet_ok (pp : PortPacket) : Prop :=
  match allocator pp with
  | None => observer pp = Some (pp_addr pp) /\ type (packet pp) = ZX_PKT_TYPE_SIGNAL_ONE /\
            has (trigger (packet pp)) (observed (packet pp)) = true /\ handle pp <> 0
  | Some port_allocator => observer pp = None /\ handle pp = 0
  | Some (other_allocator _) => False
  end.

Record port_inv (p : Port S) : Prop := {
  pi_list : NoDup (observers_ p) /\ forall a, a ∈ observers_ p <-> is_Some (dispatcher_ p !! a);
  pi_addrs : NoDup (addrs (packets_ p) ++ arena_ p);
  pi_linked : forall a, is_Some (dispatcher_ p !! a) -> a ∉ addrs (packets_ p) ++ arena_ p;
  pi_packets : Forall packet_ok (packets_ p);
  pi_heap : forall a, a ∈ heap p <->
              is_Some (dispatcher_ p !! a) \/ exists pp, pp ∈ packets_ p /\ observer pp = Some a;
  pi_num : num_ephemeral_packets_ p = zlen (filter (fun pp => IsDefaultAllocatedEphemeral pp = true) (packets_ p));
  pi_max : num_ephemeral_packets_ p <= kMaxAllocatedPacketCountPerPort + 1;
  pi_zero : zero_handles_ p = true -> packets_ p = [] /\ dispatcher_ p = ∅;
}.

(** ** Helpers *)

Lemma InContainer_iff a ps : InContainer a ps = true <-> a ∈ addrs ps.
Proof.
  unfold InContainer, addrs. rewrite existsb_exists. split.
  - intros (pp & Hin & He%Z.eqb_eq). subst. apply list_elem_of_In, in_map. done.
  - intros Hi. apply list_elem_of_In, in_map_iff in Hi as (pp & <- & Ho). exists pp. split; [done | by apply Z.eqb_eq].
Qed.

Lemma InContainer_false a ps : InContainer a ps = false <-> a ∉ addrs ps.
Proof. rewrite <- InContainer_iff. by destruct (InContainer a ps). Qed.

Lemma elem_addrs pp ps : pp ∈ ps -> pp_addr pp ∈ addrs ps.
Proof. intros H. apply list_elem_of_In, in_map, list_elem_of_In. done. Qed.

Lemma zlen_snoc_filter (P : PortPacket -> Prop) `{forall x, Decision (P x)} ps pp :
  zlen (filter P (ps ++ [pp])) = zlen (filter P ps) + (if decide (P pp) then 1 else 0).
Proof.
  rewrite filter_app, zlen_app. f_equal. simpl.
  destruct (decide (P pp)); [by rewrite filter_cons_True | by rewrite filter_cons_False].
Qed.

Lemma observer_is_addr pp : packet_ok pp -> forall a, observer pp = Some a -> pp_addr pp = a.
Proof.
  unfold packet_ok. destruct (allocator pp) as [[]|].
  - intros [H _] a. congruence.
  - done.
  - intros [H _] a. congruence.
Qed.

Lemma map_reap_snoc o (ps : list PortPacket) pp :
  o ∉ addrs ps -> pp_addr pp = o ->
  map (fun q => if pp_addr q =? o then with_observer (Some o) q else q) (ps ++ [pp]) =
  ps ++ [with_observer (Some o) pp].
Proof.
  intros Hni He. rewrite map_app. simpl. rewrite He, Z.eqb_refl. f_equal.
  induction ps as [|q ps IH]; simpl; [done|]. apply not_elem_of_cons in Hni as [Hq Hni].
  destruct (Z.eqb_spec (pp_addr q) o); [congruence|]. by rewrite IH.
Qed.

Lemma unlink_elem a (obs : list Z) (m : gmap Z Z) :
  (forall x, x ∈ obs <-> is_Some (m !! x)) ->
  forall x, x ∈ filter (fun y => y <> a) obs <-> is_Some (delete a m !! x).
Proof.
  intros H x. rewrite list_elem_of_filter, H, lookup_delete_is_Some. split; intros [H1 H2]; by split.
Qed.

(** ** An observer that fires *)

Definition fired (new_state cnt now : Z) (o : PortObserver) : PortPacket :=
  let ts := if has (po_options o) ZX_WAIT_ASYNC_TIMESTAMP then now else 0 in
  mkPacket (po_addr o) (mkPkt (po_key o) ZX_PKT_TYPE_SIGNAL_ONE ZX_OK (trigger_ o) new_state cnt ts 0)
    (po_handle o) (Some (po_addr o)) None.

(** The callback and the removal that follows it: the packet goes to the end of
    the queue with its observer, and the observer is unlinked. *)
Lemma fire_spec o new_state cnt p :
  port_inv p -> is_Some (dispatcher_ p !! po_addr o) -> has (trigger_ o) new_state = true -> po_handle o <> 0 ->
  exists p1, MaybeQueue new_state cnt o p = (kNeedRemoval, o, p1) /\
    let p' := MaybeReap (po_addr o) p1 in
    port_inv p' /\ packets_ p' = packets_ p ++ [fired new_state cnt (current_time p) o] /\
    dispatcher_ p' = delete (po_addr o) (dispatcher_ p) /\
    current_time p' = current_time p /\ port_id p' = port_id p /\ zero_handles_ p' = zero_handles_ p.
Proof.
  intros Hinv [dp Hl] Ht Hh. set (a := po_addr o) in *.
  assert (zero_handles_ p = false) as Hz.
  { destruct (zero_handles_ p) eqn:E; [|done]. destruct (pi_zero _ Hinv E) as [_ He]. rewrite He in Hl. done. }
  assert (nz new_state = true) as Hnz.
  { unfold nz, has in *. apply negb_true_iff, Z.eqb_neq. intros ->. by rewrite Z.land_0_r in Ht. }
  pose proof (pi_linked _ Hinv a (ex_intro _ dp Hl)) as Hna.
  assert (a ∉ addrs (packets_ p)) as Hni by (intros HF; apply Hna, elem_of_app; by left).
  assert (a ∉ arena_ p) as Hnr by (intros HF; apply Hna, elem_of_app; by right).
  unfold MaybeQueue. rewrite Ht. simpl negb. cbn iota.
  set (ts := if has (po_options o) ZX_WAIT_ASYNC_TIMESTAMP then _ else _).
  unfold Queue, Queue_locked. change (IsDefaultAllocatedEphemeral (observer_packet o ts)) with false.
  change (pp_addr (observer_packet o ts)) with a. rewrite Hz, Hnz. cbn [andb].
  rewrite (proj2 (InContainer_false _ _) Hni). cbn iota. eexists. split; [reflexivity|].
  unfold MaybeReap. simpl. rewrite Hl. simpl. rewrite (proj2 (InContainer_iff _ _)).
  2:{ unfold addrs. rewrite map_app. apply elem_of_app. right. apply list_elem_of_here. }
  simpl. rewrite (map_reap_snoc a) by done. split_and!; try done.
  destruct Hinv as [[Hnd Hlst] Had Hlk Hpk Hhp Hnum Hmax Hzero]. split; simpl; try done.
  - split; [by apply NoDup_filter | by apply unlink_elem].
  - unfold addrs in *. rewrite map_app. simpl. rewrite <- app_assoc. simpl. rewrite <- Permutation_middle.
    by apply NoDup_cons.
  - intros x [Hx Hs]%lookup_delete_is_Some. unfold addrs. rewrite map_app. simpl. rewrite <- app_assoc. simpl.
    rewrite <- Permutation_middle, not_elem_of_cons. split; [done | by apply Hlk].
  - apply Forall_app. split; [done|]. apply Forall_singleton. by split_and!.
  - intros x. rewrite Hhp, lookup_delete_is_Some. split.
    + intros [Hs|(pp & Hin & Ho)].
      * destruct (decide (a = x)) as [<-|]; [|by left; split]. right. exists (fired new_state cnt (current_time p) o).
        split; [|done]. apply elem_of_app. right. apply list_elem_of_here.
      * right. exists pp. split; [|done]. apply elem_of_app. by left.
    + intros [[_ Hs]|(pp & [Hin|Hin]%elem_of_app & Ho)]; [by left | right; by exists pp |].
      apply list_elem_of_singleton in Hin as ->. simpl in Ho. injection Ho as <-. left. by exists dp.
  - rewrite zlen_snoc_filter, decide_False by done. rewrite <- Hnum. unfold count_ephemeral. simpl. lia.
  - intros Hz'. congruence.
Qed.

(** An observer that is cancelled is destroyed. *)
Lemma reap_spec a p :
  port_inv p -> is_Some (dispatcher_ p !! a) ->
  let p' := MaybeReap a p in
  port_inv p' /\ packets_ p' = packets_ p /\ dispatcher_ p' = delete a (dispatcher_ p) /\
  heap p' = heap p ∖ {[a]} /\ arena_ p' = arena_ p /\ port_id p' = port_id p /\ zero_handles_ p' = zero_handles_ p.
Proof.
  intros Hinv [dp Hl]. pose proof (pi_linked _ Hinv a (ex_intro _ dp Hl)) as Hna.
  assert (a ∉ addrs (packets_ p)) as Hni by (intros HF; apply Hna, elem_of_app; by left).
  unfold MaybeReap. rewrite Hl. simpl. rewrite (proj2 (InContainer_false _ _) Hni). split_and!; try done.
  destruct Hinv as [[Hnd Hlst] Had Hlk Hpk Hhp Hnum Hmax Hzero]. split; simpl; try done.
  - split; [by apply NoDup_filter | by apply unlink_elem].
  - intros x [Hx Hs]%lookup_delete_is_Some. by apply Hlk.
  - intros x. rewrite elem_of_difference, not_elem_of_singleton, Hhp, lookup_delete_is_Some. split.
    + intros [[Hs|He] Hx]; [by left; split | by right].
    + intros [[Hx Hs]|(pp & Hin & Ho)]; [by split; [left|]|]. split; [right; by exists pp|].
      intros ->. rewrite Forall_forall in Hpk. apply Hni.
      rewrite <- (observer_is_addr pp (Hpk pp Hin) a Ho). by apply elem_addrs.
  - intros Hz. destruct (Hzero Hz) as [-> He]. split; [done|]. by rewrite He, delete_empty.
Qed.

(** ** Notification and cancellation of a list of observers *)

Definition oids (obs : list PortObserver) : list Z := map po_addr obs.

Lemma elem_oids o obs : o ∈ obs -> po_addr o ∈ oids obs.
Proof. intros H. apply list_elem_of_In, in_map, list_elem_of_In. done. Qed.

Definition unlinked (m m' : gmap Z Z) (l : list Z) : Prop :=
  forall a obj, m' !! a = Some obj <-> m !! a = Some obj /\ a ∉ l.

Lemma unlinked_nil m : unlinked m m [].
Proof. intros a obj. split; [|by intros []]. intros H. split; [done | apply not_elem_of_nil]. Qed.

Lemma unlinked_cons m m' a l : unlinked (delete a m) m' l -> unlinked m m' (a :: l).
Proof.
  intros H x obj. rewrite (H x obj), lookup_delete_Some, not_elem_of_cons. split.
  - intros ((? & ?) & ?). by split_and!.
  - intros (? & ? & ?). by split_and!.
Qed.

Lemma linked_delete (a : Z) (m : gmap Z Z) (obs : list PortObserver) :
  a ∉ oids obs -> Forall (fun o => is_Some (m !! po_addr o)) obs ->
  Forall (fun o => is_Some (delete a m !! po_addr o)) obs.
Proof.
  rewrite !Forall_forall. intros Hni H o Ho. rewrite lookup_delete_ne; [by apply H|].
  intros ->. by apply Hni, elem_oids.
Qed.

Definition sat (sigs : Z) (o : PortObserver) : Prop := has (trigger_ o) sigs = true.
#[local] Instance sat_dec sigs o : Decision (sat sigs o) := bool_eq_dec _ _.

Lemma notify_spec sigs (obs : list PortObserver) p :
  port_inv p -> NoDup (oids obs) -> Forall (fun o => is_Some (dispatcher_ p !! po_addr o)) obs ->
  Forall (fun o => po_handle o <> 0) obs ->
  let '(obs', p') := notify_loop sigs obs p in
  port_inv p' /\ obs' = filter (fun o => ~ sat sigs o) obs /\
  unlinked (dispatcher_ p) (dispatcher_ p') (oids (filter (sat sigs) obs)) /\
  packets_ p' = packets_ p ++ map (fired sigs 1 (current_time p)) (filter (sat sigs) obs) /\
  current_time p' = current_time p /\ port_id p' = port_id p /\ zero_handles_ p' = zero_handles_ p.
Proof.
  revert p. induction obs as [|o obs IH]; intros p Hinv Hnd Hl Hh; simpl.
  { rewrite app_nil_r. split_and!; try done. apply unlinked_nil. }
  apply NoDup_cons in Hnd as [Hni Hnd]. apply Forall_cons in Hl as [Ho Hl]. apply Forall_cons in Hh as [Hoh Hh].
  destruct (decide (sat sigs o)) as [Hs|Hs].
  - destruct (fire_spec o sigs 1 p Hinv Ho Hs Hoh) as (p1 & -> & Hinv' & Hpk & Hd & Hct & Hid & Hz).
    simpl. change (has kNeedRemoval kNeedRemoval) with true. cbn iota.
    specialize (IH (MaybeReap (po_addr o) p1) Hinv' Hnd).
    rewrite Hd in IH. specialize (IH (linked_delete _ _ _ Hni Hl) Hh).
    destruct (notify_loop sigs obs (MaybeReap (po_addr o) p1)) as [obs' p'].
    destruct IH as (? & -> & Hu & Hp & Hc & Hi & Hz').
    rewrite (filter_cons_False (fun o => ~ sat sigs o)) by (intros HF; by apply HF).
    rewrite (filter_cons_True (sat sigs)) by done. simpl. split_and!; try congruence; try done.
    + by apply unlinked_cons.
    + rewrite Hp, Hpk, Hct, <- app_assoc. done.
  - unfold MaybeQueue. unfold sat in Hs. apply not_true_is_false in Hs as Hs'. rewrite Hs'. simpl.
    change (has 0 kNeedRemoval) with false. cbn iota. specialize (IH p Hinv Hnd Hl Hh).
    destruct (notify_loop sigs obs p) as [obs' p']. destruct IH as (? & -> & Hu & Hp & Hc & Hi & Hz').
    rewrite (filter_cons_True (fun o => ~ sat sigs o)) by done.
    rewrite (filter_cons_False (sat sigs)) by done. by split_and!.
Qed.

(** A cancellation whose test is [f]. *)
Lemma cancel_spec (f : PortObserver -> bool) (g : PortObserver -> Port S -> Flags * PortObserver * Port S) fl obs p :
  (forall o p, g o p = (if f o then kHandled .| kNeedRemoval else 0, o, p)) ->
  port_inv p -> NoDup (oids obs) -> Forall (fun o => is_Some (dispatcher_ p !! po_addr o)) obs ->
  let '(fl', obs', p') := cancel_loop g fl obs p in
  port_inv p' /\ obs' = filter (fun o => f o = false) obs /\
  unlinked (dispatcher_ p) (dispatcher_ p') (oids (filter (fun o => f o = true) obs)) /\
  packets_ p' = packets_ p /\ arena_ p' = arena_ p /\ port_id p' = port_id p /\ zero_handles_ p' = zero_handles_ p /\
  has fl' kHandled = has fl kHandled || existsb f obs.
Proof.
  intros Hg. revert fl p. induction obs as [|o obs IH]; intros fl p Hinv Hnd Hl; simpl.
  { rewrite orb_false_r. split_and!; try done. apply unlinked_nil. }
  apply NoDup_cons in Hnd as [Hni Hnd]. apply Forall_cons in Hl as [Ho Hl]. rewrite Hg.
  destruct (f o) eqn:Hf; simpl.
  - change (has (kHandled .| kNeedRemoval) kNeedRemoval) with true. cbn iota.
    destruct (reap_spec (po_addr o) p Hinv Ho) as (Hinv' & Hpk & Hd & _ & Ha & Hid & Hz).
    specialize (IH (fl .| (kHandled .| kNeedRemoval)) (MaybeReap (po_addr o) p) Hinv' Hnd).
    rewrite Hd in IH. specialize (IH (linked_delete _ _ _ Hni Hl)).
    destruct (cancel_loop g (fl .| (kHandled .| kNeedRemoval)) obs (MaybeReap (po_addr o) p)) as [[fl' obs'] p'].
    destruct IH as (? & -> & Hu & Hp & Ha' & Hi & Hz' & Hfl).
    rewrite (filter_cons_False (fun o => f o = false)) by congruence.
    rewrite (filter_cons_True (fun o => f o = true)) by done. simpl. split_and!; try congruence; try done.
    + by apply unlinked_cons.
    + rewrite Hfl, has_lor_l. change (has (kHandled .| kNeedRemoval) kHandled) with true.
      by rewrite orb_true_r.
  - change (has 0 kNeedRemoval) with false. cbn iota. rewrite Z.lor_0_r. specialize (IH fl p Hinv Hnd Hl).
    destruct (cancel_loop g fl obs p) as [[fl' obs'] p']. destruct IH as (? & -> & Hu & Hp & Ha & Hi & Hz & Hfl).
    rewrite (filter_cons_True (fun o => f o = false)) by done.
    rewrite (filter_cons_False (fun o => f o = true)) by congruence. by split_and!.
Qed.

(** ** The port and the objects it watches *)

(** An observer is linked to an object exactly when it is in that object's list,
    and no observer in a list waits for a signal that is already asserted. *)
Record link_inv (p : Port S) (objs : Objects) : Prop := {
  li_link : forall a obj, dispatcher_ p !! a = Some obj <->
              exists d, objs !! obj = Some d /\ a ∈ oids (Dispatcher.observers_ d);
  li_nodup : forall obj d, objs !! obj = Some d -> NoDup (oids (Dispatcher.observers_ d));
  li_obs : forall obj d, objs !! obj = Some d ->
    Forall (fun o => ~ sat (signals_ d) o /\ po_handle o <> 0 /\ port_ o = port_id p) (Dispatcher.observers_ d);
}.

Definition sys_inv (p : Port S) (objs : Objects) : Prop := port_inv p /\ link_inv p objs.

Lemma li_linked p objs obj d :
  link_inv p objs -> objs !! obj = Some d ->
  Forall (fun o => is_Some (dispatcher_ p !! po_addr o)) (Dispatcher.observers_ d).
Proof.
  intros Hl Hd. apply Forall_forall. intros o Ho. exists obj. apply (li_link _ _ Hl). exists d.
  split; [done | by apply elem_oids].
Qed.

Lemma li_handles p objs obj d :
  link_inv p objs -> objs !! obj = Some d -> Forall (fun o => po_handle o <> 0) (Dispatcher.observers_ d).
Proof. intros Hl Hd. eapply Forall_impl; [by apply (li_obs _ _ Hl obj d Hd) | by intros o (_ & ? & _)]. Qed.

Lemma oids_filter (Q : PortObserver -> Prop) `{!forall o, Decision (Q o)} a obs :
  a ∈ oids (filter Q obs) <-> exists o, o ∈ obs /\ Q o /\ po_addr o = a.
Proof.
  unfold oids. rewrite list_elem_of_In, in_map_iff. split.
  - intros (o & <- & [HQ Ho]%list_elem_of_In%list_elem_of_filter). by exists o.
  - intros (o & Ho & HQ & <-). exists o. split; [done|]. apply list_elem_of_In, list_elem_of_filter. done.
Qed.

Lemma oids_nodup_filter (Q : PortObserver -> Prop) `{!forall o, Decision (Q o)} obs :
  NoDup (oids obs) -> NoDup (oids (filter Q obs)).
Proof.
  induction obs as [|o obs IH]; simpl; [done|]. intros [Hni Hnd]%NoDup_cons.
  destruct (decide (Q o)); [rewrite filter_cons_True by done | rewrite filter_cons_False by done; by apply IH].
  simpl. apply NoDup_cons. split; [|by apply IH]. intros (o' & Ho & _ & He)%oids_filter. apply Hni. rewrite <- He.
  by apply elem_oids.
Qed.

Lemma oids_inj obs o o' : NoDup (oids obs) -> o ∈ obs -> o' ∈ obs -> po_addr o = po_addr o' -> o = o'.
Proof.
  induction obs as [|x obs IH]; simpl; [by intros _ ?%elem_of_nil|]. intros [Hni Hnd]%NoDup_cons Ho Ho' He.
  apply elem_of_cons in Ho as [->|Ho]; apply elem_of_cons in Ho' as [->|Ho']; [done | | | by apply IH].
  - destruct Hni. rewrite He. by apply elem_oids.
  - destruct Hni. rewrite <- He. by apply elem_oids.
Qed.

(** The observers that satisfy [R] leave the list of one object. *)
Lemma link_filter (Q R : PortObserver -> Prop) `{!forall o, Decision (Q o)} `{!forall o, Decision (R o)}
    p p' objs obj d d' :
  (forall o, Q o <-> ~ R o) -> link_inv p objs -> objs !! obj = Some d ->
  Dispatcher.observers_ d' = filter Q (Dispatcher.observers_ d) ->
  unlinked (dispatcher_ p) (dispatcher_ p') (oids (filter R (Dispatcher.observers_ d))) ->
  port_id p' = port_id p ->
  Forall (fun o => ~ sat (signals_ d') o) (Dispatcher.observers_ d') ->
  link_inv p' (<[obj := d']> objs).
Proof.
  intros HQR Hl Hd Ho Hu Hid Hs. pose proof (li_nodup _ _ Hl obj d Hd) as Hnd. split.
  - intros a x. rewrite (Hu a x), (li_link _ _ Hl). destruct (decide (x = obj)) as [->|Hne].
    + split.
      * intros [(d0 & Hd0 & Ha) Hni]. exists d'. rewrite lookup_insert_eq. split; [done|].
        rewrite Hd in Hd0. injection Hd0 as <-. rewrite Ho. unfold oids in Ha.
        apply list_elem_of_In, in_map_iff in Ha as (o & <- & Ho'%list_elem_of_In). apply oids_filter.
        exists o. split_and!; try done. apply HQR. intros HR. apply Hni, oids_filter. by exists o.
      * intros (d0 & Hd0 & Ha). rewrite lookup_insert_eq in Hd0. injection Hd0 as <-. rewrite Ho in Ha.
        apply oids_filter in Ha as (o & Ho' & HQ & <-). split; [exists d; split; [done | by apply elem_oids]|].
        intros (o' & Ho2 & HR & He)%oids_filter. rewrite (oids_inj _ o' o Hnd) in HR by done. by apply (HQR o).
    + rewrite lookup_insert_ne by done. split; [by intros [? _]|]. intros Hx. split; [done|].
      intros (o & Ho' & _ & <-)%oids_filter. destruct Hx as (d0 & Hd0 & Ha).
      assert (dispatcher_ p !! po_addr o = Some x) as H1 by (apply (li_link _ _ Hl); by exists d0).
      assert (dispatcher_ p !! po_addr o = Some obj) as H2
        by (apply (li_link _ _ Hl); exists d; split; [done | by apply elem_oids]).
      congruence.
  - intros x d0 Hd0. destruct (decide (x = obj)) as [->|Hne].
    + rewrite lookup_insert_eq in Hd0. injection Hd0 as <-. rewrite Ho. by apply oids_nodup_filter.
    + rewrite lookup_insert_ne in Hd0 by done. by apply (li_nodup _ _ Hl x).
  - intros x d0 Hd0. destruct (decide (x = obj)) as [->|Hne].
    + rewrite lookup_insert_eq in Hd0. injection Hd0 as <-. pose proof (li_obs _ _ Hl obj d Hd) as Hf.
      rewrite Forall_forall in Hf, Hs |- *. intros o Ho'. split; [by apply Hs|]. rewrite Hid. apply Hf.
      rewrite Ho in Ho'. by apply list_elem_of_filter in Ho' as [_ ?].
    + rewrite lookup_insert_ne in Hd0 by done. rewrite Hid. by apply (li_obs _ _ Hl x).
Qed.

(** The port changes in other ways and keeps its observers. *)
Lemma link_frame p p' objs :
  link_inv p objs -> dispatcher_ p' = dispatcher_ p -> port_id p' = port_id p -> link_inv p' objs.
Proof. intros [H1 H2 H3] Hd Hi. split; rewrite ?Hd, ?Hi; done. Qed.

Lemma UpdateState_inv clear set obj d p objs :
  sys_inv p objs -> objs !! obj = Some d ->
  let '(d', p') := UpdateState clear set d p in sys_inv p' (<[obj := d']> objs).
Proof.
  intros [Hp Hl] Hd. unfold UpdateState. set (new := (signals_ d .&~ clear) .| set).
  destruct (Z.eqb_spec (signals_ d) new) as [He|Hne].
  - rewrite <- He. split; [done|]. replace (with_signals (signals_ d) d) with d by by destruct d.
    by rewrite insert_id.
  - pose proof (notify_spec new (Dispatcher.observers_ d) p Hp (li_nodup _ _ Hl obj d Hd)
                  (li_linked _ _ _ _ Hl Hd) (li_handles _ _ _ _ Hl Hd)) as H.
    simpl. destruct (notify_loop new (Dispatcher.observers_ d) p) as [obs' p'].
    destruct H as (Hp' & -> & Hu & _ & _ & Hid & _). split; [done|].
    apply (link_filter (fun o => ~ sat new o) (sat new) p p' objs obj d); try done.
    simpl. apply Forall_forall. by intros o [? _]%list_elem_of_filter.
Qed.

Lemma CancelWithFunc_inv (f : PortObserver -> bool) g obj d p objs :
  (forall o p, g o p = (if f o then kHandled .| kNeedRemoval else 0, o, p)) ->
  sys_inv p objs -> objs !! obj = Some d ->
  let '(fl, d', p') := CancelWithFunc g d p in
  sys_inv p' (<[obj := d']> objs) /\ has fl kHandled = existsb f (Dispatcher.observers_ d) /\
  Dispatcher.observers_ d' = filter (fun o => f o = false) (Dispatcher.observers_ d) /\
  packets_ p' = packets_ p /\ port_id p' = port_id p /\ zero_handles_ p' = zero_handles_ p.
Proof.
  intros Hg [Hp Hl] Hd. unfold CancelWithFunc.
  pose proof (cancel_spec f g 0 (Dispatcher.observers_ d) p Hg Hp (li_nodup _ _ Hl obj d Hd)
                (li_linked _ _ _ _ Hl Hd)) as H.
  destruct (cancel_loop g 0 (Dispatcher.observers_ d) p) as [[fl obs'] p'].
  destruct H as (Hp' & -> & Hu & Hpk & _ & Hid & Hz & Hfl). split_and!; try done.
  - split; [done|]. apply (link_filter (fun o => f o = false) (fun o => f o = true) p p' objs obj d); try done.
    + intros o. by rewrite not_true_iff_false.
    + pose proof (li_obs _ _ Hl obj d Hd) as Hf. simpl. rewrite Forall_forall in Hf |- *.
      intros o [_ Ho]%list_elem_of_filter. by apply Hf.
  - rewrite <- (orb_false_l (existsb f _)). change false with (has 0 kHandled) at 1. rewrite <- Hfl.
    unfold has, kHandled, kNeedRemoval. f_equal. f_equal. apply Z.bits_inj'. intros n Hn.
    rewrite !Z.land_spec, Z.ldiff_spec. destruct (Z.eq_dec n 1) as [->|]; [simpl; by rewrite andb_true_r|].
    change 2 with (2 ^ 1). rewrite Z.pow2_bits_false by done. by rewrite !andb_false_r.
Qed.

(** ** Packets that leave the queue *)

(** Taking [pp] out of the queue and destroying what it owns. *)
Definition matches (h k : Z) (pp : PortPacket) : bool := (handle pp =? h) && (key (packet pp) =? k).

Lemma cancel_queued_loop_spec h k ps n D :
  h <> 0 -> Forall packet_ok ps ->
  let '(r, ps', n', D') := cancel_queued_loop h k ps n D in
  r = existsb (matches h k) ps /\ ps' = filter (fun pp => matches h k pp = false) ps /\ n' = n /\
  forall a, a ∈ D' <-> a ∈ D \/ exists pp, pp ∈ ps /\ matches h k pp = true /\ observer pp = Some a.
Proof.
  intros Hh. revert n D. induction ps as [|pp ps IH]; intros n D Hok; simpl.
  { split_and!; try done. intros a. split; [by left|]. intros [|(pp & Hin & _)]; [done|]. by apply elem_of_nil in Hin. }
  apply Forall_cons in Hok as [Hpp Hok]. fold (matches h k pp). destruct (matches h k pp) eqn:Hm; simpl.
  - assert (allocator pp = None) as Ha.
    { unfold packet_ok in Hpp. destruct (allocator pp) as [[]|]; [|done|done]. destruct Hpp as [_ H0].
      unfold matches in Hm. rewrite H0 in Hm. destruct (Z.eqb_spec 0 h); [congruence | done]. }
    unfold packet_ok in Hpp. rewrite Ha in Hpp. destruct Hpp as (Ho & _). rewrite Ho.
    unfold count_ephemeral, IsDefaultAllocatedEphemeral. rewrite Ha.
    specialize (IH n ({[pp_addr pp]} ∪ D) Hok).
    destruct (cancel_queued_loop h k ps n ({[pp_addr pp]} ∪ D)) as [[[r ps'] n'] D'].
    destruct IH as (_ & -> & -> & HD). rewrite filter_cons_False by congruence. split_and!; try done.
    intros a. rewrite HD, elem_of_union, elem_of_singleton. split.
    + intros [[->|Ha']|(q & Hq & Hr)]; [right; exists pp; by split_and!; [apply list_elem_of_here | |] | by left |].
      right. exists q. split; [by apply list_elem_of_further | done].
    + intros [Ha'|(q & [->|Hq]%elem_of_cons & Hmq & Hoq)]; [by left; right | left; left; congruence |].
      right. by exists q.
  - specialize (IH n D Hok). destruct (cancel_queued_loop h k ps n D) as [[[r ps'] n'] D'].
    destruct IH as (-> & -> & -> & HD). rewrite filter_cons_True by done. split_and!; try done.
    intros a. rewrite HD. split; (intros [|(q & Hq & Hmq & Hoq)]; [by left|]); right.
    + exists q. split; [by apply list_elem_of_further | done].
    + apply elem_of_cons in Hq as [->|Hq]; [congruence|]. by exists q.
Qed.

Lemma addrs_inj ps q q' : NoDup (addrs ps) -> q ∈ ps -> q' ∈ ps -> pp_addr q = pp_addr q' -> q = q'.
Proof.
  induction ps as [|x ps IH]; simpl; [by intros _ ?%elem_of_nil|]. intros [Hni Hnd]%NoDup_cons Ho Ho' He.
  apply elem_of_cons in Ho as [->|Ho]; apply elem_of_cons in Ho' as [->|Ho']; [done | | | by apply IH].
  - destruct Hni. rewrite He. by apply elem_addrs.
  - destruct Hni. rewrite <- He. by apply elem_addrs.
Qed.

Lemma addrs_filter_sub (Q : PortPacket -> Prop) `{!forall x, Decision (Q x)} ps a :
  a ∈ addrs (filter Q ps) -> a ∈ addrs ps.
Proof.
  unfold addrs. intros (q & <- & [_ Hq]%list_elem_of_In%list_elem_of_filter)%list_elem_of_In%in_map_iff.
  by apply elem_addrs.
Qed.

Lemma addrs_filter_nodup (Q : PortPacket -> Prop) `{!forall x, Decision (Q x)} ps l :
  NoDup (addrs ps ++ l) -> NoDup (addrs (filter Q ps) ++ l).
Proof.
  induction ps as [|q ps IH]; simpl; [done|]. intros [Hni Hnd]%NoDup_cons.
  destruct (decide (Q q)); [rewrite filter_cons_True by done | rewrite filter_cons_False by done; by apply IH].
  simpl. apply NoDup_cons. split; [|by apply IH]. intros [Hx|Hx]%elem_of_app; apply Hni, elem_of_app; [|by right].
  left. by eapply addrs_filter_sub.
Qed.

Lemma CancelQueued_inv h k p :
  port_inv p -> h <> 0 ->
  let '(removed, p') := CancelQueued h k p in
  port_inv p' /\ dispatcher_ p' = dispatcher_ p /\ port_id p' = port_id p /\ zero_handles_ p' = zero_handles_ p /\
  removed = existsb (matches h k) (packets_ p) /\
  packets_ p' = filter (fun pp => matches h k pp = false) (packets_ p).
Proof.
  intros [Hlst Had Hlk Hpk Hhp Hnum Hmax Hzero] Hh. unfold CancelQueued.
  pose proof (cancel_queued_loop_spec h k (packets_ p) (num_ephemeral_packets_ p) ∅ Hh Hpk) as H.
  destruct (cancel_queued_loop _ _ _ _ _) as [[[r ps'] n'] D]. destruct H as (-> & -> & -> & HD).
  split_and!; try done. split; simpl; try done.
  - by apply addrs_filter_nodup.
  - intros a Hs [Hin|Hin]%elem_of_app; apply (Hlk a Hs), elem_of_app; [left; by eapply addrs_filter_sub | by right].
  - apply Forall_forall. intros q [_ Hq]%list_elem_of_filter. rewrite Forall_forall in Hpk. by apply Hpk.
  - intros a. rewrite elem_of_difference, Hhp, HD. split.
    + intros [[Hs|(q & Hq & Ho)] Hn]; [by left|]. right. exists q. split; [|done]. apply list_elem_of_filter.
      split; [|done]. destruct (matches h k q) eqn:Hm; [|done]. destruct Hn. right. by exists q.
    + rewrite Forall_forall in Hpk. intros [Hs|(q & [Hm Hq]%list_elem_of_filter & Ho)].
      * split; [by left|]. intros [?%elem_of_empty|(q & Hq & _ & Ho)]; [done|]. apply (Hlk a Hs), elem_of_app. left.
        rewrite <- (observer_is_addr q (Hpk q Hq) a Ho). by apply elem_addrs.
      * split; [right; by exists q|]. intros [?%elem_of_empty|(q' & Hq' & Hm' & Ho')]; [done|].
        apply NoDup_app in Had as [Had _]. rewrite (addrs_inj _ q q' Had) in Hm; [congruence | done | done |].
        by rewrite (observer_is_addr q (Hpk q Hq) a Ho), (observer_is_addr q' (Hpk q' Hq') a Ho').
  - rewrite Hnum. f_equal. symmetry. rewrite list_filter_filter. apply filter_ext_in. intros q Hq.
    split; [by intros [? _]|]. intros Hd. split; [done|]. rewrite Forall_forall in Hpk. specialize (Hpk q Hq).
    unfold packet_ok, IsDefaultAllocatedEphemeral in *. destruct (allocator q) as [[]|]; [|done|done].
    destruct Hpk as [_ H0]. unfold matches. rewrite H0. by destruct (Z.eqb_spec 0 h).
  - intros Hz. destruct (Hzero Hz) as [-> ?]. done.
Qed.

(** ** User packets *)

Lemma kmax_eq : kMaxAllocatedPacketCountPerPort = 2048.
Proof. done. Qed.

Lemma with_arena_id p : with_arena (arena_ p) p = p.
Proof. by destruct p. Qed.

(** [p] with the packet [pp] of the arena slot [a] at the end of the queue. *)
Lemma queue_ephemeral_inv p a rest pp s :
  port_inv p -> zero_handles_ p = false -> arena_ p = a :: rest ->
  num_ephemeral_packets_ p <= kMaxAllocatedPacketCountPerPort ->
  pp_addr pp = a -> allocator pp = Some port_allocator -> observer pp = None -> handle pp = 0 ->
  port_inv (with_sema s (with_packets (count_ephemeral 1 pp (num_ephemeral_packets_ p)) (packets_ p ++ [pp])
                           (with_arena rest p))).
Proof.
  intros [Hlst Had Hlk Hpk Hhp Hnum Hmax Hzero] Hz Har Hn Ha Hal Hob Hhd.
  assert (count_ephemeral 1 pp (num_ephemeral_packets_ p) = num_ephemeral_packets_ p + 1) as Hc.
  { unfold count_ephemeral, IsDefaultAllocatedEphemeral. rewrite Hal. apply u64_id.
    unfold is_u64. pose proof (zlen_nonneg (filter (fun pp => IsDefaultAllocatedEphemeral pp = true) (packets_ p))).
    rewrite kmax_eq in Hn. lia. }
  assert (addrs (packets_ p ++ [pp]) ++ rest = addrs (packets_ p) ++ arena_ p) as Heq.
  { unfold addrs. rewrite map_app, Har. simpl. rewrite <- app_assoc. simpl. by rewrite Ha. }
  split; simpl; rewrite ?Heq, ?Hc; try done.
  - apply Forall_app. split; [done|]. apply Forall_singleton. unfold packet_ok. by rewrite Hal.
  - intros x. rewrite Hhp. split; (intros [|(q & Hq & Ho)]; [by left|]; right).
    + exists q. split; [|done]. apply elem_of_app. by left.
    + apply elem_of_app in Hq as [Hq|Hq]; [by exists q|]. apply list_elem_of_singleton in Hq as ->. congruence.
  - rewrite zlen_snoc_filter, decide_True, <- Hnum; [done|]. unfold IsDefaultAllocatedEphemeral. by rewrite Hal.
  - lia.
  - intros HF. congruence.
Qed.

Lemma QueueUser_inv k p :
  port_inv p ->
  let '(st, p') := QueueUser k p in
  port_inv p' /\ dispatcher_ p' = dispatcher_ p /\ port_id p' = port_id p /\
  match arena_ p with
  | [] => st = ZX_ERR_NO_MEMORY /\ p' = p
  | a :: _ =>
      if zero_handles_ p then st = ZX_ERR_BAD_HANDLE /\ p' = p
      else if num_ephemeral_packets_ p >? kMaxAllocatedPacketCountPerPort then st = ZX_ERR_SHOULD_WAIT /\ p' = p
      else st = ZX_OK /\ exists pp, packets_ p' = packets_ p ++ [pp] /\ key (packet pp) = key k /\
             type (packet pp) = ZX_PKT_TYPE_USER /\ sema_ p' = sema_Post (sema_ p)
  end.
Proof.
  intros Hinv. unfold QueueUser, Alloc. destruct (arena_ p) as [|a rest] eqn:Har; [done|].
  unfold Queue, Queue_locked. simpl.
  assert (Free (mkPacket a zero_pkt 0 None (Some port_allocator)) (with_arena rest p) = p) as Hfree.
  { unfold Free. simpl. rewrite <- Har. by destruct p. }
  destruct (zero_handles_ p) eqn:Hz; [simpl; by rewrite Hfree|].
  destruct (Z.gtb_spec (num_ephemeral_packets_ p) kMaxAllocatedPacketCountPerPort) as [Hgt|Hle];
    [simpl; by rewrite Hfree|].
  simpl. split_and!; try done; [|by eexists].
  by apply (queue_ephemeral_inv p a rest (user_packet k (mkPacket a zero_pkt 0 None (Some port_allocator)))).
Qed.

(** ** Dequeue *)

Lemma Dequeue_packet_inv p k p' :
  port_inv p -> Dequeue_packet p = Some (k, p') ->
  port_inv p' /\ dispatcher_ p' = dispatcher_ p /\ port_id p' = port_id p /\ zero_handles_ p' = zero_handles_ p /\
  exists pp, packets_ p = pp :: packets_ p' /\ k = packet pp.
Proof.
  intros [Hlst Had Hlk Hpk Hhp Hnum Hmax Hzero]. unfold Dequeue_packet.
  destruct (packets_ p) as [|pp rest] eqn:Eps; [done|]. intros [= <- <-].
  apply Forall_cons in Hpk as [Hpp Hpk]. simpl in Had. apply NoDup_cons in Had as [Hni Had].
  assert (forall q, q ∈ rest -> observer q <> Some (pp_addr pp)) as Hown.
  { intros q Hq Ho. rewrite Forall_forall in Hpk. apply Hni, elem_of_app. left.
    rewrite <- (observer_is_addr q (Hpk q Hq) _ Ho). by apply elem_addrs. }
  unfold packet_ok in Hpp. unfold reset_observer, Free, is_ephemeral, count_ephemeral, IsDefaultAllocatedEphemeral in *.
  destruct (allocator pp) as [[]|] eqn:Hal; [|done|].
  - destruct Hpp as [Hob _]. rewrite Hob, bool_decide_true by by eexists. rewrite filter_cons_True in Hnum by by rewrite Hal.
    rewrite zlen_cons in Hnum. pose proof (zlen_nonneg (filter (fun pp => IsDefaultAllocatedEphemeral pp = true) rest)) as Hp.
    unfold IsDefaultAllocatedEphemeral in Hp.
    assert (u64 (num_ephemeral_packets_ p + -1) = num_ephemeral_packets_ p - 1) as Hu.
    { rewrite u64_id; [lia|]. unfold is_u64. rewrite kmax_eq in Hmax. lia. }
    simpl. split_and!; try done; [|by exists pp]. split; simpl; try done.
    + rewrite <- Permutation_middle. by apply NoDup_cons.
    + intros x Hs. rewrite <- Permutation_middle. by apply Hlk.
    + intros x. rewrite Hhp. split; (intros [|(q & Hq & Ho)]; [by left|]; right).
      * apply elem_of_cons in Hq as [->|Hq]; [congruence | by exists q].
      * exists q. split; [by apply list_elem_of_further | done].
    + rewrite Hu. unfold IsDefaultAllocatedEphemeral. lia.
    + lia.
    + intros Hz. by destruct (Hzero Hz).
  - destruct Hpp as [Hob _]. rewrite Hob, bool_decide_false by by intros [].
    rewrite filter_cons_False in Hnum by by rewrite Hal.
    simpl. split_and!; try done; [|by exists pp]. split; simpl; try done.
    + intros x Hs. specialize (Hlk x Hs). simpl in Hlk. by apply not_elem_of_cons in Hlk as [_ ?].
    + intros x. rewrite elem_of_difference, not_elem_of_singleton, Hhp. split.
      * intros [[Hs|(q & Hq & Ho)] Hx]; [by left|]. apply elem_of_cons in Hq as [->|Hq]; [|right; by exists q].
        destruct Hx. unfold packet_ok in *. congruence.
      * intros [Hs|(q & Hq & Ho)].
        -- split; [by left|]. intros ->. apply (Hlk _ Hs). simpl. apply list_elem_of_here.
        -- split; [right; exists q; split; [by apply list_elem_of_further | done]|]. intros ->. by apply (Hown q).
    + intros Hz. by destruct (Hzero Hz).
Qed.

(** ** New observers *)

Definition fresh (a : Z) (p : Port S) : Prop := (a ∉ heap p) /\ a ∉ addrs (packets_ p) ++ arena_ p.

Definition registered (a obj : Z) (p : Port S) : Port S :=
  with_observers (a :: observers_ p) (<[a := obj]> (dispatcher_ p)) (with_heap ({[a]} ∪ heap p) p).

Lemma fresh_unlinked a p : port_inv p -> fresh a p -> dispatcher_ p !! a = None.
Proof.
  intros Hinv [Hh _]. apply eq_None_not_Some. intros Hs. apply Hh, (pi_heap _ Hinv). by left.
Qed.

Lemma linked_insert a obj (m : gmap Z Z) x : is_Some (<[a := obj]> m !! x) <-> x = a \/ is_Some (m !! x).
Proof.
  rewrite lookup_insert_is_Some. split; [intros [->|[_ H]]; [by left | by right]|].
  intros [->|H]; [by left|]. destruct (decide (a = x)); [by left | by right].
Qed.

Lemma registered_inv a obj p :
  port_inv p -> fresh a p -> zero_handles_ p = false -> port_inv (registered a obj p).
Proof.
  intros Hinv Hf Hz. pose proof (fresh_unlinked a p Hinv Hf) as Hn. destruct Hf as [Hfh Hfa].
  destruct Hinv as [[Hnd Hlst] Had Hlk Hpk Hhp Hnum Hmax Hzero].
  split; simpl; try done.
  - split.
    + apply NoDup_cons. split; [|done]. rewrite Hlst, Hn. by intros [].
    + intros x. by rewrite elem_of_cons, Hlst, linked_insert.
  - intros x [->|Hs]%linked_insert; [done | by apply Hlk].
  - intros x. rewrite elem_of_union, elem_of_singleton, Hhp, linked_insert. tauto.
  - intros HF. congruence.
Qed.

Lemma MakeObserver_inv opts h obj rights k sigs alloc p objs st p' objs' :
  sys_inv p objs -> zero_handles_ p = false -> h <> 0 -> (forall a, alloc = Some a -> fresh a p) ->
  MakeObserver opts h obj rights k sigs alloc p objs = Some (st, p', objs') -> sys_inv p' objs'.
Proof.
  intros [Hp Hl] Hz Hh Hf. unfold MakeObserver. destruct (objs !! obj) as [d|] eqn:Hd; [|done].
  cbn [mbind option_bind]. destruct (is_waitable rights) eqn:Hw; [|by intros [= <- <- <-]]. simpl.
  destruct alloc as [a|]; [|by intros [= <- <- <-]]. specialize (Hf a eq_refl).
  pose proof (fresh_unlinked a p Hp Hf) as Hn. set (o := mkObserver a opts sigs h k (port_id p)).
  fold (registered a obj p). unfold AddObserver. rewrite Hw. simpl negb. cbn iota.
  pose proof (registered_inv a obj p Hp Hf Hz) as Hr. unfold AddObserverLocked. cbn [OnInitialize PortObserver_observer].
  destruct (decide (sat (signals_ d) o)) as [Hs|Hs].
  - destruct (fire_spec o (signals_ d) (initial_count o None) (registered a obj p) Hr) as (p1 & -> & Hi & Hpk & Hdd & _ & Hid & _);
      [simpl; rewrite lookup_insert_eq; by eexists | done | done |].
    change (has kNeedRemoval kNeedRemoval) with true. cbn iota. intros [= <- <- <-]. rewrite insert_id by done.
    split; [done|]. apply (link_frame p); [done | | done].
    etrans; [exact Hdd|]. simpl. by rewrite delete_insert_id.
  - unfold MaybeQueue. pose proof Hs as Hs'. apply not_true_is_false in Hs'. rewrite Hs'. simpl negb. cbn iota.
    change (has 0 kNeedRemoval) with false. cbn iota. intros [= <- <- <-]. split; [done|].
    assert (forall x dx, objs !! x = Some dx -> a ∉ oids (Dispatcher.observers_ dx)) as Hna.
    { intros x dx Hx Hin. assert (dispatcher_ p !! a = Some x) by (apply (li_link _ _ Hl); by exists dx). congruence. }
    destruct Hl as [Hl1 Hl2 Hl3]. split; simpl.
    + intros x y. destruct (decide (x = a)) as [->|Hxa].
      * rewrite lookup_insert_eq. split.
        -- intros [= <-]. eexists. rewrite lookup_insert_eq. split; [done|]. simpl. apply list_elem_of_here.
        -- intros (dx & Hx & Hin). destruct (decide (y = obj)) as [->|Hne]; [done|].
           rewrite lookup_insert_ne in Hx by done. by destruct (Hna y dx Hx).
      * rewrite lookup_insert_ne by done. rewrite Hl1. destruct (decide (y = obj)) as [->|Hne];
          [|by rewrite lookup_insert_ne].
        rewrite lookup_insert_eq, Hd. split; intros (dx & [= <-] & Hin); eexists; (split; [done|]); simpl in *.
        -- by apply list_elem_of_further.
        -- apply elem_of_cons in Hin as [|]; [congruence | done].
    + intros x dx Hx. destruct (decide (x = obj)) as [->|Hne].
      * rewrite lookup_insert_eq in Hx. injection Hx as <-. simpl. apply NoDup_cons.
        split; [by apply (Hna obj) | by apply (Hl2 obj)].
      * rewrite lookup_insert_ne in Hx by done. by apply (Hl2 x).
    + intros x dx Hx. destruct (decide (x = obj)) as [->|Hne].
      * rewrite lookup_insert_eq in Hx. injection Hx as <-. simpl. apply Forall_cons.
        split; [done | by apply (Hl3 obj)].
      * rewrite lookup_insert_ne in Hx by done. by apply (Hl3 x).
Qed.

(** ** The last handle of the port goes *)

Abbreviation dae := (fun pp => IsDefaultAllocatedEphemeral pp = true).

Lemma free_packets_spec ps p :
  packets_ p = ps -> Forall packet_ok ps -> num_ephemeral_packets_ p = zlen (filter dae ps) ->
  num_ephemeral_packets_ p <= kMaxAllocatedPacketCountPerPort + 1 ->
  let p' := free_packets ps p in
  packets_ p' = [] /\ num_ephemeral_packets_ p' = 0 /\ dispatcher_ p' = dispatcher_ p /\
  observers_ p' = observers_ p /\ port_id p' = port_id p /\ zero_handles_ p' = zero_handles_ p /\
  arena_ p' ≡ₚ addrs (filter dae ps) ++ arena_ p /\
  forall a, a ∈ heap p' <-> a ∈ heap p /\ ~ exists pp, pp ∈ ps /\ observer pp = Some a.
Proof.
  revert p. induction ps as [|pp ps IH]; intros p Hps Hok Hnum Hmax; simpl.
  { split_and!; try done. intros a. split; [|by intros []]. intros H. split; [done|].
    intros (q & Hq & _). by apply elem_of_nil in Hq. }
  apply Forall_cons in Hok as [Hpp Hok]. unfold packet_ok in Hpp.
  pose proof (zlen_nonneg (filter dae ps)) as Hnn. destruct (IsDefaultAllocatedEphemeral pp) eqn:Hd.
  - rewrite filter_cons_True in Hnum |- * by done. rewrite zlen_cons in Hnum.
    assert (observer pp = None) as Ho.
    { unfold IsDefaultAllocatedEphemeral in Hd. destruct (allocator pp) as [[]|]; [|done|done]. by destruct Hpp. }
    assert (count_ephemeral (-1) pp (num_ephemeral_packets_ p) = zlen (filter dae ps)) as Hc.
    { unfold count_ephemeral. rewrite Hd, u64_id; [lia|]. unfold is_u64. rewrite kmax_eq in Hmax. lia. }
    unfold Free. rewrite Hd, Hc. set (p1 := with_arena _ _).
    destruct (IH p1) as (? & ? & ? & ? & ? & ? & Ha & Hh); [done | done | done | simpl; lia |].
    split_and!; try done.
    + rewrite Ha. simpl. by rewrite Permutation_middle.
    + intros a. rewrite Hh. simpl. split; intros [Hin Hne]; (split; [done|]); intros (q & Hq & Hoq); apply Hne.
      * apply elem_of_cons in Hq as [->|Hq]; [congruence | by exists q].
      * exists q. split; [by apply list_elem_of_further | done].
  - rewrite filter_cons_False in Hnum |- * by congruence.
    assert (observer pp = Some (pp_addr pp)) as Ho.
    { unfold IsDefaultAllocatedEphemeral in Hd. destruct (allocator pp) as [[]|]; [done|done|]. by destruct Hpp. }
    unfold reset_observer. rewrite Ho. set (p1 := with_heap _ _).
    destruct (IH p1) as (? & ? & ? & ? & ? & ? & Ha & Hh); [done | done | done | simpl; lia |].
    split_and!; try done. intros a. rewrite Hh. simpl. rewrite elem_of_difference, not_elem_of_singleton. split.
    + intros [[Hin Hna] Hne]. split; [done|]. intros (q & Hq & Hoq).
      apply elem_of_cons in Hq as [->|Hq]; [congruence | apply Hne; by exists q].
    + intros [Hin Hne]. split_and!; [done | |].
      * intros ->. apply Hne. exists pp. split; [apply list_elem_of_here | done].
      * intros (q & Hq & Hoq). apply Hne. exists q. split; [by apply list_elem_of_further | done].
Qed.

Lemma erase_id_filter a (obs : list PortObserver) :
  NoDup (oids obs) -> erase_id (W := Port S) a obs = filter (fun o => po_addr o <> a) obs.
Proof.
  induction obs as [|o obs IH]; simpl; [done|]. intros [Hni Hnd]%NoDup_cons.
  destruct (Z.eqb_spec (po_addr o) a) as [<-|Hne].
  - rewrite filter_cons_False by (intros HF; by apply HF). symmetry. apply filter_all.
    intros o' Ho He. apply Hni. rewrite <- He. by apply elem_oids.
  - rewrite filter_cons_True by done. by rewrite IH.
Qed.

Lemma remove_observer_link a dp d p objs :
  link_inv p objs -> dispatcher_ p !! a = Some dp -> objs !! dp = Some d ->
  forall p', dispatcher_ p' = delete a (dispatcher_ p) -> port_id p' = port_id p ->
  link_inv p' (<[dp := (RemoveObserver (W := Port S) a d).2]> objs).
Proof.
  intros Hl Ha Hd p' Hdel Hid. pose proof (li_nodup _ _ Hl dp d Hd) as Hnd.
  assert (a ∈ oids (Dispatcher.observers_ d)) as Hin.
  { apply (li_link _ _ Hl) in Ha as (d0 & Hd0 & Hin). congruence. }
  unfold RemoveObserver. rewrite (proj2 (in_container_iff (W := Port S) a _)) by done. simpl.
  rewrite erase_id_filter by done.
  apply (link_filter (fun o => po_addr o <> a) (fun o => po_addr o = a) p p' objs dp d); try done.
  - intros x obj. rewrite Hdel, lookup_delete_Some. split.
    + intros [Hne Hx]. split; [done|]. by intros (o & _ & -> & He)%oids_filter.
    + intros [Hx Hni]. split; [|done]. intros ->. apply Hni, oids_filter.
      unfold oids in Hin. apply list_elem_of_In, in_map_iff in Hin as (o & He & Ho%list_elem_of_In). by exists o.
  - simpl. pose proof (li_obs _ _ Hl dp d Hd) as Hf. rewrite Forall_forall in Hf |- *.
    intros o [_ Ho]%list_elem_of_filter. by apply Hf.
Qed.

Lemma remove_observers_spec obs p objs :
  NoDup obs -> (forall a, a ∈ obs <-> is_Some (dispatcher_ p !! a)) -> observers_ p = obs -> link_inv p objs ->
  exists p' objs', remove_observers obs p objs = Some (p', objs') /\ link_inv p' objs' /\
    dispatcher_ p' = ∅ /\ observers_ p' = [] /\ packets_ p' = packets_ p /\ arena_ p' = arena_ p /\
    num_ephemeral_packets_ p' = num_ephemeral_packets_ p /\ zero_handles_ p' = zero_handles_ p /\
    forall a, a ∈ heap p' <-> a ∈ heap p /\ a ∉ obs.
Proof.
  revert p objs. induction obs as [|o rest IH]; intros p objs Hnd Hobs Ho Hl; simpl.
  { exists p, objs. split_and!; try done.
    - apply map_empty. intros a. apply eq_None_not_Some. intros Hs%Hobs. by apply elem_of_nil in Hs.
    - intros a. split; [|by intros []]. intros H. split; [done | apply not_elem_of_nil]. }
  apply NoDup_cons in Hnd as [Hni Hnd].
  destruct (proj1 (Hobs o) (list_elem_of_here _ _)) as [dp Hdp]. rewrite Hdp. cbn [mbind option_bind].
  destruct (proj1 (li_link _ _ Hl o dp) Hdp) as (d & Hd & Hin). rewrite Hd. cbn [mbind option_bind].
  set (p1 := with_heap _ _).
  pose proof (remove_observer_link o dp d p objs Hl Hdp Hd p1 eq_refl eq_refl) as Hl1.
  destruct (IH p1 (<[dp := (RemoveObserver (W := Port S) o d).2]> objs))
    as (p' & objs' & Hr & Hl' & ? & ? & ? & ? & ? & ? & Hh); [done | | done | done |].
  { intros a. simpl. rewrite lookup_delete_is_Some, <- Hobs, elem_of_cons. split.
    - intros Ha. split; [intros ->; by apply Hni | by right].
    - intros [Hne [->|Ha]]; [by destruct Hne | done]. }
  exists p', objs'. split_and!; try done. intros a. rewrite Hh. simpl.
  rewrite elem_of_difference, not_elem_of_singleton, not_elem_of_cons. tauto.
Qed.

(** The close succeeds, destroys every observer and leaves none behind in the
    object lists. *)
Lemma on_zero_handles_spec p objs :
  sys_inv p objs ->
  exists p' objs', on_zero_handles p objs = Some (p', objs') /\ sys_inv p' objs' /\
    zero_handles_ p' = true /\ heap p' = ∅ /\ packets_ p' = [] /\
    forall obj d, objs' !! obj = Some d -> Dispatcher.observers_ d = [].
Proof.
  intros [Hp Hl]. unfold on_zero_handles. destruct Hp as [[Hnd Hlst] Had Hlk Hpk Hhp Hnum Hmax Hzero].
  destruct (free_packets_spec (packets_ p) (with_zero_handles p) eq_refl Hpk Hnum Hmax)
    as (H1 & H2 & H3 & H4 & H5 & H6 & Har & Hh). simpl in *.
  set (p1 := free_packets (packets_ p) (with_zero_handles p)) in *.
  destruct (remove_observers_spec (observers_ p1) p1 objs)
    as (p' & objs' & Hr & Hl' & Hd & Ho & Hps & Ha & Hn & Hz & Hh'); [| | done | |].
  { by rewrite H4. } { intros a. by rewrite H4, H3. } { by apply (link_frame p). }
  exists p', objs'. split; [done|].
  assert (heap p' = ∅) as He.
  { apply set_eq. intros a. rewrite Hh', Hh, H4, Hlst, Hhp. split; [|by intros ?%elem_of_empty].
    intros [[[Hs|Hs] Hne] Hns]; [by destruct Hns | by destruct Hne]. }
  split_and!; try done; [| by rewrite Hz, H6 | by rewrite Hps, H1 |].
  - split; [|done]. split.
    + rewrite Ho, Hd. split; [constructor|]. intros a. rewrite lookup_empty. split; [by intros ?%elem_of_nil | by intros []].
    + rewrite Hps, H1, Ha. simpl. rewrite Har. by apply addrs_filter_nodup.
    + intros a. rewrite Hd, lookup_empty. by intros [].
    + rewrite Hps, H1. constructor.
    + intros a. rewrite He, Hd, Hps, H1, lookup_empty. split; [by intros ?%elem_of_empty|].
      intros [[]|(q & Hq & _)]; [done|]. by apply elem_of_nil in Hq.
    + by rewrite Hps, H1, Hn, H2.
    + rewrite Hn, H2, kmax_eq. lia.
    + intros _. by rewrite Hps.
  - intros obj d Hdd. destruct (Dispatcher.observers_ d) as [|o obs] eqn:Eo; [done|].
    assert (dispatcher_ p' !! po_addr o = Some obj) as HF.
    { apply (li_link _ _ Hl'). exists d. rewrite Eo. split; [done | apply list_elem_of_here]. }
    by rewrite Hd, lookup_empty in HF.
Qed.

(** ** Runs *)

Inductive port_step : Port S * Objects -> Port S * Objects -> Prop :=
| ps_wait_async p objs opts h obj rights k sigs alloc st p' objs' :
    zero_handles_ p = false -> h <> 0 -> (forall a, alloc = Some a -> fresh a p) ->
    MakeObserver opts h obj rights k sigs alloc p objs = Some (st, p', objs') ->
    port_step (p, objs) (p', objs')
| ps_signal p objs obj d clear set d' p' :
    objs !! obj = Some d -> UpdateState clear set d p = (d', p') ->
    port_step (p, objs) (p', <[obj := d']> objs)
| ps_close_handle p objs obj d h d' p' :
    objs !! obj = Some d -> Cancel h d p = (d', p') ->
    port_step (p, objs) (p', <[obj := d']> objs)
| ps_cancel p objs obj rights h k st p' objs' :
    h <> 0 -> port_cancel obj rights h k p objs = Some (st, p', objs') ->
    port_step (p, objs) (p', objs')
| ps_queue_user p objs k st p' : QueueUser k p = (st, p') -> port_step (p, objs) (p', objs)
| ps_dequeue p objs k p' : Dequeue_packet p = Some (k, p') -> port_step (p, objs) (p', objs)
| ps_close p objs p' objs' :
    zero_handles_ p = false -> on_zero_handles p objs = Some (p', objs') -> port_step (p, objs) (p', objs')
| ps_object p objs obj koid sigs :
    objs !! obj = None -> port_step (p, objs) (p, <[obj := new_dispatcher koid sigs]> objs)
| ps_object_gone p objs obj d :
    objs !! obj = Some d -> Dispatcher.observers_ d = [] -> port_step (p, objs) (p, delete obj objs)
| ps_other p objs s ips now :
    port_step (p, objs)
      (mkPort (port_id p) (options_ p) s (zero_handles_ p) (num_ephemeral_packets_ p) (packets_ p) ips
         (observers_ p) (dispatcher_ p) (heap p) (arena_ p) now, objs).

Definition port_reachable (x : Port S * Objects) : Prop :=
  exists id opts s arena now p, NoDup arena /\ Create id opts true s arena now = inr p /\ rtc port_step (p, ∅) x.

Lemma Create_port_inv id opts s arena now p :
  NoDup arena -> Create id opts true s arena now = inr p -> sys_inv p ∅.
Proof.
  intros Hnd. unfold Create. destruct (nz opts && _); [done|]. simpl. intros [= <-]. split; split; simpl; try done.
  - split; [constructor|]. intros a. rewrite lookup_empty. split; [by intros ?%elem_of_nil | by intros []].
  - intros a. rewrite lookup_empty. by intros [].
  - intros a. rewrite lookup_empty. split; [by intros ?%elem_of_empty|].
    intros [[]|(q & Hq & _)]; [done | by apply elem_of_nil in Hq].
  - intros a obj. rewrite lookup_empty. split; [done|]. intros (d & Hd & _). by rewrite lookup_empty in Hd.
Qed.

Lemma object_link_inv p objs obj (d : Dispatcher PortObserver) :
  link_inv p objs -> objs !! obj = None -> Dispatcher.observers_ d = [] -> link_inv p (<[obj := d]> objs).
Proof.
  intros [H1 H2 H3] Hn Ho. split.
  - intros a x. rewrite H1. destruct (decide (x = obj)) as [->|Hne]; [|by rewrite lookup_insert_ne].
    rewrite lookup_insert_eq, Hn. split; [by intros (? & ? & _)|]. intros (d0 & [= <-] & Hin).
    rewrite Ho in Hin. by apply elem_of_nil in Hin.
  - intros x d0 Hd. destruct (decide (x = obj)) as [->|Hne].
    + rewrite lookup_insert_eq in Hd. injection Hd as <-. rewrite Ho. constructor.
    + rewrite lookup_insert_ne in Hd by done. by apply (H2 x).
  - intros x d0 Hd. destruct (decide (x = obj)) as [->|Hne].
    + rewrite lookup_insert_eq in Hd. injection Hd as <-. rewrite Ho. constructor.
    + rewrite lookup_insert_ne in Hd by done. by apply (H3 x).
Qed.

Lemma object_gone_link_inv p objs obj (d : Dispatcher PortObserver) :
  link_inv p objs -> objs !! obj = Some d -> Dispatcher.observers_ d = [] -> link_inv p (delete obj objs).
Proof.
  intros [H1 H2 H3] Hd Ho. split.
  - intros a x. rewrite H1. split; intros (d0 & Hd0 & Hin); exists d0.
    + rewrite lookup_delete_ne; [done|]. intros ->. rewrite Hd in Hd0. injection Hd0 as <-. rewrite Ho in Hin.
      by apply elem_of_nil in Hin.
    + by apply lookup_delete_Some in Hd0 as [_ ?].
  - intros x d0 [_ Hd0]%lookup_delete_Some. by apply (H2 x).
  - intros x d0 [_ Hd0]%lookup_delete_Some. by apply (H3 x).
Qed.

Lemma port_cancel_inv obj rights h k p objs st p' objs' :
  sys_inv p objs -> h <> 0 -> port_cancel obj rights h k p objs = Some (st, p', objs') -> sys_inv p' objs'.
Proof.
  intros Hi Hh. unfold port_cancel. destruct (objs !! obj) as [d|] eqn:Hd; [|done]. cbn [mbind option_bind].
  destruct (negb (is_waitable rights)); [by intros [= <- <- <-]|]. unfold CancelByKey.
  set (f := fun o => negb (negb (po_handle o =? h) || negb (po_key o =? k) || negb (port_ o =? port_id p))).
  pose proof (CancelWithFunc_inv f (OnCancelByKey h (port_id p) k) obj d p objs) as H.
  destruct (CancelWithFunc (OnCancelByKey h (port_id p) k) d p) as [[fl d1] p1].
  destruct H as ([Hp1 Hl1] & _); [|done|done|].
  { intros o p0. simpl. unfold f. by destruct (_ || _ || _). }
  pose proof (CancelQueued_inv h k p1 Hp1 Hh) as H2. destruct (CancelQueued h k p1) as [r p2].
  destruct H2 as (Hp2 & Hd2 & Hid2 & _). intros [= <- <- <-]. split; [done|]. by apply (link_frame p1).
Qed.

Lemma port_step_inv x x' : port_step x x' -> sys_inv x.1 x.2 -> sys_inv x'.1 x'.2.
Proof.
  intros [p objs opts h obj rights k sigs alloc st p' objs' Hz Hh Hf H | p objs obj d clear set d' p' Hd H
         | p objs obj d h d' p' Hd H | p objs obj rights h k st p' objs' Hh H | p objs k st p' H
         | p objs k p' H | p objs p' objs' Hz H | p objs obj koid sigs Hn | p objs obj d Hd Ho
         | p objs s ips now] Hi; simpl in *.
  - by eapply MakeObserver_inv.
  - pose proof (UpdateState_inv clear set obj d p objs Hi Hd) as Hu. by rewrite H in Hu.
  - pose proof (CancelWithFunc_inv (fun o => po_handle o =? h) (OnCancel h) obj d p objs) as Hu.
    unfold Cancel in H. destruct (CancelWithFunc (OnCancel h) d p) as [[fl d1] p1]. injection H as <- <-.
    by apply Hu.
  - by eapply port_cancel_inv.
  - destruct Hi as [Hp Hl]. pose proof (QueueUser_inv k p Hp) as Hu. rewrite H in Hu.
    destruct Hu as (? & ? & ? & _). split; [done | by apply (link_frame p)].
  - destruct Hi as [Hp Hl]. destruct (Dequeue_packet_inv p k p' Hp H) as (? & ? & ? & _).
    split; [done | by apply (link_frame p)].
  - destruct (on_zero_handles_spec p objs Hi) as (? & ? & H' & ? & _). congruence.
  - destruct Hi as [Hp Hl]. split; [done | by apply object_link_inv].
  - destruct Hi as [Hp Hl]. split; [done | by eapply object_gone_link_inv].
  - destruct Hi as [[] Hl]. split; [by split | by apply (link_frame p)].
Qed.

Lemma port_reachable_inv p objs : port_reachable (p, objs) -> sys_inv p objs.
Proof.
  intros (id & opts & s & arena & now & p0 & Hnd & Hc & Hr).
  pose proof (Create_port_inv _ _ _ _ _ _ Hnd Hc) as H0. change (sys_inv (p0, ∅ : Objects).1 (p0, ∅ : Objects).2) in H0.
  change (sys_inv (p, objs).1 (p, objs).2). induction Hr as [|x1 x2 x3 Hs _ IH]; [done|].
  apply IH. by eapply port_step_inv.
Qed.

Definition watched (a : Z) (objs : Objects) : Prop :=
  exists obj d, objs !! obj = Some d /\ a ∈ oids (Dispatcher.observers_ d).
Definition queued (a : Z) (p : Port S) : Prop :=
  exists pp, pp ∈ packets_ p /\ observer pp = Some a.


(** C17: no signal is missed or delivered twice.  A change of an object's signals
    to [new] appends to the queue one packet for each observer of the object that
    waits for one of the signals now asserted, in list order, with its key, its
    trigger and the signals observed, and exactly those observers leave the list;
    so in every reachable state an observer still in a list waits for signals none
    of which is asserted. *)
Theorem port_signal_delivery p objs obj d clear set :
  port_reachable (p, objs) -> objs !! obj = Some d ->
  Forall (fun o => ~ sat (signals_ d) o) (Dispatcher.observers_ d) /\
  let new := (signals_ d .&~ clear) .| set in
  let '(d', p') := UpdateState clear set d p in
  signals_ d' = new /\
  Dispatcher.observers_ d' = filter (fun o => ~ sat new o) (Dispatcher.observers_ d) /\
  packets_ p' = packets_ p ++ map (fired new 1 (current_time p)) (filter (sat new) (Dispatcher.observers_ d)).
Proof.
  intros [Hp Hl]%port_reachable_inv Hd. pose proof (li_obs _ _ Hl obj d Hd) as Hobs.
  assert (Forall (fun o => ~ sat (signals_ d) o) (Dispatcher.observers_ d)) as Hns
    by (eapply Forall_impl; [exact Hobs | by intros o (? & _)]).
  split; [done|]. intros new. unfold UpdateState. fold new.
  destruct (Z.eqb_spec (signals_ d) new) as [He|Hne].
  - simpl. rewrite Forall_forall in Hns. rewrite He in Hns. split_and!; [done | by rewrite filter_all|].
    rewrite (filter_none (sat new)) by done. by rewrite app_nil_r.
  - pose proof (notify_spec new (Dispatcher.observers_ d) p Hp (li_nodup _ _ Hl obj d Hd)
                  (li_linked _ _ _ _ Hl Hd) (li_handles _ _ _ _ Hl Hd)) as H.
    simpl. destruct (notify_loop new (Dispatcher.observers_ d) p) as [obs' p'].
    destruct H as (_ & -> & _ & Hpk & _). done.
Qed.

(** closing the last handle of a port always completes (its assertion that an
    observer has a dispatcher holds): it frees every queued packet, destroys every
    observer and takes them out of every object's list. *)
Theorem port_close_releases_everything p objs :
  port_reachable (p, objs) ->
  exists p' objs', on_zero_handles p objs = Some (p', objs') /\
    zero_handles_ p' = true /\ heap p' = ∅ /\ packets_ p' = [] /\ num_ephemeral_packets_ p' = 0 /\
    forall obj d, objs' !! obj = Some d -> Dispatcher.observers_ d = [].
Proof.
  intros (p' & objs' & H & [Hp' _] & Hz & Hh & Hps & Ho)%port_reachable_inv%on_zero_handles_spec.
  exists p', objs'. split_and!; try done. rewrite (pi_num _ Hp'), Hps. done.
Qed.

(** the per-port limit on user packets.  [num_ephemeral_packets_] is the number
    of arena packets in the queue and never exceeds one more than
    [kMaxAllocatedPacketCountPerPort]; [QueueUser] appends the packet, with its key
    and the user type, and posts once, unless the arena is exhausted, the port is
    closed or the count is above the limit, when it changes nothing. *)
Theorem port_user_packets p objs k :
  port_reachable (p, objs) ->
  num_ephemeral_packets_ p = zlen (filter dae (packets_ p)) /\
  num_ephemeral_packets_ p <= kMaxAllocatedPacketCountPerPort + 1 /\
  let '(st, p') := QueueUser k p in
  match arena_ p with
  | [] => st = ZX_ERR_NO_MEMORY /\ p' = p
  | _ :: _ =>
      if zero_handles_ p then st = ZX_ERR_BAD_HANDLE /\ p' = p
      else if num_ephemeral_packets_ p >? kMaxAllocatedPacketCountPerPort then st = ZX_ERR_SHOULD_WAIT /\ p' = p
      else st = ZX_OK /\ exists pp, packets_ p' = packets_ p ++ [pp] /\ key (packet pp) = key k /\
             type (packet pp) = ZX_PKT_TYPE_USER /\ sema_ p' = sema_Post (sema_ p)
  end.
Proof.
  intros [Hp _]%port_reachable_inv. split_and!; [apply (pi_num _ Hp) | apply (pi_max _ Hp) |].
  pose proof (QueueUser_inv k p Hp) as H. destruct (QueueUser k p) as [st p']. by destruct H as (_ & _ & _ & ?).
Qed.

End PortFacts.

(** ** A port that watches one object *)

Definition ex_port : Port (sema true) := mkPort 50 0 (new_sema true) false 0 [] [] [] ∅ ∅ [100; 101] 5.

(** The object 9 with no signals, watched at address 1000 for [ZX_EVENT_SIGNALED]. *)
Definition ex_watch : Port (sema true) * Objects :=
  match MakeObserver 0 7 9 ZX_RIGHT_WAIT 42 ZX_EVENT_SIGNALED (Some 1000) ex_port {[9 := new_dispatcher 3 0]} with
  | Some (_, p, objs) => (p, objs)
  | None => (ex_port, ∅)
  end.

Lemma ex_watch_reachable : port_reachable (ex_watch.1, ex_watch.2).
Proof.
  exists 50, 0, (new_sema true), [100; 101], 5, ex_port. split_and!; [|done|].
  { apply (bool_decide_unpack _). vm_compute. exact I. }
  eapply rtc_l; [by apply (ps_object _ _ 9 3 0)|]. apply rtc_once.
  apply (ps_wait_async _ _ 0 7 9 ZX_RIGHT_WAIT 42 ZX_EVENT_SIGNALED (Some 1000) ZX_OK); try done.
  intros a [= <-]. split; [by intros ?%elem_of_empty|]. simpl. rewrite !not_elem_of_cons. split_and!; try done.
  apply not_elem_of_nil.
Qed.


Lemma port_signal_delivery_witness :
  exists d, ex_watch.2 !! 9 = Some d /\
    let '(d', p') := UpdateState 0 ZX_EVENT_SIGNALED d ex_watch.1 in
    Dispatcher.observers_ d' = [] /\ map (fun pp => key (packet pp)) (packets_ p') = [42].
Proof.
  eexists. split; [reflexivity|].
  destruct (port_signal_delivery _ _ 9 _ 0 ZX_EVENT_SIGNALED ex_watch_reachable eq_refl) as [_ H].
  destruct (UpdateState _ _ _ _) as [d' p']. destruct H as (_ & Ho & Hp). rewrite Ho, Hp. done.
Defined.

Lemma port_close_releases_everything_witness :
  exists p' objs', on_zero_handles ex_watch.1 ex_watch.2 = Some (p', objs') /\ heap p' = ∅.
Proof.
  destruct (port_close_releases_everything _ _ ex_watch_reachable) as (p' & objs' & H & _ & Hh & _).
  exists p', objs'. exact (conj H Hh).
Defined.

Lemma port_user_packets_witness :
  num_ephemeral_packets_ ex_watch.1 = 0 /\ (QueueUser zero_pkt ex_watch.1).1 = ZX_OK.
Proof.
  destruct (port_user_packets _ _ zero_pkt ex_watch_reachable) as (Hn & _ & H). split; [exact Hn|].
  destruct (QueueUser zero_pkt ex_watch.1) as [st p']. exact (proj1 H).
Defined.
