(* ===== verification/PortSystem.v ===== *)
(** * Correctness of ports: waiting threads

    Threads that queue packets and threads that dequeue them, interleaved at every
    point where the code holds no lock: between the critical section of [Queue]
    and its post, and between the wait, the look at the interrupt packets and the
    look at the packets in [Dequeue]. *)

From S2P Require Import Prelude Zx WaitQueue WaitQueueFacts Semaphore SemaphoreFacts Dispatcher Port PortSema PortFacts.
Import PortDispatcher.

Section System.
Context {S : Type} {SemaOps : PortSemaphore S} {SemaLaws : PortSemaphoreLaws S}.
Implicit Types (p : Port S).

(** [waited]: threads in [Dequeue] whose wait succeeded and that have not looked
    at the interrupt packets; [checked]: those that found none; [posting]: threads
    that queued a packet and have yet to post. *)
Record dq_sys := mkDq { port : Port S; waited : Z; checked : Z; posting : Z }.

Definition added (b : bool) : Z := if b then 1 else 0.

Inductive dq_step (x : dq_sys) : dq_sys -> Prop :=
| dq_queue pp obs cnt st post p' :
    Queue_locked pp obs cnt (port x) = (st, post, p') ->
    dq_step x (mkDq p' (waited x) (checked x) (posting x + added post))
| dq_queue_interrupt a k ts queued p' :
    options_ (port x) = ZX_PORT_BIND_TO_INTERRUPT ->
    QueueInterruptPacket_locked a k ts (port x) = (queued, p') ->
    dq_step x (mkDq p' (waited x) (checked x) (posting x + added queued))
| dq_post :
    0 < posting x -> dq_step x (mkDq (Post (port x)) (waited x) (checked x) (posting x - 1))
| dq_wait s' :
    sema_acquire (sema_ (port x)) s' ->
    dq_step x (mkDq (with_sema s' (port x)) (waited x + 1) (checked x) (posting x))
| dq_sema s' :
    sema_other (sema_ (port x)) s' ->
    dq_step x (mkDq (with_sema s' (port x)) (waited x) (checked x) (posting x))
| dq_interrupt k p' :
    0 < waited x -> Dequeue_interrupt (port x) = Some (k, p') ->
    dq_step x (mkDq p' (waited x - 1) (checked x) (posting x))
| dq_no_interrupt :
    0 < waited x -> Dequeue_interrupt (port x) = None ->
    dq_step x (mkDq (port x) (waited x - 1) (checked x + 1) (posting x))
| dq_packet k p' :
    0 < checked x -> Dequeue_packet (port x) = Some (k, p') ->
    dq_step x (mkDq p' (waited x) (checked x - 1) (posting x))
| dq_no_packet :
    0 < checked x -> Dequeue_packet (port x) = None ->
    dq_step x (mkDq (port x) (waited x) (checked x - 1) (posting x))
| dq_cancel h k r p' :
    CancelQueued h k (port x) = (r, p') -> dq_step x (mkDq p' (waited x) (checked x) (posting x))
| dq_cancel_packet a r p' :
    CancelQueued_packet a (port x) = (r, p') -> dq_step x (mkDq p' (waited x) (checked x) (posting x))
| dq_remove_interrupt a r p' :
    RemoveInterruptPacket a (port x) = (r, p') -> dq_step x (mkDq p' (waited x) (checked x) (posting x)).

Record dq_inv (x : dq_sys) : Prop := {
  di_all : zlen (packets_ (port x)) + zlen (interrupt_packets_ (port x)) <=
           sema_permits (sema_ (port x)) + waited x + checked x + posting x;
  di_interrupt : zlen (interrupt_packets_ (port x)) <=
                 sema_permits (sema_ (port x)) + waited x + posting x;
  di_nonneg : 0 <= waited x /\ 0 <= checked x /\ 0 <= posting x;
  di_bound : interrupt_packets_ (port x) <> [] -> options_ (port x) = ZX_PORT_BIND_TO_INTERRUPT;
}.

Lemma Queue_locked_size pp obs cnt p st post p' :
  Queue_locked pp obs cnt p = (st, post, p') ->
  zlen (packets_ p') = zlen (packets_ p) + added post /\ interrupt_packets_ p' = interrupt_packets_ p /\
  sema_ p' = sema_ p /\ options_ p' = options_ p.
Proof.
  unfold Queue_locked. destruct (zero_handles_ p); [intros [= <- <- <-]; simpl; split_and!; try done; lia|].
  destruct (_ && (_ >? _)); [intros [= <- <- <-]; simpl; split_and!; try done; lia|].
  destruct (_ && _); intros [= <- <- <-]; simpl; split_and!; try done.
  - unfold zlen. rewrite length_map. lia.
  - rewrite zlen_app, zlen_cons, zlen_nil. lia.
Qed.

Lemma Dequeue_packet_size p k p' :
  Dequeue_packet p = Some (k, p') ->
  zlen (packets_ p') = zlen (packets_ p) - 1 /\ interrupt_packets_ p' = interrupt_packets_ p /\
  sema_ p' = sema_ p /\ options_ p' = options_ p.
Proof.
  unfold Dequeue_packet. destruct (packets_ p) as [|pp rest]; [done|]. intros [= <- <-].
  rewrite zlen_cons. unfold reset_observer, Free.
  destruct (is_ephemeral pp), (IsDefaultAllocatedEphemeral pp), (observer pp); simpl; split_and!; try done; lia.
Qed.

Lemma zlen_filter_le {A} (P : A -> Prop) `{!forall x, Decision (P x)} (l : list A) : zlen (filter P l) <= zlen l.
Proof. unfold zlen. pose proof (length_filter P l). lia. Qed.

Lemma cancel_loop_size h k ps n D :
  let '(r, ps', n', D') := cancel_queued_loop h k ps n D in zlen ps' <= zlen ps.
Proof.
  revert n D. induction ps as [|pp ps IH]; intros n D; simpl; [done|]. destruct (_ && _).
  - specialize (IH (count_ephemeral (-1) pp n) (match observer pp with Some o => {[o]} ∪ D | None => D end)).
    destruct (cancel_queued_loop _ _ _ _ _) as [[[r ps'] n'] D']. rewrite zlen_cons. lia.
  - specialize (IH n D). destruct (cancel_queued_loop _ _ _ _ _) as [[[r ps'] n'] D']. rewrite !zlen_cons. lia.
Qed.

(** Removals only take packets away. *)
Definition smaller (p p' : Port S) : Prop :=
  zlen (packets_ p') <= zlen (packets_ p) /\ zlen (interrupt_packets_ p') <= zlen (interrupt_packets_ p) /\
  sema_ p' = sema_ p /\ options_ p' = options_ p.

Lemma smaller_inv p' x :
  smaller (port x) p' -> dq_inv x -> dq_inv (mkDq p' (waited x) (checked x) (posting x)).
Proof.
  intros (Hp & Hi & Hs & Ho) [H1 H2 Hn H3]. split; simpl; rewrite ?Hs, ?Ho; [lia | lia | lia |].
  intros Hne. apply H3. intros E. rewrite E in Hi. apply Hne, zlen_0. pose proof (zlen_nonneg (interrupt_packets_ p')).
  rewrite zlen_nil in Hi. lia.
Qed.

Lemma CancelQueued_smaller h k p r p' : CancelQueued h k p = (r, p') -> smaller p p'.
Proof.
  unfold CancelQueued. pose proof (cancel_loop_size h k (packets_ p) (num_ephemeral_packets_ p) ∅) as H.
  destruct (cancel_queued_loop _ _ _ _ _) as [[[r0 ps'] n'] D']. intros [= <- <-]. by split_and!.
Qed.

Lemma CancelQueued_packet_smaller a p r p' : CancelQueued_packet a p = (r, p') -> smaller p p'.
Proof.
  unfold CancelQueued_packet. destruct (List.find _ _) as [pp|]; intros [= <- <-]; [|by split_and!].
  unfold reset_observer. destruct (observer pp); split_and!; simpl; try done; apply zlen_filter_le.
Qed.

Lemma RemoveInterruptPacket_smaller a p r p' : RemoveInterruptPacket a p = (r, p') -> smaller p p'.
Proof.
  unfold RemoveInterruptPacket. destruct (interrupt_InContainer _ _); intros [= <- <-]; split_and!; simpl; try done.
  apply zlen_filter_le.
Qed.

Lemma dq_step_inv x x' : dq_step x x' -> dq_inv x -> dq_inv x'.
Proof.
  intros Hs Hinv. pose proof (zlen_nonneg (packets_ (port x))). pose proof Hinv as [H1 H2 (Hn1 & Hn2 & Hn3) H3].
  pose proof (sema_permits_nonneg (sema_ (port x))).
  destruct Hs as [pp obs cnt st post p' Hq | a k ts queued p' Ho Hq | Hp | s' Ha | s' Ho | k p' Hw Hd | Hw Hd
                 | k p' Hc Hd | Hc Hd | h k r p' Hc | a r p' Hc | a r p' Hc].
  - destruct (Queue_locked_size _ _ _ _ _ _ _ Hq) as (E1 & E2 & E3 & E4).
    split; simpl; rewrite ?E1, ?E2, ?E3, ?E4; (done || destruct post; simpl; lia).
  - unfold QueueInterruptPacket_locked in Hq. destruct (interrupt_InContainer _ _); injection Hq as <- <-;
      split; simpl; rewrite ?zlen_app, ?zlen_cons, ?zlen_nil; (done || unfold added; lia).
  - split; simpl; rewrite ?sema_Post_permits; (done || lia).
  - apply sema_acquire_permits in Ha. split; simpl; (done || lia).
  - apply sema_other_permits in Ho. split; simpl; (done || lia).
  - unfold Dequeue_interrupt in Hd. destruct (_ =? _) eqn:Ho; [|done].
    destruct (interrupt_packets_ (port x)) as [|ip rest] eqn:Ei; [done|]. injection Hd as <- <-.
    rewrite zlen_cons in *. apply Z.eqb_eq in Ho. split; simpl; (done || lia).
  - assert (interrupt_packets_ (port x) = []) as Ei.
    { unfold Dequeue_interrupt in Hd. destruct (interrupt_packets_ (port x)) eqn:Ei; [done|].
      by rewrite H3, Z.eqb_refl in Hd. }
    rewrite Ei, zlen_nil in *. split; simpl; rewrite ?Ei, ?zlen_nil; try done; try lia.
  - destruct (Dequeue_packet_size _ _ _ Hd) as (E1 & E2 & E3 & E4).
    split; simpl; rewrite ?E1, ?E2, ?E3, ?E4; (done || lia).
  - unfold Dequeue_packet in Hd. destruct (packets_ (port x)) eqn:Ep; [|done]. rewrite zlen_nil in *.
    split; simpl; rewrite ?Ep, ?zlen_nil; (done || lia).
  - by apply smaller_inv; [eapply CancelQueued_smaller|].
  - by apply smaller_inv; [eapply CancelQueued_packet_smaller|].
  - by apply smaller_inv; [eapply RemoveInterruptPacket_smaller|].
Qed.

Definition dq_reachable (x : dq_sys) : Prop :=
  exists id opts s arena now p, Create id opts true s arena now = inr p /\ rtc dq_step (mkDq p 0 0 0) x.

Lemma dq_reachable_inv x : dq_reachable x -> dq_inv x.
Proof.
  intros (id & opts & s & arena & now & p & Hc & Hr).
  assert (dq_inv (mkDq p 0 0 0)) as H0.
  { unfold Create in Hc. destruct (nz opts && _); [done|]. injection Hc as <-.
    pose proof (sema_permits_nonneg s). split; unfold zlen; simpl; (done || lia). }
  induction Hr as [|x1 x2 x3 Hs _ IH]; [done|]. apply IH. by eapply dq_step_inv.
Qed.

(** however queueing and dequeueing threads interleave, with cancellations and
    failed waits, every packet in the two queues is covered: by a permit of the
    semaphore, by a thread that has its permit and is about to look at the queues,
    or by a thread that is about to post.  In particular the loop of [Dequeue],
    which drops its permit and waits again when it finds both queues empty, never
    drops one that a packet needs. *)
Theorem port_packets_have_permits x :
  dq_reachable x ->
  zlen (packets_ (port x)) + zlen (interrupt_packets_ (port x)) <=
  sema_permits (sema_ (port x)) + waited x + checked x + posting x.
Proof. intros H%dq_reachable_inv. apply (di_all _ H). Qed.

End System.

(** With the kernel's semaphore and no timeouts: a thread is blocked only when
    every permit is taken. *)
Lemma blocked_no_permits (s : sema false) :
  (forall t, t ∈ inwait s -> t ∈ waiters (Semaphore.Semaphore.waitq_ (sem s)) (kern s)) ->
  0 < sema_permits s -> waiters (Semaphore.Semaphore.waitq_ (sem s)) (kern s) = [].
Proof.
  intros Hb Hp. pose proof (sema_inv s) as Hi. rewrite sema_permits_count in Hp.
  pose proof (si_blocked _ _ _ Hi eq_refl) as Hw.
  assert (zlen (inwait s) <= zlen (waiters (Semaphore.Semaphore.waitq_ (sem s)) (kern s))) as Hle.
  { unfold zlen. apply inj_le, submseteq_length, NoDup_submseteq; [apply (si_nodup _ _ _ Hi) | done]. }
  apply zlen_0. lia.
Qed.


(** ** A port on which a packet has been queued *)

Definition ex_dq_port : Port (sema false) := mkPort 50 0 (new_sema false) false 0 [] [] [] ∅ ∅ [100] 5.
Definition ex_packet : PortPacket := mkPacket 100 zero_pkt 0 None (Some port_allocator).
Definition ex_dq : @dq_sys (sema false) := mkDq (Queue ex_packet 0 0 ex_dq_port).2 0 0 0.

Lemma ex_dq_reachable : dq_reachable ex_dq.
Proof.
  exists 50, 0, (new_sema false), [100], 5, ex_dq_port. split; [done|].
  eapply rtc_l; [by apply (dq_queue _ ex_packet 0 0 ZX_OK true)|]. apply rtc_once.
  by apply (dq_post (mkDq _ 0 0 1)).
Qed.

Lemma port_packets_have_permits_witness :
  zlen (packets_ (port ex_dq)) = 1 /\ 1 <= sema_permits (sema_ (port ex_dq)).
Proof. split; [reflexivity|]. exact (port_packets_have_permits ex_dq ex_dq_reachable). Defined.

