(* ===== verification/MessagePacket.v ===== *)
(** * Channel messages

    [object/buffer_chain.h], [object/message_packet.h] and
    [object/message_packet.cc].  A message lives in a chain of pages: the first
    buffer holds the chain object, then the packet object, its handles and the
    start of the payload, the others the rest of the payload.  The bytes of the
    chain and packet objects are not interpreted; the sizes are those of the 64-bit
    targets. *)

From S2P Require Import Prelude Zx UserCopy.

(** The pointer types [CopyInCommon] is instantiated with. *)
Class PtrIn (P : Type) := {
  ptr_copy_array_from_user : P -> Z -> zx_status_t * list byte;
  ptr_byte_offset : P -> Z -> P;
}.

#[export] Instance user_in_ptr_PtrIn : PtrIn user_in_ptr := {
  ptr_copy_array_from_user := copy_array_from_user;
  ptr_byte_offset := in_byte_offset;
}.

(** Kernel memory from an address on. *)
Record KernelPtrAdapter := mkKernelPtr { kp_mem : list byte }.
#[export] Instance KernelPtrAdapter_PtrIn : PtrIn KernelPtrAdapter := {
  ptr_copy_array_from_user p count := (ZX_OK, take (Z.to_nat count) (kp_mem p));
  ptr_byte_offset p offset := mkKernelPtr (drop (Z.to_nat offset) (kp_mem p));
}.

Module BufferChain.

Definition PAGE_SIZE : Z := 4096.
Definition kSizeOfBuffer : Z := PAGE_SIZE.
Definition kSizeOfBufferFields : Z := 16.
Definition kRawDataSize : Z := kSizeOfBuffer - kSizeOfBufferFields.
(** [sizeof(BufferList) + sizeof(list_node)] *)
Definition kSizeOfBufferChain : Z := 8 + 16.
Definition kContig : Z := kRawDataSize - kSizeOfBufferChain.

Record Buffer := mkBuffer { reserved_ : Z; raw_data_ : list byte }.

Definition size (b : Buffer) : Z := kRawDataSize - reserved_ b.
(** The bytes at [data()]. *)
Definition data (b : Buffer) : list byte := drop (Z.to_nat (reserved_ b)) (raw_data_ b).
(** Stores [bs] at [data() + off]. *)
Definition store (off : Z) (bs : list byte) (b : Buffer) : Buffer :=
  mkBuffer (reserved_ b) (splice (Z.to_nat (reserved_ b + off)) bs (raw_data_ b)).

(** [pmm] holds the contents of the free pages; [None] when there are too few. *)
Definition Alloc (size : Z) (pmm : list (list byte)) : option (list Buffer * list (list byte)) :=
  let size := size + kSizeOfBufferChain in
  let num_buffers := (size + kRawDataSize - 1) / kRawDataSize in
  if zlen pmm <? num_buffers then None
  else
    let temp := rev (map (mkBuffer 0) (take (Z.to_nat num_buffers) pmm)) in
    let pmm := drop (Z.to_nat num_buffers) pmm in
    match temp with
    | [] => None
    | b :: rest => Some (mkBuffer kSizeOfBufferChain (raw_data_ b) :: rest, pmm)
    end.

Definition Free (chain : list Buffer) (pmm : list (list byte)) : list (list byte) :=
  map raw_data_ chain ++ pmm.

(** [CopyInCommon]. *)
Fixpoint CopyIn_loop {P} `{PtrIn P} (src : P) (copy_offset rem : Z) (bufs : list Buffer)
    : zx_status_t * list Buffer :=
  if negb (rem >? 0) then (ZX_OK, bufs)
  else
    match bufs with
    | [] => (ZX_OK, [])
    | b :: rest =>
        let copy_len := Z.min rem (size b - copy_offset) in
        let '(status, bs) := ptr_copy_array_from_user src copy_len in
        let b := store copy_offset bs b in
        if is_err status then (status, b :: rest)
        else
          let '(st, rest) := CopyIn_loop (ptr_byte_offset src copy_len) 0 (rem - copy_len) rest in
          (st, b :: rest)
    end.

Definition CopyIn (src : user_in_ptr) (dst_offset size : Z) (chain : list Buffer) : zx_status_t * list Buffer :=
  CopyIn_loop src dst_offset size chain.

Definition CopyInKernel (src : list byte) (dst_offset size : Z) (chain : list Buffer)
    : zx_status_t * list Buffer :=
  CopyIn_loop (mkKernelPtr src) dst_offset size chain.

Fixpoint CopyOut_loop (dst : user_out_ptr) (copy_offset rem : Z) (bufs : list Buffer) (m : user_mem)
    : zx_status_t * user_mem :=
  if negb (rem >? 0) then (ZX_OK, m)
  else
    match bufs with
    | [] => (ZX_OK, m)
    | b :: rest =>
        let copy_len := Z.min rem (size b - copy_offset) in
        let src := slice (Z.to_nat copy_offset) (Z.to_nat copy_len) (data b) in
        let '(status, m) := copy_array_to_user dst src m in
        if is_err status then (status, m)
        else CopyOut_loop (out_byte_offset dst copy_len) 0 (rem - copy_len) rest m
    end.

Definition CopyOut (dst : user_out_ptr) (src_offset size : Z) (chain : list Buffer) (m : user_mem)
    : zx_status_t * user_mem :=
  CopyOut_loop dst src_offset size chain m.

End BufferChain.

Module MessagePacket.
Import BufferChain.

Definition kMaxMessageSize : Z := 65536.
Definition kMaxMessageHandles : Z := 64.
Definition sizeof_MessagePacket : Z := 48.
Definition sizeof_Handle_ptr : Z := 8.
Definition sizeof_txid : Z := 4.
Definition kContiguousBytes : Z :=
  sizeof_MessagePacket + kMaxMessageHandles * sizeof_Handle_ptr + sizeof_txid.
Definition kHandlesOffset : Z := sizeof_MessagePacket.
Definition PayloadOffset (num_handles : Z) : Z := u32 (kHandlesOffset + u32 (num_handles * sizeof_Handle_ptr)).

(** [handles_] are the entries of the array in the first buffer. *)
Record MessagePacket := mkMessage {
  buffer_chain_ : list Buffer;
  handles_ : list Z;
  data_size_ : Z;
  payload_offset_ : Z;
  num_handles_ : Z;
  owns_handles_ : bool;
}.

Definition with_chain (c : list Buffer) (msg : MessagePacket) : MessagePacket :=
  mkMessage c (handles_ msg) (data_size_ msg) (payload_offset_ msg) (num_handles_ msg) (owns_handles_ msg).

(** The handles of a new packet are uninitialised: none have been stored. *)
Definition CreateCommon (data_size num_handles : Z) (pmm : list (list byte))
    : (zx_status_t + MessagePacket) * list (list byte) :=
  if (data_size >? kMaxMessageSize) || (num_handles >? kMaxMessageHandles)
  then (inl ZX_ERR_OUT_OF_RANGE, pmm)
  else
    let payload_offset := PayloadOffset num_handles in
    match Alloc (payload_offset + data_size) pmm with
    | None => (inl ZX_ERR_NO_MEMORY, pmm)
    | Some (chain, pmm) => (inr (mkMessage chain [] data_size payload_offset num_handles false), pmm)
    end.

(** [recycle]: the handles the packet owns, which are deleted, and the pages given
    back. *)
Definition recycle (msg : MessagePacket) (pmm : list (list byte)) : list Z * list (list byte) :=
  (if owns_handles_ msg then handles_ msg else [], Free (buffer_chain_ msg) pmm).

Definition Create (data : user_in_ptr) (data_size num_handles : Z) (pmm : list (list byte))
    : (zx_status_t + MessagePacket) * list (list byte) :=
  match CreateCommon data_size num_handles pmm with
  | (inl st, pmm) => (inl st, pmm)
  | (inr new_msg, pmm) =>
      let '(status, chain) := CopyIn data (PayloadOffset num_handles) data_size (buffer_chain_ new_msg) in
      let new_msg := with_chain chain new_msg in
      if is_err status then (inl status, (recycle new_msg pmm).2) else (inr new_msg, pmm)
  end.

(** The overload that takes its data from the kernel. *)
Definition Create_kernel (data : list byte) (data_size num_handles : Z) (pmm : list (list byte))
    : (zx_status_t + MessagePacket) * list (list byte) :=
  match CreateCommon data_size num_handles pmm with
  | (inl st, pmm) => (inl st, pmm)
  | (inr new_msg, pmm) =>
      let '(status, chain) := CopyInKernel data (PayloadOffset num_handles) data_size (buffer_chain_ new_msg) in
      let new_msg := with_chain chain new_msg in
      if is_err status then (inl status, (recycle new_msg pmm).2) else (inr new_msg, pmm)
  end.

Definition data_size (msg : MessagePacket) : Z := data_size_ msg.
Definition num_handles (msg : MessagePacket) : Z := num_handles_ msg.

Definition CopyDataTo (buf : user_out_ptr) (msg : MessagePacket) (m : user_mem) : zx_status_t * user_mem :=
  CopyOut buf (payload_offset_ msg) (data_size_ msg) (buffer_chain_ msg) m.

(** A little-endian [zx_txid_t]. *)
Fixpoint le_bytes (n : nat) (x : Z) : list byte :=
  match n with
  | O => []
  | S n => x mod 256 :: le_bytes n (x / 256)
  end.
Fixpoint le_value (l : list byte) : Z :=
  match l with
  | [] => 0
  | b :: l => b + 256 * le_value l
  end.

Definition get_txid (msg : MessagePacket) : Z :=
  if data_size_ msg <? sizeof_txid then 0
  else
    match buffer_chain_ msg with
    | [] => 0
    | b :: _ => le_value (slice (Z.to_nat (payload_offset_ msg)) 4 (data b))
    end.

Definition set_txid (txid : Z) (msg : MessagePacket) : MessagePacket :=
  if data_size_ msg >=? sizeof_txid then
    match buffer_chain_ msg with
    | [] => msg
    | b :: rest => with_chain (store (payload_offset_ msg) (le_bytes 4 txid) b :: rest) msg
    end
  else msg.

End MessagePacket.
