(* ===== verification/MessagePacketFacts.v ===== *)
(** * Correctness of channel messages

    The payload written into the pages of a message is the payload read back, the
    transaction id is its first four bytes, and the pages are enough. *)

From S2P Require Import Prelude Zx UserCopy MessagePacket.
Import BufferChain MessagePacket.MessagePacket.

(** ** Buffers *)

Definition buf_ok (b : Buffer) : Prop :=
  0 <= reserved_ b <= kRawDataSize /\ zlen (raw_data_ b) = kRawDataSize.

(** The bytes of a chain, from the first buffer's [data()]. *)
Definition flat (bufs : list Buffer) : list byte := concat (map data bufs).

Lemma data_length b : buf_ok b -> zlen (data b) = size b.
Proof. intros [Hr Hl]. unfold data, size, zlen in *. rewrite length_drop. lia. Qed.

Lemma splice_app {A} off (new l k : list A) :
  (off + length new <= length l)%nat -> splice off new (l ++ k) = splice off new l ++ k.
Proof.
  intros H. unfold splice. rewrite take_app_le, drop_app_le by lia. by rewrite <- !app_assoc.
Qed.

Lemma splice_drop {A} r off (new l : list A) :
  (r + off <= length l)%nat -> drop r (splice (r + off) new l) = splice off new (drop r l).
Proof.
  intros H. unfold splice. rewrite drop_app_le by (rewrite length_take; lia).
  rewrite skipn_firstn_comm, drop_drop. replace (r + off - r)%nat with off by lia.
  by replace (r + (off + length new))%nat with (r + off + length new)%nat by lia.
Qed.

Lemma store_data off bs b :
  buf_ok b -> 0 <= off -> off + zlen bs <= size b ->
  buf_ok (store off bs b) /\ data (store off bs b) = splice (Z.to_nat off) bs (data b).
Proof.
  intros [Hr Hl] Ho Hs. unfold size in Hs. unfold data, store, buf_ok. simpl.
  rewrite Z2Nat.inj_add by lia. unfold zlen in *. split.
  - split; [done|]. rewrite length_splice; lia.
  - apply splice_drop. lia.
Qed.

(** A source that can deliver [l]. *)
Definition feeds {P} `{PtrIn P} (src : P) (l : list byte) : Prop :=
  forall i n, 0 <= i -> 0 < n -> i + n <= zlen l ->
    ptr_copy_array_from_user (if i =? 0 then src else ptr_byte_offset src i) n =
    (ZX_OK, slice (Z.to_nat i) (Z.to_nat n) l).

(** Offsets add up. *)
Class PtrInLaws (P : Type) `{!PtrIn P} := {
  ptr_byte_offset_add (p : P) a b :
    0 <= a -> 0 <= b -> ptr_byte_offset (ptr_byte_offset p a) b = ptr_byte_offset p (a + b);
}.

#[export] Instance user_in_ptr_laws : PtrInLaws user_in_ptr.
Proof. split. intros p a b _ _. simpl. apply in_byte_offset_add. Qed.

#[export] Instance KernelPtrAdapter_laws : PtrInLaws KernelPtrAdapter.
Proof. split. intros [l] a b Ha Hb. simpl. by rewrite drop_drop, Z2Nat.inj_add. Qed.

Lemma feeds_first {P} `{PtrIn P} (src : P) l n :
  feeds src l -> 0 < n <= zlen l -> ptr_copy_array_from_user src n = (ZX_OK, take (Z.to_nat n) l).
Proof. intros Hf Hn. specialize (Hf 0 n). simpl in Hf. rewrite Hf by lia. by unfold slice. Qed.

Lemma feeds_rest {P} `{PtrInLaws P} (src : P) l n :
  feeds src l -> 0 < n <= zlen l -> feeds (ptr_byte_offset src n) (drop (Z.to_nat n) l).
Proof.
  intros Hf Hn i k Hi Hk Hle. unfold zlen in Hle. rewrite length_drop in Hle.
  assert ((if i =? 0 then ptr_byte_offset src n else ptr_byte_offset (ptr_byte_offset src n) i) =
          ptr_byte_offset src (n + i)) as ->.
  { destruct (Z.eqb_spec i 0) as [->|]; [by rewrite Z.add_0_r | apply ptr_byte_offset_add; lia]. }
  specialize (Hf (n + i) k). destruct (Z.eqb_spec (n + i) 0); [lia|]. unfold zlen in *. rewrite Hf by lia.
  unfold slice. rewrite drop_drop. by rewrite Z2Nat.inj_add by lia.
Qed.

(** ** The copy loops *)

Lemma take_drop_splice {A} off (l a b : list A) c :
  (off + c = length a)%nat -> (c <= length l)%nat -> (length l - c <= length b)%nat ->
  splice off l (a ++ b) = splice off (take c l) a ++ splice 0 (drop c l) b.
Proof.
  intros Hc Hl Hb. unfold splice. rewrite length_take, length_drop. rewrite take_app_le by lia.
  rewrite drop_app_ge by lia. rewrite (drop_ge a) by lia. rewrite take_0, app_nil_l, app_nil_r.
  rewrite <- (take_drop c l) at 1. rewrite <- !app_assoc. do 4 f_equal. lia.
Qed.

Lemma CopyIn_loop_spec {P} `{PtrInLaws P} (src : P) off l bufs :
  Forall buf_ok bufs -> 0 <= off -> feeds src l -> off + zlen l <= zlen (flat bufs) ->
  Forall (fun b => 0 < size b) bufs -> (forall b, head bufs = Some b -> off < size b) ->
  exists bufs', CopyIn_loop src off (zlen l) bufs = (ZX_OK, bufs') /\ Forall buf_ok bufs' /\
    flat bufs' = splice (Z.to_nat off) l (flat bufs) /\ map reserved_ bufs' = map reserved_ bufs.
Proof.
  revert src off l. induction bufs as [|b bufs IH]; intros src off l Hok Ho Hf Hle Hsz Hhd; simpl.
  { assert (off = 0 /\ zlen l = 0) as [-> El] by (pose proof (zlen_nonneg l); unfold flat, zlen in *; simpl in *; lia).
    apply zlen_0 in El as ->. by exists []. }
  apply Forall_cons in Hok as [Hb Hok]. apply Forall_cons in Hsz as [Hs Hsz]. specialize (Hhd b eq_refl).
  pose proof (data_length b Hb) as Hdl. unfold flat in Hle. simpl in Hle. fold (flat bufs) in Hle.
  rewrite zlen_app in Hle. destruct (Z.gtb_spec (zlen l) 0) as [Hl|Hl].
  2:{ assert (l = []) as -> by (apply zlen_0; pose proof (zlen_nonneg l); lia).
      exists (b :: bufs). split_and!; try done; [by constructor|]. unfold splice. simpl.
      by rewrite Nat.add_0_r, take_drop. }
  simpl. set (c := Z.min (zlen l) (size b - off)).
  assert (0 < c <= zlen l) as Hc by (unfold c; lia).
  rewrite (feeds_first src l c Hf Hc). change (is_err ZX_OK) with false. cbn iota.
  assert (zlen (take (Z.to_nat c) l) = c) as Htl by (unfold zlen in *; rewrite length_take; lia).
  destruct (store_data off (take (Z.to_nat c) l) b Hb Ho) as [Hb' Hd']; [rewrite Htl; unfold c; lia|].
  assert (zlen (drop (Z.to_nat c) l) = zlen l - c) as Hdrop by (unfold zlen in *; rewrite length_drop; lia).
  rewrite <- Hdrop. destruct (Z.min_spec (zlen l) (size b - off)) as [[Hm Ec]|[Hm Ec]]; fold c in Ec.
  - assert (drop (Z.to_nat c) l = []) as -> by (apply zlen_0; lia). change (zlen (@nil Z)) with 0.
    assert (CopyIn_loop (ptr_byte_offset src c) 0 0 bufs = (ZX_OK, bufs)) as -> by by destruct bufs.
    eexists. split; [done|]. split_and!; [by constructor | | done].
    unfold flat. simpl. rewrite Hd', splice_app; [|unfold zlen in *; lia].
    by rewrite take_ge by (unfold zlen in *; lia).
  - assert (forall b0, head bufs = Some b0 -> 0 < size b0) as Hh0.
    { intros b0 H0. destruct bufs as [|b1 bufs]; [done|]. simplify_eq/=. by apply Forall_cons in Hsz as [? _]. }
    destruct (IH (ptr_byte_offset src c) 0 (drop (Z.to_nat c) l) Hok) as (bufs' & -> & Hok' & Hfl & Hr);
      [lia | by apply feeds_rest | lia | done | done |].
    eexists. split; [done|]. split_and!; [by constructor | | by rewrite <- Hr].
    unfold flat in *. simpl. rewrite Hfl, Hd'. symmetry.
    apply take_drop_splice; unfold zlen in *; lia.
Qed.

Lemma CopyOut_loop_spec dst off n bufs m :
  Forall buf_ok bufs -> 0 <= off -> 0 <= n -> out_buffer dst n -> off + n <= zlen (flat bufs) ->
  Forall (fun b => 0 < size b) bufs -> (forall b, head bufs = Some b -> off < size b) ->
  CopyOut_loop dst off n bufs m =
  (ZX_OK, mem_write (uo_addr dst) (slice (Z.to_nat off) (Z.to_nat n) (flat bufs)) m).
Proof.
  revert dst off n m. induction bufs as [|b bufs IH]; intros dst off n m Hok Ho Hn Hout Hle Hsz Hhd; simpl.
  { assert (n = 0) as -> by (unfold flat, zlen in *; simpl in *; lia). done. }
  apply Forall_cons in Hok as [Hb Hok]. apply Forall_cons in Hsz as [Hs Hsz]. specialize (Hhd b eq_refl).
  pose proof (data_length b Hb) as Hdl. unfold flat in Hle. simpl in Hle. fold (flat bufs) in Hle.
  rewrite zlen_app in Hle. destruct (Z.gtb_spec n 0) as [Hn0|Hn0]; [|assert (n = 0) as -> by lia; done].
  simpl. set (c := Z.min n (size b - off)). set (bs := slice (Z.to_nat off) (Z.to_nat c) (data b)).
  assert (zlen bs = c) as Hbs.
  { unfold bs, slice, zlen in *. rewrite length_take, length_drop. unfold c. lia. }
  rewrite (copy_to_buffer dst bs m n Hout) by (unfold c in Hbs; lia). change (is_err ZX_OK) with false. cbn iota.
  destruct (out_buffer_ptr dst n Hout) as [va Hva].
  unfold flat. simpl. fold (flat bufs). destruct (Z.min_spec n (size b - off)) as [[Hm Ec]|[Hm Ec]]; fold c in Ec.
  - rewrite Ec, Z.sub_diag. assert (forall d m, CopyOut_loop d 0 0 bufs m = (ZX_OK, m)) as -> by by destruct bufs.
    unfold bs. rewrite Ec. unfold slice.
    rewrite (drop_app_le (data b)), take_app_le; [done | | ]; rewrite ?length_drop; unfold zlen in *; lia.
  - destruct (Z.eq_dec c n) as [E|E].
    { rewrite E, Z.sub_diag. assert (forall d m, CopyOut_loop d 0 0 bufs m = (ZX_OK, m)) as -> by by destruct bufs.
      unfold bs. rewrite E. unfold slice.
      rewrite (drop_app_le (data b)), take_app_le; [done | | ]; rewrite ?length_drop; unfold zlen in *; lia. }
    assert (forall b0, head bufs = Some b0 -> 0 < size b0) as Hh0.
    { intros b0 H0. destruct bufs as [|b1 bufs]; [done|]. simplify_eq/=. by apply Forall_cons in Hsz as [? _]. }
    rewrite IH; [| done | lia | lia | apply out_buffer_offset; [done | lia] | lia | done | done].
    rewrite (uo_addr_offset dst va) by done. rewrite <- Hbs, <- mem_write_app. do 2 f_equal.
    unfold bs, slice. rewrite drop_0, (drop_app_le (data b)) by (unfold zlen in *; lia).
    rewrite (take_ge (drop (Z.to_nat off) (data b))) by (rewrite length_drop; unfold zlen in *; lia).
    rewrite take_app_ge by (rewrite length_drop; unfold zlen in *; lia). do 2 f_equal.
    unfold zlen. lia.
Qed.

(** ** Messages *)

Definition pages_ok (pmm : list (list byte)) : Prop := Forall (fun pg => zlen pg = kRawDataSize) pmm.

Record chain_ok (chain : list Buffer) : Prop := {
  co_bufs : Forall buf_ok chain;
  co_sizes : Forall (fun b => 0 < size b) chain;
  co_first : forall b, head chain = Some b -> size b = kContig;
  co_nonempty : chain <> [];
}.

Lemma flat_length_plain l : pages_ok l -> zlen (flat (map (mkBuffer 0) l)) = zlen l * kRawDataSize.
Proof.
  induction 1 as [|pg l Hpg _ IH]; [done|]. unfold flat in *. simpl. rewrite zlen_app, zlen_cons, IH.
  unfold data. simpl. rewrite drop_0, Hpg. lia.
Qed.

Lemma plain_bufs l :
  pages_ok l -> Forall buf_ok (map (mkBuffer 0) l) /\ Forall (fun b => 0 < size b) (map (mkBuffer 0) l).
Proof.
  intros H. split; induction H; simpl; constructor; try done; by split.
Qed.

Definition pages_needed (n : Z) : Z := (n + kSizeOfBufferChain + kRawDataSize - 1) / kRawDataSize.

Lemma pages_needed_bounds n :
  0 <= n -> 0 < pages_needed n /\ n + kSizeOfBufferChain <= pages_needed n * kRawDataSize.
Proof.
  intros Hn. unfold pages_needed. change kRawDataSize with 4080. change kSizeOfBufferChain with 24.
  pose proof (Z.div_mod (n + 24 + 4080 - 1) 4080). pose proof (Z.mod_pos_bound (n + 24 + 4080 - 1) 4080). lia.
Qed.

(** [Alloc] gives the pages it needs, in a chain that holds [n] bytes, or fails. *)
Lemma Alloc_spec n pmm :
  0 <= n -> pages_ok pmm ->
  match Alloc n pmm with
  | None => zlen pmm < pages_needed n
  | Some (chain, pmm') =>
      pages_needed n <= zlen pmm /\ chain_ok chain /\ n <= zlen (flat chain) /\
      pmm' = drop (Z.to_nat (pages_needed n)) pmm
  end.
Proof.
  intros Hn Hpg. destruct (pages_needed_bounds n Hn) as [Hp Hb]. unfold Alloc. fold (pages_needed n).
  destruct (Z.ltb_spec (zlen pmm) (pages_needed n)) as [Hlt|Hge]; [done|].
  set (pgs := take (Z.to_nat (pages_needed n)) pmm).
  assert (pages_ok pgs) as Hok by by apply Forall_take.
  assert (zlen pgs = pages_needed n) as Hl by (unfold pgs, zlen in *; rewrite length_take; lia).
  rewrite <- map_rev. destruct (rev pgs) as [|pg rest] eqn:Er.
  { apply (f_equal length) in Er. rewrite length_rev in Er. unfold zlen in Hl. simpl in Er. lia. }
  assert (pages_ok (pg :: rest)) as Hok' by (rewrite <- Er; by apply Forall_rev).
  simpl. pose proof (plain_bufs _ Hok') as [Hb1 Hb2]. simpl in Hb1, Hb2.
  apply Forall_cons in Hb1 as [[_ Hlen] Hb1]. apply Forall_cons in Hb2 as [_ Hb2].
  split_and!; try done; [split|].
  - constructor; [|done]. by split.
  - by constructor.
  - by intros b [= <-].
  - done.
  - pose proof (flat_length_plain _ Hok') as Hf. unfold flat in *. simpl in *. rewrite zlen_app in *.
    assert (zlen (pg :: rest) = pages_needed n) as Hz by (rewrite <- Er; unfold zlen in *; by rewrite length_rev).
    rewrite Hz in Hf. unfold data in *. simpl in *. rewrite drop_0 in Hf.
    assert (zlen (drop (Z.to_nat kSizeOfBufferChain) pg) = kRawDataSize - kSizeOfBufferChain) as ->.
    { unfold zlen in *. rewrite length_drop. change kRawDataSize with 4080 in *.
      change kSizeOfBufferChain with 24. lia. }
    lia.
Qed.

Lemma payload_offset_bounds h :
  0 <= h <= kMaxMessageHandles -> 0 <= PayloadOffset h /\ PayloadOffset h + sizeof_txid <= kContig.
Proof.
  unfold kMaxMessageHandles, PayloadOffset, kHandlesOffset, sizeof_MessagePacket, sizeof_Handle_ptr, sizeof_txid.
  intros Hh. rewrite (u32_id (h * 8)) by (unfold is_u32; lia). rewrite u32_id by (unfold is_u32; lia).
  change kContig with 4056. lia.
Qed.

Record msg_ok (msg : MessagePacket) : Prop := {
  mo_chain : chain_ok (buffer_chain_ msg);
  mo_offset : 0 <= payload_offset_ msg /\ payload_offset_ msg + sizeof_txid <= kContig;
  mo_size : 0 <= data_size_ msg <= kMaxMessageSize /\
            payload_offset_ msg + data_size_ msg <= zlen (flat (buffer_chain_ msg));
}.

(** The message's data. *)
Definition payload (msg : MessagePacket) : list byte :=
  slice (Z.to_nat (payload_offset_ msg)) (Z.to_nat (data_size_ msg)) (flat (buffer_chain_ msg)).

Lemma payload_length msg : msg_ok msg -> zlen (payload msg) = data_size_ msg.
Proof. intros [_ H1 H2]. unfold payload, zlen in *. rewrite length_slice; lia. Qed.

Lemma CreateCommon_spec n h pmm :
  0 <= n -> 0 <= h -> pages_ok pmm ->
  match CreateCommon n h pmm with
  | (inl st, pmm') => pmm' = pmm /\
      (st = ZX_ERR_OUT_OF_RANGE /\ (n > kMaxMessageSize \/ h > kMaxMessageHandles) \/
       st = ZX_ERR_NO_MEMORY /\ zlen pmm < pages_needed (PayloadOffset h + n))
  | (inr msg, pmm') => msg_ok msg /\ data_size_ msg = n /\ num_handles_ msg = h /\ payload_offset_ msg = PayloadOffset h /\
      n <= kMaxMessageSize /\ h <= kMaxMessageHandles /\
      pmm' = drop (Z.to_nat (pages_needed (PayloadOffset h + n))) pmm
  end.
Proof.
  intros Hn Hh Hpg. unfold CreateCommon.
  destruct (Z.gtb_spec n kMaxMessageSize) as [|Hn']; [simpl; split; [done|]; left; split; [done | left; lia]|].
  destruct (Z.gtb_spec h kMaxMessageHandles) as [|Hh']; [simpl; split; [done|]; left; split; [done | right; lia]|].
  simpl. destruct (payload_offset_bounds h) as [Ho1 Ho2]; [lia|].
  pose proof (Alloc_spec (PayloadOffset h + n) pmm ltac:(lia) Hpg) as HA.
  destruct (Alloc (PayloadOffset h + n) pmm) as [[chain pmm']|].
  - destruct HA as (_ & Hc & Hf & ->). split; [|by split_and!]. split; simpl; [done | done | lia].
  - split; [done|]. by right.
Qed.

Lemma head_size chain off :
  chain_ok chain -> off + sizeof_txid <= kContig -> forall b, head chain = Some b -> off < size b.
Proof. intros Hc Ho b Hb. rewrite (co_first _ Hc b Hb). unfold sizeof_txid in Ho. lia. Qed.

(** Filling a new message from a source that holds [l]. *)
Lemma fill_spec {P} `{PtrInLaws P} (src : P) l msg :
  feeds src l -> msg_ok msg -> data_size_ msg = zlen l ->
  exists chain, CopyIn_loop src (payload_offset_ msg) (data_size_ msg) (buffer_chain_ msg) = (ZX_OK, chain) /\
    msg_ok (with_chain chain msg) /\ payload (with_chain chain msg) = l.
Proof.
  intros Hf [Hc [Ho1 Ho2] [Hs1 Hs2]] Hl. rewrite Hl.
  destruct (CopyIn_loop_spec src (payload_offset_ msg) l (buffer_chain_ msg)) as (chain & -> & Hok & Hfl & Hr);
    [apply Hc | done | done | lia | apply Hc | by apply head_size |].
  exists chain. split; [done|].
  assert (zlen (flat chain) = zlen (flat (buffer_chain_ msg))) as Hfz.
  { rewrite Hfl. unfold zlen in *. rewrite length_splice; lia. }
  split.
  - split; simpl; [|done | by rewrite Hfz]. destruct Hc as [Hc1 Hc2 Hc3 Hc4].
    assert (map size chain = map size (buffer_chain_ msg)) as Hsz.
    { unfold size. rewrite <- (map_map reserved_ (fun r => kRawDataSize - r)), Hr. by rewrite map_map. }
    split; [done | | |].
    + clear -Hsz Hc2. revert Hsz. generalize (buffer_chain_ msg) Hc2. intros bufs. revert bufs.
      induction chain as [|b chain IH]; intros bufs H2 E; [constructor|]. destruct bufs as [|b0 bufs]; [done|].
      injection E as E1 E2. apply Forall_cons in H2 as [? H2]. constructor; [by rewrite E1 | by apply (IH bufs)].
    + intros b Hb. destruct chain as [|b1 chain]; [done|]. injection Hb as ->.
      destruct (buffer_chain_ msg) as [|b0 bufs]; [done|]. injection Hsz as -> _. by apply Hc3.
    + intros ->. by destruct (buffer_chain_ msg).
  - unfold payload. simpl. rewrite Hfl, Hl. unfold zlen. rewrite Nat2Z.id. apply slice_splice_eq.
    unfold zlen in *. lia.
Qed.

Lemma user_feeds src l : in_buffer src l -> feeds src l.
Proof.
  intros Hb i n Hi Hn Hle. simpl.
  assert (in_buffer (if i =? 0 then src else in_byte_offset src i) (drop (Z.to_nat i) l)) as Hb'.
  { destruct (Z.eqb_spec i 0) as [->|]; [done|]. apply in_buffer_offset; [done | lia]. }
  unfold slice. apply copy_from_buffer; [done|]. unfold zlen in *. rewrite length_drop. lia.
Qed.

Lemma kernel_feeds l : feeds (mkKernelPtr l) l.
Proof. intros i n Hi Hn Hle. simpl. destruct (Z.eqb_spec i 0) as [->|]; done. Qed.

(** ** Transaction ids *)

Lemma le_bytes_length n x : length (le_bytes n x) = n.
Proof. revert x. induction n as [|n IH]; intros x; simpl; [done|]. by rewrite IH. Qed.

Lemma le_value_bytes n x : 0 <= x < 256 ^ Z.of_nat n -> le_value (le_bytes n x) = x.
Proof.
  revert x. induction n as [|n IH]; intros x Hx; simpl; [change (256 ^ Z.of_nat 0) with 1 in Hx; lia|].
  rewrite Nat2Z.inj_succ, Z.pow_succ_r in Hx by lia. pose proof (Z.div_mod x 256).
  rewrite IH; [lia|]. split; [apply Z.div_pos; lia | apply Z.div_lt_upper_bound; lia].
Qed.

#[local] Opaque le_bytes.

(** The four bytes at the start of the payload are in the first buffer. *)
Lemma txid_slice b rest msg :
  msg_ok msg -> buffer_chain_ msg = b :: rest -> sizeof_txid <= data_size_ msg ->
  slice (Z.to_nat (payload_offset_ msg)) 4 (data b) = take 4 (payload msg).
Proof.
  intros [Hc [Ho1 Ho2] Hs] Eb Hsz. destruct Hc as [Hc1 _ Hc3 _]. rewrite Eb in Hc1, Hc3.
  apply Forall_cons in Hc1 as [Hb _]. pose proof (data_length b Hb) as Hdl. rewrite (Hc3 b eq_refl) in Hdl.
  unfold payload, slice. rewrite take_take, Eb. unfold sizeof_txid, zlen in *.
  replace (4 `min` Z.to_nat (data_size_ msg))%nat with 4%nat by lia. unfold flat. cbn [map concat].
  change kContig with 4056 in *.
  rewrite drop_app_le by lia. by rewrite take_app_le by (rewrite length_drop; lia).
Qed.

Lemma set_txid_spec t msg :
  msg_ok msg -> sizeof_txid <= data_size_ msg ->
  msg_ok (set_txid t msg) /\ payload (set_txid t msg) = le_bytes 4 t ++ drop 4 (payload msg).
Proof.
  intros Hm Hsz. destruct Hm as [Hc [Ho1 Ho2] Hs]. unfold set_txid.
  destruct (Z.geb_spec (data_size_ msg) sizeof_txid) as [_|]; [|lia].
  destruct (buffer_chain_ msg) as [|b rest] eqn:Eb; [by destruct (co_nonempty _ Hc)|].
  destruct Hc as [Hc1 Hc2 Hc3 Hc4]. apply Forall_cons in Hc1 as [Hb Hc1]. apply Forall_cons in Hc2 as [Hb2 Hc2].
  pose proof (Hc3 b eq_refl) as Hk. pose proof (data_length b Hb) as Hdl. rewrite Hk in Hdl.
  assert (zlen (le_bytes 4 t) = 4) as Hl by (unfold zlen; by rewrite le_bytes_length).
  destruct (store_data (payload_offset_ msg) (le_bytes 4 t) b Hb Ho1) as [Hb' Hd'];
    [rewrite Hl, Hk; unfold sizeof_txid in Ho2; lia|].
  assert (flat (store (payload_offset_ msg) (le_bytes 4 t) b :: rest) =
          splice (Z.to_nat (payload_offset_ msg)) (le_bytes 4 t) (flat (b :: rest))) as Hf.
  { unfold flat. simpl. rewrite Hd', splice_app; [done|]. rewrite le_bytes_length.
    unfold sizeof_txid, zlen in *. lia. }
  split.
  - split; simpl; [split| done |].
    + by constructor.
    + by constructor.
    + intros b0 [= <-]. unfold size in *. simpl. done.
    + done.
    + rewrite Hf. unfold zlen in *. rewrite length_splice; [lia|]. rewrite le_bytes_length. unfold sizeof_txid in *. lia.
  - unfold payload. simpl. rewrite Hf, Eb. unfold slice, splice. rewrite le_bytes_length.
    set (o := Z.to_nat (payload_offset_ msg)). unfold sizeof_txid, zlen in *.
    rewrite drop_app_ge by (rewrite length_take; lia). rewrite length_take.
    replace (o - o `min` length (flat (b :: rest)))%nat with 0%nat by lia. rewrite drop_0.
    rewrite take_app_ge by (rewrite le_bytes_length; lia). rewrite le_bytes_length. f_equal.
    rewrite skipn_firstn_comm, drop_drop. done.
Qed.

Lemma Create_spec src l h pmm :
  in_buffer src l -> zlen l <= kMaxMessageSize -> 0 <= h <= kMaxMessageHandles -> pages_ok pmm ->
  match Create src (zlen l) h pmm with
  | (inl st, pmm') => st = ZX_ERR_NO_MEMORY /\ pmm' = pmm /\ zlen pmm < pages_needed (PayloadOffset h + zlen l)
  | (inr msg, pmm') =>
      msg_ok msg /\ payload msg = l /\ data_size msg = zlen l /\ num_handles msg = h /\
      pmm' = drop (Z.to_nat (pages_needed (PayloadOffset h + zlen l))) pmm
  end.
Proof.
  intros Hin Hmax Hh Hpg. unfold Create.
  pose proof (CreateCommon_spec (zlen l) h pmm (zlen_nonneg l) ltac:(lia) Hpg) as HC.
  destruct (CreateCommon (zlen l) h pmm) as [[st|msg] pmm'].
  { destruct HC as [-> [[_ Hr]|[-> Hr]]]; [lia | done]. }
  destruct HC as (Hok & Hsz & Hnh & Hof & _ & _ & ->).
  destruct (fill_spec src l msg (user_feeds _ _ Hin) Hok Hsz) as (chain & Hcp & Hok' & Hpl).
  unfold CopyIn. rewrite <- Hof, <- Hsz, Hcp. change (is_err ZX_OK) with false. cbn iota. by split_and!.
Qed.

Lemma CopyDataTo_spec dst msg m :
  msg_ok msg -> out_buffer dst (data_size_ msg) ->
  CopyDataTo dst msg m = (ZX_OK, mem_write (uo_addr dst) (payload msg) m).
Proof.
  intros [Hc [Ho1 Ho2] [Hs1 Hs2]] Hout. unfold CopyDataTo, CopyOut.
  rewrite CopyOut_loop_spec; [done | apply Hc | done | lia | done | done | apply Hc | by apply head_size].
Qed.


(** the transaction id is the first four bytes of the payload, whatever pages
    the payload spans: [set_txid] replaces them and leaves every other byte of the
    message as it was, and [get_txid] reads the id back; a message shorter than an
    id is left alone and has id zero. *)
Theorem message_txid t msg :
  msg_ok msg -> is_u32 t ->
  if data_size msg <? sizeof_txid then set_txid t msg = msg /\ get_txid msg = 0
  else msg_ok (set_txid t msg) /\ payload (set_txid t msg) = le_bytes 4 t ++ drop 4 (payload msg) /\
       get_txid (set_txid t msg) = t /\ get_txid msg = le_value (take 4 (payload msg)).
Proof.
  intros Hm Ht. unfold data_size. destruct (Z.ltb_spec (data_size_ msg) sizeof_txid) as [Hlt|Hge].
  - unfold set_txid, get_txid. destruct (Z.geb_spec (data_size_ msg) sizeof_txid); [lia|].
    by rewrite (proj2 (Z.ltb_lt _ _) Hlt).
  - destruct (set_txid_spec t msg Hm Hge) as [Hm' Hp]. split_and!; [done | done | |].
    + assert (data_size_ (set_txid t msg) = data_size_ msg) as Hd
        by (unfold set_txid; destruct (_ >=? _); [by destruct (buffer_chain_ msg) | done]).
      unfold get_txid. rewrite Hd, (proj2 (Z.ltb_ge _ _) Hge).
      destruct (buffer_chain_ (set_txid t msg)) as [|b rest] eqn:Eb; [by destruct (co_nonempty _ (mo_chain _ Hm'))|].
      rewrite (txid_slice b rest _ Hm' Eb) by lia. rewrite Hp, take_app_le by by rewrite le_bytes_length.
      rewrite take_ge by by rewrite le_bytes_length. apply le_value_bytes. exact Ht.
    + unfold get_txid. rewrite (proj2 (Z.ltb_ge _ _) Hge).
      destruct (buffer_chain_ msg) as [|b rest] eqn:Eb; [by destruct (co_nonempty _ (mo_chain _ Hm))|].
      by rewrite (txid_slice b rest _ Hm Eb).
Qed.

(** Two free pages and a message of six bytes. *)
Definition ex_pages : list (list byte) := [repeat 0 4080; repeat 1 4080].
Definition ex_data : list byte := [1; 2; 3; 4; 5; 6].
Definition ex_msg : MessagePacket :=
  match Create (user_in_of ex_data) 6 1 ex_pages with (inr msg, _) => msg | _ => mkMessage [] [] 0 0 0 false end.

Lemma ex_pages_ok : pages_ok ex_pages.
Proof. repeat constructor. Qed.


Lemma ex_msg_ok : msg_ok ex_msg.
Proof.
  pose proof (Create_spec (user_in_of ex_data) ex_data 1 ex_pages (in_buffer_of ex_data ltac:(done))
                ltac:(done) ltac:(done) ex_pages_ok) as H.
  unfold ex_msg. change 6 with (zlen ex_data).
  destruct (Create (user_in_of ex_data) (zlen ex_data) 1 ex_pages) as [[st|msg] p].
  - exfalso. destruct H as (_ & _ & H). by vm_compute in H.
  - by destruct H.
Qed.

Lemma message_txid_witness : get_txid (set_txid 0x80000001 ex_msg) = 0x80000001.
Proof.
  refine (proj1 (proj2 (proj2 (message_txid 0x80000001 ex_msg ex_msg_ok _)))). by split.
Defined.
