(* ===== verification/Channel.v ===== *)
(** * ChannelDispatcher

    [object/channel_dispatcher.cc] and [object/channel_dispatcher.h]: the message
    queues of the two endpoints and the waiters of [zx_channel_call].  Threads are
    named by numbers and each has one [MessageWaiter]; the waiters are state shared
    by the pair.  [Call] is the part up to the wait, [Call_finish] what
    [ResumeInterruptedCall] does once the wait on the waiter's event has returned
    with anything but an interruption to retry; messages, replies, cancellations
    and other calls happen in between. *)

From S2P Require Import Prelude Zx Dispatcher Peered MessagePacket.

(** What a channel uses of a message. *)
Class MessageOps (M : Type) := {
  msg_data_size : M -> Z;
  msg_num_handles : M -> Z;
  msg_get_txid : M -> Z;
  msg_set_txid : Z -> M -> M;
}.

#[export] Instance MessagePacket_ops : MessageOps MessagePacket.MessagePacket := {
  msg_data_size := MessagePacket.data_size;
  msg_num_handles := MessagePacket.num_handles;
  msg_get_txid := MessagePacket.get_txid;
  msg_set_txid := MessagePacket.set_txid;
}.

Module ChannelDispatcher.

Definition ZX_KOID_INVALID : Z := 0.

(** The channel a waiter belongs to: an endpoint of this pair, or another. *)
Inductive channel_ref := this_channel (sd : side) | other_channel.

(** The counters of channels by the most messages they held. *)
Inductive depth_counter :=
| channel_packet_depth_1
| channel_packet_depth_4
| channel_packet_depth_16
| channel_packet_depth_64
| channel_packet_depth_256
| channel_packet_depth_unbounded.

Section Channel.
Context {M : Type} {MO : MessageOps M} {W O : Type} {SO : StateObserver W O}.

(** [event_]: the result with which the event is signaled. *)
Record MessageWaiter := mkWaiter {
  channel_ : option channel_ref;
  msg_ : option M;
  event_ : option zx_status_t;
  wtxid_ : Z;
  status_ : zx_status_t;
}.

Definition new_waiter : MessageWaiter := mkWaiter None None None 0 ZX_ERR_BAD_STATE.

Record Channel := mkChannel {
  messages_ : list M;
  message_count_ : Z;
  max_message_count_ : Z;
  owner_ : Z;
  txid_ : Z;
  waiters_ : list Z;
}.

Definition new_channel : Channel := mkChannel [] 0 0 ZX_KOID_INVALID 0 [].

Abbreviation Waiters := (gmap Z MessageWaiter).
Local Abbreviation Pair := (PeerSys W O Channel Waiters).

Definition with_messages (ms : list M) (n mx : Z) (c : Channel) : Channel :=
  mkChannel ms n mx (owner_ c) (txid_ c) (waiters_ c).
Definition with_owner (o : Z) (c : Channel) : Channel :=
  mkChannel (messages_ c) (message_count_ c) (max_message_count_ c) o (txid_ c) (waiters_ c).
Definition with_txid (t : Z) (c : Channel) : Channel :=
  mkChannel (messages_ c) (message_count_ c) (max_message_count_ c) (owner_ c) t (waiters_ c).
Definition with_waiters (ws : list Z) (c : Channel) : Channel :=
  mkChannel (messages_ c) (message_count_ c) (max_message_count_ c) (owner_ c) (txid_ c) ws.

(** ** MessageWaiter *)

Definition waiter (t : Z) (p : Pair) : MessageWaiter := default new_waiter (shared p !! t).
Definition put_waiter (t : Z) (w : MessageWaiter) (p : Pair) : Pair := put_shared (<[t := w]> (shared p)) p.

(** [Event::Signal]: kept when the event is signaled already. *)
Definition Signal (st : zx_status_t) (w : MessageWaiter) : MessageWaiter :=
  mkWaiter (channel_ w) (msg_ w) (match event_ w with None => Some st | r => r end) (wtxid_ w) (status_ w).

Definition BeginWait (c : channel_ref) (w : MessageWaiter) : zx_status_t * MessageWaiter :=
  match channel_ w with
  | Some _ => (ZX_ERR_BAD_STATE, w)
  | None => (ZX_OK, mkWaiter (Some c) (msg_ w) None (wtxid_ w) ZX_ERR_TIMED_OUT)
  end.

Definition Deliver (msg : M) (w : MessageWaiter) : MessageWaiter :=
  Signal ZX_OK (mkWaiter (channel_ w) (Some msg) (event_ w) (wtxid_ w) ZX_OK).

Definition Cancel (st : zx_status_t) (w : MessageWaiter) : MessageWaiter :=
  Signal st (mkWaiter (channel_ w) (msg_ w) (event_ w) (wtxid_ w) st).

Definition set_wtxid (txid : Z) (w : MessageWaiter) : MessageWaiter :=
  mkWaiter (channel_ w) (msg_ w) (event_ w) txid (status_ w).

(** The status, the message moved out, and the waiter. *)
Definition EndWait (w : MessageWaiter) : zx_status_t * option M * MessageWaiter :=
  match channel_ w with
  | None => (ZX_ERR_BAD_STATE, None, w)
  | Some _ => (status_ w, msg_ w, mkWaiter None None (event_ w) (wtxid_ w) (status_ w))
  end.

(** ** Endpoints *)

Definition put_waiters (sd : side) (ws : list Z) (p : Pair) : Pair :=
  put_xt sd (with_waiters ws (xt sd p)) p.

(** The loop that empties [waiters_]: each is popped and cancelled. *)
Fixpoint cancel_waiters (ws : list Z) (sd : side) (st : zx_status_t) (p : Pair) : Pair :=
  match ws with
  | [] => p
  | t :: rest =>
      let p := put_waiters sd rest p in
      cancel_waiters rest sd st (put_waiter t (Cancel st (waiter t p)) p)
  end.

Definition on_zero_handles_locked (sd : side) (p : Pair) : Pair :=
  cancel_waiters (waiters_ (xt sd p)) sd ZX_ERR_CANCELED p.

Definition OnPeerZeroHandlesLocked (sd : side) (p : Pair) : Pair :=
  let p := UpdateStateLocked sd ZX_CHANNEL_WRITABLE ZX_CHANNEL_PEER_CLOSED p in
  cancel_waiters (waiters_ (xt sd p)) sd ZX_ERR_PEER_CLOSED p.

#[export] Instance Channel_self : PeeredSelf W O Channel Waiters := {
  peered_rights := ZX_DEFAULT_CHANNEL_RIGHTS;
  extra_signals := 0;
  Peered.on_zero_handles_locked := on_zero_handles_locked;
  Peered.OnPeerZeroHandlesLocked := OnPeerZeroHandlesLocked;
}.

(** [Create]; [allocs] are the results of the three allocations. *)
Definition Create (allocs : bool * bool * bool) (k0 k1 : Z) (ws : Waiters) (w : W) : zx_status_t + Pair :=
  let '(a0, a1, a2) := allocs in
  if negb a0 then inl ZX_ERR_NO_MEMORY
  else if negb a1 then inl ZX_ERR_NO_MEMORY
  else if negb a2 then inl ZX_ERR_NO_MEMORY
  else inr (new_pair k0 k1 ZX_CHANNEL_WRITABLE new_channel new_channel ws w).

Definition AddObserver (sd : side) (o : O) (p : Pair) : zx_status_t * Pair :=
  let cinfo := {| entry0 := {| ce_count := message_count_ (xt sd p); ce_signal := ZX_CHANNEL_READABLE |};
                  entry1 := {| ce_count := 0; ce_signal := 0 |} |} in
  (ZX_OK, AddObserverLockedAt sd o (Some cinfo) p).

Definition set_owner (sd : side) (new_owner : Z) (p : Pair) : Pair :=
  if new_owner =? ZX_KOID_INVALID then p else put_xt sd (with_owner new_owner (xt sd p)) p.

Definition RemoveWaiter (sd : side) (t : Z) (p : Pair) : Pair :=
  put_waiters sd (filter (fun x => x <> t) (waiters_ (xt sd p))) p.

(** [~MessageWaiter], when thread [t] goes away. *)
Definition destroy_waiter (t : Z) (p : Pair) : Pair :=
  let p := match channel_ (waiter t p) with
           | Some (this_channel sd) => RemoveWaiter sd t p
           | _ => p
           end in
  put_shared (delete t (shared p)) p.

(** The status, the size and handle count reported, the message taken. *)
Definition Read (sd : side) (owner max_size max_handle_count : Z) (may_discard : bool) (p : Pair)
    : zx_status_t * option (Z * Z) * option M * Pair :=
  let c := xt sd p in
  if negb (owner =? owner_ c) then (ZX_ERR_BAD_HANDLE, None, None, p)
  else
    match messages_ c with
    | [] => (if has_peer sd p then ZX_ERR_SHOULD_WAIT else ZX_ERR_PEER_CLOSED, None, None, p)
    | msg :: rest =>
        let msg_size := msg_data_size msg in
        let msg_handle_count := msg_num_handles msg in
        let small := (msg_size >? max_size) || (msg_handle_count >? max_handle_count) in
        if small && negb may_discard
        then (ZX_ERR_BUFFER_TOO_SMALL, Some (msg_size, msg_handle_count), None, p)
        else
          let rv := if small then ZX_ERR_BUFFER_TOO_SMALL else ZX_OK in
          let p := put_xt sd (with_messages rest (u64 (message_count_ c - 1)) (max_message_count_ c) c) p in
          let p := if bool_decide (rest = []) then UpdateStateLocked sd ZX_CHANNEL_READABLE 0 p else p in
          (rv, Some (msg_size, msg_handle_count), Some msg, p)
    end.

(** The waiter of the list with this transaction id. *)
Definition find_waiter (sd : side) (txid : Z) (p : Pair) : option Z :=
  List.find (fun t => wtxid_ (waiter t p) =? txid) (waiters_ (xt sd p)).

Definition WriteSelf (sd : side) (msg : M) (p : Pair) : Pair :=
  match (match waiters_ (xt sd p) with [] => None | _ => find_waiter sd (msg_get_txid msg) p end) with
  | Some t =>
      let p := RemoveWaiter sd t p in
      put_waiter t (Deliver msg (waiter t p)) p
  | None =>
      let c := xt sd p in
      let n := u64 (message_count_ c + 1) in
      let p := put_xt sd (with_messages (messages_ c ++ [msg]) n
                            (if n >? max_message_count_ c then n else max_message_count_ c) c) p in
      UpdateStateLocked sd 0 ZX_CHANNEL_READABLE p
  end.

Definition Write (sd : side) (owner : Z) (msg : M) (p : Pair) : zx_status_t * Pair :=
  if negb (owner =? owner_ (xt sd p)) then (ZX_ERR_BAD_HANDLE, p)
  else if negb (has_peer sd p) then (ZX_ERR_PEER_CLOSED, p)
  else (ZX_OK, WriteSelf (other sd) msg p).

(** The [alloc_txid] loop: the id and the value of [txid_] it leaves. *)
Fixpoint alloc_txid (fuel : nat) (sd : side) (p : Pair) (txid : Z) : option (Z * Z) :=
  match fuel with
  | 0%nat => None
  | S fuel =>
      let txid := u32 (txid + 1) in
      let id := txid .| 0x80000000 in
      if existsb (fun t => wtxid_ (waiter t p) =? id) (waiters_ (xt sd p))
      then alloc_txid fuel sd p txid
      else Some (id, txid)
  end.

(** What [Call] does before it waits. *)
Inductive call_result :=
| call_returns (st : zx_status_t)
| call_kills_process
| call_waits.

Definition Call (t : Z) (sd : side) (owner : Z) (msg : M) (p : Pair) : option (call_result * Pair) :=
  let '(st, w) := BeginWait (this_channel sd) (waiter t p) in
  if is_err st then Some (call_kills_process, p)
  else
    let p := put_waiter t w p in
    if negb (owner =? owner_ (xt sd p)) then Some (call_returns ZX_ERR_BAD_HANDLE, p)
    else if negb (has_peer sd p)
    then Some (call_returns ZX_ERR_PEER_CLOSED, put_waiter t (EndWait (waiter t p)).2 p)
    else
      '(id, txid) ← alloc_txid (S (length (waiters_ (xt sd p)))) sd p (txid_ (xt sd p));
      let p := put_xt sd (with_txid txid (xt sd p)) p in
      let p := put_waiter t (set_wtxid id (waiter t p)) p in
      let msg := msg_set_txid id msg in
      let p := put_waiters sd (waiters_ (xt sd p) ++ [t]) p in
      Some (call_waits, WriteSelf (other sd) msg p).

(** [ResumeInterruptedCall] once the wait has returned something other than
    [ZX_ERR_INTERNAL_INTR_RETRY]: the status, the reply. *)
Definition Call_finish (t : Z) (sd : side) (p : Pair) : zx_status_t * option M * Pair :=
  let '(status, reply, w) := EndWait (waiter t p) in
  let p := put_waiter t w p in
  (status, reply, if bool_decide (status = ZX_ERR_TIMED_OUT) then RemoveWaiter sd t p else p).

(** [UserSignalSelf] *)
Definition UserSignalSelf (sd : side) (clear_mask set_mask : Z) (p : Pair) : zx_status_t * Pair :=
  (ZX_OK, UpdateStateLocked sd clear_mask set_mask p).

(** The destructor of an endpoint discards its messages and counts the channel in
    the bucket of its greatest depth. *)
Definition destroy_channel (c : Channel) : depth_counter * Channel :=
  let n := max_message_count_ c in
  (if n <=? 1 then channel_packet_depth_1
   else if n <=? 4 then channel_packet_depth_4
   else if n <=? 16 then channel_packet_depth_16
   else if n <=? 64 then channel_packet_depth_64
   else if n <=? 256 then channel_packet_depth_256
   else channel_packet_depth_unbounded,
   mkChannel [] 0 n (owner_ c) (txid_ c) (waiters_ c)).

End Channel.

End ChannelDispatcher.
