(* ===== verification/ChannelFacts.v ===== *)
(** * Correctness of ChannelDispatcher

    The signals agree with the queues, calls get the reply with their transaction
    id or are cancelled, and nothing else, in every state reached by writes, reads,
    calls of any number of threads, closes and the death of threads. *)

From S2P Require Import Prelude Zx UserCopy Dispatcher Peered MessagePacket MessagePacketFacts Channel.
Import ChannelDispatcher.

Section Channel.
Context {M : Type} {MO : MessageOps M} {W O : Type} {SO : StateObserver W O}.
Abbreviation Pair := (PeerSys W O (Channel (M := M)) (gmap Z (MessageWaiter (M := M)))).
Implicit Types (p : Pair) (t : Z).

(** ** Views *)

Lemma waiter_put_eq t w p : waiter t (put_waiter t w p) = w.
Proof. unfold waiter, put_waiter. simpl. by rewrite lookup_insert_eq. Qed.

Lemma waiter_put_ne t t' w p : t <> t' -> waiter t (put_waiter t' w p) = waiter t p.
Proof. intros H. unfold waiter, put_waiter. simpl. by rewrite lookup_insert_ne. Qed.

Lemma waiter_put_xt t sd x p : waiter t (put_xt sd x p) = waiter t p.
Proof. unfold waiter. by rewrite shared_put_xt. Qed.

Lemma waiter_update t sd c s p : waiter t (UpdateStateLocked sd c s p) = waiter t p.
Proof. unfold waiter. by rewrite shared_update. Qed.

Lemma waiter_put_peer t sd b p : waiter t (put_peer sd b p) = waiter t p.
Proof. by destruct sd. Qed.

Lemma xt_put_waiter sd t w p : xt sd (put_waiter t w p) = xt sd p.
Proof. apply xt_put_shared. Qed.

Lemma sig_put_waiter sd t w p : sig sd (put_waiter t w p) = sig sd p.
Proof. apply sig_put_shared. Qed.

Lemma has_peer_put_waiter sd t w p : has_peer sd (put_waiter t w p) = has_peer sd p.
Proof. apply has_peer_put_shared. Qed.

Create Rewrite HintDb chan.
Hint Rewrite waiter_put_eq waiter_put_xt waiter_update waiter_put_peer xt_put_waiter sig_put_waiter
  has_peer_put_waiter : chan.
Ltac views := unfold RemoveWaiter, put_waiters in *; autorewrite with peer chan.

Lemma with_waiters_nil (c : Channel (M := M)) : waiters_ c = [] -> with_waiters [] c = c.
Proof. destruct c. simpl. by intros ->. Qed.

(** Emptying a waiter list cancels its waiters and nothing else. *)
Lemma cancel_waiters_spec ws sd st p :
  NoDup ws -> waiters_ (xt sd p) = ws ->
  let p' := cancel_waiters ws sd st p in
  (forall sd', sig sd' p' = sig sd' p) /\ (forall sd', has_peer sd' p' = has_peer sd' p) /\
  xt (other sd) p' = xt (other sd) p /\ xt sd p' = with_waiters [] (xt sd p) /\
  forall t, waiter t p' = if decide (t ∈ ws) then Cancel st (waiter t p) else waiter t p.
Proof.
  revert p. induction ws as [|t ws IH]; intros p Hnd Hw; simpl.
  { split_and!; try done. by rewrite with_waiters_nil. }
  apply NoDup_cons in Hnd as [Hni Hnd]. set (p1 := put_waiter _ _ _).
  destruct (IH p1 Hnd) as (Hs & Hp & Hxo & Hx & Hwt); [unfold p1; by views|].
  split_and!.
  - intros sd'. rewrite Hs. unfold p1. by views.
  - intros sd'. rewrite Hp. unfold p1. by views.
  - rewrite Hxo. unfold p1. by views.
  - rewrite Hx. unfold p1. by views.
  - intros x. rewrite Hwt. unfold p1. views. destruct (decide (x = t)) as [->|Hne].
    + rewrite decide_False by done. rewrite decide_True by apply list_elem_of_here. by views.
    + rewrite waiter_put_ne by done. views. destruct (decide (x ∈ ws)).
      * by rewrite decide_True by by apply list_elem_of_further.
      * rewrite decide_False; [done|]. by apply not_elem_of_cons.
Qed.

(** ** The invariant *)

(** [opened sd]: the endpoint has handles.  [calls]: the threads inside
    [zx_channel_call], with the endpoint they call on. *)
Record chan_sys := mkChan { pair : Pair; opened : side -> bool; calls : gmap Z side }.

(** A waiter that is waiting for its reply, and one whose call is over: it has the
    reply with its transaction id, or the error of a close. *)
Definition waiting (sd : side) (w : MessageWaiter (M := M)) : Prop :=
  channel_ w = Some (this_channel sd) /\ msg_ w = None /\ event_ w = None /\ status_ w = ZX_ERR_TIMED_OUT /\
  Z.testbit (wtxid_ w) 31 = true.
Definition answered (sd : side) (w : MessageWaiter (M := M)) : Prop :=
  channel_ w = Some (this_channel sd) /\ event_ w = Some (status_ w) /\
  match status_ w with
  | ZX_OK => exists msg, msg_ w = Some msg /\ msg_get_txid msg = wtxid_ w
  | ZX_ERR_CANCELED | ZX_ERR_PEER_CLOSED => msg_ w = None
  | _ => False
  end.

Definition txids (ts : list Z) (p : Pair) : list Z := map (fun t => wtxid_ (waiter t p)) ts.

Record side_inv (x : chan_sys) (sd : side) : Prop := {
  sv_peer : has_peer sd (pair x) = opened x sd && opened x (other sd);
  sv_readable : has (sig sd (pair x)) ZX_CHANNEL_READABLE = negb (bool_decide (messages_ (xt sd (pair x)) = []));
  sv_writable : opened x sd = true -> has (sig sd (pair x)) ZX_CHANNEL_WRITABLE = has_peer sd (pair x);
  sv_closed : opened x sd = true -> has (sig sd (pair x)) ZX_CHANNEL_PEER_CLOSED = negb (has_peer sd (pair x));
  sv_count : message_count_ (xt sd (pair x)) = u64 (zlen (messages_ (xt sd (pair x))));
  sv_nodup : NoDup (waiters_ (xt sd (pair x)));
  sv_alone : has_peer sd (pair x) = false -> waiters_ (xt sd (pair x)) = [];
  sv_txids : NoDup (txids (waiters_ (xt sd (pair x))) (pair x));
  sv_waiting : forall t, t ∈ waiters_ (xt sd (pair x)) ->
    waiting sd (waiter t (pair x)) /\ calls x !! t = Some sd;
  sv_calls : forall t, calls x !! t = Some sd -> t ∉ waiters_ (xt sd (pair x)) -> answered sd (waiter t (pair x));
}.

(** A waiter that is not in use holds no message. *)
Definition idle_ok (w : MessageWaiter (M := M)) : Prop := channel_ w = None -> msg_ w = None.

Record chan_inv (x : chan_sys) : Prop := {
  ci_side : forall sd, side_inv x sd;
  ci_idle : forall t, idle_ok (waiter t (pair x));
}.

Lemma chan_inv_intro sd x :
  (forall t, idle_ok (waiter t (pair x))) -> side_inv x sd -> side_inv x (other sd) -> chan_inv x.
Proof. intros H0 H1 H2. split; [|done]. exact (both_sides sd (side_inv x) H1 H2). Qed.

Lemma txids_ext ts p p' :
  (forall t, t ∈ ts -> wtxid_ (waiter t p') = wtxid_ (waiter t p)) -> txids ts p' = txids ts p.
Proof.
  intros H. unfold txids. apply map_ext_in. intros t Ht. by apply H, list_elem_of_In.
Qed.

Lemma txids_filter_nodup t ts p : NoDup (txids ts p) -> NoDup (txids (filter (fun x => x <> t) ts) p).
Proof.
  unfold txids. induction ts as [|x ts IH]; simpl; [done|]. intros [Hni Hnd]%NoDup_cons.
  destruct (decide (x <> t)); [rewrite filter_cons_True by done | rewrite filter_cons_False by done; by apply IH].
  simpl. apply NoDup_cons. split; [|by apply IH]. intros (y & Hy & Hin)%list_elem_of_In%in_map_iff.
  apply Hni, list_elem_of_In, in_map_iff. exists y. split; [done|].
  apply list_elem_of_In, list_elem_of_filter in Hin as [_ ?]. by apply list_elem_of_In.
Qed.

(** The fields of the invariant that a change of waiters alone does not touch. *)
Lemma side_inv_waiters x x' sd :
  side_inv x sd -> opened x' = opened x ->
  (forall sd', has_peer sd' (pair x') = has_peer sd' (pair x)) -> sig sd (pair x') = sig sd (pair x) ->
  messages_ (xt sd (pair x')) = messages_ (xt sd (pair x)) ->
  message_count_ (xt sd (pair x')) = message_count_ (xt sd (pair x)) ->
  NoDup (waiters_ (xt sd (pair x'))) -> (has_peer sd (pair x) = false -> waiters_ (xt sd (pair x')) = []) ->
  NoDup (txids (waiters_ (xt sd (pair x'))) (pair x')) ->
  (forall t, t ∈ waiters_ (xt sd (pair x')) -> waiting sd (waiter t (pair x')) /\ calls x' !! t = Some sd) ->
  (forall t, calls x' !! t = Some sd -> t ∉ waiters_ (xt sd (pair x')) -> answered sd (waiter t (pair x'))) ->
  side_inv x' sd.
Proof.
  intros [H1 H2 H3 H4 H5 _ _ _ _ _] Ho Hp Hs Hm Hc Hn Ha Ht Hw Hcl. split; rewrite ?Ho, ?Hp, ?Hs, ?Hm, ?Hc; done.
Qed.

(** A side none of whose state changes, when the waiters of its calls do not. *)
Lemma side_inv_frame x x' sd :
  side_inv x sd -> opened x' = opened x -> (forall sd', has_peer sd' (pair x') = has_peer sd' (pair x)) ->
  sig sd (pair x') = sig sd (pair x) -> xt sd (pair x') = xt sd (pair x) ->
  (forall t, calls x' !! t = Some sd <-> calls x !! t = Some sd) ->
  (forall t, calls x !! t = Some sd -> waiter t (pair x') = waiter t (pair x)) -> side_inv x' sd.
Proof.
  intros Hi Ho Hp Hs Hx Hc Hw. apply (side_inv_waiters x x' sd Hi); rewrite ?Hx; try done.
  - apply (sv_nodup _ _ Hi).
  - apply (sv_alone _ _ Hi).
  - rewrite (txids_ext _ (pair x)); [apply (sv_txids _ _ Hi)|]. intros t Ht.
    by rewrite Hw by by apply (sv_waiting _ _ Hi).
  - intros t Ht. destruct (sv_waiting _ _ Hi t Ht) as [H1 H2]. rewrite Hw by done. split; [done | by apply Hc].
  - intros t Ht Hn. apply Hc in Ht. rewrite Hw by done. by apply (sv_calls _ _ Hi).
Qed.

Lemma find_waiter_some sd id p t :
  find_waiter sd id p = Some t -> t ∈ waiters_ (xt sd p) /\ wtxid_ (waiter t p) = id.
Proof. intros [H1 H2%Z.eqb_eq]%find_some. split; [by apply list_elem_of_In | done]. Qed.

Lemma find_waiter_none sd id p t :
  find_waiter sd id p = None -> t ∈ waiters_ (xt sd p) -> wtxid_ (waiter t p) <> id.
Proof.
  intros H Ht. pose proof (find_none _ _ H t (proj1 (list_elem_of_In _ _) Ht)) as Hn. by apply Z.eqb_neq.
Qed.

(** [WriteSelf] in its two cases. *)
Lemma WriteSelf_cases r msg p :
  match find_waiter r (msg_get_txid msg) p with
  | Some t => WriteSelf r msg p = put_waiter t (Deliver msg (waiter t p)) (RemoveWaiter r t p)
  | None => exists mx, WriteSelf r msg p =
      UpdateStateLocked r 0 ZX_CHANNEL_READABLE
        (put_xt r (with_messages (messages_ (xt r p) ++ [msg]) (u64 (message_count_ (xt r p) + 1)) mx (xt r p)) p)
  end.
Proof.
  unfold WriteSelf. set (f := find_waiter r (msg_get_txid msg) p).
  assert ((match waiters_ (xt r p) with [] => None | _ => f end) = f) as ->.
  { unfold f, find_waiter. by destruct (waiters_ (xt r p)). }
  destruct f as [t|]; [|by eexists]. unfold RemoveWaiter, put_waiters. by rewrite waiter_put_xt.
Qed.

Lemma deliver_inv r t msg x :
  chan_inv x -> t ∈ waiters_ (xt r (pair x)) -> wtxid_ (waiter t (pair x)) = msg_get_txid msg ->
  chan_inv (mkChan (put_waiter t (Deliver msg (waiter t (pair x))) (RemoveWaiter r t (pair x))) (opened x) (calls x)).
Proof.
  intros Hi Hin Htx. pose proof (ci_side _ Hi r) as Hr. destruct (sv_waiting _ _ Hr t Hin) as [(Hch & Hm & He & Hst & Hb) Hcl].
  apply (chan_inv_intro r).
  - simpl. intros t'. destruct (decide (t' = t)) as [->|Hne]; [views; unfold idle_ok; simpl; congruence|].
    rewrite waiter_put_ne by done. views. apply (ci_idle _ Hi).
  - apply (side_inv_waiters x _ r Hr); simpl; views; try done.
    + intros sd'. by views.
    + simpl. apply NoDup_filter, (sv_nodup _ _ Hr).
    + simpl. intros Hp. by rewrite (sv_alone _ _ Hr Hp).
    + simpl. rewrite (txids_ext _ (pair x)); [apply txids_filter_nodup, (sv_txids _ _ Hr)|].
      intros t' [Hne _]%list_elem_of_filter. rewrite waiter_put_ne by done. by views.
    + simpl. intros t' [Hne Ht']%list_elem_of_filter. rewrite waiter_put_ne by done. views.
      by apply (sv_waiting _ _ Hr).
    + simpl. intros t' Hc' Hn'. destruct (decide (t' = t)) as [->|Hne].
      * views. unfold Deliver, Signal. rewrite He. split; [done|]. split; [done|]. simpl. by exists msg.
      * rewrite waiter_put_ne by done. views. apply (sv_calls _ _ Hr); [done|]. intros Hin'. apply Hn', list_elem_of_filter. done.
  - apply (side_inv_frame x _ _ (ci_side _ Hi (other r))); simpl; views; try done.
    + intros sd'. by views.
    + intros t' Hc'. rewrite waiter_put_ne; [by views|]. intros ->. rewrite Hcl in Hc'.
      injection Hc' as Hc'. by destruct (other_ne r).
Qed.

Ltac chan_consts :=
  unfold ZX_CHANNEL_READABLE, ZX_CHANNEL_WRITABLE, ZX_CHANNEL_PEER_CLOSED,
    ZX_OBJECT_READABLE, ZX_OBJECT_WRITABLE, ZX_OBJECT_PEER_CLOSED in *.

Lemma u64_add_l a b : u64 (u64 a + b) = u64 (a + b).
Proof. unfold u64. by rewrite Z.add_mod_idemp_l. Qed.

(** A change of one side's queue and signals that keeps the rest. *)
Lemma side_inv_queue x x' sd :
  side_inv x sd -> opened x' = opened x -> calls x' = calls x ->
  (forall sd', has_peer sd' (pair x') = has_peer sd' (pair x)) ->
  (forall t, waiter t (pair x') = waiter t (pair x)) ->
  waiters_ (xt sd (pair x')) = waiters_ (xt sd (pair x)) ->
  has (sig sd (pair x')) ZX_CHANNEL_WRITABLE = has (sig sd (pair x)) ZX_CHANNEL_WRITABLE ->
  has (sig sd (pair x')) ZX_CHANNEL_PEER_CLOSED = has (sig sd (pair x)) ZX_CHANNEL_PEER_CLOSED ->
  has (sig sd (pair x')) ZX_CHANNEL_READABLE = negb (bool_decide (messages_ (xt sd (pair x')) = [])) ->
  message_count_ (xt sd (pair x')) = u64 (zlen (messages_ (xt sd (pair x')))) -> side_inv x' sd.
Proof.
  intros [H1 H2 H3 H4 H5 H6 H7 H8 H9 H10] Ho Hc Hp Hw Hws Hwr Hcl Hr Hn.
  split; rewrite ?Ho, ?Hc, ?Hp, ?Hws, ?Hwr, ?Hcl; try done.
  - by rewrite (txids_ext _ (pair x)) by (intros; by rewrite Hw).
  - intros t Ht. rewrite Hw. by apply H9.
  - intros t Ht Hni. rewrite Hw. by apply H10.
Qed.

Lemma enqueue_msg_inv r msg mx x :
  chan_inv x ->
  chan_inv (mkChan (UpdateStateLocked r 0 ZX_CHANNEL_READABLE
    (put_xt r (with_messages (messages_ (xt r (pair x)) ++ [msg]) (u64 (message_count_ (xt r (pair x)) + 1)) mx
                 (xt r (pair x))) (pair x))) (opened x) (calls x)).
Proof.
  intros Hi. apply (chan_inv_intro r).
  - simpl. intros t. views. apply (ci_idle _ Hi).
  - apply (side_inv_queue x _ r (ci_side _ Hi r)); simpl; try done.
    + intros sd'. by views.
    + intros t. by views.
    + by views.
    + chan_consts. sigs. done.
    + chan_consts. sigs. done.
    + chan_consts. sigs. simpl. rewrite bool_decide_false; [done|]. by destruct (messages_ _).
    + views. simpl. rewrite (sv_count _ _ (ci_side _ Hi r)), u64_add_l, zlen_app, zlen_cons, zlen_nil. done.
  - apply (side_inv_frame x _ _ (ci_side _ Hi (other r))); simpl; views; try done.
    + intros sd'. by views.
    + intros t _. by views.
Qed.

Lemma WriteSelf_inv r msg x :
  chan_inv x -> chan_inv (mkChan (WriteSelf r msg (pair x)) (opened x) (calls x)).
Proof.
  intros Hi. pose proof (WriteSelf_cases r msg (pair x)) as Hc.
  destruct (find_waiter r (msg_get_txid msg) (pair x)) as [t|] eqn:Hf.
  - rewrite Hc. apply find_waiter_some in Hf as [Hin Htx]. by apply deliver_inv.
  - destruct Hc as [mx ->]. by apply enqueue_msg_inv.
Qed.

Lemma chan_write_inv sd owner msg x :
  chan_inv x -> chan_inv (mkChan (Write sd owner msg (pair x)).2 (opened x) (calls x)).
Proof.
  intros Hi. unfold Write. destruct (negb _); [by destruct x|]. destruct (negb _); [by destruct x|].
  by apply WriteSelf_inv.
Qed.

Lemma chan_read_inv sd owner mxs mxh may x :
  chan_inv x -> chan_inv (mkChan (Read sd owner mxs mxh may (pair x)).2 (opened x) (calls x)).
Proof.
  intros Hi. unfold Read. destruct (negb _); [by destruct x|].
  destruct (messages_ (xt sd (pair x))) as [|msg rest] eqn:Em; [by destruct x|].
  destruct (_ && negb may); [by destruct x|]. simpl.
  assert ((if bool_decide (rest = []) then UpdateStateLocked sd ZX_CHANNEL_READABLE 0
             (put_xt sd (with_messages rest (u64 (message_count_ (xt sd (pair x)) - 1))
                           (max_message_count_ (xt sd (pair x))) (xt sd (pair x))) (pair x))
           else put_xt sd (with_messages rest (u64 (message_count_ (xt sd (pair x)) - 1))
                             (max_message_count_ (xt sd (pair x))) (xt sd (pair x))) (pair x)) =
          UpdateStateLocked sd (if bool_decide (rest = []) then ZX_CHANNEL_READABLE else 0) 0
            (put_xt sd (with_messages rest (u64 (message_count_ (xt sd (pair x)) - 1))
                          (max_message_count_ (xt sd (pair x))) (xt sd (pair x))) (pair x))) as ->
    by apply update_cond_clear.
  apply (chan_inv_intro sd).
  - simpl. intros t. views. apply (ci_idle _ Hi).
  - apply (side_inv_queue x _ sd (ci_side _ Hi sd)); simpl; try done.
    + intros sd'. by views.
    + intros t. by views.
    + by views.
    + chan_consts. sigs. done.
    + chan_consts. sigs. done.
    + pose proof (sv_readable _ _ (ci_side _ Hi sd)) as Hr. rewrite Em in Hr. chan_consts. sigs. rewrite Hr. simpl.
      by destruct (bool_decide (rest = [])).
    + views. simpl. rewrite (sv_count _ _ (ci_side _ Hi sd)), Em, zlen_cons. unfold Z.sub. rewrite u64_add_l. f_equal. lia.
  - apply (side_inv_frame x _ _ (ci_side _ Hi (other sd))); simpl; views; try done.
    + intros sd'. by views.
    + intros t _. by views.
Qed.

(** User signals stay clear of the channel's own. *)
Lemma user_update_inv_chan sd c s x :
  chan_inv x -> nz (s .&~ (ZX_USER_SIGNAL_ALL .| 0)) = false -> nz (c .&~ (ZX_USER_SIGNAL_ALL .| 0)) = false ->
  chan_inv (mkChan (UpdateStateLocked sd c s (pair x)) (opened x) (calls x)).
Proof.
  intros Hi Hs Hc. assert (forall k, 0 <= k < 24 -> has (sig sd (UpdateStateLocked sd c s (pair x))) (2 ^ k) =
                                   has (sig sd (pair x)) (2 ^ k)) as Hk.
  { intros k Hk. rewrite has_sig_update_eq by lia. rewrite !user_mask_bit by done. simpl. by rewrite andb_true_r. }
  apply (chan_inv_intro sd).
  - simpl. intros t. views. apply (ci_idle _ Hi).
  - apply (side_inv_queue x _ sd (ci_side _ Hi sd)); simpl; try done; chan_consts; try (apply Hk; lia).
    + intros sd'. by views.
    + intros t. by views.
    + by views.
    + rewrite Hk by lia. views. apply (sv_readable _ _ (ci_side _ Hi sd)).
    + views. apply (sv_count _ _ (ci_side _ Hi sd)).
  - apply (side_inv_frame x _ _ (ci_side _ Hi (other sd))); simpl; views; try done.
    + intros sd'. by views.
    + intros t _. by views.
Qed.

(** ** Closing an endpoint *)

Lemma cancel_answered sd w st :
  waiting sd w -> st = ZX_ERR_CANCELED \/ st = ZX_ERR_PEER_CLOSED -> answered sd (Cancel st w).
Proof.
  intros (H1 & H2 & H3 & H4 & H5) Hst. unfold Cancel, Signal. rewrite H3. split; [done|]. split; [done|]. simpl.
  by destruct Hst as [->| ->].
Qed.

Lemma cancel_idle st w : idle_ok w -> idle_ok (Cancel st w).
Proof. done. Qed.

Definition set_closed (sd : side) (f : side -> bool) : side -> bool :=
  fun s => if decide (s = sd) then false else f s.

(** One side's waiters are cancelled with an error of a close. *)
Lemma cancelled_calls x sd st p' :
  side_inv x sd -> st = ZX_ERR_CANCELED \/ st = ZX_ERR_PEER_CLOSED ->
  (forall t, calls x !! t = Some sd ->
     waiter t p' = if decide (t ∈ waiters_ (xt sd (pair x))) then Cancel st (waiter t (pair x)) else waiter t (pair x)) ->
  forall t, calls x !! t = Some sd -> answered sd (waiter t p').
Proof.
  intros Hs Hst Hw t Ht. rewrite Hw by done. destruct (decide _) as [Hin|Hni].
  - apply cancel_answered; [|done]. by apply (sv_waiting _ _ Hs).
  - by apply (sv_calls _ _ Hs).
Qed.

Lemma lists_disjoint x sd t :
  chan_inv x -> t ∈ waiters_ (xt sd (pair x)) -> t ∉ waiters_ (xt (other sd) (pair x)).
Proof.
  intros Hi H1 H2. destruct (sv_waiting _ _ (ci_side _ Hi sd) t H1) as [_ E1].
  destruct (sv_waiting _ _ (ci_side _ Hi (other sd)) t H2) as [_ E2]. rewrite E1 in E2. injection E2 as E2.
  by destruct (other_ne sd).
Qed.

Lemma close_inv sd x :
  chan_inv x -> opened x sd = true ->
  chan_inv (mkChan (Peered.on_zero_handles sd (pair x)) (set_closed sd (opened x)) (calls x)).
Proof.
  intros Hi Hop. set (p := pair x). pose proof (ci_side _ Hi sd) as Hs. pose proof (ci_side _ Hi (other sd)) as Ho.
  unfold Peered.on_zero_handles. cbn [Peered.on_zero_handles_locked Peered.OnPeerZeroHandlesLocked Channel_self].
  unfold on_zero_handles_locked. fold p. set (p1 := put_peer sd false p).
  assert (waiters_ (xt sd p1) = waiters_ (xt sd p)) as Ew1 by (unfold p1; by views). rewrite Ew1.
  destruct (cancel_waiters_spec (waiters_ (xt sd p)) sd ZX_ERR_CANCELED p1 (sv_nodup _ _ Hs) Ew1)
    as (Hg & Hp & Hxo & Hx & Hw).
  set (p2 := cancel_waiters (waiters_ (xt sd p)) sd ZX_ERR_CANCELED p1) in *.
  assert (set_closed sd (opened x) sd = false) as Hc1 by (unfold set_closed; by rewrite decide_True).
  assert (set_closed sd (opened x) (other sd) = opened x (other sd)) as Hc2
    by (unfold set_closed; rewrite decide_False by apply other_ne; done).
  pose proof (sv_peer _ _ Hs) as Hps. rewrite Hop in Hps. simpl in Hps.
  pose proof (sv_peer _ _ Ho) as Hpo. rewrite other_other, Hop, andb_true_r in Hpo.
  destruct (has_peer sd p) eqn:Hpe.
  - set (p3 := UpdateStateLocked (other sd) ZX_CHANNEL_WRITABLE ZX_CHANNEL_PEER_CLOSED (put_peer (other sd) false p2)).
    unfold OnPeerZeroHandlesLocked. fold p3.
    assert (xt (other sd) p3 = xt (other sd) p) as Exo by (unfold p3; views; rewrite Hxo; unfold p1; by views).
    assert (forall t, waiter t p3 = waiter t p2) as Ew3 by (intros t; unfold p3; by views).
    destruct (cancel_waiters_spec (waiters_ (xt (other sd) p3)) (other sd) ZX_ERR_PEER_CLOSED p3)
      as (Hg' & Hp' & Hxo' & Hx' & Hw'); [rewrite Exo; apply (sv_nodup _ _ Ho) | done|].
    set (p4 := cancel_waiters (waiters_ (xt (other sd) p3)) (other sd) ZX_ERR_PEER_CLOSED p3) in *.
    rewrite other_other in Hxo'. rewrite Exo in Hw', Hx'.
    assert (xt sd p4 = with_waiters [] (xt sd p)) as Exs.
    { rewrite Hxo'. unfold p3. views. rewrite Hx. unfold p1. by views. }
    assert (forall sd', has_peer sd' p4 = false) as Hn.
    { intros sd'. rewrite Hp'. unfold p3. views. destruct (decide (sd' = sd)) as [->|Hne].
      - rewrite has_peer_other_put_peer, Hp. unfold p1. by views.
      - assert (sd' = other sd) as -> by (by destruct sd, sd'). by views. }
    apply (chan_inv_intro sd); simpl.
    + intros t. rewrite Hw'. destruct (decide _); [apply cancel_idle|]; rewrite Ew3, Hw; unfold p1; views;
        (destruct (decide _); [apply cancel_idle|]); apply (ci_idle _ Hi).
    + split; simpl; rewrite ?Hn, ?Hc1, ?Exs; try done.
      * rewrite Hg'. unfold p3. views. rewrite Hg. unfold p1. views. apply (sv_readable _ _ Hs).
      * apply (sv_count _ _ Hs).
      * constructor.
      * constructor.
      * intros t Ht. by apply elem_of_nil in Ht.
      * intros t Ht _. eapply (cancelled_calls x sd ZX_ERR_CANCELED); [done | by left | | done].
        intros t' Ht'. rewrite Hw', Ew3, Hw. unfold p1. views. fold p.
        rewrite decide_False; [done|]. intros HF. destruct (sv_waiting _ _ Ho t' HF) as [_ E2].
        rewrite Ht' in E2. injection E2 as E2. by destruct (other_ne sd).
    + split; simpl; rewrite ?Hn, ?Hc2, ?Hx', ?other_other, ?Hc1, ?andb_false_r; try done.
      * rewrite Hg'. unfold p3. pose proof (sv_readable _ _ Ho) as Hr. chan_consts. sigs.
        rewrite Hg. unfold p1. autorewrite with peer. exact Hr.
      * intros _. rewrite Hg'. unfold p3. chan_consts. sigs. done.
      * intros _. rewrite Hg'. unfold p3. chan_consts. sigs. done.
      * apply (sv_count _ _ Ho).
      * constructor.
      * constructor.
      * intros t Ht. by apply elem_of_nil in Ht.
      * intros t Ht _. eapply (cancelled_calls x (other sd) ZX_ERR_PEER_CLOSED); [done | by right | | done].
        intros t' Ht'. rewrite Hw', Ew3, Hw. unfold p1. views. fold p. rewrite (decide_False (P := t' ∈ waiters_ (xt sd p))); [done|].
        intros HF. destruct (sv_waiting _ _ Hs t' HF) as [_ E2]. rewrite Ht' in E2. injection E2 as E2.
        by destruct (other_ne sd).
  - assert (waiters_ (xt sd p) = []) as En by by apply (sv_alone _ _ Hs).
    assert (forall t, waiter t p2 = waiter t p) as Ew2.
    { intros t. rewrite Hw, En, decide_False by apply not_elem_of_nil. unfold p1. by views. }
    assert (xt sd p2 = xt sd p) as Ex2.
    { rewrite Hx. unfold p1. views. by apply with_waiters_nil. }
    apply (chan_inv_intro sd); simpl.
    + intros t. rewrite Ew2. apply (ci_idle _ Hi).
    + split; simpl; rewrite ?Hc1, ?Ex2; try done.
      * rewrite Hp. unfold p1. by views.
      * rewrite Hg. unfold p1. views. apply (sv_readable _ _ Hs).
      * apply (sv_count _ _ Hs).
      * apply (sv_nodup _ _ Hs).
      * rewrite (txids_ext _ p) by (intros; by rewrite Ew2). apply (sv_txids _ _ Hs).
      * intros t Ht. rewrite Ew2. by apply (sv_waiting _ _ Hs).
      * intros t Ht Hni. rewrite Ew2. by apply (sv_calls _ _ Hs).
    + assert (xt (other sd) p2 = xt (other sd) p) as Exo by (rewrite Hxo; unfold p1; by views).
      assert (has_peer (other sd) p2 = has_peer (other sd) p) as Ehp by (rewrite Hp; unfold p1; by views).
      assert (sig (other sd) p2 = sig (other sd) p) as Esg by (rewrite Hg; unfold p1; by views).
      split; simpl; rewrite ?other_other, ?Hc1, ?Hc2, ?Exo, ?Ehp, ?Esg, ?andb_false_r; try done.
      * etrans; [exact Hpo|]. by rewrite <- Hps.
      * apply (sv_readable _ _ Ho).
      * apply (sv_writable _ _ Ho).
      * apply (sv_closed _ _ Ho).
      * apply (sv_count _ _ Ho).
      * apply (sv_nodup _ _ Ho).
      * apply (sv_alone _ _ Ho).
      * rewrite (txids_ext _ p) by (intros; by rewrite Ew2). apply (sv_txids _ _ Ho).
      * intros t Ht. rewrite Ew2. by apply (sv_waiting _ _ Ho).
      * intros t Ht Hni. rewrite Ew2. by apply (sv_calls _ _ Ho).
Qed.

(** ** Transaction ids *)

(** The [k]th id the loop tries. *)
Definition candidate (txid k : Z) : Z := u32 (txid + k) .| 0x80000000.

Lemma candidate_bit txid k : Z.testbit (candidate txid k) 31 = true.
Proof. unfold candidate. rewrite Z.lor_spec. by rewrite orb_true_r. Qed.

Lemma candidate_inj txid j k :
  0 <= j < 2 ^ 31 -> 0 <= k < 2 ^ 31 -> candidate txid j = candidate txid k -> j = k.
Proof.
  intros Hj Hk H. assert ((txid + j) mod 2 ^ 31 = (txid + k) mod 2 ^ 31) as E.
  { apply Z.bits_inj'. intros n Hn. destruct (Z_lt_ge_dec n 31) as [Hlt|Hge].
    - apply (f_equal (fun z => Z.testbit z n)) in H. unfold candidate, u32 in H. change 0x80000000 with (2 ^ 31) in H.
      rewrite !Z.lor_spec, Z.pow2_bits_false, !orb_false_r, !Z.mod_pow2_bits_low in H by lia.
      by rewrite !Z.mod_pow2_bits_low by lia.
    - by rewrite !Z.mod_pow2_bits_high by lia. }
  assert ((j - k) mod 2 ^ 31 = 0) as E0.
  { replace (j - k) with ((txid + j) - (txid + k)) by lia. by rewrite Zminus_mod, E, Z.sub_diag. }
  apply Z.mod_divide in E0 as [q Hq]; [|done]. nia.
Qed.

Lemma alloc_txid_none fuel sd p txid k :
  alloc_txid fuel sd p txid = None -> 1 <= k <= Z.of_nat fuel ->
  candidate txid k ∈ txids (waiters_ (xt sd p)) p.
Proof.
  revert txid k. induction fuel as [|fuel IH]; intros txid k; simpl; [lia|].
  destruct (existsb _ _) eqn:Ex; [|done]. intros Hn Hk. destruct (Z.eq_dec k 1) as [->|Hne].
  - apply existsb_exists in Ex as (t & Ht & E%Z.eqb_eq). unfold candidate. rewrite <- E.
    unfold txids. apply list_elem_of_In, in_map_iff. by exists t.
  - replace (candidate txid k) with (candidate (u32 (txid + 1)) (k - 1)); [apply IH; [done | lia]|].
    unfold candidate, u32. rewrite Z.add_mod_idemp_l by done. do 2 f_equal. lia.
Qed.

Lemma alloc_txid_some fuel sd p txid id tx :
  alloc_txid fuel sd p txid = Some (id, tx) ->
  (id ∉ txids (waiters_ (xt sd p)) p) /\ Z.testbit id 31 = true.
Proof.
  revert txid. induction fuel as [|fuel IH]; intros txid; simpl; [done|]. destruct (existsb _ _) eqn:Ex; [by apply IH|].
  intros [= <- <-]. split; [|apply (candidate_bit txid 1)].
  intros (t & E & Ht)%list_elem_of_In%in_map_iff. apply not_true_iff_false in Ex. apply Ex, existsb_exists.
  exists t. split; [done | by apply Z.eqb_eq].
Qed.

(** The loop ends: there are more candidates than waiters. *)
Lemma alloc_txid_ends sd p txid :
  zlen (waiters_ (xt sd p)) < 2 ^ 31 - 1 ->
  exists id tx, alloc_txid (S (length (waiters_ (xt sd p)))) sd p txid = Some (id, tx).
Proof.
  intros Hl. destruct (alloc_txid _ sd p txid) as [[id tx]|] eqn:Ea; [by eexists _, _|]. exfalso.
  set (n := length (waiters_ (xt sd p))) in *.
  set (cs := map (fun i => candidate txid (Z.of_nat i)) (seq 1 (S n))).
  assert (NoDup cs) as Hnd.
  { apply NoDup_ListNoDup, NoDup_map_NoDup_ForallPairs; [|apply seq_NoDup].
    intros i j Hi Hj E. apply in_seq in Hi, Hj. unfold zlen in Hl. apply Nat2Z.inj, (candidate_inj txid); [lia | lia | done]. }
  assert (cs ⊆+ txids (waiters_ (xt sd p)) p) as Hsub.
  { apply NoDup_submseteq; [done|]. intros c (i & <- & Hi%in_seq)%list_elem_of_In%in_map_iff.
    eapply alloc_txid_none; [exact Ea|]. lia. }
  apply submseteq_length in Hsub. unfold cs, txids in Hsub. rewrite !length_map, length_seq in Hsub. lia.
Qed.

(** ** Calls *)

(** Changing the waiter of a thread that is not in a call. *)
Lemma put_waiter_inv t w x :
  chan_inv x -> calls x !! t = None -> idle_ok w -> chan_inv (mkChan (put_waiter t w (pair x)) (opened x) (calls x)).
Proof.
  intros Hi Hc Hw. split; simpl.
  - intros sd. apply (side_inv_frame x _ _ (ci_side _ Hi sd)); simpl; views; try done.
    + intros t' Ht'. rewrite waiter_put_ne; [done|]. congruence.
  - intros t'. destruct (decide (t' = t)) as [->|Hne]; [by views|]. rewrite waiter_put_ne by done. apply (ci_idle _ Hi).
Qed.

Lemma set_xt_inv sd c x :
  chan_inv x -> messages_ c = messages_ (xt sd (pair x)) -> message_count_ c = message_count_ (xt sd (pair x)) ->
  waiters_ c = waiters_ (xt sd (pair x)) -> chan_inv (mkChan (put_xt sd c (pair x)) (opened x) (calls x)).
Proof.
  intros Hi Hm Hn Hw. apply (chan_inv_intro sd); simpl.
  - intros t. views. apply (ci_idle _ Hi).
  - apply (side_inv_queue x _ sd (ci_side _ Hi sd)); simpl; views; try done.
    + intros sd'. by views.
    + intros t. by views.
    + rewrite Hm. apply (sv_readable _ _ (ci_side _ Hi sd)).
    + rewrite Hm, Hn. apply (sv_count _ _ (ci_side _ Hi sd)).
  - apply (side_inv_frame x _ _ (ci_side _ Hi (other sd))); simpl; views; try done.
    + intros sd'. by views.
    + intros t _. by views.
Qed.

(** A thread enters the list with a new id. *)
Lemma join_inv sd t w x :
  chan_inv x -> has_peer sd (pair x) = true -> calls x !! t = None -> waiting sd w ->
  wtxid_ w ∉ txids (waiters_ (xt sd (pair x))) (pair x) ->
  chan_inv (mkChan (put_waiters sd (waiters_ (xt sd (pair x)) ++ [t]) (put_waiter t w (pair x))) (opened x)
              (<[t := sd]> (calls x))).
Proof.
  intros Hi Hp Hc Hw Htx. pose proof (ci_side _ Hi sd) as Hs.
  assert (t ∉ waiters_ (xt sd (pair x))) as Hni.
  { intros HF. destruct (sv_waiting _ _ Hs t HF) as [_ E]. congruence. }
  assert (forall x0, x0 ∈ waiters_ (xt sd (pair x)) -> x0 <> t) as Hne by (intros x0 Hx0 ->; done).
  apply (chan_inv_intro sd); simpl.
  - intros t'. views. destruct (decide (t' = t)) as [->|Hnt]; [views; intros _; apply Hw|].
    rewrite waiter_put_ne by done. apply (ci_idle _ Hi).
  - apply (side_inv_waiters x _ sd Hs); simpl; views; try done.
    + intros sd'. by views.
    + simpl. apply NoDup_app. split_and!; [apply (sv_nodup _ _ Hs) | | apply NoDup_singleton].
      intros y Hy ->%list_elem_of_singleton. done.
    + intros HF. congruence.
    + simpl. unfold txids. rewrite map_app. simpl. views. apply NoDup_app.
      assert (map (fun y => wtxid_ (waiter y (put_xt sd (with_waiters (waiters_ (xt sd (pair x)) ++ [t])
                (xt sd (pair x))) (put_waiter t w (pair x))))) (waiters_ (xt sd (pair x))) =
              txids (waiters_ (xt sd (pair x))) (pair x)) as ->.
      { apply map_ext_in. intros y Hy%list_elem_of_In. views. rewrite waiter_put_ne by by apply Hne. done. }
      split_and!; [apply (sv_txids _ _ Hs) | | apply NoDup_singleton]. intros y Hy ->%list_elem_of_singleton. done.
    + simpl. intros y [Hy| ->%list_elem_of_singleton]%elem_of_app.
      * views. rewrite waiter_put_ne, lookup_insert_ne by (first [by apply Hne | apply not_eq_sym; by apply Hne]).
        by apply (sv_waiting _ _ Hs).
      * views. by rewrite lookup_insert_eq.
    + simpl. intros y Hy Hn. apply not_elem_of_app in Hn as [Hn1 Hn2].
      assert (y <> t) as Hyt by (intros ->; apply Hn2; by apply list_elem_of_singleton).
      rewrite lookup_insert_ne in Hy by done. views. rewrite waiter_put_ne by done. by apply (sv_calls _ _ Hs).
  - apply (side_inv_frame x _ _ (ci_side _ Hi (other sd))); simpl; views; try done.
    + intros sd'. by views.
    + intros y. destruct (decide (y = t)) as [->|Hyt]; [|by rewrite lookup_insert_ne].
      rewrite lookup_insert_eq, Hc. split; [|done]. intros [= E]. by destruct (other_ne sd).
    + intros y Hy. views. rewrite waiter_put_ne; [done|]. congruence.
Qed.

Definition call_adds (r : call_result) (t : Z) (sd : side) (c : gmap Z side) : gmap Z side :=
  match r with call_waits => <[t := sd]> c | _ => c end.

Lemma Call_inv t sd owner msg x r p' :
  chan_inv x -> calls x !! t = None -> Call t sd owner msg (pair x) = Some (r, p') ->
  chan_inv (mkChan p' (opened x) (call_adds r t sd (calls x))).
Proof.
  intros Hi Hc. unfold Call, BeginWait. destruct (channel_ (waiter t (pair x))) eqn:Hch.
  { simpl. intros [= <- <-]. by destruct x. }
  change (is_err ZX_OK) with false. cbn iota. pose proof (ci_idle _ Hi t Hch) as Hm.
  set (w := mkWaiter _ _ _ _ _).
  assert (chan_inv (mkChan (put_waiter t w (pair x)) (opened x) (calls x))) as Hi1
    by (apply put_waiter_inv; [done | done | by intros HF]).
  views. destruct (negb (owner =? _)); [by intros [= <- <-]|].
  destruct (has_peer sd (pair x)) eqn:Hp; simpl negb; cbn iota.
  2:{ intros [= <- <-]. by apply (put_waiter_inv t _ (mkChan (put_waiter t w (pair x)) (opened x) (calls x))). }
  destruct (alloc_txid _ sd (put_waiter t w (pair x)) _) as [[id tx]|] eqn:Ea; [|done]. cbn [mbind option_bind].
  apply alloc_txid_some in Ea as [Hid Hbit]. rewrite xt_put_waiter in Hid. views. intros [= <- <-]. simpl call_adds.
  set (x1 := mkChan (put_xt sd (with_txid tx (xt sd (pair x))) (put_waiter t w (pair x))) (opened x) (calls x)).
  assert (chan_inv x1) as Hi2.
  { apply (set_xt_inv sd _ (mkChan (put_waiter t w (pair x)) (opened x) (calls x)) Hi1); simpl; by views. }
  assert (waiters_ (xt sd (pair x1)) = waiters_ (xt sd (pair x))) as Ewx by (unfold x1; simpl; by views).
  pose proof (join_inv sd t (set_wtxid id w) x1 Hi2) as Hj.
  rewrite Ewx in Hj. unfold x1 in Hj at 1. simpl in Hj. autorewrite with peer chan in Hj.
  specialize (Hj Hp Hc). unfold put_waiters in Hj. unfold x1 in Hj. simpl in Hj.
  rewrite xt_put_waiter, xt_put_xt_eq in Hj.
  assert (waiting sd (set_wtxid id w)) as Hwt by by split_and!.
  specialize (Hj Hwt).
  rewrite (txids_ext _ (put_waiter t w (pair x))) in Hj by (intros y _; by rewrite waiter_put_xt).
  exact (WriteSelf_inv (other sd) (msg_set_txid id msg) _ (Hj Hid)).
Qed.

(** A thread's call ends: it leaves the list and its waiter is free. *)
Lemma leave_inv sd t w x :
  chan_inv x -> calls x !! t = Some sd -> idle_ok w ->
  chan_inv (mkChan (RemoveWaiter sd t (put_waiter t w (pair x))) (opened x) (delete t (calls x))).
Proof.
  intros Hi Hc Hw. pose proof (ci_side _ Hi sd) as Hs. apply (chan_inv_intro sd); simpl.
  - intros y. views. destruct (decide (y = t)) as [->|Hne]; [by views|].
    rewrite waiter_put_ne by done. apply (ci_idle _ Hi).
  - apply (side_inv_waiters x _ sd Hs); simpl; views; try done; simpl.
    + intros sd'. by views.
    + apply NoDup_filter, (sv_nodup _ _ Hs).
    + intros Hp. by rewrite (sv_alone _ _ Hs Hp).
    + rewrite (txids_ext _ (pair x)); [apply txids_filter_nodup, (sv_txids _ _ Hs)|].
      intros y [Hne _]%list_elem_of_filter. views. by rewrite waiter_put_ne.
    + intros y [Hne Hy]%list_elem_of_filter. views. rewrite waiter_put_ne, lookup_delete_ne by done.
      by apply (sv_waiting _ _ Hs).
    + intros y [Hne Hy]%lookup_delete_Some Hn. views. rewrite waiter_put_ne by done. apply (sv_calls _ _ Hs); [done|].
      intros HF. apply Hn, list_elem_of_filter. done.
  - apply (side_inv_frame x _ _ (ci_side _ Hi (other sd))); simpl; views; try done.
    + intros sd'. by views.
    + intros y. rewrite lookup_delete_Some. split; [by intros [_ ?]|]. intros Hy. split; [|done]. intros ->.
      rewrite Hc in Hy. injection Hy as Hy. by destruct (other_ne sd).
    + intros y Hy. views. rewrite waiter_put_ne; [done|]. intros ->. rewrite Hc in Hy. injection Hy as Hy.
      by destruct (other_ne sd).
Qed.

Lemma remove_absent sd t p :
  t ∉ waiters_ (xt sd p) -> put_xt sd (with_waiters (filter (fun y => y <> t) (waiters_ (xt sd p))) (xt sd p)) p = p.
Proof.
  intros H. rewrite filter_all by (intros y Hy ->; done).
  unfold put_xt, xt. destruct p as [[b0 k0 q0 [? ? ? ? ? ?]] [b1 k1 q1 [? ? ? ? ? ?]] y w]. by destruct sd.
Qed.

(** How a call ends. *)
Lemma Call_finish_spec t sd x :
  chan_inv x -> calls x !! t = Some sd ->
  let '(st, reply, p') := Call_finish t sd (pair x) in
  chan_inv (mkChan p' (opened x) (delete t (calls x))) /\
  match st with
  | ZX_OK => exists msg, reply = Some msg /\ msg_get_txid msg = wtxid_ (waiter t (pair x))
  | ZX_ERR_CANCELED | ZX_ERR_PEER_CLOSED => reply = None
  | ZX_ERR_TIMED_OUT => reply = None /\ t ∈ waiters_ (xt sd (pair x))
  | _ => False
  end.
Proof.
  intros Hi Hc. unfold Call_finish, EndWait. pose proof (ci_side _ Hi sd) as Hs.
  destruct (decide (t ∈ waiters_ (xt sd (pair x)))) as [Hin|Hni].
  - destruct (sv_waiting _ _ Hs t Hin) as [(-> & -> & _ & -> & _) _]. rewrite bool_decide_true by done.
    split; [|done]. by apply leave_inv.
  - destruct (sv_calls _ _ Hs t Hc Hni) as (-> & _ & Hst).
    set (w := mkWaiter _ _ _ _ _).
    pose proof (leave_inv sd t w x Hi Hc (fun _ => eq_refl)) as Hl.
    unfold RemoveWaiter, put_waiters in Hl. rewrite remove_absent in Hl by by rewrite xt_put_waiter.
    destruct (status_ (waiter t (pair x))); try done; (split; [exact Hl | exact Hst]).
Qed.

Lemma destroy_inv t sd x :
  chan_inv x -> calls x !! t = Some sd ->
  chan_inv (mkChan (destroy_waiter t (pair x)) (opened x) (delete t (calls x))).
Proof.
  intros Hi Hc. pose proof (ci_side _ Hi sd) as Hs. unfold destroy_waiter.
  assert (channel_ (waiter t (pair x)) = Some (this_channel sd)) as ->.
  { destruct (decide (t ∈ waiters_ (xt sd (pair x)))) as [Hin|Hni].
    - destruct (sv_waiting _ _ Hs t Hin) as [(-> & _) _]. done.
    - by destruct (sv_calls _ _ Hs t Hc Hni) as (-> & _). }
  pose proof (leave_inv sd t new_waiter x Hi Hc (fun _ => eq_refl)) as Hl.
  assert (forall y, waiter y (put_shared (delete t (shared (RemoveWaiter sd t (pair x)))) (RemoveWaiter sd t (pair x))) =
                    waiter y (RemoveWaiter sd t (put_waiter t new_waiter (pair x)))) as Hw.
  { intros y. views. unfold waiter at 1. simpl. 
    destruct (decide (y = t)) as [->|Hne]; [rewrite lookup_delete_eq; by views|].
    rewrite lookup_delete_ne, waiter_put_ne by done. done. }
  split; simpl.
  - intros sd'. apply (side_inv_frame _ _ _ (ci_side _ Hl sd')); simpl; views; try done.
    + intros sd2. by views.
    + destruct (decide (sd' = sd)) as [->|Hne]; [by views|].
      assert (sd' = other sd) as -> by (by destruct sd, sd'). by views.
    + intros y _. autorewrite with peer chan in Hw. apply Hw.
  - intros y. rewrite Hw. apply (ci_idle _ Hl).
Qed.

(** ** Runs *)

Inductive chan_step (x : chan_sys) : chan_sys -> Prop :=
| cs_write sd owner msg :
    opened x sd = true -> chan_step x (mkChan (Write sd owner msg (pair x)).2 (opened x) (calls x))
| cs_read sd owner mxs mxh may :
    opened x sd = true -> chan_step x (mkChan (Read sd owner mxs mxh may (pair x)).2 (opened x) (calls x))
| cs_call t sd owner msg r p' :
    opened x sd = true -> calls x !! t = None -> Call t sd owner msg (pair x) = Some (r, p') ->
    chan_step x (mkChan p' (opened x) (call_adds r t sd (calls x)))
| cs_finish t sd :
    calls x !! t = Some sd ->
    chan_step x (mkChan (Call_finish t sd (pair x)).2 (opened x) (delete t (calls x)))
| cs_thread_dies t sd :
    calls x !! t = Some sd -> chan_step x (mkChan (destroy_waiter t (pair x)) (opened x) (delete t (calls x)))
| cs_close sd :
    opened x sd = true ->
    chan_step x (mkChan (Peered.on_zero_handles sd (pair x)) (set_closed sd (opened x)) (calls x))
| cs_set_owner sd o : chan_step x (mkChan (set_owner sd o (pair x)) (opened x) (calls x))
| cs_signal_self sd c s : chan_step x (mkChan (user_signal_self sd c s (pair x)).2 (opened x) (calls x))
| cs_signal_peer sd c s : chan_step x (mkChan (user_signal_peer sd c s (pair x)).2 (opened x) (calls x)).

Definition chan_reachable (x : chan_sys) : Prop :=
  exists k0 k1 ws w p, map_Forall (fun _ w => idle_ok w) ws /\ Create (true, true, true) k0 k1 ws w = inr p /\
    rtc chan_step (mkChan p (fun _ => true) ∅) x.

Lemma chan_step_inv x x' : chan_step x x' -> chan_inv x -> chan_inv x'.
Proof.
  intros [sd owner msg Ho | sd owner mxs mxh may Ho | t sd owner msg r p' Ho Hc H | t sd Hc | t sd Hc | sd Ho
         | sd o | sd c s | sd c s] Hi.
  - by apply chan_write_inv.
  - by apply chan_read_inv.
  - by apply (Call_inv t sd owner msg).
  - pose proof (Call_finish_spec t sd x Hi Hc) as Hf. destruct (Call_finish t sd (pair x)) as [[st reply] p'].
    by destruct Hf.
  - by apply (destroy_inv t sd).
  - by apply close_inv.
  - unfold set_owner. destruct (_ =? _); [by destruct x | by apply set_xt_inv].
  - unfold user_signal_self. cbn [extra_signals Channel_self].
    destruct (_ || _) eqn:E; [by destruct x|]. apply orb_false_iff in E as [E1 E2].
    by apply user_update_inv_chan.
  - unfold user_signal_peer. cbn [extra_signals Channel_self].
    destruct (_ || _) eqn:E; [by destruct x|]. apply orb_false_iff in E as [E1 E2].
    destruct (has_peer sd (pair x)); [by apply user_update_inv_chan | by destruct x].
Qed.

Lemma Create_chan_inv k0 k1 ws w p :
  map_Forall (fun _ w => idle_ok w) ws -> Create (true, true, true) k0 k1 ws w = inr p ->
  chan_inv (mkChan p (fun _ => true) ∅).
Proof.
  intros Hws [= <-]. split; simpl.
  - intros []; split; simpl; try done; try apply NoDup_nil_2; by intros t ?%elem_of_nil.
  - intros t. unfold waiter. simpl. destruct (ws !! t) as [w0|] eqn:E; [by apply (Hws t)|]. by intros _.
Qed.

Lemma chan_reachable_inv x : chan_reachable x -> chan_inv x.
Proof.
  intros (k0 & k1 & ws & w & p & Hws & Hc & Hr). pose proof (Create_chan_inv _ _ _ _ _ Hws Hc) as H0.
  induction Hr as [|x1 x2 x3 Hs _ IH]; [done|]. apply IH. by eapply chan_step_inv.
Qed.

(** channel signals tell the truth.  In every state reached by writes, reads,
    calls, closes and user signals, an endpoint with handles is [READABLE] exactly
    when a message is queued for it, [WRITABLE] exactly when the other endpoint is
    open and [PEER_CLOSED] exactly when it is not; [message_count_] is the length of
    the queue. *)
Theorem channel_signals x sd :
  chan_reachable x -> opened x sd = true ->
  has (sig sd (pair x)) ZX_CHANNEL_READABLE = negb (bool_decide (messages_ (xt sd (pair x)) = [])) /\
  has (sig sd (pair x)) ZX_CHANNEL_WRITABLE = opened x (other sd) /\
  has (sig sd (pair x)) ZX_CHANNEL_PEER_CLOSED = negb (opened x (other sd)) /\
  message_count_ (xt sd (pair x)) = u64 (zlen (messages_ (xt sd (pair x)))).
Proof.
  intros Hi%chan_reachable_inv Ho. destruct (ci_side _ Hi sd) as [Hp Hr Hw Hc Hn _ _ _ _ _].
  rewrite Ho in Hp. simpl in Hp. rewrite <- Hp. by split_and!; [| apply Hw | apply Hc |].
Qed.

(** C13: the fate of a call.  In every reachable state a thread inside
    [zx_channel_call] is unanswered, with its event unsignaled, exactly when its
    waiter is in the endpoint's list; when the call ends it returns [ZX_OK] with a
    message that carries its transaction id, [ZX_ERR_CANCELED] or
    [ZX_ERR_PEER_CLOSED] without one, or [ZX_ERR_TIMED_OUT] without one and only
    if it was still unanswered; afterwards its waiter is in no list and is free for
    the next call. *)
Theorem channel_call_outcome x t sd :
  chan_reachable x -> calls x !! t = Some sd ->
  (event_ (waiter t (pair x)) = None <-> t ∈ waiters_ (xt sd (pair x))) /\
  let '(st, reply, p') := Call_finish t sd (pair x) in
  match st with
  | ZX_OK => exists msg, reply = Some msg /\ msg_get_txid msg = wtxid_ (waiter t (pair x))
  | ZX_ERR_CANCELED | ZX_ERR_PEER_CLOSED => reply = None
  | ZX_ERR_TIMED_OUT => reply = None /\ t ∈ waiters_ (xt sd (pair x))
  | _ => False
  end /\
  (forall sd', t ∉ waiters_ (xt sd' p')) /\ channel_ (waiter t p') = None.
Proof.
  intros Hi%chan_reachable_inv Hc. pose proof (ci_side _ Hi sd) as Hs. split.
  - split.
    + intros He. destruct (decide (t ∈ waiters_ (xt sd (pair x)))) as [|Hni]; [done|].
      destruct (sv_calls _ _ Hs t Hc Hni) as (_ & HF & _). congruence.
    + intros Hin. destruct (sv_waiting _ _ Hs t Hin) as [(_ & _ & ? & _) _]. done.
  - pose proof (Call_finish_spec t sd x Hi Hc) as Hf.
    assert (channel_ (waiter t (Call_finish t sd (pair x)).2) = None) as Hch.
    { unfold Call_finish, EndWait. destruct (channel_ (waiter t (pair x))) eqn:E; simpl; try case_bool_decide; by views. }
    destruct (Call_finish t sd (pair x)) as [[st reply] p']. destruct Hf as [Hi' Hst]. split_and!; [done | | done].
    intros sd' Hin. destruct (sv_waiting _ _ (ci_side _ Hi' sd') t Hin) as [_ HF]. simpl in HF.
    by rewrite lookup_delete_eq in HF.
Qed.

(** the transaction ids of the calls waiting on an endpoint are distinct and
    all have the high bit that userspace ids lack, and the loop that looks for a
    fresh one ends: a call on a channel with fewer than [2^31 - 1] waiters always
    gets past it. *)
Theorem channel_txids_unique x sd t owner msg :
  chan_reachable x -> zlen (waiters_ (xt sd (pair x))) < 2 ^ 31 - 1 ->
  NoDup (txids (waiters_ (xt sd (pair x))) (pair x)) /\
  (forall t', t' ∈ waiters_ (xt sd (pair x)) -> Z.testbit (wtxid_ (waiter t' (pair x))) 31 = true) /\
  is_Some (Call t sd owner msg (pair x)).
Proof.
  intros Hi%chan_reachable_inv Hl. pose proof (ci_side _ Hi sd) as Hs. split_and!.
  - apply (sv_txids _ _ Hs).
  - intros t' Ht'. destruct (sv_waiting _ _ Hs t' Ht') as [(_ & _ & _ & _ & ?) _]. done.
  - unfold Call. destruct (BeginWait _ _) as [st w]. destruct (is_err st); [by eexists|].
    views. destruct (negb _); [by eexists|]. destruct (negb _); [by eexists|].
    destruct (alloc_txid_ends sd (put_waiter t w (pair x)) (txid_ (xt sd (pair x)))) as (id & tx & E);
      [by rewrite xt_put_waiter|].
    rewrite xt_put_waiter in E. rewrite E. by eexists.
Qed.

(** C31: where a message goes.  A write by the owner of an open endpoint to an open
    peer succeeds; the message goes to the peer's waiting call with its transaction
    id if there is one, which leaves the list, and otherwise to the end of the
    peer's queue; nothing else of either queue changes. *)
Theorem channel_write_routes x sd owner msg :
  chan_reachable x -> opened x sd = true -> opened x (other sd) = true -> owner = owner_ (xt sd (pair x)) ->
  let (st, p') := Write sd owner msg (pair x) in
  st = ZX_OK /\ messages_ (xt sd p') = messages_ (xt sd (pair x)) /\
  match find_waiter (other sd) (msg_get_txid msg) (pair x) with
  | Some t => msg_ (waiter t p') = Some msg /\ event_ (waiter t p') = Some ZX_OK /\
              (t ∉ waiters_ (xt (other sd) p')) /\
              messages_ (xt (other sd) p') = messages_ (xt (other sd) (pair x))
  | None => messages_ (xt (other sd) p') = messages_ (xt (other sd) (pair x)) ++ [msg] /\
            waiters_ (xt (other sd) p') = waiters_ (xt (other sd) (pair x))
  end.
Proof.
  intros Hi%chan_reachable_inv Ho Ho' ->. unfold Write. rewrite Z.eqb_refl. simpl.
  rewrite (sv_peer _ _ (ci_side _ Hi sd)), Ho, Ho'. simpl. split; [done|].
  pose proof (WriteSelf_cases (other sd) msg (pair x)) as Hw.
  destruct (find_waiter (other sd) (msg_get_txid msg) (pair x)) as [t|] eqn:Hf.
  - rewrite Hw. apply find_waiter_some in Hf as [Hin _].
    destruct (sv_waiting _ _ (ci_side _ Hi (other sd)) t Hin) as [(_ & _ & He & _) _]. views. split; [done|].
    unfold Deliver, Signal. rewrite He. split_and!; try done. by intros [HF _]%list_elem_of_filter.
  - destruct Hw as [mx ->]. views. done.
Qed.

(** a read takes the oldest message.  With the owner's koid, a queue
    [msg :: rest] and buffers large enough, it returns [msg] and leaves [rest]; when
    a buffer is too small it reports the sizes needed and takes the message only if
    it may discard it; an empty queue reports [ZX_ERR_SHOULD_WAIT], or
    [ZX_ERR_PEER_CLOSED] once the other endpoint is closed, and changes nothing. *)
Theorem channel_read_fifo x sd mxs mxh may :
  chan_reachable x -> opened x sd = true ->
  let '(st, sizes, taken, p') := Read sd (owner_ (xt sd (pair x))) mxs mxh may (pair x) in
  match messages_ (xt sd (pair x)) with
  | [] => st = (if opened x (other sd) then ZX_ERR_SHOULD_WAIT else ZX_ERR_PEER_CLOSED) /\
          taken = None /\ p' = pair x
  | msg :: rest =>
      sizes = Some (msg_data_size msg, msg_num_handles msg) /\
      let fits := (msg_data_size msg <=? mxs) && (msg_num_handles msg <=? mxh) in
      st = (if fits then ZX_OK else ZX_ERR_BUFFER_TOO_SMALL) /\
      if fits || may then taken = Some msg /\ messages_ (xt sd p') = rest
      else taken = None /\ p' = pair x
  end.
Proof.
  intros Hi%chan_reachable_inv Ho. unfold Read. rewrite Z.eqb_refl. simpl.
  destruct (messages_ (xt sd (pair x))) as [|msg rest]; [by rewrite (sv_peer _ _ (ci_side _ Hi sd)), Ho|].
  rewrite !Z.gtb_ltb, !Z.ltb_antisym.
  destruct (msg_data_size msg <=? mxs), (msg_num_handles msg <=? mxh), may; simpl; split_and!; try done;
    case_bool_decide; by views.
Qed.

(** a call that fails because the channel has changed hands leaves its thread
    unable to call.  [Call] returns [ZX_ERR_BAD_HANDLE] without ending the wait it
    began, so the next [Call] of the thread, on any channel and with any message,
    takes it for a second call in progress and kills the process. *)
Theorem channel_call_bad_owner_wedges_thread t sd owner msg p :
  channel_ (waiter t p) = None -> owner <> owner_ (xt sd p) ->
  exists p', Call t sd owner msg p = Some (call_returns ZX_ERR_BAD_HANDLE, p') /\
    forall sd' owner' msg', Call t sd' owner' msg' p' = Some (call_kills_process, p').
Proof.
  intros Hch Ho. unfold Call at 1, BeginWait. rewrite Hch. change (is_err ZX_OK) with false. cbn iota. views.
  rewrite (proj2 (Z.eqb_neq _ _) Ho). simpl. eexists. split; [done|]. intros sd' owner' msg'.
  unfold Call, BeginWait. by rewrite waiter_put_eq.
Qed.

End Channel.

(** ** A run: thread 5 calls over the left endpoint, the right one then reads *)

Abbreviation ex_sys_t := (@chan_sys MessagePacket.MessagePacket unit Empty_set).

Definition ex_pair := match Create (M := MessagePacket.MessagePacket) (O := Empty_set) (true, true, true) 10 11 ∅ tt with
                      | inr p => p
                      | inl _ => new_pair 0 0 0 new_channel new_channel ∅ tt
                      end.

Definition ex_called : ex_sys_t :=
  match Call 5 Side0 0 ex_msg ex_pair with
  | Some (r, p) => mkChan p (fun _ => true) (call_adds r 5 Side0 ∅)
  | None => mkChan ex_pair (fun _ => true) ∅
  end.

Lemma ex_called_reachable : chan_reachable ex_called.
Proof.
  exists 10, 11, ∅, tt, ex_pair. split_and!; [apply map_Forall_empty | done |]. apply rtc_once.
  unfold ex_called. destruct (Call 5 Side0 0 ex_msg ex_pair) as [[r p]|] eqn:E.
  - by apply (cs_call (mkChan ex_pair (fun _ => true) ∅) 5 Side0 0 ex_msg r p).
  - exfalso. revert E. vm_compute. discriminate.
Qed.

Lemma channel_signals_witness :
  has (sig Side1 (pair ex_called)) ZX_CHANNEL_READABLE = true /\ has (sig Side0 (pair ex_called)) ZX_CHANNEL_WRITABLE = true.
Proof.
  split.
  - etransitivity; [exact (proj1 (channel_signals ex_called Side1 ex_called_reachable eq_refl))|]. by vm_compute.
  - exact (proj1 (proj2 (channel_signals ex_called Side0 ex_called_reachable ltac:(by vm_compute)))).
Defined.


Lemma channel_call_outcome_witness :
  let '(st, reply, p') := Call_finish 5 Side0 (pair ex_called) in
  st = ZX_ERR_TIMED_OUT /\ 5 ∉ waiters_ (xt Side0 p').
Proof.
  destruct (channel_call_outcome ex_called 5 Side0 ex_called_reachable ltac:(by vm_compute)) as [_ H].
  destruct (Call_finish 5 Side0 (pair ex_called)) as [[st reply] p'] eqn:E. destruct H as (_ & Hw & _).
  split; [|apply Hw]. change st with ((st, reply, p').1.1). rewrite <- E. by vm_compute.
Defined.

Lemma channel_txids_unique_witness :
  txids (waiters_ (xt Side0 (pair ex_called))) (pair ex_called) = [0x80000001] /\
  is_Some (Call 6 Side0 0 ex_msg (pair ex_called)).
Proof.
  split; [by vm_compute|].
  exact (proj2 (proj2 (channel_txids_unique ex_called Side0 6 0 ex_msg ex_called_reachable ltac:(by vm_compute)))).
Defined.

(** The reply to thread 5's call is handed to it. *)
Definition ex_reply : MessagePacket.MessagePacket := MessagePacket.set_txid 0x80000001 ex_msg.

Lemma channel_write_routes_witness :
  let (st, p') := Write Side1 0 ex_reply (pair ex_called) in
  st = ZX_OK /\ msg_ (waiter 5 p') = Some ex_reply.
Proof.
  pose proof (channel_write_routes ex_called Side1 0 ex_reply ex_called_reachable
                ltac:(by vm_compute) ltac:(by vm_compute) ltac:(by vm_compute)) as H.
  destruct (Write Side1 0 ex_reply (pair ex_called)) as [st p']. destruct H as (Hst & _ & H).
  assert (find_waiter (other Side1) (msg_get_txid ex_reply) (pair ex_called) = Some 5) as Hf by by vm_compute.
  rewrite Hf in H. by destruct H.
Defined.

Lemma channel_read_fifo_witness :
  let '(st, sizes, taken, _) := Read Side1 0 3 8 false (pair ex_called) in
  st = ZX_ERR_BUFFER_TOO_SMALL /\ sizes = Some (6, 1) /\ taken = None.
Proof.
  pose proof (channel_read_fifo ex_called Side1 3 8 false ex_called_reachable ltac:(by vm_compute)) as H.
  assert (exists msg, messages_ (xt Side1 (pair ex_called)) = [msg] /\
                      msg_data_size msg = 6 /\ msg_num_handles msg = 1) as (msg & Hm & Hd & Hh)
    by (eexists; split_and!; by vm_compute).
  assert (owner_ (xt Side1 (pair ex_called)) = 0) as Ho by by vm_compute.
  rewrite Hm, Ho in H. destruct (Read Side1 0 3 8 false (pair ex_called)) as [[[st sizes] taken] p'].
  rewrite Hd, Hh in H. destruct H as (-> & -> & -> & _). done.
Defined.

(** Thread 5 passes an owner that is not the channel's. *)
Lemma channel_call_bad_owner_wedges_thread_witness :
  exists p', Call 5 Side0 99 ex_msg ex_pair = Some (call_returns ZX_ERR_BAD_HANDLE, p') /\
    Call 5 Side0 0 ex_msg p' = Some (call_kills_process, p').
Proof.
  destruct (channel_call_bad_owner_wedges_thread 5 Side0 99 ex_msg ex_pair) as (p' & H1 & H2);
    [by vm_compute | by vm_compute |]. exists p'. split; [exact H1 | apply H2].
Defined.
