(* ===== verification/Deadline.v ===== *)
(** * Times, slack and deadlines

    The saturating time arithmetic of [zircon/time.h], [TimerSlack] and [Deadline]
    of [kernel/deadline.h] and [kernel/deadline.cc]. *)

From S2P Require Import Prelude Zx.

(** ** time.h *)

(** Two's-complement wrap of a 64-bit signed result. *)
Definition i64 (x : Z) : Z := (x + 2 ^ 63) mod 2 ^ 64 - 2 ^ 63.
Definition is_i64 (x : Z) : Prop := - 2 ^ 63 <= x < 2 ^ 63.

Definition ZX_TIME_INFINITE : Z := 2 ^ 63 - 1.
Definition ZX_TIME_INFINITE_PAST : Z := - 2 ^ 63.

(** [add_overflow] and [sub_overflow]: whether the result does not fit, and the
    wrapped result. *)
Definition add_overflow (a b : Z) : bool * Z := (negb (i64 (a + b) =? a + b), i64 (a + b)).
Definition sub_overflow (a b : Z) : bool * Z := (negb (i64 (a - b) =? a - b), i64 (a - b)).

Definition zx_time_add_duration (time duration : Z) : Z :=
  let '(overflow, x) := add_overflow time duration in
  if overflow then (if x >=? 0 then ZX_TIME_INFINITE_PAST else ZX_TIME_INFINITE) else x.

Definition zx_time_sub_duration (time duration : Z) : Z :=
  let '(overflow, x) := sub_overflow time duration in
  if overflow then (if x >=? 0 then ZX_TIME_INFINITE_PAST else ZX_TIME_INFINITE) else x.

(** ** deadline.h *)

Inductive slack_mode := TIMER_SLACK_CENTER | TIMER_SLACK_EARLY | TIMER_SLACK_LATE.

#[export] Instance slack_mode_eq_dec : EqDecision slack_mode.
Proof. solve_decision. Defined.

Record TimerSlack := mkSlack { slack_amount : Z; slack_mode_ : slack_mode }.

#[export] Instance TimerSlack_eq_dec : EqDecision TimerSlack.
Proof. solve_decision. Defined.

Definition TimerSlack_none : TimerSlack := mkSlack 0 TIMER_SLACK_CENTER.

Record Deadline := mkDeadline { when_ : Z; dslack_ : TimerSlack }.

Definition Deadline_no_slack (when : Z) : Deadline := mkDeadline when TimerSlack_none.
Definition Deadline_infinite : Deadline := mkDeadline ZX_TIME_INFINITE TimerSlack_none.

Definition earliest (d : Deadline) : Z :=
  match slack_mode_ (dslack_ d) with
  | TIMER_SLACK_CENTER => zx_time_sub_duration (when_ d) (slack_amount (dslack_ d))
  | TIMER_SLACK_LATE => when_ d
  | TIMER_SLACK_EARLY => zx_time_sub_duration (when_ d) (slack_amount (dslack_ d))
  end.

Definition latest (d : Deadline) : Z :=
  match slack_mode_ (dslack_ d) with
  | TIMER_SLACK_CENTER => zx_time_add_duration (when_ d) (slack_amount (dslack_ d))
  | TIMER_SLACK_LATE => zx_time_add_duration (when_ d) (slack_amount (dslack_ d))
  | TIMER_SLACK_EARLY => when_ d
  end.

(** ** Saturation *)

Definition clamp (x : Z) : Z := Z.max ZX_TIME_INFINITE_PAST (Z.min ZX_TIME_INFINITE x).

Lemma i64_cases x : is_i64 (x + 2 ^ 64) \/ is_i64 x \/ is_i64 (x - 2 ^ 64) ->
  (is_i64 x /\ i64 x = x) \/ (x >= 2 ^ 63 /\ i64 x = x - 2 ^ 64) \/ (x < - 2 ^ 63 /\ i64 x = x + 2 ^ 64).
Proof.
  unfold is_i64, i64. intros [H|[H|H]].
  - right; right. split; [lia|]. rewrite <- (Z.mod_add _ 1) by lia. rewrite Z.mod_small; lia.
  - left. split; [lia|]. rewrite Z.mod_small; lia.
  - right; left. split; [lia|]. rewrite <- (Z.mod_add _ (-1)) by lia. rewrite Z.mod_small; lia.
Qed.

Ltac time_cases x :=
  destruct (i64_cases x) as [[? ->]|[[? ->]|[? ->]]]; [unfold is_i64 in *; lia | ..];
  repeat match goal with |- context [?a =? ?b] => destruct (Z.eqb_spec a b) end;
  repeat match goal with |- context [?a >=? ?b] => destruct (Z.geb_spec a b) end;
  simpl; unfold clamp, ZX_TIME_INFINITE, ZX_TIME_INFINITE_PAST, is_i64 in *; lia.

Lemma time_add_clamp t d : is_i64 t -> is_i64 d -> zx_time_add_duration t d = clamp (t + d).
Proof. intros Ht Hd. unfold zx_time_add_duration, add_overflow. time_cases (t + d). Qed.

Lemma time_sub_clamp t d : is_i64 t -> is_i64 d -> zx_time_sub_duration t d = clamp (t - d).
Proof. intros Ht Hd. unfold zx_time_sub_duration, sub_overflow. time_cases (t - d). Qed.

(** time arithmetic saturates and slack widens a deadline.  Adding or
    subtracting a duration gives the exact result clamped to the representable
    times, and for a slack that is not negative
    [earliest() <= when() <= latest()], with neither end further from [when()] than
    the slack. *)
Theorem deadline_window d :
  is_i64 (when_ d) -> 0 <= slack_amount (dslack_ d) < 2 ^ 63 ->
  zx_time_add_duration (when_ d) (slack_amount (dslack_ d)) = clamp (when_ d + slack_amount (dslack_ d)) /\
  zx_time_sub_duration (when_ d) (slack_amount (dslack_ d)) = clamp (when_ d - slack_amount (dslack_ d)) /\
  earliest d <= when_ d <= latest d /\
  when_ d - slack_amount (dslack_ d) <= earliest d /\ latest d <= when_ d + slack_amount (dslack_ d) /\
  is_i64 (earliest d) /\ is_i64 (latest d).
Proof.
  intros Hw Ha. assert (is_i64 (slack_amount (dslack_ d))) as Hd by (unfold is_i64; lia).
  unfold earliest, latest. rewrite !time_add_clamp, !time_sub_clamp by done.
  unfold clamp, ZX_TIME_INFINITE, ZX_TIME_INFINITE_PAST, is_i64 in *.
  destruct (slack_mode_ (dslack_ d)); lia.
Qed.

Definition ex_deadline : Deadline := mkDeadline (2 ^ 63 - 5) (mkSlack 10 TIMER_SLACK_CENTER).

Lemma deadline_window_witness :
  earliest ex_deadline <= when_ ex_deadline <= latest ex_deadline /\ latest ex_deadline = ZX_TIME_INFINITE.
Proof.
  destruct (deadline_window ex_deadline) as (_ & _ & H & _); [by vm_compute | by vm_compute |].
  split; [exact H | by vm_compute].
Defined.
