(* ===== verification/JobPolicy.v ===== *)
(** * JobPolicy

    [object/job_policy.cc] and [object/job_policy.h]: the policy of a job packed
    into the bits of a 64-bit cookie, with the bit-field members of
    [fbl/bitfield.h].  Conditions, actions and flags are the 32-bit integers that
    user code passes; [ZX_DEBUG_ASSERT]s are not compiled in. *)

From S2P Require Import Prelude Zx Deadline.

(** ** zircon/syscalls/policy.h *)

Definition ZX_JOB_POL_RELATIVE : Z := 0.
Definition ZX_JOB_POL_ABSOLUTE : Z := 1.

Definition ZX_POL_BAD_HANDLE : Z := 0.
Definition ZX_POL_WRONG_OBJECT : Z := 1.
Definition ZX_POL_VMAR_WX : Z := 2.
Definition ZX_POL_NEW_ANY : Z := 3.
Definition ZX_POL_NEW_VMO : Z := 4.
Definition ZX_POL_NEW_CHANNEL : Z := 5.
Definition ZX_POL_NEW_EVENT : Z := 6.
Definition ZX_POL_NEW_EVENTPAIR : Z := 7.
Definition ZX_POL_NEW_PORT : Z := 8.
Definition ZX_POL_NEW_SOCKET : Z := 9.
Definition ZX_POL_NEW_FIFO : Z := 10.
Definition ZX_POL_NEW_TIMER : Z := 11.
Definition ZX_POL_NEW_PROCESS : Z := 12.
Definition ZX_POL_NEW_PROFILE : Z := 13.
Definition ZX_POL_AMBIENT_MARK_VMO_EXEC : Z := 14.
Definition ZX_POL_MAX : Z := 15.

Definition ZX_POL_ACTION_ALLOW : Z := 0.
Definition ZX_POL_ACTION_DENY : Z := 1.
Definition ZX_POL_ACTION_ALLOW_EXCEPTION : Z := 2.
Definition ZX_POL_ACTION_DENY_EXCEPTION : Z := 3.
Definition ZX_POL_ACTION_KILL : Z := 4.
Definition ZX_POL_ACTION_MAX : Z := 5.

Definition ZX_POL_OVERRIDE_ALLOW : Z := 0.
Definition ZX_POL_OVERRIDE_DENY : Z := 1.

Record zx_policy_basic_v2 := mkPolicy { condition : Z; action : Z; flags : Z }.

(** ** fbl/bitfield.h *)

Record BitFieldMember := mkMember { Offset : Z; BitCount : Z }.

Definition Maximum (m : BitFieldMember) : Z := Z.shiftl 1 (BitCount m) - 1.
Definition Mask (m : BitFieldMember) : Z := Z.shiftl (Maximum m) (Offset m).
Definition member_get (m : BitFieldMember) (value : Z) : Z := Z.shiftr value (Offset m) .& Maximum m.
Definition member_set (m : BitFieldMember) (new_value value : Z) : Z :=
  (value .&~ Mask m) .| u64 (Z.shiftl new_value (Offset m)).

Module JobPolicy.

Definition kNewObjectPolicies : list Z :=
  [ZX_POL_NEW_VMO; ZX_POL_NEW_CHANNEL; ZX_POL_NEW_EVENT; ZX_POL_NEW_EVENTPAIR; ZX_POL_NEW_PORT;
   ZX_POL_NEW_SOCKET; ZX_POL_NEW_FIFO; ZX_POL_NEW_TIMER; ZX_POL_NEW_PROCESS; ZX_POL_NEW_PROFILE].

(** The members of [JobPolicyBits] that hold actions. *)
Inductive JobPolicyBits :=
| bad_handle | wrong_object | vmar_wx | new_vmo | new_channel | new_event | new_eventpair | new_port
| new_socket | new_fifo | new_timer | new_process | new_profile | ambient_mark_vmo_exec.

#[export] Instance JobPolicyBits_eq_dec : EqDecision JobPolicyBits.
Proof. solve_decision. Defined.

Definition action_member (f : JobPolicyBits) : BitFieldMember :=
  match f with
  | bad_handle => mkMember 0 3
  | wrong_object => mkMember 4 3
  | vmar_wx => mkMember 8 3
  | new_vmo => mkMember 12 3
  | new_channel => mkMember 16 3
  | new_event => mkMember 20 3
  | new_eventpair => mkMember 24 3
  | new_port => mkMember 28 3
  | new_socket => mkMember 32 3
  | new_fifo => mkMember 36 3
  | new_timer => mkMember 40 3
  | new_process => mkMember 44 3
  | new_profile => mkMember 48 3
  | ambient_mark_vmo_exec => mkMember 52 3
  end.

Definition override_member (f : JobPolicyBits) : BitFieldMember :=
  match f with
  | bad_handle => mkMember 3 1
  | wrong_object => mkMember 7 1
  | vmar_wx => mkMember 11 1
  | new_vmo => mkMember 15 1
  | new_channel => mkMember 19 1
  | new_event => mkMember 23 1
  | new_eventpair => mkMember 27 1
  | new_port => mkMember 31 1
  | new_socket => mkMember 35 1
  | new_fifo => mkMember 39 1
  | new_timer => mkMember 43 1
  | new_process => mkMember 47 1
  | new_profile => mkMember 51 1
  | ambient_mark_vmo_exec => mkMember 55 1
  end.

(** [FieldSelector]: the member of a condition. *)
Definition FieldSelector (condition : Z) : option JobPolicyBits :=
  if condition =? ZX_POL_BAD_HANDLE then Some bad_handle
  else if condition =? ZX_POL_WRONG_OBJECT then Some wrong_object
  else if condition =? ZX_POL_VMAR_WX then Some vmar_wx
  else if condition =? ZX_POL_NEW_VMO then Some new_vmo
  else if condition =? ZX_POL_NEW_CHANNEL then Some new_channel
  else if condition =? ZX_POL_NEW_EVENT then Some new_event
  else if condition =? ZX_POL_NEW_EVENTPAIR then Some new_eventpair
  else if condition =? ZX_POL_NEW_PORT then Some new_port
  else if condition =? ZX_POL_NEW_SOCKET then Some new_socket
  else if condition =? ZX_POL_NEW_FIFO then Some new_fifo
  else if condition =? ZX_POL_NEW_TIMER then Some new_timer
  else if condition =? ZX_POL_NEW_PROCESS then Some new_profile
  else if condition =? ZX_POL_NEW_PROFILE then Some new_profile
  else if condition =? ZX_POL_AMBIENT_MARK_VMO_EXEC then Some ambient_mark_vmo_exec
  else None.

Definition Action (f : JobPolicyBits) (bits : Z) : Z := member_get (action_member f) bits.
Definition Override (f : JobPolicyBits) (bits : Z) : Z := member_get (override_member f) bits.

Definition AddPartial (mode condition action override bits : Z) : zx_status_t * Z :=
  if action >=? ZX_POL_ACTION_MAX then (ZX_ERR_NOT_SUPPORTED, bits)
  else if override >? ZX_POL_OVERRIDE_DENY then (ZX_ERR_INVALID_ARGS, bits)
  else
    match FieldSelector condition with
    | None => (ZX_ERR_INVALID_ARGS, bits)
    | Some f =>
        if Override f bits =? ZX_POL_OVERRIDE_ALLOW
        then (ZX_OK, member_set (override_member f) override (member_set (action_member f) action bits))
        else if (Action f bits =? action) && (override =? ZX_POL_OVERRIDE_DENY) then (ZX_OK, bits)
        else (if mode =? ZX_JOB_POL_ABSOLUTE then ZX_ERR_ALREADY_EXISTS else ZX_OK, bits)
    end.

Definition SetOverride (policy condition override : Z) : zx_status_t * Z :=
  match FieldSelector condition with
  | None => (ZX_ERR_INVALID_ARGS, policy)
  | Some f => (ZX_OK, member_set (override_member f) override policy)
  end.

Definition GetAction (policy condition : Z) : Z :=
  match FieldSelector condition with
  | None => ZX_POL_ACTION_DENY
  | Some f => Action f policy
  end.

Definition GetOverride (policy condition : Z) : Z :=
  match FieldSelector condition with
  | None => ZX_POL_OVERRIDE_DENY
  | Some f => Override f policy
  end.

Record JobPolicy := mkJobPolicy { cookie_ : Z; slack_ : TimerSlack }.

#[export] Instance JobPolicy_eq_dec : EqDecision JobPolicy.
Proof. solve_decision. Defined.

Definition CreateRootPolicy : JobPolicy := mkJobPolicy 0 TimerSlack_none.

(** The loops over [kNewObjectPolicies]; each stops at the first error. *)
Fixpoint add_new_any (mode action : Z) (conds : list Z) (pol_new : Z) : zx_status_t * Z :=
  match conds with
  | [] => (ZX_OK, pol_new)
  | cond :: conds =>
      let '(res, pol_new) := AddPartial mode cond action ZX_POL_OVERRIDE_ALLOW pol_new in
      if is_err res then (res, pol_new) else add_new_any mode action conds pol_new
  end.

Fixpoint set_new_any (override : Z) (conds : list Z) (pol_new : Z) : zx_status_t * Z :=
  match conds with
  | [] => (ZX_OK, pol_new)
  | cond :: conds =>
      let '(res, pol_new) := SetOverride pol_new cond override in
      if is_err res then (res, pol_new) else set_new_any override conds pol_new
  end.

(** The loop over the input: the bits, and the flags of the last [ZX_POL_NEW_ANY]. *)
Fixpoint add_policies (mode : Z) (policy_input : list zx_policy_basic_v2) (pol_new : Z)
    (new_any_override : option Z) : zx_status_t * Z * option Z :=
  match policy_input with
  | [] => (ZX_OK, pol_new, new_any_override)
  | i :: policy_input =>
      if condition i =? ZX_POL_NEW_ANY then
        let '(res, pol_new) := add_new_any mode (action i) kNewObjectPolicies pol_new in
        if is_err res then (res, pol_new, new_any_override)
        else add_policies mode policy_input pol_new (Some (flags i))
      else
        let '(res, pol_new) := AddPartial mode (condition i) (action i) (flags i) pol_new in
        if is_err res then (res, pol_new, new_any_override)
        else add_policies mode policy_input pol_new new_any_override
  end.

Definition AddBasicPolicy (mode : Z) (policy_input : list zx_policy_basic_v2) (p : JobPolicy)
    : zx_status_t * JobPolicy :=
  if zlen policy_input >? ZX_POL_MAX then (ZX_ERR_OUT_OF_RANGE, p)
  else
    match add_policies mode policy_input (cookie_ p) None with
    | (ZX_OK, pol_new, new_any) =>
        let '(res, pol_new) :=
          match new_any with
          | Some new_any_override => set_new_any new_any_override kNewObjectPolicies pol_new
          | None => (ZX_OK, pol_new)
          end in
        if is_err res then (res, p) else (ZX_OK, mkJobPolicy pol_new (slack_ p))
    | (res, _, _) => (res, p)
    end.

Definition QueryBasicPolicy (condition : Z) (p : JobPolicy) : Z := u32 (GetAction (cookie_ p) condition).
Definition QueryBasicPolicyOverride (condition : Z) (p : JobPolicy) : Z :=
  u32 (GetOverride (cookie_ p) condition).

Definition SetTimerSlack (slack : TimerSlack) (p : JobPolicy) : JobPolicy := mkJobPolicy (cookie_ p) slack.
Definition GetTimerSlack (p : JobPolicy) : TimerSlack := slack_ p.

(** [operator==] *)
Definition policy_eq (p q : JobPolicy) : bool :=
  (cookie_ p =? cookie_ q) && bool_decide (slack_ p = slack_ q).

(** The counter [IncrementCounter] adds to: of the denials or of the kills, by
    condition. *)
Inductive policy_counter := deny_counter (condition : Z) | kill_counter (condition : Z).

Definition IncrementCounter (action condition : Z) : option policy_counter :=
  if condition =? ZX_POL_NEW_ANY then None
  else if (action =? ZX_POL_ACTION_DENY) || (action =? ZX_POL_ACTION_DENY_EXCEPTION)
  then Some (deny_counter condition)
  else if action =? ZX_POL_ACTION_KILL then Some (kill_counter condition)
  else None.

End JobPolicy.
