(* ===== verification/JobPolicyFacts.v ===== *)
(** * Correctness of JobPolicy

    The packed policy behaves like an array of entries, one per member, which
    updates change independently; a condition whose override is denied keeps its
    action.  Three theorems show where the code departs from what it documents. *)

From S2P Require Import Prelude Zx Deadline JobPolicy.
Import JobPolicy.

(** ** Bit-field members *)

Record member_ok (m : BitFieldMember) : Prop := {
  mo_off : 0 <= Offset m;
  mo_cnt : 0 <= BitCount m;
  mo_end : Offset m + BitCount m <= 64;
}.

Definition in_member (m : BitFieldMember) (i : Z) : bool := (Offset m <=? i) && (i <? Offset m + BitCount m).

Lemma testbit_small n k i : 0 <= n < 2 ^ k -> k <= i -> Z.testbit n i = false.
Proof.
  intros Hn Hi. destruct (Z.eq_dec n 0) as [->|]; [apply Z.bits_0|].
  destruct (Z.lt_ge_cases k 0) as [Hk|Hk]; [rewrite Z.pow_neg_r in Hn; lia|].
  apply Z.bits_above_log2; [lia|]. apply Z.log2_lt_pow2; [lia|].
  apply Z.lt_le_trans with (2 ^ k); [lia|]. apply Z.pow_le_mono_r; lia.
Qed.

Lemma Maximum_ones m : 0 <= BitCount m -> Maximum m = Z.ones (BitCount m).
Proof. intros H. unfold Maximum, Z.ones. rewrite Z.shiftl_mul_pow2 by done. lia. Qed.

Lemma Mask_bit m i : member_ok m -> 0 <= i -> Z.testbit (Mask m) i = in_member m i.
Proof.
  intros [Ho Hc _] Hi. unfold Mask, in_member. rewrite Z.shiftl_spec, Maximum_ones by done.
  destruct (Z.leb_spec (Offset m) i), (Z.ltb_spec i (Offset m + BitCount m)); simpl;
    [apply Z.ones_spec_low | apply Z.ones_spec_high | apply Z.testbit_neg_r | ]; lia.
Qed.

Lemma member_get_bit m v i : member_ok m -> 0 <= i ->
  Z.testbit (member_get m v) i = (i <? BitCount m) && Z.testbit v (i + Offset m).
Proof.
  intros [Ho Hc _] Hi. unfold member_get. rewrite Z.land_spec, Z.shiftr_spec, Maximum_ones by done.
  destruct (Z.ltb_spec i (BitCount m)); [rewrite Z.ones_spec_low | rewrite Z.ones_spec_high]; try lia;
    by rewrite ?andb_true_r, ?andb_false_r.
Qed.

(** A value that fits changes the bits of its member and no others. *)
Lemma member_set_bit m n v i : member_ok m -> 0 <= n <= Maximum m -> 0 <= i ->
  Z.testbit (member_set m n v) i = if in_member m i then Z.testbit n (i - Offset m) else Z.testbit v i.
Proof.
  intros Hm Hn Hi. pose proof Hm as [Ho Hc He]. unfold member_set.
  assert (0 <= n < 2 ^ BitCount m) as Hn' by (unfold Maximum in Hn; rewrite Z.shiftl_mul_pow2 in Hn; lia).
  rewrite u64_id.
  2: { unfold is_u64. rewrite Z.shiftl_mul_pow2 by done. split; [nia|].
       apply Z.lt_le_trans with (2 ^ BitCount m * 2 ^ Offset m); [nia|].
       rewrite <- Z.pow_add_r by done. apply Z.pow_le_mono_r; lia. }
  rewrite Z.lor_spec, Z.ldiff_spec, Mask_bit, Z.shiftl_spec by done. unfold in_member.
  destruct (Z.leb_spec (Offset m) i), (Z.ltb_spec i (Offset m + BitCount m)); simpl;
    rewrite ?andb_false_r, ?andb_true_r; try done.
  - rewrite (testbit_small n (BitCount m)) by lia. by rewrite orb_false_r.
  - rewrite (Z.testbit_neg_r n) by lia. by rewrite orb_false_r.
  - lia.
Qed.

Lemma member_get_set_eq m n v : member_ok m -> 0 <= n <= Maximum m -> member_get m (member_set m n v) = n.
Proof.
  intros Hm Hn. pose proof Hm as [Ho Hc He]. apply Z.bits_inj'. intros i Hi.
  rewrite member_get_bit, member_set_bit by (done || lia). unfold in_member.
  destruct (Z.ltb_spec i (BitCount m)) as [Hlt|Hge]; simpl.
  - rewrite (proj2 (Z.leb_le _ _)), (proj2 (Z.ltb_lt _ _)) by lia. simpl. f_equal. lia.
  - assert (0 <= n < 2 ^ BitCount m) as Hn' by (unfold Maximum in Hn; rewrite Z.shiftl_mul_pow2 in Hn; lia).
    symmetry. by apply (testbit_small n (BitCount m)).
Qed.

Definition disjoint_members (m m' : BitFieldMember) : Prop :=
  Offset m + BitCount m <= Offset m' \/ Offset m' + BitCount m' <= Offset m.

Lemma member_get_set_ne m m' n v :
  member_ok m -> member_ok m' -> disjoint_members m m' -> 0 <= n <= Maximum m ->
  member_get m' (member_set m n v) = member_get m' v.
Proof.
  intros Hm Hm' Hd Hn. pose proof Hm' as [Ho Hc He]. apply Z.bits_inj'. intros i Hi.
  rewrite !member_get_bit by done. destruct (Z.ltb_spec i (BitCount m')) as [Hlt|Hge]; simpl; [|done].
  rewrite member_set_bit by (done || lia). unfold in_member, disjoint_members in *.
  destruct (Z.leb_spec (Offset m) (i + Offset m')), (Z.ltb_spec (i + Offset m') (Offset m + BitCount m)); simpl; lia || done.
Qed.

Lemma member_get_range m v : member_ok m -> 0 <= member_get m v <= Maximum m.
Proof.
  intros [Ho Hc _]. unfold member_get. rewrite Maximum_ones, Z.land_ones by done.
  rewrite Z.ones_equiv. pose proof (Z.mod_pos_bound (Z.shiftr v (Offset m)) (2 ^ BitCount m)).
  pose proof (Z.pow_pos_nonneg 2 (BitCount m)). lia.
Qed.

(** ** Entries *)

(** The action and override of a member. *)
Definition entry (f : JobPolicyBits) (bits : Z) : Z * Z := (Action f bits, Override f bits).

Lemma action_member_ok f : member_ok (action_member f).
Proof. destruct f; split; simpl; lia. Qed.
Lemma override_member_ok f : member_ok (override_member f).
Proof. destruct f; split; simpl; lia. Qed.
Lemma action_override_disjoint f g : disjoint_members (action_member f) (override_member g).
Proof. destruct f, g; unfold disjoint_members; simpl; lia. Qed.
Lemma action_action_disjoint f g : f <> g -> disjoint_members (action_member f) (action_member g).
Proof. destruct f, g; unfold disjoint_members; simpl; try lia; done. Qed.
Lemma override_override_disjoint f g : f <> g -> disjoint_members (override_member f) (override_member g).
Proof. destruct f, g; unfold disjoint_members; simpl; try lia; done. Qed.
Lemma disjoint_members_sym m m' : disjoint_members m m' -> disjoint_members m' m.
Proof. unfold disjoint_members. tauto. Qed.

#[export] Hint Resolve action_member_ok override_member_ok action_override_disjoint action_action_disjoint
  override_override_disjoint disjoint_members_sym : zx.

Lemma Maximum_action f : Maximum (action_member f) = 7.
Proof. by destruct f. Qed.
Lemma Maximum_override f : Maximum (override_member f) = 1.
Proof. by destruct f. Qed.

Lemma entry_set_override f g o v : 0 <= o <= 1 ->
  entry g (member_set (override_member f) o v) = if decide (g = f) then (Action g v, o) else entry g v.
Proof.
  intros Ho. unfold entry, Action, Override.
  rewrite (member_get_set_ne (override_member f)) by (rewrite ?Maximum_override; eauto with zx).
  destruct (decide (g = f)) as [->|Hne].
  - rewrite member_get_set_eq; rewrite ?Maximum_override; eauto with zx.
  - rewrite member_get_set_ne; rewrite ?Maximum_override; eauto with zx.
Qed.

Lemma entry_set_action f g a v : 0 <= a <= 7 ->
  entry g (member_set (action_member f) a v) = if decide (g = f) then (a, Override g v) else entry g v.
Proof.
  intros Ha. unfold entry, Action, Override.
  rewrite (member_get_set_ne (action_member f) (override_member g)) by (rewrite ?Maximum_action; eauto with zx).
  destruct (decide (g = f)) as [->|Hne].
  - rewrite member_get_set_eq; rewrite ?Maximum_action; eauto with zx.
  - rewrite member_get_set_ne; rewrite ?Maximum_action; eauto with zx.
Qed.

Lemma override_01 f v : Override f v = 0 \/ Override f v = 1.
Proof.
  pose proof (member_get_range (override_member f) v (override_member_ok f)) as H.
  rewrite Maximum_override in H. unfold Override. lia.
Qed.

(** What one requested entry does to the entry of its member. *)
Definition merge (e : Z * Z) (a o : Z) : Z * Z := if e.2 =? ZX_POL_OVERRIDE_ALLOW then (a, o) else e.

(** Whether a request conflicts with an entry. *)
Definition conflicts (e : Z * Z) (a o : Z) : bool :=
  negb (e.2 =? ZX_POL_OVERRIDE_ALLOW) && negb ((e.1 =? a) && (o =? ZX_POL_OVERRIDE_DENY)).

Lemma AddPartial_spec mode c a o v :
  0 <= a -> 0 <= o ->
  match AddPartial mode c a o v with
  | (ZX_OK, v') => a < 5 /\ o <= 1 /\
      exists f, FieldSelector c = Some f /\ (mode = ZX_JOB_POL_ABSOLUTE -> conflicts (entry f v) a o = false) /\
        forall g, entry g v' = if decide (g = f) then merge (entry f v) a o else entry g v
  | (_, v') => v' = v
  end.
Proof.
  intros Ha Ho. unfold AddPartial, ZX_POL_ACTION_MAX. change ZX_POL_OVERRIDE_DENY with 1 at 1.
  destruct (Z.geb_spec a 5); [done|]. rewrite Z.gtb_ltb. destruct (Z.ltb_spec 1 o); [done|].
  destruct (FieldSelector c) as [f|]; [|done].
  destruct (Override f v =? ZX_POL_OVERRIDE_ALLOW) eqn:E.
  - split; [lia|]. split; [lia|]. exists f. split; [done|]. split; [unfold conflicts; simpl; by rewrite E|].
    intros g. rewrite entry_set_override by lia. unfold merge. simpl. rewrite E.
    destruct (decide (g = f)) as [->|Hne].
    + f_equal. change (Action f ?x) with (entry f x).1. rewrite entry_set_action by lia. by rewrite decide_True.
    + rewrite entry_set_action by lia. by rewrite decide_False.
  - assert (forall g, entry g v = if decide (g = f) then merge (entry f v) a o else entry g v) as Hm.
    { intros g. destruct (decide (g = f)) as [->|]; [|done]. unfold merge. simpl. by rewrite E. }
    destruct ((Action f v =? a) && (o =? ZX_POL_OVERRIDE_DENY)) eqn:E2; simpl.
    + split; [lia|]. split; [lia|]. exists f. split; [done|]. split; [|exact Hm].
      unfold conflicts. simpl. by rewrite E2, andb_false_r.
    + destruct (Z.eqb_spec mode ZX_JOB_POL_ABSOLUTE); [done|].
      split; [lia|]. split; [lia|]. exists f. split; [done|]. split; [done|exact Hm].
Qed.

(** ** Lists of requests *)

(** The requests that a policy list makes: [ZX_POL_NEW_ANY] asks for every kind of
    new object, with an override of allow. *)
Definition expand1 (i : zx_policy_basic_v2) : list zx_policy_basic_v2 :=
  if condition i =? ZX_POL_NEW_ANY
  then map (fun c => mkPolicy c (action i) ZX_POL_OVERRIDE_ALLOW) kNewObjectPolicies
  else [i].
Definition expand (l : list zx_policy_basic_v2) : list zx_policy_basic_v2 := l ≫= expand1.

(** What the requests do to the entry of one member. *)
Fixpoint merges (f : JobPolicyBits) (l : list zx_policy_basic_v2) (e : Z * Z) : Z * Z :=
  match l with
  | [] => e
  | i :: l => merges f l (if decide (FieldSelector (condition i) = Some f) then merge e (action i) (flags i) else e)
  end.

Lemma merges_app f l l' e : merges f (l ++ l') e = merges f l' (merges f l e).
Proof. revert e. induction l as [|i l IH]; intros e; simpl; [done|]. apply IH. Qed.

(** No request conflicts with the entry it finds. *)
Fixpoint no_conflict (f : JobPolicyBits) (l : list zx_policy_basic_v2) (e : Z * Z) : Prop :=
  match l with
  | [] => True
  | i :: l =>
      if decide (FieldSelector (condition i) = Some f)
      then conflicts e (action i) (flags i) = false /\ no_conflict f l (merge e (action i) (flags i))
      else no_conflict f l e
  end.

Lemma no_conflict_app f l l' e : no_conflict f (l ++ l') e <-> no_conflict f l e /\ no_conflict f l' (merges f l e).
Proof.
  revert e. induction l as [|i l IH]; intros e; simpl; [tauto|].
  destruct (decide _); rewrite ?IH; tauto.
Qed.

Definition input_ok (i : zx_policy_basic_v2) : Prop := 0 <= action i /\ 0 <= flags i.

(** The requests of [l] took [v] to [v']. *)
Definition applied (mode : Z) (l : list zx_policy_basic_v2) (v v' : Z) : Prop :=
  forall f, entry f v' = merges f l (entry f v) /\
            (mode = ZX_JOB_POL_ABSOLUTE -> no_conflict f l (entry f v)).

Lemma applied_app mode l l' v v1 v2 : applied mode l v v1 -> applied mode l' v1 v2 -> applied mode (l ++ l') v v2.
Proof.
  intros H1 H2 f. destruct (H1 f) as [E1 N1], (H2 f) as [E2 N2]. rewrite merges_app, no_conflict_app, <- E1.
  split; [done|]. intros Hm. split; [by apply N1 | by apply N2].
Qed.

Lemma AddPartial_applied mode i v :
  input_ok i ->
  match AddPartial mode (condition i) (action i) (flags i) v with
  | (ZX_OK, v') => applied mode [i] v v'
  | _ => True
  end.
Proof.
  intros [Ha Ho]. pose proof (AddPartial_spec mode (condition i) (action i) (flags i) v Ha Ho) as H.
  destruct (AddPartial _ _ _ _ _) as [[] v']; try done. destruct H as (_ & _ & f & Hf & Hc & He).
  intros g. rewrite He. simpl. rewrite Hf. destruct (decide (g = f)) as [->|Hne].
  - rewrite !decide_True by done. split; [done|]. intros Hm. split; [by apply Hc | done].
  - by rewrite !decide_False by congruence.
Qed.

Lemma add_new_any_applied mode a conds v :
  0 <= a ->
  match add_new_any mode a conds v with
  | (ZX_OK, v') => applied mode (map (fun c => mkPolicy c a ZX_POL_OVERRIDE_ALLOW) conds) v v'
  | _ => True
  end.
Proof.
  intros Ha. revert v. induction conds as [|c conds IH]; intros v; simpl; [by intros f|].
  pose proof (AddPartial_applied mode (mkPolicy c a ZX_POL_OVERRIDE_ALLOW) v) as Hp. simpl in Hp.
  specialize (Hp ltac:(by split)).
  destruct (AddPartial _ _ _ _ _) as [[] v1] eqn:E; simpl; try done. specialize (IH v1).
  destruct (add_new_any mode a conds v1) as [[] v2]; try done. by apply (applied_app _ [_] _ _ v1).
Qed.

(** The flags of the last [ZX_POL_NEW_ANY]. *)
Definition last_any (l : list zx_policy_basic_v2) (d : option Z) : option Z :=
  fold_left (fun r i => if condition i =? ZX_POL_NEW_ANY then Some (flags i) else r) l d.

Lemma add_policies_applied mode l v d :
  Forall input_ok l ->
  match add_policies mode l v d with
  | (ZX_OK, v', d') => applied mode (expand l) v v' /\ d' = last_any l d
  | _ => True
  end.
Proof.
  intros Hl. revert v d. induction Hl as [|i l Hi Hl IH]; intros v d; [simpl; split; [by intros f | done]|].
  change (expand (i :: l)) with (expand1 i ++ expand l). cbn [add_policies]. unfold expand1, last_any. cbn [fold_left]. destruct (condition i =? ZX_POL_NEW_ANY).
  - pose proof (add_new_any_applied mode (action i) kNewObjectPolicies v (proj1 Hi)) as Ha.
    destruct (add_new_any _ _ _ v) as [[] v1]; cbn [is_err]; try done. specialize (IH v1 (Some (flags i))).
    destruct (add_policies mode l v1 (Some (flags i))) as [[[] v2] d2]; try done.
    destruct IH as [IH ->]. split; [|done]. by apply (applied_app _ _ _ _ v1).
  - pose proof (AddPartial_applied mode i v Hi) as Ha.
    destruct (AddPartial _ _ _ _ v) as [[] v1]; simpl; try done. specialize (IH v1 d).
    destruct (add_policies mode l v1 d) as [[[] v2] d2]; try done.
    destruct IH as [IH ->]. split; [|done]. by apply (applied_app _ [i] _ _ v1).
Qed.

(** The final pass gives the members of [conds] the override. *)
Definition set_any (o : option Z) (f : JobPolicyBits) (e : Z * Z) : Z * Z :=
  match o with
  | Some o => if bool_decide (Some f ∈ map FieldSelector kNewObjectPolicies) then (e.1, o) else e
  | None => e
  end.

Lemma set_new_any_spec o conds v :
  0 <= o <= 1 -> Forall (fun c => is_Some (FieldSelector c)) conds ->
  exists v', set_new_any o conds v = (ZX_OK, v') /\
    forall f, entry f v' = if bool_decide (Some f ∈ map FieldSelector conds) then ((entry f v).1, o) else entry f v.
Proof.
  intros Ho Hc. revert v. induction Hc as [|c conds [g Hg] _ IH]; intros v; simpl; [by exists v|].
  unfold SetOverride. rewrite Hg. simpl. destruct (IH (member_set (override_member g) o v)) as (v' & -> & He).
  exists v'. split; [done|]. intros f. rewrite He, entry_set_override by done.
  destruct (decide (f = g)) as [->|Hne].
  - rewrite (bool_decide_true (Some g ∈ Some g :: _)) by by left. by case_bool_decide.
  - rewrite (bool_decide_ext (Some f ∈ Some g :: _) (Some f ∈ map FieldSelector conds)); [done|].
    rewrite elem_of_cons. split; [by intros [[= ?]|?] | by right].
Qed.

Lemma kNewObjectPolicies_selected : Forall (fun c => is_Some (FieldSelector c)) kNewObjectPolicies.
Proof. repeat constructor; by eexists. Qed.

Definition any_flags_ok (i : zx_policy_basic_v2) : Prop := condition i = ZX_POL_NEW_ANY -> flags i <= ZX_POL_OVERRIDE_DENY.

Ltac inputs :=
  repeat apply Forall_cons_2; try apply Forall_nil_2;
  unfold input_ok, any_flags_ok, ZX_POL_OVERRIDE_ALLOW, ZX_POL_OVERRIDE_DENY; simpl; done || lia.

Lemma last_any_ok l d o :
  Forall input_ok l -> Forall any_flags_ok l -> (forall o, d = Some o -> 0 <= o <= 1) -> last_any l d = Some o -> 0 <= o <= 1.
Proof.
  intros Hl. revert d. unfold last_any. induction Hl as [|i l [_ Hf] _ IH]; intros d Ha Hd; simpl; [apply Hd|].
  apply Forall_cons in Ha as [Hi Ha]. apply IH; [done|]. destruct (Z.eqb_spec (condition i) ZX_POL_NEW_ANY); [|done].
  intros ? [= <-]. specialize (Hi e). unfold ZX_POL_OVERRIDE_DENY in Hi. lia.
Qed.

Lemma AddBasicPolicy_spec mode l p :
  Forall input_ok l -> Forall any_flags_ok l ->
  match AddBasicPolicy mode l p with
  | (ZX_OK, p') =>
      slack_ p' = slack_ p /\
      forall f, entry f (cookie_ p') = set_any (last_any l None) f (merges f (expand l) (entry f (cookie_ p))) /\
                (mode = ZX_JOB_POL_ABSOLUTE -> no_conflict f (expand l) (entry f (cookie_ p)))
  | (_, p') => p' = p
  end.
Proof.
  intros Hl Ha. unfold AddBasicPolicy. destruct (_ >? _); [done|].
  pose proof (add_policies_applied mode l (cookie_ p) None Hl) as Hp.
  destruct (add_policies mode l (cookie_ p) None) as [[st v] d]. destruct st; try done. destruct Hp as [Hp ->].
  destruct (last_any l None) as [o|] eqn:El.
  - destruct (set_new_any_spec o kNewObjectPolicies v) as (v' & -> & He);
      [apply (last_any_ok l None); [done | done | by intros ? [=] | done] | apply kNewObjectPolicies_selected |].
    simpl. split; [done|]. intros f. destruct (Hp f) as [Hf Hn]. split; [|done]. rewrite He, Hf. done.
  - simpl. split; [done|]. intros f. by destruct (Hp f).
Qed.


Definition ex_deny_event : JobPolicy :=
  (AddBasicPolicy ZX_JOB_POL_ABSOLUTE
     [mkPolicy ZX_POL_NEW_EVENT ZX_POL_ACTION_DENY ZX_POL_OVERRIDE_DENY] CreateRootPolicy).2.


(** ** Policies are not widened *)

Lemma merges_denied f l e : e.2 <> ZX_POL_OVERRIDE_ALLOW -> merges f l e = e.
Proof.
  intros He. induction l as [|i l IH]; simpl; [done|]. unfold merge. rewrite (proj2 (Z.eqb_neq _ _) He).
  by destruct (decide _).
Qed.

Lemma no_conflict_denied f l e i :
  e.2 <> ZX_POL_OVERRIDE_ALLOW -> no_conflict f l e -> i ∈ l -> FieldSelector (condition i) = Some f ->
  conflicts e (action i) (flags i) = false.
Proof.
  intros He. induction l as [|j l IH]; simpl; intros Hn Hi Hf; [by apply elem_of_nil in Hi|].
  assert (merge e (action j) (flags j) = e) as Hm by (unfold merge; by rewrite (proj2 (Z.eqb_neq _ _) He)).
  apply elem_of_cons in Hi as [->|Hi]; destruct (decide (FieldSelector _ = Some f)) as [Hj|Hj]; try done.
  - apply Hn.
  - destruct Hn as [_ Hn]. rewrite Hm in Hn. by apply IH.
  - by apply IH.
Qed.

Lemma last_any_in l d o :
  last_any l d = Some o -> d = None -> exists i, i ∈ l /\ condition i = ZX_POL_NEW_ANY.
Proof.
  unfold last_any. revert d. induction l as [|i l IH]; intros d Ho Hd; simpl in Ho; [congruence|].
  destruct (Z.eqb_spec (condition i) ZX_POL_NEW_ANY) as [E|E]; [exists i; split; [by left | done]|].
  destruct (IH d Ho Hd) as (j & Hj & Hc). exists j. split; [by right | done].
Qed.

(** In absolute mode a [ZX_POL_NEW_ANY] conflicts with every denied entry of a new
    object. *)
Lemma conflict_in_any f l e o :
  e.2 <> ZX_POL_OVERRIDE_ALLOW -> last_any l None = Some o -> Some f ∈ map FieldSelector kNewObjectPolicies ->
  no_conflict f (expand l) e -> False.
Proof.
  intros He Ho Hf Hn. destruct (last_any_in l None o Ho eq_refl) as (i & Hi & Hc).
  apply list_elem_of_In, in_map_iff in Hf as (c & Hf & Hin).
  assert (mkPolicy c (action i) ZX_POL_OVERRIDE_ALLOW ∈ expand l) as Hx.
  { apply list_elem_of_bind. exists i. split; [|done]. unfold expand1. rewrite Hc, Z.eqb_refl.
    apply list_elem_of_In, (in_map (fun c => mkPolicy c (action i) ZX_POL_OVERRIDE_ALLOW)), Hin. }
  pose proof (no_conflict_denied f _ e _ He Hn Hx Hf) as HF. unfold conflicts in HF. simpl in HF.
  rewrite (proj2 (Z.eqb_neq _ _) He), andb_false_r in HF. done.
Qed.

(** a job's policy is never widened.  Whatever the call, a condition whose
    override is denied keeps its action; it keeps its override too unless the mode
    is relative and the call has a [ZX_POL_NEW_ANY]. *)
Theorem jobpolicy_never_widens mode l p c :
  Forall input_ok l -> Forall any_flags_ok l -> GetOverride (cookie_ p) c = ZX_POL_OVERRIDE_DENY ->
  let p' := (AddBasicPolicy mode l p).2 in
  QueryBasicPolicy c p' = QueryBasicPolicy c p /\
  (mode = ZX_JOB_POL_ABSOLUTE \/ Forall (fun i => condition i <> ZX_POL_NEW_ANY) l ->
   QueryBasicPolicyOverride c p' = ZX_POL_OVERRIDE_DENY).
Proof.
  intros Hl Ha Ho. pose proof (AddBasicPolicy_spec mode l p Hl Ha) as H.
  destruct (AddBasicPolicy mode l p) as [st p']. unfold QueryBasicPolicy, QueryBasicPolicyOverride, GetAction, GetOverride in *.
  simpl. destruct (FieldSelector c) as [f|]; [|done].
  destruct st; try (subst p'; by rewrite Ho). destruct H as [_ H]. destruct (H f) as [He Hn].
  assert ((entry f (cookie_ p)).2 <> ZX_POL_OVERRIDE_ALLOW) as Hd by (simpl; by rewrite Ho).
  rewrite (merges_denied _ _ _ Hd) in He. unfold set_any in He.
  split.
  - f_equal. change (Action f ?v) with (entry f v).1. rewrite He.
    destruct (last_any l None) as [o|]; [by destruct (bool_decide _)|done].
  - intros Hm. change (Override f ?v) with (entry f v).2. rewrite He.
    destruct (last_any l None) as [o|] eqn:El; [|simpl; by rewrite Ho].
    case_bool_decide as Hf; [|simpl; by rewrite Ho]. exfalso. destruct Hm as [Hm|Hm].
    + by apply (conflict_in_any f l (entry f (cookie_ p)) o); [| | | apply Hn].
    + destruct (last_any_in l None o El eq_refl) as (i & Hi & Hc). rewrite Forall_forall in Hm. by apply (Hm i).
Qed.

Lemma jobpolicy_never_widens_witness :
  QueryBasicPolicy ZX_POL_NEW_EVENT
    (AddBasicPolicy ZX_JOB_POL_RELATIVE [mkPolicy ZX_POL_NEW_ANY ZX_POL_ACTION_ALLOW ZX_POL_OVERRIDE_DENY] ex_deny_event).2
  = ZX_POL_ACTION_DENY.
Proof.
  destruct (jobpolicy_never_widens ZX_JOB_POL_RELATIVE
    [mkPolicy ZX_POL_NEW_ANY ZX_POL_ACTION_ALLOW ZX_POL_OVERRIDE_DENY] ex_deny_event ZX_POL_NEW_EVENT
    ltac:(inputs) ltac:(inputs) ltac:(by vm_compute)) as [H _].
  rewrite H. by vm_compute.
Defined.

(** ** Departures *)

Lemma AddPartial_relative c a o v :
  a < ZX_POL_ACTION_MAX -> o <= ZX_POL_OVERRIDE_DENY -> is_Some (FieldSelector c) ->
  (AddPartial ZX_JOB_POL_RELATIVE c a o v).1 = ZX_OK.
Proof.
  intros Ha Ho [f Hf]. unfold AddPartial. rewrite Z.geb_leb, (proj2 (Z.leb_gt _ _) Ha).
  rewrite Z.gtb_ltb, (proj2 (Z.ltb_ge _ _) Ho), Hf. by repeat case_match.
Qed.

Lemma add_new_any_relative a conds v :
  a < ZX_POL_ACTION_MAX -> Forall (fun c => is_Some (FieldSelector c)) conds ->
  (add_new_any ZX_JOB_POL_RELATIVE a conds v).1 = ZX_OK.
Proof.
  intros Ha Hc. revert v. induction Hc as [|c conds Hf _ IH]; intros v; simpl; [done|].
  pose proof (AddPartial_relative c a ZX_POL_OVERRIDE_ALLOW v Ha ltac:(done) Hf) as H.
  destruct (AddPartial _ _ _ _ _) as [st v']. simpl in H. subst st. apply IH.
Qed.

Lemma relative_any_ok a o p : a < ZX_POL_ACTION_MAX -> 0 <= o <= 1 ->
  (AddBasicPolicy ZX_JOB_POL_RELATIVE [mkPolicy ZX_POL_NEW_ANY a o] p).1 = ZX_OK.
Proof.
  intros Ha Ho. unfold AddBasicPolicy. cbn -[kNewObjectPolicies set_new_any add_new_any].
  pose proof (add_new_any_relative a kNewObjectPolicies (cookie_ p) Ha kNewObjectPolicies_selected) as H.
  destruct (add_new_any _ _ _ _) as [st v]. simpl in H. subst st. change (is_err ZX_OK) with false. cbn iota beta.
  change (zlen _ >? ZX_POL_MAX) with false. cbn iota.
  destruct (set_new_any_spec o kNewObjectPolicies v Ho kNewObjectPolicies_selected) as (v' & -> & _). done.
Qed.

Lemma relative_one_ok c a o p : a < ZX_POL_ACTION_MAX -> o <= ZX_POL_OVERRIDE_DENY -> is_Some (FieldSelector c) ->
  (AddBasicPolicy ZX_JOB_POL_RELATIVE [mkPolicy c a o] p).1 = ZX_OK.
Proof.
  intros Ha Ho Hf. unfold AddBasicPolicy. cbn -[kNewObjectPolicies AddPartial].
  destruct (Z.eqb_spec c ZX_POL_NEW_ANY) as [->|]; [by destruct Hf|].
  pose proof (AddPartial_relative c a o (cookie_ p) Ha Ho Hf) as H.
  destruct (AddPartial _ _ _ _ _) as [st v]. simpl in H. by subst st.
Qed.

(** relative mode can undo a denied override.  Two relative calls give any
    kind of new object any action, whatever the policy said before: the first, a
    [ZX_POL_NEW_ANY] with flags [ZX_POL_OVERRIDE_ALLOW], succeeds without effect on
    the actions that are denied but gives every new-object condition an override of
    allow; the second then sets the action. *)
Theorem jobpolicy_relative_any_unlocks p c a0 a :
  c ∈ kNewObjectPolicies -> 0 <= a0 < ZX_POL_ACTION_MAX -> 0 <= a < ZX_POL_ACTION_MAX ->
  let '(st1, p1) := AddBasicPolicy ZX_JOB_POL_RELATIVE [mkPolicy ZX_POL_NEW_ANY a0 ZX_POL_OVERRIDE_ALLOW] p in
  let '(st2, p2) := AddBasicPolicy ZX_JOB_POL_RELATIVE [mkPolicy c a ZX_POL_OVERRIDE_DENY] p1 in
  st1 = ZX_OK /\ st2 = ZX_OK /\ QueryBasicPolicy c p2 = a.
Proof.
  intros Hc Ha0 Ha. pose proof kNewObjectPolicies_selected as Hs. rewrite Forall_forall in Hs. destruct (Hs c Hc) as [f Hf].
  pose proof (relative_any_ok a0 ZX_POL_OVERRIDE_ALLOW p ltac:(lia) ltac:(done)) as H1.
  pose proof (AddBasicPolicy_spec ZX_JOB_POL_RELATIVE [mkPolicy ZX_POL_NEW_ANY a0 ZX_POL_OVERRIDE_ALLOW] p) as S1.
  destruct (AddBasicPolicy _ _ p) as [st1 p1]. simpl in H1. subst st1.
  destruct S1 as [_ S1]; [inputs | inputs |].
  assert ((entry f (cookie_ p1)).2 = ZX_POL_OVERRIDE_ALLOW) as Hov.
  { rewrite (proj1 (S1 f)). cbn [last_any fold_left condition flags]. rewrite Z.eqb_refl. unfold set_any.
    rewrite bool_decide_true; [done|]. rewrite <- Hf. by apply list_elem_of_In, in_map, list_elem_of_In. }
  pose proof (relative_one_ok c a ZX_POL_OVERRIDE_DENY p1 ltac:(lia) ltac:(done) (Hs c Hc)) as H2.
  pose proof (AddBasicPolicy_spec ZX_JOB_POL_RELATIVE [mkPolicy c a ZX_POL_OVERRIDE_DENY] p1) as S2.
  destruct (AddBasicPolicy _ _ p1) as [st2 p2]. simpl in H2. subst st2.
  destruct S2 as [_ S2]; [inputs | inputs |].
  split; [done|]. split; [done|]. unfold QueryBasicPolicy, GetAction. rewrite Hf.
  assert (c <> ZX_POL_NEW_ANY) as Hna by (intros ->; discriminate Hf).
  change (Action f (cookie_ p2)) with (entry f (cookie_ p2)).1. rewrite (proj1 (S2 f)).
  cbn [last_any fold_left condition flags]. rewrite (proj2 (Z.eqb_neq _ _) Hna). simpl. unfold expand1. simpl.
  rewrite (proj2 (Z.eqb_neq _ _) Hna). simpl. rewrite decide_True by done. unfold merge. rewrite Hov. simpl.
  apply u32_id. unfold is_u32, ZX_POL_ACTION_MAX in *. lia.
Qed.

(** The policy denied events for good; two calls later they are allowed. *)
Lemma jobpolicy_relative_any_unlocks_witness :
  QueryBasicPolicyOverride ZX_POL_NEW_EVENT ex_deny_event = ZX_POL_OVERRIDE_DENY /\
  let p1 := (AddBasicPolicy ZX_JOB_POL_RELATIVE [mkPolicy ZX_POL_NEW_ANY ZX_POL_ACTION_DENY ZX_POL_OVERRIDE_ALLOW]
               ex_deny_event).2 in
  QueryBasicPolicy ZX_POL_NEW_EVENT
    (AddBasicPolicy ZX_JOB_POL_RELATIVE [mkPolicy ZX_POL_NEW_EVENT ZX_POL_ACTION_ALLOW ZX_POL_OVERRIDE_DENY] p1).2
  = ZX_POL_ACTION_ALLOW.
Proof.
  split; [by vm_compute|].
  pose proof (jobpolicy_relative_any_unlocks ex_deny_event ZX_POL_NEW_EVENT ZX_POL_ACTION_DENY ZX_POL_ACTION_ALLOW
                ltac:(apply list_elem_of_In; simpl; tauto) ltac:(done) ltac:(done)) as H.
  revert H. cbv zeta. destruct (AddBasicPolicy _ _ ex_deny_event) as [st1 p1]. cbn [snd].
  destruct (AddBasicPolicy _ _ p1) as [st2 p2]. intros H. apply H.
Defined.

(** the flags of [ZX_POL_NEW_ANY] are not checked.  [AddPartial] refuses flags
    above [ZX_POL_OVERRIDE_DENY]; a [ZX_POL_NEW_ANY] passes its flags unchecked to
    one-bit members, where they spill into the next: with flags 2 a call that asks
    for everything to be allowed succeeds and denies channels. *)
Theorem jobpolicy_any_flags_spill :
  let '(st, p) := AddBasicPolicy ZX_JOB_POL_RELATIVE [mkPolicy ZX_POL_NEW_ANY ZX_POL_ACTION_ALLOW 2] CreateRootPolicy in
  st = ZX_OK /\ QueryBasicPolicy ZX_POL_NEW_CHANNEL p = ZX_POL_ACTION_DENY /\
  (AddBasicPolicy ZX_JOB_POL_RELATIVE [mkPolicy ZX_POL_NEW_CHANNEL ZX_POL_ACTION_ALLOW 2] CreateRootPolicy).1
  = ZX_ERR_INVALID_ARGS.
Proof. by vm_compute. Qed.

(** The conditions [ZX_POL_NEW_PROCESS] and [ZX_POL_NEW_PROFILE] share a member:
    denying profiles denies processes, and nothing uses [new_process]. *)
Theorem jobpolicy_process_is_profile mode l p :
  QueryBasicPolicy ZX_POL_NEW_PROCESS (AddBasicPolicy mode l p).2 =
  QueryBasicPolicy ZX_POL_NEW_PROFILE (AddBasicPolicy mode l p).2 /\
  forall c, FieldSelector c <> Some new_process.
Proof.
  split; [done|]. intros c. unfold FieldSelector. repeat case_match; done.
Qed.
