(* ===== verification/GPArena.v ===== *)
(** * GPArena

    [fbl/gparena.h]: the lock-free arena that handles are allocated from.  Each
    operation is a sequence of atomic steps, one per access to shared memory, and
    threads interleave them; the mapping lock makes [Grow] one step.  Memory is
    sequentially consistent.  Addresses are integers and 0 is the null pointer;
    [next_] is the [next] field of every node, which an allocated object overlays
    with its own data. *)

From S2P Require Import Prelude Zx MessagePacket.

Module GPArena.

Definition PAGE_SIZE : Z := BufferChain.PAGE_SIZE.

Section GPArena.
Variable ObjectSize : Z.

Record GPArena := mkArena {
  start_ : Z;
  top_ : Z;
  committed_ : Z;
  end_ : Z;
  count_ : Z;
  head : Z;
  gen : Z;
  next_ : gmap Z Z;
}.

Definition ROUNDUP (a b : Z) : Z := (a + (b - 1)) / b * b.

(** [vmo], [vmar] and [mapping] are the results of creating the VMO, the sub-VMAR
    and the mapping with its base. *)
Definition Init (max_count : Z) (vmo : zx_status_t) (vmar : bool) (mapping : option Z) : zx_status_t + GPArena :=
  if max_count =? 0 then inl ZX_ERR_INVALID_ARGS
  else
    let mem_sz := ROUNDUP (max_count * ObjectSize) PAGE_SIZE in
    if is_err vmo then inl vmo
    else if negb vmar then inl ZX_ERR_NO_MEMORY
    else
      match mapping with
      | None => inl ZX_ERR_NO_MEMORY
      | Some base => inr (mkArena base base base (base + mem_sz) 0 0 0 ∅)
      end.

Definition with_head (h g : Z) (a : GPArena) : GPArena :=
  mkArena (start_ a) (top_ a) (committed_ a) (end_ a) (count_ a) h g (next_ a).
Definition with_top (t : Z) (a : GPArena) : GPArena :=
  mkArena (start_ a) t (committed_ a) (end_ a) (count_ a) (head a) (gen a) (next_ a).
Definition with_committed (c : Z) (a : GPArena) : GPArena :=
  mkArena (start_ a) (top_ a) c (end_ a) (count_ a) (head a) (gen a) (next_ a).
Definition with_count (n : Z) (a : GPArena) : GPArena :=
  mkArena (start_ a) (top_ a) (committed_ a) (end_ a) n (head a) (gen a) (next_ a).
Definition with_next (n v : Z) (a : GPArena) : GPArena :=
  mkArena (start_ a) (top_ a) (committed_ a) (end_ a) (count_ a) (head a) (gen a) (<[n := v]> (next_ a)).

(** What [head->next] reads. *)
Definition next_of (n : Z) (a : GPArena) : Z := default 0 (next_ a !! n).

(** [map_ok]: whether [MapRange] succeeds. *)
Definition Grow (next_top : Z) (map_ok : bool) (a : GPArena) : bool * GPArena :=
  if next_top >? committed_ a then
    let nc := committed_ a + 4 * PAGE_SIZE in
    let nc := if nc >? end_ a then end_ a else nc in
    if nc =? committed_ a then (false, a)
    else if negb map_ok then (false, a)
    else (true, with_committed nc a)
  else (true, a).

(** Where a thread is in [Alloc] or [Free], with its local variables; the next
    step is the access the constructor is named after. *)
Inductive pc :=
| alloc_start
| alloc_loop (h g : Z)
| alloc_cas (h g next : Z)
| alloc_top
| alloc_check (top : Z)
| alloc_grow (top : Z)
| alloc_cas_top (top : Z)
| alloc_count (n : Z)
| alloc_done (n : Z)
| free_load (n : Z)
| free_link (n h g : Z)
| free_cas (n h g : Z)
| free_count
| free_done.

(** One atomic step. *)
Definition step (p : pc) (map_ok : bool) (a : GPArena) : pc * GPArena :=
  match p with
  | alloc_start => (alloc_loop (head a) (gen a), a)
  | alloc_loop h g => (if h =? 0 then alloc_top else alloc_cas h g (next_of h a), a)
  | alloc_cas h g next =>
      if (head a =? h) && (gen a =? g) then (alloc_count h, with_head next (u64 (g + 1)) a)
      else (alloc_loop (head a) (gen a), a)
  | alloc_top => (alloc_check (top_ a), a)
  | alloc_check top => (if top + ObjectSize >? committed_ a then alloc_grow top else alloc_cas_top top, a)
  | alloc_grow top =>
      let '(ok, a) := Grow (top + ObjectSize) map_ok a in
      (if ok then alloc_cas_top top else alloc_done 0, a)
  | alloc_cas_top top =>
      if top_ a =? top then (alloc_count top, with_top (top + ObjectSize) a)
      else (alloc_check (top_ a), a)
  | alloc_count n => (alloc_done n, with_count (u64 (count_ a + 1)) a)
  | alloc_done n => (alloc_done n, a)
  | free_load n => (free_link n (head a) (gen a), a)
  | free_link n h g => (free_cas n h g, with_next n h a)
  | free_cas n h g =>
      if (head a =? h) && (gen a =? g) then (free_count, with_head n (u64 (g + 1)) a)
      else (free_link n (head a) (gen a), a)
  | free_count => (free_done, with_count (u64 (count_ a - 1)) a)
  | free_done => (free_done, a)
  end.

Definition DiagnosticCount (a : GPArena) : Z := count_ a.
Definition Committed (node : Z) (a : GPArena) : bool := (node >=? start_ a) && (node <? top_ a).
Definition Base (a : GPArena) : Z := start_ a.

(** A thread alone, for at most [fuel] steps. *)
Fixpoint run (fuel : nat) (p : pc) (map_ok : bool) (a : GPArena) : pc * GPArena :=
  match fuel with
  | 0%nat => (p, a)
  | S fuel => let '(p, a) := step p map_ok a in run fuel p map_ok a
  end.

(** [Alloc] and [Free] undisturbed. *)
Definition Alloc (map_ok : bool) (a : GPArena) : option Z * GPArena :=
  match run 7 alloc_start map_ok a with
  | (alloc_done n, a) => (if n =? 0 then None else Some n, a)
  | (_, a) => (None, a)
  end.

Definition Free (n : Z) (a : GPArena) : GPArena := (run 4 (free_load n) true a).2.

End GPArena.

#[global] Arguments mkArena _ _ _ _ _ _ _ _ : clear implicits.

End GPArena.
