(* ===== verification/GPArenaFacts.v ===== *)
(** * Correctness of GPArena

    Any number of threads allocate and free concurrently.  In every interleaving
    each slot has one owner: the free list, a thread inside [Alloc] or [Free], or
    the client it was returned to.  The generation count makes the race in which a
    node is taken, freed and found again at the head harmless. *)

From S2P Require Import Prelude Zx GPArena.
Import GPArena.

Section Facts.
Context (ObjectSize : Z).
Hypothesis size_pos : 0 < ObjectSize.
(** A slot fits in a page. *)
Hypothesis size_page : ObjectSize <= PAGE_SIZE.

(** ** The system *)

(** The arena, the threads inside an operation, the nodes that clients hold, and
    the number of changes of the list head so far. *)
Record arena_sys := mkSys {
  arena : GPArena;
  threads : gmap Z pc;
  live : gset Z;
  changes : Z;
}.

Definition is_done (p : pc) : bool := match p with alloc_done _ | free_done => true | _ => false end.

(** Whether the step from [p] changes the head. *)
Definition changes_head (p : pc) (a : GPArena) : bool :=
  match p with
  | alloc_cas h g _ | free_cas _ h g => (head a =? h) && (gen a =? g)
  | _ => false
  end.

Inductive arena_step (x : arena_sys) : arena_sys -> Prop :=
| as_alloc t :
    threads x !! t = None -> arena_step x (mkSys (arena x) (<[t := alloc_start]> (threads x)) (live x) (changes x))
| as_free t n :
    threads x !! t = None -> n ∈ live x ->
    arena_step x (mkSys (arena x) (<[t := free_load n]> (threads x)) (live x ∖ {[n]}) (changes x))
| as_step t p map_ok p' a' :
    threads x !! t = Some p -> is_done p = false -> step ObjectSize p map_ok (arena x) = (p', a') ->
    arena_step x (mkSys a' (<[t := p']> (threads x)) (live x)
                    (changes x + if changes_head p (arena x) then 1 else 0))
| as_returns t n :
    threads x !! t = Some (alloc_done n) ->
    arena_step x (mkSys (arena x) (delete t (threads x)) (if n =? 0 then live x else {[n]} ∪ live x) (changes x))
| as_freed t :
    threads x !! t = Some free_done ->
    arena_step x (mkSys (arena x) (delete t (threads x)) (live x) (changes x))
| as_use n v :
    n ∈ live x -> arena_step x (mkSys (with_next n v (arena x)) (threads x) (live x) (changes x)).

(** A new arena over a mapping at a page boundary, not at address 0. *)
Definition arena_reachable (x : arena_sys) : Prop :=
  exists max_count base a, 0 < max_count /\ 0 < base /\ base mod PAGE_SIZE = 0 /\
    Init ObjectSize max_count ZX_OK true (Some base) = inr a /\
    rtc arena_step (mkSys a ∅ ∅ 0) x.

(** ** Owners *)

(** The node a thread holds. *)
Definition held (p : pc) : option Z :=
  match p with
  | alloc_count n | free_load n | free_link n _ _ | free_cas n _ _ => Some n
  | alloc_done n => if n =? 0 then None else Some n
  | _ => None
  end.

(** [fl] is the list that starts at [h]. *)
Fixpoint linked (h : Z) (fl : list Z) (a : GPArena) : Prop :=
  match fl with
  | [] => h = 0
  | n :: fl => h = n /\ n <> 0 /\ is_Some (next_ a !! n) /\ linked (next_of n a) fl a
  end.

Definition is_slot (n : Z) (a : GPArena) : Prop :=
  exists k, 0 <= k /\ n = start_ a + k * ObjectSize /\ n + ObjectSize <= top_ a.

(** Who owns a slot. *)
Inductive owner := in_list | by_client | by_thread (t : Z).

#[local] Instance owner_eq_dec : EqDecision owner.
Proof. solve_decision. Defined.

Definition owns (fl : list Z) (x : arena_sys) (n : Z) (o : owner) : Prop :=
  match o with
  | in_list => n ∈ fl
  | by_client => n ∈ live x
  | by_thread t => exists p, threads x !! t = Some p /\ held p = Some n
  end.

(** A thread's local copies are current unless the generation has moved on. *)
Definition locals_ok (p : pc) (a : GPArena) : Prop :=
  match p with
  | alloc_loop h g | free_link _ h g => 0 <= g <= gen a /\ (g = gen a -> h = head a)
  | alloc_cas h g next =>
      0 <= g <= gen a /\ h <> 0 /\ (g = gen a -> h = head a /\ next = next_of h a)
  | free_cas n h g =>
      0 <= g <= gen a /\ (g = gen a -> h = head a) /\ next_ a !! n = Some h
  | alloc_check top | alloc_grow top => top <= top_ a
  | alloc_cas_top top => top + ObjectSize <= committed_ a
  | _ => True
  end.

(** The extent of the arena: whole slots up to [top_], whole pages committed. *)
Record extent_ok (a : GPArena) : Prop := {
  eo_start : 0 < start_ a;
  eo_top : exists k, 0 <= k /\ top_ a = start_ a + k * ObjectSize;
  eo_committed : top_ a <= committed_ a <= end_ a;
  eo_pages : start_ a mod PAGE_SIZE = 0 /\ committed_ a mod PAGE_SIZE = 0 /\ end_ a mod PAGE_SIZE = 0;
}.

Record owners_ok (fl : list Z) (x : arena_sys) : Prop := {
  oo_slot : forall n o, owns fl x n o -> is_slot n (arena x);
  oo_unique : forall n o o', owns fl x n o -> owns fl x n o' -> o = o';
  oo_owned : forall n, is_slot n (arena x) -> exists o, owns fl x n o;
}.

Record arena_ok (fl : list Z) (x : arena_sys) : Prop := {
  ao_extent : extent_ok (arena x);
  ao_gen : gen (arena x) = changes x;
  ao_gen_pos : 0 <= changes x;
  ao_linked : linked (head (arena x)) fl (arena x);
  ao_nodup : NoDup fl;
  ao_owners : owners_ok fl x;
  ao_locals : map_Forall (fun _ p => locals_ok p (arena x)) (threads x);
}.

Lemma is_slot_shape n a a' : start_ a' = start_ a -> top_ a' = top_ a -> is_slot n a' <-> is_slot n a.
Proof. unfold is_slot. by intros -> ->. Qed.

Lemma linked_frame h fl a a' : (forall n, n ∈ fl -> next_ a' !! n = next_ a !! n) -> linked h fl a -> linked h fl a'.
Proof.
  revert h. induction fl as [|n fl IH]; simpl; [done|]. intros h Hf (-> & Hn & Hs & Hl).
  unfold next_of in *. rewrite Hf by apply list_elem_of_here. split_and!; try done.
  apply IH; [|done]. intros m Hm. by apply Hf, list_elem_of_further.
Qed.

(** One node changes owner, to [o1]; it may be a new slot. *)
Lemma owners_move fl x fl' x' n o1 :
  owners_ok fl x ->
  (forall m, is_slot m (arena x') <-> is_slot m (arena x) \/ m = n) ->
  (forall m o, m <> n -> owns fl' x' m o <-> owns fl x m o) ->
  (forall o, owns fl' x' n o <-> o = o1) ->
  owners_ok fl' x'.
Proof.
  intros [Hs Hu Ho] Hsl Hm Hn. split.
  - intros m o H. apply Hsl. destruct (decide (m = n)) as [->|Hne]; [by right|]. left. by apply (Hs m o), Hm.
  - intros m o o' H H'. destruct (decide (m = n)) as [->|Hne]; [apply Hn in H, H'; congruence|].
    apply (Hu m); by apply Hm.
  - intros m H. destruct (decide (m = n)) as [->|Hne]; [exists o1; by apply Hn|].
    apply Hsl in H as [H|H]; [|done]. destruct (Ho m H) as [o Hmo]. exists o. by apply Hm.
Qed.

(** No node changes owner. *)
Lemma owners_same fl x x' :
  owners_ok fl x -> (forall m, is_slot m (arena x') <-> is_slot m (arena x)) ->
  (forall m o, owns fl x' m o <-> owns fl x m o) -> owners_ok fl x'.
Proof.
  intros [Hs Hu Ho] Hsl Hm. split.
  - intros m o H. by apply Hsl, (Hs m o), Hm.
  - intros m o o' H H'. apply (Hu m); by apply Hm.
  - intros m H. apply Hsl in H. destruct (Ho m H) as [o Hmo]. exists o. by apply Hm.
Qed.

Lemma owns_thread_ne fl a ths lv ch a' t p' n o ch' :
  o <> by_thread t ->
  owns fl (mkSys a' (<[t := p']> ths) lv ch') n o <-> owns fl (mkSys a ths lv ch) n o.
Proof.
  intros Ho. destruct o as [| |t']; simpl; try done. assert (t' <> t) by congruence.
  by rewrite lookup_insert_ne by done.
Qed.

Lemma owns_thread_eq fl a ths lv ch t p' n :
  owns fl (mkSys a (<[t := p']> ths) lv ch) n (by_thread t) <-> held p' = Some n.
Proof.
  simpl. rewrite lookup_insert_eq. split; [by intros (p & [= ->] & H) | intros H; by exists p'].
Qed.

(** A step of thread [t] that moves no node and leaves the list alone. *)
Lemma quiet_step fl x t p p' a' :
  arena_ok fl x -> threads x !! t = Some p -> held p' = held p ->
  start_ a' = start_ (arena x) -> top_ a' = top_ (arena x) -> head a' = head (arena x) ->
  gen a' = gen (arena x) -> next_ a' = next_ (arena x) -> extent_ok a' ->
  committed_ (arena x) <= committed_ a' -> locals_ok p' a' ->
  arena_ok fl (mkSys a' (<[t := p']> (threads x)) (live x) (changes x)).
Proof.
  intros [He Hg Hp Hl Hn Ho Hlo] Ht Hh E1 E2 E3 E4 E5 He' Hc Hp'. destruct x as [a ths lv ch]. simpl in *. split; simpl.
  - done.
  - by rewrite E4.
  - done.
  - rewrite E3. apply (linked_frame _ _ a); [by rewrite E5 | done].
  - done.
  - apply (owners_same fl (mkSys a ths lv ch)); [done | intros m; by apply is_slot_shape |].
    intros m o. destruct (decide (o = by_thread t)) as [->|Hne]; [|by apply owns_thread_ne].
    rewrite owns_thread_eq, Hh. simpl. rewrite Ht. split; [intros H; by exists p | by intros (q & [= ->] & H)].
  - apply map_Forall_insert_2; [done|]. intros t' q Hq. specialize (Hlo t' q Hq). simpl in Hlo.
    unfold locals_ok, next_of in *. destruct q; simpl in *; rewrite ?E2, ?E3, ?E4, ?E5; try done; lia.
Qed.

(** What an owner excludes. *)
Lemma owner_only fl x n o1 o : arena_ok fl x -> owns fl x n o1 -> o <> o1 -> ~ owns fl x n o.
Proof. intros Hok H1 Hne H. apply Hne. by apply (oo_unique _ _ (ao_owners _ _ Hok) n). Qed.

Lemma owned_pos fl x n o : arena_ok fl x -> owns fl x n o -> 0 < n.
Proof.
  intros Hok Ho. destruct (oo_slot _ _ (ao_owners _ _ Hok) n o Ho) as (k & Hk & -> & _).
  pose proof (eo_start _ (ao_extent _ _ Hok)). nia.
Qed.

(** Locals survive a change of the head, which no snapshot is as new as. *)
Lemma locals_head q a h : locals_ok q a -> locals_ok q (with_head h (gen a + 1) a).
Proof.
  unfold locals_ok, next_of. destruct q; simpl; try done; intros H; decompose [and] H; split_and!; try done; try lia;
    intros E; exfalso; lia.
Qed.

Lemma linked_head h fl a : linked h fl a -> h <> 0 -> h ∈ fl.
Proof. destruct fl as [|n fl]; simpl; [done|]. intros (-> & _) _. apply list_elem_of_here. Qed.

(** Locals survive a write to a node that is not listed and that the thread does
    not hold. *)
Lemma locals_write fl x n v o t q :
  arena_ok fl x -> owns fl x n o -> o <> in_list -> threads x !! t = Some q -> o <> by_thread t ->
  locals_ok q (with_next n v (arena x)).
Proof.
  intros Hok Ho Hl Hq Hne. pose proof (ao_locals _ _ Hok t q Hq) as Hlo. simpl in Hlo.
  destruct q as [| | h g nx | | | | | | | | | m h g | |]; simpl in *; try done.
  - destruct Hlo as (? & ? & Hg). split_and!; try lia. intros E. destruct (Hg E) as [-> ->]. split; [done|].
    unfold next_of. simpl. rewrite lookup_insert_ne; [done|]. intros ->.
    refine (owner_only fl x _ o in_list Hok Ho _ _); [congruence|]. simpl. by apply (linked_head _ _ _ (ao_linked _ _ Hok)).
  - destruct Hlo as (? & ? & Hg). split_and!; try (done || lia). rewrite lookup_insert_ne; [done|]. intros ->.
    refine (owner_only fl x m o (by_thread t) Hok Ho _ _); [congruence|]. simpl. by eexists.
Qed.

Lemma linked_write fl x n v o : arena_ok fl x -> owns fl x n o -> o <> in_list ->
  linked (head (arena x)) fl (with_next n v (arena x)).
Proof.
  intros Hok Ho Hl. apply (linked_frame _ _ (arena x)); [|apply Hok]. intros m Hm. simpl.
  apply lookup_insert_ne. intros <-. by refine (owner_only fl x n o in_list Hok Ho _ _).
Qed.

(** The head is taken off the list. *)
Lemma pop_step fl x t h g nx :
  arena_ok fl x -> threads x !! t = Some (alloc_cas h g nx) -> head (arena x) = h -> gen (arena x) = g ->
  changes x + 1 < 2 ^ 64 ->
  exists fl', arena_ok fl' (mkSys (with_head nx (u64 (g + 1)) (arena x)) (<[t := alloc_count h]> (threads x))
                              (live x) (changes x + 1)).
Proof.
  intros Hok Ht Eh Eg Hb. pose proof (ao_locals _ _ Hok t _ Ht) as Hlo. simpl in Hlo.
  destruct Hlo as (_ & Hh0 & Hsn). destruct (Hsn (eq_sym Eg)) as [_ Enx].
  pose proof Hok as [He Hg Hp Hl Hn Ho Hlos]. destruct fl as [|h' fl]; simpl in Hl; [congruence|].
  destruct Hl as (Eh' & _ & _ & Hl). rewrite Eh in Eh'. subst h'. apply NoDup_cons in Hn as [Hni Hn].
  exists fl. rewrite u64_id by (unfold is_u64; lia). split; simpl; try done.
  - destruct He. by split.
  - lia.
  - lia.
  - rewrite Enx. by apply (linked_frame _ _ (arena x)).
  - apply (owners_move (h :: fl) x _ _ h (by_thread t)); [done | | |].
    + intros m. simpl. rewrite (is_slot_shape m (arena x)) by done. split; [by left|]. intros [H| ->]; [done|].
      apply (oo_slot _ _ Ho h in_list). apply list_elem_of_here.
    + intros m o Hm. destruct o as [| |t']; simpl; [| done |].
      * rewrite elem_of_cons. tauto.
      * destruct (decide (t' = t)) as [->|Hne]; [|by rewrite lookup_insert_ne].
        rewrite lookup_insert_eq, Ht. split; intros (q & [= <-] & [=]); congruence.
    + intros o. destruct (decide (o = by_thread t)) as [->|Hne].
      * rewrite owns_thread_eq. done.
      * split; [|done]. intros H. exfalso. assert (owns (h :: fl) x h in_list) as Hin by apply list_elem_of_here.
        destruct o as [| |t']; simpl in H; [done | |].
        -- by refine (owner_only _ _ h in_list by_client Hok Hin _ _).
        -- rewrite lookup_insert_ne in H by congruence.
           by refine (owner_only _ _ h in_list (by_thread t') Hok Hin _ H).
  - apply map_Forall_insert_2; [done|]. intros t' q Hq. rewrite <- Eg. by apply locals_head, (Hlos t').
Qed.

(** A node is put on the list. *)
Lemma push_step fl x t n h g :
  arena_ok fl x -> threads x !! t = Some (free_cas n h g) -> head (arena x) = h -> gen (arena x) = g ->
  changes x + 1 < 2 ^ 64 ->
  arena_ok (n :: fl) (mkSys (with_head n (u64 (g + 1)) (arena x)) (<[t := free_count]> (threads x))
                        (live x) (changes x + 1)).
Proof.
  intros Hok Ht Eh Eg Hb. pose proof (ao_locals _ _ Hok t _ Ht) as Hlo. simpl in Hlo.
  destruct Hlo as (_ & _ & Hnx). pose proof Hok as [He Hg Hp Hl Hn Ho Hlos].
  assert (owns fl x n (by_thread t)) as Hown by (by eexists).
  pose proof (owned_pos fl x n _ Hok Hown) as Hpos.
  rewrite u64_id by (unfold is_u64; lia). split; simpl; try done.
  - destruct He. by split.
  - lia.
  - lia.
  - split_and!; [done | lia | by rewrite Hnx |]. unfold next_of. simpl. rewrite Hnx. simpl. rewrite <- Eh.
    by apply (linked_frame _ _ (arena x)).
  - apply NoDup_cons. split; [|done]. by refine (owner_only _ _ n (by_thread t) in_list Hok Hown _).
  - apply (owners_move fl x _ _ n in_list); [done | | |].
    + intros m. simpl. rewrite (is_slot_shape m (arena x)) by done. split; [by left|]. intros [H| ->]; [done|].
      by apply (oo_slot _ _ Ho n (by_thread t)).
    + intros m o Hm. destruct o as [| |t']; simpl; [| done |].
      * rewrite elem_of_cons. tauto.
      * destruct (decide (t' = t)) as [->|Hne]; [|by rewrite lookup_insert_ne].
        rewrite lookup_insert_eq, Ht. split; intros (q & [= <-] & [=]); congruence.
    + intros o. destruct o as [| |t']; simpl.
      * split; [done|]. intros _. apply list_elem_of_here.
      * split; [|done]. intros H. exfalso. by refine (owner_only _ _ n (by_thread t) by_client Hok Hown _ H).
      * split; [|done]. intros (q & Hq & Hh). exfalso. destruct (decide (t' = t)) as [->|Hne].
        -- rewrite lookup_insert_eq in Hq. by injection Hq as <-.
        -- rewrite lookup_insert_ne in Hq by done.
           refine (owner_only _ _ n (by_thread t) (by_thread t') Hok Hown _ _); [congruence | by exists q].
  - apply map_Forall_insert_2; [done|]. intros t' q Hq. rewrite <- Eg. by apply locals_head, (Hlos t').
Qed.

(** A node is linked to the head its thread has seen. *)
Lemma link_step fl x t n h g :
  arena_ok fl x -> threads x !! t = Some (free_link n h g) ->
  arena_ok fl (mkSys (with_next n h (arena x)) (<[t := free_cas n h g]> (threads x)) (live x) (changes x)).
Proof.
  intros Hok Ht. assert (owns fl x n (by_thread t)) as Hown by (by eexists).
  pose proof (ao_locals _ _ Hok t _ Ht) as Hlo. simpl in Hlo.
  pose proof Hok as [He Hg Hp Hl Hn Ho Hlos]. split; simpl; try done.
  - destruct He. by split.
  - by apply (linked_write fl x n h (by_thread t)).
  - apply (owners_same fl x); [done | intros m; by apply is_slot_shape |]. intros m o. destruct x as [a ths lv ch].
    destruct (decide (o = by_thread t)) as [->|Hne]; [|by apply owns_thread_ne].
    rewrite owns_thread_eq. simpl in *. rewrite Ht. split; [intros H; by eexists | by intros (q & [= <-] & H)].
  - intros t' q Hq. destruct (decide (t' = t)) as [->|Hne].
    + rewrite lookup_insert_eq in Hq. injection Hq as <-. simpl. rewrite lookup_insert_eq. split_and!; try done; tauto.
    + rewrite lookup_insert_ne in Hq by done. apply (locals_write fl x n h (by_thread t) t'); congruence.
Qed.

(** The slot at the top is taken. *)
Lemma extend_step fl x t top :
  arena_ok fl x -> threads x !! t = Some (alloc_cas_top top) -> top_ (arena x) = top ->
  arena_ok fl (mkSys (with_top (top + ObjectSize) (arena x)) (<[t := alloc_count top]> (threads x)) (live x) (changes x)).
Proof.
  intros Hok Ht Et. pose proof (ao_locals _ _ Hok t _ Ht) as Hlo. simpl in Hlo.
  pose proof Hok as [He Hg Hp Hl Hn Ho Hlos]. pose proof He as [Hst (K & HK & EK) Hco Hpg].
  assert (forall o, ~ owns fl x top o) as Hfresh.
  { intros o H. destruct (oo_slot _ _ Ho top o H) as (k & _ & _ & Hle). lia. }
  split; simpl; try done.
  - split; simpl; try done; [|lia]. exists (K + 1). split; [lia|]. rewrite <- Et, EK. lia.
  - by apply (linked_frame _ _ (arena x)).
  - apply (owners_move fl x _ _ top (by_thread t)); [done | | |].
    + intros m. unfold is_slot. simpl. split.
      * intros (k & Hk & -> & Hle). destruct (decide (k = K)) as [->|Hne]; [right; lia|]. left. exists k. split_and!; [done..|].
        assert (k < K) by (rewrite <- Et, EK in Hle; nia). nia.
      * intros [(k & Hk & -> & Hle)| ->]; [exists k; split_and!; lia|]. exists K. split_and!; lia.
    + intros m o Hm. destruct o as [| |t']; simpl; try done.
      destruct (decide (t' = t)) as [->|Hne]; [|by rewrite lookup_insert_ne].
      rewrite lookup_insert_eq, Ht. split; intros (q & [= <-] & [=]); congruence.
    + intros o. destruct (decide (o = by_thread t)) as [->|Hne]; [by rewrite owns_thread_eq|].
      split; [|done]. intros H. exfalso. apply (Hfresh o). destruct x as [a ths lv ch]. revert H. by apply owns_thread_ne.
  - apply map_Forall_insert_2; [done|]. intros t' q Hq. specialize (Hlos t' q Hq). simpl in Hlos.
    unfold locals_ok, next_of in *. destruct q; simpl in *; try done; lia.
Qed.

Lemma page_gap c e : c mod PAGE_SIZE = 0 -> e mod PAGE_SIZE = 0 -> c < e -> c + PAGE_SIZE <= e.
Proof.
  change PAGE_SIZE with 4096. intros Hc He Hlt.
  pose proof (Z.div_mod c 4096 ltac:(lia)). pose proof (Z.div_mod e 4096 ltac:(lia)). lia.
Qed.

(** [Grow] commits whole pages, and enough for one more slot. *)
Lemma Grow_spec a nt ok :
  extent_ok a -> nt <= top_ a + ObjectSize ->
  let '(r, a') := Grow nt ok a in
  extent_ok a' /\ committed_ a <= committed_ a' /\ (r = true -> nt <= committed_ a') /\
  exists c, a' = with_committed c a.
Proof.
  intros [Hst Htop Hco (P1 & P2 & P3)] Hnt. unfold Grow. rewrite Z.gtb_ltb.
  assert (exists c, a = with_committed c a) as Hself by (by exists (committed_ a); destruct a).
  assert (extent_ok a) as Hok by by split.
  destruct (Z.ltb_spec (committed_ a) nt); [|split_and!; try done; lia].
  set (nc := if _ >? _ then _ else _).
  assert (committed_ a <= nc <= end_ a /\ nc mod PAGE_SIZE = 0 /\ (nc <> committed_ a -> nt <= nc)) as (Hnc & Hm & Hge).
  { unfold nc. rewrite Z.gtb_ltb. destruct (Z.ltb_spec (end_ a) (committed_ a + 4 * PAGE_SIZE)) as [Hlt|Hlt].
    - split_and!; [lia | lia | done |]. intros Hne. pose proof (page_gap (committed_ a) (end_ a) P2 P3). lia.
    - assert (0 < PAGE_SIZE) by done. split_and!; [lia | lia | | lia].
      rewrite Z.add_mod, Z.mod_mul by lia. by rewrite P2. }
  destruct (Z.eqb_spec nc (committed_ a)); [split_and!; done || lia|].
  destruct ok; simpl; [|split_and!; done || lia].
  split_and!; [split; simpl; try done; lia | lia | intros _; by apply Hge | by eexists].
Qed.

Lemma grow_step fl x t top ok :
  arena_ok fl x -> threads x !! t = Some (alloc_grow top) ->
  let '(r, a') := Grow (top + ObjectSize) ok (arena x) in
  arena_ok fl (mkSys a' (<[t := if r then alloc_cas_top top else alloc_done 0]> (threads x)) (live x) (changes x)).
Proof.
  intros Hok Ht. pose proof (ao_locals _ _ Hok t _ Ht) as Htop. simpl in Htop.
  pose proof (Grow_spec (arena x) (top + ObjectSize) ok (ao_extent _ _ Hok) ltac:(lia)) as HG.
  destruct (Grow _ ok (arena x)) as [r a']. destruct HG as (He & Hc & Hr & c & ->).
  apply (quiet_step fl x t (alloc_grow top)); try done; [by destruct r|]. destruct r; simpl; [by apply Hr | done].
Qed.

(** Steps of a thread inside an operation. *)
Lemma thread_step fl x t p ok p' a' :
  arena_ok fl x -> threads x !! t = Some p -> step ObjectSize p ok (arena x) = (p', a') ->
  changes x + (if changes_head p (arena x) then 1 else 0) < 2 ^ 64 ->
  exists fl', arena_ok fl' (mkSys a' (<[t := p']> (threads x)) (live x)
                              (changes x + if changes_head p (arena x) then 1 else 0)).
Proof.
  intros Hok Ht Hs Hb. pose proof (ao_locals _ _ Hok t p Ht) as Hlo. simpl in Hlo.
  pose proof (ao_extent _ _ Hok) as He. pose proof (ao_gen _ _ Hok) as Hg. pose proof (ao_gen_pos _ _ Hok) as Hgp.
  assert (forall q a1, held q = held p -> a1 = arena x \/ (exists c, a1 = with_count c (arena x)) ->
            locals_ok q (arena x) ->
            exists fl', arena_ok fl' (mkSys a1 (<[t := q]> (threads x)) (live x) (changes x + 0))) as Hquiet.
  { intros q a1 Hh Ha Hq. exists fl. rewrite Z.add_0_r.
    destruct Ha as [->|[c ->]]; apply (quiet_step fl x t p); try done. by destruct He. }
  destruct p as [| h g | h g nx | | top | top | top | n | n | n | n h g | n h g | |]; simpl in *.
  - injection Hs as <- <-. apply Hquiet; simpl; [done | by left | lia].
  - injection Hs as <- <-. destruct (Z.eqb_spec h 0); apply Hquiet; simpl; try done; try (by left).
    destruct Hlo as [? Hh]. split_and!; lia.
  - destruct (Z.eqb_spec (head (arena x)) h), (Z.eqb_spec (gen (arena x)) g); simpl in *; injection Hs as <- <-;
      [by apply (pop_step fl) | apply Hquiet; simpl; try (done || lia); by left..].
  - injection Hs as <- <-. apply Hquiet; simpl; [done | by left | lia].
  - injection Hs as <- <-. rewrite Z.gtb_ltb. destruct (Z.ltb_spec (committed_ (arena x)) (top + ObjectSize));
      apply Hquiet; simpl; try done; by left.
  - pose proof (grow_step fl x t top ok Hok Ht) as HG. destruct (Grow _ ok (arena x)) as [r a1].
    injection Hs as <- <-. exists fl. by rewrite Z.add_0_r.
  - destruct (Z.eqb_spec (top_ (arena x)) top); injection Hs as <- <-;
      [exists fl; rewrite Z.add_0_r; by apply extend_step | apply Hquiet; simpl; [done | by left | lia]].
  - injection Hs as <- <-. assert (n <> 0) as Hn0.
    { assert (owns fl x n (by_thread t)) as Hown by (by eexists). pose proof (owned_pos fl x n _ Hok Hown). lia. }
    apply Hquiet; simpl; [by rewrite (proj2 (Z.eqb_neq _ _) Hn0) | right; by eexists | done].
  - injection Hs as <- <-. apply Hquiet; [done | by left | done].
  - injection Hs as <- <-. apply Hquiet; simpl; [done | by left | lia].
  - injection Hs as <- <-. exists fl. rewrite Z.add_0_r. by apply link_step.
  - destruct (Z.eqb_spec (head (arena x)) h), (Z.eqb_spec (gen (arena x)) g); simpl in *; injection Hs as <- <-;
      [exists (n :: fl); by apply push_step with h | apply Hquiet; simpl; try (done || lia); by left..].
  - injection Hs as <- <-. apply Hquiet; simpl; [done | right; by eexists | done].
  - injection Hs as <- <-. apply Hquiet; [done | by left | done].
Qed.

(** ** Every step *)

Lemma locals_delete t (ths : gmap Z pc) a :
  map_Forall (fun _ p => locals_ok p a) ths -> map_Forall (fun _ p => locals_ok p a) (delete t ths).
Proof. intros H. by apply map_Forall_delete. Qed.

(** A thread enters or leaves an operation without a node. *)
Lemma enter_ok fl x t : arena_ok fl x -> threads x !! t = None ->
  arena_ok fl (mkSys (arena x) (<[t := alloc_start]> (threads x)) (live x) (changes x)).
Proof.
  intros [He Hg Hp Hl Hn Ho Hlos] Ht. destruct x as [a ths lv ch]. simpl in *. split; simpl; try done.
  - apply (owners_same fl (mkSys a ths lv ch)); [done | done |]. intros m o.
    destruct (decide (o = by_thread t)) as [->|Hne]; [|by apply owns_thread_ne].
    rewrite owns_thread_eq. simpl. rewrite Ht. split; [done | by intros (q & ? & _)].
  - by apply map_Forall_insert_2.
Qed.

Lemma leave_ok fl x t p : arena_ok fl x -> threads x !! t = Some p -> held p = None ->
  arena_ok fl (mkSys (arena x) (delete t (threads x)) (live x) (changes x)).
Proof.
  intros [He Hg Hp Hl Hn Ho Hlos] Ht Hh. split; simpl; try done; [|by apply locals_delete].
  apply (owners_same fl x); [done | done |]. intros m o. destruct o as [| |t']; simpl; try done.
  destruct (decide (t' = t)) as [->|Hne]; [|by rewrite lookup_delete_ne].
  rewrite lookup_delete_eq, Ht. split; [by intros (q & ? & _) | intros (q & [= <-] & Hq); congruence].
Qed.

Lemma begin_free_ok fl x t n : arena_ok fl x -> threads x !! t = None -> n ∈ live x ->
  arena_ok fl (mkSys (arena x) (<[t := free_load n]> (threads x)) (live x ∖ {[n]}) (changes x)).
Proof.
  intros Hok Ht Hin. pose proof Hok as [He Hg Hp Hl Hn Ho Hlos].
  assert (owns fl x n by_client) as Hown by done. split; simpl; try done; [|by apply map_Forall_insert_2].
  apply (owners_move fl x _ _ n (by_thread t)); [done | | |].
  - intros m. simpl. split; [by left|]. intros [H| ->]; [done|]. by apply (oo_slot _ _ Ho n by_client).
  - intros m o Hm. destruct o as [| |t']; simpl; [done | rewrite elem_of_difference, elem_of_singleton; tauto |].
    destruct (decide (t' = t)) as [->|Hne]; [|by rewrite lookup_insert_ne].
    rewrite lookup_insert_eq, Ht. split; [intros (q & [= <-] & [=]); congruence | by intros (q & ? & _)].
  - intros o. destruct (decide (o = by_thread t)) as [->|Hne]; [by rewrite owns_thread_eq|].
    split; [|done]. intros H. exfalso. destruct o as [| |t']; simpl in H.
    + by refine (owner_only _ _ n by_client in_list Hok Hown _ H).
    + apply elem_of_difference in H as [_ H]. by apply H, elem_of_singleton.
    + rewrite lookup_insert_ne in H by congruence.
      by refine (owner_only _ _ n by_client (by_thread t') Hok Hown _ H).
Qed.

Lemma return_ok fl x t n : arena_ok fl x -> threads x !! t = Some (alloc_done n) ->
  arena_ok fl (mkSys (arena x) (delete t (threads x)) (if n =? 0 then live x else {[n]} ∪ live x) (changes x)).
Proof.
  intros Hok Ht. destruct (Z.eqb_spec n 0) as [->|Hn0]; [by apply (leave_ok fl x t (alloc_done 0))|].
  pose proof Hok as [He Hg Hp Hl Hn Ho Hlos].
  assert (owns fl x n (by_thread t)) as Hown.
  { eexists. split; [done|]. simpl. by rewrite (proj2 (Z.eqb_neq _ _) Hn0). }
  split; simpl; try done; [|by apply locals_delete].
  apply (owners_move fl x _ _ n by_client); [done | | |].
  - intros m. simpl. split; [by left|]. intros [H| ->]; [done|]. by apply (oo_slot _ _ Ho n (by_thread t)).
  - intros m o Hm. destruct o as [| |t']; simpl; [done | rewrite elem_of_union, elem_of_singleton; tauto |].
    destruct (decide (t' = t)) as [->|Hne]; [|by rewrite lookup_delete_ne].
    rewrite lookup_delete_eq, Ht. split; [by intros (q & ? & _)|]. intros (q & [= <-] & Hq). simpl in Hq.
    rewrite (proj2 (Z.eqb_neq _ _) Hn0) in Hq. congruence.
  - intros o. destruct o as [| |t']; simpl.
    + split; [|done]. intros H. exfalso. by refine (owner_only _ _ n (by_thread t) in_list Hok Hown _ H).
    + split; [done|]. intros _. by apply elem_of_union_l, elem_of_singleton.
    + split; [|done]. intros H. exfalso. destruct (decide (t' = t)) as [->|Hne].
      * rewrite lookup_delete_eq in H. by destruct H as (q & ? & _).
      * rewrite lookup_delete_ne in H by done.
        refine (owner_only _ _ n (by_thread t) (by_thread t') Hok Hown _ H). congruence.
Qed.

Lemma use_ok fl x n v : arena_ok fl x -> n ∈ live x ->
  arena_ok fl (mkSys (with_next n v (arena x)) (threads x) (live x) (changes x)).
Proof.
  intros Hok Hin. assert (owns fl x n by_client) as Hown by done. pose proof Hok as [He Hg Hp Hl Hn Ho Hlos].
  split; simpl; try done.
  - destruct He. by split.
  - by apply (linked_write fl x n v by_client).
  - apply (owners_same fl x); [done | intros m; by apply is_slot_shape | done].
  - intros t q Hq. by apply (locals_write fl x n v by_client t).
Qed.

Lemma arena_step_changes x x' : arena_step x x' -> changes x <= changes x'.
Proof. intros [ | | t p ok p' a' _ _ _ | | | ]; simpl; try lia. destruct (changes_head _ _); lia. Qed.

Lemma arena_step_ok fl x x' :
  arena_ok fl x -> arena_step x x' -> changes x' < 2 ^ 64 -> exists fl', arena_ok fl' x'.
Proof.
  intros Hok [t Ht | t n Ht Hn | t p ok p' a' Ht _ Hs | t n Ht | t Ht | n v Hn] Hb.
  - exists fl. by apply enter_ok.
  - exists fl. by apply begin_free_ok.
  - by apply (thread_step fl x t p ok).
  - exists fl. by apply return_ok.
  - exists fl. by apply (leave_ok fl x t free_done).
  - exists fl. by apply use_ok.
Qed.

Lemma Init_ok max_count base a :
  0 < max_count -> 0 < base -> base mod PAGE_SIZE = 0 ->
  Init ObjectSize max_count ZX_OK true (Some base) = inr a -> arena_ok [] (mkSys a ∅ ∅ 0).
Proof.
  intros Hm Hb Hp. unfold Init. rewrite (proj2 (Z.eqb_neq _ _)) by lia. simpl. intros [= <-].
  assert (0 <= ROUNDUP (max_count * ObjectSize) PAGE_SIZE) as Hr.
  { unfold ROUNDUP. change PAGE_SIZE with 4096.
    assert (0 <= (max_count * ObjectSize + (4096 - 1)) / 4096) by (apply Z.div_pos; nia). nia. }
  split; simpl; try done.
  - split; simpl; [done | exists 0; lia | lia |]. split_and!; [done | done |].
    unfold ROUNDUP. rewrite Z.add_mod, Z.mod_mul by done. by rewrite Hp.
  - constructor.
  - split.
    + intros n [| |t]; simpl; [by intros ?%elem_of_nil | by intros ?%elem_of_empty |].
      intros (p & Hq & _). by rewrite lookup_empty in Hq.
    + intros n o o' H. exfalso. destruct o as [| |t]; simpl in H;
        [by apply elem_of_nil in H | by apply elem_of_empty in H |].
      destruct H as (p & Hq & _). by rewrite lookup_empty in Hq.
    + intros n (k & Hk & -> & Hle). simpl in Hle. nia.
Qed.

Lemma arena_reachable_ok x : arena_reachable x -> changes x < 2 ^ 64 -> exists fl, arena_ok fl x.
Proof.
  intros (mc & base & a & Hm & Hb & Hp & Hi & Hr) Hc. pose proof (Init_ok mc base a Hm Hb Hp Hi) as H0.
  assert (forall y z, rtc arena_step y z -> changes y <= changes z) as Hmono.
  { induction 1 as [|y1 y2 y3 Hs _ IH]; [done|]. pose proof (arena_step_changes _ _ Hs). lia. }
  assert (forall y z fl, rtc arena_step y z -> arena_ok fl y -> changes z < 2 ^ 64 -> exists fl, arena_ok fl z) as Hall.
  { intros y z fl Hyz. revert fl. induction Hyz as [|y1 y2 y3 Hs Hrest IH]; intros fl Hok Hb3; [by exists fl|].
    destruct (arena_step_ok fl y1 y2 Hok Hs) as [fl' Hok']; [pose proof (Hmono _ _ Hrest); lia|]. by apply (IH fl'). }
  by apply (Hall _ _ [] Hr).
Qed.

(** C16: Every slot has exactly one owner.  In every interleaving of any number of
    threads that allocate, free and use their nodes, with fewer than [2^64] changes
    of the list head, the nodes reachable from the head form a list without
    repetition, and each slot handed out so far is either in that list, or held by
    exactly one thread inside [Alloc] or [Free], or held by a client: no node is
    given out twice, none is both free and in use, and none is lost.  Slots lie in
    committed memory. *)
Theorem gparena_exclusive x :
  arena_reachable x -> changes x < 2 ^ 64 ->
  exists fl, linked (head (arena x)) fl (arena x) /\ NoDup fl /\
    (forall n, is_slot n (arena x) -> exists o, owns fl x n o /\ forall o', owns fl x n o' -> o' = o) /\
    (forall n o, owns fl x n o ->
       is_slot n (arena x) /\ n + ObjectSize <= committed_ (arena x) <= end_ (arena x)).
Proof.
  intros Hr Hc. destruct (arena_reachable_ok x Hr Hc) as [fl [He _ _ Hl Hn [Hs Hu Ho] _]].
  exists fl. split_and!; [done | done | |].
  - intros n Hsl. destruct (Ho n Hsl) as [o Hno]. exists o. split; [done|]. intros o' H'. by apply (Hu n).
  - intros n o H. pose proof (Hs n o H) as Hsl. split; [done|]. destruct Hsl as (k & _ & _ & Hle), He as [_ _ Hco _]. lia.
Qed.

(** ** Executable schedules *)

Inductive event := EAlloc (t : Z) | EFree (t n : Z) | EStep (t : Z) (map_ok : bool) | EReturn (t : Z) | EUse (n v : Z).

Definition exec1 (e : event) (x : arena_sys) : option arena_sys :=
  match e with
  | EAlloc t =>
      match threads x !! t with
      | None => Some (mkSys (arena x) (<[t := alloc_start]> (threads x)) (live x) (changes x))
      | _ => None
      end
  | EFree t n =>
      match threads x !! t with
      | None =>
          if bool_decide (n ∈ live x)
          then Some (mkSys (arena x) (<[t := free_load n]> (threads x)) (live x ∖ {[n]}) (changes x)) else None
      | _ => None
      end
  | EStep t ok =>
      match threads x !! t with
      | Some p =>
          if is_done p then None
          else
            let r := step ObjectSize p ok (arena x) in
            Some (mkSys r.2 (<[t := r.1]> (threads x)) (live x)
                    (changes x + if changes_head p (arena x) then 1 else 0))
      | None => None
      end
  | EReturn t =>
      match threads x !! t with
      | Some (alloc_done n) =>
          Some (mkSys (arena x) (delete t (threads x)) (if n =? 0 then live x else {[n]} ∪ live x) (changes x))
      | Some free_done => Some (mkSys (arena x) (delete t (threads x)) (live x) (changes x))
      | _ => None
      end
  | EUse n v =>
      if bool_decide (n ∈ live x)
      then Some (mkSys (with_next n v (arena x)) (threads x) (live x) (changes x)) else None
  end.

Fixpoint exec (es : list event) (x : arena_sys) : option arena_sys :=
  match es with
  | [] => Some x
  | e :: es => match exec1 e x with Some x' => exec es x' | None => None end
  end.

Lemma exec1_step e x x' : exec1 e x = Some x' -> arena_step x x'.
Proof.
  destruct e as [t | t n | t ok | t | n v]; simpl.
  - destruct (threads x !! t) eqn:Ht; [done|]. intros [= <-]. by apply as_alloc.
  - destruct (threads x !! t) eqn:Ht; [done|]. case_bool_decide; [|done]. intros [= <-]. by apply as_free.
  - destruct (threads x !! t) as [p|] eqn:Ht; [|done]. destruct (is_done p) eqn:Hd; [done|]. intros [= <-].
    apply (as_step x t p ok); [done | done |]. by destruct (step ObjectSize p ok (arena x)).
  - destruct (threads x !! t) as [[]|] eqn:Ht; try done; intros [= <-]; by econstructor.
  - case_bool_decide; [|done]. intros [= <-]. by apply as_use.
Qed.

Lemma exec_steps es x x' : exec es x = Some x' -> rtc arena_step x x'.
Proof.
  revert x. induction es as [|e es IH]; intros x; simpl; [by intros [= ->]|].
  destruct (exec1 e x) as [y|] eqn:E; [|done]. intros H. apply rtc_l with y; [by apply (exec1_step e) | by apply IH].
Qed.

End Facts.

(** ** The race on the head

    Thread 1 frees the slot at [0x1000] and starts to allocate; it has read the
    head and its [next] when thread 2 takes that slot, takes another and frees the
    first again.  The head is the same node, but thread 1's exchange fails. *)

Definition ex_base : Z := 0x1000.
Definition ex_arena : GPArena :=
  match Init 40 100 ZX_OK true (Some ex_base) with inr a => a | inl _ => mkArena 0 0 0 0 0 0 0 ∅ end.

Definition steps (n : nat) (t : Z) : list event := repeat (EStep t true) n.
Definition ex_race : list event :=
  [EAlloc 1] ++ steps 7 1 ++ [EReturn 1; EFree 1 ex_base] ++ steps 4 1 ++ [EReturn 1] ++
  [EAlloc 1] ++ steps 2 1 ++
  [EAlloc 2] ++ steps 4 2 ++ [EReturn 2; EUse ex_base 77; EAlloc 2] ++ steps 6 2 ++ [EReturn 2; EFree 2 ex_base] ++
  steps 4 2 ++ [EReturn 2] ++ steps 1 1.

Definition ex_after : arena_sys := default (mkSys ex_arena ∅ ∅ 0) (exec 40 ex_race (mkSys ex_arena ∅ ∅ 0)).

Lemma ex_after_reachable : arena_reachable 40 ex_after.
Proof.
  exists 100, ex_base, ex_arena. split_and!; [done | done | done | done |].
  apply (exec_steps 40 ex_race). by vm_compute.
Qed.

Lemma gparena_exclusive_witness :
  threads ex_after !! 1 = Some (alloc_loop ex_base 3) /\ live ex_after = {[ex_base + 40]} /\
  exists fl, linked (head (arena ex_after)) fl (arena ex_after) /\ NoDup fl.
Proof.
  split; [by vm_compute|]. split; [by apply (bool_decide_unpack _); vm_compute|].
  destruct (gparena_exclusive 40 ltac:(done) ltac:(done) ex_after ex_after_reachable ltac:(by vm_compute))
    as (fl & Hl & Hn & _). by exists fl.
Defined.
