(* ===== verification/SlotArena.v ===== *)
(** * Slots for handles

    What the handle table asks of its arena, as a type class with laws, and
    [GPArena] as an instance: between concurrent operations the arena behaves as a
    set of free and live slots.  Undisturbed, an operation ends after a bounded
    number of steps from wherever other threads have left it. *)

From S2P Require Import Prelude Zx GPArena GPArenaFacts.

Class SlotArena (A : Type) := {
  sa_Alloc : bool -> A -> option Z * A;
  sa_Free : Z -> A -> A;
  sa_Committed : Z -> A -> bool;
  sa_Base : A -> Z;
  sa_DiagnosticCount : A -> Z;
}.

(** [sa_ok L a]: the live slots of [a] are [L].  Slots have [size] bytes and there
    are at most [max]; a slot that has been handed out once stays committed. *)
Class SlotArenaLaws (A : Type) `{SlotArena A} (size max : Z) := {
  sa_ok : gset Z -> A -> Prop;
  sa_alloc_ok : forall L ok a, sa_ok L a ->
    match sa_Alloc ok a with
    | (Some n, a') => (n ∉ L) /\ sa_ok ({[n]} ∪ L) a' /\ sa_Base a' = sa_Base a /\
                      (forall m, sa_Committed m a = true -> sa_Committed m a' = true)
    | (None, a') => sa_ok L a' /\ sa_Base a' = sa_Base a /\ (forall m, sa_Committed m a' = sa_Committed m a)
    end;
  sa_free_ok : forall L n a, sa_ok L a -> n ∈ L ->
    sa_ok (L ∖ {[n]}) (sa_Free n a) /\ sa_Base (sa_Free n a) = sa_Base a /\
    (forall m, sa_Committed m (sa_Free n a) = sa_Committed m a);
  sa_live : forall L n a, sa_ok L a -> n ∈ L ->
    sa_Committed n a = true /\ exists k, 0 <= k < max /\ n = sa_Base a + k * size;
}.

(** ** Undisturbed operations *)

Import GPArena.

Section Alone.
Context (ObjectSize : Z) (map_ok : bool).

(** The operation at [p] ends within [k] steps. *)
Definition ends (k : nat) (p : pc) (a : GPArena) : Prop := is_done (run ObjectSize k p map_ok a).1 = true.

Lemma ends_step k p a :
  ends k (step ObjectSize p map_ok a).1 (step ObjectSize p map_ok a).2 -> ends (S k) p a.
Proof. unfold ends. simpl. by destruct (step ObjectSize p map_ok a). Qed.

Lemma ends_done k p a : is_done p = true -> ends k p a.
Proof.
  unfold ends. revert a. induction k as [|k IH]; intros a Hp; [done|]. simpl. destruct p; try done; by apply IH.
Qed.

Lemma ends_mono k k' p a : ends k p a -> (k <= k')%nat -> ends k' p a.
Proof.
  revert k' p a. induction k as [|k IH]; intros k' p a H Hle; [by apply ends_done|].
  destruct k' as [|k']; [lia|]. apply ends_step. apply IH; [|lia]. unfold ends in *. simpl in H.
  by destruct (step ObjectSize p map_ok a).
Qed.

Lemma ends_count n a : ends 1 (alloc_count n) a.
Proof. done. Qed.

Lemma Grow_top nt a : top_ (Grow nt map_ok a).2 = top_ a.
Proof. unfold Grow. by repeat case_match. Qed.

Lemma ends_cas_top a : ends 2 (alloc_cas_top (top_ a)) a.
Proof. apply ends_step. simpl. rewrite Z.eqb_refl. apply ends_count. Qed.

Lemma ends_check a : ends 4 (alloc_check (top_ a)) a.
Proof.
  apply ends_step. simpl. destruct (_ >? _); [|apply (ends_mono 2); [apply ends_cas_top | lia]].
  apply ends_step. simpl. pose proof (Grow_top (top_ a + ObjectSize) a) as Ht.
  destruct (Grow _ map_ok a) as [[] a']; simpl in *; [|by apply ends_done]. rewrite <- Ht. apply ends_cas_top.
Qed.

Lemma ends_any_cas_top top a : ends 5 (alloc_cas_top top) a.
Proof.
  apply ends_step. simpl. destruct (_ =? _); simpl; [apply (ends_mono 1); [apply ends_count | lia] | apply ends_check].
Qed.

Lemma ends_top a : ends 5 alloc_top a.
Proof. apply ends_step, ends_check. Qed.

Lemma ends_loop a : ends 6 (alloc_loop (head a) (gen a)) a.
Proof.
  apply ends_step. simpl. destruct (_ =? 0); [apply ends_top|]. apply ends_step. simpl. rewrite !Z.eqb_refl. simpl.
  apply (ends_mono 1); [apply ends_count | lia].
Qed.

Lemma ends_cas h g nx a : ends 7 (alloc_cas h g nx) a.
Proof.
  apply ends_step. simpl. destruct (_ && _); simpl; [apply (ends_mono 1); [apply ends_count | lia] | apply ends_loop].
Qed.

Lemma ends_free_cas n h g a : ends 4 (free_cas n h g) a.
Proof.
  apply ends_step. simpl. destruct (_ && _); simpl; [apply (ends_mono 1); [done | lia]|].
  apply ends_step. simpl. apply ends_step. simpl. by rewrite !Z.eqb_refl.
Qed.

End Alone.

(** An operation ends when it is left alone.  From any point of [Alloc] or [Free],
    whatever state other threads have left the arena in, a thread that runs
    undisturbed finishes within eight steps: one exchange may fail because of what
    the others did before, the next does not. *)
Theorem gparena_obstruction_free ObjectSize p map_ok a : is_done (run ObjectSize 8 p map_ok a).1 = true.
Proof.
  change (ends ObjectSize map_ok 8 p a). destruct p as [| h g | h g nx | | top | top | top | n | n | n | n h g | n h g | |].
  - apply (ends_mono _ _ 7); [apply ends_step, ends_loop | lia].
  - apply ends_step. simpl. destruct (_ =? 0); [apply (ends_mono _ _ 5); [apply ends_top | lia] | apply ends_cas].
  - apply (ends_mono _ _ 7); [apply ends_cas | lia].
  - apply (ends_mono _ _ 5); [apply ends_top | lia].
  - apply ends_step. simpl. destruct (_ >? _).
    + apply ends_step. simpl. destruct (Grow _ map_ok a) as [[] a'];
        [apply (ends_mono _ _ 5); [apply ends_any_cas_top | lia] | by apply ends_done].
    + apply (ends_mono _ _ 5); [apply ends_any_cas_top | lia].
  - apply ends_step. simpl. destruct (Grow _ map_ok a) as [[] a'];
      [apply (ends_mono _ _ 5); [apply ends_any_cas_top | lia] | by apply ends_done].
  - apply (ends_mono _ _ 5); [apply ends_any_cas_top | lia].
  - apply (ends_mono _ _ 1); [apply ends_count | lia].
  - by apply ends_done.
  - apply ends_step, ends_step, (ends_mono _ _ 4); [apply ends_free_cas | lia].
  - apply ends_step, (ends_mono _ _ 4); [apply ends_free_cas | lia].
  - apply (ends_mono _ _ 4); [apply ends_free_cas | lia].
  - by apply (ends_mono _ _ 1); [|lia].
  - by apply ends_done.
Qed.

(** ** The instance *)

Section Instance.
Context (ObjectSize max : Z).
Hypothesis size_pos : 0 < ObjectSize.
Hypothesis size_page : ObjectSize <= PAGE_SIZE.

#[export] Instance GPArena_slots : SlotArena GPArena := {
  sa_Alloc := Alloc ObjectSize;
  sa_Free := Free ObjectSize;
  sa_Committed := Committed;
  sa_Base := Base;
  sa_DiagnosticCount := DiagnosticCount;
}.

Lemma Alloc_pop ok a n fl : linked (head a) (n :: fl) a ->
  Alloc ObjectSize ok a =
  (Some n, with_count (u64 (count_ a + 1)) (with_head (next_of n a) (u64 (gen a + 1)) a)).
Proof.
  intros (Hh & Hn & _). unfold Alloc. simpl. rewrite Hh, (proj2 (Z.eqb_neq _ _) Hn). simpl. rewrite Hh, !Z.eqb_refl. simpl.
  by rewrite (proj2 (Z.eqb_neq _ _) Hn).
Qed.

Lemma Alloc_top ok a : head a = 0 -> top_ a <> 0 ->
  Alloc ObjectSize ok a =
  let '(r, a1) := if top_ a + ObjectSize >? committed_ a then Grow (top_ a + ObjectSize) ok a else (true, a) in
  if r then (Some (top_ a), with_count (u64 (count_ a1 + 1)) (with_top (top_ a + ObjectSize) a1)) else (None, a1).
Proof.
  intros Hh Ht. unfold Alloc. simpl. rewrite Hh. simpl. destruct (_ >? committed_ a) eqn:E; simpl.
  - pose proof (Grow_top ok (top_ a + ObjectSize) a) as Htop.
    destruct (Grow (top_ a + ObjectSize) ok a) as [[] a1]; simpl in *; [|done].
    rewrite Htop, Z.eqb_refl. simpl. by rewrite (proj2 (Z.eqb_neq _ _) Ht).
  - rewrite Z.eqb_refl. simpl. by rewrite (proj2 (Z.eqb_neq _ _) Ht).
Qed.

Lemma Free_eq n a :
  Free ObjectSize n a = with_count (u64 (count_ a - 1)) (with_head n (u64 (gen a + 1)) (with_next n (head a) a)).
Proof. unfold Free. simpl. by rewrite !Z.eqb_refl. Qed.

(** The live slots of an arena that no thread is inside. *)
Record live_slots (L : gset Z) (a : GPArena) : Prop := {
  ls_extent : extent_ok ObjectSize a;
  ls_max : end_ a <= start_ a + max * ObjectSize;
  ls_list : exists fl, linked (head a) fl a /\ NoDup fl /\ owners_ok ObjectSize fl (mkSys a ∅ L 0);
}.

Lemma start_top a : extent_ok ObjectSize a -> 0 < start_ a <= top_ a.
Proof. intros [H (k & Hk & ->) _ _]. nia. Qed.

Lemma alloc_pop_live L a n fl :
  live_slots L a -> linked (head a) (n :: fl) a -> NoDup (n :: fl) ->
  owners_ok ObjectSize (n :: fl) (mkSys a ∅ L 0) ->
  (n ∉ L) /\ live_slots ({[n]} ∪ L) (with_count (u64 (count_ a + 1)) (with_head (next_of n a) (u64 (gen a + 1)) a)).
Proof.
  intros [He Hm _] Hl [Hni Hn]%NoDup_cons Ho.
  assert (n ∉ L) as HnL.
  { intros HL. by pose proof (oo_unique _ _ _ Ho n in_list by_client (list_elem_of_here _ _) HL). }
  split; [done|]. split; [destruct He; by split | done |]. exists fl. simpl in *. split_and!.
  - destruct Hl as (_ & _ & _ & Hl). by apply (linked_frame _ _ a).
  - done.
  - apply (owners_move ObjectSize (n :: fl) (mkSys a ∅ L 0) _ _ n by_client); [done | | |].
    + intros m. simpl. rewrite (is_slot_shape ObjectSize m a) by done. split; [by left|]. intros [H| ->]; [done|].
      apply (oo_slot _ _ _ Ho n in_list). apply list_elem_of_here.
    + intros m o Hmn. destruct o as [| |t]; simpl; [| | done].
      * rewrite elem_of_cons. tauto.
      * rewrite elem_of_union, elem_of_singleton. tauto.
    + intros o. destruct o as [| |t]; simpl; [done | |].
      * split; [done|]. intros _. by apply elem_of_union_l, elem_of_singleton.
      * split; [|done]. intros (q & H & _). by rewrite lookup_empty in H.
Qed.

Lemma alloc_top_live L a a1 :
  live_slots L a -> head a = 0 -> extent_ok ObjectSize a1 -> (exists c, a1 = with_committed c a) ->
  top_ a + ObjectSize <= committed_ a1 ->
  (top_ a ∉ L) /\ live_slots ({[top_ a]} ∪ L) (with_count (u64 (count_ a1 + 1)) (with_top (top_ a + ObjectSize) a1)).
Proof.
  intros [He Hm (fl & Hl & Hn & Ho)] Hh [_ _ Hco1 Hpg1] [c ->] Hc. pose proof He as [Hst (K & HK & EK) Hco Hpg].
  assert (fl = []) as ->. { destruct fl as [|n fl]; [done|]. destruct Hl as (HF & H0 & _). congruence. }
  assert (forall o, ~ owns [] (mkSys a ∅ L 0) (top_ a) o) as Hfresh.
  { intros o H. destruct (oo_slot _ _ _ Ho _ o H) as (k & _ & _ & Hle). simpl in Hle. lia. }
  split; [apply (Hfresh by_client)|]. split.
  - split; simpl in *; try done; [|lia]. exists (K + 1). split; [lia|]. rewrite EK. lia.
  - simpl. lia.
  - exists []. split_and!; [by rewrite Hh in Hl | constructor |].
    apply (owners_move ObjectSize [] (mkSys a ∅ L 0) _ _ (top_ a) by_client); [done | | |].
    + intros m. unfold is_slot. simpl. split.
      * intros (k & Hk & -> & Hle). destruct (decide (k = K)) as [->|Hne]; [right; lia|]. left. exists k.
        split_and!; [done..|]. assert (k < K) by (rewrite EK in Hle; nia). rewrite EK. nia.
      * intros [(k & Hk & -> & Hle)| ->]; [exists k; split_and!; lia|]. exists K. split_and!; lia.
    + intros m o Hmn. destruct o as [| |t]; simpl; [done | | done].
      rewrite elem_of_union, elem_of_singleton. tauto.
    + intros o. destruct o as [| |t]; simpl.
      * split; [|done]. intros H. by apply elem_of_nil in H.
      * split; [done|]. intros _. by apply elem_of_union_l, elem_of_singleton.
      * split; [|done]. intros (q & H & _). by rewrite lookup_empty in H.
Qed.

Lemma free_live L a n : live_slots L a -> n ∈ L -> live_slots (L ∖ {[n]}) (Free ObjectSize n a).
Proof.
  intros [He Hm (fl & Hl & Hn & Ho)] HnL. rewrite Free_eq.
  assert (n ∉ fl) as Hni by (intros Hin; by pose proof (oo_unique _ _ _ Ho n in_list by_client Hin HnL)).
  split; [destruct He; by split | done |]. exists (n :: fl). split_and!.
  - simpl. unfold next_of. simpl. rewrite lookup_insert_eq. simpl. split_and!; [done | | by eexists |].
    + destruct (oo_slot _ _ _ Ho n by_client HnL) as (k & Hk & -> & _). simpl. destruct He. nia.
    + apply (linked_frame _ _ a); [|done]. intros m Hm'. simpl. apply lookup_insert_ne. congruence.
  - by apply NoDup_cons.
  - apply (owners_move ObjectSize fl (mkSys a ∅ L 0) _ _ n in_list); [done | | |].
    + intros m. simpl. rewrite (is_slot_shape ObjectSize m a) by done. split; [by left|]. intros [H| ->]; [done|].
      by apply (oo_slot _ _ _ Ho n by_client).
    + intros m o Hmn. destruct o as [| |t]; simpl; [| | done].
      * rewrite elem_of_cons. tauto.
      * rewrite elem_of_difference, elem_of_singleton. tauto.
    + intros o. destruct o as [| |t]; simpl.
      * split; [done|]. intros _. apply list_elem_of_here.
      * split; [|done]. rewrite elem_of_difference, elem_of_singleton. tauto.
      * split; [|done]. intros (q & H & _). by rewrite lookup_empty in H.
Qed.

Lemma alloc_law L ok a :
  live_slots L a ->
  match Alloc ObjectSize ok a with
  | (Some n, a') => (n ∉ L) /\ live_slots ({[n]} ∪ L) a' /\ start_ a' = start_ a /\ top_ a <= top_ a'
  | (None, a') => live_slots L a' /\ start_ a' = start_ a /\ top_ a' = top_ a
  end.
Proof.
  intros Hok. pose proof Hok as [He Hm (fl & Hl & Hn & Ho)]. destruct fl as [|n fl].
  - pose proof (start_top a He). rewrite Alloc_top by (done || lia). rewrite Z.gtb_ltb.
    destruct (Z.ltb_spec (committed_ a) (top_ a + ObjectSize)).
    + pose proof (Grow_spec ObjectSize size_pos size_page a (top_ a + ObjectSize) ok He ltac:(lia)) as HG.
      destruct (Grow _ ok a) as [r a1]. destruct HG as (He1 & Hc & Hr & c & Ec). destruct r.
      * destruct (alloc_top_live L a a1 Hok Hl He1) as [H1 H2]; [by exists c | by apply Hr |]. subst a1.
        simpl in *. split_and!; try done; lia.
      * subst a1. split_and!; try done. split; [done | done |]. exists []. split_and!; [done | done |].
        apply (owners_same ObjectSize [] (mkSys a ∅ L 0)); [done | intros m; by apply is_slot_shape | done].
    + destruct (alloc_top_live L a a Hok Hl He) as [H1 H2]; [exists (committed_ a); by destruct a | lia |].
      simpl in *. split_and!; try done; lia.
  - rewrite (Alloc_pop ok a n fl Hl). destruct (alloc_pop_live L a n fl Hok Hl Hn Ho). simpl. split_and!; done || lia.
Qed.

#[export] Instance GPArena_slot_laws : SlotArenaLaws GPArena ObjectSize max.
Proof.
  refine {| sa_ok := live_slots |}.
  - intros L ok a Hok. pose proof (alloc_law L ok a Hok) as H. simpl. destruct (Alloc ObjectSize ok a) as [[n|] a'].
    + destruct H as (H1 & H2 & H3 & H4). split_and!; try done. unfold Committed. rewrite H3. intros m. rewrite !andb_true_iff.
      intros [? ?]. split; [done|]. apply Z.ltb_lt. b2p. lia.
    + destruct H as (H1 & H2 & H3). split_and!; try done. intros m. unfold Committed. by rewrite H2, H3.
  - intros L n a Hok HnL. simpl. split; [by apply free_live|]. by rewrite Free_eq.
  - intros L n a [He Hm (fl & _ & _ & Ho)] HnL. simpl. destruct (oo_slot _ _ _ Ho n by_client HnL) as (k & Hk & -> & Hle).
    simpl in Hle |- *. unfold Committed, Base. destruct He as [Hst _ Hco _]. split.
    + apply andb_true_iff. split; [apply Z.geb_le | apply Z.ltb_lt]; nia.
    + exists k. split; [|done]. split; [done|]. nia.
Defined.

End Instance.
