(* ===== verification/Handle.v ===== *)
(** * Handles

    [object/handle.cc] and [object/handle.h]: handles live in the slots of an arena
    that preserves their fields when they are freed, so that a slot's next handle
    gets another value.  A handle is named by the address of its slot.  What a
    handle does to the object it refers to is recorded as a list of effects; the
    handle counts of objects are kept by koid. *)

From S2P Require Import Prelude Zx SlotArena.

(** ** Constants *)

Definition kHandleReservedBits : Z := 2.
Definition kMaxHandleCount : Z := 256 * 1024.
Definition kHandleIndexMask : Z := kMaxHandleCount - 1.
Definition kHandleReservedBitsMask : Z :=
  Z.shiftl (Z.shiftl 1 kHandleReservedBits - 1) (32 - kHandleReservedBits).
(** [~kHandleIndexMask & ~kHandleReservedBitsMask] at 32 bits. *)
Definition kHandleGenerationMask : Z := ((2 ^ 32 - 1) .&~ kHandleIndexMask) .&~ kHandleReservedBitsMask.
(** [log2_uint_floor(kMaxHandleCount)] *)
Definition kHandleGenerationShift : Z := Z.log2 kMaxHandleCount.
Definition sizeof_Handle : Z := 40.

Module Handle.

Definition ZX_KOID_INVALID : Z := 0.

(** The fields that are preserved; a slot never used reads as zeros. *)
Record Handle := mkHandle {
  process_id_ : Z;
  dispatcher_ : option Z;
  rights_ : Z;
  base_value_ : Z;
}.

Definition zero_slot : Handle := mkHandle ZX_KOID_INVALID None 0 0.

Inductive effect :=
| Cancel (h d : Z)
| on_zero_handles (d : Z)
| set_owner (d pid : Z)
| BadHandle (pid : Z).

Section Handle.
Context {A : Type} `{SlotArena A}.
(** [is_waitable()] of the object with a koid. *)
Variable is_waitable : Z -> bool.

Record HandleTable := mkTable {
  arena_ : A;
  mem : gmap Z Handle;
  handle_counts : gmap Z Z;
  effects : list effect;
}.

Definition slot (h : Z) (t : HandleTable) : Handle := default zero_slot (mem t !! h).
Definition put_slot (h : Z) (s : Handle) (t : HandleTable) : HandleTable :=
  mkTable (arena_ t) (<[h := s]> (mem t)) (handle_counts t) (effects t).
Definition with_arena (a : A) (t : HandleTable) : HandleTable :=
  mkTable a (mem t) (handle_counts t) (effects t).
Definition does (e : effect) (t : HandleTable) : HandleTable :=
  mkTable (arena_ t) (mem t) (handle_counts t) (effects t ++ [e]).
Definition handle_count (d : Z) (t : HandleTable) : Z := default 0 (handle_counts t !! d).
Definition put_count (d n : Z) (t : HandleTable) : HandleTable :=
  mkTable (arena_ t) (mem t) (<[d := u32 n]> (handle_counts t)) (effects t).

Definition HasRights (desired : Z) (s : Handle) : bool := (rights_ s .& desired) =? desired.

Definition IndexToHandle (index : Z) (t : HandleTable) : Z := sa_Base (arena_ t) + index * sizeof_Handle.
Definition HandleToIndex (h : Z) (t : HandleTable) : Z := u32 ((h - sa_Base (arena_ t)) / sizeof_Handle).

Definition set_process_id (h pid : Z) (t : HandleTable) : HandleTable :=
  let s := slot h t in
  let t := put_slot h (mkHandle pid (dispatcher_ s) (rights_ s) (base_value_ s)) t in
  match dispatcher_ s with Some d => does (set_owner d pid) t | None => t end.

(** The value for a slot with index [handle_index] and stashed value [v]. *)
Definition next_base_value (handle_index v : Z) : Z :=
  let old_gen := if v =? 0 then 0 else Z.shiftr (v .& kHandleGenerationMask) kHandleGenerationShift in
  let new_gen := u32 (Z.shiftl (old_gen + 1) kHandleGenerationShift) .& kHandleGenerationMask in
  handle_index .| new_gen.

Definition GetNewBaseValue (addr : Z) (t : HandleTable) : Z :=
  next_base_value (HandleToIndex addr t) (base_value_ (slot addr t)).

(** [mem_ok]: whether the arena can commit memory. *)
Definition Alloc (d : Z) (mem_ok : bool) (t : HandleTable) : option (Z * Z) * HandleTable :=
  match sa_Alloc mem_ok (arena_ t) with
  | (None, a) => (None, with_arena a t)
  | (Some addr, a) =>
      let t := with_arena a t in
      let t := put_count d (handle_count d t + 1) t in
      (Some (addr, GetNewBaseValue addr t), t)
  end.

Definition Make (d rights : Z) (mem_ok : bool) (t : HandleTable) : option Z * HandleTable :=
  match Alloc d mem_ok t with
  | (None, t) => (None, t)
  | (Some (addr, base_value), t) => (Some addr, put_slot addr (mkHandle ZX_KOID_INVALID (Some d) rights base_value) t)
  end.

(** The overload that takes a [KernelHandle], whose destructor runs
    [on_zero_handles] when the handle could not be made. *)
Definition Make_kernel (d rights : Z) (mem_ok : bool) (t : HandleTable) : option Z * HandleTable :=
  match Make d rights mem_ok t with
  | (None, t) => (None, does (on_zero_handles d) t)
  | r => r
  end.

Definition Dup (source rights : Z) (mem_ok : bool) (t : HandleTable) : option Z * HandleTable :=
  match dispatcher_ (slot source t) with
  | None => (None, t)
  | Some d => Make d rights mem_ok t
  end.

(** [TearDown]: the object is let go; the other fields stay. *)
Definition TearDown (h : Z) (t : HandleTable) : HandleTable :=
  let s := slot h t in put_slot h (mkHandle (process_id_ s) None (rights_ s) (base_value_ s)) t.

Definition Delete (h : Z) (t : HandleTable) : HandleTable :=
  match dispatcher_ (slot h t) with
  | None => t
  | Some d =>
      let t := if is_waitable d then does (Cancel h d) t else t in
      let t := TearDown h t in
      let zero_handles := handle_count d t =? 1 in
      let t := put_count d (handle_count d t - 1) t in
      let t := with_arena (sa_Free h (arena_ t)) t in
      if zero_handles then does (on_zero_handles d) t else t
  end.

Definition FromU32 (value : Z) (t : HandleTable) : option Z :=
  let handle_addr := IndexToHandle (value .& kHandleIndexMask) t in
  if negb (sa_Committed handle_addr (arena_ t)) then None
  else if base_value_ (slot handle_addr t) =? value then Some handle_addr else None.

Definition OutstandingHandles (t : HandleTable) : Z := sa_DiagnosticCount (arena_ t).

End Handle.

#[global] Arguments HandleTable A : clear implicits.

End Handle.
