(* ===== verification/HandleFacts.v ===== *)
(** * Correctness of the handle table

    Values decode to the handle they were made for; a slot's values repeat only
    after 4096 handles; live handles have an object and freed ones have none; the
    handle counts of objects count the live handles that refer to them. *)

From S2P Require Import Prelude Zx SlotArena Handle.
Import Handle.

(** ** Values *)

Definition kGenerations : Z := 4096.

(** The value of generation [g] in the slot with index [k]. *)
Definition value_of (k g : Z) : Z := k + g * kMaxHandleCount.

Lemma mask_gen v : v .& kHandleGenerationMask = Z.shiftl ((v / kMaxHandleCount) mod kGenerations) 18.
Proof.
  change kHandleGenerationMask with (Z.shiftl (Z.ones 12) 18). change kMaxHandleCount with (2 ^ 18).
  change kGenerations with (2 ^ 12). rewrite <- Z.land_ones by lia. rewrite <- Z.shiftr_div_pow2 by lia.
  apply Z.bits_inj'. intros i Hi. rewrite Z.land_spec, !Z.shiftl_spec by lia.
  destruct (Z.lt_ge_cases i 18) as [Hlt|Hge].
  - rewrite !(Z.testbit_neg_r _ (i - 18)) by lia. by rewrite andb_false_r.
  - rewrite Z.land_spec, Z.shiftr_spec by lia. do 2 f_equal. lia.
Qed.

Lemma gen_of_value k g :
  0 <= k < kMaxHandleCount -> 0 <= g < kGenerations ->
  Z.shiftr (value_of k g .& kHandleGenerationMask) kHandleGenerationShift = g.
Proof.
  intros Hk Hg. rewrite mask_gen. change kHandleGenerationShift with 18.
  rewrite Z.shiftr_shiftl_l by lia. change (18 - 18) with 0. rewrite Z.shiftl_0_r. unfold value_of.
  rewrite Z.div_add by done. rewrite Z.div_small by lia. rewrite Z.add_0_l. apply Z.mod_small. lia.
Qed.

Lemma index_or_gen k g : 0 <= k < kMaxHandleCount -> 0 <= g -> k .| Z.shiftl g 18 = value_of k g.
Proof.
  intros Hk Hg. unfold value_of. change kMaxHandleCount with (2 ^ 18) in *. rewrite <- Z.shiftl_mul_pow2 by lia.
  assert (k .& Z.shiftl g 18 = 0) as H0.
  { apply Z.bits_inj'. intros i Hi. rewrite Z.land_spec, Z.bits_0, Z.shiftl_spec by lia.
    destruct (Z.lt_ge_cases i 18) as [Hlt|Hge]; [rewrite (Z.testbit_neg_r _ (i - 18)) by lia; by rewrite andb_false_r|].
    destruct (Z.eq_dec k 0) as [->|Hk0]; [by rewrite Z.bits_0|]. rewrite Z.bits_above_log2; [done | lia |].
    apply Z.lt_le_trans with 18; [apply Z.log2_lt_pow2; lia | lia]. }
  by rewrite <- Z.lxor_lor, <- Z.add_nocarry_lxor.
Qed.

Lemma value_mask k g : 0 <= k < kMaxHandleCount -> 0 <= g -> value_of k g .& kHandleIndexMask = k.
Proof.
  intros Hk Hg. change kHandleIndexMask with (Z.ones 18). rewrite Z.land_ones by lia. unfold value_of.
  change kMaxHandleCount with (2 ^ 18) in *. rewrite Z.mod_add by lia. apply Z.mod_small. lia.
Qed.

Lemma value_range k g : 0 <= k < kMaxHandleCount -> 0 <= g < kGenerations -> 0 <= value_of k g < 2 ^ 30.
Proof. unfold value_of. change kMaxHandleCount with 262144. change kGenerations with 4096. lia. Qed.

Lemma value_inj k g k' g' : 0 <= k < kMaxHandleCount -> 0 <= k' < kMaxHandleCount ->
  value_of k g = value_of k' g' -> k = k' /\ g = g'.
Proof. unfold value_of. change kMaxHandleCount with 262144. lia. Qed.

(** The next value of a slot is of the next generation. *)
Lemma next_base_value_spec k g :
  0 <= k < kMaxHandleCount -> 0 <= g < kGenerations ->
  next_base_value k (value_of k g) = value_of k ((g + 1) mod kGenerations).
Proof.
  intros Hk Hg. unfold next_base_value.
  assert ((if value_of k g =? 0 then 0 else Z.shiftr (value_of k g .& kHandleGenerationMask) kHandleGenerationShift) = g) as ->.
  { destruct (Z.eqb_spec (value_of k g) 0) as [E|]; [|by apply gen_of_value]. unfold value_of in E.
    change kMaxHandleCount with 262144 in *. lia. }
  rewrite mask_gen. change kHandleGenerationShift with 18.
  assert (u32 (Z.shiftl (g + 1) 18) / kMaxHandleCount mod kGenerations = (g + 1) mod kGenerations) as ->.
  { change kGenerations with 4096 in *. unfold u32. rewrite Z.shiftl_mul_pow2 by lia. change kMaxHandleCount with (2 ^ 18).
    rewrite (Z.mod_small (_ * _)) by lia. by rewrite Z.div_mul. }
  apply index_or_gen; [done|]. apply Z.mod_pos_bound. done.
Qed.

Lemma next_base_value_fresh k : 0 <= k < kMaxHandleCount -> next_base_value k 0 = value_of k 1.
Proof.
  intros Hk. unfold next_base_value. simpl. change (u32 _ .& _) with (Z.shiftl 1 18). by apply index_or_gen.
Qed.

(** The value of the [n]-th handle made in the slot with index [k]. *)
Definition nth_value (k : Z) (n : nat) : Z := Nat.iter n (next_base_value k) 0.

Lemma nth_value_spec k n : 0 <= k < kMaxHandleCount -> (0 < n)%nat ->
  nth_value k n = value_of k (Z.of_nat n mod kGenerations).
Proof.
  intros Hk Hn. induction n as [|[|n] IH]; [lia | by apply next_base_value_fresh |].
  change (nth_value k (S (S n))) with (next_base_value k (nth_value k (S n))). rewrite IH by lia.
  rewrite next_base_value_spec by (done || by apply Z.mod_pos_bound). f_equal.
  rewrite Zplus_mod_idemp_l. f_equal. lia.
Qed.

(** C37: Stale handle values.  The values of the handles made one after another in a
    slot count generations modulo 4096: two of them are equal exactly when the
    numbers of handles made differ by a multiple of 4096, they fit in 30 bits, and
    values of different slots are never equal. *)
Theorem handle_generations k k' n n' :
  0 <= k < kMaxHandleCount -> 0 <= k' < kMaxHandleCount -> (0 < n)%nat -> (0 < n')%nat ->
  0 <= nth_value k n < 2 ^ 30 /\
  (nth_value k n = nth_value k' n' <->
   k = k' /\ Z.of_nat n mod kGenerations = Z.of_nat n' mod kGenerations).
Proof.
  intros Hk Hk' Hn Hn'. rewrite !nth_value_spec by done. split.
  - apply value_range; [done|]. by apply Z.mod_pos_bound.
  - split; [|by intros [-> ->]]. intros E. by apply value_inj in E.
Qed.

Lemma handle_generations_witness :
  nth_value 7 1 = nth_value 7 4097 /\ nth_value 7 1 <> nth_value 7 2.
Proof.
  pose proof (handle_generations 7 7 1 4097 ltac:(done) ltac:(done) ltac:(lia) ltac:(lia)) as [_ H1].
  pose proof (handle_generations 7 7 1 2 ltac:(done) ltac:(done) ltac:(lia) ltac:(lia)) as [_ H2].
  split; [apply H1; by split | intros E; apply H2 in E as [_ E]; by vm_compute in E].
Defined.

(** ** The table *)

Lemma filter_set_ext (P Q : Z -> Prop) `{!forall x, Decision (P x)} `{!forall x, Decision (Q x)} (X : gset Z) :
  (forall x, x ∈ X -> (P x <-> Q x)) -> filter P X = filter Q X.
Proof. intros Hpq. apply set_eq. intros x. rewrite !elem_of_filter. specialize (Hpq x). tauto. Qed.

Section Table.
Context {A : Type} `{SA : SlotArena A} {LA : SlotArenaLaws A sizeof_Handle kMaxHandleCount}.

Definition refers (d : Z) (t : HandleTable A) (h : Z) : Prop := dispatcher_ (slot h t) = Some d.
#[local] Instance refers_dec d t h : Decision (refers d t h) := decide (dispatcher_ (slot h t) = Some d).

(** The number of live handles that refer to an object. *)
Definition references (d : Z) (L : gset Z) (t : HandleTable A) : Z := Z.of_nat (size (filter (refers d t) L)).

(** The slot at [h] has index [k] and its value is of some generation. *)
Definition stamped (h : Z) (t : HandleTable A) : Prop :=
  exists k g, 0 <= k < kMaxHandleCount /\ h = sa_Base (arena_ t) + k * sizeof_Handle /\
              0 <= g < kGenerations /\ base_value_ (slot h t) = value_of k g.

Record table_ok (L : gset Z) (t : HandleTable A) : Prop := {
  to_arena : sa_ok L (arena_ t);
  to_live : forall h, h ∈ L -> is_Some (dispatcher_ (slot h t));
  to_free : forall h, h ∉ L -> process_id_ (slot h t) = ZX_KOID_INVALID /\ dispatcher_ (slot h t) = None;
  to_stamped : forall h, is_Some (mem t !! h) -> stamped h t;
  to_mem : forall h, h ∈ L -> is_Some (mem t !! h);
  to_counts : forall d, handle_count d t = u32 (references d L t);
}.

Lemma slot_put_eq h s (t : HandleTable A) : slot h (put_slot h s t) = s.
Proof. unfold slot. simpl. by rewrite lookup_insert_eq. Qed.
Lemma slot_put_ne h h' s (t : HandleTable A) : h' <> h -> slot h' (put_slot h s t) = slot h' t.
Proof. intros Hne. unfold slot. simpl. by rewrite lookup_insert_ne. Qed.

Lemma references_ext d L t t' :
  (forall h, h ∈ L -> dispatcher_ (slot h t') = dispatcher_ (slot h t)) -> references d L t' = references d L t.
Proof.
  intros H. unfold references. do 2 f_equal. apply filter_set_ext. intros h Hh. unfold refers. by rewrite H.
Qed.

Lemma references_add d h L t : h ∉ L ->
  references d ({[h]} ∪ L) t = (if decide (refers d t h) then 1 else 0) + references d L t.
Proof.
  intros Hh. unfold references. destruct (decide (refers d t h)) as [Hr|Hr].
  - assert (filter (refers d t) ({[h]} ∪ L) = {[h]} ∪ filter (refers d t) L) as ->.
    { apply set_eq. intros x. rewrite elem_of_filter, !elem_of_union, elem_of_filter, elem_of_singleton.
      split; [tauto|]. intros [->|?]; tauto. }
    rewrite size_union; [rewrite size_singleton; lia|].
    intros x ->%elem_of_singleton [_ ?]%elem_of_filter. done.
  - rewrite Z.add_0_l. do 2 f_equal. apply set_eq. intros x. rewrite !elem_of_filter, elem_of_union, elem_of_singleton.
    split; [|tauto]. intros [Hx [->|?]]; tauto.
Qed.

Lemma references_del d h L t : h ∈ L ->
  references d L t = (if decide (refers d t h) then 1 else 0) + references d (L ∖ {[h]}) t.
Proof.
  intros Hh. rewrite <- references_add by (rewrite elem_of_difference, elem_of_singleton; tauto).
  f_equal. by apply union_difference_singleton_L.
Qed.

(** There are at most as many live handles as slots. *)
Lemma live_bound L t : table_ok L t -> Z.of_nat (size L) <= kMaxHandleCount.
Proof.
  intros Hok. set (slots := map (fun k => sa_Base (arena_ t) + k * sizeof_Handle) (seqZ 0 kMaxHandleCount)).
  assert (elements L ⊆+ slots) as Hsub.
  { apply NoDup_submseteq; [apply NoDup_elements|]. intros h Hh. apply elem_of_elements in Hh.
    destruct (sa_live L h _ (to_arena _ _ Hok) Hh) as (_ & k & Hk & ->).
    apply list_elem_of_In, (in_map (fun k => sa_Base (arena_ t) + k * sizeof_Handle)), list_elem_of_In, elem_of_seqZ. lia. }
  apply submseteq_length in Hsub. unfold slots in Hsub. rewrite length_map, length_seqZ in Hsub.
  change (size L) with (length (elements L)). change kMaxHandleCount with 262144 in *. lia.
Qed.

Lemma references_bound d L t : table_ok L t -> 0 <= references d L t <= kMaxHandleCount.
Proof.
  intros Hok. pose proof (live_bound L t Hok). unfold references.
  assert (size (filter (refers d t) L) <= size L)%nat; [apply subseteq_size; intros x [_ ?]%elem_of_filter; done | lia].
Qed.

(** ** Operations *)

Lemma stamped_slot h t t' :
  sa_Base (arena_ t') = sa_Base (arena_ t) -> base_value_ (slot h t') = base_value_ (slot h t) -> stamped h t -> stamped h t'.
Proof. unfold stamped. intros -> ->. done. Qed.

Lemma handle_index t k : 0 <= k < kMaxHandleCount -> HandleToIndex (sa_Base (arena_ t) + k * sizeof_Handle) t = k.
Proof.
  intros Hk. unfold HandleToIndex.
  replace (sa_Base (arena_ t) + k * sizeof_Handle - sa_Base (arena_ t)) with (k * sizeof_Handle) by lia.
  rewrite Z.div_mul by done. apply u32_id. unfold is_u32. change kMaxHandleCount with 262144 in Hk. lia.
Qed.

(** The value a slot gets next is of some generation. *)
Lemma new_base_value t h k :
  (is_Some (mem t !! h) -> stamped h t) -> 0 <= k < kMaxHandleCount -> h = sa_Base (arena_ t) + k * sizeof_Handle ->
  exists g, 0 <= g < kGenerations /\ GetNewBaseValue h t = value_of k g.
Proof.
  intros Hst Hk Hh. unfold GetNewBaseValue. assert (HandleToIndex h t = k) as -> by (rewrite Hh; by apply handle_index).
  destruct (mem t !! h) as [s|] eqn:Em.
  - destruct Hst as (k' & g & Hk' & Hh' & Hg & ->); [by eexists|]. assert (k' = k) as -> by (unfold sizeof_Handle in *; lia).
    exists ((g + 1) mod kGenerations). split; [by apply Z.mod_pos_bound | by apply next_base_value_spec].
  - exists 1. split; [done|]. unfold slot. rewrite Em. by apply next_base_value_fresh.
Qed.

(** The table after its arena gave [h], with the slot filled. *)
Lemma fill_ok L d r g k h a' t :
  table_ok L t -> h ∉ L -> sa_ok ({[h]} ∪ L) a' -> sa_Base a' = sa_Base (arena_ t) ->
  0 <= k < kMaxHandleCount -> h = sa_Base a' + k * sizeof_Handle -> 0 <= g < kGenerations ->
  let s := mkHandle ZX_KOID_INVALID (Some d) r (value_of k g) in
  let t1 := with_arena a' t in
  table_ok ({[h]} ∪ L) (put_slot h s (put_count d (handle_count d t1 + 1) t1)).
Proof.
  intros [Ha Hl Hf Hs Hm Hc] HhL HA HB Hk Hhk Hg s t1. set (t2 := put_slot h s _).
  assert (slot h t2 = s) as Eh by apply slot_put_eq.
  assert (forall h', h' <> h -> slot h' t2 = slot h' t) as Ene by (intros h' Hne; unfold t2; by rewrite slot_put_ne).
  split.
  - done.
  - intros h' [->%elem_of_singleton|Hin]%elem_of_union; [by rewrite Eh; eexists|].
    rewrite Ene by (intros ->; done). by apply Hl.
  - intros h' Hni. rewrite elem_of_union, elem_of_singleton in Hni. rewrite Ene by tauto. apply Hf. tauto.
  - intros h' Hi. destruct (decide (h' = h)) as [->|Hne]; [exists k, g; rewrite Eh; split_and!; done || lia|].
    simpl in Hi. rewrite lookup_insert_ne in Hi by done. apply (stamped_slot h' t); [done | by rewrite Ene | by apply Hs].
  - intros h' [->%elem_of_singleton|Hin]%elem_of_union; simpl; [by rewrite lookup_insert_eq; eexists|].
    destruct (decide (h' = h)) as [->|Hne]; [by rewrite lookup_insert_eq; eexists|].
    rewrite lookup_insert_ne by done. by apply Hm.
  - intros d'. rewrite references_add by done. rewrite (references_ext d' L t t2) by (intros h' Hin; rewrite Ene; [done | by intros ->]).
    assert (refers d' t2 h <-> d' = d) as Hr by (unfold refers; rewrite Eh; simpl; split; congruence).
    unfold handle_count at 1. simpl. destruct (decide (d' = d)) as [->|Hne].
    + rewrite lookup_insert_eq, decide_True by tauto. simpl. change (handle_count d t1) with (handle_count d t). rewrite Hc.
      unfold u32. rewrite Zplus_mod_idemp_l. f_equal. lia.
    + rewrite lookup_insert_ne by done. rewrite decide_False by tauto. apply Hc.
Qed.

Lemma Make_ok L d r ok t :
  table_ok L t ->
  match Make d r ok t with
  | (Some h, t') => (h ∉ L) /\ table_ok ({[h]} ∪ L) t' /\
                    slot h t' = mkHandle ZX_KOID_INVALID (Some d) r (base_value_ (slot h t')) /\
                    forall h', h' <> h -> slot h' t' = slot h' t
  | (None, t') => table_ok L t' /\ forall h, slot h t' = slot h t
  end.
Proof.
  intros Hok. pose proof Hok as [Ha Hl Hf Hs Hm Hc]. unfold Make, Alloc.
  pose proof (sa_alloc_ok L ok (arena_ t) Ha) as HA. destruct (sa_Alloc ok (arena_ t)) as [[h|] a'].
  2: { destruct HA as (HA1 & HA2 & _). split; [|done]. split; try done. intros h Hh. by apply (stamped_slot h t); [| | apply Hs]. }
  destruct HA as (HhL & HA1 & HA2 & _). set (t1 := put_count d _ _).
  destruct (sa_live _ h a' HA1) as (_ & k & Hk & Hhk); [by apply elem_of_union_l, elem_of_singleton|].
  destruct (new_base_value t1 h k) as (g & Hg & Hv); [|done|done|].
  { intros Hi. by apply (stamped_slot h t); [| | apply Hs]. }
  rewrite Hv. split_and!; [done | by apply fill_ok | by rewrite slot_put_eq | intros h' Hne; by rewrite slot_put_ne].
Qed.

Lemma Dup_ok L s r ok t d :
  table_ok L t -> dispatcher_ (slot s t) = Some d ->
  match Dup s r ok t with
  | (Some h, t') => (h ∉ L) /\ table_ok ({[h]} ∪ L) t' /\
                    slot h t' = mkHandle ZX_KOID_INVALID (Some d) r (base_value_ (slot h t')) /\
                    forall h', h' <> h -> slot h' t' = slot h' t
  | (None, t') => table_ok L t' /\ forall h, slot h t' = slot h t
  end.
Proof. intros Hok Hd. unfold Dup. rewrite Hd. by apply Make_ok. Qed.

(** A change of fields other than the object and the value of a live handle. *)
Lemma set_process_id_ok L h pid t :
  table_ok L t -> h ∈ L ->
  table_ok L (set_process_id h pid t) /\
  slot h (set_process_id h pid t) = mkHandle pid (dispatcher_ (slot h t)) (rights_ (slot h t)) (base_value_ (slot h t)) /\
  forall h', h' <> h -> slot h' (set_process_id h pid t) = slot h' t.
Proof.
  intros [Ha Hl Hf Hs Hm Hc] Hh. unfold set_process_id. set (s := mkHandle _ _ _ _). set (t1 := put_slot h s t).
  assert (forall h', slot h' (match dispatcher_ (slot h t) with Some d => does (set_owner d pid) t1 | None => t1 end) = slot h' t1) as Es
    by (intros h'; by destruct (dispatcher_ _)).
  assert (slot h t1 = s) as Eh by apply slot_put_eq.
  assert (forall h', h' <> h -> slot h' t1 = slot h' t) as Ene by (intros h' Hne; by apply slot_put_ne).
  assert (table_ok L t1) as Hok.
  { split; [done | | | | |].
    - intros h' Hin. destruct (decide (h' = h)) as [->|Hne]; [rewrite Eh | rewrite Ene by done]; by apply Hl.
    - intros h' Hni. rewrite Ene by (intros ->; done). by apply Hf.
    - intros h' Hi. apply (stamped_slot h' t); [done | destruct (decide (h' = h)) as [->|Hne]; [by rewrite Eh | by rewrite Ene] |].
      apply Hs. destruct (decide (h' = h)) as [->|Hne]; [by apply Hm|]. simpl in Hi. by rewrite lookup_insert_ne in Hi.
    - intros h' Hin. simpl. destruct (decide (h' = h)) as [->|Hne]; [by rewrite lookup_insert_eq; eexists|].
      rewrite lookup_insert_ne by done. by apply Hm.
    - intros d. change (handle_count d t1) with (handle_count d t). rewrite Hc. f_equal. symmetry. apply references_ext.
      intros h' Hin. destruct (decide (h' = h)) as [->|Hne]; [by rewrite Eh | by rewrite Ene]. }
  rewrite !Es. split_and!; [|done|intros h' Hne; rewrite Es; by apply Ene].
  destruct (dispatcher_ (slot h t)); [|done]. by destruct Hok.
Qed.

Context (is_waitable : Z -> bool).

(** Deleting a handle that no process has.  The object's [on_zero_handles] runs
    exactly when no other live handle refers to it. *)
Lemma Delete_ok L h d t :
  table_ok L t -> h ∈ L -> dispatcher_ (slot h t) = Some d -> process_id_ (slot h t) = ZX_KOID_INVALID ->
  let t' := Delete is_waitable h t in
  table_ok (L ∖ {[h]}) t' /\ (forall h', h' <> h -> slot h' t' = slot h' t) /\
  effects t' = effects t ++ (if is_waitable d then [Cancel h d] else []) ++
               (if references d (L ∖ {[h]}) t =? 0 then [on_zero_handles d] else []).
Proof.
  intros Hok Hh Hd Hp. pose proof Hok as [Ha Hl Hf Hs Hm Hc]. unfold Delete. rewrite Hd. cbv zeta.
  set (t0 := if is_waitable d then does (Cancel h d) t else t).
  assert (forall h', slot h' t0 = slot h' t) as E0 by (intros h'; unfold t0; by destruct (is_waitable d)).
  assert (arena_ t0 = arena_ t /\ mem t0 = mem t /\ handle_counts t0 = handle_counts t) as (Ea & Em & Ec)
    by (unfold t0; by destruct (is_waitable d)).
  set (s := mkHandle (process_id_ (slot h t0)) None (rights_ (slot h t0)) (base_value_ (slot h t0))).
  change (TearDown h t0) with (put_slot h s t0). set (t1 := put_slot h s t0).
  set (t2 := put_count d (handle_count d t1 - 1) t1). set (t3 := with_arena (sa_Free h (arena_ t2)) t2).
  assert (slot h t3 = s) as Eh by (unfold t3, t2, t1; apply slot_put_eq).
  assert (forall h', h' <> h -> slot h' t3 = slot h' t) as Ene
    by (intros h' Hne; rewrite <- (E0 h'); unfold t3, t2, t1; by apply slot_put_ne).
  assert (handle_count d t1 = references d L t mod 2 ^ 32) as Hcd.
  { unfold t1, handle_count. simpl. rewrite Ec. apply Hc. }
  pose proof (references_bound d L t Hok) as Hb. change kMaxHandleCount with 262144 in Hb.
  pose proof (references_del d h L t Hh) as Hr. rewrite decide_True in Hr by done.
  rewrite Z.mod_small in Hcd by lia.
  destruct (sa_free_ok L h (arena_ t) Ha Hh) as (HF1 & HF2 & _).
  assert (table_ok (L ∖ {[h]}) t3) as Hok3.
  { split.
    - simpl. by rewrite Ea.
    - intros h' [Hin Hne%not_elem_of_singleton]%elem_of_difference. rewrite Ene by done. by apply Hl.
    - intros h' Hni. destruct (decide (h' = h)) as [->|Hne]; [rewrite Eh; simpl; by rewrite E0|].
      rewrite Ene by done. apply Hf. intros Hin. apply Hni, elem_of_difference. split; [done | by apply not_elem_of_singleton].
    - intros h' Hi. apply (stamped_slot h' t); [simpl; by rewrite Ea | |].
      + destruct (decide (h' = h)) as [->|Hne]; [rewrite Eh; simpl; by rewrite E0 | by rewrite Ene].
      + apply Hs. destruct (decide (h' = h)) as [->|Hne]; [by apply Hm|]. simpl in Hi. by rewrite lookup_insert_ne, Em in Hi.
    - intros h' [Hin Hne%not_elem_of_singleton]%elem_of_difference. simpl. rewrite lookup_insert_ne by done. rewrite Em. by apply Hm.
    - intros d'. rewrite (references_ext d' _ t t3)
        by (intros h' [_ Hne%not_elem_of_singleton]%elem_of_difference; by rewrite Ene).
      unfold t3, t2, handle_count at 1. simpl. destruct (decide (d' = d)) as [->|Hne].
      + rewrite lookup_insert_eq. simpl. rewrite Hcd. f_equal. lia.
      + rewrite lookup_insert_ne by done. rewrite Ec. change (default 0 (handle_counts t !! d')) with (handle_count d' t).
        rewrite Hc. f_equal. rewrite (references_del d' h L t Hh), decide_False; [lia|]. unfold refers. congruence. }
  assert (effects t3 = effects t ++ if is_waitable d then [Cancel h d] else []) as Hef.
  { simpl. unfold t0. destruct (is_waitable d); simpl; [done | by rewrite app_nil_r]. }
  rewrite Hcd. destruct (Z.eqb_spec (references d L t) 1), (Z.eqb_spec (references d (L ∖ {[h]}) t) 0); try lia.
  - split_and!; [by destruct Hok3 | done |]. simpl. change (effects t0) with (effects t3). by rewrite Hef, app_assoc.
  - split_and!; [done | done |]. by rewrite app_nil_r.
Qed.

(** ** Decoding *)

Lemma FromU32_live L h t : table_ok L t -> h ∈ L -> FromU32 (base_value_ (slot h t)) t = Some h.
Proof.
  intros Hok Hh. destruct (to_stamped _ _ Hok h (to_mem _ _ Hok h Hh)) as (k & g & Hk & Hb & Hg & Hv).
  unfold FromU32, IndexToHandle. rewrite Hv, value_mask by (done || lia). rewrite <- Hb.
  rewrite (proj1 (sa_live L h _ (to_arena _ _ Hok) Hh)). simpl. by rewrite Hv, Z.eqb_refl.
Qed.

Lemma FromU32_value v h (t : HandleTable A) : FromU32 v t = Some h -> base_value_ (slot h t) = v.
Proof.
  unfold FromU32. destruct (negb _); [done|]. destruct (Z.eqb_spec (base_value_ (slot (IndexToHandle (v .& kHandleIndexMask) t) t)) v); [|done].
  by intros [= <-].
Qed.

Lemma live_value_range L h t : table_ok L t -> h ∈ L -> 0 <= base_value_ (slot h t) < 2 ^ 30.
Proof.
  intros Hok Hh. destruct (to_stamped _ _ Hok h (to_mem _ _ Hok h Hh)) as (k & g & Hk & Hb & Hg & ->). by apply value_range.
Qed.

End Table.

#[global] Opaque kMaxHandleCount.
