(* ===== verification/ProcessHandles.v ===== *)
(** * The handles of a process

    The handle table of [object/process_dispatcher.cc], the handle system calls of
    [syscalls/handle_ops.cc] and the consumption of handles of
    [object/user_handles.cc].  A function takes and returns the kernel's handle
    table and the process it works on; the handle-table lock makes each of them one
    step.  Statuses of copies to and from user memory are arguments. *)

From S2P Require Import Prelude Zx UserCopy SlotArena Handle MessagePacket.
Import Handle.

Definition kHandleMustBeOneMask : Z := Z.shiftl 1 kHandleReservedBits - 1.
Definition ZX_HANDLE_INVALID : Z := 0.
Definition ZX_HANDLE_OP_MOVE : Z := 0.
Definition ZX_HANDLE_OP_DUPLICATE : Z := 1.
Definition ZX_RIGHT_SAME_RIGHTS : Z := 2 ^ 31.
Definition ZX_OBJ_TYPE_NONE : Z := 0.

Record zx_handle_disposition_t := mkDisposition {
  hd_operation : Z;
  hd_handle : Z;
  hd_type : Z;
  hd_rights : Z;
  hd_result : zx_status_t;
}.

Module ProcessHandles.

Section Process.
Context {A : Type} `{SlotArena A}.
Variable is_waitable : Z -> bool.
(** [get_type()] of the object with a koid. *)
Variable get_type : Z -> Z.

Local Abbreviation Table := (HandleTable A).

(** [handle_cursors_] are the elements the cursors point to, [None] at the end. *)
Record Process := mkProcess {
  koid : Z;
  handle_rand_ : Z;
  handles_ : list Z;
  handle_cursors_ : list (option Z);
}.

Definition with_handles (hs : list Z) (cs : list (option Z)) (p : Process) : Process :=
  mkProcess (koid p) (handle_rand_ p) hs cs.

(** The constructor; [secret] is drawn from the random number generator. *)
Definition new_process (k secret : Z) : Process := mkProcess k (u32 (Z.shiftl secret kHandleReservedBits)) [] [].

(** ** Values *)

Definition map_handle_to_value (base_value mixer : Z) : Z :=
  Z.lxor mixer (u32 (Z.shiftl base_value kHandleReservedBits) .| kHandleMustBeOneMask).

Definition map_value_to_handle (value mixer : Z) (t : Table) : option Z :=
  if negb ((value .& kHandleMustBeOneMask) =? kHandleMustBeOneMask) then None
  else FromU32 (Z.shiftr (Z.lxor value mixer) kHandleReservedBits) t.

Definition MapHandleToValue (h : Z) (t : Table) (p : Process) : Z :=
  map_handle_to_value (base_value_ (slot h t)) (handle_rand_ p).

(** ** The table *)

Definition GetHandleLocked (handle_value : Z) (skip_policy : bool) (t : Table) (p : Process) : option Z * Table :=
  match map_value_to_handle handle_value (handle_rand_ p) t with
  | Some h =>
      if process_id_ (slot h t) =? koid p then (Some h, t)
      else (None, if skip_policy then t else does (BadHandle (koid p)) t)
  | None => (None, if skip_policy then t else does (BadHandle (koid p)) t)
  end.

Definition AddHandle (h : Z) (t : Table) (p : Process) : Table * Process :=
  (set_process_id h (koid p) t, with_handles (h :: handles_ p) (handle_cursors_ p) p).

(** The element after [h]. *)
Fixpoint next_element (h : Z) (hs : list Z) : option Z :=
  match hs with
  | [] => None
  | x :: hs => if x =? h then hd_error hs else next_element h hs
  end.

Definition AdvanceIf (h : Z) (hs : list Z) (iter : option Z) : option Z :=
  match iter with
  | Some x => if x =? h then next_element x hs else Some x
  | None => None
  end.

(** [RemoveHandleLocked(Handle* )]: the caller gets the handle. *)
Definition RemoveHandleLocked (h : Z) (t : Table) (p : Process) : Table * Process :=
  (set_process_id h ZX_KOID_INVALID t,
   with_handles (filter (fun x => x <> h) (handles_ p)) (map (AdvanceIf h (handles_ p)) (handle_cursors_ p)) p).

Definition RemoveHandle (handle_value : Z) (t : Table) (p : Process) : option Z * Table * Process :=
  match GetHandleLocked handle_value false t p with
  | (None, t) => (None, t, p)
  | (Some h, t) => let '(t, p) := RemoveHandleLocked h t p in (Some h, t, p)
  end.

(** The loop of [RemoveHandles]; each handle is deleted at the end of its turn. *)
Fixpoint RemoveHandles (handles : list Z) (status : zx_status_t) (t : Table) (p : Process)
    : zx_status_t * Table * Process :=
  match handles with
  | [] => (status, t, p)
  | v :: handles =>
      if v =? ZX_HANDLE_INVALID then RemoveHandles handles status t p
      else
        match RemoveHandle v t p with
        | (Some h, t, p) => RemoveHandles handles status (Delete is_waitable h t) p
        | (None, t, p) => RemoveHandles handles ZX_ERR_BAD_HANDLE t p
        end
  end.

Definition GetKoidForHandle (handle_value : Z) (t : Table) (p : Process) : Z * Table :=
  match GetHandleLocked handle_value false t p with
  | (Some h, t) => (default ZX_KOID_INVALID (dispatcher_ (slot h t)), t)
  | (None, t) => (ZX_KOID_INVALID, t)
  end.

(** The object and the rights of the handle. *)
Definition GetDispatcherInternal (handle_value : Z) (t : Table) (p : Process) : (zx_status_t + option Z * Z) * Table :=
  match GetHandleLocked handle_value false t p with
  | (Some h, t) => (inr (dispatcher_ (slot h t), rights_ (slot h t)), t)
  | (None, t) => (inl ZX_ERR_BAD_HANDLE, t)
  end.

(** [type]: the type asked for; [ZX_OBJ_TYPE_NONE] is any. *)
Definition GetDispatcherWithRightsImpl (handle_value desired_rights type : Z) (skip_policy : bool) (t : Table) (p : Process)
    : (zx_status_t + Z * Z) * Table :=
  match GetHandleLocked handle_value skip_policy t p with
  | (None, t) => (inl ZX_ERR_BAD_HANDLE, t)
  | (Some h, t) =>
      let s := slot h t in
      match dispatcher_ s with
      | None => (inl ZX_ERR_WRONG_TYPE, t)
      | Some d =>
          if negb (type =? ZX_OBJ_TYPE_NONE) && negb (get_type d =? type) then (inl ZX_ERR_WRONG_TYPE, t)
          else if negb (HasRights desired_rights s) then (inl ZX_ERR_ACCESS_DENIED, t)
          else (inr (d, rights_ s), t)
      end
  end.

Definition IsHandleValid (handle_value : Z) (t : Table) (p : Process) : bool * Table :=
  match GetHandleLocked handle_value false t p with
  | (Some _, t) => (true, t)
  | (None, t) => (false, t)
  end.

(** The handle table's part of [FinishDeadTransition]. *)
Definition clear_handles (t : Table) (p : Process) : Table * Process :=
  let hs := handles_ p in
  let t := foldl (fun t h => set_process_id h ZX_KOID_INVALID t) t hs in
  (foldl (fun t h => Delete is_waitable h t) t hs, with_handles [] (map (fun _ => None) (handle_cursors_ p)) p).

(** ** Cursors *)

Definition new_cursor (p : Process) : Process :=
  with_handles (handles_ p) (hd_error (handles_ p) :: handle_cursors_ p) p.

(** [Next] of the cursor at [iter]: the handle, and where the cursor moves. *)
Definition Next (iter : option Z) (p : Process) : option Z * option Z :=
  match iter with
  | None => (None, None)
  | Some h => (Some h, next_element h (handles_ p))
  end.

(** [Next] of the [i]-th cursor, and its destructor. *)
Definition cursor_next (i : nat) (p : Process) : option Z * Process :=
  match handle_cursors_ p !! i with
  | None => (None, p)
  | Some iter => let '(h, iter) := Next iter p in (h, with_handles (handles_ p) (<[i := iter]> (handle_cursors_ p)) p)
  end.
Definition destroy_cursor (i : nat) (p : Process) : Process :=
  with_handles (handles_ p) (delete i (handle_cursors_ p)) p.

(** ** handle_ops.cc *)

Definition sys_handle_close (handle_value : Z) (t : Table) (p : Process) : zx_status_t * Table * Process :=
  if handle_value =? ZX_HANDLE_INVALID then (ZX_OK, t, p)
  else
    match RemoveHandle handle_value t p with
    | (Some h, t, p) => (ZX_OK, Delete is_waitable h t, p)
    | (None, t, p) => (ZX_ERR_BAD_HANDLE, t, p)
    end.

(** [user_out_handle]: the value is copied out, then the process gets the handle;
    if the copy fails the handle is deleted and the call fails. *)
Definition copyout (h : Z) (copy_ok : bool) (t : Table) (p : Process) : zx_status_t * Table * Process :=
  if copy_ok then let '(t, p) := AddHandle h t p in (ZX_OK, t, p)
  else (ZX_ERR_INVALID_ARGS, Delete is_waitable h t, p).

Definition handle_dup_replace (is_replace : bool) (handle_value rights : Z) (mem_ok copy_ok : bool)
    (t : Table) (p : Process) : zx_status_t * Table * Process :=
  match GetHandleLocked handle_value false t p with
  | (None, t) => (ZX_ERR_BAD_HANDLE, t, p)
  | (Some source, t) =>
      let s := slot source t in
      if negb is_replace && negb (HasRights ZX_RIGHT_DUPLICATE s) then (ZX_ERR_ACCESS_DENIED, t, p)
      else
        let same := rights =? ZX_RIGHT_SAME_RIGHTS in
        if negb same && negb ((rights_ s .& rights) =? rights) then
          if is_replace
          then let '(t, p) := RemoveHandleLocked source t p in (ZX_ERR_INVALID_ARGS, Delete is_waitable source t, p)
          else (ZX_ERR_INVALID_ARGS, t, p)
        else
          let '(out, t) := Dup source (if same then rights_ s else rights) mem_ok t in
          let '(t, p) := if is_replace
                         then let '(t, p) := RemoveHandleLocked source t p in (Delete is_waitable source t, p)
                         else (t, p) in
          match out with
          | None => (ZX_ERR_NO_MEMORY, t, p)
          | Some h => copyout h copy_ok t p
          end
  end.

(** ** user_handles.cc *)

Definition handle_checks_locked (handle : option Handle) (channel operation desired_rights type : Z) : zx_status_t :=
  match handle with
  | None => ZX_ERR_BAD_HANDLE
  | Some s =>
      if negb (HasRights ZX_RIGHT_TRANSFER s) then ZX_ERR_ACCESS_DENIED
      else if bool_decide (dispatcher_ s = Some channel) then ZX_ERR_NOT_SUPPORTED
      else if negb (type =? ZX_OBJ_TYPE_NONE) && negb (get_type (default 0 (dispatcher_ s)) =? type) then ZX_ERR_WRONG_TYPE
      else if negb (operation =? ZX_HANDLE_OP_MOVE) && negb (operation =? ZX_HANDLE_OP_DUPLICATE) then ZX_ERR_INVALID_ARGS
      else if negb (desired_rights =? ZX_RIGHT_SAME_RIGHTS) && negb ((rights_ s .& desired_rights) =? desired_rights)
      then ZX_ERR_INVALID_ARGS
      else if (operation =? ZX_HANDLE_OP_DUPLICATE) && negb (HasRights ZX_RIGHT_DUPLICATE s) then ZX_ERR_ACCESS_DENIED
      else ZX_OK
  end.

(** The overload of [zx_channel_write]: the status and the handle for the message,
    0 for none. *)
Definition get_handle_for_message_locked (channel handle_val : Z) (t : Table) (p : Process)
    : zx_status_t * Z * Table * Process :=
  let '(source, t) := GetHandleLocked handle_val false t p in
  let status := handle_checks_locked ((fun h => slot h t) <$> source) channel ZX_HANDLE_OP_MOVE
                  ZX_RIGHT_SAME_RIGHTS ZX_OBJ_TYPE_NONE in
  if is_err status then (status, 0, t, p)
  else
    match source with
    | None => (status, 0, t, p)
    | Some h => let '(t, p) := RemoveHandleLocked h t p in (ZX_OK, h, t, p)
    end.

(** The overload of [zx_channel_write_etc]; the result goes into the disposition. *)
Definition get_handle_for_message_etc_locked (channel : Z) (hd : zx_handle_disposition_t) (mem_ok : bool)
    (t : Table) (p : Process) : zx_status_t * Z * zx_handle_disposition_t * Table * Process :=
  let '(source, t) := GetHandleLocked (hd_handle hd) false t p in
  let status := handle_checks_locked ((fun h => slot h t) <$> source) channel (hd_operation hd) (hd_rights hd) (hd_type hd) in
  if is_err status
  then (status, 0, mkDisposition (hd_operation hd) (hd_handle hd) (hd_type hd) (hd_rights hd) status, t, p)
  else
    match source with
    | None => (status, 0, hd, t, p)
    | Some h =>
        if (hd_operation hd =? ZX_HANDLE_OP_MOVE) && (hd_rights hd =? ZX_RIGHT_SAME_RIGHTS)
        then let '(t, p) := RemoveHandleLocked h t p in (ZX_OK, h, hd, t, p)
        else
          let dest_rights := if hd_rights hd =? ZX_RIGHT_SAME_RIGHTS then rights_ (slot h t) else hd_rights hd in
          let '(raw_handle, t) := Dup h dest_rights mem_ok t in
          if negb (hd_operation hd =? ZX_HANDLE_OP_DUPLICATE)
          then let '(t, p) := RemoveHandleLocked h t p in
               (ZX_OK, default 0 raw_handle, hd, Delete is_waitable h t, p)
          else (ZX_OK, default 0 raw_handle, hd, t, p)
    end.

(** [get_user_handles_to_consume], into the caller's array [handles], given what
    the copy from user memory brought: the overload for handles, and the one for
    dispositions, which leaves the entries of duplicate operations as they were. *)
Definition get_user_handles_to_consume (copied : zx_status_t + list Z) (handles : list Z) : zx_status_t * list Z :=
  match copied with
  | inl st => (st, handles)
  | inr vs => (ZX_OK, vs ++ drop (length vs) handles)
  end.

Definition get_user_handles_to_consume_etc (copied : zx_status_t + list zx_handle_disposition_t) (handles : list Z)
    : zx_status_t * list Z :=
  match copied with
  | inl st => (st, handles)
  | inr ds =>
      (ZX_OK, zip_with (fun h d => if hd_operation d =? ZX_HANDLE_OP_DUPLICATE then h else hd_handle d) handles ds
              ++ drop (length ds) handles)
  end.

(** The loop of [RemoveUserHandles]; [user_handles offset chunk_size] is the copy of
    a chunk, [consume] the overload above, [handles] the array on the stack. *)
Fixpoint remove_chunks {T} (fuel : nat) (consume : zx_status_t + T -> list Z -> zx_status_t * list Z)
    (user_handles : Z -> Z -> zx_status_t + T) (num_handles offset : Z) (handles : list Z) (status : zx_status_t)
    (t : Table) (p : Process) : option (zx_status_t * Table * Process) :=
  if negb (offset <? num_handles) then Some (status, t, p)
  else
    match fuel with
    | 0%nat => None
    | S fuel =>
        let chunk_size := Z.min (num_handles - offset) MessagePacket.kMaxMessageHandles in
        let '(status, handles) := consume (user_handles offset chunk_size) handles in
        if is_err status then Some (status, t, p)
        else
          let '(status, t, p) := RemoveHandles (take (Z.to_nat chunk_size) handles) ZX_OK t p in
          remove_chunks fuel consume user_handles num_handles (offset + chunk_size) handles status t p
    end.

(** [handles]: what the uninitialised array of [kMaxMessageHandles] entries holds,
    up to trailing zeros. *)
Definition RemoveUserHandles {T} (consume : zx_status_t + T -> list Z -> zx_status_t * list Z)
    (user_handles : Z -> Z -> zx_status_t + T) (num_handles : Z) (handles : list Z)
    (t : Table) (p : Process) : option (zx_status_t * Table * Process) :=
  remove_chunks (Z.to_nat (num_handles / MessagePacket.kMaxMessageHandles + 1)) consume user_handles num_handles 0
    (take 64 (handles ++ repeat 0 64)) ZX_OK t p.

Definition sys_handle_close_many (user_handles : Z -> Z -> zx_status_t + list Z) (num_handles : Z) (handles : list Z)
    (t : Table) (p : Process) : option (zx_status_t * Table * Process) :=
  RemoveUserHandles get_user_handles_to_consume user_handles num_handles handles t p.

End Process.

End ProcessHandles.
