(* ===== verification/ProcessHandlesFacts.v ===== *)
(** * Correctness of process handle tables

    Every live handle is in the table of exactly one process or in nobody's; a
    handle value resolves exactly to the handle of the process that has it. *)

From S2P Require Import Prelude Zx SlotArena Handle HandleFacts MessagePacket ProcessHandles.
Import Handle ProcessHandles.

(** ** Values *)

(** A mask that leaves the fixed bits of handle values alone. *)
Definition mixer_ok (m : Z) : Prop := is_u32 m /\ m mod 4 = 0.

Lemma new_process_mixer k secret : mixer_ok (handle_rand_ (new_process k secret)).
Proof.
  split; simpl; [apply u32_range|]. unfold u32. rewrite Z.shiftl_mul_pow2 by done.
  change (2 ^ kHandleReservedBits) with 4. rewrite (Z.mod_mod_divide _ (2 ^ 32) 4) by (by exists (2 ^ 30)). by rewrite Z.mod_mul.
Qed.

Lemma low_bits_testbit v i : v mod 4 = 0 -> 0 <= i < 2 -> Z.testbit v i = false.
Proof.
  intros Hv Hi. rewrite <- (Z.mod_pow2_bits_low v 2 i) by lia. change (2 ^ 2) with 4. by rewrite Hv, Z.bits_0.
Qed.

Lemma value_id_bits b i : 0 <= b < 2 ^ 30 -> 0 <= i ->
  Z.testbit (u32 (Z.shiftl b kHandleReservedBits) .| kHandleMustBeOneMask) i = if i <? 2 then true else Z.testbit b (i - 2).
Proof.
  intros Hb Hi. change kHandleReservedBits with 2. change kHandleMustBeOneMask with (Z.ones 2).
  rewrite u32_id by (unfold is_u32; rewrite Z.shiftl_mul_pow2 by lia; lia).
  rewrite Z.lor_spec, Z.shiftl_spec by lia. destruct (Z.ltb_spec i 2) as [Hlt|Hge].
  - rewrite Z.ones_spec_low by lia. by rewrite orb_true_r.
  - rewrite Z.ones_spec_high by lia. by rewrite orb_false_r.
Qed.

Lemma mask_is_3 v : ((v .& kHandleMustBeOneMask) =? kHandleMustBeOneMask) = Z.testbit v 0 && Z.testbit v 1.
Proof.
  change kHandleMustBeOneMask with (Z.ones 2).
  destruct (Z.eqb_spec (v .& Z.ones 2) (Z.ones 2)) as [E|E].
  - assert (forall i, 0 <= i < 2 -> Z.testbit v i = true) as Hb.
    { intros i Hi. assert (Z.testbit (v .& Z.ones 2) i = true) as H by (rewrite E; apply Z.ones_spec_low; lia).
      rewrite Z.land_spec, Z.ones_spec_low, andb_true_r in H by lia. done. }
    by rewrite !Hb by lia.
  - destruct (Z.testbit v 0) eqn:E0, (Z.testbit v 1) eqn:E1; try done. exfalso. apply E. apply Z.bits_inj'. intros i Hi.
    rewrite Z.land_spec. destruct (Z.lt_ge_cases i 2) as [Hlt|Hge]; [|by rewrite Z.ones_spec_high, andb_false_r by lia].
    rewrite Z.ones_spec_low, andb_true_r by lia. assert (i = 0 \/ i = 1) as [-> | ->] by lia; done.
Qed.

(** Decoding a value gives the base value it was made from, and only values made
    from a base value pass the check of the fixed bits. *)
Lemma value_decodes b m :
  mixer_ok m -> 0 <= b < 2 ^ 30 ->
  ((map_handle_to_value b m .& kHandleMustBeOneMask) =? kHandleMustBeOneMask) = true /\
  Z.shiftr (Z.lxor (map_handle_to_value b m) m) kHandleReservedBits = b.
Proof.
  intros [Hm Hm4] Hb. unfold map_handle_to_value. split.
  - rewrite mask_is_3, !Z.lxor_spec, !value_id_bits, !(low_bits_testbit m) by (done || lia). done.
  - rewrite (Z.lxor_comm m), Z.lxor_assoc, Z.lxor_nilpotent, Z.lxor_0_r. apply Z.bits_inj'. intros i Hi.
    change kHandleReservedBits with 2. rewrite Z.shiftr_spec, value_id_bits by lia.
    destruct (Z.ltb_spec (i + 2) 2); [lia|]. f_equal. lia.
Qed.

Lemma value_encodes v m :
  mixer_ok m -> is_u32 v -> ((v .& kHandleMustBeOneMask) =? kHandleMustBeOneMask) = true ->
  0 <= Z.shiftr (Z.lxor v m) kHandleReservedBits < 2 ^ 30 /\
  map_handle_to_value (Z.shiftr (Z.lxor v m) kHandleReservedBits) m = v.
Proof.
  intros [Hm Hm4] Hv Hmask. rewrite mask_is_3 in Hmask. apply andb_true_iff in Hmask as [H0 H1].
  assert (0 <= Z.lxor v m < 2 ^ 32) as Hx.
  { unfold is_u32 in *. split; [apply Z.lxor_nonneg; lia|]. destruct (Z.eq_dec (Z.lxor v m) 0) as [->|Hne]; [lia|].
    apply Z.log2_lt_pow2; [pose proof (proj2 (Z.lxor_nonneg v m)); lia|].
    pose proof (Z.log2_lxor v m ltac:(lia) ltac:(lia)).
    assert (forall z, 0 <= z < 2 ^ 32 -> Z.log2 z < 32) as Hlog.
    { intros z Hz. destruct (Z.eq_dec z 0) as [->|]; [done|]. apply Z.log2_lt_pow2; lia. }
    pose proof (Hlog v ltac:(lia)). pose proof (Hlog m ltac:(lia)). lia. }
  change kHandleReservedBits with 2. assert (0 <= Z.shiftr (Z.lxor v m) 2 < 2 ^ 30) as Hr.
  { rewrite Z.shiftr_div_pow2 by lia. split; [apply Z.div_pos; lia|]. apply Z.div_lt_upper_bound; lia. }
  split; [done|]. unfold map_handle_to_value. apply Z.bits_inj'. intros i Hi. rewrite Z.lxor_spec, value_id_bits by done.
  destruct (Z.ltb_spec i 2) as [Hlt|Hge].
  - rewrite (low_bits_testbit m) by done. assert (i = 0 \/ i = 1) as [-> | ->] by lia; by rewrite ?H0, ?H1.
  - rewrite Z.shiftr_spec by lia. replace (i - 2 + 2) with i by lia. rewrite Z.lxor_spec.
    by destruct (Z.testbit v i), (Z.testbit m i).
Qed.

Lemma filter_neq_id (h : Z) (hs : list Z) : h ∉ hs -> filter (fun x => x <> h) hs = hs.
Proof.
  induction hs as [|x hs IH]; [done|]. intros [Hne Hh]%not_elem_of_cons. rewrite filter_cons_True by congruence.
  by rewrite IH.
Qed.

(** ** Who has which handle *)

Set Default Proof Using "Type".

Section Facts.
Context {A : Type} `{SA : SlotArena A} {LA : SlotArenaLaws A sizeof_Handle kMaxHandleCount}.
Context (is_waitable : Z -> bool) (get_type : Z -> Z).

(** [tauto] would take the functions for implications. *)
Ltac ptauto := try clear get_type; try clear is_waitable; tauto.

Record process_ok (k : Z) (p : Process) : Prop := {
  po_koid : koid p = k;
  po_valid : k <> ZX_KOID_INVALID;
  po_mixer : mixer_ok (handle_rand_ p);
  po_nodup : NoDup (handles_ p);
  po_cursors : forall h, Some h ∈ handle_cursors_ p -> h ∈ handles_ p;
}.

(** The live handles [L] are those in the tables of the processes [ps], which name
    their process, and those of the list [loose], which name none. *)
Record owned (loose : list Z) (L : gset Z) (t : HandleTable A) (ps : gmap Z Process) : Prop := {
  ow_table : table_ok L t;
  ow_ps : forall k p, ps !! k = Some p -> process_ok k p;
  ow_nodup : NoDup loose;
  ow_loose : forall h, h ∈ loose <-> h ∈ L /\ process_id_ (slot h t) = ZX_KOID_INVALID;
  ow_held : forall k p h, ps !! k = Some p -> h ∈ handles_ p <-> h ∈ L /\ process_id_ (slot h t) = k;
  ow_some : forall h, h ∈ L -> process_id_ (slot h t) <> ZX_KOID_INVALID -> is_Some (ps !! process_id_ (slot h t));
  ow_base : 0 < sa_Base (arena_ t);
}.

#[global] Instance owned_perm : Proper (Permutation ==> eq ==> eq ==> eq ==> iff) owned.
Proof.
  assert (forall l l' L t ps, l ≡ₚ l' -> owned l L t ps -> owned l' L t ps) as Hp.
  { intros l l' L t ps Hll [H1 H2 H3 H4 H5 H6 H7]. constructor; [done | done | by rewrite <- Hll | | done | done | done].
    intros h. by rewrite <- Hll. }
  intros l l' Hll L ? <- t ? <- ps ? <-. split; [by apply Hp | exact (Hp _ _ _ _ _ (symmetry Hll))].
Qed.

Lemma owned_does e loose L t ps : owned loose L t ps -> owned loose L (does e t) ps.
Proof.
  intros [[Ha Hl Hf Hs Hm Hc] H2 H3 H4 H5 H6 H7]. by constructor.
Qed.

Lemma owned_nonnull loose L t ps h : owned loose L t ps -> h ∈ L -> h <> 0.
Proof.
  intros Ho Hh. destruct (sa_live L h _ (to_arena _ _ (ow_table _ _ _ _ Ho)) Hh) as (_ & k & Hk & ->).
  pose proof (ow_base _ _ _ _ Ho). unfold sizeof_Handle. lia.
Qed.

(** The arena does not move. *)
Lemma Make_base L d r ok t : sa_ok L (arena_ t) -> sa_Base (arena_ (Make d r ok t).2) = sa_Base (arena_ t).
Proof.
  intros Ha. pose proof (sa_alloc_ok L ok (arena_ t) Ha) as H. unfold Make, Alloc.
  destruct (sa_Alloc ok (arena_ t)) as [[n|] a']; simpl; ptauto.
Qed.

Lemma Delete_base L h t : sa_ok L (arena_ t) -> h ∈ L -> sa_Base (arena_ (Delete is_waitable h t)) = sa_Base (arena_ t).
Proof.
  intros Ha Hh. destruct (sa_free_ok L h (arena_ t) Ha Hh) as (_ & H & _). unfold Delete.
  destruct (dispatcher_ (slot h t)) as [d|]; [|done].
  destruct (is_waitable d); simpl; destruct (Z.eqb _ _); simpl; exact H.
Qed.

Lemma set_process_id_base h pid t : sa_Base (arena_ (set_process_id h pid t)) = sa_Base (arena_ t).
Proof. unfold set_process_id. by destruct (dispatcher_ (slot h t)). Qed.

(** A new handle is loose. *)
Lemma owned_new loose L t ps h t' s :
  owned loose L t ps -> (h ∉ L) -> table_ok ({[h]} ∪ L) t' -> sa_Base (arena_ t') = sa_Base (arena_ t) -> slot h t' = s -> process_id_ s = ZX_KOID_INVALID ->
  (forall h', h' <> h -> slot h' t' = slot h' t) -> owned (h :: loose) ({[h]} ∪ L) t' ps.
Proof.
  intros [H1 H2 H3 H4 H5 H6 H7] Hh Ht Hb Es Ep Eo.
  assert (forall h', h' ∈ L -> slot h' t' = slot h' t) as Eo' by (intros h' Hh'; apply Eo; by intros ->).
  constructor; [done | done | | | | | by rewrite Hb].
  - constructor; [|done]. by intros [? _]%H4.
  - intros h'. rewrite elem_of_cons, elem_of_union, elem_of_singleton, H4. split.
    + intros [->|[Hl Hp]]; [by rewrite Es; auto | rewrite Eo' by done; auto].
    + intros [[->|Hl] Hp]; [auto | rewrite Eo' in Hp by done; auto].
  - intros k p h' Hk. rewrite (H5 k p h' Hk), elem_of_union, elem_of_singleton. split.
    + intros [Hl Hp]. rewrite Eo' by done. auto.
    + intros [[->|Hl] Hp]; [|rewrite Eo' in Hp by done; auto].
      exfalso. apply (po_valid _ _ (H2 k p Hk)). by rewrite <- Hp, Es.
  - intros h'. rewrite elem_of_union, elem_of_singleton. intros [->|Hl] Hp; [by rewrite Es in Hp | rewrite Eo' in * by done; auto].
Qed.

Lemma owned_make loose L t ps d r ok : owned loose L t ps ->
  match Make d r ok t with
  | (Some h, t') => owned (h :: loose) ({[h]} ∪ L) t' ps /\ rights_ (slot h t') = r /\ dispatcher_ (slot h t') = Some d /\ (h ∉ L)
  | (None, t') => owned loose L t' ps
  end /\ (forall h', h' ∈ L -> slot h' (Make d r ok t).2 = slot h' t).
Proof.
  intros Ho. pose proof (Make_ok L d r ok t (ow_table _ _ _ _ Ho)) as H.
  pose proof (Make_base L d r ok t (to_arena _ _ (ow_table _ _ _ _ Ho))) as Hb. destruct (Make d r ok t) as [[h|] t'].
  - destruct H as (Hh & Ht & Es & Eo). split.
    + rewrite Es. split_and!; try done. by eapply owned_new; [done | done | done | done | exact Es | | exact Eo].
    + intros h' Hh'. apply Eo. by intros ->.
  - destruct H as [Ht Eo]. destruct Ho as [H1 H2 H3 H4 H5 H6 H7]. split; [|auto].
    simpl in Hb. constructor; try done; try (intros *; rewrite ?Eo; auto). by rewrite Hb.
Qed.

Lemma owned_dup loose L t ps s r ok : owned loose L t ps -> s ∈ L ->
  match Dup s r ok t with
  | (Some h, t') => owned (h :: loose) ({[h]} ∪ L) t' ps /\ rights_ (slot h t') = r /\
                    dispatcher_ (slot h t') = dispatcher_ (slot s t) /\ (h ∉ L)
  | (None, t') => owned loose L t' ps
  end /\ (forall h', h' ∈ L -> slot h' (Dup s r ok t).2 = slot h' t).
Proof.
  intros Ho Hs. unfold Dup. destruct (to_live _ _ (ow_table _ _ _ _ Ho) s Hs) as [d ->]. by apply owned_make.
Qed.

(** Deleting a loose handle. *)
Lemma owned_delete h loose L t ps : owned (h :: loose) L t ps ->
  owned loose (L ∖ {[h]}) (Delete is_waitable h t) ps /\ (forall h', h' <> h -> slot h' (Delete is_waitable h t) = slot h' t).
Proof.
  intros [H1 H2 H3 H4 H5 H6 H7]. destruct (proj1 (H4 h) (list_elem_of_here _ _)) as [Hh Hp].
  destruct (to_live _ _ H1 h Hh) as [d Hd]. destruct (Delete_ok is_waitable L h d t H1 Hh Hd Hp) as (Ht & Eo & _).
  apply NoDup_cons in H3 as [Hhl H3]. split; [|done].
  constructor; [done | done | done | | | | by rewrite (Delete_base L h t (to_arena _ _ H1) Hh)].
  - intros h'. rewrite elem_of_difference, elem_of_singleton. specialize (H4 h'). rewrite elem_of_cons in H4. split.
    + intros Hin. assert (h' <> h) as Hne by (by intros ->). rewrite Eo by done. ptauto.
    + intros [[Hl Hne] Hp']. rewrite Eo in Hp' by done. ptauto.
  - intros k p h' Hk. rewrite (H5 k p h' Hk), elem_of_difference, elem_of_singleton. split.
    + intros [Hl Hp']. assert (h' <> h) as Hne by (intros ->; apply (po_valid _ _ (H2 k p Hk)); by rewrite <- Hp').
      rewrite Eo by done. auto.
    + intros [[Hl Hne] Hp']. rewrite Eo in Hp' by done. auto.
  - intros h'. rewrite elem_of_difference, elem_of_singleton. intros [Hl Hne] Hp'. rewrite Eo in * by done. auto.
Qed.

(** Moving a handle between processes changes only its [process_id_]. *)
Definition same_but_owner (t t' : HandleTable A) : Prop :=
  forall h, rights_ (slot h t') = rights_ (slot h t) /\ dispatcher_ (slot h t') = dispatcher_ (slot h t) /\
            base_value_ (slot h t') = base_value_ (slot h t).

Lemma next_element_in h x hs : NoDup hs -> next_element h hs = Some x -> x ∈ hs /\ x <> h.
Proof.
  induction hs as [|y hs IH]; simpl; [done|]. intros [Hy Hn]%NoDup_cons. rewrite elem_of_cons.
  destruct (Z.eqb_spec y h) as [->|Hne].
  - destruct hs as [|z hs]; simpl; [done|]. intros [= <-]. split; [right; apply list_elem_of_here|].
    intros ->. apply Hy, list_elem_of_here.
  - intros E. destruct (IH Hn E). auto.
Qed.

(** What remains of a table without a handle; no cursor is left at the handle. *)
Lemma remove_process_ok k h p : process_ok k p ->
  process_ok k (with_handles (filter (fun x => x <> h) (handles_ p)) (map (AdvanceIf h (handles_ p)) (handle_cursors_ p)) p).
Proof.
  intros [H1 H2 H3 H4 H5]. constructor; simpl; try done; [by apply NoDup_filter|].
  intros x Hx. apply list_elem_of_filter.
  apply list_elem_of_In, in_map_iff in Hx as (c & Ec & Hc%list_elem_of_In). destruct c as [y|]; simpl in Ec; [|done].
  destruct (Z.eqb_spec y h) as [E|Hne].
  - rewrite E in Ec. apply next_element_in in Ec as [? ?]; done.
  - injection Ec as <-. auto.
Qed.

Lemma owned_remove loose L t ps k p h : owned loose L t ps -> ps !! k = Some p -> h ∈ handles_ p ->
  owned (h :: loose) L (RemoveHandleLocked h t p).1 (<[k := (RemoveHandleLocked h t p).2]> ps) /\
  same_but_owner t (RemoveHandleLocked h t p).1.
Proof.
  intros [H1 H2 H3 H4 H5 H6 H7] Hk Hh. destruct (proj1 (H5 k p h Hk) Hh) as [HL Hp].
  destruct (set_process_id_ok L h ZX_KOID_INVALID t H1 HL) as (Ht & Es & Eo). simpl. set (t' := set_process_id _ _ _) in *.
  split; [|intros h'; destruct (decide (h' = h)) as [->|Hne]; [by rewrite Es | by rewrite Eo]].
  pose proof (po_valid _ _ (H2 k p Hk)) as Hk0.
  constructor; [done | | | | | | unfold t'; by rewrite set_process_id_base].
  - intros k' q. rewrite lookup_insert_Some. intros [[<- <-]|[? ?]]; [apply remove_process_ok|]; auto.
  - constructor; [|done]. intros [_ E]%H4. by rewrite Hp in E.
  - intros h'. rewrite elem_of_cons, H4. destruct (decide (h' = h)) as [->|Hne]; [rewrite Es; ptauto | rewrite Eo by done; ptauto].
  - intros k' q h'. rewrite lookup_insert_Some. intros [[<- <-]|[Hkk Hq]]; simpl.
    + rewrite list_elem_of_filter, (H5 k p h' Hk).
      destruct (decide (h' = h)) as [->|Hne]; [rewrite Es; simpl; split; [ptauto | intros [_ E]; by destruct Hk0] | rewrite Eo by done; ptauto].
    + rewrite (H5 k' q h' Hq). destruct (decide (h' = h)) as [->|Hne]; [|by rewrite Eo].
      rewrite Es, Hp. simpl. pose proof (po_valid _ _ (H2 k' q Hq)). split; [intros [_ ?]; congruence | intros [_ ?]; congruence].
  - intros h' Hl'. destruct (decide (h' = h)) as [->|Hne]; [by rewrite Es | rewrite Eo by done]. intros Hp'.
    rewrite lookup_insert_is_Some. destruct (decide (k = process_id_ (slot h' t))); [by left | right; auto].
Qed.

Lemma owned_add loose L t ps k p h : owned (h :: loose) L t ps -> ps !! k = Some p ->
  owned loose L (AddHandle h t p).1 (<[k := (AddHandle h t p).2]> ps) /\ same_but_owner t (AddHandle h t p).1 /\
  process_id_ (slot h (AddHandle h t p).1) = k.
Proof.
  intros [H1 H2 H3 H4 H5 H6 H7] Hk. destruct (proj1 (H4 h) (list_elem_of_here _ _)) as [HL Hp].
  destruct (H2 k p Hk) as [Hkoid Hk0 Hm Hn Hc].
  destruct (set_process_id_ok L h (koid p) t H1 HL) as (Ht & Es & Eo). simpl. set (t' := set_process_id _ _ _) in *.
  rewrite Hkoid in Es.
  split; [|split; [intros h'; destruct (decide (h' = h)) as [->|Hne]; [by rewrite Es | by rewrite Eo] | by rewrite Es]].
  assert (h ∉ handles_ p) as Hnp by (intros [_ E]%(H5 k p h Hk); congruence). apply NoDup_cons in H3 as [Hhl H3].
  constructor; [done | | done | | | | unfold t'; by rewrite set_process_id_base].
  - intros k' q. rewrite lookup_insert_Some. intros [[<- <-]|[? ?]]; [|auto]. constructor; simpl; try done.
    + by constructor.
    + intros x Hx. right. auto.
  - intros h'. specialize (H4 h'). rewrite elem_of_cons in H4.
    destruct (decide (h' = h)) as [->|Hne]; [rewrite Es; simpl; split; [done | intros [_ ?]; congruence] | rewrite Eo by done; ptauto].
  - intros k' q h'. rewrite lookup_insert_Some. intros [[<- <-]|[Hkk Hq]]; simpl.
    + rewrite elem_of_cons, (H5 k p h' Hk). destruct (decide (h' = h)) as [->|Hne]; [rewrite Es; simpl; ptauto | rewrite Eo by done; ptauto].
    + rewrite (H5 k' q h' Hq). destruct (decide (h' = h)) as [->|Hne]; [|by rewrite Eo].
      rewrite Es, Hp. simpl. pose proof (po_valid _ _ (H2 k' q Hq)). split; intros [_ ?]; congruence.
  - intros h' Hl'. rewrite lookup_insert_is_Some. destruct (decide (h' = h)) as [->|Hne]; [by rewrite Es; auto | rewrite Eo by done]. intros Hp'.
    destruct (decide (k = process_id_ (slot h' t))); [by left | right; auto].
Qed.

(** ** Lookup *)

Lemma lookup_sound loose L t ps k p v sp h t' :
  owned loose L t ps -> ps !! k = Some p -> GetHandleLocked v sp t p = (Some h, t') ->
  t' = t /\ h ∈ handles_ p /\ h ∈ L.
Proof.
  intros [H1 H2 H3 H4 H5 H6 H7] Hk. unfold GetHandleLocked. destruct (map_value_to_handle v _ t) as [h0|]; [|done].
  destruct (Z.eqb_spec (process_id_ (slot h0 t)) (koid p)) as [Ep|]; [|done]. intros [= <- <-].
  destruct (H2 k p Hk) as [Hkoid Hk0 _ _ _]. rewrite Hkoid in Ep. rewrite (H5 k p h0 Hk).
  assert (h0 ∈ L) as HL; [|auto]. destruct (decide (h0 ∈ L)) as [|Hn]; [done|].
  destruct (to_free _ _ H1 h0 Hn). congruence.
Qed.

Lemma lookup_other loose L t ps k p v sp t' :
  owned loose L t ps -> ps !! k = Some p -> GetHandleLocked v sp t p = (None, t') ->
  owned loose L t' ps /\ forall h, slot h t' = slot h t.
Proof.
  intros Ho Hk. unfold GetHandleLocked. destruct (map_value_to_handle v _ t) as [h0|]; [destruct (Z.eqb _ _); [done|]|];
    intros [= <-]; destruct sp; split; auto using owned_does.
Qed.

(** A handle's value means the handle. *)
Lemma lookup_value loose L t ps k p sp h :
  owned loose L t ps -> ps !! k = Some p -> h ∈ handles_ p -> GetHandleLocked (MapHandleToValue h t p) sp t p = (Some h, t).
Proof.
  intros Ho Hk Hh. pose proof (ow_ps _ _ _ _ Ho k p Hk) as [Hkoid Hk0 Hm Hn _].
  destruct (proj1 (ow_held _ _ _ _ Ho k p h Hk) Hh) as [HL Hp].
  pose proof (live_value_range L h t (ow_table _ _ _ _ Ho) HL) as Hr.
  destruct (value_decodes _ _ Hm Hr) as [Em Ed]. unfold GetHandleLocked, map_value_to_handle, MapHandleToValue.
  rewrite Em, Ed, (FromU32_live L h t (ow_table _ _ _ _ Ho) HL). simpl. by rewrite Hp, Hkoid, Z.eqb_refl.
Qed.

(** No other value does. *)
Lemma lookup_only loose L t ps k p v sp h :
  owned loose L t ps -> ps !! k = Some p -> is_u32 v -> GetHandleLocked v sp t p = (Some h, t) ->
  h ∈ handles_ p /\ MapHandleToValue h t p = v.
Proof.
  intros Ho Hk Hv E. pose proof (ow_ps _ _ _ _ Ho k p Hk) as [Hkoid Hk0 Hm Hn _].
  destruct (lookup_sound _ _ _ _ _ _ _ _ _ _ Ho Hk E) as (_ & Hh & HL). split; [done|].
  unfold GetHandleLocked, map_value_to_handle in E. destruct (Z.eqb (v .& _) _) eqn:Em; simpl in E; [|done].
  destruct (FromU32 _ t) as [h0|] eqn:EF; [|done]. destruct (Z.eqb _ _) in E; [|done]. injection E as ->.
  unfold MapHandleToValue. rewrite (FromU32_value _ _ _ EF). by apply value_encodes.
Qed.

(** ** Moving handles and authority *)

(** Every handle after is to an object, and has rights, that some handle before was
    to and had. *)
Definition attenuates (L : gset Z) (t : HandleTable A) (L' : gset Z) (t' : HandleTable A) : Prop :=
  forall h', h' ∈ L' -> exists h, h ∈ L /\ dispatcher_ (slot h t) = dispatcher_ (slot h' t') /\
    rights_ (slot h t) .& rights_ (slot h' t') = rights_ (slot h' t').

Record Holders := mkHolders { ho_loose : list Z; ho_table : HandleTable A; ho_ps : gmap Z Process }.

Definition held (x : Holders) (L : gset Z) : Prop := owned (ho_loose x) L (ho_table x) (ho_ps x).

(** The table may go from [x] to [y]: it stays well formed and authority is not
    amplified. *)
Definition moves (x y : Holders) : Prop :=
  forall L, held x L -> exists L', held y L' /\ attenuates L (ho_table x) L' (ho_table y).

Lemma attenuates_kept (L L' : gset Z) (t t' : HandleTable A) :
  L' ⊆ L -> (forall h, h ∈ L' -> rights_ (slot h t') = rights_ (slot h t) /\ dispatcher_ (slot h t') = dispatcher_ (slot h t)) ->
  attenuates L t L' t'.
Proof.
  intros Hs Hk h Hh. destruct (Hk h Hh) as [-> ->]. exists h. split_and!; [by apply Hs | done | apply Z.land_diag].
Qed.

#[global] Instance moves_preorder : PreOrder moves.
Proof.
  split.
  - intros x L Hx. exists L. split; [done | by apply attenuates_kept].
  - intros x y z Hxy Hyz L Hx. destruct (Hxy L Hx) as (L1 & H1 & A1). destruct (Hyz L1 H1) as (L2 & H2 & A2).
    exists L2. split; [done|]. intros h2 Hh2. destruct (A2 h2 Hh2) as (h1 & Hh1 & D1 & R1).
    destruct (A1 h1 Hh1) as (h & Hh & D & R). exists h. split_and!; [done | congruence |].
    by rewrite <- R1, Z.land_assoc, R.
Qed.

Lemma moves_when x y : (forall L, held x L -> moves x y) -> moves x y.
Proof. intros H L Hx. by apply (H L). Qed.

Lemma moves_perm l l' t ps : l ≡ₚ l' -> moves (mkHolders l t ps) (mkHolders l' t ps).
Proof.
  intros Hl L Hx. exists L. split; [|by apply attenuates_kept]. unfold held in *. simpl in *. by rewrite <- Hl.
Qed.

Lemma moves_delete h l t ps : moves (mkHolders (h :: l) t ps) (mkHolders l (Delete is_waitable h t) ps).
Proof.
  intros L Hx. destruct (owned_delete _ _ _ _ _ Hx) as [Ho Eo]. exists (L ∖ {[h]}). split; [done|].
  apply attenuates_kept; [by intros x [? _]%elem_of_difference|].
  intros x [_ Hne%not_elem_of_singleton]%elem_of_difference. simpl. by rewrite Eo.
Qed.

(** The handles a list of raw handle pointers holds. *)
Definition nonnull (hs : list Z) : list Z := filter (fun h => h <> 0) hs.

(** Deleting what a list of raw pointers holds. *)
Lemma moves_delete_nonnull hs l t ps :
  moves (mkHolders (nonnull hs ++ l) t ps)
        (mkHolders l (foldl (fun t h => if h =? 0 then t else Delete is_waitable h t) t hs) ps).
Proof.
  revert t. induction hs as [|h hs IH]; intros t; simpl; [reflexivity|].
  destruct (Z.eqb_spec h 0) as [->|Hne].
  - unfold nonnull. rewrite filter_cons_False by ptauto. apply IH.
  - unfold nonnull. rewrite filter_cons_True by done. simpl. etrans; [apply moves_delete | apply IH].
Qed.

(** One process at work; the others are [ps]. *)
Section Here.
Context (k : Z) (ps : gmap Z Process).
Implicit Types (l : list Z) (t : HandleTable A) (p : Process).

Definition here l t p : Holders := mkHolders l t (<[k := p]> ps).

Lemma here_self p : (<[k := p]> ps) !! k = Some p.
Proof. apply lookup_insert_eq. Qed.

Lemma here_does e l t p : moves (here l t p) (here l (does e t) p).
Proof. intros L Hx. exists L. split; [by apply owned_does | by apply attenuates_kept]. Qed.

Lemma here_found v sp h l t t' p L :
  held (here l t p) L -> GetHandleLocked v sp t p = (Some h, t') -> t' = t /\ h ∈ handles_ p /\ h ∈ L.
Proof. intros Hx E. by eapply lookup_sound; [exact Hx | apply here_self | exact E]. Qed.

Lemma found_same v sp h t t' p : GetHandleLocked v sp t p = (Some h, t') -> t' = t.
Proof. unfold GetHandleLocked. repeat case_match; intros; by simplify_eq. Qed.

Lemma here_not_found v sp l t t' p : GetHandleLocked v sp t p = (None, t') -> moves (here l t p) (here l t' p).
Proof.
  unfold GetHandleLocked. destruct (map_value_to_handle v _ t); [destruct (Z.eqb _ _); [done|]|];
    intros [= <-]; destruct sp; (reflexivity || apply here_does).
Qed.

Lemma here_lookup v sp o l t t' p : GetHandleLocked v sp t p = (o, t') -> moves (here l t p) (here l t' p).
Proof.
  destruct o as [h|]; [|apply here_not_found]. intros E. apply moves_when. intros L Hx.
  by destruct (here_found _ _ _ _ _ _ _ _ Hx E) as [-> _].
Qed.

Lemma here_delete h l t p : moves (here (h :: l) t p) (here l (Delete is_waitable h t) p).
Proof. apply moves_delete. Qed.

Lemma here_remove h l t p : (forall L, held (here l t p) L -> h ∈ handles_ p) ->
  moves (here l t p) (here (h :: l) (RemoveHandleLocked h t p).1 (RemoveHandleLocked h t p).2).
Proof.
  intros Hh L Hx. destruct (owned_remove _ _ _ _ k p h Hx (here_self p) (Hh L Hx)) as [Ho Hs]. exists L.
  split; [unfold here, held in *; simpl in *; by rewrite insert_insert_eq in Ho|].
  apply attenuates_kept; [done|]. intros x _. by destruct (Hs x) as (? & ? & _).
Qed.

Lemma here_add h l t p : moves (here (h :: l) t p) (here l (AddHandle h t p).1 (AddHandle h t p).2).
Proof.
  intros L Hx. destruct (owned_add _ _ _ _ k p h Hx (here_self p)) as (Ho & Hs & _). exists L.
  split; [unfold here, held in *; simpl in *; by rewrite insert_insert_eq in Ho|].
  apply attenuates_kept; [done|]. intros x _. by destruct (Hs x) as (? & ? & _).
Qed.

(** Duplicating a handle with some of its rights. *)
Lemma here_dup s r ok l t p : (forall L, held (here l t p) L -> s ∈ L) -> rights_ (slot s t) .& r = r ->
  moves (here l t p) (here (option_list (Dup s r ok t).1 ++ l) (Dup s r ok t).2 p).
Proof.
  intros Hs Hr L Hx. destruct (owned_dup _ _ _ _ s r ok Hx (Hs L Hx)) as [Hd Ek].
  simpl in *. destruct (Dup s r ok t) as [[h|] t']; simpl in *.
  - destruct Hd as (Ho & Er & Ed & Hn). exists ({[h]} ∪ L). split; [done|]. simpl. intros h'.
    rewrite elem_of_union, elem_of_singleton. intros [->|Hh'].
    + exists s. rewrite Er, Ed. auto.
    + exists h'. rewrite Ek by done. split_and!; [done | done | apply Z.land_diag].
  - exists L. split; [done|]. apply attenuates_kept; [done|]. intros x Hxl. simpl. by rewrite Ek.
Qed.

(** ** The operations *)

Lemma here_RemoveHandle v o l t t' p p' : RemoveHandle v t p = (o, t', p') ->
  moves (here l t p) (here (option_list o ++ l) t' p').
Proof.
  unfold RemoveHandle. destruct (GetHandleLocked v false t p) as [[h|] t1] eqn:E; [|intros [= <- <- <-]; by eapply here_lookup].
  intros [= <- <- <-]. apply moves_when. intros L Hx. destruct (here_found _ _ _ _ _ _ _ _ Hx E) as (-> & Hh & _).
  by apply here_remove.
Qed.

Lemma here_close_found v h l t t' p p' : RemoveHandle v t p = (Some h, t', p') ->
  moves (here l t p) (here l (Delete is_waitable h t') p').
Proof. intros E. etrans; [by eapply here_RemoveHandle | apply here_delete]. Qed.

Lemma here_RemoveHandles vs st l t p :
  let r := RemoveHandles is_waitable vs st t p in moves (here l t p) (here l r.1.2 r.2).
Proof.
  revert st t p. induction vs as [|v vs IH]; intros st t p; simpl; [reflexivity|].
  destruct (v =? ZX_HANDLE_INVALID); [apply IH|]. destruct (RemoveHandle v t p) as [[[h|] t1] p1] eqn:E.
  - etrans; [by eapply here_close_found | apply IH].
  - etrans; [exact (here_RemoveHandle _ _ _ _ _ _ _ E) | apply IH].
Qed.

Lemma here_sys_handle_close v l t p :
  let r := sys_handle_close is_waitable v t p in moves (here l t p) (here l r.1.2 r.2).
Proof.
  unfold sys_handle_close. destruct (v =? ZX_HANDLE_INVALID); [reflexivity|].
  destruct (RemoveHandle v t p) as [[[h|] t1] p1] eqn:E; simpl.
  - by eapply here_close_found.
  - exact (here_RemoveHandle _ _ _ _ _ _ _ E).
Qed.

Lemma here_copyout h ok l t p : let r := copyout is_waitable h ok t p in moves (here (h :: l) t p) (here l r.1.2 r.2).
Proof. unfold copyout. destruct ok; simpl; [apply here_add | apply here_delete]. Qed.

(** Removing a handle and deleting it. *)
Lemma here_discard h l t p : (forall L, held (here l t p) L -> h ∈ handles_ p) ->
  moves (here l t p) (here l (Delete is_waitable h (RemoveHandleLocked h t p).1) (RemoveHandleLocked h t p).2).
Proof. intros Hh. etrans; [by apply here_remove | apply here_delete]. Qed.

Lemma here_kept h l t p L : held (here l t p) L -> h ∈ handles_ p -> h ∈ L.
Proof. intros Hx Hh. by apply (ow_held _ _ _ _ Hx k p h (here_self p)). Qed.

(** Duplicating a handle of the process, and discarding it if [gone]. *)
Lemma here_dup_from s r ok (gone : bool) l t p :
  (forall L, held (here l t p) L -> s ∈ handles_ p) -> rights_ (slot s t) .& r = r ->
  let t1 := (Dup s r ok t).2 in
  let '(t', p') := if gone then (Delete is_waitable s (RemoveHandleLocked s t1 p).1, (RemoveHandleLocked s t1 p).2) else (t1, p) in
  moves (here l t p) (here (option_list (Dup s r ok t).1 ++ l) t' p').
Proof.
  intros Hs Hr t1. assert (moves (here l t p) (here (option_list (Dup s r ok t).1 ++ l) t1 p)) as H1.
  { apply here_dup; [|done]. intros L Hx. by eapply here_kept; [exact Hx | apply (Hs L)]. }
  destruct gone; [|done]. apply moves_when. intros L Hx. etrans; [exact H1|]. apply here_discard. intros _ _. by apply (Hs L).
Qed.

Lemma same_rights_sub (s : Handle) r : negb (r =? ZX_RIGHT_SAME_RIGHTS) && negb ((rights_ s .& r) =? r) = false ->
  rights_ s .& (if r =? ZX_RIGHT_SAME_RIGHTS then rights_ s else r) = (if r =? ZX_RIGHT_SAME_RIGHTS then rights_ s else r).
Proof. destruct (r =? ZX_RIGHT_SAME_RIGHTS); simpl; [intros _; apply Z.land_diag|]. destruct (Z.eqb_spec (rights_ s .& r) r); done. Qed.

Lemma here_dup_replace is_replace v r ok cok l t p :
  let x := handle_dup_replace is_waitable is_replace v r ok cok t p in moves (here l t p) (here l x.1.2 x.2).
Proof.
  unfold handle_dup_replace. destruct (GetHandleLocked v false t p) as [[s|] t1] eqn:E; [|by eapply here_lookup].
  apply moves_when. intros L Hx. destruct (here_found _ _ _ _ _ _ _ _ Hx E) as (-> & Hs & HL).
  destruct (negb is_replace && _); [reflexivity|].
  destruct (negb (r =? ZX_RIGHT_SAME_RIGHTS) && _) eqn:Er.
  { destruct is_replace; [|reflexivity]. simpl. by apply here_discard. }
  apply same_rights_sub in Er. set (r' := if r =? _ then _ else _) in *.
  pose proof (here_dup_from s r' ok is_replace l t p (fun _ _ => Hs) Er) as Hm.
  destruct (Dup s r' ok t) as [out t2]. destruct is_replace; simpl in *.
  - etrans; [exact Hm|]. destruct out as [h|]; [apply here_copyout | reflexivity].
  - etrans; [exact Hm|]. destruct out as [h|]; [apply here_copyout | reflexivity].
Qed.

Lemma nonnull_default o l t p L : held (here (option_list o ++ l) t p) L -> nonnull [default 0 o] = option_list o.
Proof.
  intros Hx. destruct o as [h|]; [|done]. unfold nonnull. rewrite filter_cons_True; [done|]. simpl.
  eapply owned_nonnull; [exact Hx|]. apply (ow_loose _ _ _ _ Hx). apply list_elem_of_here.
Qed.

Lemma moves_nonnull x o l t p : moves x (here (option_list o ++ l) t p) -> moves x (here (nonnull [default 0 o] ++ l) t p).
Proof.
  intros Hm L Hx. destruct (Hm L Hx) as (L' & Hy & Ha). exists L'. split; [|done]. by rewrite (nonnull_default o l t p L' Hy).
Qed.

Lemma here_message c v l t p :
  let '(st, h, t', p') := get_handle_for_message_locked get_type c v t p in moves (here l t p) (here (nonnull [h] ++ l) t' p').
Proof.
  unfold get_handle_for_message_locked. destruct (GetHandleLocked v false t p) as [o t1] eqn:E.
  destruct (is_err _); [by eapply here_lookup|]. destruct o as [s|]; [|by eapply here_lookup].
  apply moves_when. intros L Hx. destruct (here_found _ _ _ _ _ _ _ _ Hx E) as (-> & Hs & HL).
  apply (moves_nonnull _ (Some s)). by apply here_remove.
Qed.

Lemma checks_rights s c op r ty : is_err (handle_checks_locked get_type (Some s) c op r ty) = false ->
  negb (r =? ZX_RIGHT_SAME_RIGHTS) && negb ((rights_ s .& r) =? r) = false.
Proof. simpl. repeat case_match; try done. Qed.

Lemma here_message_etc c d ok l t p :
  let '(st, h, d', t', p') := get_handle_for_message_etc_locked is_waitable get_type c d ok t p in
  moves (here l t p) (here (nonnull [h] ++ l) t' p').
Proof.
  unfold get_handle_for_message_etc_locked. destruct (GetHandleLocked (hd_handle d) false t p) as [o t1] eqn:E.
  destruct (is_err _) eqn:Ec; [by eapply here_lookup|]. destruct o as [s|]; [|by eapply here_lookup].
  apply checks_rights, same_rights_sub in Ec.
  pose proof (found_same _ _ _ _ _ _ E) as ->.
  assert (forall L, held (here l t p) L -> s ∈ handles_ p) as Hs by (intros L Hx; by eapply here_found).
  destruct ((hd_operation d =? ZX_HANDLE_OP_MOVE) && _); [apply (moves_nonnull _ (Some s)); by apply here_remove|].
  set (r := if hd_rights d =? _ then _ else _) in *.
  pose proof (here_dup_from s r ok (negb (hd_operation d =? ZX_HANDLE_OP_DUPLICATE)) l t p Hs Ec) as Hm.
  destruct (Dup s r ok t) as [out t2]. destruct (negb _); by apply moves_nonnull.
Qed.

(** The loop of [RemoveUserHandles] ends within its fuel. *)
Lemma here_remove_chunks {T} consume (uh : Z -> Z -> zx_status_t + T) n fuel off hs st l t p :
  n - off <= Z.of_nat fuel * MessagePacket.kMaxMessageHandles ->
  exists st' t' p', remove_chunks is_waitable fuel consume uh n off hs st t p = Some (st', t', p') /\
    moves (here l t p) (here l t' p').
Proof.
  revert off hs st t p. induction fuel as [|fuel IH]; intros off hs st t p Hn; simpl.
  { destruct (Z.ltb_spec off n); [lia|]. simpl. by exists st, t, p. }
  destruct (Z.ltb_spec off n) as [Hlt|Hge]; simpl; [|by exists st, t, p].
  destruct (consume _ hs) as [st1 hs1]. destruct (is_err st1); [by exists st1, t, p|].
  set (c := Z.min _ _). pose proof (here_RemoveHandles (take (Z.to_nat c) hs1) ZX_OK l t p) as Hm. simpl in Hm.
  destruct (RemoveHandles is_waitable (take (Z.to_nat c) hs1) ZX_OK t p) as [[st2 t2] p2].
  destruct (IH (off + c) hs1 st2 t2 p2) as (st' & t' & p' & E & Hm').
  - unfold MessagePacket.kMaxMessageHandles in *. lia.
  - exists st', t', p'. split; [done | by etrans].
Qed.

Lemma here_RemoveUserHandles {T} consume (uh : Z -> Z -> zx_status_t + T) n hs l t p :
  exists st' t' p', RemoveUserHandles is_waitable consume uh n hs t p = Some (st', t', p') /\
    moves (here l t p) (here l t' p').
Proof.
  apply here_remove_chunks. unfold MessagePacket.kMaxMessageHandles in *.
  pose proof (Z.div_mod n 64 ltac:(done)). pose proof (Z.mod_pos_bound n 64 ltac:(done)). lia.
Qed.

(** Moving the cursors to where they may be. *)
Lemma here_cursors cs l t p : (forall h, Some h ∈ cs -> h ∈ handles_ p) -> moves (here l t p) (here l t (with_handles (handles_ p) cs p)).
Proof.
  intros Hc L Hx. exists L. split; [|by apply attenuates_kept]. destruct Hx as [H1 H2 H3 H4 H5 H6 H7]. simpl in *.
  constructor; simpl; try done.
  - intros k' q. rewrite lookup_insert_Some. intros [[<- <-]|[Hne Hq]].
    + destruct (H2 k p (here_self p)). by constructor.
    + apply H2. by rewrite lookup_insert_ne.
  - intros k' q h. rewrite lookup_insert_Some. intros [[<- <-]|[Hne Hq]]; simpl.
    + apply H5, here_self.
    + apply H5. by rewrite lookup_insert_ne.
  - intros h Hh Hp. specialize (H6 h Hh Hp). by rewrite lookup_insert_is_Some in *.
Qed.

Definition no_cursors (p : Process) : list (option Z) := map (fun _ => None) (handle_cursors_ p).

Lemma no_cursors_in h p : Some h ∉ no_cursors p.
Proof. intros Hh%list_elem_of_In. apply in_map_iff in Hh as (x & Ex & _). done. Qed.

Lemma here_set_all hs cs l t p : (forall h, Some h ∉ cs) ->
  moves (here l t (with_handles hs cs p))
        (here (rev hs ++ l) (foldl (fun t h => set_process_id h ZX_KOID_INVALID t) t hs) (with_handles [] cs p)).
Proof.
  intros Hc. revert l t. induction hs as [|h hs IH]; intros l t; simpl; [reflexivity|].
  apply moves_when. intros L Hx. assert (NoDup (h :: hs)) as [Hh Hn]%NoDup_cons.
  { apply (po_nodup k (with_handles (h :: hs) cs p)). by apply (ow_ps _ _ _ _ Hx), here_self. }
  pose proof (here_remove h l t (with_handles (h :: hs) cs p) (fun _ _ => list_elem_of_here _ _)) as Hm.
  assert ((RemoveHandleLocked h t (with_handles (h :: hs) cs p)).2 = with_handles hs cs p) as E.
  { unfold RemoveHandleLocked, with_handles. cbn [snd koid handle_rand_ handles_ handle_cursors_]. f_equal.
    - rewrite filter_cons_False by ptauto. by apply filter_neq_id.
    - rewrite (map_ext_in _ id); [apply map_id|]. intros [x|] Hx'; [|done]. by apply list_elem_of_In, Hc in Hx'. }
  rewrite E in Hm. etrans; [exact Hm|]. etrans; [apply IH|]. simpl.
  apply moves_perm. by rewrite <- app_assoc.
Qed.

Lemma here_delete_all hs l t p : moves (here (hs ++ l) t p) (here l (foldl (fun t h => Delete is_waitable h t) t hs) p).
Proof.
  revert t. induction hs as [|h hs IH]; intros t; simpl; [reflexivity|]. etrans; [apply here_delete | apply IH].
Qed.

Lemma here_clear_handles l t p :
  let r := clear_handles is_waitable t p in moves (here l t p) (here l r.1 r.2).
Proof.
  unfold clear_handles. simpl. fold (no_cursors p).
  etrans; [apply (here_cursors (no_cursors p)); intros h Hh; by apply no_cursors_in in Hh|].
  etrans; [apply here_set_all; intros h; apply no_cursors_in|]. simpl.
  etrans; [apply moves_perm, (Permutation_app_tail _ (symmetry (Permutation_rev (handles_ p))))|]. apply here_delete_all.
Qed.

Lemma here_delete_nonnull hs l t p :
  moves (here (nonnull hs ++ l) t p) (here l (foldl (fun t h => if h =? 0 then t else Delete is_waitable h t) t hs) p).
Proof. apply moves_delete_nonnull. Qed.

End Here.

End Facts.
