(* ===== verification/ChannelSyscalls.v ===== *)
(** * Channel system calls

    [syscalls/channel.cc]: how handles travel between processes in messages.  The
    calls work on the handle table, the calling process, the free pages, the
    channels and user memory.  The channels are those of an interface; the kernel
    object behind it is [ChannelDispatcher].  Results of copies of handle arrays
    and of sizes are arguments.  A call gives [None] where the kernel would fault. *)

From S2P Require Import Prelude Zx UserCopy SlotArena Handle MessagePacket ProcessHandles.
Import Handle.

Definition ZX_OBJ_TYPE_CHANNEL : Z := 4.
Definition ZX_CHANNEL_READ_MAY_DISCARD : Z := 1.

Record zx_handle_info_t := mkHandleInfo {
  hi_handle : Z;
  hi_type : Z;
  hi_rights : Z;
  hi_unused : Z;
}.

Record zx_channel_call_args_t := mkCallArgs {
  wr_bytes : user_in_ptr;
  rd_bytes : user_out_ptr;
  wr_num_bytes : Z;
  wr_num_handles : Z;
  rd_num_bytes : Z;
  rd_num_handles : Z;
}.

(** What the calls ask of the channels; a channel is named by its koid, a thread by
    a number.  [mc_Call] is the part of a call before the wait: [Some] when it
    returns without waiting. *)
Class MessageChannel (C : Type) := {
  mc_Read : Z -> Z -> Z -> Z -> bool -> C -> zx_status_t * option (Z * Z) * option MessagePacket.MessagePacket * C;
  mc_Write : Z -> Z -> MessagePacket.MessagePacket -> C -> zx_status_t * C;
  mc_Call : Z -> Z -> Z -> MessagePacket.MessagePacket -> C -> option zx_status_t * C;
  mc_Call_finish : Z -> Z -> C -> zx_status_t * option MessagePacket.MessagePacket * C;
}.

(** An array of [V] in user memory: its elements, and the status of a copy of a
    number of them from an offset. *)
Record user_array (V : Type) := mkUserArray { ua_at : Z -> V; ua_status : Z -> Z -> zx_status_t }.
Arguments mkUserArray {V}.
Arguments ua_at {V}.
Arguments ua_status {V}.

Definition copy_array {V} (a : user_array V) (offset count : Z) : zx_status_t + list V :=
  if is_err (ua_status a offset count) then inl (ua_status a offset count)
  else inr (map (fun i => ua_at a (offset + i)) (seqZ 0 count)).

Module ChannelSyscalls.
Import ProcessHandles MessagePacket.

Section Syscalls.
Context {A : Type} `{SlotArena A} {C : Type} `{MessageChannel C}.
Variable is_waitable : Z -> bool.
Variable get_type : Z -> Z.

Local Abbreviation Table := (HandleTable A).

(** The overloads for arrays of handles and of dispositions. *)
Class UserHandles (V : Type) := {
  uh_consume : zx_status_t + list V -> list Z -> zx_status_t * list Z;
  uh_get : Z -> V -> bool -> Table -> Process -> zx_status_t * Z * V * Table * Process;
  uh_is_out : bool;
}.

#[export] Instance in_handles : UserHandles Z := {
  uh_consume := get_user_handles_to_consume;
  uh_get c v _ t p := let '(st, h, t, p) := get_handle_for_message_locked get_type c v t p in (st, h, v, t, p);
  uh_is_out := false;
}.

#[export] Instance inout_dispositions : UserHandles zx_handle_disposition_t := {
  uh_consume := get_user_handles_to_consume_etc;
  uh_get c d ok t p := get_handle_for_message_etc_locked is_waitable get_type c d ok t p;
  uh_is_out := true;
}.

Inductive recv_counter :=
| channel_msg_received
| channel_msg_0_bytes
| channel_msg_64_bytes
| channel_msg_256_bytes
| channel_msg_1k_bytes
| channel_msg_4k_bytes
| channel_msg_16k_bytes
| channel_msg_64k_bytes.

(** [counters]: the counters bumped so far. *)
Record Ctx := mkCtx {
  tbl : Table;
  up : Process;
  pmm : list (list byte);
  chan : C;
  umem : user_mem;
  counters : list recv_counter;
}.

Definition with_tp (t : Table) (p : Process) (c : Ctx) : Ctx := mkCtx t p (pmm c) (chan c) (umem c) (counters c).
Definition with_tbl (t : Table) (c : Ctx) : Ctx := with_tp t (up c) c.
Definition with_pmm (m : list (list byte)) (c : Ctx) : Ctx := mkCtx (tbl c) (up c) m (chan c) (umem c) (counters c).
Definition with_chan (ch : C) (c : Ctx) : Ctx := mkCtx (tbl c) (up c) (pmm c) ch (umem c) (counters c).
Definition with_umem (m : user_mem) (c : Ctx) : Ctx := mkCtx (tbl c) (up c) (pmm c) (chan c) m (counters c).

Definition record_recv_msg_sz (size : Z) (c : Ctx) : Ctx :=
  let bucket :=
    if size =? 0 then [channel_msg_0_bytes]
    else if size <=? 64 then [channel_msg_64_bytes]
    else if size <=? 256 then [channel_msg_256_bytes]
    else if size <=? 1024 then [channel_msg_1k_bytes]
    else if size <=? 4096 then [channel_msg_4k_bytes]
    else if size <=? 16384 then [channel_msg_16k_bytes]
    else if size <=? 65536 then [channel_msg_64k_bytes]
    else [] in
  mkCtx (tbl c) (up c) (pmm c) (chan c) (umem c) (counters c ++ [channel_msg_received] ++ bucket).

(** The overloads of [MapHandleToValue]. *)
Definition map_handle (h : Z) (t : Table) (p : Process) : Z := MapHandleToValue h t p.
Definition map_handle_info (h : Z) (t : Table) (p : Process) : zx_handle_info_t :=
  mkHandleInfo (MapHandleToValue h t p) (get_type (default 0 (dispatcher_ (slot h t)))) (rights_ (slot h t)) 0.

Definition set_handles (hs : list Z) (msg : MessagePacket) : MessagePacket :=
  mkMessage (buffer_chain_ msg) hs (data_size_ msg) (payload_offset_ msg) (num_handles_ msg) (owns_handles_ msg).
Definition set_owns_handles (own_handles : bool) (msg : MessagePacket) : MessagePacket :=
  mkMessage (buffer_chain_ msg) (MessagePacket.handles_ msg) (data_size_ msg) (payload_offset_ msg) (num_handles_ msg) own_handles.

(** The destructor of a packet: the non-null handles it owns are deleted. *)
Definition destroy_message (msg : MessagePacket) (c : Ctx) : Ctx :=
  let '(hs, m) := recycle msg (pmm c) in
  with_pmm m (with_tbl (foldl (fun t h => if h =? 0 then t else Delete is_waitable h t) (tbl c) hs) c).

(** ** Reading *)

Fixpoint add_handles (hs : list Z) (t : Table) (p : Process) : Table * Process :=
  match hs with
  | [] => (t, p)
  | h :: hs =>
      let t := match dispatcher_ (slot h t) with
               | Some d => if is_waitable d then does (Cancel h d) t else t
               | None => t
               end in
      let '(t, p) := AddHandle h t p in
      add_handles hs t p
  end.

(** The status, the values written out, the packet.  A null handle faults. *)
Definition msg_get_handles {T} (conv : Z -> Table -> Process -> T) (copy_status : zx_status_t) (num_handles : Z)
    (msg : MessagePacket) (c : Ctx) : option (zx_status_t * list T * MessagePacket * Ctx) :=
  let handle_list := take (Z.to_nat num_handles) (MessagePacket.handles_ msg) in
  let msg := set_owns_handles false msg in
  if existsb (Z.eqb 0) handle_list then None
  else
    let hvs := map (fun h => conv h (tbl c) (up c)) handle_list in
    if is_err copy_status then Some (copy_status, [], msg, c)
    else
      let '(t, p) := add_handles handle_list (tbl c) (up c) in
      Some (ZX_OK, hvs, msg, with_tp t p c).

(** [actual_*]: no pointer, or the status of the copy of the size.  [copy_status]:
    the status of the copy of the handles.  [ro_msg] is the packet the call took
    from the channel, as it is when the call destroys it. *)
Record read_out (T : Type) := mkReadOut {
  ro_status : zx_status_t;
  ro_values : list T;
  ro_msg : option MessagePacket;
}.
Arguments mkReadOut {T}.
Arguments ro_status {T}.
Arguments ro_values {T}.
Arguments ro_msg {T}.

(** The call returns: the packet, if there is one, is destroyed. *)
Definition returns {T} (st : zx_status_t) (vs : list T) (msg : option MessagePacket) (c : Ctx) : option (read_out T * Ctx) :=
  Some (mkReadOut st vs msg, match msg with Some msg => destroy_message msg c | None => c end).

Definition copy_size (actual : option zx_status_t) : zx_status_t := default ZX_OK actual.

Definition channel_read {T} (conv : Z -> Table -> Process -> T) (handle_value options : Z) (bytes : user_out_ptr)
    (num_bytes num_handles : Z) (actual_bytes actual_handles : option zx_status_t) (copy_status : zx_status_t)
    (c : Ctx) : option (read_out T * Ctx) :=
  let '(r, t) := GetDispatcherWithRightsImpl get_type handle_value ZX_RIGHT_READ ZX_OBJ_TYPE_CHANNEL false (tbl c) (up c) in
  let c := with_tbl t c in
  match r with
  | inl st => returns st [] None c
  | inr (channel, _) =>
      if negb ((options .&~ ZX_CHANNEL_READ_MAY_DISCARD) =? 0) then returns ZX_ERR_NOT_SUPPORTED [] None c
      else
        let '(result, sizes, msg, ch) := mc_Read channel (koid (up c)) num_bytes num_handles
             (negb ((options .& ZX_CHANNEL_READ_MAY_DISCARD) =? 0)) (chan c) in
        let c := with_chan ch c in
        if is_err result && negb (bool_decide (result = ZX_ERR_BUFFER_TOO_SMALL)) then returns result [] msg c
        else
          let '(num_bytes, num_handles) := default (num_bytes, num_handles) sizes in
          if is_err (copy_size actual_bytes) then returns (copy_size actual_bytes) [] msg c
          else if is_err (copy_size actual_handles) then returns (copy_size actual_handles) [] msg c
          else if bool_decide (result = ZX_ERR_BUFFER_TOO_SMALL) then returns result [] msg c
          else
            match msg with
            | None => None
            | Some msg =>
                let '(st, m) := if num_bytes >? 0 then CopyDataTo bytes msg (umem c) else (ZX_OK, umem c) in
                let c := with_umem m c in
                if is_err st then returns ZX_ERR_INVALID_ARGS [] (Some msg) c
                else if num_handles >? 0 then
                  '(st, vs, msg, c) ← msg_get_handles conv copy_status num_handles msg c;
                  if is_err st then returns st [] (Some msg) c
                  else returns result vs (Some msg) (record_recv_msg_sz num_bytes c)
                else returns result [] (Some msg) (record_recv_msg_sz num_bytes c)
            end
  end.

Definition sys_channel_read := channel_read map_handle.
Definition sys_channel_read_etc := channel_read map_handle_info.

Definition channel_read_out (reply : option MessagePacket) (args : zx_channel_call_args_t)
    (actual_bytes actual_handles copy_status : zx_status_t) (c : Ctx) : option (read_out Z * Ctx) :=
  match reply with
  | None => None
  | Some reply =>
      let num_bytes := data_size reply in
      let num_handles := num_handles reply in
      if (rd_num_bytes args <? num_bytes) || (rd_num_handles args <? num_handles)
      then returns ZX_ERR_BUFFER_TOO_SMALL [] (Some reply) c
      else if is_err actual_bytes then returns actual_bytes [] (Some reply) c
      else if is_err actual_handles then returns actual_handles [] (Some reply) c
      else
        let '(st, m) := if num_bytes >? 0 then CopyDataTo (rd_bytes args) reply (umem c) else (ZX_OK, umem c) in
        let c := with_umem m c in
        if is_err st then returns ZX_ERR_INVALID_ARGS [] (Some reply) c
        else if num_handles >? 0 then
          '(st, vs, reply, c) ← msg_get_handles map_handle copy_status num_handles reply c;
          if is_err st then returns st [] (Some reply) c else returns ZX_OK vs (Some reply) c
        else returns ZX_OK [] (Some reply) c
  end.

Definition channel_call_epilogue (reply : option MessagePacket) (args : zx_channel_call_args_t)
    (actual_bytes actual_handles copy_status : zx_status_t) (c : Ctx) : option (read_out Z * Ctx) :=
  let bytes := match reply with Some reply => data_size reply | None => 0 end in
  '(out, c) ← channel_read_out reply args actual_bytes actual_handles copy_status c;
  Some (out, if is_err (ro_status out) then c else record_recv_msg_sz bytes c).

(** ** Writing *)

(** The loop over the handles: the first error, the packet's handles, the array. *)
Fixpoint put_handles {V} `{UserHandles V} (channel : Z) (handles : list V) (allocs : Z -> bool) (ix : Z)
    (status : zx_status_t) (t : Table) (p : Process) : zx_status_t * list Z * list V * Table * Process :=
  match handles with
  | [] => (status, [], [], t, p)
  | v :: handles =>
      let '(inner_status, h, v, t, p) := uh_get channel v (allocs ix) t p in
      let status := if is_err inner_status && negb (is_err status) then inner_status else status in
      let '(status, hs, vs, t, p) := put_handles channel handles allocs (ix + 1) status t p in
      (status, h :: hs, v :: vs, t, p)
  end.

(** [copy_back]: the status of the copy of the results to the user. *)
Definition msg_put_handles {V} `{UserHandles V} (user_handles : user_array V) (num_handles channel : Z)
    (allocs : Z -> bool) (copy_back : zx_status_t) (msg : MessagePacket) (c : Ctx) : zx_status_t * MessagePacket * Ctx :=
  match copy_array user_handles 0 num_handles with
  | inl st => (st, msg, c)
  | inr handles =>
      let '(status, hs, _, t, p) := put_handles channel handles allocs 0 ZX_OK (tbl c) (up c) in
      let status := if uh_is_out && is_err status && is_err copy_back then copy_back else status in
      (status, set_owns_handles true (set_handles hs msg), with_tp t p c)
  end.

(** The cleanup of a failing call; [stack] is what the array of
    [RemoveUserHandles] holds before it is written. *)
Definition cleanup {V} `{UserHandles V} (user_handles : user_array V) (num_handles : Z) (stack : list Z)
    (st : zx_status_t) (c : Ctx) : option (zx_status_t * Ctx) :=
  '(_, t, p) ← RemoveUserHandles is_waitable uh_consume (copy_array user_handles) num_handles stack (tbl c) (up c);
  Some (st, with_tp t p c).

(** [user_handles'] is the array as the cleanup finds it: another thread of the
    process may write to it. *)
Definition channel_write {V} `{UserHandles V} (handle_value options : Z) (user_bytes : user_in_ptr) (num_bytes : Z)
    (user_handles user_handles' : user_array V) (num_handles : Z) (allocs : Z -> bool) (copy_back : zx_status_t)
    (stack : list Z) (c : Ctx) : option (zx_status_t * Ctx) :=
  let fails := cleanup user_handles' num_handles stack in
  if negb (options =? 0) then fails ZX_ERR_INVALID_ARGS c
  else
    let '(r, t) := GetDispatcherWithRightsImpl get_type handle_value ZX_RIGHT_WRITE ZX_OBJ_TYPE_CHANNEL false (tbl c) (up c) in
    let c := with_tbl t c in
    match r with
    | inl st => fails st c
    | inr (channel, _) =>
        let '(m, pages) := Create user_bytes num_bytes num_handles (pmm c) in
        let c := with_pmm pages c in
        match m with
        | inl st => fails st c
        | inr msg =>
            let '(st, msg, c) := if num_handles >? 0
                                 then msg_put_handles user_handles num_handles channel allocs copy_back msg c
                                 else (ZX_OK, msg, c) in
            if is_err st then fails st (destroy_message msg c)
            else
              let '(st, ch) := mc_Write channel (koid (up c)) msg (chan c) in
              let c := with_chan ch c in
              Some (st, if is_err st then destroy_message msg c else c)
        end
    end.

Definition sys_channel_write := channel_write (V := Z).
Definition sys_channel_write_etc := channel_write (V := zx_handle_disposition_t).

(** ** Calling *)

(** The call up to the wait: [Some] is the status of a call that does not wait. *)
Definition sys_channel_call_noretry (thread handle_value options : Z) (user_args : zx_status_t + zx_channel_call_args_t)
    (user_handles user_handles' : user_array Z) (allocs : Z -> bool) (stack : list Z) (c : Ctx)
    : option (option zx_status_t * Ctx) :=
  match user_args with
  | inl st => Some (Some st, c)
  | inr args =>
      let num_bytes := wr_num_bytes args in
      let num_handles := wr_num_handles args in
      let fails st c := '(st, c) ← cleanup user_handles' num_handles stack st c; Some (Some st, c) in
      if negb (options =? 0) || (num_bytes <? sizeof_txid) then fails ZX_ERR_INVALID_ARGS c
      else
        let '(r, t) := GetDispatcherWithRightsImpl get_type handle_value (ZX_RIGHT_WRITE .| ZX_RIGHT_READ)
                         ZX_OBJ_TYPE_CHANNEL false (tbl c) (up c) in
        let c := with_tbl t c in
        match r with
        | inl st => fails st c
        | inr (channel, _) =>
            let '(m, pages) := Create (wr_bytes args) num_bytes num_handles (pmm c) in
            let c := with_pmm pages c in
            match m with
            | inl st => fails st c
            | inr msg =>
                let '(st, msg, c) := if num_handles >? 0
                                     then msg_put_handles user_handles num_handles channel allocs ZX_OK msg c
                                     else (ZX_OK, msg, c) in
                if is_err st then Some (Some st, destroy_message msg c)
                else
                  let '(st, ch) := mc_Call thread channel (koid (up c)) msg (chan c) in
                  let c := with_chan ch c in
                  Some (st, match st with Some _ => destroy_message msg c | None => c end)
            end
        end
  end.

(** The rest of a call, in [sys_channel_call_noretry] or in
    [sys_channel_call_finish], when its wait has ended. *)
Definition call_resumes (thread channel : Z) (args : zx_channel_call_args_t)
    (actual_bytes actual_handles copy_status : zx_status_t) (c : Ctx) : option (read_out Z * Ctx) :=
  let '(st, reply, ch) := mc_Call_finish thread channel (chan c) in
  let c := with_chan ch c in
  if is_err st then returns st [] reply c
  else channel_call_epilogue reply args actual_bytes actual_handles copy_status c.

(** [channel]: the channel of the thread's waiter. *)
Definition sys_channel_call_finish (thread : Z) (user_args : zx_status_t + zx_channel_call_args_t) (channel : option Z)
    (actual_bytes actual_handles copy_status : zx_status_t) (c : Ctx) : option (read_out Z * Ctx) :=
  match user_args with
  | inl st => returns st [] None c
  | inr args =>
      match channel with
      | None => returns ZX_ERR_BAD_STATE [] None c
      | Some channel => call_resumes thread channel args actual_bytes actual_handles copy_status c
      end
  end.

End Syscalls.

#[global] Arguments mkReadOut {T}.
#[global] Arguments ro_status {T}.
#[global] Arguments ro_values {T}.
#[global] Arguments ro_msg {T}.

End ChannelSyscalls.
