(* ===== verification/ChannelSyscallsFacts.v ===== *)
(** * Where handles are

    In every state the kernel reaches by handle and channel system calls, each live
    handle is in the table of one process, in one message, or among the handles
    that failed reads have lost; and no step gives a handle to an object, or rights
    to it, that no handle had. *)

From S2P Require Import Prelude Zx UserCopy SlotArena Handle HandleFacts MessagePacket ProcessHandles.
From S2P Require Import ProcessHandlesFacts ChannelSyscalls.
Import Handle ProcessHandles ChannelSyscalls.

(** ** What the calls rely on *)

Abbreviation Message := MessagePacket.MessagePacket.

(** [mc_flight]: the messages the channels hold.  [mc_step c ms c']: the channels
    may go from [c] to [c'] on their own and drop [ms]. *)
Class MessageChannelLaws (C : Type) `{MessageChannel C} := {
  mc_ok : C -> Prop;
  mc_flight : C -> list Message;
  mc_step : C -> list Message -> C -> Prop;
  mc_read_law : forall d o mxs mxh may c, mc_ok c ->
    let '(st, sz, om, c') := mc_Read d o mxs mxh may c in
    mc_ok c' /\ mc_flight c ≡ₚ option_list om ++ mc_flight c' /\
    (st = ZX_OK -> exists msg, om = Some msg /\ sz = Some (MessagePacket.data_size_ msg, MessagePacket.num_handles_ msg));
  mc_write_law : forall d o msg c, mc_ok c ->
    mc_ok (mc_Write d o msg c).2 /\
    mc_flight (mc_Write d o msg c).2 ≡ₚ (if is_err (mc_Write d o msg c).1 then [] else [msg]) ++ mc_flight c;
  mc_call_law : forall t d o msg c, mc_ok c ->
    mc_ok (mc_Call t d o msg c).2 /\
    exists id, mc_flight (mc_Call t d o msg c).2 ≡ₚ
      match (mc_Call t d o msg c).1 with Some _ => [] | None => [MessagePacket.set_txid id msg] end ++ mc_flight c;
  mc_finish_law : forall t d c, mc_ok c ->
    let '(st, om, c') := mc_Call_finish t d c in
    mc_ok c' /\ mc_flight c ≡ₚ option_list om ++ mc_flight c' /\ (st = ZX_OK -> is_Some om);
  mc_step_law : forall c ms c', mc_step c ms c' -> mc_ok c -> mc_ok c' /\ mc_flight c ≡ₚ ms ++ mc_flight c';
}.

(** The handles a packet owns, and the packets in flight. *)
Definition msg_handles (msg : Message) : list Z :=
  if MessagePacket.owns_handles_ msg then nonnull (MessagePacket.handles_ msg) else [].
Definition all_handles (ms : list Message) : list Z := ms ≫= msg_handles.

Definition msg_ok (msg : Message) : Prop :=
  zlen (MessagePacket.handles_ msg) = MessagePacket.num_handles_ msg /\
  (MessagePacket.owns_handles_ msg = true \/ MessagePacket.num_handles_ msg = 0).

Lemma all_handles_app ms ms' : all_handles (ms ++ ms') = all_handles ms ++ all_handles ms'.
Proof. apply bind_app. Qed.

Lemma all_handles_one msg : all_handles [msg] = msg_handles msg.
Proof. unfold all_handles. simpl. apply app_nil_r. Qed.

#[global] Instance all_handles_perm : Proper (Permutation ==> Permutation) all_handles.
Proof. intros ms ms' Hp. unfold all_handles. by rewrite Hp. Qed.

Lemma set_txid_handles id msg : msg_handles (MessagePacket.set_txid id msg) = msg_handles msg /\
  (msg_ok msg -> msg_ok (MessagePacket.set_txid id msg)).
Proof.
  unfold MessagePacket.set_txid. destruct (_ >=? _); [|done]. by destruct (MessagePacket.buffer_chain_ msg).
Qed.

Set Default Proof Using "Type".

Section Facts.
Context {A : Type} `{SA : SlotArena A} {LA : SlotArenaLaws A sizeof_Handle kMaxHandleCount}.
Context {C : Type} `{MC : MessageChannel C} {LC : MessageChannelLaws C}.
Context (is_waitable : Z -> bool) (get_type : Z -> Z).

Section Here.
Context (k : Z) (ps : gmap Z Process).
Local Abbreviation here := (here (A := A) k ps).
Local Abbreviation Ctx := (Ctx (A := A) (C := C)).

(** The channels are well formed. *)
Definition chan_good (ch : C) : Prop := mc_ok ch /\ Forall msg_ok (mc_flight ch).

(** The handles of [extra] are in the hands of the call; [l] are the lost ones. *)
Definition at_call (extra : list Z) (c : Ctx) (l : list Z) : Holders :=
  here (extra ++ all_handles (mc_flight (chan c)) ++ l) (tbl c) (up c).

(** From [c] to [c'] the channels stay well formed and handles only move. *)
Definition call_moves (extra : list Z) (c : Ctx) (extra' : list Z) (c' : Ctx) : Prop :=
  chan_good (chan c) -> chan_good (chan c') /\ forall l, moves (at_call extra c l) (at_call extra' c' l).

Lemma call_moves_refl e c : call_moves e c e c.
Proof. intros Hc. split; [done | intros l; reflexivity]. Qed.

Lemma call_moves_trans e1 c1 e2 c2 e3 c3 : call_moves e1 c1 e2 c2 -> call_moves e2 c2 e3 c3 -> call_moves e1 c1 e3 c3.
Proof.
  intros H12 H23 Hc. destruct (H12 Hc) as [Hc2 Hm]. destruct (H23 Hc2) as [Hc3 Hm'].
  split; [done|]. intros l. etrans; [apply Hm | apply Hm'].
Qed.

(** A change of the table and the process alone. *)
Lemma call_moves_table e e' c c' :
  chan c' = chan c -> (forall l, moves (here (e ++ l) (tbl c) (up c)) (here (e' ++ l) (tbl c') (up c'))) ->
  call_moves e c e' c'.
Proof. intros Ec Hm Hc. split; [by rewrite Ec|]. intros l. unfold at_call. rewrite Ec. apply Hm. Qed.

(** A change of neither. *)
Lemma call_moves_same e c c' : chan c' = chan c -> tbl c' = tbl c -> up c' = up c -> call_moves e c e c'.
Proof. intros Ec Et Eu. apply call_moves_table; [done|]. intros l. by rewrite Et, Eu. Qed.

(** A change of the channels alone. *)
Lemma call_moves_chan e e' c ch :
  (chan_good (chan c) -> chan_good ch /\ e ++ all_handles (mc_flight (chan c)) ≡ₚ e' ++ all_handles (mc_flight ch)) ->
  call_moves e c e' (with_chan ch c).
Proof.
  intros He Hc. destruct (He Hc) as [Hg Hp]. split; [done|]. intros l. unfold at_call. simpl. apply moves_perm.
  by rewrite !app_assoc, Hp.
Qed.

Lemma destroy_moves e msg c : call_moves (msg_handles msg ++ e) c e (destroy_message is_waitable msg c).
Proof.
  apply call_moves_table; [done|]. intros l. rewrite <- app_assoc. unfold destroy_message, MessagePacket.recycle, msg_handles.
  simpl. destruct (MessagePacket.owns_handles_ msg); simpl; [by apply here_delete_nonnull | reflexivity].
Qed.

(** Looking up the channel. *)
Lemma dispatcher_moves v r ty sp e c :
  call_moves e c e (with_tbl (GetDispatcherWithRightsImpl get_type v r ty sp (tbl c) (up c)).2 c).
Proof.
  apply call_moves_table; [done|]. intros l. simpl. unfold GetDispatcherWithRightsImpl.
  destruct (GetHandleLocked v sp (tbl c) (up c)) as [o t'] eqn:E.
  pose proof (here_lookup k ps _ _ _ (e ++ l) _ _ _ E) as Hm. destruct o as [h|]; [|done].
  repeat case_match; done.
Qed.

(** ** Writing *)

(** What the overloads of the template do with one entry of the array. *)
Class UserHandlesLaws (V : Type) `{UserHandles (A := A) V} :=
  uh_get_law : forall d v ok l t p,
    let '(_, h, _, t', p') := uh_get d v ok t p in moves (here l t p) (here (nonnull [h] ++ l) t' p').

#[export] Instance in_handles_laws : @UserHandlesLaws Z (in_handles get_type).
Proof.
  intros d v ok l t p. simpl. pose proof (here_message get_type k ps d v l t p) as Hm.
  by destruct (get_handle_for_message_locked get_type d v t p) as [[[st h] t'] p'].
Qed.

#[export] Instance inout_laws : @UserHandlesLaws zx_handle_disposition_t (inout_dispositions is_waitable get_type).
Proof. intros d v ok l t p. apply here_message_etc. Qed.

Section Write.
Set Default Proof Using "Type*".
Context {V : Type} {UH : UserHandles (A := A) V} {UL : UserHandlesLaws V}.

Lemma put_handles_moves d vs allocs ix st l t p :
  let '(_, hs, _, t', p') := put_handles d vs allocs ix st t p in
  length hs = length vs /\ moves (here l t p) (here (nonnull hs ++ l) t' p').
Proof.
  revert ix st l t p. induction vs as [|v vs IH]; intros ix st l t p; simpl; [done|].
  pose proof (uh_get_law d v (allocs ix) l t p) as H1. destruct (uh_get d v (allocs ix) t p) as [[[[st1 h] v1] t1] p1].
  set (st2 := if _ && _ then st1 else st). specialize (IH (ix + 1) st2 (nonnull [h] ++ l) t1 p1).
  destruct (put_handles d vs allocs (ix + 1) st2 t1 p1) as [[[[st3 hs] vs3] t3] p3]. destruct IH as [Hl H2].
  split; [simpl; congruence|]. etrans; [exact H1|]. etrans; [exact H2|]. apply moves_perm.
  change (h :: hs) with ([h] ++ hs). unfold nonnull. rewrite filter_app. rewrite !app_assoc.
  by rewrite (Permutation_app_comm (filter _ hs)).
Qed.

(** The packet has the handles after, and its array has an entry for each. *)
Lemma msg_put_handles_moves (ua : user_array V) n d allocs cb msg e c :
  0 <= n -> MessagePacket.owns_handles_ msg = false ->
  let '(st, msg', c') := msg_put_handles ua n d allocs cb msg c in
  call_moves e c (msg_handles msg' ++ e) c' /\ MessagePacket.num_handles_ msg' = MessagePacket.num_handles_ msg /\
  (st = ZX_OK -> zlen (MessagePacket.handles_ msg') = n /\ MessagePacket.owns_handles_ msg' = true).
Proof.
  intros Hn Ho. unfold msg_put_handles, copy_array. destruct (is_err (ua_status ua 0 n)) eqn:E.
  { unfold msg_handles. rewrite Ho. split_and!; [apply call_moves_refl | done |]. intros E'. by rewrite E' in E. }
  set (vs := map _ _). pose proof (fun l => put_handles_moves d vs allocs 0 ZX_OK l (tbl c) (up c)) as Hp.
  destruct (put_handles d vs allocs 0 ZX_OK (tbl c) (up c)) as [[[[st hs] vs'] t'] p'].
  split_and!; [|done|].
  - apply call_moves_table; [done|]. intros l. simpl. destruct (Hp (e ++ l)) as [_ Hm]. by rewrite <- app_assoc.
  - intros _. split; [|done]. destruct (Hp []) as [Hl _]. unfold zlen. simpl. rewrite Hl. unfold vs.
    rewrite length_map, length_seqZ. lia.
Qed.

Lemma cleanup_moves (ua : user_array V) n stack st e c :
  exists c', cleanup is_waitable ua n stack st c = Some (st, c') /\ call_moves e c e c'.
Proof.
  unfold cleanup.
  destruct (here_RemoveUserHandles is_waitable k ps uh_consume (copy_array ua) n stack [] (tbl c) (up c)) as (st' & t' & p' & E & _).
  rewrite E. simpl. eexists. split; [done|]. apply call_moves_table; [done|]. intros l.
  destruct (here_RemoveUserHandles is_waitable k ps uh_consume (copy_array ua) n stack (e ++ l) (tbl c) (up c)) as (st2 & t2 & p2 & E2 & Hm).
  rewrite E in E2. by injection E2 as <- <- <-.
Qed.

(** What [Create] makes: a packet that owns no handle yet. *)
Lemma Create_no_handles data size n pmm msg pmm' :
  MessagePacket.Create data size n pmm = (inr msg, pmm') ->
  MessagePacket.handles_ msg = [] /\ MessagePacket.num_handles_ msg = n /\ MessagePacket.owns_handles_ msg = false.
Proof.
  unfold MessagePacket.Create, MessagePacket.CreateCommon. repeat case_match; intros; by simplify_eq.
Qed.

(** Making a packet ready. *)
Lemma fill_moves data size n pages pages' (ua : user_array V) d allocs cb msg c :
  0 <= n -> MessagePacket.Create data size n pages = (inr msg, pages') ->
  let '(st, msg', c') := if n >? 0 then msg_put_handles ua n d allocs cb msg c else (ZX_OK, msg, c) in
  call_moves [] c (msg_handles msg' ++ []) c' /\ (is_err st = false -> msg_ok msg').
Proof.
  intros Hn Hc. destruct (Create_no_handles _ _ _ _ _ _ Hc) as (Eh & En & Eo). destruct (Z.gtb_spec n 0).
  - pose proof (msg_put_handles_moves ua n d allocs cb msg [] c Hn Eo) as H3.
    destruct (msg_put_handles ua n d allocs cb msg c) as [[st msg'] c3]. destruct H3 as (H3 & En' & Hok).
    split; [done|]. intros Es%is_err_false. destruct (Hok Es). split; [congruence | auto].
  - unfold msg_handles. rewrite Eo. split; [apply call_moves_refl|]. intros _. unfold msg_ok. rewrite Eh, En.
    split; [unfold zlen; simpl; lia | right; lia].
Qed.

(** Handing a packet to the channel. *)
Lemma mc_Write_moves d o msg c : msg_ok msg ->
  let '(st, ch) := mc_Write d o msg (chan c) in
  call_moves (msg_handles msg ++ []) c [] (if is_err st then destroy_message is_waitable msg (with_chan ch c) else with_chan ch c).
Proof.
  intros Hm. pose proof (mc_write_law d o msg (chan c)) as Hl. destruct (mc_Write d o msg (chan c)) as [st ch]. simpl in Hl.
  destruct (is_err st).
  - eapply call_moves_trans; [|apply destroy_moves]. apply call_moves_chan. intros [Hok Hf]. destruct (Hl Hok) as [Hok' Hp].
    simpl in Hp. split; [split; [done | by rewrite Hp] | by rewrite Hp].
  - apply call_moves_chan. intros [Hok Hf]. destruct (Hl Hok) as [Hok' Hp]. split; [split; [done | rewrite Hp; by constructor]|].
    rewrite Hp. simpl. by rewrite app_nil_r.
Qed.

(** [zx_channel_write] and [zx_channel_write_etc] return, and handles only move. *)
Lemma channel_write_moves v opts ub nb (ua ua' : user_array V) n allocs cb stack c :
  0 <= n ->
  exists st c', channel_write is_waitable get_type v opts ub nb ua ua' n allocs cb stack c = Some (st, c') /\ call_moves [] c [] c'.
Proof.
  intros Hn. unfold channel_write.
  assert (forall st c', call_moves [] c [] c' -> exists st' c'', cleanup is_waitable ua' n stack st c' = Some (st', c'') /\ call_moves [] c [] c'') as Hf.
  { intros st c' Hc. destruct (cleanup_moves ua' n stack st [] c') as (c'' & -> & ?). eauto using call_moves_trans. }
  destruct (negb (opts =? 0)); [apply Hf, call_moves_refl|].
  pose proof (dispatcher_moves v ZX_RIGHT_WRITE ZX_OBJ_TYPE_CHANNEL false [] c) as H1.
  destruct (GetDispatcherWithRightsImpl get_type v _ _ _ _ _) as [r t1]. cbn [snd] in H1. set (c1 := with_tbl t1 c) in *.
  destruct r as [st|[d rights]]; [by apply Hf|].
  destruct (MessagePacket.Create ub nb n (pmm c1)) as [m pages] eqn:Em. set (c2 := with_pmm pages c1).
  assert (call_moves [] c [] c2) as H2 by (eapply call_moves_trans; [exact H1 | by apply call_moves_same]).
  destruct m as [st|msg]; [by apply Hf|].
  pose proof (fill_moves _ _ _ _ _ ua d allocs cb msg c2 Hn Em) as H3. destruct (if n >? 0 then _ else _) as [[st msg'] c3].
  destruct H3 as [H3 Hok]. destruct (is_err st).
  { apply Hf. eauto using call_moves_trans, destroy_moves. }
  pose proof (mc_Write_moves d (koid (up c3)) msg' c3 (Hok eq_refl)) as H4. destruct (mc_Write d _ msg' (chan c3)) as [st' ch].
  do 2 eexists. split; [done|]. eauto using call_moves_trans.
Qed.
Set Default Proof Using "Type".
End Write.

(** ** Reading *)

(** The handles of a packet that is destroyed without owning them, by a call that
    has failed and has not given them to the process. *)
Definition lost_by {T} (out : read_out T) : list Z :=
  match ro_msg out with
  | Some msg => if is_err (ro_status out) && negb (MessagePacket.owns_handles_ msg) then nonnull (MessagePacket.handles_ msg) else []
  | None => []
  end.

Lemma lost_by_owned {T} st (vs : list T) msg : msg_ok msg -> lost_by (mkReadOut st vs (Some msg)) = [].
Proof.
  intros [Hl [Ho|Hz]]; unfold lost_by; simpl; [by rewrite Ho, andb_false_r|]. destruct (_ && _); [|done].
  destruct (MessagePacket.handles_ msg); [done|]. unfold zlen in Hl. simpl in Hl. lia.
Qed.

Lemma add_handles_moves hs l t p :
  let r := add_handles is_waitable hs t p in moves (here (hs ++ l) t p) (here l r.1 r.2).
Proof.
  revert t p. induction hs as [|h hs IH]; intros t p; simpl; [reflexivity|].
  set (t1 := match dispatcher_ (slot h t) with Some d => if is_waitable d then does (Cancel h d) t else t | None => t end).
  assert (moves (here (h :: hs ++ l) t p) (here (h :: hs ++ l) t1 p)) as H1.
  { unfold t1. repeat case_match; [apply here_does | reflexivity | reflexivity]. }
  etrans; [exact H1|]. etrans; [apply here_add|]. apply IH.
Qed.

Lemma nonnull_all hs : existsb (Z.eqb 0) hs = false -> nonnull hs = hs.
Proof.
  induction hs as [|h hs IH]; [done|]. cbn [existsb]. intros [Hh Hr]%orb_false_iff. apply Z.eqb_neq in Hh. unfold nonnull.
  rewrite filter_cons_True by lia. f_equal. by apply IH.
Qed.

(** The end of a read that has copied the data; [post] counts it. *)
Section Tail.
Context {T : Type} (conv : Z -> HandleTable A -> Process -> T) (post : Ctx -> Ctx).
Context (post_same : forall c, chan (post c) = chan c /\ tbl (post c) = tbl c /\ up (post c) = up c).
Set Default Proof Using "Type*".

Definition read_tail (cs : zx_status_t) (msg : Message) (c : Ctx) : option (read_out T * Ctx) :=
  if MessagePacket.num_handles_ msg >? 0 then
    '(st, vs, msg, c) ← msg_get_handles is_waitable conv cs (MessagePacket.num_handles_ msg) msg c;
    if is_err st then returns is_waitable st [] (Some msg) c else returns is_waitable ZX_OK vs (Some msg) (post c)
  else returns is_waitable ZX_OK [] (Some msg) (post c).

Lemma returns_moves st (vs : list T) msg e c :
  msg_ok msg ->
  exists out c', returns is_waitable st vs (Some msg) c = Some (out, c') /\ call_moves (msg_handles msg ++ e) c (lost_by out ++ e) c'.
Proof. intros Hm. do 2 eexists. split; [done|]. rewrite lost_by_owned by done. apply destroy_moves. Qed.

Lemma read_tail_moves cs msg c out c' :
  msg_ok msg -> read_tail cs msg c = Some (out, c') -> call_moves (msg_handles msg) c (lost_by out) c'.
Proof.
  intros Hm. unfold read_tail. destruct (post_same c) as (Pc & Pt & Pu).
  destruct (Z.gtb_spec (MessagePacket.num_handles_ msg) 0) as [Hpos|Hz].
  2: { intros E. destruct (returns_moves ZX_OK [] msg [] (post c) Hm) as (o & c2 & E2 & H2). rewrite E in E2.
       injection E2 as <- <-. rewrite !app_nil_r in H2. eapply call_moves_trans; [by apply call_moves_same | exact H2]. }
  destruct Hm as [Hl [Ho|]]; [|lia]. unfold msg_get_handles.
  rewrite take_ge by (unfold zlen in Hl; lia). destruct (existsb _ _) eqn:En; [done|].
  unfold msg_handles. rewrite Ho, (nonnull_all _ En). destruct (is_err cs) eqn:Ecs; simpl.
  - rewrite Ecs. intros E. injection E as <- <-. unfold lost_by. simpl. rewrite Ecs. simpl. rewrite nonnull_all by done.
    by apply call_moves_same.
  - set (r := add_handles is_waitable _ _ _). pose proof (fun l => add_handles_moves (MessagePacket.handles_ msg) l (tbl c) (up c)) as Hr.
    fold r in Hr. destruct r as [t1 p1]. simpl. intros E. injection E as <- <-. change (lost_by _) with (@nil Z).
    destruct (post_same (with_tp t1 p1 c)) as (Pc' & Pt' & Pu').
    apply call_moves_table; [exact Pc'|]. intros l. simpl. rewrite Pt', Pu'. apply Hr.
Qed.

Lemma read_tail_faults cs msg c : read_tail cs msg c = None -> 0 ∈ MessagePacket.handles_ msg.
Proof.
  unfold read_tail, msg_get_handles. destruct (_ >? _); [|done]. destruct (existsb _ _) eqn:E.
  - intros _. apply existsb_exists in E as (x & Hx & <-%Z.eqb_eq). apply list_elem_of_In in Hx.
    rewrite <- (take_drop (Z.to_nat (MessagePacket.num_handles_ msg)) (MessagePacket.handles_ msg)). by apply elem_of_app; left.
  - destruct (is_err cs) eqn:Ec; simpl; [by rewrite Ec|]. by destruct (add_handles _ _ _ _).
Qed.
Set Default Proof Using "Type".
End Tail.

(** What a call may come to: it returns and handles have moved, or it faults on a
    null handle of a packet in flight. *)
Definition read_result {T} (c : Ctx) (r : option (read_out T * Ctx)) : Prop :=
  match r with
  | Some (out, c') => call_moves [] c (lost_by out) c'
  | None => exists msg, msg ∈ mc_flight (chan c) /\ 0 ∈ MessagePacket.handles_ msg
  end.

(** The same with packets [om] taken from the channels in [c], which are now [c1]. *)
Definition taken (c : Ctx) (om : option Message) (c1 : Ctx) : Prop :=
  call_moves [] c (all_handles (option_list om)) c1 /\ Forall msg_ok (option_list om) /\
  forall msg, om = Some msg -> msg ∈ mc_flight (chan c).

Lemma taken_returns {T} c om c1 st (vs : list T) : taken c om c1 -> read_result c (returns is_waitable st vs om c1).
Proof.
  intros (H1 & Hm & _). destruct om as [msg|]; [|done]. apply Forall_cons in Hm as [Hm _].
  change (returns is_waitable st vs (Some msg) c1) with (Some (mkReadOut st vs (Some msg), destroy_message is_waitable msg c1)).
  simpl. rewrite lost_by_owned by done. eapply call_moves_trans; [exact H1|].
  change (all_handles _) with (all_handles [msg]). rewrite all_handles_one.
  rewrite <- (app_nil_r (msg_handles msg)). apply destroy_moves.
Qed.

Lemma taken_same c om c1 c2 : chan c2 = chan c1 -> tbl c2 = tbl c1 -> up c2 = up c1 -> taken c om c1 -> taken c om c2.
Proof. intros E1 E2 E3 (H1 & H2 & H3). split; [|done]. eapply call_moves_trans; [exact H1 | by apply call_moves_same]. Qed.

Lemma taken_tail {T} (conv : Z -> HandleTable A -> Process -> T) post cs c msg c1 :
  (forall c, chan (post c) = chan c /\ tbl (post c) = tbl c /\ up (post c) = up c) ->
  taken c (Some msg) c1 -> read_result c (read_tail conv post cs msg c1).
Proof.
  intros Hp (H1 & Hm & Hin). apply Forall_cons in Hm as [Hm _]. unfold read_result.
  destruct (read_tail conv post cs msg c1) as [[out c']|] eqn:E.
  - eapply call_moves_trans; [exact H1|]. change (all_handles _) with (all_handles [msg]). rewrite all_handles_one. by eapply read_tail_moves.
  - exists msg. split; [by apply Hin | by eapply read_tail_faults].
Qed.

(** Taking a packet, by whatever law of the channels. *)
Lemma taken_chan c om ch :
  chan_good (chan c) -> mc_ok ch -> mc_flight (chan c) ≡ₚ option_list om ++ mc_flight ch -> taken c om (with_chan ch c).
Proof.
  intros [Hok Hf] Hok' Hp. rewrite Hp in Hf. apply Forall_app in Hf as [Hm Hf]. split_and!; [|done|].
  - apply call_moves_chan. intros _. split; [done|]. by rewrite Hp, all_handles_app.
  - intros msg ->. rewrite Hp. apply list_elem_of_here.
Qed.

Lemma taken_after e c c1 om c2 : chan c1 = chan c -> call_moves e c e c1 -> e = [] -> taken c1 om c2 -> taken c om c2.
Proof.
  intros Ec H1 -> (H2 & H3 & H4). split_and!; [by eapply call_moves_trans | done | by rewrite <- Ec].
Qed.

Lemma record_recv_same n (c : Ctx) :
  chan (record_recv_msg_sz n c) = chan c /\ tbl (record_recv_msg_sz n c) = tbl c /\ up (record_recv_msg_sz n c) = up c.
Proof. done. Qed.

Lemma channel_read_moves {T} (conv : Z -> HandleTable A -> Process -> T) v opts ub nb n ab ah cs c :
  chan_good (chan c) -> read_result c (channel_read is_waitable get_type conv v opts ub nb n ab ah cs c).
Proof.
  intros Hg. unfold channel_read.
  pose proof (dispatcher_moves v ZX_RIGHT_READ ZX_OBJ_TYPE_CHANNEL false [] c) as H1.
  destruct (GetDispatcherWithRightsImpl get_type v _ _ _ _ _) as [r t1]. cbn [snd] in H1. set (c1 := with_tbl t1 c) in *.
  destruct r as [st|[d rights]]; [exact H1|]. destruct (negb _); [exact H1|].
  pose proof (mc_read_law d (koid (up c1)) nb n (negb ((opts .& ZX_CHANNEL_READ_MAY_DISCARD) =? 0)) (chan c1) (proj1 Hg)) as Hl.
  destruct (mc_Read d _ nb n _ (chan c1)) as [[[st sz] om] ch]. destruct Hl as (Hok & Hp & Hst).
  assert (taken c om (with_chan ch c1)) as Ht by (by eapply (taken_after [] c c1), taken_chan).
  set (c2 := with_chan ch c1) in *. destruct (is_err st && _) eqn:E1; [by apply taken_returns|].
  destruct (default (nb, n) sz) as [nb' n'] eqn:Esz. destruct (is_err (copy_size ab)); [by apply taken_returns|].
  destruct (is_err (copy_size ah)); [by apply taken_returns|].
  destruct (bool_decide (st = _)) eqn:E2; [by apply taken_returns|].
  rewrite andb_true_r in E1. apply is_err_false in E1 as ->. destruct (Hst eq_refl) as (msg & -> & ->).
  simpl in Esz. injection Esz as <- <-.
  destruct (if _ >? 0 then MessagePacket.CopyDataTo ub msg (umem c2) else (ZX_OK, umem c2)) as [st' m].
  assert (taken c (Some msg) (with_umem m c2)) as Ht' by (by apply (taken_same c _ c2)).
  destruct (is_err st'); [by apply taken_returns|].
  apply (taken_tail conv (record_recv_msg_sz (MessagePacket.data_size_ msg)) cs c msg (with_umem m c2)); [|done].
  intros. apply record_recv_same.
Qed.

(** ** Calling *)

Lemma channel_read_out_moves reply args ab ah cs c c1 :
  taken c (Some reply) c1 -> read_result c (channel_read_out is_waitable (Some reply) args ab ah cs c1).
Proof.
  intros Ht. unfold channel_read_out. destruct (_ || _); [by apply taken_returns|].
  destruct (is_err ab); [by apply taken_returns|]. destruct (is_err ah); [by apply taken_returns|].
  destruct (if _ >? 0 then MessagePacket.CopyDataTo _ _ _ else _) as [st m].
  assert (taken c (Some reply) (with_umem m c1)) as Ht' by (by apply (taken_same c _ c1)).
  destruct (is_err st); [by apply taken_returns|].
  by apply (taken_tail map_handle id cs c reply (with_umem m c1)).
Qed.

Lemma call_resumes_moves t d args ab ah cs c :
  chan_good (chan c) -> read_result c (call_resumes is_waitable t d args ab ah cs c).
Proof.
  intros Hg. unfold call_resumes. pose proof (mc_finish_law t d (chan c) (proj1 Hg)) as Hl.
  destruct (mc_Call_finish t d (chan c)) as [[st om] ch]. destruct Hl as (Hok & Hp & Hs).
  pose proof (taken_chan c om ch Hg Hok Hp) as Ht. destruct (is_err st) eqn:E; [by apply taken_returns|].
  apply is_err_false in E. destruct (Hs E) as [reply ->]. unfold channel_call_epilogue.
  pose proof (channel_read_out_moves reply args ab ah cs c _ Ht) as Hr.
  destruct (channel_read_out is_waitable (Some reply) args ab ah cs _) as [[out c']|]; [|done]. simpl in *.
  destruct (is_err (ro_status out)); [done|]. eapply call_moves_trans; [exact Hr | by apply call_moves_same].
Qed.

Lemma sys_channel_call_finish_moves t ua d ab ah cs c :
  chan_good (chan c) -> read_result c (sys_channel_call_finish is_waitable t ua d ab ah cs c).
Proof.
  intros Hg. unfold sys_channel_call_finish. destruct ua as [st|args]; [apply call_moves_refl|].
  destruct d as [d|]; [by apply call_resumes_moves | apply call_moves_refl].
Qed.

Lemma mc_Call_moves t d o msg c : msg_ok msg ->
  let '(st, ch) := mc_Call t d o msg (chan c) in
  call_moves (msg_handles msg ++ []) c []
    (match st with Some _ => destroy_message is_waitable msg (with_chan ch c) | None => with_chan ch c end).
Proof.
  intros Hm. pose proof (mc_call_law t d o msg (chan c)) as Hl. destruct (mc_Call t d o msg (chan c)) as [st ch]. simpl in Hl.
  destruct st as [st|].
  - eapply call_moves_trans; [|apply destroy_moves]. apply call_moves_chan. intros [Hok Hf]. destruct (Hl Hok) as (Hok' & id & Hp).
    simpl in Hp. split; [split; [done | by rewrite Hp] | by rewrite Hp].
  - apply call_moves_chan. intros [Hok Hf]. destruct (Hl Hok) as (Hok' & id & Hp). destruct (set_txid_handles id msg) as [Eh Hm'].
    split; [split; [done | rewrite Hp; constructor; [by apply Hm' | done]]|].
    rewrite Hp. simpl. by rewrite Eh, app_nil_r.
Qed.

Lemma sys_channel_call_moves t v opts ua uh uh' allocs stack c :
  (forall args, ua = inr args -> 0 <= wr_num_handles args) ->
  exists st c', sys_channel_call_noretry is_waitable get_type t v opts ua uh uh' allocs stack c = Some (st, c') /\ call_moves [] c [] c'.
Proof.
  intros Hn. unfold sys_channel_call_noretry. destruct ua as [st|args].
  { do 2 eexists. split; [done | apply call_moves_refl]. }
  specialize (Hn args eq_refl). set (n := wr_num_handles args) in *.
  assert (forall st c', call_moves [] c [] c' -> 
    exists st' c'', ('(st, c) ← cleanup (H1 := in_handles get_type) is_waitable uh' n stack st c'; Some (Some st, c)) = Some (st', c'') /\ call_moves [] c [] c'') as Hf.
  { intros st c' Hc. destruct (cleanup_moves (UH := in_handles get_type) uh' n stack st [] c') as (c'' & -> & ?). simpl.
    eauto using call_moves_trans. }
  destruct (_ || _); [apply Hf, call_moves_refl|].
  pose proof (dispatcher_moves v (ZX_RIGHT_WRITE .| ZX_RIGHT_READ) ZX_OBJ_TYPE_CHANNEL false [] c) as H1.
  destruct (GetDispatcherWithRightsImpl get_type v _ _ _ _ _) as [r t1]. cbn [snd] in H1. set (c1 := with_tbl t1 c) in *.
  destruct r as [st|[d rights]]; [by apply Hf|].
  destruct (MessagePacket.Create _ _ n (pmm c1)) as [m pages] eqn:Em. set (c2 := with_pmm pages c1).
  assert (call_moves [] c [] c2) as H2 by (eapply call_moves_trans; [exact H1 | by apply call_moves_same]).
  destruct m as [st|msg]; [by apply Hf|].
  pose proof (fill_moves (UH := in_handles get_type) _ _ _ _ _ uh d allocs ZX_OK msg c2 Hn Em) as H3. destruct (if n >? 0 then _ else _) as [[st msg'] c3].
  destruct H3 as [H3 Hok]. destruct (is_err st).
  { do 2 eexists. split; [done|]. eauto using call_moves_trans, destroy_moves. }
  pose proof (mc_Call_moves t d (koid (up c3)) msg' c3 (Hok eq_refl)) as H4. destruct (mc_Call t d _ msg' (chan c3)) as [st' ch].
  do 2 eexists. split; [done|]. eauto using call_moves_trans.
Qed.
End Here.
End Facts.
