(* ===== verification/HandleSystem.v ===== *)
(** * The handles of the whole system

    Processes with their handle tables, the channels between them, and every way in
    which the kernel makes, moves, duplicates and closes handles. *)

From S2P Require Import Prelude Zx UserCopy SlotArena Handle HandleFacts MessagePacket ProcessHandles.
From S2P Require Import ProcessHandlesFacts ChannelSyscalls ChannelSyscallsFacts.
Import Handle ProcessHandles ChannelSyscalls.

Set Default Proof Using "Type".

Section System.
Context {A : Type} `{SA : SlotArena A} {LA : SlotArenaLaws A sizeof_Handle kMaxHandleCount}.
Context {C : Type} `{MC : MessageChannel C} {LC : MessageChannelLaws C}.
Context (is_waitable : Z -> bool) (get_type : Z -> Z).
Local Abbreviation Ctx := (Ctx (A := A) (C := C)).

(** [k_lost]: the handles that failed reads have lost. *)
Record KSys := mkKSys {
  k_tbl : HandleTable A;
  k_ps : gmap Z Process;
  k_pmm : list (list byte);
  k_chan : C;
  k_umem : user_mem;
  k_counters : list recv_counter;
  k_lost : list Z;
}.

Definition ctx (x : KSys) (p : Process) : Ctx := mkCtx (k_tbl x) p (k_pmm x) (k_chan x) (k_umem x) (k_counters x).
Definition after (x : KSys) (pid : Z) (c : Ctx) (lost : list Z) : KSys :=
  mkKSys (tbl c) (<[pid := up c]> (k_ps x)) (pmm c) (chan c) (umem c) (counters c) (lost ++ k_lost x).

(** ** Steps *)

Definition with_result (r : zx_status_t * HandleTable A * Process) (c : Ctx) : Ctx := with_tp r.1.2 r.2 c.

(** [sys_call c lost c']: a process's call takes [c] to [c']. *)
Inductive sys_call (c : Ctx) : list Z -> Ctx -> Prop :=
| sc_close v : sys_call c [] (with_result (sys_handle_close is_waitable v (tbl c) (up c)) c)
| sc_close_many ua n stack r :
    sys_handle_close_many is_waitable (copy_array ua) n stack (tbl c) (up c) = Some r -> sys_call c [] (with_result r c)
| sc_dup_replace is_replace v rights mem_ok copy_ok :
    sys_call c [] (with_result (handle_dup_replace is_waitable is_replace v rights mem_ok copy_ok (tbl c) (up c)) c)
| sc_write v opts ub nb ua ua' n allocs cb stack st c' :
    0 <= n -> sys_channel_write is_waitable get_type v opts ub nb ua ua' n allocs cb stack c = Some (st, c') ->
    sys_call c [] c'
| sc_write_etc v opts ub nb ua ua' n allocs cb stack st c' :
    0 <= n -> sys_channel_write_etc is_waitable get_type
                v opts ub nb ua ua' n allocs cb stack c = Some (st, c') ->
    sys_call c [] c'
| sc_read v opts ub nb n ab ah cs out c' :
    sys_channel_read is_waitable get_type v opts ub nb n ab ah cs c = Some (out, c') -> sys_call c (lost_by out) c'
| sc_read_etc v opts ub nb n ab ah cs out c' :
    sys_channel_read_etc is_waitable get_type v opts ub nb n ab ah cs c = Some (out, c') -> sys_call c (lost_by out) c'
| sc_call t v opts ua uh uh' allocs stack st c' :
    (forall args, ua = inr args -> 0 <= wr_num_handles args) ->
    sys_channel_call_noretry is_waitable get_type t v opts ua uh uh' allocs stack c = Some (st, c') -> sys_call c [] c'
| sc_call_resumes t d args ab ah cs out c' :
    call_resumes is_waitable t d args ab ah cs c = Some (out, c') -> sys_call c (lost_by out) c'
| sc_call_finish t ua d ab ah cs out c' :
    sys_channel_call_finish is_waitable t ua d ab ah cs c = Some (out, c') -> sys_call c (lost_by out) c'
| sc_new_cursor : sys_call c [] (with_tp (tbl c) (new_cursor (up c)) c)
| sc_cursor_next i : sys_call c [] (with_tp (tbl c) (cursor_next i (up c)).2 c)
| sc_destroy_cursor i : sys_call c [] (with_tp (tbl c) (destroy_cursor i (up c)) c)
| sc_exit : let r := clear_handles is_waitable (tbl c) (up c) in sys_call c [] (with_tp r.1 r.2 c).

(** The handles a packet still owned are deleted with it. *)
Definition drop_messages (ms : list Message) (t : HandleTable A) : HandleTable A :=
  foldl (fun t h => if h =? 0 then t else Delete is_waitable h t) t (ms ≫= fun msg => (MessagePacket.recycle msg []).1).

(** A step is labelled with the handle to a new object that it makes. *)
Inductive kstep (x : KSys) : option (Z * Z) -> KSys -> Prop :=
| ks_call pid p lost c' :
    k_ps x !! pid = Some p -> sys_call (ctx x p) lost c' -> kstep x None (after x pid c' lost)
| ks_make pid p d rights mem_ok copy_ok h t :
    k_ps x !! pid = Some p -> Make d rights mem_ok (k_tbl x) = (Some h, t) ->
    kstep x (Some (d, rights)) (after x pid (with_result (copyout is_waitable h copy_ok t p) (ctx x p)) [])
| ks_make_fails d rights mem_ok t :
    Make d rights mem_ok (k_tbl x) = (None, t) ->
    kstep x None (mkKSys t (k_ps x) (k_pmm x) (k_chan x) (k_umem x) (k_counters x) (k_lost x))
| ks_process pid secret :
    k_ps x !! pid = None -> pid <> ZX_KOID_INVALID ->
    kstep x None (mkKSys (k_tbl x) (<[pid := new_process pid secret]> (k_ps x)) (k_pmm x) (k_chan x) (k_umem x) (k_counters x) (k_lost x))
| ks_channels ms ch :
    mc_step (k_chan x) ms ch ->
    kstep x None (mkKSys (drop_messages ms (k_tbl x)) (k_ps x) (k_pmm x) ch (k_umem x) (k_counters x) (k_lost x)).

(** The handle table starts empty, and the channels without messages. *)
Definition k_init (x : KSys) : Prop :=
  exists a, sa_ok ∅ a /\ 0 < sa_Base a /\ k_tbl x = mkTable a ∅ ∅ [] /\ k_ps x = ∅ /\ mc_ok (k_chan x) /\
            mc_flight (k_chan x) = [] /\ k_lost x = [].

Inductive k_reachable : KSys -> Prop :=
| kr_init x : k_init x -> k_reachable x
| kr_step x lab x' : k_reachable x -> kstep x lab x' -> k_reachable x'.

(** ** The invariant *)

Definition holders (x : KSys) : Holders := mkHolders (all_handles (mc_flight (k_chan x)) ++ k_lost x) (k_tbl x) (k_ps x).

Lemma call_step e k ps c l c' :
  call_moves k ps [] c e c' -> chan_good (chan c) ->
  chan_good (chan c') /\
  moves (here k ps (all_handles (mc_flight (chan c)) ++ l) (tbl c) (up c))
        (here k ps (all_handles (mc_flight (chan c')) ++ e ++ l) (tbl c') (up c')).
Proof.
  intros Hm Hg. destruct (Hm Hg) as [Hg' Hl]. split; [done|]. etrans; [apply Hl|]. apply moves_perm.
  by rewrite !app_assoc, (Permutation_app_comm e).
Qed.

Lemma in_insert {X} (i : nat) (x y : X) (l : list X) : x ∈ <[i := y]> l -> x = y \/ x ∈ l.
Proof.
  intros [j Hj]%list_elem_of_lookup. apply list_lookup_insert_Some in Hj as [(_ & <- & _)|[_ Hj]]; [by left|].
  right. by eapply list_elem_of_lookup_2.
Qed.

Lemma in_delete {X} (i : nat) (x : X) (l : list X) : x ∈ delete i l -> x ∈ l.
Proof.
  rewrite delete_take_drop, elem_of_app. intros [H|H].
  - rewrite <- (take_drop i l). apply elem_of_app. by left.
  - rewrite <- (take_drop (S i) l). apply elem_of_app. by right.
Qed.

Lemma sys_call_moves k ps c e c' : sys_call c e c' -> chan_good (chan c) -> call_moves k ps [] c e c'.
Proof.
  intros Hc Hg. destruct Hc as [v | ua n stack r E | ir v rights mok cok | v opts ub nb ua ua' n al cb stack st c' Hn E
    | v opts ub nb ua ua' n al cb stack st c' Hn E | v opts ub nb n ab ah cs out c' E | v opts ub nb n ab ah cs out c' E
    | t v opts ua uh uh' al stack st c' Hn E | t d args ab ah cs out c' E | t ua d ab ah cs out c' E | | i | i |].
  - apply call_moves_table; [done|]. intros l. apply here_sys_handle_close.
  - apply call_moves_table; [done|]. intros l.
    destruct (here_RemoveUserHandles is_waitable k ps get_user_handles_to_consume (copy_array ua) n stack l (tbl c) (up c))
      as (st & t' & p' & E' & Hm).
    unfold sys_handle_close_many in E. rewrite E in E'. by injection E' as ->.
  - apply call_moves_table; [done|]. intros l. apply here_dup_replace.
  - destruct (channel_write_moves (UH := in_handles get_type) is_waitable get_type k ps v opts ub nb ua ua' n al cb stack c Hn) as (st' & c2 & E' & Hm).
    unfold sys_channel_write in E. rewrite E in E'. by injection E' as -> ->.
  - destruct (channel_write_moves (UH := inout_dispositions is_waitable get_type) is_waitable get_type k ps v opts ub nb ua ua' n al cb stack c Hn) as (st' & c2 & E' & Hm).
    unfold sys_channel_write_etc in E. rewrite E in E'. by injection E' as -> ->.
  - pose proof (channel_read_moves is_waitable get_type k ps map_handle v opts ub nb n ab ah cs c Hg) as Hr.
    unfold sys_channel_read in E. by rewrite E in Hr.
  - pose proof (channel_read_moves is_waitable get_type k ps (map_handle_info get_type) v opts ub nb n ab ah cs c Hg) as Hr.
    unfold sys_channel_read_etc in E. by rewrite E in Hr.
  - destruct (sys_channel_call_moves is_waitable get_type k ps t v opts ua uh uh' al stack c Hn) as (st' & c2 & E' & Hm).
    rewrite E in E'. by injection E' as -> ->.
  - pose proof (call_resumes_moves is_waitable k ps t d args ab ah cs c Hg) as Hr. by rewrite E in Hr.
  - pose proof (sys_channel_call_finish_moves is_waitable k ps t ua d ab ah cs c Hg) as Hr. by rewrite E in Hr.
  - apply call_moves_table; [done|]. intros l. simpl. unfold new_cursor.
    apply moves_when. intros L Hx. apply here_cursors. intros h. rewrite elem_of_cons. intros [Eh|Hh].
    + destruct (handles_ (up c)); [done|]. injection Eh as ->. apply list_elem_of_here.
    + eapply po_cursors; [|done]. by apply (ow_ps _ _ _ _ Hx), here_self.
  - apply call_moves_table; [done|]. intros l. simpl. unfold cursor_next.
    destruct (handle_cursors_ (up c) !! i) as [iter|] eqn:Ei; [|reflexivity]. apply moves_when. intros L Hx.
    pose proof (ow_ps _ _ _ _ Hx k _ (here_self k ps (up c))) as Hp.
    destruct (Next iter (up c)) as [h iter'] eqn:En. apply here_cursors. intros x Hin.
    apply in_insert in Hin as [Ex|Hin]; [|by apply (po_cursors _ _ Hp)].
    destruct iter as [y|]; simpl in En; injection En as <- <-; [|done].
    by apply (next_element_in y x); [apply (po_nodup _ _ Hp)|].
  - apply call_moves_table; [done|]. intros l. simpl. apply moves_when. intros L Hx. apply here_cursors. intros x Hin.
    apply (po_cursors _ _ (ow_ps _ _ _ _ Hx k _ (here_self k ps (up c)))). by apply in_delete in Hin.
  - apply call_moves_table; [done|]. intros l. apply here_clear_handles.
Qed.

Definition kinv (x : KSys) (L : gset Z) : Prop := held (holders x) L /\ chan_good (k_chan x).

(** What a step labelled [lab] may add to the authority there is. *)
Definition grants (lab : option (Z * Z)) (L : gset Z) (t : HandleTable A) (L' : gset Z) (t' : HandleTable A) : Prop :=
  forall h', h' ∈ L' ->
    (exists h, h ∈ L /\ dispatcher_ (slot h t) = dispatcher_ (slot h' t') /\
               rights_ (slot h t) .& rights_ (slot h' t') = rights_ (slot h' t')) \/
    (exists d r, lab = Some (d, r) /\ dispatcher_ (slot h' t') = Some d /\ r .& rights_ (slot h' t') = rights_ (slot h' t')).

Lemma moves_kinv x x' L :
  kinv x L -> chan_good (k_chan x') -> moves (holders x) (holders x') ->
  exists L', kinv x' L' /\ grants None L (k_tbl x) L' (k_tbl x').
Proof.
  intros [Hx _] Hg Hm. destruct (Hm L Hx) as (L' & Hx' & Ha). exists L'. split; [done|]. intros h' Hh'. left. by apply Ha.
Qed.

Lemma make_kinv x pid p d r mok cok h t L :
  k_ps x !! pid = Some p -> Make d r mok (k_tbl x) = (Some h, t) -> kinv x L ->
  exists L', kinv (after x pid (with_result (copyout is_waitable h cok t p) (ctx x p)) []) L' /\
             grants (Some (d, r)) L (k_tbl x) L' (copyout is_waitable h cok t p).1.2.
Proof.
  intros Hp E [Hx Hg]. destruct (owned_make _ _ _ _ d r mok Hx) as [Hm Hk]. cbn [holders ho_loose ho_table ho_ps] in Hm, Hk.
  rewrite E in Hm, Hk. destruct Hm as (Ho & Er & Ed & Hn). cbn [snd] in Hk.
  set (l := all_handles (mc_flight (k_chan x)) ++ k_lost x) in *.
  assert (held (here pid (k_ps x) (h :: l) t p) ({[h]} ∪ L)) as Hh by (unfold held; simpl; by rewrite insert_id).
  destruct (here_copyout is_waitable pid (k_ps x) h cok l t p _ Hh) as (L' & Hy & Ha).
  exists L'. split; [by split|]. intros h' Hh'. destruct (Ha h' Hh') as (h0 & [->%elem_of_singleton|Hh0]%elem_of_union & D & R).
  - right. exists d, r. simpl in *. rewrite <- D, Ed. rewrite Er in R. done.
  - left. exists h0. simpl in *. rewrite Hk in D, R by done. done.
Qed.

Lemma new_process_moves x pid secret :
  k_ps x !! pid = None -> pid <> ZX_KOID_INVALID ->
  moves (holders x) (mkHolders (ho_loose (holders x)) (k_tbl x) (<[pid := new_process pid secret]> (k_ps x))).
Proof.
  intros Hn H0 L [H1 H2 H3 H4 H5 H6 H7]. exists L. split; [|by apply attenuates_kept]. simpl in *. constructor; simpl; try done.
  - intros k q. rewrite lookup_insert_Some. intros [[<- <-]|[_ ?]]; [|auto]. constructor; try done; [|apply NoDup_nil_2|].
    + apply new_process_mixer.
    + intros h Hh. by apply not_elem_of_nil in Hh.
  - intros k q h. rewrite lookup_insert_Some. intros [[<- <-]|[_ ?]]; [|auto]. simpl. split.
    + intros Hh. by apply not_elem_of_nil in Hh.
    + intros [Hh Hp]. destruct (H6 h Hh) as [q Hq]; [by rewrite Hp|]. by rewrite Hp, Hn in Hq.
  - intros h Hh Hp. destruct (H6 h Hh Hp) as [q Hq]. rewrite lookup_insert_is_Some'. right. by exists q.
Qed.

Lemma drop_handles ms : nonnull (ms ≫= fun msg => (MessagePacket.recycle msg []).1) = all_handles ms.
Proof.
  induction ms as [|msg ms IH]; [done|]. rewrite bind_cons. unfold nonnull in *. rewrite filter_app, IH.
  unfold all_handles. rewrite bind_cons. f_equal.
  unfold msg_handles. unfold MessagePacket.recycle. by destruct (MessagePacket.owns_handles_ msg).
Qed.

Lemma kstep_kinv x lab x' L :
  kinv x L -> kstep x lab x' -> exists L', kinv x' L' /\ grants lab L (k_tbl x) L' (k_tbl x').
Proof.
  intros Hi Hs. pose proof Hi as [Hx Hg]. destruct Hs as [pid p lost c' Hp Hc | pid p d r mok cok h t Hp E | d r mok t E
    | pid secret Hn H0 | ms ch Hm].
  - destruct (call_step lost pid (k_ps x) (ctx x p) (k_lost x) c') as [Hg' Hm]; [by eapply sys_call_moves | done |].
    apply moves_kinv; [done | done |]. unfold holders. simpl. unfold here in Hm. simpl in Hm. by rewrite (insert_id (k_ps x) pid p) in Hm.
  - by eapply make_kinv.
  - destruct (owned_make _ _ _ _ d r mok Hx) as [Ho Hk]. cbn [holders ho_loose ho_table ho_ps] in Ho, Hk. rewrite E in Ho, Hk.
    exists L. split; [by split|]. intros h Hh. left. exists h. simpl in *. rewrite Hk by done. split_and!; [done | done | apply Z.land_diag].
  - apply moves_kinv; [done | done |]. exact (new_process_moves x pid secret Hn H0).
  - destruct Hg as [Hok Hf]. destruct (mc_step_law _ _ _ Hm Hok) as [Hok' Hp]. rewrite Hp in Hf. apply Forall_app in Hf as [_ Hf].
    apply moves_kinv; [done | done |]. unfold holders. simpl. etrans; [apply moves_perm; by rewrite Hp|].
    rewrite all_handles_app, <- app_assoc, <- drop_handles. apply moves_delete_nonnull.
Qed.

Lemma init_kinv x : k_init x -> kinv x ∅.
Proof.
  intros (a & Ha & Hb & Et & Ep & Hok & Hf & Hl). split; [|split; [done | by rewrite Hf]].
  unfold holders. rewrite Hf, Hl, Et, Ep. constructor; simpl; try done.
  - constructor; simpl; try done.
    intros d. unfold handle_count, references. simpl. by rewrite lookup_empty.
  - apply NoDup_nil_2.
  - intros h. rewrite elem_of_empty. split; [by intros ?%not_elem_of_nil | by intros [? _]].
Qed.

Lemma k_reachable_kinv x : k_reachable x -> exists L, kinv x L.
Proof.
  induction 1 as [x Hi | x lab x' _ [L Hi] Hs]; [exists ∅; by apply init_kinv|].
  destruct (kstep_kinv _ _ _ _ Hi Hs) as (L' & ? & _). by exists L'.
Qed.

(** ** Properties *)

Inductive owner := by_process (pid : Z) | in_message | is_lost.

Definition owns (x : KSys) (o : owner) (h : Z) : Prop :=
  match o with
  | by_process pid => exists p, k_ps x !! pid = Some p /\ h ∈ handles_ p
  | in_message => h ∈ all_handles (mc_flight (k_chan x))
  | is_lost => h ∈ k_lost x
  end.

(** An owner of a live handle is told by the process the handle names. *)
Lemma owns_spec x L o h : kinv x L -> owns x o h ->
  h ∈ L /\ match o with
           | by_process pid => process_id_ (slot h (k_tbl x)) = pid /\ pid <> ZX_KOID_INVALID
           | _ => process_id_ (slot h (k_tbl x)) = ZX_KOID_INVALID
           end.
Proof.
  intros [[H1 H2 H3 H4 H5 H6 H7] _]. simpl in *. destruct o as [pid| |]; simpl.
  - intros (p & Hp & Hh). apply (H5 pid p h Hp) in Hh as [? ?]. pose proof (po_valid _ _ (H2 pid p Hp)). done.
  - intros Hh. apply H4. apply elem_of_app. by left.
  - intros Hh. apply H4. apply elem_of_app. by right.
Qed.

(** C3: Every live slot of the handle arena is a handle with exactly one owner, and
    every owned handle is live: a handle is in the table of one process, once, or in
    one message in flight, once, or was lost by a failed read.  The handle count of
    every object is the number of live handles to it.  This holds in every state
    that processes reach by making, duplicating, replacing and closing handles,
    sending them in channel messages and calls, receiving them, and dying. *)
Theorem handle_ownership x :
  k_reachable x ->
  exists L : gset Z,
    sa_ok L (arena_ (k_tbl x)) /\
    (forall h, h ∈ L <-> exists o, owns x o h) /\
    (forall h o o', owns x o h -> owns x o' h -> o = o') /\
    NoDup (all_handles (mc_flight (k_chan x))) /\
    (forall pid p, k_ps x !! pid = Some p -> NoDup (handles_ p)) /\
    (forall d, handle_count d (k_tbl x) = references d L (k_tbl x)).
Proof.
  intros [L Hi]%k_reachable_kinv. pose proof Hi as [[H1 H2 H3 H4 H5 H6 H7] _]. simpl in *. apply NoDup_app in H3 as (Hn & Hd & _).
  exists L. split_and!; [by apply to_arena | | | done | |].
  - intros h. split; [|intros [o Ho]; by apply (owns_spec x L o h) in Ho as [? _]]. intros Hh.
    destruct (decide (process_id_ (slot h (k_tbl x)) = ZX_KOID_INVALID)) as [E|E].
    + assert (h ∈ all_handles (mc_flight (k_chan x)) ++ k_lost x) as [?|?]%elem_of_app by (by apply H4); [by exists in_message | by exists is_lost].
    + destruct (H6 h Hh E) as [p Hp]. exists (by_process (process_id_ (slot h (k_tbl x)))). exists p. split; [done|]. by apply (H5 _ p h Hp).
  - intros h o o' Ho Ho'. pose proof (owns_spec x L o h Hi Ho) as [_ E]. pose proof (owns_spec x L o' h Hi Ho') as [_ E'].
    destruct o, o'; simpl in *; try done; try (destruct E; congruence); try (destruct E'; congruence).
    + destruct E, E'. congruence.
    + by destruct (Hd h).
    + by destruct (Hd h).
  - intros pid p Hp. apply (po_nodup pid), (H2 pid p Hp).
  - intros d. rewrite (to_counts _ _ H1 d). apply u32_id. unfold is_u32. pose proof (references_bound d L (k_tbl x) H1) as Hb.
    assert (kMaxHandleCount = 262144) by done. lia.
Qed.

(** C6: Authority is not amplified.  After any step every handle is to an object some
    handle was to before, with no more rights than it had; only a step that makes
    a handle to a new object adds a handle to that object, with at most the rights
    it was made with. *)
Theorem handle_authority x lab x' :
  k_reachable x -> kstep x lab x' ->
  exists L L', sa_ok L (arena_ (k_tbl x)) /\ sa_ok L' (arena_ (k_tbl x')) /\ grants lab L (k_tbl x) L' (k_tbl x').
Proof.
  intros [L Hi]%k_reachable_kinv Hs. destruct (kstep_kinv _ _ _ _ Hi Hs) as (L' & Hi' & Hg). exists L, L'.
  destruct Hi as [[H1 _ _ _ _ _ _] _], Hi' as [[H1' _ _ _ _ _ _] _]. split_and!; [by apply to_arena | by apply to_arena | done].
Qed.

(** C7: A 32-bit value names, in a process, exactly the handle in the table of that
    process that the process was told this value for; another process's handles,
    handles in messages, closed handles and made-up values are not found. *)
Theorem process_handle_lookup x pid p v h skip_policy :
  k_reachable x -> k_ps x !! pid = Some p -> is_u32 v ->
  GetHandleLocked v skip_policy (k_tbl x) p = (Some h, k_tbl x) <-> h ∈ handles_ p /\ MapHandleToValue h (k_tbl x) p = v.
Proof.
  intros [L [Hi _]]%k_reachable_kinv Hp Hv. split.
  - intros E. by eapply lookup_only.
  - intros [Hh <-]. by eapply lookup_value.
Qed.

(** C38: Cursors over a process's handles never dangle: each is at a live handle of the
    process or at the end. *)
Theorem handle_cursors_valid x pid p h :
  k_reachable x -> k_ps x !! pid = Some p -> Some h ∈ handle_cursors_ p ->
  h ∈ handles_ p /\ process_id_ (slot h (k_tbl x)) = pid /\ is_Some (dispatcher_ (slot h (k_tbl x))).
Proof.
  intros [L [Hi _]]%k_reachable_kinv Hp Hc. pose proof (po_cursors _ _ (ow_ps _ _ _ _ Hi pid p Hp) h Hc) as Hh.
  split; [done|]. apply (ow_held _ _ _ _ Hi pid p h Hp) in Hh as [HL Hpid]. split; [done|].
  by apply (to_live L _ (ow_table _ _ _ _ Hi)).
Qed.

Lemma kstep_lost x lab x' h : kstep x lab x' -> h ∈ k_lost x -> h ∈ k_lost x'.
Proof. intros [] Hh; simpl; try done. apply elem_of_app. by right. Qed.

Definition some_kstep (x x' : KSys) : Prop := exists lab, kstep x lab x'.

Lemma ksteps_lost x x' h : rtc some_kstep x x' -> k_reachable x -> h ∈ k_lost x -> k_reachable x' /\ h ∈ k_lost x'.
Proof.
  induction 1 as [x | x y z [lab Hs] _ IH]; [done|]. intros Hr Hh. apply IH; [by econstructor | by eapply kstep_lost].
Qed.

(** A handle a failed read has lost stays in the handle arena for ever: no process
    ever has it again, so it is never closed, and its object never runs out of
    handles. *)
Theorem lost_handles_are_never_closed x x' h :
  k_reachable x -> h ∈ k_lost x -> rtc some_kstep x x' ->
  (forall o, owns x' o h -> o = is_lost) /\
  exists d, dispatcher_ (slot h (k_tbl x')) = Some d /\ 0 < handle_count d (k_tbl x').
Proof.
  intros Hr Hh Hs. destruct (ksteps_lost _ _ _ Hs Hr Hh) as [Hr' Hh']. destruct (k_reachable_kinv x' Hr') as [L Hi].
  assert (owns x' is_lost h) as Ho by done. destruct (owns_spec x' L is_lost h Hi Ho) as [HL Hpid].
  split.
  - intros o Ho'. pose proof (owns_spec x' L o h Hi Ho') as [_ E]. destruct o; [destruct E; congruence | | done].
    destruct Hi as [[_ _ H3 _ _ _ _] _]. simpl in H3. apply NoDup_app in H3 as (_ & Hd & _). by destruct (Hd h).
  - destruct Hi as [[H1 _ _ _ _ _ _] _]. destruct (to_live _ _ H1 h HL) as [d Hd]. exists d. split; [done|]. simpl in *.
    rewrite (to_counts _ _ H1 d). pose proof (references_bound d L _ H1) as Hb. assert (kMaxHandleCount = 262144) by done.
    rewrite u32_id by (unfold is_u32; lia). rewrite (references_del d h L _ HL). rewrite decide_True by done.
    unfold references. lia.
Qed.

(** ** Receiving *)

Lemma set_process_id_same h pid (t : HandleTable A) : same_but_owner t (set_process_id h pid t).
Proof.
  intros h'. unfold set_process_id. set (s := mkHandle _ _ _ _).
  assert (slot h' (match dispatcher_ (slot h t) with Some d => does (set_owner d pid) (put_slot h s t) | None => put_slot h s t end)
          = slot h' (put_slot h s t)) as -> by (by destruct (dispatcher_ _)).
  destruct (decide (h' = h)) as [->|Hne]; [by rewrite slot_put_eq | by rewrite slot_put_ne].
Qed.

Lemma add_handles_spec hs (t : HandleTable A) p :
  let r := add_handles is_waitable hs t p in
  same_but_owner t r.1 /\ handles_ r.2 = rev hs ++ handles_ p /\ handle_rand_ r.2 = handle_rand_ p.
Proof.
  revert t p. induction hs as [|h hs IH]; intros t p; [done|]. simpl.
  set (t1 := match dispatcher_ (slot h t) with Some d => if is_waitable d then does (Cancel h d) t else t | None => t end).
  destruct (IH (set_process_id h (koid p) t1) (with_handles (h :: handles_ p) (handle_cursors_ p) p)) as (Hs & Hh & Hr).
  split_and!; [|rewrite Hh; simpl; by rewrite <- app_assoc | done].
  intros h'. destruct (Hs h') as (-> & -> & ->). destruct (set_process_id_same h (koid p) t1 h') as (-> & -> & ->).
  unfold t1. destruct (dispatcher_ (slot h t)) as [d|]; [by destruct (is_waitable d) | done].
Qed.

(** What the end of a successful read hands out. *)
Lemma read_tail_values post cs msg (c : Ctx) out c' :
  (forall c, chan (post c) = chan c /\ tbl (post c) = tbl c /\ up (post c) = up c) ->
  msg_ok msg -> read_tail is_waitable map_handle post cs msg c = Some (out, c') -> ro_status out = ZX_OK ->
  ro_values out = map (fun h => MapHandleToValue h (tbl c) (up c)) (MessagePacket.handles_ msg) /\
  let r := add_handles is_waitable (MessagePacket.handles_ msg) (tbl c) (up c) in tbl c' = r.1 /\ up c' = r.2.
Proof.
  intros Hp [Hl Ho]. unfold read_tail. destruct (Z.gtb_spec (MessagePacket.num_handles_ msg) 0) as [Hpos|Hz].
  - unfold msg_get_handles. rewrite take_ge by (unfold zlen in Hl; lia). destruct (existsb _ _); [done|].
    destruct (is_err cs) eqn:Ecs; simpl; [rewrite Ecs; intros [= <- <-]; simpl; by intros ->|].
    destruct (add_handles _ _ _ _) as [t1 p1]. simpl. intros [= <- <-] _. simpl. destruct (Hp (with_tp t1 p1 c)) as (_ & -> & ->). done.
  - assert (MessagePacket.handles_ msg = []) as Eh by (destruct (MessagePacket.handles_ msg); [done | unfold zlen in Hl; simpl in Hl; lia]).
    intros [= <- <-] _. simpl. unfold destroy_message, MessagePacket.recycle. rewrite Eh.
    destruct (Hp c) as (_ & <- & <-). by destruct (MessagePacket.owns_handles_ msg).
Qed.

(** A successful read ends in [read_tail] of the packet it took. *)
Lemma channel_read_ok {T} (conv : Z -> HandleTable A -> Process -> T) v opts ub nb n ab ah cs c out c' :
  chan_good (chan c) -> channel_read is_waitable get_type conv v opts ub nb n ab ah cs c = Some (out, c') -> ro_status out = ZX_OK ->
  exists msg c1, msg_ok msg /\ msg ∈ mc_flight (chan c) /\ tbl c1 = tbl c /\ up c1 = up c /\
    read_tail is_waitable conv (record_recv_msg_sz (MessagePacket.data_size_ msg)) cs msg c1 = Some (out, c').
Proof.
  intros [Hok Hf]. unfold channel_read. destruct (GetDispatcherWithRightsImpl get_type v _ _ _ _ _) as [r t1] eqn:Ed.
  assert (forall st, is_err st = true -> forall om c1, returns (A := A) (C := C) (T := T) is_waitable st [] om c1 = Some (out, c') ->
            ro_status out = ZX_OK -> False) as Hret.
  { intros st He om c1 [= <- <-]. simpl. intros ->. done. }
  destruct r as [st|[d rights]].
  { intros E Es. exfalso. unfold GetDispatcherWithRightsImpl in Ed. repeat case_match; simplify_eq; by eapply Hret in E. }
  assert (t1 = tbl c) as ->.
  { unfold GetDispatcherWithRightsImpl in Ed. destruct (GetHandleLocked v false (tbl c) (up c)) as [[h|] t2] eqn:Eg; [|done].
    apply found_same in Eg as ->. repeat case_match; by simplify_eq. }
  destruct (negb _); [intros E Es; exfalso; by eapply Hret in E|].
  pose proof (mc_read_law d (koid (up c)) nb n (negb ((opts .& ZX_CHANNEL_READ_MAY_DISCARD) =? 0)) (chan c) Hok) as Hl. simpl.
  destruct (mc_Read d _ nb n _ (chan c)) as [[[st sz] om] ch]. destruct Hl as (_ & Hp & Hst).
  destruct (is_err st && _) eqn:E1; [apply andb_true_iff in E1 as [E1 _]; intros E Es; exfalso; by eapply Hret in E|].
  destruct (default (nb, n) sz) as [nb' n'] eqn:Esz.
  destruct (is_err (copy_size ab)) eqn:Eab; [intros E Es; exfalso; by eapply Hret in E|].
  destruct (is_err (copy_size ah)) eqn:Eah; [intros E Es; exfalso; by eapply Hret in E|].
  destruct (bool_decide (st = _)) eqn:E2; [apply bool_decide_eq_true in E2 as ->; intros E Es; exfalso; by eapply Hret in E|].
  rewrite andb_true_r in E1. apply is_err_false in E1 as ->. destruct (Hst eq_refl) as (msg & -> & ->).
  simpl in Esz. injection Esz as <- <-. destruct (if _ >? 0 then _ else _) as [st' m].
  destruct (is_err st'); [intros E Es; exfalso; by eapply Hret in E|]. intros E Es.
  rewrite Hp in Hf. apply Forall_cons in Hf as [Hm _]. do 2 eexists. split_and!; [exact Hm | | | | exact E]; [|done|done].
  rewrite Hp. apply list_elem_of_here.
Qed.

(** C18: A process that reads a message gets its handles: the values the read wrote out,
    in order, name the handles that were in the message, to the same objects and
    with the same rights. *)
Theorem received_handles_resolve x pid p v opts ub nb n ab ah cs out c' :
  k_reachable x -> k_ps x !! pid = Some p ->
  sys_channel_read is_waitable get_type v opts ub nb n ab ah cs (ctx x p) = Some (out, c') -> ro_status out = ZX_OK ->
  exists msg, msg ∈ mc_flight (k_chan x) /\
    length (ro_values out) = length (MessagePacket.handles_ msg) /\
    same_but_owner (k_tbl x) (tbl c') /\
    forall i hv h, ro_values out !! i = Some hv -> MessagePacket.handles_ msg !! i = Some h ->
      GetHandleLocked hv false (tbl c') (up c') = (Some h, tbl c').
Proof.
  intros Hr Hp E Es. destruct (k_reachable_kinv x Hr) as [L Hi].
  assert (kstep x None (after x pid c' (lost_by out))) as Hs by (eapply ks_call; [done | by eapply sc_read]).
  destruct (kstep_kinv _ _ _ _ Hi Hs) as (L' & [Ho' _] & _).
  destruct (channel_read_ok _ _ _ _ _ _ _ _ _ (ctx x p) _ _ (proj2 Hi) E Es) as (msg & c1 & Hm & Hin & Et & Eu & Htail).
  destruct (read_tail_values _ _ _ _ _ _ (fun c => record_recv_same _ c) Hm Htail Es) as (Ev & Et' & Eu').
  destruct (add_handles_spec (MessagePacket.handles_ msg) (tbl c1) (up c1)) as (Hsame & Hh & Hrand). rewrite <- Et', <- Eu' in *.
  rewrite Et in Hsame. exists msg. split_and!; [done | by rewrite Ev, length_map | done |].
  intros i hv h Hv Hmh. rewrite Ev, list_lookup_fmap, Hmh in Hv. injection Hv as <-.
  assert (MapHandleToValue h (tbl c1) (up c1) = MapHandleToValue h (tbl c') (up c')) as ->.
  { unfold MapHandleToValue. destruct (Hsame h) as (_ & _ & ->). by rewrite Hrand, Et. }
  eapply (lookup_value _ _ _ _ pid); [exact Ho' | apply lookup_insert_eq |]. rewrite Hh.
  apply elem_of_app. left. apply list_elem_of_In, in_rev. rewrite rev_involutive. apply list_elem_of_In. by eapply list_elem_of_lookup_2.
Qed.
End System.
