(* ===== verification/ChannelFlight.v ===== *)
(** * Channels as the system calls see them

    A pair of [ChannelDispatcher]s, with the threads that are in calls, is an
    instance of the interface of the channel system calls: messages are neither
    lost nor doubled between being written and being read. *)

From S2P Require Import Prelude Zx UserCopy Dispatcher Peered MessagePacket Channel ChannelFacts SlotArena.
From S2P Require Import Handle ProcessHandles ProcessHandlesFacts ChannelSyscalls ChannelSyscallsFacts.
Import ChannelDispatcher.

Set Default Proof Using "Type".

Section Flight.
Context {W O : Type} {SO : StateObserver W O}.
Local Abbreviation Sys := (chan_sys (M := Message) (W := W) (O := O)).
Local Abbreviation Pair := (PeerSys W O (Channel (M := Message)) (gmap Z (MessageWaiter (M := Message)))).
Implicit Types (p : Pair).

(** [gone sd]: endpoint [sd] has been destroyed, and its messages with it. *)
Record Chans := mkChans { cs : Sys; gone : side -> bool }.

(** ** Messages *)

Definition waiter_msgs (ws : gmap Z (MessageWaiter (M := Message))) : list Message :=
  map_to_list ws ≫= fun tw => option_list (msg_ tw.2).

Lemma waiter_msgs_delete t ws :
  waiter_msgs ws ≡ₚ option_list (msg_ (default new_waiter (ws !! t))) ++ waiter_msgs (delete t ws).
Proof.
  destruct (ws !! t) as [w|] eqn:E; simpl; [|by rewrite delete_id]. unfold waiter_msgs. by rewrite <- (map_to_list_delete ws t w E).
Qed.

Lemma waiter_msgs_put t w ws :
  option_list (msg_ (default new_waiter (ws !! t))) ++ waiter_msgs (<[t := w]> ws) ≡ₚ option_list (msg_ w) ++ waiter_msgs ws.
Proof.
  rewrite (waiter_msgs_delete t (<[t := w]> ws)), (waiter_msgs_delete t ws), lookup_insert_eq, delete_insert_eq. simpl.
  rewrite !app_assoc. by rewrite (Permutation_app_comm (option_list (msg_ w))).
Qed.

Definition queued (g : side -> bool) (sd : side) p : list Message := if g sd then [] else messages_ (xt sd p).

Definition flight (g : side -> bool) p : list Message := queued g Side0 p ++ queued g Side1 p ++ waiter_msgs (shared p).

Lemma flight_sides sd g p : flight g p ≡ₚ queued g sd p ++ queued g (other sd) p ++ waiter_msgs (shared p).
Proof. unfold flight. destruct sd; simpl; [done|]. rewrite !app_assoc. by rewrite (Permutation_app_comm (queued g Side0 p)). Qed.

(** A change that keeps queues and waiters' messages. *)
Lemma flight_same g p p' :
  (forall sd, messages_ (xt sd p') = messages_ (xt sd p)) -> shared p' = shared p -> flight g p' = flight g p.
Proof. intros Hm Hs. unfold flight, queued. by rewrite !Hm, Hs. Qed.

Lemma messages_put_waiters sd sd' ws p : messages_ (xt sd' (put_waiters sd ws p)) = messages_ (xt sd' p).
Proof.
  unfold put_waiters. destruct (decide (sd' = sd)) as [->|Hne]; [by rewrite xt_put_xt_eq|].
  assert (sd' = other sd) as -> by (by destruct sd, sd'). by rewrite xt_put_xt_other.
Qed.

Lemma flight_put_waiters g sd ws p : flight g (put_waiters sd ws p) = flight g p.
Proof. apply flight_same; [intros; apply messages_put_waiters | unfold put_waiters; apply shared_put_xt]. Qed.

Lemma flight_update g sd c s p : flight g (UpdateStateLocked sd c s p) = flight g p.
Proof. apply flight_same; [intros; by rewrite xt_update | apply shared_update]. Qed.

Lemma flight_put_waiter g t w p :
  option_list (msg_ (waiter t p)) ++ flight g (put_waiter t w p) ≡ₚ option_list (msg_ w) ++ flight g p.
Proof.
  assert (forall sd, queued g sd (put_waiter t w p) = queued g sd p) as Hq by (intros sd; unfold queued; by rewrite xt_put_waiter).
  unfold flight. rewrite !Hq. pose proof (waiter_msgs_put t w (shared p)) as Hw. fold (waiter t p) in Hw.
  change (shared (put_waiter t w p)) with (<[t := w]> (shared p)).
  rewrite !(Permutation_app_swap_app (option_list _)). by rewrite Hw.
Qed.

Lemma flight_put_waiter_same g t w p : msg_ w = msg_ (waiter t p) -> flight g (put_waiter t w p) ≡ₚ flight g p.
Proof. intros E. eapply Permutation_app_inv_l. rewrite flight_put_waiter. by rewrite E. Qed.

(** A change of one side's queue. *)
Lemma flight_put_messages g sd ms n mx p : g sd = false ->
  flight g (put_xt sd (with_messages ms n mx (xt sd p)) p) ≡ₚ ms ++ queued g (other sd) p ++ waiter_msgs (shared p).
Proof.
  intros Hg. rewrite (flight_sides sd). unfold queued. rewrite Hg, xt_put_xt_eq, xt_put_xt_other, shared_put_xt. done.
Qed.

(** ** Operations *)

Lemma WriteSelf_flight g r msg p :
  g r = false -> (forall t, t ∈ waiters_ (xt r p) -> msg_ (waiter t p) = None) ->
  flight g (WriteSelf r msg p) ≡ₚ msg :: flight g p.
Proof.
  intros Hg Hw. pose proof (WriteSelf_cases r msg p) as Hc. destruct (find_waiter r (msg_get_txid msg) p) as [t|] eqn:Hf.
  - apply find_waiter_some in Hf as [Hin _]. rewrite Hc. pose proof (flight_put_waiter g t (Deliver msg (waiter t p)) (RemoveWaiter r t p)) as Hp.
    assert (waiter t (RemoveWaiter r t p) = waiter t p) as E by (unfold RemoveWaiter, put_waiters; by rewrite waiter_put_xt).
    rewrite E, (Hw t Hin) in Hp. unfold RemoveWaiter in Hp at 2. rewrite flight_put_waiters in Hp. exact Hp.
  - destruct Hc as [mx ->]. rewrite flight_update, (flight_put_messages g r _ _ _ _ Hg), (flight_sides r g p). unfold queued at 2.
    rewrite Hg. by rewrite <- app_assoc, Permutation_middle.
Qed.

Lemma Read_flight g sd o mxs mxh may p : g sd = false ->
  let '(st, sz, om, p') := Read sd o mxs mxh may p in
  flight g p ≡ₚ option_list om ++ flight g p' /\
  (st = ZX_OK -> exists msg, om = Some msg /\ sz = Some (MessagePacket.data_size_ msg, MessagePacket.num_handles_ msg)).
Proof.
  intros Hg. unfold Read. destruct (negb _); [done|]. destruct (messages_ (xt sd p)) as [|msg rest] eqn:Em.
  { by destruct (has_peer sd p). }
  destruct (_ && negb may); [done|]. simpl. split.
  - assert (forall (b : bool) q, flight g (if b then UpdateStateLocked sd ZX_CHANNEL_READABLE 0 q else q) = flight g q) as ->
      by (intros [] q; [apply flight_update | done]).
    rewrite (flight_put_messages g sd _ _ _ _ Hg), (flight_sides sd g p). unfold queued at 1. by rewrite Hg, Em.
  - intros _. by exists msg.
Qed.

Lemma cancel_waiters_flight g ws sd st p : flight g (cancel_waiters ws sd st p) ≡ₚ flight g p.
Proof.
  revert p. induction ws as [|t ws IH]; intros p; simpl; [done|]. rewrite IH, flight_put_waiter_same, flight_put_waiters; [done|].
  done.
Qed.

Lemma flight_put_peer g sd b p : flight g (put_peer sd b p) = flight g p.
Proof. apply flight_same; [intros; by rewrite xt_put_peer | by destruct sd]. Qed.

Lemma close_flight g sd p : flight g (Peered.on_zero_handles sd p) ≡ₚ flight g p.
Proof.
  unfold Peered.on_zero_handles. cbn [Peered.on_zero_handles_locked Peered.OnPeerZeroHandlesLocked Channel_self].
  set (p1 := on_zero_handles_locked sd (put_peer sd false p)).
  assert (flight g p1 ≡ₚ flight g p) as H1
    by (unfold p1, on_zero_handles_locked; by rewrite cancel_waiters_flight, flight_put_peer).
  destruct (has_peer sd p); [|done]. unfold OnPeerZeroHandlesLocked.
  by rewrite cancel_waiters_flight, flight_update, flight_put_peer.
Qed.

Lemma Call_flight g t sd o msg (x : Sys) r p' :
  chan_inv x -> (has_peer sd (pair x) = true -> g (other sd) = false) -> calls x !! t = None -> Call t sd o msg (pair x) = Some (r, p') ->
  exists id, flight g p' ≡ₚ match r with call_waits => [MessagePacket.set_txid id msg] | _ => [] end ++ flight g (pair x).
Proof.
  intros Hi Hg Hc. unfold Call, BeginWait. destruct (channel_ (waiter t (pair x))) eqn:Hch.
  { simpl. intros [= <- <-]. by exists 0. }
  change (is_err ZX_OK) with false. cbn iota. pose proof (ci_idle _ Hi t Hch) as Hm. set (w := mkWaiter _ _ _ _ _).
  set (p1 := put_waiter t w (pair x)). assert (flight g p1 ≡ₚ flight g (pair x)) as H1 by (by apply flight_put_waiter_same).
  assert (waiter t p1 = w) as Ew by apply waiter_put_eq.
  destruct (negb (o =? _)); [intros [= <- <-]; by exists 0|]. destruct (negb _) eqn:Hp.
  { intros [= <- <-]. exists 0. rewrite Ew. simpl. rewrite flight_put_waiter_same; [done|]. by rewrite Ew. }
  destruct (alloc_txid _ sd p1 _) as [[id tx]|]; [|done]. cbn [mbind option_bind]. intros [= <- <-]. exists id.
  apply negb_false_iff in Hp. unfold p1 in Hp. rewrite has_peer_put_waiter in Hp. specialize (Hg Hp).
  set (p2 := put_xt sd (with_txid tx (xt sd p1)) p1).
  assert (flight g p2 = flight g p1) as H2.
  { apply flight_same; [|apply shared_put_xt]. intros sd'. unfold p2. destruct (decide (sd' = sd)) as [->|Hne]; [by rewrite xt_put_xt_eq|].
    assert (sd' = other sd) as -> by (by destruct sd, sd'). by rewrite xt_put_xt_other. }
  set (p3 := put_waiter t (set_wtxid id (waiter t p2)) p2).
  assert (flight g p3 ≡ₚ flight g p2) as H3 by (by apply flight_put_waiter_same).
  rewrite WriteSelf_flight; [by rewrite flight_put_waiters, H3, H2, H1 | done |].
  intros t'. unfold put_waiters, p3, p2. rewrite xt_put_xt_other, xt_put_waiter, xt_put_xt_other, waiter_put_xt.
  unfold p1 at 1. rewrite xt_put_waiter. intros Ht'.
  destruct (sv_waiting _ _ (ci_side _ Hi (other sd)) t' Ht') as [(_ & Hm' & _) Hc'].
  rewrite waiter_put_ne by congruence. rewrite waiter_put_xt. unfold p1. by rewrite waiter_put_ne by congruence.
Qed.

Lemma Call_finish_flight g t sd (x : Sys) :
  chan_inv x -> calls x !! t = Some sd ->
  let '(st, om, p') := Call_finish t sd (pair x) in flight g (pair x) ≡ₚ option_list om ++ flight g p'.
Proof.
  intros Hi Hc. unfold Call_finish. destruct (EndWait (waiter t (pair x))) as [[st om] w] eqn:E.
  assert (flight g (pair x) ≡ₚ option_list om ++ flight g (put_waiter t w (pair x))) as H1.
  { unfold EndWait in E. destruct (channel_ (waiter t (pair x))) eqn:Ech; injection E as <- <- <-.
    - by rewrite flight_put_waiter.
    - by rewrite flight_put_waiter_same. }
  destruct (bool_decide _); [|done]. unfold RemoveWaiter. by rewrite flight_put_waiters.
Qed.

Lemma destroy_waiter_flight g t p :
  flight g p ≡ₚ option_list (msg_ (waiter t p)) ++ flight g (destroy_waiter t p).
Proof.
  unfold destroy_waiter. set (p1 := match channel_ (waiter t p) with Some (this_channel sd) => RemoveWaiter sd t p | _ => p end).
  assert (flight g p1 = flight g p /\ shared p1 = shared p) as [<- Es].
  { unfold p1. destruct (channel_ _) as [[sd|]|]; [|done|done]. unfold RemoveWaiter. rewrite flight_put_waiters. split; [done|].
    unfold put_waiters. apply shared_put_xt. }
  assert (forall sd, queued g sd (put_shared (delete t (shared p1)) p1) = queued g sd p1) as Hq by (intros sd; unfold queued; by rewrite xt_put_shared).
  unfold flight. rewrite !Hq. simpl. rewrite (waiter_msgs_delete t (shared p1)) at 1. unfold waiter. rewrite Es.
  by rewrite !(Permutation_app_swap_app (option_list _)).
Qed.

(** ** The instance *)

Definition koid_of (sd : side) (c : Chans) : Z := koid_ (base (get sd (pair (cs c)))).

(** The open endpoint with a koid. *)
Definition side_of (d : Z) (c : Chans) : option side :=
  if (d =? koid_of Side0 c) && opened (cs c) Side0 then Some Side0
  else if (d =? koid_of Side1 c) && opened (cs c) Side1 then Some Side1
  else None.

Definition put_pair (p : Pair) (c : Chans) : Chans := mkChans (mkChan p (opened (cs c)) (calls (cs c))) (gone c).

(** A call on a channel that is not of this pair finds nothing. *)
#[export] Instance Chans_channel : MessageChannel Chans := {
  mc_Read d o mxs mxh may c :=
    match side_of d c with
    | None => (ZX_ERR_BAD_HANDLE, None, None, c)
    | Some sd => let '(st, sz, om, p) := Read sd o mxs mxh may (pair (cs c)) in (st, sz, om, put_pair p c)
    end;
  mc_Write d o msg c :=
    match side_of d c with
    | None => (ZX_ERR_BAD_HANDLE, c)
    | Some sd => let '(st, p) := Write sd o msg (pair (cs c)) in (st, put_pair p c)
    end;
  mc_Call t d o msg c :=
    match side_of d c, calls (cs c) !! t with
    | Some sd, None =>
        match Call t sd o msg (pair (cs c)) with
        | Some (call_returns st, p) => (Some st, put_pair p c)
        | Some (call_kills_process, p) => (Some ZX_ERR_BAD_STATE, put_pair p c)
        | Some (call_waits, p) => (None, mkChans (mkChan p (opened (cs c)) (<[t := sd]> (calls (cs c)))) (gone c))
        | None => (Some ZX_ERR_INTERNAL, c)
        end
    | _, _ => (Some ZX_ERR_BAD_STATE, c)
    end;
  mc_Call_finish t d c :=
    match calls (cs c) !! t with
    | Some sd =>
        let '(st, om, p) := Call_finish t sd (pair (cs c)) in
        (st, om, mkChans (mkChan p (opened (cs c)) (delete t (calls (cs c)))) (gone c))
    | None => (ZX_ERR_BAD_STATE, None, c)
    end;
}.

Record chans_ok (c : Chans) : Prop := {
  co_inv : chan_inv (cs c);
  co_gone : forall sd, gone c sd = true -> opened (cs c) sd = false;
}.

Definition chans_flight (c : Chans) : list Message := flight (gone c) (pair (cs c)).

(** What happens to the pair besides the calls: endpoints close and are destroyed,
    threads die, owners change, users signal. *)
Inductive chans_step (c : Chans) : list Message -> Chans -> Prop :=
| ch_closes sd :
    opened (cs c) sd = true ->
    chans_step c [] (mkChans (mkChan (Peered.on_zero_handles sd (pair (cs c))) (set_closed sd (opened (cs c))) (calls (cs c))) (gone c))
| ch_destroyed sd :
    opened (cs c) sd = false -> gone c sd = false ->
    chans_step c (messages_ (xt sd (pair (cs c))))
      (mkChans (cs c) (fun sd' => if decide (sd' = sd) then true else gone c sd'))
| ch_thread_dies t sd :
    calls (cs c) !! t = Some sd ->
    chans_step c (option_list (msg_ (waiter t (pair (cs c)))))
      (mkChans (mkChan (destroy_waiter t (pair (cs c))) (opened (cs c)) (delete t (calls (cs c)))) (gone c))
| ch_set_owner sd o : chans_step c [] (put_pair (set_owner sd o (pair (cs c))) c)
| ch_signal_self sd cl st : chans_step c [] (put_pair (user_signal_self sd cl st (pair (cs c))).2 c)
| ch_signal_peer sd cl st : chans_step c [] (put_pair (user_signal_peer sd cl st (pair (cs c))).2 c).

Lemma side_of_open d c sd : side_of d c = Some sd -> opened (cs c) sd = true.
Proof. unfold side_of. repeat case_match; intros; simplify_eq; by repeat match goal with H : _ && _ = true |- _ => apply andb_true_iff in H as [_ H] end. Qed.

Lemma open_not_gone c sd : chans_ok c -> opened (cs c) sd = true -> gone c sd = false.
Proof. intros Hok Ho. destruct (gone c sd) eqn:E; [|done]. by rewrite (co_gone _ Hok sd E) in Ho. Qed.

Lemma peer_not_gone c sd : chans_ok c -> has_peer sd (pair (cs c)) = true -> gone c (other sd) = false.
Proof.
  intros Hok Hp. rewrite (sv_peer _ _ (ci_side _ (co_inv _ Hok) sd)) in Hp. apply andb_true_iff in Hp as [_ Ho]. by apply open_not_gone.
Qed.

Lemma put_pair_ok p c : chans_ok c -> chan_inv (mkChan p (opened (cs c)) (calls (cs c))) -> chans_ok (put_pair p c).
Proof. intros [H1 H2] Hi. by split. Qed.

Lemma set_owner_flight g sd o p : flight g (set_owner sd o p) = flight g p.
Proof.
  unfold set_owner. destruct (_ =? _); [done|]. apply flight_same; [|apply shared_put_xt]. intros sd'.
  destruct (decide (sd' = sd)) as [->|Hne]; [by rewrite xt_put_xt_eq|].
  assert (sd' = other sd) as -> by (by destruct sd, sd'). by rewrite xt_put_xt_other.
Qed.

Lemma chans_step_law c ms c' : chans_step c ms c' -> chans_ok c -> chans_ok c' /\ chans_flight c ≡ₚ ms ++ chans_flight c'.
Proof.
  intros Hs Hok. pose proof (co_inv _ Hok) as Hi. destruct Hs as [sd Ho | sd Ho Hg | t sd Hc | sd o | sd cl st | sd cl st].
  - split; [split; simpl; [by apply close_inv|] | unfold chans_flight; simpl; by rewrite close_flight].
    intros sd' Hg. apply (co_gone _ Hok) in Hg. unfold set_closed. destruct sd, sd'; simpl in *; congruence.
  - split; [split; simpl; [done|]|].
    + intros sd'. destruct (decide (sd' = sd)) as [->|Hne]; [done|]. apply (co_gone _ Hok).
    + unfold chans_flight. simpl. rewrite (flight_sides sd (gone c)), (flight_sides sd). unfold queued.
      rewrite decide_True by done. rewrite (decide_False (P := other sd = sd)) by (by destruct sd). by rewrite Hg.
  - split; [split; simpl; [by eapply destroy_inv | apply (co_gone _ Hok)]|]. unfold chans_flight. simpl. apply destroy_waiter_flight.
  - split; [apply put_pair_ok; [done|]; exact (chan_step_inv _ _ (cs_set_owner _ sd o) Hi)|].
    unfold chans_flight. simpl. by rewrite set_owner_flight.
  - split; [apply put_pair_ok; [done|]; exact (chan_step_inv _ _ (cs_signal_self _ sd cl st) Hi)|].
    unfold chans_flight. simpl. unfold user_signal_self. destruct (_ || _); simpl; [done | by rewrite flight_update].
  - split; [apply put_pair_ok; [done|]; exact (chan_step_inv _ _ (cs_signal_peer _ sd cl st) Hi)|].
    unfold chans_flight. simpl. unfold user_signal_peer. destruct (_ || _); simpl; [done|].
    destruct (negb _); simpl; [done | by rewrite flight_update].
Qed.

#[export] Instance Chans_laws : MessageChannelLaws Chans.
Proof.
  refine {| mc_ok := chans_ok; mc_flight := chans_flight; mc_step := chans_step; mc_step_law := chans_step_law |}.
  - intros d o mxs mxh may c Hok. cbn [mc_Read Chans_channel]. destruct (side_of d c) as [sd|] eqn:Es; [|done].
    apply side_of_open in Es. pose proof (Read_flight (gone c) sd o mxs mxh may (pair (cs c)) (open_not_gone c sd Hok Es)) as Hf.
    pose proof (chan_read_inv sd o mxs mxh may (cs c) (co_inv _ Hok)) as Hi.
    destruct (Read sd o mxs mxh may (pair (cs c))) as [[[st sz] om] p']. split; [by apply put_pair_ok | exact Hf].
  - intros d o msg c Hok. cbn [mc_Write Chans_channel]. destruct (side_of d c) as [sd|] eqn:Es; [|done].
    pose proof (chan_write_inv sd o msg (cs c) (co_inv _ Hok)) as Hi. unfold Write in *.
    destruct (negb (o =? _)); [by split; [apply put_pair_ok|]|].
    destruct (has_peer sd (pair (cs c))) eqn:Hp; [|by split; [apply put_pair_ok|]]. simpl in *.
    split; [by apply put_pair_ok|]. unfold chans_flight. simpl. apply WriteSelf_flight; [by apply peer_not_gone|].
    intros t Ht. by destruct (sv_waiting _ _ (ci_side _ (co_inv _ Hok) (other sd)) t Ht) as [(_ & ? & _) _].
  - intros t d o msg c Hok. cbn [mc_Call Chans_channel]. destruct (side_of d c) as [sd|] eqn:Es; [|by split; [|exists 0]].
    destruct (calls (cs c) !! t) as [sd'|] eqn:Et; [by split; [|exists 0]|].
    destruct (Call t sd o msg (pair (cs c))) as [[r p']|] eqn:Ec; [|by split; [|exists 0]].
    pose proof (Call_inv t sd o msg (cs c) r p' (co_inv _ Hok) Et Ec) as Hi.
    destruct (Call_flight (gone c) t sd o msg (cs c) r p' (co_inv _ Hok) (peer_not_gone c sd Hok) Et Ec) as [id Hf].
    destruct r; (split; [split; [exact Hi | apply (co_gone _ Hok)] | exists id; exact Hf]).
  - intros t d c Hok. cbn [mc_Call_finish Chans_channel]. destruct (calls (cs c) !! t) as [sd|] eqn:Et; [|done].
    pose proof (Call_finish_flight (gone c) t sd (cs c) (co_inv _ Hok) Et) as Hf.
    pose proof (Call_finish_spec t sd (cs c) (co_inv _ Hok) Et) as Hs.
    destruct (Call_finish t sd (pair (cs c))) as [[st om] p']. destruct Hs as [Hi Ho].
    split_and!; [split; [exact Hi | apply (co_gone _ Hok)] | exact Hf |]. intros ->. destruct Ho as (msg & -> & _). by eexists.
Defined.
End Flight.
