(* ===== verification/HandleScenarios.v ===== *)
(** * Handles sent from one process to another

    Runs of the whole handle system: the arena is [GPArena], the channel a pair of
    [ChannelDispatcher]s.  They show that the properties of the system are about
    states that exist, and what two failures lead to. *)

From S2P Require Import Prelude Zx UserCopy Dispatcher Peered MessagePacket Channel ChannelFacts GPArena.
From S2P Require Import GPArenaFacts SlotArena Handle HandleFacts ProcessHandles ProcessHandlesFacts.
From S2P Require Import ChannelSyscalls ChannelSyscallsFacts ChannelFlight HandleSystem.
Import Handle ProcessHandles ChannelSyscalls.

#[local] Instance handle_arena : SlotArena GPArena.GPArena := GPArena_slots sizeof_Handle.
#[local] Instance handle_arena_laws : SlotArenaLaws GPArena.GPArena sizeof_Handle kMaxHandleCount :=
  GPArena_slot_laws sizeof_Handle kMaxHandleCount ltac:(done) ltac:(done).

Abbreviation ExChans := (Chans (W := unit) (O := Empty_set)).
Abbreviation ExSys := (KSys (A := GPArena.GPArena) (C := ExChans)).

(** The channel has endpoints 10 and 11; every object can be waited on. *)
Definition ex_type (d : Z) : Z := if (d =? 10) || (d =? 11) then ZX_OBJ_TYPE_CHANNEL else 5.
Definition ex_waitable (d : Z) : bool := true.

Definition ex_slots : GPArena.GPArena :=
  match GPArena.Init sizeof_Handle kMaxHandleCount ZX_OK true (Some 0x100000) with
  | inr a => a
  | inl _ => ex_arena
  end.

Definition ex_chans : ExChans := mkChans (mkChan ex_pair (fun _ => true) ∅) (fun _ => false).
Definition ex_init : ExSys := mkKSys (mkTable ex_slots ∅ ∅ []) ∅ (repeat [] 4) ex_chans ∅ [] [].

Lemma ex_init_ok : k_init ex_init.
Proof.
  exists ex_slots. split_and!; try done.
  - split; [split | |]; try done.
    + by exists 0.
    + exists []. split_and!; [done | apply NoDup_nil_2 |]. split.
      * intros n [| |t]; simpl; [by intros ?%not_elem_of_nil | done | intros (q & H & _); by rewrite lookup_empty in H].
      * intros n [| |t] o' H; simpl in H; [by apply not_elem_of_nil in H | done |]. destruct H as (q & H & _). by rewrite lookup_empty in H.
      * intros n (k & Hk & -> & Hle). change (GPArena.top_ _) with (GPArena.start_ ex_slots) in Hle. unfold sizeof_Handle in Hle. simpl in Hle. lia.
  - split; [|done]. apply (Create_chan_inv 10 11 ∅ tt); [apply map_Forall_empty | done].
Qed.

(** ** A scheduler *)

Inductive action :=
| AProcess (pid secret : Z)
| AMake (pid d rights : Z)
| AOwner (sd : side) (pid : Z)
| ACursor (pid : Z)
| AWrite (pid channel : Z) (values : list Z)
| AWriteEtc (pid channel : Z) (ds : list zx_handle_disposition_t) (mem_ok : bool)
| ARead (pid channel : Z) (copy_status : zx_status_t).

Definition no_bytes : user_in_ptr := {| ui_mem := fun _ => None; ui_ptr := None |}.
Definition no_buffer : user_out_ptr := {| uo_ok := fun _ => false; uo_ptr := None |}.
Definition array {V} (d : V) (vs : list V) : user_array V := mkUserArray (fun i => nth (Z.to_nat i) vs d) (fun _ _ => ZX_OK).
Definition no_disposition : zx_handle_disposition_t := mkDisposition 0 0 0 0 ZX_OK.

Definition do_write (channel : Z) (vs : list Z) (c : Ctx) : option (zx_status_t * Ctx) :=
  sys_channel_write ex_waitable ex_type channel 0 no_bytes 0 (array 0 vs) (array 0 vs) (zlen vs) (fun _ => true) ZX_OK [] c.
Definition do_write_etc (channel : Z) (ds : list zx_handle_disposition_t) (mem_ok : bool) (c : Ctx) : option (zx_status_t * Ctx) :=
  sys_channel_write_etc ex_waitable ex_type channel 0 no_bytes 0 (array no_disposition ds) (array no_disposition ds) (zlen ds)
    (fun _ => mem_ok) ZX_OK [] c.
Definition do_read (channel : Z) (copy_status : zx_status_t) (c : Ctx) : option (read_out Z * Ctx) :=
  sys_channel_read ex_waitable ex_type channel 0 no_buffer 0 64 None None copy_status c.

Definition act (a : action) (x : ExSys) : option ExSys :=
  match a with
  | AProcess pid secret =>
      if bool_decide (k_ps x !! pid = None) && negb (pid =? ZX_KOID_INVALID)
      then Some (mkKSys (k_tbl x) (<[pid := new_process pid secret]> (k_ps x)) (k_pmm x) (k_chan x) (k_umem x) (k_counters x) (k_lost x))
      else None
  | AMake pid d rights =>
      p ← k_ps x !! pid;
      match Make d rights true (k_tbl x) with
      | (Some h, t) => Some (after x pid (with_result (copyout ex_waitable h true t p) (ctx x p)) [])
      | (None, _) => None
      end
  | AOwner sd pid =>
      Some (mkKSys (k_tbl x) (k_ps x) (k_pmm x) (put_pair (ChannelDispatcher.set_owner sd pid (pair (cs (k_chan x)))) (k_chan x))
              (k_umem x) (k_counters x) (k_lost x))
  | ACursor pid => p ← k_ps x !! pid; Some (after x pid (with_tp (k_tbl x) (new_cursor p) (ctx x p)) [])
  | AWrite pid channel vs => p ← k_ps x !! pid; '(_, c) ← do_write channel vs (ctx x p); Some (after x pid c [])
  | AWriteEtc pid channel ds ok => p ← k_ps x !! pid; '(_, c) ← do_write_etc channel ds ok (ctx x p); Some (after x pid c [])
  | ARead pid channel st => p ← k_ps x !! pid; '(out, c) ← do_read channel st (ctx x p); Some (after x pid c (lost_by out))
  end.

Fixpoint acts (l : list action) (x : ExSys) : option ExSys :=
  match l with
  | [] => Some x
  | a :: l => x ← act a x; acts l x
  end.

Lemma act_step a x x' : act a x = Some x' -> some_kstep ex_waitable ex_type x x'.
Proof.
  destruct a as [pid secret | pid d r | sd pid | pid | pid v vs | pid v ds ok | pid v st]; simpl.
  - case_bool_decide; simpl; [|done]. destruct (Z.eqb_spec pid ZX_KOID_INVALID); [done|]. intros [= <-]. exists None. by constructor.
  - destruct (k_ps x !! pid) as [p|] eqn:Ep; simpl; [|done]. destruct (Make d r true (k_tbl x)) as [[h|] t] eqn:Em; [|done].
    intros [= <-]. exists (Some (d, r)). exact (ks_make _ _ x pid p d r true true h t Ep Em).
  - intros [= <-]. exists None. exact (ks_channels ex_waitable ex_type x [] _ (ch_set_owner (k_chan x) sd pid)).
  - destruct (k_ps x !! pid) as [p|] eqn:Ep; simpl; [|done]. intros [= <-]. exists None. apply ks_call with p; [done|].
    exact (sc_new_cursor _ _ (ctx x p)).
  - destruct (k_ps x !! pid) as [p|] eqn:Ep; simpl; [|done]. destruct (do_write v vs (ctx x p)) as [[st c]|] eqn:E; simpl; [|done].
    intros [= <-]. exists None. apply ks_call with p; [done|]. eapply sc_write; [|exact E]. unfold zlen. lia.
  - destruct (k_ps x !! pid) as [p|] eqn:Ep; simpl; [|done]. destruct (do_write_etc v ds ok (ctx x p)) as [[st c]|] eqn:E; simpl; [|done].
    intros [= <-]. exists None. apply ks_call with p; [done|]. eapply sc_write_etc; [|exact E]. unfold zlen. lia.
  - destruct (k_ps x !! pid) as [p|] eqn:Ep; simpl; [|done]. destruct (do_read v st (ctx x p)) as [[out c]|] eqn:E; simpl; [|done].
    intros [= <-]. exists None. apply ks_call with p; [done|]. by eapply sc_read.
Qed.

Lemma acts_steps l x x' : acts l x = Some x' -> rtc (some_kstep ex_waitable ex_type) x x'.
Proof.
  revert x. induction l as [|a l IH]; intros x; simpl; [by intros [= ->]|].
  destruct (act a x) as [y|] eqn:E; simpl; [|done]. intros H. eapply rtc_l; [by eapply act_step | by apply IH].
Qed.

Lemma steps_reachable x x' : rtc (some_kstep ex_waitable ex_type) x x' -> k_reachable ex_waitable ex_type x ->
  k_reachable ex_waitable ex_type x'.
Proof. induction 1 as [|x y z [lab Hs] _ IH]; [done|]. intros Hx. apply IH. by econstructor. Qed.

Definition ex_run (l : list action) : ExSys := default ex_init (acts l ex_init).

Lemma ex_run_reachable l : k_reachable ex_waitable ex_type (ex_run l).
Proof.
  unfold ex_run. destruct (acts l ex_init) as [x|] eqn:E; simpl; [|constructor; apply ex_init_ok].
  eapply steps_reachable; [by eapply acts_steps | constructor; apply ex_init_ok].
Qed.

(** ** The runs

    Processes 1 and 2 have an endpoint of the channel each, and process 1 a handle
    to object 20.  The [i]-th slot's first handle has the value [val i] in both. *)

Definition ex_rights : Z := ZX_RIGHT_TRANSFER .| ZX_RIGHT_DUPLICATE .| ZX_RIGHT_READ .| ZX_RIGHT_WRITE.
Definition val (i : Z) : Z := 0x100003 + 4 * i.
Definition slot_at (i : Z) : Z := 0x100000 + 40 * i.

Definition ex_setup : list action :=
  [AProcess 1 0; AProcess 2 0; AMake 1 10 ex_rights; AMake 2 11 ex_rights; AMake 1 20 ex_rights; AOwner Side0 1; AOwner Side1 2].

Definition proc (pid : Z) (x : ExSys) : Process := default (new_process 0 0) (k_ps x !! pid).
Definition has_handle (pid h : Z) (x : ExSys) : bool := bool_decide (h ∈ handles_ (proc pid x)).

Definition ex_ready : ExSys := ex_run ex_setup.
Definition ex_sent : ExSys := ex_run (ex_setup ++ [AWrite 1 (val 0) [val 2]]).
Definition ex_received : ExSys := ex_run (ex_setup ++ [AWrite 1 (val 0) [val 2]; ACursor 2; ARead 2 (val 1) ZX_OK]).
Definition ex_lost : ExSys := ex_run (ex_setup ++ [AWrite 1 (val 0) [val 2]; ARead 2 (val 1) ZX_ERR_INVALID_ARGS]).

(** A handle in a message is nobody else's. *)
Lemma handle_ownership_witness :
  owns ex_sent in_message (slot_at 2) /\ ~ owns ex_sent (by_process 1) (slot_at 2) /\ handle_count 20 (k_tbl ex_sent) = 1.
Proof.
  assert (owns ex_sent in_message (slot_at 2)) as Hm.
  { change (slot_at 2 ∈ all_handles (mc_flight (k_chan ex_sent))). apply (bool_decide_unpack _). by vm_compute. }
  destruct (handle_ownership ex_waitable ex_type ex_sent (ex_run_reachable _)) as (L & _ & _ & Hu & _).
  split_and!; [done | | by vm_compute]. intros Ho. by specialize (Hu _ _ _ Hm Ho).
Defined.

Lemma process_handle_lookup_witness :
  GetHandleLocked (val 2) true (k_tbl ex_received) (proc 2 ex_received) = (Some (slot_at 2), k_tbl ex_received).
Proof.
  apply (process_handle_lookup ex_waitable ex_type ex_received 2 (proc 2 ex_received) (val 2) (slot_at 2) true).
  - apply ex_run_reachable.
  - by vm_compute.
  - done.
  - split; [apply (bool_decide_unpack _); by vm_compute | by vm_compute].
Defined.

Lemma handle_authority_witness : exists (x' : ExSys) (L L' : gset Z),
  sa_ok L (arena_ (k_tbl ex_sent)) /\ sa_ok L' (arena_ (k_tbl x')) /\ grants None L (k_tbl ex_sent) L' (k_tbl x').
Proof.
  assert (k_ps ex_sent !! 2 = Some (proc 2 ex_sent)) as Hp by by vm_compute.
  exists (after ex_sent 2 (with_tp (k_tbl ex_sent) (new_cursor (proc 2 ex_sent)) (ctx ex_sent (proc 2 ex_sent))) []).
  apply (handle_authority ex_waitable ex_type ex_sent None); [apply ex_run_reachable|].
  eapply ks_call; [exact Hp|]. exact (sc_new_cursor _ _ (ctx ex_sent (proc 2 ex_sent))).
Defined.

Lemma handle_cursors_valid_witness : process_id_ (slot (slot_at 1) (k_tbl ex_received)) = 2.
Proof.
  apply (handle_cursors_valid ex_waitable ex_type ex_received 2 (proc 2 ex_received) (slot_at 1)).
  - apply ex_run_reachable.
  - by vm_compute.
  - apply (bool_decide_unpack _). by vm_compute.
Defined.

Lemma lost_handles_are_never_closed_witness :
  exists d, dispatcher_ (slot (slot_at 2) (k_tbl ex_lost)) = Some d /\ 0 < handle_count d (k_tbl ex_lost).
Proof.
  apply (lost_handles_are_never_closed ex_waitable ex_type ex_lost ex_lost (slot_at 2)).
  - apply ex_run_reachable.
  - apply (bool_decide_unpack _). by vm_compute.
  - constructor.
Defined.

Lemma received_handles_resolve_witness :
  exists out c', do_read (val 1) ZX_OK (ctx ex_sent (proc 2 ex_sent)) = Some (out, c') /\ ro_values out = [val 2] /\
    same_but_owner (k_tbl ex_sent) (tbl c').
Proof.
  assert (k_ps ex_sent !! 2 = Some (proc 2 ex_sent)) as Hp by by vm_compute.
  destruct (do_read (val 1) ZX_OK (ctx ex_sent (proc 2 ex_sent))) as [[out c']|] eqn:E; [|exfalso; revert E; vm_compute; discriminate].
  exists out, c'. split; [done|].
  assert ((fun r => (ro_status r.1, ro_values r.1)) <$> do_read (val 1) ZX_OK (ctx ex_sent (proc 2 ex_sent)) = Some (ZX_OK, [val 2])) as Ev
    by by vm_compute.
  rewrite E in Ev. injection Ev as Es Ev. split; [exact Ev|].
  destruct (received_handles_resolve ex_waitable ex_type ex_sent 2 (proc 2 ex_sent) _ _ _ _ _ _ _ _ out c' (ex_run_reachable _) Hp E Es)
    as (msg & _ & _ & Hs & _). exact Hs.
Defined.

(** ** Failures *)

Lemma fmap_result {S X Y} (f : X -> Y) (o : option (S * X)) st y :
  (fun r => (r.1, f r.2)) <$> o = Some (st, y) -> exists c, o = Some (st, c) /\ f c = y.
Proof. destruct o as [[st' c]|]; [|done]. intros [= <- <-]. by exists c. Qed.

(** Process 1 has used up the handles of the memory the arena has committed. *)
Definition ex_full : ExSys := ex_run (ex_setup ++ repeat (AMake 1 20 ex_rights) 406).
Definition dup_of (v : Z) : zx_handle_disposition_t := mkDisposition ZX_HANDLE_OP_DUPLICATE v ZX_OBJ_TYPE_NONE ZX_RIGHT_SAME_RIGHTS ZX_OK.


(** A failing [zx_channel_write_etc] closes the handles whose values happen to be on
    the kernel stack where [RemoveUserHandles] has its array: the entries of
    duplicate operations are not written. *)
Theorem failed_write_closes_stack_values :
  k_reachable ex_waitable ex_type ex_ready /\ has_handle 1 (slot_at 2) ex_ready = true /\
  exists c, sys_channel_write_etc ex_waitable ex_type (val 0) 1 no_bytes 0 (array no_disposition [dup_of (val 0)])
              (array no_disposition [dup_of (val 0)]) 1 (fun _ => true) ZX_OK [val 2] (ctx ex_ready (proc 1 ex_ready))
            = Some (ZX_ERR_INVALID_ARGS, c) /\
            has_handle 1 (slot_at 2) (after ex_ready 1 c []) = false.
Proof.
  split; [apply ex_run_reachable|]. split; [by vm_compute|].
  apply (fmap_result (fun c => has_handle 1 (slot_at 2) (after ex_ready 1 c []))). by vm_compute.
Qed.

(** [zx_handle_close_many] of 65 values with a bad one in the first 64 reports
    success: the status of a chunk replaces that of the chunks before. *)
Theorem close_many_hides_errors :
  (fun r => r.1.1) <$> sys_handle_close_many ex_waitable (copy_array (array 0 ([7] ++ repeat 0 63 ++ [val 2]))) 65 []
                         (k_tbl ex_ready) (proc 1 ex_ready) = Some ZX_OK /\
  (fun r => r.1.1) <$> sys_handle_close_many ex_waitable (copy_array (array 0 ([7] ++ repeat 0 63))) 64 []
                         (k_tbl ex_ready) (proc 1 ex_ready) = Some ZX_ERR_BAD_HANDLE.
Proof. split; by vm_compute. Qed.

(** Process 1 sends a handle without the right to transfer it: [zx_channel_write]
    closes it, [zx_channel_call] leaves it open, although a comment says that there
    all handles are consumed. *)
Definition ex_untransferable : ExSys := ex_run (ex_setup ++ [AMake 1 21 ZX_RIGHT_READ]).
Definition four_bytes : user_in_ptr := {| ui_mem := fun _ => Some 0; ui_ptr := Some USER_ASPACE_BASE |}.

Theorem failed_call_keeps_handles :
  (fun r => (r.1, has_handle 1 (slot_at 3) (after ex_untransferable 1 r.2 []))) <$>
    do_write (val 0) [val 3] (ctx ex_untransferable (proc 1 ex_untransferable)) = Some (ZX_ERR_ACCESS_DENIED, false) /\
  (fun r => (r.1, has_handle 1 (slot_at 3) (after ex_untransferable 1 r.2 []))) <$>
    sys_channel_call_noretry ex_waitable ex_type 5 (val 0) 0 (inr (mkCallArgs four_bytes no_buffer 4 1 0 0))
      (array 0 [val 3]) (array 0 [val 3]) (fun _ => true) [] (ctx ex_untransferable (proc 1 ex_untransferable))
    = Some (Some ZX_ERR_ACCESS_DENIED, true).
Proof. split; by vm_compute. Qed.
