(* ===== verification/WaitObserver.v ===== *)
(** * Waiting for objects

    [object/wait_state_observer.cc] and [zx_object_wait_one] and
    [zx_object_wait_many] of [syscalls/object_wait.cc].  A call plants one observer
    per object, all of them on one event, waits for the event and takes the
    observers away again.  An observer is kept, with its fields, in the list of the
    object it is planted on.  Of an event only its result is seen here: [None] while
    it is not signaled; [Semaphore.v] has the rest.  A call is two definitions, up to
    the wait and after it; the kernel runs in between.  Handles are the results of
    [GetHandleLocked], and statuses of copies are arguments. *)

From S2P Require Import Prelude Zx Dispatcher Handle.

Module WaitStateObserver.

(** [self] is the address of the observer. *)
Record WaitStateObserver := mkObserver {
  self : Z;
  handle_ : Z;
  event_ : Z;
  watched_signals_ : Z;
  wakeup_reasons_ : Z;
}.

Abbreviation Events := (gmap Z (option zx_status_t)).

(** The first signal is the result. *)
Definition Signal (e : Z) (status : zx_status_t) (ev : Events) : Events :=
  match ev !! e with Some None => <[e := Some status]> ev | _ => ev end.

Definition set_reasons (r : Z) (o : WaitStateObserver) : WaitStateObserver :=
  mkObserver (self o) (handle_ o) (event_ o) (watched_signals_ o) r.

Definition OnInitialize (initial_state : Z) (cinfo : option CountInfo) (o : WaitStateObserver) (ev : Events)
    : Flags * WaitStateObserver * Events :=
  (0, set_reasons initial_state o,
   if has initial_state (watched_signals_ o) then Signal (event_ o) ZX_OK ev else ev).

Definition OnStateChange (new_state : Z) (o : WaitStateObserver) (ev : Events) : Flags * WaitStateObserver * Events :=
  (0, set_reasons (wakeup_reasons_ o .| new_state) o,
   if has new_state (watched_signals_ o) then Signal (event_ o) ZX_OK ev else ev).

Definition OnCancel (handle : Z) (o : WaitStateObserver) (ev : Events) : Flags * WaitStateObserver * Events :=
  if handle =? handle_ o
  then (kHandled, set_reasons (wakeup_reasons_ o .| ZX_SIGNAL_HANDLE_CLOSED) o, Signal (event_ o) ZX_ERR_CANCELED ev)
  else (0, o, ev).

(** [OnCancelByKey] and [OnRemoved] are those of the base class. *)
#[export] Instance WaitStateObserver_observer : StateObserver Events WaitStateObserver := {
  observer_id := self;
  Dispatcher.OnInitialize := OnInitialize;
  Dispatcher.OnStateChange := OnStateChange;
  Dispatcher.OnCancel := OnCancel;
  Dispatcher.OnCancelByKey _ _ _ o ev := (0, o, ev);
  Dispatcher.OnRemoved _ ev := ev;
}.

#[export] Instance WaitStateObserver_laws : StateObserverLaws Events WaitStateObserver.
Proof. split; try done. intros h o w. simpl. unfold OnCancel. by destruct (h =? handle_ o). Qed.

(** The objects by koid, and the events. *)
Record Waits := mkWaits {
  objects : gmap Z (Dispatcher WaitStateObserver);
  events : Events;
}.

Definition put_object (k : Z) (d : Dispatcher WaitStateObserver) (ev : Events) (w : Waits) : Waits :=
  mkWaits (<[k := d]> (objects w)) ev.

(** [rights k]: the default rights of the object with koid [k].  [None]: there is
    no such object. *)
Definition Begin (rights : Z -> Z) (id e h k watched_signals : Z) (w : Waits) : option (zx_status_t * Waits) :=
  d ← objects w !! k;
  let '(st, d, ev) := AddObserver (rights k) (mkObserver id h e watched_signals 0) d (events w) in
  Some (st, put_object k d ev w).

(** [None]: the observer is not on the object, against the assertion. *)
Definition End_ (id k : Z) (w : Waits) : option (Z * Waits) :=
  d ← objects w !! k;
  o ← list_find (fun o => self o = id) (observers_ d);
  let '(removed, d) := RemoveObserver id d in
  if removed then Some (wakeup_reasons_ o.2, put_object k d (events w) w) else None.

(** ** System calls *)

(** What a call has planted: the observer and the object it is on. *)
Record item := mkItem { it_observer : Z; it_koid : Z; it_handle : Z; it_signals : Z }.
#[export] Instance item_eq_dec : EqDecision item.
Proof. solve_decision. Defined.

(** The handle is [None] when the value names none; [h] is its address. *)
Definition begin_item (rights : Z -> Z) (id e h : Z) (handle : option Handle.Handle) (signals : Z) (w : Waits)
    : option (zx_status_t * option item * Waits) :=
  match handle with
  | None => Some (ZX_ERR_BAD_HANDLE, None, w)
  | Some s =>
      if negb (Handle.HasRights ZX_RIGHT_WAIT s) then Some (ZX_ERR_ACCESS_DENIED, None, w)
      else
        k ← Handle.dispatcher_ s;
        '(st, w) ← Begin rights id e h k signals w;
        Some (st, if bool_decide (st = ZX_OK) then Some (mkItem id k h signals) else None, w)
  end.

Definition new_event (e : Z) (w : Waits) : Waits := mkWaits (objects w) (<[e := None]> (events w)).
Definition delete_event (e : Z) (w : Waits) : Waits := mkWaits (objects w) (delete e (events w)).

(** The call up to the wait. *)
Definition sys_object_wait_one (rights : Z -> Z) (id e h : Z) (handle : option Handle.Handle) (signals : Z) (w : Waits)
    : option (zx_status_t * option item * Waits) :=
  '(st, it, w) ← begin_item rights id e h handle signals (new_event e w);
  Some (st, it, if bool_decide (it = None) then delete_event e w else w).

(** The call after the wait, which gave [result]; [observed]: no pointer, or the
    status of the copy. *)
Definition wait_one_finish (it : item) (e : Z) (result : zx_status_t) (observed : option zx_status_t) (w : Waits)
    : option (zx_status_t * Z * Waits) :=
  '(signals_state, w) ← End_ (it_observer it) (it_koid it) w;
  let w := delete_event e w in
  match observed with
  | Some st =>
      if negb (bool_decide (st = ZX_OK)) then Some (st, signals_state, w)
      else if has signals_state ZX_SIGNAL_HANDLE_CLOSED then Some (ZX_ERR_CANCELED, signals_state, w)
      else Some (result, signals_state, w)
  | None =>
      if has signals_state ZX_SIGNAL_HANDLE_CLOSED then Some (ZX_ERR_CANCELED, signals_state, w)
      else Some (result, signals_state, w)
  end.

Definition kMaxWaitHandleCount : Z := 16.

(** A request: the observer, the address of the handle, the handle, the signals. *)
Record request := mkRequest { rq_observer : Z; rq_h : Z; rq_handle : option Handle.Handle; rq_signals : Z }.

(** The loop that plants the observers: the status, and those planted. *)
Fixpoint begin_items (rights : Z -> Z) (e : Z) (rs : list request) (w : Waits) : option (zx_status_t * list item * Waits) :=
  match rs with
  | [] => Some (ZX_OK, [], w)
  | r :: rs =>
      '(st, it, w) ← begin_item rights (rq_observer r) e (rq_h r) (rq_handle r) (rq_signals r) w;
      match it with
      | None => Some (st, [], w)
      | Some it => '(st, its, w) ← begin_items rights e rs w; Some (st, it :: its, w)
      end
  end.

Fixpoint end_items (its : list item) (w : Waits) : option (list Z * Waits) :=
  match its with
  | [] => Some ([], w)
  | it :: its =>
      '(s, w) ← End_ (it_observer it) (it_koid it) w;
      '(ss, w) ← end_items its w;
      Some (s :: ss, w)
  end.

(** The call up to the wait, for at least one item; [sleep_result] is that of the
    sleep when there is none.  The call goes on to wait when the status is [ZX_OK]. *)
Definition sys_object_wait_many (rights : Z -> Z) (e : Z) (rs : list request) (copy_status sleep_result : zx_status_t) (w : Waits)
    : option (zx_status_t * list item * Waits) :=
  if bool_decide (rs = []) then
    Some (if negb (bool_decide (sleep_result = ZX_OK)) then sleep_result else ZX_ERR_TIMED_OUT, [], w)
  else if zlen rs >? kMaxWaitHandleCount then Some (ZX_ERR_OUT_OF_RANGE, [], w)
  else if negb (bool_decide (copy_status = ZX_OK)) then Some (ZX_ERR_INVALID_ARGS, [], w)
  else
    '(st, its, w) ← begin_items rights e rs (new_event e w);
    if negb (bool_decide (st = ZX_OK)) then '(_, w) ← end_items its w; Some (st, [], delete_event e w)
    else Some (ZX_OK, its, w).

Definition wait_many_finish (its : list item) (e : Z) (result copy_status : zx_status_t) (w : Waits)
    : option (zx_status_t * list Z * Waits) :=
  '(pending, w) ← end_items its w;
  let w := delete_event e w in
  let combined := foldl Z.lor 0 pending in
  if negb (bool_decide (copy_status = ZX_OK)) then Some (ZX_ERR_INVALID_ARGS, pending, w)
  else if has combined ZX_SIGNAL_HANDLE_CLOSED then Some (ZX_ERR_CANCELED, pending, w)
  else Some (result, pending, w).

(** ** What happens in between *)

(** An object changes its signals. *)
Definition change_signals (k clear set : Z) (w : Waits) : option Waits :=
  d ← objects w !! k;
  let '(d, ev) := UpdateState clear set d (events w) in
  Some (put_object k d ev w).

(** A handle to the object is closed. *)
Definition close_handle (h k : Z) (w : Waits) : option Waits :=
  d ← objects w !! k;
  let '(d, ev) := Cancel h d (events w) in
  Some (put_object k d ev w).

End WaitStateObserver.
