(* ===== verification/WaitObserverFacts.v ===== *)
(** * Correctness of waiting for objects

    Any number of threads wait for any objects, while the objects change their
    signals and handles are closed.  A call is woken when it should be, and what it
    reports is why it was woken. *)

From S2P Require Import Prelude Zx Dispatcher Handle WaitObserver.
Import WaitStateObserver.

(** ** Signals are subsets *)

Definition sub (a b : Z) : Prop := Z.land a b = a.

Lemma sub_refl a : sub a a.
Proof. apply Z.land_diag. Qed.

Lemma sub_lor_r a b c : sub a c -> sub a (b .| c).
Proof. unfold sub. intros H. rewrite Z.land_lor_distr_r, H. apply Z.bits_inj'. intros n _. rewrite Z.lor_spec, Z.land_spec. by destruct (Z.testbit a n), (Z.testbit b n). Qed.

Lemma sub_lor_l a b c : sub a b -> sub a (b .| c).
Proof. intros H. rewrite Z.lor_comm. by apply sub_lor_r. Qed.

Lemma has_sub a b m : sub a b -> has a m = true -> has b m = true.
Proof.
  unfold sub, has. rewrite !negb_true_iff, !Z.eqb_neq. intros H Ha Hb. apply Ha. rewrite <- H, <- Z.land_assoc, Hb. apply Z.land_0_r.
Qed.

Definition closed (o : WaitStateObserver) : bool := has (wakeup_reasons_ o) ZX_SIGNAL_HANDLE_CLOSED.
Definition satisfied (o : WaitStateObserver) : bool := has (wakeup_reasons_ o) (watched_signals_ o).

(** ** Callbacks over the list of observers *)

(** [g]: what becomes of an observer; [c]: what it signals. *)
Definition signals_of (c : WaitStateObserver -> option zx_status_t) (obs : list WaitStateObserver) (ev : Events) : Events :=
  foldl (fun ev o => match c o with Some st => Signal (event_ o) st ev | None => ev end) ev obs.

Definition seen (s : Z) (o : WaitStateObserver) : WaitStateObserver := set_reasons (wakeup_reasons_ o .| s) o.
Definition wakes (s : Z) (o : WaitStateObserver) : option zx_status_t := if has s (watched_signals_ o) then Some ZX_OK else None.
Definition cancelled (h : Z) (o : WaitStateObserver) : WaitStateObserver :=
  if h =? handle_ o then set_reasons (wakeup_reasons_ o .| ZX_SIGNAL_HANDLE_CLOSED) o else o.
Definition cancels (h : Z) (o : WaitStateObserver) : option zx_status_t := if h =? handle_ o then Some ZX_ERR_CANCELED else None.

Lemma notify_is_sweep s obs ev : notify_loop s obs ev = (map (seen s) obs, signals_of (wakes s) obs ev).
Proof.
  revert ev. induction obs as [|o obs IH]; intros ev; simpl; [done|]. unfold wakes at 2. rewrite IH. by destruct (has s (watched_signals_ o)).
Qed.

Lemma cancel_is_sweep h f obs ev :
  (cancel_loop (OnCancel h) f obs ev).1.2 = map (cancelled h) obs /\ (cancel_loop (OnCancel h) f obs ev).2 = signals_of (cancels h) obs ev.
Proof.
  revert f ev. induction obs as [|o obs IH]; intros f ev; simpl; [done|]. unfold OnCancel, cancelled at 1, cancels at 2.
  destruct (h =? handle_ o); simpl.
  - specialize (IH (f .| kHandled) (Signal (event_ o) ZX_ERR_CANCELED ev)). destruct (cancel_loop _ _ _ _) as [[f' r] w']. simpl in *. by destruct IH as [-> ->].
  - specialize (IH (f .| 0) ev). destruct (cancel_loop _ _ _ _) as [[f' r] w']. simpl in *. by destruct IH as [-> ->].
Qed.

Lemma Signal_spec e st ev e' :
  Signal e st ev !! e' = if decide (e' = e) then match ev !! e with Some None => Some (Some st) | x => x end else ev !! e'.
Proof.
  unfold Signal. destruct (decide (e' = e)) as [->|Hne].
  - destruct (ev !! e) as [[r|]|] eqn:E; [by rewrite E | by rewrite lookup_insert_eq | by rewrite E].
  - destruct (ev !! e) as [[r|]|]; [done | by rewrite lookup_insert_ne | done].
Qed.

(** A result is the first signal and stays. *)
Lemma signals_of_spec c obs ev e :
  match ev !! e with
  | Some None =>
      (signals_of c obs ev !! e = Some None /\ forall o, o ∈ obs -> event_ o = e -> c o = None) \/
      (exists o st, o ∈ obs /\ event_ o = e /\ c o = Some st /\ signals_of c obs ev !! e = Some (Some st))
  | x => signals_of c obs ev !! e = x
  end.
Proof.
  revert ev. unfold signals_of. induction obs as [|o obs IH]; intros ev; simpl.
  { destruct (ev !! e) as [[r|]|] eqn:E; [done | | done]. left. split; [done|]. by intros o ?%not_elem_of_nil. }
  destruct (c o) as [st|] eqn:Ec.
  - specialize (IH (Signal (event_ o) st ev)). rewrite Signal_spec in IH. destruct (decide (e = event_ o)) as [->|Hne].
    + destruct (ev !! event_ o) as [[r|]|] eqn:E; [done | | done]. right. exists o, st. split_and!; [apply list_elem_of_here | done | done | done].
    + destruct (ev !! e) as [[r|]|] eqn:E; [done | | done]. destruct IH as [[IH1 IH2]|(o' & st' & H1 & H2 & H3 & H4)].
      * left. split; [done|]. intros o' [->|Ho']%elem_of_cons He; [congruence | by apply IH2].
      * right. exists o', st'. split_and!; [by right | done..].
  - specialize (IH ev). destruct (ev !! e) as [[r|]|] eqn:E; [done | | done]. destruct IH as [[IH1 IH2]|(o' & st' & H1 & H2 & H3 & H4)].
    + left. split; [done|]. intros o' [->|Ho']%elem_of_cons He; [done | by apply IH2].
    + right. exists o', st'. split_and!; [by right | done..].
Qed.

(** ** The invariant *)

Definition planted (w : Waits) (k : Z) (o : WaitStateObserver) : Prop := exists d, objects w !! k = Some d /\ o ∈ observers_ d.

(** Why an event is signaled. *)
Definition reason (st : zx_status_t) (o : WaitStateObserver) : Prop :=
  (st = ZX_OK /\ satisfied o = true) \/ (st = ZX_ERR_CANCELED /\ closed o = true).

(** [out]: the events whose observers are being taken away. *)
Record waits_inv (out : Z -> Prop) (w : Waits) : Prop := {
  wi_nodup : forall k d, objects w !! k = Some d -> NoDup (ids (observers_ d));
  wi_unique : forall k o k' o', planted w k o -> planted w k' o' -> self o = self o' -> k = k';
  wi_seen : forall k d o, objects w !! k = Some d -> o ∈ observers_ d -> sub (signals_ d) (wakeup_reasons_ o);
  wi_event : forall k o, planted w k o -> exists r, events w !! event_ o = Some r /\ (r = None -> satisfied o = false /\ closed o = false);
  wi_reason : forall e st, ~ out e -> events w !! e = Some (Some st) -> exists k o, planted w k o /\ event_ o = e /\ reason st o;
}.

(** A sweep over the observers of an object that only adds reasons, and signals the
    event when it adds one that matters. *)
Section Sweep.
Context (g : WaitStateObserver -> WaitStateObserver) (c : WaitStateObserver -> option zx_status_t).
Hypothesis g_id : forall o, self (g o) = self o /\ event_ (g o) = event_ o /\ watched_signals_ (g o) = watched_signals_ o /\ handle_ (g o) = handle_ o.
Hypothesis g_more : forall o, sub (wakeup_reasons_ o) (wakeup_reasons_ (g o)).
Hypothesis g_why : forall o st, c o = Some st -> reason st (g o).
Hypothesis g_none : forall o, c o = None -> satisfied o = false -> closed o = false -> satisfied (g o) = false /\ closed (g o) = false.

Lemma g_reason st o : reason st o -> reason st (g o).
Proof.
  destruct (g_id o) as (_ & _ & Ew & _). unfold reason, satisfied, closed. rewrite Ew.
  intros [[-> H]|[-> H]]; [left | right]; (split; [done|]); by apply (has_sub (wakeup_reasons_ o)).
Qed.

Lemma sweep_inv out k d sigs w :
  waits_inv out w -> objects w !! k = Some d -> (forall o, o ∈ observers_ d -> sub sigs (wakeup_reasons_ (g o))) ->
  waits_inv out (put_object k (with_observers (map g (observers_ d)) (with_signals sigs d)) (signals_of c (observers_ d) (events w)) w).
Proof.
  intros [W1 W2 W3 W4 W5] Hd Hs. set (w' := put_object _ _ _ w).
  assert (forall k' o', planted w' k' o' -> exists o, planted w k' o /\ ((k' = k /\ o ∈ observers_ d /\ o' = g o) \/ (k' <> k /\ o' = o))) as Hp.
  { intros k' o' (d' & Hd' & Ho'). simpl in Hd'. destruct (decide (k' = k)) as [->|Hne].
    - rewrite lookup_insert_eq in Hd'. injection Hd' as <-. simpl in Ho'. apply list_elem_of_In, in_map_iff in Ho' as (o & <- & Ho%list_elem_of_In).
      exists o. split; [by exists d | by left].
    - rewrite lookup_insert_ne in Hd' by done. exists o'. split; [by exists d' | by right]. }
  assert (forall k' o, planted w k' o -> exists o', planted w' k' o' /\ event_ o' = event_ o /\ forall st, reason st o -> reason st o') as Hq.
  { intros k' o (d' & Hd' & Ho). destruct (decide (k' = k)) as [->|Hne].
    - assert (d' = d) as -> by congruence. exists (g o). split; [|split; [by apply g_id | intros st; apply g_reason]]. eexists. simpl. rewrite lookup_insert_eq.
      split; [done|]. simpl. by apply list_elem_of_In, in_map, list_elem_of_In.
    - exists o. split; [|done]. exists d'. simpl. by rewrite lookup_insert_ne. }
  constructor.
  - intros k' d' Hd'. simpl in Hd'. destruct (decide (k' = k)) as [->|Hne].
    + rewrite lookup_insert_eq in Hd'. injection Hd' as <-. simpl. unfold ids. rewrite map_map.
      rewrite (map_ext _ observer_id) by (intros o; by destruct (g_id o)). by apply (W1 k).
    + rewrite lookup_insert_ne in Hd' by done. by apply (W1 k').
  - intros k1 o1 k2 o2 H1 H2 E. destruct (Hp _ _ H1) as (p1 & P1 & Q1), (Hp _ _ H2) as (p2 & P2 & Q2).
    apply (W2 k1 p1 k2 p2 P1 P2). destruct Q1 as [(_ & _ & ->)|[_ ->]], Q2 as [(_ & _ & ->)|[_ ->]]; destruct (g_id p1) as [E1 _], (g_id p2) as [E2 _]; congruence.
  - intros k' d' o' Hd' Ho'. simpl in Hd'. destruct (decide (k' = k)) as [->|Hne].
    + rewrite lookup_insert_eq in Hd'. injection Hd' as <-. simpl in *. apply list_elem_of_In, in_map_iff in Ho' as (o & <- & Ho%list_elem_of_In). by apply Hs.
    + rewrite lookup_insert_ne in Hd' by done. by apply (W3 k').
  - intros k' o' Ho'. destruct (Hp _ _ Ho') as (o & Ho & Ho2). destruct (W4 k' o Ho) as (r & Er & Hr).
    assert (event_ o' = event_ o) as -> by (destruct Ho2 as [(_ & _ & ->)|[_ ->]]; [by destruct (g_id o) as (_ & ? & _) | done]).
    pose proof (signals_of_spec c (observers_ d) (events w) (event_ o)) as Hsp. rewrite Er in Hsp. simpl. destruct r as [r|].
    + exists (Some r). by split.
    + destruct Hsp as [[E Hn]|(p & st & _ & _ & _ & E)]; [|exists (Some st); by split]. exists None. split; [done|]. intros _.
      destruct (Hr eq_refl) as [R1 R2]. destruct Ho2 as [(_ & Hin & ->)|[_ ->]]; [|done]. apply g_none; [by apply Hn | done | done].
  - intros e st Hout. simpl. intros E. pose proof (signals_of_spec c (observers_ d) (events w) e) as Hsp.
    destruct (events w !! e) as [[r|]|] eqn:Ee; [| |congruence].
    + rewrite E in Hsp. injection Hsp as <-. destruct (W5 e st Hout Ee) as (k' & o & Ho & Ev & Hr).
      destruct (Hq k' o Ho) as (o' & Ho' & Ev' & Hr'). exists k', o'. split_and!; [done | congruence | by apply Hr'].
    + destruct Hsp as [[E' _]|(o & st' & Ho & Ev & Ec & E')]; rewrite E in E'; [done|]. injection E' as <-.
      exists k, (g o). split_and!; [| by destruct (g_id o) as (_ & -> & _) | by apply g_why]. eexists. simpl. rewrite lookup_insert_eq.
      split; [done|]. simpl. by apply list_elem_of_In, in_map, list_elem_of_In.
Qed.
End Sweep.

(** No object has the signal that stands for a closed handle. *)
Definition signals_ok (w : Waits) : Prop := forall k d, objects w !! k = Some d -> has (signals_ d) ZX_SIGNAL_HANDLE_CLOSED = false.

Lemma put_same k d w : objects w !! k = Some d -> put_object k d (events w) w = w.
Proof. intros H. unfold put_object. rewrite insert_id by done. by destruct w. Qed.

(** The observers of each object keep what identifies them. *)
Definition same_observer (o o' : WaitStateObserver) : Prop :=
  self o' = self o /\ event_ o' = event_ o /\ watched_signals_ o' = watched_signals_ o /\ handle_ o' = handle_ o.
Definition same_observers (w w' : Waits) : Prop :=
  forall k d, objects w !! k = Some d -> exists d', objects w' !! k = Some d' /\ Forall2 same_observer (observers_ d) (observers_ d').

Lemma same_observers_map k d sigs g ev w :
  (forall o, same_observer o (g o)) -> objects w !! k = Some d ->
  same_observers w (put_object k (with_observers (map g (observers_ d)) (with_signals sigs d)) ev w).
Proof.
  intros Hg Hd k' d' Hd'. simpl. destruct (decide (k' = k)) as [->|Hne].
  - rewrite lookup_insert_eq. assert (d' = d) as -> by congruence. eexists. split; [done|]. simpl. induction (observers_ d); simpl; constructor; [apply Hg | done].
  - rewrite lookup_insert_ne by done. exists d'. split; [done|]. induction (observers_ d'); constructor; [done | done].
Qed.

Lemma same_observers_refl w : same_observers w w.
Proof. intros k d Hd. exists d. split; [done|]. induction (observers_ d); constructor; [done | done]. Qed.

Lemma change_spec out k clear set w w' :
  waits_inv out w -> signals_ok w -> has set ZX_SIGNAL_HANDLE_CLOSED = false -> change_signals k clear set w = Some w' ->
  waits_inv out w' /\ signals_ok w' /\ same_observers w w'.
Proof.
  intros Hw Hs Hset. unfold change_signals. destruct (objects w !! k) as [d|] eqn:Hd; [|done]. cbn [mbind option_bind].
  unfold UpdateState. set (new := (signals_ d .&~ clear) .| set).
  assert (has new ZX_SIGNAL_HANDLE_CLOSED = false) as Hnew.
  { unfold new. rewrite has_lor_l, Hset, orb_false_r. pose proof (Hs k d Hd) as H. unfold ZX_SIGNAL_HANDLE_CLOSED in *. rewrite has_bit in * by lia.
    rewrite Z.ldiff_spec, H. done. }
  destruct (Z.eqb_spec (signals_ d) new) as [E|_].
  { rewrite <- E. intros [= <-]. replace (with_signals (signals_ d) d) with d by by destruct d. rewrite (put_same k d w Hd). split_and!; [done | done | apply same_observers_refl]. }
  simpl. rewrite notify_is_sweep. intros [= <-]. split_and!.
  - apply sweep_inv; [done| | | | done | done |].
    + intros o. apply sub_lor_l, sub_refl.
    + intros o st. unfold wakes. destruct (has new (watched_signals_ o)) eqn:E; [|done]. intros [= <-]. left. split; [done|].
      unfold satisfied, seen. simpl. by rewrite has_lor_l, E, orb_true_r.
    + intros o. unfold wakes, satisfied, closed, seen. simpl. destruct (has new (watched_signals_ o)) eqn:E; [done|]. intros _ H1 H2.
      by rewrite !has_lor_l, E, Hnew, H1, H2.
    + intros o _. apply sub_lor_r, sub_refl.
  - intros k' d'. simpl. destruct (decide (k' = k)) as [->|Hne]; [rewrite lookup_insert_eq; by intros [= <-] | rewrite lookup_insert_ne by done; apply Hs].
  - by apply (same_observers_map k d new (seen new)).
Qed.

Lemma close_spec out h k w w' :
  waits_inv out w -> signals_ok w -> close_handle h k w = Some w' -> waits_inv out w' /\ signals_ok w' /\ same_observers w w'.
Proof.
  intros Hw Hs. unfold close_handle. destruct (objects w !! k) as [d|] eqn:Hd; [|done]. cbn [mbind option_bind].
  unfold Cancel, CancelWithFunc. destruct (cancel_is_sweep h 0 (observers_ d) (events w)) as [E1 E2].
  change (Dispatcher.OnCancel h) with (OnCancel h). destruct (cancel_loop _ _ _ _) as [[f obs] ev]. simpl in E1, E2. subst obs ev. intros [= <-].
  replace (with_observers (map (cancelled h) (observers_ d)) d)
    with (with_observers (map (cancelled h) (observers_ d)) (with_signals (signals_ d) d)) by by destruct d.
  assert (forall o, same_observer o (cancelled h o)) as Hg by (intros o; unfold cancelled; by destruct (h =? handle_ o)).
  assert (forall o, sub (wakeup_reasons_ o) (wakeup_reasons_ (cancelled h o))) as Hm.
  { intros o. unfold cancelled. destruct (h =? handle_ o); [apply sub_lor_l, sub_refl | apply sub_refl]. }
  split_and!.
  - apply sweep_inv; [done | done | | | done | done |].
    + intros o st. unfold cancels, cancelled. destruct (h =? handle_ o); [|done]. intros [= <-]. right. split; [done|].
      unfold closed. simpl. by rewrite has_lor_l, orb_true_r.
    + intros o. unfold cancels, cancelled. by destruct (h =? handle_ o).
    + intros o Ho. pose proof (wi_seen _ _ Hw k d o Hd Ho) as H. unfold sub in *. specialize (Hm o). unfold sub in Hm.
      rewrite <- H at 1. rewrite <- Z.land_assoc, Hm, H. done.
  - intros k' d'. simpl. destruct (decide (k' = k)) as [->|Hne]; [rewrite lookup_insert_eq; intros [= <-]; exact (Hs k d Hd) | rewrite lookup_insert_ne by done; apply Hs].
  - by apply (same_observers_map k d (signals_ d) (cancelled h)).
Qed.

(** ** Planting and taking away *)

Definition fresh (id : Z) (w : Waits) : Prop := forall k o, planted w k o -> self o <> id.

(** The observer is planted, with its call's event, and the event is signaled when
    the object satisfies it already. *)
Lemma Begin_spec out rights id e h k sigs w st w' :
  waits_inv out w -> signals_ok w -> fresh id w -> is_Some (events w !! e) -> Begin rights id e h k sigs w = Some (st, w') ->
  (st <> ZX_OK /\ w' = w) \/
  (st = ZX_OK /\ waits_inv out w' /\ signals_ok w' /\ is_Some (events w' !! e) /\
   (exists o, planted w' k o /\ self o = id /\ event_ o = e /\ watched_signals_ o = sigs /\ handle_ o = h /\
     forall k' o', planted w' k' o' <-> planted w k' o' \/ (k' = k /\ o' = o))).
Proof.
  intros Hw Hs Hf [r He]. unfold Begin. destruct (objects w !! k) as [d|] eqn:Hd; [|done]. cbn [mbind option_bind]. unfold AddObserver.
  destruct (is_waitable (rights k)); simpl; [|intros [= <- <-]; left; split; [done | by apply put_same]].
  unfold AddObserverLocked. simpl. set (o := set_reasons _ _). intros [= <- <-]. right.
  set (ev := if has (signals_ d) sigs then _ else _). set (w' := put_object _ _ _ w).
  assert (forall k' o', planted w' k' o' <-> planted w k' o' \/ (k' = k /\ o' = o)) as Hp.
  { intros k' o'. unfold planted. simpl. destruct (decide (k' = k)) as [->|Hne].
    - rewrite lookup_insert_eq. split.
      + intros (d' & [= <-] & [->|Ho]%elem_of_cons); [by right | left; by exists d].
      + intros [(d' & Hd' & Ho)|[_ ->]]; eexists; (split; [done|]); simpl; apply elem_of_cons; [right | by left]. by assert (d' = d) as -> by congruence.
    - rewrite lookup_insert_ne by done. split; [by left | intros [?|[? _]]; done]. }
  assert (forall e', ev !! e' = if decide (e' = e) then Some (match r with None => if has (signals_ d) sigs then Some ZX_OK else None | x => x end) else events w !! e') as Hev.
  { intros e'. unfold ev. destruct (has (signals_ d) sigs); [rewrite Signal_spec|]; destruct (decide (e' = e)) as [->|]; try done; rewrite He; by destruct r. }
  split; [done|]. destruct Hw as [W1 W2 W3 W4 W5]. split; [|split; [|split; [|exists o; split_and!; try done; apply Hp; by right]]].
  - constructor.
    + intros k' d'. simpl. destruct (decide (k' = k)) as [->|Hne]; [rewrite lookup_insert_eq; intros [= <-] | rewrite lookup_insert_ne by done; apply W1].
      simpl. constructor; [|by apply (W1 k)]. unfold ids. intros (o' & E & Ho')%list_elem_of_In%in_map_iff. apply list_elem_of_In in Ho'.
      by apply (Hf k o'); [by exists d | done].
    + intros k1 o1 k2 o2 [H1|[-> ->]]%Hp [H2|[-> ->]]%Hp E; [by apply (W2 k1 o1 k2 o2) | by destruct (Hf k1 o1 H1) | by destruct (Hf k2 o2 H2) | done].
    + intros k' d' o'. simpl. destruct (decide (k' = k)) as [->|Hne]; [rewrite lookup_insert_eq; intros [= <-] | rewrite lookup_insert_ne by done; apply W3].
      simpl. intros [->|Ho']%elem_of_cons; [apply sub_refl | by apply (W3 k)].
    + intros k' o' [H|[-> ->]]%Hp; simpl; rewrite Hev.
      * destruct (W4 k' o' H) as (r' & Er & Hr). destruct (decide (event_ o' = e)) as [Ee|]; [|by exists r']. rewrite Ee, He in Er. injection Er as <-.
        eexists. split; [done|]. destruct r; [done|]. destruct (has (signals_ d) sigs); [done | by intros _; apply Hr].
      * rewrite decide_True by done. eexists. split; [done|]. destruct r; [done|]. unfold satisfied, closed. simpl.
        destruct (has (signals_ d) sigs); [done|]. intros _. split; [done | by apply (Hs k)].
    + intros e' st' Hout. simpl. rewrite Hev. destruct (decide (e' = e)) as [->|Hne].
      * intros [= E]. destruct r as [r|].
        -- injection E as ->. destruct (W5 e st' Hout He) as (k' & o' & H & ?). exists k', o'. split; [|done]. apply Hp. by left.
        -- destruct (has (signals_ d) sigs) eqn:Eh; [|done]. injection E as <-. exists k, o. split_and!; [apply Hp; by right | done | by left].
      * intros E. destruct (W5 e' st' Hout E) as (k' & o' & H & ?). exists k', o'. split; [|done]. apply Hp. by left.
  - intros k' d'. simpl. destruct (decide (k' = k)) as [->|Hne]; [rewrite lookup_insert_eq; intros [= <-]; exact (Hs k d Hd) | rewrite lookup_insert_ne by done; apply Hs].
  - simpl. rewrite Hev, decide_True by done. by eexists.
Qed.

Lemma self_in_ids (l : list WaitStateObserver) o : o ∈ l -> self o ∈ ids l.
Proof. intros Ho. change (observer_id o ∈ map observer_id l). by apply list_elem_of_In, in_map, list_elem_of_In. Qed.

Lemma ids_inj (l : list WaitStateObserver) o o' : NoDup (ids l) -> o ∈ l -> o' ∈ l -> self o = self o' -> o = o'.
Proof.
  induction l as [|q l IH]; intros Hn Ho Ho' E; [by apply not_elem_of_nil in Ho|]. apply NoDup_cons in Hn as [Hn1 Hn2].
  apply elem_of_cons in Ho as [->|Ho], Ho' as [->|Ho']; [done | | | by apply IH]; destruct Hn1; simpl; [rewrite E | rewrite <- E]; by apply self_in_ids.
Qed.

Lemma erase_id_elem id (l : list WaitStateObserver) o : NoDup (ids l) -> o ∈ erase_id id l <-> o ∈ l /\ self o <> id.
Proof.
  induction l as [|q l IH]; intros Hn; simpl.
  - split; [by intros ?%not_elem_of_nil | by intros [?%not_elem_of_nil _]].
  - apply NoDup_cons in Hn as [Hn1 Hn2].
    destruct (Z.eqb_spec (self q) id) as [E|E]; rewrite ?elem_of_cons.
    + split; [|intros [[->|?] ?]; [by destruct H | done]]. intros Hp. split; [by right|]. intros E'. destruct Hn1. simpl. rewrite E, <- E'. by apply self_in_ids.
    + rewrite (IH Hn2). split; [intros [->|[? ?]] | intros [[->|?] ?]]; tauto.
Qed.

(** The observer is there, and only it goes. *)
Lemma End_spec out k o w :
  waits_inv out w -> planted w k o -> out (event_ o) ->
  exists w', End_ (self o) k w = Some (wakeup_reasons_ o, w') /\ waits_inv out w' /\ (signals_ok w -> signals_ok w') /\ events w' = events w /\
    forall k' o', planted w' k' o' <-> planted w k' o' /\ self o' <> self o.
Proof.
  intros [W1 W2 W3 W4 W5] Hp Hout. pose proof Hp as (d & Hd & Ho). pose proof (W1 k d Hd) as Hn. unfold End_. rewrite Hd. cbn [mbind option_bind].
  destruct (list_find_elem_of (fun p => self p = self o) (observers_ d) o Ho eq_refl) as [[i p] Ei]. rewrite Ei. cbn [mbind option_bind].
  apply list_find_Some in Ei as (Ei & Es & _). apply list_elem_of_lookup_2 in Ei. rewrite (ids_inj _ p o Hn Ei Ho Es) in *. clear p Ei Es.
  unfold RemoveObserver. rewrite (proj2 (in_container_iff (self o) (observers_ d))) by by apply self_in_ids.
  eexists. split; [done|]. set (w' := put_object _ _ _ w).
  assert (forall k' o', planted w' k' o' <-> planted w k' o' /\ self o' <> self o) as Hpl.
  { intros k' o'. unfold planted. simpl. destruct (decide (k' = k)) as [->|Hne].
    - rewrite lookup_insert_eq. split.
      + intros (d' & [= <-] & [H1 H2]%erase_id_elem); [split; [by exists d | done] | done].
      + intros [(d' & Hd' & Ho') Hs']. eexists. split; [done|]. apply erase_id_elem; [done|]. assert (d' = d) as -> by congruence. done.
    - rewrite lookup_insert_ne by done. split; [|by intros [? _]]. intros Hp'. split; [done|]. intros E. apply Hne. by apply (W2 k' o' k o). }
  split_and!; [|intros Hs k' d' | done | done].
  - constructor.
    + intros k' d'. simpl. destruct (decide (k' = k)) as [->|Hne]; [rewrite lookup_insert_eq; intros [= <-] | rewrite lookup_insert_ne by done; apply W1].
      simpl. by eapply sublist_NoDup; [|apply erase_id_ids].
    + intros k1 o1 k2 o2 [H1 _]%Hpl [H2 _]%Hpl. by apply W2.
    + intros k' d' o'. simpl. destruct (decide (k' = k)) as [->|Hne]; [rewrite lookup_insert_eq; intros [= <-] | rewrite lookup_insert_ne by done; apply W3].
      simpl. intros [Ho' _]%erase_id_elem; [by apply (W3 k) | done].
    + intros k' o' [H _]%Hpl. by apply (W4 k').
    + intros e st He' E. destruct (W5 e st He' E) as (k' & o' & Hp' & Ev & Hr). exists k', o'. split; [|done]. apply Hpl. split; [done|].
      intros E'. assert (k' = k) as -> by by apply (W2 k' o' k o). apply He'. subst e. destruct Hp' as (d' & Hd' & Ho').
      assert (d' = d) as -> by congruence. by rewrite (ids_inj _ o' o Hn Ho' Ho E').
  - simpl. destruct (decide (k' = k)) as [->|Hne]; [rewrite lookup_insert_eq; intros [= <-]; exact (Hs k d Hd) | rewrite lookup_insert_ne by done; apply Hs].
Qed.

(** ** Calls *)

(** A call waits for its items. *)
Record call := mkCall { c_event : Z; c_items : list item }.

Definition is_item (e : Z) (it : item) (k : Z) (o : WaitStateObserver) : Prop :=
  k = it_koid it /\ self o = it_observer it /\ event_ o = e /\ watched_signals_ o = it_signals it /\ handle_ o = it_handle it.

(** The observers of an event are those of the items of the call, each once. *)
Record call_ok (w : Waits) (c : call) : Prop := {
  co_nodup : NoDup (map it_observer (c_items c));
  co_event : is_Some (events w !! c_event c);
  co_items : forall it, it ∈ c_items c -> exists o, planted w (it_koid it) o /\ is_item (c_event c) it (it_koid it) o;
  co_all : forall k o, planted w k o -> event_ o = c_event c -> exists it, it ∈ c_items c /\ is_item (c_event c) it k o;
}.

Lemma call_ok_same w w' c :
  call_ok w c -> same_observers w w' -> (forall e, is_Some (events w !! e) -> is_Some (events w' !! e)) ->
  (forall k d', objects w' !! k = Some d' -> is_Some (objects w !! k)) -> call_ok w' c.
Proof.
  intros [C1 C2 C3 C4] Hs He Hd. constructor; [done | by apply He | |].
  - intros it Hit. destruct (C3 it Hit) as (o & (d & Hdk & Ho) & (E1 & E2 & E3 & E4 & E5)). destruct (Hs _ _ Hdk) as (d' & Hd' & HF).
    apply list_elem_of_lookup in Ho as [i Ho]. destruct (Forall2_lookup_l _ _ _ _ _ HF Ho) as (o' & Ho' & (S1 & S2 & S3 & S4)).
    exists o'. split; [exists d'; split; [done | by eapply list_elem_of_lookup_2]|]. unfold is_item. split_and!; congruence.
  - intros k o' (d' & Hd' & Ho') Ev. destruct (Hd k d' Hd') as [d Hdk]. destruct (Hs _ _ Hdk) as (d2 & Hd2 & HF).
    assert (d2 = d') as -> by congruence. apply list_elem_of_lookup in Ho' as [i Ho']. destruct (Forall2_lookup_r _ _ _ _ _ HF Ho') as (o & Ho & (S1 & S2 & S3 & S4)).
    destruct (C4 k o) as (it & Hit & (E1 & E2 & E3 & E4 & E5)); [exists d; split; [done | by eapply list_elem_of_lookup_2] | congruence|].
    exists it. split; [done|]. unfold is_item. split_and!; congruence.
Qed.

Abbreviation inv := (waits_inv (fun _ => False)).

Lemma new_event_spec e w : inv w -> events w !! e = None ->
  inv (new_event e w) /\ forall k o, planted (new_event e w) k o <-> planted w k o.
Proof.
  intros [W1 W2 W3 W4 W5] He. split; [|done]. constructor; try done.
  - intros k o Ho. simpl. destruct (W4 k o Ho) as (r & Er & Hr). exists r. split; [|done]. rewrite lookup_insert_ne; [done | congruence].
  - intros e' st _. simpl. destruct (decide (e' = e)) as [->|Hne]; [by rewrite lookup_insert_eq | rewrite lookup_insert_ne by done]. apply W5. tauto.
Qed.

(** When nothing is planted for it, the event can go. *)
Lemma delete_event_spec e w : waits_inv (fun e' => e' = e) w -> (forall k o, planted w k o -> event_ o <> e) -> inv (delete_event e w).
Proof.
  intros [W1 W2 W3 W4 W5] He. constructor; try done.
  - intros k o Ho. simpl. rewrite lookup_delete_ne; [by apply (W4 k) | by apply not_eq_sym, (He k)].
  - intros e' st _. simpl. destruct (decide (e' = e)) as [->|Hne]; [by rewrite lookup_delete_eq | rewrite lookup_delete_ne by done]. by apply W5.
Qed.

Lemma inv_weaken out w : inv w -> waits_inv out w.
Proof. intros [W1 W2 W3 W4 W5]. constructor; try done. intros e st _. apply W5. tauto. Qed.

Lemma begin_item_spec rights id e h handle sigs w st it w' :
  inv w -> signals_ok w -> fresh id w -> is_Some (events w !! e) -> begin_item rights id e h handle sigs w = Some (st, it, w') ->
  match it with
  | None => st <> ZX_OK /\ w' = w
  | Some it =>
      st = ZX_OK /\ inv w' /\ signals_ok w' /\ is_Some (events w' !! e) /\ it_observer it = id /\
      exists o, planted w' (it_koid it) o /\ is_item e it (it_koid it) o /\
        forall k' o', planted w' k' o' <-> planted w k' o' \/ (k' = it_koid it /\ o' = o)
  end.
Proof.
  intros Hw Hs Hf He. unfold begin_item. destruct handle as [s|]; [|by intros [= <- <- <-]].
  destruct (negb _); [by intros [= <- <- <-]|]. destruct (Handle.dispatcher_ s) as [k|]; [|done]. cbn [mbind option_bind].
  destruct (Begin rights id e h k sigs w) as [[st' w1]|] eqn:EB; [|done]. cbn [mbind option_bind]. intros [= <- <- <-].
  destruct (Begin_spec _ _ _ _ _ _ _ _ _ _ Hw Hs Hf He EB) as [[Hst ->]|(-> & Hw' & Hs' & He' & o & Hp & E1 & E2 & E3 & E4 & Hall)].
  - by rewrite bool_decide_false.
  - rewrite bool_decide_true by done. simpl. split_and!; try done. exists o. by split_and!.
Qed.

(** A call that plants one more observer, and the other calls. *)
Lemma call_ok_begin w w' e it o c :
  (forall k' o', planted w' k' o' <-> planted w k' o' \/ (k' = it_koid it /\ o' = o)) -> is_item e it (it_koid it) o ->
  (forall e', is_Some (events w !! e') -> is_Some (events w' !! e')) -> call_ok w c ->
  (c_event c <> e -> call_ok w' c) /\
  (c_event c = e -> fresh (it_observer it) w -> call_ok w' (mkCall e (c_items c ++ [it]))).
Proof.
  intros Hp (_ & Es & Ee & Ew & Eh) Hev [C1 C2 C3 C4]. split.
  - intros Hne. constructor; [done | by apply Hev | |].
    + intros it' Hit. destruct (C3 it' Hit) as (o' & Ho' & ?). exists o'. split; [apply Hp; by left | done].
    + intros k' o' [Ho'|[-> ->]]%Hp E; [by apply C4 | congruence].
  - intros <- Hf. constructor; simpl.
    + rewrite map_app. simpl. apply NoDup_app. split_and!; [done | | apply NoDup_singleton].
      intros i Hi Hi'. apply list_elem_of_singleton in Hi' as ->. apply list_elem_of_In, in_map_iff in Hi as (it' & E & Hit%list_elem_of_In).
      destruct (C3 it' Hit) as (o' & Ho' & (_ & Es' & _)). apply (Hf _ _ Ho'). congruence.
    + by apply Hev.
    + intros it' [Hit|Hit]%elem_of_app.
      * destruct (C3 it' Hit) as (o' & Ho' & ?). exists o'. split; [apply Hp; by left | done].
      * apply list_elem_of_singleton in Hit as ->. exists o. split; [apply Hp; by right | done].
    + intros k' o' [Ho'|[-> ->]]%Hp E.
      * destruct (C4 k' o' Ho' E) as (it' & Hit & ?). exists it'. split; [apply elem_of_app; by left | done].
      * exists it. split; [apply elem_of_app; right; by apply list_elem_of_singleton | done].
Qed.

Lemma events_stay rights id e h handle sigs w st it w' e' :
  begin_item rights id e h handle sigs w = Some (st, it, w') -> is_Some (events w !! e') -> is_Some (events w' !! e').
Proof.
  unfold begin_item. destruct handle as [s|]; [|by intros [= <- <- <-]]. destruct (negb _); [by intros [= <- <- <-]|].
  destruct (Handle.dispatcher_ s) as [k|]; [|done]. cbn [mbind option_bind]. unfold Begin, AddObserver, AddObserverLocked.
  destruct (objects w !! k) as [d|]; [|done]. cbn [mbind option_bind]. destruct (negb (is_waitable _)); simpl; [by intros [= <- <- <-]|].
  intros [= <- <- <-]. simpl. destruct (has _ _); [|done]. rewrite Signal_spec. intros [r Hr]. destruct (decide (e' = e)) as [->|]; [|by eexists].
  rewrite Hr. destruct r; by eexists.
Qed.

(** The loop extends the call [mkCall e pre] and leaves the other calls alone. *)
Lemma begin_items_spec rights e rs : forall pre w st its w' others,
  inv w -> signals_ok w -> call_ok w (mkCall e pre) -> Forall (fun c => call_ok w c /\ c_event c <> e) others ->
  NoDup (map rq_observer rs) -> (forall r, r ∈ rs -> fresh (rq_observer r) w) ->
  begin_items rights e rs w = Some (st, its, w') ->
  inv w' /\ signals_ok w' /\ call_ok w' (mkCall e (pre ++ its)) /\ Forall (fun c => call_ok w' c /\ c_event c <> e) others /\
  (st = ZX_OK -> length its = length rs).
Proof.
  induction rs as [|r rs IH]; intros pre w st its w' others Hw Hs Hc Ho Hn Hf; simpl.
  { intros [= <- <- <-]. by rewrite app_nil_r. }
  destruct (begin_item _ _ _ _ _ _ w) as [[[st1 it] w1]|] eqn:EB; [|done]. cbn [mbind option_bind].
  pose proof (begin_item_spec _ _ _ _ _ _ _ _ _ _ Hw Hs (Hf r (list_elem_of_here _ _)) (co_event _ _ Hc) EB) as HB.
  destruct it as [it|]; [|intros [= <- <- <-]; destruct HB as [? ->]; by rewrite app_nil_r].
  destruct HB as (-> & Hw1 & Hs1 & He1 & Eid & o & Hpo & Hit & Hp).
  assert (forall c, call_ok w c -> (c_event c <> e -> call_ok w1 c) /\ (c_event c = e -> fresh (it_observer it) w -> call_ok w1 (mkCall e (c_items c ++ [it])))) as Hcall.
  { intros c H. apply (call_ok_begin w w1 e it o c Hp Hit); [|done]. intros e'. by apply (events_stay _ _ _ _ _ _ _ _ _ _ e' EB). }
  destruct (begin_items rights e rs w1) as [[[st2 its2] w2]|] eqn:ER; [|done]. cbn [mbind option_bind]. intros [= <- <- <-].
  simpl in Hn. apply NoDup_cons in Hn as [Hn1 Hn2].
  destruct (IH (pre ++ [it]) w1 st2 its2 w2 others Hw1 Hs1) as (H1 & H2 & H3 & H4 & H5); try done.
  - apply (Hcall _ Hc); [done|]. rewrite Eid. apply Hf, list_elem_of_here.
  - eapply Forall_impl; [exact Ho|]. intros c [H Hne]. split; [by apply Hcall | done].
  - intros r' Hr' k' o' [Ho'|[-> ->]]%Hp; [exact (Hf r' (list_elem_of_further _ _ _ Hr') k' o' Ho')|]. destruct Hit as (_ & -> & _). rewrite Eid.
    intros E. apply Hn1. rewrite E. by apply list_elem_of_In, (in_map rq_observer), list_elem_of_In.
  - rewrite <- app_assoc in H3. split_and!; try done. intros Hst. simpl. by rewrite (H5 Hst).
Qed.

(** Taking the observers of a call away gives their reasons. *)
Lemma end_items_spec e its : forall w,
  waits_inv (fun e' => e' = e) w -> NoDup (map it_observer its) ->
  (forall it, it ∈ its -> exists o, planted w (it_koid it) o /\ is_item e it (it_koid it) o) ->
  exists ss w', end_items its w = Some (ss, w') /\ waits_inv (fun e' => e' = e) w' /\ (signals_ok w -> signals_ok w') /\ events w' = events w /\
    Forall2 (fun it s => exists o, planted w (it_koid it) o /\ is_item e it (it_koid it) o /\ s = wakeup_reasons_ o) its ss /\
    (forall k o, planted w' k o <-> planted w k o /\ self o ∉ map it_observer its).
Proof.
  induction its as [|it its IH]; intros w Hw Hn Hits; simpl.
  { exists [], w. split_and!; try done. intros k o. split; [|by intros [? _]]. intros H. split; [done | apply not_elem_of_nil]. }
  destruct (Hits it (list_elem_of_here _ _)) as (o & Ho & Hit). pose proof Hit as (_ & Es & Ee & _). simpl in Hn. apply NoDup_cons in Hn as [Hn1 Hn2].
  destruct (End_spec _ _ o w Hw Ho Ee) as (w1 & E1 & Hw1 & Hs1 & Hev1 & Hp1). rewrite <- Es, E1. cbn [mbind option_bind].
  destruct (IH w1 Hw1 Hn2) as (ss & w2 & E2 & Hw2 & Hs2 & Hev2 & HF & Hp2).
  { intros it' Hit'. destruct (Hits it') as (o' & Ho' & Hi'); [by right|]. exists o'. split; [|done]. apply Hp1. split; [done|].
    destruct Hi' as (_ & Es' & _). intros E. apply Hn1. rewrite <- Es, <- E, Es'. by apply list_elem_of_In, (in_map it_observer), list_elem_of_In. }
  rewrite E2. cbn [mbind option_bind]. eexists _, w2. split; [done|]. split_and!; [done | by intros H; apply Hs2, Hs1 | congruence | |].
  - constructor; [by exists o|]. eapply Forall2_impl; [exact HF|]. intros it' s (o' & Ho' & Hi' & Hr). exists o'. split; [|done]. by apply Hp1 in Ho' as [? _].
  - intros k' o'. rewrite Hp2, Hp1, not_elem_of_cons. tauto.
Qed.

(** ** Runs *)

Record sys := mkSys { ws : Waits; calls : list call }.

(** A wait gives the result of its event, or the reason why it ended without. *)
Definition interruption (r : zx_status_t) : Prop := r = ZX_ERR_TIMED_OUT \/ r = ZX_ERR_INTERNAL_INTR_KILLED \/ r = ZX_ERR_INTERNAL_INTR_RETRY.
Definition wait_result (e : Z) (w : Waits) (r : zx_status_t) : Prop := events w !! e = Some (Some r) \/ interruption r.

Section System.
Context (rights : Z -> Z).

Inductive sys_step (x : sys) : sys -> Prop :=
| ss_object k d :
    objects (ws x) !! k = None -> observers_ d = [] -> has (signals_ d) ZX_SIGNAL_HANDLE_CLOSED = false ->
    sys_step x (mkSys (put_object k d (events (ws x)) (ws x)) (calls x))
| ss_one id e h handle sigs st it w' :
    fresh id (ws x) -> events (ws x) !! e = None -> sys_object_wait_one rights id e h handle sigs (ws x) = Some (st, it, w') ->
    sys_step x (mkSys w' (match it with Some it => mkCall e [it] :: calls x | None => calls x end))
| ss_many e rs copy sleep st its w' :
    NoDup (map rq_observer rs) -> (forall r, r ∈ rs -> fresh (rq_observer r) (ws x)) -> events (ws x) !! e = None ->
    sys_object_wait_many rights e rs copy sleep (ws x) = Some (st, its, w') ->
    sys_step x (mkSys w' (if bool_decide (st = ZX_OK) then mkCall e its :: calls x else calls x))
| ss_one_done l1 c l2 it r observed st s w' :
    calls x = l1 ++ c :: l2 -> c_items c = [it] -> wait_result (c_event c) (ws x) r ->
    wait_one_finish it (c_event c) r observed (ws x) = Some (st, s, w') -> sys_step x (mkSys w' (l1 ++ l2))
| ss_many_done l1 c l2 r copy st ss w' :
    calls x = l1 ++ c :: l2 -> wait_result (c_event c) (ws x) r ->
    wait_many_finish (c_items c) (c_event c) r copy (ws x) = Some (st, ss, w') -> sys_step x (mkSys w' (l1 ++ l2))
| ss_signal k clear set w' :
    has set ZX_SIGNAL_HANDLE_CLOSED = false -> change_signals k clear set (ws x) = Some w' -> sys_step x (mkSys w' (calls x))
| ss_close h k w' : close_handle h k (ws x) = Some w' -> sys_step x (mkSys w' (calls x)).

Definition sys_init : sys := mkSys (mkWaits ∅ ∅) [].

Record sys_inv (x : sys) : Prop := {
  si_waits : inv (ws x);
  si_signals : signals_ok (ws x);
  si_calls : Forall (call_ok (ws x)) (calls x);
  si_events : NoDup (map c_event (calls x));
}.

Lemma calls_apart l c : Forall (fun c' => c_event c' <> c_event c) l <-> c_event c ∉ map c_event l.
Proof.
  rewrite Forall_forall. split.
  - intros H (c' & E & Hc')%list_elem_of_In%in_map_iff. apply list_elem_of_In in Hc'. by apply (H c').
  - intros H c' Hc' E. apply H. rewrite <- E. by apply list_elem_of_In, in_map, list_elem_of_In.
Qed.

(** What the observers of an ended call leave. *)
Lemma end_call x l1 c l2 :
  sys_inv x -> calls x = l1 ++ c :: l2 ->
  exists ss w, end_items (c_items c) (ws x) = Some (ss, w) /\ sys_inv (mkSys (delete_event (c_event c) w) (l1 ++ l2)) /\
    Forall2 (fun it s => exists o, planted (ws x) (it_koid it) o /\ is_item (c_event c) it (it_koid it) o /\ s = wakeup_reasons_ o) (c_items c) ss.
Proof.
  intros [I1 I2 I3 I4] Ec. rewrite Ec in I3, I4. apply Forall_app in I3 as [I3 (Hc & I3')%Forall_cons].
  rewrite map_app in I4. simpl in I4. apply NoDup_app in I4 as (N1 & N2 & [N3 N4]%NoDup_cons).
  destruct (end_items_spec (c_event c) (c_items c) (ws x) (inv_weaken _ _ I1) (co_nodup _ _ Hc) (co_items _ _ Hc)) as (ss & w & E & Hw & Hs & Hev & HF & Hp).
  exists ss, w. split; [done|]. split; [|done].
  assert (forall k o, planted w k o -> event_ o <> c_event c) as Hnone.
  { intros k o Ho Ee. apply Hp in Ho as [Ho Hni]. destruct (co_all _ _ Hc k o Ho Ee) as (it & Hit & (_ & Es & _)). apply Hni. rewrite Es.
    by apply list_elem_of_In, (in_map it_observer), list_elem_of_In. }
  assert (forall c', call_ok (ws x) c' -> c_event c' <> c_event c -> call_ok (delete_event (c_event c) w) c') as Hkeep.
  { intros c' [C1 C2 C3 C4] Hne. constructor; simpl; [done | rewrite lookup_delete_ne by done; by rewrite Hev | |].
    - intros it Hit. destruct (C3 it Hit) as (o & Ho & Hi). exists o. split; [|done]. apply Hp. split; [done|].
      intros (it2 & E2 & Hit2)%list_elem_of_In%in_map_iff. apply list_elem_of_In in Hit2. destruct (co_items _ _ Hc it2 Hit2) as (o2 & Ho2 & (_ & Es2 & Ee2 & _)).
      assert (self o = self o2) as Eso by congruence. pose proof (wi_unique _ _ I1 _ _ _ _ Ho Ho2 Eso) as Ek. destruct Ho as (d & Hd & Ho), Ho2 as (d2 & Hd2 & Ho2).
      rewrite <- Ek in Hd2. assert (d2 = d) as -> by congruence. rewrite (ids_inj _ _ _ (wi_nodup _ _ I1 _ _ Hd) Ho Ho2 Eso) in Hi.
      destruct Hi as (_ & _ & Ee & _). congruence.
    - intros k o [Ho _]%Hp Ee. by apply C4. }
  constructor; simpl.
  - by apply delete_event_spec.
  - exact (Hs I2).
  - assert (forall l, Forall (call_ok (ws x)) l -> Forall (fun c' => c_event c' <> c_event c) l -> Forall (call_ok (delete_event (c_event c) w)) l) as Hl.
    { intros l H1 H2. eapply Forall_impl; [apply Forall_and; split; [exact H1 | exact H2]|]. intros c' [? ?]. by apply Hkeep. }
    apply Forall_app. split; apply Hl; try done; apply calls_apart; [intros H; exact (N2 _ H (list_elem_of_here _ _)) | done].
  - rewrite map_app. apply NoDup_app. split_and!; [done | | done]. intros e H1 H2. apply (N2 e H1). by right.
Qed.

Lemma begun w e : inv w -> events w !! e = None -> call_ok (new_event e w) (mkCall e []).
Proof.
  intros Hw He. constructor; simpl; [constructor | rewrite lookup_insert_eq; by eexists | by intros it ?%not_elem_of_nil |].
  intros k o Ho Ee. destruct (wi_event _ _ Hw k o Ho) as (r & Er & _). congruence.
Qed.

Lemma other_calls x e : sys_inv x -> events (ws x) !! e = None ->
  Forall (fun c => call_ok (new_event e (ws x)) c /\ c_event c <> e) (calls x) /\ e ∉ map c_event (calls x).
Proof.
  intros [I1 I2 I3 I4] He. assert (Forall (fun c => call_ok (new_event e (ws x)) c /\ c_event c <> e) (calls x)) as H.
  { eapply Forall_impl; [exact I3|]. intros c [C1 C2 C3 C4]. assert (c_event c <> e) as Hne by (intros E; rewrite E, He in C2; by destruct C2). split; [|done].
    constructor; simpl; [done | by rewrite lookup_insert_ne | done | done]. }
  split; [done|]. apply (calls_apart (calls x) (mkCall e [])). eapply Forall_impl; [exact H|]. by intros c [_ ?].
Qed.

(** A call that has planted its observers is one more call. *)
Lemma add_call x e its w' : sys_inv x -> events (ws x) !! e = None -> inv w' -> signals_ok w' -> call_ok w' (mkCall e its) ->
  Forall (fun c => call_ok w' c /\ c_event c <> e) (calls x) -> sys_inv (mkSys w' (mkCall e its :: calls x)).
Proof.
  intros Hx He H1 H2 H3 H4. constructor; simpl; [done | done | |].
  - constructor; [done|]. eapply Forall_impl; [exact H4|]. by intros c [? _].
  - constructor; [by apply (other_calls x e Hx He) | apply (si_events _ Hx)].
Qed.

Lemma wait_many_inv x e rs copy sleep st its w' :
  sys_inv x -> NoDup (map rq_observer rs) -> (forall r, r ∈ rs -> fresh (rq_observer r) (ws x)) -> events (ws x) !! e = None ->
  sys_object_wait_many rights e rs copy sleep (ws x) = Some (st, its, w') ->
  sys_inv (mkSys w' (if bool_decide (st = ZX_OK) then mkCall e its :: calls x else calls x)).
Proof.
  intros Hx Hn Hf He. unfold sys_object_wait_many.
  case_bool_decide as Er; [intros [= <- <- <-]; rewrite bool_decide_false; [by destruct x | by case_bool_decide]|].
  destruct (_ >? _); [intros [= <- <- <-]; by destruct x|]. destruct (negb _) eqn:Ec; [intros [= <- <- <-]; by destruct x|].
  destruct (begin_items rights e rs (new_event e (ws x))) as [[[st1 its1] w1]|] eqn:EB; [|done]. cbn [mbind option_bind].
  destruct (new_event_spec e _ (si_waits _ Hx) He) as [Hw0 _].
  destruct (begin_items_spec rights e rs [] (new_event e (ws x)) st1 its1 w1 (calls x)) as (H1 & H2 & H3 & H4 & _); try done.
  { by apply (si_signals _ Hx). } { by apply begun, He; apply Hx. } { by apply other_calls. }
  pose proof (add_call x e its1 w1 Hx He H1 H2 H3 H4) as Hx1. destruct (negb (bool_decide (st1 = ZX_OK))) eqn:Est.
  - destruct (end_call _ [] (mkCall e its1) (calls x) Hx1 eq_refl) as (ss & w2 & E2 & Hx2 & _). simpl in E2. rewrite E2. cbn [mbind option_bind].
    intros [= <- <- <-]. apply negb_true_iff in Est. by rewrite Est.
  - intros [= <- <- <-]. by rewrite bool_decide_true.
Qed.

Lemma wait_one_inv x id e h handle sigs st it w' :
  sys_inv x -> fresh id (ws x) -> events (ws x) !! e = None -> sys_object_wait_one rights id e h handle sigs (ws x) = Some (st, it, w') ->
  sys_inv (mkSys w' (match it with Some it => mkCall e [it] :: calls x | None => calls x end)).
Proof.
  intros Hx Hf He. unfold sys_object_wait_one. destruct (begin_item _ _ _ _ _ _ (new_event e (ws x))) as [[[st1 it1] w1]|] eqn:EB; [|done].
  cbn [mbind option_bind]. intros [= <- <- <-]. destruct (new_event_spec e _ (si_waits _ Hx) He) as [Hw0 _].
  pose proof (begun _ _ (si_waits _ Hx) He) as Hb. destruct (other_calls x e Hx He) as [Ho _].
  pose proof (begin_item_spec _ _ _ _ _ _ _ _ _ _ Hw0 (si_signals _ Hx) Hf (co_event _ _ Hb) EB) as HB. destruct it1 as [it|].
  - rewrite bool_decide_false by done. destruct HB as (_ & H1 & H2 & He1 & Eid & o & Hpo & Hit & Hp).
    assert (forall c, call_ok (new_event e (ws x)) c -> (c_event c <> e -> call_ok w1 c) /\
                      (c_event c = e -> fresh (it_observer it) (new_event e (ws x)) -> call_ok w1 (mkCall e (c_items c ++ [it])))) as Hcall.
    { intros c H. apply (call_ok_begin _ w1 e it o c Hp Hit); [|done]. intros e'. by apply (events_stay _ _ _ _ _ _ _ _ _ _ e' EB). }
    apply add_call; try done.
    + apply (Hcall _ Hb); [done | by rewrite Eid].
    + eapply Forall_impl; [exact Ho|]. intros c [H Hne]. split; [by apply Hcall | done].
  - rewrite bool_decide_true by done. destruct HB as [_ ->]. unfold delete_event, new_event. simpl. rewrite delete_insert_id by done.
    by destruct x as [[? ?] ?].
Qed.

Lemma same_calls x w' : sys_inv x -> inv w' -> signals_ok w' -> same_observers (ws x) w' ->
  (forall e, is_Some (events (ws x) !! e) -> is_Some (events w' !! e)) ->
  (forall k d', objects w' !! k = Some d' -> is_Some (objects (ws x) !! k)) -> sys_inv (mkSys w' (calls x)).
Proof.
  intros [I1 I2 I3 I4] H1 H2 H3 H4 H5. constructor; simpl; try done. eapply Forall_impl; [exact I3|]. intros c Hc. by apply (call_ok_same (ws x)).
Qed.

Lemma signals_of_stay c obs ev e : is_Some (ev !! e) -> is_Some (signals_of c obs ev !! e).
Proof.
  intros [r Hr]. pose proof (signals_of_spec c obs ev e) as H. rewrite Hr in H. destruct r; [by rewrite H; eexists|].
  destruct H as [[H _]|(o & st & _ & _ & _ & H)]; rewrite H; by eexists.
Qed.

Lemma put_object_dom k d d' ev w k' d2 : objects w !! k = Some d -> objects (put_object k d' ev w) !! k' = Some d2 -> is_Some (objects w !! k').
Proof. intros Hd. simpl. destruct (decide (k' = k)) as [->|Hne]; [by eexists | rewrite lookup_insert_ne by done; by eexists]. Qed.

Lemma sys_step_inv x x' : sys_inv x -> sys_step x x' -> sys_inv x'.
Proof.
  intros Hx Hs. pose proof Hx as [I1 I2 I3 I4]. destruct Hs as [k d Hk Ho Hsig | | | l1 c l2 it r observed st s w' Ec Ei _ E | l1 c l2 r copy st ss w' Ec _ E | k clear set w' Hset E | h k w' E].
  - assert (forall k' o, planted (put_object k d (events (ws x)) (ws x)) k' o <-> planted (ws x) k' o) as Hp.
    { intros k' o. unfold planted. simpl. destruct (decide (k' = k)) as [->|Hne]; [rewrite lookup_insert_eq, Hk | by rewrite lookup_insert_ne].
      split; [|by intros (? & ? & _)]. intros (d' & [= <-] & Hd). rewrite Ho in Hd. by apply not_elem_of_nil in Hd. }
    constructor; simpl; [| | |done].
    + destruct I1 as [W1 W2 W3 W4 W5]. constructor.
      * intros k' d'. simpl. destruct (decide (k' = k)) as [->|Hne]; [rewrite lookup_insert_eq; intros [= <-]; rewrite Ho; constructor | rewrite lookup_insert_ne by done; apply W1].
      * intros k1 o1 k2 o2 H1%Hp H2%Hp. by apply W2.
      * intros k' d' o'. simpl. destruct (decide (k' = k)) as [->|Hne]; [rewrite lookup_insert_eq; intros [= <-]; rewrite Ho; by intros ?%not_elem_of_nil | rewrite lookup_insert_ne by done; apply W3].
      * intros k' o' H%Hp. by apply (W4 k').
      * intros e st He E. destruct (W5 e st He E) as (k' & o' & H & ?). exists k', o'. split; [by apply Hp | done].
    + intros k' d'. simpl. destruct (decide (k' = k)) as [->|Hne]; [rewrite lookup_insert_eq; by intros [= <-] | rewrite lookup_insert_ne by done; apply I2].
    + eapply Forall_impl; [exact I3|]. intros c [C1 C2 C3 C4]. constructor; try done.
      * intros it Hit. destruct (C3 it Hit) as (o & H & ?). exists o. split; [by apply Hp | done].
      * intros k' o' H%Hp. by apply C4.
  - by eapply wait_one_inv.
  - by eapply wait_many_inv.
  - destruct (end_call x l1 c l2 Hx Ec) as (ss & w & Ee & Hx' & _). rewrite Ei in Ee. simpl in Ee. unfold wait_one_finish in E.
    destruct (End_ _ _ (ws x)) as [[s0 w0]|]; [|done]. cbn [mbind option_bind] in *. injection Ee as <- <-.
    assert (w' = delete_event (c_event c) w0) as -> by (repeat case_match; by simplify_eq). done.
  - destruct (end_call x l1 c l2 Hx Ec) as (ss0 & w & Ee & Hx' & _). unfold wait_many_finish in E. rewrite Ee in E. cbn [mbind option_bind] in E.
    assert (w' = delete_event (c_event c) w) as -> by (repeat case_match; by simplify_eq). done.
  - destruct (change_spec _ k clear set _ w' I1 I2 Hset E) as (H1 & H2 & H3). apply same_calls; try done; unfold change_signals in E;
      destruct (objects (ws x) !! k) as [d|] eqn:Hd; try done; cbn [mbind option_bind] in E; unfold UpdateState in E; simpl in E;
      rewrite notify_is_sweep in E; destruct (_ =? _); injection E as <-; try (intros k' d'; by apply (put_object_dom k d)); intros e; try done; apply signals_of_stay.
  - destruct (close_spec _ h k _ w' I1 I2 E) as (H1 & H2 & H3). apply same_calls; try done; unfold close_handle in E;
      destruct (objects (ws x) !! k) as [d|] eqn:Hd; try done; cbn [mbind option_bind] in E; unfold Cancel, CancelWithFunc in E;
      destruct (cancel_is_sweep h 0 (observers_ d) (events (ws x))) as [_ E2]; change (Dispatcher.OnCancel h) with (OnCancel h) in E;
      destruct (cancel_loop _ _ _ _) as [[f obs] ev]; simpl in E2; injection E as <-; [intros e; simpl; rewrite E2; apply signals_of_stay | intros k' d'; by apply (put_object_dom k d)].
Qed.

Lemma sys_reach_inv x : rtc sys_step sys_init x -> sys_inv x.
Proof.
  intros Hr. remember sys_init as x0. assert (sys_inv x0) as H0.
  { subst. assert (forall k o, ~ planted (ws sys_init) k o) as Hno by (intros k o (d & Hd & _); simpl in Hd; by rewrite lookup_empty in Hd).
    constructor; simpl; [|intros k d Hd; simpl in Hd; by rewrite lookup_empty in Hd | constructor | constructor].
    constructor.
    - intros k d Hd. simpl in Hd. by rewrite lookup_empty in Hd.
    - intros k o k' o' H. by destruct (Hno k o).
    - intros k d o Hd. simpl in Hd. by rewrite lookup_empty in Hd.
    - intros k o H. by destruct (Hno k o).
    - intros e st _ He. simpl in He. by rewrite lookup_empty in He. }
  clear Heqx0. induction Hr as [|x1 x2 x3 Hs _ IH]; [done|]. apply IH. by eapply sys_step_inv.
Qed.

(** ** Properties *)


Lemma combined_closed ss m : has (foldl Z.lor 0 ss) m = true <-> exists s, s ∈ ss /\ has s m = true.
Proof.
  assert (forall a, has (foldl Z.lor a ss) m = true <-> has a m = true \/ exists s, s ∈ ss /\ has s m = true) as H.
  { induction ss as [|s ss IH]; intros a; simpl.
    - split; [by left | intros [?|(s & ?%not_elem_of_nil & _)]; done].
    - rewrite IH, has_lor_l, orb_true_iff. setoid_rewrite elem_of_cons. split.
      + intros [[?|?]|(s' & ? & ?)]; [by left | right; exists s; tauto | right; exists s'; tauto].
      + intros [?|(s' & [->|?] & ?)]; [tauto | tauto | right; by exists s']. }
  rewrite H, has_0_l. split; [by intros [?|?] | by right].
Qed.

(** Why the event of a call is signaled. *)
Lemma call_reason x c st :
  sys_inv x -> c ∈ calls x -> events (ws x) !! c_event c = Some (Some st) ->
  exists it o, it ∈ c_items c /\ planted (ws x) (it_koid it) o /\ is_item (c_event c) it (it_koid it) o /\ reason st o.
Proof.
  intros [I1 I2 I3 I4] Hc Ev. destruct (wi_reason _ _ I1 _ _ (fun f => f) Ev) as (k & o & Ho & Ee & Hr).
  apply (proj1 (Forall_forall _ _) I3) in Hc as Hok. destruct (co_all _ _ Hok k o Ho Ee) as (it & Hit & Hi). exists it, o.
  pose proof Hi as (-> & _). by split_and!.
Qed.

(** C27: A call finishes whenever its wait ends.  It reports success only with a signal
    that was waited for among the signals it reports for that item, and it reports
    a cancellation exactly when it reports a closed handle. *)
Theorem wait_many_outcome x l1 c l2 r :
  rtc sys_step sys_init x -> calls x = l1 ++ c :: l2 -> wait_result (c_event c) (ws x) r ->
  exists st ss w', wait_many_finish (c_items c) (c_event c) r ZX_OK (ws x) = Some (st, ss, w') /\ length ss = length (c_items c) /\
    (st = ZX_OK -> exists i it s, c_items c !! i = Some it /\ ss !! i = Some s /\ has s (it_signals it) = true) /\
    (st = ZX_ERR_CANCELED <-> exists s, s ∈ ss /\ has s ZX_SIGNAL_HANDLE_CLOSED = true) /\
    (st = ZX_OK \/ st = ZX_ERR_CANCELED \/ st = r).
Proof.
  intros Hr Ec Hw. pose proof (sys_reach_inv x Hr) as Hx. destruct (end_call x l1 c l2 Hx Ec) as (ss & w & Ee & _ & HF).
  assert (c ∈ calls x) as Hc by (rewrite Ec; apply elem_of_app; right; apply list_elem_of_here).
  assert (forall st, events (ws x) !! c_event c = Some (Some st) -> exists i it s, c_items c !! i = Some it /\ ss !! i = Some s /\
            ((st = ZX_OK /\ has s (it_signals it) = true) \/ (st = ZX_ERR_CANCELED /\ has s ZX_SIGNAL_HANDLE_CLOSED = true))) as Hwhy.
  { intros st Ev. destruct (call_reason x c st Hx Hc Ev) as (it & o & Hit & Ho & Hi & Hre). apply list_elem_of_lookup in Hit as [i Hit].
    destruct (Forall2_lookup_l _ _ _ _ _ HF Hit) as (s & Hs & o' & Ho' & Hi' & ->).
    assert (o' = o) as ->.
    { destruct Hi as (_ & E1 & _), Hi' as (_ & E2 & _), Ho as (d & Hd & Ho), Ho' as (d' & Hd' & Ho'). assert (d' = d) as -> by congruence.
      apply (ids_inj _ _ _ (wi_nodup _ _ (si_waits _ Hx) _ _ Hd) Ho' Ho). congruence. }
    exists i, it, (wakeup_reasons_ o). split_and!; [done | done |]. destruct Hi as (_ & _ & _ & Ew & _). unfold reason, satisfied, closed in Hre. by rewrite Ew in Hre. }
  unfold wait_many_finish. rewrite Ee. cbn [mbind option_bind]. rewrite bool_decide_true by done. cbn [negb].
  pose proof (combined_closed ss ZX_SIGNAL_HANDLE_CLOSED) as Hcl. pose proof (Forall2_length _ _ _ HF) as Hlen.
  destruct (has (foldl Z.lor 0 ss) ZX_SIGNAL_HANDLE_CLOSED) eqn:Eh.
  - eexists _, _, _. split; [done|]. split_and!; [done | done | split; [intros _; by apply Hcl | done] | by auto].
  - eexists _, _, _. split; [done|]. split_and!; [done | | | by auto].
    + intros ->. destruct Hw as [Ev|[?|[?|?]]]; [|done..]. destruct (Hwhy _ Ev) as (i & it & s & H1 & H2 & [[_ H3]|[? _]]); [|done]. by exists i, it, s.
    + split; [|intros H; by apply Hcl in H]. intros ->. destruct Hw as [Ev|[?|[?|?]]]; [|done..].
      destruct (Hwhy _ Ev) as (i & it & s & H1 & H2 & [[? _]|[_ H3]]); [done|]. exists s. split; [by eapply list_elem_of_lookup_2 | done].
Qed.

(** The same for a call that waits for one object. *)
Theorem wait_one_outcome x l1 c l2 it r :
  rtc sys_step sys_init x -> calls x = l1 ++ c :: l2 -> c_items c = [it] -> wait_result (c_event c) (ws x) r ->
  exists st s w', wait_one_finish it (c_event c) r None (ws x) = Some (st, s, w') /\
    (st = ZX_OK -> has s (it_signals it) = true) /\ (st = ZX_ERR_CANCELED <-> has s ZX_SIGNAL_HANDLE_CLOSED = true).
Proof.
  intros Hr Ec Ei Hw. pose proof (sys_reach_inv x Hr) as Hx. destruct (end_call x l1 c l2 Hx Ec) as (ss & w & Ee & _ & HF).
  assert (c ∈ calls x) as Hc by (rewrite Ec; apply elem_of_app; right; apply list_elem_of_here). rewrite Ei in Ee, HF. simpl in Ee. unfold wait_one_finish.
  destruct (End_ _ _ (ws x)) as [[s w0]|]; [|done]. cbn [mbind option_bind] in *. injection Ee as <- <-.
  inversion HF as [|? ? ? ? (o & Ho & Hi & ->) _]; subst.
  assert (forall st, events (ws x) !! c_event c = Some (Some st) -> reason st o) as Hwhy.
  { intros st Ev. destruct (call_reason x c st Hx Hc Ev) as (it' & o' & Hit & Ho' & Hi' & Hre). rewrite Ei in Hit. apply list_elem_of_singleton in Hit as ->.
    assert (o' = o) as ->; [|done]. destruct Hi as (_ & E1 & _), Hi' as (_ & E2 & _), Ho as (d & Hd & Ho), Ho' as (d' & Hd' & Ho').
    assert (d' = d) as -> by congruence. apply (ids_inj _ _ _ (wi_nodup _ _ (si_waits _ Hx) _ _ Hd) Ho' Ho). congruence. }
  destruct Hi as (_ & _ & _ & Ew & _). unfold reason, satisfied, closed in Hwhy. rewrite Ew in Hwhy.
  destruct (has (wakeup_reasons_ o) ZX_SIGNAL_HANDLE_CLOSED) eqn:Eh; eexists _, _, _; (split; [done|]); rewrite Eh.
  - done.
  - split; [|split; [|done]]; intros ->; (destruct Hw as [Ev|[?|[?|?]]]; [|done..]); destruct (Hwhy _ Ev) as [[? H]|[? H]]; done.
Qed.
End System.

(** ** A thread that waits for two objects *)

Definition wx_rights (k : Z) : Z := ZX_RIGHT_WAIT.
Definition wx_put (k : Z) (x : sys) : sys := mkSys (put_object k (new_dispatcher k 0) (events (ws x)) (ws x)) (calls x).
Definition wx_objects : sys := wx_put 8 (wx_put 7 sys_init).
Definition wx_handle (k : Z) : Handle.Handle := Handle.mkHandle 1 (Some k) ZX_RIGHT_WAIT 0.
Definition wx_item (id h k sigs : Z) : request := mkRequest id h (Some (wx_handle k)) sigs.
Definition wx_requests : list request := [wx_item 200 300 7 1; wx_item 201 301 8 2].
Definition wx_items : list item := [mkItem 200 7 300 1; mkItem 201 8 301 2].
Definition wx_call : call := mkCall 100 wx_items.
Definition wx_waiting : sys :=
  match sys_object_wait_many wx_rights 100 wx_requests ZX_OK ZX_OK (ws wx_objects) with Some (_, its, w) => mkSys w [mkCall 100 its] | None => wx_objects end.
Definition wx_signaled : sys :=
  match change_signals 8 0 2 (ws wx_waiting) with Some w => mkSys w (calls wx_waiting) | None => wx_waiting end.

Lemma wx_fresh id : fresh id (ws wx_objects).
Proof.
  intros k o (d & Hd & Ho). simpl in Hd. apply lookup_insert_Some in Hd as [[_ <-]|[_ Hd]]; [by apply not_elem_of_nil in Ho|].
  apply lookup_insert_Some in Hd as [[_ <-]|[_ Hd]]; [by apply not_elem_of_nil in Ho | by rewrite lookup_empty in Hd].
Qed.

Lemma wx_waiting_run : rtc (sys_step wx_rights) sys_init wx_waiting.
Proof.
  apply rtc_l with (wx_put 7 sys_init); [by apply ss_object|]. apply rtc_l with wx_objects; [by apply ss_object|]. apply rtc_once.
  apply (ss_many wx_rights wx_objects 100 wx_requests ZX_OK ZX_OK ZX_OK wx_items (ws wx_waiting)); [| by intros r _; apply wx_fresh | done | by vm_compute].
  apply (bool_decide_unpack _). by vm_compute.
Qed.

Lemma wx_signaled_run : rtc (sys_step wx_rights) sys_init wx_signaled.
Proof. eapply rtc_r; [apply wx_waiting_run|]. apply (ss_signal wx_rights wx_waiting 8 0 2); [done | by vm_compute]. Qed.


Lemma wait_many_outcome_witness :
  exists st ss w', wait_many_finish wx_items 100 ZX_OK ZX_OK (ws wx_signaled) = Some (st, ss, w') /\ length ss = 2%nat.
Proof.
  destruct (wait_many_outcome wx_rights wx_signaled [] wx_call [] ZX_OK wx_signaled_run eq_refl) as (st & ss & w' & E & Hl & _); [left; by vm_compute|].
  by exists st, ss, w'.
Defined.

Definition wx_one : sys :=
  match sys_object_wait_one wx_rights 200 100 300 (Some (wx_handle 7)) 1 (ws wx_objects) with Some (_, Some it, w) => mkSys w [mkCall 100 [it]] | _ => wx_objects end.

Lemma wx_one_run : rtc (sys_step wx_rights) sys_init wx_one.
Proof.
  apply rtc_l with (wx_put 7 sys_init); [by apply ss_object|]. apply rtc_l with wx_objects; [by apply ss_object|]. apply rtc_once.
  apply (ss_one wx_rights wx_objects 200 100 300 (Some (wx_handle 7)) 1 ZX_OK (Some (mkItem 200 7 300 1)) (ws wx_one)); [apply wx_fresh | done | by vm_compute].
Qed.

Definition wx_closed : sys := match close_handle 300 7 (ws wx_one) with Some w => mkSys w (calls wx_one) | None => wx_one end.

Lemma wx_closed_run : rtc (sys_step wx_rights) sys_init wx_closed.
Proof. eapply rtc_r; [apply wx_one_run|]. apply (ss_close wx_rights wx_one 300 7). by vm_compute. Qed.

Lemma wait_one_outcome_witness :
  exists st s w', wait_one_finish (mkItem 200 7 300 1) 100 ZX_ERR_CANCELED None (ws wx_closed) = Some (st, s, w') /\
    (st = ZX_ERR_CANCELED <-> has s ZX_SIGNAL_HANDLE_CLOSED = true).
Proof.
  destruct (wait_one_outcome wx_rights wx_closed [] (mkCall 100 [mkItem 200 7 300 1]) [] (mkItem 200 7 300 1) ZX_ERR_CANCELED wx_closed_run eq_refl eq_refl)
    as (st & s & w' & E & _ & H); [left; by vm_compute|]. by exists st, s, w'.
Defined.
