(* ===== verification/Pow2Range.v ===== *)
(** * The power-of-two range allocator

    [lib/pow2_range_allocator]: ranges of 32-bit integers are cut into blocks whose
    length is a power of two and which are aligned to it; a buddy allocator hands
    them out.  List nodes are values; the bookkeeping memory is the number of unused
    nodes and the results of the coming calls to [calloc]. *)

From S2P Require Import Prelude Zx.

Module Pow2Range.

(** A call ends, fails an assertion, or is still running when the fuel is used up. *)
Inductive outcome (A : Type) :=
| done (a : A)
| assert_fails
| runs_on.
Arguments done {A}.
Arguments assert_fails {A}.
Arguments runs_on {A}.

Definition obind {A B} (m : outcome A) (f : A -> outcome B) : outcome B :=
  match m with done a => f a | assert_fails => assert_fails | runs_on => runs_on end.

Record p2ra_block := mkBlock { bucket : Z; start : Z }.
Record p2ra_range := mkRange { r_start : Z; r_len : Z }.

(** [callocs]: whether the coming allocations succeed; they do beyond the list. *)
Record p2ra_state := mkState {
  ranges : list p2ra_range;
  unused_blocks : Z;
  allocated_blocks : list p2ra_block;
  free_block_buckets : gmap Z (list p2ra_block);
  bucket_count : Z;
  callocs : list bool;
}.

Definition bucket_list (b : Z) (s : p2ra_state) : list p2ra_block := default [] (free_block_buckets s !! b).
Definition put_bucket (b : Z) (l : list p2ra_block) (s : p2ra_state) : p2ra_state :=
  mkState (ranges s) (unused_blocks s) (allocated_blocks s) (<[b := l]> (free_block_buckets s)) (bucket_count s) (callocs s).
Definition with_unused (n : Z) (s : p2ra_state) : p2ra_state :=
  mkState (ranges s) n (allocated_blocks s) (free_block_buckets s) (bucket_count s) (callocs s).
Definition with_allocated (l : list p2ra_block) (s : p2ra_state) : p2ra_state :=
  mkState (ranges s) (unused_blocks s) l (free_block_buckets s) (bucket_count s) (callocs s).
Definition with_callocs (l : list bool) (s : p2ra_state) : p2ra_state :=
  mkState (ranges s) (unused_blocks s) (allocated_blocks s) (free_block_buckets s) (bucket_count s) l.
Definition with_ranges (l : list p2ra_range) (s : p2ra_state) : p2ra_state :=
  mkState l (unused_blocks s) (allocated_blocks s) (free_block_buckets s) (bucket_count s) (callocs s).

(** [calloc] *)
Definition next_calloc (s : p2ra_state) : bool * p2ra_state :=
  match callocs s with
  | [] => (true, s)
  | ok :: l => (ok, with_callocs l s)
  end.

(** Whether there is a node. *)
Definition p2ra_get_unused_block (s : p2ra_state) : bool * p2ra_state :=
  if unused_blocks s >? 0 then (true, with_unused (unused_blocks s - 1) s) else next_calloc s.

(** The nodes before the first with a greater start, and the rest. *)
Fixpoint split_after (x : Z) (l : list p2ra_block) : list p2ra_block * list p2ra_block :=
  match l with
  | [] => ([], [])
  | after :: rest =>
      if start after >? x then ([], l)
      else let '(l1, l2) := split_after x rest in (after :: l1, l2)
  end.

Definition block_len (b : p2ra_block) : Z := Z.shiftl 1 (bucket b).

(** The two blocks that might be merged when [block] stands between [before] and
    [after], and what is left around them. *)
Definition merge_pair (block : p2ra_block) (before after : list p2ra_block)
    : option (p2ra_block * p2ra_block * list p2ra_block * list p2ra_block) :=
  if nz (start block .& (Z.shiftl (block_len block) 1 - 1))
  then match last before with Some first => Some (first, block, removelast before, after) | None => None end
  else match after with second :: after => Some (block, second, before, after) | [] => None end.

(** Neither block reaches into the other. *)
Definition disjoint (block after : p2ra_block) : bool :=
  (start block >=? u32 (start after + block_len after)) || (start after >=? u32 (start block + block_len block)).

(** The assertions on the way to the place of the block: on the block, and on the
    blocks the walk passes, [before] and the first of [after]. *)
Definition return_asserts (block : p2ra_block) (before after : list p2ra_block) (s : p2ra_state) : bool :=
  (bucket block <? bucket_count s) && negb (nz (start block .& (block_len block - 1))) &&
  forallb (disjoint block) (before ++ firstn 1 after).

(** [debug]: whether the build has assertions.  The block joins its bucket; with its
    buddy it is merged and the pair goes up one bucket. *)
Fixpoint p2ra_return_free_block (fuel : nat) (debug : bool) (block : p2ra_block) (merge_allowed : bool) (s : p2ra_state)
    : outcome p2ra_state :=
  match fuel with
  | 0%nat => runs_on
  | S fuel =>
      let '(before, after) := split_after (start block) (bucket_list (bucket block) s) in
      let s' := put_bucket (bucket block) (before ++ block :: after) s in
      if debug && negb (return_asserts block before after s) then assert_fails
      else if bucket block + 1 =? bucket_count s then done s'
      else
        match merge_pair block before after with
        | None => done s'
        | Some (first, second, before, after) =>
            if u32 (start first + block_len first) =? start second then
              if debug && negb (merge_allowed && (bucket first =? bucket second)) then assert_fails
              else
                let s := with_unused (unused_blocks s + 1) (put_bucket (bucket block) (before ++ after) s) in
                p2ra_return_free_block fuel debug (mkBlock (bucket first + 1) (start first)) merge_allowed s
            else done s'
        end
  end.

(** A block goes up at most to the last bucket. *)
Definition return_fuel (s : p2ra_state) : nat := Z.to_nat (bucket_count s) + 1.
Definition return_free_block (debug : bool) (block : p2ra_block) (merge_allowed : bool) (s : p2ra_state) : outcome p2ra_state :=
  p2ra_return_free_block (return_fuel s) debug block merge_allowed s.

Definition ispow2 (x : Z) : bool := (x .& (x - 1)) =? 0.

Definition p2ra_init (max_alloc_size : Z) (malloc_ok : bool) (cs : list bool) : zx_status_t + p2ra_state :=
  if (max_alloc_size =? 0) || negb (ispow2 max_alloc_size) then inl ZX_ERR_INVALID_ARGS
  else if negb malloc_ok then inl ZX_ERR_NO_MEMORY
  else inr (mkState [] 0 [] ∅ (Z.log2 max_alloc_size + 1) cs).

(** All memory is freed; nothing may be allocated. *)
Definition p2ra_free (debug : bool) (s : p2ra_state) : outcome p2ra_state :=
  if debug && negb (nz (bucket_count s) && bool_decide (allocated_blocks s = [])) then assert_fails
  else done (mkState [] 0 [] ∅ (bucket_count s) (callocs s)).

(** ** Adding ranges *)

Definition overlaps (range_start range_len : Z) (r : p2ra_range) : bool :=
  ((r_start r >=? range_start) && (r_start r <? u32 (range_start + range_len))) ||
  ((range_start >=? r_start r) && (range_start <? u32 (r_start r + r_len r))).

(** The loop that halves the chunk: the size, the bucket, whether it has shrunk. *)
Fixpoint shrink (fuel : nat) (range_start range_len csize b : Z) (shrunk : bool) : option (Z * Z * bool) :=
  if nz (range_start .& (csize - 1)) || (range_len <? csize) then
    match fuel with
    | 0%nat => None
    | S fuel => shrink fuel range_start range_len (Z.shiftr csize 1) (b - 1) true
    end
  else Some (csize, b, shrunk).

(** The loop that doubles the chunk, at 32 bits. *)
Fixpoint grow (fuel : nat) (debug : bool) (count range_start range_len max_csize csize b tmp : Z) : outcome (Z * Z) :=
  if (tmp <=? max_csize) && (tmp <=? range_len) && negb (nz (range_start .& u32 (tmp - 1))) then
    match fuel with
    | 0%nat => runs_on
    | S fuel =>
        if debug && negb (b + 1 <? count) then assert_fails
        else grow fuel debug count range_start range_len max_csize tmp (b + 1) (u32 (Z.shiftl tmp 1))
    end
  else done (csize, b).

(** The size and bucket of the next chunk; no more than 32 turns are needed. *)
Definition next_chunk (debug : bool) (count range_start range_len max_csize csize b : Z) : outcome (Z * Z) :=
  match shrink 32 range_start range_len csize b false with
  | None => runs_on
  | Some (csize, b, shrunk) =>
      if shrunk then done (csize, b) else grow 32 debug count range_start range_len max_csize csize b (u32 (Z.shiftl csize 1))
  end.

Definition chunk_asserts (count range_start range_len csize b : Z) : bool :=
  (Z.shiftl 1 b =? csize) && (b <? count) && negb (nz (range_start .& (csize - 1))) && (csize <=? range_len) && nz csize.

(** The loop that cuts up the range; [inl] when there is no node for a chunk, whose
    nodes are freed then. *)
Fixpoint chunks (fuel : nat) (debug : bool) (range_start range_len max_csize csize b : Z) (s : p2ra_state)
    : outcome ((zx_status_t + list p2ra_block) * p2ra_state) :=
  if range_len =? 0 then done (inr [], s)
  else
    match fuel with
    | 0%nat => runs_on
    | S fuel =>
        obind (next_chunk debug (bucket_count s) range_start range_len max_csize csize b) (fun '(csize, b) =>
          if debug && negb (chunk_asserts (bucket_count s) range_start range_len csize b) then assert_fails
          else
            let '(ok, s) := p2ra_get_unused_block s in
            if negb ok then done (inl ZX_ERR_NO_MEMORY, s)
            else
              obind (chunks fuel debug (u32 (range_start + csize)) (range_len - csize) max_csize csize b s) (fun '(r, s) =>
                match r with
                | inl st => done (inl st, s)
                | inr l => done (inr (mkBlock b range_start :: l), s)
                end))
    end.

Fixpoint return_all (debug : bool) (blocks : list p2ra_block) (s : p2ra_state) : outcome p2ra_state :=
  match blocks with
  | [] => done s
  | b :: blocks => obind (return_free_block debug b false s) (return_all debug blocks)
  end.

Definition p2ra_add_range (debug : bool) (range_start range_len : Z) (s : p2ra_state) : outcome (zx_status_t * p2ra_state) :=
  if (range_len =? 0) || (u32 (range_start + range_len) <? range_start) then done (ZX_ERR_INVALID_ARGS, s)
  else if existsb (overlaps range_start range_len) (ranges s) then done (ZX_ERR_ALREADY_EXISTS, s)
  else
    let '(ok, s) := next_calloc s in
    if negb ok then done (ZX_ERR_NO_MEMORY, s)
    else
      let b := bucket_count s - 1 in
      let csize := Z.shiftl 1 b in
      obind (chunks (Z.to_nat range_len) debug range_start range_len csize csize b s) (fun '(r, s) =>
        match r with
        | inl st => done (st, s)
        | inr blocks =>
            obind (return_all debug blocks (with_ranges (ranges s ++ [mkRange range_start range_len]) s)) (fun s => done (ZX_OK, s))
        end).

(** ** Allocating and freeing *)

(** The first block of the smallest bucket from [b] on that has one. *)
Fixpoint find_block (fuel : nat) (b : Z) (s : p2ra_state) : option (p2ra_block * Z * p2ra_state) :=
  if negb (b <? bucket_count s) then None
  else
    match fuel with
    | 0%nat => None
    | S fuel =>
        match bucket_list b s with
        | block :: rest => Some (block, b, put_bucket b rest s)
        | [] => find_block fuel (b + 1) s
        end
    end.

(** The loop that halves the block [n] times; [None] when there is no node. *)
Fixpoint split_block (n : nat) (debug : bool) (block : p2ra_block) (s : p2ra_state)
    : outcome (option p2ra_block * p2ra_state) :=
  match n with
  | 0%nat => done (Some block, s)
  | S n =>
      let '(ok, s) := p2ra_get_unused_block s in
      if negb ok then obind (return_free_block debug block true s) (fun s => done (None, s))
      else if debug && (bucket block =? 0) then assert_fails
      else
        let b := bucket block - 1 in
        let block := mkBlock b (start block) in
        obind (return_free_block debug (mkBlock b (u32 (start block + block_len block))) false s) (split_block n debug block)
  end.

Definition p2ra_allocate_range (debug : bool) (size : Z) (s : p2ra_state) : outcome ((zx_status_t + Z) * p2ra_state) :=
  if (size =? 0) || negb (ispow2 size) then done (inl ZX_ERR_INVALID_ARGS, s)
  else
    let orig_bucket := Z.log2 size in
    if orig_bucket >=? bucket_count s then done (inl ZX_ERR_INVALID_ARGS, s)
    else
      match find_block (Z.to_nat (bucket_count s)) orig_bucket s with
      | None => done (inl ZX_ERR_NO_RESOURCES, s)
      | Some (block, b, s) =>
          if debug && negb ((bucket block =? b) && (b >=? orig_bucket)) then assert_fails
          else obind (split_block (Z.to_nat (b - orig_bucket)) debug block s) (fun '(r, s) =>
            match r with
            | None => done (inl ZX_ERR_NO_MEMORY, s)
            | Some block => done (inr (start block), with_allocated (block :: allocated_blocks s) s)
            end)
      end.

(** The node of a block of the list, and the list without it. *)
Fixpoint take_block (range_start b : Z) (l : list p2ra_block) : option (list p2ra_block) :=
  match l with
  | [] => None
  | block :: l =>
      if (start block =? range_start) && (bucket block =? b) then Some l
      else match take_block range_start b l with Some l => Some (block :: l) | None => None end
  end.

(** With assertions the block must be allocated; without, any node is taken. *)
Definition p2ra_free_range (debug : bool) (range_start size : Z) (s : p2ra_state) : outcome p2ra_state :=
  if debug && ((size =? 0) || negb (ispow2 size)) then assert_fails
  else
  let b := Z.log2 size in
  match (if debug then take_block range_start b (allocated_blocks s)
         else match allocated_blocks s with [] => None | _ :: l => Some l end) with
  | None => assert_fails
  | Some l => return_free_block debug (mkBlock b range_start) true (with_allocated l s)
  end.

End Pow2Range.
