(* ===== verification/Pow2RangeFacts.v ===== *)
(** * Correctness of the power-of-two range allocator

    The free blocks and the blocks handed out partition the integers of the ranges;
    blocks are aligned and merged as far as they can be, so that an allocation fails
    only when no aligned run of free integers of its size exists. *)

From stdpp Require Import sorting.
From S2P Require Import Prelude Zx Pow2Range.
Import Pow2Range.

(** ** Counting *)

Definition inb (b : p2ra_block) (i : Z) : bool := (start b <=? i) && (i <? start b + 2 ^ bucket b).
Definition inr_ (r : p2ra_range) (i : Z) : bool := (r_start r <=? i) && (i <? r_start r + r_len r).

Definition ind (b : bool) : Z := if b then 1 else 0.

(** How many of the blocks, or of the ranges, an integer is in. *)
Fixpoint cover (i : Z) (l : list p2ra_block) : Z :=
  match l with [] => 0 | b :: l => ind (inb b i) + cover i l end.
Fixpoint rcover (i : Z) (l : list p2ra_range) : Z :=
  match l with [] => 0 | r :: l => ind (inr_ r i) + rcover i l end.

Lemma cover_app i l l' : cover i (l ++ l') = cover i l + cover i l'.
Proof. induction l as [|b l IH]; simpl; [done|]. rewrite IH. lia. Qed.
Lemma rcover_app i l l' : rcover i (l ++ l') = rcover i l + rcover i l'.
Proof. induction l as [|b l IH]; simpl; [done|]. rewrite IH. lia. Qed.

Lemma cover_nonneg i l : 0 <= cover i l.
Proof. induction l as [|b l IH]; simpl; [done|]. destruct (inb b i); simpl; lia. Qed.

Lemma cover_in i b l : b ∈ l -> inb b i = true -> 1 <= cover i l.
Proof.
  intros Hb Hi. induction l as [|c l IH]; [by apply not_elem_of_nil in Hb|]. simpl.
  apply elem_of_cons in Hb as [->|Hb]; [rewrite Hi; simpl; pose proof (cover_nonneg i l); lia|].
  specialize (IH Hb). destruct (inb c i); simpl; lia.
Qed.

Lemma cover_pos i l : 1 <= cover i l -> exists b, b ∈ l /\ inb b i = true.
Proof.
  induction l as [|c l IH]; simpl; [lia|]. destruct (inb c i) eqn:E; simpl; intros H.
  - exists c. split; [apply list_elem_of_here | done].
  - destruct (IH H) as (b & Hb & Hi). exists b. split; [by right | done].
Qed.

(** Two members of the list that both have the integer count twice. *)
Lemma cover_two i b c l1 l2 l3 : inb b i = true -> inb c i = true -> 2 <= cover i (l1 ++ b :: l2 ++ c :: l3).
Proof.
  intros Hb Hc. rewrite cover_app. simpl. rewrite cover_app. simpl. rewrite Hb, Hc. simpl.
  pose proof (cover_nonneg i l1). pose proof (cover_nonneg i l2). pose proof (cover_nonneg i l3). lia.
Qed.

(** Changing one list of a family. *)
Lemma cover_bind_upd {f g : Z -> list p2ra_block} i b ks :
  NoDup ks -> b ∈ ks -> (forall k, k <> b -> g k = f k) ->
  cover i (ks ≫= g) = cover i (ks ≫= f) - cover i (f b) + cover i (g b).
Proof.
  intros Hn Hb Hg. induction ks as [|k ks IH]; [by apply not_elem_of_nil in Hb|]. apply NoDup_cons in Hn as [Hk Hn].
  rewrite !bind_cons, !cover_app. destruct (decide (k = b)) as [->|Hne].
  - assert (ks ≫= g = ks ≫= f) as ->; [|lia]. clear IH Hb Hn. induction ks as [|k ks IH]; [done|].
    apply not_elem_of_cons in Hk as [Hk1 Hk2]. rewrite !bind_cons, Hg by done. by rewrite IH.
  - apply elem_of_cons in Hb as [->|Hb]; [done|]. rewrite (Hg k Hne), IH by done. lia.
Qed.

(** ** Alignment *)

Definition aligned (b : p2ra_block) : Prop := (2 ^ bucket b | start b).

Lemma inb_true b i : inb b i = true <-> start b <= i < start b + 2 ^ bucket b.
Proof. unfold inb. rewrite andb_true_iff, Z.leb_le, Z.ltb_lt. done. Qed.

Lemma pow_pos b : 0 <= b -> 0 < 2 ^ b.
Proof. intros. by apply Z.pow_pos_nonneg. Qed.

Lemma block_len_pow b : 0 <= bucket b -> block_len b = 2 ^ bucket b.
Proof. intros H. unfold block_len. rewrite Z.shiftl_1_l. done. Qed.

Lemma multiples_apart m a b : 0 < m -> (m | a) -> (m | b) -> a < b -> a + m <= b.
Proof. intros Hm [p ->] [q ->] H. assert (p < q) by nia. assert ((p + 1) * m <= q * m) by (apply Z.mul_le_mono_nonneg_r; lia). lia. Qed.

(** Which half of a pair a block is. *)
Lemma odd_half b k : 0 <= k -> (2 ^ k | b) -> 0 <= b ->
  nz (b .& (Z.shiftl (2 ^ k) 1 - 1)) = true -> (2 ^ (k + 1) | b - 2 ^ k).
Proof.
  intros Hk [q ->] Hb Ho. pose proof (pow_pos k Hk). rewrite Z.shiftl_mul_pow2 in Ho by done.
  rewrite <- Z.pow_add_r in Ho by lia.
  replace (2 ^ (k + 1) - 1) with (Z.ones (k + 1)) in Ho by (rewrite Z.ones_equiv; lia).
  rewrite Z.land_ones in Ho by lia. unfold nz in Ho. apply negb_true_iff, Z.eqb_neq in Ho.
  rewrite Z.pow_add_r in * by lia. change (2 ^ 1) with 2 in *.
  assert (q mod 2 = 1) as Hq.
  { pose proof (Z.mod_pos_bound q 2 ltac:(lia)). destruct (Z.eq_dec (q mod 2) 0) as [E|]; [|lia]. exfalso. apply Ho.
    apply Z.mod_divide; [lia|]. apply Z.mod_divide in E as [r ->]; [|done]. exists r. lia. }
  exists (q / 2). pose proof (Z.div_mod q 2 ltac:(lia)). nia.
Qed.

Lemma even_half b k : 0 <= k -> nz (b .& (Z.shiftl (2 ^ k) 1 - 1)) = false -> (2 ^ (k + 1) | b).
Proof.
  intros Hk Ho. pose proof (pow_pos k Hk). rewrite Z.shiftl_mul_pow2 in Ho by done. rewrite <- Z.pow_add_r in Ho by lia.
  replace (2 ^ (k + 1) - 1) with (Z.ones (k + 1)) in Ho by (rewrite Z.ones_equiv; lia).
  rewrite Z.land_ones in Ho by lia. unfold nz in Ho. apply negb_false_iff, Z.eqb_eq in Ho.
  apply Z.mod_divide; [|done]. pose proof (pow_pos (k + 1)). lia.
Qed.

(** A block is its two halves. *)
Lemma cover_halves i k a : 0 <= k ->
  cover i [mkBlock (k + 1) a] = cover i [mkBlock k a] + cover i [mkBlock k (a + 2 ^ k)].
Proof.
  intros Hk. unfold cover, inb. simpl. rewrite Z.pow_add_r by lia. change (2 ^ 1) with 2. pose proof (pow_pos k Hk).
  destruct (Z.leb_spec a i), (Z.ltb_spec i (a + 2 ^ k * 2)), (Z.ltb_spec i (a + 2 ^ k)), (Z.leb_spec (a + 2 ^ k) i),
    (Z.ltb_spec i (a + 2 ^ k + 2 ^ k)); simpl; lia.
Qed.

(** ** The invariant *)

Definition free_list (s : p2ra_state) : list p2ra_block := seqZ 0 (bucket_count s) ≫= fun b => bucket_list b s.

Definition before (x y : p2ra_block) : Prop := start x < start y.

(** The blocks of the buckets and those of [others] partition the ranges. *)
Record wf (others : list p2ra_block) (s : p2ra_state) : Prop := {
  w_count : 0 < bucket_count s;
  w_bucket : forall b x, x ∈ bucket_list b s -> 0 <= b < bucket_count s -> bucket x = b;
  w_sorted : forall b, 0 <= b < bucket_count s -> StronglySorted before (bucket_list b s);
  w_aligned : forall x, x ∈ free_list s ++ others -> aligned x /\ 0 <= bucket x < bucket_count s /\ 0 <= start x;
  w_cover : forall i, cover i (free_list s) + cover i others = rcover i (ranges s);
  w_once : forall i, rcover i (ranges s) <= 1;
  w_ranges : forall r, r ∈ ranges s -> 0 <= r_start r /\ 0 < r_len r /\ r_start r + r_len r < 2 ^ 32;
  w_merged : forall x y, x ∈ free_list s -> y ∈ free_list s -> bucket x = bucket y -> bucket x + 1 < bucket_count s ->
    start y = start x + 2 ^ bucket x -> ~ (2 ^ (bucket x + 1) | start x);
}.

Lemma elem_of_free x s : x ∈ free_list s <-> exists b, 0 <= b < bucket_count s /\ x ∈ bucket_list b s.
Proof.
  unfold free_list. rewrite list_elem_of_bind. split.
  - intros (b & Hx & Hb). apply elem_of_seqZ in Hb. exists b. split; [lia | done].
  - intros (b & Hb & Hx). exists b. split; [done|]. apply elem_of_seqZ. lia.
Qed.

Lemma bucket_list_put b b' l s : bucket_list b' (put_bucket b l s) = if decide (b' = b) then l else bucket_list b' s.
Proof.
  unfold bucket_list. simpl. destruct (decide (b' = b)) as [->|Hne]; [by rewrite lookup_insert_eq | by rewrite lookup_insert_ne].
Qed.

Lemma cover_put i b l s : 0 <= b < bucket_count s ->
  cover i (free_list (put_bucket b l s)) = cover i (free_list s) - cover i (bucket_list b s) + cover i l.
Proof.
  intros Hb. unfold free_list. simpl.
  rewrite (cover_bind_upd (f := fun b => bucket_list b s) i b (seqZ 0 (bucket_count s))).
  - rewrite bucket_list_put, decide_True by done. done.
  - apply NoDup_seqZ.
  - apply elem_of_seqZ. lia.
  - intros k Hk. by rewrite bucket_list_put, decide_False.
Qed.

Lemma elem_of_put x b l s : 0 <= b < bucket_count s ->
  x ∈ free_list (put_bucket b l s) <-> x ∈ l \/ exists b', b' <> b /\ 0 <= b' < bucket_count s /\ x ∈ bucket_list b' s.
Proof.
  intros Hb. rewrite elem_of_free. simpl. split.
  - intros (b' & Hb' & Hx). rewrite bucket_list_put in Hx. destruct (decide (b' = b)); [by left|]. right. by exists b'.
  - intros [Hx|(b' & Hne & Hb' & Hx)]; [exists b | exists b']; rewrite bucket_list_put; split; try done;
      [by rewrite decide_True | by rewrite decide_False].
Qed.

Lemma sorted_app l1 l2 :
  StronglySorted before (l1 ++ l2) <->
  StronglySorted before l1 /\ StronglySorted before l2 /\ (forall x y, x ∈ l1 -> y ∈ l2 -> start x < start y).
Proof.
  induction l1 as [|x l1 IH]; simpl.
  - split; [intros H; split_and!; [constructor | done | by intros x y ?%not_elem_of_nil] | tauto].
  - split.
    + intros H. apply StronglySorted_inv in H as [H Hx]. apply IH in H as (H1 & H2 & H3). rewrite Forall_app in Hx. destruct Hx as [Hx1 Hx2].
      split_and!; [by constructor | done |]. intros y z [->|Hy]%elem_of_cons Hz; [|by apply H3]. by eapply Forall_forall in Hx2.
    + intros (H1 & H2 & H3). apply StronglySorted_inv in H1 as [H1 Hx]. constructor.
      * apply IH. split_and!; [done | done |]. intros y z Hy. apply H3. by right.
      * apply Forall_app. split; [done|]. apply Forall_forall. intros z Hz. apply H3; [apply list_elem_of_here | done].
Qed.

Lemma split_after_spec x l l1 l2 : split_after x l = (l1, l2) -> StronglySorted before l ->
  l = l1 ++ l2 /\ (forall y, y ∈ l1 -> start y <= x) /\ (forall y, y ∈ l2 -> x < start y).
Proof.
  revert l1 l2. induction l as [|y l IH]; intros l1 l2; simpl.
  { intros [= <- <-] _. split_and!; [done | |]; intros z Hz; by apply not_elem_of_nil in Hz. }
  rewrite Z.gtb_ltb. intros E [Hs Hy]%StronglySorted_inv. destruct (Z.ltb_spec x (start y)) as [Hlt|Hge].
  - injection E as <- <-. split_and!; [done | intros z Hz; by apply not_elem_of_nil in Hz |].
    intros z [->|Hz]%elem_of_cons; [done|]. eapply Forall_forall in Hy; [|done]. unfold before in Hy. lia.
  - destruct (split_after x l) as [m1 m2] eqn:Em. injection E as <- <-. destruct (IH m1 m2 eq_refl Hs) as (-> & H1 & H2).
    split_and!; [done | | done]. intros z [->|Hz]%elem_of_cons; [done | by apply H1].
Qed.

Lemma rcover_pos i l : 1 <= rcover i l -> exists r, r ∈ l /\ inr_ r i = true.
Proof.
  induction l as [|c l IH]; simpl; [lia|]. destruct (inr_ c i) eqn:E; simpl; intros H.
  - exists c. split; [apply list_elem_of_here | done].
  - destruct (IH H) as (r & Hr & Hi). exists r. split; [by right | done].
Qed.

(** The end of a block fits in 32 bits. *)
Lemma block_bound others s x : wf others s -> x ∈ free_list s ++ others -> start x + 2 ^ bucket x < 2 ^ 32.
Proof.
  intros Hwf Hx. destruct (w_aligned _ _ Hwf x Hx) as (_ & Hb & Hs). pose proof (pow_pos (bucket x) ltac:(lia)).
  assert (1 <= cover (start x + 2 ^ bucket x - 1) (free_list s ++ others)) as Hc.
  { apply (cover_in _ x); [done|]. apply inb_true. lia. }
  rewrite cover_app, (w_cover _ _ Hwf) in Hc. apply rcover_pos in Hc as (r & Hr & Hi).
  destruct (w_ranges _ _ Hwf r Hr) as (_ & _ & Hend). apply andb_true_iff in Hi as [_ Hi%Z.ltb_lt]. lia.
Qed.

(** The 32-bit sum is the end. *)
Lemma block_end others s x : wf others s -> x ∈ free_list s ++ others -> u32 (start x + block_len x) = start x + 2 ^ bucket x.
Proof.
  intros Hwf Hx. destruct (w_aligned _ _ Hwf x Hx) as (_ & Hb & Hs). rewrite block_len_pow by lia. pose proof (pow_pos (bucket x) ltac:(lia)).
  apply u32_id. pose proof (block_bound _ _ _ Hwf Hx). unfold is_u32. lia.
Qed.

Lemma low_bits_zero x b : 0 <= b -> nz (x .& (2 ^ b - 1)) = false <-> (2 ^ b | x).
Proof.
  intros Hb. replace (2 ^ b - 1) with (Z.ones b) by (rewrite Z.ones_equiv; lia). rewrite Z.land_ones by done.
  unfold nz. rewrite negb_false_iff, Z.eqb_eq. apply Z.mod_divide. pose proof (pow_pos b). lia.
Qed.

Section Return.
Context (others : list p2ra_block) (blk : p2ra_block) (s : p2ra_state).
Hypothesis Hwf : wf (blk :: others) s.
Local Abbreviation b := (bucket blk).

Lemma blk_ok : aligned blk /\ 0 <= b < bucket_count s /\ 0 <= start blk.
Proof. apply (w_aligned _ _ Hwf). apply elem_of_app. right. apply list_elem_of_here. Qed.

(** No free block of its bucket starts where the block does. *)
Lemma start_new x : x ∈ bucket_list b s -> start x <> start blk.
Proof.
  intros Hx E. destruct blk_ok as (_ & Hb & _). pose proof (w_cover _ _ Hwf (start blk)) as Hc. simpl in Hc.
  pose proof (w_once _ _ Hwf (start blk)). pose proof (pow_pos b ltac:(lia)).
  assert (1 <= cover (start blk) (free_list s)).
  { apply (cover_in _ x); [apply elem_of_free; by exists b|]. apply inb_true. rewrite (w_bucket _ _ Hwf b x Hx Hb). lia. }
  assert (inb blk (start blk) = true) as Hi by (apply inb_true; lia). rewrite Hi in Hc. simpl in Hc.
  pose proof (cover_nonneg (start blk) others). lia.
Qed.

Lemma bucket_aligned x : x ∈ bucket_list b s -> (2 ^ b | start x) /\ bucket x = b.
Proof.
  intros Hx. destruct blk_ok as (_ & Hb & _). pose proof (w_bucket _ _ Hwf b x Hx Hb) as E. split; [|done].
  destruct (w_aligned _ _ Hwf x) as (Ha & _); [apply elem_of_app; left; apply elem_of_free; by exists b|].
  unfold aligned in Ha. by rewrite E in Ha.
Qed.

Lemma blk_end : u32 (start blk + block_len blk) = start blk + 2 ^ b.
Proof. apply (block_end _ _ _ Hwf), elem_of_app. right. apply list_elem_of_here. Qed.

Lemma bucket_end x : x ∈ bucket_list b s -> u32 (start x + block_len x) = start x + 2 ^ b.
Proof.
  intros Hx. destruct (bucket_aligned x Hx) as [_ <-]. apply (block_end _ _ _ Hwf), elem_of_app. left. apply elem_of_free.
  exists b. split; [apply blk_ok | done].
Qed.

Context (l1 l2 : list p2ra_block).
Hypothesis Hsplit : split_after (start blk) (bucket_list b s) = (l1, l2).

Lemma split_ok : bucket_list b s = l1 ++ l2 /\ (forall y, y ∈ l1 -> start y < start blk) /\ (forall y, y ∈ l2 -> start blk < start y).
Proof.
  destruct blk_ok as (_ & Hb & _).
  destruct (split_after_spec _ _ _ _ Hsplit (w_sorted _ _ Hwf b Hb)) as (E & H1 & H2). split_and!; [done | | done].
  intros y Hy. pose proof (H1 y Hy). assert (y ∈ bucket_list b s) as Hin by (rewrite E; apply elem_of_app; by left).
  pose proof (start_new y Hin). lia.
Qed.

(** The assertions on the way hold. *)
Lemma asserts_hold : return_asserts blk l1 l2 s = true.
Proof.
  destruct split_ok as (El & H1 & H2). pose proof blk_ok as (Hab & Hb & Hs0). unfold return_asserts. rewrite block_len_pow by lia.
  rewrite (proj2 (Z.ltb_lt _ _) (proj2 Hb)).
  rewrite (proj2 (low_bits_zero _ _ (proj1 Hb)) Hab). simpl. apply forallb_forall. intros y Hy%list_elem_of_In.
  assert (y ∈ l1 ++ l2) as Hin.
  { rewrite elem_of_app in *. destruct Hy as [?|Hy]; [by left|right]. destruct l2 as [|z r]; [done|]. simpl in Hy.
    apply list_elem_of_singleton in Hy as ->. apply list_elem_of_here. }
  pose proof Hin as Hin'. rewrite <- El in Hin'. destruct (bucket_aligned y Hin') as [Hay Eby]. pose proof (pow_pos b ltac:(lia)).
  unfold disjoint. rewrite (block_end _ _ y Hwf), (block_end _ _ blk Hwf), Eby, !Z.geb_leb;
    [|apply elem_of_app; right; apply list_elem_of_here | apply elem_of_app; left; apply elem_of_free; by exists b].
  apply orb_true_iff. rewrite !Z.leb_le. apply elem_of_app in Hin as [Hl|Hl]; [left; apply H1 in Hl | right; apply H2 in Hl];
    by apply multiples_apart.
Qed.

(** The buddy, when it is there, is the neighbour. *)
Lemma buddy_before x : x ∈ bucket_list b s -> start blk = start x + 2 ^ b ->
  exists first, last l1 = Some first /\ start first = start x.
Proof.
  intros Hx E. destruct split_ok as (El & H1 & H2). pose proof blk_ok as (Hab & Hb & _). pose proof (pow_pos b ltac:(lia)).
  assert (x ∈ l1) as Hx1.
  { rewrite El in Hx. apply elem_of_app in Hx as [?|Hx]; [done|]. apply H2 in Hx. lia. }
  destruct l1 as [|y0 l0] using rev_ind; [by apply not_elem_of_nil in Hx1|]. clear IHl0. exists y0. split; [apply last_snoc|].
  assert (y0 ∈ bucket_list b s) as Hy0 by (rewrite El, <- app_assoc; apply elem_of_app; right; apply list_elem_of_here).
  destruct (bucket_aligned x Hx) as [Hax _]. destruct (bucket_aligned y0 Hy0) as [Hay _].
  assert (start y0 < start blk) by (apply H1, elem_of_app; right; apply list_elem_of_here).
  assert (start x <= start y0).
  { apply elem_of_app in Hx1 as [Hx1|Hx1]; [|apply list_elem_of_singleton in Hx1 as ->; lia].
    pose proof (w_sorted _ _ Hwf b Hb) as Hs. rewrite El in Hs. apply sorted_app in Hs as (Hs & _ & _).
    apply sorted_app in Hs as (_ & _ & Hs). specialize (Hs x y0 Hx1 (list_elem_of_here _ _)). lia. }
  destruct (Z.eq_dec (start x) (start y0)); [done|]. pose proof (multiples_apart (2 ^ b) (start x) (start y0) ltac:(lia) Hax Hay ltac:(lia)). lia.
Qed.

Lemma buddy_after x : x ∈ bucket_list b s -> start x = start blk + 2 ^ b ->
  exists second rest, l2 = second :: rest /\ start second = start x.
Proof.
  intros Hx E. destruct split_ok as (El & H1 & H2). pose proof blk_ok as (Hab & Hb & _). pose proof (pow_pos b ltac:(lia)).
  assert (x ∈ l2) as Hx2.
  { rewrite El in Hx. apply elem_of_app in Hx as [Hx|?]; [|done]. apply H1 in Hx. lia. }
  destruct l2 as [|y rest]; [by apply not_elem_of_nil in Hx2|]. exists y, rest. split; [done|].
  assert (y ∈ bucket_list b s) as Hy by (rewrite El; apply elem_of_app; right; apply list_elem_of_here).
  destruct (bucket_aligned y Hy) as [Hay _]. pose proof (H2 y (list_elem_of_here _ _)).
  assert (start y <= start x).
  { apply elem_of_cons in Hx2 as [->|Hx2]; [lia|]. pose proof (w_sorted _ _ Hwf b Hb) as Hs. rewrite El in Hs.
    apply sorted_app in Hs as (_ & Hs & _). apply StronglySorted_inv in Hs as [_ Hs]. eapply Forall_forall in Hs; [|done].
    unfold before in Hs. lia. }
  pose proof (multiples_apart (2 ^ b) (start blk) (start y) ltac:(lia) Hab Hay ltac:(lia)). lia.
Qed.

(** The block joins its bucket. *)
Lemma join_wf :
  (b + 1 < bucket_count s -> forall x, x ∈ bucket_list b s ->
     (start blk = start x + 2 ^ b -> ~ (2 ^ (b + 1) | start x)) /\ (start x = start blk + 2 ^ b -> ~ (2 ^ (b + 1) | start blk))) ->
  wf others (put_bucket b (l1 ++ blk :: l2) s).
Proof.
  intros Hno. destruct split_ok as (El & H1 & H2). pose proof blk_ok as (Hab & Hb & Hs0).
  assert (forall x, x ∈ l1 ++ blk :: l2 <-> x = blk \/ x ∈ bucket_list b s) as Hmem.
  { intros x. rewrite El, !elem_of_app, elem_of_cons. tauto. }
  assert (forall x, x ∈ free_list (put_bucket b (l1 ++ blk :: l2) s) -> x = blk \/ x ∈ free_list s) as Hfree.
  { intros x Hx. apply elem_of_put in Hx as [Hx|(b' & _ & Hb' & Hx)]; [|right; apply elem_of_free; by exists b'|done].
    apply Hmem in Hx as [->|Hx]; [by left | right; apply elem_of_free; by exists b]. }
  constructor; simpl.
  - apply (w_count _ _ Hwf).
  - intros b' x. rewrite bucket_list_put. destruct (decide (b' = b)) as [->|Hne]; [|apply (w_bucket _ _ Hwf)].
    intros [->|Hx]%Hmem Hb'; [done | by apply (w_bucket _ _ Hwf)].
  - intros b' Hb'. rewrite bucket_list_put. destruct (decide (b' = b)) as [->|Hne]; [|by apply (w_sorted _ _ Hwf)].
    pose proof (w_sorted _ _ Hwf b Hb) as Hs. rewrite El in Hs. apply sorted_app in Hs as (Hs1 & Hs2 & Hs3).
    apply sorted_app. split_and!; [done | |].
    + constructor; [done|]. apply Forall_forall. exact H2.
    + intros x y Hx [->|Hy]%elem_of_cons; [by apply H1 | by apply Hs3].
  - intros x [Hx|Hx]%elem_of_app; [apply Hfree in Hx as [->|Hx]; [done|]|]; apply (w_aligned _ _ Hwf), elem_of_app;
      [by left | right; by right].
  - intros i. rewrite cover_put by done. rewrite El, !cover_app. simpl. pose proof (w_cover _ _ Hwf i) as Hc. simpl in Hc. lia.
  - apply (w_once _ _ Hwf).
  - apply (w_ranges _ _ Hwf).
  - assert (forall x, x ∈ free_list s -> bucket x = b -> x ∈ bucket_list b s) as Hin.
    { intros x (b' & Hb' & Hx)%elem_of_free E. pose proof (w_bucket _ _ Hwf b' x Hx Hb') as E'. congruence. }
    intros x y Hx Hy Exy Hlt Es. apply Hfree in Hx as [->|Hx], Hy as [->|Hy].
    + pose proof (pow_pos b). lia.
    + apply (Hno Hlt y); [apply Hin; congruence | done].
    + rewrite Exy in *. apply (Hno Hlt x); [by apply Hin | done].
    + by apply (w_merged _ _ Hwf x y).
Qed.

(** The block and its buddy [y] leave as one block. *)
Lemma merge_wf y la lb a n :
  bucket_list b s = la ++ y :: lb -> b + 1 < bucket_count s -> (2 ^ (b + 1) | a) ->
  (start blk = a /\ start y = a + 2 ^ b) \/ (start y = a /\ start blk = a + 2 ^ b) ->
  wf (mkBlock (b + 1) a :: others) (with_unused n (put_bucket b (la ++ lb) s)).
Proof.
  clear Hsplit. intros El Hlt Ha Hy. pose proof blk_ok as (Hab & Hb & Hs0).
  assert (forall x, x ∈ la ++ lb -> x ∈ bucket_list b s) as Hmem.
  { intros x. rewrite El, !elem_of_app, elem_of_cons. tauto. }
  assert (forall x, x ∈ free_list (put_bucket b (la ++ lb) s) -> x ∈ free_list s) as Hfree.
  { intros x Hx. apply elem_of_put in Hx as [Hx|(b' & _ & Hb' & Hx)]; [| |done]; apply elem_of_free; [exists b | by exists b'].
    split; [done | by apply Hmem]. }
  assert (y ∈ bucket_list b s) as Hyin by (rewrite El; apply elem_of_app; right; apply list_elem_of_here).
  destruct (w_aligned _ _ Hwf y) as (_ & _ & Hy0); [apply elem_of_app; left; apply elem_of_free; by exists b|].
  pose proof (w_bucket _ _ Hwf b y Hyin Hb) as Eby.
  constructor; simpl.
  - apply (w_count _ _ Hwf).
  - intros b' x. change (bucket_list b' (with_unused _ ?q)) with (bucket_list b' q). rewrite bucket_list_put.
    destruct (decide (b' = b)) as [->|Hne]; [|apply (w_bucket _ _ Hwf)].
    intros Hx%Hmem Hb'. by apply (w_bucket _ _ Hwf).
  - intros b' Hb'. change (bucket_list b' (with_unused _ ?q)) with (bucket_list b' q). rewrite bucket_list_put.
    destruct (decide (b' = b)) as [->|Hne]; [|by apply (w_sorted _ _ Hwf)].
    pose proof (w_sorted _ _ Hwf b Hb) as Hs. rewrite El in Hs. apply sorted_app in Hs as (Hs1 & Hs2 & Hs3).
    apply StronglySorted_inv in Hs2 as [Hs2 _]. apply sorted_app. split_and!; [done | done |]. intros x z Hx Hz. apply Hs3; [done | by right].
  - intros x [Hx|[->|Hx]%elem_of_cons]%elem_of_app; [apply (w_aligned _ _ Hwf), elem_of_app; left; by apply Hfree | |].
    + unfold aligned. simpl. split_and!; try done; lia.
    + apply (w_aligned _ _ Hwf), elem_of_app. right. by right.
  - intros i. change (free_list (with_unused _ ?q)) with (free_list q). rewrite cover_put by done.
    pose proof (w_cover _ _ Hwf i) as Hc. pose proof (cover_halves i b a ltac:(lia)) as Hh. rewrite El, !cover_app. simpl in *.
    assert (ind (inb blk i) + ind (inb y i) = ind (inb (mkBlock b a) i) + ind (inb (mkBlock b (a + 2 ^ b)) i)) as Hp.
    { unfold inb. simpl. rewrite Eby. destruct Hy as [[-> ->]|[-> ->]]; lia. }
    lia.
  - apply (w_once _ _ Hwf).
  - apply (w_ranges _ _ Hwf).
  - intros x z Hx Hz. apply (w_merged _ _ Hwf); by apply Hfree.
Qed.

Lemma odd_not_even : nz (start blk .& (Z.shiftl (2 ^ b) 1 - 1)) = true -> ~ (2 ^ (b + 1) | start blk).
Proof.
  intros Eo [q Hq]. pose proof blk_ok as (_ & Hb & _). unfold nz in Eo. apply negb_true_iff, Z.eqb_neq in Eo. apply Eo.
  rewrite Z.shiftl_mul_pow2, <- Z.pow_add_r by lia.
  replace (2 ^ (b + 1) - 1) with (Z.ones (b + 1)) by (rewrite Z.ones_equiv; lia).
  rewrite Z.land_ones by lia. rewrite Hq. apply Z.mod_mul. pose proof (pow_pos (b + 1)). lia.
Qed.

Lemma even_not_odd x : (2 ^ (b + 1) | start blk) -> start blk = start x + 2 ^ b -> ~ (2 ^ (b + 1) | start x).
Proof.
  intros [r Hr] E [q Hq]. pose proof blk_ok as (_ & Hb & _). rewrite Z.pow_add_r in * by lia. change (2 ^ 1) with 2 in *.
  pose proof (pow_pos b ltac:(lia)). rewrite Hr, Hq in E. remember (2 ^ b) as m. assert (r * 2 = q * 2 + 1) by nia. lia.
Qed.

(** The pair the code looks at, when it fits. *)
Lemma pair_fits first second la lb :
  merge_pair blk l1 l2 = Some (first, second, la, lb) -> u32 (start first + block_len first) = start second ->
  exists y la' lb', bucket_list b s = la' ++ y :: lb' /\ la ++ lb = la' ++ lb' /\ bucket first = b /\ bucket second = b /\ (2 ^ (b + 1) | start first) /\
    ((start blk = start first /\ start y = start first + 2 ^ b) \/ (start y = start first /\ start blk = start first + 2 ^ b)).
Proof.
  destruct split_ok as (El & _ & _). pose proof blk_ok as (Hab & Hb & Hs0). unfold merge_pair. rewrite (block_len_pow blk) by lia.
  destruct (nz (_ .& (Z.shiftl _ 1 - 1))) eqn:Eo.
  - destruct (last l1) as [f|] eqn:Elast; [|done]. intros [= <- <- <- <-] Ef.
    assert (l1 = removelast l1 ++ [f]) as E1.
    { destruct l1 as [|y0 l0] using rev_ind; [done|]. rewrite last_snoc in Elast. injection Elast as ->. by rewrite removelast_last. }
    assert (f ∈ bucket_list b s) as Hfin by (rewrite El, E1, <- app_assoc; apply elem_of_app; right; apply list_elem_of_here).
    destruct (bucket_aligned _ Hfin) as [Haf Ebf]. rewrite (bucket_end _ Hfin) in Ef.
    exists f, (removelast l1), l2. split_and!; [rewrite El, E1 at 1; by rewrite <- app_assoc | done | done | done | | right; lia].
    pose proof (odd_half _ _ (proj1 Hb) Hab Hs0 Eo). by replace (start f) with (start blk - 2 ^ b) by lia.
  - destruct l2 as [|y rest]; [done|]. intros [= <- <- <- <-] Ef. rewrite blk_end in Ef.
    assert (y ∈ bucket_list b s) as Hyin by (rewrite El; apply elem_of_app; right; apply list_elem_of_here).
    destruct (bucket_aligned _ Hyin) as [_ Eby].
    exists y, l1, rest. split_and!; [done | done | done | done | exact (even_half _ _ (proj1 Hb) Eo) | left; lia].
Qed.

(** When it does not fit the block has no buddy. *)
Lemma pair_does_not_fit :
  match merge_pair blk l1 l2 with Some (first, second, _, _) => u32 (start first + block_len first) <> start second | None => True end ->
  forall x, x ∈ bucket_list b s ->
    (start blk = start x + 2 ^ b -> ~ (2 ^ (b + 1) | start x)) /\ (start x = start blk + 2 ^ b -> ~ (2 ^ (b + 1) | start blk)).
Proof.
  intros Hno x Hx. destruct split_ok as (El & _ & _). pose proof blk_ok as (Hab & Hb & Hs0). unfold merge_pair in Hno.
  destruct (nz (_ .& (Z.shiftl _ 1 - 1))) eqn:Eo; rewrite (block_len_pow blk) in Eo by lia.
  - split; [|intros _; by apply odd_not_even]. intros E _.
    destruct (buddy_before x Hx E) as (f & Ef & Es). rewrite Ef in Hno.
    assert (f ∈ bucket_list b s) as Hfin.
    { rewrite El. apply elem_of_app. left. destruct l1 as [|y0 l0] using rev_ind; [done|]. rewrite last_snoc in Ef. injection Ef as ->.
      apply elem_of_app. right. apply list_elem_of_here. }
    rewrite (bucket_end _ Hfin) in Hno. lia.
  - split; [apply even_not_odd; exact (even_half _ _ (proj1 Hb) Eo)|]. intros E _.
    destruct (buddy_after x Hx E) as (f & r & Ef & Es). rewrite Ef, blk_end in Hno. lia.
Qed.
End Return.

(** The fields that returning a block leaves alone. *)
Definition same_pool (s s' : p2ra_state) : Prop :=
  ranges s' = ranges s /\ bucket_count s' = bucket_count s /\ allocated_blocks s' = allocated_blocks s /\ callocs s' = callocs s.

Definition buddy_free (blk : p2ra_block) (s : p2ra_state) : Prop :=
  exists y a, y ∈ free_list s /\ bucket y = bucket blk /\ (2 ^ (bucket blk + 1) | a) /\
    ((start blk = a /\ start y = a + 2 ^ bucket blk) \/ (start y = a /\ start blk = a + 2 ^ bucket blk)).

(** Returning a block that is in nobody's hands keeps the partition; with
    assertions and without leave to merge it fails when the buddy is free. *)
Lemma return_spec fuel debug blk merge others s :
  wf (blk :: others) s -> (Z.to_nat (bucket_count s - bucket blk) <= fuel)%nat ->
  match p2ra_return_free_block fuel debug blk merge s with
  | done s' => wf others s' /\ same_pool s s'
  | assert_fails => debug = true /\ merge = false /\ buddy_free blk s
  | runs_on => False
  end.
Proof.
  revert blk s. induction fuel as [|fuel IH]; intros blk s Hwf Hf.
  { destruct (blk_ok _ _ _ Hwf) as (_ & Hb & _). lia. }
  simpl. destruct (blk_ok _ _ _ Hwf) as (Hab & Hb & Hs0). destruct (split_after (start blk) (bucket_list (bucket blk) s)) as [l1 l2] eqn:Esp.
  pose proof (join_wf _ _ _ Hwf _ _ Esp) as Hjoin. pose proof (pair_does_not_fit _ _ _ Hwf _ _ Esp) as Hno.
  rewrite (asserts_hold _ _ _ Hwf _ _ Esp), andb_false_r.
  destruct (Z.eqb_spec (bucket blk + 1) (bucket_count s)) as [Ec|Ec]; [split; [apply Hjoin; lia | done]|].
  destruct (merge_pair blk l1 l2) as [[[[first second] la] lb]|] eqn:Ep; [|split; [apply Hjoin; intros _; by apply Hno | done]].
  destruct (Z.eqb_spec (u32 (start first + block_len first)) (start second)) as [Em|Em]; [|split; [apply Hjoin; intros _; by apply Hno | done]].
  destruct (pair_fits _ _ _ Hwf _ _ Esp _ _ _ _ Ep Em) as (y & la' & lb' & El & -> & Ebf & Ebs & Ha & Hy).
  rewrite Ebs, Ebf, Z.eqb_refl, andb_true_r. destruct (debug && negb merge) eqn:Ed.
  { apply andb_true_iff in Ed as [-> ?%negb_true_iff]. split_and!; [done | done |]. exists y, (start first).
    assert (y ∈ bucket_list (bucket blk) s) as Hyin by (rewrite El; apply elem_of_app; right; apply list_elem_of_here).
    split_and!; [apply elem_of_free; by exists (bucket blk) | by apply (bucket_aligned _ _ _ Hwf) | done | done]. }
  pose proof (merge_wf _ _ _ Hwf y la' lb' (start first) (unused_blocks s + 1) El ltac:(lia) Ha Hy) as Hm.
  specialize (IH _ _ Hm ltac:(simpl; lia)). simpl in IH. destruct (p2ra_return_free_block _ _ _ _ _); [| |done].
  - destruct IH as [IH1 IH2]. by split.
  - by destruct IH as (-> & -> & _).
Qed.

Lemma return_block_ok debug blk merge others s :
  wf (blk :: others) s ->
  match return_free_block debug blk merge s with
  | done s' => wf others s' /\ same_pool s s'
  | assert_fails => debug = true /\ merge = false /\ buddy_free blk s
  | runs_on => False
  end.
Proof. intros Hwf. apply return_spec; [done|]. destruct (blk_ok _ _ _ Hwf) as (_ & Hb & _). unfold return_fuel. lia. Qed.

(** The partition does not depend on bookkeeping memory or on the order of the
    blocks in hand. *)
Lemma wf_ext others others' s s' :
  wf others s -> free_block_buckets s' = free_block_buckets s -> bucket_count s' = bucket_count s -> ranges s' = ranges s ->
  (forall i, cover i others' = cover i others) ->
  (forall x, x ∈ others' -> aligned x /\ 0 <= bucket x < bucket_count s /\ 0 <= start x) -> wf others' s'.
Proof.
  intros [H1 H2 H3 H4 H5 H6 H6r H7] Ef Ec Er Hc Ha.
  assert (forall b, bucket_list b s' = bucket_list b s) as Eb by (intros; unfold bucket_list; by rewrite Ef).
  assert (free_list s' = free_list s) as El.
  { unfold free_list. rewrite Ec. by apply list_bind_ext. }
  constructor; rewrite ?Ec, ?Er; try done.
  - intros b x. rewrite Eb. apply H2.
  - intros b. rewrite Eb. apply H3.
  - rewrite El. intros x [Hx|Hx]%elem_of_app; [apply H4, elem_of_app; by left | by apply Ha].
  - intros i. rewrite El, Hc. apply H5.
  - rewrite El. apply H7.
Qed.

(** ** Taking a block *)

Lemma find_block_spec fuel b s others :
  wf others s -> 0 <= b -> (Z.to_nat (bucket_count s - b) <= fuel)%nat ->
  match find_block fuel b s with
  | Some (blk, b', s') => b <= b' < bucket_count s /\ bucket blk = b' /\ blk ∈ free_list s /\ wf (blk :: others) s' /\ same_pool s s'
  | None => forall x, x ∈ free_list s -> bucket x < b
  end.
Proof.
  intros Hwf. revert b. induction fuel as [|fuel IH]; intros b Hb Hf; simpl.
  - destruct (Z.ltb_spec b (bucket_count s)); [lia|]. simpl. intros x (b' & Hb' & Hx)%elem_of_free.
    rewrite (w_bucket _ _ Hwf b' x Hx Hb'). lia.
  - destruct (Z.ltb_spec b (bucket_count s)) as [Hlt|Hge]; simpl.
    2: { intros x (b' & Hb' & Hx)%elem_of_free. rewrite (w_bucket _ _ Hwf b' x Hx Hb'). lia. }
    destruct (bucket_list b s) as [|blk rest] eqn:El.
    + specialize (IH (b + 1) ltac:(lia) ltac:(lia)). destruct (find_block fuel (b + 1) s) as [[[blk b'] s']|].
      * destruct IH as (? & ? & ? & ? & ?). split_and!; try done; lia.
      * intros x Hx. specialize (IH x Hx). apply elem_of_free in Hx as (b' & Hb' & Hx).
        pose proof (w_bucket _ _ Hwf b' x Hx Hb') as E. destruct (Z.eq_dec (bucket x) b); [|lia].
        assert (b' = b) as -> by congruence. rewrite El in Hx. by apply not_elem_of_nil in Hx.
    + assert (blk ∈ bucket_list b s) as Hin by (rewrite El; apply list_elem_of_here).
      pose proof (w_bucket _ _ Hwf b blk Hin ltac:(lia)) as Eb.
      split_and!; [lia | lia | done | apply elem_of_free; by exists b | | done].
      destruct Hwf as [H1 H2 H3 H4 H5 H6 H6r H7].
      assert (forall x, x ∈ free_list (put_bucket b rest s) -> x ∈ free_list s) as Hfree.
      { intros x Hx. apply elem_of_put in Hx as [Hx|(b' & _ & Hb' & Hx)]; [| |lia]; apply elem_of_free; [exists b | by exists b'].
        rewrite El. split; [lia | by right]. }
      constructor; simpl; try done.
      * intros b' x. rewrite bucket_list_put. destruct (decide (b' = b)) as [->|]; [|apply H2]. intros Hx. apply H2. rewrite El. by right.
      * intros b' Hb'. rewrite bucket_list_put. destruct (decide (b' = b)) as [->|]; [|by apply H3]. specialize (H3 b Hb'). rewrite El in H3.
        by apply StronglySorted_inv in H3 as [? _].
      * intros x [Hx|[->|Hx]%elem_of_cons]%elem_of_app; apply H4, elem_of_app; [left; by apply Hfree | left; apply elem_of_free; by exists b | by right].
      * intros i. rewrite cover_put by lia. rewrite El. simpl. specialize (H5 i). lia.
      * intros x y Hx Hy. apply H7; by apply Hfree.
Qed.

(** What a node costs: the partition, the ranges and the blocks stay. *)
Definition same_blocks (s s' : p2ra_state) : Prop :=
  free_block_buckets s' = free_block_buckets s /\ ranges s' = ranges s /\ bucket_count s' = bucket_count s /\
  allocated_blocks s' = allocated_blocks s.

Lemma get_unused_same s : same_blocks s (p2ra_get_unused_block s).2.
Proof. unfold p2ra_get_unused_block, next_calloc. repeat case_match; done. Qed.

(** [calloc] fails only when it is said to. *)
Lemma get_unused_ok s : (forall ok, ok ∈ callocs s -> ok = true) -> (p2ra_get_unused_block s).1 = true /\
  forall ok, ok ∈ callocs (p2ra_get_unused_block s).2 -> ok = true.
Proof.
  intros H. unfold p2ra_get_unused_block, next_calloc. destruct (_ >? 0); [done|]. destruct (callocs s) as [|ok l] eqn:E; simpl.
  - split; [done|]. by rewrite E.
  - split; [apply H, list_elem_of_here|]. intros ok' Hok. apply H. by right.
Qed.

Lemma wf_same others s s' : wf others s -> same_blocks s s' -> wf others s'.
Proof.
  intros Hwf (E1 & E2 & E3 & _). apply (wf_ext others others s); try done. intros x Hx. apply (w_aligned _ _ Hwf), elem_of_app. by right.
Qed.

(** A block in hand becomes its halves. *)
Lemma wf_halves k a others s : 0 <= k -> wf (mkBlock (k + 1) a :: others) s -> wf (mkBlock k (a + 2 ^ k) :: mkBlock k a :: others) s.
Proof.
  intros Hk Hwf. destruct (blk_ok _ _ _ Hwf) as (Ha & Hb & Hs). simpl in *. pose proof (pow_pos k Hk).
  assert ((2 ^ k | a)) as Hd by (apply (Z.divide_trans _ (2 ^ (k + 1))); [exists 2; rewrite Z.pow_add_r by lia; lia | exact Ha]).
  apply (wf_ext (mkBlock (k + 1) a :: others) _ s); try done.
  - intros i. pose proof (cover_halves i k a Hk). simpl in *. lia.
  - unfold aligned. intros x [->|[->|Hx]%elem_of_cons]%elem_of_cons; simpl.
    + split_and!; [apply Z.divide_add_r; [done | apply Z.divide_refl] | lia..].
    + split_and!; [done | lia..].
    + apply (w_aligned _ _ Hwf), elem_of_app. right. by right.
Qed.

(** The second half has no free buddy: the first is in hand. *)
Lemma half_not_buddy k a others s :
  (2 ^ (k + 1) | a) -> 0 <= k -> wf (mkBlock k (a + 2 ^ k) :: mkBlock k a :: others) s -> ~ buddy_free (mkBlock k (a + 2 ^ k)) s.
Proof.
  intros Ha Hk Hwf (y & c & Hy & Eb & Hc & Hcase). simpl in *. pose proof (pow_pos k Hk).
  destruct Hcase as [[E _]|[E1 E2]].
  - subst c. destruct Ha as [p Hp], Hc as [q Hq]. rewrite Z.pow_add_r in * by lia. change (2 ^ 1) with 2 in *.
    remember (2 ^ k) as m. assert (p * 2 + 1 = q * 2) by nia. lia.
  - pose proof (w_cover _ _ Hwf a) as Hcov. pose proof (w_once _ _ Hwf a). simpl in Hcov.
    assert (1 <= cover a (free_list s)) by (apply (cover_in _ y); [done | apply inb_true; rewrite Eb; lia]).
    assert (inb (mkBlock k a) a = true) as Hi by (apply inb_true; simpl; lia). rewrite Hi in Hcov. simpl in Hcov.
    pose proof (cover_nonneg a others). destruct (inb (mkBlock k (a + 2 ^ k)) a); simpl in Hcov; lia.
Qed.

(** Halving a block [n] times. *)
Lemma split_block_spec n debug k a others s :
  0 <= k -> wf (mkBlock (k + Z.of_nat n) a :: others) s ->
  match split_block n debug (mkBlock (k + Z.of_nat n) a) s with
  | done (Some blk, s') => blk = mkBlock k a /\ wf (blk :: others) s' /\ ranges s' = ranges s /\ bucket_count s' = bucket_count s /\
                           allocated_blocks s' = allocated_blocks s
  | done (None, s') => wf others s' /\ ranges s' = ranges s /\ bucket_count s' = bucket_count s /\
                       allocated_blocks s' = allocated_blocks s /\ ~ (forall ok, ok ∈ callocs s -> ok = true)
  | _ => False
  end.
Proof.
  revert s. induction n as [|n IH]; intros s Hk Hwf; simpl.
  { rewrite Z.add_0_r in *. done. }
  pose proof (get_unused_same s) as Hs. pose proof (get_unused_ok s) as Hok.
  destruct (p2ra_get_unused_block s) as [ok s1]. simpl in Hs, Hok. pose proof (wf_same _ _ _ Hwf Hs) as Hwf1.
  destruct Hs as (_ & Er & Ec & Ea). destruct ok; simpl.
  2: { pose proof (return_block_ok debug _ true _ _ Hwf1) as Hr. destruct (return_free_block _ _ _ _) as [s2| |]; simpl; [|by destruct Hr as (_ & ? & _)|done].
       destruct Hr as [Hr (E1 & E2 & E3 & E4)]. split_and!; [done | congruence.. |]. intros H. by destruct (Hok H). }
  destruct (Z.eqb_spec (k + Z.of_nat (S n)) 0); [lia|]. rewrite andb_false_r.
  replace (k + Z.of_nat (S n) - 1) with (k + Z.of_nat n) by lia.
  replace (k + Z.of_nat (S n)) with (k + Z.of_nat n + 1) in Hwf1 by lia.
  pose proof (wf_halves (k + Z.of_nat n) a others s1 ltac:(lia) Hwf1) as Hwf2. pose proof (blk_ok _ _ _ Hwf1) as (Hal & _).
  pose proof (block_end _ _ (mkBlock (k + Z.of_nat n) a) Hwf2 ltac:(apply elem_of_app; right; right; apply list_elem_of_here)) as Eend.
  simpl in Eend. rewrite Eend.
  pose proof (half_not_buddy (k + Z.of_nat n) a others s1 Hal ltac:(lia) Hwf2) as Hnb.
  pose proof (return_block_ok debug _ false _ _ Hwf2) as Hr. destruct (return_free_block _ _ _ _) as [s2| |]; simpl; [|by destruct Hr as (_ & _ & ?)|done].
  destruct Hr as [Hr (E1 & E2 & E3 & E4)]. specialize (IH s2 Hk Hr).
  destruct (split_block n debug _ s2) as [[[blk|] s3]| |]; [| |done|done].
  - destruct IH as (? & ? & ? & ? & ?). split_and!; [done | done | congruence..].
  - destruct IH as (? & ? & ? & ? & Hn). split_and!; [done | congruence.. |]. intros Hall. apply Hn. rewrite E4. by apply Hok.
Qed.

(** ** Completeness of merging *)

(** The integers of [a, a + 2^k) are all free. *)
Definition run_free (a k : Z) (s : p2ra_state) : Prop := forall i, a <= i < a + 2 ^ k -> exists x, x ∈ free_list s /\ inb x i = true.

Lemma block_contains x k a i : aligned x -> 0 <= k <= bucket x -> (2 ^ k | a) -> a <= i < a + 2 ^ k -> inb x i = true ->
  start x <= a /\ a + 2 ^ k <= start x + 2 ^ bucket x.
Proof.
  intros Hx Hk Ha Hi Hin%inb_true. pose proof (pow_pos k ltac:(lia)).
  assert (2 ^ bucket x = 2 ^ (bucket x - k) * 2 ^ k) as Ep by (rewrite <- Z.pow_add_r by lia; f_equal; lia).
  assert ((2 ^ k | start x)) as Hd by (apply (Z.divide_trans _ (2 ^ bucket x)); [exists (2 ^ (bucket x - k)); lia | exact Hx]).
  assert ((2 ^ k | start x + 2 ^ bucket x)) as Hd' by (apply Z.divide_add_r; [done | exists (2 ^ (bucket x - k)); lia]).
  split.
  - destruct (Z.le_gt_cases (start x) a); [done|]. pose proof (multiples_apart (2 ^ k) a (start x) ltac:(lia) Ha Hd ltac:(lia)). lia.
  - destruct (Z.lt_ge_cases a (start x + 2 ^ bucket x)); [|lia].
    pose proof (multiples_apart (2 ^ k) a (start x + 2 ^ bucket x) ltac:(lia) Ha Hd' ltac:(lia)). lia.
Qed.

(** An aligned run of free integers lies within one free block. *)
Lemma run_in_block others s (n : nat) a :
  wf others s -> Z.of_nat n < bucket_count s -> (2 ^ Z.of_nat n | a) -> run_free a (Z.of_nat n) s ->
  exists x, x ∈ free_list s /\ Z.of_nat n <= bucket x /\ start x <= a /\ a + 2 ^ Z.of_nat n <= start x + 2 ^ bucket x.
Proof.
  intros Hwf. revert a. induction n as [|n IH]; intros a Hn Ha Hrun.
  { destruct (Hrun a) as (x & Hx & Hi); [simpl; lia|]. destruct (w_aligned _ _ Hwf x) as (Hal & Hb & _); [apply elem_of_app; by left|].
    exists x. split; [done|]. split; [simpl; lia|]. apply (block_contains x 0 a a); [done | lia | done | simpl; lia | done]. }
  replace (Z.of_nat (S n)) with (Z.of_nat n + 1) in * by lia. set (k := Z.of_nat n) in *.
  assert (2 ^ (k + 1) = 2 ^ k + 2 ^ k) as Ep by (rewrite Z.pow_add_r by lia; lia). pose proof (pow_pos k ltac:(lia)).
  assert ((2 ^ k | a)) as Hd by (apply (Z.divide_trans _ (2 ^ (k + 1))); [exists 2; lia | done]).
  assert ((2 ^ k | a + 2 ^ k)) as Hd2 by (apply Z.divide_add_r; [done | apply Z.divide_refl]).
  destruct (IH a ltac:(lia) Hd) as (x & Hx & Hbx & Hx1 & Hx2); [intros i Hi; apply Hrun; lia|].
  destruct (IH (a + 2 ^ k) ltac:(lia) Hd2) as (y & Hy & Hby & Hy1 & Hy2); [intros i Hi; apply Hrun; lia|].
  destruct (w_aligned _ _ Hwf x) as (Hax & Hcx & _); [apply elem_of_app; by left|].
  destruct (w_aligned _ _ Hwf y) as (Hay & Hcy & _); [apply elem_of_app; by left|].
  destruct (Z.le_gt_cases (k + 1) (bucket x)) as [Hge|Hlt].
  { exists x. split; [done|]. split; [done|]. apply (block_contains x (k + 1) a a); [done | lia | done | lia | apply inb_true; lia]. }
  destruct (Z.le_gt_cases (k + 1) (bucket y)) as [Hge'|Hlt'].
  { exists y. split; [done|]. split; [done|]. apply (block_contains y (k + 1) a (a + 2 ^ k)); [done | lia | done | lia | apply inb_true; lia]. }
  exfalso. assert (bucket x = k) as Ekx by lia. assert (bucket y = k) as Eky by lia. rewrite Ekx, Eky in *.
  apply (w_merged _ _ Hwf x y Hx Hy); [congruence | lia | rewrite Ekx; lia |]. rewrite Ekx. by replace (start x) with a by lia.
Qed.

(** ** Cutting up a range *)

Lemma shrink_spec fuel b x len sh : 0 <= b <= Z.of_nat fuel -> 1 <= len ->
  exists b' sh', shrink fuel x len (2 ^ b) b sh = Some (2 ^ b', b', sh') /\ 0 <= b' <= b /\ (2 ^ b' | x) /\ 2 ^ b' <= len.
Proof.
  revert b sh. induction fuel as [|fuel IH]; intros b sh Hb Hl; simpl.
  - assert (b = 0) as -> by lia. change (2 ^ 0) with 1. simpl. rewrite Z.land_0_r. simpl. destruct (Z.ltb_spec len 1); [lia|].
    exists 0, sh. split_and!; try done; try lia. apply Z.divide_1_l.
  - destruct (nz (x .& (2 ^ b - 1)) || (len <? 2 ^ b)) eqn:E.
    + assert (b <> 0) as Hne.
      { intros ->. change (2 ^ 0) with 1 in E. simpl in E. rewrite Z.land_0_r in E. simpl in E. destruct (Z.ltb_spec len 1); [lia | done]. }
      rewrite Z.shiftr_div_pow2 by lia. change (2 ^ 1) with 2.
      replace (2 ^ b / 2) with (2 ^ (b - 1)).
      2: { replace b with (b - 1 + 1) at 2 by lia. rewrite Z.pow_add_r by lia. change (2 ^ 1) with 2. by rewrite Z.div_mul. }
      destruct (IH (b - 1) true ltac:(lia) Hl) as (b' & sh' & E' & Hb' & Hd & Hle). exists b', sh'. split_and!; try done; lia.
    + apply orb_false_iff in E as [E1 E2]. apply low_bits_zero in E1; [|lia]. apply Z.ltb_ge in E2.
      exists b, sh. split_and!; try done; lia.
Qed.

Lemma grow_spec fuel debug b M x len : 0 <= b <= M -> M <= 30 -> M - b <= Z.of_nat fuel -> (2 ^ b | x) -> 2 ^ b <= len ->
  exists b', grow fuel debug (M + 1) x len (2 ^ M) (2 ^ b) b (2 ^ (b + 1)) = done (2 ^ b', b') /\ b <= b' <= M /\ (2 ^ b' | x) /\ 2 ^ b' <= len.
Proof.
  revert b. induction fuel as [|fuel IH]; intros b Hb HM Hf Hd Hle; simpl;
    (assert (2 ^ (b + 1) <= 2 ^ 31) as H31 by (apply Z.pow_le_mono_r; lia); pose proof (pow_pos (b + 1) ltac:(lia));
     rewrite (u32_id (2 ^ (b + 1) - 1)) by (unfold is_u32; lia);
     destruct (Z.leb_spec (2 ^ (b + 1)) (2 ^ M)) as [HbM|HbM]; simpl;
     [apply Z.pow_le_mono_r_iff in HbM; [|lia|lia] | exists b; split_and!; try done; lia]).
  - lia.
  - destruct (Z.leb_spec (2 ^ (b + 1)) len) as [Hl|Hl]; simpl; [|exists b; split_and!; try done; lia].
    destruct (nz (x .& (2 ^ (b + 1) - 1))) eqn:E; simpl; [exists b; split_and!; try done; lia|].
    destruct (Z.ltb_spec (b + 1) (M + 1)); [|lia]. rewrite andb_false_r.
    apply low_bits_zero in E; [|lia]. rewrite Z.shiftl_mul_pow2 by lia. change (2 ^ 1) with 2.
    replace (2 ^ (b + 1) * 2) with (2 ^ (b + 1 + 1)) by (rewrite (Z.pow_add_r 2 (b + 1)) by lia; lia).
    assert (2 ^ (b + 1 + 1) <= 2 ^ 31) by (apply Z.pow_le_mono_r; lia). pose proof (pow_pos (b + 1 + 1) ltac:(lia)).
    rewrite u32_id by (unfold is_u32; lia).
    destruct (IH (b + 1) ltac:(lia) HM ltac:(lia) E Hl) as (b' & E' & Hb' & Hd' & Hle'). exists b'. split_and!; try done; lia.
Qed.

Lemma next_chunk_spec debug b M x len : 0 <= b <= M -> M <= 30 -> 1 <= len ->
  exists b', next_chunk debug (M + 1) x len (2 ^ M) (2 ^ b) b = done (2 ^ b', b') /\ 0 <= b' <= M /\ (2 ^ b' | x) /\ 2 ^ b' <= len.
Proof.
  intros Hb HM Hl. unfold next_chunk. destruct (shrink_spec 32 b x len false ltac:(lia) Hl) as (b' & sh & -> & Hb' & Hd & Hle).
  destruct sh; [exists b'; split_and!; try done; lia|]. rewrite Z.shiftl_mul_pow2 by lia.
  replace (2 ^ b' * 2 ^ 1) with (2 ^ (b' + 1)) by (by rewrite Z.pow_add_r by lia).
  assert (2 ^ (b' + 1) <= 2 ^ 31) by (apply Z.pow_le_mono_r; lia). pose proof (pow_pos (b' + 1) ltac:(lia)).
  rewrite u32_id by (unfold is_u32; lia).
  destruct (grow_spec 32 debug b' M x len ltac:(lia) HM ltac:(lia) Hd Hle) as (b2 & -> & Hb2 & Hd2 & Hle2).
  exists b2. split_and!; try done; lia.
Qed.

Lemma chunk_asserts_hold M x len b : 0 <= b <= M -> (2 ^ b | x) -> 2 ^ b <= len -> chunk_asserts (M + 1) x len (2 ^ b) b = true.
Proof.
  intros Hb Hd Hl. unfold chunk_asserts. pose proof (pow_pos b ltac:(lia)). rewrite Z.shiftl_1_l, Z.eqb_refl, (proj2 (low_bits_zero _ _ (proj1 Hb)) Hd).
  unfold nz. destruct (Z.ltb_spec b (M + 1)), (Z.leb_spec (2 ^ b) len), (Z.eqb_spec (2 ^ b) 0); simpl; lia || done.
Qed.

(** The chunks are aligned and partition the range; it takes no more turns than the
    range has integers. *)
Lemma chunks_spec fuel debug x len b s : 0 <= x -> x + len < 2 ^ 32 -> 0 <= len <= Z.of_nat fuel -> 0 <= b < bucket_count s -> bucket_count s <= 31 ->
  exists r s', chunks fuel debug x len (2 ^ (bucket_count s - 1)) (2 ^ b) b s = done (r, s') /\ same_blocks s s' /\
    match r with
    | inl st => st = ZX_ERR_NO_MEMORY
    | inr l => (forall y, y ∈ l -> aligned y /\ 0 <= bucket y < bucket_count s /\ 0 <= start y) /\
               (forall i, cover i l = ind (inr_ (mkRange x len) i))
    end.
Proof.
  revert x len b s. induction fuel as [|fuel IH]; intros x len b s Hx Hend Hlen Hb HM; simpl;
    (destruct (Z.eqb_spec len 0) as [->|Hne];
     [exists (inr []), s; split_and!; [done | done | by intros y ?%not_elem_of_nil |];
      intros i; unfold inr_; simpl; rewrite Z.add_0_r; by destruct (Z.leb_spec x i), (Z.ltb_spec i x); try lia|]).
  { lia. }
  set (M := bucket_count s - 1). replace (bucket_count s) with (M + 1) by lia.
  destruct (next_chunk_spec debug b M x len ltac:(lia) ltac:(lia) ltac:(lia)) as (b' & -> & Hb' & Hd & Hle). simpl.
  rewrite chunk_asserts_hold, andb_false_r by done.
  pose proof (get_unused_same s) as Hs. destruct (p2ra_get_unused_block s) as [ok s1]. simpl in Hs. pose proof Hs as (_ & _ & Ec1 & _).
  destruct ok; simpl; [|by exists (inl ZX_ERR_NO_MEMORY), s1]. pose proof (pow_pos b' ltac:(lia)).
  rewrite u32_id by (unfold is_u32; lia).
  destruct (IH (x + 2 ^ b') (len - 2 ^ b') b' s1 ltac:(lia) ltac:(lia) ltac:(lia) ltac:(lia) ltac:(lia)) as (r & s2 & Er & Hs2 & Hr).
  rewrite Ec1 in Er, Hr. fold M in Er. rewrite Er. simpl.
  assert (same_blocks s s2) as Hs12 by (unfold same_blocks in *; destruct_and!; split_and!; congruence).
  destruct r as [st|l]; [by exists (inl st), s2|]. destruct Hr as [Ha Hc].
  exists (inr (mkBlock b' x :: l)), s2. split_and!; [done | done | |].
  - intros y [->|Hy]%elem_of_cons; [|destruct (Ha y Hy) as (? & ? & ?); split_and!; try done; lia].
    unfold aligned. simpl. split_and!; try done; lia.
  - intros i. simpl. rewrite Hc. unfold inb, inr_. simpl.
    destruct (Z.leb_spec x i), (Z.ltb_spec i (x + 2 ^ b')), (Z.leb_spec (x + 2 ^ b') i),
      (Z.ltb_spec i (x + 2 ^ b' + (len - 2 ^ b'))), (Z.ltb_spec i (x + len)); simpl; lia.
Qed.

(** Without assertions blocks are returned whatever they touch. *)
Lemma return_all_spec debug l others s : wf (l ++ others) s ->
  match return_all debug l s with
  | done s' => wf others s' /\ ranges s' = ranges s /\ bucket_count s' = bucket_count s /\ allocated_blocks s' = allocated_blocks s
  | assert_fails => debug = true
  | runs_on => False
  end.
Proof.
  revert s. induction l as [|x l IH]; intros s Hwf; simpl; [done|].
  pose proof (return_block_ok debug x false (l ++ others) s Hwf) as Hr.
  destruct (return_free_block debug x false s) as [s1| |]; simpl; [|by destruct Hr|done].
  destruct Hr as [Hr (E1 & E2 & E3 & _)]. specialize (IH s1 Hr). destruct (return_all debug l s1) as [s2| |]; [|done|done].
  destruct IH as (H1 & H2 & H3 & H4). split_and!; [done | congruence..].
Qed.

(** ** Runs *)

(** [live]: the blocks clients have. *)
Record pool := mkPool { st : p2ra_state; live : list p2ra_block }.

(** Clients add ranges, allocate, and free what they have. *)
Inductive pool_step (debug : bool) (x : pool) : pool -> Prop :=
| ps_add a len r s' :
    is_u32 a -> is_u32 len -> p2ra_add_range debug a len (st x) = done (r, s') -> pool_step debug x (mkPool s' (live x))
| ps_alloc size a s' :
    is_u32 size -> p2ra_allocate_range debug size (st x) = done (inr a, s') ->
    pool_step debug x (mkPool s' (mkBlock (Z.log2 size) a :: live x))
| ps_alloc_fails size r s' :
    is_u32 size -> p2ra_allocate_range debug size (st x) = done (inl r, s') -> pool_step debug x (mkPool s' (live x))
| ps_free l1 y l2 s' :
    live x = l1 ++ y :: l2 -> p2ra_free_range debug (start y) (2 ^ bucket y) (st x) = done s' ->
    pool_step debug x (mkPool s' (l1 ++ l2)).

(** Allocations are of at most [2^30] integers. *)
Inductive pool_reachable (debug : bool) : pool -> Prop :=
| pr_init max cs s : 0 <= max <= 2 ^ 30 -> p2ra_init max true cs = inr s -> pool_reachable debug (mkPool s [])
| pr_step x x' : pool_reachable debug x -> pool_step debug x x' -> pool_reachable debug x'.

Record pool_inv (debug : bool) (x : pool) : Prop := {
  pi_wf : wf (live x) (st x);
  pi_count : bucket_count (st x) <= 31;
  pi_length : length (allocated_blocks (st x)) = length (live x);
  pi_debug : debug = true -> allocated_blocks (st x) ≡ₚ live x;
}.

Lemma init_inv debug max cs s : 0 <= max <= 2 ^ 30 -> p2ra_init max true cs = inr s -> pool_inv debug (mkPool s []).
Proof.
  intros Hmax. unfold p2ra_init. destruct (_ || _) eqn:E; [done|]. apply orb_false_iff in E as [E0 E1]. b2p.
  simpl. intros [= <-]. unfold ispow2 in E1. b2p. pose proof (Z.log2_nonneg max).
  assert (Z.log2 max <= Z.log2 (2 ^ 30)) by (apply Z.log2_le_mono; lia). rewrite Z.log2_pow2 in * by lia.
  assert (free_list (mkState [] 0 [] ∅ (Z.log2 max + 1) cs) = []) as El.
  { unfold free_list. simpl. generalize (seqZ 0 (Z.log2 max + 1)). intros l. induction l as [|x l IH]; [done|]. by rewrite bind_cons, IH. }
  constructor; simpl; try done; [|lia].
  constructor; simpl; try rewrite El; try done; try lia.
  - by intros b x ?%not_elem_of_nil.
  - intros b Hb. constructor.
  - by intros x ?%not_elem_of_nil.
  - by intros r ?%not_elem_of_nil.
  - by intros x y ?%not_elem_of_nil.
Qed.

(** A range that passes the check shares no integer with the others. *)
Lemma no_overlap a len l i :
  (forall r, r ∈ l -> 0 <= r_start r /\ 0 < r_len r /\ r_start r + r_len r < 2 ^ 32) -> 0 <= a -> 0 <= a + len < 2 ^ 32 ->
  existsb (overlaps a len) l = false ->
  inr_ (mkRange a len) i = true -> rcover i l = 0.
Proof.
  intros H3 Ha Hend Eov Hi. induction l as [|r l IH]; [done|]. simpl in *.
  apply orb_false_iff in Eov as [Eo Eov]. rewrite IH; [|by intros q Hq; apply H3; right | done].
  assert (inr_ r i = false) as ->; [|done]. destruct (H3 r (list_elem_of_here _ _)) as (? & ? & ?). unfold overlaps in Eo.
  rewrite !u32_id in Eo by (unfold is_u32; lia). unfold inr_ in *. simpl in *.
  apply andb_true_iff in Hi as [Hi1%Z.leb_le Hi2%Z.ltb_lt]. apply orb_false_iff in Eo as [Eo1 Eo2].
  destruct (Z.leb_spec (r_start r) i), (Z.ltb_spec i (r_start r + r_len r)); try done. exfalso. rewrite Z.geb_leb in Eo1, Eo2.
  destruct (Z.leb_spec a (r_start r)), (Z.ltb_spec (r_start r) (a + len)), (Z.leb_spec (r_start r) a),
    (Z.ltb_spec a (r_start r + r_len r)); simpl in *; lia || done.
Qed.

Lemma add_no_wrap a len : is_u32 a -> is_u32 len -> (u32 (a + len) <? a) = false -> a + len < 2 ^ 32.
Proof.
  unfold is_u32, u32. intros Ha Hl E%Z.ltb_ge. destruct (Z.lt_ge_cases (a + len) (2 ^ 32)); [done|].
  rewrite (Z.mod_eq (a + len) (2 ^ 32)) in E by done. assert ((a + len) / 2 ^ 32 = 1) as Eq by (symmetry; apply (Z.div_unique _ _ _ (a + len - 2 ^ 32)); lia). lia.
Qed.

(** A new range and the chunks it is cut into. *)
Lemma new_range_wf a len l others s :
  wf others s -> 0 <= a -> 0 < len -> a + len < 2 ^ 32 -> existsb (overlaps a len) (ranges s) = false ->
  (forall y, y ∈ l -> aligned y /\ 0 <= bucket y < bucket_count s /\ 0 <= start y) ->
  (forall i, cover i l = ind (inr_ (mkRange a len) i)) ->
  wf (l ++ others) (with_ranges (ranges s ++ [mkRange a len]) s).
Proof.
  intros [W1 W2 W3 W4 W5 W6 W6r W7] Ha Hl Hend Eov Hal Hcov. set (s3 := with_ranges _ s). constructor; simpl; try done.
  - intros y Hy. change (free_list s3) with (free_list s) in Hy. rewrite !elem_of_app in Hy. destruct Hy as [Hy|[Hy|Hy]].
    + apply W4, elem_of_app. by left.
    + by apply Hal.
    + apply W4, elem_of_app. by right.
  - intros i. change (free_list s3) with (free_list s). rewrite cover_app, rcover_app, Hcov. specialize (W5 i). simpl. lia.
  - intros i. rewrite rcover_app. simpl. destruct (inr_ (mkRange a len) i) eqn:Ei; simpl; [|specialize (W6 i); lia].
    rewrite (no_overlap a len (ranges s) i W6r) by (done || lia). lia.
  - intros r [Hr|Hr]%elem_of_app; [by apply W6r|]. apply list_elem_of_singleton in Hr as ->. simpl. lia.
Qed.

Lemma add_inv debug x a len r s' :
  pool_inv debug x -> is_u32 a -> is_u32 len -> p2ra_add_range debug a len (st x) = done (r, s') -> pool_inv debug (mkPool s' (live x)).
Proof.
  intros [H1 H2 H4 H5] Ha Hl. unfold p2ra_add_range. destruct (_ || _) eqn:Earg; [intros [= <- <-]; by constructor|].
  destruct (existsb _ _) eqn:Eov; [intros [= <- <-]; by constructor|].
  assert (same_blocks (st x) (next_calloc (st x)).2) as Hs by (unfold next_calloc; by destruct (callocs (st x))).
  destruct (next_calloc (st x)) as [ok s1]. simpl in Hs. pose proof (wf_same _ _ _ H1 Hs) as Hwf1. destruct Hs as (_ & Er & Ec & Ea).
  destruct ok; simpl; [|intros [= <- <-]; constructor; simpl; rewrite ?Ec, ?Er, ?Ea; done].
  apply orb_false_iff in Earg as [E0 E1]. apply Z.eqb_neq in E0. pose proof (add_no_wrap a len Ha Hl E1) as Hend. unfold is_u32 in *.
  pose proof (w_count _ _ Hwf1) as Hcnt. rewrite Z.shiftl_1_l.
  destruct (chunks_spec (Z.to_nat len) debug a len (bucket_count s1 - 1) s1) as (c & s2 & -> & Hs2 & Hc); try lia. simpl.
  pose proof (wf_same _ _ _ Hwf1 Hs2) as Hwf2. destruct Hs2 as (_ & Er2 & Ec2 & Ea2).
  destruct c as [e|l]; [intros [= <- <-]; constructor; simpl; rewrite ?Ec2, ?Ec, ?Er2, ?Er, ?Ea2, ?Ea; done|]. destruct Hc as [Hal Hcov].
  rewrite <- Er, <- Er2 in Eov. rewrite <- Ec2 in Hal.
  pose proof (new_range_wf a len l (live x) s2 Hwf2 ltac:(lia) ltac:(lia) Hend Eov Hal Hcov) as Hwf3.
  pose proof (return_all_spec debug l (live x) _ Hwf3) as Hret. destruct (return_all debug l _) as [s4| |]; [|done|done].
  simpl. intros [= <- <-]. destruct Hret as (Hw & Q1 & Q2 & Q3).
  constructor; simpl; [done | rewrite Q2; simpl; lia | rewrite Q3; simpl; by rewrite Ea2, Ea | rewrite Q3; simpl; by rewrite Ea2, Ea].
Qed.

Lemma valid_size size : is_u32 size -> (size =? 0) || negb (ispow2 size) = false -> size = 2 ^ Z.log2 size.
Proof.
  intros Hs E. apply orb_false_iff in E as [E0%Z.eqb_neq E1]. unfold ispow2 in E1. apply negb_false_iff, Z.eqb_eq in E1.
  apply pow2_land; [unfold is_u32 in Hs; lia | done].
Qed.

Lemma pow2_size k : 0 <= k -> (2 ^ k =? 0) || negb (ispow2 (2 ^ k)) = false.
Proof.
  intros Hk. pose proof (pow_pos k Hk). destruct (Z.eqb_spec (2 ^ k) 0); [lia|]. unfold ispow2. simpl.
  replace (2 ^ k - 1) with (Z.ones k) by (rewrite Z.ones_equiv; lia). rewrite Z.land_ones, Z.mod_same by lia. done.
Qed.

(** What an allocation comes to. *)
Lemma allocate_spec debug x size : pool_inv debug x -> is_u32 size ->
  match p2ra_allocate_range debug size (st x) with
  | done (inr a, s') =>
      size = 2 ^ Z.log2 size /\ (2 ^ Z.log2 size | a) /\ run_free a (Z.log2 size) (st x) /\
      pool_inv debug (mkPool s' (mkBlock (Z.log2 size) a :: live x))
  | done (inl r, s') =>
      pool_inv debug (mkPool s' (live x)) /\
      match r with
      | ZX_ERR_INVALID_ARGS => s' = st x /\ (size <> 2 ^ Z.log2 size \/ bucket_count (st x) <= Z.log2 size)
      | ZX_ERR_NO_RESOURCES => s' = st x /\ forall y, y ∈ free_list (st x) -> bucket y < Z.log2 size
      | ZX_ERR_NO_MEMORY => ~ forall ok, ok ∈ callocs (st x) -> ok = true
      | _ => False
      end
  | _ => False
  end.
Proof.
  intros Hi Hsz. unfold p2ra_allocate_range. destruct (_ || _) eqn:E.
  { split; [by destruct x|]. split; [done|]. left. intros Heq. rewrite Heq, pow2_size in E by apply Z.log2_nonneg. done. }
  pose proof (valid_size size Hsz E) as Hp. set (k := Z.log2 size) in *. pose proof (Z.log2_nonneg size) as Hk. fold k in Hk.
  rewrite Z.geb_leb. destruct (Z.leb_spec (bucket_count (st x)) k); [split; [by destruct x | by auto]|].
  pose proof Hi as [H1 H2 H4 H5].
  pose proof (find_block_spec (Z.to_nat (bucket_count (st x))) k (st x) (live x) H1 Hk ltac:(lia)) as Hf.
  destruct (find_block _ k (st x)) as [[[blk b] s1]|]; [|split; [by destruct x | done]].
  destruct Hf as (Hb & Eb & Hin & Hwf1 & (E1 & E2 & E3 & E4)). destruct blk as [b' a]. simpl in Eb. subst b'.
  simpl. rewrite Z.eqb_refl, Z.geb_leb, (proj2 (Z.leb_le k b) (proj1 Hb)), andb_false_r.
  pose proof (split_block_spec (Z.to_nat (b - k)) debug k a (live x) s1 Hk) as Hs.
  replace (k + Z.of_nat (Z.to_nat (b - k))) with b in Hs by lia. specialize (Hs Hwf1).
  destruct (split_block _ debug _ s1) as [[[blk|] s2]| |]; simpl; [| |done|done].
  - destruct Hs as (-> & Hwf2 & F1 & F2 & F3). simpl. split_and!; [done | | |].
    + destruct (blk_ok _ _ _ Hwf2) as (Ha & _). exact Ha.
    + intros i Hi'. exists (mkBlock b a). split; [done|]. apply inb_true. simpl.
      assert (2 ^ k <= 2 ^ b) by (apply Z.pow_le_mono_r; lia). lia.
    + constructor; simpl; [| rewrite F2, E2; done | rewrite F3, E3; simpl; by rewrite H4 |
        intros Hd; rewrite F3, E3; by rewrite (H5 Hd)].
      destruct Hwf2 as [W1 W2 W3 W4 W5 W6 W6r W7]. by constructor.
  - destruct Hs as (Hwf2 & F1 & F2 & F3 & F4). split; [|by rewrite E4 in F4].
    constructor; simpl; [done | rewrite F2, E2; done | rewrite F3, E3; done | intros Hd; rewrite F3, E3; by apply H5].
Qed.

Lemma take_block_spec y l : y ∈ l -> exists l', take_block (start y) (bucket y) l = Some l' /\ l ≡ₚ y :: l'.
Proof.
  induction l as [|z l IH]; [by intros ?%not_elem_of_nil|]. intros Hy. simpl.
  destruct ((start z =? start y) && (bucket z =? bucket y)) eqn:E.
  - apply andb_true_iff in E as [E1%Z.eqb_eq E2%Z.eqb_eq]. exists l. split; [done|]. destruct y, z. simpl in *. by subst.
  - apply elem_of_cons in Hy as [->|Hy]; [by rewrite !Z.eqb_refl in E|]. destruct (IH Hy) as (l' & -> & Hp).
    exists (z :: l'). split; [done|]. rewrite Hp. apply Permutation_swap.
Qed.

(** Freeing a block a client has. *)
Lemma free_spec debug x l1 y l2 : pool_inv debug x -> live x = l1 ++ y :: l2 ->
  exists s', p2ra_free_range debug (start y) (2 ^ bucket y) (st x) = done s' /\ pool_inv debug (mkPool s' (l1 ++ l2)) /\
             ranges s' = ranges (st x).
Proof.
  intros [H1 H2 H4 H5] El.
  assert (y ∈ live x) as Hy by (rewrite El; apply elem_of_app; right; apply list_elem_of_here).
  destruct (w_aligned _ _ H1 y) as (Ha & Hb & Hs); [apply elem_of_app; by right|].
  unfold p2ra_free_range. rewrite pow2_size, andb_false_r, Z.log2_pow2 by lia.
  assert (exists l, (if debug then take_block (start y) (bucket y) (allocated_blocks (st x))
                     else match allocated_blocks (st x) with [] => None | _ :: l => Some l end) = Some l /\
                    length l = length (l1 ++ l2) /\ (debug = true -> l ≡ₚ l1 ++ l2)) as (l & -> & Hlen & Hperm).
  { destruct debug.
    - destruct (take_block_spec y (allocated_blocks (st x))) as (l & E & Hp); [by rewrite H5|]. exists l. split; [done|].
      assert (y :: l ≡ₚ y :: l1 ++ l2) as Hp' by (rewrite <- Hp, H5 by done; rewrite El; by rewrite Permutation_middle).
      apply Permutation_cons_inv in Hp'. split; [by rewrite Hp' | done].
    - rewrite El, length_app in H4. simpl in H4. destruct (allocated_blocks (st x)) as [|z l]; simpl in H4; [lia|].
      exists l. split; [done|]. split; [rewrite length_app; lia | done]. }
  assert (wf (mkBlock (bucket y) (start y) :: l1 ++ l2) (with_allocated l (st x))) as Hwf.
  { apply (wf_ext (live x) _ (st x)); try done.
    - intros i. rewrite El, !cover_app. simpl. rewrite cover_app. unfold inb. simpl. lia.
    - intros z Hz. apply (w_aligned _ _ H1), elem_of_app. right. rewrite El. destruct y as [yb ys]. simpl in Hz.
      rewrite elem_of_cons, elem_of_app in Hz. rewrite elem_of_app, elem_of_cons. tauto. }
  pose proof (return_block_ok debug _ true _ _ Hwf) as Hr. destruct (return_free_block debug _ true _) as [s'| |]; [|by destruct Hr as (_ & ? & _)|done].
  destruct Hr as [Hr (E1 & E2 & E3 & E4)]. exists s'. split; [done|]. split; [|done].
  constructor; simpl; [done | rewrite E2; done | rewrite E3; done | intros Hd; rewrite E3; by apply Hperm].
Qed.

Lemma reachable_inv debug x : pool_reachable debug x -> pool_inv debug x.
Proof.
  induction 1 as [max cs s Hm Hi | x x' _ IH Hs]; [by eapply init_inv|].
  destruct Hs as [a len r s' Ha Hl E | size a s' Hsz E | size r s' Hsz E | l1 y l2 s' El E].
  - exact (add_inv debug x a len r s' IH Ha Hl E).
  - pose proof (allocate_spec debug x size IH Hsz) as H. rewrite E in H. by destruct H as (_ & _ & _ & ?).
  - pose proof (allocate_spec debug x size IH Hsz) as H. rewrite E in H. by destruct H.
  - destruct (free_spec debug x l1 y l2 IH El) as (s2 & E2 & Hi & _). rewrite E in E2. by injection E2 as <-.
Qed.

(** ** Properties *)

(** C20: Every integer of the ranges is in exactly one block, which is free or in the
    hands of a client; no block has an integer outside the ranges; and the start of
    every block is a multiple of its length. *)
Theorem p2ra_partition debug x :
  pool_reachable debug x ->
  (forall i, cover i (free_list (st x)) + cover i (live x) = rcover i (ranges (st x)) /\ rcover i (ranges (st x)) <= 1) /\
  (forall y, y ∈ free_list (st x) ++ live x -> (2 ^ bucket y | start y) /\ 0 <= bucket y < bucket_count (st x)).
Proof.
  intros [H1 _ _ _]%reachable_inv. split.
  - intros i. split; [apply (w_cover _ _ H1) | apply (w_once _ _ H1)].
  - intros y Hy. by destruct (w_aligned _ _ H1 y Hy) as (? & ? & _).
Qed.

(** C21: Allocating [2^k] integers ends.  It gives an aligned run of integers that no
    client has; it fails for want of resources exactly when there is no aligned run
    of that many free integers, and for want of memory only when [calloc] fails. *)
Theorem p2ra_allocate_complete debug x k :
  pool_reachable debug x -> 0 <= k < bucket_count (st x) ->
  match p2ra_allocate_range debug (2 ^ k) (st x) with
  | done (inr a, _) =>
      (2 ^ k | a) /\ run_free a k (st x) /\ forall i, a <= i < a + 2 ^ k -> cover i (live x) = 0
  | done (inl ZX_ERR_NO_RESOURCES, s') => s' = st x /\ ~ exists a, (2 ^ k | a) /\ run_free a k (st x)
  | done (inl ZX_ERR_NO_MEMORY, _) => ~ forall ok, ok ∈ callocs (st x) -> ok = true
  | _ => False
  end.
Proof.
  intros Hr Hk. pose proof (reachable_inv debug x Hr) as Hi. pose proof Hi as [H1 H2 _ _].
  assert (2 ^ k <= 2 ^ 30) by (apply Z.pow_le_mono_r; lia). pose proof (pow_pos k ltac:(lia)).
  pose proof (allocate_spec debug x (2 ^ k) Hi ltac:(unfold is_u32; lia)) as Ha. rewrite Z.log2_pow2 in Ha by lia.
  destruct (p2ra_allocate_range debug (2 ^ k) (st x)) as [[[r|a] s']| |]; [| |done|done].
  - destruct Ha as [_ Ha]. destruct r; try done; [|by destruct Ha as [_ [?|?]]; lia]. destruct Ha as [-> Ha]. split; [done|].
    intros (a & Hd & Hrun). replace k with (Z.of_nat (Z.to_nat k)) in Hd, Hrun by lia.
    destruct (run_in_block _ _ (Z.to_nat k) a H1 ltac:(lia) Hd Hrun) as (y & Hy & Hb & _). specialize (Ha y Hy). lia.
  - destruct Ha as (_ & Hd & Hrun & _). split_and!; [done | done |]. intros i Hin. destruct (Hrun i Hin) as (y & Hy & Hiy).
    pose proof (cover_in i y _ Hy Hiy). pose proof (w_cover _ _ H1 i). pose proof (w_once _ _ H1 i). pose proof (cover_nonneg i (live x)). lia.
Qed.

(** Freeing a block a client has ends without failing an assertion, and its
    integers, and no others, become free. *)
Theorem p2ra_free_returns debug x l1 y l2 :
  pool_reachable debug x -> live x = l1 ++ y :: l2 ->
  exists s', p2ra_free_range debug (start y) (2 ^ bucket y) (st x) = done s' /\
             forall i, cover i (free_list s') = cover i (free_list (st x)) + ind (inb y i).
Proof.
  intros Hr%reachable_inv El. destruct (free_spec debug x l1 y l2 Hr El) as (s' & E & [W _ _ _] & Er). exists s'. split; [done|].
  intros i. destruct Hr as [W0 _ _ _]. pose proof (w_cover _ _ W0 i) as C0. pose proof (w_cover _ _ W i) as C1. simpl in C1.
  rewrite El, cover_app in C0. simpl in C0. rewrite cover_app, Er in C1. lia.
Qed.

Lemma grow_forever fuel count len max csize b : 0 <= len -> 0 <= max -> grow fuel false count 0 len max csize b 0 = runs_on.
Proof.
  intros Hl Hm. revert csize b. induction fuel as [|fuel IH]; intros csize b; simpl; rewrite (proj2 (Z.leb_le 0 max) Hm), (proj2 (Z.leb_le 0 len) Hl);
    simpl; [done | apply IH].
Qed.

(** With a maximal allocation of [2^31] the range of the integers below [2^31] is
    never added: the size of the chunk is doubled to 0, and without assertions the
    loop that doubles it has no end; with them the bucket runs past the last. *)
Theorem p2ra_add_range_never_ends fuel :
  exists s, p2ra_init (2 ^ 31) true [] = inr s /\ shrink 32 0 (2 ^ 31) (2 ^ 31) (bucket_count s - 1) false = Some (2 ^ 31, 31, false) /\
    grow fuel false (bucket_count s) 0 (2 ^ 31) (2 ^ 31) (2 ^ 31) 31 (u32 (Z.shiftl (2 ^ 31) 1)) = runs_on /\
    grow (S fuel) true (bucket_count s) 0 (2 ^ 31) (2 ^ 31) (2 ^ 31) 31 (u32 (Z.shiftl (2 ^ 31) 1)) = assert_fails.
Proof. eexists. split_and!; [done | done | by apply grow_forever | done]. Qed.

(** Adding a range next to another one fails an assertion when blocks of the two
    are buddies, although the two ranges are disjoint. *)
Theorem p2ra_adjacent_ranges_assert :
  exists s, p2ra_init 4 true [] = inr s /\
    exists s1, p2ra_add_range true 0 1 s = done (ZX_OK, s1) /\ p2ra_add_range true 1 1 s1 = assert_fails /\
    exists s2, p2ra_add_range false 1 1 s1 = done (ZX_OK, s2).
Proof. eexists. split; [done|]. eexists. split; [by vm_compute|]. split; [by vm_compute|]. eexists. by vm_compute. Qed.

(** ** A run: the integers from 3 to 14, and a block of four *)

Definition ex_init_state : p2ra_state := match p2ra_init 8 true [] with inr s => s | inl _ => mkState [] 0 [] ∅ 0 [] end.
Definition get {A} (d : A) (o : outcome A) : A := match o with done a => a | _ => d end.
Definition ex_added : p2ra_state := (get (ZX_OK, ex_init_state) (p2ra_add_range true 3 12 ex_init_state)).2.
Definition ex_alloc := get (inl ZX_OK, ex_added) (p2ra_allocate_range true 4 ex_added).
Definition ex_pool : pool := mkPool ex_alloc.2 [mkBlock 2 4].

Lemma ex_pool_reachable : pool_reachable true ex_pool.
Proof.
  apply pr_step with (mkPool ex_added []).
  - apply pr_step with (mkPool ex_init_state []); [by apply (pr_init true 8 []) |].
    apply (ps_add true (mkPool ex_init_state []) 3 12 ZX_OK); [done | done | by vm_compute].
  - apply (ps_alloc true (mkPool ex_added []) 4 4); [done | by vm_compute].
Qed.

Lemma p2ra_partition_witness : cover 5 (free_list (st ex_pool)) = 0 /\ cover 9 (free_list (st ex_pool)) = 1.
Proof.
  destruct (p2ra_partition true ex_pool ex_pool_reachable) as [H _]. split.
  - pose proof (proj1 (H 5)) as H5. change (cover 5 (live ex_pool)) with 1 in H5. change (rcover 5 (ranges (st ex_pool))) with 1 in H5. lia.
  - pose proof (proj1 (H 9)) as H9. change (cover 9 (live ex_pool)) with 0 in H9. change (rcover 9 (ranges (st ex_pool))) with 1 in H9. lia.
Defined.

Lemma p2ra_allocate_complete_witness : ~ exists a, (2 ^ 3 | a) /\ run_free a 3 (st ex_pool).
Proof.
  pose proof (p2ra_allocate_complete true ex_pool 3 ex_pool_reachable ltac:(by vm_compute)) as H.
  assert (p2ra_allocate_range true (2 ^ 3) (st ex_pool) = done (inl ZX_ERR_NO_RESOURCES, st ex_pool)) as E by by vm_compute.
  rewrite E in H. by destruct H.
Defined.

Lemma p2ra_free_returns_witness :
  exists s', p2ra_free_range true 4 4 (st ex_pool) = done s' /\ cover 5 (free_list s') = 1.
Proof.
  destruct (p2ra_free_returns true ex_pool [] (mkBlock 2 4) [] ex_pool_reachable eq_refl) as (s' & E & Hc).
  exists s'. split; [exact E|]. rewrite Hc. by vm_compute.
Defined.
