(* ===== verification/Thread.v ===== *)
(** * Threads

    [object/thread_state.h] and the life of a [ThreadDispatcher]
    ([object/thread_dispatcher.cc]).  [None] stands for a failed assertion.  Of the
    thread of the scheduler ([thread_t] of [kernel/thread.cc]) the model has the
    suspend signal ([stop]), the kill signal ([kill]) and whether its state is
    [THREAD_SUSPENDED] ([asleep]).  [at_] says where in the kernel the thread itself
    is. *)

From S2P Require Import Prelude Zx.

Module ThreadState.

Inductive Lifecycle := INITIAL | INITIALIZED | RUNNING | SUSPENDED | DYING | DEAD.
Inductive Exception := IDLE | UNPROCESSED | TRY_NEXT | RESUME.

Inductive Value :=
| INITIAL_IDLE
| INITIALIZED_IDLE
| RUNNING_IDLE | RUNNING_UNPROCESSED | RUNNING_TRY_NEXT | RUNNING_RESUME
| SUSPENDED_IDLE | SUSPENDED_UNPROCESSED | SUSPENDED_TRY_NEXT | SUSPENDED_RESUME
| DYING_IDLE | DYING_UNPROCESSED | DYING_TRY_NEXT | DYING_RESUME
| DEAD_IDLE.

#[global] Instance Lifecycle_eq_dec : EqDecision Lifecycle.
Proof. solve_decision. Defined.
#[global] Instance Value_eq_dec : EqDecision Value.
Proof. solve_decision. Defined.

Definition lifecycle (v : Value) : Lifecycle :=
  match v with
  | INITIAL_IDLE => INITIAL
  | INITIALIZED_IDLE => INITIALIZED
  | RUNNING_IDLE | RUNNING_UNPROCESSED | RUNNING_TRY_NEXT | RUNNING_RESUME => RUNNING
  | SUSPENDED_IDLE | SUSPENDED_UNPROCESSED | SUSPENDED_TRY_NEXT | SUSPENDED_RESUME => SUSPENDED
  | DYING_IDLE | DYING_UNPROCESSED | DYING_TRY_NEXT | DYING_RESUME => DYING
  | DEAD_IDLE => DEAD
  end.

(** [None] for a thread that is not initialized. *)
Definition exception (v : Value) : option Exception :=
  match v with
  | RUNNING_IDLE | SUSPENDED_IDLE | DYING_IDLE => Some IDLE
  | RUNNING_UNPROCESSED | SUSPENDED_UNPROCESSED | DYING_UNPROCESSED => Some UNPROCESSED
  | RUNNING_TRY_NEXT | SUSPENDED_TRY_NEXT | DYING_TRY_NEXT => Some TRY_NEXT
  | RUNNING_RESUME | SUSPENDED_RESUME | DYING_RESUME => Some RESUME
  | INITIALIZED_IDLE | DEAD_IDLE => Some IDLE
  | INITIAL_IDLE => None
  end.

(** [set(Lifecycle)] *)
Definition set_lifecycle (l : Lifecycle) (v : Value) : option Value :=
  match l with
  | INITIAL => None
  | INITIALIZED => match v with INITIAL_IDLE => Some INITIALIZED_IDLE | _ => None end
  | RUNNING =>
      match v with
      | INITIALIZED_IDLE | SUSPENDED_IDLE => Some RUNNING_IDLE
      | SUSPENDED_UNPROCESSED => Some RUNNING_UNPROCESSED
      | SUSPENDED_TRY_NEXT => Some RUNNING_TRY_NEXT
      | SUSPENDED_RESUME => Some RUNNING_RESUME
      | _ => None
      end
  | SUSPENDED =>
      match v with
      | RUNNING_IDLE => Some SUSPENDED_IDLE
      | RUNNING_UNPROCESSED => Some SUSPENDED_UNPROCESSED
      | RUNNING_TRY_NEXT => Some SUSPENDED_TRY_NEXT
      | RUNNING_RESUME => Some SUSPENDED_RESUME
      | _ => None
      end
  | DYING =>
      match v with
      | RUNNING_IDLE | SUSPENDED_IDLE | DYING_IDLE => Some DYING_IDLE
      | RUNNING_UNPROCESSED | SUSPENDED_UNPROCESSED | DYING_UNPROCESSED => Some DYING_UNPROCESSED
      | RUNNING_TRY_NEXT | SUSPENDED_TRY_NEXT | DYING_TRY_NEXT => Some DYING_TRY_NEXT
      | RUNNING_RESUME | SUSPENDED_RESUME | DYING_RESUME => Some DYING_RESUME
      | _ => None
      end
  | DEAD =>
      match v with
      | DYING_IDLE | DYING_UNPROCESSED | DYING_TRY_NEXT | DYING_RESUME => Some DEAD_IDLE
      | _ => None
      end
  end.

(** [set(Exception)] *)
Definition set_exception (e : Exception) (v : Value) : option Value :=
  match e, v with
  | IDLE, (RUNNING_UNPROCESSED | RUNNING_TRY_NEXT | RUNNING_RESUME) => Some RUNNING_IDLE
  | IDLE, (SUSPENDED_UNPROCESSED | SUSPENDED_TRY_NEXT | SUSPENDED_RESUME) => Some SUSPENDED_IDLE
  | IDLE, (DYING_UNPROCESSED | DYING_TRY_NEXT | DYING_RESUME) => Some DYING_IDLE
  | UNPROCESSED, RUNNING_IDLE => Some RUNNING_UNPROCESSED
  | UNPROCESSED, SUSPENDED_IDLE => Some SUSPENDED_UNPROCESSED
  | UNPROCESSED, DYING_IDLE => Some DYING_UNPROCESSED
  | TRY_NEXT, RUNNING_UNPROCESSED => Some RUNNING_TRY_NEXT
  | TRY_NEXT, SUSPENDED_UNPROCESSED => Some SUSPENDED_TRY_NEXT
  | TRY_NEXT, DYING_UNPROCESSED => Some DYING_TRY_NEXT
  | RESUME, RUNNING_UNPROCESSED => Some RUNNING_RESUME
  | RESUME, SUSPENDED_UNPROCESSED => Some SUSPENDED_RESUME
  | RESUME, DYING_UNPROCESSED => Some DYING_RESUME
  | _, _ => None
  end.

End ThreadState.

Module Thread.
Import ThreadState.

(** Where the thread is: not started, in user code or a system call, in an
    exception, about to call [thread_do_suspend], in it before and after it gives up the
    processor, in [Exiting] before and
    during its exception and before it is dead, dead and about to leave its process,
    out of it, stopped for good. *)
Inductive place := p_new | p_user | p_exception | p_signalled | p_stopping | p_stopped | p_exiting | p_exit_exception | p_leaving | p_left | p_gone.

#[global] Instance place_eq_dec : EqDecision place.
Proof. solve_decision. Defined.

Record Thread := mkThread {
  process_ : Z;
  state_ : Value;
  suspend_count_ : Z;
  signals_ : Z;
  stop : bool;
  kill : bool;
  asleep : bool;
  at_ : place;
}.

Definition put_state (v : Value) (s : Z) (t : Thread) : Thread :=
  mkThread (process_ t) v (suspend_count_ t) s (stop t) (kill t) (asleep t) (at_ t).
Definition put_count (n : Z) (t : Thread) : Thread :=
  mkThread (process_ t) (state_ t) n (signals_ t) (stop t) (kill t) (asleep t) (at_ t).
Definition put_place (p : place) (t : Thread) : Thread :=
  mkThread (process_ t) (state_ t) (suspend_count_ t) (signals_ t) (stop t) (kill t) (asleep t) p.

(** [UpdateStateLocked] on the signals. *)
Definition update_signals (clear set s : Z) : Z := (s .&~ clear) .| set.

Definition thread_resume (t : Thread) : Thread :=
  mkThread (process_ t) (state_ t) (suspend_count_ t) (signals_ t) false (kill t) false (at_ t).
Definition thread_suspend (t : Thread) : Thread :=
  mkThread (process_ t) (state_ t) (suspend_count_ t) (signals_ t) true (kill t) (asleep t) (at_ t).
Definition thread_kill (t : Thread) : Thread :=
  mkThread (process_ t) (state_ t) (suspend_count_ t) (signals_ t) (stop t) true false (at_ t).

Definition SetStateLocked (l : Lifecycle) (t : Thread) : option Thread :=
  v ← set_lifecycle l (state_ t);
  let s := signals_ t in
  Some (put_state v
    match l with
    | RUNNING => update_signals ZX_THREAD_SUSPENDED ZX_THREAD_RUNNING s
    | SUSPENDED => update_signals ZX_THREAD_RUNNING ZX_THREAD_SUSPENDED s
    | DEAD => update_signals (ZX_THREAD_RUNNING .| ZX_THREAD_SUSPENDED) ZX_THREAD_TERMINATED s
    | _ => s
    end t).

(** [Create] and [Initialize]. *)
Definition Create (process : Z) : Thread := mkThread process INITIAL_IDLE 0 0 false false false p_new.
Definition Initialize (t : Thread) : option Thread := SetStateLocked INITIALIZED t.

Definition IsDyingOrDead (t : Thread) : bool :=
  match lifecycle (state_ t) with DYING | DEAD => true | _ => false end.
Definition HasStarted (t : Thread) : bool :=
  match lifecycle (state_ t) with INITIAL | INITIALIZED => false | _ => true end.

(** The scheduler runs the thread from then on. *)
Definition MakeRunnable (suspended : bool) (t : Thread) : option (zx_status_t * Thread) :=
  if negb (bool_decide (lifecycle (state_ t) = INITIALIZED)) then Some (ZX_ERR_BAD_STATE, t)
  else
    let t := if suspended then put_count (suspend_count_ t + 1) t else t in
    t ← SetStateLocked RUNNING t;
    let t := if suspend_count_ t =? 0 then thread_resume t else thread_suspend t in
    Some (ZX_OK, put_place p_user t).

(** The critical section of [Exit], after which the thread goes to [Exiting]. *)
Definition Exit (t : Thread) : option Thread :=
  t ← SetStateLocked DYING t;
  Some (put_place p_exiting t).

Definition Kill (t : Thread) : option Thread :=
  match lifecycle (state_ t) with
  | RUNNING | SUSPENDED => SetStateLocked DYING (thread_kill t)
  | _ => Some t
  end.

(** [thread_suspend] fails only on a thread that has stopped for good. *)
Definition Suspend (t : Thread) : option (zx_status_t * Thread) :=
  if suspend_count_ t <? 0 then None
  else
    let t := put_count (suspend_count_ t + 1) t in
    match lifecycle (state_ t) with
    | INITIAL => None
    | INITIALIZED => Some (ZX_OK, t)
    | RUNNING | SUSPENDED => Some (ZX_OK, if suspend_count_ t =? 1 then thread_suspend t else t)
    | DYING | DEAD => Some (ZX_ERR_BAD_STATE, t)
    end.

Definition Resume (t : Thread) : option Thread :=
  if negb (suspend_count_ t >? 0) then None
  else
    let t := put_count (suspend_count_ t - 1) t in
    match lifecycle (state_ t) with
    | INITIAL => None
    | INITIALIZED => Some t
    | RUNNING | SUSPENDED => Some (if suspend_count_ t =? 0 then thread_resume t else t)
    | DYING | DEAD => Some t
    end.

(** The section of [Exiting] that makes the thread dead. *)
Definition Exiting (t : Thread) : option Thread :=
  t ← SetStateLocked DEAD t;
  Some (put_place p_leaving t).

Definition Suspending (t : Thread) : option Thread :=
  t ← (if bool_decide (lifecycle (state_ t) = DYING) then Some t else SetStateLocked SUSPENDED t);
  Some (put_place p_stopping t).

Definition Resuming (t : Thread) : option Thread :=
  t ← (if bool_decide (lifecycle (state_ t) = DYING) then Some t else SetStateLocked RUNNING t);
  Some (put_place p_user t).

(** [thread_process_pending_signals] has seen the suspend signal. *)
Definition sees_suspend (t : Thread) : bool :=
  match at_ t with p_user => negb (kill t) && stop t | _ => false end.

(** [thread_do_suspend] gives up the processor: the suspend signal has been taken. *)
Definition falls_asleep (t : Thread) : Thread :=
  mkThread (process_ t) (state_ t) (suspend_count_ t) (signals_ t) false (kill t) true p_stopped.

(** When [thread_do_suspend] goes on to [Resuming]: the suspend signal has been
    cleared while [Suspending] ran, or the thread has been woken up. *)
Definition may_resume (t : Thread) : bool :=
  match at_ t with
  | p_stopping => negb (kill t) && negb (stop t)
  | p_stopped => negb (asleep t) && negb (kill t)
  | _ => false
  end.

(** When it leaves for [thread_exit], or [thread_process_pending_signals] does. *)
Definition sees_kill (t : Thread) : bool :=
  match at_ t with
  | p_user | p_stopping => kill t
  | p_stopped => negb (asleep t) && kill t
  | _ => false
  end.

(** The two sections of [HandleException] when the exception is sent; [at] is where
    the thread is then. *)
Definition HandleException_begin (at' : place) (t : Thread) : option Thread :=
  v ← set_exception UNPROCESSED (state_ t);
  Some (put_place at' (put_state v (signals_ t) t)).

(** The status, when the handler closes the exception with [status]. *)
Definition HandleException_end (at' : place) (status : zx_status_t) (t : Thread) : option (zx_status_t * Thread) :=
  let status := if IsDyingOrDead t then ZX_ERR_INTERNAL_INTR_KILLED else status in
  v ← set_exception IDLE (state_ t);
  Some (status, put_place at' (put_state v (signals_ t) t)).

(** The destructor's check. *)
Definition destructible (t : Thread) : bool :=
  match lifecycle (state_ t) with DEAD | INITIAL | INITIALIZED => true | _ => false end.

End Thread.
