(* ===== verification/Tasks.v ===== *)
(** * Processes and jobs

    The life of a [ProcessDispatcher] ([object/process_dispatcher.cc]) and of a
    [JobDispatcher] ([object/job_dispatcher.cc]).  Jobs, processes and threads are
    named by koids.  A definition is what runs under one lock; what a function does
    after it has let the lock go, calls to other objects above all, it returns as a
    list of [work], to be done in that order while others run in between.  [None]
    stands for a failed assertion, a panic or an access to an object that is gone.
    Counts of children are unbounded here; each child is an object in memory.

    An object that is in the map has not been destroyed; [alive]: its reference count
    is not zero, so that [MakeRefPtrUpgradeFromRaw] succeeds. *)

From S2P Require Import Prelude Zx Deadline JobPolicy Thread.

Module Process.
Inductive ProcessState := INITIAL | RUNNING | DYING | DEAD.
#[global] Instance ProcessState_eq_dec : EqDecision ProcessState.
Proof. solve_decision. Defined.

(** [has_handle]: whether user code has a handle to it. *)
Record Process := mkProcess {
  job_ : Z;
  policy_ : JobPolicy.JobPolicy;
  state_ : ProcessState;
  thread_list_ : list Z;
  suspend_count_ : Z;
  retcode_ : Z;
  completely_dead_ : bool;
  signals_ : Z;
  has_handle : bool;
  alive : bool;
}.

Definition put_state (s : ProcessState) (p : Process) : Process :=
  mkProcess (job_ p) (policy_ p) s (thread_list_ p) (suspend_count_ p) (retcode_ p) (completely_dead_ p) (signals_ p) (has_handle p) (alive p).
Definition put_threads (l : list Z) (p : Process) : Process :=
  mkProcess (job_ p) (policy_ p) (state_ p) l (suspend_count_ p) (retcode_ p) (completely_dead_ p) (signals_ p) (has_handle p) (alive p).
Definition put_count (n : Z) (p : Process) : Process :=
  mkProcess (job_ p) (policy_ p) (state_ p) (thread_list_ p) n (retcode_ p) (completely_dead_ p) (signals_ p) (has_handle p) (alive p).
Definition put_retcode (n : Z) (p : Process) : Process :=
  mkProcess (job_ p) (policy_ p) (state_ p) (thread_list_ p) (suspend_count_ p) n (completely_dead_ p) (signals_ p) (has_handle p) (alive p).
Definition put_dead (s : Z) (p : Process) : Process :=
  mkProcess (job_ p) (policy_ p) (state_ p) (thread_list_ p) (suspend_count_ p) (retcode_ p) true s (has_handle p) (alive p).
Definition put_refs (h a : bool) (p : Process) : Process :=
  mkProcess (job_ p) (policy_ p) (state_ p) (thread_list_ p) (suspend_count_ p) (retcode_ p) (completely_dead_ p) (signals_ p) h a.
End Process.

Module Job.
Inductive JobState := READY | KILLING | DEAD.
#[global] Instance JobState_eq_dec : EqDecision JobState.
Proof. solve_decision. Defined.

Definition kRootJobMaxHeight : Z := 32.

Record Job := mkJob {
  parent_ : option Z;
  max_height_ : Z;
  state_ : JobState;
  procs_ : list Z;
  jobs_ : list Z;
  process_count_ : Z;
  job_count_ : Z;
  return_code_ : Z;
  kill_on_oom_ : bool;
  policy_ : JobPolicy.JobPolicy;
  signals_ : Z;
  has_handle : bool;
  alive : bool;
}.

Definition put_state (s : JobState) (rc sigs : Z) (j : Job) : Job :=
  mkJob (parent_ j) (max_height_ j) s (procs_ j) (jobs_ j) (process_count_ j) (job_count_ j) rc (kill_on_oom_ j) (policy_ j) sigs (has_handle j) (alive j).
Definition put_procs (l : list Z) (n : Z) (j : Job) : Job :=
  mkJob (parent_ j) (max_height_ j) (state_ j) l (jobs_ j) n (job_count_ j) (return_code_ j) (kill_on_oom_ j) (policy_ j) (signals_ j) (has_handle j) (alive j).
Definition put_jobs (l : list Z) (n : Z) (j : Job) : Job :=
  mkJob (parent_ j) (max_height_ j) (state_ j) (procs_ j) l (process_count_ j) n (return_code_ j) (kill_on_oom_ j) (policy_ j) (signals_ j) (has_handle j) (alive j).
Definition put_signals (s : Z) (j : Job) : Job :=
  mkJob (parent_ j) (max_height_ j) (state_ j) (procs_ j) (jobs_ j) (process_count_ j) (job_count_ j) (return_code_ j) (kill_on_oom_ j) (policy_ j) s (has_handle j) (alive j).
Definition put_policy (p : JobPolicy.JobPolicy) (j : Job) : Job :=
  mkJob (parent_ j) (max_height_ j) (state_ j) (procs_ j) (jobs_ j) (process_count_ j) (job_count_ j) (return_code_ j) (kill_on_oom_ j) p (signals_ j) (has_handle j) (alive j).
Definition put_refs (h a : bool) (j : Job) : Job :=
  mkJob (parent_ j) (max_height_ j) (state_ j) (procs_ j) (jobs_ j) (process_count_ j) (job_count_ j) (return_code_ j) (kill_on_oom_ j) (policy_ j) (signals_ j) h a.

(** The constructor. *)
Definition new_job (parent : option (Z * Z)) (policy : JobPolicy.JobPolicy) : Job :=
  mkJob (option_map fst parent) (match parent with Some (_, h) => h - 1 | None => kRootJobMaxHeight end) READY [] [] 0 0 0 false policy
    (ZX_JOB_NO_PROCESSES .| ZX_JOB_NO_JOBS) false true.

Definition CreateRootJob : Job := put_refs true true (new_job None JobPolicy.CreateRootPolicy).

Definition LockOrder (j : Job) : Z := kRootJobMaxHeight - max_height_ j + 1.

Definition UpdateSignalsIncrementLocked (j : Job) : option Job :=
  if (process_count_ j =? 1) && bool_decide (procs_ j = []) || (job_count_ j =? 1) && bool_decide (jobs_ j = []) then None
  else
    let clear := (if process_count_ j =? 1 then ZX_JOB_NO_PROCESSES else 0) .| (if job_count_ j =? 1 then ZX_JOB_NO_JOBS else 0) in
    Some (put_signals (Thread.update_signals clear 0 (signals_ j)) j).

(** The root job halts the system when it has no children left. *)
Definition UpdateSignalsDecrementLocked (j : Job) : option (Job * bool) :=
  if (process_count_ j =? 0) && negb (bool_decide (procs_ j = [])) || (job_count_ j =? 0) && negb (bool_decide (jobs_ j = [])) then None
  else
    let set := (if process_count_ j =? 0 then ZX_JOB_NO_PROCESSES else 0) .| (if job_count_ j =? 0 then ZX_JOB_NO_JOBS else 0) in
    let halt := bool_decide (parent_ j = None) && (job_count_ j =? 0) && (process_count_ j =? 0) in
    Some (put_signals (Thread.update_signals 0 set (signals_ j)) j, halt).

Definition IsReadyForDeadTransitionLocked (j : Job) : bool :=
  bool_decide (state_ j = KILLING) && (job_count_ j =? 0) && (process_count_ j =? 0).

(** Whether the job accepts the child. *)
Definition AddChildProcess (p : Z) (j : Job) : option (bool * Job) :=
  if negb (bool_decide (state_ j = READY)) then Some (false, j)
  else j ← UpdateSignalsIncrementLocked (put_procs (procs_ j ++ [p]) (process_count_ j + 1) j); Some (true, j).

Definition AddChildJob (c : Z) (j : Job) : option (bool * Job) :=
  if negb (bool_decide (state_ j = READY)) then Some (false, j)
  else if bool_decide (c ∈ jobs_ j) then None
  else j ← UpdateSignalsIncrementLocked (put_jobs (jobs_ j ++ [c]) (job_count_ j + 1) j); Some (true, j).

(** The job, whether the system halts, whether the job is to die. *)
Definition RemoveChildProcess (p : Z) (j : Job) : option (Job * bool * bool) :=
  if negb (bool_decide (p ∈ procs_ j)) then Some (j, false, false)
  else
    '(j, halt) ← UpdateSignalsDecrementLocked (put_procs (filter (fun x => x <> p) (procs_ j)) (process_count_ j - 1) j);
    Some (j, halt, IsReadyForDeadTransitionLocked j).

Definition RemoveChildJob (c : Z) (j : Job) : option (Job * bool * bool) :=
  if negb (bool_decide (c ∈ jobs_ j)) then Some (j, false, false)
  else
    '(j, halt) ← UpdateSignalsDecrementLocked (put_jobs (filter (fun x => x <> c) (jobs_ j)) (job_count_ j - 1) j);
    Some (j, halt, IsReadyForDeadTransitionLocked j).

Definition CanSetPolicy (j : Job) : bool := bool_decide (procs_ j = []) && bool_decide (jobs_ j = []).

(** With the second kind of policy; [SetBasicPolicy_v1] turns the first into it. *)
Definition SetBasicPolicy (mode : Z) (in_policy : list zx_policy_basic_v2) (j : Job) : zx_status_t * Job :=
  if negb (CanSetPolicy j) then (ZX_ERR_BAD_STATE, j)
  else let '(st, p) := JobPolicy.AddBasicPolicy mode in_policy (policy_ j) in (st, put_policy p j).

(** Pairs of condition and action. *)
Definition SetBasicPolicy_v1 (mode : Z) (in_policy : list (Z * Z)) (alloc : bool) (j : Job) : zx_status_t * Job :=
  if negb alloc then (ZX_ERR_NO_MEMORY, j)
  else SetBasicPolicy mode (map (fun '(c, a) => mkPolicy c a ZX_POL_OVERRIDE_DENY) in_policy) j.

Definition SetTimerSlackPolicy (min_slack default_mode : Z) (j : Job) : zx_status_t * Job :=
  if negb (CanSetPolicy j) then (ZX_ERR_BAD_STATE, j)
  else if min_slack <? 0 then (ZX_ERR_INVALID_ARGS, j)
  else
    match (if default_mode =? ZX_TIMER_SLACK_CENTER then Some TIMER_SLACK_CENTER
           else if default_mode =? ZX_TIMER_SLACK_EARLY then Some TIMER_SLACK_EARLY
           else if default_mode =? ZX_TIMER_SLACK_LATE then Some TIMER_SLACK_LATE else None) with
    | None => (ZX_ERR_INVALID_ARGS, j)
    | Some new_mode =>
        let new_amount := Z.max (slack_amount (JobPolicy.GetTimerSlack (policy_ j))) min_slack in
        (ZX_OK, put_policy (JobPolicy.SetTimerSlack (mkSlack new_amount new_mode) (policy_ j)) j)
    end.
End Job.

Module Tasks.

Record Tasks := mkTasks {
  threads : gmap Z Thread.Thread;
  processes : gmap Z Process.Process;
  jobs : gmap Z Job.Job;
  halted : bool;
}.

Definition put_thread (t : Z) (x : Thread.Thread) (s : Tasks) : Tasks := mkTasks (<[t := x]> (threads s)) (processes s) (jobs s) (halted s).
Definition put_process (p : Z) (x : Process.Process) (s : Tasks) : Tasks := mkTasks (threads s) (<[p := x]> (processes s)) (jobs s) (halted s).
Definition put_job (j : Z) (x : Job.Job) (s : Tasks) : Tasks := mkTasks (threads s) (processes s) (<[j := x]> (jobs s)) (halted s).
Definition put_halted (h : bool) (s : Tasks) : Tasks := mkTasks (threads s) (processes s) (jobs s) (h || halted s).
Definition del_thread (t : Z) (s : Tasks) : Tasks := mkTasks (delete t (threads s)) (processes s) (jobs s) (halted s).
Definition del_process (p : Z) (s : Tasks) : Tasks := mkTasks (threads s) (delete p (processes s)) (jobs s) (halted s).
Definition del_job (j : Z) (s : Tasks) : Tasks := mkTasks (threads s) (processes s) (delete j (jobs s)) (halted s).

(** What is left to do. *)
Inductive work :=
| AddChildJob (parent j : Z)
| KillJob (j return_code : Z)
| FinishDeadJob (j : Z)
| RemoveJob (parent j : Z)
| DestroyJob (parent j : Z)
| AddChildProcess (j p : Z)
| KillProcess (p retcode : Z)
| ZeroHandles (p : Z)
| FinishDeadProcess (p : Z)
| RemoveProcess (j p : Z)
| DestroyProcess (j p : Z)
| ReleaseThread (p t : Z).

#[global] Instance work_eq_dec : EqDecision work.
Proof. solve_decision. Defined.

(** ** Jobs *)

(** [RemoveChildJob] and [RemoveChildProcess] of the job [q], to the end. *)
Definition remove_child_job (q c : Z) (s : Tasks) : option (Tasks * list work) :=
  x ← jobs s !! q;
  '(x, halt, should_die) ← Job.RemoveChildJob c x;
  Some (put_halted halt (put_job q x s), if should_die : bool then [FinishDeadJob q] else []).

Definition remove_child_process (q p : Z) (s : Tasks) : option (Tasks * list work) :=
  x ← jobs s !! q;
  '(x, halt, should_die) ← Job.RemoveChildProcess p x;
  Some (put_halted halt (put_job q x s), if should_die : bool then [FinishDeadJob q] else []).

(** A child that is not accepted: [Create] drops its only reference, to a process
    after its only handle. *)
Definition add_child_job (q c : Z) (s : Tasks) : option (Tasks * list work) :=
  x ← jobs s !! q;
  y ← jobs s !! c;
  '(added, x) ← Job.AddChildJob c x;
  if added : bool then Some (put_job c (Job.put_refs true true y) (put_job q x s), [])
  else Some (put_job c (Job.put_refs false false y) s, [DestroyJob q c]).

Definition add_child_process (q p : Z) (s : Tasks) : option (Tasks * list work) :=
  x ← jobs s !! q;
  y ← processes s !! p;
  '(added, x) ← Job.AddChildProcess p x;
  if added : bool then Some (put_process p (Process.put_refs true true y) (put_job q x s), [])
  else Some (s, [ZeroHandles p]).

(** [FinishDeadTransitionUnlocked] up to [RemoveFromJobTreesUnlocked]. *)
Definition finish_dead_job (j : Z) (s : Tasks) : option (Tasks * list work) :=
  x ← jobs s !! j;
  let dead := Job.put_state Job.DEAD (Job.return_code_ x) (Thread.update_signals 0 ZX_TASK_TERMINATED (Job.signals_ x)) x in
  match Job.parent_ x with
  | None => Some (put_job j dead s, [])
  | Some q =>
      y ← jobs s !! q;
      if bool_decide (Job.state_ y = Job.DEAD) then None else Some (put_job j dead s, [RemoveJob q j])
  end.

Definition alive_jobs (s : Tasks) (l : list Z) : list Z := filter (fun c => Job.alive <$> jobs s !! c = Some true) l.
Definition alive_processes (s : Tasks) (l : list Z) : list Z :=
  filter (fun p => Process.alive <$> processes s !! p = Some true) l.

(** [ForEachChildInLocked]: the children with references, none when the array for
    them cannot be allocated. *)
Definition live_refs (count : Z) (alloc : bool) (alive : list Z) : list Z :=
  if count =? 0 then [] else if alloc then alive else [].

(** [push_front] makes the order that of the youngest first. *)
Definition kill_job (alloc_jobs alloc_procs : bool) (j return_code : Z) (s : Tasks) : option (Tasks * list work) :=
  x ← jobs s !! j;
  if negb (bool_decide (Job.state_ x = Job.READY)) then Some (s, [])
  else
    let x := Job.put_state Job.KILLING return_code (Job.signals_ x) x in
    let jobs_to_kill := rev (live_refs (Job.job_count_ x) alloc_jobs (alive_jobs s (Job.jobs_ x))) in
    let procs_to_kill := rev (live_refs (Job.process_count_ x) alloc_procs (alive_processes s (Job.procs_ x))) in
    Some (put_job j x s,
          (if Job.IsReadyForDeadTransitionLocked x then [FinishDeadJob j] else []) ++
          map (fun c => KillJob c return_code) jobs_to_kill ++ map (fun p => KillProcess p return_code) procs_to_kill).

(** The end of the destructor: the object is gone. *)
Definition destroy_job (q j : Z) (s : Tasks) : option (Tasks * list work) :=
  '(s, ws) ← remove_child_job q j s;
  Some (del_job j s, ws).

(** ** Processes *)

(** Of one list of threads, in order. *)
Fixpoint each_thread (f : Thread.Thread -> option Thread.Thread) (l : list Z) (m : gmap Z Thread.Thread) : option (gmap Z Thread.Thread) :=
  match l with
  | [] => Some m
  | t :: l => x ← m !! t; x ← f x; each_thread f l (<[t := x]> m)
  end.

Definition put_threads (m : gmap Z Thread.Thread) (s : Tasks) : Tasks := mkTasks m (processes s) (jobs s) (halted s).

Definition KillAllThreadsLocked (l : list Z) (s : Tasks) : option Tasks :=
  m ← each_thread Thread.Kill l (threads s);
  Some (put_threads m s).

Definition SetStateLocked (p : Z) (new : Process.ProcessState) (s : Tasks) : option Tasks :=
  x ← processes s !! p;
  if bool_decide (Process.state_ x = Process.DEAD) && negb (bool_decide (new = Process.DEAD)) then None
  else if bool_decide (Process.state_ x = new) then Some s
  else
    let s := put_process p (Process.put_state new x) s in
    if bool_decide (new = Process.DYING) then KillAllThreadsLocked (Process.thread_list_ x) s else Some s.

Definition process_on_zero_handles (p : Z) (s : Tasks) : option (Tasks * list work) :=
  x ← processes s !! p;
  if negb (bool_decide (Process.state_ x = Process.INITIAL)) then Some (s, [])
  else s ← SetStateLocked p Process.DEAD s; Some (s, [FinishDeadProcess p]).

(** The section of [Exit]; the calling thread exits next. *)
Definition process_exit (p retcode : Z) (s : Tasks) : option Tasks :=
  x ← processes s !! p;
  match Process.state_ x with
  | Process.RUNNING =>
      if negb (Process.retcode_ x =? 0) then None
      else SetStateLocked p Process.DYING (put_process p (Process.put_retcode retcode x) s)
  | Process.DYING => SetStateLocked p Process.DYING s
  | _ => None
  end.

Definition kill_process (p retcode : Z) (s : Tasks) : option (Tasks * list work) :=
  x ← processes s !! p;
  if bool_decide (Process.state_ x = Process.DEAD) then Some (s, [])
  else if negb (bool_decide (Process.state_ x = Process.DYING)) && negb (Process.retcode_ x =? 0) then None
  else
    let s := if bool_decide (Process.state_ x = Process.DYING) then s else put_process p (Process.put_retcode retcode x) s in
    if bool_decide (Process.thread_list_ x = []) then s ← SetStateLocked p Process.DEAD s; Some (s, [FinishDeadProcess p])
    else s ← SetStateLocked p Process.DYING s; Some (s, []).

Definition suspend_thread (x : Thread.Thread) : option Thread.Thread :=
  '(st, x) ← Thread.Suspend x;
  if bool_decide (st = ZX_OK) || Thread.IsDyingOrDead x then Some x else None.

Definition process_suspend (p : Z) (s : Tasks) : option (zx_status_t * Tasks) :=
  x ← processes s !! p;
  match Process.state_ x with
  | Process.DYING | Process.DEAD => Some (ZX_ERR_BAD_STATE, s)
  | _ =>
      if Process.suspend_count_ x <? 0 then None
      else
        let n := Process.suspend_count_ x + 1 in
        m ← (if n =? 1 then each_thread suspend_thread (Process.thread_list_ x) (threads s) else Some (threads s));
        Some (ZX_OK, put_process p (Process.put_count n x) (put_threads m s))
  end.

Definition process_resume (p : Z) (s : Tasks) : option Tasks :=
  x ← processes s !! p;
  match Process.state_ x with
  | Process.DYING | Process.DEAD => Some s
  | _ =>
      if negb (Process.suspend_count_ x >? 0) then None
      else
        let n := Process.suspend_count_ x - 1 in
        m ← (if n =? 0 then each_thread Thread.Resume (Process.thread_list_ x) (threads s) else Some (threads s));
        Some (put_process p (Process.put_count n x) (put_threads m s))
  end.

Definition AddInitializedThread (p t : Z) (initial_thread : bool) (s : Tasks) : option (zx_status_t * Tasks) :=
  x ← processes s !! p;
  if negb (bool_decide (Process.state_ x = if initial_thread then Process.INITIAL else Process.RUNNING)) then Some (ZX_ERR_BAD_STATE, s)
  else
    y ← threads s !! t;
    '(result, y) ← Thread.MakeRunnable (Process.suspend_count_ x >? 0) y;
    if negb (bool_decide (result = ZX_OK)) then Some (result, s)
    else if negb (bool_decide (bool_decide (Process.thread_list_ x = []) = initial_thread)) then None
    else
      let s := put_process p (Process.put_threads (Process.thread_list_ x ++ [t]) x) (put_thread t y s) in
      s ← (if initial_thread then SetStateLocked p Process.RUNNING s else Some s);
      Some (ZX_OK, s).

Definition RemoveThread (p t : Z) (s : Tasks) : option (Tasks * list work) :=
  x ← processes s !! p;
  if negb (bool_decide (t ∈ Process.thread_list_ x)) then None
  else
    let l := filter (fun u => u <> t) (Process.thread_list_ x) in
    let s := put_process p (Process.put_threads l x) s in
    if bool_decide (l = []) then s ← SetStateLocked p Process.DEAD s; Some (s, [FinishDeadProcess p]) else Some (s, []).

(** Up to the call of the job; the handle table is in [ProcessHandles.v]. *)
Definition finish_dead_process (p : Z) (s : Tasks) : option (Tasks * list work) :=
  x ← processes s !! p;
  if Process.completely_dead_ x then None
  else Some (put_process p (Process.put_dead (Thread.update_signals 0 ZX_TASK_TERMINATED (Process.signals_ x)) x) s, [RemoveProcess (Process.job_ x) p]).

Definition destroy_process (q p : Z) (s : Tasks) : option (Tasks * list work) :=
  x ← processes s !! p;
  if negb (bool_decide (Process.state_ x = Process.INITIAL) || bool_decide (Process.state_ x = Process.DEAD)) then None
  else '(s, ws) ← remove_child_process q p s; Some (del_process p s, ws).

(** The scheduler's reference to the thread. *)
Definition release_thread (t : Z) (s : Tasks) : option Tasks :=
  x ← threads s !! t;
  Some (put_thread t (Thread.put_place Thread.p_gone x) s).

(** One piece of work; it may leave more to be done before what comes after it. *)
Definition exec (alloc_jobs alloc_procs : bool) (w : work) (s : Tasks) : option (Tasks * list work) :=
  match w with
  | AddChildJob q j => add_child_job q j s
  | KillJob j rc => kill_job alloc_jobs alloc_procs j rc s
  | FinishDeadJob j => finish_dead_job j s
  | RemoveJob q j => remove_child_job q j s
  | DestroyJob q j => destroy_job q j s
  | AddChildProcess q p => add_child_process q p s
  | KillProcess p rc => kill_process p rc s
  | ZeroHandles p => process_on_zero_handles p s
  | FinishDeadProcess p => finish_dead_process p s
  | RemoveProcess q p => remove_child_process q p s
  | DestroyProcess q p => destroy_process q p s
  | ReleaseThread _ t => s ← release_thread t s; Some (s, [])
  end.

End Tasks.
