(* ===== verification/TaskSystem.v ===== *)
(** * The tasks of a system

    Jobs, processes and threads together, and everything that happens to them:
    system calls, threads that start, stop, run into exceptions and end, references
    that are dropped.  Kernel threads interleave wherever the code holds no lock: a
    state has, for each activity, what it still has to do.  [tokens] are the suspend
    tokens in existence, [short] says whether an allocation of [Job::Kill] has failed. *)

From S2P Require Import Prelude Zx JobPolicy Thread Tasks.
Import Tasks.

Inductive token := thread_token (t : Z) | process_token (p : Z).

#[global] Instance token_eq_dec : EqDecision token.
Proof. solve_decision. Defined.

Record Sys := mkSys {
  tasks : Tasks;
  todo : list (list work);
  tokens : list token;
  short : bool;
}.

Definition pending (x : Sys) : list work := concat (todo x).

(** The objects a piece of work holds references to, or works on. *)
Definition job_work (j : Z) (w : work) : bool :=
  match w with
  | AddChildJob q c | RemoveJob q c | DestroyJob q c => (q =? j) || (c =? j)
  | KillJob c _ | FinishDeadJob c => c =? j
  | AddChildProcess q _ | RemoveProcess q _ | DestroyProcess q _ => q =? j
  | _ => false
  end.
Definition process_work (p : Z) (w : work) : bool :=
  match w with
  | AddChildProcess _ r | KillProcess r _ | ZeroHandles r | FinishDeadProcess r | RemoveProcess _ r | DestroyProcess _ r | ReleaseThread r _ => r =? p
  | _ => false
  end.

Definition new_process (q : Z) (policy : JobPolicy.JobPolicy) : Process.Process :=
  Process.mkProcess q policy Process.INITIAL [] 0 0 false 0 false true.

(** What happens next. *)
Inductive event :=
| Work (i : nat) (alloc_jobs alloc_procs : bool)
| CreateJob (q j : Z)
| CloseJob (j : Z)
| OpenJob (j : Z)
| DropJob (j : Z)
| TaskKillJob (j return_code : Z)
| SetPolicy (j mode : Z) (policies : list zx_policy_basic_v2)
| SetSlack (j min_slack default_mode : Z)
| CreateProcess (q p : Z)
| CloseProcess (p : Z)
| OpenProcess (p : Z)
| DropProcess (p : Z)
| TaskKillProcess (p return_code : Z)
| SuspendProcess (p : Z)
| ResumeProcess (p : Z)
| CreateThread (p t : Z)
| StartThread (t : Z) (initial : bool)
| TaskKillThread (t : Z)
| SuspendThread (t : Z)
| ResumeThread (t : Z)
| DropThread (t : Z)
| ThreadSignalled (t : Z)
| ThreadStops (t : Z)
| ThreadSleeps (t : Z)
| ThreadGoesOn (t : Z)
| ExceptionBegins (t : Z)
| ExceptionEnds (t : Z)
| ProcessExit (t retcode : Z)
| ThreadExit (t : Z)
| ThreadKilled (t : Z)
| ExitExceptionBegins (t : Z)
| ExitExceptionEnds (t : Z)
| ThreadDies (t : Z)
| ThreadLeaves (t : Z).

(** *** When it can happen *)

Definition job_attached (s : Tasks) (j : Z) : bool :=
  match jobs s !! j with
  | Some x => match Job.parent_ x with
              | Some q => match jobs s !! q with Some y => bool_decide (j ∈ Job.jobs_ y) | None => false end
              | None => false
              end
  | None => false
  end.
Definition process_attached (s : Tasks) (p : Z) : bool :=
  match processes s !! p with
  | Some x => match jobs s !! Process.job_ x with Some y => bool_decide (p ∈ Job.procs_ y) | None => false end
  | None => false
  end.

Definition job_is (f : Job.Job -> bool) (s : Tasks) (j : Z) : bool := match jobs s !! j with Some x => f x | None => false end.
Definition process_is (f : Process.Process -> bool) (s : Tasks) (p : Z) : bool := match processes s !! p with Some x => f x | None => false end.
Definition thread_is (f : Thread.Thread -> bool) (s : Tasks) (t : Z) : bool := match threads s !! t with Some x => f x | None => false end.

Definition at_place (p : Thread.place) (x : Thread.Thread) : bool := bool_decide (Thread.at_ x = p).

(** No object has a reference to the job, or the process. *)
Definition job_unreferenced (s : Tasks) (j : Z) : Prop :=
  (forall c x, jobs s !! c = Some x -> Job.parent_ x <> Some j) /\ (forall p x, processes s !! p = Some x -> Process.job_ x <> j).
Definition process_unreferenced (s : Tasks) (p : Z) : Prop := forall t x, threads s !! t = Some x -> Thread.process_ x <> p.

Definition enabled (x : Sys) (e : event) : Prop :=
  let s := tasks x in
  halted s = false /\
  match e with
  | Work i _ _ => exists w k, todo x !! i = Some (w :: k)
  | CreateJob q j => job_is Job.has_handle s q = true /\ jobs s !! j = None
  | CloseJob j => job_is (fun x => Job.has_handle x && negb (bool_decide (Job.parent_ x = None))) s j = true
  | OpenJob j => job_is Job.alive s j = true /\ job_attached s j = true
  | DropJob j =>
      job_is (fun x => Job.alive x && negb (Job.has_handle x)) s j = true /\ job_unreferenced s j /\ forall w, w ∈ pending x -> job_work j w = false
  | TaskKillJob j _ | SetPolicy j _ _ | SetSlack j _ _ => job_is Job.has_handle s j = true
  | CreateProcess q p => job_is Job.has_handle s q = true /\ processes s !! p = None
  | CloseProcess p => process_is Process.has_handle s p = true
  | OpenProcess p => process_is Process.alive s p = true /\ process_attached s p = true
  | DropProcess p =>
      process_is (fun x => Process.alive x && negb (Process.has_handle x)) s p = true /\ process_unreferenced s p /\
      (process_token p ∉ tokens x) /\ forall w, w ∈ pending x -> process_work p w = false
  | TaskKillProcess p _ | SuspendProcess p => process_is Process.has_handle s p = true
  | ResumeProcess p => process_token p ∈ tokens x
  | CreateThread p t => process_is Process.has_handle s p = true /\ threads s !! t = None
  | StartThread t _ | TaskKillThread t | SuspendThread t => is_Some (threads s !! t)
  | ResumeThread t => thread_token t ∈ tokens x
  | DropThread t => thread_is (fun x => at_place Thread.p_new x || at_place Thread.p_gone x) s t = true /\ thread_token t ∉ tokens x
  | ThreadSignalled t => thread_is Thread.sees_suspend s t = true
  | ThreadStops t => thread_is (at_place Thread.p_signalled) s t = true
  | ThreadSleeps t => thread_is (fun x => at_place Thread.p_stopping x && Thread.stop x && negb (Thread.kill x)) s t = true
  | ThreadGoesOn t => thread_is Thread.may_resume s t = true
  | ExceptionBegins t | ThreadExit t | ProcessExit t _ => thread_is (at_place Thread.p_user) s t = true
  | ExceptionEnds t => thread_is (at_place Thread.p_exception) s t = true
  | ThreadKilled t => thread_is Thread.sees_kill s t = true
  | ExitExceptionBegins t | ThreadDies t => thread_is (at_place Thread.p_exiting) s t = true
  | ExitExceptionEnds t => thread_is (at_place Thread.p_exit_exception) s t = true
  | ThreadLeaves t => thread_is (at_place Thread.p_leaving) s t = true
  end.

(** *** What it does *)

Definition with_tasks (s : Tasks) (x : Sys) : Sys := mkSys s (todo x) (tokens x) (short x).
Definition start (s : Tasks) (ws : list work) (x : Sys) : Sys := mkSys s (ws :: todo x) (tokens x) (short x).

Definition on_job (f : Job.Job -> Job.Job) (j : Z) (x : Sys) : option Sys :=
  y ← jobs (tasks x) !! j; Some (with_tasks (put_job j (f y) (tasks x)) x).
Definition on_process (f : Process.Process -> Process.Process) (p : Z) (s : Tasks) : option Tasks :=
  y ← processes s !! p; Some (put_process p (f y) s).
Definition on_thread (f : Thread.Thread -> option Thread.Thread) (t : Z) (x : Sys) : option Sys :=
  y ← threads (tasks x) !! t; y ← f y; Some (with_tasks (put_thread t y (tasks x)) x).

(** One token less. *)
Fixpoint drop_token (k : token) (l : list token) : list token :=
  match l with [] => [] | k' :: l => if decide (k' = k) then l else k' :: drop_token k l end.

Definition run (x : Sys) (e : event) : option Sys :=
  let s := tasks x in
  match e with
  | Work i aj ap =>
      stack ← todo x !! i;
      match stack with
      | [] => None
      | w :: k =>
          '(s, ws) ← exec aj ap w s;
          Some (mkSys s (<[i := ws ++ k]> (todo x)) (tokens x)
                  (short x || match w with KillJob _ _ => negb (aj && ap) | _ => false end))
      end
  | CreateJob q j =>
      y ← jobs s !! q;
      if Job.max_height_ y =? 0 then Some x
      else Some (start (put_job j (Job.new_job (Some (q, Job.max_height_ y)) (Job.policy_ y)) s) [AddChildJob q j] x)
  | CloseJob j => on_job (Job.put_refs false true) j x
  | OpenJob j => on_job (Job.put_refs true true) j x
  | DropJob j =>
      y ← jobs s !! j;
      q ← Job.parent_ y;
      Some (start (put_job j (Job.put_refs false false y) s) [DestroyJob q j] x)
  | TaskKillJob j rc => Some (start s [KillJob j rc] x)
  | SetPolicy j mode ps => on_job (fun y => (Job.SetBasicPolicy mode ps y).2) j x
  | SetSlack j m d => on_job (fun y => (Job.SetTimerSlackPolicy m d y).2) j x
  | CreateProcess q p =>
      y ← jobs s !! q;
      Some (start (put_process p (new_process q (Job.policy_ y)) s) [AddChildProcess q p] x)
  | CloseProcess p => s ← on_process (Process.put_refs false true) p s; Some (start s [ZeroHandles p] x)
  | OpenProcess p => s ← on_process (Process.put_refs true true) p s; Some (with_tasks s x)
  | DropProcess p =>
      y ← processes s !! p;
      Some (start (put_process p (Process.put_refs false false y) s) [DestroyProcess (Process.job_ y) p] x)
  | TaskKillProcess p rc => Some (start s [KillProcess p rc] x)
  | SuspendProcess p =>
      '(st, s) ← process_suspend p s;
      Some (mkSys s (todo x) (if bool_decide (st = ZX_OK) then process_token p :: tokens x else tokens x) (short x))
  | ResumeProcess p => s ← process_resume p s; Some (mkSys s (todo x) (drop_token (process_token p) (tokens x)) (short x))
  | CreateThread p t => y ← Thread.Initialize (Thread.Create p); Some (with_tasks (put_thread t y s) x)
  | StartThread t initial =>
      y ← threads s !! t;
      '(_, s) ← AddInitializedThread (Thread.process_ y) t initial s;
      Some (with_tasks s x)
  | TaskKillThread t => on_thread Thread.Kill t x
  | SuspendThread t =>
      y ← threads s !! t;
      '(st, y) ← Thread.Suspend y;
      Some (mkSys (put_thread t y s) (todo x) (if bool_decide (st = ZX_OK) then thread_token t :: tokens x else tokens x) (short x))
  | ResumeThread t =>
      y ← threads s !! t;
      y ← Thread.Resume y;
      Some (mkSys (put_thread t y s) (todo x) (drop_token (thread_token t) (tokens x)) (short x))
  | DropThread t => y ← threads s !! t; if Thread.destructible y then Some (with_tasks (del_thread t s) x) else None
  | ThreadSignalled t => on_thread (fun y => Some (Thread.put_place Thread.p_signalled y)) t x
  | ThreadStops t => on_thread Thread.Suspending t x
  | ThreadSleeps t => on_thread (fun y => Some (Thread.falls_asleep y)) t x
  | ThreadGoesOn t => on_thread Thread.Resuming t x
  | ExceptionBegins t => on_thread (Thread.HandleException_begin Thread.p_exception) t x
  | ExceptionEnds t => on_thread (fun y => option_map snd (Thread.HandleException_end Thread.p_user ZX_OK y)) t x
  | ProcessExit t rc => y ← threads s !! t; s ← process_exit (Thread.process_ y) rc s; Some (with_tasks s x)
  | ThreadExit t => on_thread Thread.Exit t x
  | ThreadKilled t => on_thread (fun y => Some (Thread.put_place Thread.p_exiting y)) t x
  | ExitExceptionBegins t => on_thread (Thread.HandleException_begin Thread.p_exit_exception) t x
  | ExitExceptionEnds t => on_thread (fun y => option_map snd (Thread.HandleException_end Thread.p_exiting ZX_OK y)) t x
  | ThreadDies t => on_thread Thread.Exiting t x
  | ThreadLeaves t =>
      y ← threads s !! t;
      '(s, ws) ← RemoveThread (Thread.process_ y) t s;
      Some (start (put_thread t (Thread.put_place Thread.p_left y) s) (ws ++ [ReleaseThread (Thread.process_ y) t]) x)
  end.

Definition sys_init (root : Z) : Sys := mkSys (mkTasks ∅ ∅ {[root := Job.CreateRootJob]} false) [] [] false.

Inductive sys_reachable (root : Z) : Sys -> Prop :=
| sr_init : sys_reachable root (sys_init root)
| sr_step x e x' : sys_reachable root x -> enabled x e -> run x e = Some x' -> sys_reachable root x'.
