(* ===== verification/TaskFacts.v ===== *)
(** * Correctness of tasks: the invariant

    What holds of the threads, processes and jobs of a system and of the work that
    is left to be done, in every state it reaches. *)

From S2P Require Import Prelude Zx JobPolicy Thread Tasks TaskSystem.
Import Tasks ThreadState Thread.

(** ** Threads *)

(** Whether the thread is in the list of its process. *)
Definition in_list (p : place) : bool := match p with p_new | p_left | p_gone => false | _ => true end.

Definition place_ok (y : Thread) : Prop :=
  match at_ y with
  | p_new => state_ y = INITIALIZED_IDLE
  | p_user | p_signalled => state_ y = RUNNING_IDLE \/ (state_ y = DYING_IDLE /\ kill y = true)
  | p_exception => state_ y = RUNNING_UNPROCESSED \/ (state_ y = DYING_UNPROCESSED /\ kill y = true)
  | p_stopping | p_stopped => state_ y = SUSPENDED_IDLE \/ (state_ y = DYING_IDLE /\ kill y = true)
  | p_exiting => state_ y = DYING_IDLE
  | p_exit_exception => state_ y = DYING_UNPROCESSED
  | p_leaving | p_left | p_gone => state_ y = DEAD_IDLE
  end /\ (kill y = true -> IsDyingOrDead y = true) /\ (asleep y = true -> state_ y = SUSPENDED_IDLE /\ at_ y = p_stopped /\ kill y = false).

(** A process that is not on its way out. *)
Definition active (p : Process.Process) : bool := match Process.state_ p with Process.INITIAL | Process.RUNNING => true | _ => false end.

(** What a process adds to the suspend count of a thread. *)
Definition share (y : Thread) (p : Process.Process) : Z :=
  if in_list (at_ y) && active p && (Process.suspend_count_ p >? 0) then 1 else 0.

(** The thread is suspended [m] times; a dying thread at least as often. *)
Definition count_ok (m : Z) (y : Thread) : Prop :=
  m <= suspend_count_ y /\ (IsDyingOrDead y = false -> suspend_count_ y = m /\ (HasStarted y = true -> stop y || asleep y = (suspend_count_ y >? 0))).

(** [n]: how many tokens there are for the thread. *)
Definition suspend_ok (n : Z) (y : Thread) (p : Process.Process) : Prop := count_ok (n + share y p) y.

Definition list_ok (x : Process.Process) : Prop :=
  match Process.state_ x with
  | Process.INITIAL | Process.DEAD => Process.thread_list_ x = []
  | Process.RUNNING | Process.DYING => Process.thread_list_ x <> []
  end.

Section Invariants.
Context (T : gmap Z Thread) (P : gmap Z Process.Process) (J : gmap Z Job.Job) (L : list work) (K : list token) (root : Z) (sh : bool).

Record inv_t : Prop := {
  t_process : forall t y, T !! t = Some y -> exists p, P !! process_ y = Some p /\ Process.alive p = true;
  t_place : forall t y, T !! t = Some y -> place_ok y;
  t_list : forall t y p, T !! t = Some y -> P !! process_ y = Some p -> (t ∈ Process.thread_list_ p <-> in_list (at_ y) = true);
  t_suspend : forall t y p, T !! t = Some y -> P !! process_ y = Some p -> suspend_ok (times (thread_token t) K) y p;
  t_threads : forall p x, P !! p = Some x -> NoDup (Process.thread_list_ x) /\
    forall t, t ∈ Process.thread_list_ x -> exists y, T !! t = Some y /\ process_ y = p;
  t_lists : forall p x, P !! p = Some x -> list_ok x;
  t_dying : forall p x t y, P !! p = Some x -> Process.state_ x = Process.DYING -> t ∈ Process.thread_list_ x -> T !! t = Some y -> IsDyingOrDead y = true;
  t_count : forall p x, P !! p = Some x -> active x = true -> Process.suspend_count_ x = times (process_token p) K;
  t_token : forall t, thread_token t ∈ K -> is_Some (T !! t);
  t_ptoken : forall p, process_token p ∈ K -> exists x, P !! p = Some x /\ Process.alive x = true;
  t_release : forall p t, ReleaseThread p t ∈ L -> exists y, T !! t = Some y /\ at_ y = p_left /\ process_ y = p /\ times (ReleaseThread p t) L <= 1;
}.

(** One process and the work that is left for it. *)
Record proc_ok (p : Z) (x : Process.Process) : Prop := {
  q_retcode : active x = true -> Process.retcode_ x = 0;
  q_dead : Process.completely_dead_ x = true -> Process.state_ x = Process.DEAD;
  q_finish : times (FinishDeadProcess p) L = if bool_decide (Process.state_ x = Process.DEAD) && negb (Process.completely_dead_ x) then 1 else 0;
  q_signals : has (Process.signals_ x) ZX_TASK_TERMINATED = Process.completely_dead_ x;
  q_creating : forall q, AddChildProcess q p ∈ L ->
    Process.job_ x = q /\ Process.state_ x = Process.INITIAL /\ Process.has_handle x = false /\ Process.alive x = true /\
    times (AddChildProcess q p) L = 1 /\ (forall w, w ∈ L -> process_work p w = true -> w = AddChildProcess q p) /\
    forall t y, T !! t = Some y -> process_ y <> p;
  q_zero : Process.state_ x = Process.INITIAL -> Process.has_handle x = false -> AddChildProcess (Process.job_ x) p ∈ L \/ ZeroHandles p ∈ L;
  q_handle : Process.has_handle x = true -> Process.alive x = true;
  q_kill : forall rc, KillProcess p rc ∈ L -> Process.alive x = true;
  q_remove : forall q, RemoveProcess q p ∈ L -> Process.job_ x = q /\ Process.completely_dead_ x = true;
  q_destroy : forall q, DestroyProcess q p ∈ L ->
    Process.job_ x = q /\ Process.alive x = false /\ Process.state_ x = Process.DEAD /\ Process.completely_dead_ x = true /\
    times (DestroyProcess q p) L = 1 /\ forall w, w ∈ L -> process_work p w = true -> w = DestroyProcess q p;
  q_alive : Process.alive x = false -> DestroyProcess (Process.job_ x) p ∈ L;
}.

Record inv_p : Prop := {
  q_all : forall p x, P !! p = Some x -> proc_ok p x;
  q_exists : forall p w, w ∈ L -> process_work p w = true -> is_Some (P !! p);
}.

Definition attached (j : Z) (x : Job.Job) : Prop := exists q y, Job.parent_ x = Some q /\ J !! q = Some y /\ j ∈ Job.jobs_ y.

(** One job, its place in the tree and the work that is left for it. *)
Record job_ok (j : Z) (x : Job.Job) : Prop := {
  j_only_root : Job.parent_ x = None -> j = root;
  j_parent : forall q, Job.parent_ x = Some q -> exists y, J !! q = Some y /\ Job.alive y = true /\ Job.max_height_ x = Job.max_height_ y - 1;
  j_height : 0 <= Job.max_height_ x <= Job.kRootJobMaxHeight;
  j_counts : Job.process_count_ x = zlen (Job.procs_ x) /\ Job.job_count_ x = zlen (Job.jobs_ x) /\ NoDup (Job.procs_ x) /\ NoDup (Job.jobs_ x);
  j_children : forall c, c ∈ Job.jobs_ x -> exists y, J !! c = Some y /\ Job.parent_ y = Some j;
  j_dead : Job.state_ x = Job.DEAD -> Job.procs_ x = [] /\ Job.jobs_ x = [];
  j_signals : has (Job.signals_ x) ZX_JOB_NO_PROCESSES = bool_decide (Job.procs_ x = []) /\
    has (Job.signals_ x) ZX_JOB_NO_JOBS = bool_decide (Job.jobs_ x = []) /\
    has (Job.signals_ x) ZX_TASK_TERMINATED = bool_decide (Job.state_ x = Job.DEAD);
  j_finish : times (FinishDeadJob j) L =
    if bool_decide (Job.state_ x = Job.KILLING) && bool_decide (Job.procs_ x = []) && bool_decide (Job.jobs_ x = []) then 1 else 0;
  j_creating : forall q, AddChildJob q j ∈ L ->
    Job.parent_ x = Some q /\ Job.state_ x = Job.READY /\ Job.procs_ x = [] /\ Job.jobs_ x = [] /\ Job.has_handle x = false /\ Job.alive x = true /\
    times (AddChildJob q j) L = 1 /\ (forall w, w ∈ L -> job_work j w = true -> w = AddChildJob q j) /\
    ~ attached j x /\ forall c y, J !! c = Some y -> Job.parent_ y <> Some j;
  j_live : Job.has_handle x = true \/ (exists rc, KillJob j rc ∈ L) \/ Job.state_ x = Job.KILLING ->
    Job.alive x = true /\ (j = root \/ attached j x \/ Job.state_ x = Job.DEAD);
  j_remove : forall q, RemoveJob q j ∈ L -> Job.parent_ x = Some q /\ Job.state_ x = Job.DEAD;
  j_leaving : attached j x -> Job.state_ x = Job.DEAD -> Job.alive x = true -> exists q, RemoveJob q j ∈ L;
  j_destroy : forall q, DestroyJob q j ∈ L ->
    Job.parent_ x = Some q /\ Job.alive x = false /\ Job.state_ x <> Job.KILLING /\ Job.procs_ x = [] /\ Job.jobs_ x = [] /\
    times (DestroyJob q j) L = 1 /\ (forall w, w ∈ L -> job_work j w = true -> w = DestroyJob q j) /\ forall c y, J !! c = Some y -> Job.parent_ y <> Some j;
  j_alive : Job.alive x = false -> exists q, Job.parent_ x = Some q /\ DestroyJob q j ∈ L;
}.

Record inv_j : Prop := {
  j_root : exists x, J !! root = Some x /\ Job.parent_ x = None /\ Job.has_handle x = true;
  j_all : forall j x, J !! j = Some x -> job_ok j x;
  j_exists : forall j w, w ∈ L -> job_work j w = true -> is_Some (J !! j);
}.

Record inv_pj : Prop := {
  pj_job : forall p x, P !! p = Some x -> exists y, J !! Process.job_ x = Some y /\ Job.alive y = true;
  pj_procs : forall j y p, J !! j = Some y -> p ∈ Job.procs_ y -> exists x, P !! p = Some x /\ Process.job_ x = j;
  pj_creating : forall q p j y, AddChildProcess q p ∈ L -> J !! j = Some y -> p ∉ Job.procs_ y;
  pj_leaving : forall j y p x, J !! j = Some y -> p ∈ Job.procs_ y -> P !! p = Some x -> Process.completely_dead_ x = true ->
    RemoveProcess j p ∈ L \/ DestroyProcess j p ∈ L;
  pj_destroy : forall q j p x, DestroyJob q j ∈ L -> P !! p = Some x -> Process.job_ x <> j;
  pj_add_job : forall q j p x, AddChildJob q j ∈ L -> P !! p = Some x -> Process.job_ x <> j;
  pj_kill_jobs : sh = false -> forall j y c z, J !! j = Some y -> Job.state_ y <> Job.READY -> c ∈ Job.jobs_ y -> J !! c = Some z ->
    Job.state_ z <> Job.READY \/ Job.alive z = false \/ exists rc, KillJob c rc ∈ L;
  pj_kill_procs : sh = false -> forall j y p x, J !! j = Some y -> Job.state_ y <> Job.READY -> p ∈ Job.procs_ y -> P !! p = Some x ->
    active x = false \/ Process.alive x = false \/ exists rc, KillProcess p rc ∈ L;
}.
End Invariants.

Record inv (root : Z) (x : Sys) : Prop := {
  i_t : inv_t (threads (tasks x)) (processes (tasks x)) (pending x) (tokens x);
  i_p : inv_p (threads (tasks x)) (processes (tasks x)) (pending x);
  i_j : inv_j (jobs (tasks x)) (pending x) root;
  i_pj : inv_pj (processes (tasks x)) (jobs (tasks x)) (pending x) (short x);
}.

(** ** What the parts depend on *)

Lemma same_in (w : work) L L' : times w L' = times w L -> w ∈ L' <-> w ∈ L.
Proof. intros E. by rewrite !times_in, E. Qed.

Ltac own_work := simpl; rewrite ?Z.eqb_refl, ?orb_true_r; done.

(** A process depends on the work for it only. *)
Lemma proc_ok_ext T L L' p x :
  (forall w, process_work p w = true -> times w L' = times w L) -> proc_ok T L p x -> proc_ok T L' p x.
Proof.
  intros HL [O1 O2 O3 O4 O5 O6 O7 O8 O9 O10 O11].
  assert (forall w, process_work p w = true -> w ∈ L' <-> w ∈ L) as Hin by (intros w Hw; apply same_in, HL, Hw).
  constructor; try done.
  - rewrite HL by own_work. done.
  - intros q Hq. rewrite Hin in Hq by own_work. destruct (O5 q Hq) as (? & ? & ? & ? & ? & H & ?). rewrite HL by own_work. split_and!; try done.
    intros w Hw1 Hw2. rewrite Hin in Hw1 by done. by apply H.
  - rewrite !Hin; [done | own_work | own_work].
  - intros rc. rewrite Hin by own_work. apply O8.
  - intros q. rewrite Hin by own_work. apply O9.
  - intros q Hq. rewrite Hin in Hq by own_work. destruct (O10 q Hq) as (? & ? & ? & ? & ? & H). rewrite HL by own_work. split_and!; try done.
    intros w Hw1 Hw2. rewrite Hin in Hw1 by done. by apply H.
  - rewrite Hin by own_work. done.
Qed.

Lemma proc_ok_threads T T' L p x :
  (forall t y', T' !! t = Some y' -> exists y, T !! t = Some y /\ process_ y = process_ y') -> proc_ok T L p x -> proc_ok T' L p x.
Proof.
  intros HT []. constructor; try done. intros q H1. destruct (q_creating0 q H1) as (? & ? & ? & ? & ? & ? & H). split_and!; try done.
  intros t y' Hy'. destruct (HT t y' Hy') as (y & Hy & <-). by apply (H t).
Qed.

(** A job depends on the work for it, on its parent and on its children. *)
Definition same_job (j : Z) (y y' : Job.Job) : Prop :=
  Job.parent_ y' = Job.parent_ y /\ Job.max_height_ y' = Job.max_height_ y /\ (j ∈ Job.jobs_ y' <-> j ∈ Job.jobs_ y).

(** The work that is on the job itself; [KillJob] comes and goes. *)
Definition job_main (j : Z) (w : work) : bool :=
  match w with
  | AddChildJob _ c | RemoveJob _ c | DestroyJob _ c | FinishDeadJob c => c =? j
  | _ => false
  end.

Definition settled (L : list work) (j : Z) : Prop := forall q, (AddChildJob q j ∉ L) /\ (DestroyJob q j ∉ L).

Lemma job_ok_ext J J' L L' root j x :
  (forall w, job_main j w = true -> times w L' = times w L) ->
  (forall rc, KillJob j rc ∈ L' -> KillJob j rc ∈ L \/ Job.alive x = true /\ (j = root \/ attached J j x \/ Job.state_ x = Job.DEAD)) ->
  (forall w, w ∈ L' -> job_work j w = true -> w ∈ L \/ settled L j) ->
  (forall k y, J !! k = Some y -> Job.parent_ x = Some k \/ Job.parent_ y = Some j ->
     exists y', J' !! k = Some y' /\ same_job j y y' /\ (Job.parent_ x = Some k -> Job.alive y = true -> Job.alive y' = true)) ->
  (forall k y', J' !! k = Some y' -> (exists y, J !! k = Some y /\ same_job j y y') \/ (Job.parent_ y' <> Some j \/ settled L j) /\ j ∉ Job.jobs_ y') ->
  job_ok J L root j x -> job_ok J' L' root j x.
Proof.
  intros HL HLk HL2 HJ HJ' [O1 O2 O3 O4 O5 O6 O7 O8 O9 O10 O11 O12 O13 O14].
  assert (forall w, job_main j w = true -> w ∈ L' <-> w ∈ L) as Hin by (intros w Hw; apply same_in, HL, Hw).
  assert (attached J' j x <-> attached J j x) as Hat.
  { split; intros (q & y & E & Hy & Hj); [destruct (HJ' q y Hy) as [(y' & Hy' & S)|[_ ?]] | destruct (HJ q y Hy (or_introl E)) as (y' & Hy' & S & _)]; try done;
      exists q, y'; split_and!; try done; by apply S. }
  assert (~ settled L j -> (forall c y, J !! c = Some y -> Job.parent_ y <> Some j) -> forall c y, J' !! c = Some y -> Job.parent_ y <> Some j) as Hno.
  { intros Hs H c y Hc. destruct (HJ' c y Hc) as [(y' & Hy' & (-> & _))|[[?|?] _]]; [by apply (H c) | done | done]. }
  constructor; try done.
  - intros q Hq. destruct (O2 q Hq) as (y & Hy & Ha & Hm). destruct (HJ q y Hy (or_introl Hq)) as (y' & Hy' & (_ & Em & _) & Hal). exists y'. split_and!; [done | by auto | congruence].
  - intros c Hc. destruct (O5 c Hc) as (y & Hy & Hp). destruct (HJ c y Hy (or_intror Hp)) as (y' & Hy' & (Ep & _) & _). exists y'. split; congruence.
  - rewrite HL by own_work. done.
  - intros q Hq. rewrite Hin in Hq by own_work. destruct (O9 q Hq) as (? & ? & ? & ? & ? & ? & ? & H & H1 & H2). rewrite HL by own_work.
    assert (~ settled L j) as Hns by (intros S; destruct (S q); done). split_and!; try done.
    + intros w Hw1 Hw2. destruct (HL2 w Hw1 Hw2); [by apply H | done].
    + by rewrite Hat.
    + by apply Hno.
  - intros H. rewrite Hat. destruct H as [?|[[rc Hrc]|?]]; [apply O10; by left | | apply O10; by right; right]. destruct (HLk rc Hrc); [|done]. apply O10. right; left. by exists rc.
  - intros q. rewrite Hin by own_work. apply O11.
  - rewrite Hat. intros H1 H2 H3. destruct (O12 H1 H2 H3) as [q Hq]. exists q. rewrite Hin; [done | own_work].
  - intros q Hq. rewrite Hin in Hq by own_work. destruct (O13 q Hq) as (? & ? & ? & ? & ? & ? & H & H2). rewrite HL by own_work.
    assert (~ settled L j) as Hns by (intros S; destruct (S q); done). split_and!; try done.
    + intros w Hw1 Hw2. destruct (HL2 w Hw1 Hw2); [by apply H | done].
    + by apply Hno.
  - intros H. destruct (O14 H) as (q & ? & Hq). exists q. split; [done|]. rewrite Hin; [done | own_work].
Qed.

(** The order of the work does not matter. *)
Lemma inv_t_perm T P L L' K : L ≡ₚ L' -> inv_t T P L K -> inv_t T P L' K.
Proof. intros HL []. constructor; try done. intros p t H. rewrite <- HL in H. destruct (t_release0 p t H) as (y & ? & ? & ? & ?). exists y. by rewrite <- HL. Qed.

Lemma inv_p_perm T P L L' : L ≡ₚ L' -> inv_p T P L -> inv_p T P L'.
Proof.
  intros HL [H1 H2]. constructor; [|intros p w; rewrite <- HL; by eauto]. intros p x Hx. apply (proc_ok_ext T L); [|by apply H1]. intros w _. by rewrite HL.
Qed.

Lemma inv_j_perm J L L' root : L ≡ₚ L' -> inv_j J L root -> inv_j J L' root.
Proof.
  intros HL [H0 H1 H2]. constructor; [done | |intros p w; rewrite <- HL; by eauto]. intros j x Hx. apply (job_ok_ext J J L); [| | | | |by apply H1].
  - intros w _. by rewrite HL.
  - intros rc Hw. rewrite <- HL in Hw. by left.
  - intros w Hw. rewrite <- HL in Hw. by left.
  - intros k y Hk _. exists y. by split_and!.
  - intros k y Hk. left. exists y. by split.
Qed.

Lemma inv_pj_perm P J L L' sh : L ≡ₚ L' -> inv_pj P J L sh -> inv_pj P J L' sh.
Proof.
  intros HL []. constructor; try done.
  - intros q p j y. rewrite <- HL. by eauto.
  - intros j y p x. rewrite <- HL. by eauto.
  - intros q j p x. rewrite <- HL. by eauto.
  - intros q j p x. rewrite <- HL. by eauto.
  - intros Hs j y c z. setoid_rewrite <- HL. by eauto.
  - intros Hs j y p x. setoid_rewrite <- HL. by eauto.
Qed.

(** ** What a thread does on its own *)

Definition moves (y y' : Thread) : Prop :=
  process_ y' = process_ y /\ in_list (at_ y') = in_list (at_ y) /\ place_ok y' /\ (IsDyingOrDead y = true -> IsDyingOrDead y' = true) /\
  (forall n p, suspend_ok n y p -> suspend_ok n y' p) /\ (at_ y = p_left -> at_ y' = p_left).

(** One thread changes; tokens for others stay. *)
Lemma put_thread_inv_at T P L K K' t y y' :
  inv_t T P L K -> T !! t = Some y -> process_ y' = process_ y -> in_list (at_ y') = in_list (at_ y) -> place_ok y' ->
  (IsDyingOrDead y = true -> IsDyingOrDead y' = true) -> (forall p, P !! process_ y = Some p -> suspend_ok (times (thread_token t) K') y' p) ->
  (at_ y' = p_left \/ forall p, ReleaseThread p t ∉ L) -> (forall k, k <> thread_token t -> times k K' = times k K) -> inv_t (<[t := y']> T) P L K'.
Proof.
  intros [I1 I2 I3 I4 I5 I6 I7 I8 I9 I9' I10] Ht Ep El Hp Hd Hs Hl HK. constructor.
  - intros u z. rewrite lookup_insert_Some. intros [[<- <-]|[_ Hu]]; [rewrite Ep; by apply (I1 t) | by apply (I1 u)].
  - intros u z. rewrite lookup_insert_Some. intros [[<- <-]|[_ Hu]]; [done | by apply (I2 u)].
  - intros u z p. rewrite lookup_insert_Some. intros [[<- <-]|[_ Hu]]; [rewrite Ep, El; by apply I3 | by apply I3].
  - intros u z p. rewrite lookup_insert_Some. intros [[<- <-]|[Hne Hu]]; [rewrite Ep; apply Hs|]. intros Hpz. rewrite HK by congruence. by apply I4.
  - intros p x Hx. destruct (I5 p x Hx) as [Hn Hall]. split; [done|]. intros u Hu. destruct (Hall u Hu) as (z & Hz & Epz).
    destruct (decide (u = t)) as [->|Hne]; [exists y'; rewrite lookup_insert_eq; split; [done | congruence] | exists z; by rewrite lookup_insert_ne].
  - done.
  - intros p x u z Hx Hst Hin. rewrite lookup_insert_Some. intros [[<- <-]|[_ Hu]]; [apply Hd; by apply (I7 p x t) | by apply (I7 p x u)].
  - intros p x Hx Ha. rewrite HK by done. by apply I8.
  - intros u Hu. destruct (decide (u = t)) as [->|Hne]; [rewrite lookup_insert_eq; by eexists | rewrite lookup_insert_ne by done]. apply I9.
    apply times_in. apply times_in in Hu. rewrite HK in Hu by congruence. done.
  - intros p Hpk. apply I9'. apply times_in. apply times_in in Hpk. by rewrite HK in Hpk.
  - intros p u Hin. destruct (I10 p u Hin) as (z & Hz & Hz1 & Hz2 & Hz3). destruct (decide (u = t)) as [->|Hne].
    + exists y'. rewrite lookup_insert_eq. assert (z = y) as -> by congruence. split_and!; [done | | congruence | done].
      destruct Hl as [?|Hl]; [done | by apply Hl in Hin].
    + exists z. by rewrite lookup_insert_ne.
Qed.

Lemma put_thread_inv T P L K K' t y y' :
  inv_t T P L K -> T !! t = Some y -> process_ y' = process_ y -> in_list (at_ y') = in_list (at_ y) -> place_ok y' ->
  (IsDyingOrDead y = true -> IsDyingOrDead y' = true) -> (forall p, P !! process_ y = Some p -> suspend_ok (times (thread_token t) K') y' p) ->
  (at_ y = p_left -> at_ y' = p_left) -> (forall k, k <> thread_token t -> times k K' = times k K) -> inv_t (<[t := y']> T) P L K'.
Proof.
  intros It Ht Ep El Hp Hd Hs Hl HK. apply (put_thread_inv_at _ _ _ K _ t y); try done. destruct (decide (at_ y = p_left)); [left; by auto | right].
  intros p Hin. destruct (t_release _ _ _ _ It p t Hin) as (z & ? & ? & _). congruence.
Qed.

Lemma inv_p_threads T T' P L :
  inv_p T P L -> (forall t y', T' !! t = Some y' -> exists y, T !! t = Some y /\ process_ y = process_ y') -> inv_p T' P L.
Proof. intros [H1 H2] HT. constructor; [|done]. intros p x Hx. apply (proc_ok_threads T); [done | by apply H1]. Qed.

Lemma put_thread_process (T : gmap Z Thread) t y y' : T !! t = Some y -> process_ y' = process_ y ->
  forall u z, <[t := y']> T !! u = Some z -> exists y, T !! u = Some y /\ process_ y = process_ z.
Proof. intros Ht E u z. rewrite lookup_insert_Some. intros [[<- <-]|[_ Hu]]; [by exists y | by exists z]. Qed.

Lemma on_thread_inv root x t y f :
  inv root x -> threads (tasks x) !! t = Some y -> (exists y', f y = Some y' /\ moves y y') -> exists x', on_thread f t x = Some x' /\ inv root x'.
Proof.
  intros [It Ip Ij Ipj] Ht (y' & Ef & Ep & El & Hp & Hd & Hs & Hl). unfold on_thread. rewrite Ht. cbn [mbind option_bind]. rewrite Ef. cbn [mbind option_bind].
  eexists. split; [done|]. constructor; simpl.
  - apply (put_thread_inv _ _ _ (tokens x) _ t y); try done. intros p HP. apply Hs. by apply (t_suspend _ _ _ _ It).
  - apply (inv_p_threads (threads (tasks x))); [done|]. by apply (put_thread_process _ _ y).
  - done.
  - done.
Qed.

(** A state change that leaves the counts of suspensions alone. *)
Lemma count_ok_same m y y' :
  suspend_count_ y' = suspend_count_ y ->
  (IsDyingOrDead y' = false -> IsDyingOrDead y = false /\ stop y' || asleep y' = stop y || asleep y /\ (HasStarted y' = true -> HasStarted y = true)) ->
  count_ok m y -> count_ok m y'.
Proof.
  intros Ec Hd [H1 H2]. unfold count_ok in *. rewrite Ec. split; [done|]. intros Hn. destruct (Hd Hn) as (D1 & D2 & D3).
  destruct (H2 D1) as [H3 H4]. split; [done|]. intros Hst. rewrite D2. by apply H4, D3.
Qed.

Lemma suspend_ok_same n y y' p :
  in_list (at_ y') = in_list (at_ y) -> suspend_count_ y' = suspend_count_ y ->
  (IsDyingOrDead y' = false -> IsDyingOrDead y = false /\ stop y' || asleep y' = stop y || asleep y /\ (HasStarted y' = true -> HasStarted y = true)) ->
  suspend_ok n y p -> suspend_ok n y' p.
Proof. intros El Ec Hd. unfold suspend_ok, share. rewrite El. by apply count_ok_same. Qed.

(** The states a thread can have where it is. *)
Ltac thread_cases y Hp := destruct y as [pr v n sg st kl sl at']; simpl in *;
  let Hv := fresh in let Hk := fresh "Hkill" in destruct Hp as (Hv & Hk & ?); simpl in *; subst;
  destruct_or?; destruct_and?; subst; unfold IsDyingOrDead, HasStarted in *; simpl in *; try done.

Ltac move_parts :=
  unfold moves; (split; [done|]); (split; [done|]);
  (split; [unfold place_ok, IsDyingOrDead; simpl; intuition congruence|]);
  (split; [unfold IsDyingOrDead; done|]);
  (split; [intros ? ?; apply suspend_ok_same; simpl; unfold IsDyingOrDead, HasStarted; simpl; done | done]).

Ltac thread_moves := eexists; (split; [reflexivity|]); move_parts.

Lemma Suspending_moves y : place_ok y -> at_ y = p_signalled -> exists y', Suspending y = Some y' /\ moves y y'.
Proof. intros Hp Ha. thread_cases y Hp; thread_moves. Qed.

Lemma signalled_moves y : place_ok y -> sees_suspend y = true -> moves y (put_place p_signalled y).
Proof. intros Hp Ha. unfold sees_suspend in Ha. destruct (at_ y) eqn:Ea; try done. thread_cases y Hp; move_parts. Qed.

Lemma falls_asleep_moves y : place_ok y -> at_ y = p_stopping -> stop y = true -> kill y = false -> moves y (falls_asleep y).
Proof. intros Hp Ha Hs Hk. thread_cases y Hp; move_parts. Qed.

Lemma Resuming_moves y : place_ok y -> may_resume y = true -> exists y', Resuming y = Some y' /\ moves y y'.
Proof.
  intros Hp Ha. unfold may_resume in Ha. destruct (at_ y) eqn:Ea; try done; apply andb_prop in Ha as [?%negb_true_iff ?%negb_true_iff]; thread_cases y Hp; thread_moves.
Qed.

Lemma Exit_moves y : place_ok y -> at_ y = p_user -> exists y', Exit y = Some y' /\ moves y y'.
Proof. intros Hp Ha. thread_cases y Hp; thread_moves. Qed.

Lemma Exiting_moves y : place_ok y -> at_ y = p_exiting -> exists y', Exiting y = Some y' /\ moves y y'.
Proof. intros Hp Ha. thread_cases y Hp; thread_moves. Qed.

Lemma killed_moves y : place_ok y -> sees_kill y = true -> moves y (put_place p_exiting y).
Proof.
  intros Hp Ha. unfold sees_kill in Ha. destruct (at_ y) eqn:Ea; try done; try (apply andb_prop in Ha as [_ Ha]);
    thread_cases y Hp; try (by specialize (Hkill eq_refl)); move_parts.
Qed.

Lemma exception_begins_moves y : place_ok y -> at_ y = p_user -> exists y', HandleException_begin p_exception y = Some y' /\ moves y y'.
Proof. intros Hp Ha. thread_cases y Hp; thread_moves. Qed.

Lemma exit_exception_begins_moves y : place_ok y -> at_ y = p_exiting -> exists y', HandleException_begin p_exit_exception y = Some y' /\ moves y y'.
Proof. intros Hp Ha. thread_cases y Hp; thread_moves. Qed.

Lemma exception_ends_moves y : place_ok y -> at_ y = p_exception -> exists y', option_map snd (HandleException_end p_user ZX_OK y) = Some y' /\ moves y y'.
Proof. intros Hp Ha. thread_cases y Hp; thread_moves. Qed.

Lemma exit_exception_ends_moves y : place_ok y -> at_ y = p_exit_exception -> exists y', option_map snd (HandleException_end p_exiting ZX_OK y) = Some y' /\ moves y y'.
Proof. intros Hp Ha. thread_cases y Hp; thread_moves. Qed.

Lemma Kill_moves y : place_ok y -> exists y', Kill y = Some y' /\ moves y y' /\ (in_list (at_ y) = true -> IsDyingOrDead y' = true).
Proof.
  intros Hp. destruct y as [pr v n sg st kl sl at'] eqn:Ey. unfold place_ok in Hp. simpl in Hp. destruct Hp as [Hv Hk].
  destruct at'; simpl in Hv; destruct_or?; destruct_and?; subst v; (eexists; split; [reflexivity|]; split; [|done]); move_parts.
Qed.

Lemma dead_place y p : place_ok y -> state_ y = DEAD_IDLE -> p = p_left \/ p = p_gone -> place_ok (put_place p y).
Proof.
  intros (_ & Hk & Hs) Hd Hp. unfold place_ok, IsDyingOrDead in *. simpl. rewrite Hd in *.
  destruct Hp as [->| ->]; (split_and!; [done | done | by intros [? _]%Hs]).
Qed.

(** ** Tokens *)

Lemma times_drop k k' (l : list token) : k ∈ l -> times k' (drop_token k l) = times k' l - (if decide (k = k') then 1 else 0).
Proof.
  induction l as [|a l IH]; [by intros ?%not_elem_of_nil|]. simpl. destruct (decide (a = k)) as [->|Hne].
  - intros _. destruct (decide (k = k')); lia.
  - intros [?|Hk]%elem_of_cons; [congruence|]. simpl. rewrite (IH Hk). lia.
Qed.

Lemma share_range y p : 0 <= share y p <= 1.
Proof. unfold share. destruct (_ && _ && _); lia. Qed.

Lemma place_not_initial y : place_ok y -> lifecycle (state_ y) <> INITIAL.
Proof. destruct y as [pr v c sg st kl sl at']. unfold place_ok. simpl. intros [Hp _]. destruct at'; destruct_or?; destruct_and?; by subst. Qed.

(** A suspension counts. *)
Lemma Suspend_spec m y : place_ok y -> 0 <= m -> count_ok m y ->
  exists st y', Suspend y = Some (st, y') /\ process_ y' = process_ y /\ at_ y' = at_ y /\ place_ok y' /\ IsDyingOrDead y' = IsDyingOrDead y /\
    count_ok (m + 1) y' /\ (st = ZX_OK \/ IsDyingOrDead y = true).
Proof.
  intros Hp Hm [Hc Heq]. pose proof (place_not_initial y Hp) as Hi. unfold Suspend.
  destruct (Z.ltb_spec (suspend_count_ y) 0); [lia|]. simpl. unfold IsDyingOrDead in *. destruct (lifecycle (state_ y)) eqn:El; try done; (eexists _, _; split; [done|]).
  all: try (destruct (Z.eqb_spec (suspend_count_ y + 1) 1)); split_and!; try done; try (by (simpl; rewrite El)); try (by left); try (by right).
  all: unfold count_ok, IsDyingOrDead, HasStarted in *; simpl; rewrite El in *.
  all: split; [lia|].
  all: try done.
  all: intros _; destruct (Heq eq_refl) as [E2 E3]; split; [lia|].
  all: intros Hst; try done; try (symmetry; apply Z.gtb_lt; lia).
  all: rewrite (E3 eq_refl), !Z.gtb_ltb; destruct (Z.ltb_spec 0 (suspend_count_ y)), (Z.ltb_spec 0 (suspend_count_ y + 1)); lia || done.
Qed.

Lemma Resume_spec m y : place_ok y -> 0 < m -> count_ok m y ->
  exists y', Resume y = Some y' /\ process_ y' = process_ y /\ at_ y' = at_ y /\ place_ok y' /\ IsDyingOrDead y' = IsDyingOrDead y /\ count_ok (m - 1) y'.
Proof.
  intros Hp Hm [Hc Heq]. pose proof (place_not_initial y Hp) as Hi. unfold Resume. rewrite Z.gtb_ltb.
  destruct (Z.ltb_spec 0 (suspend_count_ y)); [|lia]. simpl. unfold IsDyingOrDead in *. destruct (lifecycle (state_ y)) eqn:El; try done; (eexists; split; [done|]).
  all: try (destruct (Z.eqb_spec (suspend_count_ y - 1) 0)); split_and!; try done; try (by (simpl; rewrite El)); try (by (destruct Hp as (? & ? & ?); split_and!)).
  all: unfold count_ok, IsDyingOrDead, HasStarted in *; simpl; rewrite El in *.
  all: split; [lia|].
  all: try done.
  all: intros _; destruct (Heq eq_refl) as [E2 E3]; split; [lia|].
  all: intros Hst; try done.
  all: rewrite ?(E3 eq_refl), !Z.gtb_ltb; destruct (Z.ltb_spec 0 (suspend_count_ y)), (Z.ltb_spec 0 (suspend_count_ y - 1)); lia || done.
Qed.

Lemma count_ok_dying m m' y : IsDyingOrDead y = true -> m' <= m -> count_ok m y -> count_ok m' y.
Proof. intros Hd Hm [H1 _]. split; [lia | congruence]. Qed.

(** ** What a process does to its threads *)

(** A process changes, and its threads with it. *)
Definition thread_update (p : Z) (x' : Process.Process) (K' : list token) (t : Z) (y y' : Thread) : Prop :=
  process_ y' = p /\ place_ok y' /\ (t ∈ Process.thread_list_ x' <-> in_list (at_ y') = true) /\ suspend_ok (times (thread_token t) K') y' x' /\
  (Process.state_ x' = Process.DYING -> t ∈ Process.thread_list_ x' -> IsDyingOrDead y' = true) /\ (at_ y = p_left -> at_ y' = p_left).

Definition threads_update (T T' : gmap Z Thread) (p : Z) (x' : Process.Process) (K' : list token) : Prop :=
  forall t, match T !! t with
    | Some y => exists y', T' !! t = Some y' /\ if decide (process_ y = p) then thread_update p x' K' t y y' else y' = y
    | None => T' !! t = None
    end.

Lemma threads_update_back T T' p x' K' t y' :
  threads_update T T' p x' K' -> T' !! t = Some y' ->
  exists y, T !! t = Some y /\ process_ y' = process_ y /\ if decide (process_ y = p) then thread_update p x' K' t y y' else y' = y.
Proof.
  intros HU Ht. specialize (HU t). destruct (T !! t) as [y|] eqn:E; [|congruence]. destruct HU as (z & Hz & Hu). assert (z = y') as -> by congruence.
  exists y. split_and!; try done. destruct (decide (process_ y = p)); [unfold thread_update in Hu; destruct_and! Hu; congruence | congruence].
Qed.

Lemma update_process_inv T T' P L L' K K' p x x' :
  inv_t T P L K -> P !! p = Some x -> threads_update T T' p x' K' -> (Process.alive x = true -> Process.alive x' = true) ->
  NoDup (Process.thread_list_ x') -> (forall t, t ∈ Process.thread_list_ x' -> exists y, T !! t = Some y /\ process_ y = p) -> list_ok x' ->
  (active x' = true -> Process.suspend_count_ x' = times (process_token p) K') -> (forall k, k <> process_token p -> times k K' = times k K) ->
  (process_token p ∈ K' -> Process.alive x' = true) ->
  (forall p t, ReleaseThread p t ∈ L' -> times (ReleaseThread p t) L' <= times (ReleaseThread p t) L \/
     exists y, T' !! t = Some y /\ at_ y = p_left /\ process_ y = p /\ times (ReleaseThread p t) L' <= 1) ->
  inv_t T' (<[p := x']> P) L' K'.
Proof.
  intros [I1 I2 I3 I4 I5 I6 I7 I8 I9 I9' I10] HP HU Ha Hn Hm Hl Hc HK Hk HL.
  assert (forall t y, T !! t = Some y -> exists y', T' !! t = Some y' /\ process_ y' = process_ y) as HT.
  { intros t y Ht. specialize (HU t). rewrite Ht in HU. destruct HU as (y' & Hy' & Hu). exists y'. split; [done|].
    destruct (decide (process_ y = p)); [unfold thread_update in Hu; destruct_and! Hu; congruence | congruence]. }
  constructor.
  - intros t y' Ht. destruct (threads_update_back _ _ _ _ _ _ _ HU Ht) as (y & Hy & -> & Hu). destruct (I1 t y Hy) as (z & Hz & Hza).
    destruct (decide (process_ y = p)) as [E|Hne]; [rewrite E in *; exists x'; rewrite lookup_insert_eq | exists z; by rewrite lookup_insert_ne]. split; [done|]. apply Ha. congruence.
  - intros t y' Ht. destruct (threads_update_back _ _ _ _ _ _ _ HU Ht) as (y & Hy & _ & Hu).
    destruct (decide (process_ y = p)); [by apply Hu | subst; by apply (I2 t)].
  - intros t y' z Ht. destruct (threads_update_back _ _ _ _ _ _ _ HU Ht) as (y & Hy & -> & Hu).
    destruct (decide (process_ y = p)) as [E|Hne]; [rewrite E, lookup_insert_eq; intros [= <-]; apply Hu | rewrite lookup_insert_ne by done; subst; by apply I3].
  - intros t y' z Ht. destruct (threads_update_back _ _ _ _ _ _ _ HU Ht) as (y & Hy & -> & Hu).
    destruct (decide (process_ y = p)) as [E|Hne]; [rewrite E, lookup_insert_eq; intros [= <-]; apply Hu | rewrite lookup_insert_ne by done; subst; rewrite HK by done; by apply I4].
  - intros r z. rewrite lookup_insert_Some. intros [[<- <-]|[Hne Hz]].
    + split; [done|]. intros t Ht. destruct (Hm t Ht) as (y & Hy & Ey). destruct (HT t y Hy) as (y' & ? & ?). exists y'. split; congruence.
    + destruct (I5 r z Hz) as [H1 H2]. split; [done|]. intros t Ht. destruct (H2 t Ht) as (y & Hy & Ey). destruct (HT t y Hy) as (y' & ? & ?). exists y'. split; congruence.
  - intros r z. rewrite lookup_insert_Some. intros [[<- <-]|[Hne Hz]]; [done | by apply (I6 r)].
  - intros r z t y'. rewrite lookup_insert_Some. intros Hr Hst Hin Ht. destruct (threads_update_back _ _ _ _ _ _ _ HU Ht) as (y & Hy & _ & Hu).
    destruct Hr as [[<- <-]|[Hne Hz]].
    + destruct (Hm t Hin) as (y0 & Hy0 & Ey). assert (y0 = y) as -> by congruence. rewrite decide_True in Hu by done. by apply Hu.
    + destruct (proj2 (I5 r z Hz) t Hin) as (y0 & Hy0 & Ey). assert (y0 = y) as -> by congruence. rewrite decide_False in Hu by congruence. subst. by apply (I7 (process_ y) z t).
  - intros r z. rewrite lookup_insert_Some. intros [[<- <-]|[Hne Hz]]; [done|]. rewrite HK by congruence. by apply I8.
  - intros t Ht. rewrite times_in, HK in Ht by done. rewrite <- times_in in Ht. destruct (I9 t Ht) as [y Hy]. destruct (HT t y Hy) as (y' & ? & ?). by exists y'.
  - intros r Hr. destruct (decide (r = p)) as [->|Hne]; [exists x'; rewrite lookup_insert_eq; by auto|].
    rewrite times_in, HK in Hr by congruence. rewrite <- times_in in Hr. rewrite lookup_insert_ne by done. by apply I9'.
  - intros r t Hr. destruct (HL r t Hr) as [Hr'|?]; [|done].
    destruct (I10 r t) as (y & Hy & Hy1 & Hy2 & Hy3); [rewrite times_in in *; lia|]. pose proof (HU t) as Hu. rewrite Hy in Hu.
    destruct Hu as (y' & Hy' & Hu). exists y'.
    destruct (decide (process_ y = p)) as [E|_]; [destruct Hu as (U1 & _ & _ & _ & _ & U6); split_and!; [done | by apply U6 | congruence | lia] | subst; split_and!; [done | done | done | lia]].
Qed.

(** A function applied to each thread of a list. *)
Lemma each_thread_spec f l : forall T, NoDup l -> (forall t, t ∈ l -> exists y y', T !! t = Some y /\ f y = Some y') ->
  exists T', each_thread f l T = Some T' /\ forall t, T' !! t = if decide (t ∈ l) then T !! t ≫= f else T !! t.
Proof.
  induction l as [|t l IH]; intros T Hn Hf.
  - exists T. split; [done|]. intros t. by rewrite decide_False by apply not_elem_of_nil.
  - apply NoDup_cons in Hn as [Hni Hn]. destruct (Hf t) as (y & y' & Hy & Ey); [apply elem_of_cons; by left|]. simpl. rewrite Hy. simpl. rewrite Ey. simpl.
    destruct (IH (<[t := y']> T) Hn) as (T' & HT' & Hsp).
    { intros u Hu. destruct (Hf u) as (z & z' & Hz & Ez); [apply elem_of_cons; by right|]. exists z, z'. rewrite lookup_insert_ne by congruence. done. }
    exists T'. split; [done|]. intros u. rewrite Hsp. destruct (decide (u = t)) as [->|Hne].
    + rewrite decide_False by done. rewrite lookup_insert_eq. rewrite decide_True by (apply elem_of_cons; by left). by rewrite Hy.
    + rewrite lookup_insert_ne by done. destruct (decide (u ∈ l)); [rewrite decide_True by (apply elem_of_cons; by right) | rewrite decide_False by (rewrite elem_of_cons; tauto)]; done.
Qed.

(** ** Work that is done and work that is left *)

Ltac count_work := simpl; repeat first [rewrite decide_True by done | rewrite decide_False by congruence]; reflexivity.

Definition swap (old new L L' : list work) : Prop := forall a, times a L' + times a old = times a new + times a L.

Section Swap.
Context (old new L L' : list work) (S : swap old new L L').

Lemma swap_in a : a ∈ L' -> a ∈ new \/ a ∈ L.
Proof. rewrite !times_in. specialize (S a). pose proof (times_nonneg a old). pose proof (times_nonneg a new). lia. Qed.
Lemma swap_keep a : a ∈ L -> a ∉ old -> a ∈ L'.
Proof. rewrite !times_in. specialize (S a). pose proof (times_nonneg a old). pose proof (times_nonneg a new). lia. Qed.
Lemma swap_same a : a ∉ old -> a ∉ new -> times a L' = times a L.
Proof. rewrite !times_not_in. specialize (S a). lia. Qed.
Lemma swap_new a : a ∈ new -> a ∉ old -> a ∈ L'.
Proof. rewrite !times_in. specialize (S a). pose proof (times_nonneg a old). pose proof (times_nonneg a L). lia. Qed.
Lemma swap_count a m n : times a old = m -> times a new = n -> times a L' = times a L + n - m.
Proof. intros <- <-. specialize (S a). lia. Qed.
(** [f]: what the step is about. *)
Lemma swap_other (f : work -> bool) : (forall a, a ∈ old -> f a = true) -> (forall a, a ∈ new -> f a = true) ->
  forall a, f a = false -> times a L' = times a L.
Proof. intros Ho Hn a Ha. apply swap_same; intros H; [apply Ho in H | apply Hn in H]; congruence. Qed.
End Swap.

Lemma start_swap new s : swap [] new (pending s) (concat (new :: todo s)).
Proof. intros a. unfold pending. simpl. rewrite times_app. lia. Qed.

Lemma todo_swap s i w k new : todo s !! i = Some (w :: k) -> w ∈ pending s /\ swap [w] new (pending s) (concat (<[i := new ++ k]> (todo s))).
Proof.
  unfold pending. generalize (todo s) as l. intros l Hi. assert (forall l : list (list work), forall a i k k', l !! i = Some k -> times a (concat (<[i := k']> l)) + times a k = times a k' + times a (concat l)) as H.
  { clear. intros l a. induction l as [|b l IH]; intros [|i] k k' Hi; simpl in *; try done; rewrite !times_app.
    - injection Hi as ->. lia.
    - specialize (IH i k k' Hi). lia. }
  split.
  - apply list_elem_of_In, in_concat. exists (w :: k). split; [|by left]. apply list_elem_of_In. by eapply list_elem_of_lookup_2.
  - intros a. specialize (H l a i (w :: k) (new ++ k) Hi). rewrite times_app in H. simpl in H |- *. lia.
Qed.
