(* ===== verification/TaskProcessFacts.v ===== *)
(** * Correctness of tasks: processes

    What the operations of a process do to it, to its threads and to the work that
    is left, with the invariant of [TaskFacts.v]. *)

From S2P Require Import Prelude Zx JobPolicy Thread Tasks TaskSystem TaskFacts.
Import Tasks ThreadState Thread.

(** ** The suspensions of the threads *)

Lemma suspend_ok_share n y x x' : share y x' = share y x -> suspend_ok n y x -> suspend_ok n y x'.
Proof. unfold suspend_ok. by intros ->. Qed.

Lemma suspend_ok_out n y x x' : in_list (at_ y) = false -> suspend_ok n y x -> suspend_ok n y x'.
Proof. intros H. apply suspend_ok_share. unfold share. by rewrite H. Qed.

Lemma suspend_ok_inactive n y x x' :
  active x' = false -> (in_list (at_ y) = true -> IsDyingOrDead y = true) -> suspend_ok n y x -> suspend_ok n y x'.
Proof.
  intros Ha Hd. destruct (in_list (at_ y)) eqn:El; [|by apply suspend_ok_out]. unfold suspend_ok. apply count_ok_dying; [by apply Hd|].
  pose proof (share_range y x). unfold share at 1. rewrite Ha, andb_false_r. simpl. lia.
Qed.

Section Update.
Context (T : gmap Z Thread) (P : gmap Z Process.Process) (L : list work) (K K' : list token) (p : Z) (x x' : Process.Process).
Context (I : inv_t T P L K) (HP : P !! p = Some x).
Context (HK : forall t, times (thread_token t) K' = times (thread_token t) K).

Lemma thread_suspend_ok t y : T !! t = Some y -> process_ y = p -> suspend_ok (times (thread_token t) K') y x.
Proof. intros Ht <-. rewrite HK. by apply (t_suspend _ _ _ _ I). Qed.

Lemma thread_listed t y : T !! t = Some y -> process_ y = p -> t ∈ Process.thread_list_ x <-> in_list (at_ y) = true.
Proof. intros Ht <-. by apply (t_list _ _ _ _ I). Qed.

(** The threads stay as they are. *)
Lemma threads_same :
  Process.thread_list_ x' = Process.thread_list_ x -> (Process.state_ x' = Process.DYING -> Process.state_ x = Process.DYING) ->
  (forall t y n, T !! t = Some y -> process_ y = p -> suspend_ok n y x -> suspend_ok n y x') -> threads_update T T p x' K'.
Proof.
  intros El Hd Hs t. destruct (T !! t) as [y|] eqn:Ht; [|done]. exists y. split; [done|]. destruct (decide (process_ y = p)) as [Ep|]; [|done].
  unfold thread_update. rewrite El. split_and!; try done.
  - by apply (t_place _ _ _ _ I t).
  - by apply thread_listed.
  - by apply (Hs t); [..|apply thread_suspend_ok].
  - intros Hst Hin. apply (t_dying _ _ _ _ I p x t); auto.
Qed.

(** A function is applied to each thread of the process. *)
Lemma threads_each f :
  Process.thread_list_ x' = Process.thread_list_ x ->
  (forall y n, 0 <= n -> in_list (at_ y) = true -> place_ok y -> suspend_ok n y x ->
     exists y', f y = Some y' /\ process_ y' = process_ y /\ in_list (at_ y') = true /\ place_ok y' /\ suspend_ok n y' x' /\
       (Process.state_ x' = Process.DYING -> IsDyingOrDead y' = true)) ->
  exists T', each_thread f (Process.thread_list_ x) T = Some T' /\ threads_update T T' p x' K'.
Proof.
  intros El Hf. destruct (t_threads _ _ _ _ I p x HP) as [Hn Hl].
  assert (forall t y, T !! t = Some y -> process_ y = p -> t ∈ Process.thread_list_ x -> exists y', f y = Some y' /\ thread_update p x' K' t y y') as Hu.
  { intros t y Ht Ep Hin. assert (in_list (at_ y) = true) as Hil by (by apply (thread_listed t y Ht Ep)).
    destruct (Hf y (times (thread_token t) K')) as (y' & Ef & Ep' & El' & Hp & Hs & Hd);
      [apply times_nonneg | done | by apply (t_place _ _ _ _ I t) | by apply thread_suspend_ok|].
    exists y'. split; [done|]. unfold thread_update. rewrite El, El'. split_and!; try done; [congruence | by auto | intros E; by rewrite E in Hil]. }
  destruct (each_thread_spec f (Process.thread_list_ x) T Hn) as (T' & HT' & Hsp).
  { intros t Hin. destruct (Hl t Hin) as (y & Ht & Ep). destruct (Hu t y Ht Ep Hin) as (y' & Ef & _). by exists y, y'. }
  exists T'. split; [done|]. intros t. rewrite Hsp. destruct (T !! t) as [y|] eqn:Ht; [|by destruct (decide _)].
  destruct (decide (t ∈ Process.thread_list_ x)) as [Hin|Hni].
  - destruct (Hl t Hin) as (y0 & Hy0 & Ep). assert (y0 = y) as -> by congruence. destruct (Hu t y Ht Ep Hin) as (y' & Ef & Hup).
    exists y'. simpl. rewrite Ef. split; [done|]. by rewrite decide_True.
  - exists y. split; [done|]. destruct (decide (process_ y = p)) as [Ep|]; [|done].
    assert (in_list (at_ y) = false) as Hil by (apply not_true_is_false; by rewrite <- (thread_listed t y Ht Ep)).
    unfold thread_update. rewrite El, Hil. split_and!; try done.
    + by apply (t_place _ _ _ _ I t).
    + by apply (suspend_ok_out _ _ x), thread_suspend_ok.
Qed.
End Update.

Lemma update_back T T' p x' K' : threads_update T T' p x' K' ->
  forall t y', T' !! t = Some y' -> exists y, T !! t = Some y /\ process_ y = process_ y'.
Proof. intros HU t y' Ht. destruct (threads_update_back _ _ _ _ _ _ _ HU Ht) as (y & Hy & E & _). by exists y. Qed.

(** ** The changes of state *)

Section Change.
Context (T : gmap Z Thread) (P : gmap Z Process.Process) (J : gmap Z Job.Job) (h : bool) (L L' : list work) (K : list token) (p : Z) (x : Process.Process).
Context (I : inv_t T P L K) (HP : P !! p = Some x).
Context (HL : forall p t, times (ReleaseThread p t) L' <= times (ReleaseThread p t) L).

(** The process changes, but not what its threads see of it. *)
Lemma put_process_inv_t x' :
  Process.thread_list_ x' = Process.thread_list_ x -> Process.state_ x' = Process.state_ x -> Process.suspend_count_ x' = Process.suspend_count_ x ->
  (Process.alive x = true -> Process.alive x' = true) -> inv_t T (<[p := x']> P) L' K.
Proof.
  intros El Es Ec Ha.
  assert (active x' = active x) as Eact by (unfold active; by rewrite Es).
  apply (update_process_inv T T P L L' K K p x x'); try done.
  - apply (threads_same T P L K K p x x'); try done; [congruence|]. intros t y n _ _. apply suspend_ok_share. unfold share. by rewrite Eact, Ec.
  - rewrite El. by apply (t_threads _ _ _ _ I p x).
  - rewrite El. by apply (t_threads _ _ _ _ I p x).
  - unfold list_ok. rewrite Es, El. by apply (t_lists _ _ _ _ I p x).
  - rewrite Eact, Ec. by apply (t_count _ _ _ _ I p x).
  - intros Hk. destruct (t_ptoken _ _ _ _ I p Hk) as (z & Hz & Hal). apply Ha. congruence.
  - intros q t Hr. left. by apply HL.
Qed.

(** A process without threads dies at once. *)
Lemma put_dead_inv_t x' :
  Process.thread_list_ x' = Process.thread_list_ x -> Process.thread_list_ x = [] -> Process.state_ x' = Process.DEAD -> Process.alive x' = Process.alive x ->
  inv_t T (<[p := x']> P) L' K.
Proof.
  intros El Enil Es Ea. assert (active x' = false) as Eact by (unfold active; by rewrite Es).
  apply (update_process_inv T T P L L' K K p x x'); try done.
  - apply (threads_same T P L K K p x x'); try done; [congruence|]. intros t y n Ht Ep. apply suspend_ok_out.
    apply not_true_is_false. intros Hil. apply (thread_listed T P L K p x I HP t y Ht Ep) in Hil. rewrite Enil in Hil. by apply not_elem_of_nil in Hil.
  - congruence.
  - rewrite El, Enil. apply NoDup_nil_2.
  - rewrite El, Enil. intros t Hin. by apply not_elem_of_nil in Hin.
  - unfold list_ok. rewrite Es. congruence.
  - congruence.
  - intros Hk. destruct (t_ptoken _ _ _ _ I p Hk) as (z & Hz & Hal). congruence.
  - intros q t Hr. left. by apply HL.
Qed.

(** A process with threads kills them. *)
Lemma set_dying x1 :
  Process.state_ x1 = Process.RUNNING -> Process.thread_list_ x1 = Process.thread_list_ x -> Process.thread_list_ x <> [] -> Process.alive x1 = Process.alive x ->
  exists T', Tasks.SetStateLocked p Process.DYING (mkTasks T (<[p := x1]> P) J h) = Some (mkTasks T' (<[p := Process.put_state Process.DYING x1]> P) J h) /\
    inv_t T' (<[p := Process.put_state Process.DYING x1]> P) L' K /\
    forall t y', T' !! t = Some y' -> exists y, T !! t = Some y /\ process_ y = process_ y'.
Proof.
  intros Es El Hne Ea. set (x' := Process.put_state Process.DYING x1).
  destruct (threads_each T P L K K p x x' I HP (fun _ => eq_refl) Kill) as (T' & HT' & HU).
  - done.
  - intros y n Hn Hil Hp Hs. destruct (Kill_moves y Hp) as (y' & Ek & (M1 & M2 & M3 & M4 & M5 & M6) & Hd). exists y'.
    split_and!; try done; [congruence| | by auto]. apply (suspend_ok_inactive _ _ x); [done | by auto | by apply M5].
  - exists T'. split_and!.
    + unfold Tasks.SetStateLocked. simpl. rewrite lookup_insert_eq. simpl. rewrite Es. simpl. unfold KillAllThreadsLocked. simpl. rewrite El, HT'. simpl.
      unfold put_threads, put_process. simpl. by rewrite insert_insert_eq.
    + apply (update_process_inv T T' P L L' K K p x x'); try done.
      * intros H. simpl. congruence.
      * simpl. rewrite El. by apply (t_threads _ _ _ _ I p x).
      * simpl. rewrite El. by apply (t_threads _ _ _ _ I p x).
      * unfold list_ok. simpl. congruence.
      * intros Hk. destruct (t_ptoken _ _ _ _ I p Hk) as (z & Hz & Hal). simpl. congruence.
      * intros q t Hr. left. by apply HL.
    + by apply (update_back T T' p x' K).
Qed.
End Change.

(** ** A process and the system *)

(** The rest of the system is as it was when one process, its threads and the work
    for it have changed. *)
Lemma put_process_inv_p T T' P L L' p x' :
  inv_p T P L -> (forall t y', T' !! t = Some y' -> exists y, T !! t = Some y /\ process_ y = process_ y') ->
  (forall w, process_work p w = false -> times w L' = times w L) -> proc_ok T' L' p x' -> inv_p T' (<[p := x']> P) L'.
Proof.
  intros [H1 H2] HT HL Hok.
  assert (forall r w, r <> p -> process_work r w = true -> process_work p w = false) as Hw.
  { intros r w Hne. destruct w; simpl; try done; rewrite Z.eqb_eq, Z.eqb_neq; congruence. }
  constructor.
  - intros r z. rewrite lookup_insert_Some. intros [[<- <-]|[Hne Hz]]; [done|]. apply (proc_ok_threads T); [done|].
    apply (proc_ok_ext T L); [|by apply H1]. intros w Hr. by apply HL, (Hw r).
  - intros r w Hin Hr. destruct (decide (r = p)) as [->|Hne]; [rewrite lookup_insert_eq; by eexists | rewrite lookup_insert_ne by done].
    apply (H2 r w); [|done]. by apply (same_in w L L'); [apply HL, (Hw r)|].
Qed.

Lemma put_process_inv_pj P J L L' sh p x x' :
  inv_pj P J L sh -> P !! p = Some x -> Process.job_ x' = Process.job_ x -> (forall w, process_work p w = false -> w ∈ L' <-> w ∈ L) ->
  (forall q, AddChildProcess q p ∈ L' -> AddChildProcess q p ∈ L) ->
  (forall j y, J !! j = Some y -> p ∈ Job.procs_ y -> Process.completely_dead_ x' = true -> RemoveProcess j p ∈ L' \/ DestroyProcess j p ∈ L') ->
  (sh = false -> forall j y, J !! j = Some y -> Job.state_ y <> Job.READY -> p ∈ Job.procs_ y ->
     active x' = false \/ Process.alive x' = false \/ exists rc, KillProcess p rc ∈ L') ->
  inv_pj (<[p := x']> P) J L' sh.
Proof.
  intros [I1 I2 I3 I4 I5 I6 I7 I8] HP Ej HL Hadd Hleave Hkill.
  assert (forall r w, r <> p -> process_work r w = true -> w ∈ L' <-> w ∈ L) as Hne.
  { intros r w Hr Hw. apply HL. revert Hw. destruct w; simpl; try done; rewrite Z.eqb_eq, Z.eqb_neq; congruence. }
  constructor.
  - intros r z. rewrite lookup_insert_Some. intros [[<- <-]|[_ Hz]]; [rewrite Ej; by apply (I1 p) | by apply (I1 r)].
  - intros j y r Hy Hr. destruct (I2 j y r Hy Hr) as (z & Hz & Ez). destruct (decide (r = p)) as [->|?];
      [exists x'; rewrite lookup_insert_eq; split; [done | congruence] | exists z; by rewrite lookup_insert_ne].
  - intros q r j y Hin. destruct (decide (r = p)) as [->|?]; [by apply (I3 q), Hadd | apply (I3 q); by apply (Hne r); [|own_work|]].
  - intros j y r z Hy Hr. rewrite lookup_insert_Some. intros [[<- <-]|[? Hz]] Hd; [by apply (Hleave j y)|].
    rewrite !(Hne r) by first [congruence | own_work]. by apply (I4 j y r z).
  - intros q j r z. rewrite HL by done. rewrite lookup_insert_Some. intros Hin [[<- <-]|[_ Hz]]; [rewrite Ej; by apply (I5 q j p) | by apply (I5 q j r)].
  - intros q j r z. rewrite HL by done. rewrite lookup_insert_Some. intros Hin [[<- <-]|[_ Hz]]; [rewrite Ej; by apply (I6 q j p) | by apply (I6 q j r)].
  - intros Hs j y c z Hy Hst Hc Hz. destruct (I7 Hs j y c z Hy Hst Hc Hz) as [?|[?|[rc Hrc]]]; [by left | by right; left | right; right; exists rc; by rewrite HL].
  - intros Hs j y r z Hy Hst Hr. rewrite lookup_insert_Some. intros [[<- <-]|[? Hz]]; [by apply (Hkill Hs j y)|].
    destruct (I8 Hs j y r z Hy Hst Hr Hz) as [?|[?|[rc Hrc]]]; [by left | by right; left|]. right; right. exists rc. apply (Hne r); [congruence | own_work | done].
Qed.

Lemma process_inv_j T P J L L' root sh p x x' :
  inv_j J L root -> inv_pj P J L sh -> P !! p = Some x -> Process.job_ x' = Process.job_ x -> proc_ok T L' p x' ->
  (forall w, process_work p w = false -> times w L' = times w L) -> inv_j J L' root.
Proof.
  intros [H0 H1 H2] Ipj HP Ej Hok HL.
  assert (forall w j, w ∈ L' -> process_work p w = true -> job_work j w = true -> j = Process.job_ x) as Hj.
  { intros w j Hin Hp Hw. rewrite <- Ej. destruct w; simpl in *; try done; apply Z.eqb_eq in Hp, Hw; subst;
      [by destruct (q_creating _ _ _ _ Hok _ Hin) | by destruct (q_remove _ _ _ _ Hok _ Hin) | by destruct (q_destroy _ _ _ _ Hok _ Hin)]. }
  assert (forall w, process_work p w = false -> w ∈ L' -> w ∈ L) as Hin by (intros w Hw; by apply (same_in w L L'), HL).
  constructor; [done| |].
  - intros j y Hy. apply (job_ok_ext J J L); [| | | | |by apply H1].
    + intros w Hw. apply HL. by destruct w.
    + intros rc Hw. left. by apply Hin.
    + intros w Hw Hjw. destruct (process_work p w) eqn:Ep; [right | left; by apply Hin]. rewrite (Hj w j Hw Ep Hjw).
      intros q. split; intros Hq; [by apply (pj_add_job _ _ _ _ Ipj q _ p x Hq HP) | by apply (pj_destroy _ _ _ _ Ipj q _ p x Hq HP)].
    + intros k z Hk _. exists z. by split_and!.
    + intros k z Hk. left. exists z. by split.
  - intros j w Hw Hjw. destruct (process_work p w) eqn:Ep; [|by apply (H2 j w); [apply Hin|]].
    rewrite (Hj w j Hw Ep Hjw). destruct (pj_job _ _ _ _ Ipj p x HP) as (y & Hy & _). by exists y.
Qed.

Lemma process_step_inv root s T' h' todo' K' p x x' :
  let T := threads (tasks s) in let P := processes (tasks s) in let J := jobs (tasks s) in let L := pending s in let L' := concat todo' in
  inv root s -> P !! p = Some x -> Process.job_ x' = Process.job_ x ->
  (forall t y', T' !! t = Some y' -> exists y, T !! t = Some y /\ process_ y = process_ y') ->
  (forall w, process_work p w = false -> times w L' = times w L) ->
  inv_t T' (<[p := x']> P) L' K' -> proc_ok T' L' p x' ->
  (forall q, AddChildProcess q p ∈ L' -> AddChildProcess q p ∈ L) ->
  (forall j y, J !! j = Some y -> p ∈ Job.procs_ y -> Process.completely_dead_ x' = true -> RemoveProcess j p ∈ L' \/ DestroyProcess j p ∈ L') ->
  (short s = false -> forall j y, J !! j = Some y -> Job.state_ y <> Job.READY -> p ∈ Job.procs_ y ->
     active x' = false \/ Process.alive x' = false \/ exists rc, KillProcess p rc ∈ L') ->
  inv root (mkSys (mkTasks T' (<[p := x']> P) J h') todo' K' (short s)).
Proof.
  intros T P J L L' [It Ip Ij Ipj] HP Ej HT HL It' Hok Hadd Hleave Hkill. constructor; simpl; fold T P J L; change (pending _) with L'; try done.
  - by apply (put_process_inv_p T _ _ L).
  - by apply (process_inv_j T' P J L L' root (short s) p x x').
  - apply (put_process_inv_pj P J L L' (short s) p x x'); try done. intros w Hw. by apply same_in, HL.
Qed.

(** One process and the work for it: when the process does not become dead ... *)
Definition key_work (p : Z) (w : work) : bool :=
  match w with FinishDeadProcess r | AddChildProcess _ r | DestroyProcess _ r => r =? p | _ => false end.

Lemma proc_ok_keep T L L' p x x' :
  proc_ok T L p x -> Process.job_ x' = Process.job_ x -> Process.completely_dead_ x' = Process.completely_dead_ x ->
  Process.signals_ x' = Process.signals_ x -> Process.alive x' = Process.alive x ->
  (Process.state_ x' = Process.DEAD <-> Process.state_ x = Process.DEAD) ->
  (active x' = true -> active x = true /\ Process.retcode_ x' = Process.retcode_ x) ->
  (forall q, AddChildProcess q p ∈ L -> Process.state_ x' = Process.state_ x /\ Process.has_handle x' = Process.has_handle x) ->
  (Process.has_handle x' = true -> Process.alive x = true) ->
  (Process.state_ x' = Process.INITIAL -> Process.has_handle x' = false -> AddChildProcess (Process.job_ x) p ∈ L' \/ ZeroHandles p ∈ L') ->
  (forall w, key_work p w = true -> times w L' = times w L) ->
  (forall w, w ∈ L' -> process_work p w = true -> w ∈ L \/
     match w with RemoveProcess _ _ => False | _ => Process.alive x = true /\ forall q, AddChildProcess q p ∉ L end) ->
  proc_ok T L' p x'.
Proof.
  intros [O1 O2 O3 O4 O5 O6 O7 O8 O9 O10 O11] Ej Ec Es Ea Hdead Hact Hnew Hh Hzero Hkey Hw.
  assert (forall w, key_work p w = true -> w ∈ L' <-> w ∈ L) as Hin by (intros w Hk; by apply same_in, Hkey).
  assert (forall q, DestroyProcess q p ∈ L -> Process.alive x = true -> False) as Hnd by (intros q Hq; destruct (O10 q Hq) as (_ & -> & _); done).
  constructor; rewrite ?Ej, ?Ec, ?Es, ?Ea; try done.
  - intros H. destruct (Hact H) as [H' ->]. by auto.
  - intros H. by apply Hdead, O2.
  - rewrite (bool_decide_ext _ _ Hdead), Hkey by own_work. done.
  - intros q Hq. rewrite Hin in Hq by own_work. destruct (O5 q Hq) as (? & ? & ? & ? & ? & H & ?). destruct (Hnew q Hq) as [-> ->].
    rewrite Hkey by own_work. split_and!; try done. intros w Hw1 Hw2. destruct (Hw w Hw1 Hw2) as [Hw'|Hw']; [by apply H|].
    by destruct w; try done; destruct Hw' as [_ Hw']; destruct (Hw' q).
  - intros rc Hk. destruct (Hw _ Hk) as [Hk'|[? _]]; [own_work | by apply (O8 rc) | done].
  - intros q Hk. destruct (Hw _ Hk) as [Hk'|?]; [own_work | by apply O9 | done].
  - intros q Hq. rewrite Hin in Hq by own_work. destruct (O10 q Hq) as (? & ? & ? & ? & ? & H). rewrite Hkey by own_work. split_and!; try done; [by apply Hdead|].
    intros w Hw1 Hw2. destruct (Hw w Hw1 Hw2) as [Hw'|Hw']; [by apply H|]. by destruct w; try done; destruct Hw' as [Hw' _]; destruct (Hnd q Hq Hw').
  - intros H. rewrite Hin by own_work. by apply O11.
Qed.

(** ... and when it does. *)
Lemma proc_ok_dies T L L' p x x' :
  proc_ok T L p x -> Process.state_ x <> Process.DEAD -> Process.state_ x' = Process.DEAD -> Process.completely_dead_ x' = Process.completely_dead_ x ->
  Process.signals_ x' = Process.signals_ x -> Process.alive x' = Process.alive x -> Process.has_handle x' = Process.has_handle x ->
  times (FinishDeadProcess p) L' = times (FinishDeadProcess p) L + 1 -> (forall q, AddChildProcess q p ∉ L) ->
  (forall w, w ∈ L' -> process_work p w = true -> w ∈ L \/ w = FinishDeadProcess p \/ exists t, w = ReleaseThread p t) ->
  proc_ok T L' p x'.
Proof.
  intros [O1 O2 O3 O4 O5 O6 O7 O8 O9 O10 O11] Hd Hd' Ec Es Ea Eh Hfin Hnew Hw.
  assert (Process.completely_dead_ x = false) as Hcd by (apply not_true_is_false; by intros ?%O2).
  assert (forall w, w ∈ L' -> process_work p w = true -> match w with FinishDeadProcess _ | ReleaseThread _ _ => True | _ => w ∈ L end) as Hin.
  { intros w H1 H2. destruct (Hw w H1 H2) as [?|[->|[t ->]]]; [by destruct w | done | done]. }
  assert (active x' = false) as Hact by (unfold active; by rewrite Hd').
  constructor; rewrite ?Ec, ?Es, ?Ea, ?Eh; try done; try congruence.
  - rewrite Hfin, O3, Hd', Hcd. by rewrite (bool_decide_eq_false_2 (Process.state_ x = _)).
  - intros q Hq. apply Hin in Hq; [|own_work]. by apply Hnew in Hq.
  - intros rc Hk. apply Hin in Hk; [|own_work]. by apply (O8 rc).
  - intros q Hq. apply Hin in Hq; [|own_work]. destruct (O9 q Hq). congruence.
  - intros q Hq. apply Hin in Hq; [|own_work]. by destruct (O10 q Hq) as (_ & _ & ? & _).
  - intros H. apply O11 in H. by destruct (O10 _ H) as (_ & _ & ? & _).
Qed.

(** The work left is the same. *)
Lemma process_change_inv root s T' K' p x x' :
  let T := threads (tasks s) in let P := processes (tasks s) in let J := jobs (tasks s) in let L := pending s in
  inv root s -> P !! p = Some x ->
  (forall t y', T' !! t = Some y' -> exists y, T !! t = Some y /\ process_ y = process_ y') ->
  inv_t T' (<[p := x']> P) L K' -> Process.job_ x' = Process.job_ x -> Process.completely_dead_ x' = Process.completely_dead_ x ->
  Process.signals_ x' = Process.signals_ x -> Process.has_handle x' = Process.has_handle x -> Process.alive x' = Process.alive x ->
  (Process.state_ x' = Process.DEAD <-> Process.state_ x = Process.DEAD) ->
  (active x' = true -> active x = true /\ Process.retcode_ x' = Process.retcode_ x) -> (Process.state_ x' = Process.INITIAL -> Process.state_ x = Process.INITIAL) ->
  (Process.state_ x' = Process.state_ x \/ forall q, AddChildProcess q p ∉ L) ->
  inv root (mkSys (mkTasks T' (<[p := x']> P) J (halted (tasks s))) (todo s) K' (short s)).
Proof.
  intros T P J L I HP HT It' Ej Ec Es Eh Ea Hdead Hact Hini Hnew. pose proof I as [It Ip Ij Ipj].
  pose proof (q_all _ _ _ Ip p x HP) as O.
  apply (process_step_inv root s T' (halted (tasks s)) (todo s) K' p x x'); try done.
  - apply (proc_ok_threads T); [done|]. apply (proc_ok_keep T L _ p x); try done.
    + intros q Hq. split; [|done]. by destruct Hnew as [?|Hnew]; [|apply Hnew in Hq].
    + rewrite Eh. apply O.
    + rewrite Eh. intros H. by apply O, Hini.
    + intros w Hw _. by left.
  - intros j y Hy Hin. rewrite Ec. by apply (pj_leaving _ _ _ _ Ipj j y p x).
  - intros Hs j y Hy Hst Hin. rewrite Ea. destruct (pj_kill_procs _ _ _ _ Ipj Hs j y p x Hy Hst Hin HP) as [H|H]; [left | by right].
    apply not_true_is_false. intros H'. destruct (Hact H') as [? _]. congruence.
Qed.

(** ** The operations *)

Lemma process_exists root s p w : inv root s -> w ∈ pending s -> process_work p w = true -> exists x, processes (tasks s) !! p = Some x.
Proof. intros I Hw Hp. by destruct (q_exists _ _ _ (i_p _ _ I) p w Hw Hp) as [x Hx]; exists x. Qed.

(** The suspensions of a process. *)
Lemma suspend_thread_ok x x' y n :
  active x = true -> active x' = true -> Process.suspend_count_ x = 0 -> Process.suspend_count_ x' = 1 -> Process.state_ x' <> Process.DYING ->
  0 <= n -> in_list (at_ y) = true -> place_ok y -> suspend_ok n y x ->
  exists y', suspend_thread y = Some y' /\ process_ y' = process_ y /\ in_list (at_ y') = true /\ place_ok y' /\ suspend_ok n y' x' /\
    (Process.state_ x' = Process.DYING -> IsDyingOrDead y' = true).
Proof.
  intros Ha Ha' Ec Ec' Hst Hn Hil Hp Hs. unfold suspend_ok, share in *. rewrite Hil, Ha, Ec in Hs. simpl in Hs. rewrite Z.add_0_r in Hs.
  destruct (Suspend_spec n y Hp Hn Hs) as (st & y' & Es & E1 & E2 & E3 & E4 & E5 & E6). exists y'. unfold suspend_thread. rewrite Es. simpl. rewrite E2, Hil, Ha', Ec'.
  split_and!; try done. destruct E6 as [->|E6]; [done|]. by rewrite E4, E6, orb_true_r.
Qed.

Lemma resume_thread_ok x x' y n :
  active x = true -> active x' = true -> Process.suspend_count_ x = 1 -> Process.suspend_count_ x' = 0 -> Process.state_ x' <> Process.DYING ->
  0 <= n -> in_list (at_ y) = true -> place_ok y -> suspend_ok n y x ->
  exists y', Resume y = Some y' /\ process_ y' = process_ y /\ in_list (at_ y') = true /\ place_ok y' /\ suspend_ok n y' x' /\
    (Process.state_ x' = Process.DYING -> IsDyingOrDead y' = true).
Proof.
  intros Ha Ha' Ec Ec' Hst Hn Hil Hp Hs. unfold suspend_ok, share in *. rewrite Hil, Ha, Ec in Hs. simpl in Hs.
  destruct (Resume_spec (n + 1) y Hp) as (y' & Es & E1 & E2 & E3 & E4 & E5); [lia | done|]. exists y'. rewrite E2, Hil, Ha', Ec'.
  split_and!; try done. simpl. by rewrite Z.add_0_r, Z.add_simpl_r in *.
Qed.

(** The count of a process changes, and with it that of its threads when it becomes
    positive or zero. *)
Lemma recount_inv root s p x n K' T' :
  inv root s -> processes (tasks s) !! p = Some x -> active x = true -> n = times (process_token p) K' ->
  (forall k, k <> process_token p -> times k K' = times k (tokens s)) -> (process_token p ∈ K' -> Process.alive x = true) ->
  threads_update (threads (tasks s)) T' p (Process.put_count n x) K' ->
  inv root (mkSys (put_process p (Process.put_count n x) (put_threads T' (tasks s))) (todo s) K' (short s)).
Proof.
  intros I HP Ha Hn HK Hal HU. pose proof I as [It Ip Ij Ipj]. assert (active (Process.put_count n x) = true) as Ha' by done.
  apply (process_change_inv root s T' K' p x (Process.put_count n x)); try done; [by apply (update_back _ _ _ _ _ HU) | | by left].
  destruct (t_threads _ _ _ _ It p x HP) as [H1 H2].
  apply (update_process_inv (threads (tasks s)) T' _ (pending s) _ (tokens s) K' p x); try done; [by apply (t_lists _ _ _ _ It p x) | by left].
Qed.

Lemma active_cases x : active x = true -> Process.state_ x = Process.INITIAL \/ Process.state_ x = Process.RUNNING.
Proof. unfold active. destruct (Process.state_ x); [by left | by right | done | done]. Qed.

Lemma process_suspend_inv root s p x :
  inv root s -> processes (tasks s) !! p = Some x -> Process.has_handle x = true -> exists s', run s (SuspendProcess p) = Some s' /\ inv root s'.
Proof.
  intros I HP Hh. pose proof I as [It Ip Ij Ipj]. unfold run, process_suspend. rewrite HP. cbn [mbind option_bind].
  destruct (active x) eqn:Ha; [|unfold active in Ha; destruct (Process.state_ x); try done; (eexists; split; [done|]; by destruct s as [[] ? ? ?])].
  pose proof (t_count _ _ _ _ It p x HP Ha) as Ec. pose proof (times_nonneg (process_token p) (tokens s)) as Hc. set (n := Process.suspend_count_ x + 1).
  set (K' := process_token p :: tokens s). assert (forall k, k <> process_token p -> times k K' = times k (tokens s)) as HK by (intros k Hk; simpl; by rewrite decide_False).
  assert (n = times (process_token p) K') as En by (simpl; rewrite decide_True by done; lia).
  assert (exists T', (if n =? 1 then each_thread suspend_thread (Process.thread_list_ x) (threads (tasks s)) else Some (threads (tasks s))) = Some T' /\
                     threads_update (threads (tasks s)) T' p (Process.put_count n x) K') as (T' & ET & HU).
  { destruct (Z.eqb_spec n 1) as [E1|E1].
    - apply (threads_each _ _ _ _ K' p x (Process.put_count n x) It HP); try done; try (by intros; apply HK).
      intros y m Hm. apply suspend_thread_ok; try done. all: first [unfold n; simpl; lia | unfold active in Ha; simpl; by destruct (Process.state_ x)].
    - exists (threads (tasks s)). split; [done|]. apply (threads_same _ _ _ _ K' p x (Process.put_count n x) It HP); try done; try (by intros; apply HK).
      intros t y m _ _. apply suspend_ok_share. unfold share. simpl. change (active (Process.put_count n x)) with (active x). rewrite !Z.gtb_ltb.
      destruct (Z.ltb_spec 0 n), (Z.ltb_spec 0 (Process.suspend_count_ x)); lia || done. }
  exists (mkSys (put_process p (Process.put_count n x) (put_threads T' (tasks s))) (todo s) K' (short s)). split.
  - destruct (active_cases x Ha) as [-> | ->]; (destruct (Z.ltb_spec (Process.suspend_count_ x) 0); [lia|]); fold n; rewrite ET; done.
  - apply (recount_inv root s p x); try done. intros _. by apply (q_handle _ _ _ _ (q_all _ _ _ Ip p x HP)).
Qed.

Lemma process_resume_inv root s p :
  inv root s -> process_token p ∈ tokens s -> exists s', run s (ResumeProcess p) = Some s' /\ inv root s'.
Proof.
  intros I Hin. pose proof I as [It Ip Ij Ipj]. destruct (t_ptoken _ _ _ _ It p Hin) as (x & HP & Hal).
  unfold run, process_resume. rewrite HP. cbn [mbind option_bind]. set (K' := drop_token (process_token p) (tokens s)).
  assert (forall k, k <> process_token p -> times k K' = times k (tokens s)) as HK by (intros k Hk; unfold K'; rewrite times_drop by done; rewrite decide_False by done; lia).
  destruct (active x) eqn:Ha.
  2: { assert (inv_t (threads (tasks s)) (processes (tasks s)) (pending s) K') as It'.
       { rewrite <- (insert_id (processes (tasks s)) p x HP). destruct (t_threads _ _ _ _ It p x HP).
         apply (update_process_inv (threads (tasks s)) _ _ (pending s) _ (tokens s) K' p x x); try done; [|by apply (t_lists _ _ _ _ It p x) | congruence | by left].
         apply (threads_same _ _ _ _ K' p x x It HP); try done. intros t. by apply HK. }
       exists (mkSys (tasks s) (todo s) K' (short s)). split; [|by constructor]. unfold active in Ha. by destruct (Process.state_ x). }
  pose proof (t_count _ _ _ _ It p x HP Ha) as Ec. pose proof (proj1 (times_in _ _) Hin) as Hc. set (n := Process.suspend_count_ x - 1).
  assert (n = times (process_token p) K') as En by (unfold K'; rewrite times_drop by done; rewrite decide_True by done; lia).
  assert (exists T', (if n =? 0 then each_thread Resume (Process.thread_list_ x) (threads (tasks s)) else Some (threads (tasks s))) = Some T' /\
                     threads_update (threads (tasks s)) T' p (Process.put_count n x) K') as (T' & ET & HU).
  { destruct (Z.eqb_spec n 0) as [E1|E1].
    - apply (threads_each _ _ _ _ K' p x (Process.put_count n x) It HP); try done; try (by intros; apply HK).
      intros y m Hm. apply resume_thread_ok; try done. all: first [unfold n in *; simpl; lia | unfold active in Ha; simpl; by destruct (Process.state_ x)].
    - exists (threads (tasks s)). split; [done|]. apply (threads_same _ _ _ _ K' p x (Process.put_count n x) It HP); try done; try (by intros; apply HK).
      intros t y m _ _. apply suspend_ok_share. unfold share. simpl. change (active (Process.put_count n x)) with (active x). rewrite !Z.gtb_ltb.
      destruct (Z.ltb_spec 0 n), (Z.ltb_spec 0 (Process.suspend_count_ x)); lia || done. }
  exists (mkSys (put_process p (Process.put_count n x) (put_threads T' (tasks s))) (todo s) K' (short s)). split; [|by apply (recount_inv root s p x)].
  rewrite Z.gtb_ltb. destruct (active_cases x Ha) as [-> | ->]; (destruct (Z.ltb_spec 0 (Process.suspend_count_ x)); [|lia]); simpl; fold n; rewrite ET; done.
Qed.
