(* ===== verification/TaskThreadFacts.v ===== *)
(** * Correctness of tasks: threads

    Threads that are created, started, suspended, that exit with their process, leave
    it and are destroyed, with the invariant of [TaskFacts.v]. *)

From S2P Require Import Prelude Zx JobPolicy Thread Tasks TaskSystem TaskFacts TaskProcessFacts.
Import Tasks ThreadState Thread.

(** ** Suspend tokens of threads *)

Lemma put_thread_sys root s t y y' K' :
  inv root s -> threads (tasks s) !! t = Some y -> process_ y' = process_ y ->
  inv_t (<[t := y']> (threads (tasks s))) (processes (tasks s)) (pending s) K' ->
  inv root (mkSys (put_thread t y' (tasks s)) (todo s) K' (short s)).
Proof.
  intros [It Ip Ij Ipj] Ht Ep It'. constructor; try done. simpl. apply (inv_p_threads (threads (tasks s))); [done|]. by apply (put_thread_process _ _ y).
Qed.

Lemma suspend_thread_inv root s t y :
  inv root s -> threads (tasks s) !! t = Some y -> exists s', run s (SuspendThread t) = Some s' /\ inv root s'.
Proof.
  intros I Ht. pose proof I as [It Ip Ij Ipj]. destruct (t_process _ _ _ _ It t y Ht) as (p & HP & _).
  pose proof (t_suspend _ _ _ _ It t y p Ht HP) as Hs. pose proof (times_nonneg (thread_token t) (tokens s)). pose proof (share_range y p).
  destruct (Suspend_spec (times (thread_token t) (tokens s) + share y p) y) as (st & y' & Es & E1 & E2 & E3 & E4 & E5 & E6); [by apply (t_place _ _ _ _ It t) | lia | done|].
  unfold run. rewrite Ht. cbn [mbind option_bind]. rewrite Es. simpl. eexists. split; [done|]. apply (put_thread_sys root s t y); try done.
  apply (put_thread_inv _ _ _ (tokens s) _ t y); try done; try (by rewrite E2); try (by rewrite E4).
  - intros p' HP'. assert (p' = p) as -> by congruence. unfold suspend_ok, share. rewrite E2. fold (share y p). case_bool_decide as Hst.
    + simpl. rewrite decide_True by done. by rewrite <- Z.add_assoc, Z.add_comm.
    + destruct E6 as [?|E6]; [done|]. apply (count_ok_dying (times (thread_token t) (tokens s) + share y p + 1)); [by rewrite E4 | lia | done].
  - intros k Hk. case_bool_decide; [|done]. simpl. by rewrite decide_False.
Qed.

Lemma resume_thread_inv root s t :
  inv root s -> thread_token t ∈ tokens s -> exists s', run s (ResumeThread t) = Some s' /\ inv root s'.
Proof.
  intros I Hin. pose proof I as [It Ip Ij Ipj]. destruct (t_token _ _ _ _ It t Hin) as [y Ht]. destruct (t_process _ _ _ _ It t y Ht) as (p & HP & _).
  pose proof (t_suspend _ _ _ _ It t y p Ht HP) as Hs. pose proof (proj1 (times_in _ _) Hin). pose proof (share_range y p).
  destruct (Resume_spec (times (thread_token t) (tokens s) + share y p) y) as (y' & Es & E1 & E2 & E3 & E4 & E5); [by apply (t_place _ _ _ _ It t) | lia | done|].
  unfold run. rewrite Ht. cbn [mbind option_bind]. rewrite Es. simpl. eexists. split; [done|]. apply (put_thread_sys root s t y); try done.
  apply (put_thread_inv _ _ _ (tokens s) _ t y); try done; try (by rewrite E2); try (by rewrite E4).
  - intros p' HP'. assert (p' = p) as -> by congruence. unfold suspend_ok, share. rewrite E2. fold (share y p). rewrite times_drop, decide_True by done.
    by replace (times (thread_token t) (tokens s) - 1 + share y p) with (times (thread_token t) (tokens s) + share y p - 1) by lia.
  - intros k Hk. rewrite times_drop, decide_False by done. lia.
Qed.

(** ** The first and the last of a thread *)

Lemma create_thread_inv root s p x t :
  inv root s -> processes (tasks s) !! p = Some x -> Process.has_handle x = true -> threads (tasks s) !! t = None ->
  exists s', run s (CreateThread p t) = Some s' /\ inv root s'.
Proof.
  intros I HP Hh Hnew. pose proof I as [[I1 I2 I3 I4 I5 I6 I7 I8 I9 I9' I10] Ip Ij Ipj]. simpl. eexists. split; [done|]. set (y := put_state _ _ _).
  pose proof (q_all _ _ _ Ip p x HP) as O. pose proof (q_handle _ _ _ _ O Hh) as Hal.
  assert (forall u r z, processes (tasks s) !! r = Some z -> u ∈ Process.thread_list_ z -> u <> t) as Hne.
  { intros u r z Hz Hu ->. destruct (proj2 (I5 r z Hz) t Hu) as (y0 & ? & _). congruence. }
  constructor; try done; simpl.
  - constructor; try done.
    + intros u z. rewrite lookup_insert_Some. intros [[<- <-]|[_ Hu]]; [by exists x | by apply (I1 u)].
    + intros u z. rewrite lookup_insert_Some. intros [[<- <-]|[_ Hu]]; [done | by apply (I2 u)].
    + intros u z r. rewrite lookup_insert_Some. intros [[<- <-]|[_ Hu]]; [|by apply I3]. intros Hr. split; [|done]. intros Hin. by destruct (Hne t _ r Hr Hin).
    + intros u z r. rewrite lookup_insert_Some. intros [[<- <-]|[_ Hu]]; [|by apply I4]. intros Hr.
      assert (times (thread_token t) (tokens s) = 0) as E by (apply times_not_in; intros Hk; destruct (I9 t Hk); congruence). rewrite E. by split.
    + intros r z Hz. destruct (I5 r z Hz) as [H1 H2]. split; [done|]. intros u Hu. rewrite lookup_insert_ne; [by apply H2|]. intros ->. by destruct (Hne u r z Hz Hu).
    + intros r z u y0 Hz Hst Hu. rewrite lookup_insert_ne; [by apply (I7 r z)|]. intros ->. by destruct (Hne u r z Hz Hu).
    + intros u Hu. destruct (decide (u = t)) as [->|?]; [rewrite lookup_insert_eq; by eexists | rewrite lookup_insert_ne by done; by apply I9].
    + intros r u Hu. destruct (I10 r u Hu) as (z & Hz & ?). exists z. rewrite lookup_insert_ne by congruence. done.
  - destruct Ip as [Q1 Q2]. constructor; [|done]. intros r z Hz. pose proof (Q1 r z Hz) as [O1 O2 O3 O4 O5 O6 O7 O8 O9 O10 O11]. constructor; try done.
    intros q Hq. destruct (O5 q Hq) as (? & ? & Hnh & ? & ? & ? & H). split_and!; try done. intros u y0. rewrite lookup_insert_Some.
    intros [[<- <-]|[_ Hu]]; [|by apply (H u)]. simpl. intros <-. congruence.
Qed.

Lemma drop_thread_inv root s t y :
  inv root s -> threads (tasks s) !! t = Some y -> at_ y = p_new \/ at_ y = p_gone -> thread_token t ∉ tokens s ->
  exists s', run s (DropThread t) = Some s' /\ inv root s'.
Proof.
  intros I Ht Hat Hk. pose proof I as [[I1 I2 I3 I4 I5 I6 I7 I8 I9 I9' I10] Ip Ij Ipj]. pose proof (I2 t y Ht) as [Hpl _].
  assert (destructible y = true) as Hd by (unfold destructible; destruct Hat as [E|E]; rewrite E in Hpl; by rewrite Hpl).
  assert (in_list (at_ y) = false) as Hil by by destruct Hat as [-> | ->].
  assert (forall u r z, processes (tasks s) !! r = Some z -> u ∈ Process.thread_list_ z -> u <> t) as Hne.
  { intros u r z Hz Hu ->. destruct (proj2 (I5 r z Hz) t Hu) as (y0 & ? & <-). assert (y0 = y) as -> by congruence.
    apply (I3 t y z Ht Hz) in Hu. congruence. }
  unfold run. rewrite Ht. cbn [mbind option_bind]. rewrite Hd. eexists. split; [done|]. constructor; try done; simpl.
  - constructor; try done.
    + intros u z [_ Hu]%lookup_delete_Some. by apply (I1 u).
    + intros u z [_ Hu]%lookup_delete_Some. by apply (I2 u).
    + intros u z r [_ Hu]%lookup_delete_Some. by apply I3.
    + intros u z r [_ Hu]%lookup_delete_Some. by apply I4.
    + intros r z Hz. destruct (I5 r z Hz) as [H1 H2]. split; [done|]. intros u Hu. rewrite lookup_delete_ne; [by apply H2|]. intros ->. by destruct (Hne u r z Hz Hu).
    + intros r z u y0 Hz Hst Hu [_ Hu']%lookup_delete_Some. by apply (I7 r z u).
    + intros u Hu. rewrite lookup_delete_ne by congruence. by apply I9.
    + intros r u Hu. destruct (I10 r u Hu) as (z & Hz & Hz' & ?). exists z. rewrite lookup_delete_ne; [done|]. intros ->. assert (z = y) as -> by congruence.
      by destruct Hat; congruence.
  - apply (inv_p_threads (threads (tasks s))); [done|]. intros u z [_ Hu]%lookup_delete_Some. by exists z.
Qed.

(** ** Threads and the process they are in *)

(** A process with a thread is neither being created nor destroyed, and not gone. *)
Lemma process_of_thread root s t y :
  inv root s -> threads (tasks s) !! t = Some y ->
  exists x, processes (tasks s) !! process_ y = Some x /\ Process.alive x = true /\ (forall q, AddChildProcess q (process_ y) ∉ pending s).
Proof.
  intros I Ht. pose proof I as [It Ip Ij Ipj]. destruct (t_process _ _ _ _ It t y Ht) as (x & HP & Ha). exists x. split_and!; try done.
  intros q Hq. destruct (q_creating _ _ _ _ (q_all _ _ _ Ip _ x HP) q Hq) as (_ & _ & _ & _ & _ & _ & H). by apply (H t y Ht).
Qed.

Lemma listed_state root s t y x :
  inv root s -> threads (tasks s) !! t = Some y -> processes (tasks s) !! process_ y = Some x -> in_list (at_ y) = true ->
  t ∈ Process.thread_list_ x /\ (Process.state_ x = Process.RUNNING \/ Process.state_ x = Process.DYING).
Proof.
  intros [It Ip Ij Ipj] Ht HP Hil. apply (t_list _ _ _ _ It t y x Ht HP) in Hil. split; [done|].
  pose proof (t_lists _ _ _ _ It _ x HP) as Hl. unfold list_ok in Hl. destruct (Process.state_ x); [| by left | by right|];
    rewrite Hl in Hil; by apply not_elem_of_nil in Hil.
Qed.

Lemma process_exit_inv root s t y rc :
  inv root s -> threads (tasks s) !! t = Some y -> at_ y = p_user -> exists s', run s (ProcessExit t rc) = Some s' /\ inv root s'.
Proof.
  intros I Ht Hat. pose proof I as [It Ip Ij Ipj]. destruct (process_of_thread root s t y I Ht) as (x & HP & Ha & Hnew).
  destruct (listed_state root s t y x I Ht HP) as [Hin Hst]; [by rewrite Hat|]. pose proof (q_all _ _ _ Ip _ x HP) as O.
  unfold run, process_exit. rewrite Ht. cbn [mbind option_bind]. rewrite HP. cbn [mbind option_bind]. destruct Hst as [Hst|Hst]; rewrite Hst.
  - rewrite (q_retcode _ _ _ _ O) by (unfold active; by rewrite Hst). simpl. set (x1 := Process.put_retcode rc x).
    destruct (set_dying (threads (tasks s)) (processes (tasks s)) (jobs (tasks s)) (halted (tasks s)) (pending s) (pending s) (tokens s) (process_ y) x It HP
                ltac:(done) x1) as (T' & E & It' & HT); try done.
    { intros El. rewrite El in Hin. by apply not_elem_of_nil in Hin. }
    unfold put_process. rewrite E. simpl. eexists. split; [done|].
    apply (process_change_inv root s T' (tokens s) (process_ y) x (Process.put_state Process.DYING x1)); try done; [|by right].
    simpl. by rewrite Hst.
  - unfold Tasks.SetStateLocked. rewrite HP. simpl. rewrite Hst. simpl. eexists. split; [done|]. by destruct s as [[] ? ? ?].
Qed.

(** The thread starts; when its process is suspended it starts suspended. *)
Lemma MakeRunnable_spec suspended n y :
  place_ok y -> lifecycle (state_ y) = INITIALIZED -> count_ok n y -> 0 <= n ->
  exists y', MakeRunnable suspended y = Some (ZX_OK, y') /\ process_ y' = process_ y /\ at_ y' = p_user /\ place_ok y' /\
    count_ok (n + if suspended then 1 else 0) y' /\ at_ y = p_new.
Proof.
  intros [Hp Hk] Hl [Hc Heq] Hn. destruct y as [pr v c sg st kl sl at']. simpl in *. assert (at' = p_new /\ v = INITIALIZED_IDLE) as [-> ->].
  { destruct at'; destruct_or?; destruct_and?; simpl in *; by subst. }
  destruct Hk as [Hk Hsl]. assert (sl = false) as -> by (destruct sl; [by destruct (Hsl eq_refl) | done]). assert (kl = false) as -> by (destruct kl; [by specialize (Hk eq_refl) | done]).
  destruct (Heq eq_refl) as [E2 _]. simpl in E2. unfold MakeRunnable. simpl.
  destruct suspended; simpl; (eexists; split; [reflexivity|]); split_and!; try done;
    try (destruct (_ =? 0); done); try (by destruct (_ =? 0); split_and!; simpl; auto).
  all: unfold count_ok, IsDyingOrDead; simpl.
  all: match goal with |- context [?a =? 0] => destruct (Z.eqb_spec a 0) | _ => idtac end; simpl; (split; [lia|]); intros _; (split; [lia|]); intros _.
  all: rewrite Z.gtb_ltb; symmetry; first [apply Z.ltb_ge; lia | apply Z.ltb_lt; lia | lia].
Qed.

Lemma start_update T P L K p x t y y' :
  let x' := Process.put_state Process.RUNNING (Process.put_threads (Process.thread_list_ x ++ [t]) x) in
  inv_t T P L K -> P !! p = Some x -> active x = true -> T !! t = Some y -> process_ y = p -> at_ y = p_new ->
  process_ y' = p -> at_ y' = p_user -> place_ok y' ->
  count_ok (times (thread_token t) K + if Process.suspend_count_ x >? 0 then 1 else 0) y' ->
  threads_update T (<[t := y']> T) p x' K.
Proof.
  intros x' It HP Ha Ht Ep Hat Ep' Hat' Hp Hc u. destruct (decide (u = t)) as [->|Hne].
  - rewrite Ht, lookup_insert_eq. exists y'. split; [done|]. rewrite decide_True by done. unfold thread_update. split_and!; try done.
    + rewrite Hat'. simpl. split; [done|]. intros _. apply elem_of_app. right. by apply list_elem_of_singleton.
    + unfold suspend_ok, share. rewrite Hat'. simpl. by destruct (_ >? _).
    + by rewrite Hat.
  - rewrite lookup_insert_ne by done. destruct (T !! u) as [z|] eqn:Hu; [|done]. exists z. split; [done|]. destruct (decide (process_ z = p)) as [Ez|]; [|done].
    unfold thread_update. split_and!; try done.
    + by apply (t_place _ _ _ _ It u).
    + simpl. rewrite elem_of_app, list_elem_of_singleton. rewrite <- (thread_listed T P L K p x It HP u z Hu Ez). tauto.
    + apply (suspend_ok_share _ _ x); [unfold share; simpl; by rewrite Ha|]. by apply (thread_suspend_ok T P L K K p x).
Qed.

Lemma start_thread_inv root s t y initial :
  inv root s -> threads (tasks s) !! t = Some y -> exists s', run s (StartThread t initial) = Some s' /\ inv root s'.
Proof.
  intros I Ht. pose proof I as [It Ip Ij Ipj]. destruct (process_of_thread root s t y I Ht) as (x & HP & Hal & Hnew). set (p := process_ y) in *.
  unfold run, AddInitializedThread. rewrite Ht. cbn [mbind option_bind]. fold p. rewrite HP. cbn [mbind option_bind].
  case_bool_decide as Hst; [|eexists; split; [done | by destruct s as [[] ? ? ?]]]. cbn [negb].
  destruct (decide (lifecycle (state_ y) = INITIALIZED)) as [Hl|Hl].
  2: { unfold MakeRunnable. rewrite (bool_decide_eq_false_2 _ Hl). eexists. split; [done | by destruct s as [[] ? ? ?]]. }
  assert (active x = true) as Ha by (unfold active; rewrite Hst; by destruct initial).
  pose proof (t_suspend _ _ _ _ It t y x Ht HP) as Hs. pose proof (t_place _ _ _ _ It t y Ht) as Hpl.
  destruct (MakeRunnable_spec (Process.suspend_count_ x >? 0) (times (thread_token t) (tokens s) + share y x) y Hpl Hl Hs) as (y' & Em & E1 & E2 & E3 & E4 & E5);
    [pose proof (times_nonneg (thread_token t) (tokens s)); pose proof (share_range y x); lia|].
  unfold share in E4. rewrite E5 in E4. simpl in E4. rewrite Z.add_0_r in E4.
  pose proof (start_update _ _ _ _ p x t y y' It HP Ha Ht eq_refl E5 E1 E2 E3 E4) as HU.
  set (x' := Process.put_state Process.RUNNING (Process.put_threads (Process.thread_list_ x ++ [t]) x)) in *.
  exists (mkSys (mkTasks (<[t := y']> (threads (tasks s))) (<[p := x']> (processes (tasks s))) (jobs (tasks s)) (halted (tasks s))) (todo s) (tokens s) (short s)). split.
  - rewrite Em. simpl. pose proof (t_lists _ _ _ _ It p x HP) as Hlist. unfold list_ok in Hlist. rewrite Hst in Hlist. destruct initial.
    + rewrite bool_decide_eq_true_2 by by rewrite bool_decide_eq_true_2. unfold Tasks.SetStateLocked. simpl. rewrite lookup_insert_eq. simpl. rewrite Hst. simpl.
      unfold put_process. simpl. by rewrite insert_insert_eq.
    + rewrite bool_decide_eq_true_2 by by rewrite bool_decide_eq_false_2. simpl. unfold with_tasks, put_process, x', Process.put_state. simpl. by rewrite <- Hst.
  - assert (t ∉ Process.thread_list_ x) as Hni.
    { intros Hin. apply (t_list _ _ _ _ It t y x Ht HP) in Hin. by rewrite E5 in Hin. }
    apply (process_change_inv root s (<[t := y']> (threads (tasks s))) (tokens s) p x x'); try done; [by apply (update_back _ _ _ _ _ HU) | | | by right].
    + destruct (t_threads _ _ _ _ It p x HP) as [H1 H2].
      apply (update_process_inv (threads (tasks s)) _ _ (pending s) _ (tokens s) (tokens s) p x); try done; simpl.
      * apply NoDup_app. split_and!; [done | | apply NoDup_singleton]. intros u Hu ->%list_elem_of_singleton. done.
      * intros u [Hu|Hu%list_elem_of_singleton]%elem_of_app; [by apply H2 | subst; by exists y].
      * unfold list_ok. simpl. by destruct (Process.thread_list_ x).
      * intros _. by apply (t_count _ _ _ _ It p x).
      * by left.
    + simpl. rewrite Hst. by destruct initial.
Qed.

(** The thread leaves its process, which dies with its last thread. *)
Lemma leave_update T P L K p x t y x' :
  inv_t T P L K -> P !! p = Some x -> T !! t = Some y -> process_ y = p -> at_ y = p_leaving ->
  Process.thread_list_ x' = filter (fun u => u <> t) (Process.thread_list_ x) -> Process.suspend_count_ x' = Process.suspend_count_ x ->
  (Process.state_ x' = Process.state_ x \/ Process.thread_list_ x' = [] /\ Process.state_ x' = Process.DEAD) ->
  threads_update T (<[t := put_place p_left y]> T) p x' K.
Proof.
  intros It HP Ht Ep Hat El Ec Hst u. pose proof (t_place _ _ _ _ It t y Ht) as [Hpl Hk]. rewrite Hat in Hpl. destruct (decide (u = t)) as [->|Hne].
  - rewrite Ht, lookup_insert_eq. eexists. split; [done|]. rewrite decide_True by done. unfold thread_update. split_and!; try done.
    + apply dead_place; [by apply (t_place _ _ _ _ It t) | done | by left].
    + rewrite El, list_elem_of_filter. simpl. split; [tauto | done].
    + apply (suspend_ok_out _ _ x); [done|]. pose proof (thread_suspend_ok T P L K K p x It HP (fun _ => eq_refl) t y Ht Ep) as Hs.
      unfold suspend_ok in *. apply (count_ok_same _ y); [done | unfold IsDyingOrDead; simpl; by rewrite Hpl|]. apply (count_ok_dying (times (thread_token t) K + share y x)); [unfold IsDyingOrDead; by rewrite Hpl| |done].
      pose proof (share_range y x). unfold share at 1. simpl. lia.
    + intros _ Hin. rewrite El, list_elem_of_filter in Hin. tauto.
  - rewrite lookup_insert_ne by done. destruct (T !! u) as [z|] eqn:Hu; [|done]. exists z. split; [done|]. destruct (decide (process_ z = p)) as [Ez|]; [|done].
    assert (u ∈ Process.thread_list_ x' <-> in_list (at_ z) = true) as Hl by (rewrite El, list_elem_of_filter, <- (thread_listed T P L K p x It HP u z Hu Ez); tauto).
    pose proof (thread_suspend_ok T P L K K p x It HP (fun _ => eq_refl) u z Hu Ez) as Hs.
    unfold thread_update. split_and!; try done.
    + by apply (t_place _ _ _ _ It u).
    + destruct Hst as [Hst|[Hnil _]]; [apply (suspend_ok_share _ _ x); [unfold share, active; by rewrite Hst, Ec | done]|].
      apply (suspend_ok_out _ _ x); [|done]. apply not_true_is_false. rewrite <- Hl, Hnil. apply not_elem_of_nil.
    + destruct Hst as [Hst|[_ Hst]]; [|congruence]. intros Hd Hin. rewrite Hst in Hd. apply (t_dying _ _ _ _ It p x u); try done. rewrite El, list_elem_of_filter in Hin. tauto.
Qed.

Lemma leave_process_inv root s t y x x' ws :
  inv root s -> threads (tasks s) !! t = Some y -> at_ y = p_leaving -> processes (tasks s) !! process_ y = Some x ->
  Process.thread_list_ x' = filter (fun u => u <> t) (Process.thread_list_ x) -> Process.suspend_count_ x' = Process.suspend_count_ x ->
  (Process.state_ x' = Process.state_ x /\ Process.thread_list_ x' <> [] /\ Process.retcode_ x' = Process.retcode_ x /\ ws = [ReleaseThread (process_ y) t] \/
   Process.thread_list_ x' = [] /\ Process.state_ x' = Process.DEAD /\ ws = [FinishDeadProcess (process_ y); ReleaseThread (process_ y) t]) ->
  Process.job_ x' = Process.job_ x -> Process.completely_dead_ x' = Process.completely_dead_ x -> Process.signals_ x' = Process.signals_ x ->
  Process.has_handle x' = Process.has_handle x -> Process.alive x' = Process.alive x ->
  inv root (mkSys (mkTasks (<[t := put_place p_left y]> (threads (tasks s))) (<[process_ y := x']> (processes (tasks s))) (jobs (tasks s)) (halted (tasks s)))
             (ws :: todo s) (tokens s) (short s)).
Proof.
  intros I Ht Hat HP El Ec Hst Ej Ecd Es Eh Ea. pose proof I as [It Ip Ij Ipj]. set (p := process_ y) in *.
  destruct (process_of_thread root s t y I Ht) as (x0 & HP0 & Hal & Hnew). fold p in HP0, Hnew. assert (x0 = x) as -> by congruence. clear HP0.
  destruct (listed_state root s t y x I Ht HP) as [Hin Hrun]; [by rewrite Hat|]. pose proof (q_all _ _ _ Ip p x HP) as O.
  assert (threads_update (threads (tasks s)) (<[t := put_place p_left y]> (threads (tasks s))) p x' (tokens s)) as HU.
  { apply (leave_update _ _ _ _ p x t y x' It HP Ht eq_refl Hat El Ec). destruct Hst as [(? & _)|(? & ? & _)]; [by left | by right]. }
  pose proof (start_swap ws s) as S.
  assert (forall w, w ∈ ws -> process_work p w = true) as Hws.
  { intros w Hw. destruct Hst as [(_ & _ & _ & ->)|(_ & _ & ->)]; repeat (apply elem_of_cons in Hw as [->|Hw]; [own_work|]); by apply not_elem_of_nil in Hw. }
  assert (Process.state_ x <> Process.DEAD) as Hnd by (destruct Hrun as [-> | ->]; done).
  apply (process_step_inv root s _ (halted (tasks s)) (ws :: todo s) (tokens s) p x x'); try done.
  - by apply (update_back _ _ _ _ _ HU).
  - apply (swap_other _ _ _ _ S); [by intros a ?%not_elem_of_nil | done].
  - destruct (t_threads _ _ _ _ It p x HP) as [H1 H2]. apply (update_process_inv (threads (tasks s)) _ _ (pending s) _ (tokens s) (tokens s) p x); try done.
    + congruence.
    + rewrite El. by apply NoDup_filter.
    + intros u. rewrite El, list_elem_of_filter. intros [_ Hu]. by apply H2.
    + unfold list_ok. destruct Hst as [(-> & ? & _)|(? & -> & _)]; [|done]. by destruct Hrun as [-> | ->].
    + intros Hact. rewrite Ec. apply (t_count _ _ _ _ It p x HP). destruct Hst as [(Hst & _)|(_ & Hst & _)]; unfold active in *; by rewrite Hst in Hact.
    + congruence.
    + intros r u Hr. destruct (decide (ReleaseThread r u ∈ ws)) as [Hr'|Hn]; [right | left; rewrite (swap_same _ _ _ _ S); [lia | apply not_elem_of_nil | done]]. assert (ReleaseThread r u = ReleaseThread p t) as [= -> ->].
      { destruct Hst as [(_ & _ & _ & ->)|(_ & _ & ->)]; repeat (apply elem_of_cons in Hr' as [?|Hr']; [done|]); by apply not_elem_of_nil in Hr'. }
      eexists. rewrite lookup_insert_eq. split_and!; try done. rewrite (swap_count _ _ _ _ S _ 0 1); [|done|].
      * assert (times (ReleaseThread p t) (pending s) = 0); [|lia]. apply times_not_in. intros Hr2. destruct (t_release _ _ _ _ It p t Hr2) as (z & Hz & Hz' & _). congruence.
      * destruct Hst as [(_ & _ & _ & ->)|(_ & _ & ->)]; count_work.
  - apply (proc_ok_threads (threads (tasks s))); [by apply (update_back _ _ _ _ _ HU)|]. destruct Hst as [(Hst & Hne & Er & ->)|(Hnil & Hst & ->)].
    + apply (proc_ok_keep _ (pending s) _ p x); try done.
      * by rewrite Hst.
      * intros H. unfold active in *. by rewrite Hst in H.
      * intros H. rewrite Hst in H. by destruct Hrun; congruence.
      * intros w Hw. apply (swap_same _ _ _ _ S); [apply not_elem_of_nil|]. intros ->%list_elem_of_singleton. done.
      * intros w Hw _. destruct (swap_in _ _ _ _ S _ Hw) as [->%list_elem_of_singleton|?]; [by right | by left].
    + apply (proc_ok_dies _ (pending s) _ p x); try done.
      * rewrite (swap_count _ _ _ _ S (FinishDeadProcess p) 0 1); [lia | done | count_work].
      * intros w Hw _. destruct (swap_in _ _ _ _ S _ Hw) as [Hw'|?]; [right | by left]. apply elem_of_cons in Hw' as [->|Hw']; [by left | apply list_elem_of_singleton in Hw' as ->; right; by exists t].
  - intros q Hq. destruct (swap_in _ _ _ _ S _ Hq) as [Hq'|?]; [|done]. destruct Hst as [(_ & _ & _ & ->)|(_ & _ & ->)];
      repeat (apply elem_of_cons in Hq' as [?|Hq']; [done|]); by apply not_elem_of_nil in Hq'.
  - intros j z _ _. rewrite Ecd. intros Hcd. by apply O in Hcd.
  - intros Hs j z Hz Hjs Hjp. destruct (pj_kill_procs _ _ _ _ Ipj Hs j z p x Hz Hjs Hjp HP) as [H|[H|[rc H]]]; [left | congruence|].
    + destruct Hst as [(Hst & _)|(_ & Hst & _)]; unfold active in *; by rewrite Hst.
    + right; right. exists rc. apply (swap_keep _ _ _ _ S); [done | apply not_elem_of_nil].
Qed.

Lemma thread_leaves_inv root s t y :
  inv root s -> threads (tasks s) !! t = Some y -> at_ y = p_leaving -> exists s', run s (ThreadLeaves t) = Some s' /\ inv root s'.
Proof.
  intros I Ht Hat. destruct (process_of_thread root s t y I Ht) as (x & HP & Hal & Hnew).
  destruct (listed_state root s t y x I Ht HP) as [Hin Hrun]; [by rewrite Hat|].
  unfold run, RemoveThread. rewrite Ht. cbn [mbind option_bind]. rewrite HP. cbn [mbind option_bind]. rewrite bool_decide_eq_true_2 by done. cbn [negb].
  set (l := filter (fun u => u <> t) (Process.thread_list_ x)). case_bool_decide as Hl.
  - unfold Tasks.SetStateLocked. simpl. rewrite lookup_insert_eq. simpl.
    rewrite (bool_decide_eq_false_2 (Process.state_ x = Process.DEAD)) by (destruct Hrun as [-> | ->]; done). simpl. eexists. split; [done|].
    unfold start, put_thread, put_process. simpl. rewrite insert_insert_eq.
    apply (leave_process_inv root s t y x); try done. by right.
  - simpl. eexists. split; [done|]. unfold start, put_thread, put_process. simpl. apply (leave_process_inv root s t y x); try done. by left.
Qed.
