(* ===== verification/TaskWorkFacts.v ===== *)
(** * Correctness of tasks: the work on processes

    Handles to processes that come and go, processes that are killed, die and are
    destroyed, with the invariant of [TaskFacts.v]. *)

From S2P Require Import Prelude Zx JobPolicy Thread Tasks TaskSystem TaskFacts TaskProcessFacts.
Import Tasks ThreadState Thread.

(** A process changes, with its threads, and the work [old] on it becomes [new]. *)
Lemma process_move root s T' h' todo' p x x' old new :
  let T := threads (tasks s) in let P := processes (tasks s) in
  inv root s -> P !! p = Some x -> swap old new (pending s) (concat todo') ->
  (forall w, w ∈ old -> process_work p w = true) ->
  (forall w, w ∈ new -> process_work p w = true /\ match w with AddChildProcess _ _ => False | _ => True end) ->
  (forall t y', T' !! t = Some y' -> exists y, T !! t = Some y /\ process_ y = process_ y') ->
  inv_t T' (<[p := x']> P) (concat todo') (tokens s) -> proc_ok T (concat todo') p x' -> Process.job_ x' = Process.job_ x ->
  (Process.completely_dead_ x' = true ->
     Process.completely_dead_ x = true /\ (forall j, (RemoveProcess j p ∉ old) /\ (DestroyProcess j p ∉ old)) \/ RemoveProcess (Process.job_ x) p ∈ concat todo') ->
  (active x' = false \/ Process.alive x' = false \/ (forall rc, KillProcess p rc ∉ old) /\ active x' = active x /\ Process.alive x' = Process.alive x) ->
  inv root (mkSys (mkTasks T' (<[p := x']> P) (jobs (tasks s)) h') todo' (tokens s) (short s)).
Proof.
  intros T P I HP S Ho Hn HT It' O' Ej Hcd Hk. pose proof I as [It Ip Ij Ipj].
  apply (process_step_inv root s T' h' todo' (tokens s) p x x'); try done.
  - apply (swap_other _ _ _ _ S); [done|]. intros w Hw. by apply Hn.
  - by apply (proc_ok_threads T).
  - intros q Hq. destruct (swap_in _ _ _ _ S _ Hq) as [Hq'|?]; [|done]. by apply Hn in Hq' as [_ ?].
  - intros j y Hy Hin Hd. destruct (pj_procs _ _ _ _ Ipj j y p Hy Hin) as (x0 & HP0 & Hj). assert (x0 = x) as -> by (unfold P in HP; congruence).
    destruct (Hcd Hd) as [[Hd0 Hout]|H]; [|left; by rewrite <- Hj]. destruct (Hout j) as [Ho1 Ho2].
    destruct (pj_leaving _ _ _ _ Ipj j y p x Hy Hin HP Hd0) as [?|?]; [left | right]; by apply (swap_keep _ _ _ _ S).
  - intros Hs j y Hy Hst Hin. destruct Hk as [?|[?|(Hk & -> & ->)]]; [by left | by right; left|].
    destruct (pj_kill_procs _ _ _ _ Ipj Hs j y p x Hy Hst Hin HP) as [?|[?|[rc Hrc]]]; [by left | by right; left | right; right]. exists rc. by apply (swap_keep _ _ _ _ S).
Qed.

(** No thread is released. *)
Definition no_release (l : list work) : Prop := forall p t, ReleaseThread p t ∉ l.
Lemma swap_release old new L L' : swap old new L L' -> no_release new -> forall p t, times (ReleaseThread p t) L' <= times (ReleaseThread p t) L.
Proof. intros S Hn p t. specialize (S (ReleaseThread p t)). specialize (Hn p t). rewrite times_not_in in Hn. pose proof (times_nonneg (ReleaseThread p t) old). lia. Qed.

Ltac in_work H := repeat (apply elem_of_cons in H as [H|H]; [try (subst; done)|]); try (by apply not_elem_of_nil in H).
Ltac not_work := let H := fresh "Hin" in intros H; in_work H; congruence.

(** The work is no more than done. *)
Definition light_work (w : work) : bool := match w with KillProcess _ _ | ReleaseThread _ _ | RemoveProcess _ _ | ZeroHandles _ => true | _ => false end.

Lemma proc_ok_done T L L' p x w :
  proc_ok T L p x -> swap [w] [] L L' -> w ∈ L -> process_work p w = true -> light_work w = true -> (w = ZeroHandles p -> Process.state_ x <> Process.INITIAL) ->
  proc_ok T L' p x.
Proof.
  intros O S Hw Hp Hl Hz. apply (proc_ok_keep T L L' p x x); try done.
  - apply O.
  - intros H1 H2. destruct (q_zero _ _ _ _ O H1 H2) as [H|H].
    + destruct (q_creating _ _ _ _ O _ H) as (_ & _ & _ & _ & _ & H' & _). rewrite (H' w Hw Hp) in Hl. done.
    + right. apply (swap_keep _ _ _ _ S); [done|]. intros H'%list_elem_of_singleton. by apply Hz.
  - intros w' Hk. apply (swap_same _ _ _ _ S); [|apply not_elem_of_nil]. intros ->%list_elem_of_singleton. by destruct w.
  - intros w' Hw' _. destruct (swap_in _ _ _ _ S _ Hw') as [H|H]; [by apply not_elem_of_nil in H | by left].
Qed.

(** What holds when there is work for a process. *)
Lemma working root s p w : inv root s -> w ∈ pending s -> process_work p w = true ->
  exists x, processes (tasks s) !! p = Some x /\ proc_ok (threads (tasks s)) (pending s) p x /\
    (forall q, AddChildProcess q p ∈ pending s -> w = AddChildProcess q p) /\ (forall q, DestroyProcess q p ∈ pending s -> w = DestroyProcess q p).
Proof.
  intros I Hw Hp. destruct (process_exists root s p w I Hw Hp) as [x HP]. pose proof (q_all _ _ _ (i_p _ _ I) p x HP) as O. exists x. split_and!; try done.
  - intros q Hq. destruct (q_creating _ _ _ _ O q Hq) as (_ & _ & _ & _ & _ & H & _). by apply H.
  - intros q Hq. destruct (q_destroy _ _ _ _ O q Hq) as (_ & _ & _ & _ & _ & H). by apply H.
Qed.

(** Nothing is left to do. *)
Lemma process_idle root s h' todo' p x w :
  inv root s -> processes (tasks s) !! p = Some x -> swap [w] [] (pending s) (concat todo') -> w ∈ pending s -> process_work p w = true ->
  (forall j, w <> RemoveProcess j p) -> light_work w = true -> (w = ZeroHandles p -> Process.state_ x <> Process.INITIAL) ->
  (forall rc, w = KillProcess p rc -> active x = false) ->
  inv root (mkSys (mkTasks (threads (tasks s)) (processes (tasks s)) (jobs (tasks s)) h') todo' (tokens s) (short s)).
Proof.
  intros I HP S Hin Hw Hr Hl Hz Hk. pose proof I as [It Ip Ij Ipj]. rewrite <- (insert_id (processes (tasks s)) p x HP).
  apply (process_move root s _ h' todo' p x x [w] []); try done.
  - by intros a ->%list_elem_of_singleton.
  - by intros a ?%not_elem_of_nil.
  - intros t y Hy. by exists y.
  - apply (put_process_inv_t _ _ (pending s) _ _ p x It HP); try done. apply (swap_release _ _ _ _ S). intros ? ? H. by apply not_elem_of_nil in H.
  - apply (proc_ok_done _ (pending s) _ p x w); try done. by apply (q_all _ _ _ Ip p x HP).
  - intros Hd. left. split; [done|]. intros j. rewrite !list_elem_of_singleton. split; [by intros E; apply (Hr j) | by intros <-].
  - destruct (active x) eqn:Ha; [|by left]. right; right. split_and!; try done. intros rc Hrc%list_elem_of_singleton. symmetry in Hrc. by apply Hk in Hrc.
Qed.

Lemma mkTasks_eta s : mkTasks (threads s) (processes s) (jobs s) (halted s) = s.
Proof. by destruct s. Qed.

Lemma run_work s i w k aj ap s' ws :
  todo s !! i = Some (w :: k) -> exec aj ap w (tasks s) = Some (s', ws) -> match w with KillJob _ _ => False | _ => True end ->
  run s (Work i aj ap) = Some (mkSys s' (<[i := ws ++ k]> (todo s)) (tokens s) (short s)).
Proof. intros Hi He Hw. unfold run. rewrite Hi. cbn [mbind option_bind]. rewrite He. destruct w; simpl; by rewrite ?orb_false_r. Qed.

(** ** Dying *)

(** Without threads, at once. *)
Lemma process_dies root s h' todo' p x x' w :
  inv root s -> processes (tasks s) !! p = Some x -> swap [w] [FinishDeadProcess p] (pending s) (concat todo') -> w ∈ pending s ->
  (w = ZeroHandles p \/ exists rc, w = KillProcess p rc) -> Process.thread_list_ x = [] -> Process.state_ x <> Process.DEAD -> Process.state_ x' = Process.DEAD ->
  Process.thread_list_ x' = Process.thread_list_ x -> Process.job_ x' = Process.job_ x -> Process.completely_dead_ x' = Process.completely_dead_ x ->
  Process.signals_ x' = Process.signals_ x -> Process.has_handle x' = Process.has_handle x -> Process.alive x' = Process.alive x ->
  inv root (mkSys (mkTasks (threads (tasks s)) (<[p := x']> (processes (tasks s))) (jobs (tasks s)) h') todo' (tokens s) (short s)).
Proof.
  intros I HP S Hin Hw Hnil Hst Hst' El Ej Ec Es Eh Ea. pose proof I as [It Ip Ij Ipj].
  assert (process_work p w = true /\ w <> FinishDeadProcess p /\ forall q, w <> AddChildProcess q p) as (Hpw & Hnf & Hna) by (destruct Hw as [->|[rc ->]]; split_and!; own_work).
  destruct (working root s p w I Hin Hpw) as (x0 & HP0 & O & Hnew & Hdes). assert (x0 = x) as -> by congruence.
  apply (process_move root s _ h' todo' p x x' [w] [FinishDeadProcess p]); try done.
  - by intros a ->%list_elem_of_singleton.
  - intros a ->%list_elem_of_singleton. split; [own_work | done].
  - intros t y Hy. by exists y.
  - apply (put_dead_inv_t _ _ (pending s) _ _ p x It HP); try done. apply (swap_release _ _ _ _ S). intros ? ? H. in_work H.
  - apply (proc_ok_dies _ (pending s) _ p x); try done.
    + rewrite (swap_count _ _ _ _ S _ 0 1); [lia | simpl; by rewrite decide_False | count_work].
    + intros q Hq. by apply (Hna q), Hnew.
    + intros a Ha _. destruct (swap_in _ _ _ _ S _ Ha) as [->%list_elem_of_singleton|?]; [by right; left | by left].
  - rewrite Ec. intros Hd. apply O in Hd. done.
  - left. unfold active. by rewrite Hst'.
Qed.

Lemma kill_process_inv root s i p rc k aj ap :
  inv root s -> todo s !! i = Some (KillProcess p rc :: k) -> exists s', run s (Work i aj ap) = Some s' /\ inv root s'.
Proof.
  intros I Hi. pose proof I as [It Ip Ij Ipj]. destruct (todo_swap _ _ _ _ [] Hi) as [Hin S0]. destruct (todo_swap _ _ _ _ [FinishDeadProcess p] Hi) as [_ S1].
  destruct (working root s p (KillProcess p rc) I Hin) as (x & HP & O & Hnew & Hdes); [own_work|].
  assert (Hidle : active x = false ->
    inv root (mkSys (tasks s) (<[i := [] ++ k]> (todo s)) (tokens s) (short s))).
  { intros Ha. apply (process_idle root s (halted (tasks s)) _ p x (KillProcess p rc)) in S0; try done; [by destruct (tasks s) | own_work]. }
  assert (exec aj ap (KillProcess p rc) (tasks s) = kill_process p rc (tasks s)) as Eex by done.
  unfold kill_process in Eex. rewrite HP in Eex. cbn [mbind option_bind] in Eex.
  destruct (decide (Process.state_ x = Process.DEAD)) as [Hd|Hd].
  { eexists. split; [eapply run_work; [done | by rewrite Eex, bool_decide_eq_true_2 | done]|]. apply Hidle. unfold active. by rewrite Hd. }
  rewrite (bool_decide_eq_false_2 _ Hd) in Eex. pose proof (t_lists _ _ _ _ It p x HP) as Hl.
  destruct (decide (Process.state_ x = Process.DYING)) as [Hdy|Hdy].
  { rewrite (bool_decide_eq_true_2 _ Hdy) in Eex. unfold list_ok in Hl. rewrite Hdy in Hl. rewrite (bool_decide_eq_false_2 _ Hl) in Eex. cbn [negb andb] in Eex.
    unfold Tasks.SetStateLocked in Eex. rewrite HP in Eex. cbn [mbind option_bind] in Eex. rewrite Hdy in Eex. simpl in Eex.
    eexists. split; [eapply run_work; [done | exact Eex | done]|]. apply Hidle. unfold active. by rewrite Hdy. }
  assert (active x = true) as Ha by (unfold active; by destruct (Process.state_ x)).
  rewrite (bool_decide_eq_false_2 _ Hdy), (q_retcode _ _ _ _ O Ha) in Eex. cbn [negb andb Z.eqb] in Eex. set (x1 := Process.put_retcode rc x) in *.
  destruct (bool_decide_reflect (Process.thread_list_ x = [])) as [Hnil|Hnil] in Eex.
  - unfold Tasks.SetStateLocked in Eex. simpl in Eex. rewrite lookup_insert_eq in Eex. simpl in Eex. rewrite (bool_decide_eq_false_2 _ Hd) in Eex. simpl in Eex.
    unfold put_process in Eex. simpl in Eex. rewrite insert_insert_eq in Eex.
    eexists. split; [eapply run_work; [done | exact Eex | done]|].
    apply (process_dies root s _ _ p x (Process.put_state Process.DEAD x1) (KillProcess p rc)); try done. right. by exists rc.
  - assert (Process.state_ x = Process.RUNNING) as Hrun by (unfold list_ok in Hl; by destruct (Process.state_ x)).
    destruct (set_dying (threads (tasks s)) (processes (tasks s)) (jobs (tasks s)) (halted (tasks s)) (pending s) (concat (<[i := [] ++ k]> (todo s))) (tokens s) p x It HP)
      with (x1 := x1) as (T' & E & It' & HT); try done.
    { apply (swap_release _ _ _ _ S0). intros ? ? H. by apply not_elem_of_nil in H. }
    unfold put_process in Eex. rewrite E in Eex. simpl in Eex. eexists. split; [eapply run_work; [done | exact Eex | done]|]. set (x' := Process.put_state Process.DYING x1) in *.
    apply (process_move root s T' _ _ p x x' [KillProcess p rc] []); try done.
    + intros a ->%list_elem_of_singleton. own_work.
    + by intros a ?%not_elem_of_nil.
    + apply (proc_ok_keep _ (concat (<[i := [] ++ k]> (todo s))) _ p x x'); try done.
      * apply (proc_ok_done _ (pending s) _ p x (KillProcess p rc)); try done. own_work.
      * intros q Hq. destruct (swap_in _ _ _ _ S0 _ Hq) as [H|H]; [by apply not_elem_of_nil in H | by apply Hnew in H].
      * apply O.
      * by left.
    + intros Hcd. apply O in Hcd. done.
    + by left.
Qed.

Lemma zero_handles_inv root s i p k aj ap :
  inv root s -> todo s !! i = Some (ZeroHandles p :: k) -> exists s', run s (Work i aj ap) = Some s' /\ inv root s'.
Proof.
  intros I Hi. pose proof I as [It Ip Ij Ipj]. destruct (todo_swap _ _ _ _ [] Hi) as [Hin S0]. destruct (todo_swap _ _ _ _ [FinishDeadProcess p] Hi) as [_ S1].
  destruct (working root s p (ZeroHandles p) I Hin) as (x & HP & O & Hnew & Hdes); [own_work|].
  assert (exec aj ap (ZeroHandles p) (tasks s) = process_on_zero_handles p (tasks s)) as Eex by done.
  unfold process_on_zero_handles in Eex. rewrite HP in Eex. cbn [mbind option_bind] in Eex. destruct (bool_decide_reflect (Process.state_ x = Process.INITIAL)) as [Hst|Hst] in Eex.
  - cbn [negb] in Eex. unfold Tasks.SetStateLocked in Eex. rewrite HP in Eex. cbn [mbind option_bind] in Eex. rewrite Hst in Eex. simpl in Eex.
    eexists. split; [eapply run_work; [done | exact Eex | done]|].
    pose proof (t_lists _ _ _ _ It p x HP) as Hl. unfold list_ok in Hl. rewrite Hst in Hl.
    apply (process_dies root s _ _ p x (Process.put_state Process.DEAD x) (ZeroHandles p)); try done; [by left | by rewrite Hst].
  - eexists. split; [eapply run_work; [done | exact Eex | done]|]. rewrite <- (mkTasks_eta (tasks s)) at 1.
    apply (process_idle root s _ _ p x (ZeroHandles p)); try done. own_work.
Qed.

Lemma terminated_signal s : has (update_signals 0 ZX_TASK_TERMINATED s) ZX_TASK_TERMINATED = true.
Proof. unfold update_signals. change ZX_TASK_TERMINATED with (2 ^ 3). by rewrite has_update by lia. Qed.

Lemma finish_dead_process_inv root s i p k aj ap :
  inv root s -> todo s !! i = Some (FinishDeadProcess p :: k) -> exists s', run s (Work i aj ap) = Some s' /\ inv root s'.
Proof.
  intros I Hi. pose proof I as [It Ip Ij Ipj]. destruct (todo_swap _ _ _ _ [] Hi) as [Hin _].
  destruct (working root s p (FinishDeadProcess p) I Hin) as (x & HP & O & Hnew & Hdes); [own_work|].
  destruct (todo_swap _ _ _ _ [RemoveProcess (Process.job_ x) p] Hi) as [_ S].
  pose proof (q_finish _ _ _ _ O) as Hf. pose proof (proj1 (times_in _ _) Hin) as Hpos.
  assert (Process.state_ x = Process.DEAD /\ Process.completely_dead_ x = false) as [Hst Hcd].
  { destruct (bool_decide_reflect (Process.state_ x = Process.DEAD)), (Process.completely_dead_ x); simpl in Hf; try lia. done. }
  assert (exec aj ap (FinishDeadProcess p) (tasks s) = finish_dead_process p (tasks s)) as Eex by done.
  unfold finish_dead_process in Eex. rewrite HP in Eex. cbn [mbind option_bind] in Eex. rewrite Hcd in Eex.
  eexists. split; [eapply run_work; [done | exact Eex | done]|]. set (x' := Process.put_dead _ x).
  apply (process_move root s _ _ _ p x x' [FinishDeadProcess p] [RemoveProcess (Process.job_ x) p]); try done.
  - intros a ->%list_elem_of_singleton. own_work.
  - intros a ->%list_elem_of_singleton. split; [own_work | done].
  - intros t y Hy. by exists y.
  - apply (put_process_inv_t _ _ (pending s) _ _ p x It HP); try done. apply (swap_release _ _ _ _ S). intros ? ? H. in_work H.
  - assert (forall a, a ∈ concat (<[i := [RemoveProcess (Process.job_ x) p] ++ k]> (todo s)) -> a = RemoveProcess (Process.job_ x) p \/ a ∈ pending s) as Hsub.
    { intros a Ha. destruct (swap_in _ _ _ _ S _ Ha) as [->%list_elem_of_singleton|?]; [by left | by right]. }
    destruct O as [O1 O2 O3 O4 O5 O6 O7 O8 O9 O10 O11]. constructor; simpl; try done.
    + rewrite (swap_count _ _ _ _ S _ 1 0); [|count_work..]. rewrite Hf, Hst, Hcd. simpl. done.
    + apply terminated_signal.
    + intros q Hq. destruct (Hsub _ Hq) as [?|Hq']; [done | by apply Hnew in Hq'].
    + intros H. congruence.
    + intros rc Hq. destruct (Hsub _ Hq) as [?|Hq']; [done | by apply (O8 rc)].
    + intros q Hq. destruct (Hsub _ Hq) as [[= ->]|Hq']; [done|]. split; [by apply O9 | done].
    + intros q Hq. destruct (Hsub _ Hq) as [?|Hq']; [done | by apply Hdes in Hq'].
    + intros H. apply O11 in H. by apply Hdes in H.
  - intros _. right. apply (swap_new _ _ _ _ S); [by apply list_elem_of_singleton | by intros ?%list_elem_of_singleton].
  - left. unfold active. simpl. by rewrite Hst.
Qed.

(** The scheduler lets the thread go. *)
Lemma release_inv_t T P L L' K p t y :
  inv_t T P L K -> T !! t = Some y -> at_ y = p_left -> ReleaseThread p t ∈ L -> swap [ReleaseThread p t] [] L L' -> inv_t (<[t := put_place p_gone y]> T) P L' K.
Proof.
  intros It Ht Hat Hin S. destruct (t_release _ _ _ _ It p t Hin) as (y0 & Hy0 & _ & Ep & H1). assert (y0 = y) as -> by congruence.
  pose proof (t_place _ _ _ _ It t y Ht) as Hpl. unfold place_ok in Hpl. rewrite Hat in Hpl.
  assert (forall r u, ReleaseThread r u ∈ L' -> u <> t /\ times (ReleaseThread r u) L' <= times (ReleaseThread r u) L) as HL.
  { intros r u Hu. assert (ReleaseThread r u <> ReleaseThread p t) as Hne.
    - intros E. rewrite E, times_in, (swap_count _ _ _ _ S _ 1 0) in Hu; [lia | count_work | done].
    - rewrite (swap_same _ _ _ _ S); [|by intros ?%list_elem_of_singleton | apply not_elem_of_nil]. split; [|done]. intros ->.
      destruct (swap_in _ _ _ _ S _ Hu) as [H|H]; [by apply not_elem_of_nil in H|]. destruct (t_release _ _ _ _ It r t H) as (y1 & Hy1 & _ & E1 & _). congruence. }
  pose proof (put_thread_inv_at T P [] K K t y (put_place p_gone y)) as Hput. destruct It as [I1 I2 I3 I4 I5 I6 I7 I8 I9 I9' I10].
  assert (inv_t T P [] K) as It0 by (constructor; try done; by intros ? ? ?%not_elem_of_nil).
  destruct Hput as [X1 X2 X3 X4 X5 X6 X7 X8 X9 X9' X10]; try done; [by rewrite Hat | apply dead_place; [by apply I2 with t | tauto | by right] | | right; intros; apply not_elem_of_nil | ].
  - intros z Hz. apply (suspend_ok_same _ y); try done; [by rewrite Hat | by apply I4].
  - constructor; try done. intros r u Hu. destruct (HL r u Hu) as [Hne Hle]. destruct (I10 r u) as (z & ? & ? & ? & ?); [rewrite times_in in *; lia|].
    exists z. rewrite lookup_insert_ne by done. split_and!; try done. lia.
Qed.

Lemma release_thread_inv root s i p t k aj ap :
  inv root s -> todo s !! i = Some (ReleaseThread p t :: k) -> exists s', run s (Work i aj ap) = Some s' /\ inv root s'.
Proof.
  intros I Hi. pose proof I as [It Ip Ij Ipj]. destruct (todo_swap _ _ _ _ [] Hi) as [Hin S]. destruct (t_release _ _ _ _ It p t Hin) as (y & Ht & Hat & Ep & H1).
  destruct (working root s p (ReleaseThread p t) I Hin) as (x & HP & O & Hnew & Hdes); [own_work|].
  eexists. split; [eapply run_work; [done | simpl; unfold release_thread; rewrite Ht; done | done]|]. unfold put_thread.
  rewrite <- (insert_id (processes (tasks s)) p x HP).
  apply (process_move root s _ _ _ p x x [ReleaseThread p t] []); try done.
  - intros a ->%list_elem_of_singleton. own_work.
  - by intros a ?%not_elem_of_nil.
  - by apply (put_thread_process _ _ y).
  - rewrite (insert_id (processes (tasks s)) p x HP). by apply (release_inv_t _ _ (pending s) _ _ p t y).
  - apply (proc_ok_done _ (pending s) _ p x (ReleaseThread p t)); try done. own_work.
  - intros Hd. left. split; [done|]. intros j. rewrite !list_elem_of_singleton. done.
  - right; right. split_and!; try done. by intros rc ?%list_elem_of_singleton.
Qed.

(** ** Handles and references *)

Lemma start_release s new : no_release new -> forall p t, times (ReleaseThread p t) (concat (new :: todo s)) <= times (ReleaseThread p t) (pending s).
Proof. apply (swap_release [] new), start_swap. Qed.

(** A reference, a handle or work on a process that is there. *)
Lemma process_refs root s p x h new :
  inv root s -> processes (tasks s) !! p = Some x -> Process.alive x = true -> (forall q, AddChildProcess q p ∉ pending s) ->
  (forall w, w ∈ new -> w = ZeroHandles p \/ exists rc, w = KillProcess p rc) -> (h = false -> Process.has_handle x = false \/ ZeroHandles p ∈ new) ->
  inv root (mkSys (put_process p (Process.put_refs h true x) (tasks s)) (new :: todo s) (tokens s) (short s)).
Proof.
  intros I HP Hal Hadd Hnew Hh. pose proof I as [It Ip Ij Ipj]. pose proof (q_all _ _ _ Ip p x HP) as O. set (x' := Process.put_refs h true x). pose proof (start_swap new s) as S.
  assert (forall w, w ∈ new -> process_work p w = true /\ key_work p w = false /\ (forall q r, w <> RemoveProcess q r) /\ (forall q r, w <> AddChildProcess q r)) as Hw.
  { intros w Hw. destruct (Hnew w Hw) as [->|[rc ->]]; split_and!; own_work. }
  apply (process_move root s _ _ _ p x x' [] new); try done.
  - by intros w ?%not_elem_of_nil.
  - intros w Hin. destruct (Hw w Hin) as (? & _ & _ & H). split; [done|]. destruct w; try done. by apply (H j p0).
  - intros t y Hy. by exists y.
  - apply (put_process_inv_t _ _ (pending s) _ _ p x It HP); try done. apply start_release. intros r t Hin. by destruct (Hnew _ Hin) as [?|[? ?]].
  - apply (proc_ok_keep _ (pending s) _ p x x'); try done.
    + intros q Hq. by destruct (Hadd q).
    + intros Hst Hnh. right. destruct (Hh Hnh) as [Hx|Hin]; [|apply (swap_new _ _ _ _ S); [done | apply not_elem_of_nil]].
      destruct (q_zero _ _ _ _ O Hst Hx) as [?|?]; [by destruct (Hadd (Process.job_ x)) | apply (swap_keep _ _ _ _ S); [done | apply not_elem_of_nil]].
    + intros w Hk. apply (swap_same _ _ _ _ S); [apply not_elem_of_nil|]. intros Hin. destruct (Hw w Hin) as (_ & ? & _). congruence.
    + intros w Hin _. destruct (swap_in _ _ _ _ S _ Hin) as [Hin'|?]; [right | by left]. destruct (Hw w Hin') as (_ & _ & H & _). destruct w; try done. by apply (H j p0).
  - intros Hd. left. split; [done|]. intros j. split; apply not_elem_of_nil.
  - right; right. split_and!; try done. intros rc. apply not_elem_of_nil.
Qed.

(** A process with a handle, or in its job, is not being created. *)
Lemma handle_not_creating root s p x : inv root s -> processes (tasks s) !! p = Some x -> Process.has_handle x = true ->
  Process.alive x = true /\ forall q, AddChildProcess q p ∉ pending s.
Proof.
  intros I HP Hh. pose proof (q_all _ _ _ (i_p _ _ I) p x HP) as O. split; [by apply O|]. intros q Hq.
  destruct (q_creating _ _ _ _ O q Hq) as (_ & _ & ? & _). congruence.
Qed.

Lemma process_is_true f s p : process_is f s p = true -> exists x, processes s !! p = Some x /\ f x = true.
Proof. unfold process_is. destruct (processes s !! p) as [x|]; [by exists x | done]. Qed.
Lemma job_is_true f s j : job_is f s j = true -> exists x, jobs s !! j = Some x /\ f x = true.
Proof. unfold job_is. destruct (jobs s !! j) as [x|]; [by exists x | done]. Qed.
Lemma thread_is_true f s t : thread_is f s t = true -> exists x, threads s !! t = Some x /\ f x = true.
Proof. unfold thread_is. destruct (threads s !! t) as [x|]; [by exists x | done]. Qed.

Lemma process_attached_true s p x : process_attached s p = true -> processes s !! p = Some x -> exists y, jobs s !! Process.job_ x = Some y /\ p ∈ Job.procs_ y.
Proof. unfold process_attached. intros H HP. rewrite HP in H. destruct (jobs s !! _) as [y|]; [|done]. exists y. split; [done|]. by apply bool_decide_eq_true in H. Qed.

Lemma process_is_refs x : Process.alive x = true -> Process.put_refs (Process.has_handle x) true x = x.
Proof. destruct x. simpl. by intros ->. Qed.

(** Empty stacks do not matter. *)
Lemma inv_drop_nil root T todo' K sh : inv root (mkSys T ([] :: todo') K sh) -> inv root (mkSys T todo' K sh).
Proof. intros [? ? ? ?]. by constructor. Qed.

Lemma close_process_inv root s p x :
  inv root s -> processes (tasks s) !! p = Some x -> Process.has_handle x = true -> exists s', run s (CloseProcess p) = Some s' /\ inv root s'.
Proof.
  intros I HP Hh. destruct (handle_not_creating root s p x I HP Hh) as [Hal Hadd]. unfold run, on_process. rewrite HP. simpl. eexists. split; [done|].
  apply process_refs; try done; [intros w ->%list_elem_of_singleton; by left | right; by apply list_elem_of_singleton].
Qed.

Lemma open_process_inv root s p x :
  inv root s -> processes (tasks s) !! p = Some x -> Process.alive x = true -> process_attached (tasks s) p = true ->
  exists s', run s (OpenProcess p) = Some s' /\ inv root s'.
Proof.
  intros I HP Hal Hat. destruct (process_attached_true _ _ x Hat HP) as (y & Hy & Hin). unfold run, on_process. rewrite HP. simpl. eexists. split; [done|].
  apply inv_drop_nil, process_refs; try done; [|by intros w ?%not_elem_of_nil]. intros q Hq. by apply (pj_creating _ _ _ _ (i_pj _ _ I) q p _ y Hq Hy).
Qed.

Lemma task_kill_process_inv root s p x rc :
  inv root s -> processes (tasks s) !! p = Some x -> Process.has_handle x = true -> exists s', run s (TaskKillProcess p rc) = Some s' /\ inv root s'.
Proof.
  intros I HP Hh. destruct (handle_not_creating root s p x I HP Hh) as [Hal Hadd]. simpl. eexists. split; [done|].
  pose proof (process_refs root s p x (Process.has_handle x) [KillProcess p rc] I HP Hal Hadd) as H. rewrite process_is_refs in H by done.
  unfold start. unfold put_process in H. rewrite insert_id, mkTasks_eta in H by done. apply H; [|by intros; left]. intros w ->%list_elem_of_singleton. right. by exists rc.
Qed.
