(* ===== verification/TaskJobFacts.v ===== *)
(** * Correctness of tasks: jobs

    What the operations of a job do to its counts and signals, and what has to be
    shown of a step that changes jobs, with the invariant of [TaskFacts.v]. *)

From S2P Require Import Prelude Zx JobPolicy Thread Tasks TaskSystem TaskFacts TaskProcessFacts TaskWorkFacts.
Import Tasks ThreadState Thread.

(** ** Counts and signals *)

Definition counts_ok (x : Job.Job) : Prop :=
  Job.process_count_ x = zlen (Job.procs_ x) /\ Job.job_count_ x = zlen (Job.jobs_ x) /\ NoDup (Job.procs_ x) /\ NoDup (Job.jobs_ x).
Definition signals_ok (x : Job.Job) : Prop :=
  has (Job.signals_ x) ZX_JOB_NO_PROCESSES = bool_decide (Job.procs_ x = []) /\
  has (Job.signals_ x) ZX_JOB_NO_JOBS = bool_decide (Job.jobs_ x = []) /\
  has (Job.signals_ x) ZX_TASK_TERMINATED = bool_decide (Job.state_ x = Job.DEAD).

Lemma one_not_empty (l : list Z) : (zlen l =? 1) && bool_decide (l = []) = false.
Proof. case_bool_decide as E; [by rewrite E | by rewrite andb_false_r]. Qed.
Lemma zlen_empty (l : list Z) : (zlen l =? 0) = bool_decide (l = []).
Proof. case_bool_decide as E; [by rewrite E | apply Z.eqb_neq; by rewrite zlen_0]. Qed.

(** The signals after an update of the first two. *)
Lemma update_job_signals s (c1 c2 s1 s2 : bool) :
  let s' := update_signals ((if c1 then ZX_JOB_NO_PROCESSES else 0) .| (if c2 then ZX_JOB_NO_JOBS else 0))
                           ((if s1 then ZX_JOB_NO_PROCESSES else 0) .| (if s2 then ZX_JOB_NO_JOBS else 0)) s in
  has s' ZX_JOB_NO_PROCESSES = s1 || has s ZX_JOB_NO_PROCESSES && negb c1 /\ has s' ZX_JOB_NO_JOBS = s2 || has s ZX_JOB_NO_JOBS && negb c2 /\
  has s' ZX_TASK_TERMINATED = has s ZX_TASK_TERMINATED.
Proof.
  intros s'. unfold s', update_signals. change ZX_JOB_NO_PROCESSES with (2 ^ 5). change ZX_JOB_NO_JOBS with (2 ^ 4). change ZX_TASK_TERMINATED with (2 ^ 3).
  rewrite !has_update by lia. destruct c1, c2, s1, s2; simpl; by rewrite ?andb_true_r, ?andb_false_r.
Qed.

(** The signals of a job whose lists have changed from those of [x]. *)
Lemma increment_ok x x1 :
  counts_ok x1 -> signals_ok x -> Job.signals_ x1 = Job.signals_ x -> Job.state_ x1 = Job.state_ x ->
  (Job.procs_ x1 <> [] -> Job.process_count_ x1 = 1 \/ Job.procs_ x <> []) -> (Job.procs_ x1 = [] -> Job.procs_ x = []) ->
  (Job.jobs_ x1 <> [] -> Job.job_count_ x1 = 1 \/ Job.jobs_ x <> []) -> (Job.jobs_ x1 = [] -> Job.jobs_ x = []) ->
  exists s, Job.UpdateSignalsIncrementLocked x1 = Some (Job.put_signals s x1) /\ signals_ok (Job.put_signals s x1).
Proof.
  intros (C1 & C2 & _) (S1 & S2 & S3) Es Est Hp Hp' Hj Hj'. unfold Job.UpdateSignalsIncrementLocked. rewrite C1, C2 in *.
  rewrite !one_not_empty. cbn [orb].
  eexists. split; [done|]. unfold signals_ok. simpl. rewrite Es.
  destruct (update_job_signals (Job.signals_ x) (zlen (Job.procs_ x1) =? 1) (zlen (Job.jobs_ x1) =? 1) false false) as (U1 & U2 & U3). cbn [orb] in U1, U2. change (0 .| 0) with 0 in U1, U2, U3.
  rewrite U1, U2, U3, S1, S2, S3, Est. split_and!; [| |done].
  - destruct (decide (Job.procs_ x1 = [])) as [E|E]; [rewrite E, (Hp' E); done|]. rewrite (bool_decide_eq_false_2 _ E).
    destruct (Hp E) as [-> | E']; [by rewrite andb_false_r | by rewrite bool_decide_eq_false_2].
  - destruct (decide (Job.jobs_ x1 = [])) as [E|E]; [rewrite E, (Hj' E); done|]. rewrite (bool_decide_eq_false_2 _ E).
    destruct (Hj E) as [-> | E']; [by rewrite andb_false_r | by rewrite bool_decide_eq_false_2].
Qed.

Lemma decrement_ok x x1 :
  counts_ok x1 -> signals_ok x -> Job.signals_ x1 = Job.signals_ x -> Job.state_ x1 = Job.state_ x ->
  (Job.procs_ x = [] -> Job.procs_ x1 = []) -> (Job.jobs_ x = [] -> Job.jobs_ x1 = []) ->
  exists s h, Job.UpdateSignalsDecrementLocked x1 = Some (Job.put_signals s x1, h) /\ signals_ok (Job.put_signals s x1).
Proof.
  intros (C1 & C2 & _) (S1 & S2 & S3) Es Est Hp Hj. unfold Job.UpdateSignalsDecrementLocked. rewrite C1, C2 in *.
  rewrite !zlen_empty. assert (bool_decide (Job.procs_ x1 = []) && negb (bool_decide (Job.procs_ x1 = [])) ||
                       bool_decide (Job.jobs_ x1 = []) && negb (bool_decide (Job.jobs_ x1 = [])) = false) as -> by by rewrite !andb_negb_r.
  eexists _, _. split; [done|]. unfold signals_ok. simpl. rewrite Es.
  destruct (update_job_signals (Job.signals_ x) false false (bool_decide (Job.procs_ x1 = [])) (bool_decide (Job.jobs_ x1 = []))) as (U1 & U2 & U3). change (0 .| 0) with 0 in U1, U2, U3.
  rewrite U1, U2, U3, S1, S2, S3, Est, !andb_true_r. split_and!; [| |done].
  - destruct (decide (Job.procs_ x1 = [])) as [E|E]; [by rewrite (bool_decide_eq_true_2 _ E)|]. rewrite (bool_decide_eq_false_2 _ E). apply bool_decide_eq_false_2. by auto.
  - destruct (decide (Job.jobs_ x1 = [])) as [E|E]; [by rewrite (bool_decide_eq_true_2 _ E)|]. rewrite (bool_decide_eq_false_2 _ E). apply bool_decide_eq_false_2. by auto.
Qed.

Lemma NoDup_snoc (l : list Z) a : NoDup l -> a ∉ l -> NoDup (l ++ [a]).
Proof. intros Hn Ha. apply NoDup_app. split_and!; [done | | apply NoDup_singleton]. intros b Hb ->%list_elem_of_singleton. done. Qed.

Lemma snoc_one (l : list Z) a : zlen (l ++ [a]) = 1 \/ l <> [].
Proof. destruct l; [left | right]; done. Qed.

(** ** The operations on one job *)

Lemma AddChildProcess_ok p x :
  counts_ok x -> signals_ok x -> Job.state_ x = Job.READY -> p ∉ Job.procs_ x ->
  exists s, let x' := Job.put_signals s (Job.put_procs (Job.procs_ x ++ [p]) (Job.process_count_ x + 1) x) in
    Job.AddChildProcess p x = Some (true, x') /\ counts_ok x' /\ signals_ok x'.
Proof.
  intros (C1 & C2 & C3 & C4) S Hst Hp. set (x1 := Job.put_procs (Job.procs_ x ++ [p]) (Job.process_count_ x + 1) x).
  assert (counts_ok x1) as C by (unfold counts_ok; simpl; rewrite zlen_app, C1; split_and!; [done | done | by apply NoDup_snoc | done]).
  destruct (increment_ok x x1 C S) as (s & E & S'); try done.
  - intros _. simpl. rewrite C1. change 1 with (zlen [p]). rewrite <- zlen_app. apply snoc_one.
  - simpl. by destruct (Job.procs_ x).
  - by right.
  - exists s. simpl. split_and!; try done. unfold Job.AddChildProcess. rewrite Hst. simpl. fold x1. by rewrite E.
Qed.

Lemma AddChildJob_ok c x :
  counts_ok x -> signals_ok x -> Job.state_ x = Job.READY -> c ∉ Job.jobs_ x ->
  exists s, let x' := Job.put_signals s (Job.put_jobs (Job.jobs_ x ++ [c]) (Job.job_count_ x + 1) x) in
    Job.AddChildJob c x = Some (true, x') /\ counts_ok x' /\ signals_ok x'.
Proof.
  intros (C1 & C2 & C3 & C4) S Hst Hp. set (x1 := Job.put_jobs (Job.jobs_ x ++ [c]) (Job.job_count_ x + 1) x).
  assert (counts_ok x1) as C by (unfold counts_ok; simpl; rewrite zlen_app, C2; split_and!; [done | done | done | by apply NoDup_snoc]).
  destruct (increment_ok x x1 C S) as (s & E & S'); try done.
  - by right.
  - intros _. simpl. rewrite C2. change 1 with (zlen [c]). rewrite <- zlen_app. apply snoc_one.
  - simpl. by destruct (Job.jobs_ x).
  - exists s. simpl. split_and!; try done. unfold Job.AddChildJob. rewrite Hst. simpl. rewrite bool_decide_eq_false_2 by done. fold x1. by rewrite E.
Qed.

(** A job that is being killed and has no children is to die. *)
Definition to_die (x : Job.Job) : bool := bool_decide (Job.state_ x = Job.KILLING) && bool_decide (Job.procs_ x = []) && bool_decide (Job.jobs_ x = []).

Lemma ready_for_dead x : counts_ok x -> Job.IsReadyForDeadTransitionLocked x = to_die x.
Proof.
  intros (C1 & C2 & _). unfold Job.IsReadyForDeadTransitionLocked, to_die. rewrite C1, C2, !zlen_empty.
  by rewrite <- !andb_assoc, (andb_comm (bool_decide (Job.procs_ x = []))).
Qed.

Lemma RemoveChildProcess_ok p x :
  counts_ok x -> signals_ok x -> p ∈ Job.procs_ x ->
  exists s h, let x' := Job.put_signals s (Job.put_procs (filter (fun r => r <> p) (Job.procs_ x)) (Job.process_count_ x - 1) x) in
    Job.RemoveChildProcess p x = Some (x', h, to_die x') /\ counts_ok x' /\ signals_ok x'.
Proof.
  intros (C1 & C2 & C3 & C4) S Hp. set (x1 := Job.put_procs (filter (fun r => r <> p) (Job.procs_ x)) (Job.process_count_ x - 1) x).
  assert (counts_ok x1) as C by (unfold counts_ok; simpl; rewrite zlen_filter_ne by done; split_and!; [lia | done | by apply NoDup_filter | done]).
  destruct (decrement_ok x x1 C S) as (s & h & E & S'); try done; [intros E; simpl; by rewrite E|].
  exists s, h. simpl. split_and!; try done. unfold Job.RemoveChildProcess. rewrite bool_decide_eq_true_2 by done. cbn [negb]. fold x1. rewrite E. simpl. by rewrite ready_for_dead.
Qed.

Lemma RemoveChildJob_ok c x :
  counts_ok x -> signals_ok x -> c ∈ Job.jobs_ x ->
  exists s h, let x' := Job.put_signals s (Job.put_jobs (filter (fun r => r <> c) (Job.jobs_ x)) (Job.job_count_ x - 1) x) in
    Job.RemoveChildJob c x = Some (x', h, to_die x') /\ counts_ok x' /\ signals_ok x'.
Proof.
  intros (C1 & C2 & C3 & C4) S Hp. set (x1 := Job.put_jobs (filter (fun r => r <> c) (Job.jobs_ x)) (Job.job_count_ x - 1) x).
  assert (counts_ok x1) as C by (unfold counts_ok; simpl; rewrite zlen_filter_ne by done; split_and!; [done | lia | done | by apply NoDup_filter]).
  destruct (decrement_ok x x1 C S) as (s & h & E & S'); try done; [intros E; simpl; by rewrite E|].
  exists s, h. simpl. split_and!; try done. unfold Job.RemoveChildJob. rewrite bool_decide_eq_true_2 by done. cbn [negb]. fold x1. rewrite E. simpl. by rewrite ready_for_dead.
Qed.

(** ** The other jobs *)

(** What happens to one of the jobs [E] that a step is about. *)
Definition job_update (J : gmap Z Job.Job) (L : list work) (E : list Z) (k : Z) (y y' : option Job.Job) : Prop :=
  match y, y' with
  | Some y, Some y' =>
      Job.parent_ y' = Job.parent_ y /\ Job.max_height_ y' = Job.max_height_ y /\ (forall i, i ∉ E -> i ∈ Job.jobs_ y' <-> i ∈ Job.jobs_ y) /\
      (Job.alive y = true -> Job.alive y' = true \/ forall i z, J !! i = Some z -> Job.parent_ z <> Some k)
  | Some y, None => (forall i z, J !! i = Some z -> Job.parent_ z <> Some k) /\ forall i, Job.parent_ y = Some i -> i ∈ E
  | None, Some y' => (forall i, i ∉ E -> i ∉ Job.jobs_ y') /\ forall i, Job.parent_ y' = Some i -> i ∈ E \/ settled L i
  | None, None => True
  end.

Lemma inv_j_update J J' L L' root E :
  inv_j J L root -> (exists x, J' !! root = Some x /\ Job.parent_ x = None /\ Job.has_handle x = true) ->
  (forall k, k ∉ E -> J' !! k = J !! k) -> (forall k, k ∈ E -> job_update J L E k (J !! k) (J' !! k)) ->
  (forall k w, k ∉ E -> job_main k w = true -> times w L' = times w L) ->
  (forall k rc, k ∉ E -> KillJob k rc ∈ L' -> KillJob k rc ∈ L \/
     exists z, J !! k = Some z /\ Job.alive z = true /\ (k = root \/ attached J k z \/ Job.state_ z = Job.DEAD)) ->
  (forall k w, k ∉ E -> w ∈ L' -> job_work k w = true -> w ∈ L \/ settled L k /\ is_Some (J !! k)) ->
  (forall k w, k ∈ E -> w ∈ L' -> job_work k w = true -> is_Some (J' !! k)) ->
  (forall k z, k ∈ E -> J' !! k = Some z -> job_ok J' L' root k z) -> inv_j J' L' root.
Proof.
  intros [R0 R1 R2] Hr Hout HE HL1 HLk HL2 Hex Hok. constructor; [done| |].
  - intros j x Hx. destruct (decide (j ∈ E)) as [Hj|Hj]; [by apply Hok|]. rewrite Hout in Hx by done.
    apply (job_ok_ext J J' L L'); [intros w Hw; by apply (HL1 j w) | | | | |by apply R1].
    + intros rc Hrc. destruct (HLk j rc Hj Hrc) as [?|(z & Hz & Hr')]; [by left | right]. by assert (z = x) as -> by congruence.
    + intros w Hw Hjw. destruct (HL2 j w Hj Hw Hjw) as [?|[? _]]; [by left | by right].
    + intros k y Hk Hrel. destruct (decide (k ∈ E)) as [HkE|HkE]; [|exists y; rewrite Hout by done; by split_and!].
      pose proof (HE k HkE) as U. rewrite Hk in U. destruct (J' !! k) as [y'|] eqn:Hk'; simpl in U.
      * destruct U as (U1 & U2 & U3 & U4). exists y'. split_and!; [done | by split_and!; [..|apply U3] |]. intros Hpar Hal. destruct (U4 Hal) as [?|Hno]; [done|]. by destruct (Hno j x).
      * destruct U as [U1 U2]. destruct Hrel as [Hp|Hp]; [by destruct (U1 j x) | by apply U2 in Hp].
    + intros k y' Hk'. destruct (decide (k ∈ E)) as [HkE|HkE]; [|left; exists y'; by rewrite <- Hout].
      pose proof (HE k HkE) as U. rewrite Hk' in U. destruct (J !! k) as [y|] eqn:Hk; simpl in U.
      * left. exists y. destruct U as (U1 & U2 & U3 & _). split; [done|]. by split_and!; [..|apply U3].
      * right. destruct U as [U1 U2]. split; [|by apply U1]. destruct (decide (Job.parent_ y' = Some j)) as [Hp|]; [right | by left].
        by destruct (U2 j Hp).
  - intros k w Hw Hkw. destruct (decide (k ∈ E)) as [Hk|Hk]; [by apply (Hex k w)|]. rewrite Hout by done.
    destruct (HL2 k w Hk Hw Hkw) as [?|[_ ?]]; [by apply (R2 k w) | done].
Qed.

(** ** The jobs a step is about *)

(** A job that is neither being created nor destroyed. *)
Lemma job_ok_settled J J' L L' root j x x' :
  job_ok J L root j x ->
  (forall q y, Job.parent_ x = Some q -> J !! q = Some y -> exists y', J' !! q = Some y' /\ Job.alive y' = Job.alive y /\ Job.max_height_ y' = Job.max_height_ y) ->
  Job.parent_ x' = Job.parent_ x -> Job.max_height_ x' = Job.max_height_ x -> Job.alive x' = true -> counts_ok x' -> signals_ok x' ->
  (forall c, c ∈ Job.jobs_ x' -> exists y, J' !! c = Some y /\ Job.parent_ y = Some j) ->
  (Job.state_ x' = Job.DEAD -> Job.procs_ x' = [] /\ Job.jobs_ x' = []) ->
  times (FinishDeadJob j) L' = (if to_die x' then 1 else 0) -> settled L' j ->
  (Job.has_handle x' = true \/ (exists rc, KillJob j rc ∈ L') \/ Job.state_ x' = Job.KILLING -> j = root \/ attached J' j x' \/ Job.state_ x' = Job.DEAD) ->
  (forall q, RemoveJob q j ∈ L' -> Job.parent_ x = Some q /\ Job.state_ x' = Job.DEAD) ->
  (attached J' j x' -> Job.state_ x' = Job.DEAD -> exists q, RemoveJob q j ∈ L') ->
  job_ok J' L' root j x'.
Proof.
  intros O HJ Ep Eh Hal C S Hch Hd Hf Hs Hlive Hrem Hleav. constructor; rewrite ?Ep, ?Eh; try done; try apply O; try (by intros; apply Hleav).
  - intros q Hq. destruct (j_parent _ _ _ _ _ O q Hq) as (y & Hy & Ha & Hh). destruct (HJ q y Hq Hy) as (y' & Hy' & E1 & E2). exists y'. split_and!; [done | congruence | congruence].
  - intros q Hq. by destruct (Hs q) as [? _].
  - intros H. split; [done | by apply Hlive].
  - intros q Hq. by destruct (Hs q) as [_ ?].
  - congruence.
Qed.

(** Work on a job settles it. *)
Lemma work_settles J L root j w :
  inv_j J L root -> w ∈ L -> job_work j w = true -> (forall q, w <> AddChildJob q j) -> (forall q, w <> DestroyJob q j) ->
  exists x, J !! j = Some x /\ job_ok J L root j x /\ settled L j /\ Job.alive x = true.
Proof.
  intros I Hw Hj Hna Hnd. destruct (j_exists _ _ _ I j w Hw Hj) as [x Hx]. pose proof (j_all _ _ _ I j x Hx) as O.
  assert (settled L j) as Hs.
  { intros q. split; intros Hq.
    - destruct (j_creating _ _ _ _ _ O q Hq) as (_ & _ & _ & _ & _ & _ & _ & H & _). by apply (Hna q), H.
    - destruct (j_destroy _ _ _ _ _ O q Hq) as (_ & _ & _ & _ & _ & _ & H & _). by apply (Hnd q), H. }
  exists x. split_and!; try done. apply not_false_is_true. intros Ha. destruct (j_alive _ _ _ _ _ O Ha) as (q & _ & Hq). by destruct (Hs q).
Qed.

Lemma not_own_parent J L root j x : J !! j = Some x -> job_ok J L root j x -> Job.parent_ x <> Some j.
Proof. intros Hx O Hp. destruct (j_parent _ _ _ _ _ O j Hp) as (y & Hy & _ & Hh). assert (y = x) as -> by congruence. lia. Qed.

(** The parent is one that is not changed, or not enough to matter. *)
Lemma attached_insert J j k x z z' : J !! k = Some z -> (j ∈ Job.jobs_ z' <-> j ∈ Job.jobs_ z) -> attached (<[k := z']> J) j x <-> attached J j x.
Proof.
  intros Hk Hj. unfold attached. split; intros (q & y & Ep & Hy & Hin).
  - rewrite lookup_insert_Some in Hy. destruct Hy as [[<- <-]|[_ Hy]]; [exists k, z; rewrite <- Hj; done | by exists q, y].
  - destruct (decide (q = k)) as [->|Hne]; [exists k, z'; rewrite lookup_insert_eq, Hj; split_and!; try done; congruence | exists q, y; by rewrite lookup_insert_ne].
Qed.

Lemma attached_parent J j x x' : Job.parent_ x' = Job.parent_ x -> attached J j x' <-> attached J j x.
Proof. unfold attached. by intros ->. Qed.

(** ** Processes and jobs *)

Lemma inv_t_work T P L L' K : inv_t T P L K -> (forall p t, times (ReleaseThread p t) L' <= times (ReleaseThread p t) L) -> inv_t T P L' K.
Proof.
  intros [] HL. constructor; try done. intros p t Hin. specialize (HL p t). destruct (t_release p t) as (y & ? & ? & ? & ?); [rewrite times_in in *; lia|].
  exists y. split_and!; try done. lia.
Qed.

Lemma inv_p_work T P L L' : inv_p T P L -> (forall p w, process_work p w = true -> times w L' = times w L) -> inv_p T P L'.
Proof.
  intros [H1 H2] HL. constructor; [intros p x Hx; apply (proc_ok_ext T L); [by apply HL | by apply H1]|].
  intros p w Hw Hp. apply (H2 p w); [|done]. by apply (same_in w L L'); [apply (HL p)|].
Qed.

Lemma inv_pj_jobs P J J' L L' sh :
  inv_pj P J L sh ->
  (forall p x y, P !! p = Some x -> J !! Process.job_ x = Some y -> Job.alive y = true -> exists y', J' !! Process.job_ x = Some y' /\ Job.alive y' = true) ->
  (forall k y', J' !! k = Some y' -> Job.procs_ y' = [] \/
     exists y, J !! k = Some y /\ Job.procs_ y' = Job.procs_ y /\ (Job.state_ y' <> Job.READY -> Job.state_ y <> Job.READY)) ->
  (forall p w, process_work p w = true -> w ∈ L' <-> w ∈ L) ->
  (forall q j, AddChildJob q j ∈ L' \/ DestroyJob q j ∈ L' -> AddChildJob q j ∈ L \/ DestroyJob q j ∈ L \/ forall p x, P !! p = Some x -> Process.job_ x <> j) ->
  (sh = false -> forall j y c z, J' !! j = Some y -> Job.state_ y <> Job.READY -> c ∈ Job.jobs_ y -> J' !! c = Some z ->
     Job.state_ z <> Job.READY \/ Job.alive z = false \/ exists rc, KillJob c rc ∈ L') ->
  inv_pj P J' L' sh.
Proof.
  intros [I1 I2 I3 I4 I5 I6 I7 I8] Ha Hb Hc Hd Hk.
  assert (forall q j p x, AddChildJob q j ∈ L' \/ DestroyJob q j ∈ L' -> P !! p = Some x -> Process.job_ x <> j) as Hno.
  { intros q j p x Hq Hx. destruct (Hd q j Hq) as [?|[?|H]]; [by apply (I6 q j p) | by apply (I5 q j p) | by apply (H p)]. }
  constructor.
  - intros p x Hx. destruct (I1 p x Hx) as (y & Hy & Hal). by apply (Ha p x y).
  - intros k y' p Hy' Hp. destruct (Hb k y' Hy') as [E|(y & Hy & E & _)]; rewrite E in Hp; [by apply not_elem_of_nil in Hp | by apply (I2 k y p)].
  - intros q p k y' Hq Hy'. rewrite (Hc p) in Hq by own_work. destruct (Hb k y' Hy') as [E|(y & Hy & E & _)]; rewrite E; [apply not_elem_of_nil | by apply (I3 q p k y)].
  - intros k y' p x Hy' Hp Hx Hcd. rewrite !(Hc p) by own_work. destruct (Hb k y' Hy') as [E|(y & Hy & E & _)]; rewrite E in Hp; [by apply not_elem_of_nil in Hp | by apply (I4 k y p x)].
  - intros q j p x Hq. apply (Hno q). by right.
  - intros q j p x Hq. apply (Hno q). by left.
  - done.
  - intros Hs k y' p x Hy' Hst Hp Hx. destruct (Hb k y' Hy') as [E|(y & Hy & E & Hst')]; rewrite E in Hp; [by apply not_elem_of_nil in Hp|].
    destruct (I8 Hs k y p x Hy (Hst' Hst) Hp Hx) as [?|[?|[rc Hrc]]]; [by left | by right; left | right; right]. exists rc. rewrite (Hc p); [done | own_work].
Qed.
