(* ===== verification/TaskTreeFacts.v ===== *)
(** * Correctness of tasks: the tree of jobs

    Jobs that are created, accepted by their parents, killed, that die, leave the
    tree and are destroyed, with the invariant of [TaskFacts.v]. *)

From S2P Require Import Prelude Zx JobPolicy Thread Tasks TaskSystem TaskFacts TaskProcessFacts TaskWorkFacts TaskJobFacts.
Import Tasks ThreadState Thread.

(** ** Steps that only concern jobs *)

Definition no_process (l : list work) : Prop := forall p w, w ∈ l -> process_work p w = false.

Lemma swap_no_process old new L L' : swap old new L L' -> no_process old -> no_process new -> forall p w, process_work p w = true -> times w L' = times w L.
Proof. intros S Ho Hn p w Hw. apply (swap_same _ _ _ _ S); intros H; [apply (Ho p) in H | apply (Hn p) in H]; congruence. Qed.

Lemma job_step root s J' h' todo' old new :
  inv root s -> swap old new (pending s) (concat todo') -> no_process old -> no_process new ->
  inv_j J' (concat todo') root -> inv_pj (processes (tasks s)) J' (concat todo') (short s) ->
  inv root (mkSys (mkTasks (threads (tasks s)) (processes (tasks s)) J' h') todo' (tokens s) (short s)).
Proof.
  intros [It Ip Ij Ipj] S Ho Hn Ij' Ipj'. pose proof (swap_no_process _ _ _ _ S Ho Hn) as Hsame. constructor; try done; simpl.
  - apply (inv_t_work _ _ (pending s)); [done|]. intros p t. change (times (ReleaseThread p t) (concat todo') <= times (ReleaseThread p t) (pending s)). rewrite (Hsame p); [done | own_work].
  - by apply (inv_p_work _ _ (pending s)).
Qed.

Lemma no_process_nil : no_process [].
Proof. by intros p w ?%not_elem_of_nil. Qed.
Lemma no_process_one w : (forall p, process_work p w = false) -> no_process [w].
Proof. by intros H p a ->%list_elem_of_singleton. Qed.

(** A job with children, or with a handle, is neither being created nor destroyed. *)
Lemma parent_settled J L root j x q :
  inv_j J L root -> J !! j = Some x -> Job.parent_ x = Some q ->
  exists y, J !! q = Some y /\ job_ok J L root q y /\ settled L q /\ Job.alive y = true /\ q <> j /\ Job.max_height_ x = Job.max_height_ y - 1.
Proof.
  intros I Hx Hp. pose proof (j_all _ _ _ I j x Hx) as O. destruct (j_parent _ _ _ _ _ O q Hp) as (y & Hy & Hal & Hh). pose proof (j_all _ _ _ I q y Hy) as Oq. exists y.
  split_and!; try done.
  - intros r. split; intros Hr.
    + destruct (j_creating _ _ _ _ _ Oq r Hr) as (_ & _ & _ & _ & _ & _ & _ & _ & _ & H). by apply (H j x).
    + destruct (j_destroy _ _ _ _ _ Oq r Hr) as (_ & _ & _ & _ & _ & _ & _ & H). by apply (H j x).
  - intros ->. by apply (not_own_parent J L root j x).
Qed.

Lemma handle_settled J L root j x :
  inv_j J L root -> J !! j = Some x -> Job.has_handle x = true ->
  job_ok J L root j x /\ settled L j /\ Job.alive x = true /\ (j = root \/ attached J j x \/ Job.state_ x = Job.DEAD).
Proof.
  intros I Hx Hh. pose proof (j_all _ _ _ I j x Hx) as O. destruct (j_live _ _ _ _ _ O (or_introl Hh)) as [Hal Hl]. split_and!; try done.
  intros q. split; intros Hq; [destruct (j_creating _ _ _ _ _ O q Hq) as (_ & _ & _ & _ & ? & _) | destruct (j_destroy _ _ _ _ _ O q Hq) as (_ & ? & _)]; congruence.
Qed.

Lemma root_job J L root : inv_j J L root -> forall j x, J !! j = Some x -> (Job.parent_ x = None <-> j = root).
Proof.
  intros I j x Hx. split; [by apply (j_all _ _ _ I j x Hx)|]. intros ->. destruct (j_root _ _ _ I) as (y & Hy & ? & _). congruence.
Qed.

Lemma attached_settled J L root j x :
  inv_j J L root -> J !! j = Some x -> Job.alive x = true -> attached J j x -> settled L j.
Proof.
  intros I Hx Hal Hat. pose proof (j_all _ _ _ I j x Hx) as O.
  intros q. split; intros Hq; [by destruct (j_creating _ _ _ _ _ O q Hq) as (_ & _ & _ & _ & _ & _ & _ & _ & ? & _) | destruct (j_destroy _ _ _ _ _ O q Hq) as (_ & ? & _); congruence].
Qed.

(** ** One job changes *)

Section OneJob.
Context (J : gmap Z Job.Job) (L L' : list work) (root j : Z) (x x' : Job.Job).
Context (I : inv_j J L root) (Hx : J !! j = Some x).
Context (Ep : Job.parent_ x' = Job.parent_ x) (Eh : Job.max_height_ x' = Job.max_height_ x) (Ej : Job.jobs_ x' = Job.jobs_ x).

Lemma one_attached k z : attached (<[j := x']> J) k z <-> attached J k z.
Proof. apply (attached_insert J k j z x x' Hx). by rewrite Ej. Qed.

(** The job is neither being created nor destroyed; the other jobs do not notice. *)
Lemma one_job_inv :
  job_ok J L root j x -> Job.alive x = true -> Job.alive x' = true -> (j = root -> Job.has_handle x' = true) -> counts_ok x' -> signals_ok x' ->
  (Job.state_ x' = Job.DEAD -> Job.procs_ x' = [] /\ Job.jobs_ x' = []) -> times (FinishDeadJob j) L' = (if to_die x' then 1 else 0) -> settled L' j ->
  (Job.has_handle x' = true \/ (exists rc, KillJob j rc ∈ L') \/ Job.state_ x' = Job.KILLING -> j = root \/ attached J j x \/ Job.state_ x' = Job.DEAD) ->
  (forall q, RemoveJob q j ∈ L' -> Job.parent_ x = Some q /\ Job.state_ x' = Job.DEAD) ->
  (attached J j x -> Job.state_ x' = Job.DEAD -> exists q, RemoveJob q j ∈ L') ->
  (forall k w, k <> j -> job_main k w = true -> times w L' = times w L) ->
  (forall k rc, k <> j -> KillJob k rc ∈ L' -> KillJob k rc ∈ L \/
     exists z, J !! k = Some z /\ Job.alive z = true /\ (k = root \/ attached J k z \/ Job.state_ z = Job.DEAD)) ->
  (forall k w, k <> j -> w ∈ L' -> job_work k w = true -> w ∈ L \/ settled L k /\ is_Some (J !! k)) ->
  inv_j (<[j := x']> J) L' root.
Proof.
  intros O Hal Hal' Hroot C S Hd Hf Hs Hlive Hrem Hleav HL1 HLk HL2. apply (inv_j_update J _ L L' root [j]); try done.
  - destruct (j_root _ _ _ I) as (r & Hr & Hpr & Hhr). destruct (decide (root = j)) as [->|Hne]; [exists x'; rewrite lookup_insert_eq | exists r; by rewrite lookup_insert_ne].
    assert (r = x) as -> by congruence. split_and!; [done | congruence | by apply Hroot].
  - intros k Hk. apply lookup_insert_ne. intros <-. apply Hk. by apply list_elem_of_singleton.
  - intros k ->%list_elem_of_singleton. rewrite lookup_insert_eq, Hx. simpl. split_and!; try done; [by rewrite Ej | by left].
  - intros k w Hk. apply HL1. intros ->. by apply Hk, list_elem_of_singleton.
  - intros k rc Hk. apply HLk. intros ->. by apply Hk, list_elem_of_singleton.
  - intros k w Hk. apply HL2. intros ->. by apply Hk, list_elem_of_singleton.
  - intros k w ->%list_elem_of_singleton _ _. rewrite lookup_insert_eq. by eexists.
  - intros k z ->%list_elem_of_singleton. rewrite lookup_insert_eq. intros [= <-]. apply (job_ok_settled J _ L _ _ _ x); try done.
    + intros q y Hq Hy. exists y. rewrite lookup_insert_ne; [done|]. intros ->. by apply (not_own_parent J L root q x).
    + intros c Hc. rewrite Ej in Hc. destruct (j_children _ _ _ _ _ O c Hc) as (y & Hy & Hpy). destruct (decide (c = j)) as [->|Hne];
        [exists x'; rewrite lookup_insert_eq; split; [done | congruence] | exists y; by rewrite lookup_insert_ne].
    + intros H. rewrite one_attached, (attached_parent J j x x') by done. by apply Hlive.
    + rewrite one_attached, (attached_parent J j x x') by done. done.
Qed.
End OneJob.

Lemma one_job_pj P J L L' sh j x x' :
  inv_pj P J L sh -> J !! j = Some x -> Job.procs_ x' = Job.procs_ x -> Job.jobs_ x' = Job.jobs_ x -> Job.alive x' = Job.alive x ->
  (Job.state_ x' = Job.READY <-> Job.state_ x = Job.READY) -> (forall p w, process_work p w = true -> w ∈ L' <-> w ∈ L) ->
  (forall q k, AddChildJob q k ∈ L' \/ DestroyJob q k ∈ L' -> AddChildJob q k ∈ L \/ DestroyJob q k ∈ L) ->
  (forall k rc, KillJob k rc ∈ L -> KillJob k rc ∈ L' \/ k = j /\ Job.state_ x <> Job.READY) ->
  inv_pj P (<[j := x']> J) L' sh.
Proof.
  intros I Hx Ep Ej Ea Est Hpw Had Hk. apply (inv_pj_jobs P J _ L); try done.
  - intros p z y Hz Hy Hal. destruct (decide (Process.job_ z = j)) as [E|Hne]; [exists x'; rewrite E in *; rewrite lookup_insert_eq; split; congruence | exists y; by rewrite lookup_insert_ne].
  - intros k y'. rewrite lookup_insert_Some. intros [[<- <-]|[_ Hy]]; right; [exists x; rewrite Est | exists y']; done.
  - intros q k Hq. destruct (Had q k Hq); [by left | by right; left].
  - intros Hs k y c z Hy Hst Hc Hz.
    assert (exists y0, J !! k = Some y0 /\ Job.state_ y0 <> Job.READY /\ c ∈ Job.jobs_ y0) as (y0 & Hy0 & Hst0 & Hc0).
    { rewrite lookup_insert_Some in Hy. destruct Hy as [[<- <-]|[_ Hy]]; [exists x; by rewrite <- Est, <- Ej | by exists y]. }
    assert (exists z0, J !! c = Some z0 /\ (Job.state_ z = Job.READY <-> Job.state_ z0 = Job.READY) /\ Job.alive z = Job.alive z0) as (z0 & Hz0 & Estz & Ealz).
    { rewrite lookup_insert_Some in Hz. destruct Hz as [[<- <-]|[_ Hz]]; [by exists x | by exists z]. }
    rewrite Estz, Ealz. destruct (pj_kill_jobs _ _ _ _ I Hs k y0 c z0 Hy0 Hst0 Hc0 Hz0) as [?|[?|[rc Hrc]]]; [by left | by right; left|].
    destruct (Hk c rc Hrc) as [?|[-> ?]]; [right; right; by exists rc | left]. by assert (z0 = x) as -> by congruence.
Qed.

(** ** References and policies *)

Lemma job_refs_inv root s j x x' todo' new :
  inv root s -> jobs (tasks s) !! j = Some x -> swap [] new (pending s) (concat todo') -> (forall w, w ∈ new -> exists rc, w = KillJob j rc) ->
  Job.alive x = true -> settled (pending s) j -> Job.parent_ x' = Job.parent_ x -> Job.max_height_ x' = Job.max_height_ x -> Job.jobs_ x' = Job.jobs_ x ->
  Job.procs_ x' = Job.procs_ x -> Job.state_ x' = Job.state_ x -> Job.alive x' = Job.alive x -> Job.signals_ x' = Job.signals_ x ->
  Job.process_count_ x' = Job.process_count_ x -> Job.job_count_ x' = Job.job_count_ x ->
  (Job.has_handle x' = true \/ new <> [] -> j = root \/ attached (jobs (tasks s)) j x \/ Job.state_ x = Job.DEAD) -> (j = root -> Job.has_handle x' = true) ->
  inv root (mkSys (put_job j x' (tasks s)) todo' (tokens s) (short s)).
Proof.
  intros I Hx S Hn Hal Hs Ep Eh Ej Epr Est Ea Esg Epc Ejc Hlive Hroot. pose proof I as [It Ip Ij Ipj]. pose proof (j_all _ _ _ Ij j x Hx) as O.
  assert (forall w, w ∈ concat todo' -> w ∈ pending s \/ exists rc, w = KillJob j rc) as Hin.
  { intros w Hw. destruct (swap_in _ _ _ _ S _ Hw) as [?|?]; [right; by apply Hn | by left]. }
  assert (forall w, (forall rc, w <> KillJob j rc) -> times w (concat todo') = times w (pending s)) as Hsame.
  { intros w Hw. apply (swap_same _ _ _ _ S); [apply not_elem_of_nil|]. intros H. destruct (Hn w H) as [rc ->]. by apply (Hw rc). }
  assert (no_process new) as Hnp by (intros p w Hw; by destruct (Hn w Hw) as [rc ->]).
  apply (job_step root s (<[j := x']> (jobs (tasks s))) _ _ [] new); try done; [apply no_process_nil| |].
  - apply (one_job_inv _ (pending s) _ root j x); try done.
    + congruence.
    + unfold counts_ok. rewrite Epc, Ejc, Epr, Ej. apply O.
    + unfold signals_ok. rewrite Esg, Epr, Ej, Est. apply O.
    + rewrite Epr, Ej, Est. apply O.
    + rewrite Hsame by done. unfold to_die. rewrite Est, Epr, Ej. apply O.
    + intros q. destruct (Hs q) as [H1 H2]. split; intros Hq; destruct (Hin _ Hq) as [?|[? ?]]; done.
    + rewrite Est. intros [H|[[rc H]|H]]; [apply Hlive; by left | | apply (j_live _ _ _ _ _ O); by right; right].
      destruct (swap_in _ _ _ _ S _ H) as [H'|H']; [apply Hlive; right; intros En; rewrite En in H'; by apply not_elem_of_nil in H' | apply (j_live _ _ _ _ _ O); right; left; by exists rc].
    + intros q Hq. rewrite Est. destruct (Hin _ Hq) as [?|[? ?]]; [by apply (j_remove _ _ _ _ _ O) | done].
    + rewrite Est. intros H1 H2. destruct (j_leaving _ _ _ _ _ O H1 H2 Hal) as [q Hq]. exists q. apply (swap_keep _ _ _ _ S); [done | apply not_elem_of_nil].
    + intros k w Hk Hw. apply Hsame. intros rc ->. done.
    + intros k rc Hk Hrc. left. destruct (Hin _ Hrc) as [?|[? [= ? _]]]; done.
    + intros k w Hk Hw Hkw. left. destruct (Hin _ Hw) as [?|[rc ->]]; [done|]. simpl in Hkw. apply Z.eqb_eq in Hkw. done.
  - apply (one_job_pj _ _ (pending s) _ _ j x); try done.
    + by rewrite Est.
    + intros p w Hw. apply same_in, Hsame. intros rc ->. done.
    + intros q k [H|H]; destruct (Hin _ H) as [?|[? ?]]; try done; [by left | by right].
    + intros k rc H. left. apply (swap_keep _ _ _ _ S); [done | apply not_elem_of_nil].
Qed.

Lemma swap_refl L : swap [] [] L L.
Proof. intros a. simpl. lia. Qed.

Lemma job_attached_true s j x : job_attached s j = true -> jobs s !! j = Some x -> attached (jobs s) j x.
Proof.
  unfold job_attached, attached. intros H Hx. rewrite Hx in H. destruct (Job.parent_ x) as [q|]; [|done]. destruct (jobs s !! q) as [y|] eqn:Hy; [|done].
  exists q, y. split_and!; try done. by apply bool_decide_eq_true in H.
Qed.

Lemma close_job_inv root s j x :
  inv root s -> jobs (tasks s) !! j = Some x -> Job.has_handle x = true -> Job.parent_ x <> None -> exists s', run s (CloseJob j) = Some s' /\ inv root s'.
Proof.
  intros I Hx Hh Hp. destruct (handle_settled _ _ _ _ _ (i_j _ _ I) Hx Hh) as (O & Hs & Hal & Hl). unfold run, on_job. rewrite Hx. simpl. eexists. split; [done|].
  apply (job_refs_inv root s j x _ (todo s) []); try done; [apply swap_refl | by intros w ?%not_elem_of_nil|].
  intros ->. destruct Hp. by apply (root_job _ _ _ (i_j _ _ I) root x Hx).
Qed.

Lemma open_job_inv root s j x :
  inv root s -> jobs (tasks s) !! j = Some x -> Job.alive x = true -> job_attached (tasks s) j = true -> exists s', run s (OpenJob j) = Some s' /\ inv root s'.
Proof.
  intros I Hx Hal Hat. apply (job_attached_true _ _ x) in Hat; [|done]. pose proof (attached_settled _ _ _ _ _ (i_j _ _ I) Hx Hal Hat) as Hs.
  unfold run, on_job. rewrite Hx. simpl. eexists. split; [done|].
  apply (job_refs_inv root s j x _ (todo s) []); try done; [apply swap_refl | by intros w ?%not_elem_of_nil | by right; left].
Qed.

Lemma policy_inv root s j x p :
  inv root s -> jobs (tasks s) !! j = Some x -> Job.has_handle x = true -> inv root (with_tasks (put_job j (Job.put_policy p x) (tasks s)) s).
Proof.
  intros I Hx Hh. destruct (handle_settled _ _ _ _ _ (i_j _ _ I) Hx Hh) as (O & Hs & Hal & Hl).
  apply (job_refs_inv root s j x _ (todo s) []); try done; [apply swap_refl | by intros w ?%not_elem_of_nil].
Qed.

Lemma same_job_inv root s j x : inv root s -> jobs (tasks s) !! j = Some x -> inv root (with_tasks (put_job j x (tasks s)) s).
Proof. intros I Hx. unfold with_tasks, put_job. rewrite insert_id by done. by destruct s as [[] ? ? ?]. Qed.

Lemma set_policy_inv root s j x mode ps :
  inv root s -> jobs (tasks s) !! j = Some x -> Job.has_handle x = true -> exists s', run s (SetPolicy j mode ps) = Some s' /\ inv root s'.
Proof.
  intros I Hx Hh. unfold run, on_job. rewrite Hx. cbn [mbind option_bind]. eexists. split; [done|]. unfold Job.SetBasicPolicy.
  destruct (Job.CanSetPolicy x); [|by apply same_job_inv]. simpl. destruct (JobPolicy.AddBasicPolicy mode ps (Job.policy_ x)) as [st p]. by apply policy_inv.
Qed.

Lemma set_slack_inv root s j x m d :
  inv root s -> jobs (tasks s) !! j = Some x -> Job.has_handle x = true -> exists s', run s (SetSlack j m d) = Some s' /\ inv root s'.
Proof.
  intros I Hx Hh. unfold run, on_job. rewrite Hx. cbn [mbind option_bind]. eexists. split; [done|]. unfold Job.SetTimerSlackPolicy.
  destruct (Job.CanSetPolicy x); [|by apply same_job_inv]. destruct (m <? 0); [by apply same_job_inv|]. cbn [negb].
  destruct (if d =? ZX_TIMER_SLACK_CENTER then _ else _); [by apply policy_inv | by apply same_job_inv].
Qed.

Lemma task_kill_job_inv root s j x rc :
  inv root s -> jobs (tasks s) !! j = Some x -> Job.has_handle x = true -> exists s', run s (TaskKillJob j rc) = Some s' /\ inv root s'.
Proof.
  intros I Hx Hh. destruct (handle_settled _ _ _ _ _ (i_j _ _ I) Hx Hh) as (O & Hs & Hal & Hl). simpl. eexists. split; [done|].
  pose proof (job_refs_inv root s j x x ([KillJob j rc] :: todo s) [KillJob j rc] I Hx (start_swap _ s)) as H.
  unfold put_job in H. rewrite insert_id, mkTasks_eta in H by done. apply H; try done. intros w ->%list_elem_of_singleton. by exists rc.
Qed.

(** ** Death *)

Lemma terminated_job_signals x rc :
  signals_ok x -> signals_ok (Job.put_state Job.DEAD rc (update_signals 0 ZX_TASK_TERMINATED (Job.signals_ x)) x).
Proof.
  intros (S1 & S2 & S3). unfold signals_ok. simpl. rewrite terminated_signal, <- S1, <- S2. unfold update_signals.
  change ZX_JOB_NO_PROCESSES with (2 ^ 5). change ZX_JOB_NO_JOBS with (2 ^ 4). change ZX_TASK_TERMINATED with (2 ^ 3). rewrite !has_update by lia.
  split_and!; [by rewrite andb_true_r | by rewrite andb_true_r | done].
Qed.

Lemma finish_dead_job_inv root s i j k aj ap :
  inv root s -> todo s !! i = Some (FinishDeadJob j :: k) -> exists s', run s (Work i aj ap) = Some s' /\ inv root s'.
Proof.
  intros I Hi. pose proof I as [It Ip Ij Ipj]. destruct (todo_swap _ _ _ _ [] Hi) as [Hin _].
  destruct (work_settles _ _ _ j (FinishDeadJob j) Ij Hin) as (x & Hx & O & Hs & Hal); [own_work | done | done|].
  pose proof (j_finish _ _ _ _ _ O) as Hf. fold (to_die x) in Hf. pose proof (proj1 (times_in _ _) Hin) as Hpos. destruct (to_die x) eqn:Hd; [|lia].
  unfold to_die in Hd. apply andb_true_iff in Hd as [[Hst%bool_decide_eq_true Hnp%bool_decide_eq_true]%andb_true_iff Hnj%bool_decide_eq_true].
  set (x' := Job.put_state Job.DEAD (Job.return_code_ x) (update_signals 0 ZX_TASK_TERMINATED (Job.signals_ x)) x).
  destruct (j_live _ _ _ _ _ O) as [_ Hlive]; [by right; right|].
  set (ws := match Job.parent_ x with None => [] | Some q => [RemoveJob q j] end). destruct (todo_swap _ _ _ _ ws Hi) as [_ S].
  assert (exec aj ap (FinishDeadJob j) (tasks s) = Some (put_job j x' (tasks s), ws)) as Eex.
  { simpl. unfold finish_dead_job. rewrite Hx. cbn [mbind option_bind]. fold x'. unfold ws. destruct (Job.parent_ x) as [q|] eqn:Hp; [|done].
    destruct Hlive as [->|[(q' & y & Hq' & Hy & Hc)|?]]; [pose proof (proj2 (root_job _ _ _ Ij root x Hx) eq_refl); congruence | | congruence].
    assert (q' = q) as -> by congruence. rewrite Hy. simpl. rewrite bool_decide_eq_false_2; [done|]. intros Hdead.
    destruct (j_dead _ _ _ _ _ (j_all _ _ _ Ij q y Hy) Hdead) as [_ E]. rewrite E in Hc. by apply not_elem_of_nil in Hc. }
  assert (forall w, w ∈ ws -> exists q, Job.parent_ x = Some q /\ w = RemoveJob q j) as Hws.
  { intros w. unfold ws. destruct (Job.parent_ x) as [q|]; [intros ->%list_elem_of_singleton; by exists q | by intros ?%not_elem_of_nil]. }
  eexists. split; [eapply run_work; [done | exact Eex | done]|].
  assert (no_process [FinishDeadJob j]) as Hno by by apply no_process_one.
  assert (no_process ws) as Hnn by (intros p w Hw; by destruct (Hws w Hw) as (q & _ & ->)).
  apply (job_step root s (<[j := x']> (jobs (tasks s))) _ _ [FinishDeadJob j] ws); try done.
  - apply (one_job_inv _ (pending s) _ root j x); try done.
    + intros ->. destruct (j_root _ _ _ Ij) as (r & Hr & _ & ?). simpl. congruence.
    + apply O.
    + apply terminated_job_signals, O.
    + rewrite (swap_count _ _ _ _ S _ 1 0); [rewrite Hf; done | count_work|]. apply times_not_in. intros H. by destruct (Hws _ H) as (q & _ & ?).
    + intros q. destruct (Hs q) as [H1 H2]. split; intros Hq; (destruct (swap_in _ _ _ _ S _ Hq) as [Hq'|?]; [by destruct (Hws _ Hq') as (? & _ & ?) | done]).
    + by right; right.
    + intros q Hq. split; [|done]. destruct (swap_in _ _ _ _ S _ Hq) as [Hq'|Hq']; [destruct (Hws _ Hq') as (q0 & ? & [= ->]); done|]. by destruct (j_remove _ _ _ _ _ O q Hq').
    + intros (q & y & Hp & _) _. exists q. apply (swap_new _ _ _ _ S); [unfold ws; rewrite Hp; by apply list_elem_of_singleton | by intros ?%list_elem_of_singleton].
    + intros c w Hc Hw. apply (swap_same _ _ _ _ S).
      * intros ->%list_elem_of_singleton. simpl in Hw. apply Z.eqb_eq in Hw. done.
      * intros H. destruct (Hws w H) as (q & _ & ->). simpl in Hw. apply Z.eqb_eq in Hw. done.
    + intros c rc Hc H. left. destruct (swap_in _ _ _ _ S _ H) as [H'|?]; [by destruct (Hws _ H') as (? & _ & ?) | done].
    + intros c w Hc Hw Hcw. destruct (swap_in _ _ _ _ S _ Hw) as [H'|?]; [right | by left]. destruct (Hws w H') as (q & Hp & ->). simpl in Hcw.
      apply orb_true_iff in Hcw as [Hcw%Z.eqb_eq|Hcw%Z.eqb_eq]; [subst c | done].
      destruct (parent_settled _ _ _ _ _ _ Ij Hx Hp) as (y & Hy & _ & Hsq & _). by split; [|exists y].
  - apply (one_job_pj _ _ (pending s) _ _ j x); try done.
    + simpl. rewrite Hst. done.
    + intros p w Hw. apply same_in. by apply (swap_no_process _ _ _ _ S Hno Hnn p).
    + intros q c [H|H]; (destruct (swap_in _ _ _ _ S _ H) as [H'|?]; [by destruct (Hws _ H') as (? & _ & ?) | auto]).
    + intros c rc H. left. apply (swap_keep _ _ _ _ S); [done | by intros ?%list_elem_of_singleton].
Qed.

(** ** Killing a job *)

(** More processes are to be killed. *)
Lemma inv_p_kills T P L L' :
  inv_p T P L -> (forall p w, process_work p w = true -> (forall rc, w <> KillProcess p rc) -> times w L' = times w L) ->
  (forall p rc, KillProcess p rc ∈ L' -> KillProcess p rc ∈ L \/
     exists x, P !! p = Some x /\ Process.alive x = true /\ forall q, AddChildProcess q p ∉ L) ->
  inv_p T P L'.
Proof.
  intros [H1 H2] HL Hk.
  assert (forall p w, process_work p w = true -> w ∈ L' -> w ∈ L \/ exists rc, w = KillProcess p rc) as Hin.
  { intros p w Hw Hw'. destruct w; simpl in Hw; try done; try (left; apply (same_in _ L L'); [apply (HL p); [own_work | done] | done]).
    right. apply Z.eqb_eq in Hw as ->. by exists retcode. }
  constructor.
  - intros p x Hx. pose proof (H1 p x Hx) as O. apply (proc_ok_keep T L L' p x x); try done.
    + apply O.
    + intros E1 E2. destruct (q_zero _ _ _ _ O E1 E2) as [?|?]; [left | right]; (eapply same_in; [apply (HL p); [own_work | done] | done]).
    + intros w Hw. apply (HL p); [by destruct w | intros rc ->; done].
    + intros w Hw Hpw. destruct (Hin p w Hpw Hw) as [?|[rc ->]]; [by left|]. destruct (Hk p rc Hw) as [?|(x0 & Hx0 & Hal & Hadd)]; [by left | right].
      by assert (x0 = x) as -> by congruence.
  - intros p w Hw Hpw. destruct (Hin p w Hpw Hw) as [?|[rc ->]]; [by apply (H2 p w)|].
    destruct (Hk p rc Hw) as [?|(x0 & Hx0 & _)]; [by apply (H2 p (KillProcess p rc)) | by exists x0].
Qed.

Lemma live_refs_in n alloc l c : c ∈ live_refs n alloc l -> c ∈ l.
Proof. unfold live_refs. destruct (n =? 0); [by intros ?%not_elem_of_nil|]. destruct alloc; [done | by intros ?%not_elem_of_nil]. Qed.

Lemma elem_of_rev (l : list Z) c : c ∈ rev l <-> c ∈ l.
Proof. rewrite !list_elem_of_In. symmetry. apply in_rev. Qed.

(** What [Kill] leaves to be done. *)
Section KillJob.
Context (s : Tasks) (x : Job.Job) (j rc : Z) (aj ap : bool).
Let x' := Job.put_state Job.KILLING rc (Job.signals_ x) x.
Let killed_jobs : list Z := rev (live_refs (Job.job_count_ x) aj (alive_jobs s (Job.jobs_ x))).
Let killed_processes : list Z := rev (live_refs (Job.process_count_ x) ap (alive_processes s (Job.procs_ x))).
Definition kill_work : list work :=
  (if Job.IsReadyForDeadTransitionLocked x' then [FinishDeadJob j] else []) ++ map (fun c => KillJob c rc) killed_jobs ++ map (fun p => KillProcess p rc) killed_processes.

Lemma kill_work_in w : w ∈ kill_work -> w = FinishDeadJob j \/
  (exists c z, w = KillJob c rc /\ c ∈ Job.jobs_ x /\ jobs s !! c = Some z /\ Job.alive z = true) \/
  (exists p z, w = KillProcess p rc /\ p ∈ Job.procs_ x /\ processes s !! p = Some z /\ Process.alive z = true).
Proof.
  unfold kill_work. rewrite !elem_of_app. intros [H|[H|H]].
  - destruct (Job.IsReadyForDeadTransitionLocked x'); [apply list_elem_of_singleton in H; by left | by apply not_elem_of_nil in H].
  - right; left. apply list_elem_of_In, in_map_iff in H as (c & <- & Hc). apply list_elem_of_In in Hc. unfold killed_jobs in Hc. rewrite elem_of_rev in Hc.
    apply live_refs_in, list_elem_of_filter in Hc as [Hc ?]. destruct (jobs s !! c) as [z|] eqn:E; [|done]. exists c, z. split_and!; try done. simpl in Hc. congruence.
  - right; right. apply list_elem_of_In, in_map_iff in H as (p & <- & Hp). apply list_elem_of_In in Hp. unfold killed_processes in Hp. rewrite elem_of_rev in Hp.
    apply live_refs_in, list_elem_of_filter in Hp as [Hp ?]. destruct (processes s !! p) as [z|] eqn:E; [|done]. exists p, z. split_and!; try done. simpl in Hp. congruence.
Qed.

Lemma kill_work_finish : counts_ok x -> times (FinishDeadJob j) kill_work = if to_die x' then 1 else 0.
Proof.
  intros C. unfold kill_work. rewrite !times_app. rewrite ready_for_dead by done.
  assert (times (FinishDeadJob j) (map (fun c => KillJob c rc) killed_jobs) = 0) as -> by (apply times_not_in; rewrite list_elem_of_In, in_map_iff; by intros (? & ? & _)).
  assert (times (FinishDeadJob j) (map (fun p => KillProcess p rc) killed_processes) = 0) as -> by (apply times_not_in; rewrite list_elem_of_In, in_map_iff; by intros (? & ? & _)).
  destruct (to_die x'); [count_work | done].
Qed.

(** Every child with a reference, unless an allocation fails. *)
Lemma kill_work_jobs c z : counts_ok x -> aj = true -> c ∈ Job.jobs_ x -> jobs s !! c = Some z -> Job.alive z = true -> KillJob c rc ∈ kill_work.
Proof.
  intros (_ & C & _) Ea Hc Hz Hal. unfold kill_work. rewrite !elem_of_app. right; left. apply list_elem_of_In, in_map_iff. exists c. split; [done|]. apply list_elem_of_In.
  unfold killed_jobs. rewrite elem_of_rev. unfold live_refs. rewrite Ea, C, zlen_empty, bool_decide_eq_false_2 by (intros E; rewrite E in Hc; by apply not_elem_of_nil in Hc).
  apply list_elem_of_filter. rewrite Hz. simpl. by rewrite Hal.
Qed.

Lemma kill_work_processes p z : counts_ok x -> ap = true -> p ∈ Job.procs_ x -> processes s !! p = Some z -> Process.alive z = true -> KillProcess p rc ∈ kill_work.
Proof.
  intros (C & _) Ea Hc Hz Hal. unfold kill_work. rewrite !elem_of_app. right; right. apply list_elem_of_In, in_map_iff. exists p. split; [done|]. apply list_elem_of_In.
  unfold killed_processes. rewrite elem_of_rev. unfold live_refs. rewrite Ea, C, zlen_empty, bool_decide_eq_false_2 by (intros E; rewrite E in Hc; by apply not_elem_of_nil in Hc).
  apply list_elem_of_filter. rewrite Hz. simpl. by rewrite Hal.
Qed.
End KillJob.

Section Killing.
Context (root : Z) (s : Sys) (j rc : Z) (x : Job.Job) (aj ap : bool) (L' : list work).
Context (I : inv root s) (Hx : jobs (tasks s) !! j = Some x) (Hst : Job.state_ x = Job.READY) (Hin : KillJob j rc ∈ pending s).
Let new := kill_work (tasks s) x j rc aj ap.
Let x' := Job.put_state Job.KILLING rc (Job.signals_ x) x.
Context (S : swap [KillJob j rc] new (pending s) L').

Lemma kill_child c z : c ∈ Job.jobs_ x -> jobs (tasks s) !! c = Some z -> attached (jobs (tasks s)) c z.
Proof.
  intros Hc Hz. destruct (j_children _ _ _ _ _ (j_all _ _ _ (i_j _ _ I) j x Hx) c Hc) as (z0 & Hz0 & Hp). assert (z0 = z) as -> by congruence. by exists j, x.
Qed.

Lemma kill_inv_j : inv_j (<[j := x']> (jobs (tasks s))) L' root.
Proof using All.
  pose proof I as [It Ip Ij Ipj]. pose proof (kill_work_in (tasks s) x j rc aj ap) as Hnew. fold new in Hnew.
  destruct (work_settles _ _ _ j (KillJob j rc) Ij Hin) as (x0 & Hx0 & O & Hs & Hal); [own_work | done | done|]. assert (x0 = x) as -> by congruence.
  pose proof (j_counts _ _ _ _ _ O) as C. destruct (j_live _ _ _ _ _ O) as [_ Hlive]; [right; left; by exists rc|].
  apply (one_job_inv _ (pending s) _ root j x); try done.
  - intros ->. destruct (j_root _ _ _ Ij) as (r & Hr & _ & ?). simpl. congruence.
  - destruct (j_signals _ _ _ _ _ O) as (S1 & S2 & S3). unfold signals_ok. simpl. rewrite S1, S2, S3, Hst. done.
  - rewrite (swap_count _ _ _ _ S _ 0 (if to_die x' then 1 else 0)); [|count_work | by apply kill_work_finish].
    rewrite (j_finish _ _ _ _ _ O), Hst. simpl. lia.
  - intros q. destruct (Hs q) as [H1 H2]. split; intros Hq; (destruct (swap_in _ _ _ _ S _ Hq) as [Hq'|?]; [|done]);
      destruct (Hnew _ Hq') as [?|[(? & ? & ? & _)|(? & ? & ? & _)]]; done.
  - intros _. destruct Hlive as [?|[?|?]]; [by left | by right; left | congruence].
  - intros q Hq. destruct (swap_in _ _ _ _ S _ Hq) as [Hq'|Hq']; [by destruct (Hnew _ Hq') as [?|[(? & ? & ? & _)|(? & ? & ? & _)]]|].
    destruct (j_remove _ _ _ _ _ O q Hq'). congruence.
  - intros k w Hk Hw. apply (swap_same _ _ _ _ S).
    + intros ->%list_elem_of_singleton. done.
    + intros H. destruct (Hnew _ H) as [->|[(? & ? & -> & _)|(? & ? & -> & _)]]; try done. simpl in Hw. apply Z.eqb_eq in Hw. done.
  - intros k rc' Hk Hrc. destruct (swap_in _ _ _ _ S _ Hrc) as [H|H]; [right | by left].
    destruct (Hnew _ H) as [?|[(c & z & [= -> ->] & Hc & Hz & Halz)|(? & ? & ? & _)]]; try done. exists z. split_and!; try done. right; left. by apply kill_child.
  - intros k w Hk Hw Hkw. destruct (swap_in _ _ _ _ S _ Hw) as [H|H]; [right | by left]. destruct (Hnew _ H) as [->|[(c & z & -> & Hc & Hz & Halz)|(? & ? & -> & _)]]; try done;
      simpl in Hkw; apply Z.eqb_eq in Hkw as ->; [done|]. split; [|by exists z]. apply (attached_settled (jobs (tasks s)) _ root _ z); try done. by apply kill_child.
Qed.

Lemma kill_inv_p : inv_p (threads (tasks s)) (processes (tasks s)) L'.
Proof using All.
  pose proof I as [It Ip Ij Ipj]. pose proof (kill_work_in (tasks s) x j rc aj ap) as Hnew. fold new in Hnew.
  apply (inv_p_kills _ _ (pending s)); [done| |].
  - intros p w Hw Hk. apply (swap_same _ _ _ _ S); [by intros ->%list_elem_of_singleton|]. intros H.
    destruct (Hnew _ H) as [->|[(? & ? & -> & _)|(p' & ? & -> & _)]]; try done. simpl in Hw. apply Z.eqb_eq in Hw as ->. by apply (Hk rc).
  - intros p rc' Hrc. destruct (swap_in _ _ _ _ S _ Hrc) as [H|H]; [right | by left].
    destruct (Hnew _ H) as [?|[(? & ? & ? & _)|(p' & z & [= -> ->] & Hp & Hz & Halz)]]; try done. exists z. split_and!; try done.
    intros q Hq. by apply (pj_creating _ _ _ _ Ipj q p' j x Hq Hx).
Qed.

Lemma kill_inv_pj : inv_pj (processes (tasks s)) (<[j := x']> (jobs (tasks s))) L' (short s || negb (aj && ap)).
Proof using All.
  pose proof I as [It Ip Ij Ipj]. pose proof (kill_work_in (tasks s) x j rc aj ap) as Hnew. fold new in Hnew.
  pose proof (j_counts _ _ _ _ _ (j_all _ _ _ Ij j x Hx)) as C. destruct Ipj as [I1 I2 I3 I4 I5 I6 I7 I8].
  assert (forall w, (forall c, w <> KillJob c rc) -> w <> FinishDeadJob j -> (forall p, w <> KillProcess p rc) -> w ∈ L' <-> w ∈ pending s) as Hin'.
  { intros w H1 H2 H3. apply same_in, (swap_same _ _ _ _ S); [intros ->%list_elem_of_singleton; by apply (H1 j)|]. intros H.
    destruct (Hnew _ H) as [->|[(? & ? & -> & _)|(? & ? & -> & _)]]; [done | by apply (H1 x0) | by apply (H3 x0)]. }
  assert (forall k y, <[j := x']> (jobs (tasks s)) !! k = Some y -> exists y0, jobs (tasks s) !! k = Some y0 /\ Job.procs_ y = Job.procs_ y0 /\ Job.jobs_ y = Job.jobs_ y0 /\
            Job.alive y = Job.alive y0 /\ (Job.state_ y0 <> Job.READY -> Job.state_ y <> Job.READY) /\ (k <> j -> y0 = y)) as HJ.
  { intros k y. rewrite lookup_insert_Some. intros [[<- <-]|[Hne Hy]]; [exists x | exists y]; split_and!; try done. }
  constructor.
  - intros p z Hz. destruct (I1 p z Hz) as (y & Hy & Hal). destruct (decide (Process.job_ z = j)) as [E|Hne];
      [exists x'; rewrite E in *; rewrite lookup_insert_eq; split; [done | simpl; congruence] | exists y; by rewrite lookup_insert_ne].
  - intros k y p Hy Hp. destruct (HJ k y Hy) as (y0 & Hy0 & E & _). rewrite E in Hp. by apply (I2 k y0).
  - intros q p k y Hq Hy. rewrite Hin' in Hq by done. destruct (HJ k y Hy) as (y0 & Hy0 & E & _). rewrite E. by apply (I3 q p k).
  - intros k y p z Hy Hp Hz Hcd. rewrite !Hin' by done. destruct (HJ k y Hy) as (y0 & Hy0 & E & _). rewrite E in Hp. by apply (I4 k y0 p z).
  - intros q k p z Hq. rewrite Hin' in Hq by done. by apply (I5 q).
  - intros q k p z Hq. rewrite Hin' in Hq by done. by apply (I6 q).
  - intros [Hsh Hall%negb_false_iff]%orb_false_iff k y c z Hy Hsty Hc Hz. apply andb_true_iff in Hall as [Haj _].
    destruct (HJ k y Hy) as (y0 & Hy0 & _ & Ej & _ & _ & Eq). destruct (HJ c z Hz) as (z0 & Hz0 & _ & _ & Ea & Hr & Eqz). rewrite Ea, Ej in *.
    destruct (decide (Job.alive z0 = false)) as [?|Hal%not_false_is_true]; [by right; left|]. destruct (decide (k = j)) as [->|Hne].
    + right; right. exists rc. assert (y0 = x) as -> by congruence. assert (c <> j) as Hcj.
      { intros ->. destruct (j_children _ _ _ _ _ (j_all _ _ _ Ij j x Hx) j Hc) as (x1 & Hx1 & Hp1). by apply (not_own_parent _ _ _ _ _ Hx1 (j_all _ _ _ Ij j x1 Hx1)). }
      apply (swap_new _ _ _ _ S); [by apply (kill_work_jobs _ _ _ _ _ _ c z0) | intros [= ?]%list_elem_of_singleton; done].
    + rewrite (Eq Hne) in Hy0. destruct (I7 Hsh k y c z0 Hy0 Hsty) as [?|[?|[rc' Hrc]]]; try done; [by rewrite <- Ej, (Eq Hne) || congruence | left; by apply Hr | by right; left|].
      destruct (decide (KillJob c rc' = KillJob j rc)) as [[= -> ->]|Hnk]; [left; assert (z = x') as -> by (rewrite lookup_insert_eq in Hz; congruence); done | right; right].
      exists rc'. apply (swap_keep _ _ _ _ S); [done | by intros ?%list_elem_of_singleton].
  - intros [Hsh Hall%negb_false_iff]%orb_false_iff k y p z Hy Hsty Hp Hz. apply andb_true_iff in Hall as [_ Hap].
    destruct (HJ k y Hy) as (y0 & Hy0 & Ep & _ & _ & _ & Eq). rewrite Ep in Hp.
    destruct (decide (Process.alive z = false)) as [?|Hal%not_false_is_true]; [by right; left|]. destruct (decide (k = j)) as [->|Hne].
    + right; right. exists rc. assert (y0 = x) as -> by congruence. apply (swap_new _ _ _ _ S); [by apply (kill_work_processes _ _ _ _ _ _ p z) | by intros ?%list_elem_of_singleton].
    + rewrite (Eq Hne) in *. destruct (I8 Hsh k y p z Hy0 Hsty Hp Hz) as [?|[?|[rc' Hrc]]]; [by left | by right; left | right; right]. exists rc'.
      apply (swap_keep _ _ _ _ S); [done | by intros ?%list_elem_of_singleton].
Qed.
End Killing.

Lemma kill_job_idle root s i j rc k x :
  inv root s -> todo s !! i = Some (KillJob j rc :: k) -> jobs (tasks s) !! j = Some x -> Job.state_ x <> Job.READY ->
  inv root (mkSys (tasks s) (<[i := [] ++ k]> (todo s)) (tokens s) (short s)).
Proof.
  intros I Hi Hx Hst. pose proof I as [It Ip Ij Ipj]. destruct (todo_swap _ _ _ _ [] Hi) as [Hin S].
  destruct (work_settles _ _ _ j (KillJob j rc) Ij Hin) as (x0 & Hx0 & O & Hs & Hal); [own_work | done | done|]. assert (x0 = x) as -> by congruence.
  assert (forall w, w <> KillJob j rc -> times w (concat (<[i := [] ++ k]> (todo s))) = times w (pending s)) as Hsame.
  { intros w Hw. apply (swap_same _ _ _ _ S); [by intros ?%list_elem_of_singleton | apply not_elem_of_nil]. }
  assert (forall w, w ∈ concat (<[i := [] ++ k]> (todo s)) -> w ∈ pending s) as Hsub.
  { intros w Hw. destruct (swap_in _ _ _ _ S _ Hw) as [H|H]; [by apply not_elem_of_nil in H | done]. }
  rewrite <- (mkTasks_eta (tasks s)) at 1. rewrite <- (insert_id (jobs (tasks s)) j x Hx) at 1.
  apply (job_step root s _ _ _ [KillJob j rc] []); try done; [by apply no_process_one | apply no_process_nil| |].
  - apply (one_job_inv _ (pending s) _ root j x); try done; try apply O.
    + intros ->. destruct (j_root _ _ _ Ij) as (r & Hr & _ & ?). congruence.
    + rewrite Hsame by done. apply O.
    + intros q. destruct (Hs q). split; intros Hq%Hsub; done.
    + intros H. apply O. destruct H as [?|[[rc' H]|?]]; [by left | right; left; exists rc'; by apply Hsub | by right; right].
    + intros q Hq%Hsub. by apply O.
    + intros H1 H2. destruct (j_leaving _ _ _ _ _ O H1 H2 Hal) as [q Hq]. exists q. apply (swap_keep _ _ _ _ S); [done | by intros ?%list_elem_of_singleton].
    + intros c w Hc Hw. apply Hsame. intros ->. done.
    + intros c rc' Hc H. left. by apply Hsub.
    + intros c w Hc H _. left. by apply Hsub.
  - apply (one_job_pj _ _ (pending s) _ _ j x); try done.
    + intros p w Hw. apply same_in, Hsame. by intros ->.
    + intros q c [H%Hsub|H%Hsub]; [by left | by right].
    + intros c rc' H. destruct (decide (KillJob c rc' = KillJob j rc)) as [[= -> ->]|Hne]; [by right | left].
      apply (swap_keep _ _ _ _ S); [done | by intros ?%list_elem_of_singleton].
Qed.

(** The flag only goes up. *)
Lemma inv_short root T t K sh sh' : inv root (mkSys T t K sh) -> inv root (mkSys T t K (sh || sh')).
Proof.
  intros [It Ip Ij [I1 I2 I3 I4 I5 I6 I7 I8]]. constructor; try done. constructor; try done; intros [Hs _]%orb_false_iff; [by apply I7 | by apply I8].
Qed.

Lemma kill_job_inv root s i j rc k aj ap :
  inv root s -> todo s !! i = Some (KillJob j rc :: k) -> exists s', run s (Work i aj ap) = Some s' /\ inv root s'.
Proof.
  intros I Hi. pose proof I as [It Ip Ij Ipj]. destruct (todo_swap _ _ _ _ [] Hi) as [Hin _].
  destruct (j_exists _ _ _ Ij j (KillJob j rc) Hin) as [x Hx]; [own_work|]. unfold run. rewrite Hi. cbn [mbind option_bind exec]. unfold kill_job.
  rewrite Hx. cbn [mbind option_bind]. destruct (bool_decide_reflect (Job.state_ x = Job.READY)) as [Hst|Hst]; cbn [negb mbind option_bind].
  - eexists. split; [done|]. set (ws := (if Job.IsReadyForDeadTransitionLocked _ then _ else _) ++ _).
    assert (ws = kill_work (tasks s) x j rc aj ap) as Ews by done. destruct (todo_swap _ _ _ _ ws Hi) as [_ S]. rewrite Ews in S at 1. constructor; simpl.
    + apply (inv_t_work _ _ (pending s)); [done|]. apply (swap_release _ _ _ _ S). intros p t H.
      by destruct (kill_work_in _ _ _ _ _ _ _ H) as [?|[(? & ? & ? & _)|(? & ? & ? & _)]].
    + by apply (kill_inv_p root s j rc x aj ap).
    + by apply (kill_inv_j root s j rc x aj ap).
    + by apply (kill_inv_pj root s j rc x aj ap).
  - eexists. split; [done|]. apply inv_short, (kill_job_idle root s i j rc k x); auto.
Qed.
