(* ===== verification/TaskTreeSteps.v ===== *)
(** * Correctness of tasks: jobs that join and leave the tree

    Jobs that are created, accepted or refused by their parents, that leave the tree
    and are destroyed, with the invariant of [TaskFacts.v]. *)

From S2P Require Import Prelude Zx JobPolicy Thread Tasks TaskSystem TaskFacts TaskProcessFacts TaskWorkFacts TaskJobFacts TaskTreeFacts.
Import Tasks ThreadState Thread.

(** ** A new job *)

(** There is nothing about a job that is not there yet. *)
Lemma fresh_job P J L root sh j :
  inv_j J L root -> inv_pj P J L sh -> J !! j = None ->
  (forall w, w ∈ L -> job_work j w = false) /\ (forall k y, J !! k = Some y -> (j ∉ Job.jobs_ y) /\ Job.parent_ y <> Some j) /\
  (forall p x, P !! p = Some x -> Process.job_ x <> j) /\ j <> root.
Proof.
  intros I Ipj Hj. split_and!.
  - intros w Hw. apply not_true_is_false. intros H. destruct (j_exists _ _ _ I j w Hw H). congruence.
  - intros k y Hy. pose proof (j_all _ _ _ I k y Hy) as O. split.
    + intros Hc. destruct (j_children _ _ _ _ _ O j Hc) as (z & ? & _). congruence.
    + intros Hp. destruct (j_parent _ _ _ _ _ O j Hp) as (z & ? & _). congruence.
  - intros p x Hx <-. destruct (pj_job _ _ _ _ Ipj p x Hx) as (y & ? & _). congruence.
  - intros ->. destruct (j_root _ _ _ I) as (y & ? & _). congruence.
Qed.

Lemma create_job_step P J L L' root sh q j y policy :
  let x := Job.new_job (Some (q, Job.max_height_ y)) policy in
  inv_j J L root -> inv_pj P J L sh -> J !! q = Some y -> Job.has_handle y = true -> J !! j = None -> Job.max_height_ y <> 0 ->
  swap [] [AddChildJob q j] L L' -> inv_j (<[j := x]> J) L' root /\ inv_pj P (<[j := x]> J) L' sh.
Proof.
  intros x Ij Ipj Hy Hh Hj E0 S. destruct (handle_settled _ _ _ _ _ Ij Hy Hh) as (Oq & Hsq & Halq & _).
  destruct (fresh_job _ _ _ _ _ _ Ij Ipj Hj) as (F1 & F2 & F3 & F4). assert (q <> j) as Hqj by congruence.
  assert (forall w, w ∈ L' -> w = AddChildJob q j \/ w ∈ L) as Hin.
  { intros w Hw. destruct (swap_in _ _ _ _ S _ Hw) as [->%list_elem_of_singleton|?]; [by left | by right]. }
  assert (forall w, w <> AddChildJob q j -> times w (L') = times w L) as Hsame.
  { intros w Hw. apply (swap_same _ _ _ _ S); [apply not_elem_of_nil | by intros ?%list_elem_of_singleton]. }
  split.
  - apply (inv_j_update J _ L L' root [j]); try done.
    + destruct (j_root _ _ _ Ij) as (r & ? & ?). exists r. by rewrite lookup_insert_ne.
    + intros k Hk. apply lookup_insert_ne. intros <-. by apply Hk, list_elem_of_singleton.
    + intros k ->%list_elem_of_singleton. rewrite lookup_insert_eq, Hj. simpl. split; [intros; apply not_elem_of_nil|]. intros i [= <-]. by right.
    + intros k w Hk Hw. apply Hsame. intros ->. apply Hk, list_elem_of_singleton. simpl in Hw. by apply Z.eqb_eq in Hw.
    + intros k rc Hk H. left. by destruct (Hin _ H).
    + intros k w Hk Hw Hkw. destruct (Hin _ Hw) as [->|?]; [right | by left]. simpl in Hkw. apply orb_true_iff in Hkw as [Hkw%Z.eqb_eq|Hkw%Z.eqb_eq];
        [subst; split; [done | by exists y] | destruct Hk; by apply list_elem_of_singleton].
    + intros k w ->%list_elem_of_singleton _ _. rewrite lookup_insert_eq. by eexists.
    + intros k z ->%list_elem_of_singleton. rewrite lookup_insert_eq. intros [= <-].
      assert (~ attached (<[j := x]> J) j x) as Hna.
      { intros (q' & y' & [= <-] & Hy' & Hc). rewrite lookup_insert_ne in Hy' by done. assert (y' = y) as -> by congruence. by destruct (F2 q y Hy). }
      assert (forall w, w ∈ L' -> job_work j w = true -> w = AddChildJob q j) as Honly.
      { intros w Hw Hjw. destruct (Hin w Hw) as [?|Hw']; [done|]. apply F1 in Hw'. congruence. }
      pose proof (j_height _ _ _ _ _ Oq) as Hhq.
      constructor; simpl; try done.
      * intros q' [= <-]. exists y. rewrite lookup_insert_ne by done. done.
      * lia.
      * split_and!; try done; apply NoDup_nil_2.
      * intros c Hc. by apply not_elem_of_nil in Hc.
      * rewrite Hsame by done. apply times_not_in. intros H. apply F1 in H. simpl in H. by rewrite Z.eqb_refl in H.
      * intros q' Hq'. assert (AddChildJob q' j = AddChildJob q j) as [= ->] by (apply Honly; [done | own_work]). split_and!; try done.
        { rewrite (swap_count _ _ _ _ S _ 0 1); [|done|count_work]. assert (times (AddChildJob q j) L = 0); [|lia].
          apply times_not_in. intros H. apply F1 in H. simpl in H. by rewrite Z.eqb_refl, orb_true_r in H. }
        { intros c z. rewrite lookup_insert_Some. intros [[<- <-]|[_ Hz]]; [simpl; congruence | by apply (F2 c z)]. }
      * intros [?|[[rc Hrc]|?]]; try done. apply Honly in Hrc; [done | own_work].
      * intros q' Hq'. apply Honly in Hq'; [done | own_work].
      * intros q' Hq'. apply Honly in Hq'; [done | own_work].
  - apply (inv_pj_jobs _ J _ L L'); try done.
    + intros p z y0 Hz Hy0 Hal0. exists y0. rewrite lookup_insert_ne; [done|]. intros E. rewrite <- E in Hy0. congruence.
    + intros k y0. rewrite lookup_insert_Some. intros [[<- <-]|[_ H]]; [by left | right; by exists y0].
    + intros p w Hw. apply same_in, Hsame. by intros ->.
    + intros q' k [H|H]; destruct (Hin _ H) as [[= -> ->]|?]; [by right; right | by left | by right; left].
    + intros Hs k y0 c z. rewrite !lookup_insert_Some. intros [[<- <-]|[_ Hy0]] Hst Hc Hz; [done|]. destruct Hz as [[<- <-]|[_ Hz]]; [by destruct (F2 k y0 Hy0)|].
      destruct (pj_kill_jobs _ _ _ _ Ipj Hs k y0 c z Hy0 Hst Hc Hz) as [?|[?|[rc H]]]; [by left | by right; left | right; right]. exists rc.
      apply (swap_keep _ _ _ _ S); [done | apply not_elem_of_nil].
Qed.

Lemma create_job_inv root s q j y :
  inv root s -> jobs (tasks s) !! q = Some y -> Job.has_handle y = true -> jobs (tasks s) !! j = None ->
  exists s', run s (CreateJob q j) = Some s' /\ inv root s'.
Proof.
  intros I Hy Hh Hj. unfold run. rewrite Hy. cbn [mbind option_bind].
  destruct (Z.eqb_spec (Job.max_height_ y) 0) as [E0|E0]; [by exists s|]. eexists. split; [done|]. pose proof (start_swap [AddChildJob q j] s) as S.
  destruct (create_job_step (processes (tasks s)) (jobs (tasks s)) (pending s) _ root (short s) q j y (Job.policy_ y) (i_j _ _ I) (i_pj _ _ I) Hy Hh Hj E0 S).
  apply (job_step root s _ _ _ [] [AddChildJob q j]); try done; [apply no_process_nil | by apply no_process_one].
Qed.

(** ** A job without references *)

(** [old]: the work that was left for the job, [AddChildJob] at most. *)
Lemma destroying_step P J L L' root sh q c z old :
  let z' := Job.put_refs false false z in
  inv_j J L root -> inv_pj P J L sh -> J !! c = Some z -> Job.parent_ z = Some q -> Job.state_ z <> Job.KILLING -> Job.procs_ z = [] -> Job.jobs_ z = [] ->
  (forall k y, J !! k = Some y -> Job.parent_ y <> Some c) -> (forall p x, P !! p = Some x -> Process.job_ x <> c) ->
  swap old [DestroyJob q c] L L' -> (forall w, job_work c w = true -> times w L = times w old) -> (forall w, w ∈ old -> w = AddChildJob q c) ->
  inv_j (<[c := z']> J) L' root /\ inv_pj P (<[c := z']> J) L' sh.
Proof.
  intros z' Ij Ipj Hz Hp Hst Hnp Hnj Hno1 Hno2 S Hown Hold.
  destruct (parent_settled _ _ _ _ _ _ Ij Hz Hp) as (y & Hy & Oq & Hsq & Halq & Hqc & Hh). pose proof (j_all _ _ _ Ij c z Hz) as O.
  assert (forall w, w ∈ L' -> w = DestroyJob q c \/ w ∈ L) as Hin.
  { intros w Hw. destruct (swap_in _ _ _ _ S _ Hw) as [->%list_elem_of_singleton|?]; [by left | by right]. }
  assert (forall w, w <> DestroyJob q c -> w <> AddChildJob q c -> times w L' = times w L) as Hsame.
  { intros w H1 H2. apply (swap_same _ _ _ _ S); [intros H%Hold; done | by intros ?%list_elem_of_singleton]. }
  assert (forall w, job_work c w = true -> times w L' = times w [DestroyJob q c]) as Hc'.
  { intros w Hw. specialize (S w). rewrite (Hown w Hw) in S. lia. }
  assert (forall w, w ∈ L' -> job_work c w = true -> w = DestroyJob q c) as Honly.
  { intros w Hw Hcw. rewrite times_in, (Hc' w Hcw), <- times_in in Hw. by apply list_elem_of_singleton in Hw. }
  assert (c <> root) as Hroot by (intros ->; pose proof (proj2 (root_job _ _ _ Ij root z Hz) eq_refl); congruence).
  split.
  - apply (inv_j_update J _ L L' root [c]); try done.
    + destruct (j_root _ _ _ Ij) as (r & ? & ?). exists r. by rewrite lookup_insert_ne.
    + intros k Hk. apply lookup_insert_ne. intros <-. by apply Hk, list_elem_of_singleton.
    + intros k ->%list_elem_of_singleton. rewrite lookup_insert_eq, Hz. simpl. split_and!; try done. by right.
    + intros k w Hk Hw. apply Hsame; intros ->; simpl in Hw; apply Z.eqb_eq in Hw; by apply Hk, list_elem_of_singleton.
    + intros k rc Hk H. left. by destruct (Hin _ H).
    + intros k w Hk Hw Hkw. destruct (Hin _ Hw) as [->|?]; [right | by left]. simpl in Hkw. apply orb_true_iff in Hkw as [Hkw%Z.eqb_eq|Hkw%Z.eqb_eq];
        [subst; split; [done | by exists y] | destruct Hk; by apply list_elem_of_singleton].
    + intros k w ->%list_elem_of_singleton _ _. rewrite lookup_insert_eq. by eexists.
    + intros k z0 ->%list_elem_of_singleton. rewrite lookup_insert_eq. intros [= <-]. constructor; simpl; try done; try apply O.
      * intros q' Hq'. assert (q' = q) as -> by congruence. exists y. rewrite lookup_insert_ne by done. done.
      * rewrite Hnj. by intros c' ?%not_elem_of_nil.
      * rewrite Hc' by own_work. rewrite bool_decide_eq_false_2 by done. count_work.
      * intros q' Hq'. apply Honly in Hq'; [done | own_work].
      * intros [?|[[rc Hrc]|?]]; try done. apply Honly in Hrc; [done | own_work].
      * intros q' Hq'. apply Honly in Hq'; [done | own_work].
      * intros q' Hq'. assert (DestroyJob q' c = DestroyJob q c) as [= ->] by (apply Honly; [done | own_work]). split_and!; try done.
        { rewrite Hc' by own_work. count_work. }
        { intros k y0. rewrite lookup_insert_Some. intros [[<- <-]|[_ Hy0]]; [simpl; congruence | by apply (Hno1 k)]. }
      * intros _. exists q. split; [done|]. apply times_in. rewrite Hc' by own_work. apply times_in. by apply list_elem_of_singleton.
  - apply (inv_pj_jobs _ J _ L); try done.
    + intros p x y0 Hx Hy0 Hal0. exists y0. rewrite lookup_insert_ne; [done|]. intros E. by apply (Hno2 p x).
    + intros k y0. rewrite lookup_insert_Some. intros [[<- <-]|[_ H]]; [by left | right; by exists y0].
    + intros p w Hw. apply same_in, Hsame; by intros ->.
    + intros q' k [H|H]; destruct (Hin _ H) as [[= -> ->]|?]; [by left | by right; right | by right; left].
    + intros Hs k y0 c0 z0. rewrite !lookup_insert_Some. intros Hy0 Hst0 Hc0 Hz0. destruct Hz0 as [[<- <-]|[_ Hz0]]; [by right; left|].
      destruct Hy0 as [[<- <-]|[_ Hy0]]; [simpl in Hc0; rewrite Hnj in Hc0; by apply not_elem_of_nil in Hc0|].
      destruct (pj_kill_jobs _ _ _ _ Ipj Hs k y0 c0 z0 Hy0 Hst0 Hc0 Hz0) as [?|[?|[rc H]]]; [by left | by right; left | right; right]. exists rc.
      apply (swap_keep _ _ _ _ S); [done | by intros ?%Hold].
Qed.

Lemma drop_job_inv root s j x :
  inv root s -> jobs (tasks s) !! j = Some x -> Job.alive x = true -> Job.has_handle x = false -> job_unreferenced (tasks s) j ->
  (forall w, w ∈ pending s -> job_work j w = false) -> exists s', run s (DropJob j) = Some s' /\ inv root s'.
Proof.
  intros I Hx Hal Hh [Hno1 Hno2] Hnw. pose proof I as [It Ip Ij Ipj]. pose proof (j_all _ _ _ Ij j x Hx) as O. unfold run. rewrite Hx. cbn [mbind option_bind].
  destruct (Job.parent_ x) as [q|] eqn:Hp.
  2: { apply (root_job _ _ _ Ij j x Hx) in Hp as ->. destruct (j_root _ _ _ Ij) as (r & ? & _ & ?). congruence. }
  assert (Job.procs_ x = []) as Hnp.
  { destruct (Job.procs_ x) as [|p l] eqn:E; [done|]. destruct (pj_procs _ _ _ _ Ipj j x p Hx) as (z & Hz & Ez); [rewrite E; by apply list_elem_of_here | by destruct (Hno2 p z)]. }
  assert (Job.jobs_ x = []) as Hnj.
  { destruct (Job.jobs_ x) as [|c l] eqn:E; [done|]. destruct (j_children _ _ _ _ _ O c) as (z & Hz & Ez); [rewrite E; by apply list_elem_of_here | by destruct (Hno1 c z)]. }
  assert (Job.state_ x <> Job.KILLING) as Hst.
  { intros Hst. pose proof (j_finish _ _ _ _ _ O) as Hf. rewrite Hst, Hnp, Hnj in Hf. simpl in Hf.
    assert (FinishDeadJob j ∈ pending s) as H by (apply times_in; lia). apply Hnw in H. simpl in H. by rewrite Z.eqb_refl in H. }
  eexists. split; [done|]. pose proof (start_swap [DestroyJob q j] s) as S.
  destruct (destroying_step (processes (tasks s)) (jobs (tasks s)) (pending s) _ root (short s) q j x [] Ij Ipj Hx Hp Hst Hnp Hnj Hno1 Hno2 S).
  - intros w Hw. apply times_not_in. intros H. apply Hnw in H. congruence.
  - by intros w ?%not_elem_of_nil.
  - apply (job_step root s _ _ _ [] [DestroyJob q j]); try done; [apply no_process_nil | by apply no_process_one].
Qed.

(** ** A job joins its parent *)

(** What holds of a job that is being created, and of its parent. *)
Lemma creating J L root q c :
  inv_j J L root -> AddChildJob q c ∈ L ->
  exists y z, J !! q = Some y /\ J !! c = Some z /\ job_ok J L root q y /\ job_ok J L root c z /\ settled L q /\ Job.alive y = true /\ q <> c /\
    Job.parent_ z = Some q /\ Job.state_ z = Job.READY /\ Job.procs_ z = [] /\ Job.jobs_ z = [] /\ Job.alive z = true /\ ~ attached J c z /\
    (forall k x, J !! k = Some x -> Job.parent_ x <> Some c) /\ forall w, job_work c w = true -> times w L = times w [AddChildJob q c].
Proof.
  intros I Hin. destruct (j_exists _ _ _ I c _ Hin) as [z Hz]; [own_work|]. pose proof (j_all _ _ _ I c z Hz) as O.
  destruct (j_creating _ _ _ _ _ O q Hin) as (Hp & Hst & Hnp & Hnj & Hh & Hal & Hone & Honly & Hna & Hno).
  destruct (parent_settled _ _ _ _ _ _ I Hz Hp) as (y & Hy & Oq & Hsq & Halq & Hqc & _). exists y, z. split_and!; try done.
  intros w Hw. destruct (decide (w = AddChildJob q c)) as [->|Hne]; [rewrite Hone; count_work|].
  assert (times w L = 0) as -> by (apply times_not_in; intros H; by apply Hne, Honly). symmetry. apply times_not_in. by intros ?%list_elem_of_singleton.
Qed.

Section Join.
Context (P : gmap Z Process.Process) (J : gmap Z Job.Job) (L L' : list work) (root q c : Z) (sh : bool) (y z y' : Job.Job).
Context (Ij : inv_j J L root) (Ipj : inv_pj P J L sh) (Hin : AddChildJob q c ∈ L) (S : swap [AddChildJob q c] [] L L').
Context (Hy : J !! q = Some y) (Hz : J !! c = Some z) (Hst : Job.state_ y = Job.READY).
Context (Ep : Job.parent_ y' = Job.parent_ y) (Eh : Job.max_height_ y' = Job.max_height_ y) (Est : Job.state_ y' = Job.state_ y) (Epr : Job.procs_ y' = Job.procs_ y)
  (Ea : Job.alive y' = Job.alive y) (Ehh : Job.has_handle y' = Job.has_handle y) (Ej : Job.jobs_ y' = Job.jobs_ y ++ [c]) (C : counts_ok y') (Sg : signals_ok y').
Let z' := Job.put_refs true true z.
Let J' := <[c := z']> (<[q := y']> J).

Lemma join_lookup k x : J' !! k = Some x ->
  exists x0, J !! k = Some x0 /\ Job.parent_ x = Job.parent_ x0 /\ Job.procs_ x = Job.procs_ x0 /\ Job.state_ x = Job.state_ x0 /\ (Job.alive x0 = true -> Job.alive x = true) /\
    (k <> q -> Job.jobs_ x = Job.jobs_ x0).
Proof using All.
  unfold J'. rewrite lookup_insert_Some. intros [[<- <-]|[_ Hx]]; [by exists z|]. rewrite lookup_insert_Some in Hx. destruct Hx as [[<- <-]|[_ Hx]].
  - exists y. split_and!; try done. congruence.
  - by exists x.
Qed.

Lemma join_inv_j : inv_j J' L' root.
Proof using All.
  destruct (creating _ _ _ _ _ Ij Hin) as (y0 & z0 & Hy0 & Hz0 & Oq & Oc & Hsq & Halq & Hqc & Hpc & Hstc & Hnp & Hnj & Halc & Hna & Hno & Hown).
  assert (y0 = y) as -> by congruence. assert (z0 = z) as -> by congruence. clear Hy0 Hz0.
  assert (forall w, w ∈ L' -> w ∈ L) as Hsub by (intros w Hw; destruct (swap_in _ _ _ _ S _ Hw) as [H|H]; [by apply not_elem_of_nil in H | done]).
  assert (forall w, w <> AddChildJob q c -> times w L' = times w L) as Hsame.
  { intros w Hw. apply (swap_same _ _ _ _ S); [by intros ?%list_elem_of_singleton | apply not_elem_of_nil]. }
  assert (forall w, w ∈ L' -> job_work c w = false) as Hfree.
  { intros w Hw. apply not_true_is_false. intros Hcw. rewrite times_in in Hw. specialize (S w). rewrite (Hown w Hcw) in S. change (times w []) with 0 in S. lia. }
  assert (J' !! q = Some y') as Hq' by (unfold J'; rewrite lookup_insert_ne by congruence; by rewrite lookup_insert_eq).
  assert (J' !! c = Some z') as Hc' by (unfold J'; by rewrite lookup_insert_eq).
  assert (c ∉ Job.jobs_ y) as Hcy by (intros Hc; apply Hna; by exists q, y).
  assert (forall k, k ∈ [q; c] -> k = q \/ k = c) as HE by (intros k [?|?%list_elem_of_singleton]%elem_of_cons; auto).
  apply (inv_j_update J _ L L' root [q; c]); try done.
  - destruct (j_root _ _ _ Ij) as (r & Hr & Hpr & Hhr). destruct (decide (root = q)) as [->|Hne]; [exists y'; assert (r = y) as -> by congruence; split_and!; congruence|].
    exists r. unfold J'. rewrite !lookup_insert_ne; [done | done | intros ->; congruence].
  - intros k Hk. unfold J'. rewrite !lookup_insert_ne; [done | |]; intros <-; apply Hk; rewrite !elem_of_cons; auto.
  - intros k Hk. destruct (HE k Hk) as [-> | ->]; [rewrite Hq', Hy | rewrite Hc', Hz]; simpl; split_and!; try done.
    + intros i Hi. rewrite Ej, elem_of_app, list_elem_of_singleton. split; [intros [?| ->]; [done|] | by left]. destruct Hi. rewrite !elem_of_cons. auto.
    + left. congruence.
    + by left.
  - intros k w Hk Hw. apply Hsame. intros ->. simpl in Hw. apply Z.eqb_eq in Hw as ->. apply Hk. rewrite !elem_of_cons. auto.
  - intros k rc Hk H. left. by apply Hsub.
  - intros k w Hk H _. left. by apply Hsub.
  - intros k w Hk _ _. destruct (HE k Hk) as [-> | ->]; [by exists y' | by exists z'].
  - intros k x Hk Hx. destruct (HE k Hk) as [-> | ->].
    + assert (x = y') as -> by congruence. clear Hx Hk.
      assert (forall r, Job.parent_ y = Some r -> J' !! r = J !! r) as Hr.
      { intros r Hr. unfold J'. rewrite !lookup_insert_ne; [done | |]; intros <-; [by apply (not_own_parent J L root q y) | by apply (Hno q y)]. }
      assert (attached J' q y' <-> attached J q y) as Hat.
      { unfold attached. rewrite Ep. split; intros (r & x & Hpr & Hx & Hin'); exists r, x; [rewrite Hr in Hx by done | rewrite Hr by done]; done. }
      apply (job_ok_settled J _ L _ _ _ y); try done.
      * intros r x Hpr Hx. exists x. by rewrite Hr.
      * congruence.
      * intros k Hk. rewrite Ej, elem_of_app, list_elem_of_singleton in Hk. destruct Hk as [Hk| ->]; [|by exists z'].
        destruct (j_children _ _ _ _ _ Oq k Hk) as (x & Hx & Hpx). exists x. unfold J'. rewrite !lookup_insert_ne; [done | | by intros <-].
        intros <-. assert (x = y) as -> by congruence. by apply (not_own_parent J L root q y).
      * rewrite Est, Hst. done.
      * rewrite Hsame, (j_finish _ _ _ _ _ Oq) by done. unfold to_die. by rewrite Est, Hst.
      * intros r. destruct (Hsq r). split; intros ?%Hsub; done.
      * rewrite Hat, Est, Ehh. intros H. apply Oq. destruct H as [?|[[rc H%Hsub]|?]]; [by left | right; left; by exists rc | by right; right].
      * intros r Hrm%Hsub. destruct (j_remove _ _ _ _ _ Oq r Hrm). congruence.
      * rewrite Est, Hst. done.
    + assert (x = z') as -> by congruence. clear Hx Hk. apply (job_ok_settled J _ L _ _ _ z); try done; try apply Oc.
      * intros r x Hpr Hx. assert (r = q) as -> by congruence. assert (x = y) as -> by congruence. by exists y'.
      * simpl. rewrite Hnj. by intros k ?%not_elem_of_nil.
      * assert (times (FinishDeadJob c) L' = 0) as -> by (apply times_not_in; intros H%Hfree; simpl in H; by rewrite Z.eqb_refl in H). unfold to_die. simpl. by rewrite Hstc.
      * intros r. split; intros H%Hfree; simpl in H; by rewrite Z.eqb_refl, orb_true_r in H.
      * intros _. right; left. exists q, y'. split_and!; try done. rewrite Ej, elem_of_app. right. by apply list_elem_of_singleton.
      * intros r H%Hfree. simpl in H. by rewrite Z.eqb_refl, orb_true_r in H.
      * simpl. rewrite Hstc. done.
Qed.

Lemma join_inv_pj : inv_pj P J' L' sh.
Proof using All.
  destruct (creating _ _ _ _ _ Ij Hin) as (y0 & z0 & Hy0 & Hz0 & Oq & Oc & Hsq & Halq & Hqc & Hpc & Hstc & Hnp & Hnj & Halc & Hna & Hno & Hown).
  assert (y0 = y) as -> by congruence. assert (z0 = z) as -> by congruence. clear Hy0 Hz0.
  assert (forall w, w ∈ L' -> w ∈ L) as Hsub by (intros w Hw; destruct (swap_in _ _ _ _ S _ Hw) as [H|H]; [by apply not_elem_of_nil in H | done]).
  apply (inv_pj_jobs _ J _ L); try done.
  - intros p x y0 Hx Hy0 Hal0. unfold J'. rewrite lookup_insert_ne by (intros E; by apply (pj_add_job _ _ _ _ Ipj q c p x)).
    destruct (decide (q = Process.job_ x)) as [E|Hne]; [rewrite <- E, lookup_insert_eq; exists y'; split; [done | congruence] | rewrite lookup_insert_ne by done; by exists y0].
  - intros k x Hx. right. destruct (join_lookup k x Hx) as (x0 & ? & _ & ? & E & _). exists x0. by rewrite E.
  - intros p w Hw. apply same_in, (swap_same _ _ _ _ S); [by intros ->%list_elem_of_singleton | apply not_elem_of_nil].
  - intros r k [H%Hsub|H%Hsub]; [by left | by right; left].
  - intros Hs k x c0 x0 Hx Hsx Hc0 Hx0. destruct (join_lookup k x Hx) as (x1 & Hx1 & _ & _ & E & _ & Ejk). destruct (join_lookup c0 x0 Hx0) as (x2 & Hx2 & _ & _ & E2 & Ea2 & _).
    assert (k <> q) as Hkq by (intros ->; congruence). rewrite (Ejk Hkq) in Hc0. rewrite E in Hsx. rewrite E2.
    destruct (pj_kill_jobs _ _ _ _ Ipj Hs k x1 c0 x2 Hx1 Hsx Hc0 Hx2) as [?|[Hal|[rc H]]]; [by left| |].
    + right; left. assert (c0 <> c) as Hc0c by (intros ->; congruence). assert (c0 <> q) as Hc0q by (intros ->; congruence).
      unfold J' in Hx0. rewrite !lookup_insert_ne in Hx0 by done. congruence.
    + right; right. exists rc. apply (swap_keep _ _ _ _ S); [done | by intros ?%list_elem_of_singleton].
Qed.
End Join.

Lemma add_child_job_inv root s i q c k aj ap :
  inv root s -> todo s !! i = Some (AddChildJob q c :: k) -> exists s', run s (Work i aj ap) = Some s' /\ inv root s'.
Proof.
  intros I Hi. pose proof I as [It Ip Ij Ipj]. destruct (todo_swap _ _ _ _ [] Hi) as [Hin S0]. destruct (todo_swap _ _ _ _ [DestroyJob q c] Hi) as [_ S1].
  destruct (creating _ _ _ _ _ Ij Hin) as (y & z & Hy & Hz & Oq & Oc & Hsq & Halq & Hqc & Hpc & Hstc & Hnp & Hnj & Halc & Hna & Hno & Hown).
  destruct (decide (Job.state_ y = Job.READY)) as [Hst|Hst].
  - destruct (AddChildJob_ok c y) as (sg & E & C & Sg); [apply Oq | apply Oq | done | intros Hc; apply Hna; by exists q, y|]. set (y' := Job.put_signals sg _) in *.
    eexists. split; [eapply run_work; [done | simpl; unfold add_child_job; rewrite Hy, Hz; simpl; rewrite E; done | done]|].
    apply (job_step root s _ _ _ [AddChildJob q c] []); try done; [by apply no_process_one | apply no_process_nil | |].
    + by apply (join_inv_j (processes (tasks s)) _ (pending s) _ root q c (short s) y z y').
    + by apply (join_inv_pj (processes (tasks s)) _ (pending s) _ root q c (short s) y z y').
  - destruct (destroying_step (processes (tasks s)) (jobs (tasks s)) (pending s) (concat (<[i := [DestroyJob q c] ++ k]> (todo s))) root (short s) q c z [AddChildJob q c] Ij Ipj Hz Hpc) as [Ij' Ipj'];
      try done; [by rewrite Hstc | intros p x Hx; by apply (pj_add_job _ _ _ _ Ipj q c p x) | by intros w ?%list_elem_of_singleton|].
    eexists. split; [eapply run_work; [done | simpl; unfold add_child_job, Job.AddChildJob; rewrite Hy, Hz; simpl; rewrite bool_decide_eq_false_2 by done; done | done]|].
    apply (job_step root s _ _ _ [AddChildJob q c] [DestroyJob q c]); try done; by apply no_process_one.
Qed.

(** ** A job leaves its parent *)

Lemma RemoveChildJob_any c y :
  counts_ok y -> signals_ok y ->
  exists y' h, Job.RemoveChildJob c y = Some (y', h, bool_decide (c ∈ Job.jobs_ y) && to_die y') /\ Job.parent_ y' = Job.parent_ y /\ Job.max_height_ y' = Job.max_height_ y /\
    Job.state_ y' = Job.state_ y /\ Job.procs_ y' = Job.procs_ y /\ Job.alive y' = Job.alive y /\ Job.has_handle y' = Job.has_handle y /\
    Job.jobs_ y' = filter (fun r => r <> c) (Job.jobs_ y) /\ counts_ok y' /\ signals_ok y'.
Proof.
  intros C S. destruct (decide (c ∈ Job.jobs_ y)) as [Hc|Hc].
  - destruct (RemoveChildJob_ok c y C S Hc) as (sg & h & E & C' & S'). rewrite (bool_decide_eq_true_2 _ Hc). by eexists _, h.
  - exists y, false. unfold Job.RemoveChildJob. rewrite (bool_decide_eq_false_2 _ Hc). simpl. split_and!; try done. by rewrite filter_ne_id.
Qed.

Section Leave.
Context (P : gmap Z Process.Process) (J J' : gmap Z Job.Job) (L L' : list work) (root q c : Z) (sh : bool) (y z y' : Job.Job) (w0 : work).
Context (Ij : inv_j J L root) (Ipj : inv_pj P J L sh) (Hin : w0 ∈ L) (Hw0 : w0 = RemoveJob q c \/ w0 = DestroyJob q c).
Context (S : swap [w0] (if bool_decide (c ∈ Job.jobs_ y) && to_die y' then [FinishDeadJob q] else []) L L').
Context (Hy : J !! q = Some y) (Hz : J !! c = Some z) (Hpz : Job.parent_ z = Some q).
Context (Ep : Job.parent_ y' = Job.parent_ y) (Eh : Job.max_height_ y' = Job.max_height_ y) (Est : Job.state_ y' = Job.state_ y) (Epr : Job.procs_ y' = Job.procs_ y)
  (Ea : Job.alive y' = Job.alive y) (Ehh : Job.has_handle y' = Job.has_handle y) (Ej : Job.jobs_ y' = filter (fun r => r <> c) (Job.jobs_ y))
  (C : counts_ok y') (Sg : signals_ok y').
Context (Hq' : J' !! q = Some y') (Hout : forall k, k <> q -> k <> c -> J' !! k = J !! k).

Lemma leave_in w : w ∈ L' -> w ∈ L \/ w = FinishDeadJob q.
Proof using S.
  intros Hw. destruct (swap_in _ _ _ _ S _ Hw) as [H|H]; [right | by left]. destruct (_ && _); [by apply list_elem_of_singleton in H | by apply not_elem_of_nil in H].
Qed.

Lemma leave_same w : w <> w0 -> w <> FinishDeadJob q -> times w L' = times w L.
Proof using S.
  intros H1 H2. apply (swap_same _ _ _ _ S); [by intros ?%list_elem_of_singleton|].
  destruct (_ && _); [by intros ?%list_elem_of_singleton | apply not_elem_of_nil].
Qed.

Lemma leave_parent_ok : job_ok J' L' root q y' /\ q <> c /\ settled L q.
Proof using All.
  destruct (parent_settled _ _ _ _ _ _ Ij Hz Hpz) as (y0 & Hy0 & Oq & Hsq & Halq & Hqc & Hhz). assert (y0 = y) as -> by congruence. split_and!; try done.
  assert (forall r, Job.parent_ y = Some r -> J' !! r = J !! r) as Hr.
  { intros r Hr. apply Hout; intros ->; [by apply (not_own_parent J L root q y)|].
    destruct (j_parent _ _ _ _ _ Oq c Hr) as (z0 & Hz0 & _ & Hh0). assert (z0 = z) as -> by congruence. lia. }
  assert (attached J' q y' <-> attached J q y) as Hat.
  { unfold attached. rewrite Ep. split; intros (r & x & Hpr & Hx & Hin'); exists r, x; [rewrite Hr in Hx by done | rewrite Hr by done]; done. }
  assert (forall r, RemoveJob r q <> w0) as Hne by (intros r; destruct Hw0 as [-> | ->]; congruence).
  apply (job_ok_settled J _ L _ _ _ y); try done.
  - intros r x Hpr Hx. exists x. by rewrite Hr.
  - congruence.
  - intros k Hk. rewrite Ej, list_elem_of_filter in Hk. destruct Hk as [Hkc Hk]. destruct (j_children _ _ _ _ _ Oq k Hk) as (x & Hx & Hpx). exists x. rewrite Hout; try done.
    intros ->. assert (x = y) as -> by congruence. by apply (not_own_parent J L root q y).
  - rewrite Est, Epr, Ej. intros Hd. destruct (j_dead _ _ _ _ _ Oq Hd) as [-> ->]. done.
  - rewrite (swap_count _ _ _ _ S _ 0 (if bool_decide (c ∈ Job.jobs_ y) && to_die y' then 1 else 0)); [|destruct Hw0 as [-> | ->]; count_work | destruct (_ && _); count_work].
    rewrite (j_finish _ _ _ _ _ Oq). fold (to_die y). destruct (bool_decide_reflect (c ∈ Job.jobs_ y)) as [Hc|Hc]; simpl.
    + assert (to_die y = false) as ->; [|lia]. unfold to_die. rewrite (bool_decide_eq_false_2 (Job.jobs_ y = [])); [by rewrite andb_false_r|].
      intros E. rewrite E in Hc. by apply not_elem_of_nil in Hc.
    + assert (to_die y' = to_die y) as ->; [|lia]. unfold to_die. rewrite Est, Epr, Ej. by rewrite filter_ne_id.
  - intros r. destruct (Hsq r). split; intros H'; by destruct (leave_in _ H').
  - rewrite Hat, Est, Ehh. intros H. apply Oq. destruct H as [?|[[rc H]|?]]; [by left | right; left; exists rc; by destruct (leave_in _ H) | by right; right].
  - intros r Hrm. rewrite Est. apply Oq. by destruct (leave_in _ Hrm).
  - rewrite Hat, Est. intros H1 H2. destruct (j_leaving _ _ _ _ _ Oq H1 H2 Halq) as [r Hrm]. exists r. apply (swap_keep _ _ _ _ S); [done|].
    intros H%list_elem_of_singleton. by apply (Hne r).
Qed.

(** The job stays, out of the tree, or goes. *)
Lemma leave_inv_j :
  match J' !! c with
  | Some z' => z' = z /\ w0 = RemoveJob q c
  | None => w0 = DestroyJob q c
  end -> inv_j J' L' root.
Proof using All.
  intros Hc'. destruct leave_parent_ok as (Oq' & Hqc & Hsq). pose proof (j_all _ _ _ Ij c z Hz) as Oc.
  assert (c <> root) as Hroot by (intros ->; pose proof (proj2 (root_job _ _ _ Ij root z Hz) eq_refl); congruence).
  assert (forall k, k ∈ [q; c] -> k = q \/ k = c) as HE by (intros k [?|?%list_elem_of_singleton]%elem_of_cons; auto).
  assert (forall k, k ∉ [q; c] -> k <> q /\ k <> c) as HnE by (intros k Hk; split; intros ->; apply Hk; rewrite !elem_of_cons; auto).
  apply (inv_j_update J _ L L' root [q; c]); try done.
  - destruct (j_root _ _ _ Ij) as (r & Hr & Hpr & Hhr). destruct (decide (root = q)) as [->|Hne]; [exists y'; assert (r = y) as -> by congruence; split_and!; congruence|].
    exists r. rewrite Hout by congruence. done.
  - intros k Hk. by apply Hout; apply HnE.
  - intros k Hk. destruct (HE k Hk) as [-> | ->].
    + rewrite Hq', Hy. simpl. split_and!; try done; [|left; congruence]. intros i [_ Hi]%HnE. rewrite Ej, list_elem_of_filter. tauto.
    + rewrite Hz. destruct (J' !! c) as [z'|]; simpl.
      * destruct Hc' as [-> _]. split_and!; try done. by left.
      * split; [|intros i Hi; assert (i = q) as -> by congruence; apply list_elem_of_here]. subst w0. by apply (j_destroy _ _ _ _ _ Oc q Hin).
  - intros k w [Hkq Hkc]%HnE Hw. apply leave_same; [intros ->; destruct Hw0 as [-> | ->] | intros ->]; simpl in Hw; apply Z.eqb_eq in Hw; congruence.
  - intros k rc _ H. left. by destruct (leave_in _ H).
  - intros k w [Hkq _]%HnE H Hkw. left. destruct (leave_in _ H) as [?|E]; [done|]. subst w. simpl in Hkw. apply Z.eqb_eq in Hkw. congruence.
  - intros k w Hk Hw Hkw. destruct (HE k Hk) as [-> | ->]; [by exists y'|]. destruct (J' !! c) as [z'|]; [by exists z'|]. exfalso.
    destruct (leave_in _ Hw) as [H|E]; [|subst w; simpl in Hkw; apply Z.eqb_eq in Hkw; congruence]. subst w0.
    destruct (j_destroy _ _ _ _ _ Oc q Hin) as (_ & _ & _ & _ & _ & Hone & Honly & _). rewrite (Honly w H Hkw) in Hw.
    rewrite times_in, (swap_count _ _ _ _ S _ 1 0) in Hw; [lia | count_work | destruct (_ && _); count_work].
  - intros k x Hk Hx. destruct (HE k Hk) as [-> | ->]; [by assert (x = y') as -> by congruence|]. rewrite Hx in Hc'. destruct Hc' as [-> Ew].
    assert (settled L c) as Hsc.
    { destruct (work_settles _ _ _ c w0 Ij Hin) as (_ & _ & _ & ? & _); subst w0; try done. own_work. }
    destruct (work_settles _ _ _ c w0 Ij Hin) as (z0 & Hz0 & _ & _ & Halz); [subst w0; own_work | by subst w0 | by subst w0|].
    assert (z0 = z) as -> by congruence. assert (Hd : Job.state_ z = Job.DEAD) by (subst w0; by apply (j_remove _ _ _ _ _ Oc q)).
    apply (job_ok_settled J _ L _ _ _ z); try done; try apply Oc.
    + intros r x Hpr Hx'. assert (r = q) as -> by congruence. assert (x = y) as -> by congruence. by exists y'.
    + destruct (j_dead _ _ _ _ _ Oc Hd) as [_ ->]. by intros k0 ?%not_elem_of_nil.
    + rewrite leave_same; [apply Oc | subst w0; done | congruence].
    + intros r. destruct (Hsc r). split; intros H'; by destruct (leave_in _ H').
    + intros _. by right; right.
    + intros r Hrm. apply Oc. by destruct (leave_in _ Hrm).
    + intros (r & x & Hpr & Hx' & Hcx) _. assert (r = q) as -> by congruence. assert (x = y') as -> by congruence. rewrite Ej, list_elem_of_filter in Hcx. tauto.
Qed.

Lemma leave_inv_pj : (J' !! c = Some z \/ J' !! c = None /\ w0 = DestroyJob q c) -> inv_pj P J' L' sh.
Proof using All.
  intros Hc'. destruct leave_parent_ok as (_ & Hqc & _).
  assert (forall k x, J' !! k = Some x -> exists x0, J !! k = Some x0 /\ Job.procs_ x = Job.procs_ x0 /\ Job.state_ x = Job.state_ x0 /\ Job.alive x = Job.alive x0 /\
            forall i, i ∈ Job.jobs_ x -> i ∈ Job.jobs_ x0) as HJ.
  { intros k x Hx. destruct (decide (k = q)) as [->|Hkq].
    - assert (x = y') as -> by congruence. exists y. split_and!; try done. intros i. rewrite Ej, list_elem_of_filter. tauto.
    - destruct (decide (k = c)) as [->|Hkc]; [exists z; assert (x = z) as -> by (destruct Hc' as [?|[? _]]; congruence); done | exists x; rewrite <- Hout; done]. }
  apply (inv_pj_jobs _ J _ L); try done.
  - intros p x y0 Hx Hy0 Hal0. destruct (decide (Process.job_ x = q)) as [E|Hne]; [rewrite E in *; exists y'; split; congruence|].
    destruct (decide (Process.job_ x = c)) as [E|Hne2]; [|rewrite Hout by done; by exists y0]. rewrite E in *.
    destruct Hc' as [?|[_ E0]]; [exists z; split; congruence|]. rewrite E0 in Hin. by destruct (pj_destroy _ _ _ _ Ipj q c p x Hin Hx).
  - intros k x Hx. right. destruct (HJ k x Hx) as (x0 & ? & ? & E & _). exists x0. by rewrite E.
  - intros p w Hw. apply same_in, leave_same; [destruct Hw0 as [-> | ->] |]; by intros ->.
  - intros r k [H|H]; destruct (leave_in _ H) as [?|?]; try done; [by left | by right; left].
  - intros Hs k x c0 x0 Hx Hsx Hc0 Hx0. destruct (HJ k x Hx) as (x1 & Hx1 & _ & E & _ & Hj). destruct (HJ c0 x0 Hx0) as (x2 & Hx2 & _ & E2 & Ea2 & _).
    rewrite E in Hsx. rewrite E2, Ea2. destruct (pj_kill_jobs _ _ _ _ Ipj Hs k x1 c0 x2 Hx1 Hsx (Hj c0 Hc0) Hx2) as [?|[?|[rc H]]]; [by left | by right; left | right; right].
    exists rc. apply (swap_keep _ _ _ _ S); [done|]. intros H'%list_elem_of_singleton. destruct Hw0; congruence.
Qed.
End Leave.

Lemma leave_no_process (b : bool) q : no_process (if b then [FinishDeadJob q] else []).
Proof. destruct b; [by apply no_process_one | apply no_process_nil]. Qed.

Lemma remove_job_inv root s i q c k aj ap :
  inv root s -> todo s !! i = Some (RemoveJob q c :: k) -> exists s', run s (Work i aj ap) = Some s' /\ inv root s'.
Proof.
  intros I Hi. pose proof I as [It Ip Ij Ipj]. destruct (todo_swap _ _ _ _ [] Hi) as [Hin _].
  destruct (j_exists _ _ _ Ij c _ Hin) as [z Hz]; [own_work|]. destruct (j_remove _ _ _ _ _ (j_all _ _ _ Ij c z Hz) q Hin) as [Hpz _].
  destruct (parent_settled _ _ _ _ _ _ Ij Hz Hpz) as (y & Hy & Oq & _ & _ & Hqc & _).
  destruct (RemoveChildJob_any c y) as (y' & h & E & Ep & Eh & Est & Epr & Ea & Ehh & Ej & C & Sg); [apply Oq | apply Oq|].
  destruct (todo_swap _ _ _ _ (if bool_decide (c ∈ Job.jobs_ y) && to_die y' then [FinishDeadJob q] else []) Hi) as [_ S].
  eexists. split; [eapply run_work; [done | simpl; unfold remove_child_job; rewrite Hy; simpl; rewrite E; done | done]|].
  assert (<[q := y']> (jobs (tasks s)) !! c = Some z) as Hc' by by rewrite lookup_insert_ne.
  assert (forall k, k <> q -> k <> c -> <[q := y']> (jobs (tasks s)) !! k = jobs (tasks s) !! k) as Hout by (intros; by rewrite lookup_insert_ne).
  apply (job_step root s (<[q := y']> (jobs (tasks s))) _ _ [RemoveJob q c] (if bool_decide (c ∈ Job.jobs_ y) && to_die y' then [FinishDeadJob q] else [])); try done;
    [by apply no_process_one | apply leave_no_process| |].
  - apply (leave_inv_j (processes (tasks s)) (jobs (tasks s)) _ (pending s) _ root q c (short s) y z y' (RemoveJob q c)); try done; first [by left | by rewrite lookup_insert_eq | by rewrite Hc'].
  - apply (leave_inv_pj (processes (tasks s)) (jobs (tasks s)) _ (pending s) _ root q c (short s) y z y' (RemoveJob q c)); try done; first [by left | by rewrite lookup_insert_eq].
Qed.

Lemma destroy_job_inv root s i q c k aj ap :
  inv root s -> todo s !! i = Some (DestroyJob q c :: k) -> exists s', run s (Work i aj ap) = Some s' /\ inv root s'.
Proof.
  intros I Hi. pose proof I as [It Ip Ij Ipj]. destruct (todo_swap _ _ _ _ [] Hi) as [Hin _].
  destruct (j_exists _ _ _ Ij c _ Hin) as [z Hz]; [own_work|]. destruct (j_destroy _ _ _ _ _ (j_all _ _ _ Ij c z Hz) q Hin) as [Hpz _].
  destruct (parent_settled _ _ _ _ _ _ Ij Hz Hpz) as (y & Hy & Oq & _ & _ & Hqc & _).
  destruct (RemoveChildJob_any c y) as (y' & h & E & Ep & Eh & Est & Epr & Ea & Ehh & Ej & C & Sg); [apply Oq | apply Oq|].
  destruct (todo_swap _ _ _ _ (if bool_decide (c ∈ Job.jobs_ y) && to_die y' then [FinishDeadJob q] else []) Hi) as [_ S].
  eexists. split; [eapply run_work; [done | simpl; unfold destroy_job, remove_child_job; rewrite Hy; simpl; rewrite E; done | done]|].
  set (J' := delete c (<[q := y']> (jobs (tasks s)))).
  assert (J' !! c = None) as Hc' by apply lookup_delete_eq.
  assert (J' !! q = Some y') as Hq' by (unfold J'; rewrite lookup_delete_ne by congruence; by rewrite lookup_insert_eq).
  assert (forall k, k <> q -> k <> c -> J' !! k = jobs (tasks s) !! k) as Hout by (intros; unfold J'; rewrite lookup_delete_ne by congruence; by rewrite lookup_insert_ne).
  apply (job_step root s J' _ _ [DestroyJob q c] (if bool_decide (c ∈ Job.jobs_ y) && to_die y' then [FinishDeadJob q] else [])); try done;
    [by apply no_process_one | apply leave_no_process| |].
  - apply (leave_inv_j (processes (tasks s)) (jobs (tasks s)) J' (pending s) _ root q c (short s) y z y' (DestroyJob q c)); try done; first [by right | by rewrite Hc'].
  - apply (leave_inv_pj (processes (tasks s)) (jobs (tasks s)) J' (pending s) _ root q c (short s) y z y' (DestroyJob q c)); try done; by right.
Qed.
