(* ===== verification/TaskMemberSteps.v ===== *)
(** * Correctness of tasks: processes that join and leave jobs

    Processes that are created, accepted or refused by their jobs, that leave them
    and are destroyed, with the invariant of [TaskFacts.v]. *)

From S2P Require Import Prelude Zx JobPolicy Thread Tasks TaskSystem TaskFacts TaskProcessFacts TaskWorkFacts TaskJobFacts TaskTreeFacts.
Import Tasks ThreadState Thread.

(** The jobs do not notice work on processes. *)
Lemma inv_j_work J L L' root :
  inv_j J L root -> (forall k w, job_main k w = true -> times w L' = times w L) -> (forall k rc, KillJob k rc ∈ L' -> KillJob k rc ∈ L) ->
  (forall k w, w ∈ L' -> job_work k w = true -> w ∈ L \/ settled L k /\ is_Some (J !! k)) -> inv_j J L' root.
Proof.
  intros I H1 H2 H3. apply (inv_j_update J J L L' root []); try done.
  - apply I.
  - by intros k ?%not_elem_of_nil.
  - intros k w _. by apply H1.
  - intros k rc _ H. left. by apply H2.
  - intros k w _. by apply H3.
  - by intros k w ?%not_elem_of_nil.
  - by intros k z ?%not_elem_of_nil.
Qed.

(** ** A new process *)

Lemma fresh_process T P J L K sh p :
  inv_t T P L K -> inv_p T P L -> inv_pj P J L sh -> P !! p = None ->
  (forall w, w ∈ L -> process_work p w = false) /\ (forall t y, T !! t = Some y -> process_ y <> p) /\ (process_token p ∉ K) /\
  (forall j y, J !! j = Some y -> p ∉ Job.procs_ y).
Proof.
  intros It Ip Ipj Hp. split_and!.
  - intros w Hw. apply not_true_is_false. intros H. destruct (q_exists _ _ _ Ip p w Hw H). congruence.
  - intros t y Ht <-. destruct (t_process _ _ _ _ It t y Ht) as (x & ? & _). congruence.
  - intros H. destruct (t_ptoken _ _ _ _ It p H) as (x & ? & _). congruence.
  - intros j y Hy H. destruct (pj_procs _ _ _ _ Ipj j y p Hy H) as (x & ? & _). congruence.
Qed.

Lemma create_inv_t T P L L' K p q policy :
  inv_t T P L K -> P !! p = None -> (forall t y, T !! t = Some y -> process_ y <> p) -> process_token p ∉ K ->
  (forall p t, times (ReleaseThread p t) L' <= times (ReleaseThread p t) L) -> inv_t T (<[p := new_process q policy]> P) L' K.
Proof.
  intros It Hp Hno Hk HL. apply (inv_t_work _ _ L); [|done]. destruct It as [I1 I2 I3 I4 I5 I6 I7 I8 I9 I9' I10].
  assert (forall t y, T !! t = Some y -> <[p := new_process q policy]> P !! process_ y = P !! process_ y) as HP.
  { intros t y Ht. apply lookup_insert_ne. intros E. by apply (Hno t y). }
  constructor; try done.
  - intros t y Ht. rewrite (HP t) by done. by apply (I1 t).
  - intros t y x Ht. rewrite (HP t) by done. by apply I3.
  - intros t y x Ht. rewrite (HP t) by done. by apply I4.
  - intros r x. rewrite lookup_insert_Some. intros [[<- <-]|[_ Hx]]; [|by apply (I5 r)]. split; [apply NoDup_nil_2 | by intros t ?%not_elem_of_nil].
  - intros r x. rewrite lookup_insert_Some. intros [[<- <-]|[_ Hx]]; [done | by apply (I6 r)].
  - intros r x t y. rewrite lookup_insert_Some. intros [[<- <-]|[_ Hx]]; [done | by apply (I7 r x t)].
  - intros r x. rewrite lookup_insert_Some. intros [[<- <-]|[_ Hx]]; [|by apply (I8 r)]. intros _. symmetry. by apply times_not_in.
  - intros r Hr. rewrite lookup_insert_ne by congruence. by apply I9'.
Qed.

Lemma create_process_inv root s q p y :
  inv root s -> jobs (tasks s) !! q = Some y -> Job.has_handle y = true -> processes (tasks s) !! p = None ->
  exists s', run s (CreateProcess q p) = Some s' /\ inv root s'.
Proof.
  intros I Hy Hh Hp. pose proof I as [It Ip Ij Ipj]. destruct (handle_settled _ _ _ _ _ Ij Hy Hh) as (Oq & Hsq & Halq & _).
  destruct (fresh_process _ _ _ _ _ _ _ It Ip Ipj Hp) as (F1 & F2 & F3 & F4). unfold run. rewrite Hy. cbn [mbind option_bind]. eexists. split; [done|].
  pose proof (start_swap [AddChildProcess q p] s) as S. set (x := new_process q (Job.policy_ y)).
  assert (Hin : forall w, w ∈ concat ([AddChildProcess q p] :: todo s) -> w = AddChildProcess q p \/ w ∈ pending s).
  { intros w Hw. destruct (swap_in _ _ _ _ S _ Hw) as [->%list_elem_of_singleton|?]; [by left | by right]. }
  assert (Hsame : forall w, w <> AddChildProcess q p -> times w (concat ([AddChildProcess q p] :: todo s)) = times w (pending s)).
  { intros w Hw. apply (swap_same _ _ _ _ S); [apply not_elem_of_nil | by intros ?%list_elem_of_singleton]. }
  assert (Hkeep : forall w, w ∈ pending s -> w ∈ concat ([AddChildProcess q p] :: todo s)) by (intros w Hw; apply (swap_keep _ _ _ _ S); [done | apply not_elem_of_nil]).
  assert (Hone : times (AddChildProcess q p) (concat ([AddChildProcess q p] :: todo s)) = 1).
  { rewrite (swap_count _ _ _ _ S _ 0 1); [|done|count_work]. assert (times (AddChildProcess q p) (pending s) = 0); [|lia].
    apply times_not_in. intros H. apply F1 in H. simpl in H. by rewrite Z.eqb_refl in H. }
  constructor; unfold start; cbn [tasks threads processes jobs put_process tokens short]; change (pending (mkSys _ ?t _ _)) with (concat t);
    revert S Hin Hsame Hkeep Hone; generalize (concat ([AddChildProcess q p] :: todo s)) as L'; intros L' S Hin Hsame Hkeep Hone.
  - apply (create_inv_t _ _ (pending s)); try done. intros r t. by rewrite Hsame.
  - apply (put_process_inv_p (threads (tasks s)) _ _ (pending s)); try done.
    + intros t z Hz. by exists z.
    + intros w Hw. apply Hsame. intros ->. simpl in Hw. by rewrite Z.eqb_refl in Hw.
    + assert (forall w, w ∈ L' -> process_work p w = true -> w = AddChildProcess q p) as Honly.
      { intros w Hw Hpw. destruct (Hin w Hw) as [?|Hw']; [done|]. apply F1 in Hw'. congruence. }
      constructor; simpl; try done.
      * apply times_not_in. intros H. apply Honly in H; [done | own_work].
      * intros q' H. assert (AddChildProcess q' p = AddChildProcess q p) as [= ->] by (apply Honly; [done | own_work]). by split_and!.
      * intros _ _. left. apply times_in. lia.
      * intros q' H. apply Honly in H; [done | own_work].
      * intros q' H. apply Honly in H; [done | own_work].
  - apply (inv_j_work _ (pending s)); try done.
    + intros k w Hw. apply Hsame. by intros ->.
    + intros k rc H. by destruct (Hin _ H).
    + intros k w Hw Hkw. destruct (Hin _ Hw) as [->|?]; [right | by left]. simpl in Hkw. apply Z.eqb_eq in Hkw as <-. split; [done | by exists y].
  - destruct Ipj as [I1 I2 I3 I4 I5 I6 I7 I8]. constructor.
    + intros r z. rewrite lookup_insert_Some. intros [[<- <-]|[_ Hz]]; [by exists y | by apply (I1 r)].
    + intros j z r Hz Hr. destruct (I2 j z r Hz Hr) as (x0 & Hx0 & ?). exists x0. rewrite lookup_insert_ne by congruence. done.
    + intros q' r j z H. destruct (Hin _ H) as [[= -> ->]|H']; [by apply F4 | by apply (I3 q')].
    + intros j z r x0 Hz Hr. rewrite lookup_insert_Some. intros [[<- <-]|[_ Hx0]]; [done|]. intros Hcd. destruct (I4 j z r x0 Hz Hr Hx0 Hcd); [left | right]; by apply Hkeep.
    + intros q' j r x0 H. destruct (Hin _ H) as [?|H']; [done|]. rewrite lookup_insert_Some. intros [[<- <-]|[_ Hx0]]; [|by apply (I5 q' j r)].
      simpl. intros ->. by destruct (Hsq q').
    + intros q' j r x0 H. destruct (Hin _ H) as [?|H']; [done|]. rewrite lookup_insert_Some. intros [[<- <-]|[_ Hx0]]; [|by apply (I6 q' j r)].
      simpl. intros ->. by destruct (Hsq q').
    + intros Hs j z c z0 Hz Hst Hc Hz0. destruct (I7 Hs j z c z0 Hz Hst Hc Hz0) as [?|[?|[rc H]]]; [by left | by right; left | right; right]. exists rc. by apply Hkeep.
    + intros Hs j z r x0 Hz Hst Hr. rewrite lookup_insert_Some. intros [[<- <-]|[_ Hx0]]; [by destruct (F4 j z Hz)|].
      destruct (I8 Hs j z r x0 Hz Hst Hr Hx0) as [?|[?|[rc H]]]; [by left | by right; left | right; right]. exists rc. by apply Hkeep.
Qed.

(** ** A process without references *)

Lemma drop_inv_t T P L L' K p x x' :
  inv_t T P L K -> P !! p = Some x -> (forall t y, T !! t = Some y -> process_ y <> p) -> process_token p ∉ K ->
  Process.thread_list_ x' = Process.thread_list_ x -> Process.state_ x' = Process.state_ x -> Process.suspend_count_ x' = Process.suspend_count_ x ->
  (forall p t, times (ReleaseThread p t) L' <= times (ReleaseThread p t) L) -> inv_t T (<[p := x']> P) L' K.
Proof.
  intros It Hp Hno Hk El Es Ec HL. apply (inv_t_work _ _ L); [|done]. destruct It as [I1 I2 I3 I4 I5 I6 I7 I8 I9 I9' I10].
  assert (forall t y, T !! t = Some y -> <[p := x']> P !! process_ y = P !! process_ y) as HP.
  { intros t y Ht. apply lookup_insert_ne. intros E. by apply (Hno t y). }
  constructor; try done.
  - intros t y Ht. rewrite (HP t) by done. by apply (I1 t).
  - intros t y z Ht. rewrite (HP t) by done. by apply I3.
  - intros t y z Ht. rewrite (HP t) by done. by apply I4.
  - intros r z. rewrite lookup_insert_Some. intros [[<- <-]|[_ Hx]]; [rewrite El; by apply (I5 p) | by apply (I5 r)].
  - intros r z. rewrite lookup_insert_Some. intros [[<- <-]|[_ Hx]]; [unfold list_ok; rewrite Es, El; by apply (I6 p) | by apply (I6 r)].
  - intros r z t y. rewrite lookup_insert_Some. intros [[<- <-]|[_ Hx]]; [rewrite Es, El; by apply (I7 p) | by apply (I7 r z t)].
  - intros r z. rewrite lookup_insert_Some. intros [[<- <-]|[_ Hx]]; [unfold active; rewrite Es, Ec; by apply (I8 p) | by apply (I8 r)].
  - intros r Hr. rewrite lookup_insert_ne by congruence. by apply I9'.
Qed.

Lemma drop_process_inv root s p x :
  inv root s -> processes (tasks s) !! p = Some x -> Process.alive x = true -> Process.has_handle x = false -> process_unreferenced (tasks s) p ->
  process_token p ∉ tokens s -> (forall w, w ∈ pending s -> process_work p w = false) -> exists s', run s (DropProcess p) = Some s' /\ inv root s'.
Proof.
  intros I Hx Hal Hh Hno Hk Hnw. pose proof I as [It Ip Ij Ipj]. pose proof (q_all _ _ _ Ip p x Hx) as O. unfold run. rewrite Hx. cbn [mbind option_bind]. eexists. split; [done|].
  assert (Process.thread_list_ x = []) as Hnil.
  { destruct (Process.thread_list_ x) as [|t l] eqn:E; [done|]. destruct (t_threads _ _ _ _ It p x Hx) as [_ H]. destruct (H t) as (y & Hy & Ey); [rewrite E; apply list_elem_of_here|].
    by destruct (Hno t y). }
  assert (Process.state_ x = Process.DEAD) as Hst.
  { pose proof (t_lists _ _ _ _ It p x Hx) as Hl. unfold list_ok in Hl. destruct (Process.state_ x) eqn:E; try done. exfalso.
    destruct (q_zero _ _ _ _ O E Hh) as [H|H]; apply Hnw in H; simpl in H; by rewrite Z.eqb_refl in H. }
  assert (Process.completely_dead_ x = true) as Hcd.
  { pose proof (q_finish _ _ _ _ O) as Hf. rewrite Hst in Hf. destruct (Process.completely_dead_ x); [done|]. simpl in Hf.
    assert (FinishDeadProcess p ∈ pending s) as H by (apply times_in; lia). apply Hnw in H. simpl in H. by rewrite Z.eqb_refl in H. }
  set (q := Process.job_ x). pose proof (start_swap [DestroyProcess q p] s) as S. set (x' := Process.put_refs false false x).
  assert (Hc' : forall w, process_work p w = true -> times w (concat ([DestroyProcess q p] :: todo s)) = times w [DestroyProcess q p]).
  { intros w Hw. rewrite (swap_count _ _ _ _ S _ 0 (times w [DestroyProcess q p])) by done. assert (times w (pending s) = 0); [|lia].
    apply times_not_in. intros H. apply Hnw in H. congruence. }
  unfold start, put_process.
  apply (process_move root s _ _ _ p x x' [] [DestroyProcess q p]); try done.
  - by intros w ?%not_elem_of_nil.
  - intros w ->%list_elem_of_singleton. split; [own_work | done].
  - intros t y Hy. by exists y.
  - apply (drop_inv_t _ _ (pending s) _ _ p x); try done.
  - revert Hc'. generalize (concat ([DestroyProcess q p] :: todo s)) as L'. intros L' Hc'.
    assert (forall w, w ∈ L' -> process_work p w = true -> w = DestroyProcess q p) as Honly.
    { intros w Hw Hpw. rewrite times_in, (Hc' w Hpw), <- times_in in Hw. by apply list_elem_of_singleton in Hw. }
    constructor; simpl; try done.
    + unfold active. simpl. by rewrite Hst.
    + rewrite Hc' by own_work. rewrite Hcd, andb_false_r. count_work.
    + apply O.
    + intros q' H. apply Honly in H; [done | own_work].
    + intros E. congruence.
    + intros rc H. apply Honly in H; [done | own_work].
    + intros q' H. apply Honly in H; [done | own_work].
    + intros q' H. assert (DestroyProcess q' p = DestroyProcess q p) as [= ->] by (apply Honly; [done | own_work]). split_and!; try done. rewrite Hc' by own_work. count_work.
    + intros _. apply times_in. rewrite Hc' by own_work. apply times_in. by apply list_elem_of_singleton.
  - intros _. left. split; [done|]. intros j. split; apply not_elem_of_nil.
  - by right; left.
Qed.

(** ** A process joins its job *)

Lemma creating_process root s q p :
  inv root s -> AddChildProcess q p ∈ pending s ->
  exists x y, processes (tasks s) !! p = Some x /\ jobs (tasks s) !! q = Some y /\ proc_ok (threads (tasks s)) (pending s) p x /\
    job_ok (jobs (tasks s)) (pending s) root q y /\ settled (pending s) q /\ Job.alive y = true /\
    Process.job_ x = q /\ Process.state_ x = Process.INITIAL /\ Process.alive x = true /\ Process.completely_dead_ x = false /\ Process.has_handle x = false /\
    (p ∉ Job.procs_ y) /\ forall w, process_work p w = true -> times w (pending s) = times w [AddChildProcess q p].
Proof.
  intros I Hin. pose proof I as [It Ip Ij Ipj]. destruct (process_exists root s p _ I Hin) as [x Hx]; [own_work|]. pose proof (q_all _ _ _ Ip p x Hx) as O.
  destruct (q_creating _ _ _ _ O q Hin) as (Hj & Hst & Hh & Hal & Hone & Honly & _).
  destruct (work_settles _ _ _ q _ Ij Hin) as (y & Hy & Oq & Hsq & Halq); [own_work | done | done|]. exists x, y. split_and!; try done.
  - apply not_true_is_false. intros H%O. congruence.
  - by apply (pj_creating _ _ _ _ Ipj q p q y).
  - intros w Hw. destruct (decide (w = AddChildProcess q p)) as [->|Hne]; [rewrite Hone; count_work|].
    assert (times w (pending s) = 0) as -> by (apply times_not_in; intros H; by apply Hne, Honly). symmetry. apply times_not_in. by intros ?%list_elem_of_singleton.
Qed.

(** What is left for a process after its creation. *)
Lemma created_ok T L L' p x x' w q :
  proc_ok T L p x -> (forall w', process_work p w' = true -> times w' L = times w' [AddChildProcess q p]) ->
  swap [AddChildProcess q p] w L L' -> (forall a, a ∈ w -> a = ZeroHandles p) -> Process.job_ x' = Process.job_ x -> Process.state_ x' = Process.INITIAL -> Process.alive x' = true ->
  Process.completely_dead_ x' = false -> Process.retcode_ x' = Process.retcode_ x -> Process.state_ x = Process.INITIAL -> Process.signals_ x' = Process.signals_ x ->
  Process.completely_dead_ x = false -> (Process.has_handle x' = true \/ w = [ZeroHandles p]) -> proc_ok T L' p x'.
Proof.
  intros O Hown S Hw Ej Est Eal Ecd Erc Hst Esg Hcd Hh.
  assert (forall a, a ∈ L' -> process_work p a = true -> a = ZeroHandles p) as Honly.
  { intros a Ha Hpa. rewrite times_in in Ha. specialize (S a). rewrite (Hown a Hpa) in S. apply Hw, times_in. lia. }
  constructor; rewrite ?Est, ?Eal, ?Ecd; try done.
  - intros _. rewrite Erc. apply O. unfold active. by rewrite Hst.
  - simpl. apply times_not_in. intros H. apply Honly in H; [done | own_work].
  - rewrite Esg, <- Hcd. apply O.
  - intros q' H. apply Honly in H; [done | own_work].
  - intros _ E. right. destruct Hh as [?|E']; [congruence|]. apply (swap_new _ _ _ _ S); [rewrite E'; by apply list_elem_of_singleton | by intros ?%list_elem_of_singleton].
  - intros q' H. apply Honly in H; [done | own_work].
  - intros q' H. apply Honly in H; [done | own_work].
Qed.

(** The job of the process takes it in. *)
Section JoinProcess.
Context (P : gmap Z Process.Process) (J : gmap Z Job.Job) (L L' : list work) (root q p : Z) (sh : bool) (x : Process.Process) (y y' : Job.Job).
Context (Ij : inv_j J L root) (Ipj : inv_pj P J L sh) (Hin : AddChildProcess q p ∈ L) (S : swap [AddChildProcess q p] [] L L').
Context (Hx : P !! p = Some x) (Hy : J !! q = Some y) (Hst : Job.state_ y = Job.READY) (Hj : Process.job_ x = q) (Hcd : Process.completely_dead_ x = false)
  (Hone : times (AddChildProcess q p) L = 1) (Honly : forall q', AddChildProcess q' p ∈ L -> q' = q).
Context (Ep : Job.parent_ y' = Job.parent_ y) (Eh : Job.max_height_ y' = Job.max_height_ y) (Est : Job.state_ y' = Job.state_ y) (Ejs : Job.jobs_ y' = Job.jobs_ y)
  (Ea : Job.alive y' = Job.alive y) (Ehh : Job.has_handle y' = Job.has_handle y) (Eps : Job.procs_ y' = Job.procs_ y ++ [p]) (C : counts_ok y') (Sg : signals_ok y').
Let x' := Process.put_refs true true x.

Lemma join_sub w : w ∈ L' -> w ∈ L.
Proof using S. intros Hw. destruct (swap_in _ _ _ _ S _ Hw) as [H|H]; [by apply not_elem_of_nil in H | done]. Qed.
Lemma join_same w : w <> AddChildProcess q p -> times w L' = times w L.
Proof using S. intros Hw. apply (swap_same _ _ _ _ S); [by intros ?%list_elem_of_singleton | apply not_elem_of_nil]. Qed.

Lemma join_process_inv_j : inv_j (<[q := y']> J) L' root.
Proof using All.
  destruct (work_settles _ _ _ q _ Ij Hin) as (y0 & Hy0 & Oq & Hsq & Halq); [own_work | done | done|]. assert (y0 = y) as -> by congruence.
  apply (one_job_inv _ L _ root q y); try done.
  - congruence.
  - intros ->. destruct (j_root _ _ _ Ij) as (r & Hr & _ & ?). rewrite Ehh. congruence.
  - rewrite Est, Hst. done.
  - rewrite join_same, (j_finish _ _ _ _ _ Oq) by done. unfold to_die. by rewrite Est, Hst.
  - intros r. destruct (Hsq r). split; intros ?%join_sub; done.
  - rewrite Ehh, Est. intros H. apply Oq. destruct H as [?|[[rc H%join_sub]|?]]; [by left | right; left; by exists rc | by right; right].
  - intros r H%join_sub. destruct (j_remove _ _ _ _ _ Oq r H). congruence.
  - rewrite Est, Hst. done.
  - intros k w Hk Hw. apply join_same. by intros ->.
  - intros k rc Hk H. left. by apply join_sub.
  - intros k w Hk H _. left. by apply join_sub.
Qed.

Lemma join_process_inv_pj : inv_pj (<[p := x']> P) (<[q := y']> J) L' sh.
Proof using All.
  destruct Ipj as [I1 I2 I3 I4 I5 I6 I7 I8].
  assert (forall k z, <[q := y']> J !! k = Some z -> exists z0, J !! k = Some z0 /\ Job.state_ z = Job.state_ z0 /\ Job.jobs_ z = Job.jobs_ z0 /\ Job.alive z = Job.alive z0 /\
            forall r, r ∈ Job.procs_ z <-> r ∈ Job.procs_ z0 \/ r = p /\ k = q) as HJ.
  { intros k z. rewrite lookup_insert_Some. intros [[<- <-]|[Hne Hz]]; [exists y | exists z]; split_and!; try done; intros r.
    - rewrite Eps, elem_of_app, list_elem_of_singleton. tauto.
    - split; [by left | intros [?|[_ ?]]; [done | congruence]]. }
  assert (forall r z, <[p := x']> P !! r = Some z -> exists z0, P !! r = Some z0 /\ Process.job_ z = Process.job_ z0 /\ Process.completely_dead_ z = Process.completely_dead_ z0 /\
            (r <> p -> z = z0)) as HP.
  { intros r z. rewrite lookup_insert_Some. intros [[<- <-]|[Hne Hz]]; [by exists x | by exists z]. }
  assert (AddChildProcess q p ∉ L') as Hgone by (rewrite times_in, (swap_count _ _ _ _ S _ 1 0); [lia | count_work | done]).
  constructor.
  - intros r z Hz. destruct (HP r z Hz) as (z0 & Hz0 & -> & _). destruct (I1 r z0 Hz0) as (y0 & Hy0 & Hal0).
    destruct (decide (Process.job_ z0 = q)) as [E|Hne]; [rewrite E in *; exists y'; rewrite lookup_insert_eq; split; congruence | exists y0; by rewrite lookup_insert_ne].
  - intros k z r Hz Hr. destruct (HJ k z Hz) as (z0 & Hz0 & _ & _ & _ & Hps). apply Hps in Hr. destruct (decide (r = p)) as [->|Hrp].
    + exists x'. rewrite lookup_insert_eq. split; [done|]. simpl. destruct Hr as [Hr|[_ ->]]; [|done]. by destruct (I3 q p k z0 Hin Hz0).
    + destruct Hr as [Hr|[? _]]; [|done]. destruct (I2 k z0 r Hz0 Hr) as (x0 & ? & ?). exists x0. by rewrite lookup_insert_ne.
  - intros q' r k z H Hz. destruct (HJ k z Hz) as (z0 & Hz0 & _ & _ & _ & Hps). rewrite Hps. intros [Hr|[-> ->]]; [by apply (I3 q' r k z0 (join_sub _ H) Hz0)|].
    by rewrite (Honly q' (join_sub _ H)) in H.
  - intros k z r x0 Hz Hr Hx0 Hd. destruct (HJ k z Hz) as (z0 & Hz0 & _ & _ & _ & Hps). destruct (HP r x0 Hx0) as (x1 & Hx1 & _ & Ecd & _). rewrite Ecd in Hd.
    apply Hps in Hr as [Hr|[-> ->]]; [|congruence]. destruct (I4 k z0 r x1 Hz0 Hr Hx1 Hd); [left | right]; (apply (swap_keep _ _ _ _ S); [done | by intros ?%list_elem_of_singleton]).
  - intros q' k r x0 H%join_sub Hx0. destruct (HP r x0 Hx0) as (x1 & Hx1 & -> & _). by apply (I5 q' k r).
  - intros q' k r x0 H%join_sub Hx0. destruct (HP r x0 Hx0) as (x1 & Hx1 & -> & _). by apply (I6 q' k r).
  - intros Hs k z c z0 Hz Hsz Hc Hz0. destruct (HJ k z Hz) as (z1 & Hz1 & E1 & Ej1 & _ & _). destruct (HJ c z0 Hz0) as (z2 & Hz2 & E2 & _ & Ea2 & _).
    rewrite E1 in Hsz. rewrite Ej1 in Hc. rewrite E2, Ea2. destruct (I7 Hs k z1 c z2 Hz1 Hsz Hc Hz2) as [?|[?|[rc H]]]; [by left | by right; left | right; right].
    exists rc. apply (swap_keep _ _ _ _ S); [done | by intros ?%list_elem_of_singleton].
  - intros Hs k z r x0 Hz Hsz Hr Hx0. destruct (HJ k z Hz) as (z1 & Hz1 & E1 & _ & _ & Hps). rewrite E1 in Hsz.
    apply Hps in Hr as [Hr|[-> ->]]; [|congruence]. destruct (decide (r = p)) as [->|Hrp]; [by destruct (I3 q p k z1 Hin Hz1)|].
    rewrite lookup_insert_ne in Hx0 by done. destruct (I8 Hs k z1 r x0 Hz1 Hsz Hr Hx0) as [?|[?|[rc H]]]; [by left | by right; left | right; right].
    exists rc. apply (swap_keep _ _ _ _ S); [done | by intros ?%list_elem_of_singleton].
Qed.
End JoinProcess.

Lemma add_child_process_inv root s i q p k aj ap :
  inv root s -> todo s !! i = Some (AddChildProcess q p :: k) -> exists s', run s (Work i aj ap) = Some s' /\ inv root s'.
Proof.
  intros I Hi. pose proof I as [It Ip Ij Ipj]. destruct (todo_swap _ _ _ _ [] Hi) as [Hin S0]. destruct (todo_swap _ _ _ _ [ZeroHandles p] Hi) as [_ S1].
  destruct (creating_process root s q p I Hin) as (x & y & Hx & Hy & O & Oq & Hsq & Halq & Hj & Hst & Hal & Hcd & Hh & Hni & Hown).
  destruct (decide (Job.state_ y = Job.READY)) as [Hr|Hr].
  - destruct (AddChildProcess_ok p y) as (sg & E & C & Sg); [apply Oq | apply Oq | done | done|]. set (y' := Job.put_signals sg _) in *.
    eexists. split; [eapply run_work; [done | simpl; unfold add_child_process; rewrite Hy, Hx; simpl; rewrite E; done | done]|]. set (x' := Process.put_refs true true x).
    assert (times (AddChildProcess q p) (pending s) = 1) as Hone by (rewrite Hown by own_work; count_work).
    assert (forall q', AddChildProcess q' p ∈ pending s -> q' = q) as Honly.
    { intros q' H. rewrite times_in, Hown, <- times_in in H by own_work. apply list_elem_of_singleton in H. congruence. }
    constructor; unfold put_process, put_job; cbn [tasks threads processes jobs tokens short]; change (pending (mkSys _ ?t _ _)) with (concat t).
    + apply (put_process_inv_t _ _ (pending s) _ _ p x It Hx); try done. apply (swap_release _ _ _ _ S0). intros ? ? H. by apply not_elem_of_nil in H.
    + apply (put_process_inv_p (threads (tasks s)) _ _ (pending s)); try done.
      * intros t z Hz. by exists z.
      * intros w Hw. apply (swap_same _ _ _ _ S0); [|apply not_elem_of_nil]. intros ->%list_elem_of_singleton. simpl in Hw. by rewrite Z.eqb_refl in Hw.
      * apply (created_ok _ (pending s) _ p x _ [] q); try done; [by intros a ?%not_elem_of_nil | by left].
    + by apply (join_process_inv_j (processes (tasks s)) _ (pending s) _ root q p (short s) x y y').
    + by apply (join_process_inv_pj (processes (tasks s)) _ (pending s) _ root q p (short s) x y y').
  - eexists. split; [eapply run_work; [done | simpl; unfold add_child_process, Job.AddChildProcess; rewrite Hy, Hx; simpl; rewrite bool_decide_eq_false_2 by done; done | done]|].
    rewrite <- (mkTasks_eta (tasks s)) at 1. rewrite <- (insert_id (processes (tasks s)) p x Hx).
    apply (process_move root s _ _ _ p x x [AddChildProcess q p] [ZeroHandles p]); try done.
    + intros w ->%list_elem_of_singleton. own_work.
    + intros w ->%list_elem_of_singleton. split; [own_work | done].
    + intros t z Hz. by exists z.
    + apply (put_process_inv_t _ _ (pending s) _ _ p x It Hx); try done. apply (swap_release _ _ _ _ S1). intros ? ? H. in_work H.
    + apply (created_ok _ (pending s) _ p x _ [ZeroHandles p] q); try done; [by intros a ?%list_elem_of_singleton | by right].
    + congruence.
    + right; right. split_and!; try done. by intros rc ?%list_elem_of_singleton.
Qed.

(** ** A process leaves its job *)

Lemma RemoveChildProcess_any p y :
  counts_ok y -> signals_ok y ->
  exists y' h, Job.RemoveChildProcess p y = Some (y', h, bool_decide (p ∈ Job.procs_ y) && to_die y') /\ Job.parent_ y' = Job.parent_ y /\ Job.max_height_ y' = Job.max_height_ y /\
    Job.state_ y' = Job.state_ y /\ Job.jobs_ y' = Job.jobs_ y /\ Job.alive y' = Job.alive y /\ Job.has_handle y' = Job.has_handle y /\
    Job.procs_ y' = filter (fun r => r <> p) (Job.procs_ y) /\ counts_ok y' /\ signals_ok y'.
Proof.
  intros C S. destruct (decide (p ∈ Job.procs_ y)) as [Hc|Hc].
  - destruct (RemoveChildProcess_ok p y C S Hc) as (sg & h & E & C' & S'). rewrite (bool_decide_eq_true_2 _ Hc). by eexists _, h.
  - exists y, false. unfold Job.RemoveChildProcess. rewrite (bool_decide_eq_false_2 _ Hc). simpl. split_and!; try done. by rewrite filter_ne_id.
Qed.

Section LeaveJob.
Context (P P' : gmap Z Process.Process) (J : gmap Z Job.Job) (L L' : list work) (root q p : Z) (sh : bool) (x : Process.Process) (y y' : Job.Job) (w0 : work).
Context (Ij : inv_j J L root) (Ipj : inv_pj P J L sh) (Hin : w0 ∈ L) (Hw0 : w0 = RemoveProcess q p \/ w0 = DestroyProcess q p).
Context (S : swap [w0] (if bool_decide (p ∈ Job.procs_ y) && to_die y' then [FinishDeadJob q] else []) L L').
Context (Hx : P !! p = Some x) (Hy : J !! q = Some y) (Hj : Process.job_ x = q).
Context (Ep : Job.parent_ y' = Job.parent_ y) (Eh : Job.max_height_ y' = Job.max_height_ y) (Est : Job.state_ y' = Job.state_ y) (Ejs : Job.jobs_ y' = Job.jobs_ y)
  (Ea : Job.alive y' = Job.alive y) (Ehh : Job.has_handle y' = Job.has_handle y) (Eps : Job.procs_ y' = filter (fun r => r <> p) (Job.procs_ y))
  (C : counts_ok y') (Sg : signals_ok y').
Context (HP : P' = P \/ P' = delete p P).

Lemma member_in w : w ∈ L' -> w ∈ L \/ w = FinishDeadJob q.
Proof using S.
  intros Hw. destruct (swap_in _ _ _ _ S _ Hw) as [H|H]; [right | by left]. destruct (_ && _); [by apply list_elem_of_singleton in H | by apply not_elem_of_nil in H].
Qed.
Lemma member_same w : w <> w0 -> w <> FinishDeadJob q -> times w L' = times w L.
Proof using S.
  intros H1 H2. apply (swap_same _ _ _ _ S); [by intros ?%list_elem_of_singleton|].
  destruct (_ && _); [by intros ?%list_elem_of_singleton | apply not_elem_of_nil].
Qed.
Lemma member_keep w : w ∈ L -> w <> w0 -> w ∈ L'.
Proof using S. intros H1 H2. apply (swap_keep _ _ _ _ S); [done | by intros ?%list_elem_of_singleton]. Qed.

Lemma leave_job_inv_j : inv_j (<[q := y']> J) L' root.
Proof using All.
  destruct (work_settles _ _ _ q _ Ij Hin) as (y0 & Hy0 & Oq & Hsq & Halq); [destruct Hw0 as [-> | ->]; own_work | by destruct Hw0 as [-> | ->] | by destruct Hw0 as [-> | ->] |].
  assert (y0 = y) as -> by congruence.
  apply (one_job_inv _ L _ root q y); try done.
  - congruence.
  - intros ->. destruct (j_root _ _ _ Ij) as (r & Hr & _ & ?). rewrite Ehh. congruence.
  - rewrite Est, Ejs, Eps. intros Hd. destruct (j_dead _ _ _ _ _ Oq Hd) as [-> ->]. done.
  - rewrite (swap_count _ _ _ _ S _ 0 (if bool_decide (p ∈ Job.procs_ y) && to_die y' then 1 else 0)); [|destruct Hw0 as [-> | ->]; count_work | destruct (_ && _); count_work].
    rewrite (j_finish _ _ _ _ _ Oq). fold (to_die y). destruct (bool_decide_reflect (p ∈ Job.procs_ y)) as [Hc|Hc]; simpl.
    + assert (to_die y = false) as ->; [|lia]. unfold to_die. rewrite (bool_decide_eq_false_2 (Job.procs_ y = [])); [by rewrite andb_false_r|].
      intros E. rewrite E in Hc. by apply not_elem_of_nil in Hc.
    + assert (to_die y' = to_die y) as ->; [|lia]. unfold to_die. rewrite Est, Ejs, Eps. by rewrite filter_ne_id.
  - intros r. destruct (Hsq r). split; intros H'; by destruct (member_in _ H').
  - rewrite Ehh, Est. intros H. apply Oq. destruct H as [?|[[rc H]|?]]; [by left | right; left; exists rc; by destruct (member_in _ H) | by right; right].
  - intros r Hrm. rewrite Est. apply Oq. by destruct (member_in _ Hrm).
  - rewrite Est. intros H1 H2. destruct (j_leaving _ _ _ _ _ Oq H1 H2 Halq) as [r Hrm]. exists r. apply member_keep; [done | by destruct Hw0 as [-> | ->]].
  - intros k w Hk Hw. apply member_same; [destruct Hw0 as [-> | ->]; by intros ->|]. intros ->. simpl in Hw. apply Z.eqb_eq in Hw. congruence.
  - intros k rc Hk H. left. by destruct (member_in _ H).
  - intros k w Hk H Hkw. left. destruct (member_in _ H) as [?| ->]; [done|]. simpl in Hkw. apply Z.eqb_eq in Hkw. congruence.
Qed.

Lemma leave_job_inv_pj : inv_pj P' (<[q := y']> J) L' sh.
Proof using All.
  destruct Ipj as [I1 I2 I3 I4 I5 I6 I7 I8].
  assert (forall k z, <[q := y']> J !! k = Some z -> exists z0, J !! k = Some z0 /\ Job.state_ z = Job.state_ z0 /\ Job.jobs_ z = Job.jobs_ z0 /\ Job.alive z = Job.alive z0 /\
            forall r, r ∈ Job.procs_ z -> r ∈ Job.procs_ z0 /\ r <> p) as HJ.
  { intros k z. rewrite lookup_insert_Some. intros [[<- <-]|[Hne Hz]]; [exists y | exists z]; split_and!; try done; intros r Hr.
    - rewrite Eps, list_elem_of_filter in Hr. tauto.
    - split; [done|]. intros ->. destruct (I2 k z p Hz Hr) as (x0 & Hx0 & <-). congruence. }
  assert (forall r z, P' !! r = Some z -> P !! r = Some z) as HP1 by (intros r z; destruct HP as [-> | ->]; [done | by intros [_ ?]%lookup_delete_Some]).
  assert (forall r, r <> p -> P' !! r = P !! r) as HP2 by (intros r Hr; destruct HP as [-> | ->]; [done | by rewrite lookup_delete_ne]).
  assert (forall w, (match w with FinishDeadJob _ => False | _ => True end) -> w ∈ L' -> w ∈ L) as Hsub.
  { intros w Hk Hw. by destruct (member_in w Hw) as [?| ->]. }
  constructor.
  - intros r z Hz%HP1. destruct (I1 r z Hz) as (y0 & Hy0 & Hal0).
    destruct (decide (Process.job_ z = q)) as [E|Hne]; [rewrite E in *; exists y'; rewrite lookup_insert_eq; split; congruence | exists y0; by rewrite lookup_insert_ne].
  - intros k z r Hz Hr. destruct (HJ k z Hz) as (z0 & Hz0 & _ & _ & _ & Hps). destruct (Hps r Hr) as [Hr0 Hne]. rewrite HP2 by done. by apply (I2 k z0).
  - intros q' r k z H Hz Hr. destruct (HJ k z Hz) as (z0 & Hz0 & _ & _ & _ & Hps). destruct (Hps r Hr) as [Hr0 _]. apply Hsub in H; [|done]. by apply (I3 q' r k z0).
  - intros k z r x0 Hz Hr Hx0%HP1 Hd. destruct (HJ k z Hz) as (z0 & Hz0 & _ & _ & _ & Hps). destruct (Hps r Hr) as [Hr0 Hne].
    destruct (I4 k z0 r x0 Hz0 Hr0 Hx0 Hd); [left | right]; (apply member_keep; [done | destruct Hw0 as [-> | ->]; congruence]).
  - intros q' k r x0 H Hx0%HP1. apply Hsub in H; [|done]. by apply (I5 q' k r).
  - intros q' k r x0 H Hx0%HP1. apply Hsub in H; [|done]. by apply (I6 q' k r).
  - intros Hs k z c z0 Hz Hsz Hc Hz0. destruct (HJ k z Hz) as (z1 & Hz1 & E1 & Ej1 & _ & _). destruct (HJ c z0 Hz0) as (z2 & Hz2 & E2 & _ & Ea2 & _).
    rewrite E1 in Hsz. rewrite Ej1 in Hc. rewrite E2, Ea2. destruct (I7 Hs k z1 c z2 Hz1 Hsz Hc Hz2) as [?|[?|[rc H]]]; [by left | by right; left | right; right].
    exists rc. apply member_keep; [done | by destruct Hw0 as [-> | ->]].
  - intros Hs k z r x0 Hz Hsz Hr Hx0%HP1. destruct (HJ k z Hz) as (z1 & Hz1 & E1 & _ & _ & Hps). rewrite E1 in Hsz. destruct (Hps r Hr) as [Hr0 _].
    destruct (I8 Hs k z1 r x0 Hz1 Hsz Hr0 Hx0) as [?|[?|[rc H]]]; [by left | by right; left | right; right]. exists rc. apply member_keep; [done | by destruct Hw0 as [-> | ->]].
Qed.
End LeaveJob.

Lemma remove_process_inv root s i q p k aj ap :
  inv root s -> todo s !! i = Some (RemoveProcess q p :: k) -> exists s', run s (Work i aj ap) = Some s' /\ inv root s'.
Proof.
  intros I Hi. pose proof I as [It Ip Ij Ipj]. destruct (todo_swap _ _ _ _ [] Hi) as [Hin _].
  destruct (working root s p (RemoveProcess q p) I Hin) as (x & Hx & O & Hnew & Hdes); [own_work|]. destruct (q_remove _ _ _ _ O q Hin) as [Hj Hcd].
  destruct (work_settles _ _ _ q _ Ij Hin) as (y & Hy & Oq & Hsq & Halq); [own_work | done | done|].
  destruct (RemoveChildProcess_any p y) as (y' & h & E & Ep & Eh & Est & Ejs & Ea & Ehh & Eps & C & Sg); [apply Oq | apply Oq|].
  destruct (todo_swap _ _ _ _ (if bool_decide (p ∈ Job.procs_ y) && to_die y' then [FinishDeadJob q] else []) Hi) as [_ S].
  eexists. split; [eapply run_work; [done | simpl; unfold remove_child_process; rewrite Hy; simpl; rewrite E; done | done]|].
  constructor; unfold put_job, put_halted; cbn [tasks threads processes jobs tokens short]; change (pending (mkSys _ ?t _ _)) with (concat t).
  - apply (inv_t_work _ _ (pending s)); [done|]. apply (swap_release _ _ _ _ S). intros r t H. destruct (_ && _); in_work H.
  - destruct Ip as [Q1 Q2]. assert (forall r w, process_work r w = true -> w <> RemoveProcess q p -> times w (concat (<[i := (if bool_decide (p ∈ Job.procs_ y) && to_die y' then [FinishDeadJob q] else []) ++ k]> (todo s))) = times w (pending s)) as Hsame.
    { intros r w Hw Hne. eapply (member_same (pending s) _ q p); [exact S | done | by intros ->]. }
    constructor.
    + intros r z Hz. destruct (decide (r = p)) as [->|Hne].
      * assert (z = x) as -> by congruence. apply (proc_ok_keep _ (pending s) _ p x x); try done; [apply O | | |].
        { intros E1 E2. destruct (q_zero _ _ _ _ O E1 E2) as [H|H]; [left | right]; (eapply (member_keep (pending s) _ q p); [exact S | done | done]). }
        { intros w Hw. apply (Hsame p); [by destruct w | by intros ->]. }
        { intros w Hw Hpw. destruct (member_in (pending s) _ q p y y' _ S w Hw) as [?| ->]; [by left | done]. }
      * apply (proc_ok_ext _ (pending s)); [|by apply Q1]. intros w Hw. apply (Hsame r); [done|]. intros ->. simpl in Hw. apply Z.eqb_eq in Hw. congruence.
    + intros r w Hw Hrw. destruct (member_in (pending s) _ q p y y' _ S w Hw) as [?| ->]; [by apply (Q2 r w) | done].
  - apply (leave_job_inv_j (processes (tasks s)) (processes (tasks s)) _ (pending s) _ root q p (short s) x y y' (RemoveProcess q p)); try done; by left.
  - apply (leave_job_inv_pj (processes (tasks s)) (processes (tasks s)) _ (pending s) _ root q p (short s) x y y' (RemoveProcess q p)); try done; by left.
Qed.

Lemma delete_inv_t T P L L' K p :
  inv_t T P L K -> (forall t y, T !! t = Some y -> process_ y <> p) -> process_token p ∉ K ->
  (forall p t, times (ReleaseThread p t) L' <= times (ReleaseThread p t) L) -> inv_t T (delete p P) L' K.
Proof.
  intros It Hno Hk HL. apply (inv_t_work _ _ L); [|done]. destruct It as [I1 I2 I3 I4 I5 I6 I7 I8 I9 I9' I10].
  assert (forall t y, T !! t = Some y -> delete p P !! process_ y = P !! process_ y) as HP.
  { intros t y Ht. apply lookup_delete_ne. intros E. by apply (Hno t y). }
  constructor; try done.
  - intros t y Ht. rewrite (HP t) by done. by apply (I1 t).
  - intros t y z Ht. rewrite (HP t) by done. by apply I3.
  - intros t y z Ht. rewrite (HP t) by done. by apply I4.
  - intros r z [_ Hx]%lookup_delete_Some. by apply (I5 r).
  - intros r z [_ Hx]%lookup_delete_Some. by apply (I6 r).
  - intros r z t y [_ Hx]%lookup_delete_Some. by apply (I7 r z t).
  - intros r z [_ Hx]%lookup_delete_Some. by apply (I8 r).
  - intros r Hr. rewrite lookup_delete_ne by congruence. by apply I9'.
Qed.

Lemma destroy_process_inv root s i q p k aj ap :
  inv root s -> todo s !! i = Some (DestroyProcess q p :: k) -> exists s', run s (Work i aj ap) = Some s' /\ inv root s'.
Proof.
  intros I Hi. pose proof I as [It Ip Ij Ipj]. destruct (todo_swap _ _ _ _ [] Hi) as [Hin _].
  destruct (working root s p (DestroyProcess q p) I Hin) as (x & Hx & O & Hnew & Hdes); [own_work|].
  destruct (q_destroy _ _ _ _ O q Hin) as (Hj & Hal & Hst & Hcd & Hone & Honly).
  destruct (work_settles _ _ _ q _ Ij Hin) as (y & Hy & Oq & Hsq & Halq); [own_work | done | done|].
  destruct (RemoveChildProcess_any p y) as (y' & h & E & Ep & Eh & Est & Ejs & Ea & Ehh & Eps & C & Sg); [apply Oq | apply Oq|].
  set (ws := if bool_decide (p ∈ Job.procs_ y) && to_die y' then [FinishDeadJob q] else []). destruct (todo_swap _ _ _ _ ws Hi) as [_ S].
  eexists. split; [eapply run_work; [done | simpl; unfold destroy_process; rewrite Hx; simpl; rewrite Hst; simpl; unfold remove_child_process; rewrite Hy; simpl; rewrite E; done | done]|].
  constructor; unfold put_job, put_halted, del_process; cbn [tasks threads processes jobs tokens short]; change (pending (mkSys _ ?t _ _)) with (concat t).
  - apply (delete_inv_t _ _ (pending s)); [done | | |].
    + intros t z Ht <-. destruct (t_process _ _ _ _ It t z Ht) as (x0 & ? & ?). congruence.
    + intros H. destruct (t_ptoken _ _ _ _ It p H) as (x0 & ? & ?). congruence.
    + apply (swap_release _ _ _ _ S). unfold ws. intros r t H. destruct (_ && _); in_work H.
  - destruct Ip as [Q1 Q2]. constructor.
    + intros r z [Hne Hz]%lookup_delete_Some. apply (proc_ok_ext _ (pending s)); [|by apply Q1]. intros w Hw.
      eapply (member_same (pending s) _ q p); [exact S | | by intros ->]. intros ->. simpl in Hw. apply Z.eqb_eq in Hw. congruence.
    + intros r w Hw Hrw. destruct (member_in (pending s) _ q p y y' _ S w Hw) as [H| ->]; [|done].
      destruct (decide (r = p)) as [->|Hne]; [exfalso | rewrite lookup_delete_ne by done; by apply (Q2 r w)].
      rewrite (Honly w H Hrw) in Hw. rewrite times_in, (swap_count _ _ _ _ S _ 1 0) in Hw; [lia | count_work | unfold ws; destruct (_ && _); count_work].
  - apply (leave_job_inv_j (processes (tasks s)) (processes (tasks s)) _ (pending s) _ root q p (short s) x y y' (DestroyProcess q p)); try done; [by right | by left].
  - apply (leave_job_inv_pj (processes (tasks s)) (delete p (processes (tasks s))) _ (pending s) _ root q p (short s) x y y' (DestroyProcess q p)); try done; by right.
Qed.
