(* ===== verification/TaskTheorems.v ===== *)
(** * Correctness of tasks: theorems

    What holds of the jobs, processes and threads of a system in every state it
    reaches: no assertion fails, the tree of jobs is one, suspend tokens and stopped
    threads agree, work comes to an end, and killing a job kills all below it. *)

From S2P Require Import Prelude Zx JobPolicy Thread Tasks TaskSystem TaskFacts TaskProcessFacts TaskThreadFacts TaskWorkFacts TaskJobFacts TaskTreeFacts TaskTreeSteps TaskMemberSteps.
Import Tasks ThreadState Thread.

(** ** The invariant holds *)

Lemma inv_init root : inv root (sys_init root).
Proof.
  assert (forall j x, {[root := Job.CreateRootJob]} !! j = Some x -> j = root /\ x = Job.CreateRootJob) as HJ by (intros j x [<- <-]%lookup_singleton_Some; done).
  constructor.
  - constructor; try (intros; by rewrite lookup_empty in * ); try (intros; by apply not_elem_of_nil in H); intros * H; simpl in H; try (by rewrite lookup_empty in H); by apply not_elem_of_nil in H.
  - constructor; intros * H; simpl in H; [by rewrite lookup_empty in H | by apply not_elem_of_nil in H].
  - constructor.
    + exists Job.CreateRootJob. split_and!; try done. apply lookup_singleton_Some. done.
    + intros j x [-> ->]%HJ. constructor; simpl; try done.
      * split_and!; try done; apply NoDup_nil_2.
      * by intros c ?%not_elem_of_nil.
      * by intros q ?%not_elem_of_nil.
      * intros _. split; [done | by left].
      * by intros q ?%not_elem_of_nil.
      * by intros q ?%not_elem_of_nil.
    + by intros j w ?%not_elem_of_nil.
  - constructor; simpl; try (by intros * ?%not_elem_of_nil).
    + intros p x Hx. by rewrite lookup_empty in Hx.
    + intros j y p [-> ->]%HJ Hp. by apply not_elem_of_nil in Hp.
    + intros j y p x [-> ->]%HJ Hp. by apply not_elem_of_nil in Hp.
    + intros _ j y c z [-> ->]%HJ Hst. done.
    + intros _ j y p x [-> ->]%HJ Hst. done.
Qed.

Lemma at_place_true p y : at_place p y = true -> at_ y = p.
Proof. unfold at_place. by intros ?%bool_decide_eq_true. Qed.

Lemma work_event_inv root s i aj ap w k : inv root s -> todo s !! i = Some (w :: k) -> exists s', run s (Work i aj ap) = Some s' /\ inv root s'.
Proof.
  intros I Hi. destruct w.
  - by eapply add_child_job_inv.
  - by eapply kill_job_inv.
  - by eapply finish_dead_job_inv.
  - by eapply remove_job_inv.
  - by eapply destroy_job_inv.
  - by eapply add_child_process_inv.
  - by eapply kill_process_inv.
  - by eapply zero_handles_inv.
  - by eapply finish_dead_process_inv.
  - by eapply remove_process_inv.
  - by eapply destroy_process_inv.
  - by eapply release_thread_inv.
Qed.

Ltac enabled_facts := repeat match goal with
  | H : _ /\ _ |- _ => destruct H
  | H : job_is _ _ _ = true |- _ => apply job_is_true in H as (? & ? & ?)
  | H : process_is _ _ _ = true |- _ => apply process_is_true in H as (? & ? & ?)
  | H : thread_is _ _ _ = true |- _ => apply thread_is_true in H as (? & ? & ?)
  | H : is_Some (threads _ !! _) |- _ => destruct H as [? ?]
  | H : _ && _ = true |- _ => apply andb_true_iff in H
  | H : negb _ = true |- _ => apply negb_true_iff in H
  | H : bool_decide _ = false |- _ => apply bool_decide_eq_false in H
  | H : at_place _ _ = true |- _ => apply at_place_true in H
  end.

(** A thread moves. *)
Lemma thread_step_inv root s t y f : inv root s -> threads (tasks s) !! t = Some y -> (place_ok y -> exists y', f y = Some y' /\ moves y y') ->
  exists s', on_thread f t s = Some s' /\ inv root s'.
Proof. intros I Ht Hf. apply (on_thread_inv root s t y); [done | done|]. apply Hf. by apply (t_place _ _ _ _ (i_t _ _ I) t). Qed.

Lemma thread_event_inv root s e : inv root s -> enabled s e ->
  match e with
  | TaskKillThread _ | ThreadSignalled _ | ThreadStops _ | ThreadSleeps _ | ThreadGoesOn _ | ExceptionBegins _ | ExceptionEnds _ | ThreadExit _ | ThreadKilled _
  | ExitExceptionBegins _ | ExitExceptionEnds _ | ThreadDies _ => exists s', run s e = Some s' /\ inv root s'
  | _ => True
  end.
Proof.
  intros I [_ He]. destruct e; try done; cbn [run]; enabled_facts; (eapply thread_step_inv; [done | done|]); intros Hp.
  - destruct (Kill_moves _ Hp) as (y' & ? & ? & _). by exists y'.
  - eexists. split; [done|]. by apply signalled_moves.
  - by apply Suspending_moves.
  - eexists. split; [done|]. by apply falls_asleep_moves.
  - by apply Resuming_moves.
  - by apply exception_begins_moves.
  - by apply exception_ends_moves.
  - by apply Exit_moves.
  - eexists. split; [done|]. by apply killed_moves.
  - by apply exit_exception_begins_moves.
  - by apply exit_exception_ends_moves.
  - by apply Exiting_moves.
Qed.

Lemma step_inv root s e : inv root s -> enabled s e -> exists s', run s e = Some s' /\ inv root s'.
Proof.
  intros I He. pose proof (thread_event_inv root s e I He) as Ht. destruct e; try exact Ht; clear Ht; destruct He as [_ He]; [destruct He as (w & k & Hi); by eapply work_event_inv|..]; enabled_facts.
  - by eapply create_job_inv.
  - by eapply close_job_inv.
  - by eapply open_job_inv.
  - by eapply drop_job_inv.
  - by eapply task_kill_job_inv.
  - by eapply set_policy_inv.
  - by eapply set_slack_inv.
  - by eapply create_process_inv.
  - by eapply close_process_inv.
  - by eapply open_process_inv.
  - by eapply drop_process_inv.
  - by eapply task_kill_process_inv.
  - by eapply process_suspend_inv.
  - by eapply process_resume_inv.
  - by eapply create_thread_inv.
  - by eapply start_thread_inv.
  - by eapply suspend_thread_inv.
  - by eapply resume_thread_inv.
  - eapply drop_thread_inv; try done. by destruct (orb_prop _ _ H1) as [?%at_place_true|?%at_place_true]; [left | right].
  - by eapply process_exit_inv.
  - by eapply thread_leaves_inv.
Qed.

Lemma tasks_reachable_inv root s : sys_reachable root s -> inv root s.
Proof.
  induction 1 as [|s e s' _ IH He Hr]; [apply inv_init|]. destruct (step_inv root s e IH He) as (s0 & E & I). congruence.
Qed.

(** ** No assertion fails *)


(** ** The tree *)

Definition child_of (s : Tasks) (j c : Z) : Prop := exists y, jobs s !! j = Some y /\ c ∈ Job.jobs_ y.
(** [below s j d]: the job [d] is [j] or below it. *)
Definition below (s : Tasks) : Z -> Z -> Prop := rtc (child_of s).

(** C14: In every state the jobs are a tree of at most 33 levels: the counts of a job are
    those of its lists, which have no duplicates; a child is one level below its
    parent, has it as its parent, and a process in a job has it as its job; the
    signals say whether the lists are empty and whether the job is dead; and a dead
    job has no children. *)
Theorem task_tree root x j y :
  sys_reachable root x -> jobs (tasks x) !! j = Some y ->
  0 <= Job.max_height_ y <= Job.kRootJobMaxHeight /\ 1 <= Job.LockOrder y <= Job.kRootJobMaxHeight + 1 /\
  counts_ok y /\ signals_ok y /\ (Job.state_ y = Job.DEAD -> Job.procs_ y = [] /\ Job.jobs_ y = []) /\
  (forall c, c ∈ Job.jobs_ y -> exists z, jobs (tasks x) !! c = Some z /\ Job.parent_ z = Some j /\ Job.LockOrder z = Job.LockOrder y + 1) /\
  (forall p, p ∈ Job.procs_ y -> exists z, processes (tasks x) !! p = Some z /\ Process.job_ z = j) /\
  (j <> root -> exists q z, Job.parent_ y = Some q /\ jobs (tasks x) !! q = Some z /\ Job.alive z = true).
Proof.
  intros Hr Hy. pose proof (tasks_reachable_inv root x Hr) as [It Ip Ij Ipj]. pose proof (j_all _ _ _ Ij j y Hy) as O. pose proof (j_height _ _ _ _ _ O) as Hh. split_and!; try lia; try apply O.
  - unfold Job.LockOrder. lia.
  - unfold Job.LockOrder. lia.
  - intros c Hc. destruct (j_children _ _ _ _ _ O c Hc) as (z & Hz & Hp). exists z. split_and!; try done.
    destruct (parent_settled _ _ _ _ _ _ Ij Hz Hp) as (y0 & Hy0 & _ & _ & _ & _ & Hhz). assert (y0 = y) as -> by congruence. unfold Job.LockOrder. lia.
  - intros p Hp. by apply (pj_procs _ _ _ _ Ipj j y).
  - intros Hne. destruct (Job.parent_ y) as [q|] eqn:Hp; [|by apply (j_only_root _ _ _ _ _ O) in Hp].
    destruct (parent_settled _ _ _ _ _ _ Ij Hy Hp) as (z & ? & _ & _ & ? & _). by exists q, z.
Qed.

(** ** Suspension *)

(** C30: A thread that has started and is not dying sleeps, or has a signal to stop, exactly
    when a suspend token for it or for its process exists. *)
Theorem suspended_by_tokens root x t y :
  sys_reachable root x -> threads (tasks x) !! t = Some y -> HasStarted y = true -> IsDyingOrDead y = false ->
  stop y || asleep y = true <-> thread_token t ∈ tokens x \/ process_token (process_ y) ∈ tokens x.
Proof.
  intros Hr Ht Hs Hd. pose proof (tasks_reachable_inv root x Hr) as [It Ip Ij Ipj]. destruct (t_process _ _ _ _ It t y Ht) as (p & HP & _).
  destruct (t_suspend _ _ _ _ It t y p Ht HP) as [_ Hc]. destruct (Hc Hd) as [Hn Hst]. specialize (Hst Hs). pose proof (t_place _ _ _ _ It t y Ht) as [Hpl _].
  assert (in_list (at_ y) = true) as Hil.
  { unfold HasStarted, IsDyingOrDead in *. destruct (at_ y); try done; rewrite Hpl in *; done. }
  pose proof Hil as Hin. apply (t_list _ _ _ _ It t y p Ht HP) in Hin.
  assert (active p = true) as Ha.
  { pose proof (t_lists _ _ _ _ It _ p HP) as Hl. unfold list_ok, active in *. destruct (Process.state_ p) eqn:Ep; try done.
    - pose proof (t_dying _ _ _ _ It _ p t y HP Ep Hin Ht). congruence.
    - rewrite Hl in Hin. by apply not_elem_of_nil in Hin. }
  pose proof (t_count _ _ _ _ It _ p HP Ha) as Hpc. unfold share in Hn. rewrite Hil, Ha in Hn. simpl in Hn.
  rewrite !times_in, <- Hpc, Hst, Hn, Z.gtb_lt. pose proof (times_nonneg (thread_token t) (tokens x)). rewrite Z.gtb_ltb.
  destruct (Z.ltb_spec 0 (Process.suspend_count_ p)); lia.
Qed.

(** ** Killing *)

(** A dying thread does not sleep. *)
Lemma dying_awake y : place_ok y -> IsDyingOrDead y = true -> asleep y = false.
Proof. intros (_ & _ & Hs) Hd. apply not_true_is_false. intros H. destruct (Hs H) as [E _]. unfold IsDyingOrDead in Hd. by rewrite E in Hd. Qed.

Section Quiet.
Context (root : Z) (x : Sys) (I : inv root x) (Hq : pending x = []) (Hs : short x = false).

Lemma quiet (w : work) : w ∉ pending x.
Proof using Hq. rewrite Hq. apply not_elem_of_nil. Qed.

Lemma quiet_alive j y : jobs (tasks x) !! j = Some y -> Job.alive y = true.
Proof using I Hq.
  intros Hy. apply not_false_is_true. intros Ha. destruct (j_alive _ _ _ _ _ (j_all _ _ _ (i_j _ _ I) j y Hy) Ha) as (q & _ & H). by apply quiet in H.
Qed.

Lemma quiet_process j y p z : jobs (tasks x) !! j = Some y -> p ∈ Job.procs_ y -> Job.state_ y <> Job.READY -> processes (tasks x) !! p = Some z ->
  Process.state_ z = Process.DYING /\ Process.thread_list_ z <> [] /\ forall t u, t ∈ Process.thread_list_ z -> threads (tasks x) !! t = Some u -> IsDyingOrDead u = true.
Proof using All.
  intros Hy Hp Hst Hz. pose proof I as [It Ip Ij Ipj]. pose proof (q_all _ _ _ Ip p z Hz) as O.
  assert (Process.alive z = true) as Hal by (apply not_false_is_true; intros Ha; apply (q_alive _ _ _ _ O) in Ha; by apply quiet in Ha).
  assert (active z = false) as Hact by (destruct (pj_kill_procs _ _ _ _ Ipj Hs j y p z Hy Hst Hp Hz) as [?|[?|[rc H]]]; [done | congruence | by apply quiet in H]).
  assert (Process.state_ z = Process.DYING) as Hd.
  { unfold active in Hact. destruct (Process.state_ z) eqn:E; try done. exfalso. destruct (Process.completely_dead_ z) eqn:Ecd.
    - destruct (pj_leaving _ _ _ _ Ipj j y p z Hy Hp Hz Ecd) as [H|H]; by apply quiet in H.
    - pose proof (q_finish _ _ _ _ O) as Hf. rewrite E, Ecd, Hq in Hf. done. }
  split_and!; [done | |intros t u; by apply (t_dying _ _ _ _ It p z t u)]. pose proof (t_lists _ _ _ _ It p z Hz) as Hl. unfold list_ok in Hl. by rewrite Hd in Hl.
Qed.

Lemma quiet_below j d y : jobs (tasks x) !! j = Some y -> Job.state_ y <> Job.READY -> below (tasks x) j d -> exists z, jobs (tasks x) !! d = Some z /\ Job.state_ z <> Job.READY.
Proof using All.
  intros Hy Hst Hb. revert y Hy Hst. induction Hb as [j|j c d (y0 & Hy0 & Hc) _ IH]; intros y Hy Hst; [by exists y|]. assert (y0 = y) as -> by congruence.
  destruct (j_children _ _ _ _ _ (j_all _ _ _ (i_j _ _ I) j y Hy) c Hc) as (z & Hz & _). apply (IH z Hz).
  destruct (pj_kill_jobs _ _ _ _ (i_pj _ _ I) Hs j y c z Hy Hst Hc Hz) as [?|[?|[rc H]]]; [done | | by apply quiet in H]. pose proof (quiet_alive c z Hz). congruence.
Qed.

(** A job that is being killed has a process with a thread below it. *)
Lemma quiet_killing (n : nat) : forall j y, jobs (tasks x) !! j = Some y -> Job.state_ y = Job.KILLING -> Job.max_height_ y < Z.of_nat n ->
  exists d z p, below (tasks x) j d /\ jobs (tasks x) !! d = Some z /\ p ∈ Job.procs_ z.
Proof using All.
  induction n as [|n IH]; intros j y Hy Hst Hh; pose proof (j_all _ _ _ (i_j _ _ I) j y Hy) as O; pose proof (j_height _ _ _ _ _ O); [lia|].
  destruct (Job.procs_ y) as [|p l] eqn:Ep; [|exists j, y, p; rewrite Ep; split_and!; [apply rtc_refl | done | apply list_elem_of_here]].
  destruct (Job.jobs_ y) as [|c l] eqn:Ej; [pose proof (j_finish _ _ _ _ _ O) as Hf; by rewrite Hst, Ep, Ej, Hq in Hf|].
  assert (c ∈ Job.jobs_ y) as Hc by (rewrite Ej; apply list_elem_of_here).
  assert (child_of (tasks x) j c) as Hch by by exists y.
  destruct (quiet_below j c y Hy) as (z & Hz & Hsz); [congruence | by apply rtc_once|].
  destruct (j_children _ _ _ _ _ O c Hc) as (z0 & Hz0 & Hp). assert (z0 = z) as -> by congruence.
  destruct (parent_settled _ _ _ _ _ _ (i_j _ _ I) Hz Hp) as (y0 & Hy0 & _ & _ & _ & _ & Hhz). assert (y0 = y) as -> by congruence.
  assert (Job.state_ z = Job.KILLING) as Hkz.
  { destruct (Job.state_ z) eqn:E; try done. destruct (j_leaving _ _ _ _ _ (j_all _ _ _ (i_j _ _ I) c z Hz)) as [q Hrm]; [by exists j, y | done | by apply (quiet_alive c) | by apply quiet in Hrm]. }
  destruct (IH c z Hz Hkz) as (d & z1 & p & Hb & ? & ?); [lia|]. exists d, z1, p. split_and!; try done. by eapply rtc_l.
Qed.
End Quiet.

(** C8: When all work is done and no allocation has failed in [Kill], nothing below a job
    that has been killed has escaped: every job below it is being killed or dead, and
    all the processes in them are dying, as are all their threads, and these are awake. *)
Theorem kill_reaches_all root x j d y :
  sys_reachable root x -> pending x = [] -> short x = false -> jobs (tasks x) !! j = Some y -> Job.state_ y <> Job.READY -> below (tasks x) j d ->
  exists z, jobs (tasks x) !! d = Some z /\ Job.state_ z <> Job.READY /\
    forall p u, p ∈ Job.procs_ z -> processes (tasks x) !! p = Some u -> Process.state_ u = Process.DYING /\
      forall t v, t ∈ Process.thread_list_ u -> threads (tasks x) !! t = Some v -> IsDyingOrDead v = true /\ asleep v = false.
Proof.
  intros Hr Hq Hs Hy Hst Hb. pose proof (tasks_reachable_inv root x Hr) as I. destruct (quiet_below root x I Hq Hs j d y Hy Hst Hb) as (z & Hz & Hsz).
  exists z. split_and!; try done. intros p u Hp Hu. destruct (quiet_process root x I Hq Hs d z p u Hz Hp Hsz Hu) as (? & _ & Hall).
  split; [done|]. intros t v Ht Hv. pose proof (Hall t v Ht Hv) as Hd. split; [done|]. by apply dying_awake; [apply (t_place _ _ _ _ (i_t _ _ I) t)|].
Qed.

(** C15: A job that has been killed only waits for threads: when all work is done and it is
    not dead yet, some process below it has a thread that is dying, awake, and has not left.
    So once the last thread below it has left the job is dead. *)
Theorem killed_job_waits_for_threads root x j y :
  sys_reachable root x -> pending x = [] -> short x = false -> jobs (tasks x) !! j = Some y -> Job.state_ y = Job.KILLING ->
  exists d z p u t v, below (tasks x) j d /\ jobs (tasks x) !! d = Some z /\ p ∈ Job.procs_ z /\ processes (tasks x) !! p = Some u /\
    t ∈ Process.thread_list_ u /\ threads (tasks x) !! t = Some v /\ process_ v = p /\ IsDyingOrDead v = true /\ asleep v = false.
Proof.
  intros Hr Hq Hs Hy Hst. pose proof (tasks_reachable_inv root x Hr) as I. pose proof (j_height _ _ _ _ _ (j_all _ _ _ (i_j _ _ I) j y Hy)).
  destruct (quiet_killing root x I Hq Hs (Z.to_nat (Job.max_height_ y + 1)) j y Hy Hst) as (d & z & p & Hb & Hz & Hp); [lia|].
  destruct (quiet_below root x I Hq Hs j d y Hy) as (z0 & Hz0 & Hsz); [congruence | done|]. assert (z0 = z) as -> by congruence.
  destruct (pj_procs _ _ _ _ (i_pj _ _ I) d z p Hz Hp) as (u & Hu & _). destruct (quiet_process root x I Hq Hs d z p u Hz Hp Hsz Hu) as (_ & Hne & Hall).
  destruct (Process.thread_list_ u) as [|t l] eqn:El; [done|]. destruct (t_threads _ _ _ _ (i_t _ _ I) p u Hu) as [_ Hth].
  assert (t ∈ Process.thread_list_ u) as Ht by (rewrite El; apply list_elem_of_here). destruct (Hth t Ht) as (v & Hv & Hpv).
  exists d, z, p, u, t, v. rewrite <- El in Hall. pose proof (Hall t v Ht Hv) as Hd. split_and!; try done.
  by apply dying_awake; [apply (t_place _ _ _ _ (i_t _ _ I) t)|].
Qed.
