(* ===== verification/TaskTermination.v ===== *)
(** * Correctness of tasks: work comes to an end

    What a function does after it has let its lock go may leave more to be done, up and
    down the tree of jobs; it is never without end. *)

From S2P Require Import Prelude Zx JobPolicy Thread Tasks TaskSystem TaskFacts TaskProcessFacts TaskWorkFacts TaskJobFacts TaskTheorems.
Import Tasks ThreadState Thread.

(** ** Counting in a map *)

Section Count.
Context {A : Type} (f : A -> bool).

Definition count (m : gmap Z A) : nat := length (filter (fun kv => f kv.2 = true) (map_to_list m)).
Definition one (a : A) : nat := if f a then 1%nat else 0%nat.

Lemma count_fresh m k a : m !! k = None -> count (<[k := a]> m) = (one a + count m)%nat.
Proof.
  intros Hk. unfold count. rewrite (map_to_list_insert m k a Hk). unfold one. destruct (f a) eqn:E.
  - by rewrite filter_cons_True.
  - rewrite filter_cons_False; [done|]. simpl. congruence.
Qed.

Lemma count_at m k a : m !! k = Some a -> count m = (one a + count (delete k m))%nat.
Proof. intros Hk. rewrite <- (insert_delete_id m k a Hk) at 1. apply count_fresh, lookup_delete_eq. Qed.

Lemma count_put m k a a' : m !! k = Some a -> (count (<[k := a']> m) + one a = one a' + count m)%nat.
Proof. intros Hk. rewrite (count_at m k a Hk), <- (insert_delete_eq m k a'), count_fresh by apply lookup_delete_eq. lia. Qed.

Lemma count_delete m k : (count (delete k m) <= count m)%nat.
Proof. destruct (m !! k) as [a|] eqn:Hk; [rewrite (count_at m k a Hk); lia | by rewrite delete_id]. Qed.
End Count.

(** ** The measure *)

Definition is_ready (x : Job.Job) : bool := bool_decide (Job.state_ x = Job.READY).
Definition is_killing (x : Job.Job) : bool := bool_decide (Job.state_ x = Job.KILLING).
Definition not_gone (x : Process.Process) : bool := negb (Process.completely_dead_ x).

Definition weight (w : work) : nat :=
  match w with
  | AddChildJob _ _ | AddChildProcess _ _ => 3
  | DestroyJob _ _ | RemoveJob _ _ | DestroyProcess _ _ | RemoveProcess _ _ | KillProcess _ _ | ZeroHandles _ => 2
  | _ => 1
  end%nat.
Definition weights (l : list work) : nat := sum_list_with weight l.

Record measure := mkMeasure { m_ready : nat; m_killing : nat; m_gone : nat; m_weight : nat }.
Definition measure_of (s : Sys) : measure :=
  mkMeasure (count is_ready (jobs (tasks s))) (count is_killing (jobs (tasks s))) (count not_gone (processes (tasks s))) (weights (pending s)).

Definition smaller (a b : measure) : Prop :=
  (m_ready a < m_ready b \/ m_ready a = m_ready b /\
  (m_killing a < m_killing b \/ m_killing a = m_killing b /\
  (m_gone a < m_gone b \/ m_gone a = m_gone b /\ m_weight a < m_weight b)))%nat.

Lemma smaller_wf : well_founded smaller.
Proof.
  assert (forall a b c d, Acc smaller (mkMeasure a b c d)) as H; [|intros [a b c d]; apply H].
  induction a as [a IHa] using lt_wf_ind. induction b as [b IHb] using lt_wf_ind. induction c as [c IHc] using lt_wf_ind. induction d as [d IHd] using lt_wf_ind.
  constructor. intros [a' b' c' d'] Hlt. unfold smaller in Hlt. simpl in Hlt.
  destruct Hlt as [?|(-> & [?|(-> & [?|(-> & ?)])])]; [by apply IHa | by apply IHb | by apply IHc | by apply IHd].
Qed.

(** What work leaves alone: no job becomes ready or killed, no process comes back. *)
Definition calm (s s' : Tasks) : Prop :=
  (count is_ready (jobs s') <= count is_ready (jobs s) /\ count is_killing (jobs s') <= count is_killing (jobs s) /\
   count not_gone (processes s') <= count not_gone (processes s))%nat.

Lemma calm_refl s : calm s s.
Proof. unfold calm. lia. Qed.
Lemma calm_trans s1 s2 s3 : calm s1 s2 -> calm s2 s3 -> calm s1 s3.
Proof. unfold calm. lia. Qed.

Lemma calm_job s j x x' : jobs s !! j = Some x -> Job.state_ x' = Job.state_ x -> calm s (put_job j x' s).
Proof.
  intros Hj Es. unfold calm. simpl. pose proof (count_put is_ready _ j x x' Hj) as H1. pose proof (count_put is_killing _ j x x' Hj) as H2.
  unfold one, is_ready, is_killing in *. rewrite Es in *. lia.
Qed.
Lemma calm_process s p x x' : processes s !! p = Some x -> Process.completely_dead_ x' = Process.completely_dead_ x -> calm s (put_process p x' s).
Proof.
  intros Hp Es. unfold calm. simpl. pose proof (count_put not_gone _ p x x' Hp) as H1. unfold one, not_gone in *. rewrite Es in *. lia.
Qed.

Lemma calm_set_state p new s s' : Tasks.SetStateLocked p new s = Some s' -> calm s s'.
Proof.
  unfold Tasks.SetStateLocked. intros (x & Hx & H)%bind_Some. destruct (_ && _); [done|]. destruct (bool_decide _); [injection H as <-; apply calm_refl|].
  assert (calm s (put_process p (Process.put_state new x) s)) as Hc by by apply (calm_process s p x).
  destruct (bool_decide _); [|by injection H as <-]. unfold KillAllThreadsLocked in H. apply bind_Some in H as (m & _ & [= <-]). done.
Qed.

Lemma increment_state x x' : Job.UpdateSignalsIncrementLocked x = Some x' -> Job.state_ x' = Job.state_ x.
Proof. unfold Job.UpdateSignalsIncrementLocked. destruct (_ || _); [done|]. by intros [= <-]. Qed.
Lemma decrement_state x x' h : Job.UpdateSignalsDecrementLocked x = Some (x', h) -> Job.state_ x' = Job.state_ x.
Proof. unfold Job.UpdateSignalsDecrementLocked. destruct (_ || _); [done|]. by intros [= <- _]. Qed.

Ltac less := unfold weights in *; simpl in *; lia.

Lemma calm_remove_job q c s s' ws : remove_child_job q c s = Some (s', ws) -> calm s s' /\ (weights ws <= 1)%nat.
Proof.
  unfold remove_child_job, Job.RemoveChildJob. intros (x & Hx & H)%bind_Some. apply bind_Some in H as ([[x' h] d] & Hr & [= <- <-]).
  split; [|destruct d; less]. apply (calm_job s q x); [done|]. destruct (negb _) in Hr; [by injection Hr as <- _ _|].
  apply bind_Some in Hr as ([x1 h1] & Hd & [= <- _ _]). by apply decrement_state in Hd.
Qed.
Lemma calm_remove_process q p s s' ws : remove_child_process q p s = Some (s', ws) -> calm s s' /\ (weights ws <= 1)%nat.
Proof.
  unfold remove_child_process, Job.RemoveChildProcess. intros (x & Hx & H)%bind_Some. apply bind_Some in H as ([[x' h] d] & Hr & [= <- <-]).
  split; [|destruct d; less]. apply (calm_job s q x); [done|]. destruct (negb _) in Hr; [by injection Hr as <- _ _|].
  apply bind_Some in Hr as ([x1 h1] & Hd & [= <- _ _]). by apply decrement_state in Hd.
Qed.

(** Work that changes the state of no job and ends no process. *)
Definition plain (s : Tasks) (w : work) : bool :=
  match w with KillJob j _ => negb (job_is is_ready s j) | FinishDeadJob _ | FinishDeadProcess _ => false | _ => true end.

(** Work that is done without a change of state of a job or the end of a process leaves
    less to be done. *)
Lemma exec_calm aj ap w s s' ws :
  exec aj ap w s = Some (s', ws) -> plain s w = true ->
  calm s s' /\ (weights ws < weight w)%nat.
Proof.
  intros He Hw. destruct w as [q c|j rc|j|q c|q c|q p|p rc|p|p|q p|q p|p t]; simpl in He; try done.
  - unfold add_child_job, Job.AddChildJob in He. apply bind_Some in He as (x & Hx & He). apply bind_Some in He as (y & Hy & He).
    apply bind_Some in He as ([added x'] & Ha & He). destruct (negb _) in Ha; [injection Ha as <- <-|].
    + injection He as <- <-. split; [by apply (calm_job s c y) | less].
    + destruct (bool_decide _) in Ha; [done|]. apply bind_Some in Ha as (x1 & Hi & [= <- <-]). injection He as <- <-. apply increment_state in Hi. split; [|less].
      apply (calm_trans _ (put_job q x1 s)); [by apply (calm_job s q x)|]. destruct (decide (q = c)) as [->|Hne].
      * apply (calm_job _ c x1); [simpl; by rewrite lookup_insert_eq|]. simpl. rewrite Hi. simpl. congruence.
      * apply (calm_job _ c y); [simpl; by rewrite lookup_insert_ne | done].
  - unfold kill_job in He. apply bind_Some in He as (x & Hx & He). simpl in Hw. unfold job_is in Hw. rewrite Hx in Hw. unfold is_ready in Hw. rewrite Hw in He. injection He as <- <-.
    split; [apply calm_refl | less].
  - destruct (calm_remove_job q c s s' ws He). split; [done | less].
  - unfold destroy_job in He. apply bind_Some in He as ([s1 ws1] & Hr & [= <- <-]). destruct (calm_remove_job q c s s1 ws1 Hr) as [Hc Hl]. split; [|less].
    apply (calm_trans _ s1); [done|]. unfold calm. simpl. split_and!; [apply count_delete | apply count_delete | done].
  - unfold add_child_process, Job.AddChildProcess in He. apply bind_Some in He as (x & Hx & He). apply bind_Some in He as (y & Hy & He).
    apply bind_Some in He as ([added x'] & Ha & He). destruct (negb _) in Ha; [injection Ha as <- <-|].
    + injection He as <- <-. split; [apply calm_refl | less].
    + apply bind_Some in Ha as (x1 & Hi & [= <- <-]). injection He as <- <-. apply increment_state in Hi. split; [|less].
      apply (calm_trans _ (put_job q x1 s)); [by apply (calm_job s q x) | by apply (calm_process _ p y)].
  - unfold kill_process in He. apply bind_Some in He as (x & Hx & He). destruct (bool_decide _) in He; [injection He as <- <-; split; [apply calm_refl | less]|].
    destruct (_ && _) in He; [done|]. set (s0 := if bool_decide (Process.state_ x = Process.DYING) then s else put_process p (Process.put_retcode rc x) s) in He.
    assert (calm s s0) as H0 by (unfold s0; destruct (bool_decide _); [apply calm_refl | by apply (calm_process s p x)]).
    destruct (bool_decide _) in He; apply bind_Some in He as (s1 & Hs & [= <- <-]); apply calm_set_state in Hs; (split; [by apply (calm_trans _ s0) | less]).
  - unfold process_on_zero_handles in He. apply bind_Some in He as (x & Hx & He). destruct (negb _) in He; [injection He as <- <-; split; [apply calm_refl | less]|].
    apply bind_Some in He as (s1 & Hs & [= <- <-]). apply calm_set_state in Hs. split; [done | less].
  - destruct (calm_remove_process q p s s' ws He). split; [done | less].
  - unfold destroy_process in He. apply bind_Some in He as (x & Hx & He). destruct (negb _) in He; [done|]. apply bind_Some in He as ([s1 ws1] & Hr & [= <- <-]).
    destruct (calm_remove_process q p s s1 ws1 Hr) as [Hc Hl]. split; [|less]. apply (calm_trans _ s1); [done|]. unfold calm. simpl. split_and!; [done | done | apply count_delete].
  - apply bind_Some in He as (s1 & Hs & [= <- <-]). unfold release_thread in Hs. apply bind_Some in Hs as (x & _ & [= <-]). split; [unfold calm; simpl; lia | less].
Qed.

(** ** Each piece of work makes it smaller *)

Lemma weights_todo t i w k ws : t !! i = Some (w :: k) -> (weights (concat (<[i := ws ++ k]> t)) + weight w = weights ws + weights (concat t))%nat.
Proof.
  assert (forall a b, weights (a ++ b) = (weights a + weights b)%nat) as Happ by apply sum_list_with_app.
  revert i. induction t as [|l t IH]; intros [|i] Hi; simpl in *; try done; rewrite !Happ.
  - injection Hi as ->. change (weights (w :: k)) with (weight w + weights k)%nat. lia.
  - specialize (IH i Hi). lia.
Qed.

Lemma work_smaller root s i aj ap s' :
  inv root s -> run s (Work i aj ap) = Some s' -> smaller (measure_of s') (measure_of s).
Proof.
  intros I Hr. unfold run in Hr. apply bind_Some in Hr as (stack & Hi & Hr). destruct stack as [|w k]; [done|]. apply bind_Some in Hr as ([t' ws] & He & [= <-]).
  pose proof (weights_todo (todo s) i w k ws Hi) as Hw. unfold smaller, measure_of, pending. simpl.
  assert (w ∈ pending s) as Hin by by apply (todo_swap s i w k []).
  destruct (plain (tasks s) w) eqn:Hc.
  - destruct (exec_calm aj ap w _ _ _ He Hc) as [(? & ? & ?) ?]. lia.
  - destruct w; try done; simpl in He.
    + unfold kill_job in He. apply bind_Some in He as (x & Hx & He). simpl in Hc. unfold job_is in Hc. rewrite Hx in Hc. apply negb_false_iff in Hc.
      unfold is_ready in Hc. rewrite Hc in He. injection He as <- _. left. simpl.
      pose proof (count_put is_ready _ j x (Job.put_state Job.KILLING return_code (Job.signals_ x) x) Hx) as Hp. unfold one in Hp. unfold is_ready in Hp at 2. rewrite Hc in Hp. simpl in Hp. lia.
    + unfold finish_dead_job in He. apply bind_Some in He as (x & Hx & He). destruct (work_settles _ _ _ j (FinishDeadJob j) (i_j _ _ I) Hin) as (x0 & Hx0 & O & _); [own_work | done | done|].
      assert (x0 = x) as -> by congruence. assert (Job.state_ x = Job.KILLING) as Hst.
      { pose proof (j_finish _ _ _ _ _ O) as Hf. apply times_in in Hin. destruct (bool_decide_reflect (Job.state_ x = Job.KILLING)); [done|]. simpl in Hf. lia. }
      set (x' := Job.put_state Job.DEAD _ _ x) in He. assert (t' = put_job j x' (tasks s)) as ->.
      { destruct (Job.parent_ x); [|congruence]. apply bind_Some in He as (y & _ & He). destruct (bool_decide _) in He; congruence. }
      pose proof (count_put is_ready _ j x x' Hx) as H1. pose proof (count_put is_killing _ j x x' Hx) as H2. unfold one, is_ready, is_killing, x' in *. simpl in *. rewrite Hst in *. simpl in *. lia.
    + unfold finish_dead_process in He. apply bind_Some in He as (x & Hx & He). destruct (Process.completely_dead_ x) eqn:Ecd; [done|]. injection He as <- _. simpl.
      pose proof (count_put not_gone _ p x (Process.put_dead (update_signals 0 ZX_TASK_TERMINATED (Process.signals_ x)) x) Hx) as H1. unfold one in H1. unfold not_gone in H1 at 2 3. simpl in H1. rewrite Ecd in H1. simpl in H1. lia.
Qed.

(** [s'] comes after [s] by one piece of work. *)
Definition works (s' s : Sys) : Prop := exists i aj ap, run s (Work i aj ap) = Some s'.

(** C23: From a state that a system reaches there is no endless sequence of pieces of work:
    killing, dying and destroying come to an end whatever the order in which the
    kernel threads get on.  With [tasks_never_assert], they end with nothing left to
    do. *)
Theorem task_work_ends root s : sys_reachable root s -> Acc works s.
Proof.
  intros Hr. apply tasks_reachable_inv in Hr. remember (measure_of s) as m eqn:Em. revert s Em Hr.
  induction (smaller_wf m) as [m _ IH]. intros s -> I. constructor. intros s' (i & aj & ap & Hrun).
  assert (inv root s') as I'.
  { destruct (todo s !! i) as [[|w k]|] eqn:Hi; [by unfold run in Hrun; rewrite Hi in Hrun | | by unfold run in Hrun; rewrite Hi in Hrun].
    destruct (work_event_inv root s i aj ap w k I Hi) as (s0 & E & I0). congruence. }
  by apply (IH (measure_of s') (work_smaller root s i aj ap s' I Hrun) s' eq_refl).
Qed.
