(* ===== verification/TaskScenarios.v ===== *)
(** * Tasks: a run of a small system

    Two jobs, one with a job in it, and a process with one thread; the thread is suspended, then
    the outer job is killed.  The theorems of [TaskTheorems.v] and [TaskTermination.v]
    at states of this run. *)

From S2P Require Import Prelude Zx JobPolicy Thread Tasks TaskSystem TaskFacts TaskJobFacts TaskTheorems TaskTermination.
Import Tasks ThreadState Thread.

(** When an event that the run has can happen. *)
Definition can (x : Sys) (e : event) : bool :=
  let s := tasks x in
  negb (halted s) &&
  match e with
  | Work i _ _ => match todo x !! i with Some (_ :: _) => true | _ => false end
  | CreateJob q j => job_is Job.has_handle s q && bool_decide (jobs s !! j = None)
  | CreateProcess q p => job_is Job.has_handle s q && bool_decide (processes s !! p = None)
  | CreateThread p t => process_is Process.has_handle s p && bool_decide (threads s !! t = None)
  | TaskKillJob j _ | SetPolicy j _ _ => job_is Job.has_handle s j
  | StartThread t _ | SuspendThread t => bool_decide (is_Some (threads s !! t))
  | ThreadStops t => thread_is (at_place p_signalled) s t
  | ThreadSignalled t => thread_is sees_suspend s t
  | ThreadSleeps t => thread_is (fun x => at_place p_stopping x && stop x && negb (kill x)) s t
  | ThreadKilled t => thread_is sees_kill s t
  | ThreadDies t => thread_is (at_place p_exiting) s t
  | ThreadLeaves t => thread_is (at_place p_leaving) s t
  | _ => false
  end.

Lemma can_enabled x e : can x e = true -> enabled x e.
Proof.
  unfold can, enabled. intros [Hh He]%andb_true_iff. split; [by apply negb_true_iff in Hh|].
  destruct e; try done; try (apply andb_true_iff in He as [? ?%bool_decide_eq_true]; done); try (by apply bool_decide_eq_true in He).
  destruct (todo x !! i) as [[|w k]|]; try done. by exists w, k.
Qed.

Fixpoint runs (es : list event) (x : Sys) : option Sys :=
  match es with
  | [] => Some x
  | e :: es => if can x e then x ← run x e; runs es x else None
  end.

Lemma runs_reachable root es : forall x x', sys_reachable root x -> runs es x = Some x' -> sys_reachable root x'.
Proof.
  induction es as [|e es IH]; intros x x' Hx; simpl; [by intros [= <-]|]. destruct (can x e) eqn:Hc; [|done].
  intros (y & Hy & Hr)%bind_Some. apply (IH y); [|done]. apply (sr_step root x e); try done. by apply can_enabled.
Qed.

Definition born : list event :=
  [CreateJob 1 9; Work 0 true true; CreateJob 1 2; Work 0 true true; CreateJob 2 5; Work 0 true true; CreateProcess 5 3; Work 0 true true; CreateThread 3 4; StartThread 4 true; SuspendThread 4; ThreadSignalled 4; ThreadStops 4; ThreadSleeps 4].
Definition killed : list event := born ++ [TaskKillJob 2 7; Work 0 true true; Work 0 true true; Work 0 true true].

Definition running : Sys := default (sys_init 1) (runs born (sys_init 1)).
Definition dying : Sys := default (sys_init 1) (runs killed (sys_init 1)).
(** The job is to be killed. *)
Definition condemned : Sys := default (sys_init 1) (runs (born ++ [TaskKillJob 2 7]) (sys_init 1)).

Lemma runs_default es : is_Some (runs es (sys_init 1)) -> sys_reachable 1 (default (sys_init 1) (runs es (sys_init 1))).
Proof. intros [x E]. rewrite E. simpl. apply (runs_reachable 1 es (sys_init 1)); [constructor | done]. Qed.

Lemma running_reachable : sys_reachable 1 running.
Proof. apply runs_default. vm_compute. by eexists. Qed.
Lemma dying_reachable : sys_reachable 1 dying.
Proof. apply runs_default. vm_compute. by eexists. Qed.
Lemma condemned_reachable : sys_reachable 1 condemned.
Proof. apply runs_default. vm_compute. by eexists. Qed.

Definition job_of (x : Sys) (j : Z) : Job.Job := default Job.CreateRootJob (jobs (tasks x) !! j).
Definition thread_of (x : Sys) (t : Z) : Thread := default (Create 0) (threads (tasks x) !! t).

(** ** The theorems at this run *)


Lemma task_tree_witness : 1 <= Job.LockOrder (job_of running 2) <= 33 /\ counts_ok (job_of running 2) /\ Job.jobs_ (job_of running 2) = [5].
Proof.
  assert (jobs (tasks running) !! 2 = Some (job_of running 2)) as Hj by (vm_compute; reflexivity).
  destruct (task_tree 1 running 2 (job_of running 2) running_reachable Hj) as (_ & H1 & H2 & _). split; [exact H1|]. split; [exact H2 | vm_compute; reflexivity].
Defined.

Lemma suspended_by_tokens_witness : asleep (thread_of running 4) = true /\ (thread_token 4 ∈ tokens running \/ process_token 3 ∈ tokens running).
Proof.
  assert (threads (tasks running) !! 4 = Some (thread_of running 4)) as Ht by (vm_compute; reflexivity).
  assert (asleep (thread_of running 4) = true) as Hs by (vm_compute; reflexivity). split; [exact Hs|].
  apply (suspended_by_tokens 1 running 4 (thread_of running 4) running_reachable Ht); [vm_compute; reflexivity | vm_compute; reflexivity | rewrite Hs; apply orb_true_r].
Defined.

Lemma dying_child : below (tasks dying) 2 5.
Proof.
  apply rtc_once. exists (job_of dying 2). split; [vm_compute; reflexivity|]. assert (Job.jobs_ (job_of dying 2) = [5]) as -> by (vm_compute; reflexivity). apply list_elem_of_here.
Qed.

Lemma kill_reaches_all_witness : exists z, jobs (tasks dying) !! 5 = Some z /\ Job.state_ z <> Job.READY.
Proof.
  assert (jobs (tasks dying) !! 2 = Some (job_of dying 2)) as Hj by (vm_compute; reflexivity).
  destruct (kill_reaches_all 1 dying 2 5 (job_of dying 2) dying_reachable) as (z & Hz & Hst & _);
    [vm_compute; reflexivity | vm_compute; reflexivity | exact Hj | vm_compute; discriminate | exact dying_child | exists z; split; assumption].
Defined.

Lemma killed_job_waits_for_threads_witness : exists d z p, below (tasks dying) 2 d /\ jobs (tasks dying) !! d = Some z /\ p ∈ Job.procs_ z.
Proof.
  assert (jobs (tasks dying) !! 2 = Some (job_of dying 2)) as Hj by (vm_compute; reflexivity).
  destruct (killed_job_waits_for_threads 1 dying 2 (job_of dying 2) dying_reachable) as (d & z & p & u & t & v & H1 & H2 & H3 & _);
    [vm_compute; reflexivity | vm_compute; reflexivity | exact Hj | vm_compute; reflexivity | exists d, z, p; split; [exact H1 | split; [exact H2 | exact H3]]].
Defined.

Lemma task_work_ends_witness : pending condemned = [KillJob 2 7] /\ Acc works condemned.
Proof. split; [vm_compute; reflexivity | exact (task_work_ends 1 condemned condemned_reachable)]. Defined.

(** The rest of the run: the thread leaves, the jobs die. *)
Example killed_job_dies :
  option_map (fun x => (pending x, Job.state_ (job_of x 2), Job.state_ (job_of x 5), has (Job.signals_ (job_of x 2)) ZX_TASK_TERMINATED))
    (runs (killed ++ [ThreadKilled 4; ThreadDies 4; ThreadLeaves 4] ++ repeat (Work 0 true true) 7) (sys_init 1)) = Some ([], Job.DEAD, Job.DEAD, true).
Proof. vm_compute. reflexivity. Qed.

(** When [Kill] gets no memory for the list of jobs it kills none of them: the job is
    being killed and has nothing left to do, the job in it still accepts children. *)
Example kill_without_memory :
  option_map (fun x => (pending x, Job.state_ (job_of x 2), Job.state_ (job_of x 5)))
    (runs (born ++ [TaskKillJob 2 7; Work 0 false true]) (sys_init 1)) = Some ([], Job.KILLING, Job.READY).
Proof. vm_compute. reflexivity. Qed.

(** A process that is created while the policy of its job is set may have the policy of
    before: here the job denies new channels and the process in it may create them. *)
Example process_with_old_policy :
  option_map (fun x => (JobPolicy.QueryBasicPolicy ZX_POL_NEW_CHANNEL (Job.policy_ (job_of x 2)),
                        option_map (fun p => JobPolicy.QueryBasicPolicy ZX_POL_NEW_CHANNEL (Process.policy_ p)) (processes (tasks x) !! 3), Job.procs_ (job_of x 2)))
    (runs [CreateJob 1 2; Work 0 true true; CreateProcess 2 3; SetPolicy 2 ZX_JOB_POL_ABSOLUTE [mkPolicy ZX_POL_NEW_CHANNEL ZX_POL_ACTION_DENY ZX_POL_OVERRIDE_DENY];
           Work 0 true true] (sys_init 1)) = Some (ZX_POL_ACTION_DENY, Some ZX_POL_ACTION_ALLOW, [3]).
Proof. vm_compute. reflexivity. Qed.
