(* ===== verification/Timer.v ===== *)
(** * Kernel timers

    [kernel/timer.cc]: one queue of timers per processor, ordered by time, with timers
    whose slack allows it put at the time of a timer that is already there; and the
    platform's one-shot timer of each processor, programmed for the head of its queue
    or for the preemption timer.  Timers are named by their addresses.  [platform] is
    what the one-shot timer of the processor is set to.  [callback] stands for the
    function and its argument together.  [None] is a panic or a pointer to nothing.

    [timer_cancel] and [timer_tick] let the lock go in the middle; each of their
    critical sections is a definition. *)

From S2P Require Import Prelude Zx Deadline.

Definition zx_time_sub_time (time1 time2 : Z) : Z :=
  let '(overflow, x) := sub_overflow time1 time2 in
  if overflow then (if x >=? 0 then ZX_TIME_INFINITE_PAST else ZX_TIME_INFINITE) else x.

Module Timer.

Record timer := mkTimer {
  scheduled_time : Z;
  slack : Z;
  callback : option Z;
  active_cpu : Z;
  cancel : bool;
}.

Record percpu := mkPercpu {
  timer_queue : list Z;
  preempt_timer_deadline : Z;
  next_timer_deadline : Z;
  platform : option Z;
}.

Record State := mkState {
  timers : gmap Z timer;
  percpus : gmap Z percpu;
}.

(** [TIMER_INITIAL_VALUE] *)
Definition timer_init : timer := mkTimer 0 0 None (-1) false.
Definition percpu_init : percpu := mkPercpu [] ZX_TIME_INFINITE ZX_TIME_INFINITE None.

Definition put_timer (t : Z) (x : timer) (s : State) : State := mkState (<[t := x]> (timers s)) (percpus s).
Definition put_percpu (cpu : Z) (p : percpu) (s : State) : State := mkState (timers s) (<[cpu := p]> (percpus s)).
Definition set_queue (q : list Z) (p : percpu) : percpu := mkPercpu q (preempt_timer_deadline p) (next_timer_deadline p) (platform p).
Definition set_preempt (d : Z) (p : percpu) : percpu := mkPercpu (timer_queue p) d (next_timer_deadline p) (platform p).
Definition set_next (d : Z) (h : option Z) (p : percpu) : percpu := mkPercpu (timer_queue p) (preempt_timer_deadline p) d h.
Definition set_active (cpu : Z) (x : timer) : timer := mkTimer (scheduled_time x) (slack x) (callback x) cpu (cancel x).
Definition set_callback (c : option Z) (x : timer) : timer := mkTimer (scheduled_time x) (slack x) c (active_cpu x) (cancel x).
Definition set_cancel (b : bool) (x : timer) : timer := mkTimer (scheduled_time x) (slack x) (callback x) (active_cpu x) b.
Definition set_time (w sl : Z) (x : timer) : timer := mkTimer w sl (callback x) (active_cpu x) (cancel x).

Definition list_in_list (t : Z) (s : State) : bool := existsb (fun '(_, p) => bool_decide (t ∈ timer_queue p)) (map_to_list (percpus s)).
Definition list_delete (t : Z) (s : State) : State :=
  mkState (timers s) ((fun p => set_queue (filter (fun u => u <> t) (timer_queue p)) p) <$> percpus s).

Definition update_platform_timer (new_deadline : Z) (p : percpu) : percpu :=
  if new_deadline <? next_timer_deadline p then set_next new_deadline (Some new_deadline) p else p.

(** The walk of [insert_timer_in_queue]; [at_] gives the times of the timers in the
    queue.  The new queue, the time of the timer and its adjustment. *)
Fixpoint insert_walk (at_ : Z -> Z) (t when earliest latest : Z) (q : list Z) : list Z * Z * Z :=
  match q with
  | [] => ([t], when, 0)
  | e :: q' =>
      let coalesce := (e :: t :: q', at_ e, zx_time_sub_time (at_ e) when) in
      let continue := let '(q'', w, sl) := insert_walk at_ t when earliest latest q' in (e :: q'', w, sl) in
      if at_ e >? latest then (t :: e :: q', when, 0)
      else if at_ e >=? when then coalesce
      else if at_ e <? earliest then continue
      else
        match q' with
        | [] => coalesce
        | n :: _ =>
            if at_ n <=? when then continue
            else if (at_ n <? latest) && (zx_time_sub_time (at_ n) when <? zx_time_sub_time when (at_ e)) then continue
            else coalesce
        end
  end.

Definition time_of (s : State) (t : Z) : Z := match timers s !! t with Some x => scheduled_time x | None => 0 end.

Definition insert_timer_in_queue (cpu t earliest latest : Z) (s : State) : option State :=
  x ← timers s !! t;
  p ← percpus s !! cpu;
  let '(q, w, sl) := insert_walk (time_of s) t (scheduled_time x) earliest latest (timer_queue p) in
  Some (put_timer t (set_time w sl x) (put_percpu cpu (set_queue q p) s)).

Definition timer_set (cpu t : Z) (d : Deadline) (cb : Z) (s : State) : option State :=
  x ← timers s !! t;
  if list_in_list t s then None
  else if (active_cpu x =? cpu) && cancel x then Some s
  else if negb (active_cpu x =? cpu) && (active_cpu x >=? 0) then None
  else
    s ← insert_timer_in_queue cpu t (earliest d) (latest d) (put_timer t (mkTimer (when_ d) (slack x) (Some cb) (active_cpu x) false) s);
    p ← percpus s !! cpu;
    Some (if bool_decide (head (timer_queue p) = Some t) then put_percpu cpu (update_platform_timer (when_ d) p) s else s).

Definition timer_preempt_reset (cpu deadline : Z) (s : State) : option State :=
  p ← percpus s !! cpu;
  Some (put_percpu cpu (update_platform_timer deadline (set_preempt deadline p)) s).

Definition timer_preempt_cancel (cpu : Z) (s : State) : option State :=
  p ← percpus s !! cpu;
  Some (put_percpu cpu (set_preempt ZX_TIME_INFINITE p) s).

(** [timer_cancel] up to where it lets the lock go: [inl] when it returns at once,
    because it has been called from the callback of the timer, [inr] when it goes on to
    wait; with the result in both. *)
Definition timer_cancel (cpu t : Z) (s : State) : option ((bool + bool) * State) :=
  x ← timers s !! t;
  let x := set_cancel true x in
  if active_cpu x =? cpu then Some (inl false, put_timer t (set_callback None x) s)
  else
    let s := put_timer t x s in
    if negb (list_in_list t s) then Some (inr false, s)
    else
      p ← percpus s !! cpu;
      let oldhead := head (timer_queue p) in
      let s := list_delete t s in
      if negb (bool_decide (oldhead = Some t)) then Some (inr true, s)
      else
        p ← percpus s !! cpu;
        Some (inr true,
          match head (timer_queue p) with
          | Some newhead => put_percpu cpu (update_platform_timer (time_of s newhead) p) s
          | None => if next_timer_deadline p =? ZX_TIME_INFINITE then put_percpu cpu (set_next (next_timer_deadline p) None p) s else s
          end).

(** The rest, when the timer is not active any more. *)
Definition timer_cancel_done (t : Z) (s : State) : option State :=
  x ← timers s !! t;
  if active_cpu x >=? 0 then None else Some (put_timer t (set_callback None x) s).

(** [timer_tick] up to where it takes the lock; whether the preemption timer fires. *)
Definition timer_tick (cpu now : Z) (s : State) : option (bool * State) :=
  p ← percpus s !! cpu;
  let p := set_next ZX_TIME_INFINITE None p in
  if now >=? preempt_timer_deadline p then Some (true, put_percpu cpu (set_preempt ZX_TIME_INFINITE p) s)
  else Some (false, put_percpu cpu p s).

(** The next round of its loop: the timer whose callback is to be called, or else the
    time of the head of the queue. *)
Definition timer_tick_next (cpu now : Z) (s : State) : option ((Z + Z) * State) :=
  p ← percpus s !! cpu;
  match head (timer_queue p) with
  | None => Some (inr ZX_TIME_INFINITE, s)
  | Some t =>
      x ← timers s !! t;
      if now <? scheduled_time x then Some (inr (scheduled_time x), s)
      else let s := list_delete t s in Some (inl t, put_timer t (set_active cpu x) s)
  end.

(** The callback has returned. *)
Definition timer_tick_fired (t : Z) (s : State) : option State :=
  x ← timers s !! t;
  Some (put_timer t (set_active (-1) x) s).

(** The end, without the lock. *)
Definition timer_tick_end (cpu deadline : Z) (s : State) : option State :=
  p ← percpus s !! cpu;
  Some (put_percpu cpu (update_platform_timer (if preempt_timer_deadline p <? deadline then preempt_timer_deadline p else deadline) p) s).

Fixpoint move_timers (cpu : Z) (l : list Z) (s : State) : option State :=
  match l with
  | [] => Some s
  | t :: l =>
      s ← insert_timer_in_queue cpu t (time_of s t) (time_of s t) (list_delete t s);
      move_timers cpu l s
  end.

Definition timer_transition_off_cpu (cpu old_cpu : Z) (s : State) : option State :=
  p ← percpus s !! cpu;
  o ← percpus s !! old_cpu;
  s ← move_timers cpu (timer_queue o) s;
  p' ← percpus s !! cpu;
  let s := match head (timer_queue p') with
           | Some h => if bool_decide (head (timer_queue p) = Some h) then s else put_percpu cpu (update_platform_timer (time_of s h) p') s
           | None => s
           end in
  o ← percpus s !! old_cpu;
  Some (put_percpu old_cpu (set_next ZX_TIME_INFINITE (platform o) (set_preempt ZX_TIME_INFINITE o)) s).

Definition timer_thaw_percpu (cpu : Z) (s : State) : option State :=
  p ← percpus s !! cpu;
  let p := set_next ZX_TIME_INFINITE (platform p) p in
  let deadline := preempt_timer_deadline p in
  let deadline := match head (timer_queue p) with
                  | Some t => if time_of s t <? deadline then time_of s t else deadline
                  | None => deadline
                  end in
  Some (put_percpu cpu (update_platform_timer deadline p) s).

End Timer.
