(* ===== verification/TimerFacts.v ===== *)
(** * Correctness of kernel timers: the queue

    Where a timer is put in the queue of a processor, and at what time. *)

From Stdlib Require Import Sorted.
From S2P Require Import Prelude Zx Deadline Timer.
Import Timer.

Lemma time_diff a b : is_i64 (a - b) -> zx_time_sub_time a b = a - b.
Proof.
  intros H. unfold zx_time_sub_time, sub_overflow. assert (i64 (a - b) = a - b) as -> by (unfold i64, is_i64 in *; rewrite Z.mod_small; lia).
  by rewrite Z.eqb_refl.
Qed.

(** In the order of their times. *)
Definition ordered (at_ : Z -> Z) (q : list Z) : Prop := StronglySorted (fun a b => at_ a <= at_ b) q.

Lemma ordered_ext f g q : (forall u, u ∈ q -> f u = g u) -> ordered f q -> ordered g q.
Proof.
  unfold ordered. induction q as [|a q IH]; intros He Ho; [constructor|]. apply StronglySorted_inv in Ho as [Hs Hf]. constructor.
  - apply IH; [|done]. intros u Hu. apply He. by right.
  - apply Forall_forall. intros u Hu. rewrite <- (He a), <- (He u) by (by constructor || by right). rewrite Forall_forall in Hf. by apply Hf.
Qed.

Lemma ordered_cons f a q : ordered f (a :: q) <-> ordered f q /\ forall u, u ∈ q -> f a <= f u.
Proof.
  unfold ordered. split.
  - intros [Hs Hf]%StronglySorted_inv. rewrite Forall_forall in Hf. done.
  - intros [Hs Hf]. constructor; [done|]. by apply Forall_forall.
Qed.

Lemma ordered_insert f t q1 q2 :
  ordered f (q1 ++ q2) -> (forall u, u ∈ q1 -> f u <= f t) -> (forall u, u ∈ q2 -> f t <= f u) -> ordered f (q1 ++ t :: q2).
Proof.
  induction q1 as [|a q1 IH]; simpl; intros Ho H1 H2; [by apply ordered_cons|].
  apply ordered_cons in Ho as [Ho Ha]. apply ordered_cons. split.
  - apply IH; [done | | done]. intros u Hu. apply H1. by right.
  - intros u [Hu|[->|Hu]%elem_of_cons]%elem_of_app; [apply Ha, elem_of_app; by left | apply H1, list_elem_of_here | apply Ha, elem_of_app; by right].
Qed.

Lemma ordered_filter f t q : ordered f q -> ordered f (filter (fun u => u <> t) q).
Proof.
  induction q as [|a q IH]; [done|]. intros [Ho Ha]%ordered_cons. destruct (decide (a = t)) as [->|Hne].
  - rewrite filter_cons_False by (intros H; by apply H). by apply IH.
  - rewrite filter_cons_True by done. apply ordered_cons. split; [by apply IH|]. intros u [_ Hu]%list_elem_of_filter. by apply Ha.
Qed.

(** ** The walk *)

Section Walk.
Context (at_ : Z -> Z) (t when earliest latest : Z).
Hypothesis Hwin : earliest <= when <= latest.
Hypothesis Hlo : is_i64 (earliest - when).
Hypothesis Hlo' : is_i64 (when - earliest).
Hypothesis Hhi : is_i64 (latest - when).

(** The timers the new one may be put together with, and those that count when the
    best is chosen. *)
Definition fits (u : Z) : Prop := earliest <= at_ u <= latest.
Definition compared (u : Z) : Prop := earliest <= at_ u /\ (at_ u <= when \/ at_ u < latest).

Record walked (q q' : list Z) (w sl : Z) : Prop := {
  w_place : exists q1 q2, q = q1 ++ q2 /\ q' = q1 ++ t :: q2 /\ (forall u, u ∈ q1 -> at_ u <= w) /\ (forall u, u ∈ q2 -> w <= at_ u) /\ (q1 = [] -> w = when);
  w_window : earliest <= w <= latest;
  w_slack : sl = w - when;
  w_alone : (forall u, u ∈ q -> ~ fits u) -> w = when;
  w_shared : (exists u, u ∈ q /\ fits u) -> exists u, u ∈ q /\ at_ u = w;
  w_nearest : forall u, u ∈ q -> compared u -> Z.abs (w - when) <= Z.abs (at_ u - when);
}.

Lemma coalesced_walked e q' : (forall u, u ∈ q' -> at_ e <= at_ u) -> fits e ->
  (forall u, u ∈ q' -> compared u -> Z.abs (at_ e - when) <= Z.abs (at_ u - when)) -> walked (e :: q') (e :: t :: q') (at_ e) (zx_time_sub_time (at_ e) when).
Proof using Hwin Hlo Hlo' Hhi.
  intros Ho Hf Hn. unfold fits, is_i64 in *. split.
  - exists [e], q'. split_and!; try done. intros u ->%list_elem_of_singleton. done.
  - done.
  - apply time_diff. unfold is_i64. lia.
  - intros H. by destruct (H e (list_elem_of_here _ _)).
  - intros _. exists e. split; [apply list_elem_of_here | done].
  - intros u [->|Hu]%elem_of_cons Hc; [done | by apply Hn].
Qed.

(** Going on to the rest of the queue. *)
Lemma continue_walked e q' q'' w sl :
  walked q' q'' w sl -> at_ e <= w -> (fits e -> (exists u, u ∈ q' /\ fits u) /\ Z.abs (w - when) <= Z.abs (at_ e - when)) -> walked (e :: q') (e :: q'') w sl.
Proof using Hwin.
  intros [(q1 & q2 & -> & -> & H1 & H2 & _) Hw Hs Ha Hsh Hn] He Hf. split; try done.
  - exists (e :: q1), q2. split_and!; try done. intros u [->|Hu]%elem_of_cons; [done | by apply H1].
  - intros H. apply Ha. intros u Hu. apply H. by right.
  - intros (u & Hu & Hfu). assert (exists v, v ∈ q1 ++ q2 /\ fits v) as Hex.
    { apply elem_of_cons in Hu as [->|Hu]; [by destruct (Hf Hfu) | by exists u]. }
    destruct (Hsh Hex) as (v & Hv & Ev). exists v. split; [by right | done].
  - intros u [->|Hu]%elem_of_cons Hc; [|by apply Hn]. apply Hf. unfold compared, fits in *. lia.
Qed.

Lemma insert_walk_spec q : ordered at_ q ->
  let '(q', w, sl) := insert_walk at_ t when earliest latest q in walked q q' w sl.
Proof using Hwin Hlo Hlo' Hhi.
  induction q as [|e q IH]; intros Ho; simpl.
  { split; [exists [], [] | lia | lia | done | by intros (u & ?%not_elem_of_nil & _) | by intros u ?%not_elem_of_nil]. split_and!; try done; by intros u ?%not_elem_of_nil. }
  apply ordered_cons in Ho as [Ho He]. specialize (IH Ho). destruct (insert_walk _ _ _ _ _ q) as [[q'' w] sl].
  destruct (at_ e >? latest) eqn:E1; b2p.
  { split; [exists [], (e :: q) | lia | lia | done | |].
    - split_and!; try done; [by intros u ?%not_elem_of_nil|]. intros u [->|Hu]%elem_of_cons; [lia|]. specialize (He u Hu). lia.
    - intros (u & Hu & Hf). exfalso. unfold fits in Hf. apply elem_of_cons in Hu as [->|Hu]; [lia|]. specialize (He u Hu). lia.
    - intros u Hu [H1 H2]. exfalso. apply elem_of_cons in Hu as [->|Hu]; [lia|]. specialize (He u Hu). lia. }
  destruct (at_ e >=? when) eqn:E2; b2p.
  { apply coalesced_walked; [done | unfold fits; lia|]. intros u Hu _. specialize (He u Hu). lia. }
  destruct (at_ e <? earliest) eqn:E3; b2p.
  { apply continue_walked; [done | | unfold fits; lia]. destruct IH as [_ Hw _ _ _ _]. lia. }
  destruct q as [|n q]; [apply coalesced_walked; [done | unfold fits; lia | by intros u ?%not_elem_of_nil]|].
  pose proof (He n (list_elem_of_here _ _)) as Hen.
  (* what is known of the rest when it goes on because of [n] *)
  assert (fits n -> at_ e <= w) as Hle.
  { intros Hf. destruct IH as [_ _ _ _ Hsh _]. destruct Hsh as (u & Hu & <-); [exists n; split; [apply list_elem_of_here | done]|]. by apply He. }
  destruct (at_ n <=? when) eqn:E4; b2p.
  { assert (fits n) as Hf by (unfold fits; lia). apply continue_walked; [done | by apply Hle|]. intros _. split; [exists n; split; [apply list_elem_of_here | done]|].
    destruct IH as [_ _ _ _ _ Hn]. specialize (Hn n (list_elem_of_here _ _) ltac:(unfold compared; lia)). lia. }
  destruct ((at_ n <? latest) && _) eqn:E5; b2p.
  { assert (fits n) as Hf by (unfold fits; lia). rewrite !time_diff in * by (unfold is_i64 in *; lia). apply continue_walked; [done | by apply Hle|]. intros _.
    split; [exists n; split; [apply list_elem_of_here | done]|]. destruct IH as [_ _ _ _ _ Hn]. specialize (Hn n (list_elem_of_here _ _) ltac:(unfold compared; lia)). lia. }
  apply coalesced_walked; [done | unfold fits; lia|]. intros u Hu [H1 H2]. assert (at_ n <= at_ u) as Hnu.
  { apply ordered_cons in Ho as [_ Ho]. apply elem_of_cons in Hu as [->|Hu]; [done | by apply Ho]. }
  assert (at_ n < latest) as Hl by lia. apply andb_false_iff in E5 as [E5|E5]; b2p; [lia|]. rewrite !time_diff in E5 by (unfold is_i64 in *; lia). lia.
Qed.
End Walk.

(** ** The queues of all processors *)

Definition queued (s : State) (t : Z) : Prop := exists c p, percpus s !! c = Some p /\ t ∈ timer_queue p.

Lemma list_in_list_true s t : list_in_list t s = true <-> queued s t.
Proof.
  unfold list_in_list, queued. rewrite existsb_exists. split.
  - intros ([c p] & Hin & H%bool_decide_eq_true). apply list_elem_of_In, elem_of_map_to_list in Hin. by exists c, p.
  - intros (c & p & Hp & Ht). exists (c, p). split; [by apply list_elem_of_In, elem_of_map_to_list | by apply bool_decide_eq_true].
Qed.

Lemma list_in_list_false s t : list_in_list t s = false <-> ~ queued s t.
Proof. rewrite <- list_in_list_true. by destruct (list_in_list t s). Qed.

Record queues_ok (s : State) (due : gmap Z Deadline) : Prop := {
  k_ordered : forall c p, percpus s !! c = Some p -> ordered (time_of s) (timer_queue p) /\ NoDup (timer_queue p);
  k_one : forall c c' p p' t, percpus s !! c = Some p -> percpus s !! c' = Some p' -> t ∈ timer_queue p -> t ∈ timer_queue p' -> c = c';
  k_due : forall t, queued s t -> is_Some (timers s !! t) /\ exists d, due !! t = Some d /\ earliest d <= time_of s t <= latest d;
}.

Lemma time_of_put t x s u : time_of (put_timer t x s) u = if decide (u = t) then scheduled_time x else time_of s u.
Proof. unfold time_of, put_timer. simpl. destruct (decide (u = t)) as [->|]; [by rewrite lookup_insert_eq | by rewrite lookup_insert_ne]. Qed.

Lemma queued_put_timer t x s u : queued (put_timer t x s) u <-> queued s u.
Proof. done. Qed.

(** A timer that is in no queue changes, or one that keeps its time. *)
Lemma queues_ok_timer t x s due :
  queues_ok s due -> ~ queued s t \/ is_Some (timers s !! t) /\ scheduled_time x = time_of s t -> queues_ok (put_timer t x s) due.
Proof.
  intros [K1 K2 K3] Hx. assert (forall u, queued s u -> time_of (put_timer t x s) u = time_of s u) as Ht.
  { intros u Hu. rewrite time_of_put. destruct (decide (u = t)) as [->|]; [|done]. by destruct Hx as [?|[_ ->]]. }
  split.
  - intros c p Hp. destruct (K1 c p Hp). split; [|done]. apply (ordered_ext (time_of s)); [|done]. intros u Hu. symmetry. apply Ht. by exists c, p.
  - done.
  - intros u Hu. destruct (K3 u Hu) as (Hs & d & Hd & Hw). split; [|exists d; by rewrite Ht]. simpl. destruct (decide (u = t)) as [->|]; [by rewrite lookup_insert_eq | by rewrite lookup_insert_ne].
Qed.

Lemma queued_put_percpu c p p' s u : percpus s !! c = Some p -> timer_queue p' = timer_queue p -> queued (put_percpu c p' s) u <-> queued s u.
Proof.
  intros Hp Hq. unfold queued, put_percpu. simpl. split; intros (c' & p1 & Hp1 & Hu).
  - apply lookup_insert_Some in Hp1 as [[<- <-]|[Hne Hp1]]; [exists c, p; by rewrite <- Hq | by exists c', p1].
  - destruct (decide (c' = c)) as [->|Hne]; [exists c, p'; rewrite lookup_insert_eq, Hq; split; [done | congruence] | exists c', p1; by rewrite lookup_insert_ne].
Qed.

Lemma queues_ok_percpu c p p' s due : queues_ok s due -> percpus s !! c = Some p -> timer_queue p' = timer_queue p -> queues_ok (put_percpu c p' s) due.
Proof.
  intros [K1 K2 K3] Hp Hq. split; simpl.
  - intros c' p1 [[<- <-]|[_ H1]]%lookup_insert_Some; [rewrite Hq; by apply (K1 c) | by apply (K1 c')].
  - intros c1 c2 p1 p2 t [[<- <-]|[H1 H1']]%lookup_insert_Some [[<- <-]|[H2 H2']]%lookup_insert_Some; rewrite ?Hq; intros Ht1 Ht2;
      [done | by apply (K2 c c2 p p2 t) | by apply (K2 c1 c p1 p t) | by apply (K2 c1 c2 p1 p2 t)].
  - intros t Ht. apply K3. by apply (queued_put_percpu c p p').
Qed.

Lemma percpus_delete t s c p : percpus (list_delete t s) !! c = Some p <-> exists p0, percpus s !! c = Some p0 /\ p = set_queue (filter (fun u => u <> t) (timer_queue p0)) p0.
Proof. unfold list_delete. simpl. rewrite lookup_fmap_Some. split; intros (p0 & ? & ?); exists p0; split; done. Qed.

Lemma queued_delete t s u : queued (list_delete t s) u <-> queued s u /\ u <> t.
Proof.
  unfold queued. split.
  - intros (c & p & (p0 & Hp & ->)%percpus_delete & Hu). apply list_elem_of_filter in Hu as [Hne Hu]. split; [by exists c, p0 | done].
  - intros [(c & p & Hp & Hu) Hne]. eexists c, _. split; [apply percpus_delete; by exists p|]. simpl. by apply list_elem_of_filter.
Qed.

Lemma queues_ok_delete t s due : queues_ok s due -> queues_ok (list_delete t s) due.
Proof.
  intros [K1 K2 K3]. split.
  - intros c p (p0 & Hp & ->)%percpus_delete. destruct (K1 c p0 Hp). split; [by apply ordered_filter | by apply NoDup_filter].
  - intros c c' p p' u (p0 & Hp & ->)%percpus_delete (p0' & Hp' & ->)%percpus_delete [_ Hu]%list_elem_of_filter [_ Hu']%list_elem_of_filter. by apply (K2 c c' p0 p0' u).
  - intros u [Hu _]%queued_delete. by apply K3.
Qed.

(** A timer goes into the queue of a processor. *)
Lemma queues_ok_insert c p t x s q w sl e l d due due' :
  queues_ok s due -> ~ queued s t -> percpus s !! c = Some p -> timers s !! t = Some x ->
  walked (time_of s) t (scheduled_time x) e l (timer_queue p) q w sl ->
  due' !! t = Some d -> earliest d <= w <= latest d -> (forall u, u <> t -> due' !! u = due !! u) ->
  queues_ok (put_timer t (set_time w sl x) (put_percpu c (set_queue q p) s)) due'.
Proof.
  intros [K1 K2 K3] Hn Hp Hx [(q1 & q2 & Eq & -> & H1 & H2 & _) _ _ _ _ _] Hd Hw Hdo. set (s' := put_timer _ _ _).
  assert (percpus s' = <[c := set_queue (q1 ++ t :: q2) p]> (percpus s)) as Hps by done.
  assert (forall u, u <> t -> time_of s' u = time_of s u) as Ht by (intros u Hu; unfold s'; rewrite time_of_put; by rewrite decide_False).
  assert (time_of s' t = w) as Htt by (unfold s'; rewrite time_of_put; by rewrite decide_True).
  assert (forall u, u ∈ timer_queue p -> u <> t) as Hne by (intros u Hu ->; apply Hn; by exists c, p).
  destruct (K1 c p Hp) as [Ho Hnd]. rewrite Eq in Ho, Hnd, Hne.
  assert (forall c1 p1 u, percpus s' !! c1 = Some p1 -> u ∈ timer_queue p1 -> u <> t -> exists p0, percpus s !! c1 = Some p0 /\ u ∈ timer_queue p0) as Hold.
  { intros c1 p1 u Hp1 Hu Hut. rewrite Hps in Hp1; apply lookup_insert_Some in Hp1 as [[<- <-]|[Hcc Hp1]]; [|by exists p1]. exists p. split; [done|]. simpl in Hu. rewrite Eq. rewrite elem_of_app, elem_of_cons in *. tauto. }
  assert (forall c1 p1, percpus s' !! c1 = Some p1 -> t ∈ timer_queue p1 -> c1 = c) as Hmine.
  { intros c1 p1 Hp1 Hu. rewrite Hps in Hp1; apply lookup_insert_Some in Hp1 as [[<- <-]|[Hcc Hp1]]; [done|]. destruct Hn. by exists c1, p1. }
  split.
  - intros c1 p1 Hp1. rewrite Hps in Hp1; apply lookup_insert_Some in Hp1 as [[<- <-]|[Hcc Hp1]]; simpl.
    + split.
      * apply ordered_insert; rewrite ?Htt; [apply (ordered_ext (time_of s)); [|done]; intros u Hu; symmetry; by apply Ht, Hne | |];
          (intros u Hu; rewrite Ht; [by (apply H1 || apply H2) | apply Hne; rewrite elem_of_app; tauto]).
      * apply NoDup_app in Hnd as (N1 & N2 & N3). apply NoDup_app. split_and!; [done | |].
        -- intros u Hu [->|Hu2]%elem_of_cons; [by apply (Hne t); [apply elem_of_app; left|] | by apply (N2 u)].
        -- apply NoDup_cons. split; [|done]. intros Hu. by apply (Hne t); [apply elem_of_app; right|].
    + destruct (K1 c1 p1 Hp1). split; [|done]. apply (ordered_ext (time_of s)); [|done]. intros u Hu. symmetry. apply Ht. intros ->. apply Hn. by exists c1, p1.
  - intros c1 c2 p1 p2 u Hp1 Hp2 Hu1 Hu2. destruct (decide (u = t)) as [->|Hut]; [by rewrite (Hmine c1 p1), (Hmine c2 p2)|].
    destruct (Hold c1 p1 u) as (? & ? & ?); [done..|]. destruct (Hold c2 p2 u) as (? & ? & ?); [done..|]. by eapply (K2 c1 c2).
  - intros u (c1 & p1 & Hp1 & Hu). destruct (decide (u = t)) as [->|Hut].
    + split; [simpl; by rewrite lookup_insert_eq|]. exists d. by rewrite Htt.
    + destruct (Hold c1 p1 u) as (p0 & ? & ?); [done..|]. destruct (K3 u) as (? & d' & ? & ?); [by exists c1, p0|].
      split; [simpl; by rewrite lookup_insert_ne|]. exists d'. by rewrite Hdo, Ht.
Qed.
