(* ===== verification/TimerSystem.v ===== *)
(** * Timers on all processors

    Processors that set and cancel timers, take timer interrupts and run callbacks,
    interleaved wherever [kernel/timer.cc] lets its lock go.  A callback may do to timers
    whatever other code may do.  The system follows the rules of [kernel/timer.h]: the
    user of a timer does not set and cancel it at the same time, except that its
    callback may; and it does not set a timer that is set.  [due] keeps what each timer
    was last set to. *)

From S2P Require Import Prelude Zx Deadline Timer.
Import Timer.

(** What a processor does: code of its threads; [timer_tick], between two rounds of its
    loop; a callback; the end of [timer_tick]. *)
Inductive mode := Running | Ticking (now : Z) | Calling (now t : Z) | Ending (deadline : Z).

Record TSys := mkTSys {
  state : State;
  modes : gmap Z mode;
  waiting : list Z;
  clock : Z;
  due : gmap Z Deadline;
}.

Definition with_state (s : State) (x : TSys) : TSys := mkTSys s (modes x) (waiting x) (clock x) (due x).
Definition with_mode (c : Z) (m : mode) (s : State) (x : TSys) : TSys := mkTSys s (<[c := m]> (modes x)) (waiting x) (clock x) (due x).

Definition valid_deadline (d : Deadline) : Prop := is_i64 (when_ d) /\ 0 <= slack_amount (dslack_ d) < 2 ^ 63.

Inductive tevent :=
| Clock (n : Z)
| NewTimer (t : Z)
| FreeTimer (t : Z)
| SetTimer (cpu t : Z) (d : Deadline) (cb : Z)
| CancelTimer (cpu t : Z)
| CancelDone (t : Z)
| PreemptReset (cpu deadline : Z)
| PreemptCancel (cpu : Z)
| Interrupt (cpu : Z)
| Round (cpu : Z)
| Fired (cpu : Z)
| EndTick (cpu : Z)
| Offline (cpu old_cpu : Z)
| Thaw (cpu : Z).

Definition active (t : Z) (s : State) : bool := match timers s !! t with Some x => active_cpu x >=? 0 | None => false end.
(** In its own callback, or in other code. *)
Definition in_callback (c t : Z) (x : TSys) : bool := match modes x !! c with Some (Calling _ u) => u =? t | _ => false end.
Definition in_code (c : Z) (x : TSys) : bool := match modes x !! c with Some Running | Some (Calling _ _) => true | _ => false end.
Definition in_threads (c : Z) (x : TSys) : bool := match modes x !! c with Some Running => true | _ => false end.

Definition tenabled (x : TSys) (e : tevent) : Prop :=
  match e with
  | Clock n => clock x <= n
  | NewTimer t => timers (state x) !! t = None
  | FreeTimer t => is_Some (timers (state x) !! t) /\ list_in_list t (state x) = false /\ active t (state x) = false /\ t ∉ waiting x
  | SetTimer c t d _ =>
      is_Some (timers (state x) !! t) /\ valid_deadline d /\ list_in_list t (state x) = false /\
      (in_callback c t x = true \/ in_code c x = true /\ active t (state x) = false /\ t ∉ waiting x)
  | CancelTimer c t => is_Some (timers (state x) !! t) /\ in_code c x = true /\ (in_callback c t x = true \/ t ∉ waiting x)
  | CancelDone t => t ∈ waiting x /\ active t (state x) = false
  | PreemptReset c _ | PreemptCancel c | Interrupt c | Thaw c => in_threads c x = true
  | Round c => exists now, modes x !! c = Some (Ticking now)
  | Fired c => exists now t, modes x !! c = Some (Calling now t)
  | EndTick c => exists d, modes x !! c = Some (Ending d)
  | Offline c o => in_threads c x = true /\ in_threads o x = true /\ c <> o
  end.

Definition trun (x : TSys) (e : tevent) : option TSys :=
  let s := state x in
  match e with
  | Clock n => Some (mkTSys s (modes x) (waiting x) n (due x))
  | NewTimer t => Some (with_state (put_timer t timer_init s) x)
  | FreeTimer t => Some (with_state (mkState (delete t (timers s)) (percpus s)) x)
  | SetTimer c t d cb =>
      s' ← timer_set c t d cb s;
      Some (mkTSys s' (modes x) (waiting x) (clock x) (if list_in_list t s' then <[t := d]> (due x) else due x))
  | CancelTimer c t =>
      '(r, s) ← timer_cancel c t s;
      Some (mkTSys s (modes x) (match r with inl _ => waiting x | inr _ => t :: waiting x end) (clock x) (due x))
  | CancelDone t =>
      s ← timer_cancel_done t s;
      Some (mkTSys s (modes x) (filter (fun u => u <> t) (waiting x)) (clock x) (due x))
  | PreemptReset c d => s ← timer_preempt_reset c d s; Some (with_state s x)
  | PreemptCancel c => s ← timer_preempt_cancel c s; Some (with_state s x)
  | Interrupt c => '(_, s) ← timer_tick c (clock x) s; Some (with_mode c (Ticking (clock x)) s x)
  | Round c =>
      match modes x !! c with
      | Some (Ticking now) =>
          '(r, s) ← timer_tick_next c now s;
          Some (with_mode c (match r with inl t => Calling now t | inr d => Ending d end) s x)
      | _ => None
      end
  | Fired c =>
      match modes x !! c with
      | Some (Calling now t) => s ← timer_tick_fired t s; Some (with_mode c (Ticking now) s x)
      | _ => None
      end
  | EndTick c =>
      match modes x !! c with
      | Some (Ending d) => s ← timer_tick_end c d s; Some (with_mode c Running s x)
      | _ => None
      end
  | Offline c o => s ← timer_transition_off_cpu c o s; Some (with_state s x)
  | Thaw c => s ← timer_thaw_percpu c s; Some (with_state s x)
  end.

(** Processors [0] to [n - 1]. *)
Definition tsys_init (n : nat) : TSys :=
  mkTSys (mkState ∅ (list_to_map (map (fun c => (Z.of_nat c, percpu_init)) (seq 0 n)))) (list_to_map (map (fun c => (Z.of_nat c, Running)) (seq 0 n))) [] 0 ∅.

Inductive treachable (n : nat) : TSys -> Prop :=
| tr_init : treachable n (tsys_init n)
| tr_step x e x' : treachable n x -> tenabled x e -> trun x e = Some x' -> treachable n x'.
