(* ===== verification/TimerInv.v ===== *)
(** * Correctness of kernel timers: the invariant

    The queues are in order, each timer in one queue at most and at a time within its
    window; the one-shot timer of each processor is set for the head of its queue; a
    timer is active exactly while its callback runs. *)

From S2P Require Import Prelude Zx Deadline Timer TimerFacts TimerSystem.
Import Timer.

(** The one-shot timer is set to what is recorded of it. *)
Definition set_ok (p : percpu) : Prop :=
  next_timer_deadline p <= ZX_TIME_INFINITE /\ (next_timer_deadline p <> ZX_TIME_INFINITE -> platform p = Some (next_timer_deadline p)).

(** It is set early enough. *)
Definition armed (s : State) (m : gmap Z mode) : Prop := forall c p, percpus s !! c = Some p ->
  set_ok p /\
  match m !! c with
  | Some Running => next_timer_deadline p <= preempt_timer_deadline p /\ forall t, t ∈ timer_queue p -> next_timer_deadline p <= time_of s t
  | Some (Ending d) => forall t, t ∈ timer_queue p -> d <= time_of s t
  | _ => True
  end.

Record callbacks_ok (T : gmap Z timer) (m : gmap Z mode) : Prop := {
  a_active : forall t x, T !! t = Some x -> active_cpu x = -1 \/ exists now, m !! active_cpu x = Some (Calling now t);
  a_calling : forall c now t, m !! c = Some (Calling now t) -> exists x, T !! t = Some x /\ active_cpu x = c;
}.

Definition waiting_ok (s : State) (w : list Z) : Prop := forall t, t ∈ w -> ~ queued s t /\ exists x, timers s !! t = Some x /\ cancel x = true.

(** A timer that is set from its callback is in the queue of the same processor. *)
Definition local_ok (s : State) : Prop := forall c p t x, percpus s !! c = Some p -> t ∈ timer_queue p -> timers s !! t = Some x -> active_cpu x = -1 \/ active_cpu x = c.

Record sinv (s : State) (m : gmap Z mode) (w : list Z) (due : gmap Z Deadline) : Prop := {
  n_cpus : forall c, is_Some (percpus s !! c) <-> is_Some (m !! c);
  n_nonneg : forall c, is_Some (m !! c) -> 0 <= c;
  n_queues : queues_ok s due;
  n_armed : armed s m;
  n_callbacks : callbacks_ok (timers s) m;
  n_local : local_ok s;
  n_waiting : waiting_ok s w;
}.

Definition tinv (x : TSys) : Prop := sinv (state x) (modes x) (waiting x) (due x).

(** ** The one-shot timer *)

Lemma update_platform_queue d p : timer_queue (update_platform_timer d p) = timer_queue p.
Proof. unfold update_platform_timer. by destruct (_ <? _). Qed.
Lemma update_platform_preempt d p : preempt_timer_deadline (update_platform_timer d p) = preempt_timer_deadline p.
Proof. unfold update_platform_timer. by destruct (_ <? _). Qed.
Lemma update_platform_next d p : next_timer_deadline (update_platform_timer d p) = Z.min d (next_timer_deadline p).
Proof. unfold update_platform_timer. destruct (Z.ltb_spec d (next_timer_deadline p)); simpl; lia. Qed.
Lemma update_platform_set d p : set_ok p -> set_ok (update_platform_timer d p).
Proof. intros [H1 H2]. unfold set_ok, update_platform_timer. destruct (Z.ltb_spec d (next_timer_deadline p)); [|done]. simpl. split; [lia | done]. Qed.

(** The timers of other processors, and what they are set to, stay. *)
Lemma armed_put_percpu c p s m :
  armed s m ->
  set_ok p ->
  match m !! c with
  | Some Running => next_timer_deadline p <= preempt_timer_deadline p /\ forall t, t ∈ timer_queue p -> next_timer_deadline p <= time_of s t
  | Some (Ending d) => forall t, t ∈ timer_queue p -> d <= time_of s t
  | _ => True
  end -> armed (put_percpu c p s) m.
Proof. intros Ha Hs Hm c' p' Hp'. simpl in Hp'. apply lookup_insert_Some in Hp' as [[<- <-]|[_ Hp']]; [done | by apply (Ha c' p')]. Qed.

Lemma armed_put_timer t x s m : armed s m -> ~ queued s t \/ scheduled_time x = time_of s t -> armed (put_timer t x s) m.
Proof.
  intros Ha Hx c p Hp. destruct (Ha c p Hp) as [H1 H2]. split; [done|].
  assert (forall u, u ∈ timer_queue p -> time_of (put_timer t x s) u = time_of s u) as Ht.
  { intros u Hu. rewrite time_of_put. destruct (decide (u = t)) as [->|]; [|done]. destruct Hx as [Hx|Hx]; [|done]. destruct Hx. by exists c, p. }
  destruct (m !! c) as [[]|]; try done; [split; [apply H2|]|]; intros u Hu; rewrite Ht by done; by apply H2.
Qed.

Lemma armed_delete t s m : armed s m -> armed (list_delete t s) m.
Proof.
  intros Ha c p (p0 & Hp & ->)%percpus_delete. destruct (Ha c p0 Hp) as [H1 H2]. split; [done|]. simpl.
  destruct (m !! c) as [[]|]; try done; [split; [apply H2|]|]; intros u [_ Hu]%list_elem_of_filter; by apply H2.
Qed.

Lemma armed_mode c md s m :
  armed s m -> (forall p, percpus s !! c = Some p -> match md with
    | Running => next_timer_deadline p <= preempt_timer_deadline p /\ forall t, t ∈ timer_queue p -> next_timer_deadline p <= time_of s t
    | Ending d => forall t, t ∈ timer_queue p -> d <= time_of s t
    | _ => True
    end) -> armed s (<[c := md]> m).
Proof.
  intros Ha Hm c' p Hp. destruct (Ha c' p Hp) as [H1 H2]. split; [done|].
  destruct (decide (c = c')) as [->|Hne]; [rewrite lookup_insert_eq; by specialize (Hm p Hp); destruct md | by rewrite lookup_insert_ne].
Qed.

(** ** Callbacks *)

Lemma callbacks_same T m t x x' : callbacks_ok T m -> T !! t = Some x -> active_cpu x' = active_cpu x -> callbacks_ok (<[t := x']> T) m.
Proof.
  intros [A1 A2] Ht Hx. split.
  - intros u y [[<- <-]|[_ Hu]]%lookup_insert_Some; [rewrite Hx; by apply (A1 t x) | by apply (A1 u y)].
  - intros c now u Hc. destruct (A2 c now u Hc) as (y & Hy & Hyc). destruct (decide (u = t)) as [->|Hne]; [|exists y; by rewrite lookup_insert_ne].
    exists x'. rewrite lookup_insert_eq. split; [done|]. rewrite Hx. congruence.
Qed.

(** A processor that runs no callback goes on to do something else. *)
Lemma callbacks_mode T m c md :
  callbacks_ok T m -> (forall now t, m !! c <> Some (Calling now t)) -> (forall now t, md <> Calling now t) -> callbacks_ok T (<[c := md]> m).
Proof.
  intros [A1 A2] Hc Hm. split.
  - intros t x Ht. destruct (A1 t x Ht) as [?|[now Hn]]; [by left|]. right. exists now. rewrite lookup_insert_ne; [done|]. intros ->. by apply Hc in Hn.
  - intros c' now t [[_ E]|[_ H]]%lookup_insert_Some; [by apply Hm in E | by apply (A2 c' now)].
Qed.

Lemma callback_begins T m c now t x :
  callbacks_ok T m -> (forall c, is_Some (m !! c) -> 0 <= c) -> (forall now t, m !! c <> Some (Calling now t)) -> T !! t = Some x -> active_cpu x = -1 ->
  callbacks_ok (<[t := set_active c x]> T) (<[c := Calling now t]> m).
Proof.
  intros [A1 A2] Hnn Hc Ht Hx. split.
  - intros u y [[<- <-]|[Hne Hu]]%lookup_insert_Some; [right; exists now; simpl; by rewrite lookup_insert_eq|].
    destruct (A1 u y Hu) as [?|[n Hn]]; [by left|]. right. exists n. rewrite lookup_insert_ne; [done|]. intros ->. by apply Hc in Hn.
  - intros c' n u [[<- E]|[Hne H]]%lookup_insert_Some; [injection E as <- <-; exists (set_active c x); by rewrite lookup_insert_eq|].
    destruct (A2 c' n u H) as (y & Hy & Hyc). exists y. rewrite lookup_insert_ne; [done|]. intros <-. assert (y = x) as -> by congruence.
    assert (0 <= c') by (apply Hnn; by exists (Calling n t)). lia.
Qed.

Lemma callback_ends T m c now t x :
  callbacks_ok T m -> m !! c = Some (Calling now t) -> T !! t = Some x -> callbacks_ok (<[t := set_active (-1) x]> T) (<[c := Ticking now]> m).
Proof.
  intros [A1 A2] Hc Ht. destruct (A2 c now t Hc) as (x0 & Hx0 & Hx). assert (x0 = x) as -> by congruence. split.
  - intros u y [[<- <-]|[Hne Hu]]%lookup_insert_Some; [by left|]. destruct (A1 u y Hu) as [?|[n Hn]]; [by left|]. right. exists n.
    rewrite lookup_insert_ne; [done|]. intros ->. congruence.
  - intros c' n u [[<- E]|[Hne H]]%lookup_insert_Some; [done|]. destruct (A2 c' n u H) as (y & Hy & Hyc). exists y. rewrite lookup_insert_ne; [done|]. intros <-. congruence.
Qed.

(** ** The parts of the operations *)

Section Parts.
Context (s : State) (m : gmap Z mode) (w : list Z) (due : gmap Z Deadline) (I : sinv s m w due).

Lemma sinv_put_timer t x x' :
  timers s !! t = Some x -> active_cpu x' = active_cpu x -> (~ queued s t \/ scheduled_time x' = scheduled_time x) -> (cancel x = true -> t ∈ w -> cancel x' = true) ->
  sinv (put_timer t x' s) m w due.
Proof using I.
  intros Ht Ha Hq Hc. assert (~ queued s t \/ scheduled_time x' = time_of s t) as Hq' by (unfold time_of; by rewrite Ht). destruct I as [I1 I2 I3 I4 I5 I6 I7]. split; try done.
  - apply queues_ok_timer; [done|]. destruct Hq' as [?|?]; [by left | right; by split; [exists x|]].
  - by apply armed_put_timer.
  - by apply (callbacks_same _ _ t x).
  - intros c p u y Hp Hu Hy. simpl in Hy. apply lookup_insert_Some in Hy as [[<- <-]|[_ Hy]]; [rewrite Ha; by apply (I6 c p t x) | by apply (I6 c p u y)].
  - intros u Hu. destruct (I7 u Hu) as (Hn & y & Hy & Hcy). split; [done|]. simpl. destruct (decide (u = t)) as [->|Hne]; [|exists y; by rewrite lookup_insert_ne].
    exists x'. rewrite lookup_insert_eq. split; [done|]. apply Hc; [congruence | done].
Qed.

Lemma sinv_put_percpu c p p' :
  percpus s !! c = Some p -> timer_queue p' = timer_queue p ->
  set_ok p' ->
  match m !! c with
  | Some Running => next_timer_deadline p' <= preempt_timer_deadline p' /\ forall t, t ∈ timer_queue p' -> next_timer_deadline p' <= time_of s t
  | Some (Ending d) => forall t, t ∈ timer_queue p' -> d <= time_of s t
  | _ => True
  end -> sinv (put_percpu c p' s) m w due.
Proof using I.
  intros Hp Hq Hs Hm. destruct I as [I1 I2 I3 I4 I5 I6 I7]. split; try done.
  - intros c'. rewrite <- I1. simpl. destruct (decide (c = c')) as [->|Hne]; [rewrite lookup_insert_eq, Hp; done | by rewrite lookup_insert_ne].
  - by apply (queues_ok_percpu c p).
  - by apply armed_put_percpu.
  - intros c' p1 u y Hp1 Hu Hy. simpl in Hp1. apply lookup_insert_Some in Hp1 as [[<- <-]|[_ Hp1]]; [apply (I6 c p u y); [done | by rewrite <- Hq | done] | by apply (I6 c' p1 u y)].
  - intros u Hu. destruct (I7 u Hu) as (Hn & H). split; [|done]. by rewrite (queued_put_percpu c p p').
Qed.

(** The one-shot timer is moved forward. *)
Lemma sinv_update c p d : percpus s !! c = Some p -> sinv (put_percpu c (update_platform_timer d p) s) m w due.
Proof using I.
  intros Hp. destruct (n_armed _ _ _ _ I c p Hp) as [H1 H2]. apply (sinv_put_percpu c p); [done | apply update_platform_queue | by apply update_platform_set|].
  destruct (m !! c) as [[]|]; try done; rewrite update_platform_queue, ?update_platform_next, ?update_platform_preempt; [|done]. destruct H2 as [H2 H3].
  split; [lia|]. intros t Ht. specialize (H3 t Ht). lia.
Qed.

Lemma sinv_delete t : sinv (list_delete t s) m w due.
Proof using I.
  destruct I as [I1 I2 I3 I4 I5 I6 I7]. split; try done.
  - intros c. rewrite <- I1. simpl. by rewrite lookup_fmap, fmap_is_Some.
  - by apply queues_ok_delete.
  - by apply armed_delete.
  - intros c p u y (p0 & Hp & ->)%percpus_delete [_ Hu]%list_elem_of_filter Hy. by apply (I6 c p0 u y).
  - intros u Hu. destruct (I7 u Hu) as (Hn & H). split; [|done]. by intros [? _]%queued_delete.
Qed.

(** A timer goes into a queue, and the one-shot timer is seen to. *)
Lemma sinv_insert c p t x q wh sl e l d due' :
  ~ queued s t -> t ∉ w -> percpus s !! c = Some p -> timers s !! t = Some x -> active_cpu x = -1 \/ active_cpu x = c ->
  walked (time_of s) t (scheduled_time x) e l (timer_queue p) q wh sl ->
  due' !! t = Some d -> earliest d <= wh <= latest d -> (forall u, u <> t -> due' !! u = due !! u) ->
  (m !! c = Some Running -> head q = Some t -> next_timer_deadline p <= wh) -> (forall n, m !! c <> Some (Ending n)) ->
  sinv (put_timer t (set_time wh sl x) (put_percpu c (set_queue q p) s)) m w due'.
Proof using I.
  intros Hn Hw Hp Ht Ha Hwk Hd Hdw Hdo Hh Hne. destruct I as [I1 I2 I3 I4 I5 I6 I7]. pose proof Hwk as [(q1 & q2 & Eq & Eq' & H1 & H2 & H3) _ _ _ _ _]. split; try done.
  - intros c'. rewrite <- I1. simpl. destruct (decide (c = c')) as [->|Hcc]; [rewrite lookup_insert_eq, Hp; done | by rewrite lookup_insert_ne].
  - by apply (queues_ok_insert c p t x s q wh sl e l d due).
  - intros c' p' Hp'. simpl in Hp'. assert (forall u, u <> t -> time_of (put_timer t (set_time wh sl x) (put_percpu c (set_queue q p) s)) u = time_of s u) as Htu.
    { intros u Hu. rewrite time_of_put. by rewrite decide_False. }
    apply lookup_insert_Some in Hp' as [[<- <-]|[_ Hp']].
    + destruct (I4 c p Hp) as [H4 H5]. split; [done|]. destruct (m !! c) as [[]|] eqn:Em; try done; [|by destruct (Hne deadline)]. destruct H5 as [H5 H6]. split; [done|].
      simpl. intros u Hu. destruct (decide (u = t)) as [->|Hut].
      * rewrite time_of_put, decide_True by done. simpl. destruct q1 as [|a q1]; [apply Hh; [done | by rewrite Eq']|].
        transitivity (time_of s a); [apply H6; rewrite Eq; apply list_elem_of_here | apply H1, list_elem_of_here].
      * rewrite Htu by done. apply H6. rewrite Eq. rewrite Eq' in Hu. rewrite elem_of_app, elem_of_cons in *. tauto.
    + destruct (I4 c' p' Hp') as [H4 H5]. split; [done|]. assert (forall u, u ∈ timer_queue p' -> u <> t) as Hut by (intros u Hu ->; apply Hn; by exists c', p').
      destruct (m !! c') as [[]|]; try done; [split; [apply H5|]|]; intros u Hu; rewrite Htu by (by apply Hut); by apply H5.
  - by apply (callbacks_same _ _ t x).
  - intros c' p1 u y Hp1 Hu Hy. simpl in Hp1, Hy. apply lookup_insert_Some in Hy as [[<- <-]|[Hut Hy]].
    + simpl. apply lookup_insert_Some in Hp1 as [[<- <-]|[_ Hp1]]; [done|]. destruct Hn. by exists c', p1.
    + apply lookup_insert_Some in Hp1 as [[<- <-]|[_ Hp1]]; [|by apply (I6 c' p1 u y)]. apply (I6 c p u y); try done. simpl in Hu. rewrite Eq. rewrite Eq' in Hu.
      rewrite elem_of_app, elem_of_cons in *. intuition congruence.
  - intros u Hu. destruct (I7 u Hu) as (Hnu & y & Hy & Hc). assert (u <> t) as Hut by (by intros ->). split; [|exists y; simpl; by rewrite lookup_insert_ne].
    intros (c' & p1 & Hp1 & Hu1). simpl in Hp1. apply Hnu. apply lookup_insert_Some in Hp1 as [[<- <-]|[_ Hp1]]; [|by exists c', p1]. exists c, p. split; [done|].
    simpl in Hu1. rewrite Eq. rewrite Eq' in Hu1. rewrite elem_of_app, elem_of_cons in *. intuition congruence.
Qed.
End Parts.

(** ** Setting a timer *)

Lemma window_diffs d : valid_deadline d ->
  earliest d <= when_ d <= latest d /\ is_i64 (earliest d - when_ d) /\ is_i64 (when_ d - earliest d) /\ is_i64 (latest d - when_ d).
Proof. intros [Hw Ha]. destruct (deadline_window d Hw Ha) as (_ & _ & H1 & H2 & H3 & _). unfold is_i64. lia. Qed.

Lemma set_queue_update q d p : set_queue q (update_platform_timer d p) = update_platform_timer d (set_queue q p).
Proof. unfold update_platform_timer. simpl. by destruct (_ <? _). Qed.

Lemma put_percpu_twice c p p' s : put_percpu c p (put_percpu c p' s) = put_percpu c p s.
Proof. unfold put_percpu. simpl. by rewrite insert_insert_eq. Qed.

Lemma walked_in at_ t wh e l q q' w sl : walked at_ t wh e l q q' w sl -> t ∈ q' /\ forall u, u <> t -> u ∈ q' <-> u ∈ q.
Proof.
  intros [(q1 & q2 & -> & -> & _) _ _ _ _ _]. split; [apply elem_of_app; right; apply list_elem_of_here|]. intros u Hu. rewrite !elem_of_app, elem_of_cons. intuition congruence.
Qed.

Definition others (t : Z) (s s' : State) : Prop := forall u, u <> t -> timers s' !! u = timers s !! u /\ (queued s' u <-> queued s u).

(** The timer in its new place: the queue and the one-shot timer. *)
Definition placed (c t : Z) (x : timer) (q : list Z) (p : percpu) (s : State) : State := put_timer t x (put_percpu c (set_queue q p) s).

Lemma placed_twice c t x x0 q p s : placed c t x q p (put_timer t x0 s) = placed c t x q p s.
Proof. unfold placed, put_timer, put_percpu. simpl. by rewrite insert_insert_eq. Qed.

Lemma walked_head at_ t wh e l q q' w sl : walked at_ t wh e l q q' w sl -> t ∉ q -> head q' = Some t -> w = wh.
Proof.
  intros [(q1 & q2 & -> & -> & _ & _ & H) _ _ _ _ _] Hn Hh. destruct q1 as [|a q1]; [by apply H|]. injection Hh as ->. destruct Hn. apply list_elem_of_here.
Qed.

Lemma placed_inv s m w due due' c p t x e l d q wh sl :
  sinv s m w due -> ~ queued s t -> t ∉ w -> percpus s !! c = Some p -> timers s !! t = Some x -> active_cpu x = -1 \/ active_cpu x = c ->
  walked (time_of s) t (scheduled_time x) e l (timer_queue p) q wh sl ->
  due' !! t = Some d -> earliest d <= wh <= latest d -> (forall u, u <> t -> due' !! u = due !! u) -> (forall n, m !! c <> Some (Ending n)) ->
  let p' := if bool_decide (head q = Some t) then update_platform_timer (scheduled_time x) p else p in
  sinv (placed c t (set_time wh sl x) q p' s) m w due'.
Proof.
  intros I Hq Hw Hp Hx Ha Hwk Hd Hdw Hdo Hm p'. unfold p'. destruct (bool_decide _) eqn:Hh; [apply bool_decide_eq_true in Hh | apply bool_decide_eq_false in Hh]; clear p'; unfold placed.
  - set (p' := update_platform_timer _ p). rewrite <- (put_percpu_twice c (set_queue q p') p' s).
    assert (sinv (put_percpu c p' s) m w due) as I1 by (by apply (sinv_update _ _ _ _ I)).
    apply (sinv_insert _ _ _ _ I1 c p' t x q wh sl e l d); try done.
    + intros H. apply Hq. by apply (queued_put_percpu c p p' s t Hp (update_platform_queue _ _)).
    + simpl. apply lookup_insert_eq.
    + unfold p'. by rewrite update_platform_queue.
    + intros _ _. unfold p'. rewrite update_platform_next. rewrite (walked_head _ _ _ _ _ _ _ _ _ Hwk); [lia | | done]. intros Ht. apply Hq. by exists c, p.
  - by apply (sinv_insert _ _ _ _ I c p t x q wh sl e l d).
Qed.

Lemma insert_result c t x p e l s :
  timers s !! t = Some x -> percpus s !! c = Some p ->
  insert_timer_in_queue c t e l s = (let '(q, w, sl) := insert_walk (time_of s) t (scheduled_time x) e l (timer_queue p) in Some (placed c t (set_time w sl x) q p s)).
Proof. intros Hx Hp. unfold insert_timer_in_queue. rewrite Hx. cbn [mbind option_bind]. rewrite Hp. done. Qed.

(** What is in the queues then. *)
Lemma placed_queues c t x q p p0 s :
  percpus s !! c = Some p0 -> t ∈ q -> (forall u, u <> t -> u ∈ q <-> u ∈ timer_queue p0) -> queued (placed c t x q p s) t /\ others t s (placed c t x q p s).
Proof.
  intros Hp Ht Hq. split; [exists c, (set_queue q p); split; [simpl; apply lookup_insert_eq | done]|]. intros u Hu. split; [simpl; by rewrite lookup_insert_ne|].
  unfold queued. simpl. split; intros (c' & p' & Hp' & Hin).
  - apply lookup_insert_Some in Hp' as [[<- <-]|[_ Hp']]; [exists c, p0; split; [done | by apply Hq] | by exists c', p'].
  - destruct (decide (c' = c)) as [->|Hne]; [|exists c', p'; by rewrite lookup_insert_ne]. exists c, (set_queue q p). rewrite lookup_insert_eq.
    split; [done|]. assert (p' = p0) as -> by congruence. by apply Hq.
Qed.

(** A timer that is not set, not active elsewhere and not being cancelled. *)
Lemma timer_set_spec s m w due c t x d cb :
  sinv s m w due -> timers s !! t = Some x -> valid_deadline d -> ~ queued s t -> t ∉ w -> active_cpu x = -1 \/ active_cpu x = c /\ cancel x = false ->
  (exists now u, m !! c = Some (Calling now u)) \/ m !! c = Some Running ->
  exists s', timer_set c t d cb s = Some s' /\ sinv s' m w (<[t := d]> due) /\ queued s' t /\ others t s s' /\
    exists y, timers s' !! t = Some y /\ active_cpu y = active_cpu x /\ callback y = Some cb /\ cancel y = false.
Proof.
  intros I Hx Hd Hq Hw Ha Hm. assert (is_Some (m !! c)) as Hmc by (destruct Hm as [(? & ? & ->)| ->]; by eexists).
  assert (0 <= c) as Hc by by apply (n_nonneg _ _ _ _ I). apply (n_cpus _ _ _ _ I) in Hmc as [p Hp].
  unfold timer_set. rewrite Hx. cbn [mbind option_bind]. rewrite (proj2 (list_in_list_false s t) Hq).
  replace ((active_cpu x =? c) && cancel x) with false by (destruct Ha as [-> |[_ ->]]; [|by rewrite andb_false_r]; destruct (Z.eqb_spec (-1) c); [lia | done]).
  replace (negb (active_cpu x =? c) && (active_cpu x >=? 0)) with false by (destruct Ha as [-> |[-> _]]; [by rewrite andb_false_r | by rewrite Z.eqb_refl]).
  set (x0 := mkTimer (when_ d) (slack x) (Some cb) (active_cpu x) false).
  assert (sinv (put_timer t x0 s) m w due) as I0 by (by apply (sinv_put_timer _ _ _ _ I t x); [| | left |]).
  assert (timers (put_timer t x0 s) !! t = Some x0) as Hx0 by (simpl; apply lookup_insert_eq). rewrite (insert_result c t x0 p _ _ _ Hx0 Hp).
  destruct (window_diffs d Hd) as (W1 & W2 & W3 & W4).
  pose proof (insert_walk_spec (time_of (put_timer t x0 s)) t (scheduled_time x0) (earliest d) (latest d) W1 W2 W3 W4 (timer_queue p)) as Hwk.
  destruct (insert_walk _ _ _ _ _ _) as [[q wh] sl]. specialize (Hwk (proj1 (k_ordered _ _ (n_queues _ _ _ _ I0) c p Hp))).
  cbn [mbind option_bind]. rewrite placed_twice. unfold placed at 1. simpl percpus. rewrite lookup_insert_eq. cbn [mbind option_bind]. simpl timer_queue.
  destruct (walked_in _ _ _ _ _ _ _ _ _ Hwk) as [Hin Hoth].
  exists (placed c t (set_time wh sl x0) q (if bool_decide (head q = Some t) then update_platform_timer (when_ d) p else p) s). split_and!.
  - case_bool_decide; [|done]. f_equal. unfold placed. rewrite set_queue_update. unfold put_timer, put_percpu. simpl. by rewrite insert_insert_eq.
  - rewrite <- (placed_twice c t _ x0). apply (placed_inv _ _ _ due _ c p t x0 (earliest d) (latest d) d); try done;
      [destruct Ha as [?|[? _]]; [by left | by right] | apply lookup_insert_eq | by apply (w_window _ _ _ _ _ _ _ _ _ Hwk) | intros u Hu; by rewrite lookup_insert_ne|].
    intros n Hn. destruct Hm as [(? & ? & E)|E]; congruence.
  - exact (proj1 (placed_queues c t _ q _ p s Hp Hin Hoth)).
  - exact (proj2 (placed_queues c t _ q _ p s Hp Hin Hoth)).
  - exists (set_time wh sl x0). split; [simpl; apply lookup_insert_eq | done].
Qed.

(** ** Cancelling a timer *)

Lemma others_put_timer t x s : others t s (put_timer t x s).
Proof. intros u Hu. split; [simpl; by rewrite lookup_insert_ne | done]. Qed.

Lemma others_delete t s : others t s (list_delete t s).
Proof. intros u Hu. split; [done|]. rewrite queued_delete. tauto. Qed.

Lemma others_put_percpu t c p p' s : percpus s !! c = Some p -> timer_queue p' = timer_queue p -> others t s (put_percpu c p' s).
Proof. intros Hp Hq u _. split; [done|]. by apply (queued_put_percpu c p). Qed.

Lemma others_trans t s1 s2 s3 : others t s1 s2 -> others t s2 s3 -> others t s1 s3.
Proof. intros H1 H2 u Hu. destruct (H1 u Hu) as [E1 Q1], (H2 u Hu) as [E2 Q2]. split; [congruence | by rewrite Q2]. Qed.

Lemma sinv_wait s m w due t x : sinv s m w due -> ~ queued s t -> timers s !! t = Some x -> cancel x = true -> sinv s m (t :: w) due.
Proof. intros [I1 I2 I3 I4 I5 I6 I7] Hq Hx Hc. split; try done. intros u [->|Hu]%elem_of_cons; [split; [done | by exists x] | by apply I7]. Qed.

Lemma sinv_unwait s m w w' due : sinv s m w due -> (forall u, u ∈ w' -> u ∈ w) -> sinv s m w' due.
Proof. intros [I1 I2 I3 I4 I5 I6 I7] Hw. split; try done. intros u Hu. by apply I7, Hw. Qed.

(** The one-shot timer after the head of the queue has been removed. *)
Lemma cancel_platform_inv s m w due c p :
  sinv s m w due -> percpus s !! c = Some p ->
  let s' := match head (timer_queue p) with
            | Some newhead => put_percpu c (update_platform_timer (time_of s newhead) p) s
            | None => if next_timer_deadline p =? ZX_TIME_INFINITE then put_percpu c (set_next (next_timer_deadline p) None p) s else s
            end in
  sinv s' m w due /\ timers s' = timers s /\ forall t, others t s s' /\ (queued s' t <-> queued s t).
Proof.
  intros I Hp. destruct (head (timer_queue p)) as [h|].
  - split_and!; [by apply (sinv_update _ _ _ _ I) | done|]. intros t. split; [apply (others_put_percpu _ _ p); [done | apply update_platform_queue]|].
    apply (queued_put_percpu c p); [done | apply update_platform_queue].
  - destruct (Z.eqb_spec (next_timer_deadline p) ZX_TIME_INFINITE) as [Hn|]; [|done]. destruct (n_armed _ _ _ _ I c p Hp) as [[H1 _] H2]. split_and!; [|done|].
    + by apply (sinv_put_percpu _ _ _ _ I c p).
    + intros t. split; [by apply (others_put_percpu _ _ p) | by apply (queued_put_percpu c p)].
Qed.

Lemma timer_cancel_spec s m w due c t x :
  sinv s m w due -> timers s !! t = Some x -> is_Some (m !! c) ->
  exists r s', timer_cancel c t s = Some (r, s') /\ others t s s' /\
    match r with
    | inl b => b = false /\ active_cpu x = c /\ s' = put_timer t (set_callback None (set_cancel true x)) s /\ sinv s' m w due
    | inr b => b = list_in_list t s /\ active_cpu x <> c /\ timers s' !! t = Some (set_cancel true x) /\ ~ queued s' t /\ sinv s' m (t :: w) due
    end.
Proof.
  intros I Hx [p Hp]%(n_cpus _ _ _ _ I). unfold timer_cancel. rewrite Hx. cbn [mbind option_bind]. simpl active_cpu.
  destruct (Z.eqb_spec (active_cpu x) c) as [Hc|Hc].
  { eexists _, _. split; [done|]. split; [apply others_put_timer|]. split_and!; try done. apply (sinv_put_timer _ _ _ _ I t x); try done. by right. }
  set (s1 := put_timer t (set_cancel true x) s). assert (list_in_list t s1 = list_in_list t s) as El by done. rewrite El.
  assert (sinv s1 m w due) as I1 by (apply (sinv_put_timer _ _ _ _ I t x); try done; by right).
  assert (timers s1 !! t = Some (set_cancel true x)) as Ht1 by (simpl; apply lookup_insert_eq).
  destruct (list_in_list t s) eqn:Eq; cbn [negb].
  2: { eexists _, _. split; [done|]. split; [apply others_put_timer|]. apply list_in_list_false in Eq. split_and!; try done. by apply (sinv_wait _ _ _ _ _ (set_cancel true x)). }
  change (percpus s1) with (percpus s). rewrite Hp. cbn [mbind option_bind].
  pose proof (sinv_delete _ _ _ _ I1 t) as I2. assert (~ queued (list_delete t s1) t) as Hq2 by (by intros [_ H]%queued_delete).
  assert (others t s (list_delete t s1)) as Ho2 by (eapply others_trans; [apply others_put_timer | apply others_delete]).
  destruct (negb _); [eexists _, _; split; [done|]; split; [done|]; split_and!; try done; by apply (sinv_wait _ _ _ _ _ (set_cancel true x))|].
  set (p2 := set_queue (filter (fun u => u <> t) (timer_queue p)) p).
  assert (percpus (list_delete t s1) !! c = Some p2) as Hp2 by (apply percpus_delete; by exists p). rewrite Hp2. cbn [mbind option_bind].
  destruct (cancel_platform_inv _ _ _ _ c p2 I2 Hp2) as (I3 & Et & Ho3). eexists _, _. split; [done|]. split; [by eapply others_trans; [|apply Ho3]|].
  split_and!; try done; [by rewrite Et | by intros H%(Ho3 t)|]. apply (sinv_wait _ _ _ _ _ (set_cancel true x)); try done; [by intros H%(Ho3 t) | by rewrite Et].
Qed.
