(* ===== verification/TimerSteps.v ===== *)
(** * Correctness of kernel timers: every step

    The invariant of [TimerInv.v] holds in every state that the timers of a system
    reach, and what the steps of [timer_tick] do. *)

From S2P Require Import Prelude Zx Deadline Timer TimerFacts TimerSystem TimerInv.
Import Timer.

(** A processor goes on to do something else. *)
Lemma sinv_mode s m w due c md :
  sinv s m w due -> is_Some (m !! c) -> callbacks_ok (timers s) (<[c := md]> m) ->
  (forall p, percpus s !! c = Some p -> match md with
    | Running => next_timer_deadline p <= preempt_timer_deadline p /\ forall t, t ∈ timer_queue p -> next_timer_deadline p <= time_of s t
    | Ending d => forall t, t ∈ timer_queue p -> d <= time_of s t
    | _ => True
    end) -> sinv s (<[c := md]> m) w due.
Proof.
  intros [I1 I2 I3 I4 I5 I6 I7] Hc Hcb Hm. split; try done.
  - intros c'. rewrite I1. destruct (decide (c = c')) as [->|Hne]; [by rewrite lookup_insert_eq | by rewrite lookup_insert_ne].
  - intros c'. destruct (decide (c = c')) as [->|Hne]; [by intros _; apply I2 | rewrite lookup_insert_ne by done; apply I2].
  - by apply armed_mode.
Qed.

(** The same, when it neither was nor will be in a callback. *)
Lemma sinv_other_mode s m w due c md0 md :
  sinv s m w due -> m !! c = Some md0 -> (forall now t, md0 <> Calling now t) -> (forall now t, md <> Calling now t) ->
  (forall p, percpus s !! c = Some p -> match md with
    | Running => next_timer_deadline p <= preempt_timer_deadline p /\ forall t, t ∈ timer_queue p -> next_timer_deadline p <= time_of s t
    | Ending d => forall t, t ∈ timer_queue p -> d <= time_of s t
    | _ => True
    end) -> sinv s (<[c := md]> m) w due.
Proof.
  intros I Hc H0 H1 Hm. apply sinv_mode; [done | by exists md0 | | done]. apply callbacks_mode; [apply (n_callbacks _ _ _ _ I) | | done].
  intros now t E. apply (H0 now t). congruence.
Qed.

(** The head of a queue is the first to be due. *)
Lemma head_first s m w due c p h : sinv s m w due -> percpus s !! c = Some p -> head (timer_queue p) = Some h -> h ∈ timer_queue p /\ forall t, t ∈ timer_queue p -> time_of s h <= time_of s t.
Proof.
  intros I Hp Hh. destruct (k_ordered _ _ (n_queues _ _ _ _ I) c p Hp) as [Ho _]. destruct (timer_queue p) as [|a q]; [done|]. injection Hh as ->.
  apply ordered_cons in Ho as [_ Ho]. split; [apply list_elem_of_here|]. intros t [->|Ht]%elem_of_cons; [lia | by apply Ho].
Qed.

(** ** Interrupts *)

Lemma timer_tick_spec s m w due c now :
  sinv s m w due -> m !! c = Some Running -> exists b s', timer_tick c now s = Some (b, s') /\ sinv s' (<[c := Ticking now]> m) w due /\ timers s' = timers s /\ (forall t, queued s' t <-> queued s t).
Proof.
  intros I Hc. destruct (proj2 (n_cpus _ _ _ _ I c)) as [p Hp]; [by exists Running|]. unfold timer_tick. rewrite Hp. cbn [mbind option_bind].
  assert (sinv s (<[c := Ticking now]> m) w due) as I1 by (by apply (sinv_other_mode _ _ _ _ _ Running)).
  assert (forall p', timer_queue p' = timer_queue p -> next_timer_deadline p' = ZX_TIME_INFINITE -> sinv (put_percpu c p' s) (<[c := Ticking now]> m) w due) as Hput.
  { intros p' Hq Hn. apply (sinv_put_percpu _ _ _ _ I1 c p); try done; [split; [lia | done] | by rewrite lookup_insert_eq]. }
  simpl. destruct (now >=? _); eexists _, _; (split; [done|]; split; [by apply Hput|]; split; [done|]; intros t; by apply (queued_put_percpu c p)).
Qed.

(** A round: it calls the callback of the first timer if that is due. *)
Lemma timer_tick_next_spec s m w due c now :
  sinv s m w due -> m !! c = Some (Ticking now) ->
  exists r s', timer_tick_next c now s = Some (r, s') /\
    match r with
    | inr d => s' = s /\ sinv s (<[c := Ending d]> m) w due /\ forall p t, percpus s !! c = Some p -> t ∈ timer_queue p -> now < time_of s t
    | inl t => exists x, timers s !! t = Some x /\ active_cpu x = -1 /\ timers s' !! t = Some (set_active c x) /\ queued s t /\ time_of s t <= now /\ ~ queued s' t /\ others t s s' /\
        sinv s' (<[c := Calling now t]> m) w due
    end.
Proof.
  intros I Hc. destruct (proj2 (n_cpus _ _ _ _ I c)) as [p Hp]; [by exists (Ticking now)|]. unfold timer_tick_next. rewrite Hp. cbn [mbind option_bind].
  destruct (head (timer_queue p)) as [t|] eqn:Hh.
  2: { eexists _, _. split; [done|]. assert (timer_queue p = []) as E by (by destruct (timer_queue p)). split_and!; try done.
    - apply (sinv_other_mode _ _ _ _ _ (Ticking now)); try done. intros p' Hp' t. assert (p' = p) as -> by congruence. rewrite E. by intros ?%not_elem_of_nil.
    - intros p' t Hp'. assert (p' = p) as -> by congruence. rewrite E. by intros ?%not_elem_of_nil. }
  destruct (head_first _ _ _ _ c p t I Hp Hh) as [Hin Hfirst]. assert (queued s t) as Hq by (by exists c, p).
  destruct (k_due _ _ (n_queues _ _ _ _ I) t Hq) as ([x Hx] & _). rewrite Hx. cbn [mbind option_bind]. assert (time_of s t = scheduled_time x) as Et by (unfold time_of; by rewrite Hx).
  destruct (Z.ltb_spec now (scheduled_time x)) as [Hlt|Hge].
  { eexists _, _. split; [done|]. split_and!; try done.
    - apply (sinv_other_mode _ _ _ _ _ (Ticking now)); try done. intros p' Hp' u Hu. assert (p' = p) as -> by congruence. rewrite <- Et. by apply Hfirst.
    - intros p' u Hp' Hu. assert (p' = p) as -> by congruence. specialize (Hfirst u Hu). lia. }
  assert (active_cpu x = -1) as Ha.
  { destruct (n_local _ _ _ _ I c p t x Hp Hin Hx) as [?|E]; [done|]. destruct (a_active _ _ (n_callbacks _ _ _ _ I) t x Hx) as [?|[n Hn]]; [done|]. rewrite E in Hn. congruence. }
  eexists _, _. split; [done|]. exists x. assert (~ queued (list_delete t s) t) as Hnq by (by intros [_ H]%queued_delete).
  pose proof (sinv_delete _ _ _ _ I t) as [J1 J2 J3 J4 J5 J6 J7].
  split_and!; try done; [simpl; apply lookup_insert_eq | lia | eapply others_trans; [apply others_delete | apply others_put_timer]|]. split.
  - intros c'. simpl. rewrite lookup_fmap, fmap_is_Some, (n_cpus _ _ _ _ I). destruct (decide (c = c')) as [->|Hne]; [rewrite lookup_insert_eq, Hc; done | by rewrite lookup_insert_ne].
  - intros c'. destruct (decide (c = c')) as [->|Hne]; [intros _; apply J2; by exists (Ticking now) | rewrite lookup_insert_ne by done; apply J2].
  - apply queues_ok_timer; [done | by left].
  - apply armed_put_timer; [by apply armed_mode | by left].
  - apply callback_begins; try done. intros n u. congruence.
  - intros c' p' u y Hp' Hu Hy. simpl in Hy. apply lookup_insert_Some in Hy as [[<- <-]|[_ Hy]]; [destruct Hnq; by exists c', p' | by apply (J6 c' p' u y)].
  - intros u Hu. destruct (J7 u Hu) as (Hn & y & Hy & Hcy). split; [done|]. simpl. destruct (decide (u = t)) as [->|Hne]; [|exists y; by rewrite lookup_insert_ne].
    exists (set_active c x). rewrite lookup_insert_eq. split; [done|]. simpl in Hy. simpl. congruence.
Qed.

Lemma timer_tick_fired_spec s m w due c now t :
  sinv s m w due -> m !! c = Some (Calling now t) ->
  exists x s', timers s !! t = Some x /\ active_cpu x = c /\ timer_tick_fired t s = Some s' /\ s' = put_timer t (set_active (-1) x) s /\ sinv s' (<[c := Ticking now]> m) w due.
Proof.
  intros I Hc. destruct (a_calling _ _ (n_callbacks _ _ _ _ I) c now t Hc) as (x & Hx & Ha). exists x. unfold timer_tick_fired. rewrite Hx. eexists. split_and!; try done.
  assert (time_of s t = scheduled_time x) as Et by (unfold time_of; by rewrite Hx). destruct I as [I1 I2 I3 I4 I5 I6 I7]. split.
  - intros c'. simpl. rewrite I1. destruct (decide (c = c')) as [->|Hne]; [rewrite lookup_insert_eq, Hc; done | by rewrite lookup_insert_ne].
  - intros c'. destruct (decide (c = c')) as [->|Hne]; [intros _; apply I2; by exists (Calling now t) | rewrite lookup_insert_ne by done; apply I2].
  - apply queues_ok_timer; [done|]. right. split; [by exists x | by rewrite Et].
  - apply armed_put_timer; [by apply armed_mode | right; by rewrite Et].
  - by apply callback_ends.
  - intros c' p' u y Hp' Hu Hy. simpl in Hy. apply lookup_insert_Some in Hy as [[<- <-]|[_ Hy]]; [by left | by apply (I6 c' p' u y)].
  - intros u Hu. destruct (I7 u Hu) as (Hn & y & Hy & Hcy). split; [done|]. simpl. destruct (decide (u = t)) as [->|Hne]; [|exists y; by rewrite lookup_insert_ne].
    exists (set_active (-1) x). rewrite lookup_insert_eq. split; [done|]. simpl. congruence.
Qed.

Lemma timer_tick_end_spec s m w due c d :
  sinv s m w due -> m !! c = Some (Ending d) -> exists s', timer_tick_end c d s = Some s' /\ sinv s' (<[c := Running]> m) w due /\ timers s' = timers s /\ (forall t, queued s' t <-> queued s t).
Proof.
  intros I Hc. destruct (proj2 (n_cpus _ _ _ _ I c)) as [p Hp]; [by exists (Ending d)|]. unfold timer_tick_end. rewrite Hp. cbn [mbind option_bind].
  set (d' := if _ <? _ then _ else _). assert (d' = Z.min (preempt_timer_deadline p) d) as Ed by (unfold d'; destruct (Z.ltb_spec (preempt_timer_deadline p) d); lia).
  eexists. split; [done|]. split_and!; [|done|]; [|intros t; apply (queued_put_percpu c p); [done | apply update_platform_queue]].
  pose proof (sinv_update _ _ _ _ I c p d' Hp) as I1. apply (sinv_other_mode _ _ _ _ _ (Ending d)); try done. intros p' Hp'. simpl in Hp'. rewrite lookup_insert_eq in Hp'.
  injection Hp' as <-. rewrite update_platform_next, update_platform_preempt, update_platform_queue. split; [lia|]. intros t Ht.
  destruct (n_armed _ _ _ _ I c p Hp) as [_ H]. rewrite Hc in H. specialize (H t Ht). unfold time_of in *. simpl. lia.
Qed.

(** ** The preemption timer, processors that go and come back *)

(** What others see of a timer: whether it is in a queue, where it is active and what it
    calls. *)
Definition seen (s : State) (u : Z) : option (Z * option Z) := (fun x => (active_cpu x, callback x)) <$> timers s !! u.
Definition still (u : Z) (s s' : State) : Prop := (queued s' u <-> queued s u) /\ seen s' u = seen s u.

Lemma still_refl u s : still u s s.
Proof. done. Qed.
Lemma still_trans u s1 s2 s3 : still u s1 s2 -> still u s2 s3 -> still u s1 s3.
Proof. intros [Q1 E1] [Q2 E2]. split; [by rewrite Q2 | congruence]. Qed.
Lemma still_others t u s s' : others t s s' -> u <> t -> still u s s'.
Proof. intros Ho Hu. destruct (Ho u Hu) as [E Q]. split; [done | unfold seen; by rewrite E]. Qed.
Lemma still_percpu u c p p' s : percpus s !! c = Some p -> timer_queue p' = timer_queue p -> still u s (put_percpu c p' s).
Proof. intros Hp Hq. split; [by apply (queued_put_percpu c p) | done]. Qed.

Lemma running_percpu s m w due c : sinv s m w due -> m !! c = Some Running -> exists p, percpus s !! c = Some p /\ set_ok p /\
  next_timer_deadline p <= preempt_timer_deadline p /\ forall t, t ∈ timer_queue p -> next_timer_deadline p <= time_of s t.
Proof.
  intros I Hc. destruct (proj2 (n_cpus _ _ _ _ I c)) as [p Hp]; [by exists Running|]. exists p. destruct (n_armed _ _ _ _ I c p Hp) as [H1 H2]. by rewrite Hc in H2.
Qed.

Lemma timer_preempt_reset_inv s m w due c d : sinv s m w due -> m !! c = Some Running -> exists s', timer_preempt_reset c d s = Some s' /\ sinv s' m w due /\ forall u, still u s s'.
Proof.
  intros I Hc. destruct (running_percpu _ _ _ _ c I Hc) as (p & Hp & H1 & H2 & H3). unfold timer_preempt_reset. rewrite Hp. eexists. split; [done|]. split; [|intros u; by apply (still_percpu u c p); rewrite ?update_platform_queue].
  apply (sinv_put_percpu _ _ _ _ I c p); [done | by rewrite update_platform_queue | by apply update_platform_set|]. rewrite Hc, update_platform_next, update_platform_preempt, update_platform_queue.
  simpl. split; [lia|]. intros t Ht. specialize (H3 t Ht). lia.
Qed.

Lemma timer_preempt_cancel_inv s m w due c : sinv s m w due -> m !! c = Some Running -> exists s', timer_preempt_cancel c s = Some s' /\ sinv s' m w due /\ forall u, still u s s'.
Proof.
  intros I Hc. destruct (running_percpu _ _ _ _ c I Hc) as (p & Hp & H1 & H2 & H3). unfold timer_preempt_cancel. rewrite Hp. eexists. split; [done|]. split; [|intros u; by apply (still_percpu u c p); rewrite ?update_platform_queue].
  apply (sinv_put_percpu _ _ _ _ I c p); try done. rewrite Hc. simpl. split; [apply H1 | done].
Qed.

Lemma timer_thaw_inv s m w due c : sinv s m w due -> m !! c = Some Running -> exists s', timer_thaw_percpu c s = Some s' /\ sinv s' m w due /\ forall u, still u s s'.
Proof.
  intros I Hc. destruct (running_percpu _ _ _ _ c I Hc) as (p & Hp & H1 & H2 & H3). unfold timer_thaw_percpu. rewrite Hp. cbn [mbind option_bind]. simpl. eexists. split; [done|]. split; [|intros u; by apply (still_percpu u c p); rewrite ?update_platform_queue].
  set (p0 := set_next _ _ p). set (d := match _ with Some _ => _ | None => _ end).
  assert (d <= preempt_timer_deadline p /\ forall t, t ∈ timer_queue p -> d <= time_of s t) as [D1 D2].
  { unfold d. destruct (head (timer_queue p)) as [h|] eqn:Hh.
    - destruct (head_first _ _ _ _ c p h I Hp Hh) as [_ Hf]. destruct (Z.ltb_spec (time_of s h) (preempt_timer_deadline p)); (split; [lia|]); intros t Ht; specialize (Hf t Ht); lia.
    - split; [lia|]. destruct (timer_queue p); [by intros t ?%not_elem_of_nil | done]. }
  apply (sinv_put_percpu _ _ _ _ I c p); [done | by rewrite update_platform_queue | apply update_platform_set; split; [done | by intros []]|].
  rewrite Hc, update_platform_next, update_platform_preempt, update_platform_queue. simpl. split; [lia|]. intros t Ht. specialize (D2 t Ht). lia.
Qed.

(** Timers of another processor move to this one. *)
Record moved (c : Z) (l : list Z) (s s' : State) : Prop := {
  mv_times : forall u, time_of s' u = time_of s u;
  mv_here : forall p, percpus s !! c = Some p -> exists q, percpus s' !! c = Some (set_queue q p);
  mv_there : forall c' p, c' <> c -> percpus s !! c' = Some p -> exists q, percpus s' !! c' = Some (set_queue q p) /\ forall u, u ∈ q -> u ∈ timer_queue p /\ u ∉ l;
  mv_still : forall u, still u s s';
}.

Lemma move_timer s m w due c t x :
  sinv s m w due -> (exists now, m !! c = Some (Ticking now)) -> queued s t -> timers s !! t = Some x -> active_cpu x = -1 ->
  exists s', insert_timer_in_queue c t (time_of s t) (time_of s t) (list_delete t s) = Some s' /\ sinv s' m w due /\ others t s s' /\ moved c [t] s s'.
Proof.
  intros I [now Hc] Hq Hx Ha. pose proof (sinv_delete _ _ _ _ I t) as I1. destruct (proj2 (n_cpus _ _ _ _ I1 c)) as [p Hp]; [by exists (Ticking now)|].
  assert (time_of s t = scheduled_time x) as Et by (unfold time_of; by rewrite Hx). destruct (k_due _ _ (n_queues _ _ _ _ I) t Hq) as (_ & d & Hd & Hdw).
  rewrite (insert_result c t x p _ _ (list_delete t s) Hx Hp). rewrite Et in *.
  pose proof (insert_walk_spec (time_of (list_delete t s)) t (scheduled_time x) (scheduled_time x) (scheduled_time x) ltac:(lia) ltac:(unfold is_i64; lia) ltac:(unfold is_i64; lia)
                ltac:(unfold is_i64; lia) (timer_queue p)) as Hwk.
  destruct (insert_walk _ _ _ _ _ _) as [[q wh] sl]. specialize (Hwk (proj1 (k_ordered _ _ (n_queues _ _ _ _ I1) c p Hp))).
  pose proof (w_window _ _ _ _ _ _ _ _ _ Hwk). assert (wh = scheduled_time x) as -> by lia. destruct (walked_in _ _ _ _ _ _ _ _ _ Hwk) as [Hin Hoth].
  eexists. split; [done|]. split_and!.
  - apply (sinv_insert _ _ _ _ I1 c p t x q (scheduled_time x) sl (scheduled_time x) (scheduled_time x) d); try done; [by intros [_ H1]%queued_delete | | by left | congruence | congruence].
    intros Hw. by destruct (n_waiting _ _ _ _ I t Hw).
  - eapply others_trans; [apply others_delete | by apply (placed_queues c t _ q p p)].
  - split.
    + intros u. unfold placed. rewrite time_of_put. by destruct (decide (u = t)) as [->|].
    + intros p0 Hp0. exists q. simpl. rewrite lookup_insert_eq. apply percpus_delete in Hp as (p1 & Hp1 & ->). assert (p1 = p0) as -> by congruence. done.
    + intros c' p0 Hne Hp0. eexists. split; [simpl; rewrite lookup_insert_ne, lookup_fmap, Hp0 by done; done|]. intros u [Hu Hin']%list_elem_of_filter.
      split; [done | by intros ->%list_elem_of_singleton].
    + intros u. destruct (decide (u = t)) as [->|Hut].
      * split; [split; [done|]; intros _; exact (proj1 (placed_queues c t _ q p p _ Hp Hin Hoth)) | unfold seen; simpl; by rewrite lookup_insert_eq, Hx].
      * apply (still_others t); [|done]. eapply others_trans; [apply others_delete | by apply (placed_queues c t _ q p p)].
Qed.

Lemma move_timers_spec m w due c l : forall s,
  sinv s m w due -> (exists now, m !! c = Some (Ticking now)) -> NoDup l -> (forall t, t ∈ l -> queued s t /\ exists x, timers s !! t = Some x /\ active_cpu x = -1) ->
  exists s', move_timers c l s = Some s' /\ sinv s' m w due /\ moved c l s s'.
Proof.
  induction l as [|t l IH]; intros s I Hc Hnd Hl; simpl.
  { exists s. split_and!; try done. split; [done | | |done]; [intros p Hp; exists (timer_queue p); by destruct p |].
    intros c' p _ Hp. exists (timer_queue p). split; [by destruct p|]. intros u Hu. split; [done | apply not_elem_of_nil]. }
  apply NoDup_cons in Hnd as [Hnt Hnd]. destruct (Hl t (list_elem_of_here _ _)) as (Hq & x & Hx & Ha).
  destruct (move_timer s m w due c t x I Hc Hq Hx Ha) as (s1 & -> & I1 & Ho & [M1 M2 M3 M7]). cbn [mbind option_bind].
  destruct (IH s1 I1 Hc Hnd) as (s' & -> & I' & [M4 M5 M6 M8]).
  { intros u Hu. assert (u <> t) as Hut by (by intros ->). destruct (Ho u Hut) as [-> ->]. apply Hl. by right. }
  exists s'. split_and!; try done. split.
  - intros u. by rewrite M4, M1.
  - intros p Hp. destruct (M2 p Hp) as [q Hq1]. destruct (M5 _ Hq1) as [q' Hq2]. by exists q'.
  - intros c' p Hne Hp. destruct (M3 c' p Hne Hp) as (q & Hq1 & Hu1). destruct (M6 c' _ Hne Hq1) as (q' & Hq2 & Hu2). exists q'. split; [done|].
    intros u Hu. destruct (Hu2 u Hu) as [Hu3 Hu4]. destruct (Hu1 u Hu3) as [Hu5 Hu6]. split; [done|]. rewrite elem_of_cons. rewrite list_elem_of_singleton in Hu6. tauto.
  - intros u. by eapply still_trans.
Qed.

Lemma timer_transition_inv s m w due c o :
  sinv s m w due -> m !! c = Some Running -> m !! o = Some Running -> c <> o -> exists s', timer_transition_off_cpu c o s = Some s' /\ sinv s' m w due /\ forall u, still u s s'.
Proof.
  intros I Hc Ho Hne. destruct (running_percpu _ _ _ _ c I Hc) as (p & Hp & P1 & P2 & P3). destruct (running_percpu _ _ _ _ o I Ho) as (po & Hpo & _).
  unfold timer_transition_off_cpu. rewrite Hp. cbn [mbind option_bind]. rewrite Hpo. cbn [mbind option_bind].
  assert (sinv s (<[c := Ticking 0]> m) w due) as I0 by (by apply (sinv_other_mode _ _ _ _ _ Running)).
  destruct (move_timers_spec (<[c := Ticking 0]> m) w due c (timer_queue po) s I0) as (s1 & -> & I1 & [M1 M2 M3 M4]).
  { exists 0. apply lookup_insert_eq. }
  { by apply (k_ordered _ _ (n_queues _ _ _ _ I) o po). }
  { intros t Ht. assert (queued s t) as Hq by (by exists o, po). split; [done|]. destruct (k_due _ _ (n_queues _ _ _ _ I) t Hq) as ([x Hx] & _). exists x. split; [done|].
    destruct (n_local _ _ _ _ I o po t x Hpo Ht Hx) as [?|E]; [done|]. destruct (a_active _ _ (n_callbacks _ _ _ _ I) t x Hx) as [?|[n Hn]]; [done | congruence]. }
  cbn [mbind option_bind]. destruct (M2 p Hp) as [q Hq]. destruct (M3 o po) as (qo & Hqo & Hgone); [done..|]. rewrite Hq. cbn [mbind option_bind]. simpl timer_queue.
  assert (qo = []) as -> by (destruct qo as [|a l]; [done | destruct (Hgone a (list_elem_of_here _ _)); done]).
  set (s2 := match head q with Some _ => _ | None => _ end).
  assert (forall u, still u s1 s2) as Hst2.
  { intros u. unfold s2. destruct (head q); [case_bool_decide|]; try done. apply (still_percpu u c (set_queue q p)); [done | by rewrite update_platform_queue]. }
  assert (sinv s2 m w due /\ percpus s2 !! o = Some (set_queue [] po)) as [I2 Hpo2].
  { assert (<[c := Running]> (<[c := Ticking 0]> m) = m) as Em by (rewrite insert_insert_eq; by apply insert_id).
    assert (forall h, head q = Some h -> forall t, t ∈ q -> time_of s1 h <= time_of s1 t) as Hf by (intros h Hh; by apply (head_first _ _ _ _ c _ h I1 Hq)).
    unfold s2. destruct (head q) as [h|] eqn:Eh; [case_bool_decide as Hh|]; (split; [|try done; simpl; by rewrite lookup_insert_ne]); rewrite <- Em.
    - apply (sinv_other_mode _ _ _ _ _ (Ticking 0)); try done; [apply lookup_insert_eq|]. intros p' Hp'. assert (p' = set_queue q p) as -> by congruence. simpl.
      split; [done|]. intros t Ht. specialize (Hf h eq_refl t Ht). destruct (head_first _ _ _ _ c p h I Hp Hh) as [Hin _]. specialize (P3 h Hin). rewrite (M1 h), (M1 t) in Hf. rewrite M1. lia.
    - apply (sinv_other_mode _ _ _ _ _ (Ticking 0)); try done; [by apply (sinv_update _ _ _ _ I1) | apply lookup_insert_eq|]. intros p' Hp'. simpl in Hp'. rewrite lookup_insert_eq in Hp'.
      injection Hp' as <-. rewrite update_platform_next, update_platform_preempt, update_platform_queue. simpl. split; [lia|]. intros t Ht. specialize (Hf h eq_refl t Ht).
      unfold time_of in *. simpl. lia.
    - apply (sinv_other_mode _ _ _ _ _ (Ticking 0)); try done; [apply lookup_insert_eq|]. intros p' Hp'. assert (p' = set_queue q p) as -> by congruence. simpl.
      split; [done|]. destruct q; [by intros t ?%not_elem_of_nil | done]. }
  rewrite Hpo2. eexists. split; [done|].
  split; [|intros u; eapply still_trans; [apply M4 | eapply still_trans; [apply Hst2 | by apply (still_percpu u o (set_queue [] po))]]].
  apply (sinv_put_percpu _ _ _ _ I2 o (set_queue [] po)); try done.
  rewrite Ho. simpl. split; [done|]. by intros t ?%not_elem_of_nil.
Qed.

(** ** Every step *)

Lemma sinv_new s m w due t : sinv s m w due -> timers s !! t = None -> sinv (put_timer t timer_init s) m w due.
Proof.
  intros [I1 I2 I3 I4 I5 I6 I7] Ht. assert (~ queued s t) as Hq by (intros H; destruct (k_due _ _ I3 t H) as ([? ?] & _); congruence). split; try done.
  - apply queues_ok_timer; [done | by left].
  - apply armed_put_timer; [done | by left].
  - destruct I5 as [A1 A2]. split.
    + intros u y Hu. simpl in Hu. apply lookup_insert_Some in Hu as [[<- <-]|[_ Hu]]; [by left | by apply (A1 u y)].
    + intros c now u Hc. destruct (A2 c now u Hc) as (y & Hy & ?). exists y. simpl. rewrite lookup_insert_ne; [done | congruence].
  - intros c p u y Hp Hu Hy. simpl in Hy. apply lookup_insert_Some in Hy as [[<- <-]|[_ Hy]]; [by left | by apply (I6 c p u y)].
  - intros u Hu. destruct (I7 u Hu) as (? & y & Hy & ?). split; [done|]. exists y. simpl. rewrite lookup_insert_ne; [done | congruence].
Qed.

Lemma sinv_free s m w due t : sinv s m w due -> ~ queued s t -> active t s = false -> t ∉ w -> sinv (mkState (delete t (timers s)) (percpus s)) m w due.
Proof.
  intros [I1 I2 I3 I4 I5 I6 I7] Hq Ha Hw. assert (forall c p u, percpus s !! c = Some p -> u ∈ timer_queue p -> u <> t) as Hne by (intros c p u Hp Hu ->; apply Hq; by exists c, p).
  assert (forall u, u <> t -> time_of (mkState (delete t (timers s)) (percpus s)) u = time_of s u) as Ht by (intros u Hu; unfold time_of; simpl; by rewrite lookup_delete_ne).
  split; try done.
  - destruct I3 as [K1 K2 K3]. split; try done.
    + intros c p Hp. destruct (K1 c p Hp). split; [|done]. apply (ordered_ext (time_of s)); [|done]. intros u Hu. symmetry. by apply Ht, (Hne c p).
    + intros u Hu. destruct (K3 u Hu) as (Hs & d & ? & ?). assert (u <> t) as Hut by (by intros ->). split; [simpl; by rewrite lookup_delete_ne|]. exists d. by rewrite Ht.
  - intros c p Hp. destruct (I4 c p Hp) as [H1 H2]. split; [done|]. destruct (m !! c) as [[]|]; try done; [split; [apply H2|]|]; intros u Hu; rewrite Ht by (by apply (Hne c p)); by apply H2.
  - destruct I5 as [A1 A2]. split.
    + intros u y Hu. simpl in Hu. apply lookup_delete_Some in Hu as [_ Hu]. by apply (A1 u y).
    + intros c now u Hc. destruct (A2 c now u Hc) as (y & Hy & Hyc). exists y. simpl. rewrite lookup_delete_ne; [done|]. intros <-. unfold active in Ha. rewrite Hy in Ha.
      assert (0 <= c) by (apply I2; by exists (Calling now t)). rewrite Z.geb_leb in Ha. apply Z.leb_gt in Ha. lia.
  - intros c p u y Hp Hu Hy. simpl in Hy. apply lookup_delete_Some in Hy as [_ Hy]. by apply (I6 c p u y).
  - intros u Hu. destruct (I7 u Hu) as (? & y & Hy & ?). split; [done|]. exists y. simpl. rewrite lookup_delete_ne; [done|]. by intros ->.
Qed.

Lemma not_active_cpu s m w due t x : sinv s m w due -> timers s !! t = Some x -> active t s = false -> active_cpu x = -1.
Proof.
  intros I Hx Ha. unfold active in Ha. rewrite Hx, Z.geb_leb in Ha. apply Z.leb_gt in Ha. destruct (a_active _ _ (n_callbacks _ _ _ _ I) t x Hx) as [?|[n Hn]]; [done|].
  assert (0 <= active_cpu x) by (apply (n_nonneg _ _ _ _ I); by exists (Calling n t)). lia.
Qed.

Lemma timer_cancel_done_spec s m w due t :
  sinv s m w due -> t ∈ w -> active t s = false ->
  exists x, timers s !! t = Some x /\ timer_cancel_done t s = Some (put_timer t (set_callback None x) s) /\ active_cpu x = -1 /\ ~ queued s t /\
    sinv (put_timer t (set_callback None x) s) m (filter (fun u => u <> t) w) due.
Proof.
  intros I Hw Ha. destruct (n_waiting _ _ _ _ I t Hw) as (Hq & x & Hx & Hc). exists x. unfold timer_cancel_done. rewrite Hx. cbn [mbind option_bind].
  pose proof (not_active_cpu s m w due t x I Hx Ha) as Hm. rewrite Hm. split_and!; try done. apply (sinv_unwait _ _ w); [|by intros u [_ ?]%list_elem_of_filter].
  apply (sinv_put_timer _ _ _ _ I t x); try done. by right.
Qed.

Lemma in_code_mode c x : in_code c x = true -> (exists now u, modes x !! c = Some (Calling now u)) \/ modes x !! c = Some Running.
Proof. unfold in_code. destruct (modes x !! c) as [[]|]; try done; [by right | left; by eexists _, _]. Qed.
Lemma in_threads_mode c x : in_threads c x = true -> modes x !! c = Some Running.
Proof. unfold in_threads. by destruct (modes x !! c) as [[]|]. Qed.
Lemma in_callback_mode c t x : in_callback c t x = true -> exists now, modes x !! c = Some (Calling now t).
Proof. unfold in_callback. destruct (modes x !! c) as [[]|]; try done. intros ->%Z.eqb_eq. by eexists. Qed.

(** A step leaves the timers alone that it is not about. *)
Definition about (e : tevent) (u : Z) (x x' : TSys) : Prop :=
  match e with
  | NewTimer v | FreeTimer v | SetTimer _ v _ _ | CancelTimer _ v | CancelDone v => v = u
  | Round c => exists now, modes x' !! c = Some (Calling now u)
  | Fired c => exists now, modes x !! c = Some (Calling now u)
  | _ => False
  end.

Definition unmoved (u : Z) (x x' : TSys) : Prop := still u (state x) (state x') /\ due x' !! u = due x !! u /\ (u ∈ waiting x' <-> u ∈ waiting x).

Lemma still_put_timer v y s u : u <> v -> still u s (put_timer v y s).
Proof. intros Hu. apply (still_others v); [apply others_put_timer | done]. Qed.

Lemma unmoved_state u s x : still u (state x) s -> unmoved u x (with_state s x).
Proof. done. Qed.
Lemma unmoved_mode u c md s x : still u (state x) s -> unmoved u x (with_mode c md s x).
Proof. done. Qed.

Lemma set_timer_inv x c t d cb : tinv x -> tenabled x (SetTimer c t d cb) -> exists x', trun x (SetTimer c t d cb) = Some x' /\ tinv x' /\ forall u, u <> t -> unmoved u x x'.
Proof.
  intros I ([y Hy] & Hd & Hq & He). unfold trun. pose proof Hq as Hnq. apply list_in_list_false in Hnq.
  assert (((exists now u, modes x !! c = Some (Calling now u)) \/ modes x !! c = Some Running) /\
          (active_cpu y = c /\ cancel y = true \/ (t ∉ waiting x) /\ (active_cpu y = -1 \/ active_cpu y = c /\ cancel y = false))) as [Hm [[Ha Hc]|[Hw Ha]]].
  { destruct He as [[now Hc]%in_callback_mode|(Hc%in_code_mode & Ha & Hw)]; split; try done; [by left; exists now, t| |].
    - destruct (a_calling _ _ (n_callbacks _ _ _ _ I) c now t Hc) as (y0 & Hy0 & Ha). assert (y0 = y) as -> by congruence. destruct (cancel y) eqn:Ec; [by left|].
      right. split; [|by right]. intros Hw. destruct (n_waiting _ _ _ _ I t Hw) as (_ & z & Hz & Hcz). congruence.
    - right. split; [done|]. left. by apply (not_active_cpu _ _ _ _ t y I). }
  - unfold timer_set. rewrite Hy. cbn [mbind option_bind]. rewrite Hq, Ha, Z.eqb_refl, Hc. cbn. rewrite Hq. eexists. split; [done|]. split; [by destruct x | done].
  - destruct (timer_set_spec _ _ _ _ c t y d cb I Hy Hd Hnq Hw Ha Hm) as (s' & -> & I' & Hq' & Ho & _). cbn [mbind option_bind].
    rewrite (proj2 (list_in_list_true s' t) Hq'). eexists. split; [done|]. split; [exact I'|]. intros u Hu. split; [by apply (still_others t) | split; [by apply lookup_insert_ne | done]].
Qed.

Lemma cancel_timer_inv x c t : tinv x -> tenabled x (CancelTimer c t) -> exists x', trun x (CancelTimer c t) = Some x' /\ tinv x' /\ forall u, u <> t -> unmoved u x x'.
Proof.
  intros I ([y Hy] & Hc & _). unfold trun. destruct (timer_cancel_spec _ _ _ _ c t y I Hy) as (r & s' & -> & Ho & Hr).
  { destruct (in_code_mode c x Hc) as [(? & ? & ->)| ->]; by eexists. }
  cbn [mbind option_bind]. eexists. split; [done|]. split; [destruct r; apply Hr|]. intros u Hu. split; [by apply (still_others t)|].
  split; [done|]. simpl. destruct r; [done|]. rewrite elem_of_cons. tauto.
Qed.

Lemma tstep x e : tinv x -> tenabled x e -> exists x', trun x e = Some x' /\ tinv x' /\ forall u, ~ about e u x x' -> unmoved u x x'.
Proof.
  intros I He. destruct e.
  4: { destruct (set_timer_inv x cpu t d cb I He) as (x' & ? & ? & H). exists x'. split_and!; try done. intros u Hu. apply H. simpl in Hu. congruence. }
  4: { destruct (cancel_timer_inv x cpu t I He) as (x' & ? & ? & H). exists x'. split_and!; try done. intros u Hu. apply H. simpl in Hu. congruence. }
  all: simpl in He |- *.
  - eexists. split; [done|]. split; [exact I | done].
  - eexists. split; [done|]. split; [by apply sinv_new|]. intros u Hu. apply unmoved_state, still_put_timer. congruence.
  - destruct He as (_ & Hq%list_in_list_false & Ha & Hw). eexists. split; [done|]. split; [by apply sinv_free|]. intros u Hu. apply unmoved_state. split; [done|].
    unfold seen. simpl. rewrite lookup_delete_ne; [done | congruence].
  - destruct He as [Hw Ha]. destruct (timer_cancel_done_spec _ _ _ _ t I Hw Ha) as (y & _ & -> & _ & _ & I'). cbn [mbind option_bind]. eexists. split; [done|]. split; [exact I'|].
    intros u Hu. split; [apply still_put_timer; congruence|]. split; [done|]. simpl. rewrite list_elem_of_filter. intuition congruence.
  - destruct (timer_preempt_reset_inv _ _ _ _ cpu deadline I (in_threads_mode _ _ He)) as (s' & -> & I' & H). eexists. split; [done|]. split; [exact I'|]. intros u _. by apply unmoved_state.
  - destruct (timer_preempt_cancel_inv _ _ _ _ cpu I (in_threads_mode _ _ He)) as (s' & -> & I' & H). eexists. split; [done|]. split; [exact I'|]. intros u _. by apply unmoved_state.
  - destruct (timer_tick_spec _ _ _ _ cpu (clock x) I (in_threads_mode _ _ He)) as (b & s' & -> & I' & Et & Hq). eexists. split; [done|]. split; [exact I'|]. intros u _.
    apply unmoved_mode. split; [apply Hq | unfold seen; by rewrite Et].
  - destruct He as [now Hc]. rewrite Hc. destruct (timer_tick_next_spec _ _ _ _ cpu now I Hc) as ([t|d] & s' & -> & Hr); cbn [mbind option_bind]; eexists; (split; [done|]).
    + destruct Hr as (_ & _ & _ & _ & _ & _ & _ & Ho & I'). split; [exact I'|]. intros u Hu. apply unmoved_mode. apply (still_others t); [done|]. intros ->. apply Hu.
      exists now. simpl. apply lookup_insert_eq.
    + destruct Hr as (-> & I' & _). split; [exact I'|]. intros u _. by apply unmoved_mode.
  - destruct He as (now & t & Hc). rewrite Hc. destruct (timer_tick_fired_spec _ _ _ _ cpu now t I Hc) as (y & s' & _ & _ & -> & -> & I'). eexists. split; [done|]. split; [exact I'|].
    intros u Hu. apply unmoved_mode, still_put_timer. intros ->. apply Hu. by exists now.
  - destruct He as (d & Hc). rewrite Hc. destruct (timer_tick_end_spec _ _ _ _ cpu d I Hc) as (s' & -> & I' & Et & Hq). eexists. split; [done|]. split; [exact I'|]. intros u _.
    apply unmoved_mode. split; [apply Hq | unfold seen; by rewrite Et].
  - destruct He as (Hc%in_threads_mode & Ho%in_threads_mode & Hne). destruct (timer_transition_inv _ _ _ _ cpu old_cpu I Hc Ho Hne) as (s' & -> & I' & H).
    eexists. split; [done|]. split; [exact I'|]. intros u _. by apply unmoved_state.
  - destruct (timer_thaw_inv _ _ _ _ cpu I (in_threads_mode _ _ He)) as (s' & -> & I' & H). eexists. split; [done|]. split; [exact I'|]. intros u _. by apply unmoved_state.
Qed.

Lemma init_lookup {A} (a : A) n c : (list_to_map (map (fun k => (Z.of_nat k, a)) (seq 0 n)) : gmap Z A) !! c = if (0 <=? c) && (c <? Z.of_nat n) then Some a else None.
Proof.
  induction n as [|n IH]; [simpl; rewrite lookup_empty; destruct (Z.leb_spec 0 c), (Z.ltb_spec c (Z.of_nat 0)); try done; lia|].
  rewrite seq_S, map_app, list_to_map_app. simpl. rewrite lookup_union, IH, lookup_insert. destruct (decide (Z.of_nat n = c)) as [<-|Hne].
  - destruct (Z.leb_spec 0 (Z.of_nat n)), (Z.ltb_spec (Z.of_nat n) (Z.of_nat n)), (Z.ltb_spec (Z.of_nat n) (Z.of_nat (S n))); try lia. done.
  - rewrite lookup_empty. destruct (Z.leb_spec 0 c), (Z.ltb_spec c (Z.of_nat n)), (Z.ltb_spec c (Z.of_nat (S n))); try lia; done.
Qed.

Lemma tinit_inv n : tinv (tsys_init n).
Proof.
  unfold tinv, tsys_init. simpl. assert (forall c p, percpus (state (tsys_init n)) !! c = Some p -> p = percpu_init) as Hp.
  { intros c p. simpl. rewrite init_lookup. destruct (_ && _); congruence. }
  split.
  - intros c. simpl. rewrite !init_lookup. by destruct (_ && _).
  - intros c. rewrite init_lookup. destruct (Z.leb_spec 0 c); [done|]. by intros [].
  - split.
    + intros c p ->%(Hp c). split; [constructor | apply NoDup_nil_2].
    + intros c c' p p' t ->%(Hp c) _ ?%not_elem_of_nil. done.
    + intros t (c & p & ->%(Hp c) & ?%not_elem_of_nil). done.
  - intros c p ->%(Hp c). split; [done|]. rewrite init_lookup. destruct (_ && _); [|done]. split; [done|]. by intros t ?%not_elem_of_nil.
  - split; [intros t x; simpl; by rewrite lookup_empty|]. intros c now t. rewrite init_lookup. destruct (_ && _); congruence.
  - intros c p t x ->%(Hp c) ?%not_elem_of_nil. done.
  - intros t ?%not_elem_of_nil. done.
Qed.

Lemma treachable_inv n x : treachable n x -> tinv x.
Proof.
  induction 1 as [|x e x' _ IH He Hr]; [apply tinit_inv|]. destruct (tstep x e IH He) as (x0 & Hx & I & _). congruence.
Qed.

(** Where a timer in a queue is, and when the one-shot timer of its processor goes off. *)
Lemma queued_armed x c p t :
  tinv x -> percpus (state x) !! c = Some p -> t ∈ timer_queue p ->
  ordered (time_of (state x)) (timer_queue p) /\ NoDup (timer_queue p) /\ (forall c' p', percpus (state x) !! c' = Some p' -> t ∈ timer_queue p' -> c' = c) /\
  exists d, due x !! t = Some d /\ earliest d <= time_of (state x) t <= latest d /\
    (modes x !! c = Some Running -> latest d <> ZX_TIME_INFINITE -> valid_deadline d -> exists go, platform p = Some go /\ go <= latest d).
Proof.
  intros I Hp Ht. destruct (k_ordered _ _ (n_queues _ _ _ _ I) c p Hp) as [Ho Hnd]. split_and!; try done.
  { intros c' p' Hp' Ht'. by apply (k_one _ _ (n_queues _ _ _ _ I) c' c p' p t). }
  destruct (k_due _ _ (n_queues _ _ _ _ I) t) as (_ & d & Hd & Hw); [by exists c, p|]. exists d. split_and!; try done; [apply Hw | apply Hw|]. intros Hm Hl Hv.
  destruct (running_percpu _ _ _ _ c I Hm) as (p0 & Hp0 & [H1 H2] & _ & H4). assert (p0 = p) as -> by congruence. specialize (H4 t Ht). exists (next_timer_deadline p).
  destruct Hv as [V1 V2]. destruct (deadline_window d V1 V2) as (_ & _ & _ & _ & _ & _ & V3). unfold is_i64, ZX_TIME_INFINITE in *. split; [apply H2; lia | lia].
Qed.
