(* ===== verification/TimerTheorems.v ===== *)
(** * Correctness of kernel timers: theorems

    Timers are put together with the nearest timer their slack allows; no timer is
    forgotten, fires before its window or stays in a queue when it is due; a timer that
    has been cancelled can be freed. *)

From S2P Require Import Prelude Zx Deadline Timer TimerFacts TimerSystem TimerInv TimerSteps.
Import Timer.

(** ** Coalescing *)

Lemma latest_exact d : valid_deadline d -> latest d <> ZX_TIME_INFINITE -> latest d = when_ d \/ latest d - when_ d = slack_amount (dslack_ d).
Proof.
  intros [Hw Ha] Hl. unfold latest in *. destruct (slack_mode_ (dslack_ d)); [| by left |];
    (rewrite time_add_clamp in * by (done || unfold is_i64; lia); unfold clamp, ZX_TIME_INFINITE, ZX_TIME_INFINITE_PAST, is_i64 in *; lia).
Qed.

(** The walk over the queue of a processor keeps the queue in order and puts
    the timer within its window.  When no timer of the queue is within the window the
    timer keeps the time it was asked for; otherwise it is put together with one that
    is, and no timer within the window that ever fires is nearer to the time asked
    for. *)
Theorem timer_coalesces at_ t d q :
  ordered at_ q -> t ∉ q -> valid_deadline d ->
  let '(q', w, sl) := insert_walk at_ t (when_ d) (earliest d) (latest d) q in
  (exists q1 q2, q = q1 ++ q2 /\ q' = q1 ++ t :: q2) /\ ordered (fun u => if decide (u = t) then w else at_ u) q' /\
  earliest d <= w <= latest d /\ sl = w - when_ d /\
  ((w = when_ d /\ forall u, u ∈ q -> ~ earliest d <= at_ u <= latest d) \/ exists u, u ∈ q /\ at_ u = w) /\
  forall u, u ∈ q -> earliest d <= at_ u <= latest d -> at_ u <> ZX_TIME_INFINITE -> Z.abs (w - when_ d) <= Z.abs (at_ u - when_ d).
Proof.
  intros Ho Hn Hd. destruct (window_diffs d Hd) as (W1 & W2 & W3 & W4). pose proof (insert_walk_spec at_ t _ _ _ W1 W2 W3 W4 q Ho) as Hwk.
  destruct (insert_walk _ _ _ _ _ _) as [[q' w] sl]. destruct Hwk as [(q1 & q2 & Eq & Eq' & H1 & H2 & _) Hw Hsl Ha Hsh Hnear].
  assert (forall u, u ∈ q -> u <> t) as Hne by (intros u Hu ->; done).
  split; [by exists q1, q2|]. split; [|split; [done|]; split; [done|]; split].
  - rewrite Eq'. apply ordered_insert; rewrite ?decide_True by done.
    + rewrite <- Eq. apply (ordered_ext at_); [|done]. intros u Hu. rewrite decide_False; [done | by apply Hne].
    + intros u Hu. rewrite decide_False; [by apply H1 | apply Hne; rewrite Eq; apply elem_of_app; by left].
    + intros u Hu. rewrite decide_False; [by apply H2 | apply Hne; rewrite Eq; apply elem_of_app; by right].
  - destruct (decide (Exists (fun u => earliest d <= at_ u <= latest d) q)) as [Hex|Hno].
    + right. apply Exists_exists in Hex as (u & Hu & Hf). apply Hsh. by exists u.
    + left. assert (forall u, u ∈ q -> ~ earliest d <= at_ u <= latest d) as Hno' by (intros u Hu Hf; apply Hno, Exists_exists; by exists u). split; [by apply Ha | done].
  - intros u Hu Hf Hi. destruct (decide (at_ u < latest d \/ at_ u <= when_ d)) as [Hlt|Hge]; [apply Hnear; [done | unfold compared; lia]|].
    assert (at_ u = latest d) as E by lia. rewrite E in *. destruct (latest_exact d Hd Hi) as [?|Hs]; [lia|].
    destruct Hd as [Hdw Hda]. destruct (deadline_window d Hdw Hda) as (_ & _ & _ & He & _). lia.
Qed.

(** A timer for 100 with a slack of 10 among timers at 80, 93 and 104. *)
Lemma timer_coalesces_witness :
  let at_ u := if u =? 1 then 80 else if u =? 2 then 93 else 104 in
  insert_walk at_ 9 100 90 110 [1; 2; 3] = ([1; 2; 3; 9], 104, 4) /\ Z.abs (104 - 100) <= Z.abs (93 - 100).
Proof.
  intros at_. split; [reflexivity|].
  pose proof (timer_coalesces at_ 9 (mkDeadline 100 (mkSlack 10 TIMER_SLACK_CENTER)) [1; 2; 3]) as H.
  destruct H as (_ & _ & _ & _ & _ & H).
  - unfold ordered. repeat constructor; vm_compute; discriminate.
  - intros Hin. repeat (apply elem_of_cons in Hin as [Hin|Hin]; [discriminate Hin|]). by apply not_elem_of_nil in Hin.
  - split; [split; simpl; lia | simpl; lia].
  - apply (H 2); [apply elem_of_cons; right; apply list_elem_of_here | vm_compute; split; discriminate | vm_compute; discriminate].
Defined.

(** ** No timer is forgotten *)

(** C29: In every state the timers of a system reach, the timers in the queue of a
    processor are in order of time, each in one queue once and at a time within the
    window it was set to; and while the processor runs threads its one-shot timer is set
    to go off no later than any of these windows ends. *)
Theorem timers_are_armed n x c p t :
  treachable n x -> percpus (state x) !! c = Some p -> t ∈ timer_queue p ->
  ordered (time_of (state x)) (timer_queue p) /\ NoDup (timer_queue p) /\ (forall c' p', percpus (state x) !! c' = Some p' -> t ∈ timer_queue p' -> c' = c) /\
  exists d, due x !! t = Some d /\ earliest d <= time_of (state x) t <= latest d /\
    (modes x !! c = Some Running -> latest d <> ZX_TIME_INFINITE -> valid_deadline d -> exists go, platform p = Some go /\ go <= latest d).
Proof.
  intros Hr Hp Ht. apply queued_armed; [by apply (treachable_inv n) | done | done].
Qed.

(** A round of [timer_tick] either calls the callback of a timer whose window
    has begun, or it is the last one, and every timer left in the queue is in the
    future. *)
Theorem timer_tick_serves n x c now x' :
  treachable n x -> modes x !! c = Some (Ticking now) -> trun x (Round c) = Some x' ->
  match modes x' !! c with
  | Some (Calling now' t) => now' = now /\ list_in_list t (state x) = true /\ list_in_list t (state x') = false /\ exists d, due x !! t = Some d /\ earliest d <= now
  | Some (Ending _) => forall p t, percpus (state x') !! c = Some p -> t ∈ timer_queue p -> now < time_of (state x') t
  | _ => False
  end.
Proof.
  intros Hr Hc. pose proof (treachable_inv n x Hr) as I. unfold trun. rewrite Hc. destruct (timer_tick_next_spec _ _ _ _ c now I Hc) as ([t|d] & s' & -> & H); cbn [mbind option_bind];
    intros [= <-]; simpl; rewrite lookup_insert_eq.
  - destruct H as (y & _ & _ & _ & Hq & Hle & Hnq & _). split_and!; [done | by apply list_in_list_true | by apply list_in_list_false|].
    destruct (k_due _ _ (n_queues _ _ _ _ I) t Hq) as (_ & d & Hd & Hw). exists d. split; [done | lia].
  - destruct H as (-> & _ & H). done.
Qed.

(** When [timer_cancel] returns, the timer is in no queue and its callback does
    not run on any processor, so that its memory can be freed. *)
Theorem timer_cancel_is_final n x t :
  treachable n x -> t ∈ waiting x -> active t (state x) = false ->
  exists x', trun x (CancelDone t) = Some x' /\ list_in_list t (state x') = false /\ active t (state x') = false /\ (forall c now, modes x' !! c <> Some (Calling now t)) /\ tenabled x' (FreeTimer t).
Proof.
  intros Hr Hw Ha. pose proof (treachable_inv n x Hr) as I. unfold trun. destruct (timer_cancel_done_spec _ _ _ _ t I Hw Ha) as (y & Hy & -> & Hc & Hq & I'). cbn [mbind option_bind].
  eexists. split; [done|]. simpl. assert (active t (put_timer t (set_callback None y) (state x)) = false) as Ha' by (unfold active; simpl; rewrite lookup_insert_eq; simpl; by rewrite Hc).
  assert (list_in_list t (put_timer t (set_callback None y) (state x)) = false) as Hl by (by apply list_in_list_false). split_and!; try done.
  - intros c now H. destruct (a_calling _ _ (n_callbacks _ _ _ _ I) c now t H) as (z & Hz & Hzc). assert (z = y) as -> by congruence.
    assert (0 <= c) by (apply (n_nonneg _ _ _ _ I); by exists (Calling now t)). lia.
  - rewrite lookup_insert_eq. by eexists.
  - intros H%list_elem_of_filter. by destruct H.
Qed.

(** ** A run on two processors *)

Definition tcan (x : TSys) (e : tevent) : bool :=
  match e with
  | Clock n => clock x <=? n
  | NewTimer t => match timers (state x) !! t with None => true | _ => false end
  | SetTimer c t d _ =>
      match timers (state x) !! t with
      | Some _ => bool_decide (is_i64 (when_ d)) && (0 <=? slack_amount (dslack_ d)) && (slack_amount (dslack_ d) <? 2 ^ 63) && negb (list_in_list t (state x)) &&
                  in_code c x && negb (active t (state x)) && bool_decide (t ∉ waiting x)
      | None => false
      end
  | CancelTimer c t => match timers (state x) !! t with Some _ => in_code c x && bool_decide (t ∉ waiting x) | None => false end
  | Interrupt c => in_threads c x
  | Round c => match modes x !! c with Some (Ticking _) => true | _ => false end
  | Fired c => match modes x !! c with Some (Calling _ _) => true | _ => false end
  | EndTick c => match modes x !! c with Some (Ending _) => true | _ => false end
  | _ => false
  end.

Lemma tcan_enabled x e : tcan x e = true -> tenabled x e.
Proof.
  destruct e; simpl; intros H; try done; b2p; try done.
  - by destruct (timers _ !! _).
  - destruct (timers _ !! _) as [y|] eqn:E; [|done]. b2p. rewrite !bool_decide_eq_true in *. split; [by eexists|]. split; [split; [done | lia]|]. split; [done|]. by right.
  - destruct (timers _ !! _) as [y|] eqn:E; [|done]. b2p. rewrite bool_decide_eq_true in *. split; [by eexists|]. split; [done|]. by right.
  - destruct (modes x !! cpu) as [[]|]; try done. by eexists.
  - destruct (modes x !! cpu) as [[]|]; try done. by eexists _, _.
  - destruct (modes x !! cpu) as [[]|]; try done. by eexists.
Qed.

Fixpoint truns (es : list tevent) (x : TSys) : option TSys :=
  match es with [] => Some x | e :: es => if tcan x e then x ← trun x e; truns es x else None end.

Lemma truns_reachable n es : forall x x', treachable n x -> truns es x = Some x' -> treachable n x'.
Proof.
  induction es as [|e es IH]; intros x x' Hr; simpl; [by intros [= <-]|]. destruct (tcan x e) eqn:Hc; [|done]. destruct (trun x e) as [y|] eqn:Hy; [|done]. cbn [mbind option_bind].
  apply IH. by apply (tr_step n x e y Hr (tcan_enabled _ _ Hc)).
Qed.

Definition soft (w sl : Z) : Deadline := mkDeadline w (mkSlack sl TIMER_SLACK_CENTER).

(** Three timers; the third is put together with the second.  The first is due, and its
    callback runs while the other processor cancels it. *)
Definition three : list tevent := [NewTimer 1; NewTimer 2; NewTimer 3; SetTimer 0 1 (soft 50 0) 1; SetTimer 0 2 (soft 100 0) 2; SetTimer 0 3 (soft 95 10) 3].
Definition cancelling : list tevent := three ++ [Clock 60; Interrupt 0; Round 0; CancelTimer 1 1].
Definition set3 : TSys := default (tsys_init 2) (truns three (tsys_init 2)).
Definition ticking : TSys := default (tsys_init 2) (truns (three ++ [Clock 60; Interrupt 0]) (tsys_init 2)).
Definition cancelled : TSys := default (tsys_init 2) (truns (cancelling ++ [Fired 0]) (tsys_init 2)).

Lemma run_reachable es x : truns es (tsys_init 2) = Some x -> treachable 2 x.
Proof. apply truns_reachable, tr_init. Qed.

Definition percpu_of (x : TSys) (c : Z) : percpu := default percpu_init (percpus (state x) !! c).

Lemma timers_are_armed_witness : timer_queue (percpu_of set3 0) = [1; 2; 3] /\ time_of (state set3) 3 = 100 /\ exists go, platform (percpu_of set3 0) = Some go /\ go <= 105.
Proof.
  assert (treachable 2 set3) as Hr by (apply (run_reachable three); vm_compute; reflexivity).
  assert (percpus (state set3) !! 0 = Some (percpu_of set3 0)) as Hp by (vm_compute; reflexivity).
  assert (timer_queue (percpu_of set3 0) = [1; 2; 3]) as Hq by (vm_compute; reflexivity). split; [exact Hq|]. split; [vm_compute; reflexivity|].
  destruct (timers_are_armed 2 set3 0 (percpu_of set3 0) 3 Hr Hp) as (_ & _ & _ & d & Hd & _ & H).
  - rewrite Hq. apply elem_of_cons. right. apply elem_of_cons. right. apply list_elem_of_here.
  - assert (due set3 !! 3 = Some (soft 95 10)) as E by (vm_compute; reflexivity). assert (d = soft 95 10) as -> by congruence.
    apply H; [vm_compute; reflexivity | vm_compute; discriminate | split; [split; vm_compute; done | vm_compute; done]].
Defined.

Lemma timer_tick_serves_witness : exists x', trun ticking (Round 0) = Some x' /\ modes x' !! 0 = Some (Calling 60 1) /\ list_in_list 1 (state x') = false.
Proof.
  assert (treachable 2 ticking) as Hr by (apply (run_reachable (three ++ [Clock 60; Interrupt 0])); vm_compute; reflexivity).
  destruct (trun ticking (Round 0)) as [x'|] eqn:Ex; [|vm_compute in Ex; discriminate Ex]. exists x'. split; [reflexivity|].
  pose proof (timer_tick_serves 2 ticking 0 60 x' Hr ltac:(vm_compute; reflexivity) Ex) as H.
  assert (modes x' !! 0 = Some (Calling 60 1)) as Hm by (vm_compute in Ex; injection Ex as <-; vm_compute; reflexivity). rewrite Hm in H. split; [exact Hm | apply H].
Defined.

Lemma timer_cancel_is_final_witness : exists x', trun cancelled (CancelDone 1) = Some x' /\ tenabled x' (FreeTimer 1).
Proof.
  assert (treachable 2 cancelled) as Hr by (apply (run_reachable (cancelling ++ [Fired 0])); vm_compute; reflexivity).
  destruct (timer_cancel_is_final 2 cancelled 1 Hr) as (x' & H1 & _ & _ & _ & H2); [vm_compute; apply list_elem_of_here | vm_compute; reflexivity|].
  exists x'. split; [exact H1 | exact H2].
Defined.
