(* ===== verification/TimerDispatcher.v ===== *)
(** * TimerDispatcher

    [object/timer_dispatcher.cc] with the part of [kernel/dpc.cc] it needs, on top of the
    kernel timers.  A [TimerDispatcher] contains its kernel timer and its deferred
    procedure call; all three have one address.  Kernel timers and calls do not know
    reference counts, so the dispatcher holds a reference to itself from the time it
    sets the timer until its call has run.  [timer_cancel] may have to wait in the
    middle of an operation, with the lock held: [lock] says where.  [None] is a failed
    assertion, a panic or the use of an object that has been deleted. *)

From S2P Require Import Prelude Zx Deadline Timer TimerSystem.
Import Timer.

Module TimerDispatcher.

Record TimerDispatcher := mkTD {
  options_ : Z;
  deadline_ : Z;
  slack_amount_ : Z;
  cancel_pending_ : bool;
  signals_ : Z;
}.

Definition UpdateStateLocked (clear set : Z) (o : TimerDispatcher) : TimerDispatcher :=
  mkTD (options_ o) (deadline_ o) (slack_amount_ o) (cancel_pending_ o) ((signals_ o .&~ clear) .| set).
Definition set_deadline (d s : Z) (o : TimerDispatcher) : TimerDispatcher := mkTD (options_ o) d s (cancel_pending_ o) (signals_ o).
Definition set_pending (b : bool) (o : TimerDispatcher) : TimerDispatcher := mkTD (options_ o) (deadline_ o) (slack_amount_ o) b (signals_ o).

Definition Create (options : Z) (alloc : bool) : zx_status_t + TimerDispatcher :=
  if options >? ZX_TIMER_SLACK_LATE then inl ZX_ERR_INVALID_ARGS
  else if negb alloc then inl ZX_ERR_NO_MEMORY
  else inr (mkTD options 0 0 false 0).

(** Up to [timer_cancel], if it is called. *)
Definition CancelTimerLocked (o : TimerDispatcher) : bool * TimerDispatcher :=
  let o := UpdateStateLocked ZX_TIMER_SIGNALED 0 o in
  if deadline_ o =? 0 then (false, o)
  else
    let o := set_deadline 0 0 o in
    if cancel_pending_ o then (false, o) else (true, o).

(** After it: whether to drop the reference that the timer had. *)
Definition CancelTimerLocked_done (timer_canceled : bool) (o : TimerDispatcher) : bool * TimerDispatcher :=
  if timer_canceled then (true, o) else (false, set_pending true o).

(** What [SetTimerLocked] gives to [timer_set]. *)
Definition slackDeadline (o : TimerDispatcher) : option Deadline :=
  mode ← (if options_ o =? ZX_TIMER_SLACK_CENTER then Some TIMER_SLACK_CENTER
          else if options_ o =? ZX_TIMER_SLACK_EARLY then Some TIMER_SLACK_EARLY
          else if options_ o =? ZX_TIMER_SLACK_LATE then Some TIMER_SLACK_LATE else None);
  Some (mkDeadline (deadline_ o) (mkSlack (slack_amount_ o) mode)).

(** [Set] after [CancelTimerLocked]: whether it is to set the timer. *)
Definition Set_ (now deadline slack_amount : Z) (o : TimerDispatcher) : bool * TimerDispatcher :=
  if (deadline =? 0) || (deadline <=? now) then (false, UpdateStateLocked 0 ZX_TIMER_SIGNALED o)
  else
    let o := set_deadline deadline slack_amount o in
    (negb (cancel_pending_ o), o).

(** [OnTimerFired] with the lock: whether it is to set the timer again. *)
Definition OnTimerFired (o : TimerDispatcher) : bool * TimerDispatcher :=
  if cancel_pending_ o then let o := set_pending false o in (negb (deadline_ o =? 0), o)
  else (false, set_deadline 0 0 (UpdateStateLocked 0 ZX_TIMER_SIGNALED o)).

Definition GetInfo (o : TimerDispatcher) : Z * Z * Z := (options_ o, deadline_ o, slack_amount_ o).

(** ** Timer objects in a system *)

(** Where the holder of the lock waits in [timer_cancel]: called by [CancelTimerLocked],
    with the result, in [Set], [Cancel] and [on_zero_handles]; by [SetTimerLocked] in
    [Set] and [OnTimerFired]; by [on_zero_handles] itself. *)
Inductive lock_state :=
| free
| set_cancels (canceled : bool) (deadline slack_amount : Z)
| set_sets
| cancel_cancels (canceled : bool)
| zero_cancels (canceled : bool)
| zero_waits
| fired_sets (cpu : Z).

(** [users]: threads in system calls with a reference to the object, besides the one
    that has the lock.  [closing]: the last handle has been closed and its reference is
    still there.  [irq]: the callback of the timer has queued the call and has not
    returned. *)
Record object := mkObject {
  td : TimerDispatcher;
  refs : Z;
  has_handle : bool;
  closing : bool;
  users : Z;
  lock : lock_state;
  irq : bool;
}.

Definition with_td (t : TimerDispatcher) (o : object) : object := mkObject t (refs o) (has_handle o) (closing o) (users o) (lock o) (irq o).
Definition with_refs (n : Z) (o : object) : object := mkObject (td o) n (has_handle o) (closing o) (users o) (lock o) (irq o).
Definition with_handle (h c : bool) (o : object) : object := mkObject (td o) (refs o) h c (users o) (lock o) (irq o).
Definition with_users (n : Z) (o : object) : object := mkObject (td o) (refs o) (has_handle o) (closing o) n (lock o) (irq o).
Definition with_lock (l : lock_state) (o : object) : object := mkObject (td o) (refs o) (has_handle o) (closing o) (users o) l (irq o).
Definition with_irq (b : bool) (o : object) : object := mkObject (td o) (refs o) (has_handle o) (closing o) (users o) (lock o) b.

(** A deferred call that its thread runs: before it has the lock of the object, while it
    sets the timer, before it drops its reference. *)
Inductive stage := starting | setting | releasing.

#[global] Instance stage_eq_dec : EqDecision stage.
Proof. solve_decision. Defined.

(** [dpcs]: the calls in the lists of the processors, [dpc_threads]: those that run. *)
Record DSys := mkDSys {
  tsys : TSys;
  objects : gmap Z object;
  dpcs : list (Z * Z);
  dpc_threads : list (Z * (Z * stage));
}.

Definition with_tsys (t : TSys) (x : DSys) : DSys := mkDSys t (objects x) (dpcs x) (dpc_threads x).
Definition put (a : Z) (o : object) (x : DSys) : DSys := mkDSys (tsys x) (<[a := o]> (objects x)) (dpcs x) (dpc_threads x).

Definition dpc_in_list (a : Z) (x : DSys) : bool := bool_decide (a ∈ map snd (dpcs x)).

(** [dpc_queue] on the processor [cpu]. *)
Definition dpc_queue (cpu a : Z) (x : DSys) : DSys :=
  if dpc_in_list a x then x else mkDSys (tsys x) (objects x) (dpcs x ++ [(cpu, a)]) (dpc_threads x).

(** The thread of [cpu] takes the first call of its list. *)
Fixpoint take_dpc (cpu : Z) (l : list (Z * Z)) : option (Z * list (Z * Z)) :=
  match l with
  | [] => None
  | (c, a) :: l => if c =? cpu then Some (a, l) else '(b, l) ← take_dpc cpu l; Some (b, (c, a) :: l)
  end.

Definition drop_thread (cpu : Z) (l : list (Z * (Z * stage))) : list (Z * (Z * stage)) := filter (fun e => e.1 <> cpu) l.

(** [dpc_shutdown_transition_off_cpu] *)
Definition move_dpcs (cpu old_cpu : Z) (l : list (Z * Z)) : list (Z * Z) :=
  filter (fun e => e.1 <> old_cpu) l ++ map (fun e => (cpu, e.2)) (filter (fun e => e.1 = old_cpu) l).

(** A reference is dropped; with the last one the object is deleted, its timer and its
    call with it. *)
Definition Release (a : Z) (x : DSys) : option DSys :=
  o ← objects x !! a;
  let o := with_refs (refs o - 1) o in
  if negb (refs o =? 0) then Some (put a o x)
  else if negb ((deadline_ (td o) =? 0) && (slack_amount_ (td o) =? 0)) then None
  else if list_in_list a (state (tsys x)) || active a (state (tsys x)) || dpc_in_list a x then None
  else
    t ← trun (tsys x) (FreeTimer a);
    Some (mkDSys t (delete a (objects x)) (dpcs x) (dpc_threads x)).

(** [timer_cancel] on the timer of the object, up to where it waits. *)
Definition start_cancel (cpu a : Z) (l : bool -> lock_state) (x : DSys) : option DSys :=
  o ← objects x !! a;
  let t := tsys x in
  '(r, s) ← timer_cancel cpu a (state t);
  match r with
  | inl _ => None
  | inr b => Some (put a (with_lock (l b) o) (with_tsys (mkTSys s (modes t) (a :: waiting t) (clock t) (due t)) x))
  end.

(** [timer_set] in [SetTimerLocked]. *)
Definition set_timer (cpu a : Z) (x : DSys) : option DSys :=
  o ← objects x !! a;
  d ← slackDeadline (td o);
  t ← trun (tsys x) (SetTimer cpu a d a);
  Some (with_tsys t x).

(** The lock is let go, by a thread in a system call. *)
Definition unlock (a : Z) (x : DSys) : option DSys :=
  o ← objects x !! a;
  Some (put a (with_users (users o + 1) (with_lock free o)) x).

(** The rest of [Set]. *)
Definition finish_set (cpu a deadline slack_amount : Z) (did_cancel : bool) (x : DSys) : option DSys :=
  o ← objects x !! a;
  let '(sets, t) := Set_ (clock (tsys x)) deadline slack_amount (td o) in
  let x := put a (with_td t o) x in
  if sets : bool then
    let x := put a (with_refs (refs o + 1) (with_td t o)) x in
    if did_cancel then x ← set_timer cpu a x; unlock a x else start_cancel cpu a (fun _ => set_sets) x
  else unlock a x.

(** The end of [CancelTimerLocked] after its [timer_cancel]. *)
Definition finish_cancel (a : Z) (canceled : bool) (x : DSys) : option DSys :=
  o ← objects x !! a;
  let '(drops, t) := CancelTimerLocked_done canceled (td o) in
  let o := with_td t o in
  if drops : bool then
    if refs o - 1 =? 0 then None else Some (put a (with_refs (refs o - 1) o) x)
  else Some (put a o x).

(** The end of [on_zero_handles]; the reference of the handle is dropped next. *)
Definition finish_zero (a : Z) (x : DSys) : option DSys :=
  o ← objects x !! a;
  Release a (put a (with_handle false false (with_lock free o)) x).

Inductive devent :=
| Timers (e : tevent)
| CreateTimer (a options : Z)
| Enter (a : Z)
| Leave (a : Z)
| CallSet (cpu a deadline slack_amount : Z)
| CallCancel (cpu a : Z)
| Close (a : Z)
| ZeroHandles (cpu a : Z)
| Continue (cpu a : Z)
| Irq (cpu : Z)
| TakeDpc (cpu : Z)
| RunDpc (cpu : Z)
| DropDpc (cpu : Z)
| MoveDpcs (cpu old_cpu : Z).

Definition object_is (f : object -> bool) (a : Z) (x : DSys) : bool := match objects x !! a with Some o => f o | None => false end.
Definition is_free (o : object) : bool := match lock o with free => true | _ => false end.

(** Other code uses other timers; the callback of the timer of an object returns once it
    has queued the call. *)
Definition timers_enabled (e : tevent) (x : DSys) : Prop :=
  match e with
  | NewTimer t | FreeTimer t | SetTimer _ t _ _ | CancelTimer _ t | CancelDone t => objects x !! t = None
  | Fired c => forall now t o, modes (tsys x) !! c = Some (Calling now t) -> objects x !! t = Some o -> irq o = true
  | _ => True
  end.

Definition denabled (x : DSys) (e : devent) : Prop :=
  let t := tsys x in
  match e with
  | Timers e => tenabled t e /\ timers_enabled e x
  | CreateTimer a options => timers (state t) !! a = None /\ 0 <= options
  | Enter a => object_is has_handle a x = true
  | Leave a => object_is (fun o => 0 <? users o) a x = true
  | CallSet c a d s => object_is (fun o => (0 <? users o) && is_free o) a x = true /\ in_threads c t = true /\ is_i64 d /\ 0 <= s < 2 ^ 63
  | CallCancel c a => object_is (fun o => (0 <? users o) && is_free o) a x = true /\ in_threads c t = true
  | Close a => object_is has_handle a x = true
  | ZeroHandles c a => object_is (fun o => closing o && is_free o) a x = true /\ in_threads c t = true
  | Continue c a => object_is (fun o => negb (is_free o)) a x = true /\ in_threads c t = true /\ active a (state t) = false
  | Irq c => exists now a o, modes t !! c = Some (Calling now a) /\ objects x !! a = Some o /\ irq o = false
  | TakeDpc c => in_threads c t = true /\ (forall e, (c, e) ∉ dpc_threads x) /\ c ∈ map fst (dpcs x)
  | RunDpc c => in_threads c t = true /\ exists a, (c, (a, starting)) ∈ dpc_threads x /\ object_is is_free a x = true
  | DropDpc c => in_threads c t = true /\ exists a, (c, (a, releasing)) ∈ dpc_threads x
  | MoveDpcs c o => in_threads c t = true /\ in_threads o t = true /\ c <> o
  end.

Definition thread_dpc (cpu : Z) (x : DSys) : option (Z * stage) := snd <$> find (fun e => e.1 =? cpu) (dpc_threads x).

Definition drun (x : DSys) (e : devent) : option DSys :=
  match e with
  | Timers (Fired c) =>
      t ← trun (tsys x) (Fired c);
      let x' := with_tsys t x in
      Some match modes (tsys x) !! c with
           | Some (Calling _ a) => match objects x !! a with Some o => put a (with_irq false o) x' | None => x' end
           | _ => x'
           end
  | Timers e => t ← trun (tsys x) e; Some (with_tsys t x)
  | CreateTimer a options =>
      match Create options true with
      | inl _ => Some x
      | inr t => s ← trun (tsys x) (NewTimer a); Some (put a (mkObject t 1 true false 0 free false) (with_tsys s x))
      end
  | Enter a => o ← objects x !! a; Some (put a (with_users (users o + 1) (with_refs (refs o + 1) o)) x)
  | Leave a => o ← objects x !! a; Release a (put a (with_users (users o - 1) o) x)
  | CallSet c a d s =>
      o ← objects x !! a;
      let '(cancels, t) := CancelTimerLocked (td o) in
      let x := put a (with_users (users o - 1) (with_td t o)) x in
      if cancels : bool then start_cancel c a (fun b => set_cancels b d s) x else finish_set c a d s false x
  | CallCancel c a =>
      o ← objects x !! a;
      let '(cancels, t) := CancelTimerLocked (td o) in
      let x := put a (with_users (users o - 1) (with_td t o)) x in
      if cancels : bool then start_cancel c a cancel_cancels x else unlock a x
  | Close a => o ← objects x !! a; Some (put a (with_handle false true o) x)
  | ZeroHandles c a =>
      o ← objects x !! a;
      let '(cancels, t) := CancelTimerLocked (td o) in
      let x := put a (with_td t o) x in
      start_cancel c a (if cancels : bool then zero_cancels else fun _ => zero_waits) x
  | Continue c a =>
      o ← objects x !! a;
      t ← trun (tsys x) (CancelDone a);
      let x := with_tsys t x in
      match lock o with
      | free => None
      | set_cancels b d s => x ← finish_cancel a b x; finish_set c a d s true x
      | set_sets => x ← set_timer c a x; unlock a x
      | cancel_cancels b => x ← finish_cancel a b x; unlock a x
      | zero_cancels b => x ← finish_cancel a b x; finish_zero a x
      | zero_waits => finish_zero a x
      | fired_sets cpu =>
          x ← set_timer c a x;
          o ← objects x !! a;
          Some (mkDSys (tsys x) (<[a := with_lock free o]> (objects x)) (dpcs x) (drop_thread cpu (dpc_threads x)))
      end
  | Irq c =>
      match modes (tsys x) !! c with
      | Some (Calling _ a) =>
          o ← objects x !! a;
          y ← timers (state (tsys x)) !! a;
          b ← callback y;
          Some (dpc_queue c b (put a (with_irq true o) x))
      | _ => None
      end
  | TakeDpc c =>
      '(a, l) ← take_dpc c (dpcs x);
      Some (mkDSys (tsys x) (objects x) l ((c, (a, starting)) :: dpc_threads x))
  | RunDpc c =>
      '(a, _) ← thread_dpc c x;
      o ← objects x !! a;
      let '(sets, t) := OnTimerFired (td o) in
      let rest := drop_thread c (dpc_threads x) in
      if sets : bool then start_cancel c a (fun _ => fired_sets c) (mkDSys (tsys x) (<[a := with_td t o]> (objects x)) (dpcs x) ((c, (a, setting)) :: rest))
      else Some (mkDSys (tsys x) (<[a := with_td t o]> (objects x)) (dpcs x) ((c, (a, releasing)) :: rest))
  | DropDpc c =>
      '(a, _) ← thread_dpc c x;
      Release a (mkDSys (tsys x) (objects x) (dpcs x) (drop_thread c (dpc_threads x)))
  | MoveDpcs c o => Some (mkDSys (tsys x) (objects x) (move_dpcs c o (dpcs x)) (dpc_threads x))
  end.

Definition dsys_init (n : nat) : DSys := mkDSys (tsys_init n) ∅ [] [].

Inductive dreachable (n : nat) : DSys -> Prop :=
| dr_init : dreachable n (dsys_init n)
| dr_step x e x' : dreachable n x -> denabled x e -> drun x e = Some x' -> dreachable n x'.

End TimerDispatcher.
