(* ===== verification/TimerDispatcherFacts.v ===== *)
(** * Correctness of TimerDispatcher: the invariant

    A set timer has one token: it is in a queue of kernel timers, in a callback, in a
    list of deferred calls, in a call that has just begun, or with the holder of the
    lock of the object.  The token stands for the reference that keeps the object
    alive. *)

From S2P Require Import Prelude Zx Deadline Timer TimerFacts TimerSystem TimerInv TimerSteps TimerDispatcher.
Import Timer TimerDispatcher.

Definition zb (b : bool) : Z := if b then 1 else 0.

(** The token and the reference that the holder of the lock has, and the processor
    whose call it is. *)
Definition token_of (l : lock_state) : Z :=
  match l with set_cancels b _ _ | cancel_cancels b | zero_cancels b => zb b | set_sets | fired_sets _ => 1 | free | zero_waits => 0 end.
Definition user_of (l : lock_state) : Z := match l with set_cancels _ _ _ | cancel_cancels _ | set_sets => 1 | _ => 0 end.
Definition caller_of (l : lock_state) : option Z := match l with fired_sets c => Some c | _ => None end.

Definition in_queue (x : DSys) (a : Z) : Z := zb (list_in_list a (state (tsys x))).
Definition in_call (x : DSys) (a : Z) (o : object) : Z := zb (active a (state (tsys x)) && negb (irq o)).
Definition tokens (x : DSys) (a : Z) (o : object) : Z :=
  in_queue x a + in_call x a o + times a (map snd (dpcs x)) + times (a, starting) (map snd (dpc_threads x)).

Definition fields_ok (o : TimerDispatcher) : Prop :=
  0 <= options_ o <= 2 /\ is_i64 (deadline_ o) /\ 0 <= slack_amount_ o < 2 ^ 63 /\ (deadline_ o = 0 -> slack_amount_ o = 0).

(** The references and the token, when the thread that works on the object has [u]
    references and [h] tokens. *)
Record acc (x : DSys) (a : Z) (o : object) (h u : Z) (cl : option Z) : Prop := {
  c_refs : refs o = zb (has_handle o) + zb (closing o) + users o + u + times (a, releasing) (map snd (dpc_threads x)) + tokens x a o + h;
  c_one : tokens x a o + h <= 1;
  c_h : 0 <= h;
  c_users : 0 <= users o;
  c_handle : has_handle o = true -> closing o = false;
  c_fields : fields_ok (td o);
  c_setting : forall c, (c, (a, setting)) ∈ dpc_threads x <-> cl = Some c;
  c_irq : irq o = true -> exists c now, modes (tsys x) !! c = Some (Calling now a) /\ (c, a) ∈ dpcs x;
  c_timer : exists y, timers (state (tsys x)) !! a = Some y /\ (0 < in_queue x a + in_call x a o -> callback y = Some a);
}.

Definition lock_ok (o : object) : Prop :=
  let t := td o in
  match lock o with
  | free => True
  | set_cancels _ d s => deadline_ t = 0 /\ cancel_pending_ t = false /\ is_i64 d /\ 0 <= s < 2 ^ 63
  | cancel_cancels _ => deadline_ t = 0 /\ cancel_pending_ t = false
  | zero_cancels _ => deadline_ t = 0 /\ cancel_pending_ t = false /\ closing o = true
  | set_sets | fired_sets _ => deadline_ t <> 0 /\ cancel_pending_ t = false
  | zero_waits => deadline_ t = 0 /\ closing o = true
  end.

(** Whether there is a token. *)
Definition pending (o : object) : bool :=
  match lock o with free | zero_waits => negb (deadline_ (td o) =? 0) || cancel_pending_ (td o) | _ => true end.

(** What an object whose lock is free says of its timer. *)
Record free_ok (x : DSys) (a : Z) (t : TimerDispatcher) : Prop := {
  f_queued : cancel_pending_ t = true -> in_queue x a = 0;
  f_due : cancel_pending_ t = false -> deadline_ t <> 0 ->
    exists d, slackDeadline t = Some d /\ due (tsys x) !! a = Some d /\ (in_queue x a = 0 -> earliest d <= clock (tsys x));
}.

Record obj_ok (x : DSys) (a : Z) (o : object) : Prop := {
  o_acc : acc x a o (token_of (lock o)) (user_of (lock o)) (caller_of (lock o));
  o_lock : lock_ok o;
  o_pending : tokens x a o + token_of (lock o) = zb (pending o);
  o_waiting : a ∈ waiting (tsys x) <-> lock o <> free;
  o_free : lock o = free -> free_ok x a (td o);
}.

(** All but the object that is being worked on. *)
Record rest_ok (x : DSys) (ex : option Z) : Prop := {
  r_timers : tinv (tsys x);
  r_objects : forall b o, ex <> Some b -> objects x !! b = Some o -> obj_ok x b o;
  r_dpcs : forall b, b ∈ map snd (dpcs x) -> is_Some (objects x !! b);
  r_threads : forall c b st, (c, (b, st)) ∈ dpc_threads x -> is_Some (objects x !! b);
  r_one : NoDup (map fst (dpc_threads x));
  r_now : forall c, match modes (tsys x) !! c with Some (Ticking now) | Some (Calling now _) => now <= clock (tsys x) | _ => True end;
}.

Definition dinv (x : DSys) : Prop := rest_ok x None.

Lemma dinv_split x a o : dinv x -> objects x !! a = Some o -> rest_ok x (Some a) /\ obj_ok x a o.
Proof. intros [R1 R2 R3 R4 R5 R6] Ha. split; [split; try done; intros b o' _; by apply R2 | by apply R2]. Qed.

Lemma dinv_join x a o : rest_ok x (Some a) -> objects x !! a = Some o -> obj_ok x a o -> dinv x.
Proof.
  intros [R1 R2 R3 R4 R5 R6] Ha Ho. split; try done. intros b o' _ Hb. destruct (decide (b = a)) as [->|Hne]; [congruence | apply R2; [congruence | done]].
Qed.

(** ** Frames *)

Lemma active_seen s s' u : still u s s' -> active u s' = active u s.
Proof. intros [_ E]. unfold active, seen in *. destruct (timers s' !! u), (timers s !! u); simpl in E; try done. by injection E as ->. Qed.

Lemma list_in_list_still s s' u : still u s s' -> list_in_list u s' = list_in_list u s.
Proof. intros [Q _]. apply eq_true_iff_eq. by rewrite !list_in_list_true. Qed.

(** A step that leaves the timer of the object, its calls and the object alone. *)
Record quiet (b : Z) (o : object) (x x' : DSys) : Prop := {
  q_timer : unmoved b (tsys x) (tsys x');
  q_clock : clock (tsys x) <= clock (tsys x');
  q_modes : forall c now, irq o = true -> modes (tsys x) !! c = Some (Calling now b) -> modes (tsys x') !! c = Some (Calling now b);
  q_dpcs : times b (map snd (dpcs x')) = times b (map snd (dpcs x)) /\ (irq o = true -> forall c, (c, b) ∈ dpcs x -> (exists now, modes (tsys x) !! c = Some (Calling now b)) -> (c, b) ∈ dpcs x');
  q_threads : forall st, times (b, st) (map snd (dpc_threads x')) = times (b, st) (map snd (dpc_threads x));
  q_setting : forall c, (c, (b, setting)) ∈ dpc_threads x' <-> (c, (b, setting)) ∈ dpc_threads x;
}.

Lemma tokens_quiet b o x x' : quiet b o x x' -> in_queue x' b = in_queue x b /\ in_call x' b o = in_call x b o /\ tokens x' b o = tokens x b o.
Proof.
  intros [[Hs _] _ _ [Hd _] Ht _]. unfold tokens, in_queue, in_call. rewrite (list_in_list_still _ _ _ Hs), (active_seen _ _ _ Hs), Hd, Ht. done.
Qed.

Lemma acc_quiet b o x x' h u cl : quiet b o x x' -> acc x b o h u cl -> acc x' b o h u cl.
Proof.
  intros Q [C1 C2 C3 C4 C9 C5 C6 C7 C8]. destruct (tokens_quiet b o x x' Q) as (E1 & E2 & E3). destruct Q as [[[_ Hs] _] Hc Hm [_ Hd] Ht Hse]. split; try done.
  - by rewrite Ht, E3.
  - by rewrite E3.
  - intros c. by rewrite Hse.
  - intros Hi. destruct (C7 Hi) as (c & now & Hc1 & Hc2). exists c, now. split; [by apply Hm | apply Hd; try done; by exists now].
  - rewrite E1, E2. destruct C8 as (y & Hy & Hcb). unfold seen in Hs. rewrite Hy in Hs. destruct (timers (state (tsys x')) !! b) as [y'|]; [|done]. exists y'. split; [done|].
    simpl in Hs. injection Hs as _ ->. done.
Qed.

Lemma free_ok_quiet b o x x' t : quiet b o x x' -> free_ok x b t -> free_ok x' b t.
Proof.
  intros Q [F1 F2]. destruct (tokens_quiet b o x x' Q) as (E1 & _ & _). destruct Q as [(_ & Hd & _) Hc _ _ _ _]. split; [by rewrite E1|].
  intros Hp Hn. destruct (F2 Hp Hn) as (d & ? & ? & H). exists d. rewrite E1, Hd. split_and!; try done. intros Hq. specialize (H Hq). lia.
Qed.

Lemma obj_ok_quiet b o x x' : quiet b o x x' -> obj_ok x b o -> obj_ok x' b o.
Proof.
  intros Q [O1 O2 O3 O4 O5]. destruct (tokens_quiet b o x x' Q) as (_ & _ & E3). split; try done.
  - by apply (acc_quiet b o x).
  - by rewrite E3.
  - rewrite <- O4. apply (q_timer _ _ _ _ Q).
  - intros Hf. by apply (free_ok_quiet b o x), O5.
Qed.

(** Only the object, and what its lock protects, changes. *)
Lemma acc_object x x' a o o' h u h' u' cl :
  acc x a o h u cl -> tsys x' = tsys x -> dpcs x' = dpcs x -> dpc_threads x' = dpc_threads x -> irq o' = irq o -> fields_ok (td o') -> 0 <= users o' -> 0 <= h' <= h -> (has_handle o' = true -> closing o' = false) ->
  refs o' - zb (has_handle o') - zb (closing o') - users o' - u' - h' = refs o - zb (has_handle o) - zb (closing o) - users o - u - h ->
  acc x' a o' h' u' cl.
Proof.
  intros [C1 C2 C3 C4 C9 C5 C6 C7 C8] Et Ed Eth Ei Hf Hu Hh Hhc Hr. unfold tokens, in_queue, in_call in *. split; unfold tokens, in_queue, in_call; rewrite ?Et, ?Ed, ?Eth, ?Ei; try done; lia.
Qed.

Lemma rest_ok_put x a o ex : rest_ok x ex -> ex = Some a -> is_Some (objects x !! a) -> rest_ok (put a o x) ex.
Proof.
  intros [R1 R2 R3 R4 R5 R6] -> Ha. split; try done.
  - intros b o' Hb Ho'. simpl in Ho'. rewrite lookup_insert_ne in Ho' by congruence. apply (obj_ok_quiet b o' x); [done | by apply R2].
  - intros b Hb. simpl. destruct (decide (b = a)) as [->|Hne]; [rewrite lookup_insert_eq; done | rewrite lookup_insert_ne by done; by apply R3].
  - intros c b st Hb. simpl. destruct (decide (b = a)) as [->|Hne]; [rewrite lookup_insert_eq; done | rewrite lookup_insert_ne by done; by apply (R4 c b st)].
Qed.

(** The timer of the object changes. *)
Lemma rest_ok_timer x a t : rest_ok x (Some a) -> tinv t -> (forall u, u <> a -> unmoved u (tsys x) t) -> modes t = modes (tsys x) -> clock t = clock (tsys x) -> rest_ok (with_tsys t x) (Some a).
Proof.
  intros [R1 R2 R3 R4 R5 R6] It Hu Hm Hc. split; try done.
  - intros b o Hb Ho. apply (obj_ok_quiet b o x); [|by apply R2]. split; try done; [apply Hu; congruence | simpl; lia|]. simpl. by rewrite Hm.
  - intros c. simpl. rewrite Hm, Hc. apply R6.
Qed.

(** ** The steps on the timer of an object *)

Section Steps.
Context (x : DSys) (a : Z) (o : object) (h u : Z) (cl : option Z).
Hypothesis R : rest_ok x (Some a).
Hypothesis Ha : objects x !! a = Some o.
Hypothesis A : acc x a o h u cl.

Lemma active_callback : active a (state (tsys x)) = true -> exists c now, modes (tsys x) !! c = Some (Calling now a).
Proof using R A.
  intros Hact. destruct (c_timer _ _ _ _ _ _ A) as (y & Hy & _). unfold active in Hact. rewrite Hy, Z.geb_leb in Hact. apply Z.leb_le in Hact.
  destruct (a_active _ _ (n_callbacks _ _ _ _ (r_timers _ _ R)) a y Hy) as [?|[now Hn]]; [lia | by exists (active_cpu y), now].
Qed.

Lemma start_cancel_spec c l :
  a ∉ waiting (tsys x) -> modes (tsys x) !! c = Some Running ->
  let b := list_in_list a (state (tsys x)) in
  exists t, start_cancel c a l x = Some (put a (with_lock (l b) o) (with_tsys t x)) /\ rest_ok (put a (with_lock (l b) o) (with_tsys t x)) (Some a) /\
    acc (put a (with_lock (l b) o) (with_tsys t x)) a (with_lock (l b) o) (h + zb b) u cl /\ list_in_list a (state t) = false /\ waiting t = a :: waiting (tsys x) /\
    clock t = clock (tsys x) /\ due t = due (tsys x).
Proof using R Ha A.
  intros Hw Hm b. pose proof (r_timers _ _ R) as It. destruct (c_timer _ _ _ _ _ _ A) as (y & Hy & Hcb).
  assert (active_cpu y <> c) as Hac.
  { intros E. destruct (a_active _ _ (n_callbacks _ _ _ _ It) a y Hy) as [E1|[now Hn]]; [|congruence].
    assert (0 <= c) by (apply (n_nonneg _ _ _ _ It); by exists Running). lia. }
  destruct (timer_cancel_spec _ _ _ _ c a y It Hy) as (r & s' & Ec & Ho & Hr); [by exists Running|]. destruct r as [r|r]; [by destruct Hr as (_ & ? & _)|].
  destruct Hr as (-> & _ & Ht & Hq & I'). fold b in Ec. set (t := mkTSys s' (modes (tsys x)) (a :: waiting (tsys x)) (clock (tsys x)) (due (tsys x))). exists t.
  assert (list_in_list a s' = false) as Hl by (by apply list_in_list_false).
  assert (active a s' = active a (state (tsys x))) as Hact by (unfold active; rewrite Ht, Hy; done).
  unfold start_cancel. rewrite Ha. cbn [mbind option_bind]. rewrite Ec. cbn [mbind option_bind]. split; [done|].
  assert (rest_ok (with_tsys t x) (Some a)) as R1.
  { apply rest_ok_timer; try done. intros v Hv. split; [by apply (still_others a)|]. split; [done|]. simpl. rewrite elem_of_cons. tauto. }
  split_and!; try done.
  - apply rest_ok_put; try done; by exists o.
  - destruct A as [C1 C2 C3 C4 C9 C5 C6 C7 _]. unfold tokens, in_queue, in_call in *. fold b in C1, C2. split; unfold tokens, in_queue, in_call; simpl; rewrite ?Hl, ?Hact; try done.
    + simpl. lia.
    + simpl. lia.
    + unfold zb. destruct b; lia.
    + exists (set_cancel true y). split; [done|]. simpl. intros H. apply Hcb. unfold in_queue, in_call. fold b. unfold zb in *. destruct b; lia.
Qed.

Lemma slack_deadline_valid t : fields_ok t -> exists d, slackDeadline t = Some d /\ valid_deadline d.
Proof using Type.
  intros (Ho & Hd & Hs & _). unfold slackDeadline, ZX_TIMER_SLACK_CENTER, ZX_TIMER_SLACK_EARLY, ZX_TIMER_SLACK_LATE.
  destruct (Z.eqb_spec (options_ t) 0); [by eexists|]. destruct (Z.eqb_spec (options_ t) 1); [by eexists|]. destruct (Z.eqb_spec (options_ t) 2); [by eexists | lia].
Qed.

Lemma set_timer_spec c :
  h = 1 -> a ∉ waiting (tsys x) -> active a (state (tsys x)) = false -> modes (tsys x) !! c = Some Running ->
  exists t d, set_timer c a x = Some (with_tsys t x) /\ rest_ok (with_tsys t x) (Some a) /\ acc (with_tsys t x) a o 0 u cl /\ in_queue (with_tsys t x) a = 1 /\
    slackDeadline (td o) = Some d /\ due t !! a = Some d /\ waiting t = waiting (tsys x).
Proof using R Ha A.
  intros -> Hw Hact Hm. pose proof (r_timers _ _ R) as It. destruct (c_timer _ _ _ _ _ _ A) as (y & Hy & _). destruct (slack_deadline_valid _ (c_fields _ _ _ _ _ _ A)) as (d & Hd & Hv).
  assert (list_in_list a (state (tsys x)) = false) as Hq.
  { pose proof (c_one _ _ _ _ _ _ A) as H1. unfold tokens, in_queue, in_call in H1. pose proof (times_nonneg a (map snd (dpcs x))). pose proof (times_nonneg (a, starting) (map snd (dpc_threads x))).
    unfold zb in H1. destruct (list_in_list _ _); [|done]. destruct (_ && _); lia. }
  pose proof (not_active_cpu _ _ _ _ a y It Hy Hact) as Hac.
  destruct (timer_set_spec _ _ _ _ c a y d a It Hy Hv) as (s' & Es & I' & Hq' & Ho & y' & Hy' & Hac' & Hcb' & _); try done; [by apply list_in_list_false | by left | by right|].
  pose proof (proj2 (list_in_list_true s' a) Hq') as Hl.
  set (t := mkTSys s' (modes (tsys x)) (waiting (tsys x)) (clock (tsys x)) (<[a := d]> (due (tsys x)))). exists t, d.
  assert (active a s' = false) as Hact' by (unfold active; rewrite Hy', Hac', Hac; done).
  unfold set_timer. rewrite Ha. cbn [mbind option_bind]. rewrite Hd. cbn [mbind option_bind trun]. rewrite Es. cbn [mbind option_bind]. rewrite Hl. split; [done|]. split_and!; try done.
  - apply rest_ok_timer; try done. intros v Hv'. split; [by apply (still_others a)|]. split; [simpl; by apply lookup_insert_ne | done].
  - destruct A as [C1 C2 C3 C4 C9 C5 C6 C7 _]. unfold tokens, in_queue, in_call in *. rewrite Hq, Hact in C1, C2. simpl in C1, C2.
    split; unfold tokens, in_queue, in_call; simpl; rewrite ?Hl, ?Hact'; simpl; try done; try lia. by exists y'.
  - unfold in_queue. simpl. by rewrite Hl.
  - simpl. apply lookup_insert_eq.
Qed.

(** [timer_cancel] returns. *)
Lemma cancel_done_spec :
  a ∈ waiting (tsys x) -> active a (state (tsys x)) = false ->
  exists t, trun (tsys x) (CancelDone a) = Some t /\ rest_ok (with_tsys t x) (Some a) /\ acc (with_tsys t x) a o h u cl /\ in_queue (with_tsys t x) a = 0 /\ (a ∉ waiting t) /\
    active a (state t) = false /\ modes t = modes (tsys x) /\ clock t = clock (tsys x) /\ due t = due (tsys x).
Proof using R Ha A.
  intros Hw Hact. pose proof (r_timers _ _ R) as It. destruct (timer_cancel_done_spec _ _ _ _ a It Hw Hact) as (y & Hy & E & Hac & Hq & I'). simpl. rewrite E. cbn [mbind option_bind].
  eexists. split; [done|]. pose proof (proj2 (list_in_list_false _ a) Hq) as Hl. set (s' := put_timer a (set_callback None y) (state (tsys x))) in *.
  assert (list_in_list a s' = false) as Hl' by done. assert (active a s' = false) as Ha' by (unfold active; simpl; rewrite lookup_insert_eq; simpl; by rewrite Hac).
  split_and!; try done.
  - apply rest_ok_timer; try done. intros v Hv. split; [by apply still_put_timer|]. split; [done|]. simpl. rewrite list_elem_of_filter. tauto.
  - destruct A as [C1 C2 C3 C4 C9 C5 C6 C7 C8]. unfold tokens, in_queue, in_call in *. rewrite Hl, Hact in C1, C2. split; unfold tokens, in_queue, in_call; simpl; rewrite ?Hl', ?Ha'; try done.
    exists (set_callback None y). split; [simpl; apply lookup_insert_eq|]. simpl. lia.
  - unfold in_queue. simpl. by rewrite Hl'.
  - simpl. intros [H _]%list_elem_of_filter. by apply H.
Qed.
End Steps.

(** ** The ends of the operations *)

Definition wants (t : TimerDispatcher) : bool := negb (deadline_ t =? 0) || cancel_pending_ t.

Lemma tokens_split x a o :
  0 <= in_queue x a /\ 0 <= in_call x a o /\ 0 <= times a (map snd (dpcs x)) /\ 0 <= times (a, starting) (map snd (dpc_threads x)) /\
  tokens x a o = in_queue x a + in_call x a o + times a (map snd (dpcs x)) + times (a, starting) (map snd (dpc_threads x)).
Proof. unfold tokens, in_queue, in_call, zb. split_and!; try apply times_nonneg; [destruct (list_in_list _ _) | destruct (_ && _) |]; lia. Qed.

Lemma tokens_nonneg x a o : 0 <= tokens x a o.
Proof. pose proof (tokens_split x a o). lia. Qed.

Lemma tokens_object x x' a o o' : tsys x' = tsys x -> dpcs x' = dpcs x -> dpc_threads x' = dpc_threads x -> irq o' = irq o -> tokens x' a o' = tokens x a o /\ in_queue x' a = in_queue x a.
Proof. intros Et Ed Eth Ei. unfold tokens, in_queue, in_call. by rewrite Et, Ed, Eth, Ei. Qed.

Lemma free_ok_object x x' a t : tsys x' = tsys x -> free_ok x a t -> free_ok x' a t.
Proof. intros Et [F1 F2]. unfold in_queue in *. split; unfold in_queue; by rewrite Et. Qed.

(** The object as it is when nobody has its lock, [u] references aside. *)
Record settled (x : DSys) (a : Z) (o : object) (u : Z) : Prop := {
  s_acc : acc x a o 0 u None;
  s_tokens : tokens x a o = zb (wants (td o));
  s_waiting : a ∉ waiting (tsys x);
  s_free : free_ok x a (td o);
}.

Lemma settled_ok x a o : settled x a o 0 -> lock o = free -> obj_ok x a o.
Proof.
  intros [S1 S2 S3 S4] Hl. split; rewrite ?Hl; try done.
  - unfold lock_ok. by rewrite Hl.
  - unfold pending. rewrite Hl, S2. simpl. unfold wants. lia.
Qed.

(** [settled] sees of the object only what counts. *)
Lemma settled_object x a o o' u u' :
  settled x a o u -> td o' = td o -> irq o' = irq o -> 0 <= users o' -> (has_handle o' = true -> closing o' = false) ->
  refs o' - zb (has_handle o') - zb (closing o') - users o' - u' = refs o - zb (has_handle o) - zb (closing o) - users o - u -> settled (put a o' x) a o' u'.
Proof.
  intros [S1 S2 S3 S4] Et Ei Hu Hhc Hr. destruct (tokens_object x (put a o' x) a o o') as [E1 E2]; try done. split; rewrite ?Et; try done.
  - apply (acc_object x _ a o o' 0 u 0 u'); try done; [rewrite Et; apply (c_fields _ _ _ _ _ _ S1) | lia].
  - by rewrite E1.
  - by apply (free_ok_object x).
Qed.

Lemma unlock_inv x a o : rest_ok x (Some a) -> objects x !! a = Some o -> settled x a o 1 -> exists x', unlock a x = Some x' /\ dinv x'.
Proof.
  intros R Ha S. unfold unlock. rewrite Ha. eexists. split; [done|]. pose proof (c_users _ _ _ _ _ _ (s_acc _ _ _ _ S)). eapply dinv_join; [by apply rest_ok_put | simpl; apply lookup_insert_eq|].
  apply settled_ok; [|done]. apply (settled_object x a o _ 1); try done; simpl; try lia. apply (c_handle _ _ _ _ _ _ (s_acc _ _ _ _ S)).
Qed.

(** Nothing is left of an object without references. *)
Lemma last_release x a o :
  rest_ok x (Some a) -> objects x !! a = Some o -> settled x a o 1 -> refs o = 1 ->
  deadline_ (td o) = 0 /\ slack_amount_ (td o) = 0 /\ list_in_list a (state (tsys x)) = false /\ active a (state (tsys x)) = false /\ (a ∉ map snd (dpcs x)) /\ forall c st, (c, (a, st)) ∉ dpc_threads x.
Proof.
  intros R Ha [S1 S2 S3 S4] Hr. pose proof (c_refs _ _ _ _ _ _ S1) as Hc. pose proof (c_users _ _ _ _ _ _ S1). pose proof (tokens_nonneg x a o).
  pose proof (times_nonneg (a, releasing) (map snd (dpc_threads x))). assert (forall b, 0 <= zb b) as Hz by (intros []; simpl; lia). pose proof (Hz (has_handle o)). pose proof (Hz (closing o)).
  assert (tokens x a o = 0) as Et by lia. assert (times (a, releasing) (map snd (dpc_threads x)) = 0) as Er by lia.
  rewrite Et in S2. unfold wants in S2. destruct (Z.eqb_spec (deadline_ (td o)) 0) as [Hd|]; [|done]. destruct (c_fields _ _ _ _ _ _ S1) as (_ & _ & _ & Hs).
  unfold tokens, in_queue, in_call in Et. pose proof (Hz (list_in_list a (state (tsys x)))). pose proof (Hz (active a (state (tsys x)) && negb (irq o))).
  pose proof (times_nonneg a (map snd (dpcs x))). pose proof (times_nonneg (a, starting) (map snd (dpc_threads x))).
  assert (times a (map snd (dpcs x)) = 0) as Ed by lia. assert (times (a, starting) (map snd (dpc_threads x)) = 0) as Est by lia. apply times_not_in in Ed, Est, Er.
  split_and!; try done; [by apply Hs | destruct (list_in_list _ _); [simpl in *; lia | done] | |].
  - destruct (active a _) eqn:Ea; [|done]. destruct (irq o) eqn:Ei; [|simpl in *; lia]. destruct (c_irq _ _ _ _ _ _ S1 Ei) as (c & now & _ & Hin). destruct Ed. by apply (list_elem_of_fmap_2 snd) in Hin.
  - intros c st Hin. destruct st; [destruct Est | by apply (c_setting _ _ _ _ _ _ S1) in Hin | destruct Er]; by apply (list_elem_of_fmap_2 snd) in Hin.
Qed.

Lemma object_release_inv x a o : rest_ok x (Some a) -> objects x !! a = Some o -> settled x a o 1 -> lock o = free -> exists x', Release a x = Some x' /\ dinv x'.
Proof.
  intros R Ha S Hl. unfold Release. rewrite Ha. cbn [mbind option_bind]. simpl refs. destruct (Z.eqb_spec (refs o - 1) 0) as [Hr|Hr]; cbn [negb].
  2: { eexists. split; [done|]. pose proof (c_users _ _ _ _ _ _ (s_acc _ _ _ _ S)). eapply dinv_join; [by apply rest_ok_put | simpl; apply lookup_insert_eq|].
    apply settled_ok; [|done]. apply (settled_object x a o _ 1); try done; simpl; try lia. apply (c_handle _ _ _ _ _ _ (s_acc _ _ _ _ S)). }
  destruct (last_release x a o R Ha S) as (D1 & D2 & D3 & D4 & D5 & D6); [lia|]. simpl td. rewrite D1, D2. cbn [negb Z.eqb andb]. rewrite D3, D4. unfold dpc_in_list. rewrite (bool_decide_eq_false_2 _ D5).
  cbn [orb]. destruct R as [R1 R2 R3 R4 R5 R6]. destruct (c_timer _ _ _ _ _ _ (s_acc _ _ _ _ S)) as (y & Hy & _).
  destruct (tstep (tsys x) (FreeTimer a) R1) as (t & Et & It & Hun); [split_and!; try done; apply (s_waiting _ _ _ _ S)|]. rewrite Et. cbn [mbind option_bind]. eexists. split; [done|].
  simpl in Et. injection Et as <-. split; try done; simpl.
  - intros b o' _ Hb. apply lookup_delete_Some in Hb as [Hne Hb]. apply (obj_ok_quiet b o' x); [|apply R2; [congruence | done]]. split; try done; simpl. apply Hun. simpl. congruence.
  - intros b Hb. rewrite lookup_delete_ne; [by apply R3|]. by intros ->.
  - intros c b st Hb. rewrite lookup_delete_ne; [by apply (R4 c b st)|]. intros ->. by apply (D6 c st).
Qed.
