(* ===== verification/TimerDispatcherSteps.v ===== *)
(** * Correctness of TimerDispatcher: every step

    The invariant of [TimerDispatcherFacts.v] holds in every state that timer objects,
    deferred calls and kernel timers reach together, and no step of theirs fails. *)

From S2P Require Import Prelude Zx Deadline Timer TimerFacts TimerSystem TimerInv TimerSteps TimerDispatcher TimerDispatcherFacts.
Import Timer TimerDispatcher.

(** ** With the lock of an object *)

(** The thread goes to wait in [timer_cancel]. *)
Lemma start_locked x a o c l h u cl :
  rest_ok x (Some a) -> objects x !! a = Some o -> acc x a o h u cl -> a ∉ waiting (tsys x) -> modes (tsys x) !! c = Some Running ->
  (let b := list_in_list a (state (tsys x)) in l b <> free /\ token_of (l b) = h + zb b /\ user_of (l b) = u /\ caller_of (l b) = cl /\ lock_ok (with_lock (l b) o) /\
   tokens x a o + h = zb (pending (with_lock (l b) o))) ->
  exists x', start_cancel c a l x = Some x' /\ dinv x'.
Proof.
  intros R Ha A Hw Hm (H0 & H1 & H2 & H3 & H4 & H5). destruct (start_cancel_spec x a o h u cl R Ha A c l Hw Hm) as (t & E & R' & A' & Hq & Ew & _). rewrite E. eexists. split; [done|].
  eapply dinv_join; [done | simpl; apply lookup_insert_eq|]. pose proof (c_refs _ _ _ _ _ _ A) as C1. pose proof (c_refs _ _ _ _ _ _ A') as C2. simpl in C2.
  split; simpl; rewrite ?H1, ?H2, ?H3; try done.
  - lia.
  - rewrite Ew. split; [done|]. intros _. apply list_elem_of_here.
Qed.

Lemma finish_cancel_spec x a o b u cl :
  rest_ok x (Some a) -> objects x !! a = Some o -> acc x a o (zb b) u cl -> 0 <= u -> 1 <= u + zb (closing o) -> cancel_pending_ (td o) = false -> tokens x a o + zb b = 1 ->
  exists o', finish_cancel a b x = Some (put a o' x) /\ rest_ok (put a o' x) (Some a) /\ acc (put a o' x) a o' 0 u cl /\ td o' = set_pending (negb b) (td o) /\ closing o' = closing o /\
    tokens (put a o' x) a o' = zb (negb b).
Proof.
  intros R Ha A Hu Hc Hp Ht. unfold finish_cancel, CancelTimerLocked_done. rewrite Ha. cbn [mbind option_bind]. pose proof (c_refs _ _ _ _ _ _ A) as C1. pose proof (c_users _ _ _ _ _ _ A) as C2.
  pose proof (tokens_nonneg x a o). pose proof (times_nonneg (a, releasing) (map snd (dpc_threads x))). destruct b; simpl in *.
  - assert (0 <= zb (has_handle o)) by (destruct (has_handle o); simpl; lia). destruct (Z.eqb_spec (refs o - 1) 0); [lia|]. eexists. split; [done|]. split_and!; try done.
    + by apply rest_ok_put.
    + apply (acc_object x _ a o _ 1 u 0 u); try done; simpl; try lia; [apply (c_fields _ _ _ _ _ _ A) | apply (c_handle _ _ _ _ _ _ A)].
    + simpl. destruct (td o). simpl in *. by subst.
    + destruct (tokens_object x (put a (with_refs (refs o - 1) (with_td (td o) o)) x) a o (with_refs (refs o - 1) (with_td (td o) o))) as [-> _]; try done. lia.
  - eexists. split; [done|]. split_and!; try done.
    + by apply rest_ok_put.
    + apply (acc_object x _ a o _ 0 u 0 u); try done; simpl; try lia; [apply (c_fields _ _ _ _ _ _ A) | apply (c_handle _ _ _ _ _ _ A)].
    + destruct (tokens_object x (put a (with_td (set_pending true (td o)) o) x) a o (with_td (set_pending true (td o)) o)) as [-> _]; try done. lia.
Qed.

(** What [CancelTimerLocked] finds and leaves. *)
Lemma cancel_locked t : fields_ok t -> let '(cancels, t') := CancelTimerLocked t in
  fields_ok t' /\ deadline_ t' = 0 /\ cancel_pending_ t' = cancel_pending_ t /\ cancels = negb (deadline_ t =? 0) && negb (cancel_pending_ t).
Proof.
  intros (F1 & F2 & F3 & F4). unfold CancelTimerLocked. simpl. assert (is_i64 0) by (unfold is_i64; lia). destruct (Z.eqb_spec (deadline_ t) 0) as [E|E]; simpl; [split_and!; try done; simpl; lia|].
  destruct (cancel_pending_ t) eqn:Ep; simpl; rewrite ?Ep; split_and!; try done; simpl; lia.
Qed.

Lemma set_fields now d s t : fields_ok t -> deadline_ t = 0 -> is_i64 d -> 0 <= s < 2 ^ 63 ->
  let '(sets, t') := Set_ now d s t in fields_ok t' /\ cancel_pending_ t' = cancel_pending_ t /\
    (if sets : bool then cancel_pending_ t = false /\ deadline_ t' <> 0 else deadline_ t' = 0 \/ cancel_pending_ t = true).
Proof.
  intros (F1 & F2 & F3 & F4) Hd Hi Hs. unfold Set_. destruct (Z.eqb_spec d 0) as [|Hd0]; simpl; [split_and!; try done; by left|]. destruct (d <=? now); simpl; [split_and!; try done; by left|].
  destruct (cancel_pending_ t) eqn:Ep; simpl; rewrite ?Ep; split_and!; try done; try (simpl; lia); by right.
Qed.

Lemma finish_set_inv x a o c d s did_cancel :
  rest_ok x (Some a) -> objects x !! a = Some o -> acc x a o 0 1 None -> a ∉ waiting (tsys x) -> modes (tsys x) !! c = Some Running -> is_i64 d -> 0 <= s < 2 ^ 63 ->
  deadline_ (td o) = 0 -> tokens x a o = zb (cancel_pending_ (td o)) -> in_queue x a = 0 -> (did_cancel = true -> active a (state (tsys x)) = false) ->
  exists x', finish_set c a d s did_cancel x = Some x' /\ dinv x'.
Proof.
  intros R Ha A Hw Hm Hi Hs Hd Ht Hq Hact. unfold finish_set. rewrite Ha. cbn [mbind option_bind].
  pose proof (set_fields (clock (tsys x)) d s (td o) (c_fields _ _ _ _ _ _ A) Hd Hi Hs) as Hf. destruct (Set_ _ _ _ _) as [sets t]. destruct Hf as (F1 & F2 & F3). pose proof (c_users _ _ _ _ _ _ A).
  set (x1 := put a (with_td t o) x). assert (rest_ok x1 (Some a)) as R1 by (by apply rest_ok_put).
  destruct (tokens_object x x1 a o (with_td t o)) as [E1 E2]; try done. destruct sets.
  2: { apply (unlock_inv x1 a (with_td t o)); [done | simpl; apply lookup_insert_eq|]. split; try done.
    - apply (acc_object x _ a o _ 0 1 0 1); try done. apply (c_handle _ _ _ _ _ _ A).
    - rewrite E1, Ht. unfold wants. simpl. rewrite F2. destruct F3 as [->| ->]; simpl; [done | by rewrite orb_true_r].
    - split; [by rewrite E2|]. simpl. intros Hp Hn. destruct F3 as [?|F3]; [done | congruence]. }
  destruct F3 as [Hp Hdn]. set (o2 := with_refs (refs o + 1) (with_td t o)). set (x2 := put a o2 x1). assert (rest_ok x2 (Some a)) as R2 by (apply rest_ok_put; try done; simpl; rewrite lookup_insert_eq; done).
  assert (objects x2 !! a = Some o2) as Ha2 by (simpl; apply lookup_insert_eq). destruct (tokens_object x x2 a o o2) as [E3 E4]; try done. rewrite Hp in Ht. simpl in Ht.
  assert (acc x2 a o2 1 1 None) as A2.
  { destruct A as [C1 C2 C3 C4 C9 C5 C6 C7 C8]. split; simpl; try done; try lia. }
  destruct did_cancel.
  - destruct (set_timer_spec x2 a o2 1 1 None R2 Ha2 A2 c) as (tt & dd & -> & R3 & A3 & Q3 & D3 & D4 & W3); try done; [by apply Hact|]. cbn [mbind option_bind].
    apply (unlock_inv _ a o2); [done | done|]. split; try done.
    + pose proof (c_one _ _ _ _ _ _ A3) as H1. unfold wants. simpl. destruct (Z.eqb_spec (deadline_ t) 0); [done|]. simpl.
      pose proof (tokens_split (with_tsys tt x2) a o2). lia.
    + simpl. by rewrite W3.
    + split; [simpl; congruence|]. intros _ _. exists dd. split_and!; try done. rewrite Q3. lia.
  - apply (start_locked _ _ _ _ _ 1 1 None R2 Ha2 A2); try done.
    assert (list_in_list a (state (tsys x2)) = false) as -> by (unfold in_queue, zb in Hq; simpl in *; by destruct (list_in_list a (state (tsys x)))).
    split_and!; try done; [split; simpl; congruence|]. rewrite E3. simpl. lia.
Qed.

(** ** System calls *)

Lemma object_is_true f a x : object_is f a x = true -> exists o, objects x !! a = Some o /\ f o = true.
Proof. unfold object_is. destruct (objects x !! a) as [o|]; [by exists o | done]. Qed.

Lemma is_free_lock o : is_free o = true -> lock o = free.
Proof. unfold is_free. by destruct (lock o). Qed.

(** The references of an object change. *)
Lemma counts_ok x a o o' :
  obj_ok x a o -> td o' = td o -> lock o' = lock o -> irq o' = irq o -> 0 <= users o' -> (has_handle o' = true -> closing o' = false) -> (closing o = true -> closing o' = true) ->
  refs o' - zb (has_handle o') - zb (closing o') - users o' = refs o - zb (has_handle o) - zb (closing o) - users o -> obj_ok (put a o' x) a o'.
Proof.
  intros [O1 O2 O3 O4 O5] Et El Ei Hu Hh Hc Hr. destruct (tokens_object x (put a o' x) a o o') as [E1 E2]; try done. split; rewrite ?El, ?Et; try done.
  - apply (acc_object x _ a o o' (token_of (lock o)) (user_of (lock o))); try done; [rewrite Et; apply (c_fields _ _ _ _ _ _ O1) | pose proof (c_h _ _ _ _ _ _ O1); lia | lia].
  - unfold lock_ok in *. rewrite El, Et. destruct (lock o); try done; tauto.
  - rewrite E1, O3. unfold pending. by rewrite El, Et.
  - intros Hf. apply (free_ok_object x); [done | by apply O5].
Qed.

(** A reference is dropped, perhaps while another thread has the lock. *)
Lemma release_any x a o :
  rest_ok x (Some a) -> objects x !! a = Some o -> acc x a o (token_of (lock o)) (user_of (lock o) + 1) (caller_of (lock o)) -> lock_ok o ->
  tokens x a o + token_of (lock o) = zb (pending o) -> (a ∈ waiting (tsys x) <-> lock o <> free) -> (lock o = free -> free_ok x a (td o)) ->
  exists x', Release a x = Some x' /\ dinv x'.
Proof.
  intros R Ha A Hl Hp Hw Hf. destruct (decide (is_free o = true)) as [Hfr%is_free_lock|Hnf].
  { apply (object_release_inv x a o); try done. rewrite Hfr in A. unfold pending in Hp. rewrite Hfr in Hp. split; try done; [simpl in Hp; unfold wants; lia | by rewrite Hw, Hfr; intros [] | by apply Hf]. }
  assert (lock o <> free) as Hne by (intros E; apply Hnf; unfold is_free; by rewrite E). pose proof (c_refs _ _ _ _ _ _ A) as C1. pose proof (c_users _ _ _ _ _ _ A) as C2.
  pose proof (tokens_nonneg x a o). pose proof (times_nonneg (a, releasing) (map snd (dpc_threads x))). assert (forall b, 0 <= zb b <= 1) as Hz by (intros []; simpl; lia).
  pose proof (Hz (has_handle o)). pose proof (Hz (closing o)).
  assert (1 <= user_of (lock o) + zb (closing o) + token_of (lock o)) as Hone.
  { unfold lock_ok in Hl. destruct (lock o); simpl in *; try done; try (pose proof (Hz canceled)); try lia; [destruct Hl as (_ & _ & ->) | destruct Hl as (_ & ->)]; simpl; lia. }
  unfold Release. rewrite Ha. cbn [mbind option_bind]. simpl refs. destruct (Z.eqb_spec (refs o - 1) 0) as [Hr|Hr]; [pose proof (c_h _ _ _ _ _ _ A); destruct (lock o); simpl in *; lia|]. cbn [negb].
  eexists. split; [done|]. eapply dinv_join; [by apply rest_ok_put | simpl; apply lookup_insert_eq|].
  split; simpl; try done.
  - apply (acc_object x _ a o _ (token_of (lock o)) (user_of (lock o) + 1)); try done; simpl; try lia; [apply (c_fields _ _ _ _ _ _ A) | pose proof (c_h _ _ _ _ _ _ A); lia | apply (c_handle _ _ _ _ _ _ A)].
Qed.

Lemma timer_enter_inv x a : dinv x -> denabled x (Enter a) -> exists x', drun x (Enter a) = Some x' /\ dinv x'.
Proof.
  intros I (o & Ha & Hh)%object_is_true. destruct (dinv_split x a o I Ha) as [R O]. simpl. rewrite Ha. eexists. split; [done|].
  eapply dinv_join; [by apply rest_ok_put | simpl; apply lookup_insert_eq|]. pose proof (c_users _ _ _ _ _ _ (o_acc _ _ _ O)).
  apply (counts_ok x a o); try done; simpl; try lia. apply (c_handle _ _ _ _ _ _ (o_acc _ _ _ O)).
Qed.

Lemma timer_close_inv x a : dinv x -> denabled x (Close a) -> exists x', drun x (Close a) = Some x' /\ dinv x'.
Proof.
  intros I (o & Ha & Hh)%object_is_true. destruct (dinv_split x a o I Ha) as [R O]. simpl. rewrite Ha. eexists. split; [done|].
  eapply dinv_join; [by apply rest_ok_put | simpl; apply lookup_insert_eq|]. pose proof (c_handle _ _ _ _ _ _ (o_acc _ _ _ O) Hh) as Hc.
  apply (counts_ok x a o); try done; simpl; [apply (c_users _ _ _ _ _ _ (o_acc _ _ _ O)) | rewrite Hh, Hc; simpl; lia].
Qed.

Lemma timer_leave_inv x a : dinv x -> denabled x (Leave a) -> exists x', drun x (Leave a) = Some x' /\ dinv x'.
Proof.
  intros I (o & Ha & Hu%Z.ltb_lt)%object_is_true. destruct (dinv_split x a o I Ha) as [R O]. simpl. rewrite Ha. cbn [mbind option_bind]. set (o1 := with_users (users o - 1) o).
  destruct O as [O1 O2 O3 O4 O5]. destruct (tokens_object x (put a o1 x) a o o1) as [E1 E2]; try done.
  apply (release_any _ a o1); [by apply rest_ok_put | simpl; apply lookup_insert_eq | | done | by rewrite E1 | done|].
  - apply (acc_object x _ a o o1 (token_of (lock o)) (user_of (lock o))); try done; simpl; try lia;
      [apply (c_fields _ _ _ _ _ _ O1) | pose proof (c_h _ _ _ _ _ _ O1); lia | apply (c_handle _ _ _ _ _ _ O1)].
  - intros Hf. apply (free_ok_object x); [done | by apply O5].
Qed.

(** What a thread that takes the free lock of an object finds, after [CancelTimerLocked]. *)
Lemma take_lock x a o t cancels u n :
  rest_ok x (Some a) -> objects x !! a = Some o -> obj_ok x a o -> lock o = free -> CancelTimerLocked (td o) = (cancels, t) -> n = users o - u -> 0 <= u <= users o ->
  let o' := with_users n (with_td t o) in
  let x' := put a o' x in
  rest_ok x' (Some a) /\ objects x' !! a = Some o' /\ acc x' a o' 0 u None /\ (a ∉ waiting (tsys x')) /\ deadline_ t = 0 /\
  (cancels = true -> cancel_pending_ t = false /\ tokens x' a o' = 1) /\ (cancels = false -> tokens x' a o' = zb (cancel_pending_ t) /\ in_queue x' a = 0).
Proof.
  intros R Ha [O1 O2 O3 O4 O5] Hf Hc -> Hu o' x'. rewrite Hf in *. specialize (O5 eq_refl). pose proof (cancel_locked (td o) (c_fields _ _ _ _ _ _ O1)) as H. rewrite Hc in H. destruct H as (F1 & F2 & F3 & F4).
  destruct (tokens_object x x' a o o') as [E1 E2]; try done. assert (tokens x' a o' = zb (wants (td o))) as Et by (rewrite E1; unfold pending in O3; rewrite Hf in O3; simpl in O3; unfold wants; lia).
  split; [by apply rest_ok_put|]. split; [simpl; apply lookup_insert_eq|]. split.
  { apply (acc_object x _ a o o' 0 0 0 u); try done; simpl; try lia. apply (c_handle _ _ _ _ _ _ O1). }
  split; [simpl; rewrite O4; by intros []|]. split; [done|]. unfold wants in Et. rewrite F3. destruct (Z.eqb_spec (deadline_ (td o)) 0) as [Hd|Hd]; simpl in *.
  - split; [by subst|]. intros _. split; [done|]. rewrite E2. destruct (cancel_pending_ (td o)) eqn:Ep; [by apply (f_queued _ _ _ O5)|]. pose proof (tokens_split x' a o'). simpl in *. lia.
  - destruct (cancel_pending_ (td o)) eqn:Ep; simpl in *; subst cancels; (split; [done|]); [|done]. intros _. split; [done|]. rewrite E2. by apply (f_queued _ _ _ O5).
Qed.

Lemma call_set_inv x c a d s : dinv x -> denabled x (CallSet c a d s) -> exists x', drun x (CallSet c a d s) = Some x' /\ dinv x'.
Proof.
  intros I ((o & Ha & H)%object_is_true & Hm%in_threads_mode & Hi & Hs). apply andb_prop in H as [Hu%Z.ltb_lt Hf%is_free_lock]. destruct (dinv_split x a o I Ha) as [R O]. simpl. rewrite Ha. cbn [mbind option_bind].
  destruct (CancelTimerLocked (td o)) as [cancels t] eqn:Ec. destruct (take_lock x a o t cancels 1 (users o - 1) R Ha O Hf Ec) as (R1 & Ha1 & A1 & W1 & D1 & T1 & T2); [done | lia|]. destruct cancels.
  - destruct (T1 eq_refl) as [Hp Ht]. apply (start_locked _ _ _ _ _ 0 1 None R1 Ha1 A1); try done. split_and!; try done. rewrite Ht. done.
  - destruct (T2 eq_refl) as [Ht Hq]. by apply (finish_set_inv _ _ _ _ _ _ _ R1 Ha1 A1).
Qed.

Lemma call_cancel_inv x c a : dinv x -> denabled x (CallCancel c a) -> exists x', drun x (CallCancel c a) = Some x' /\ dinv x'.
Proof.
  intros I ((o & Ha & H)%object_is_true & Hm%in_threads_mode). apply andb_prop in H as [Hu%Z.ltb_lt Hf%is_free_lock]. destruct (dinv_split x a o I Ha) as [R O]. simpl. rewrite Ha. cbn [mbind option_bind].
  destruct (CancelTimerLocked (td o)) as [cancels t] eqn:Ec. destruct (take_lock x a o t cancels 1 (users o - 1) R Ha O Hf Ec) as (R1 & Ha1 & A1 & W1 & D1 & T1 & T2); [done | lia|]. destruct cancels.
  - destruct (T1 eq_refl) as [Hp Ht]. apply (start_locked _ _ _ _ _ 0 1 None R1 Ha1 A1); try done. split_and!; try done. rewrite Ht. done.
  - destruct (T2 eq_refl) as [Ht Hq]. apply (unlock_inv _ _ _ R1 Ha1). split; [done | rewrite Ht; unfold wants; simpl; by rewrite D1 | done | split; [done|]; simpl; by rewrite D1].
Qed.

Lemma timer_zero_handles_inv x c a : dinv x -> denabled x (ZeroHandles c a) -> exists x', drun x (ZeroHandles c a) = Some x' /\ dinv x'.
Proof.
  intros I ((o & Ha & H)%object_is_true & Hm%in_threads_mode). apply andb_prop in H as [Hcl Hf%is_free_lock]. destruct (dinv_split x a o I Ha) as [R O]. simpl. rewrite Ha. cbn [mbind option_bind].
  destruct (CancelTimerLocked (td o)) as [cancels t] eqn:Ec. destruct (take_lock x a o t cancels 0 (users o) R Ha O Hf Ec) as (R1 & Ha1 & A1 & W1 & D1 & T1 & T2);
    [lia | pose proof (c_users _ _ _ _ _ _ (o_acc _ _ _ O)); lia|].
  assert (with_users (users o) (with_td t o) = with_td t o) as E by done. rewrite E in *. destruct cancels.
  - destruct (T1 eq_refl) as [Hp Ht]. apply (start_locked _ _ _ _ _ 0 0 None R1 Ha1 A1); try done. split_and!; try done. rewrite Ht. done.
  - destruct (T2 eq_refl) as [Ht Hq]. apply (start_locked _ _ _ _ _ 0 0 None R1 Ha1 A1); try done.
    assert (list_in_list a (state (tsys x)) = false) as Hl by (unfold in_queue, zb in Hq; simpl in Hq; by destruct (list_in_list a (state (tsys x)))). simpl. rewrite Hl.
    split_and!; try done. rewrite Ht. unfold pending. simpl. rewrite D1. simpl. lia.
Qed.

(** ** The threads of deferred calls *)

Lemma in_drop_thread c c' e l : (c', e) ∈ drop_thread c l <-> (c', e) ∈ l /\ c' <> c.
Proof. unfold drop_thread. rewrite list_elem_of_filter. simpl. tauto. Qed.

Lemma drop_absent c (l : list (Z * (Z * stage))) : c ∉ map fst l -> drop_thread c l = l.
Proof.
  intros Hc. apply filter_all. intros [c' e] Hin. simpl. intros ->. apply Hc. by apply (list_elem_of_fmap_2 fst) in Hin.
Qed.

Lemma drop_times c e k (l : list (Z * (Z * stage))) : NoDup (map fst l) -> (c, e) ∈ l -> times k (map snd (drop_thread c l)) = times k (map snd l) - (if decide (e = k) then 1 else 0).
Proof.
  induction l as [|[c' e'] l IH]; [by intros _ ?%not_elem_of_nil|]. simpl. intros [Hn Hnd]%NoDup_cons Hin. unfold drop_thread. destruct (decide (c' = c)) as [->|Hne].
  - rewrite filter_cons_False by (simpl; tauto). fold (drop_thread c l). rewrite drop_absent by done.
    assert (e' = e) as -> by (apply elem_of_cons in Hin as [E|Hin]; [congruence | destruct Hn; by apply (list_elem_of_fmap_2 fst) in Hin]). destruct (decide (e = k)); lia.
  - rewrite filter_cons_True by done. fold (drop_thread c l). simpl. rewrite IH; [destruct (decide (e' = k)); lia | done|]. apply elem_of_cons in Hin as [E|Hin]; [congruence | done].
Qed.

Lemma drop_nodup c (l : list (Z * (Z * stage))) : NoDup (map fst l) -> NoDup (map fst (drop_thread c l)) /\ c ∉ map fst (drop_thread c l).
Proof.
  intros Hnd. split.
  - induction l as [|[c' e] l IH]; [done|]. simpl in Hnd. apply NoDup_cons in Hnd as [Hn Hnd]. unfold drop_thread. destruct (decide (c' = c)) as [->|Hne].
    + rewrite filter_cons_False by (simpl; tauto). by apply IH.
    + rewrite filter_cons_True by done. simpl. apply NoDup_cons. split; [|by apply IH]. intros Hin. apply Hn. apply list_elem_of_fmap_1 in Hin as ([c0 e0] & -> & Hin).
      apply list_elem_of_filter in Hin as [_ Hin]. by apply (list_elem_of_fmap_2 fst) in Hin.
  - intros Hin. apply list_elem_of_fmap_1 in Hin as ([c0 e0] & -> & Hin). apply list_elem_of_filter in Hin as [Hc _]. by apply Hc.
Qed.

Lemma thread_dpc_in c e x : NoDup (map fst (dpc_threads x)) -> (c, e) ∈ dpc_threads x -> thread_dpc c x = Some e.
Proof.
  unfold thread_dpc. generalize (dpc_threads x) as l. intros l. induction l as [|[c' e'] l IH]; [by intros _ ?%not_elem_of_nil|]. simpl. intros [Hn Hnd]%NoDup_cons [E|Hin]%elem_of_cons.
  - injection E as <- <-. by rewrite Z.eqb_refl.
  - destruct (Z.eqb_spec c' c) as [->|Hne]; [|by apply IH]. destruct Hn. by apply (list_elem_of_fmap_2 fst) in Hin.
Qed.

(** The thread of a processor goes on with a call, or ends it. *)
Lemma rest_ok_thread x x' a c e l :
  rest_ok x (Some a) -> (c, (a, e)) ∈ dpc_threads x -> tsys x' = tsys x -> dpcs x' = dpcs x -> (forall b, b <> a -> objects x' !! b = objects x !! b) -> is_Some (objects x' !! a) ->
  l = [] \/ (exists st, l = [(c, (a, st))]) -> dpc_threads x' = l ++ drop_thread c (dpc_threads x) -> rest_ok x' (Some a).
Proof.
  intros [R1 R2 R3 R4 R5 R6] Hin Et Ed Eo Ha Hl Eth.
  assert (forall c' b st, b <> a -> (c', (b, st)) ∈ dpc_threads x' <-> (c', (b, st)) ∈ dpc_threads x) as Hmem.
  { intros c' b st Hb. rewrite Eth, elem_of_app, in_drop_thread. assert ((c', (b, st)) ∉ l) as Hnl by (destruct Hl as [->|[s ->]]; [apply not_elem_of_nil | intros E%list_elem_of_singleton; congruence]).
    split; [tauto|]. intros H. right. split; [done|]. intros ->. apply (thread_dpc_in c) in H; [|done]. apply (thread_dpc_in c) in Hin; [|done]. congruence. }
  split; rewrite ?Et, ?Ed; try done.
  - intros b o Hb Ho. assert (b <> a) as Hba by congruence. rewrite Eo in Ho by done. apply (obj_ok_quiet b o x); [|by apply R2]. split; rewrite ?Et, ?Ed; try done.
    + intros st. rewrite Eth, map_app, times_app, (drop_times c (a, e)) by done. rewrite decide_False by congruence.
      assert (times (b, st) (map snd l) = 0) as ->; [|lia]. apply times_not_in. destruct Hl as [->|[s ->]]; [apply not_elem_of_nil | simpl; intros E%list_elem_of_singleton; congruence].
    + intros c'. by apply Hmem.
  - intros b Hb. destruct (decide (b = a)) as [->|Hba]; [done | rewrite Eo by done; by apply R3].
  - intros c' b st Hb. destruct (decide (b = a)) as [->|Hba]; [done|]. rewrite Eo by done. apply (R4 c' b st). by apply Hmem.
  - rewrite Eth, map_app. destruct (drop_nodup c _ R5) as [N1 N2]. destruct Hl as [->|[s ->]]; simpl; [done | by apply NoDup_cons].
Qed.

(** Its effect on the counts of the object of the call. *)
Lemma acc_thread x x' a o o' c e l h u h' u' cl cl' :
  acc x a o h u cl -> NoDup (map fst (dpc_threads x)) -> (c, (a, e)) ∈ dpc_threads x -> tsys x' = tsys x -> dpcs x' = dpcs x -> irq o' = irq o ->
  dpc_threads x' = l ++ drop_thread c (dpc_threads x) -> l = [] \/ (exists st, l = [(c, (a, st))]) ->
  has_handle o' = has_handle o -> closing o' = closing o -> users o' = users o -> fields_ok (td o') ->
  let n st := (if decide (e = st) then 1 else 0) - times (a, st) (map snd l) in
  refs o' - u' - h' + n releasing + n starting = refs o - u - h -> 0 <= h' -> h' - n starting <= h ->
  (forall c', cl' = Some c' <-> (c', (a, setting)) ∈ l \/ cl = Some c' /\ c' <> c) -> acc x' a o' h' u' cl'.
Proof.
  intros [C1 C2 C3 C4 C9 C5 C6 C7 C8] Hnd Hin Et Ed Ei Eth Hl Eh Ecl Eu Hf n Hr H1 H2 Hset.
  assert (forall st, times (a, st) (map snd (dpc_threads x')) = times (a, st) (map snd (dpc_threads x)) - n st) as Hn.
  { intros st. rewrite Eth, map_app, times_app, (drop_times c (a, e)) by done. unfold n. destruct (decide (e = st)) as [->|Hne]; [rewrite decide_True by done | rewrite decide_False by congruence]; lia. }
  unfold tokens, in_queue, in_call in *. split; unfold tokens, in_queue, in_call; rewrite ?Et, ?Ed, ?Ei, ?Hn, ?Eh, ?Ecl, ?Eu; try done; try lia.
  intros c'. rewrite Hset, Eth, elem_of_app, in_drop_thread, C6. tauto.
Qed.

Lemma drop_dpc_inv x c : dinv x -> denabled x (DropDpc c) -> exists x', drun x (DropDpc c) = Some x' /\ dinv x'.
Proof.
  intros I (_ & a & Hin). pose proof (r_one _ _ I) as Hnd. destruct (r_threads _ _ I c a releasing Hin) as [o Ha]. destruct (dinv_split x a o I Ha) as [R [O1 O2 O3 O4 O5]].
  simpl. rewrite (thread_dpc_in c (a, releasing)) by done. cbn [mbind option_bind]. set (x' := mkDSys _ _ _ _).
  assert (tokens x' a o = tokens x a o /\ in_queue x' a = in_queue x a) as [E1 E2].
  { unfold tokens, in_queue, in_call. simpl. rewrite (drop_times c (a, releasing)) by done. rewrite decide_False by congruence. split; [lia | done]. }
  apply (release_any _ a o); try done.
  - by apply (rest_ok_thread x x' a c releasing []); try done; left.
  - apply (acc_thread x x' a o o c releasing [] (token_of (lock o)) (user_of (lock o)) _ _ (caller_of (lock o))); try done; [by left | apply (c_fields _ _ _ _ _ _ O1) | simpl; lia | apply (c_h _ _ _ _ _ _ O1) | simpl; lia|].
    intros c'. split; [|intros [?%not_elem_of_nil|[? _]]; done]. intros Hc'. right. split; [done|]. intros ->. apply (c_setting _ _ _ _ _ _ O1) in Hc'. apply thread_dpc_in in Hc', Hin; [congruence | done | done].
  - rewrite E1. done.
  - intros Hf. by apply (free_ok_object x), O5.
Qed.

(** Counting with the stages of calls. *)
Ltac stages := repeat match goal with |- context [decide (?p = ?q)] => destruct (decide (p = q)); try congruence end; lia.

(** What [OnTimerFired] does to the object. *)
Lemma fired_fields t : fields_ok t -> wants t = true -> let '(sets, t') := OnTimerFired t in
  fields_ok t' /\ cancel_pending_ t' = false /\ (if sets : bool then deadline_ t' <> 0 else deadline_ t' = 0).
Proof.
  intros (F1 & F2 & F3 & F4) Hw. unfold OnTimerFired. destruct (cancel_pending_ t) eqn:Ep; simpl.
  - destruct (Z.eqb_spec (deadline_ t) 0); simpl; split_and!; done.
  - split_and!; try done; simpl; unfold is_i64; lia.
Qed.

Lemma run_dpc_inv x c : dinv x -> denabled x (RunDpc c) -> exists x', drun x (RunDpc c) = Some x' /\ dinv x'.
Proof.
  intros I (Hm%in_threads_mode & a & Hin & (o & Ha & Hf%is_free_lock)%object_is_true). pose proof (r_one _ _ I) as Hnd. destruct (dinv_split x a o I Ha) as [R [O1 O2 O3 O4 O5]]. rewrite Hf in *.
  simpl. rewrite (thread_dpc_in c (a, starting)) by done. cbn [mbind option_bind]. rewrite Ha. cbn [mbind option_bind].
  assert (0 < times (a, starting) (map snd (dpc_threads x))) as Hst by (apply times_in; by apply (list_elem_of_fmap_2 snd) in Hin).
  pose proof (tokens_split x a o) as Ts. pose proof (c_one _ _ _ _ _ _ O1) as C2. simpl in C2, O3. assert (wants (td o) = true) as Hw by (unfold pending in O3; rewrite Hf in O3; unfold wants; destruct (_ || _); [done | simpl in O3; lia]).
  pose proof (fired_fields (td o) (c_fields _ _ _ _ _ _ O1) Hw) as Hff. destruct (OnTimerFired (td o)) as [sets t]. destruct Hff as (F1 & F2 & F3). set (o1 := with_td t o).
  assert (in_queue x a = 0 /\ tokens x a o = 1) as [Hq Ht] by lia.
  assert (forall st h' u' cl', st = setting \/ st = releasing -> h' + u' = (if decide (st = releasing) then 0 else 1) -> 0 <= h' <= 1 -> (forall c', cl' = Some c' <-> st = setting /\ c' = c) ->
    let x1 := mkDSys (tsys x) (<[a := o1]> (objects x)) (dpcs x) ((c, (a, st)) :: drop_thread c (dpc_threads x)) in
    rest_ok x1 (Some a) /\ acc x1 a o1 h' u' cl' /\ tokens x1 a o1 = 0) as Hgo.
  { intros st h' u' cl' Hs Hhu Hh Hcl x1. split_and!.
    - apply (rest_ok_thread x x1 a c starting [(c, (a, st))]); try done; [intros b Hb; simpl; by rewrite lookup_insert_ne | simpl; rewrite lookup_insert_eq; done | right; by exists st].
    - apply (acc_thread x x1 a o o1 c starting [(c, (a, st))] 0 0 _ _ None); try done; [right; by exists st | | lia | |].
      + simpl. destruct Hs as [->| ->]; simpl in *; stages.
      + simpl. destruct Hs as [->| ->]; simpl; stages.
      + intros c'. rewrite Hcl. rewrite list_elem_of_singleton. split; [intros [-> ->]; by left | intros [E|[E _]]; [by injection E as -> -> | done]].
    - unfold tokens, in_queue, in_call. simpl. rewrite (drop_times c (a, starting)) by done. unfold tokens, in_queue, in_call in *. destruct Hs as [->| ->]; simpl; stages. }
  destruct sets.
  - destruct (Hgo setting 1 0 (Some c)) as (R1 & A1 & T1); [by left | done | lia | intros c'; split; [intros [= ->]; done | by intros [_ ->]]|].
    apply (start_locked _ _ _ _ _ 1 0 (Some c) R1 (lookup_insert_eq _ _ _) A1); try done; [simpl; rewrite O4; by intros []|].
    assert (list_in_list a (state (tsys x)) = false) as Hl by (unfold in_queue, zb in Hq; by destruct (list_in_list a (state (tsys x)))). simpl. rewrite Hl. split_and!; try done. rewrite T1. done.
  - destruct (Hgo releasing 0 0 None) as (R1 & A1 & T1); [by right | done | lia | intros c'; split; [done | by intros [? _]]|]. eexists. split; [done|].
    eapply dinv_join; [done | simpl; apply lookup_insert_eq|]. apply settled_ok; [|done]. split; [done | | |].
    + rewrite T1. unfold wants. simpl. by rewrite F2, F3.
    + simpl. rewrite O4. by intros [].
    + split; simpl; [congruence | by rewrite F3].
Qed.

(** ** [timer_cancel] returns *)

Lemma finish_zero_inv x a o :
  rest_ok x (Some a) -> objects x !! a = Some o -> acc x a o 0 0 None -> closing o = true -> a ∉ waiting (tsys x) -> in_queue x a = 0 -> deadline_ (td o) = 0 -> tokens x a o = zb (cancel_pending_ (td o)) ->
  exists x', finish_zero a x = Some x' /\ dinv x'.
Proof.
  intros R Ha A Hc Hw Hq Hd Ht. unfold finish_zero. rewrite Ha. cbn [mbind option_bind]. set (o1 := with_handle false false (with_lock free o)).
  assert (has_handle o = false) as Hh by (apply not_true_is_false; intros H; apply (c_handle _ _ _ _ _ _ A) in H; congruence).
  apply (object_release_inv _ a o1); [by apply rest_ok_put | simpl; apply lookup_insert_eq | | done].
  destruct (tokens_object x (put a o1 x) a o o1) as [E1 E2]; try done. split; try done.
  - apply (acc_object x _ a o o1 0 0 0 1); try done; [apply (c_fields _ _ _ _ _ _ A) | apply (c_users _ _ _ _ _ _ A) | simpl; rewrite Hh, Hc; simpl; lia].
  - rewrite E1, Ht. unfold wants. simpl. by rewrite Hd.
Qed.

(** A timer that has just been set. *)
Lemma set_settled x a o u d :
  acc x a o 0 u None -> in_queue x a = 1 -> slackDeadline (td o) = Some d -> due (tsys x) !! a = Some d -> a ∉ waiting (tsys x) -> deadline_ (td o) <> 0 -> cancel_pending_ (td o) = false -> settled x a o u.
Proof.
  intros A Hq Hd1 Hd2 Hw Hd Hp. split; try done.
  - pose proof (c_one _ _ _ _ _ _ A). pose proof (tokens_split x a o). unfold wants. destruct (Z.eqb_spec (deadline_ (td o)) 0); [done|]. simpl. lia.
  - split; [congruence|]. intros _ _. exists d. split_and!; try done. lia.
Qed.

Lemma continue_inv x c a : dinv x -> denabled x (Continue c a) -> exists x', drun x (Continue c a) = Some x' /\ dinv x'.
Proof.
  intros I ((o & Ha & Hnf)%object_is_true & Hm%in_threads_mode & Hact). destruct (dinv_split x a o I Ha) as [R [O1 O2 O3 O4 O5]].
  assert (lock o <> free) as Hl by (intros E; unfold is_free in Hnf; by rewrite E in Hnf). cbn [drun]. rewrite Ha. cbn [mbind option_bind].
  destruct (cancel_done_spec x a o _ _ _ R Ha O1 (proj2 O4 Hl) Hact) as (t & Et & R1 & A1 & Q1 & W1 & Act1 & M1 & _). rewrite Et. cbn [mbind option_bind]. set (x1 := with_tsys t x) in *.
  assert (modes (tsys x1) !! c = Some Running) as Hm1 by (simpl; by rewrite M1). pose proof (c_refs _ _ _ _ _ _ O1) as C1. pose proof (c_refs _ _ _ _ _ _ A1) as C2. simpl in C2.
  assert (tokens x1 a o + token_of (lock o) = zb (pending o)) as Ht by lia. unfold lock_ok in O2. unfold pending in Ht. destruct (lock o) as [|b d s| |b|b| |cpu] eqn:El; try done; simpl token_of in *; simpl user_of in *; simpl caller_of in *.
  - destruct O2 as (D1 & D2 & D3 & D4). destruct (finish_cancel_spec x1 a o b 1 None R1 Ha A1) as (o' & -> & R2 & A2 & T2 & _ & Tk2); try done; [destruct (closing o); simpl; lia|]. cbn [mbind option_bind].
    apply (finish_set_inv _ a o'); try done; [simpl; apply lookup_insert_eq | by rewrite T2 | by rewrite Tk2, T2].
  - destruct O2 as [D1 D2]. destruct (set_timer_spec x1 a o 1 1 None R1 Ha A1 c) as (t2 & d & -> & R2 & A2 & Q2 & S2 & Du2 & W2); try done. cbn [mbind option_bind].
    apply (unlock_inv _ a o); try done. apply (set_settled _ _ _ _ d); try done. simpl. by rewrite W2.
  - destruct O2 as [D1 D2]. destruct (finish_cancel_spec x1 a o b 1 None R1 Ha A1) as (o' & -> & R2 & A2 & T2 & _ & Tk2); try done; [destruct (closing o); simpl; lia|]. cbn [mbind option_bind].
    apply (unlock_inv _ a o'); [done | simpl; apply lookup_insert_eq|]. split; [done | | done |].
    + rewrite Tk2. unfold wants. rewrite T2. simpl. by rewrite D1.
    + split; rewrite T2; simpl; [done | by rewrite D1].
  - destruct O2 as (D1 & D2 & D3). destruct (finish_cancel_spec x1 a o b 0 None R1 Ha A1) as (o' & -> & R2 & A2 & T2 & Cl2 & Tk2); try done; [rewrite D3; simpl; lia|]. cbn [mbind option_bind].
    apply (finish_zero_inv _ a o'); try done; [simpl; apply lookup_insert_eq | by rewrite Cl2 | by rewrite T2 | by rewrite Tk2, T2].
  - destruct O2 as [D1 D2]. apply (finish_zero_inv _ a o); try done. rewrite D1 in Ht. simpl in Ht. lia.
  - destruct O2 as [D1 D2]. destruct (set_timer_spec x1 a o 1 0 (Some cpu) R1 Ha A1 c) as (t2 & d & -> & R2 & A2 & Q2 & S2 & Du2 & W2); try done. cbn [mbind option_bind].
    set (x2 := with_tsys t2 x1) in *. assert (objects x2 !! a = Some o) as Ha2 by done. rewrite Ha2. cbn [mbind option_bind]. eexists. split; [done|]. set (x3 := mkDSys _ _ _ _).
    pose proof (r_one _ _ R2) as Hnd. assert ((cpu, (a, setting)) ∈ dpc_threads x2) as Hin by (by apply (c_setting _ _ _ _ _ _ A2)).
    assert (rest_ok x3 (Some a)) as R3.
    { apply (rest_ok_thread x2 x3 a cpu setting []); try done; [intros b Hb; simpl; by rewrite lookup_insert_ne | simpl; rewrite lookup_insert_eq; done | by left]. }
    assert (acc x3 a (with_lock free o) 0 0 None) as A3.
    { apply (acc_thread x2 x3 a o _ cpu setting [] 0 0 _ _ (Some cpu)); try done; [by left | apply (c_fields _ _ _ _ _ _ A2) | simpl; lia|].
      intros c'. split; [done | intros [?%not_elem_of_nil|[[= ->] ?]]; done]. }
    eapply dinv_join; [done | simpl; apply lookup_insert_eq|]. apply settled_ok; [|done]. apply (set_settled _ _ _ _ d); try done. simpl. by rewrite W2.
Qed.

(** ** Deferred calls *)

Lemma irq_inv x c : dinv x -> denabled x (Irq c) -> exists x', drun x (Irq c) = Some x' /\ dinv x'.
Proof.
  intros I (now & a & o & Hm & Ha & Hi). destruct (dinv_split x a o I Ha) as [R [O1 O2 O3 O4 O5]]. simpl. rewrite Hm. rewrite Ha. cbn [mbind option_bind].
  destruct (a_calling _ _ (n_callbacks _ _ _ _ (r_timers _ _ I)) c now a Hm) as (y & Hy & Hac). rewrite Hy. cbn [mbind option_bind].
  assert (active a (state (tsys x)) = true) as Hact.
  { unfold active. rewrite Hy, Hac. rewrite Z.geb_leb. apply Z.leb_le. apply (n_nonneg _ _ _ _ (r_timers _ _ I)). by exists (Calling now a). }
  assert (in_call x a o = 1) as Hc by (unfold in_call; by rewrite Hact, Hi). pose proof (tokens_split x a o) as Ts. pose proof (c_one _ _ _ _ _ _ O1) as C2. pose proof (c_h _ _ _ _ _ _ O1) as C3.
  destruct (c_timer _ _ _ _ _ _ O1) as (y0 & Hy0 & Hcb). assert (y0 = y) as -> by congruence. rewrite Hcb by lia. cbn [mbind option_bind].
  assert (a ∉ map snd (dpcs x)) as Hnd by (apply times_not_in; lia). eexists. split; [done|]. unfold dpc_queue, dpc_in_list. simpl. rewrite (bool_decide_eq_false_2 _ Hnd).
  set (o1 := with_irq true o). set (x1 := mkDSys _ _ _ _). assert (forall b, times b (map snd (dpcs x1)) = times b (map snd (dpcs x)) + if decide (a = b) then 1 else 0) as Hd.
  { intros b. simpl. rewrite map_app, times_app. simpl. lia. }
  assert (tokens x1 a o1 = tokens x a o) as E1.
  { rewrite (proj2 (proj2 (proj2 (proj2 (tokens_split x1 a o1))))). rewrite Hd, decide_True by done. unfold in_queue, in_call in *. simpl. rewrite andb_false_r. simpl. lia. }
  assert (rest_ok x1 (Some a)) as R1.
  { destruct R as [R1 R2 R3 R4 R5 R6]. split; try done.
    - intros b o' Hb Ho'. simpl in Ho'. rewrite lookup_insert_ne in Ho' by congruence. apply (obj_ok_quiet b o' x); [|by apply R2]. split; try done. split.
      + rewrite Hd, decide_False by congruence. lia.
      + intros _ c' Hin _. simpl. apply elem_of_app. by left.
    - intros b Hb. simpl in *. rewrite map_app in Hb. apply elem_of_app in Hb as [Hb|Hb].
      + destruct (decide (b = a)) as [->|Hne]; [rewrite lookup_insert_eq; done | rewrite lookup_insert_ne by done; by apply R3].
      + simpl in Hb. apply list_elem_of_singleton in Hb as ->. rewrite lookup_insert_eq. done.
    - intros c' b st Hb. simpl. destruct (decide (b = a)) as [->|Hne]; [rewrite lookup_insert_eq; done | rewrite lookup_insert_ne by done; by apply (R4 c' b st)]. }
  eapply dinv_join; [done | simpl; apply lookup_insert_eq|]. split; try done.
  - destruct O1 as [B1 B2 B3 B4 B9 B5 B6 B7 B8]. split; try done; [by rewrite E1 | by rewrite E1 | |].
    + intros _. exists c, now. split; [done|]. simpl. apply elem_of_app. right. apply list_elem_of_here.
    + exists y. split; [done|]. intros _. apply Hcb. lia.
  - by rewrite E1.
  - intros Hf. by apply (free_ok_object x), O5.
Qed.

Lemma take_dpc_spec c l : c ∈ map fst l -> exists a l', take_dpc c l = Some (a, l') /\ (c, a) ∈ l /\ (forall b, times b (map snd l) = times b (map snd l') + if decide (a = b) then 1 else 0) /\
  forall c' b, c' <> c -> (c', b) ∈ l -> (c', b) ∈ l'.
Proof.
  induction l as [|[c0 a0] l IH]; [by intros ?%not_elem_of_nil|]. simpl. intros Hc. destruct (Z.eqb_spec c0 c) as [->|Hne].
  - exists a0, l. split_and!; [done | apply list_elem_of_here | intros b; destruct (decide (a0 = b)); lia|]. intros c' b Hcc [E|?]%elem_of_cons; [congruence | done].
  - apply elem_of_cons in Hc as [?|Hc]; [congruence|]. destruct (IH Hc) as (a & l' & E & H1 & H2 & H3). rewrite E. cbn [mbind option_bind]. exists a, ((c0, a0) :: l'). split_and!; [done | by right | |].
    + intros b. simpl. rewrite H2. lia.
    + intros c' b Hcc [E'|?]%elem_of_cons; [apply elem_of_cons; by left | right; by apply H3].
Qed.

Lemma take_dpc_inv x c : dinv x -> denabled x (TakeDpc c) -> exists x', drun x (TakeDpc c) = Some x' /\ dinv x'.
Proof.
  intros I (Hm%in_threads_mode & Hno & Hc). destruct (take_dpc_spec c _ Hc) as (a & l' & E & Hin & Htimes & Hkeep). simpl. rewrite E. cbn [mbind option_bind]. eexists. split; [done|]. set (x1 := mkDSys _ _ _ _).
  destruct (r_dpcs _ _ I a) as [o Ha]; [by apply (list_elem_of_fmap_2 snd) in Hin|]. destruct (dinv_split x a o I Ha) as [R [O1 O2 O3 O4 O5]].
  assert (0 < times a (map snd (dpcs x))) as Hta by (apply times_in; by apply (list_elem_of_fmap_2 snd) in Hin). pose proof (tokens_split x a o) as Ts. pose proof (c_one _ _ _ _ _ _ O1) as C2. pose proof (c_h _ _ _ _ _ _ O1) as C3.
  assert (tokens x1 a o = tokens x a o) as E1.
  { rewrite (proj2 (proj2 (proj2 (proj2 (tokens_split x1 a o))))). pose proof (Htimes a) as Hd. rewrite decide_True in Hd by done. unfold in_queue, in_call in *. simpl. rewrite decide_True by done. lia. }
  assert (irq o = false) as Hi.
  { apply not_true_is_false. intros Hi. destruct (c_irq _ _ _ _ _ _ O1 Hi) as (c' & now & Hc' & Hin'). assert (c' <> c) as Hcc by congruence. pose proof (Hkeep c' a Hcc Hin') as Hk.
    assert (0 < times a (map snd l')) by (apply times_in; by apply (list_elem_of_fmap_2 snd) in Hk). pose proof (Htimes a) as Hd. rewrite decide_True in Hd by done. lia. }
  assert (forall c' b, (c', (b, setting)) ∈ dpc_threads x1 <-> (c', (b, setting)) ∈ dpc_threads x) as Hset by (intros c' b; simpl; rewrite elem_of_cons; intuition congruence).
  apply (dinv_join _ a o); [|done|].
  - destruct R as [R1 R2 R3 R4 R5 R6]. split; try done.
    + intros b o' Hb Ho'. assert (a <> b) as Hab by congruence. apply (obj_ok_quiet b o' x); [|by apply R2]. split; [done | done | done | | |].
      * split; [simpl; rewrite (Htimes b), decide_False by done; lia|]. intros _ c' Hin' [now Hn]. simpl. apply Hkeep; [congruence | done].
      * intros st. simpl. rewrite decide_False by congruence. lia.
      * intros c'. apply Hset.
    + intros b Hb. apply R3. apply times_in. rewrite Htimes. apply times_in in Hb. simpl in Hb. destruct (decide (a = b)); lia.
    + intros c' b st Hb. simpl in Hb. apply elem_of_cons in Hb as [[= -> -> ->]|Hb]; [by exists o | by apply (R4 c' b st)].
    + simpl. apply NoDup_cons. split; [|done]. intros ([c0 e0] & -> & Hb)%list_elem_of_fmap_1. by apply (Hno e0).
  - split; try done.
    + destruct O1 as [B1 B2 B3 B4 B9 B5 B6 B7 B8]. split; try done; [|by rewrite E1 | |by rewrite Hi].
      * rewrite E1. simpl. rewrite decide_False by congruence. lia.
      * intros c'. rewrite Hset. apply B6.
    + by rewrite E1.
    + intros Hf. by apply (free_ok_object x), O5.
Qed.

Lemma move_dpcs_spec c old l : (forall b, times b (map snd (move_dpcs c old l)) = times b (map snd l)) /\ forall c' b, c' <> old -> (c', b) ∈ l -> (c', b) ∈ move_dpcs c old l.
Proof.
  split.
  - intros b. unfold move_dpcs. rewrite map_app, times_app, map_map. simpl. induction l as [|[c0 a0] l IH]; [done|]. destruct (decide (c0 = old)) as [->|Hne].
    + rewrite filter_cons_False by (simpl; tauto). rewrite filter_cons_True by done. simpl. simpl in IH. lia.
    + rewrite filter_cons_True by done. rewrite filter_cons_False by (simpl; tauto). simpl. simpl in IH. lia.
  - intros c' b Hc Hin. unfold move_dpcs. apply elem_of_app. left. by apply list_elem_of_filter.
Qed.

Lemma move_dpcs_inv x c old : dinv x -> denabled x (MoveDpcs c old) -> exists x', drun x (MoveDpcs c old) = Some x' /\ dinv x'.
Proof.
  intros [R1 R2 R3 R4 R5 R6] (_ & Hm%in_threads_mode & _). destruct (move_dpcs_spec c old (dpcs x)) as [M1 M2]. simpl. eexists. split; [done|]. split; try done.
  - intros b o _ Ho. apply (obj_ok_quiet b o x); [|by apply R2]. split; try done. split; [apply M1|]. intros _ c' Hin [now Hn]. simpl. apply M2; [congruence | done].
  - intros b Hb. apply R3. apply times_in. rewrite <- M1. by apply times_in.
Qed.

(** ** New objects, and kernel timers *)

Definition now_ok (t : TSys) : Prop := forall c, match modes t !! c with Some (Ticking now) | Some (Calling now _) => now <= clock t | _ => True end.

(** Modes and clock. *)
Lemma trun_modes t e t' : tenabled t e -> trun t e = Some t' -> now_ok t ->
  clock t <= clock t' /\ now_ok t' /\ forall c now a, modes t !! c = Some (Calling now a) -> modes t' !! c = Some (Calling now a) \/ e = Fired c.
Proof.
  assert (forall s, clock t <= clock (with_state s t) /\ (now_ok t -> now_ok (with_state s t)) /\ forall c now a, modes t !! c = Some (Calling now a) -> modes (with_state s t) !! c = Some (Calling now a) \/ e = Fired c) as Hs.
  { intros s. split_and!; [simpl; lia | done | tauto]. }
  assert (forall c md s, (match md with Ticking now | Calling now _ => now <= clock t | _ => True end) -> now_ok t -> now_ok (with_mode c md s t)) as Hn.
  { intros c md s Hmd Hn c'. simpl. destruct (decide (c = c')) as [->|Hne]; [rewrite lookup_insert_eq | rewrite lookup_insert_ne by done; apply Hn]. by destruct md. }
  assert (forall c md s, (forall now a, modes t !! c <> Some (Calling now a)) \/ e = Fired c -> forall c' now a, modes t !! c' = Some (Calling now a) -> modes (with_mode c md s t) !! c' = Some (Calling now a) \/ e = Fired c') as Hk.
  { intros c md s Hc c' now a Hm. simpl. destruct (decide (c = c')) as [->|Hne]; [destruct Hc as [Hc|Hc]; [by destruct (Hc now a) | by right] | rewrite lookup_insert_ne by done; by left]. }
  intros He Hr Hnow. destruct e; simpl in He, Hr; try (simplify_option_eq; split_and!; [simpl; lia | by apply Hs | by apply Hs]).
  - injection Hr as <-. simpl. split_and!; [done | | tauto]. intros c. specialize (Hnow c). simpl. destruct (modes t !! c) as [[]|]; lia.
  - injection Hr as <-. split_and!; [simpl; lia | by apply Hs | tauto].
  - injection Hr as <-. split_and!; [simpl; lia | by apply Hs | tauto].
  - apply bind_Some in Hr as (s & _ & Hr). injection Hr as <-. simpl. split_and!; [lia | done | tauto].
  - destruct (timer_cancel _ _ _) as [[? ?]|]; [|done]. injection Hr as <-. simpl. split_and!; [lia | done | tauto].
  - apply bind_Some in Hr as (s & _ & Hr). injection Hr as <-. simpl. split_and!; [lia | done | tauto].
  - apply in_threads_mode in He. destruct (timer_tick _ _ _) as [[? s]|]; [|done]. injection Hr as <-. split_and!; [simpl; lia | apply Hn; [lia | done] | apply Hk; left; congruence].
  - destruct He as [now Hm]. rewrite Hm in Hr. destruct (timer_tick_next _ _ _) as [[r s]|]; [|done]. injection Hr as <-. pose proof (Hnow cpu) as Hc. rewrite Hm in Hc.
    split_and!; [simpl; lia | apply Hn; [by destruct r | done] | apply Hk; left; congruence].
  - destruct He as (now & a & Hm). rewrite Hm in Hr. apply bind_Some in Hr as (s & _ & Hr). injection Hr as <-. pose proof (Hnow cpu) as Hc. rewrite Hm in Hc. split_and!; [simpl; lia | by apply Hn | exact (Hk _ _ _ (or_intror eq_refl))].
  - destruct He as (d & Hm). rewrite Hm in Hr. apply bind_Some in Hr as (s & _ & Hr). injection Hr as <-. split_and!; [simpl; lia | by apply Hn | apply Hk; left; congruence].
Qed.

(** A step of the kernel timers on which the object does not depend. *)
Lemma timers_quiet x e t b o :
  dinv x -> tenabled (tsys x) e -> trun (tsys x) e = Some t -> unmoved b (tsys x) t -> (irq o = true -> forall c now, e = Fired c -> modes (tsys x) !! c <> Some (Calling now b)) -> quiet b o x (with_tsys t x).
Proof.
  intros I He Hr Hu Hf. destruct (trun_modes _ _ _ He Hr (r_now _ _ I)) as (Hc & _ & Hm). split; try done. intros c now Hi Hcm. destruct (Hm _ _ _ Hcm) as [?|E]; [done|]. by destruct (Hf Hi c now E).
Qed.

Lemma with_tsys_inv x e t : dinv x -> tenabled (tsys x) e -> trun (tsys x) e = Some t -> tinv t -> (forall b o, objects x !! b = Some o -> obj_ok (with_tsys t x) b o) -> dinv (with_tsys t x).
Proof.
  intros I He Hr It Ho. destruct (trun_modes _ _ _ He Hr (r_now _ _ I)) as (_ & Hn & _). destruct I as [R1 R2 R3 R4 R5 R6]. split; try done. intros b o _. apply Ho.
Qed.

(** A callback begins. *)
Lemma round_inv x c : dinv x -> tenabled (tsys x) (Round c) -> exists t, trun (tsys x) (Round c) = Some t /\ dinv (with_tsys t x).
Proof.
  intros I He. destruct (tstep _ _ (r_timers _ _ I) He) as (t & Hr & It & Hun). exists t. split; [done|]. apply (with_tsys_inv x (Round c)); try done. intros b o Ho.
  destruct He as [now Hc]. pose proof Hr as Hr'. simpl in Hr'. rewrite Hc in Hr'. destruct (timer_tick_next_spec _ _ _ _ c now (r_timers _ _ I) Hc) as (r & s' & Es & Hs). rewrite Es in Hr'. cbn [mbind option_bind] in Hr'. injection Hr' as <-.
  assert (tenabled (tsys x) (Round c)) as He by (by exists now). assert (modes (with_mode c (match r with inl t => Calling now t | inr d => Ending d end) s' (tsys x)) !! c = Some (match r with inl t => Calling now t | inr d => Ending d end)) as Em by apply lookup_insert_eq.
  destruct (decide (r = inl b)) as [->|Hne].
  2: { apply (obj_ok_quiet b o x); [|by apply (r_objects _ _ I)]. apply (timers_quiet x (Round c)); try done. apply Hun. intros [n' Hn]. rewrite Em in Hn. destruct r; congruence. }
  destruct Hs as (y & Hy & Hac & Hy' & Hq & Htime & Hq' & Hot & I'). set (t := with_mode _ _ _ _) in *. destruct (r_objects _ _ I b o) as [O1 O2 O3 O4 O5]; [done | done|].
  pose proof (proj2 (list_in_list_true _ _) Hq) as L1. pose proof (proj2 (list_in_list_false _ _) Hq') as L2.
  assert (active b (state (tsys x)) = false) as A1 by (unfold active; by rewrite Hy, Hac). assert (active b s' = true) as A2.
  { unfold active. rewrite Hy'. simpl. rewrite Z.geb_leb. apply Z.leb_le. apply (n_nonneg _ _ _ _ (r_timers _ _ I)). by exists (Ticking now). }
  assert (irq o = false) as Hi.
  { apply not_true_is_false. intros Hi. destruct (c_irq _ _ _ _ _ _ O1 Hi) as (c' & n' & Hc' & _). destruct (a_calling _ _ (n_callbacks _ _ _ _ (r_timers _ _ I)) c' n' b Hc') as (y0 & Hy0 & Ea).
    assert (0 <= c') by (apply (n_nonneg _ _ _ _ (r_timers _ _ I)); by exists (Calling n' b)). assert (y0 = y) by congruence. subst. lia. }
  assert (lock o = free) as Hf.
  { destruct (decide (is_free o = true)) as [?%is_free_lock|Hnf]; [done|]. destruct (n_waiting _ _ _ _ (r_timers _ _ I) b) as [? _]; [|done]. apply O4. intros E. apply Hnf. unfold is_free. by rewrite E. }
  assert (in_queue x b = 1 /\ in_call x b o = 0 /\ in_queue (with_tsys t x) b = 0 /\ in_call (with_tsys t x) b o = 1) as (Q1 & Q2 & Q3 & Q4).
  { unfold in_queue, in_call. simpl. by rewrite L1, L2, A1, A2, Hi. }
  assert (tokens (with_tsys t x) b o = tokens x b o) as Et.
  { destruct (tokens_split x b o) as (_ & _ & _ & _ & ->). destruct (tokens_split (with_tsys t x) b o) as (_ & _ & _ & _ & ->). rewrite Q1, Q2, Q3, Q4. simpl. lia. }
  split; try done; [|by rewrite Et|].
  - destruct O1 as [C1 C2 C3 C4 C9 C5 C6 C7 C8]. split; rewrite ?Et; try done; [by rewrite Hi|]. destruct C8 as (y0 & Hy0 & Hcb). assert (y0 = y) as -> by congruence.
    exists (set_active c y). split; [done|]. intros _. apply Hcb. lia.
  - intros _. specialize (O5 Hf). destruct O5 as [F1 F2]. split; [done|]. intros Hp Hd. destruct (F2 Hp Hd) as (d & Hd1 & Hd2 & _). exists d. split_and!; try done. intros _.
    pose proof (r_now _ _ I c) as Hnow. rewrite Hc in Hnow. simpl. destruct (k_due _ _ (n_queues _ _ _ _ (r_timers _ _ I)) b Hq) as (_ & d1 & Hd3 & Hw). assert (d1 = d) as -> by congruence. lia.
Qed.

(** A callback returns. *)
Lemma fired_inv x c : dinv x -> tenabled (tsys x) (Fired c) -> timers_enabled (Fired c) x -> exists x', drun x (Timers (Fired c)) = Some x' /\ dinv x'.
Proof.
  intros I He Hti. destruct (tstep _ _ (r_timers _ _ I) He) as (t & Hr & It & Hun). cbn [drun]. rewrite Hr. cbn [mbind option_bind]. pose proof He as (now & a & Hc). rewrite Hc.
  assert (forall b o, b <> a -> objects x !! b = Some o -> obj_ok (with_tsys t x) b o) as Hothers.
  { intros b o Hb Ho. apply (obj_ok_quiet b o x); [|by apply (r_objects _ _ I)]. apply (timers_quiet x (Fired c)); try done; [apply Hun; intros [n Hn]; congruence | intros _ c' n [= <-]; congruence]. }
  destruct (objects x !! a) as [o|] eqn:Ha.
  2: { eexists. split; [done|]. apply (with_tsys_inv x (Fired c)); try done. intros b o Ho. apply Hothers; congruence. }
  eexists. split; [done|]. destruct (trun_modes _ _ _ He Hr (r_now _ _ I)) as (Hcl & Hn & _).
  pose proof (Hti now a o Hc Ha) as Hi. destruct (timer_tick_fired_spec _ _ _ _ c now a (r_timers _ _ I) Hc) as (y & s' & Hy & Hac & Es & -> & _). simpl in Hr. rewrite Hc, Es in Hr. cbn [mbind option_bind] in Hr. injection Hr as <-.
  destruct (dinv_split x a o I Ha) as [R [O1 O2 O3 O4 O5]]. set (s' := put_timer a (set_active (-1) y) (state (tsys x))) in *. set (o1 := with_irq false o). set (t := with_mode c (Ticking now) s' (tsys x)) in *. set (x1 := put a o1 (with_tsys t x)).
  assert (in_queue x1 a = in_queue x a) as Eq by done. assert (in_call x1 a o1 = 0 /\ in_call x a o = 0) as [Ec1 Ec].
  { unfold in_call. rewrite Hi, andb_false_r. split; [|done]. unfold active. simpl. rewrite lookup_insert_eq. done. }
  assert (tokens x1 a o1 = tokens x a o) as Et.
  { destruct (tokens_split x1 a o1) as (_ & _ & _ & _ & ->). destruct (tokens_split x a o) as (_ & _ & _ & _ & ->). rewrite Eq, Ec, Ec1. simpl. lia. }
  apply (dinv_join x1 a o1); [apply rest_ok_put; [|done|by exists o] | simpl; apply lookup_insert_eq|].
  - destruct R as [R1 R2 R3 R4 R5 R6]. split; try done. intros b o' Hb Ho'. apply Hothers; [congruence | done].
  - split; try done; [|by rewrite Et | intros Hf; specialize (O5 Hf)].
    + destruct O1 as [C1 C2 C3 C4 C9 C5 C6 C7 C8]. split; rewrite ?Et; try done. destruct C8 as (y0 & Hy0 & Hcb). assert (y0 = y) as -> by congruence.
      exists (set_active (-1) y). split; [simpl; apply lookup_insert_eq|]. rewrite Eq, Ec1. intros Hp. apply Hcb. lia.
    + destruct O5 as [F1 F2]. by split.
Qed.

Lemma create_inv x a options : dinv x -> denabled x (CreateTimer a options) -> exists x', drun x (CreateTimer a options) = Some x' /\ dinv x'.
Proof.
  intros I [Ha Hopt]. simpl. unfold Create. destruct (_ >? _) eqn:Ho; simpl; [by eexists|]. rewrite Z.gtb_ltb in Ho. apply Z.ltb_ge in Ho. eexists. split; [done|].
  set (t := with_state (put_timer a timer_init (state (tsys x))) (tsys x)). set (o := mkObject _ _ _ _ _ _ _).
  destruct (tstep (tsys x) (NewTimer a) (r_timers _ _ I) Ha) as (t' & Hr & It & Hun). assert (t' = t) as -> by (simpl in Hr; by injection Hr as <-).
  assert (forall b o', b <> a -> objects x !! b = Some o' -> obj_ok (with_tsys t x) b o') as Hothers.
  { intros b o' Hb Hob. apply (obj_ok_quiet b o' x); [|by apply (r_objects _ _ I)]. apply (timers_quiet x (NewTimer a)); try done. apply Hun. simpl. congruence. }
  assert (objects x !! a = None) as Hna.
  { destruct (objects x !! a) as [o'|] eqn:E; [|done]. destruct (c_timer _ _ _ _ _ _ (o_acc _ _ _ (r_objects _ _ I a o' ltac:(done) E))) as (y & Hy & _). congruence. }
  destruct I as [R1 R2 R3 R4 R5 R6].
  assert (a ∉ map snd (dpcs x)) as Hnd by (intros [? ?]%R3; congruence). assert (forall c st, (c, (a, st)) ∉ dpc_threads x) as Hnt by (intros c st [? ?]%R4; congruence).
  assert (forall st, times (a, st) (map snd (dpc_threads x)) = 0) as Ht0.
  { intros st. apply times_not_in. intros ([c e] & E & Hin)%list_elem_of_fmap_1. simpl in E. subst e. by apply (Hnt c st). }
  set (x1 := put a o (with_tsys t x)). assert (in_queue x1 a = 0 /\ in_call x1 a o = 0) as [Eq Ec].
  { unfold in_queue, in_call. split.
    - assert (list_in_list a (state (tsys x1)) = false) as ->; [|done]. apply list_in_list_false. intros Hq. destruct (k_due _ _ (n_queues _ _ _ _ R1) a) as [[? ?] _]; [by apply Hq | congruence].
    - unfold active. simpl. rewrite lookup_insert_eq. done. }
  assert (tokens x1 a o = 0) as Et by (destruct (tokens_split x1 a o) as (_ & _ & _ & _ & ->); rewrite Eq, Ec; simpl; rewrite Ht0; apply times_not_in in Hnd; lia).
  apply (dinv_join x1 a o); [| simpl; apply lookup_insert_eq | apply settled_ok; [|done]].
  - split; try done.
    + intros b o' Hb Hob. simpl in Hob. rewrite lookup_insert_ne in Hob by congruence. apply (obj_ok_quiet b o' (with_tsys t x)); [done | apply Hothers; [congruence | done]].
    + intros b Hb. simpl. destruct (decide (b = a)) as [->|Hne]; [done | rewrite lookup_insert_ne by done; by apply R3].
    + intros c b st Hb. simpl. destruct (decide (b = a)) as [->|Hne]; [by destruct (Hnt c st) | rewrite lookup_insert_ne by done; by apply (R4 c b st)].
  - split; [| by rewrite Et | | by split].
    + split; try done; [rewrite Et; simpl; rewrite Ht0; lia | | |].
      * unfold fields_ok, is_i64. simpl. unfold ZX_TIMER_SLACK_LATE in Ho. lia.
      * intros c. split; [by intros ?%Hnt | done].
      * exists timer_init. split; [simpl; apply lookup_insert_eq | rewrite Eq, Ec; lia].
    + simpl. intros Hw. destruct (n_waiting _ _ _ _ R1 a Hw) as (_ & y & Hy & _). congruence.
Qed.

(** ** Every step *)

Lemma timers_inv x e : dinv x -> denabled x (Timers e) -> exists x', drun x (Timers e) = Some x' /\ dinv x'.
Proof.
  intros I [He Hti]. destruct (tstep _ _ (r_timers _ _ I) He) as (t & Hr & It & Hun).
  assert ((forall c, e <> Fired c) -> (forall b o, objects x !! b = Some o -> ~ about e b (tsys x) t) -> exists x', drun x (Timers e) = Some x' /\ dinv x') as Hq.
  { intros Hnf Hna. exists (with_tsys t x). split; [destruct e; cbn [drun]; try (by rewrite Hr); by destruct (Hnf cpu)|].
    apply (with_tsys_inv x e); try done. intros b o Ho. apply (obj_ok_quiet b o x); [|by apply (r_objects _ _ I)]. apply (timers_quiet x e); try done; [apply Hun; by apply (Hna b o) | intros _ c now Hf; by destruct (Hnf c)]. }
  destruct e; try (apply Hq; [done|]; intros b o Ho; simpl in *; congruence); try (apply Hq; [done|]; intros b o Ho; simpl; tauto).
  - destruct (round_inv x cpu I He) as (t' & Hr' & I'). exists (with_tsys t' x). split; [|done]. cbn [drun]. by rewrite Hr'.
  - by apply fired_inv.
Qed.

Lemma dstep x e : dinv x -> denabled x e -> exists x', drun x e = Some x' /\ dinv x'.
Proof.
  destruct e; [apply timers_inv | apply create_inv | apply timer_enter_inv | apply timer_leave_inv | apply call_set_inv | apply call_cancel_inv | apply timer_close_inv | apply timer_zero_handles_inv | apply continue_inv |
    apply irq_inv | apply take_dpc_inv | apply run_dpc_inv | apply drop_dpc_inv | apply move_dpcs_inv].
Qed.

Lemma dreachable_inv n x : dreachable n x -> dinv x.
Proof.
  induction 1 as [|x e x' _ IH He Hr].
  - split; try done; [apply (treachable_inv n), tr_init | by intros b ?%not_elem_of_nil | by intros c b st ?%not_elem_of_nil | apply NoDup_nil_2|].
    intros c. simpl. rewrite init_lookup. by destruct (_ && _).
  - destruct (dstep x e IH He) as (x1 & E & I1). congruence.
Qed.
