(* ===== verification/TimerDispatcherTheorems.v ===== *)
(** * Correctness of TimerDispatcher: theorems

    No sequence of system calls, interrupts and deferred calls makes a timer object fail
    an assertion or touch one that has been deleted; a timer that is set is never lost
    and never signals before its window; an object that nobody uses is deleted. *)

From S2P Require Import Prelude Zx Deadline Timer TimerFacts TimerSystem TimerInv TimerSteps TimerTheorems TimerDispatcher TimerDispatcherFacts TimerDispatcherSteps.
Import Timer TimerDispatcher.

(** C2: In every state that timer objects, kernel timers and deferred calls reach
    together, whatever can happen next happens without a failed assertion, a panic or
    the use of a deleted object: the timer and the call inside an object are idle when
    it is deleted, no reference is dropped twice, and [CancelTimerLocked] never drops
    the last one. *)
Theorem timer_objects_never_fail n x e : dreachable n x -> denabled x e -> exists x', drun x e = Some x'.
Proof. intros Hr He. destruct (dstep x e (dreachable_inv n x Hr) He) as (x' & Hx & _). by exists x'. Qed.

(** ** Set timers *)

(** C10: An object that has a deadline, and whose lock is free, has its timer in
    exactly one place: in the queue of one processor, in the interrupt of one, in one
    list of deferred calls or in one thread that is about to run the call.  While it is
    in a queue it is set for the deadline the object shows, and the one-shot timer of
    the processor goes off before the window ends; when it has left the queue the window
    has begun.  If a cancelled call is still to come, it is that call which sets the
    timer. *)
Theorem set_timer_not_lost n x a o :
  dreachable n x -> objects x !! a = Some o -> lock o = free -> deadline_ (td o) <> 0 ->
  tokens x a o = 1 /\ 0 < refs o /\
  (cancel_pending_ (td o) = true -> in_queue x a = 0 /\ fst (OnTimerFired (td o)) = true) /\
  (cancel_pending_ (td o) = false -> exists d, slackDeadline (td o) = Some d /\
    (in_queue x a = 0 -> earliest d <= clock (tsys x)) /\
    forall c p, percpus (state (tsys x)) !! c = Some p -> a ∈ timer_queue p -> earliest d <= time_of (state (tsys x)) a <= latest d /\
      (modes (tsys x) !! c = Some Running -> latest d <> ZX_TIME_INFINITE -> exists go, platform p = Some go /\ go <= latest d)).
Proof.
  intros Hr Ha Hf Hd. destruct (dinv_split x a o (dreachable_inv n x Hr) Ha) as [R [O1 O2 O3 O4 O5]]. rewrite Hf in *. specialize (O5 eq_refl).
  assert (pending o = true) as Hp by (unfold pending; rewrite Hf; by destruct (Z.eqb_spec (deadline_ (td o)) 0)). rewrite Hp in O3. simpl in O3.
  assert (tokens x a o = 1) as Ht by lia. split_and!; [exact Ht | | |].
  - pose proof (c_refs _ _ _ _ _ _ O1) as C1. pose proof (c_users _ _ _ _ _ _ O1). pose proof (times_nonneg (a, releasing) (map snd (dpc_threads x))). assert (forall b, 0 <= zb b) as Hz by (intros []; simpl; lia).
    pose proof (Hz (has_handle o)). pose proof (Hz (closing o)). simpl in C1. lia.
  - intros Hc. split; [by apply (f_queued _ _ _ O5)|]. unfold OnTimerFired. rewrite Hc. simpl. by destruct (Z.eqb_spec (deadline_ (td o)) 0).
  - intros Hc. destruct (f_due _ _ _ O5 Hc Hd) as (d & Hs & Hdue & Hq). exists d. split_and!; [done | done|]. intros c p Hcp Hin.
    destruct (queued_armed (tsys x) c p a (r_timers _ _ R) Hcp Hin) as (_ & _ & _ & d' & Hd' & Hw & Harm). assert (d' = d) as -> by congruence. split; [done|]. intros Hm Hl. apply Harm; try done.
    destruct (slack_deadline_valid (td o) (c_fields _ _ _ _ _ _ O1)) as (d1 & Hd1 & Hv). congruence.
Qed.

(** ** Signals *)

Definition signaled (o : object) : bool := negb (Z.land (signals_ (td o)) ZX_TIMER_SIGNALED =? 0).

(** No object is signalled that was not. *)
Definition quieter (x x' : DSys) : Prop := forall b o', objects x' !! b = Some o' -> exists o, objects x !! b = Some o /\ (signaled o' = true -> signaled o = true).

Lemma quieter_refl x : quieter x x.
Proof. intros b o Ho. by exists o. Qed.
Lemma quieter_trans x1 x2 x3 : quieter x1 x2 -> quieter x2 x3 -> quieter x1 x3.
Proof. intros H1 H2 b o Ho. destruct (H2 b o Ho) as (o2 & Ho2 & S2). destruct (H1 b o2 Ho2) as (o1 & Ho1 & S1). exists o1. tauto. Qed.
Lemma quieter_objects x x' : objects x' = objects x -> quieter x x'.
Proof. intros E b o Ho. rewrite E in Ho. by exists o. Qed.
Lemma quieter_insert x x' a o o' : objects x !! a = Some o -> objects x' = <[a := o']> (objects x) -> (signaled o' = true -> signaled o = true) -> quieter x x'.
Proof. intros Ha E Hs b o1. rewrite E. intros [[<- <-]|[_ Hb]]%lookup_insert_Some; [by exists o | by exists o1]. Qed.
Lemma quieter_put x a o o' : objects x !! a = Some o -> (signaled o' = true -> signaled o = true) -> quieter x (put a o' x).
Proof. intros Ha Hs. by apply (quieter_insert x _ a o o'). Qed.

Lemma release_quieter a x x' : Release a x = Some x' -> quieter x x'.
Proof.
  unfold Release. destruct (objects x !! a) as [o|] eqn:Ha; [|done]. cbn [mbind option_bind]. destruct (negb _); [intros [= <-]; by apply (quieter_insert x _ a o (with_refs (refs o - 1) o))|].
  destruct (negb _); [done|]. destruct (_ || _); [done|]. intros (t & _ & [= <-])%bind_Some b o' Hb. simpl in Hb. apply lookup_delete_Some in Hb as [_ Hb]. by exists o'.
Qed.

Lemma start_cancel_quieter c a l x x' : start_cancel c a l x = Some x' -> quieter x x'.
Proof.
  unfold start_cancel. destruct (objects x !! a) as [o|] eqn:Ha; [|done]. cbn [mbind option_bind]. intros ([[r|r] s] & _ & Hx)%bind_Some; [done|]. injection Hx as <-.
  by apply (quieter_insert x _ a o (with_lock (l r) o)).
Qed.

Lemma set_timer_quieter c a x x' : set_timer c a x = Some x' -> quieter x x'.
Proof. unfold set_timer. intros (o & _ & (d & _ & (t & _ & [= <-])%bind_Some)%bind_Some)%bind_Some. by apply quieter_objects. Qed.

Lemma unlock_quieter a x x' : unlock a x = Some x' -> quieter x x'.
Proof. unfold unlock. intros (o & Ho & [= <-])%bind_Some. by apply (quieter_insert x _ a o (with_users (users o + 1) (with_lock free o))). Qed.

Lemma finish_cancel_quieter a b x x' : finish_cancel a b x = Some x' -> quieter x x'.
Proof.
  unfold finish_cancel, CancelTimerLocked_done. intros (o & Ho & Hx)%bind_Some. destruct b; simpl in Hx.
  - destruct (_ =? _); [done|]. injection Hx as <-. by apply (quieter_insert x _ a o (with_refs (refs o - 1) (with_td (td o) o))).
  - injection Hx as <-. by apply (quieter_insert x _ a o (with_td (set_pending true (td o)) o)).
Qed.

Lemma finish_zero_quieter a x x' : finish_zero a x = Some x' -> quieter x x'.
Proof.
  unfold finish_zero. intros (o & Ho & Hx%release_quieter)%bind_Some. eapply quieter_trans; [|exact Hx]. by apply (quieter_insert x _ a o (with_handle false false (with_lock free o))).
Qed.

Lemma finish_set_quieter c a d s b x x' : finish_set c a d s b x = Some x' -> quieter x x' \/ (d = 0 \/ d <= clock (tsys x)) /\ forall b', b' <> a -> objects x' !! b' = objects x !! b'.
Proof.
  unfold finish_set, Set_. intros (o & Ho & Hx)%bind_Some. destruct (Z.eqb_spec d 0) as [Hd|Hd]; [|destruct (Z.leb_spec d (clock (tsys x))) as [Hl|Hl]]; cbn [orb] in Hx.
  - right. split; [by left|]. unfold unlock in Hx. apply bind_Some in Hx as (o' & _ & [= <-]). intros b' Hb. simpl. by rewrite !lookup_insert_ne.
  - right. split; [by right|]. unfold unlock in Hx. apply bind_Some in Hx as (o' & _ & [= <-]). intros b' Hb. simpl. by rewrite !lookup_insert_ne.
  - left. set (t := set_deadline d s (td o)) in *. assert (quieter x (put a (with_td t o) x)) as Q1 by (by apply (quieter_insert x _ a o (with_td t o))).
    destruct (negb _); [|eapply quieter_trans; [exact Q1 | by apply (unlock_quieter a)]]. eapply (quieter_trans x (put a (with_refs (refs o + 1) (with_td t o)) (put a (with_td t o) x))).
    { apply (quieter_insert x _ a o (with_refs (refs o + 1) (with_td t o))); [done | simpl; by rewrite insert_insert_eq | done]. }
    destruct b; [|by apply (start_cancel_quieter c a (fun _ => set_sets))]. apply bind_Some in Hx as (x2 & H1 & H2). eapply quieter_trans; [by apply (set_timer_quieter c a) | by apply (unlock_quieter a)].
Qed.

Lemma cancel_signaled o cancels t n : CancelTimerLocked (td o) = (cancels, t) -> signaled (with_users n (with_td t o)) = false.
Proof.
  assert (forall t1, signals_ t1 = signals_ (UpdateStateLocked ZX_TIMER_SIGNALED 0 (td o)) -> signaled (with_users n (with_td t1 o)) = false) as H.
  { intros t1 E. unfold signaled. simpl. rewrite E. simpl. rewrite Z.lor_0_r. assert (Z.land (signals_ (td o) .&~ ZX_TIMER_SIGNALED) ZX_TIMER_SIGNALED = 0) as ->; [|done].
    apply Z.bits_inj'. intros k Hk. rewrite Z.land_spec, Z.ldiff_spec, Z.bits_0. by destruct (Z.testbit _ _), (Z.testbit ZX_TIMER_SIGNALED k). }
  unfold CancelTimerLocked. destruct (_ =? 0); [|destruct (cancel_pending_ _)]; intros [= <- <-]; by apply H.
Qed.

(** When a step may signal the object [a]. *)
Definition may_signal (x : DSys) (e : devent) (a : Z) (o : object) : Prop :=
  match e with
  | CallSet _ b d _ => b = a /\ (d = 0 \/ d <= clock (tsys x))
  | Continue _ b => b = a /\ exists canceled d s, lock o = set_cancels canceled d s /\ (d = 0 \/ d <= clock (tsys x))
  | RunDpc c => thread_dpc c x = Some (a, starting) /\ deadline_ (td o) <> 0 /\ cancel_pending_ (td o) = false /\ exists d, slackDeadline (td o) = Some d /\ earliest d <= clock (tsys x)
  | _ => False
  end.

Definition signals_other (e : devent) : bool := match e with CallSet _ _ _ _ | Continue _ _ | RunDpc _ | CreateTimer _ _ => false | _ => true end.

Lemma step_quieter x e x' : drun x e = Some x' -> signals_other e = true -> quieter x x'.
Proof.
  intros Hr He. destruct e as [e| | | | | | | | | | | | |]; try done; cbn [drun] in Hr; clear He.
  - destruct e; cbn [drun] in Hr; try (apply bind_Some in Hr as (t1 & _ & [= <-]); by apply quieter_objects).
    apply bind_Some in Hr as (t1 & _ & [= <-]). destruct (modes (tsys x) !! cpu) as [[|?|? b|?]|]; try by apply quieter_objects. destruct (objects x !! _) as [o|] eqn:Ho; [|by apply quieter_objects].
    by apply (quieter_insert x _ b o (with_irq false o)).
  - apply bind_Some in Hr as (o & Ho & [= <-]). by apply (quieter_insert x _ a o (with_users (users o + 1) (with_refs (refs o + 1) o))).
  - apply bind_Some in Hr as (o & Ho & Hr%release_quieter). eapply quieter_trans; [|exact Hr]. by apply (quieter_insert x _ a o (with_users (users o - 1) o)).
  - apply bind_Some in Hr as (o & Ho & Hr). destruct (CancelTimerLocked (td o)) as [cancels t] eqn:Ec. pose proof (cancel_signaled o cancels t (users o - 1) Ec) as Hs.
    apply (quieter_trans x (put a (with_users (users o - 1) (with_td t o)) x)); [apply (quieter_put x a o _ Ho); congruence|].
    destruct cancels; [by apply start_cancel_quieter in Hr | by apply unlock_quieter in Hr].
  - apply bind_Some in Hr as (o & Ho & [= <-]). by apply (quieter_insert x _ a o (with_handle false true o)).
  - apply bind_Some in Hr as (o & Ho & Hr). destruct (CancelTimerLocked (td o)) as [cancels t] eqn:Ec. pose proof (cancel_signaled o cancels t (users o) Ec) as Hs.
    apply (quieter_trans x (put a (with_td t o) x)); [apply (quieter_put x a o _ Ho); unfold signaled in *; simpl in *; congruence | by apply start_cancel_quieter in Hr].
  - destruct (modes (tsys x) !! cpu) as [[|?|? t|?]|]; try done. apply bind_Some in Hr as (o & Ho & (y & _ & (b & _ & [= <-])%bind_Some)%bind_Some).
    apply (quieter_insert x _ t o (with_irq true o)); [done | unfold dpc_queue; by destruct (dpc_in_list _ _) | done].
  - apply bind_Some in Hr as ([a l] & _ & [= <-]). by apply quieter_objects.
  - apply bind_Some in Hr as ([a l] & _ & Hr%release_quieter). eapply quieter_trans; [|exact Hr]. by apply quieter_objects.
  - injection Hr as <-. by apply quieter_objects.
Qed.

Lemma continue_signals x c a o x' : drun x (Continue c a) = Some x' -> objects x !! a = Some o ->
  quieter x x' \/ (exists canceled d s, lock o = set_cancels canceled d s /\ (d = 0 \/ d <= clock (tsys x))) /\ forall b, b <> a -> objects x' !! b = objects x !! b.
Proof.
  cbn [drun]. intros Hr Ha. rewrite Ha in Hr. cbn [mbind option_bind] in Hr. apply bind_Some in Hr as (t & Ht & Hr). assert (quieter x (with_tsys t x)) as Q by (by apply quieter_objects).
  simpl in Ht. apply bind_Some in Ht as (s0 & _ & Ht). assert (clock t = clock (tsys x)) as Et by (by injection Ht as <-). clear Ht. destruct (lock o) as [|b d s| |b|b| |cpu].
  - done.
  - apply bind_Some in Hr as (x1 & H1 & H2). assert (quieter x x1) as Q1 by (apply (quieter_trans x (with_tsys t x)); [done | by apply (finish_cancel_quieter a b)]).
    unfold finish_cancel in H1. change (objects (with_tsys t x) !! a) with (objects x !! a) in H1. rewrite Ha in H1. cbn [mbind option_bind] in H1.
    assert (tsys x1 = t /\ forall b', b' <> a -> objects x1 !! b' = objects x !! b') as [E1 E2].
    { unfold CancelTimerLocked_done in H1. destruct b; simpl in H1; [destruct (_ =? 0) in H1; [done|]|]; injection H1 as <-; (split; [done|]); intros b' Hb; simpl; by rewrite lookup_insert_ne. }
    destruct (finish_set_quieter _ _ _ _ _ _ _ H2) as [Q2|[Hd Ho]]; [left; by apply (quieter_trans x x1)|]. right. rewrite E1, Et in Hd. split; [by eexists _, _, _|]. intros b' Hb. by rewrite Ho, E2.
  - left. apply bind_Some in Hr as (x1 & H1 & H2). apply (quieter_trans x x1); [apply (quieter_trans x (with_tsys t x)); [done | by apply (set_timer_quieter c a)] | by apply (unlock_quieter a)].
  - left. apply bind_Some in Hr as (x1 & H1 & H2). apply (quieter_trans x x1); [apply (quieter_trans x (with_tsys t x)); [done | by apply (finish_cancel_quieter a b)] | by apply (unlock_quieter a)].
  - left. apply bind_Some in Hr as (x1 & H1 & H2). apply (quieter_trans x x1); [apply (quieter_trans x (with_tsys t x)); [done | by apply (finish_cancel_quieter a b)] | by apply (finish_zero_quieter a)].
  - left. apply (quieter_trans x (with_tsys t x)); [done | by apply (finish_zero_quieter a)].
  - left. apply bind_Some in Hr as (x1 & H1 & (o1 & Ho1 & [= <-])%bind_Some). apply (quieter_trans x x1); [apply (quieter_trans x (with_tsys t x)); [done | by apply (set_timer_quieter c a)]|].
    by apply (quieter_insert x1 _ a o1 (with_lock free o1)).
Qed.

(** When the call of an object begins, the window has begun. *)
Lemma call_due x c a o :
  dinv x -> (c, (a, starting)) ∈ dpc_threads x -> objects x !! a = Some o -> lock o = free -> cancel_pending_ (td o) = false ->
  deadline_ (td o) <> 0 /\ exists d, slackDeadline (td o) = Some d /\ earliest d <= clock (tsys x).
Proof.
  intros I Hin Ha Hf Hp. destruct (dinv_split x a o I Ha) as [_ [O1 _ O3 _ O5]]. rewrite Hf in *. specialize (O5 eq_refl).
  assert (0 < times (a, starting) (map snd (dpc_threads x))) as Hst by (apply times_in; by apply (list_elem_of_fmap_2 snd) in Hin). pose proof (tokens_split x a o) as Ts. pose proof (c_one _ _ _ _ _ _ O1) as C2.
  unfold pending in O3. rewrite Hf, Hp in O3. simpl in C2, O3. assert (deadline_ (td o) <> 0) as Hd by (intros E; rewrite E in O3; simpl in O3; lia). split; [done|].
  destruct (f_due _ _ _ O5 Hp Hd) as (d & Hs & _ & Hq). exists d. split; [done|]. apply Hq. lia.
Qed.

(** C9: An object is signalled only by a [Set] to a time that has passed, or when
    the window of the deadline that it has now has begun: never by a timer that has been
    cancelled or set anew in the meantime. *)
Theorem timer_signals_on_time n x e x' a o o' :
  dreachable n x -> denabled x e -> drun x e = Some x' -> objects x !! a = Some o -> objects x' !! a = Some o' -> signaled o = false -> signaled o' = true -> may_signal x e a o.
Proof.
  intros Hr He Hx Ha Ha' Hs Hs'. pose proof (dreachable_inv n x Hr) as I.
  assert (quieter x x' -> may_signal x e a o) as Hq by (intros Q; destruct (Q a o' Ha') as (o1 & Ho1 & H); assert (o1 = o) as -> by congruence; specialize (H Hs'); congruence).
  destruct (signals_other e) eqn:Ho; [by apply Hq, (step_quieter x e)|]. destruct e as [|a0 opt| | |c a0 d s| | | |c a0| | |c| |]; try done.
  - destruct He as [Hf _]. destruct (dinv_split x a o I Ha) as [_ O]. destruct (c_timer _ _ _ _ _ _ (o_acc _ _ _ O)) as (y & Hy & _). assert (a0 <> a) as Hne by congruence.
    apply Hq. cbn [drun] in Hx. exfalso. destruct (Create _ _); [injection Hx as <-; congruence|]. apply bind_Some in Hx as (t1 & _ & [= <-]). simpl in Ha'. rewrite lookup_insert_ne in Ha' by done. congruence.
  - cbn [drun] in Hx. apply bind_Some in Hx as (o0 & Ho0 & Hx). destruct (CancelTimerLocked (td o0)) as [cancels t] eqn:Ec. pose proof (cancel_signaled o0 cancels t (users o0 - 1) Ec) as Hsi.
    assert (quieter x (put a0 (with_users (users o0 - 1) (with_td t o0)) x)) as Q by (apply (quieter_put x a0 o0 _ Ho0); congruence).
    destruct cancels; [apply Hq; eapply quieter_trans; [exact Q | by apply start_cancel_quieter in Hx]|].
    destruct (finish_set_quieter _ _ _ _ _ _ _ Hx) as [Q2|[Hd Hot]]; [apply Hq; by eapply quieter_trans|]. split; [|done].
    destruct (decide (a0 = a)) as [|Hne]; [done|]. exfalso. rewrite Hot in Ha' by done. simpl in Ha'. rewrite lookup_insert_ne in Ha' by done. congruence.
  - destruct (objects x !! a0) as [o0|] eqn:Ho0; [|simpl in Hx; by rewrite Ho0 in Hx]. destruct (continue_signals x c a0 o0 x' Hx Ho0) as [Q|[Hl Hot]]; [by apply Hq|].
    destruct (decide (a0 = a)) as [->|Hne]; [|exfalso; rewrite Hot in Ha' by done; congruence]. assert (o0 = o) as -> by congruence. by split.
  - destruct He as (_ & a0 & Hin & (o0 & Ho0 & Hf%is_free_lock)%object_is_true). pose proof (thread_dpc_in c _ x (r_one _ _ I) Hin) as Ht. cbn [drun] in Hx. rewrite Ht in Hx. cbn [mbind option_bind] in Hx.
    rewrite Ho0 in Hx. cbn [mbind option_bind] in Hx. unfold OnTimerFired in Hx. destruct (cancel_pending_ (td o0)) eqn:Hp.
    + apply Hq. destruct (negb _); [|injection Hx as <-; by apply (quieter_insert x _ a0 o0 (with_td (set_pending false (td o0)) o0))]. apply start_cancel_quieter in Hx. eapply quieter_trans; [|exact Hx].
      by apply (quieter_insert x _ a0 o0 (with_td (set_pending false (td o0)) o0)).
    + injection Hx as <-. simpl in Ha'. destruct (decide (a0 = a)) as [->|Hne]; [|exfalso; rewrite lookup_insert_ne in Ha' by done; congruence]. assert (o0 = o) as -> by congruence.
      destruct (call_due x c a o I Hin Ho0 Hf Hp) as [Hd Hdue]. by split_and!.
Qed.

(** ** Lifetime *)

Definition alive (x : DSys) : Prop := forall a o, objects x !! a = Some o -> 0 < refs o.

Lemma alive_objects x x' : alive x -> objects x' = objects x -> alive x'.
Proof. intros L E a o. rewrite E. apply L. Qed.
Lemma alive_insert x x' a o' : alive x -> objects x' = <[a := o']> (objects x) -> 0 < refs o' -> alive x'.
Proof. intros L E Hr b o. rewrite E. intros [[<- <-]|[_ Hb]]%lookup_insert_Some; [done | by apply (L b)]. Qed.
Lemma alive_put x a o' : alive x -> 0 < refs o' -> alive (put a o' x).
Proof. intros L Hr. by apply (alive_insert x _ a o'). Qed.

Lemma release_alive a x x' : alive x -> Release a x = Some x' -> alive x'.
Proof.
  intros L. unfold Release. intros (o & Ha & Hx)%bind_Some. pose proof (L a o Ha). destruct (Z.eqb_spec (refs (with_refs (refs o - 1) o)) 0) as [E|E]; simpl in E, Hx.
  - destruct (negb _); [done|]. destruct (_ || _); [done|]. injection Hx as <-. intros b o' Hb. simpl in Hb. apply lookup_delete_Some in Hb as [_ Hb]. by apply (L b).
  - injection Hx as <-. apply alive_put; [done | simpl; lia].
Qed.

Lemma start_cancel_alive c a l x x' : alive x -> start_cancel c a l x = Some x' -> alive x'.
Proof.
  intros L. unfold start_cancel. intros (o & Ho & ([[r|r] s] & _ & Hx)%bind_Some)%bind_Some; [done|]. injection Hx as <-. apply (alive_insert x _ a (with_lock (l r) o)); [done | done | exact (L a o Ho)].
Qed.

Lemma set_timer_alive c a x x' : alive x -> set_timer c a x = Some x' -> alive x'.
Proof. intros L. unfold set_timer. intros (o & _ & (d & _ & (t & _ & [= <-])%bind_Some)%bind_Some)%bind_Some. by apply (alive_objects x). Qed.

Lemma unlock_alive a x x' : alive x -> unlock a x = Some x' -> alive x'.
Proof. intros L. unfold unlock. intros (o & Ho & [= <-])%bind_Some. apply alive_put; [done | exact (L a o Ho)]. Qed.

Lemma finish_cancel_alive a b x x' : alive x -> finish_cancel a b x = Some x' -> alive x'.
Proof.
  intros L. unfold finish_cancel, CancelTimerLocked_done. intros (o & Ho & Hx)%bind_Some. pose proof (L a o Ho). destruct b; simpl in Hx.
  - destruct (Z.eqb_spec (refs o - 1) 0) as [|E]; [done|]. injection Hx as <-. apply alive_put; [done | simpl; lia].
  - injection Hx as <-. by apply alive_put.
Qed.

Lemma finish_zero_alive a x x' : alive x -> finish_zero a x = Some x' -> alive x'.
Proof. intros L. unfold finish_zero. intros (o & Ho & Hx)%bind_Some. apply (release_alive a) in Hx; [done|]. apply alive_put; [done | exact (L a o Ho)]. Qed.

Lemma finish_set_alive c a d s b x x' : alive x -> finish_set c a d s b x = Some x' -> alive x'.
Proof.
  intros L. unfold finish_set. intros (o & Ho & Hx)%bind_Some. pose proof (L a o Ho). destruct (Set_ _ _ _ _) as [sets t]. assert (alive (put a (with_td t o) x)) as L1 by (by apply alive_put).
  destruct sets; [|by apply (unlock_alive a) in Hx]. assert (alive (put a (with_refs (refs o + 1) (with_td t o)) (put a (with_td t o) x))) as L2 by (apply alive_put; [done | simpl; lia]).
  destruct b; [|by apply (start_cancel_alive c a (fun _ => set_sets)) in Hx]. apply bind_Some in Hx as (x2 & H1 & H2). apply (set_timer_alive c a) in H1; [|done]. by apply (unlock_alive a) in H2.
Qed.

Lemma step_alive x e x' : alive x -> drun x e = Some x' -> alive x'.
Proof.
  intros L Hr. destruct e as [e| | | | | | | | | | | | |]; cbn [drun] in Hr.
  - destruct e; cbn [drun] in Hr; try (apply bind_Some in Hr as (t1 & _ & [= <-]); by apply (alive_objects x)).
    apply bind_Some in Hr as (t1 & _ & [= <-]). destruct (modes (tsys x) !! cpu) as [[|?|? b|?]|]; try by apply (alive_objects x). destruct (objects x !! b) as [o|] eqn:Ho; [|by apply (alive_objects x)].
    apply (alive_insert x _ b (with_irq false o)); [done | done | exact (L b o Ho)].
  - destruct (Create _ _); [by injection Hr as <-|]. apply bind_Some in Hr as (t1 & _ & [= <-]). by apply (alive_insert x _ a (mkObject t 1 true false 0 free false)).
  - apply bind_Some in Hr as (o & Ho & [= <-]). pose proof (L a o Ho). apply alive_put; [done | simpl; lia].
  - apply bind_Some in Hr as (o & Ho & Hr). apply (release_alive a) in Hr; [done|]. apply alive_put; [done | exact (L a o Ho)].
  - apply bind_Some in Hr as (o & Ho & Hr). destruct (CancelTimerLocked (td o)) as [cancels t]. assert (alive (put a (with_users (users o - 1) (with_td t o)) x)) as L1 by (apply alive_put; [done | exact (L a o Ho)]).
    destruct cancels; [by apply start_cancel_alive in Hr | by apply finish_set_alive in Hr].
  - apply bind_Some in Hr as (o & Ho & Hr). destruct (CancelTimerLocked (td o)) as [cancels t]. assert (alive (put a (with_users (users o - 1) (with_td t o)) x)) as L1 by (apply alive_put; [done | exact (L a o Ho)]).
    destruct cancels; [by apply start_cancel_alive in Hr | by apply unlock_alive in Hr].
  - apply bind_Some in Hr as (o & Ho & [= <-]). apply alive_put; [done | exact (L a o Ho)].
  - apply bind_Some in Hr as (o & Ho & Hr). destruct (CancelTimerLocked (td o)) as [cancels t]. apply start_cancel_alive in Hr; [done|]. apply alive_put; [done | exact (L a o Ho)].
  - apply bind_Some in Hr as (o & Ho & (t & _ & Hr)%bind_Some). assert (alive (with_tsys t x)) as L1 by (by apply (alive_objects x)). destruct (lock o); [done | | | | | by apply finish_zero_alive in Hr |]; apply bind_Some in Hr as (x1 & H1 & H2).
    + apply finish_cancel_alive in H1; [|done]. by apply finish_set_alive in H2.
    + apply set_timer_alive in H1; [|done]. by apply unlock_alive in H2.
    + apply finish_cancel_alive in H1; [|done]. by apply unlock_alive in H2.
    + apply finish_cancel_alive in H1; [|done]. by apply finish_zero_alive in H2.
    + apply set_timer_alive in H1; [|done]. apply bind_Some in H2 as (o1 & Ho1 & [= <-]). apply (alive_insert x1 _ a (with_lock free o1)); [done | done | exact (H1 a o1 Ho1)].
  - destruct (modes (tsys x) !! cpu) as [[|?|? t|?]|]; try done. apply bind_Some in Hr as (o & Ho & (y & _ & (b & _ & [= <-])%bind_Some)%bind_Some).
    apply (alive_insert x _ t (with_irq true o)); [done | unfold dpc_queue; by destruct (dpc_in_list _ _) | exact (L t o Ho)].
  - apply bind_Some in Hr as ([a l] & _ & [= <-]). by apply (alive_objects x).
  - apply bind_Some in Hr as ([a st] & _ & (o & Ho & Hr)%bind_Some). pose proof (L a o Ho). destruct (OnTimerFired (td o)) as [sets t]. destruct sets.
    + apply start_cancel_alive in Hr; [done|]. by apply (alive_insert x _ a (with_td t o)).
    + injection Hr as <-. by apply (alive_insert x _ a (with_td t o)).
  - apply bind_Some in Hr as ([a l] & _ & Hr). apply release_alive in Hr; [done|]. by apply (alive_objects x).
  - injection Hr as <-. by apply (alive_objects x).
Qed.

Lemma dreachable_alive n x : dreachable n x -> alive x.
Proof. induction 1 as [|x e x' _ IH _ Hx]; [by intros a o ?|]. by apply (step_alive x e). Qed.

(** An object without handles, that no system call uses and whose
    [on_zero_handles] has run, is there only while its timer or its deferred call is on
    its way, and its kernel timer is there as long as the object is.  So timer objects
    are deleted, with their timers, as soon as nobody uses them. *)
Theorem timer_object_freed n x a o :
  dreachable n x -> objects x !! a = Some o -> is_Some (timers (state (tsys x)) !! a) /\
  (has_handle o = false -> closing o = false -> users o = 0 -> lock o = free -> tokens x a o = 1 \/ exists c, (c, (a, releasing)) ∈ dpc_threads x).
Proof.
  intros Hr Ha. destruct (dinv_split x a o (dreachable_inv n x Hr) Ha) as [_ [O1 _ O3 _ _]]. split; [destruct (c_timer _ _ _ _ _ _ O1) as (y & Hy & _); by exists y|]. intros Hh Hc Hu Hf.
  pose proof (dreachable_alive n x Hr a o Ha) as Hp. pose proof (c_refs _ _ _ _ _ _ O1) as C1. pose proof (c_one _ _ _ _ _ _ O1) as C2. rewrite Hf in *. rewrite Hh, Hc, Hu in C1. simpl in C1, C2. pose proof (tokens_nonneg x a o).
  destruct (decide (tokens x a o = 1)) as [|Hne]; [by left|]. right. assert (0 < times (a, releasing) (map snd (dpc_threads x))) as Ht by lia.
  apply times_in in Ht. apply list_elem_of_fmap_1 in Ht as ([c e] & E & Hin). simpl in E. subst e. by exists c.
Qed.

(** ** Runs on two processors *)

Definition dcan (x : DSys) (e : devent) : bool :=
  let t := tsys x in
  match e with
  | Timers (Fired c) =>
      match modes t !! c with Some (Calling _ a) => match objects x !! a with Some o => irq o | None => true end | _ => false end
  | Timers (Clock n) => tcan t (Clock n)
  | Timers (Interrupt c) => tcan t (Interrupt c)
  | Timers (Round c) => tcan t (Round c)
  | Timers (EndTick c) => tcan t (EndTick c)
  | CreateTimer a options => match timers (state t) !! a with None => 0 <=? options | _ => false end
  | Enter a | Close a => object_is has_handle a x
  | Leave a => object_is (fun o => 0 <? users o) a x
  | CallSet c a d s => object_is (fun o => (0 <? users o) && is_free o) a x && in_threads c t && bool_decide (is_i64 d) && (0 <=? s) && (s <? 2 ^ 63)
  | ZeroHandles c a => object_is (fun o => closing o && is_free o) a x && in_threads c t
  | Continue c a => object_is (fun o => negb (is_free o)) a x && in_threads c t && negb (active a (state t))
  | Irq c => match modes t !! c with Some (Calling _ a) => match objects x !! a with Some o => negb (irq o) | None => false end | _ => false end
  | TakeDpc c => in_threads c t && bool_decide (Forall (fun e => e.1 <> c) (dpc_threads x)) && bool_decide (c ∈ map fst (dpcs x))
  | RunDpc c => in_threads c t && existsb (fun e => (e.1 =? c) && bool_decide (e.2.2 = starting) && object_is is_free e.2.1 x) (dpc_threads x)
  | DropDpc c => in_threads c t && existsb (fun e => (e.1 =? c) && bool_decide (e.2.2 = releasing)) (dpc_threads x)
  | _ => false
  end.

Lemma dcan_enabled x e : dcan x e = true -> denabled x e.
Proof.
  destruct e as [e|a opt|a|a|c a d s|c a|a|c a|c a|c|c|c|c|c o]; cbn [dcan]; intros H; try done.
  - destruct e; try done; (split; [try by apply tcan_enabled | try done]).
    + destruct (modes (tsys x) !! cpu) as [[|?|now t|?]|] eqn:E; try done. by eexists _, _.
    + simpl. intros now t o Hm Ho. by rewrite Hm, Ho in H.
  - destruct (timers _ !! a) eqn:E; [done|]. b2p. by split.
  - b2p. rewrite bool_decide_eq_true in *. by split_and!.
  - b2p. by split.
  - b2p. by split_and!.
  - destruct (modes (tsys x) !! c) as [[|?|now t|?]|] eqn:E; try done. destruct (objects x !! t) as [o|] eqn:Eo; [|done]. b2p. by exists now, t, o.
  - b2p. rewrite !bool_decide_eq_true in *. split_and!; try done. intros e He. rewrite Forall_forall in *. by eapply H1 in He.
  - b2p. split; [done|]. apply existsb_exists in H0 as ([c' [a st]] & Hin%list_elem_of_In & He). simpl in He. b2p. rewrite bool_decide_eq_true in *. subst. by exists a.
  - b2p. split; [done|]. apply existsb_exists in H0 as ([c' [a st]] & Hin%list_elem_of_In & He). simpl in He. b2p. rewrite bool_decide_eq_true in *. subst. by exists a.
Qed.

Fixpoint druns (es : list devent) (x : DSys) : option DSys :=
  match es with [] => Some x | e :: es => if dcan x e then x ← drun x e; druns es x else None end.

Lemma druns_reachable n es : forall x x', dreachable n x -> druns es x = Some x' -> dreachable n x'.
Proof.
  induction es as [|e es IH]; intros x x' Hr; simpl; [by intros [= <-]|]. destruct (dcan x e) eqn:Hc; [|done]. destruct (drun x e) as [y|] eqn:Hy; [|done]. cbn [mbind option_bind].
  apply IH. by apply (dr_step n x e y Hr (dcan_enabled _ _ Hc)).
Qed.

Lemma drun_reachable es x : druns es (dsys_init 2) = Some x -> dreachable 2 x.
Proof. apply druns_reachable, dr_init. Qed.

(** A timer is set for 100 and goes off at 120.  Its interrupt queues the call.  Either
    the call signals the object, or the last handle is closed first. *)
Definition sets_timer : list devent := [CreateTimer 1 0; Enter 1; CallSet 0 1 100 10; Continue 0 1; Leave 1].
Definition goes_off : list devent := sets_timer ++ [Timers (Clock 120); Timers (Interrupt 0); Timers (Round 0); Irq 0].
Definition fires : list devent := goes_off ++ [Timers (Fired 0); Timers (Round 0); Timers (EndTick 0); TakeDpc 0].
Definition closes : list devent := goes_off ++ [Close 1; ZeroHandles 1 1; Timers (Fired 0); Timers (Round 0); Timers (EndTick 0); Continue 1 1].
Definition state_after (es : list devent) : DSys := default (dsys_init 2) (druns es (dsys_init 2)).
Definition object_of (x : DSys) (a : Z) : object := default (mkObject (mkTD 0 0 0 false 0) 0 false false 0 free false) (objects x !! a).

Lemma set_timer_not_lost_witness : tokens (state_after sets_timer) 1 (object_of (state_after sets_timer) 1) = 1 /\ in_queue (state_after sets_timer) 1 = 1 /\
  exists go, platform (percpu_of (tsys (state_after sets_timer)) 0) = Some go /\ go <= 110.
Proof.
  set (x := state_after sets_timer). assert (dreachable 2 x) as Hr by (apply (drun_reachable sets_timer); vm_compute; reflexivity).
  destruct (set_timer_not_lost 2 x 1 (object_of x 1) Hr) as (H1 & _ & _ & H2); [vm_compute; reflexivity | vm_compute; reflexivity | vm_compute; discriminate|].
  split; [exact H1|]. split; [vm_compute; reflexivity|]. destruct H2 as (d & Hd & _ & H3); [vm_compute; reflexivity|]. vm_compute in Hd. injection Hd as <-.
  apply (H3 0 (percpu_of (tsys x) 0)); [vm_compute; reflexivity | vm_compute; apply list_elem_of_here | vm_compute; reflexivity | vm_compute; discriminate].
Defined.

Lemma timer_objects_never_fail_witness : exists x', drun (state_after fires) (RunDpc 0) = Some x' /\ signaled (object_of x' 1) = true.
Proof.
  destruct (timer_objects_never_fail 2 (state_after fires) (RunDpc 0)) as (x' & Hx).
  - apply (drun_reachable fires); vm_compute; reflexivity.
  - apply dcan_enabled; vm_compute; reflexivity.
  - exists x'. split; [exact Hx|]. vm_compute in Hx. injection Hx as <-. vm_compute. reflexivity.
Defined.

Lemma timer_signals_on_time_witness : signaled (object_of (state_after (fires ++ [RunDpc 0])) 1) = true /\ may_signal (state_after fires) (RunDpc 0) 1 (object_of (state_after fires) 1).
Proof.
  split; [vm_compute; reflexivity|].
  apply (timer_signals_on_time 2 _ _ (state_after (fires ++ [RunDpc 0])) 1 _ (object_of (state_after (fires ++ [RunDpc 0])) 1)); try (vm_compute; reflexivity).
  - apply (drun_reachable fires); vm_compute; reflexivity.
  - apply dcan_enabled; vm_compute; reflexivity.
Defined.

Lemma timer_object_freed_witness : tokens (state_after closes) 1 (object_of (state_after closes) 1) = 1 /\ objects (state_after (closes ++ [TakeDpc 0; RunDpc 0; DropDpc 0])) !! 1 = None.
Proof.
  split; [|vm_compute; reflexivity]. assert (dreachable 2 (state_after closes)) as Hr by (apply (drun_reachable closes); vm_compute; reflexivity).
  destruct (timer_object_freed 2 (state_after closes) 1 (object_of (state_after closes) 1) Hr) as [_ Hf]; [vm_compute; reflexivity|].
  destruct Hf as [H|[c H]]; [vm_compute; reflexivity .. | exact H |]. vm_compute in H. by apply not_elem_of_nil in H.
Defined.
