(* ===== verification/OwnedWaitQueue.v ===== *)
(** * Owned wait queues

    [kernel/owned_wait_queue.cc] with what it uses of [kernel/fair_scheduler.cc] and
    [kernel/wait.cc]: wait queues with an owner, who runs at the priority of the most
    urgent thread it keeps waiting, directly or through a chain of owners.  Threads and
    queues are named by their addresses; a queue without an entry in [owners] has no
    owner, or is no [OwnedWaitQueue].  All of it runs under the thread lock.  [debug]
    says whether the assertions of debug builds are there; [None] is one that fails. *)

From S2P Require Import Prelude Zx WaitQueue.
Import WaitQueue.

Module OwnedWaitQueue.

(** The fields of [thread_t] for priority inheritance. *)
Record pi := mkPi {
  base_priority : Z;
  inherited_priority : Z;
  owned_wait_queues : list Z;
}.

Record State := mkState {
  ker : kernel;
  pis : gmap Z pi;
  owners : gmap Z Z;
}.

Definition with_ker (k : kernel) (s : State) : State := mkState k (pis s) (owners s).
Definition with_pi (t : Z) (p : pi) (s : State) : State := mkState (ker s) (<[t := p]> (pis s)) (owners s).
Definition with_owner (w : Z) (o : option Z) (s : State) : State :=
  mkState (ker s) (pis s) (match o with Some t => <[w := t]> (owners s) | None => delete w (owners s) end).
Definition set_inherited (n : Z) (p : pi) : pi := mkPi (base_priority p) n (owned_wait_queues p).
Definition set_base (n : Z) (p : pi) : pi := mkPi n (inherited_priority p) (owned_wait_queues p).
Definition set_owned (l : list Z) (p : pi) : pi := mkPi (base_priority p) (inherited_priority p) l.

Definition owner (w : Z) (s : State) : option Z := owners s !! w.
Definition IsEmpty (w : Z) (s : State) : bool := match queues (ker s) !! w with Some q => wait_queue_is_empty q | None => true end.
Definition blocked_priority (w : Z) (s : State) : Z := wait_queue_blocked_priority w (ker s).
(** The threads of a queue in the order of [ForeachThread]. *)
Definition thread_list (w : Z) (s : State) : list Z := match queues (ker s) !! w with Some q => concat (heads q) | None => [] end.

(** ** The scheduler *)

Definition effective (p : pi) : Z := if inherited_priority p >? base_priority p then inherited_priority p else base_priority p.

Definition set_state (st : thread_state) (e : Z) (th : thread_t) : thread_t :=
  mkThread st e (signals th) (interruptable th) (blocked_status th) (blocking_wait_queue th).

(** [UpdateWeightCommon] without propagation. *)
Definition UpdateWeightCommon (t new_prio : Z) (k : kernel) : option kernel :=
  th ← threads k !! t;
  match blocking_wait_queue th with
  | Some _ => wait_queue_priority_changed t new_prio k
  | None => Some (with_thread t (set_state (WaitQueue.state th) new_prio th) k)
  end.

(** The new fields of a thread take effect. *)
Definition change_pi (t : Z) (p : pi) (s : State) : option State :=
  th ← threads (ker s) !! t;
  let s := with_pi t p s in
  if effective p =? effec_priority th then Some s
  else k ← UpdateWeightCommon t (effective p) (ker s); Some (with_ker k s).

Definition sched_inherit_priority (t priority : Z) (s : State) : option State :=
  p ← pis s !! t;
  change_pi t (set_inherited priority p) s.

(** ** Propagation *)

Definition kMaxChainLen : Z := 2048.

Section Pi.
Context (debug : bool).

(** What [QueuePressureChanged] does with one thread: nothing, or a new inherited
    priority for it; [None] is the assertion that no queue of the thread has less
    pressure than the one that has changed. *)
Definition new_pressure (p : pi) (old_prio new_prio : Z) (s : State) : option (option Z) :=
  if new_prio <? old_prio then
    if old_prio <? inherited_priority p then Some None
    else
      let prios := map (fun w => blocked_priority w s) (owned_wait_queues p) in
      if debug && existsb (fun q => q <? new_prio) prios then None
      else
        let n := foldr Z.max new_prio prios in
        Some (if n =? inherited_priority p then None else Some n)
  else Some (if new_prio <=? inherited_priority p then None else Some new_prio).

Fixpoint QueuePressureLoop (fuel : nat) (traverse_len t old_prio new_prio : Z) (s : State) : option State :=
  match fuel with
  | O => None
  | S fuel =>
      if debug && (traverse_len >? kMaxChainLen) then None
      else
        p ← pis s !! t;
        r ← new_pressure p old_prio new_prio s;
        match r with
        | None => Some s
        | Some n =>
            th ← threads (ker s) !! t;
            let prio_of s := match blocking_wait_queue th with Some w => blocked_priority w s | None => -1 end in
            let old_queue_prio := prio_of s in
            s ← sched_inherit_priority t n s;
            let new_queue_prio := prio_of s in
            if old_queue_prio =? new_queue_prio then Some s
            else
              match w ← blocking_wait_queue th; owner w s with
              | Some t => QueuePressureLoop fuel (traverse_len + 1) t old_queue_prio new_queue_prio s
              | None => Some s
              end
        end
  end.

(** Enough for the loop: every round lowers the priority a thread inherits, or is one
    of the rounds at the end that raise it to the same new priority. *)
Definition loop_bound (s : State) : nat := S (S (size (pis s) + sum_list_with (fun e => Z.to_nat (inherited_priority e.2 + 1)) (map_to_list (pis s)))).

Definition QueuePressureChanged (t old_prio new_prio : Z) (s : State) : option State :=
  if debug && (old_prio =? new_prio) then None
  else QueuePressureLoop (loop_bound s) 1 t old_prio new_prio s.

Definition WaitersPriorityChanged (w old_prio : Z) (s : State) : option State :=
  match owner w s with
  | None => Some s
  | Some o =>
      let new_prio := blocked_priority w s in
      if old_prio =? new_prio then Some s else QueuePressureChanged o old_prio new_prio s
  end.

(** ** Ownership *)

Definition is_dead (t : Z) (s : State) : bool :=
  match threads (ker s) !! t with Some th => match WaitQueue.state th with THREAD_DEATH => true | _ => false end | None => false end.

Definition is_initial (t : Z) (s : State) : bool :=
  match threads (ker s) !! t with Some th => match WaitQueue.state th with THREAD_INITIAL => true | _ => false end | None => false end.

Definition release_owner (w o old_prio : Z) (s : State) : option State :=
  p ← pis s !! o;
  let s := with_owner w None (with_pi o (set_owned (filter (fun x => x <> w) (owned_wait_queues p)) p) s) in
  s ← (if old_prio >=? 0 then QueuePressureChanged o old_prio (-1) s else Some s);
  p ← pis s !! o;
  if debug && bool_decide (owned_wait_queues p = []) && negb (inherited_priority p =? -1) then None else Some s.

Definition take_owner (w o new_prio : Z) (s : State) : option State :=
  p ← pis s !! o;
  let s := with_owner w (Some o) (with_pi o (set_owned (owned_wait_queues p ++ [w]) p) s) in
  if new_prio >=? 0 then QueuePressureChanged o (-1) new_prio s else Some s.

Definition UpdateBookkeeping (w : Z) (new_owner : option Z) (old_prio : Z) (s : State) : option State :=
  let new_prio := blocked_priority w s in
  let new_owner := o ← new_owner; if is_dead o s then None else Some o in
  if bool_decide (new_owner = owner w s) then
    match owner w s with
    | None => Some s
    | Some o => if new_prio =? old_prio then Some s else QueuePressureChanged o old_prio new_prio s
    end
  else
    s ← (match owner w s with Some o => release_owner w o old_prio s | None => Some s end);
    match new_owner with Some o => take_owner w o new_prio s | None => Some s end.

Definition AssignOwner (w : Z) (new_owner : option Z) (s : State) : option State :=
  if bool_decide (new_owner = owner w s) then Some s else UpdateBookkeeping w new_owner (blocked_priority w s) s.

(** When a thread exits. *)
Definition DisownAllQueues (t : Z) (s : State) : option State :=
  th ← threads (ker s) !! t;
  p ← pis s !! t;
  if debug && negb (bool_decide (blocking_wait_queue th = None)) then None
  else Some (with_pi t (set_owned [] p) (mkState (ker s) (pis s) (filter (fun e => e.1 ∉ owned_wait_queues p) (owners s)))).

Definition exit_thread (t : Z) (s : State) : option State :=
  th ← threads (ker s) !! t;
  DisownAllQueues t (with_ker (with_thread t (set_state THREAD_DEATH (effec_priority th) th) (ker s)) s).

(** ** Waiting and waking *)

(** [wait_queue_unblock_thread] *)
Definition unblock_thread (t : Z) (wait_queue_error : zx_status_t) (s : State) : option (zx_status_t * State) :=
  th ← threads (ker s) !! t;
  if negb (is_blocked (WaitQueue.state th)) then Some (ZX_ERR_BAD_STATE, s)
  else
    w ← blocking_wait_queue th;
    let old_wq_prio := blocked_priority w s in
    k ← wait_queue_dequeue_thread_internal w t wait_queue_error (ker s);
    s ← WaitersPriorityChanged w old_wq_prio (with_ker k s);
    k ← sched_unblock t (ker s);
    Some (ZX_OK, with_ker k s).

(** [sched_change_priority], with propagation. *)
Definition sched_change_priority (t priority : Z) (s : State) : option State :=
  th ← threads (ker s) !! t;
  p ← pis s !! t;
  if is_dead t s then Some s
  else
    match blocking_wait_queue th with
    | None => change_pi t (set_base priority p) s
    | Some w =>
        let old_wq_prio := blocked_priority w s in
        s ← change_pi t (set_base priority p) s;
        WaitersPriorityChanged w old_wq_prio s
    end.

Inductive Action := Skip | Stop | SelectAndKeepGoing | SelectAndStop | SelectAndAssignOwner.

(** A hook with the context it updates. *)
Section Hooks.
Context {H : Type} (hook : Z -> H -> Action * H).

Fixpoint wake_each (w wake_count woken : Z) (l : list Z) (h : H) (s : State) : option (option Z * H * State) :=
  match l with
  | [] => Some (None, h, s)
  | t :: l =>
      let '(action, h) := hook t h in
      match action with
      | Skip => wake_each w wake_count woken l h s
      | Stop => Some (None, h, s)
      | _ =>
          k ← wait_queue_dequeue_thread_internal w t ZX_OK (ker s);
          k ← sched_unblock t k;
          let s := with_ker k s in
          match action with
          | SelectAndKeepGoing => if woken + 1 <? wake_count then wake_each w wake_count (woken + 1) l h s else Some (None, h, s)
          | SelectAndAssignOwner => if debug && negb (woken + 1 =? 1) then None else Some (if IsEmpty w s then None else Some t, h, s)
          | _ => Some (None, h, s)
          end
      end
  end.

Definition WakeThreadsInternal (w wake_count : Z) (h : H) (s : State) : option (option Z * H * State) :=
  if wake_count =? 0 then Some (None, h, s) else wake_each w wake_count 0 (thread_list w s) h s.

Definition WakeThreads (w wake_count : Z) (h : H) (s : State) : option (H * State) :=
  let old_queue_prio := blocked_priority w s in
  '(new_owner, h, s) ← WakeThreadsInternal w wake_count h s;
  s ← UpdateBookkeeping w new_owner old_queue_prio s;
  Some (h, s).

(** The requeue loop, with a hook of its own. *)
Fixpoint requeue_each (w target requeue_count requeued : Z) (l : list Z) (h : H) (s : State) : option (H * State) :=
  match l with
  | [] => Some (h, s)
  | t :: l =>
      let '(action, h) := hook t h in
      match action with
      | Skip => requeue_each w target requeue_count requeued l h s
      | Stop => Some (h, s)
      | _ =>
          if debug && match action with SelectAndAssignOwner => true | _ => false end then None else
          k ← wait_queue_move_thread w target t (ker s);
          let s := with_ker k s in
          match action with
          | SelectAndStop => Some (h, s)
          | _ => if requeued + 1 <? requeue_count then requeue_each w target requeue_count (requeued + 1) l h s else Some (h, s)
          end
      end
  end.
End Hooks.

Definition WakeAndRequeue {H1 H2} (wake_hook : Z -> H1 -> Action * H1) (requeue_hook : Z -> H2 -> Action * H2) (w wake_count target requeue_count : Z) (requeue_owner : option Z)
    (h1 : H1) (h2 : H2) (s : State) : option (H1 * H2 * State) :=
  if debug && match requeue_owner with Some o => is_initial o s | None => false end then None else
  let requeue_owner := o ← requeue_owner; if is_dead o s then None else Some o in
  let old_wake_prio := blocked_priority w s in
  let old_requeue_prio := blocked_priority target s in
  '(new_wake_owner, h1, s) ← WakeThreadsInternal wake_hook w wake_count h1 s;
  '(h2, s) ← (if negb (IsEmpty w s) && negb (requeue_count =? 0) then requeue_each requeue_hook w target requeue_count 0 (thread_list w s) h2 s else Some (h2, s));
  s ← UpdateBookkeeping w new_wake_owner old_wake_prio s;
  let requeue_owner := if IsEmpty target s then None else requeue_owner in
  s ← UpdateBookkeeping target requeue_owner old_requeue_prio s;
  Some (h1, h2, s).

(** Up to where the thread [t] is blocked, if the status is OK. *)
Definition BlockAndAssignOwner (w t deadline now : Z) (new_owner : option Z) (reason : ResourceOwnership) (s : State) : option (zx_status_t * State) :=
  let old_queue_prio := blocked_priority w s in
  '(res, k) ← wait_queue_block_etc_pre w t deadline now 0 reason (ker s);
  if negb (bool_decide (res = ZX_OK)) then s ← AssignOwner w new_owner s; Some (res, s)
  else s ← UpdateBookkeeping w new_owner old_queue_prio (with_ker k s); Some (res, s).

End Pi.

End OwnedWaitQueue.
