(* ===== verification/OwnedWaitQueueFacts.v ===== *)
(** * Correctness of owned wait queues: propagation

    The inherited priority of a thread is the greatest priority of the threads in the
    queues it owns.  When the pressure of one queue changes, the loop along the chain of
    owners restores that for all threads, and ends after at most one step per thread,
    even when owners wait for each other in a circle. *)

From S2P Require Import Prelude Zx WaitQueue WaitQueueFacts OwnedWaitQueue.
Import WaitQueue OwnedWaitQueue.

(** ** Maxima *)

Definition maxl (l : list Z) : Z := foldr Z.max (-1) l.

Lemma maxl_ge x l : x ∈ l -> x <= maxl l.
Proof. induction l as [|y l IH]; [by intros ?%not_elem_of_nil|]. simpl. intros [->|Hx]%elem_of_cons; [lia|]. specialize (IH Hx). unfold maxl in *. lia. Qed.
Lemma maxl_low l : -1 <= maxl l.
Proof. induction l as [|y l IH]; unfold maxl in *; simpl; lia. Qed.
#[global] Instance maxl_perm : Proper ((≡ₚ) ==> (=)) maxl.
Proof. intros l l' HP. unfold maxl. induction HP; simpl; lia. Qed.
Lemma maxl_split x l : x ∈ l -> NoDup l -> forall f : Z -> Z, maxl (map f l) = Z.max (f x) (maxl (map f (filter (fun y => y <> x) l))).
Proof. intros Hx Hnd f. rewrite (filter_ne_perm x l Hnd Hx) at 1. done. Qed.
Lemma maxl_ext (f g : Z -> Z) l : (forall x, x ∈ l -> f x = g x) -> maxl (map f l) = maxl (map g l).
Proof.
  induction l as [|y l IH]; intros H; [done|]. unfold maxl in *. simpl. rewrite (H y) by apply list_elem_of_here. rewrite IH; [done|]. intros x Hx. apply H. by right.
Qed.
Lemma foldr_maxl n l : -1 <= n -> foldr Z.max n l = Z.max n (maxl l).
Proof. intros Hn. induction l as [|y l IH]; unfold maxl in *; simpl; lia. Qed.

(** ** The priority of a queue *)

Definition qprio (k : kernel) (w : Z) : Z := maxl (map (prio k) (waiters w k)).

Lemma blocked_priority_max L k w : k_inv L k -> (forall x, -1 <= prio k x) -> wait_queue_blocked_priority w k = qprio k w.
Proof.
  intros I Hp. unfold wait_queue_blocked_priority, qprio, waiters. destruct (queues k !! w) as [q|] eqn:Hq; [|done]. destruct (ki_queue _ _ I w q Hq) as (Hok & _ & _).
  rewrite (peek_flat q (prio k) Hok). pose proof (flat_sorted (prio k) _ Hok) as Hs. destruct (concat (heads q)) as [|t l]; [done|]. simpl. apply Sorted.StronglySorted_inv in Hs as [_ Hs].
  assert (maxl (map (prio k) l) <= prio k t) as H; [|unfold maxl in *; simpl; lia]. clear Hok Hq. induction l as [|y l IH]; [unfold maxl; simpl; apply Hp|]. unfold maxl in *. simpl.
  apply Forall_cons in Hs as [H1 H2]. specialize (IH H2). lia.
Qed.

(** ** A thread changes its priority *)

Lemma update_weight_spec L t e k th :
  k_inv L k -> threads k !! t = Some th ->
  exists k', UpdateWeightCommon t e k = Some k' /\ k_inv L k' /\ threads k' = <[t := set_state (state th) e th]> (threads k) /\ (forall w, waiters w k' ≡ₚ waiters w k) /\
    same_queues k k' /\ ready k' = ready k.
Proof.
  intros I Ht. unfold UpdateWeightCommon. rewrite Ht. cbn [mbind option_bind]. destruct (blocking_wait_queue th) as [w|] eqn:Hb.
  - destruct (priority_changed_spec L t e k th w I Ht Hb) as (k' & E & I' & _ & Hw). exists k'. rewrite E. split; [done|]. split; [done|].
    unfold wait_queue_priority_changed in E. rewrite Ht in E. cbn [mbind option_bind] in E. rewrite Hb in E. cbn [mbind option_bind] in E.
    pose proof (ki_blocked _ _ I t th Ht) as Hkb. rewrite Hb in Hkb. destruct Hkb as (_ & [q Hq] & _). simpl in E. rewrite Hq in E. cbn [mbind option_bind] in E. injection E as E.
    assert (threads k' = <[t := set_state (state th) e th]> (threads k)) as Et by (subst k'; simpl; unfold set_state; by rewrite Hb).
    assert (forall w', w' <> w -> queues k' !! w' = queues k !! w') as Eq by (intros w' Hw'; subst k'; simpl; by rewrite lookup_insert_ne).
    split_and!; [done | | |by subst k'].
    + intros w'. destruct (decide (w' = w)) as [->|Hne]; [|unfold waiters; by rewrite Eq]. rewrite Hw, ins_perm. symmetry. apply filter_ne_perm; [by apply (waiters_nodup L)|].
      unfold waiters. rewrite Hq. apply (ki_member _ _ I w q t Hq). by exists th.
    + intros w'. destruct (decide (w' = w)) as [->|Hne]; [|by rewrite Eq]. rewrite Hq. subst k'. simpl. rewrite lookup_insert_eq. done.
  - eexists. split; [done|]. split_and!; try done. destruct I as [I1 I2 I3]. split; simpl.
    + intros w q Hq. destruct (I1 w q Hq) as (H1 & H2 & H3). split_and!; try done. eapply gs_ok_ext; [|exact H1]. intros x Hx. unfold prio. simpl.
      destruct (decide (x = t)) as [->|Hne]; [|by rewrite lookup_insert_ne]. apply (I2 w q t Hq) in Hx as (th0 & Hth0 & Hb0). congruence.
    + intros w q x Hq. rewrite (I2 w q x Hq). destruct (decide (x = t)) as [->|Hne]; [rewrite lookup_insert_eq | by rewrite lookup_insert_ne].
      split; intros (th0 & Hth0 & Hb0); [exfalso | exists th]; simplify_eq; simpl in *; congruence.
    + intros x th0 [[<- <-]|[Hne Hx]]%lookup_insert_Some; [|by apply (I3 x)]. specialize (I3 t th Ht). simpl. by rewrite Hb in *.
Qed.

(** What it does to the priorities of the queues. *)
Lemma qprio_change t e k k' th :
  threads k !! t = Some th -> threads k' = <[t := set_state (state th) e th]> (threads k) -> (forall w, waiters w k' ≡ₚ waiters w k) -> (forall w, NoDup (waiters w k)) ->
  forall w, (t ∉ waiters w k -> qprio k' w = qprio k w) /\ (t ∈ waiters w k -> exists r, -1 <= r /\ qprio k w = Z.max (effec_priority th) r /\ qprio k' w = Z.max e r).
Proof.
  intros Ht Et Hw Hnd w. assert (forall x, x <> t -> prio k' x = prio k x) as Hp by (intros x Hx; unfold prio; by rewrite Et, lookup_insert_ne).
  unfold qprio. assert (maxl (map (prio k') (waiters w k')) = maxl (map (prio k') (waiters w k))) as -> by (by rewrite Hw). split.
  - intros Hn. apply maxl_ext. intros x Hx. apply Hp. by intros ->.
  - intros Hin. exists (maxl (map (prio k) (filter (fun y => y <> t) (waiters w k)))). split; [apply maxl_low|]. rewrite (maxl_split t _ Hin (Hnd w) (prio k)), (maxl_split t _ Hin (Hnd w) (prio k')).
    assert (prio k t = effec_priority th) as -> by (unfold prio; by rewrite Ht). assert (prio k' t = e) as -> by (unfold prio; by rewrite Et, lookup_insert_eq). split; [done|]. f_equal.
    apply maxl_ext. intros x [Hx _]%list_elem_of_filter. by apply Hp.
Qed.

(** ** The invariant *)

Definition alive (t : Z) (s : State) : Prop := is_dead t s = false.
Definition pressure (s : State) (p : pi) : Z := maxl (map (qprio (ker s)) (owned_wait_queues p)).

(** [L]: threads that have left their queue and are not ready yet. *)
Record shape (L : list Z) (s : State) : Prop := {
  sh_ker : k_inv L (ker s);
  sh_dom : forall t, is_Some (threads (ker s) !! t) <-> is_Some (pis s !! t);
  sh_owner : forall w t, owners s !! w = Some t <-> exists p, pis s !! t = Some p /\ w ∈ owned_wait_queues p;
  sh_nodup : forall t p, pis s !! t = Some p -> NoDup (owned_wait_queues p);
  sh_alive : forall w t, owners s !! w = Some t -> alive t s /\ is_Some (queues (ker s) !! w);
  sh_low : forall t p, pis s !! t = Some p -> 0 <= base_priority p /\ -1 <= inherited_priority p;
  sh_eff : forall t p th, pis s !! t = Some p -> threads (ker s) !! t = Some th -> effec_priority th = effective p;
}.

(** All threads but [ex] inherit what they should. *)
Definition inherits (ex : option Z) (s : State) : Prop := forall t p, pis s !! t = Some p -> alive t s -> ex <> Some t -> inherited_priority p = pressure s p.

Definition pinv (L : list Z) (s : State) : Prop := shape L s /\ inherits None s.

Lemma effective_max p : effective p = Z.max (inherited_priority p) (base_priority p).
Proof. unfold effective. rewrite Z.gtb_ltb. destruct (Z.ltb_spec (base_priority p) (inherited_priority p)); lia. Qed.

Lemma prio_low L s : shape L s -> forall x, -1 <= prio (ker s) x.
Proof.
  intros S x. unfold prio. destruct (threads (ker s) !! x) as [th|] eqn:Ht; [|lia]. destruct (proj1 (sh_dom _ _ S x)) as [p Hp]; [by exists th|].
  rewrite (sh_eff _ _ S x p th Hp Ht), effective_max. pose proof (sh_low _ _ S x p Hp). lia.
Qed.

Lemma blocked_priority_qprio L s w : shape L s -> blocked_priority w s = qprio (ker s) w.
Proof. intros S. apply (blocked_priority_max L); [apply (sh_ker _ _ S) | by apply (prio_low L)]. Qed.

(** ** What propagation leaves alone *)

Definition strip (th : thread_t) := (state th, signals th, interruptable th, blocked_status th, blocking_wait_queue th).

Record calm (s s' : State) : Prop := {
  ca_threads : forall x, strip <$> threads (ker s') !! x = strip <$> threads (ker s) !! x;
  ca_waiters : forall w, waiters w (ker s') ≡ₚ waiters w (ker s);
  ca_queues : same_queues (ker s) (ker s');
  ca_ready : ready (ker s') = ready (ker s);
  ca_owners : owners s' = owners s;
  ca_pis : forall x, (fun p => (base_priority p, owned_wait_queues p)) <$> pis s' !! x = (fun p => (base_priority p, owned_wait_queues p)) <$> pis s !! x;
}.

Lemma pi_calm_refl s : calm s s.
Proof. done. Qed.
Lemma pi_calm_trans s1 s2 s3 : calm s1 s2 -> calm s2 s3 -> calm s1 s3.
Proof.
  intros [A1 A2 A3 A4 A5 A6] [B1 B2 B3 B4 B5 B6]. split; [intros x; by rewrite B1 | intros w; by rewrite B2 | by apply (same_queues_trans _ (ker s2)) | congruence | congruence | intros x; by rewrite B6].
Qed.

Lemma calm_dead t s s' : calm s s' -> is_dead t s' = is_dead t s.
Proof.
  intros C. pose proof (ca_threads _ _ C t) as E. unfold is_dead. destruct (threads (ker s') !! t) as [a|], (threads (ker s) !! t) as [b|]; try done. simpl in E. injection E as E _. by rewrite E.
Qed.

Lemma calm_blocking t s s' : calm s s' -> forall th', threads (ker s') !! t = Some th' -> exists th, threads (ker s) !! t = Some th /\ strip th = strip th'.
Proof. intros C th' Ht. pose proof (ca_threads _ _ C t) as E. rewrite Ht in E. destruct (threads (ker s) !! t) as [th|]; [|done]. injection E as E. exists th. split; [done|]. unfold strip. congruence. Qed.

(** ** A thread gets a new priority *)

Lemma change_pi_spec L t p p' s :
  shape L s -> pis s !! t = Some p -> owned_wait_queues p' = owned_wait_queues p -> 0 <= base_priority p' -> -1 <= inherited_priority p' ->
  exists s', change_pi t p' s = Some s' /\ shape L s' /\ pis s' = <[t := p']> (pis s) /\ owners s' = owners s /\
    (forall x, strip <$> threads (ker s') !! x = strip <$> threads (ker s) !! x) /\ (forall w, waiters w (ker s') ≡ₚ waiters w (ker s)) /\ same_queues (ker s) (ker s') /\ ready (ker s') = ready (ker s) /\
    forall w, (t ∉ waiters w (ker s) -> qprio (ker s') w = qprio (ker s) w) /\
      (t ∈ waiters w (ker s) -> exists r, -1 <= r /\ qprio (ker s) w = Z.max (effective p) r /\ qprio (ker s') w = Z.max (effective p') r).
Proof.
  intros S Hp Ho Hb Hi. destruct (proj2 (sh_dom _ _ S t)) as [th Ht]; [by exists p|]. unfold change_pi. rewrite Ht. cbn [mbind option_bind]. pose proof (sh_eff _ _ S t p th Hp Ht) as He.
  assert (forall k', threads k' = <[t := set_state (state th) (effective p') th]> (threads (ker s)) -> k_inv L k' -> same_queues (ker s) k' -> shape L (mkState k' (<[t := p']> (pis s)) (owners s))) as Hsh.
  { intros k' Et Ik Hq. destruct S as [S1 S2 S3 S4 S5 S6 S7]. split; simpl; try done.
    - intros x. rewrite Et. destruct (decide (x = t)) as [->|Hne]; [rewrite !lookup_insert_eq; split; by eexists | rewrite !lookup_insert_ne by done; apply S2].
    - intros w x. rewrite S3. destruct (decide (x = t)) as [->|Hne]; [|by rewrite lookup_insert_ne]. rewrite lookup_insert_eq. split; intros (p0 & E & Hin); simplify_eq; eexists; (split; [done|]); congruence.
    - intros x p0 [[<- <-]|[_ Hx]]%lookup_insert_Some; [rewrite Ho; by apply (S4 t) | by apply (S4 x)].
    - intros w x Hw. destruct (S5 w x Hw) as [H1 H2]. split; [|by apply Hq]. unfold alive, is_dead in *. simpl. rewrite Et. destruct (decide (x = t)) as [->|Hne]; [rewrite lookup_insert_eq; by rewrite Ht in H1 | by rewrite lookup_insert_ne].
    - intros x p0 [[<- <-]|[_ Hx]]%lookup_insert_Some; [done | by apply (S6 x)].
    - intros x p0 th0. rewrite Et. intros [[<- <-]|[Hne Hx]]%lookup_insert_Some; [rewrite lookup_insert_eq; by intros [= <-] | rewrite lookup_insert_ne by done; by apply S7]. }
  destruct (Z.eqb_spec (effective p') (effec_priority th)) as [E|E].
  - eexists. split; [done|]. split_and!; try done.
    + apply (Hsh (ker s)); [|apply (sh_ker _ _ S) | done]. rewrite E. symmetry. apply insert_id. rewrite Ht. by destruct th.
    + intros w. split; [done|]. intros Hin. exists (maxl (map (prio (ker s)) (filter (fun y => y <> t) (waiters w (ker s))))). split; [apply maxl_low|].
      assert (qprio (ker s) w = Z.max (effec_priority th) (maxl (map (prio (ker s)) (filter (fun y => y <> t) (waiters w (ker s)))))) as Hq.
      { unfold qprio. rewrite (maxl_split t _ Hin (waiters_nodup _ _ _ (sh_ker _ _ S)) (prio (ker s))). f_equal. unfold prio. by rewrite Ht. }
      rewrite <- He, E. by split.
  - destruct (update_weight_spec L t (effective p') (ker s) th (sh_ker _ _ S) Ht) as (k' & Ek & Ik & Et & Hw & Hq & Hr). simpl. rewrite Ek. cbn [mbind option_bind].
    eexists. split; [done|]. split; [by apply Hsh|]. split_and!; try done.
    + intros x. simpl. rewrite Et. destruct (decide (x = t)) as [->|Hne]; [rewrite lookup_insert_eq, Ht; by destruct th | by rewrite lookup_insert_ne].
    + simpl. rewrite <- He. apply (qprio_change t _ _ _ th); try done. intros w. apply (waiters_nodup L), (sh_ker _ _ S).
Qed.

(** ** The loop *)

(** The pressure of one queue of [t] has changed, and [t] does not know yet. *)
Record unsettled (L : list Z) (s : State) (t old new : Z) : Prop := {
  u_shape : shape L s;
  u_others : inherits (Some t) s;
  u_alive : alive t s;
  u_this : exists p r, pis s !! t = Some p /\ -1 <= r /\ inherited_priority p = Z.max old r /\ pressure s p = Z.max new r;
  u_ne : old <> new;
  u_low : -1 <= old /\ -1 <= new;
}.

Lemma new_pressure_spec L s p old new r :
  shape L s -> -1 <= r -> inherited_priority p = Z.max old r -> pressure s p = Z.max new r -> old <> new -> -1 <= new ->
  exists res, new_pressure false p old new s = Some res /\
    match res with
    | None => inherited_priority p = pressure s p
    | Some n => n = pressure s p /\ n <> inherited_priority p /\ (new < old -> inherited_priority p = old /\ n < old) /\ (old < new -> n = new /\ inherited_priority p < new)
    end.
Proof.
  intros S Hr Hi Hp Hne Hn. unfold new_pressure. destruct (Z.ltb_spec new old) as [Hlt|Hge].
  - destruct (Z.ltb_spec old (inherited_priority p)) as [H1|H1]; [eexists; split; [done|]; simpl; lia|]. cbn [andb].
    assert (map (fun w => blocked_priority w s) (owned_wait_queues p) = map (qprio (ker s)) (owned_wait_queues p)) as -> by (apply map_ext; intros w; by apply (blocked_priority_qprio L)).
    rewrite foldr_maxl by done. fold (pressure s p). rewrite Hp. eexists. split; [done|]. destruct (Z.eqb_spec (Z.max new (Z.max new r)) (inherited_priority p)); simpl; lia.
  - eexists. split; [done|]. destruct (Z.leb_spec new (inherited_priority p)); simpl; lia.
Qed.

(** How many threads are still to be visited. *)
Definition left (old new : Z) (s : State) : nat :=
  if decide (old < new) then size (filter (fun e => inherited_priority e.2 < new) (pis s)) else size (filter (fun e => inherited_priority e.2 = old) (pis s)).

Lemma left_size old new s : (left old new s <= size (pis s))%nat.
Proof. unfold left. destruct (decide _); apply map_subseteq_size, map_filter_subseteq. Qed.

Lemma size_filter_insert (P : Z * pi -> Prop) `{forall x, Decision (P x)} (m : gmap Z pi) t p p' : m !! t = Some p -> P (t, p) -> ~ P (t, p') -> (size (filter P (<[t := p']> m)) < size (filter P m))%nat.
Proof.
  intros Ht Hp Hp'. rewrite map_filter_insert_False by done. rewrite map_filter_delete, map_size_delete_Some; [|by exists p; apply map_lookup_filter_Some].
  assert (size (filter P m) <> 0%nat); [|lia]. rewrite map_size_ne_0_lookup. exists t, p. by apply map_lookup_filter_Some.
Qed.

(** Who owns the queue a thread waits in has more or less pressure now. *)
Lemma owner_unsettled L s s' t p p' w o old new :
  shape L s -> inherits (Some t) s -> pis s !! t = Some p -> inherited_priority p' = pressure s p -> owned_wait_queues p' = owned_wait_queues p ->
  shape L s' -> pis s' = <[t := p']> (pis s) -> owners s' = owners s -> (forall x, is_dead x s' = is_dead x s) ->
  (forall w', w' <> w -> qprio (ker s') w' = qprio (ker s) w') -> qprio (ker s) w = old -> qprio (ker s') w = new -> old <> new -> owners s !! w = Some o ->
  unsettled L s' o old new.
Proof.
  intros S Hin Hp Hi Ho S' Ep Eo Hd Hq Hold Hnew Hne How.
  assert (forall x q q', pis s !! x = Some q -> owned_wait_queues q' = owned_wait_queues q -> x <> o -> pressure s' q' = pressure s q) as Hpr.
  { intros x q q' Hx Hqo Hxo. unfold pressure. rewrite Hqo. apply maxl_ext. intros w' Hw'. apply Hq. intros ->. assert (owners s !! w = Some x) by (apply (sh_owner _ _ S); by exists q). congruence. }
  assert (forall x q', pis s' !! x = Some q' -> alive x s' -> exists q, pis s !! x = Some q /\ owned_wait_queues q' = owned_wait_queues q /\ inherited_priority q' = pressure s q) as Hall.
  { intros x q'. rewrite Ep. unfold alive. rewrite Hd. intros [[<- <-]|[Hxt Hx]]%lookup_insert_Some Hal; [by exists p|]. exists q'. split_and!; try done. apply (Hin x q'); [done | done | congruence]. }
  destruct (proj1 (sh_owner _ _ S w o) How) as (q & Hqo & Hqw). destruct (sh_alive _ _ S w o How) as [Hal _]. split; try done.
  - intros x q' Hx Hax Hxo. destruct (Hall x q' Hx Hax) as (q0 & H1 & H2 & ->). symmetry. apply (Hpr x); congruence.
  - unfold alive. by rewrite Hd.
  - assert (exists q', pis s' !! o = Some q') as [q' Hq'] by (rewrite Ep; destruct (decide (t = o)) as [->|Hto]; [exists p'; apply lookup_insert_eq | exists q; by rewrite lookup_insert_ne]).
    destruct (Hall o q' Hq') as (q0 & H1 & H2 & H3); [unfold alive; by rewrite Hd|]. assert (q0 = q) as -> by congruence. pose proof (sh_nodup _ _ S o q Hqo) as Hnd.
    set (r := maxl (map (qprio (ker s)) (filter (fun y => y <> w) (owned_wait_queues q)))). exists q', r. split_and!; [done | apply maxl_low | |].
    + rewrite H3. unfold pressure. rewrite (maxl_split w _ Hqw Hnd). by rewrite Hold.
    + unfold pressure. rewrite H2, (maxl_split w _ Hqw Hnd), Hnew. f_equal. apply maxl_ext. intros w' [Hw' _]%list_elem_of_filter. by apply Hq.
  - subst. split; apply maxl_low.
Qed.

Lemma pi_loop_step L s t old new p n :
  unsettled L s t old new -> pis s !! t = Some p -> n = pressure s p -> -1 <= n ->
  exists s' th, threads (ker s) !! t = Some th /\ sched_inherit_priority t n s = Some s' /\ calm s s' /\ shape L s' /\ pis s' = <[t := set_inherited n p]> (pis s) /\
    match blocking_wait_queue th with
    | None => inherits None s'
    | Some w =>
        (forall w', w' <> w -> qprio (ker s') w' = qprio (ker s) w') /\
        (exists r, -1 <= r /\ qprio (ker s) w = Z.max (effective p) r /\ qprio (ker s') w = Z.max (effective (set_inherited n p)) r) /\
        (qprio (ker s) w = qprio (ker s') w -> inherits None s') /\ (owners s !! w = None -> inherits None s')
    end.
Proof.
  intros [S Hin Hal _ _ _] Hp Hn Hlow. destruct (sh_low _ _ S t p Hp) as [Hb _]. unfold sched_inherit_priority. rewrite Hp. cbn [mbind option_bind].
  destruct (change_pi_spec L t p (set_inherited n p) s) as (s' & E & S' & Ep & Eo & Et & Ew & Eq & Er & Hq); try done. rewrite E. destruct (proj2 (sh_dom _ _ S t)) as [th Ht]; [by exists p|].
  assert (calm s s') as C.
  { split; try done. intros x. rewrite Ep. destruct (decide (x = t)) as [->|Hne]; [by rewrite lookup_insert_eq, Hp | by rewrite lookup_insert_ne]. }
  exists s', th. split_and!; try done.
  assert (forall x p0, pis s' !! x = Some p0 -> alive x s' -> exists q, pis s !! x = Some q /\ owned_wait_queues p0 = owned_wait_queues q /\ inherited_priority p0 = pressure s q) as Hall.
  { intros x p0. rewrite Ep. unfold alive. rewrite (calm_dead _ _ _ C). intros [[<- <-]|[Hne Hx]]%lookup_insert_Some Hax; [by exists p|]. exists p0. split_and!; try done. apply (Hin x); [done | done | congruence]. }
  assert ((forall w, is_Some (owners s !! w) -> qprio (ker s') w = qprio (ker s) w) -> inherits None s') as Hinh.
  { intros Hsame x p0 Hx Hax _. destruct (Hall x p0 Hx Hax) as (q & Hq1 & Hq2 & ->). unfold pressure. rewrite Hq2. apply maxl_ext. intros w Hw. symmetry. apply Hsame. exists x. apply (sh_owner _ _ S). by exists q. }
  destruct (blocking_wait_queue th) as [w|] eqn:Hbw.
  - assert (forall w', t ∈ waiters w' (ker s) -> w' = w) as Honly by (intros w' Hw'; destruct (waiters_blocked _ _ _ _ (sh_ker _ _ S) Hw') as (q & th0 & _ & Ht0 & Hb0); congruence).
    assert (forall w', w' <> w -> qprio (ker s') w' = qprio (ker s) w') as Hother by (intros w' Hne; apply Hq; intros Hw'; by apply Hne, Honly).
    split_and!; [done | | |].
    + apply Hq. pose proof (ki_blocked _ _ (sh_ker _ _ S) t th Ht) as Hkb. rewrite Hbw in Hkb. destruct Hkb as (_ & [q Hqq] & _). unfold waiters. rewrite Hqq.
      apply (ki_member _ _ (sh_ker _ _ S) w q t Hqq). by exists th.
    + intros Hsame. apply Hinh. intros w' _. destruct (decide (w' = w)) as [->|Hne]; [done | by apply Hother].
    + intros Hno. apply Hinh. intros w' [o Ho]. apply Hother. congruence.
  - apply Hinh. intros w _. apply Hq. intros Hw. destruct (waiters_blocked _ _ _ _ (sh_ker _ _ S) Hw) as (q & th0 & _ & Ht0 & Hb0). congruence.
Qed.

Lemma loop_spec L fuel : forall len s t old new, unsettled L s t old new -> (left old new s < fuel)%nat -> exists s', QueuePressureLoop false fuel len t old new s = Some s' /\ pinv L s' /\ calm s s'.
Proof.
  induction fuel as [|fuel IH]; intros len s t old new U Hf; [lia|]. simpl. destruct (u_this _ _ _ _ _ U) as (p & r & Hp & Hr & Hi & Hpr). rewrite Hp. cbn [mbind option_bind].
  destruct (new_pressure_spec L s p old new r (u_shape _ _ _ _ _ U) Hr Hi Hpr (u_ne _ _ _ _ _ U) (proj2 (u_low _ _ _ _ _ U))) as (res & -> & Hres). cbn [mbind option_bind]. destruct res as [n|].
  2: { exists s. split; [done|]. split; [|apply pi_calm_refl]. split; [apply (u_shape _ _ _ _ _ U)|]. intros x q Hx Hax _. destruct (decide (x = t)) as [->|Hne]; [congruence|].
    apply (u_others _ _ _ _ _ U x q Hx Hax). congruence. }
  destruct Hres as (Hn & Hne & Hdrop & Hrise). assert (-1 <= n) as Hlow by (rewrite Hn; apply maxl_low).
  destruct (pi_loop_step L s t old new p n U Hp Hn Hlow) as (s' & th & Ht & Es & C & S' & Ep & Hb). rewrite Ht. cbn [mbind option_bind]. rewrite Es. cbn [mbind option_bind].
  destruct (blocking_wait_queue th) as [w|]; cbn [mbind option_bind]; [|exists s'; by rewrite Z.eqb_refl]. destruct Hb as (Hother & (r' & Hr' & Hq & Hq') & Hsame & Hno).
  rewrite (blocked_priority_qprio L s w (u_shape _ _ _ _ _ U)), (blocked_priority_qprio L s' w S'). destruct (Z.eqb_spec (qprio (ker s) w) (qprio (ker s') w)) as [E|E]; [exists s'; split_and!; try done; by split; [|apply Hsame]|].
  unfold owner. rewrite (ca_owners _ _ C). destruct (owners s !! w) as [o|] eqn:How; [|exists s'; split_and!; try done; by split; [|apply Hno]].
  assert (unsettled L s' o (qprio (ker s) w) (qprio (ker s') w)) as U'.
  { apply (owner_unsettled L s s' t p (set_inherited n p) w o); try done; [apply (u_shape _ _ _ _ _ U) | apply (u_others _ _ _ _ _ U) | apply (ca_owners _ _ C) | intros x; by apply calm_dead]. }
  destruct (IH (len + 1) s' o _ _ U') as (s'' & E2 & I2 & C2); [|exists s''; split_and!; try done; by apply (pi_calm_trans s s')].
  destruct (sh_low _ _ (u_shape _ _ _ _ _ U) t p Hp) as [Hbase _]. rewrite !effective_max in Hq, Hq'. simpl in Hq'. pose proof (u_ne _ _ _ _ _ U) as Hon.
  unfold left in *. rewrite Ep. destruct (decide (old < new)) as [Hlt|Hge].
  - destruct (Hrise Hlt) as [-> Hlt']. rewrite decide_True by lia. assert (qprio (ker s') w = new) as -> by lia.
    pose proof (size_filter_insert (fun e => inherited_priority e.2 < new) (pis s) t p (set_inherited new p) Hp) as Hsz. simpl in Hsz. lia.
  - destruct (Hdrop ltac:(lia)) as [Hi' Hlt']. rewrite decide_False by lia. assert (qprio (ker s) w = old) as -> by lia.
    pose proof (size_filter_insert (fun e => inherited_priority e.2 = old) (pis s) t p (set_inherited n p) Hp) as Hsz. simpl in Hsz. lia.
Qed.

Lemma pressure_changed_spec L s t old new : unsettled L s t old new -> exists s', QueuePressureChanged false t old new s = Some s' /\ pinv L s' /\ calm s s'.
Proof. intros U. unfold QueuePressureChanged. cbn [andb]. apply loop_spec; [done|]. pose proof (left_size old new s). unfold loop_bound. lia. Qed.

(** ** The loop always ends *)

Definition total (s : State) : nat := sum_list_with (fun e => Z.to_nat (inherited_priority e.2 + 1)) (map_to_list (pis s)).

Lemma total_insert s s' t p p' : pis s !! t = Some p -> pis s' = <[t := p']> (pis s) -> -1 <= inherited_priority p' < inherited_priority p -> (total s' < total s)%nat.
Proof.
  intros Hp Ep Hlt. unfold total. rewrite Ep, <- (insert_delete_eq (pis s)), (map_to_list_insert _ t p') by apply lookup_delete_eq. rewrite <- (map_to_list_delete (pis s) t p Hp). simpl. lia.
Qed.

Definition rounds (old new : Z) (s : State) : nat :=
  if decide (old < new) then size (filter (fun e => inherited_priority e.2 < new) (pis s)) else S (size (pis s) + total s).

Lemma rounds_bound old new s : (rounds old new s < loop_bound s)%nat.
Proof.
  unfold rounds, loop_bound. fold (total s). destruct (decide _); [|lia]. assert (size (filter (fun e : Z * pi => (inherited_priority e.2 < new)%Z) (pis s)) <= size (pis s))%nat; [|lia]. apply map_subseteq_size, map_filter_subseteq.
Qed.

Lemma new_pressure_total p old new s :
  -1 <= new -> exists res, new_pressure false p old new s = Some res /\ match res with None => True | Some n => -1 <= n /\ n <> inherited_priority p /\ (old < new -> n = new /\ inherited_priority p < new) end.
Proof.
  intros Hn. unfold new_pressure. destruct (Z.ltb_spec new old) as [Hlt|Hge].
  - destruct (old <? inherited_priority p); [by eexists|]. cbn [andb]. eexists. split; [done|]. set (prios := map _ _). assert (new <= foldr Z.max new prios) as Hm by (induction prios; simpl; lia).
    destruct (Z.eqb_spec (foldr Z.max new prios) (inherited_priority p)); [done|]. split_and!; [lia | done | lia].
  - eexists. split; [done|]. destruct (Z.leb_spec new (inherited_priority p)); [done|]. split_and!; lia.
Qed.

Lemma inherit_step L s t p n :
  shape L s -> pis s !! t = Some p -> -1 <= n ->
  exists s' th, threads (ker s) !! t = Some th /\ sched_inherit_priority t n s = Some s' /\ calm s s' /\ shape L s' /\ pis s' = <[t := set_inherited n p]> (pis s) /\
    forall w, blocking_wait_queue th = Some w -> exists r, -1 <= r /\ qprio (ker s) w = Z.max (effective p) r /\ qprio (ker s') w = Z.max (effective (set_inherited n p)) r.
Proof.
  intros S Hp Hlow. destruct (sh_low _ _ S t p Hp) as [Hb _]. unfold sched_inherit_priority. rewrite Hp. cbn [mbind option_bind].
  destruct (change_pi_spec L t p (set_inherited n p) s) as (s' & E & S' & Ep & Eo & Et & Ew & Eq & Er & Hq); try done. rewrite E. destruct (proj2 (sh_dom _ _ S t)) as [th Ht]; [by exists p|]. exists s', th.
  split_and!; try done.
  - split; try done. intros x. rewrite Ep. destruct (decide (x = t)) as [->|Hne]; [by rewrite lookup_insert_eq, Hp | by rewrite lookup_insert_ne].
  - intros w Hbw. apply Hq. pose proof (ki_blocked _ _ (sh_ker _ _ S) t th Ht) as Hkb. rewrite Hbw in Hkb. destruct Hkb as (_ & [q Hqq] & _). unfold waiters. rewrite Hqq. apply (ki_member _ _ (sh_ker _ _ S) w q t Hqq). by exists th.
Qed.

Lemma loop_ends L fuel : forall len s t old new, shape L s -> is_Some (pis s !! t) -> -1 <= new -> (rounds old new s < fuel)%nat -> exists s', QueuePressureLoop false fuel len t old new s = Some s' /\ shape L s' /\ calm s s'.
Proof.
  induction fuel as [|fuel IH]; intros len s t old new S [p Hp] Hnew Hf; [lia|]. simpl. rewrite Hp. cbn [mbind option_bind]. destruct (new_pressure_total p old new s Hnew) as (res & -> & Hres). cbn [mbind option_bind].
  destruct res as [n|]; [|by exists s]. destruct Hres as (Hlow & Hne & Hrise). destruct (inherit_step L s t p n S Hp Hlow) as (s' & th & Ht & Es & C & S' & Ep & Hb). rewrite Ht. cbn [mbind option_bind]. rewrite Es. cbn [mbind option_bind].
  destruct (blocking_wait_queue th) as [w|]; cbn [mbind option_bind]; [|exists s'; by rewrite Z.eqb_refl]. destruct (Hb w eq_refl) as (r & Hr & Hq & Hq'). rewrite (blocked_priority_qprio L s w S), (blocked_priority_qprio L s' w S').
  destruct (Z.eqb_spec (qprio (ker s) w) (qprio (ker s') w)) as [E|E]; [by exists s'|]. unfold owner. destruct (owners s' !! w) as [o|] eqn:How; [|by exists s'].
  destruct (IH (len + 1) s' o (qprio (ker s) w) (qprio (ker s') w) S') as (s'' & E2 & I2 & C2); [| | | exists s''; split_and!; try done; by apply (pi_calm_trans s s')].
  - destruct (proj1 (sh_owner _ _ S' w o) How) as (q & Hqo & _). by exists q.
  - apply maxl_low.
  - rewrite !effective_max in Hq, Hq'. simpl in Hq'. destruct (sh_low _ _ S t p Hp) as [Hbase Hinh]. unfold rounds in *. rewrite Ep.
    assert (size (filter (fun e => (inherited_priority e.2 < n)%Z) (<[t := set_inherited n p]> (pis s))) < size (pis s))%nat as Hsz'.
    { rewrite map_filter_insert_False by (simpl; lia). eapply Nat.le_lt_trans; [apply map_subseteq_size, map_filter_subseteq|]. rewrite map_size_delete_Some by done. assert (size (pis s) <> 0%nat); [|lia]. rewrite map_size_ne_0_lookup. by exists t, p. }
    destruct (decide (qprio (ker s) w < qprio (ker s') w)) as [Hup|Hdown].
    + assert (qprio (ker s') w = n) as -> by lia. destruct (decide (old < new)) as [Hlt|Hge]; [|lia]. destruct (Hrise Hlt) as [-> Hlt'].
      pose proof (size_filter_insert (fun e => inherited_priority e.2 < new) (pis s) t p (set_inherited new p) Hp) as Hsz. simpl in Hsz. lia.
    + destruct (decide (old < new)) as [Hlt|Hge]; [destruct (Hrise Hlt); lia|]. pose proof (total_insert s s' t p (set_inherited n p) Hp Ep) as Ht'. simpl in Ht'. rewrite map_size_insert_Some by done. lia.
Qed.

Lemma pressure_changed_ends L s t old new : shape L s -> is_Some (pis s !! t) -> -1 <= new -> exists s', QueuePressureChanged false t old new s = Some s' /\ shape L s' /\ calm s s'.
Proof. intros S Hp Hn. unfold QueuePressureChanged. cbn [andb]. apply loop_ends; try done. apply rounds_bound. Qed.
