(* ===== verification/OwnedWaitQueueSteps.v ===== *)
(** * Correctness of owned wait queues: operations

    Every operation on owned wait queues restores the priorities that its change of
    queues and owners calls for, if a queue is taken only from an owner that does not
    wait itself. *)

From S2P Require Import Prelude Zx WaitQueue WaitQueueFacts OwnedWaitQueue OwnedWaitQueueFacts.
Import WaitQueue OwnedWaitQueue.

(** ** What threads have been told *)

(** [g] is the pressure that the owner of each queue knows of; it is out of date for
    the queues of [X]. *)
Definition told (g : Z -> Z) (s : State) : Prop := forall t p, pis s !! t = Some p -> alive t s -> inherited_priority p = maxl (map g (owned_wait_queues p)).
Definition agrees (g : Z -> Z) (X : list Z) (s : State) : Prop := forall w, is_Some (owners s !! w) -> w ∉ X -> g w = qprio (ker s) w.

Lemma told_pinv L g s : shape L s -> told g s -> agrees g [] s -> pinv L s.
Proof.
  intros S T A. split; [done|]. intros t p Hp Hal _. rewrite (T t p Hp Hal). apply maxl_ext. intros w Hw. apply A; [exists t; apply (sh_owner _ _ S); by exists p | apply not_elem_of_nil].
Qed.

Lemma pinv_told L s : pinv L s -> told (qprio (ker s)) s /\ agrees (qprio (ker s)) [] s.
Proof. intros [S I]. split; [|done]. intros t p Hp Hal. by apply (I t p Hp Hal). Qed.

Lemma told_unsettled L g w o s old :
  shape L s -> told g s -> agrees g [w] s -> owners s !! w = Some o -> g w = old -> -1 <= old -> old <> qprio (ker s) w -> unsettled L s o old (qprio (ker s) w).
Proof.
  intros S T A Ho Hg Hlow Hne. destruct (proj1 (sh_owner _ _ S w o) Ho) as (p & Hp & Hw). destruct (sh_alive _ _ S w o Ho) as [Hal _]. split; [done | | done | | done | split; [done | apply maxl_low]].
  - intros x q Hx Hax Hxo. rewrite (T x q Hx Hax). apply maxl_ext. intros w' Hw'. assert (owners s !! w' = Some x) as Hox by (apply (sh_owner _ _ S); by exists q).
    apply A; [by exists x|]. intros ->%list_elem_of_singleton. congruence.
  - pose proof (sh_nodup _ _ S o p Hp) as Hnd. exists p, (maxl (map g (filter (fun y => y <> w) (owned_wait_queues p)))). split_and!; [done | apply maxl_low | rewrite (T o p Hp Hal), (maxl_split w _ Hw Hnd), Hg; done|].
    unfold pressure. rewrite (maxl_split w _ Hw Hnd). f_equal. symmetry. apply maxl_ext. intros w' [Hne' Hw']%list_elem_of_filter. apply A; [|by intros ?%list_elem_of_singleton]. exists o. apply (sh_owner _ _ S). by exists p.
Qed.

(** A change of the kernel that keeps priorities. *)
Definition dead_state (st : thread_state) : bool := match st with THREAD_DEATH => true | _ => false end.

Definition fixed (k k' : kernel) : Prop :=
  (forall x, (fun th => (effec_priority th, dead_state (state th))) <$> threads k' !! x = (fun th => (effec_priority th, dead_state (state th))) <$> threads k !! x) /\
  forall w, is_Some (queues k !! w) -> is_Some (queues k' !! w).

Lemma fixed_prio k k' x : fixed k k' -> prio k' x = prio k x.
Proof. intros [E _]. specialize (E x). unfold prio. destruct (threads k' !! x), (threads k !! x); simpl in E; try done. congruence. Qed.

Lemma fixed_dead k k' s t : fixed k k' -> ker s = k -> is_dead t (with_ker k' s) = is_dead t s.
Proof.
  intros [E _] <-. specialize (E t). unfold is_dead. simpl. destruct (threads k' !! t) as [a|], (threads (ker s) !! t) as [b|]; simpl in E; try done. injection E as _ E. unfold dead_state in E.
  by destruct (state a), (state b).
Qed.

Lemma fixed_qprio k k' w : fixed k k' -> waiters w k' ≡ₚ waiters w k -> qprio k' w = qprio k w.
Proof. intros F Hw. unfold qprio. rewrite Hw. apply maxl_ext. intros x _. by apply fixed_prio. Qed.

Lemma fixed_trans k1 k2 k3 : fixed k1 k2 -> fixed k2 k3 -> fixed k1 k3.
Proof. intros [A1 A2] [B1 B2]. split; [intros x; by rewrite B1 | intros w Hw; by apply B2, A2]. Qed.

Lemma shape_fixed L L' s k' : shape L s -> fixed (ker s) k' -> k_inv L' k' -> shape L' (with_ker k' s).
Proof.
  intros [S1 S2 S3 S4 S5 S6 S7] F I. destruct F as [E Q]. split; simpl; try done.
  - intros t. rewrite <- S2. specialize (E t). split; intros [x Hx]; rewrite Hx in E; simpl in E; [destruct (threads (ker s) !! t) | destruct (threads k' !! t)]; try done; by eexists.
  - intros w t Hw. destruct (S5 w t Hw) as [H1 H2]. split; [|by apply Q]. unfold alive. by rewrite (fixed_dead (ker s)).
  - intros t p th Hp Ht. specialize (E t). rewrite Ht in E. destruct (threads (ker s) !! t) as [th0|] eqn:Ht0; [|done]. simpl in E. injection E as -> _. by apply (S7 t).
Qed.

(** After the queue [w] has changed. *)
Lemma told_fixed g s k' : told g s -> fixed (ker s) k' -> told g (with_ker k' s).
Proof. intros T F t p Hp Hal. apply (T t p Hp). unfold alive in *. by rewrite (fixed_dead (ker s)) in Hal. Qed.

Lemma agrees_fixed g s k' X : agrees g X s -> fixed (ker s) k' -> (forall w, w ∉ X -> waiters w k' ≡ₚ waiters w (ker s)) -> agrees g X (with_ker k' s).
Proof. intros A F Hw w Ho Hx. simpl in *. rewrite (A w Ho Hx). symmetry. apply fixed_qprio; [done | by apply Hw]. Qed.

(** ** Threads that do not wait *)

Definition idle (t : Z) (s : State) : Prop := exists th, threads (ker s) !! t = Some th /\ blocking_wait_queue th = None.

Lemma idle_waiters L t s w : shape L s -> idle t s -> t ∉ waiters w (ker s).
Proof. intros S (th & Ht & Hb) Hw. destruct (waiters_blocked _ _ _ _ (sh_ker _ _ S) Hw) as (q & th0 & _ & Ht0 & Hb0). congruence. Qed.

(** The priority of such a thread touches no queue. *)
Lemma solo_step L t p n s :
  shape L s -> pis s !! t = Some p -> idle t s -> -1 <= n ->
  exists s', sched_inherit_priority t n s = Some s' /\ shape L s' /\ pis s' = <[t := set_inherited n p]> (pis s) /\ calm s s' /\ forall w, qprio (ker s') w = qprio (ker s) w.
Proof.
  intros S Hp Hid Hn. destruct (sh_low _ _ S t p Hp) as [Hb _]. unfold sched_inherit_priority. rewrite Hp. cbn [mbind option_bind].
  destruct (change_pi_spec L t p (set_inherited n p) s) as (s' & E & S' & Ep & Eo & Et & Ew & Eq & Er & Hq); try done. rewrite E. exists s'. split_and!; try done.
  - split; try done. intros x. rewrite Ep. destruct (decide (x = t)) as [->|Hne]; [by rewrite lookup_insert_eq, Hp | by rewrite lookup_insert_ne].
  - intros w. apply Hq. by apply (idle_waiters L).
Qed.

Lemma solo_spec L t p s old new :
  shape L s -> pis s !! t = Some p -> idle t s -> -1 <= new ->
  forall res, new_pressure false p old new s = Some res -> (forall n, res = Some n -> -1 <= n) ->
  exists s', QueuePressureChanged false t old new s = Some s' /\ shape L s' /\ pis s' = <[t := set_inherited (default (inherited_priority p) res) p]> (pis s) /\ calm s s' /\
    forall w, qprio (ker s') w = qprio (ker s) w.
Proof.
  intros S Hp Hid Hnew res Hres Hlow. unfold QueuePressureChanged. cbn [andb]. simpl. rewrite Hp. cbn [mbind option_bind]. rewrite Hres. cbn [mbind option_bind]. destruct Hid as (th & Ht & Hb). destruct res as [n|].
  - rewrite Ht. cbn [mbind option_bind]. rewrite Hb. destruct (solo_step L t p n s S Hp) as (s' & E & S' & Ep & C & Hq); [by exists th | by apply Hlow|]. rewrite E. cbn [mbind option_bind]. rewrite Z.eqb_refl. by exists s'.
  - exists s. split_and!; try done. simpl. rewrite insert_id; [done|]. rewrite Hp. by destruct p.
Qed.

(** ** A queue loses its owner *)

Definition disown (w o : Z) (p : pi) (s : State) : State := with_owner w None (with_pi o (set_owned (filter (fun x => x <> w) (owned_wait_queues p)) p) s).

Lemma disown_shape L w o p s : shape L s -> pis s !! o = Some p -> owners s !! w = Some o -> shape L (disown w o p s).
Proof.
  intros [S1 S2 S3 S4 S5 S6 S7] Hp Ho. split; simpl; try done.
  - intros x. rewrite S2. destruct (decide (x = o)) as [->|Hne]; [rewrite lookup_insert_eq, Hp; split; by eexists | by rewrite lookup_insert_ne].
  - intros w' x. destruct (decide (x = o)) as [->|Hne].
    + rewrite lookup_insert_eq. split.
      * intros [Hw' Hx]%lookup_delete_Some. apply S3 in Hx as (p0 & Hp0 & Hin). simplify_eq. eexists. split; [done|]. simpl. apply list_elem_of_filter. split; [congruence | done].
      * intros (p0 & [= <-] & Hin). simpl in Hin. apply list_elem_of_filter in Hin as [Hne Hin]. apply lookup_delete_Some. split; [congruence|]. apply S3. by exists p.
    + rewrite lookup_insert_ne by done. rewrite <- S3. split; [by intros [_ ?]%lookup_delete_Some|]. intros Hx. apply lookup_delete_Some. split; [congruence | done].
  - intros x p0 [[<- <-]|[_ Hx]]%lookup_insert_Some; [simpl; apply NoDup_filter; by apply (S4 o) | by apply (S4 x)].
  - intros w' x [_ Hx]%lookup_delete_Some. by apply S5.
  - intros x p0 [[<- <-]|[_ Hx]]%lookup_insert_Some; [simpl; by apply (S6 o) | by apply (S6 x)].
  - intros x p0 th [[<- <-]|[_ Hx]]%lookup_insert_Some Ht; [by apply (S7 o p th) | by apply (S7 x)].
Qed.

Lemma disown_told g w o p s : told g s -> pis s !! o = Some p -> forall x q, pis (disown w o p s) !! x = Some q -> alive x s -> x <> o -> inherited_priority q = maxl (map g (owned_wait_queues q)).
Proof. intros T Hp x q Hx Hal Hne. simpl in Hx. rewrite lookup_insert_ne in Hx by done. by apply (T x). Qed.

(** The end of [release_owner], without assertions. *)
Lemma release_owner_eq w o old s p : pis s !! o = Some p ->
  release_owner false w o old s = (s' ← (if old >=? 0 then QueuePressureChanged false o old (-1) (disown w o p s) else Some (disown w o p s)); (fun _ => s') <$> pis s' !! o).
Proof. intros Hp. unfold release_owner. rewrite Hp. cbn [mbind option_bind]. unfold disown. destruct (if old >=? 0 then _ else _) as [s'|]; [|done]. cbn [mbind option_bind]. by destruct (pis s' !! o). Qed.

Record handed (w : Z) (o : option Z) (s s' : State) : Prop := {
  h_threads : forall x, strip <$> threads (ker s') !! x = strip <$> threads (ker s) !! x;
  h_waiters : forall w, waiters w (ker s') ≡ₚ waiters w (ker s);
  h_queues : same_queues (ker s) (ker s');
  h_ready : ready (ker s') = ready (ker s);
  h_owners : owners s' = match o with Some t => <[w := t]> (owners s) | None => delete w (owners s) end;
  h_base : forall x, base_priority <$> pis s' !! x = base_priority <$> pis s !! x;
}.

Lemma calm_base s s' : calm s s' -> forall x, base_priority <$> pis s' !! x = base_priority <$> pis s !! x.
Proof. intros C x. pose proof (ca_pis _ _ C x) as E. destruct (pis s' !! x), (pis s !! x); simpl in *; try done. congruence. Qed.

Lemma handed_disown w o p s s' : pis s !! o = Some p -> calm (disown w o p s) s' -> handed w None s s'.
Proof.
  intros Hp C. destruct C as [C1 C2 C3 C4 C5 C6] eqn:EC. split; try done. intros x. rewrite (calm_base _ _ C). simpl. destruct (decide (x = o)) as [->|Hne]; [by rewrite lookup_insert_eq, Hp | by rewrite lookup_insert_ne].
Qed.

Lemma alive_disown w o p s x : alive x (disown w o p s) <-> alive x s.
Proof. done. Qed.

(** The owner does not wait and owns no other queue of [X]. *)
Lemma release_idle L g X w o s old :
  shape L s -> told g s -> agrees g (w :: X) s -> owners s !! w = Some o -> g w = old -> -1 <= old -> idle o s -> (forall x, x ∈ X -> owners s !! x <> Some o) ->
  exists s', release_owner false w o old s = Some s' /\ shape L s' /\ told g s' /\ agrees g X s' /\ handed w None s s' /\ (forall w', qprio (ker s') w' = qprio (ker s) w').
Proof.
  intros S T A Ho Hg Hlow Hid HX. destruct (proj1 (sh_owner _ _ S w o) Ho) as (p & Hp & Hw). destruct (sh_alive _ _ S w o Ho) as [Hal _]. rewrite (release_owner_eq w o old s p Hp).
  pose proof (disown_shape L w o p s S Hp Ho) as S1. set (p1 := set_owned (filter (fun x => x <> w) (owned_wait_queues p)) p). set (r := maxl (map g (owned_wait_queues p1))).
  assert (inherited_priority p = Z.max old r) as Hi by (rewrite (T o p Hp Hal), (maxl_split w _ Hw (sh_nodup _ _ S o p Hp)), Hg; done).
  assert (pressure (disown w o p s) p1 = r) as Hpr.
  { unfold pressure. simpl. symmetry. apply maxl_ext. intros w' [Hne Hin]%list_elem_of_filter. assert (owners s !! w' = Some o) as Hw' by (apply (sh_owner _ _ S); by exists p).
    apply A; [by exists o|]. intros [?|Hx]%elem_of_cons; [done | by apply (HX w')]. }
  assert (exists s', (if old >=? 0 then QueuePressureChanged false o old (-1) (disown w o p s) else Some (disown w o p s)) = Some s' /\ shape L s' /\ calm (disown w o p s) s' /\
    pis s' = <[o := set_inherited r p1]> (pis s) /\ forall w', qprio (ker s') w' = qprio (ker s) w') as (s' & E & S' & C & Ep & Hq).
  { destruct (old >=? 0) eqn:Eo; rewrite Z.geb_leb in Eo; [apply Z.leb_le in Eo | apply Z.leb_gt in Eo].
    - destruct (new_pressure_spec L (disown w o p s) p1 old (-1) r S1 (maxl_low _) Hi) as (res & Er & Hres); [rewrite Hpr; pose proof (maxl_low (map g (owned_wait_queues p1))); unfold r; lia | lia | lia|].
      destruct (solo_spec L o p1 (disown w o p s) old (-1)) with (res := res) as (s' & E & S' & Ep & C & Hq); try done; [simpl; apply lookup_insert_eq | destruct res; [|done]; intros n [= <-]; destruct Hres as (-> & _); apply maxl_low|].
      exists s'. split_and!; try done. rewrite Ep. simpl. rewrite insert_insert_eq. do 2 f_equal. destruct res as [n|]; simpl in *; [destruct Hres as (-> & _); by rewrite Hpr | by rewrite Hres, Hpr].
    - eexists. split; [done|]. split_and!; try done. simpl. f_equal. unfold p1, set_inherited, set_owned. simpl. f_equal. pose proof (maxl_low (map g (owned_wait_queues p1))). unfold r in *. lia. }
  exists s'. rewrite E. cbn [mbind option_bind]. rewrite Ep, lookup_insert_eq. split; [done|]. split; [done|].
  assert (forall x, is_dead x s' = is_dead x s) as Hd by (intros x; by rewrite (calm_dead _ _ _ C)). split_and!; try done.
  - intros x q Hx Hax. rewrite Ep in Hx. apply lookup_insert_Some in Hx as [[<- <-]|[Hne Hx]]; [done|]. apply (T x q Hx). unfold alive in *. by rewrite Hd in Hax.
  - intros w' Hw' Hx. rewrite (ca_owners _ _ C) in Hw'. simpl in Hw'. destruct Hw' as [o' [Hne Hw']%lookup_delete_Some]. rewrite Hq. apply A; [by exists o'|]. rewrite not_elem_of_cons. by split.
  - by apply (handed_disown w o p).
Qed.

Lemma shape_prio L s x p : shape L s -> pis s !! x = Some p -> prio (ker s) x = effective p.
Proof. intros S Hp. destruct (proj2 (sh_dom _ _ S x)) as [th Ht]; [by exists p|]. unfold prio. rewrite Ht. by apply (sh_eff _ _ S x). Qed.

(** The owner waits in the queue itself, together with threads as urgent as the queue
    was when it joined. *)
Lemma release_self L g w o s old y :
  shape L s -> told g s -> agrees g [w] s -> owners s !! w = Some o -> g w = old -> -1 <= old -> o ∈ waiters w (ker s) -> (0 <= old -> y ∈ waiters w (ker s) /\ y <> o /\ old <= prio (ker s) y) ->
  exists s', release_owner false w o old s = Some s' /\ shape L s' /\ told g s' /\ agrees g [] s' /\ handed w None s s' /\ (forall w', qprio (ker s') w' = qprio (ker s) w').
Proof.
  intros S T A Ho Hg Hlow Hin Hy. destruct (proj1 (sh_owner _ _ S w o) Ho) as (p & Hp & Hw). destruct (sh_alive _ _ S w o Ho) as [Hal _]. rewrite (release_owner_eq w o old s p Hp).
  pose proof (disown_shape L w o p s S Hp Ho) as S1. set (p1 := set_owned (filter (fun x => x <> w) (owned_wait_queues p)) p). set (r := maxl (map g (owned_wait_queues p1))).
  assert (inherited_priority p = Z.max old r) as Hi by (rewrite (T o p Hp Hal), (maxl_split w _ Hw (sh_nodup _ _ S o p Hp)), Hg; done).
  assert (forall w', is_Some (owners s !! w') -> w' <> w -> g w' = qprio (ker s) w') as A' by (intros w' H1 H2; apply A; [done|]; by intros ?%list_elem_of_singleton).
  assert (pressure (disown w o p s) p1 = r) as Hpr.
  { unfold pressure. simpl. symmetry. apply maxl_ext. intros w' [Hne Hin']%list_elem_of_filter. apply A'; [|done]. exists o. apply (sh_owner _ _ S). by exists p. }
  pose proof (maxl_low (map g (owned_wait_queues p1))) as Hr. fold r in Hr.
  assert (exists s', (if old >=? 0 then QueuePressureChanged false o old (-1) (disown w o p s) else Some (disown w o p s)) = Some s' /\ shape L s' /\ calm (disown w o p s) s' /\
    pis s' = <[o := set_inherited r p1]> (pis s) /\ forall w', qprio (ker s') w' = qprio (ker s) w') as (s' & E & S' & C & Ep & Hq).
  { destruct (old >=? 0) eqn:Eo; rewrite Z.geb_leb in Eo; [apply Z.leb_le in Eo | apply Z.leb_gt in Eo].
    2: { eexists. split; [done|]. split_and!; try done. simpl. f_equal. unfold p1, set_inherited, set_owned. simpl. f_equal. lia. }
    assert (unsettled L (disown w o p s) o old (-1)) as U.
    { split; try done; [| |lia].
      - intros x q Hx Hax Hxo. rewrite (disown_told g w o p s T Hp x q Hx Hax) by congruence. apply maxl_ext. intros w' Hw'. assert (owners s !! w' = Some x) as Hox.
        { apply (sh_owner _ _ S). simpl in Hx. rewrite lookup_insert_ne in Hx by congruence. by exists q. }
        apply A'; [by exists x|]. intros ->. congruence.
      - exists p1, r. split_and!; try done; [simpl; apply lookup_insert_eq | rewrite Hpr; lia]. }
    unfold QueuePressureChanged. cbn [andb]. simpl size. simpl. rewrite lookup_insert_eq. cbn [mbind option_bind]. fold (disown w o p s). fold p1.
    destruct (new_pressure_spec L (disown w o p s) p1 old (-1) r S1 Hr Hi) as (res & Er & Hres); [rewrite Hpr; lia | lia | lia|]. rewrite Er. cbn [mbind option_bind]. destruct res as [n|].
    2: { eexists. split; [done|]. split_and!; try done. simpl. f_equal. rewrite Hpr in Hres. rewrite <- Hres. by destruct p. }
    destruct Hres as (Hn & Hne & Hdrop & _). destruct (pi_loop_step L (disown w o p s) o old (-1) p1 n U) as (s' & th & Ht & Es & C & S' & Ep & Hb); [simpl; apply lookup_insert_eq | done | rewrite Hn; apply maxl_low|].
    simpl in Ht. rewrite Ht. cbn [mbind option_bind]. rewrite Es. cbn [mbind option_bind].
    assert (blocking_wait_queue th = Some w) as Hbw by (destruct (waiters_blocked _ _ _ _ (sh_ker _ _ S) Hin) as (q & th0 & _ & Ht0 & Hb0); congruence). rewrite Hbw in Hb |- *. cbn [mbind option_bind].
    destruct Hb as (Hother & (r' & Hr' & Hq1 & Hq2) & _ & _). rewrite (blocked_priority_qprio L (disown w o p s) w S1), (blocked_priority_qprio L s' w S').
    assert (old <= qprio (ker s') w) as Hge.
    { destruct (Hy Eo) as (Hy1 & Hy2 & Hy3). transitivity (prio (ker s) y); [done|]. destruct (waiters_blocked _ _ _ _ (sh_ker _ _ S) Hy1) as (q & thy & _ & Hty & _). destruct (proj1 (sh_dom _ _ S y)) as [py Hpy]; [by exists thy|].
      rewrite (shape_prio L s y py S Hpy). rewrite <- (shape_prio L s' y py S'); [|rewrite Ep; simpl; by rewrite !lookup_insert_ne]. apply maxl_ge. apply list_elem_of_fmap_2. by rewrite (ca_waiters _ _ C w). }
    destruct (Hdrop ltac:(lia)) as [Hi' _]. rewrite !effective_max in Hq1, Hq2. simpl in Hq1, Hq2, Hi'. assert (qprio (ker (disown w o p s)) w = qprio (ker s') w) as Eqw by (simpl; lia). rewrite Eqw, Z.eqb_refl.
    exists s'. split_and!; try done; [rewrite Ep; simpl; rewrite insert_insert_eq; by rewrite Hn, Hpr|]. intros w'. destruct (decide (w' = w)) as [->|Hnw]; [by rewrite <- Eqw | by apply Hother]. }
  exists s'. rewrite E. cbn [mbind option_bind]. rewrite Ep, lookup_insert_eq. split; [done|]. split; [done|].
  assert (forall x, is_dead x s' = is_dead x s) as Hd by (intros x; by rewrite (calm_dead _ _ _ C)). split_and!; try done.
  - intros x q Hx Hax. rewrite Ep in Hx. apply lookup_insert_Some in Hx as [[<- <-]|[Hne Hx]]; [done|]. apply (T x q Hx). unfold alive in *. by rewrite Hd in Hax.
  - intros w' Hw' Hx. rewrite (ca_owners _ _ C) in Hw'. simpl in Hw'. destruct Hw' as [o' [Hne Hw']%lookup_delete_Some]. rewrite Hq. apply A'; [by exists o' | congruence].
  - by apply (handed_disown w o p).
Qed.

(** ** A queue gets an owner *)

Definition own (w o : Z) (p : pi) (s : State) : State := with_owner w (Some o) (with_pi o (set_owned (owned_wait_queues p ++ [w]) p) s).

Lemma own_shape L w o p s : shape L s -> pis s !! o = Some p -> owners s !! w = None -> alive o s -> is_Some (queues (ker s) !! w) -> shape L (own w o p s).
Proof.
  intros [S1 S2 S3 S4 S5 S6 S7] Hp Ho Hal Hq. assert (forall t q, pis s !! t = Some q -> w ∉ owned_wait_queues q) as Hno.
  { intros t q Hq' Hw. assert (owners s !! w = Some t) by (apply S3; by exists q). congruence. }
  split; simpl; try done.
  - intros x. rewrite S2. destruct (decide (x = o)) as [->|Hne]; [rewrite lookup_insert_eq, Hp; split; by eexists | by rewrite lookup_insert_ne].
  - intros w' x. destruct (decide (w' = w)) as [->|Hw'].
    + rewrite lookup_insert_eq. split.
      * intros [= <-]. rewrite lookup_insert_eq. eexists. split; [done|]. simpl. apply elem_of_app. right. apply list_elem_of_here.
      * intros (q & [[-> <-]|[Hne Hx]]%lookup_insert_Some & Hin); [done|]. by destruct (Hno x q Hx).
    + rewrite lookup_insert_ne by done. rewrite S3. destruct (decide (x = o)) as [->|Hne]; [|by rewrite lookup_insert_ne]. rewrite lookup_insert_eq.
      split; intros (q & Hq' & Hin); simplify_eq; eexists; (split; [done|]); simpl in *; [apply elem_of_app; by left|]. apply elem_of_app in Hin as [?|?%list_elem_of_singleton]; done.
  - intros x q [[<- <-]|[_ Hx]]%lookup_insert_Some; [|by apply (S4 x)]. simpl. apply NoDup_app. split_and!; [by apply (S4 o) | | apply NoDup_singleton].
    intros y Hy ->%list_elem_of_singleton. by apply (Hno o p).
  - intros w' x [[<- <-]|[_ Hx]]%lookup_insert_Some; [done | by apply S5].
  - intros x q [[<- <-]|[_ Hx]]%lookup_insert_Some; [simpl; by apply (S6 o) | by apply (S6 x)].
  - intros x q th [[<- <-]|[_ Hx]]%lookup_insert_Some Ht; [by apply (S7 o p th) | by apply (S7 x)].
Qed.

Lemma handed_own w o p s s' : pis s !! o = Some p -> calm (own w o p s) s' -> handed w (Some o) s s'.
Proof.
  intros Hp C. destruct C as [C1 C2 C3 C4 C5 C6] eqn:EC. split; try done. intros x. rewrite (calm_base _ _ C). simpl. destruct (decide (x = o)) as [->|Hne]; [by rewrite lookup_insert_eq, Hp | by rewrite lookup_insert_ne].
Qed.

Lemma maxl_snoc (f : Z -> Z) l w : maxl (map f (l ++ [w])) = Z.max (f w) (maxl (map f l)).
Proof. rewrite (Permutation_app_comm l [w]). done. Qed.

Lemma take_owner_spec L w o s :
  pinv L s -> owners s !! w = None -> is_Some (queues (ker s) !! w) -> alive o s -> is_Some (pis s !! o) ->
  exists s', take_owner false w o (qprio (ker s) w) s = Some s' /\ pinv L s' /\ handed w (Some o) s s'.
Proof.
  intros [S I] Ho Hq Hal [p Hp]. unfold take_owner. rewrite Hp. cbn [mbind option_bind]. fold (own w o p s). pose proof (own_shape L w o p s S Hp Ho Hal Hq) as S1. pose proof (I o p Hp Hal ltac:(done)) as Hi.
  assert (forall t q, pis s !! t = Some q -> w ∉ owned_wait_queues q) as Hno by (intros t q Hq' Hw; assert (owners s !! w = Some t) by (apply (sh_owner _ _ S); by exists q); congruence).
  assert (inherits (Some o) (own w o p s)) as Hot by (intros x q Hx Hax Hxo; simpl in Hx; rewrite lookup_insert_ne in Hx by congruence; by apply (I x)).
  set (p1 := set_owned (owned_wait_queues p ++ [w]) p). assert (pressure (own w o p s) p1 = Z.max (qprio (ker s) w) (pressure s p)) as Hpr by (unfold pressure; simpl; apply maxl_snoc).
  destruct (qprio (ker s) w >=? 0) eqn:E; rewrite Z.geb_leb in E; [apply Z.leb_le in E | apply Z.leb_gt in E].
  - destruct (pressure_changed_spec L (own w o p s) o (-1) (qprio (ker s) w)) as (s' & E' & I' & C); [|exists s'; split_and!; try done; by apply (handed_own w o p)].
    split; try done; [|lia | lia]. exists p1, (pressure s p). pose proof (maxl_low (map (qprio (ker s)) (owned_wait_queues p))). unfold pressure in *. split_and!; [simpl; apply lookup_insert_eq | done | simpl; lia | done].
  - eexists. split; [done|]. split; [|by apply (handed_own w o p)]. split; [done|]. intros x q Hx Hax _. destruct (decide (x = o)) as [->|Hne]; [|apply (Hot x q Hx Hax); congruence].
    simpl in Hx. rewrite lookup_insert_eq in Hx. injection Hx as <-. fold p1. rewrite Hpr. pose proof (maxl_low (map (qprio (ker s)) (owned_wait_queues p))). unfold pressure in *. simpl. lia.
Qed.

(** While other queues are out of date. *)
Lemma take_owner_idle L g X w o s :
  shape L s -> told g s -> agrees g X s -> w ∉ X -> owners s !! w = None -> is_Some (queues (ker s) !! w) -> alive o s -> is_Some (pis s !! o) -> idle o s ->
  exists s' g', take_owner false w o (qprio (ker s) w) s = Some s' /\ shape L s' /\ told g' s' /\ agrees g' X s' /\ (forall x, x <> w -> g' x = g x) /\ handed w (Some o) s s' /\ forall w', qprio (ker s') w' = qprio (ker s) w'.
Proof.
  intros S T A HX Ho Hq Hal [p Hp] Hid. unfold take_owner. rewrite Hp. cbn [mbind option_bind]. fold (own w o p s). pose proof (own_shape L w o p s S Hp Ho Hal Hq) as S1.
  set (g' := fun x => if decide (x = w) then qprio (ker s) w else g x). set (p1 := set_owned (owned_wait_queues p ++ [w]) p). pose proof (T o p Hp Hal) as Hi.
  assert (forall t q, pis s !! t = Some q -> w ∉ owned_wait_queues q) as Hno by (intros t q Hq' Hw; assert (owners s !! w = Some t) by (apply (sh_owner _ _ S); by exists q); congruence).
  assert (forall t q, pis s !! t = Some q -> maxl (map g' (owned_wait_queues q)) = maxl (map g (owned_wait_queues q))) as Hg.
  { intros t q Hq'. apply maxl_ext. intros x Hx. unfold g'. rewrite decide_False; [done|]. intros ->. by apply (Hno t q). }
  set (n := Z.max (qprio (ker s) w) (inherited_priority p)). pose proof (maxl_low (map (prio (ker s)) (waiters w (ker s)))) as Hlow. fold (qprio (ker s) w) in Hlow.
  destruct (sh_low _ _ S o p Hp) as [_ Hli].
  assert (exists s', (if qprio (ker s) w >=? 0 then QueuePressureChanged false o (-1) (qprio (ker s) w) (own w o p s) else Some (own w o p s)) = Some s' /\ shape L s' /\ calm (own w o p s) s' /\
    pis s' = <[o := set_inherited n p1]> (pis s) /\ forall w', qprio (ker s') w' = qprio (ker s) w') as (s' & E & S' & C & Ep & Hqs).
  { destruct (qprio (ker s) w >=? 0) eqn:E; rewrite Z.geb_leb in E; [apply Z.leb_le in E | apply Z.leb_gt in E].
    - destruct (solo_spec L o p1 (own w o p s) (-1) (qprio (ker s) w)) with (res := if qprio (ker s) w <=? inherited_priority p then None else Some (qprio (ker s) w)) as (s' & E' & S' & Ep & C & Hqs); try done;
        [simpl; apply lookup_insert_eq | unfold new_pressure; destruct (Z.ltb_spec (qprio (ker s) w) (-1)); [lia | done] | destruct (_ <=? _); [done | by intros n0 [= <-]]|].
      exists s'. split_and!; try done. rewrite Ep. simpl. rewrite insert_insert_eq. do 2 f_equal. unfold n. destruct (Z.leb_spec (qprio (ker s) w) (inherited_priority p)); simpl; lia.
    - eexists. split; [done|]. split_and!; try done. simpl. f_equal. unfold p1, set_inherited, set_owned. simpl. f_equal. unfold n. lia. }
  exists s', g'. rewrite E. assert (forall x, is_dead x s' = is_dead x s) as Hd by (intros x; by rewrite (calm_dead _ _ _ C)). split_and!; try done.
  - intros x q Hx Hax. unfold alive in Hax. rewrite Hd in Hax. rewrite Ep in Hx. apply lookup_insert_Some in Hx as [[<- <-]|[Hne Hx]]; [|rewrite (Hg x q Hx); by apply (T x)].
    simpl. rewrite maxl_snoc, (Hg o p Hp), <- Hi. unfold g'. by rewrite decide_True.
  - intros w' Hw' Hx. rewrite (ca_owners _ _ C) in Hw'. simpl in Hw'. rewrite Hqs. unfold g'. destruct (decide (w' = w)) as [->|Hne]; [done|]. rewrite lookup_insert_ne in Hw' by done. by apply A.
  - intros x Hx. unfold g'. by rewrite decide_False.
  - by apply (handed_own w o p).
Qed.

(** ** A queue changes hands *)

Definition living (o : option Z) (s : State) : option Z := t ← o; if is_dead t s then None else Some t.

Lemma handed_trans w o s1 s2 s3 : handed w None s1 s2 -> handed w o s2 s3 -> handed w o s1 s3.
Proof.
  intros [A1 A2 A3 A4 A5 A6] [B1 B2 B3 B4 B5 B6]. split; [intros x; by rewrite B1 | intros x; by rewrite B2 | by apply (same_queues_trans _ (ker s2)) | congruence | | intros x; by rewrite B6].
  rewrite B5, A5. destruct o as [t|]; [apply insert_delete_eq | apply delete_delete_eq].
Qed.

Lemma handed_same w o s s' : calm s s' -> owners s !! w = o -> handed w o s s'.
Proof.
  intros C Ho. destruct C as [C1 C2 C3 C4 C5 C6] eqn:EC. split; try done; [|by apply calm_base]. rewrite C5. destruct o as [t|]; [by rewrite insert_id | by rewrite delete_id].
Qed.

Lemma handed_dead w o s s' t : handed w o s s' -> is_dead t s' = is_dead t s.
Proof.
  intros Hh. pose proof (h_threads _ _ _ _ Hh t) as E. unfold is_dead. destruct (threads (ker s') !! t) as [a|], (threads (ker s) !! t) as [b|]; simpl in E; try done. injection E as E _. by rewrite E.
Qed.

Lemma living_alive o s t : living o s = Some t -> o = Some t /\ alive t s.
Proof. unfold living. destruct o as [x|]; [|done]. simpl. destruct (is_dead x s) eqn:E; [done|]. intros [= ->]. done. Qed.

(** [y] is a thread that was in the queue before the owner joined it. *)
Definition may_release (w old y : Z) (s : State) : Prop := forall o, owners s !! w = Some o -> idle o s \/ o ∈ waiters w (ker s) /\ (0 <= old -> y ∈ waiters w (ker s) /\ y <> o /\ old <= prio (ker s) y).

Lemma release_any_owner L g w o s old y :
  shape L s -> told g s -> agrees g [w] s -> owners s !! w = Some o -> g w = old -> -1 <= old -> may_release w old y s ->
  exists s', release_owner false w o old s = Some s' /\ pinv L s' /\ handed w None s s' /\ (forall w', qprio (ker s') w' = qprio (ker s) w').
Proof.
  intros S T A Ho Hg Hlow Hm. destruct (Hm o Ho) as [Hid|[Hin Hy]].
  - destruct (release_idle L g [] w o s old) as (s' & E & S' & T' & A' & Hh & Hq); try done; [by intros x ?%not_elem_of_nil|]. exists s'. split_and!; try done. by apply (told_pinv L g).
  - destruct (release_self L g w o s old y) as (s' & E & S' & T' & A' & Hh & Hq); try done. exists s'. split_and!; try done. by apply (told_pinv L g).
Qed.

Lemma update_spec L g w no s old y :
  shape L s -> told g s -> agrees g [w] s -> is_Some (queues (ker s) !! w) -> g w = old -> -1 <= old -> (living no s <> owners s !! w -> may_release w old y s) -> (forall o, no = Some o -> is_Some (pis s !! o)) ->
  exists s', UpdateBookkeeping false w no old s = Some s' /\ pinv L s' /\ handed w (living no s) s s'.
Proof.
  intros S T A Hq Hg Hlow Hm Hno. unfold UpdateBookkeeping. fold (living no s). unfold owner. rewrite (blocked_priority_qprio L s w S).
  assert (forall w', is_Some (owners s !! w') -> w' <> w -> g w' = qprio (ker s) w') as A' by (intros w' H1 H2; apply A; [done|]; by intros ?%list_elem_of_singleton).
  destruct (decide (living no s = owners s !! w)) as [Es|Hs]; [rewrite bool_decide_eq_true_2 by done | rewrite bool_decide_eq_false_2 by done; specialize (Hm Hs)].
  - destruct (owners s !! w) as [o|] eqn:Ho.
    2: { exists s. split_and!; [done | | rewrite Es; by apply handed_same]. apply (told_pinv L g); [done | done|]. intros w' H1 _. apply A'; [done|]. intros ->. rewrite Ho in H1. by destruct H1. }
    destruct (Z.eqb_spec (qprio (ker s) w) old) as [E|E].
    { exists s. split_and!; [done | | rewrite Es; by apply handed_same]. apply (told_pinv L g); [done | done|]. intros w' H1 _. destruct (decide (w' = w)) as [->|]; [congruence | by apply A']. }
    destruct (pressure_changed_spec L s o old (qprio (ker s) w)) as (s' & E' & I' & C); [by apply (told_unsettled L g)|]. exists s'. split_and!; try done. rewrite Es. by apply handed_same.
  - assert (exists s1, (match owners s !! w with Some o => release_owner false w o old s | None => Some s end) = Some s1 /\ pinv L s1 /\ handed w None s s1 /\ (forall w', qprio (ker s1) w' = qprio (ker s) w')) as (s1 & E1 & I1 & Hh1 & Hq1).
    { destruct (owners s !! w) as [o|] eqn:Ho; [by apply (release_any_owner L g w o s old y)|]. exists s. split_and!; [done | | by apply handed_same | done].
      apply (told_pinv L g); [done | done|]. intros w' H1 _. apply A'; [done|]. intros ->. rewrite Ho in H1. by destruct H1. }
    rewrite E1. cbn [mbind option_bind]. destruct (living no s) as [o|] eqn:El; [|by exists s1]. destruct (living_alive _ _ _ El) as [Eo Hal]. rewrite <- Hq1.
    destruct (take_owner_spec L w o s1 I1) as (s' & E2 & I2 & Hh2).
    + rewrite (h_owners _ _ _ _ Hh1). apply lookup_delete_eq.
    + by apply (h_queues _ _ _ _ Hh1).
    + unfold alive. by rewrite (handed_dead _ _ _ _ _ Hh1).
    + destruct (Hno o Eo) as [p Hp]. pose proof (h_base _ _ _ _ Hh1 o) as Hb. rewrite Hp in Hb. destruct (pis s1 !! o); [by eexists | done].
    + exists s'. split_and!; try done. by apply (handed_trans w _ s s1).
Qed.

(** Another queue [d] is out of date: the old owner does not own it, and nobody
    concerned waits. *)
Lemma update_dirty L g w d no s old :
  shape L s -> told g s -> agrees g [w; d] s -> w <> d -> is_Some (queues (ker s) !! w) -> g w = old -> -1 <= old ->
  (forall o, owners s !! w = Some o -> idle o s /\ owners s !! d <> Some o /\ living no s <> Some o) -> (forall o, no = Some o -> is_Some (pis s !! o) /\ idle o s) ->
  exists s' g', UpdateBookkeeping false w no old s = Some s' /\ shape L s' /\ told g' s' /\ agrees g' [d] s' /\ g' d = g d /\ handed w (living no s) s s' /\ (forall w', qprio (ker s') w' = qprio (ker s) w').
Proof.
  intros S T A Hwd Hq Hg Hlow Hid Hno. unfold UpdateBookkeeping. fold (living no s). unfold owner. rewrite (blocked_priority_qprio L s w S).
  assert (exists s1, (match owners s !! w with Some o => release_owner false w o old s | None => Some s end) = Some s1 /\ shape L s1 /\ told g s1 /\ agrees g [d] s1 /\ handed w None s s1 /\ (forall w', qprio (ker s1) w' = qprio (ker s) w'))
    as (s1 & E1 & S1 & T1 & A1 & Hh1 & Hq1).
  { destruct (owners s !! w) as [o|] eqn:Ho.
    - destruct (Hid o eq_refl) as (H1 & H2 & _). apply (release_idle L g [d] w o s old); try done. by intros x ->%list_elem_of_singleton.
    - exists s. split_and!; try done; [|by apply handed_same]. intros w' H1 H2. apply A; [done|]. rewrite not_elem_of_cons. split; [|done]. intros ->. rewrite Ho in H1. by destruct H1. }
  destruct (decide (living no s = owners s !! w)) as [Es|Hs]; [rewrite bool_decide_eq_true_2 by done | rewrite bool_decide_eq_false_2 by done].
  - destruct (owners s !! w) as [o|] eqn:Ho; [destruct (Hid o eq_refl) as (_ & _ & H3); congruence|]. injection E1 as <-. exists s, g. split_and!; try done. rewrite Es. by apply handed_same.
  - rewrite E1. cbn [mbind option_bind]. destruct (living no s) as [o|] eqn:El; [|by exists s1, g]. destruct (living_alive _ _ _ El) as [Eo Hal]. destruct (Hno o Eo) as [[p Hp] (th & Hth & Hb)]. rewrite <- Hq1.
    destruct (take_owner_idle L g [d] w o s1 S1 T1 A1) as (s' & g' & E2 & S2 & T2 & A2 & Hg2 & Hh2 & Hq2).
    + by intros ?%list_elem_of_singleton.
    + rewrite (h_owners _ _ _ _ Hh1). apply lookup_delete_eq.
    + by apply (h_queues _ _ _ _ Hh1).
    + unfold alive. by rewrite (handed_dead _ _ _ _ _ Hh1).
    + pose proof (h_base _ _ _ _ Hh1 o) as Hb1. rewrite Hp in Hb1. destruct (pis s1 !! o); [by eexists | done].
    + pose proof (h_threads _ _ _ _ Hh1 o) as Hs1. rewrite Hth in Hs1. destruct (threads (ker s1) !! o) as [th1|] eqn:E; [|done]. injection Hs1 as _ _ _ _ Hb1. exists th1. split; [done | congruence].
    + exists s', g'. split_and!; try done; [by apply Hg2 | by apply (handed_trans w _ s s1)|]. intros w'. by rewrite Hq2.
Qed.

(** ** Whoever waits

    Without a condition on who waits, the operations end and keep the shape. *)

Lemma release_owner_ends L w o s old :
  shape L s -> owners s !! w = Some o -> exists s', release_owner false w o old s = Some s' /\ shape L s' /\ handed w None s s'.
Proof.
  intros S Ho. destruct (proj1 (sh_owner _ _ S w o) Ho) as (p & Hp & Hw). rewrite (release_owner_eq w o old s p Hp). pose proof (disown_shape L w o p s S Hp Ho) as S1.
  assert (exists s', (if old >=? 0 then QueuePressureChanged false o old (-1) (disown w o p s) else Some (disown w o p s)) = Some s' /\ shape L s' /\ calm (disown w o p s) s') as (s' & E & S' & C).
  { destruct (old >=? 0); [|by eexists]. apply pressure_changed_ends; [done | simpl; rewrite lookup_insert_eq; by eexists | done]. }
  exists s'. rewrite E. cbn [mbind option_bind]. pose proof (handed_disown w o p s s' Hp C) as Hh. pose proof (h_base _ _ _ _ Hh o) as Hb. rewrite Hp in Hb. destruct (pis s' !! o); [by split_and! | done].
Qed.

Lemma take_owner_ends L w o s new :
  shape L s -> owners s !! w = None -> is_Some (queues (ker s) !! w) -> alive o s -> is_Some (pis s !! o) -> exists s', take_owner false w o new s = Some s' /\ shape L s' /\ handed w (Some o) s s'.
Proof.
  intros S Ho Hq Hal [p Hp]. unfold take_owner. rewrite Hp. cbn [mbind option_bind]. fold (own w o p s). pose proof (own_shape L w o p s S Hp Ho Hal Hq) as S1. destruct (new >=? 0) eqn:E; rewrite Z.geb_leb in E; [apply Z.leb_le in E | apply Z.leb_gt in E].
  - destruct (pressure_changed_ends L (own w o p s) o (-1) new) as (s' & E' & S' & C); [done | simpl; rewrite lookup_insert_eq; by eexists | lia|]. exists s'. split_and!; try done. by apply (handed_own w o p).
  - eexists. split_and!; [done | done | by apply (handed_own w o p)].
Qed.

Lemma update_ends L w no s old :
  shape L s -> is_Some (queues (ker s) !! w) -> (forall o, no = Some o -> is_Some (pis s !! o)) -> exists s', UpdateBookkeeping false w no old s = Some s' /\ shape L s' /\ handed w (living no s) s s'.
Proof.
  intros S Hq Hno. unfold UpdateBookkeeping. fold (living no s). unfold owner. destruct (decide (living no s = owners s !! w)) as [Es|Hs]; [rewrite bool_decide_eq_true_2 by done | rewrite bool_decide_eq_false_2 by done].
  - destruct (owners s !! w) as [o|] eqn:Ho; [|exists s; split_and!; try done; rewrite Es; by apply handed_same]. destruct (_ =? old); [exists s; split_and!; try done; rewrite Es; by apply handed_same|].
    destruct (proj1 (sh_owner _ _ S w o) Ho) as (p & Hp & _). destruct (pressure_changed_ends L s o old (blocked_priority w s)) as (s' & E' & S' & C); [done | by exists p | rewrite (blocked_priority_qprio L s w S); apply maxl_low|].
    exists s'. split_and!; try done. rewrite Es. by apply handed_same.
  - assert (exists s1, (match owners s !! w with Some o => release_owner false w o old s | None => Some s end) = Some s1 /\ shape L s1 /\ handed w None s s1) as (s1 & E1 & S1 & Hh1).
    { destruct (owners s !! w) as [o|] eqn:Ho; [by apply release_owner_ends|]. exists s. split_and!; try done. by apply handed_same. }
    rewrite E1. cbn [mbind option_bind]. destruct (living no s) as [o|] eqn:El; [|by exists s1]. destruct (living_alive _ _ _ El) as [Eo Hal].
    destruct (take_owner_ends L w o s1 (blocked_priority w s) S1) as (s' & E2 & S2 & Hh2).
    + rewrite (h_owners _ _ _ _ Hh1). apply lookup_delete_eq.
    + by apply (h_queues _ _ _ _ Hh1).
    + unfold alive. by rewrite (handed_dead _ _ _ _ _ Hh1).
    + destruct (Hno o Eo) as [p Hp]. pose proof (h_base _ _ _ _ Hh1 o) as Hb. rewrite Hp in Hb. destruct (pis s1 !! o); [by eexists | done].
    + exists s'. split_and!; try done. by apply (handed_trans w _ s s1).
Qed.

(** ** Both together

    [b]: the priorities are exact as well. *)
Definition good (b : bool) (L : list Z) (s : State) : Prop := shape L s /\ (b = true -> inherits None s).

Lemma good_true L s : good true L s <-> pinv L s.
Proof. split; intros [S H]; split; try done. by apply H. Qed.

Lemma good_told b L s : good b L s -> b = true -> told (qprio (ker s)) s /\ agrees (qprio (ker s)) [] s.
Proof. intros [S H] Hb. apply (pinv_told L). split; [done | by apply H]. Qed.

Lemma told_good b L g s : shape L s -> (b = true -> told g s /\ agrees g [] s) -> good b L s.
Proof. intros S H. split; [done|]. intros Hb. destruct (H Hb) as [T A]. by apply (told_pinv L g). Qed.

Lemma agrees_sub g X Y s : agrees g X s -> (forall w, w ∈ X -> w ∈ Y) -> agrees g Y s.
Proof. intros A Hs w Hw Hn. apply A; [done|]. intros Hx. by apply Hn, Hs. Qed.

Lemma update_good b L g w no s old y :
  shape L s -> is_Some (queues (ker s) !! w) -> (forall o, no = Some o -> is_Some (pis s !! o)) ->
  (b = true -> (told g s /\ agrees g [w] s) /\ g w = old /\ -1 <= old /\ (living no s <> owners s !! w -> may_release w old y s)) ->
  exists s', UpdateBookkeeping false w no old s = Some s' /\ good b L s' /\ handed w (living no s) s s'.
Proof.
  intros S Hq Hno H. destruct b.
  - destruct (H eq_refl) as ((T & A) & Hg & Hlow & Hm). destruct (update_spec L g w no s old y) as (s' & E & I & Hh); try done. exists s'. by rewrite good_true.
  - destruct (update_ends L w no s old S Hq Hno) as (s' & E & S' & Hh). exists s'. by split_and!.
Qed.

Lemma assign_good b L w no s y :
  good b L s -> is_Some (queues (ker s) !! w) -> (forall o, no = Some o -> is_Some (pis s !! o)) -> (b = true -> living no s <> owners s !! w -> may_release w (qprio (ker s) w) y s) ->
  exists s', AssignOwner false w no s = Some s' /\ good b L s' /\ handed w (if bool_decide (no = owners s !! w) then owners s !! w else living no s) s s'.
Proof.
  intros G Hq Hno Hm. unfold AssignOwner, owner. destruct (bool_decide (no = owners s !! w)); [exists s; split_and!; try done; by apply handed_same|].
  rewrite (blocked_priority_qprio L s w (proj1 G)). apply (update_good b L (qprio (ker s)) w no s _ y (proj1 G) Hq Hno). intros Hb. destruct (good_told b L s G Hb) as [T A]. split_and!; [done | | done | apply maxl_low | by apply Hm].
  apply (agrees_sub _ [] _ _ A). by intros w' ?%not_elem_of_nil.
Qed.

Lemma update_dirty_good b L g w d no s old :
  shape L s -> w <> d -> is_Some (queues (ker s) !! w) -> (forall o, no = Some o -> is_Some (pis s !! o)) ->
  (b = true -> (told g s /\ agrees g [w; d] s) /\ g w = old /\ -1 <= old /\ (forall o, owners s !! w = Some o -> idle o s /\ owners s !! d <> Some o /\ living no s <> Some o) /\ (forall o, no = Some o -> idle o s)) ->
  exists s', UpdateBookkeeping false w no old s = Some s' /\ shape L s' /\ handed w (living no s) s s' /\ (b = true -> exists g', told g' s' /\ agrees g' [d] s' /\ g' d = g d).
Proof.
  intros S Hwd Hq Hno H. destruct b.
  - destruct (H eq_refl) as ((T & A) & Hg & Hlow & Hid & Hni). destruct (update_dirty L g w d no s old) as (s' & g' & E & S' & T' & A' & Hd & Hh & _); try done; [by split; [apply Hno | apply Hni]|]. exists s'. split_and!; try done. intros _. by exists g'.
  - destruct (update_ends L w no s old S Hq Hno) as (s' & E & S' & Hh). exists s'. by split_and!.
Qed.
