(* ===== verification/OwnedWaitQueueOps.v ===== *)
(** * Correctness of owned wait queues: waiting and waking

    What each operation does to the queues, the threads and the owners, and that all
    threads inherit what they should afterwards. *)

From S2P Require Import Prelude Zx WaitQueue WaitQueueFacts OwnedWaitQueue OwnedWaitQueueFacts OwnedWaitQueueSteps.
Import WaitQueue OwnedWaitQueue.

(** ** The kernel *)

Definition woken (e : zx_status_t) (th : thread_t) : thread_t := mkThread THREAD_READY (effec_priority th) (signals th) (interruptable th) e None.

Lemma blocked_not_dead L k t th w : k_inv L k -> threads k !! t = Some th -> blocking_wait_queue th = Some w -> is_blocked (state th) = true.
Proof. intros I Ht Hb. pose proof (ki_blocked _ _ I t th Ht) as H. rewrite Hb in H. apply H. Qed.

Lemma dequeue_kernel L w t e k th :
  k_inv L k -> threads k !! t = Some th -> blocking_wait_queue th = Some w ->
  exists k1, wait_queue_dequeue_thread_internal w t e k = Some k1 /\ k_inv (t :: L) k1 /\ waiters w k1 = filter (fun x => x <> t) (waiters w k) /\ (forall w', w' <> w -> waiters w' k1 = waiters w' k) /\
    ready k1 = ready k /\ same_queues k k1 /\ threads k1 = <[t := mkThread (state th) (effec_priority th) (signals th) (interruptable th) e None]> (threads k).
Proof.
  intros I Ht Hb. pose proof (ki_blocked _ _ I t th Ht) as H. rewrite Hb in H. destruct H as (_ & [q Hq] & _).
  destruct (dequeue_inv L w t e k q th I Hq Ht Hb) as (k1 & E & I1 & Hw & Hwo & Hr & _ & Et). exists k1. split_and!; try done. by apply (dequeue_frame w t e).
Qed.

Lemma wake_kernel w t e k :
  k_inv [] k -> t ∈ waiters w k ->
  exists k1 k2 th, wait_queue_dequeue_thread_internal w t e k = Some k1 /\ sched_unblock t k1 = Some k2 /\ k_inv [] k2 /\ threads k !! t = Some th /\ blocking_wait_queue th = Some w /\
    threads k2 = <[t := woken e th]> (threads k) /\ waiters w k2 = filter (fun x => x <> t) (waiters w k) /\ (forall w', w' <> w -> waiters w' k2 = waiters w' k) /\ same_queues k k2 /\ ready k2 = ready k ++ [t].
Proof.
  intros I Hin. destruct (waiters_blocked _ _ _ _ I Hin) as (q & th & Hq & Ht & Hb). destruct (dequeue_kernel [] w t e k th I Ht Hb) as (k1 & E1 & I1 & Hw & Hwo & Hr & Hsq & Et).
  destruct (unblock_inv [] t k1 (mkThread (state th) (effec_priority th) (signals th) (interruptable th) e None) I1) as (k2 & E2 & I2 & Eq & Hr2 & _); [rewrite Et; apply lookup_insert_eq | done|].
  exists k1, k2, th. split_and!; try done.
  - unfold sched_unblock in E2. rewrite Et, lookup_insert_eq in E2. cbn [mbind option_bind] in E2. injection E2 as <-. simpl. rewrite insert_insert_eq. done.
  - unfold waiters in *. by rewrite Eq.
  - intros w' Hne. rewrite <- Hwo by done. unfold waiters. by rewrite Eq.
  - intros w'. by rewrite Eq.
  - by rewrite Hr2, Hr.
Qed.

Lemma fixed_insert k k' t th th' : threads k !! t = Some th -> threads k' = <[t := th']> (threads k) -> effec_priority th' = effec_priority th -> dead_state (state th') = dead_state (state th) -> same_queues k k' -> fixed k k'.
Proof.
  intros Ht E He Hd Hq. split; [|intros w; apply Hq]. intros x. rewrite E. destruct (decide (x = t)) as [->|Hne]; [rewrite lookup_insert_eq, Ht; simpl; by rewrite He, Hd | by rewrite lookup_insert_ne].
Qed.

Lemma blocked_dead_state st : is_blocked st = true -> dead_state st = false.
Proof. by destruct st. Qed.

(** ** A thread is woken by a timeout, a signal or its end *)

Definition sees (s : State) (x : Z) := strip <$> threads (ker s) !! x.

Record unblocked (w t : Z) (e : zx_status_t) (s s' : State) : Prop := {
  ub_in : t ∈ waiters w (ker s);
  ub_queue : waiters w (ker s') ≡ₚ filter (fun x => x <> t) (waiters w (ker s));
  ub_queues : forall w', w' <> w -> waiters w' (ker s') ≡ₚ waiters w' (ker s);
  ub_others : forall x, x <> t -> sees s' x = sees s x;
  ub_thread : exists th, threads (ker s) !! t = Some th /\ sees s' t = Some (strip (woken e th));
  ub_same : same_queues (ker s) (ker s');
  ub_owners : owners s' = owners s;
  ub_base : forall x, base_priority <$> pis s' !! x = base_priority <$> pis s !! x;
}.

(** The pressure of the queue [w] may have changed, and its owner stays. *)
Lemma waiters_changed_good b L g w s old :
  shape L s -> (b = true -> (told g s /\ agrees g [w] s) /\ g w = old /\ -1 <= old) -> exists s', WaitersPriorityChanged false w old s = Some s' /\ good b L s' /\ calm s s'.
Proof.
  intros S H. unfold WaitersPriorityChanged, owner. destruct (owners s !! w) as [o|] eqn:Ho.
  - rewrite (blocked_priority_qprio L s w S). destruct (Z.eqb_spec old (qprio (ker s) w)) as [E|Hne].
    + exists s. split_and!; try done. apply (told_good b L g); [done|]. intros Hb. destruct (H Hb) as ((T & A) & Hg & _). split; [done|]. intros w' H1 _. destruct (decide (w' = w)) as [->|Hw']; [congruence | apply A; [done | by intros ?%list_elem_of_singleton]].
    + destruct b.
      * destruct (H eq_refl) as ((T & A) & Hg & Hlow). destruct (pressure_changed_spec L s o old (qprio (ker s) w)) as (s' & E & I & C); [by apply (told_unsettled L g)|]. exists s'. by rewrite good_true.
      * destruct (proj1 (sh_owner _ _ S w o) Ho) as (p & Hp & _). destruct (pressure_changed_ends L s o old (qprio (ker s) w) S) as (s' & E & I & C); [by exists p | apply maxl_low|]. exists s'. by split_and!.
  - exists s. split_and!; try done. apply (told_good b L g); [done|]. intros Hb. destruct (H Hb) as ((T & A) & Hg & _). split; [done|]. intros w' H1 _. apply A; [done|]. intros ->%list_elem_of_singleton. rewrite Ho in H1. by destruct H1.
Qed.

(** The queues other than [w] are as before. *)
Lemma good_dirty b L s k' w :
  good b L s -> fixed (ker s) k' -> (forall w', w' <> w -> waiters w' k' ≡ₚ waiters w' (ker s)) ->
  b = true -> (told (qprio (ker s)) (with_ker k' s) /\ agrees (qprio (ker s)) [w] (with_ker k' s)) /\ qprio (ker s) w = qprio (ker s) w /\ -1 <= qprio (ker s) w.
Proof.
  intros G F Hw Hb. destruct (good_told b L s G Hb) as [T A]. split_and!; [by apply told_fixed | | done | apply maxl_low]. apply agrees_fixed; [|done|]; [intros w' H1 _; by apply A, not_elem_of_nil|].
  intros w' Hw'. apply Hw. intros ->. apply Hw', list_elem_of_here.
Qed.

Lemma good_fixed b L L' s k' : good b L s -> fixed (ker s) k' -> k_inv L' k' -> (forall w, waiters w k' ≡ₚ waiters w (ker s)) -> good b L' (with_ker k' s).
Proof.
  intros G F Ik Hw. apply (told_good b L' (qprio (ker s))); [by apply (shape_fixed L); [apply G|..]|]. intros Hb. destruct (good_told b L s G Hb) as [T A]. by split; [apply told_fixed | apply agrees_fixed].
Qed.

(** The thread that has left its queue is made ready. *)
Lemma good_ready b L s t th :
  good b (t :: L) s -> threads (ker s) !! t = Some th -> blocking_wait_queue th = None -> dead_state (state th) = false ->
  exists k', sched_unblock t (ker s) = Some k' /\ good b L (with_ker k' s) /\ queues k' = queues (ker s) /\ threads k' = <[t := set_state THREAD_READY (effec_priority th) th]> (threads (ker s)).
Proof.
  intros I Ht Hb Hd. destruct (unblock_inv L t (ker s) th (sh_ker _ _ (proj1 I)) Ht Hb) as (k' & E & I' & Eq & _). exists k'. split; [done|].
  assert (threads k' = <[t := set_state THREAD_READY (effec_priority th) th]> (threads (ker s))) as Et by (unfold sched_unblock in E; rewrite Ht in E; cbn [mbind option_bind] in E; by injection E as <-).
  split_and!; [|done | done]. apply (good_fixed b (t :: L)); try done; [|intros w; unfold waiters; by rewrite Eq]. apply (fixed_insert _ _ t th (set_state THREAD_READY (effec_priority th) th)); try done. intros w. by rewrite Eq.
Qed.

Lemma unblock_thread_owned b t e s th :
  good b [] s -> threads (ker s) !! t = Some th ->
  exists st s', unblock_thread false t e s = Some (st, s') /\ good b [] s' /\
    match blocking_wait_queue th with None => st = ZX_ERR_BAD_STATE /\ s' = s | Some w => st = ZX_OK /\ unblocked w t e s s' end.
Proof.
  intros I Ht. pose proof (sh_ker _ _ (proj1 I)) as Ik. unfold unblock_thread. rewrite Ht. cbn [mbind option_bind]. pose proof (ki_blocked _ _ Ik t th Ht) as Hkb.
  destruct (blocking_wait_queue th) as [w|] eqn:Hb; [|rewrite Hkb by apply not_elem_of_nil; by eexists _, _]. destruct Hkb as (Hst & [q Hq] & _). rewrite Hst. cbn [negb mbind option_bind].
  rewrite (blocked_priority_qprio [] s w (proj1 I)). destruct (dequeue_kernel [] w t e (ker s) th Ik Ht Hb) as (k1 & E1 & I1 & Hw1 & Hwo1 & _ & Hsq & Et1). rewrite E1. cbn [mbind option_bind].
  set (th1 := mkThread _ _ _ _ _ _) in Et1. assert (fixed (ker s) k1) as F1 by (by apply (fixed_insert _ _ t th th1)).
  assert (t ∈ waiters w (ker s)) as Hin by (unfold waiters; rewrite Hq; apply (ki_member _ _ Ik w q t Hq); by exists th).
  destruct (waiters_changed_good b [t] (qprio (ker s)) w (with_ker k1 s) (qprio (ker s) w)) as (s2 & E2 & I2 & C2); [by apply (shape_fixed []); [apply I|..] | apply (good_dirty b []); try done; intros w' Hne; by rewrite Hwo1|].
  rewrite E2. cbn [mbind option_bind]. pose proof (ca_threads _ _ C2 t) as Es2. simpl in Es2. rewrite Et1, lookup_insert_eq in Es2. destruct (threads (ker s2) !! t) as [th2|] eqn:Ht2; [|done]. injection Es2 as S1 S2 S3 S4 S5.
  destruct (good_ready b [] s2 t th2 I2 Ht2 S5) as (k3 & E3 & I3 & Eq3 & Et3); [rewrite S1; by apply blocked_dead_state|]. rewrite E3. cbn [mbind option_bind]. eexists _, _. split; [done|]. split; [done|]. split; [done|].
  assert (forall w', waiters w' (ker (with_ker k3 s2)) ≡ₚ waiters w' k1) as Hw3 by (intros w'; simpl; rewrite <- (ca_waiters _ _ C2 w'); unfold waiters; by rewrite Eq3).
  split; try done.
  - by rewrite Hw3, Hw1.
  - intros w' Hne. by rewrite Hw3, Hwo1.
  - intros x Hx. unfold sees. simpl. rewrite Et3, lookup_insert_ne by done. rewrite (ca_threads _ _ C2). simpl. by rewrite Et1, lookup_insert_ne.
  - exists th. split; [done|]. unfold sees. simpl. rewrite Et3, lookup_insert_eq. simpl. f_equal. unfold strip, set_state, woken. simpl. congruence.
  - apply (same_queues_trans _ k1); [done|]. apply (same_queues_trans _ (ker s2)); [apply (ca_queues _ _ C2)|]. intros w'. simpl. by rewrite Eq3.
  - apply (ca_owners _ _ C2).
  - apply (calm_base _ _ C2).
Qed.

(** ** The priority of a thread is set *)

Lemma change_priority_owned b t n s th :
  good b [] s -> threads (ker s) !! t = Some th -> 0 <= n ->
  exists s', sched_change_priority false t n s = Some s' /\ good b [] s' /\ (forall x, sees s' x = sees s x) /\ (forall w, waiters w (ker s') ≡ₚ waiters w (ker s)) /\ same_queues (ker s) (ker s') /\ owners s' = owners s.
Proof.
  intros I Ht Hn. pose proof (proj1 I) as S. pose proof (sh_ker _ _ S) as Ik. destruct (proj1 (sh_dom _ _ S t)) as [p Hp]; [by exists th|]. unfold sched_change_priority. rewrite Ht. cbn [mbind option_bind]. rewrite Hp. cbn [mbind option_bind].
  destruct (is_dead t s) eqn:Hdead; [by exists s|]. destruct (change_pi_spec [] t p (set_base n p) s S Hp) as (s1 & E1 & S1 & Ep & Eo & Et & Ew & Eq & Er & Hq); [done | done | apply (proj2 (sh_low _ _ S t p Hp))|].
  assert (forall x, is_dead x s1 = is_dead x s) as Hd.
  { intros x. specialize (Et x). unfold is_dead. destruct (threads (ker s1) !! x) as [a|], (threads (ker s) !! x) as [a0|]; simpl in Et; try done. injection Et as Et _. by rewrite Et. }
  assert (forall w, t ∈ waiters w (ker s) -> blocking_wait_queue th = Some w) as Hwt by (intros w Hin; destruct (waiters_blocked _ _ _ _ Ik Hin) as (q & th0 & _ & Ht0 & Hb0); congruence).
  assert (b = true -> told (qprio (ker s)) s1) as T1.
  { intros Hb x q. rewrite Ep. unfold alive. rewrite Hd. destruct I as [_ I]. specialize (I Hb). intros [[<- <-]|[_ Hx]]%lookup_insert_Some Hax; [simpl; by apply (I t) | by apply (I x)]. }
  destruct (blocking_wait_queue th) as [w|] eqn:Hbw.
  - rewrite (blocked_priority_qprio [] s w S), E1. cbn [mbind option_bind].
    destruct (waiters_changed_good b [] (qprio (ker s)) w s1 (qprio (ker s) w)) as (s2 & E2 & I2 & C2); [done | |].
    { intros Hb. split_and!; [by apply T1 | | done | apply maxl_low]. intros w' _ Hw'. symmetry. apply Hq. intros [= ->]%Hwt. apply Hw', list_elem_of_here. }
    exists s2. split_and!; [done | done | intros x; unfold sees; by rewrite (ca_threads _ _ C2) | intros w'; by rewrite (ca_waiters _ _ C2) | by apply (same_queues_trans _ (ker s1)); [|apply (ca_queues _ _ C2)] | by rewrite (ca_owners _ _ C2)].
  - exists s1. split_and!; try done. apply (told_good b [] (qprio (ker s))); [done|]. intros Hb. split; [by apply T1|]. intros w' _ _. symmetry. apply Hq. by intros ?%Hwt.
Qed.

(** ** A thread ends *)

(** The threads that wait keep their queue and their priority. *)
Lemma k_inv_thread t th' k :
  k_inv [] k -> match threads k !! t with Some th => effec_priority th' = effec_priority th /\ blocking_wait_queue th' = blocking_wait_queue th /\ is_blocked (state th') = is_blocked (state th)
                | None => blocking_wait_queue th' = None /\ is_blocked (state th') = false end -> k_inv [] (with_thread t th' k).
Proof.
  intros I Ht. assert (forall w q x, queues k !! w = Some q -> x ∈ concat (heads q) -> prio (with_thread t th' k) x = prio k x) as Hp.
  { intros w q x Hq Hx. unfold prio. simpl. destruct (decide (t = x)) as [->|Hne]; [|by rewrite lookup_insert_ne]. rewrite lookup_insert_eq. apply (ki_member _ _ I w q x Hq) in Hx as (th & Hth & _). rewrite Hth in *. by destruct Ht as [-> _]. }
  split; simpl.
  - intros w q Hq. destruct (ki_queue _ _ I w q Hq) as (? & ? & ?). split_and!; try done. eapply gs_ok_ext; [|done]. intros x Hx. by apply (Hp w q).
  - intros w q x Hq. rewrite (ki_member _ _ I w q x Hq). destruct (decide (t = x)) as [<-|Hne]; [|by rewrite lookup_insert_ne]. rewrite lookup_insert_eq. destruct (threads k !! t) as [th|].
    + destruct Ht as (_ & Hb & _). split; intros (th0 & [= <-] & Hb0); eexists; (split; [done | congruence]).
    + destruct Ht as (Hb & _). split; intros (th0 & E & Hb0); [done | injection E as <-; congruence].
  - intros x th0 [[<- <-]|[Hne Hx]]%lookup_insert_Some; [|apply (ki_blocked _ _ I x th0 Hx)]. destruct (threads k !! t) as [th|] eqn:Hth.
    + destruct Ht as (_ & -> & ->). apply (ki_blocked _ _ I t th Hth).
    + by destruct Ht as [-> ->].
Qed.

Lemma k_inv_state st t th k : k_inv [] k -> threads k !! t = Some th -> blocking_wait_queue th = None -> is_blocked st = false -> k_inv [] (with_thread t (set_state st (effec_priority th) th) k).
Proof. intros I Ht Hb Hst. apply k_inv_thread; [done|]. rewrite Ht. split_and!; [done | done|]. pose proof (ki_blocked _ _ I t th Ht) as H. rewrite Hb in H. by rewrite H by apply not_elem_of_nil. Qed.

Lemma exit_owned b t s th :
  good b [] s -> threads (ker s) !! t = Some th -> blocking_wait_queue th = None ->
  exists s', exit_thread false t s = Some s' /\ good b [] s' /\ is_dead t s' = true /\ (forall x, x <> t -> sees s' x = sees s x) /\ queues (ker s') = queues (ker s) /\
    (forall w x, owners s' !! w = Some x <-> owners s !! w = Some x /\ x <> t).
Proof.
  intros [S I] Ht Hb. pose proof S as [S1 S2 S3 S4 S5 S6 S7]. destruct (proj1 (S2 t)) as [p Hp]; [by exists th|]. unfold exit_thread, DisownAllQueues. rewrite Ht. cbn [mbind option_bind]. simpl. rewrite lookup_insert_eq. cbn [mbind option_bind].
  rewrite Hp. cbn [mbind option_bind]. eexists. split; [done|]. set (s' := with_pi _ _ _).
  assert (forall w x, owners s' !! w = Some x <-> owners s !! w = Some x /\ x <> t) as Ho.
  { intros w x. simpl. rewrite map_lookup_filter_Some. simpl. split; (intros [H1 H2]; split; [done|]).
    - intros ->. apply H2. apply S3 in H1 as (p0 & Hp0 & Hin). congruence.
    - intros Hin. apply H2. assert (owners s !! w = Some t) by (apply S3; by exists p). congruence. }
  assert (forall x, x <> t -> is_dead x s' = is_dead x s) as Hd by (intros x Hx; unfold is_dead; simpl; by rewrite lookup_insert_ne).
  assert (is_dead t s' = true) as Hdt by (unfold is_dead; simpl; by rewrite lookup_insert_eq).
  assert (forall w, qprio (ker s') w = qprio (ker s) w) as Hq by (intros w; unfold qprio; apply maxl_ext; intros x _; by apply (prio_with_thread t _ th)).
  split_and!; try done; [|intros x Hx; unfold sees; simpl; by rewrite lookup_insert_ne]. split.
  - split.
    + by apply k_inv_state.
    + intros x. simpl. destruct (decide (x = t)) as [->|Hne]; [rewrite !lookup_insert_eq; split; by eexists | by rewrite !lookup_insert_ne].
    + intros w x. rewrite Ho, S3. simpl. destruct (decide (x = t)) as [->|Hne]; [rewrite lookup_insert_eq; split; [by intros [_ ?] | by intros (p0 & [= <-] & ?%not_elem_of_nil)] | rewrite lookup_insert_ne by done; by split; [intros [? _]|]].
    + intros x p0. simpl. intros [[<- <-]|[_ Hx]]%lookup_insert_Some; [apply NoDup_nil_2 | by apply (S4 x)].
    + intros w x [H1 H2]%Ho. destruct (S5 w x H1) as [H3 H4]. split; [|done]. unfold alive. by rewrite Hd.
    + intros x p0. simpl. intros [[<- <-]|[_ Hx]]%lookup_insert_Some; [by apply (S6 t p) | by apply (S6 x)].
    + intros x p0 th0. simpl. intros [[<- <-]|[Hne Hx]]%lookup_insert_Some; [rewrite lookup_insert_eq; intros [= <-]; simpl; by apply (S7 t p) | rewrite lookup_insert_ne by done; by apply (S7 x)].
  - intros Eb x p0 Hx Hax _. destruct (decide (x = t)) as [->|Hne]; [unfold alive in Hax; congruence|]. simpl in Hx. rewrite lookup_insert_ne in Hx by done. unfold alive in Hax. rewrite Hd in Hax by done.
    rewrite (I Eb x p0 Hx Hax ltac:(done)). unfold pressure. symmetry. apply maxl_ext. intros w _. apply Hq.
Qed.

(** ** A thread waits *)

Lemma block_kernel w t deadline now mask reason k q th :
  k_inv [] k -> queues k !! w = Some q -> threads k !! t = Some th -> blocking_wait_queue th = None ->
  exists st k', wait_queue_block_etc_pre w t deadline now mask reason k = Some (st, k') /\ k_inv [] k' /\
    if bool_decide (st = ZX_OK) then
      waiters w k' ≡ₚ t :: waiters w k /\ (forall w', w' <> w -> waiters w' k' = waiters w' k) /\ same_queues k k' /\ ready k' = ready k /\
      exists b, is_blocked b = true /\ threads k' = <[t := mkThread b (effec_priority th) (signals th) (interruptable th) ZX_OK (Some w)]> (threads k)
    else k' = k.
Proof.
  intros I Hq Ht Hb. destruct (block_spec w t deadline now mask reason k q th I Hq Ht Hb) as (st & k' & E & I' & H1 & H2). exists st, k'. split; [done|]. split; [done|]. case_bool_decide as Hst; [|by apply H2].
  pose proof (proj1 (block_frame _ _ _ _ _ _ _ _ _ E)) as Hsq. split; [rewrite (H1 Hst); apply ins_perm|]. subst st. unfold wait_queue_block_etc_pre in E. rewrite Hq, Ht in E. cbn [mbind option_bind] in E.
  destruct (negb _ && _); [done|]. destruct (_ && _ && _); [done|]. destruct (_ && _ && _); [done|]. injection E as <-. split_and!; [|done | done|].
  - intros w' Hne. unfold waiters. simpl. by rewrite lookup_insert_ne.
  - eexists. split; [|done]. by destruct reason.
Qed.

Lemma maxl_attained (f : Z -> Z) l : -1 < maxl (map f l) -> exists x, x ∈ l /\ f x = maxl (map f l).
Proof.
  induction l as [|y l IH]; unfold maxl in *; simpl; [lia|]. intros H. destruct (Z.max_spec (f y) (foldr Z.max (-1) (map f l))) as [[H1 E]|[H1 E]]; rewrite E in *.
  - destruct IH as (x & Hx & Ex); [lia|]. exists x. split; [by right | done].
  - exists y. split; [apply list_elem_of_here | done].
Qed.

Lemma alive_state s t th : alive t s -> threads (ker s) !! t = Some th -> dead_state (state th) = false.
Proof. unfold alive, is_dead. intros Ha Ht. rewrite Ht in Ha. by destruct (state th). Qed.

Lemma owner_living L s w : shape L s -> living (owners s !! w) s = owners s !! w.
Proof. intros S. destruct (owners s !! w) as [o|] eqn:Ho; [|done]. simpl. destruct (sh_alive _ _ S w o Ho) as [Ha _]. unfold alive in Ha. by rewrite Ha. Qed.

Lemma assign_owned b w no s :
  good b [] s -> is_Some (queues (ker s) !! w) -> (forall o, no = Some o -> is_Some (pis s !! o)) -> (b = true -> forall o, owners s !! w = Some o -> living no s <> Some o -> idle o s) ->
  exists s', AssignOwner false w no s = Some s' /\ good b [] s' /\ handed w (living no s) s s'.
Proof.
  intros I Hq Hno Hid. destruct (assign_good b [] w no s 0 I Hq Hno) as (s' & E & I' & Hh).
  { intros Hb Hne o Ho. left. apply (Hid Hb o Ho). congruence. }
  exists s'. split; [done|]. split; [done|]. case_bool_decide as Hd; [|done]. by rewrite Hd, (owner_living []) by apply I.
Qed.

Record enqueued (w t : Z) (s s' : State) : Prop := {
  eq_queue : waiters w (ker s') ≡ₚ t :: waiters w (ker s);
  eq_queues : forall w', w' <> w -> waiters w' (ker s') ≡ₚ waiters w' (ker s);
  eq_others : forall x, x <> t -> sees s' x = sees s x;
  eq_thread : exists th b, threads (ker s) !! t = Some th /\ is_blocked b = true /\ sees s' t = Some (b, signals th, interruptable th, ZX_OK, Some w);
  eq_same : same_queues (ker s) (ker s');
  eq_base : forall x, base_priority <$> pis s' !! x = base_priority <$> pis s !! x;
}.

(** The queue may be taken from its owner, also when that is the thread that joins. *)
Lemma block_releases w t no s k th :
  shape [] s -> threads (ker s) !! t = Some th -> blocking_wait_queue th = None -> fixed (ker s) k -> waiters w k ≡ₚ t :: waiters w (ker s) ->
  (forall x, x <> t -> threads k !! x = threads (ker s) !! x) -> (forall o, owners s !! w = Some o -> living no s <> Some o -> idle o s) ->
  exists y, living no s <> owners s !! w -> may_release w (qprio (ker s) w) y (with_ker k s).
Proof.
  intros S Ht Hb F Hw Et Hid. assert (forall o, owners s !! w = Some o -> living no s <> owners s !! w -> o <> t -> idle o (with_ker k s)) as Ho.
  { intros o Ho Hne Hot. destruct (Hid o Ho) as (tho & Hto & Hbo); [congruence|]. exists tho. simpl. by rewrite Et. }
  destruct (decide (0 <= qprio (ker s) w)) as [Hpos|Hneg].
  - destruct (maxl_attained (prio (ker s)) (waiters w (ker s))) as (y & Hyw & Hyp); [unfold qprio in Hpos; lia|]. exists y. intros Hne o Hwo. simpl in *. destruct (decide (o = t)) as [->|Hot]; [right | left; by apply Ho].
    rewrite Hw. split; [apply list_elem_of_here|]. intros _. split; [by right|]. split; [intros ->; by apply (idle_waiters [] t s w S); [exists th|]|]. rewrite (fixed_prio (ker s)) by done. unfold qprio. lia.
  - exists 0. intros Hne o Hwo. simpl in *. destruct (decide (o = t)) as [->|Hot]; [right; rewrite Hw; split; [apply list_elem_of_here | lia] | left; by apply Ho].
Qed.

Lemma block_owned b w t deadline now no reason s :
  good b [] s -> is_Some (queues (ker s) !! w) -> idle t s -> alive t s -> (forall o, no = Some o -> is_Some (pis s !! o)) ->
  (b = true -> forall o, owners s !! w = Some o -> living no s <> Some o -> idle o s) ->
  exists st s', BlockAndAssignOwner false w t deadline now no reason s = Some (st, s') /\ good b [] s' /\ owners s' = owners (with_owner w (living no s) s) /\
    if bool_decide (st = ZX_OK) then enqueued w t s s' else handed w (living no s) s s'.
Proof.
  intros I Hsq (th & Ht & Hb) Ha Hno Hid. destruct Hsq as [q Hq]. unfold BlockAndAssignOwner. rewrite (blocked_priority_qprio [] s w (proj1 I)).
  destruct (block_kernel w t deadline now 0 reason (ker s) q th (sh_ker _ _ (proj1 I)) Hq Ht Hb) as (st & k & E & Ik & H). rewrite E. cbn [mbind option_bind]. destruct (bool_decide (st = ZX_OK)) eqn:Hst; cbn [negb].
  2:{ destruct (assign_owned b w no s I) as (s' & E' & I' & Hh); [by exists q | done | done|]. rewrite E'. cbn [mbind option_bind]. exists st, s'. rewrite Hst. split_and!; try done. by rewrite (h_owners _ _ _ _ Hh); destruct (living no s). }
  destruct H as (Hw & Hwo & Hsq & _ & bs & Hbb & Et). set (th' := mkThread _ _ _ _ _ _) in Et.
  assert (fixed (ker s) k) as F by (apply (fixed_insert _ _ t th th'); try done; simpl; rewrite (alive_state s t th) by done; by apply blocked_dead_state).
  assert (living no (with_ker k s) = living no s) as Hl by (destruct no as [o|]; [simpl; by rewrite (fixed_dead (ker s)) | done]).
  assert (exists y, b = true -> living no s <> owners s !! w -> may_release w (qprio (ker s) w) y (with_ker k s)) as [y Hy].
  { destruct b; [|by exists 0]. destruct (block_releases w t no s k th) as [y Hy]; try done; [apply I | intros x Hx; by rewrite Et, lookup_insert_ne | by apply Hid | by exists y]. }
  destruct (update_good b [] (qprio (ker s)) w no (with_ker k s) (qprio (ker s) w) y) as (s' & E' & I' & Hh); [by apply (shape_fixed []); [apply I|..] | by apply Hsq; exists q | done | |].
  { intros Eb. destruct (good_dirty b [] s k w I F) as (TA & H1 & H2); [intros w' Hne; by rewrite Hwo | done|]. split_and!; try done; [apply TA | apply TA|]. rewrite Hl. by apply Hy. }
  rewrite E'. cbn [mbind option_bind]. exists st, s'. rewrite Hst, Hl in *. split_and!; [done | done | by rewrite (h_owners _ _ _ _ Hh); destruct (living no s)|]. destruct Hh as [C1 C2 C3 C4 C5 C6]. simpl in *. split.
  - by rewrite C2.
  - intros w' Hne. by rewrite C2, Hwo.
  - intros x Hx. unfold sees. rewrite C1. simpl. by rewrite Et, lookup_insert_ne.
  - exists th, bs. split_and!; [done | done|]. unfold sees. rewrite C1. simpl. by rewrite Et, lookup_insert_eq.
  - by apply (same_queues_trans _ k).
  - done.
Qed.
