(* ===== verification/OwnedWaitQueueWake.v ===== *)
(** * Correctness of owned wait queues: waking and requeueing

    Which threads [WakeThreads] and [WakeAndRequeue] wake and move, who owns the queues
    afterwards, and that all threads inherit what they should. *)

From S2P Require Import Prelude Zx WaitQueue WaitQueueFacts OwnedWaitQueue OwnedWaitQueueFacts OwnedWaitQueueSteps OwnedWaitQueueOps.
Import WaitQueue OwnedWaitQueue.

(** ** The threads a hook selects *)

Section Chosen.
Context {H : Type} (hook : Z -> H -> Action * H).

(** Of the threads [l]; with them the one that is to be the owner, and the context of
    the hook. *)
Fixpoint chosen (n i : Z) (l : list Z) (h : H) : list Z * option Z * H :=
  match l with
  | [] => ([], None, h)
  | t :: l =>
      let '(action, h) := hook t h in
      match action with
      | Skip => chosen n i l h
      | Stop => ([], None, h)
      | SelectAndKeepGoing => if i + 1 <? n then let '(ts, o, h) := chosen n (i + 1) l h in (t :: ts, o, h) else ([t], None, h)
      | SelectAndStop => ([t], None, h)
      | SelectAndAssignOwner => ([t], Some t, h)
      end
  end.

Definition chosen_of (n : Z) (l : list Z) (h : H) : list Z * option Z * H := if n =? 0 then ([], None, h) else chosen n 0 l h.

Lemma chosen_sublist n l : forall i h, (chosen n i l h).1.1 `sublist_of` l.
Proof.
  induction l as [|t l IH]; intros i h; simpl; [done|]. destruct (hook t h) as [a h']. destruct a; simpl.
  - apply sublist_cons, IH.
  - apply sublist_nil_l.
  - destruct (i + 1 <? n); [|apply sublist_skip, sublist_nil_l]. specialize (IH (i + 1) h'). destruct (chosen n (i + 1) l h') as [[ts o] h'']. by apply sublist_skip.
  - apply sublist_skip, sublist_nil_l.
  - apply sublist_skip, sublist_nil_l.
Qed.

Lemma chosen_owner n l : forall i h o, (chosen n i l h).1.2 = Some o -> o ∈ (chosen n i l h).1.1.
Proof.
  induction l as [|t l IH]; intros i h o; simpl; [done|]. destruct (hook t h) as [a h']. destruct a; simpl; try done.
  - apply IH.
  - destruct (i + 1 <? n); [|done]. specialize (IH (i + 1) h' o). destruct (chosen n (i + 1) l h') as [[ts o'] h'']. simpl in *. intros Ho. right. by apply IH.
  - intros [= ->]. apply list_elem_of_here.
Qed.

Lemma chosen_count n l : forall i h, i < n -> i + zlen (chosen n i l h).1.1 <= n.
Proof.
  induction l as [|t l IH]; intros i h Hi; simpl; [rewrite zlen_nil; lia|]. destruct (hook t h) as [a h']. destruct a; simpl.
  - by apply IH.
  - rewrite zlen_nil. lia.
  - destruct (Z.ltb_spec (i + 1) n) as [Hlt|Hge]; [|simpl; rewrite zlen_cons, zlen_nil; lia]. specialize (IH (i + 1) h' Hlt). destruct (chosen n (i + 1) l h') as [[ts o] h'']. simpl in *. rewrite zlen_cons. lia.
  - rewrite zlen_cons, zlen_nil. lia.
  - rewrite zlen_cons, zlen_nil. lia.
Qed.
End Chosen.

(** ** Waking *)

Record woke (w : Z) (ts : list Z) (s s' : State) : Prop := {
  wk_in : forall t, t ∈ ts -> t ∈ waiters w (ker s);
  wk_ker : k_inv [] (ker s');
  wk_queue : waiters w (ker s') = filter (fun x => x ∉ ts) (waiters w (ker s));
  wk_queues : forall w', w' <> w -> waiters w' (ker s') = waiters w' (ker s);
  wk_threads : forall x, threads (ker s') !! x = (if decide (x ∈ ts) then woken ZX_OK else id) <$> threads (ker s) !! x;
  wk_same : same_queues (ker s) (ker s');
  wk_pis : pis s' = pis s;
  wk_owners : owners s' = owners s;
}.

Lemma woke_nil w s : k_inv [] (ker s) -> woke w [] s s.
Proof.
  intros I. split; try done; [by intros t ?%not_elem_of_nil | | intros x; by rewrite decide_False, option_fmap_id by apply not_elem_of_nil].
  induction (waiters w (ker s)) as [|y l IH]; [done|]. rewrite filter_cons_True by apply not_elem_of_nil. by f_equal.
Qed.

Lemma woke_one w t s :
  k_inv [] (ker s) -> t ∈ waiters w (ker s) ->
  exists k k2, wait_queue_dequeue_thread_internal w t ZX_OK (ker s) = Some k /\ sched_unblock t k = Some k2 /\ woke w [t] s (with_ker k2 s).
Proof.
  intros I Hin. destruct (wake_kernel w t ZX_OK (ker s) I Hin) as (k1 & k2 & th & E1 & E2 & I2 & Ht & _ & Et & Hw & Hwo & Hsq & _). exists k1, k2. split_and!; try done. split; simpl; try done.
  - by intros x ->%list_elem_of_singleton.
  - rewrite Hw. apply list_filter_iff. intros x. by rewrite list_elem_of_singleton.
  - intros x. rewrite Et. destruct (decide (x = t)) as [->|Hne]; [by rewrite lookup_insert_eq, decide_True, Ht by apply list_elem_of_here|].
    rewrite lookup_insert_ne by done. rewrite decide_False by (by intros ?%list_elem_of_singleton). by rewrite option_fmap_id.
Qed.

Lemma woke_app w ts1 ts2 s1 s2 s3 : woke w ts1 s1 s2 -> woke w ts2 s2 s3 -> woke w (ts1 ++ ts2) s1 s3.
Proof.
  intros [A1 A2 A3 A4 A5 A6 A7 A8] [B1 B2 B3 B4 B5 B6 B7 B8]. split; try done.
  - intros t [Ht|Ht]%elem_of_app; [by apply A1|]. specialize (B1 t Ht). rewrite A3 in B1. by apply list_elem_of_filter in B1 as [_ ?].
  - rewrite B3, A3, list_filter_filter. apply list_filter_iff. intros x. rewrite elem_of_app. tauto.
  - intros w' Hne. by rewrite B4, A4.
  - intros x. rewrite B5, A5. destruct (threads (ker s1) !! x) as [th|] eqn:Hth; [|done]. simpl. f_equal.
    destruct (decide (x ∈ ts2)) as [H2|H2], (decide (x ∈ ts1)) as [H1|H1]; try (rewrite decide_True by (apply elem_of_app; tauto); done). by rewrite decide_False by (rewrite elem_of_app; tauto).
  - by apply (same_queues_trans _ (ker s2)).
  - congruence.
  - congruence.
Qed.

(** A list of waiters without repetition. *)
Lemma wake_each_spec {H} (hook : Z -> H -> Action * H) w n l : forall i h s,
  k_inv [] (ker s) -> NoDup l -> (forall t, t ∈ l -> t ∈ waiters w (ker s)) ->
  let '(ts, o, h') := chosen hook n i l h in
  exists s', wake_each false hook w n i l h s = Some (match o with Some _ => if IsEmpty w s' then None else o | None => None end, h', s') /\ woke w ts s s'.
Proof.
  induction l as [|t l IH]; intros i h s I Hnd Hin; simpl; [exists s; by split; [|apply woke_nil]|]. apply NoDup_cons in Hnd as [Hni Hnd]. assert (t ∈ waiters w (ker s)) as Ht by apply Hin, list_elem_of_here.
  destruct (woke_one w t s I Ht) as (k & k2 & E1 & E2 & W). destruct (hook t h) as [a h1]. destruct a; simpl.
  - apply IH; [done | done | intros x Hx; apply Hin; by right].
  - exists s. by split; [|apply woke_nil].
  - rewrite E1. cbn [mbind option_bind]. rewrite E2. cbn [mbind option_bind]. destruct (i + 1 <? n); [|by exists (with_ker k2 s)].
    assert (forall x, x ∈ l -> x ∈ waiters w (ker (with_ker k2 s))) as Hin'.
    { intros x Hx. rewrite (wk_queue _ _ _ _ W). apply list_elem_of_filter. split; [by intros ->%list_elem_of_singleton | apply Hin; by right]. }
    specialize (IH (i + 1) h1 (with_ker k2 s) (wk_ker _ _ _ _ W) Hnd Hin'). destruct (chosen hook n (i + 1) l h1) as [[ts o] h']. destruct IH as (s' & E & W'). exists s'. split; [done|]. by apply (woke_app w [t] ts s (with_ker k2 s)).
  - rewrite E1. cbn [mbind option_bind]. rewrite E2. cbn [mbind option_bind]. by exists (with_ker k2 s).
  - rewrite E1. cbn [mbind option_bind]. rewrite E2. cbn [mbind option_bind]. by exists (with_ker k2 s).
Qed.

Lemma IsEmpty_waiters L s w : k_inv L (ker s) -> IsEmpty w s = bool_decide (waiters w (ker s) = []).
Proof.
  intros I. unfold IsEmpty, waiters, wait_queue_is_empty. destruct (queues (ker s) !! w) as [q|] eqn:Hq; [|done]. destruct (ki_queue _ _ I w q Hq) as (_ & _ & Hc). rewrite Hc. destruct (concat (heads q)) as [|y l]; [done|].
  rewrite bool_decide_eq_false_2 by done. rewrite zlen_cons. pose proof (zlen_nonneg l). by apply Z.eqb_neq; lia.
Qed.

Lemma IsEmpty_perm w s s' : k_inv [] (ker s) -> k_inv [] (ker s') -> waiters w (ker s') ≡ₚ waiters w (ker s) -> IsEmpty w s' = IsEmpty w s.
Proof.
  intros I I' HP. rewrite (IsEmpty_waiters [] s), (IsEmpty_waiters [] s') by done. apply bool_decide_ext. split; intros E; rewrite E in HP; [by apply Permutation_nil_l in HP | by apply Permutation_nil_r in HP].
Qed.

(** The thread to own what is left of a queue. *)
Definition heir (w : Z) (o : option Z) (s : State) : option Z := match o with Some _ => if IsEmpty w s then None else o | None => None end.

Lemma heir_Some w o s x : heir w o s = Some x -> o = Some x.
Proof. unfold heir. destruct o; [|done]. by destruct (IsEmpty w s). Qed.

Lemma wake_internal_spec {H} (hook : Z -> H -> Action * H) w n h s :
  k_inv [] (ker s) ->
  let '(ts, o, h') := chosen_of hook n (waiters w (ker s)) h in
  exists s', WakeThreadsInternal false hook w n h s = Some (heir w o s', h', s') /\ woke w ts s s' /\ (forall x, o = Some x -> x ∈ ts).
Proof.
  intros I. unfold chosen_of, WakeThreadsInternal. destruct (n =? 0); [exists s; by split_and!; [|apply woke_nil|]|].
  pose proof (wake_each_spec hook w n (waiters w (ker s)) 0 h s I (waiters_nodup _ _ _ I) ltac:(done)) as E. pose proof (chosen_owner hook n (waiters w (ker s)) 0 h) as Ho. destruct (chosen hook n 0 (waiters w (ker s)) h) as [[ts o] h']. destruct E as (s' & E & W). exists s'.
  split; [exact E|]. by split.
Qed.

Lemma woke_state w ts s s' : woke w ts s s' -> s' = with_ker (ker s') s.
Proof. intros W. destruct s' as [k p o], W as [_ _ _ _ _ _ E1 E2]. simpl in *. by subst. Qed.

Lemma woke_fixed w ts s s' : k_inv [] (ker s) -> woke w ts s s' -> fixed (ker s) (ker s').
Proof.
  intros I W. split; [|intros w'; apply (wk_same _ _ _ _ W)]. intros x. rewrite (wk_threads _ _ _ _ W). destruct (decide (x ∈ ts)) as [Hx|]; [|by rewrite option_fmap_id].
  destruct (waiters_blocked _ _ _ _ I (wk_in _ _ _ _ W x Hx)) as (q & th & _ & Ht & Hb). rewrite Ht. simpl. by rewrite (blocked_dead_state (state th)) by (by apply (blocked_not_dead [] (ker s) x th w)).
Qed.

Lemma woke_idle w ts s s' x : k_inv [] (ker s) -> woke w ts s s' -> idle x s \/ x ∈ ts -> idle x s'.
Proof.
  intros I W [(th & Ht & Hb)|Hx].
  - exists ((if decide (x ∈ ts) then woken ZX_OK else id) th). rewrite (wk_threads _ _ _ _ W), Ht. split; [done|]. by destruct (decide (x ∈ ts)).
  - destruct (waiters_blocked _ _ _ _ I (wk_in _ _ _ _ W x Hx)) as (q & th & _ & Ht & Hb). exists (woken ZX_OK th). by rewrite (wk_threads _ _ _ _ W), Ht, decide_True.
Qed.

Lemma waiter_alive L s w x : k_inv L (ker s) -> x ∈ waiters w (ker s) -> alive x s /\ is_Some (threads (ker s) !! x).
Proof.
  intros I Hx. destruct (waiters_blocked _ _ _ _ I Hx) as (q & th & _ & Ht & Hb). pose proof (blocked_not_dead L (ker s) x th w I Ht Hb) as Hbl. unfold alive, is_dead. rewrite Ht. split; [by destruct (state th) | by eexists].
Qed.

Definition awake (v : thread_state * Z * bool * zx_status_t * option Z) : thread_state * Z * bool * zx_status_t * option Z := let '(_, sig, i, _, _) := v in (THREAD_READY, sig, i, ZX_OK, None).

(** The effect of [WakeThreads]. *)
Record roused (w : Z) (ts : list Z) (s s' : State) : Prop := {
  ro_in : forall t, t ∈ ts -> t ∈ waiters w (ker s);
  ro_queue : waiters w (ker s') ≡ₚ filter (fun x => x ∉ ts) (waiters w (ker s));
  ro_queues : forall w', w' <> w -> waiters w' (ker s') ≡ₚ waiters w' (ker s);
  ro_threads : forall x, sees s' x = (if decide (x ∈ ts) then awake else id) <$> sees s x;
  ro_same : same_queues (ker s) (ker s');
  ro_base : forall x, base_priority <$> pis s' !! x = base_priority <$> pis s !! x;
}.

Lemma wake_owned {H} (hook : Z -> H -> Action * H) b w n h s :
  good b [] s -> is_Some (queues (ker s) !! w) -> (b = true -> forall o, owners s !! w = Some o -> idle o s) ->
  let '(ts, o, h') := chosen_of hook n (waiters w (ker s)) h in
  exists s', WakeThreads false hook w n h s = Some (h', s') /\ good b [] s' /\ owners s' = owners (with_owner w (heir w o s') s) /\ roused w ts s s'.
Proof.
  intros I Hq Hid. pose proof (sh_ker _ _ (proj1 I)) as Ik. unfold WakeThreads. rewrite (blocked_priority_qprio [] s w (proj1 I)). pose proof (wake_internal_spec hook w n h s Ik) as W. destruct (chosen_of hook n (waiters w (ker s)) h) as [[ts o] h'].
  destruct W as (s1 & E & W & Ho). rewrite E. cbn [mbind option_bind]. pose proof (woke_fixed w ts s s1 Ik W) as F. pose proof (woke_state w ts s s1 W) as Es1.
  assert (forall x, heir w o s1 = Some x -> x ∈ ts) as Hh1 by (intros x Hx%heir_Some; by apply Ho).
  destruct (update_good b [] (qprio (ker s)) w (heir w o s1) s1 (qprio (ker s) w) 0) as (s2 & E2 & I2 & Hh); [| by apply (wk_same _ _ _ _ W) | | |].
  { rewrite Es1. apply (shape_fixed []); [apply I | done | apply W]. }
  { intros x Hx. rewrite (wk_pis _ _ _ _ W). apply (sh_dom _ _ (proj1 I)). apply (waiter_alive [] s w); [done|]. by apply (wk_in _ _ _ _ W), Hh1. }
  { intros Eb. destruct (good_dirty b [] s (ker s1) w I F) as (TA & H1 & H2); [intros w' Hne; by rewrite (wk_queues _ _ _ _ W) | done|]. rewrite <- Es1 in TA. split_and!; [apply TA | apply TA | done | done|].
    intros _ x Hx. left. apply (woke_idle w ts s); [done | done|]. left. apply (Hid Eb). by rewrite <- (wk_owners _ _ _ _ W). }
  rewrite E2. cbn [mbind option_bind]. exists s2. split; [done|]. split; [done|]. destruct Hh as [C1 C2 C3 C4 C5 C6].
  assert (living (heir w o s1) s1 = heir w o s2) as Hl.
  { replace (heir w o s2) with (heir w o s1).
    - destruct (heir w o s1) as [x|] eqn:Hx; [|done]. simpl. rewrite Es1, (fixed_dead (ker s)) by done. destruct (waiter_alive [] s w x Ik) as [Ha _]; [by apply (wk_in _ _ _ _ W), Hh1|]. unfold alive in Ha. by rewrite Ha.
    - unfold heir. destruct o; [|done]. rewrite (IsEmpty_perm w s1 s2); [done | apply W | apply I2 | apply C2]. }
  split; [rewrite C5, Hl, (wk_owners _ _ _ _ W); by destruct (heir w o s2)|]. split.
  - apply W.
  - by rewrite C2, (wk_queue _ _ _ _ W).
  - intros w' Hne. by rewrite C2, (wk_queues _ _ _ _ W).
  - intros x. unfold sees. rewrite C1, (wk_threads _ _ _ _ W). destruct (threads (ker s) !! x); [|done]. simpl. by destruct (decide (x ∈ ts)).
  - by apply (same_queues_trans _ (ker s1)); [apply W|].
  - intros x. by rewrite C6, (wk_pis _ _ _ _ W).
Qed.

(** ** Requeueing *)

Definition joined (d : Z) (th : thread_t) : thread_t := mkThread (state th) (effec_priority th) (signals th) (interruptable th) (blocked_status th) (Some d).

Record moved (w d : Z) (ms : list Z) (s s' : State) : Prop := {
  mv_in : forall t, t ∈ ms -> t ∈ waiters w (ker s);
  mv_ker : k_inv [] (ker s');
  mv_source : waiters w (ker s') = filter (fun x => x ∉ ms) (waiters w (ker s));
  mv_dest : waiters d (ker s') ≡ₚ ms ++ waiters d (ker s);
  mv_queues : forall w', w' <> w -> w' <> d -> waiters w' (ker s') = waiters w' (ker s);
  mv_threads : forall x, threads (ker s') !! x = (if decide (x ∈ ms) then joined d else id) <$> threads (ker s) !! x;
  mv_same : same_queues (ker s) (ker s');
  mv_pis : pis s' = pis s;
  mv_owners : owners s' = owners s;
}.

Lemma moved_nil w d s : k_inv [] (ker s) -> moved w d [] s s.
Proof.
  intros I. split; try done; [by intros t ?%not_elem_of_nil | | intros x; by rewrite decide_False, option_fmap_id by apply not_elem_of_nil].
  apply (wk_queue w [] s s). by apply woke_nil.
Qed.

Lemma moved_one w d t s :
  k_inv [] (ker s) -> w <> d -> is_Some (queues (ker s) !! d) -> t ∈ waiters w (ker s) -> exists k, wait_queue_move_thread w d t (ker s) = Some k /\ moved w d [t] s (with_ker k s).
Proof.
  intros I Hne [dq Hd] Hin. destruct (waiters_blocked _ _ _ _ I Hin) as (q & th & Hq & Ht & Hb). destruct (move_thread_spec w d t (ker s) th dq I Hne Ht Hb Hd) as (k & E & Ik & Hw & Hdw & _). exists k. split; [done|].
  unfold wait_queue_move_thread in E. rewrite Hq, Ht in E. cbn [mbind option_bind] in E. simpl in E. rewrite lookup_insert_ne, Hd in E by done. simpl in E. injection E as <-. split; simpl; try done.
  - by intros x ->%list_elem_of_singleton.
  - etransitivity; [exact Hw|]. apply list_filter_iff. intros x. by rewrite list_elem_of_singleton.
  - etransitivity; [by rewrite Hdw|]. apply ins_perm.
  - intros w' H1 H2. unfold waiters. simpl. by rewrite !lookup_insert_ne.
  - intros x. destruct (decide (x = t)) as [->|Hx]; [by rewrite lookup_insert_eq, decide_True, Ht by apply list_elem_of_here|].
    rewrite lookup_insert_ne by done. rewrite decide_False by (by intros ?%list_elem_of_singleton). by rewrite option_fmap_id.
  - intros w'. simpl. destruct (decide (w' = d)) as [->|H2]; [rewrite lookup_insert_eq, Hd; split; by eexists|]. rewrite lookup_insert_ne by done. destruct (decide (w' = w)) as [->|H1]; [rewrite lookup_insert_eq, Hq; split; by eexists | by rewrite lookup_insert_ne].
Qed.

Lemma moved_app w d ms1 ms2 s1 s2 s3 : moved w d ms1 s1 s2 -> moved w d ms2 s2 s3 -> moved w d (ms1 ++ ms2) s1 s3.
Proof.
  intros [A1 A2 A3 A4 A5 A6 A7 A8 A9] [B1 B2 B3 B4 B5 B6 B7 B8 B9]. split; try done.
  - intros t [Ht|Ht]%elem_of_app; [by apply A1|]. specialize (B1 t Ht). rewrite A3 in B1. by apply list_elem_of_filter in B1 as [_ ?].
  - rewrite B3, A3, list_filter_filter. apply list_filter_iff. intros x. rewrite elem_of_app. tauto.
  - by rewrite B4, A4, !app_assoc, (Permutation_app_comm ms2 ms1).
  - intros w' H1 H2. by rewrite B5, A5.
  - intros x. rewrite B6, A6. destruct (threads (ker s1) !! x) as [th|] eqn:Hth; [|done]. simpl. f_equal.
    destruct (decide (x ∈ ms2)) as [H2|H2], (decide (x ∈ ms1)) as [H1|H1]; try (rewrite decide_True by (apply elem_of_app; tauto); done). by rewrite decide_False by (rewrite elem_of_app; tauto).
  - by apply (same_queues_trans _ (ker s2)).
  - congruence.
  - congruence.
Qed.

Lemma requeue_each_spec {H} (hook : Z -> H -> Action * H) w d n l :
  (forall t h, (hook t h).1 <> SelectAndAssignOwner) -> w <> d -> forall i h s,
  k_inv [] (ker s) -> is_Some (queues (ker s) !! d) -> NoDup l -> (forall t, t ∈ l -> t ∈ waiters w (ker s)) ->
  let '(ms, _, h') := chosen hook n i l h in
  exists s', requeue_each false hook w d n i l h s = Some (h', s') /\ moved w d ms s s'.
Proof.
  intros Hok Hwd. induction l as [|t l IH]; intros i h s I Hd Hnd Hin; simpl; [exists s; by split; [|apply moved_nil]|]. apply NoDup_cons in Hnd as [Hni Hnd]. assert (t ∈ waiters w (ker s)) as Ht by apply Hin, list_elem_of_here.
  destruct (moved_one w d t s I Hwd Hd Ht) as (k & E1 & W). specialize (Hok t h). destruct (hook t h) as [a h1]. destruct a; simpl; [| | | |done].
  - apply IH; [done | done | done | intros x Hx; apply Hin; by right].
  - exists s. by split; [|apply moved_nil].
  - rewrite E1. cbn [mbind option_bind]. destruct (i + 1 <? n); [|by exists (with_ker k s)].
    assert (forall x, x ∈ l -> x ∈ waiters w (ker (with_ker k s))) as Hin'.
    { intros x Hx. rewrite (mv_source _ _ _ _ _ W). apply list_elem_of_filter. split; [by intros ->%list_elem_of_singleton | apply Hin; by right]. }
    specialize (IH (i + 1) h1 (with_ker k s) (mv_ker _ _ _ _ _ W) (proj1 (mv_same _ _ _ _ _ W d) Hd) Hnd Hin'). destruct (chosen hook n (i + 1) l h1) as [[ms o] h']. destruct IH as (s' & E & W'). exists s'. split; [done|]. by apply (moved_app w d [t] ms s (with_ker k s)).
  - rewrite E1. cbn [mbind option_bind]. by exists (with_ker k s).
Qed.

Lemma moved_fixed w d ms s s' : moved w d ms s s' -> fixed (ker s) (ker s').
Proof.
  intros M. split; [|intros w'; apply (mv_same _ _ _ _ _ M)]. intros x. rewrite (mv_threads _ _ _ _ _ M). destruct (threads (ker s) !! x); [|done]. simpl. by destruct (decide (x ∈ ms)).
Qed.

Lemma moved_state w d ms s s' : moved w d ms s s' -> s' = with_ker (ker s') s.
Proof. intros M. destruct s' as [k p o], M as [_ _ _ _ _ _ _ E1 E2]. simpl in *. by subst. Qed.

Lemma requeue_any {H} (hook : Z -> H -> Action * H) w d n h s :
  (forall t h, (hook t h).1 <> SelectAndAssignOwner) -> w <> d -> k_inv [] (ker s) -> is_Some (queues (ker s) !! d) ->
  let '(ms, _, h') := chosen_of hook n (waiters w (ker s)) h in
  exists s', (if negb (IsEmpty w s) && negb (n =? 0) then requeue_each false hook w d n 0 (thread_list w s) h s else Some (h, s)) = Some (h', s') /\ moved w d ms s s'.
Proof.
  intros Hok Hwd I Hd. unfold chosen_of. rewrite (IsEmpty_waiters [] s) by done. destruct (n =? 0); [rewrite andb_false_r; exists s; by split; [|apply moved_nil]|]. rewrite andb_true_r. case_bool_decide as He; cbn [negb].
  - rewrite He. simpl. exists s. by split; [|apply moved_nil].
  - apply (requeue_each_spec hook w d n (waiters w (ker s)) Hok Hwd 0 h s I Hd (waiters_nodup _ _ _ I) ltac:(done)).
Qed.

Definition at_queue (d : Z) (v : thread_state * Z * bool * zx_status_t * option Z) : thread_state * Z * bool * zx_status_t * option Z := let '(st, sig, i, e, _) := v in (st, sig, i, e, Some d).

(** The effect of [WakeAndRequeue]. *)
Record requeued (w d : Z) (ts ms : list Z) (s s' : State) : Prop := {
  rq_woken : forall t, t ∈ ts -> t ∈ waiters w (ker s);
  rq_moved : forall t, t ∈ ms -> t ∈ waiters w (ker s) /\ (t ∉ ts);
  rq_source : waiters w (ker s') ≡ₚ filter (fun x => (x ∉ ts) /\ (x ∉ ms)) (waiters w (ker s));
  rq_dest : waiters d (ker s') ≡ₚ ms ++ waiters d (ker s);
  rq_queues : forall w', w' <> w -> w' <> d -> waiters w' (ker s') ≡ₚ waiters w' (ker s);
  rq_threads : forall x, sees s' x = (if decide (x ∈ ts) then awake else if decide (x ∈ ms) then at_queue d else id) <$> sees s x;
  rq_same : same_queues (ker s) (ker s');
  rq_base : forall x, base_priority <$> pis s' !! x = base_priority <$> pis s !! x;
}.

Lemma woke_moved w d ts ms s s1 s2 s3 s4 o1 o2 : w <> d -> woke w ts s s1 -> moved w d ms s1 s2 -> handed w o1 s2 s3 -> handed d o2 s3 s4 -> requeued w d ts ms s s4.
Proof.
  intros Hwd W M H1 H2. assert (forall x, sees s4 x = sees s2 x) as Hs by (intros x; unfold sees; by rewrite (h_threads _ _ _ _ H2), (h_threads _ _ _ _ H1)).
  assert (forall w', waiters w' (ker s4) ≡ₚ waiters w' (ker s2)) as Hw by (intros w'; by rewrite (h_waiters _ _ _ _ H2), (h_waiters _ _ _ _ H1)). split.
  - apply W.
  - intros t Ht. apply (mv_in _ _ _ _ _ M) in Ht. rewrite (wk_queue _ _ _ _ W) in Ht. apply list_elem_of_filter in Ht. by destruct Ht.
  - rewrite Hw, (mv_source _ _ _ _ _ M), (wk_queue _ _ _ _ W), list_filter_filter. apply reflexive_eq, list_filter_iff. intros x. tauto.
  - by rewrite Hw, (mv_dest _ _ _ _ _ M), (wk_queues _ _ _ _ W).
  - intros w' Hn1 Hn2. by rewrite Hw, (mv_queues _ _ _ _ _ M), (wk_queues _ _ _ _ W).
  - intros x. rewrite Hs. unfold sees. rewrite (mv_threads _ _ _ _ _ M), (wk_threads _ _ _ _ W). destruct (threads (ker s) !! x); [|done]. simpl. destruct (decide (x ∈ ms)) as [Hx|], (decide (x ∈ ts)) as [Ht|]; try done.
    exfalso. apply (mv_in _ _ _ _ _ M) in Hx. rewrite (wk_queue _ _ _ _ W) in Hx. by apply list_elem_of_filter in Hx as [? _].
  - apply (same_queues_trans _ (ker s1)); [apply W|]. apply (same_queues_trans _ (ker s2)); [apply M|]. apply (same_queues_trans _ (ker s3)); [apply H1 | apply H2].
  - intros x. by rewrite (h_base _ _ _ _ H2), (h_base _ _ _ _ H1), (mv_pis _ _ _ _ _ M), (wk_pis _ _ _ _ W).
Qed.

Lemma requeue_idle w d ts ms s s1 s2 x : k_inv [] (ker s) -> woke w ts s s1 -> moved w d ms s1 s2 -> idle x s \/ x ∈ ts -> idle x s2.
Proof.
  intros Ik W M Hx. destruct (woke_idle w ts s s1 x Ik W Hx) as (th & Ht & Hb). exists th. rewrite (mv_threads _ _ _ _ _ M), Ht. simpl. rewrite decide_False; [done|].
  intros Hm%(mv_in _ _ _ _ _ M). destruct (waiters_blocked _ _ _ _ (wk_ker _ _ _ _ W) Hm) as (q & th0 & _ & Ht0 & Hb0). congruence.
Qed.

Lemma handed_idle w o s s' x : handed w o s s' -> idle x s -> idle x s'.
Proof.
  intros Hh (th & Ht & Hb). pose proof (h_threads _ _ _ _ Hh x) as E. rewrite Ht in E. destruct (threads (ker s') !! x) as [th'|] eqn:Ht'; [|done]. injection E as _ _ _ _ E. exists th'. split; [done | congruence].
Qed.

(** The first [UpdateBookkeeping] of [WakeAndRequeue]. *)
Lemma requeue_first b w d ts ms no s s1 s2 :
  good b [] s -> w <> d -> is_Some (queues (ker s) !! w) -> woke w ts s s1 -> moved w d ms s1 s2 -> (forall x, no = Some x -> x ∈ ts) ->
  (b = true -> (forall o, owners s !! w = Some o -> idle o s /\ owners s !! d <> Some o)) ->
  exists s3, UpdateBookkeeping false w no (qprio (ker s) w) s2 = Some s3 /\ shape [] s3 /\ handed w no s2 s3 /\ (b = true -> exists g, told g s3 /\ agrees g [d] s3 /\ g d = qprio (ker s) d).
Proof.
  intros G Hwd Hq W M Hno Hid. pose proof (sh_ker _ _ (proj1 G)) as Ik. pose proof (woke_fixed w ts s s1 Ik W) as F1. pose proof (moved_fixed w d ms s1 s2 M) as F2. assert (fixed (ker s) (ker s2)) as F by (by apply (fixed_trans _ (ker s1))).
  assert (s2 = with_ker (ker s2) s) as Es2 by (rewrite (moved_state _ _ _ _ _ M) at 1; rewrite (woke_state _ _ _ _ W) at 1; done).
  assert (forall x, idle x s \/ x ∈ ts -> idle x s2) as Hidle by (intros x; by apply (requeue_idle w d ts ms s s1)).
  assert (living no s2 = no) as Hl.
  { destruct no as [x|]; [|done]. simpl. rewrite Es2, (fixed_dead (ker s)) by done. destruct (waiter_alive [] s w x Ik) as [Ha _]; [by apply (wk_in _ _ _ _ W), Hno|]. unfold alive in Ha. by rewrite Ha. }
  destruct (update_dirty_good b [] (qprio (ker s)) w d no s2 (qprio (ker s) w)) as (s3 & E & S3 & Hh & Hg); [|done | | | |].
  - rewrite Es2. apply (shape_fixed []); [apply G | done | apply M].
  - by apply (mv_same _ _ _ _ _ M), (wk_same _ _ _ _ W).
  - intros x Hx. rewrite (mv_pis _ _ _ _ _ M), (wk_pis _ _ _ _ W). apply (sh_dom _ _ (proj1 G)). apply (waiter_alive [] s w); [done|]. by apply (wk_in _ _ _ _ W), Hno.
  - intros Eb. destruct (good_told b [] s G Eb) as [T A]. rewrite Hl. split_and!; [rewrite Es2; by apply told_fixed | | done | apply maxl_low | | intros x Hx; apply Hidle; right; by apply Hno].
    + rewrite Es2. apply agrees_fixed; [apply (agrees_sub _ [] _ _ A); by intros x ?%not_elem_of_nil | done|]. intros w' [H1 [H2 _]%not_elem_of_cons]%not_elem_of_cons. by rewrite (mv_queues _ _ _ _ _ M), (wk_queues _ _ _ _ W).
    + intros o Ho. rewrite (mv_owners _ _ _ _ _ M), (wk_owners _ _ _ _ W) in *. destruct (Hid Eb o Ho) as [H1 H2]. split_and!; [apply Hidle; by left | done|].
      intros Hx. apply (idle_waiters [] o s w (proj1 G) H1). by apply (wk_in _ _ _ _ W), Hno.
  - rewrite Hl in Hh. by exists s3.
Qed.

Lemma requeue_owned {H1 H2} (hook1 : Z -> H1 -> Action * H1) (hook2 : Z -> H2 -> Action * H2) b w n d m ro h1 h2 s :
  good b [] s -> w <> d -> is_Some (queues (ker s) !! w) -> is_Some (queues (ker s) !! d) -> (forall t h, (hook2 t h).1 <> SelectAndAssignOwner) -> (forall o, ro = Some o -> is_Some (pis s !! o)) ->
  (b = true -> (forall o, owners s !! w = Some o -> idle o s /\ owners s !! d <> Some o) /\ (forall o, owners s !! d = Some o -> idle o s)) ->
  let '(ts, o, h1') := chosen_of hook1 n (waiters w (ker s)) h1 in
  let '(ms, _, h2') := chosen_of hook2 m (filter (fun x => x ∉ ts) (waiters w (ker s))) h2 in
  exists s', WakeAndRequeue false hook1 hook2 w n d m ro h1 h2 s = Some (h1', h2', s') /\ good b [] s' /\ requeued w d ts ms s s' /\ (forall x, o = Some x -> x ∈ ts) /\
    owners s' = owners (with_owner d (if bool_decide (ms ++ waiters d (ker s) = []) then None else living ro s) (with_owner w (if bool_decide (filter (fun x => x ∉ ts) (waiters w (ker s)) = []) then None else o) s)).
Proof.
  intros G Hwd Hqw Hqd Hok Hro Hid. pose proof (sh_ker _ _ (proj1 G)) as Ik. unfold WakeAndRequeue. cbn [andb]. fold (living ro s). rewrite !(blocked_priority_qprio [] s _ (proj1 G)).
  pose proof (wake_internal_spec hook1 w n h1 s Ik) as W. destruct (chosen_of hook1 n (waiters w (ker s)) h1) as [[ts o] h1']. destruct W as (s1 & E1 & W & Ho). rewrite E1. cbn [mbind option_bind].
  pose proof (requeue_any hook2 w d m h2 s1 Hok Hwd (wk_ker _ _ _ _ W) (proj1 (wk_same _ _ _ _ W d) Hqd)) as M. rewrite (wk_queue _ _ _ _ W) in M. destruct (chosen_of hook2 m _ h2) as [[ms o2] h2']. destruct M as (s2 & E2 & M). rewrite E2. cbn [mbind option_bind].
  destruct (requeue_first b w d ts ms (heir w o s1) s s1 s2 G Hwd Hqw W M) as (s3 & E3 & S3 & Hh3 & Hg); [intros x Hx%heir_Some; by apply Ho | intros Eb; by apply (Hid Eb)|]. rewrite E3. cbn [mbind option_bind].
  assert (s2 = with_ker (ker s2) s) as Es2 by (rewrite (moved_state _ _ _ _ _ M) at 1; rewrite (woke_state _ _ _ _ W) at 1; done).
  assert (forall x, is_dead x s3 = is_dead x s) as Hd3.
  { intros x. rewrite (handed_dead _ _ _ _ _ Hh3), Es2. apply (fixed_dead (ker s)); [|done]. apply (fixed_trans _ (ker s1)); [by apply (woke_fixed w ts) | by apply (moved_fixed w d ms)]. }
  assert (IsEmpty d s3 = bool_decide (ms ++ waiters d (ker s) = [])) as He.
  { rewrite (IsEmpty_perm d s2 s3); [|apply M | apply (sh_ker _ _ S3) | apply Hh3]. rewrite (IsEmpty_waiters [] s2) by apply M. apply bool_decide_ext. pose proof (mv_dest _ _ _ _ _ M) as Hp. rewrite (wk_queues _ _ _ _ W) in Hp by done.
    split; intros Ee; rewrite Ee in Hp; [by apply Permutation_nil_l in Hp | by apply Permutation_nil_r in Hp]. }
  rewrite He. set (ro' := if bool_decide (ms ++ waiters d (ker s) = []) then None else living ro s).
  assert (living ro' s3 = ro') as Hl.
  { unfold ro'. case_bool_decide; [done|]. unfold living. destruct ro as [x|]; [|done]. simpl. destruct (is_dead x s) eqn:Hx; [done|]. simpl. by rewrite Hd3, Hx. }
  assert (exists g, b = true -> (told g s3 /\ agrees g [d] s3) /\ g d = qprio (ker s) d) as [g Hg'] by (destruct b; [destruct (Hg eq_refl) as (g & ? & ? & ?); by exists g | by exists (fun x => x)]).
  destruct (update_good b [] g d ro' s3 (qprio (ker s) d) 0 S3) as (s4 & E4 & G4 & Hh4).
  - by apply (h_queues _ _ _ _ Hh3), (mv_same _ _ _ _ _ M), (wk_same _ _ _ _ W).
  - intros x Hx. assert (ro = Some x) as Ex by (unfold ro' in Hx; case_bool_decide; [done|]; by apply living_alive in Hx as [? _]). destruct (Hro x Ex) as [p Hp]. pose proof (h_base _ _ _ _ Hh3 x) as Hb. rewrite (mv_pis _ _ _ _ _ M), (wk_pis _ _ _ _ W), Hp in Hb.
    destruct (pis s3 !! x); [by eexists | done].
  - intros Eb. destruct (Hg' Eb) as [[T A] Hgd]. split_and!; [done | done | done | apply maxl_low|]. intros _ x Hx. left. apply (handed_idle _ _ _ _ _ Hh3). apply (requeue_idle w d ts ms s s1); [done | done | done|]. left. apply (proj2 (Hid Eb)).
    rewrite (h_owners _ _ _ _ Hh3), (mv_owners _ _ _ _ _ M), (wk_owners _ _ _ _ W) in Hx. destruct (heir w o s1); [by rewrite lookup_insert_ne in Hx | by rewrite lookup_delete_ne in Hx].
  - rewrite E4. cbn [mbind option_bind]. exists s4. rewrite Hl in Hh4. split_and!; [done | done | by apply (woke_moved w d ts ms s s1 s2 s3 s4 (heir w o s1) ro') | done|].
    rewrite (h_owners _ _ _ _ Hh4), (h_owners _ _ _ _ Hh3), (mv_owners _ _ _ _ _ M), (wk_owners _ _ _ _ W). unfold heir. rewrite (IsEmpty_waiters [] s1), (wk_queue _ _ _ _ W) by apply W.
    unfold ro'. repeat case_bool_decide; try done; by destruct o; try case_bool_decide; simpl; destruct (living ro s).
Qed.
