(* ===== verification/OwnedWaitQueueTheorems.v ===== *)
(** * Owned wait queues: theorems

    Threads wait in owned queues, are woken, moved, interrupted, reprioritised and end,
    in any order.  The owners and the lists of owned queues always agree and every
    operation ends; a thread runs at the highest priority among its own and those of all
    threads that wait for it, as long as no queue is taken from an owner that waits. *)

From stdpp Require Import relations.
From S2P Require Import Prelude Zx WaitQueue WaitQueueFacts OwnedWaitQueue OwnedWaitQueueFacts OwnedWaitQueueSteps OwnedWaitQueueOps OwnedWaitQueueWake.
Import WaitQueue OwnedWaitQueue.

Definition new_thread (t base : Z) (intr : bool) (s : State) : State :=
  mkState (with_thread t (mkThread THREAD_READY base 0 intr ZX_OK None) (ker s)) (<[t := mkPi base (-1) []]> (pis s)) (owners s).

Definition set_signals (sig : Z) (intr : bool) (th : thread_t) : thread_t := mkThread (state th) (effec_priority th) sig intr (blocked_status th) (blocking_wait_queue th).

Definition known (o : option Z) (s : State) : Prop := forall x, o = Some x -> is_Some (pis s !! x).

(** [b]: a queue is taken only from an owner that does not wait, and of the two queues
    of a requeue no thread owns both. *)
Inductive ostep (b : bool) : State -> State -> Prop :=
| o_thread t base intr s : pis s !! t = None -> 0 <= base -> ostep b s (new_thread t base intr s)
| o_queue w s : queues (ker s) !! w = None -> ostep b s (with_ker (with_queue w (mkWaitQueue 0 []) (ker s)) s)
| o_free w s : waiters w (ker s) = [] -> owners s !! w = None -> ostep b s (with_ker (mkKernel (threads (ker s)) (delete w (queues (ker s))) (ready (ker s))) s)
| o_signal t th sig intr s : threads (ker s) !! t = Some th -> ostep b s (with_ker (with_thread t (set_signals sig intr th) (ker s)) s)
| o_block w t deadline now no reason st s s' :
    is_Some (queues (ker s) !! w) -> idle t s -> alive t s -> known no s -> (b = true -> forall o, owners s !! w = Some o -> living no s <> Some o -> idle o s) ->
    BlockAndAssignOwner false w t deadline now no reason s = Some (st, s') -> ostep b s s'
| o_wake H (hook : Z -> H -> Action * H) w n h h' s s' :
    is_Some (queues (ker s) !! w) -> (b = true -> forall o, owners s !! w = Some o -> idle o s) -> WakeThreads false hook w n h s = Some (h', s') -> ostep b s s'
| o_requeue H1 H2 (hook1 : Z -> H1 -> Action * H1) (hook2 : Z -> H2 -> Action * H2) w n d m ro h1 h2 h1' h2' s s' :
    w <> d -> is_Some (queues (ker s) !! w) -> is_Some (queues (ker s) !! d) -> (forall t h, (hook2 t h).1 <> SelectAndAssignOwner) -> known ro s ->
    (b = true -> (forall o, owners s !! w = Some o -> idle o s /\ owners s !! d <> Some o) /\ (forall o, owners s !! d = Some o -> idle o s)) ->
    WakeAndRequeue false hook1 hook2 w n d m ro h1 h2 s = Some (h1', h2', s') -> ostep b s s'
| o_assign w no s s' :
    is_Some (queues (ker s) !! w) -> known no s -> (b = true -> forall o, owners s !! w = Some o -> living no s <> Some o -> idle o s) ->
    AssignOwner false w no s = Some s' -> ostep b s s'
| o_unblock t e st s s' : unblock_thread false t e s = Some (st, s') -> ostep b s s'
| o_priority t n s s' : 0 <= n -> sched_change_priority false t n s = Some s' -> ostep b s s'
| o_exit t s s' : idle t s -> exit_thread false t s = Some s' -> ostep b s s'.

Definition no_threads : State := mkState (mkKernel ∅ ∅ []) ∅ ∅.

Lemma no_threads_good b : good b [] no_threads.
Proof. split; [|intros _ t p; simpl; by rewrite lookup_empty]. split; simpl; try (intros; by rewrite lookup_empty in *); [|intros t; rewrite !lookup_empty; by split; intros []|].
  - split; simpl; intros *; by rewrite lookup_empty.
  - intros w t. rewrite lookup_empty. split; [done|]. intros (p & Hp & _). by rewrite lookup_empty in Hp.
Qed.

Lemma new_thread_good b t base intr s : good b [] s -> pis s !! t = None -> 0 <= base -> good b [] (new_thread t base intr s).
Proof.
  intros [S I] Hp Hbase. pose proof S as [S1 S2 S3 S4 S5 S6 S7]. assert (threads (ker s) !! t = None) as Ht by (destruct (threads (ker s) !! t) eqn:E; [|done]; destruct (proj1 (S2 t)) as [p ?]; [by eexists | congruence]).
  assert (forall w, qprio (ker (new_thread t base intr s)) w = qprio (ker s) w) as Hq.
  { intros w. unfold qprio. apply maxl_ext. intros x Hx. destruct (waiters_blocked _ _ _ _ S1 Hx) as (_ & th & _ & Hth & _). unfold prio. simpl. rewrite lookup_insert_ne; [done | congruence]. }
  assert (forall x, x <> t -> is_dead x (new_thread t base intr s) = is_dead x s) as Hd by (intros x Hx; unfold is_dead; simpl; by rewrite lookup_insert_ne).
  split; [split|].
  - simpl. apply k_inv_thread; [done|]. by rewrite Ht.
  - intros x. simpl. destruct (decide (x = t)) as [->|Hne]; [rewrite !lookup_insert_eq; split; by eexists | by rewrite !lookup_insert_ne].
  - intros w x. simpl. rewrite S3. destruct (decide (x = t)) as [->|Hne]; [rewrite lookup_insert_eq, Hp; split; [by intros (? & ? & _) | by intros (p0 & [= <-] & ?%not_elem_of_nil)] | by rewrite lookup_insert_ne].
  - intros x p0. simpl. intros [[<- <-]|[_ Hx]]%lookup_insert_Some; [apply NoDup_nil_2 | by apply (S4 x)].
  - intros w x Hw. simpl in Hw. destruct (S5 w x Hw) as [Ha Hs]. split; [|done]. unfold alive. rewrite Hd; [done|]. intros ->. apply S3 in Hw as (p0 & ? & _). congruence.
  - intros x p0. simpl. intros [[<- <-]|[_ Hx]]%lookup_insert_Some; [done | by apply (S6 x)].
  - intros x p0 th0. simpl. intros [[<- <-]|[Hne Hx]]%lookup_insert_Some; [|rewrite lookup_insert_ne by done; by apply (S7 x)]. rewrite lookup_insert_eq. intros [= <-]. rewrite effective_max. simpl. lia.
  - intros Eb x p0. simpl. intros [[<- <-]|[Hne Hx]]%lookup_insert_Some Ha _; [done|]. unfold alive in Ha. rewrite Hd in Ha by done. rewrite (I Eb x p0 Hx Ha ltac:(done)). unfold pressure. symmetry. apply maxl_ext. intros w _. apply Hq.
Qed.

Lemma new_queue_good b w s : good b [] s -> queues (ker s) !! w = None -> good b [] (with_ker (with_queue w (mkWaitQueue 0 []) (ker s)) s).
Proof.
  intros G Hq. pose proof (sh_ker _ _ (proj1 G)) as Ik. apply (good_fixed b []); [done | | |].
  - split; [done|]. intros w' [q Hw']. simpl. rewrite lookup_insert_ne; [by exists q | congruence].
  - split; simpl.
    + intros w' q [[<- <-]|[_ Hw']]%lookup_insert_Some; [|by apply (ki_queue _ _ Ik w')]. simpl. split_and!; [apply gs_ok_nil | apply NoDup_nil_2 | done].
    + intros w' q t [[<- <-]|[_ Hw']]%lookup_insert_Some; [|by apply (ki_member _ _ Ik w')]. simpl. split; [by intros ?%not_elem_of_nil|]. intros (th & Ht & Hb). pose proof (ki_blocked _ _ Ik t th Ht) as H. rewrite Hb in H. destruct H as (_ & [? ?] & _). congruence.
    + intros t th Ht. pose proof (ki_blocked _ _ Ik t th Ht) as H. destruct (blocking_wait_queue th) as [w'|]; [|done]. destruct H as (? & [q ?] & ?). split_and!; try done. rewrite lookup_insert_ne; [by exists q | congruence].
  - intros w'. unfold waiters. simpl. destruct (decide (w = w')) as [<-|Hne]; [by rewrite lookup_insert_eq, Hq | by rewrite lookup_insert_ne].
Qed.

Lemma free_queue_good b w s :
  good b [] s -> waiters w (ker s) = [] -> owners s !! w = None -> good b [] (with_ker (mkKernel (threads (ker s)) (delete w (queues (ker s))) (ready (ker s))) s).
Proof.
  intros [S I] Hw Ho. pose proof S as [S1 S2 S3 S4 S5 S6 S7]. set (k' := mkKernel _ _ _). assert (forall w', waiters w' k' = waiters w' (ker s)) as Hws.
  { intros w'. unfold waiters in *. simpl. destruct (decide (w = w')) as [<-|Hne]; [by rewrite lookup_delete_eq, Hw | by rewrite lookup_delete_ne]. }
  split; [split; simpl; try done|].
  - split; simpl.
    + intros w' q [_ Hq]%lookup_delete_Some. apply (ki_queue _ _ S1 w' q Hq).
    + intros w' q t [_ Hq]%lookup_delete_Some. apply (ki_member _ _ S1 w' q t Hq).
    + intros t th Ht. pose proof (ki_blocked _ _ S1 t th Ht) as H. destruct (blocking_wait_queue th) as [w'|] eqn:Hb; [|done]. destruct H as (? & [q Hq] & ?). split_and!; try done. rewrite lookup_delete_ne; [by exists q|].
      intros <-. assert (t ∈ waiters w (ker s)) as Hin by (unfold waiters; rewrite Hq; apply (ki_member _ _ S1 w q t Hq); by exists th). rewrite Hw in Hin. by apply not_elem_of_nil in Hin.
  - intros w' t Hw'. destruct (S5 w' t Hw') as [Ha Hs]. split; [done|]. rewrite lookup_delete_ne; [done | congruence].
  - intros Eb x p Hx Ha _. rewrite (I Eb x p Hx Ha ltac:(done)). unfold pressure. apply maxl_ext. intros w' _. unfold qprio. by rewrite Hws.
Qed.

Lemma signal_good b t th sig intr s : good b [] s -> threads (ker s) !! t = Some th -> good b [] (with_ker (with_thread t (set_signals sig intr th) (ker s)) s).
Proof.
  intros G Ht. apply (good_fixed b []); [done | | |done].
  - by apply (fixed_insert _ _ t th (set_signals sig intr th)).
  - apply k_inv_thread; [apply G|]. by rewrite Ht.
Qed.

Lemma ostep_good b s s' : ostep b s s' -> good b [] s -> good b [] s'.
Proof.
  intros St G. destruct St as [t base intr s H1 H2 | w s H1 | w s H1 H2 | t th sig intr s H1 | w t deadline now no reason st s s' H1 H2 H3 H4 H5 E | H hook w n h h' s s' H1 H2 E | A B hook1 hook2 w n d m ro h1 h2 h1' h2' s s' H1 H2 H3 H4 H5 H6 E | w no s s' H1 H2 H3 E | t e st s s' E | t n s s' H1 E | t s s' [th [H1 H2]] E].
  - by apply new_thread_good.
  - by apply new_queue_good.
  - by apply free_queue_good.
  - by apply signal_good.
  - destruct (block_owned b w t deadline now no reason s G H1 H2 H3 H4 H5) as (? & ? & E' & G' & _). congruence.
  - pose proof (wake_owned hook b w n h s G H1 H2) as W. destruct (chosen_of hook n (waiters w (ker s)) h) as [[ts o] h0]. destruct W as (? & E' & G' & _). congruence.
  - pose proof (requeue_owned hook1 hook2 b w n d m ro h1 h2 s G H1 H2 H3 H4 H5 H6) as W. destruct (chosen_of hook1 n _ h1) as [[ts o] h0], (chosen_of hook2 m _ h2) as [[ms o'] h0']. destruct W as (? & E' & G' & _). congruence.
  - destruct (assign_owned b w no s G H1 H2 H3) as (? & E' & G' & _). congruence.
  - unfold unblock_thread in E. destruct (threads (ker s) !! t) as [th|] eqn:Ht; [|done]. destruct (unblock_thread_owned b t e s th G Ht) as (? & ? & E' & G' & _). unfold unblock_thread in E'. rewrite Ht in E'. congruence.
  - unfold sched_change_priority in E. destruct (threads (ker s) !! t) as [th|] eqn:Ht; [|done]. destruct (change_priority_owned b t n s th G Ht H1) as (? & E' & G' & _). unfold sched_change_priority in E'. rewrite Ht in E'. congruence.
  - destruct (exit_owned b t s th G H1 H2) as (? & E' & G' & _). congruence.
Qed.

Lemma oreach_good b s : rtc (ostep b) no_threads s -> good b [] s.
Proof.
  intros R. assert (good b [] no_threads) as G by apply no_threads_good. induction R as [|s1 s2 s3 St R IH]; [done|]. apply IH. by apply (ostep_good b s1).
Qed.

(** ** Theorems *)

(** [x] waits in a queue that [t] owns. *)
Definition waits_for (s : State) (x t : Z) : Prop := exists w, x ∈ thread_list w s /\ owner w s = Some t.

Lemma maxl_flat (f : Z -> Z) (g : Z -> list Z) l : maxl (map (fun w => maxl (map f (g w))) l) = maxl (map f (concat (map g l))).
Proof.
  induction l as [|w l IH]; [done|]. simpl. rewrite map_app. change (maxl (?x :: ?l)) with (Z.max x (maxl l)). rewrite IH. generalize (map f (concat (map g l))). intros k.
  induction (map f (g w)) as [|y m IHm]; [pose proof (maxl_low k); unfold maxl in *; simpl; lia|]. change (maxl (y :: m)) with (Z.max y (maxl m)). change (maxl ((y :: m) ++ k)) with (Z.max y (maxl (m ++ k))). lia.
Qed.

Lemma exact_priority s t p :
  good true [] s -> pis s !! t = Some p -> is_dead t s = false -> prio (ker s) t = foldr Z.max (base_priority p) (map (prio (ker s)) (concat (map (fun w => thread_list w s) (owned_wait_queues p)))).
Proof.
  intros [S I] Hp Ha. rewrite (shape_prio [] s t p S Hp), effective_max, (I eq_refl t p Hp Ha ltac:(done)). unfold pressure, qprio. rewrite (maxl_flat (prio (ker s)) (fun w => waiters w (ker s))).
  destruct (sh_low _ _ S t p Hp) as [Hb _]. rewrite foldr_maxl by lia. unfold thread_list, waiters. lia.
Qed.

Lemma waits_for_priority s x t : good true [] s -> waits_for s x t -> prio (ker s) x <= prio (ker s) t.
Proof.
  intros G (w & Hx & Ho). destruct (proj1 (sh_owner _ _ (proj1 G) w t) Ho) as (p & Hp & Hw). destruct (sh_alive _ _ (proj1 G) w t Ho) as [Ha _]. rewrite (exact_priority s t p G Hp Ha).
  destruct (sh_low _ _ (proj1 G) t p Hp) as [Hb _]. rewrite foldr_maxl by lia. transitivity (maxl (map (prio (ker s)) (concat (map (fun w => thread_list w s) (owned_wait_queues p))))); [|lia].
  apply maxl_ge, list_elem_of_fmap_2. apply list_elem_of_In, in_concat. exists (thread_list w s). split; [apply (in_map (fun w => thread_list w s)); by apply list_elem_of_In | by apply list_elem_of_In].
Qed.


(** C33: Whatever the owners wait for: the owner of a queue and the lists of owned queues
    agree, owners are alive, a thread in a queue is blocked on it, and a thread runs at
    the higher of its own and its inherited priority. *)
Theorem owned_queues_consistent s :
  rtc (ostep false) no_threads s ->
  (forall w t, owner w s = Some t <-> exists p, pis s !! t = Some p /\ w ∈ owned_wait_queues p) /\
  (forall w t, owner w s = Some t -> is_dead t s = false /\ is_Some (threads (ker s) !! t) /\ is_Some (queues (ker s) !! w)) /\
  (forall w t, t ∈ thread_list w s <-> is_Some (queues (ker s) !! w) /\ exists th, threads (ker s) !! t = Some th /\ blocking_wait_queue th = Some w) /\
  (forall w, blocked_priority w s = foldr Z.max (-1) (map (prio (ker s)) (thread_list w s))) /\
  (forall t p th, pis s !! t = Some p -> threads (ker s) !! t = Some th -> effec_priority th = Z.max (inherited_priority p) (base_priority p)).
Proof.
  intros R. destruct (oreach_good false s R) as [S _]. split_and!.
  - apply (sh_owner _ _ S).
  - intros w t Ho. destruct (sh_alive _ _ S w t Ho) as [Ha Hq]. apply (sh_owner _ _ S) in Ho as (p & Hp & _). split_and!; [done | | done]. apply (sh_dom _ _ S). by exists p.
  - intros w t. unfold thread_list. destruct (queues (ker s) !! w) as [q|] eqn:Hq.
    + rewrite (ki_member _ _ (sh_ker _ _ S) w q t Hq). by split; [intros H; split; [by exists q|] | intros [_ ?]].
    + split; [by intros ?%not_elem_of_nil | by intros [[? ?] _]].
  - intros w. apply (blocked_priority_qprio [] s w S).
  - intros t p th Hp Ht. rewrite <- effective_max. by apply (sh_eff _ _ S t).
Qed.


(** C25: [WakeAndRequeue] loses no thread: of the threads of the queue, in the order of their
    priority, it wakes those the first hook selects, moves those of the rest that the
    second hook selects behind the other queue's owner, and leaves all others as they
    are. *)
Theorem wake_and_requeue_conserves {H1 H2} (hook1 : Z -> H1 -> Action * H1) (hook2 : Z -> H2 -> Action * H2) s w n d m o h1 h2 :
  rtc (ostep false) no_threads s -> w <> d -> is_Some (queues (ker s) !! w) -> is_Some (queues (ker s) !! d) -> known o s -> (forall x h, (hook2 x h).1 <> SelectAndAssignOwner) ->
  let '(ts, heir, h1') := chosen_of hook1 n (thread_list w s) h1 in
  let rest := filter (fun x => x ∉ ts) (thread_list w s) in
  let '(ms, _, h2') := chosen_of hook2 m rest h2 in
  exists s', WakeAndRequeue false hook1 hook2 w n d m o h1 h2 s = Some (h1', h2', s') /\
    thread_list w s' ≡ₚ filter (fun x => x ∉ ms) rest /\ thread_list d s' ≡ₚ ms ++ thread_list d s /\ (forall w', w' <> w -> w' <> d -> thread_list w' s' ≡ₚ thread_list w' s) /\
    (forall x, sees s' x = (if decide (x ∈ ts) then awake else if decide (x ∈ ms) then at_queue d else id) <$> sees s x) /\
    owner w s' = (if bool_decide (rest = []) then None else heir) /\ owner d s' = (if bool_decide (ms ++ thread_list d s = []) then None else living o s).
Proof.
  intros R Hwd Hq Hd Ho Hok. pose proof (oreach_good false s R) as G. pose proof (requeue_owned hook1 hook2 false w n d m o h1 h2 s G Hwd Hq Hd Hok Ho ltac:(done)) as W. change (thread_list ?x ?y) with (waiters x (ker y)).
  destruct (chosen_of hook1 n _ h1) as [[ts o1] h1']. cbv zeta. destruct (chosen_of hook2 m _ h2) as [[ms o2] h2']. destruct W as (s' & E & G' & [Q1 Q2 Q3 Q4 Q5 Q6 Q7 Q8] & _ & Eo). exists s'. unfold owner. rewrite Eo. split_and!; try done.
  - rewrite Q3, list_filter_filter. apply reflexive_eq, list_filter_iff. intros x. tauto.
  - destruct (if bool_decide (ms ++ waiters d (ker s) = []) then None else living o s) as [x|]; simpl; [rewrite lookup_insert_ne by done | rewrite lookup_delete_ne by done]; (destruct (if bool_decide (_ = []) then None else o1) as [y|]; [apply lookup_insert_eq | apply lookup_delete_eq]).
  - destruct (if bool_decide (ms ++ waiters d (ker s) = []) then None else living o s) as [x|]; [apply lookup_insert_eq | apply lookup_delete_eq].
Qed.

(** ** Examples *)

Definition threads_and_queues (l : list (Z * Z)) (ws : list Z) : State :=
  foldr (fun w s => with_ker (with_queue w (mkWaitQueue 0 []) (ker s)) s) (foldr (fun e s => new_thread e.1 e.2 false s) no_threads l) ws.

Section Runs.
Context (debug : bool).
Definition block (w t : Z) (o : option Z) (s : State) : option State := '(_, s) ← BlockAndAssignOwner debug w t ZX_TIME_INFINITE 0 o Normal s; Some s.
Definition wake (a : Action) (w n : Z) (s : State) : option State := '(_, s) ← WakeThreads debug (fun _ (h : unit) => (a, h)) w n tt s; Some s.
Definition timeout (t : Z) (s : State) : option State := '(_, s) ← unblock_thread debug t ZX_ERR_TIMED_OUT s; Some s.
Definition requeue (a : Action) (w n d m : Z) (o : option Z) (s : State) : option State :=
  '(_, _, s) ← WakeAndRequeue debug (fun _ (h : unit) => (a, h)) (fun _ (h : unit) => (SelectAndKeepGoing, h)) w n d m o tt tt s; Some s.
End Runs.

Definition run (s : State) (l : list (State -> option State)) : option State := foldl (fun o f => o ≫= f) (Some s) l.

Definition priorities (s : State) (l : list Z) : list Z := map (prio (ker s)) l.

(** Thread 3 waits for 2, which waits for 1. *)
Definition chain0 : State := threads_and_queues [(1, 5); (2, 10); (3, 20)] [100; 200].
Definition chain1 : State := default chain0 (block false 100 2 (Some 1) chain0).
Definition chain2 : State := default chain0 (block false 200 3 (Some 2) chain1).

Lemma threads_and_queues_reach b l ws : NoDup (map fst l) -> Forall (fun e => 0 <= e.2) l -> NoDup ws -> rtc (ostep b) no_threads (threads_and_queues l ws).
Proof.
  intros Hl Hp Hw. unfold threads_and_queues. set (s0 := foldr _ _ l).
  assert (rtc (ostep b) no_threads s0 /\ queues (ker s0) = ∅ /\ forall t, t ∉ map fst l -> pis s0 !! t = None) as (R & Hq & _).
  { unfold s0. clear s0. induction l as [|[t p] l IH]; simpl; [by split_and!|]. apply NoDup_cons in Hl as [Hn Hl]. apply Forall_cons in Hp as [Hp1 Hp]. destruct (IH Hl Hp) as (R & Hq & Hno). split_and!; [|done|].
    - eapply rtc_r; [exact R|]. apply o_thread; [by apply Hno | done].
    - intros x [H1 H2]%not_elem_of_cons. rewrite lookup_insert_ne by done. by apply Hno. }
  clearbody s0. set (f := foldr _ s0). assert (rtc (ostep b) no_threads (f ws) /\ forall w, w ∉ ws -> queues (ker (f ws)) !! w = None) as [R' _]; [|done]. unfold f. clear f.
  induction ws as [|w ws IH]; simpl; [split; [done|]; intros w _; by rewrite Hq|]. apply NoDup_cons in Hw as [Hn Hw]. destruct (IH Hw) as [R' Hno]. split.
  - eapply rtc_r; [exact R'|]. apply o_queue. by apply Hno.
  - intros x [H1 H2]%not_elem_of_cons. rewrite lookup_insert_ne by done. by apply Hno.
Qed.

Lemma chain0_reach b : rtc (ostep b) no_threads chain0.
Proof. apply threads_and_queues_reach; by apply (bool_decide_unpack _); vm_compute. Qed.

Lemma chain_reach b : rtc (ostep b) no_threads chain2.
Proof.
  eapply rtc_r; [eapply rtc_r; [apply chain0_reach|]|].
  - apply (o_block b 100 2 ZX_TIME_INFINITE 0 (Some 1) Normal ZX_OK chain0 chain1); try (by vm_compute); [by eexists | by exists (mkThread THREAD_READY 10 0 false ZX_OK None) | by intros x [= <-]; eexists].
  - apply (o_block b 200 3 ZX_TIME_INFINITE 0 (Some 2) Normal ZX_OK chain1 chain2); try (by vm_compute); [by eexists | by exists (mkThread THREAD_READY 20 0 false ZX_OK None) | by intros x [= <-]; eexists].
Qed.


Lemma owned_queues_consistent_witness : owner 100 chain2 = Some 1 <-> exists p, pis chain2 !! 1 = Some p /\ 100 ∈ owned_wait_queues p.
Proof. exact (proj1 (owned_queues_consistent chain2 (chain_reach false)) 100 1). Defined.


Lemma wake_and_requeue_conserves_witness :
  exists s', WakeAndRequeue false (fun _ (h : unit) => (SelectAndKeepGoing, h)) (fun _ (h : unit) => (SelectAndKeepGoing, h)) 100 0 200 1 None tt tt chain2 = Some (tt, tt, s') /\ thread_list 200 s' ≡ₚ [2; 3].
Proof.
  pose proof (wake_and_requeue_conserves (fun _ (h : unit) => (SelectAndKeepGoing, h)) (fun _ (h : unit) => (SelectAndKeepGoing, h)) chain2 100 0 200 1 None tt tt (chain_reach false)) as H.
  destruct H as (s' & E & _ & Hd & _); [done | by eexists | by eexists | by intros x ? | done|]. exists s'. split; [exact E|]. rewrite Hd. reflexivity.
Defined.

(** ** Where priorities go wrong *)

(** Thread 1 owns two queues.  When the most urgent waiter of one times out, the
    assertion of debug builds that no owned queue has less pressure than what is left
    of that one fails. *)
Definition two_queues : option State :=
  run (threads_and_queues [(1, 5); (2, 10); (3, 20); (4, 15)] [100; 200]) [block true 100 3 (Some 1); block true 100 4 (Some 1); block true 200 2 (Some 1)].

Example pressure_assertion_fails : is_Some two_queues /\ (two_queues ≫= timeout true 3) = None /\ (fun s => priorities s [1]) <$> (two_queues ≫= timeout false 3) = Some [15].
Proof. split; [by eexists|]. by vm_compute. Qed.

(** Threads 1 and 2 wait for each other; a third one had raised both and has gone.
    When the queue of the first is given to thread 4, it inherits the priority of 2
    from before that is lowered, and keeps it. *)
Example stale_priority_inherited :
  (fun s => (thread_list 100 s, owner 100 s, priorities s [1; 2; 4])) <$>
  run (threads_and_queues [(1, 5); (2, 6); (3, 20); (4, 1)] [100; 200]) [block false 100 2 (Some 1); block false 200 1 (Some 2); block false 100 3 (Some 1); timeout false 3; AssignOwner false 100 (Some 4)] =
  Some ([2], Some 4, [5; 6; 20]).
Proof. by vm_compute. Qed.

(** Thread 1 owns both queues of a requeue that leaves it none; it keeps the priority
    of the thread that was moved, and in debug builds an assertion fails. *)
Definition both_queues (debug : bool) : option State :=
  run (threads_and_queues [(1, 5); (2, 6); (3, 20); (4, 3)] [100; 200]) [block debug 100 3 (Some 1); block debug 200 4 (Some 1)].

Example requeue_keeps_priority :
  (fun s => (option_map owned_wait_queues (pis s !! 1), priorities s [1])) <$> (both_queues false ≫= requeue false SelectAndKeepGoing 100 0 200 1 (Some 2)) = Some (Some [], [20]) /\
  is_Some (both_queues true) /\ (both_queues true ≫= requeue true SelectAndKeepGoing 100 0 200 1 (Some 2)) = None.
Proof. split; [by vm_compute|]. split; [by eexists | by vm_compute]. Qed.

(** The queue that is left empty by a requeue has an owner if one of its threads was
    woken to own it. *)
Example requeue_owns_empty :
  (fun s => (thread_list 100 s, owner 100 s)) <$> run (threads_and_queues [(1, 5); (2, 6); (3, 20)] [100; 200]) [block true 100 2 None; block true 100 3 None; requeue true SelectAndAssignOwner 100 1 200 1 None] = Some ([], Some 3).
Proof. by vm_compute. Qed.
