(* ===== verification/Futex.v ===== *)
(** * Futexes

    [object/futex_context.cc] with [object/include/object/futex_context.h]: the futexes
    of one process over owned wait queues.  A system call is cut where it takes a lock:
    the pool lock, the mutex of a [FutexState], the thread lock; a state of the model is
    between two critical sections, and the program counter of a thread holds its local
    variables.  [None] is a failed assertion or the use of a state that is not there.
    Threads, and the [FutexState]s that are their wait queues at the same time, are named
    by their addresses. *)

From S2P Require Import Prelude Zx WaitQueue OwnedWaitQueue.
Import WaitQueue OwnedWaitQueue.

Module Futex.

Notation "'ASSERT' b ; k" := (if (b : bool) then k else None) (at level 10, b at level 100, k at level 200, only parsing).

Inductive OwnerAction := RELEASE | ASSIGN_WOKEN.

Record FutexState := mkFutexState {
  id_ : Z;
  pending_operation_count_ : Z;
}.

(** What [DeferredFutexOwnerValidator] has found: its [status_] and [dispatcher_]. *)
Record Validator := mkValidator {
  status_ : zx_status_t;
  dispatcher_ : option Z;
}.

(** The local variables of [FutexWait]. *)
Record WaitArgs := mkWait {
  futex_id : Z;
  futex_ref : Z;
  current_value : Z;
  owner_validator : Validator;
  deadline : Z;
}.

(** The local variables of [FutexRequeue]. *)
Record RequeueArgs := mkRequeue {
  wake_id : Z;
  wake_futex_ref : Z;
  requeue_id : Z;
  requeue_futex_ref : Z;
  requeue_value : Z;
  wake_count : Z;
  owner_action : OwnerAction;
  requeue_count : Z;
  requeue_validator : Validator;
}.

Inductive Pc :=
| Idle
| Waiting_lock (x : WaitArgs)                        (* before the mutex of the state *)
| Waiting_value (x : WaitArgs)                       (* before [copy_from_user] *)
| Waiting_owner (x : WaitArgs)                       (* before the checks of the owner *)
| Waiting_block (x : WaitArgs) (o : option Z)        (* before the thread lock *)
| Sleeping                                           (* in [BlockAndAssignOwner] *)
| Woken (result : zx_status_t)                       (* before [FindActiveFutex] *)
| Clearing (a p : Z) (result : zx_status_t)          (* before the thread lock *)
| Waking (a p count : Z) (action : OwnerAction)      (* before the mutex of the state *)
| Asking (a p : Z)                                   (* [FutexGetOwner] before the thread lock *)
| Requeue_lock (x : RequeueArgs)
| Requeue_value (x : RequeueArgs)
| Requeue_owner (x : RequeueArgs)
| Requeue_move (x : RequeueArgs) (o : option Z)
| Releasing (l : list (Z * Z * Z)) (result : zx_status_t) (* references to be released, with their futex *)
| Exited
| Gone.

Record uthread := mkUser {
  blocking_futex_id_ : Z;
  pc : Pc;
}.

Record State := mkState {
  ow : OwnedWaitQueue.State;
  fx : gmap Z FutexState;
  active_futexes_ : gmap Z Z;
  free_futexes_ : list Z;
  locks : gmap Z Z;
  users : gmap Z uthread;
  mem : gmap Z Z;
}.

Definition with_ow (w : OwnedWaitQueue.State) (s : State) : State := mkState w (fx s) (active_futexes_ s) (free_futexes_ s) (locks s) (users s) (mem s).
Definition with_fx (f : gmap Z FutexState) (s : State) : State := mkState (ow s) f (active_futexes_ s) (free_futexes_ s) (locks s) (users s) (mem s).
Definition with_pool (f : gmap Z FutexState) (a : gmap Z Z) (l : list Z) (s : State) : State := mkState (ow s) f a l (locks s) (users s) (mem s).
Definition with_locks (l : gmap Z Z) (s : State) : State := mkState (ow s) (fx s) (active_futexes_ s) (free_futexes_ s) l (users s) (mem s).
Definition with_users (u : gmap Z uthread) (s : State) : State := mkState (ow s) (fx s) (active_futexes_ s) (free_futexes_ s) (locks s) u (mem s).
Definition with_mem (m : gmap Z Z) (s : State) : State := mkState (ow s) (fx s) (active_futexes_ s) (free_futexes_ s) (locks s) (users s) m.

Definition set_count (n : Z) (f : FutexState) : FutexState := mkFutexState (id_ f) n.
Definition goto (t : Z) (c : Pc) (s : State) : State := with_users (alter (fun u => mkUser (blocking_futex_id_ u) c) t (users s)) s.
Definition set_id (t a : Z) (us : gmap Z uthread) : gmap Z uthread := alter (fun u => mkUser a (pc u)) t us.
Definition lock (t p : Z) (s : State) : State := with_locks (<[p := t]> (locks s)) s.
Definition unlock (p : Z) (s : State) : State := with_locks (delete p (locks s)) s.

(** ** The pool *)

Definition FindActiveFutexLocked (a : Z) (s : State) : option (option Z * State) :=
  match active_futexes_ s !! a with
  | None => Some (None, s)
  | Some p =>
      f ← fx s !! p;
      ASSERT (pending_operation_count_ f >? 0);
      Some (Some p, with_fx (<[p := set_count (pending_operation_count_ f + 1) f]> (fx s)) s)
  end.

Definition ActivateFutexLocked (a : Z) (s : State) : option (Z * State) :=
  '(r, s) ← FindActiveFutexLocked a s;
  match r with
  | Some p => Some (p, s)
  | None =>
      match free_futexes_ s with
      | [] => None
      | p :: l =>
          f ← fx s !! p;
          ASSERT (id_ f =? 0);
          ASSERT (pending_operation_count_ f =? 0);
          ASSERT (bool_decide (owner p (ow s) = None));
          Some (p, with_pool (<[p := mkFutexState a (pending_operation_count_ f + 1)]> (fx s)) (<[a := p]> (active_futexes_ s)) l s)
      end
  end.

(** [PendingOpRef::Release] of [release_count] references. *)
Definition Release (p release_count : Z) (s : State) : option State :=
  f ← fx s !! p;
  ASSERT (negb (id_ f =? 0));
  ASSERT (pending_operation_count_ f >=? release_count);
  let n := pending_operation_count_ f - release_count in
  if n =? 0 then
    ASSERT (bool_decide (owner p (ow s) = None));
    Some (with_pool (<[p := mkFutexState 0 n]> (fx s)) (delete (id_ f) (active_futexes_ s)) (p :: free_futexes_ s) s)
  else Some (with_fx (<[p := set_count n f]> (fx s)) s).

(** [p] takes [count] references from [other]. *)
Definition TakeRefs (p other count : Z) (s : State) : option State :=
  f ← fx s !! p;
  g ← fx s !! other;
  ASSERT (pending_operation_count_ f >? 0);
  ASSERT (pending_operation_count_ g >? count);
  let m := <[p := set_count (pending_operation_count_ f + count) f]> (fx s) in
  g ← m !! other;
  Some (with_fx (<[other := set_count (pending_operation_count_ g - count) g]> m) s).

Definition new_queue (p : Z) (w : OwnedWaitQueue.State) : OwnedWaitQueue.State := with_ker (with_queue p (mkWaitQueue 0 []) (ker w)) w.

(** Two fresh states, and the thread they are for. *)
Definition GrowFutexStatePool (p1 p2 : Z) (s : State) : State :=
  with_ow (new_queue p2 (new_queue p1 (ow s)))
    (with_pool (<[p2 := mkFutexState 0 0]> (<[p1 := mkFutexState 0 0]> (fx s))) (active_futexes_ s) (p2 :: p1 :: free_futexes_ s) s).

(** The destructors of a [FutexState] and its wait queue. *)
Definition destroy (p : Z) (s : State) : option State :=
  ASSERT (bool_decide (owner p (ow s) = None));
  ASSERT (IsEmpty p (ow s));
  Some (with_ow (with_ker (mkKernel (threads (ker (ow s))) (delete p (queues (ker (ow s)))) (ready (ker (ow s)))) (ow s)) (with_fx (delete p (fx s)) s)).

Definition ShrinkFutexStatePool (s : State) : option State :=
  match free_futexes_ s with
  | p1 :: p2 :: l => s ← destroy p2 (with_pool (fx s) (active_futexes_ s) l s); destroy p1 s
  | _ => None
  end.

(** The destructor of the context, when all threads are gone. *)
Definition FutexContext_destroy (s : State) : option unit :=
  ASSERT (bool_decide (active_futexes_ s = ∅));
  ASSERT (bool_decide (free_futexes_ s = []));
  Some ().

(** ** Hooks *)

(** The context of both is the list of the threads they were called for, whose length is
    [count]; their [blocking_futex_id_] is set when the wait queue has dealt with all of
    them, still under the thread lock. *)
Definition ResetBlockingFutexId (action : Action) (t : Z) (h : list Z) : Action * list Z := (action, h ++ [t]).
Definition SetBlockingFutexId (action : Action) (t : Z) (h : list Z) : Action * list Z := (action, h ++ [t]).
Definition set_ids (a : Z) (l : list Z) (us : gmap Z uthread) : gmap Z uthread := foldr (fun t us => set_id t a us) us l.

Definition wake_hook (a : OwnerAction) : Z -> list Z -> Action * list Z :=
  ResetBlockingFutexId (match a with RELEASE => SelectAndKeepGoing | ASSIGN_WOKEN => SelectAndAssignOwner end).

(** ** Calls *)

Definition sizeof_futex : Z := 4.
Definition ValidateFutexPointer (value_ptr : Z) : zx_status_t := if (value_ptr =? 0) || negb (value_ptr mod sizeof_futex =? 0) then ZX_ERR_INVALID_ARGS else ZX_OK.

(** From the result of looking up the handle, if there is one, and what is known of the
    thread. *)
Definition DeferredFutexOwnerValidator (handle : Z) (lookup : zx_status_t * option Z) (same_process started dying : bool) : Validator :=
  if handle =? 0 then mkValidator ZX_OK None
  else if negb (bool_decide (lookup.1 = ZX_OK)) then mkValidator lookup.1 None
  else if negb same_process || negb started then mkValidator ZX_ERR_INVALID_ARGS None
  else mkValidator ZX_OK (if dying then None else lookup.2).

Inductive Call :=
| CallWait (value_ptr current_value : Z) (v : Validator) (deadline : Z)
| CallWake (value_ptr count : Z) (action : OwnerAction)
| CallRequeue (wake_ptr count value : Z) (action : OwnerAction) (requeue_ptr requeue_count : Z) (v : Validator)
| CallGetOwner (value_ptr : Z).

(** The calls up to their first critical section; one that returns right there is at
    [Releasing []] with its status. *)
Definition returns (t : Z) (result : zx_status_t) (s : State) : option State := Some (goto t (Releasing [] result) s).

Definition FutexWait (t a value : Z) (v : Validator) (d : Z) (s : State) : option State :=
  if negb (bool_decide (ValidateFutexPointer a = ZX_OK)) then returns t (ValidateFutexPointer a) s
  else '(p, s) ← ActivateFutexLocked a s; Some (goto t (Waiting_lock (mkWait a p value v d)) s).

Definition FutexWake (t a n : Z) (action : OwnerAction) (s : State) : option State :=
  if negb (bool_decide (ValidateFutexPointer a = ZX_OK)) then returns t (ValidateFutexPointer a) s
  else '(r, s) ← FindActiveFutexLocked a s;
    match r with None => returns t ZX_OK s | Some p => Some (goto t (Waking a p n action) s) end.

Definition FutexRequeue (t a n value : Z) (action : OwnerAction) (b m : Z) (v : Validator) (s : State) : option State :=
  if negb (bool_decide (ValidateFutexPointer a = ZX_OK)) then returns t (ValidateFutexPointer a) s
  else if negb (bool_decide (ValidateFutexPointer b = ZX_OK)) then returns t (ValidateFutexPointer b) s
  else if a =? b then returns t ZX_ERR_INVALID_ARGS s
  else
    '(p, s) ← ActivateFutexLocked a s;
    '(q, s) ← ActivateFutexLocked b s;
    Some (goto t (Requeue_lock (mkRequeue a p b q value n action m v)) s).

Definition FutexGetOwner (t a : Z) (s : State) : option State :=
  if negb (bool_decide (ValidateFutexPointer a = ZX_OK)) then returns t (ValidateFutexPointer a) s
  else '(r, s) ← FindActiveFutexLocked a s;
    match r with None => returns t ZX_OK s | Some p => Some (goto t (Asking a p) s) end.

Definition call (t : Z) (c : Call) (s : State) : option State :=
  match c with
  | CallWait a value v d => FutexWait t a value v d s
  | CallWake a n action => FutexWake t a n action s
  | CallRequeue a n value action b m v => FutexRequeue t a n value action b m v s
  | CallGetOwner a => FutexGetOwner t a s
  end.

(** The system calls. *)
Definition sys_futex_wait (value_ptr current_value : Z) (v : Validator) (deadline : Z) : Call := CallWait value_ptr current_value v deadline.
Definition sys_futex_wake (value_ptr count : Z) : Call := CallWake value_ptr count RELEASE.
Definition sys_futex_wake_single_owner (value_ptr : Z) : Call := CallWake value_ptr 1 ASSIGN_WOKEN.
Definition sys_futex_requeue (wake_ptr count value requeue_ptr requeue_count : Z) (v : Validator) : Call := CallRequeue wake_ptr count value RELEASE requeue_ptr requeue_count v.
Definition sys_futex_requeue_single_owner (wake_ptr value requeue_ptr requeue_count : Z) (v : Validator) : Call := CallRequeue wake_ptr 1 value ASSIGN_WOKEN requeue_ptr requeue_count v.
Definition sys_futex_get_owner (value_ptr : Z) : Call := CallGetOwner value_ptr.

(** ** What a thread does next *)

Definition copy_from_user (a : Z) (s : State) : zx_status_t * Z := match mem s !! a with Some v => (ZX_OK, v) | None => (ZX_ERR_INVALID_ARGS, 0) end.

(** The critical section of the mutex ends with an error. *)
Definition wait_fails (t : Z) (x : WaitArgs) (e : zx_status_t) (s : State) : State := goto t (Releasing [(futex_id x, futex_ref x, 1)] e) (unlock (futex_ref x) s).

Definition wait_value (t : Z) (x : WaitArgs) (s : State) : State :=
  let '(result, value) := copy_from_user (futex_id x) s in
  if negb (bool_decide (result = ZX_OK)) then wait_fails t x result s
  else if negb (value =? current_value x) then wait_fails t x ZX_ERR_BAD_STATE s
  else goto t (Waiting_owner x) s.

Definition blocked_id (o : Z) (s : State) : option Z := blocking_futex_id_ <$> users s !! o.

Definition wait_owner (t : Z) (x : WaitArgs) (s : State) : option State :=
  let v := owner_validator x in
  if negb (bool_decide (status_ v = ZX_OK)) then Some (wait_fails t x (status_ v) s)
  else
    bad ← match dispatcher_ v with
          | Some o => if o =? t then Some true else id ← blocked_id o s; Some (id =? futex_id x)
          | None => Some false
          end;
    if (bad : bool) then Some (wait_fails t x ZX_ERR_INVALID_ARGS s)
    else Some (with_users (<[t := mkUser (futex_id x) (Waiting_block x (dispatcher_ v))]> (users s)) s).

Definition set_interruptable (b : bool) (t : Z) (w : OwnedWaitQueue.State) : option OwnedWaitQueue.State :=
  th ← threads (ker w) !! t;
  Some (with_ker (with_thread t (mkThread (WaitQueue.state th) (effec_priority th) (signals th) b (blocked_status th) (blocking_wait_queue th)) (ker w)) w).

(** The mutex is exchanged for the thread lock; if the thread does not block it is back
    at once. *)
Definition wait_block (t now : Z) (x : WaitArgs) (o : option Z) (s : State) : option State :=
  w ← set_interruptable true t (ow s);
  '(result, w) ← BlockAndAssignOwner false (futex_ref x) t (deadline x) now o Normal w;
  if bool_decide (result = ZX_OK) then Some (goto t Sleeping (unlock (futex_ref x) (with_ow w s)))
  else w ← set_interruptable false t w; Some (goto t (Woken result) (unlock (futex_ref x) (with_ow w s))).

(** The thread runs again. *)
Definition wait_resume (t : Z) (s : State) : option State :=
  th ← threads (ker (ow s)) !! t;
  w ← set_interruptable false t (ow s);
  id ← blocked_id t s;
  if bool_decide (blocked_status th = ZX_OK) then ASSERT (id =? 0); Some (goto t (Releasing [] ZX_OK) (with_ow w s))
  else Some (goto t (Woken (blocked_status th)) (with_ow w s)).

(** The lookup and the reset of the id, which no other thread can tell apart. *)
Definition wait_find (t : Z) (result : zx_status_t) (s : State) : option State :=
  id ← blocked_id t s;
  ASSERT (negb (id =? 0));
  '(r, s) ← FindActiveFutexLocked id s;
  p ← r;
  Some (goto t (Clearing id p result) (with_users (set_id t 0 (users s)) s)).

Definition wait_clear (t a p : Z) (result : zx_status_t) (s : State) : option State :=
  w ← (if IsEmpty p (ow s) then AssignOwner false p None (ow s) else Some (ow s));
  Some (goto t (Releasing [(a, p, 2)] result) (with_ow w s)).

(** The mutex and the thread lock. *)
Definition wake (t a p n : Z) (action : OwnerAction) (s : State) : option State :=
  '(woken, w) ← WakeThreads false (wake_hook action) p n [] (ow s);
  ASSERT (match action with RELEASE => bool_decide (owner p w = None) | ASSIGN_WOKEN => negb (IsEmpty p w) || bool_decide (owner p w = None) end);
  Some (goto t (Releasing [(a, p, 1 + zlen woken)] ZX_OK) (with_users (set_ids 0 woken (users s)) (with_ow w s))).

Definition requeue_fails (t : Z) (x : RequeueArgs) (e : zx_status_t) (s : State) : State :=
  goto t (Releasing [(requeue_id x, requeue_futex_ref x, 1); (wake_id x, wake_futex_ref x, 1)] e) (unlock (requeue_futex_ref x) (unlock (wake_futex_ref x) s)).

Definition requeue_value_step (t : Z) (x : RequeueArgs) (s : State) : State :=
  let '(result, value) := copy_from_user (wake_id x) s in
  if negb (bool_decide (result = ZX_OK)) then requeue_fails t x result s
  else if negb (value =? requeue_value x) then requeue_fails t x ZX_ERR_BAD_STATE s
  else goto t (Requeue_owner x) s.

Definition requeue_owner_step (t : Z) (x : RequeueArgs) (s : State) : option State :=
  let v := requeue_validator x in
  if negb (bool_decide (status_ v = ZX_OK)) then Some (requeue_fails t x (status_ v) s)
  else
    bad ← match dispatcher_ v with Some o => id ← blocked_id o s; Some ((id =? wake_id x) || (id =? requeue_id x)) | None => Some false end;
    if (bad : bool) then Some (requeue_fails t x ZX_ERR_INVALID_ARGS s) else Some (goto t (Requeue_move x (dispatcher_ v)) s).

Definition requeue_move (t : Z) (x : RequeueArgs) (o : option Z) (s : State) : option State :=
  let w := wake_futex_ref x in
  let r := requeue_futex_ref x in
  '(woken, moved, q) ←
    (if negb (requeue_count x =? 0) then
       WakeAndRequeue false (wake_hook (owner_action x)) (SetBlockingFutexId SelectAndKeepGoing) w (wake_count x) r (requeue_count x) o [] [] (ow s)
     else
       '(woken, q) ← WakeThreads false (wake_hook (owner_action x)) w (wake_count x) [] (ow s);
       q ← AssignOwner false r (if IsEmpty r q then None else o) q;
       Some (woken, [], q));
  let us := set_ids (requeue_id x) moved (set_ids 0 woken (users s)) in
  s ← TakeRefs r w (zlen moved) (with_users us (with_ow q s));
  Some (goto t (Releasing [(requeue_id x, r, 1); (wake_id x, w, 1 + zlen woken)] ZX_OK) (unlock r (unlock w s))).

(** [FutexGetOwner] under the thread lock: the thread whose koid it returns. *)
Definition ask (t a p : Z) (s : State) : option Z * State := (owner p (ow s), goto t (Releasing [(a, p, 1)] ZX_OK) s).

(** A step of the thread [t], at time [now]. *)
Definition run (t now : Z) (s : State) : option State :=
  u ← users s !! t;
  match pc u with
  | Idle | Exited | Gone => Some s
  | Waiting_lock x => ASSERT (blocking_futex_id_ u =? 0); Some (goto t (Waiting_value x) (lock t (futex_ref x) s))
  | Waiting_value x => Some (wait_value t x s)
  | Waiting_owner x => wait_owner t x s
  | Waiting_block x o => wait_block t now x o s
  | Sleeping => wait_resume t s
  | Woken result => wait_find t result s
  | Clearing a p result => wait_clear t a p result s
  | Waking a p n action => wake t a p n action s
  | Asking a p => Some (ask t a p s).2
  | Requeue_lock x => Some (goto t (Requeue_value x) (lock t (requeue_futex_ref x) (lock t (wake_futex_ref x) s)))
  | Requeue_value x => Some (requeue_value_step t x s)
  | Requeue_owner x => requeue_owner_step t x s
  | Requeue_move x o => requeue_move t x o s
  | Releasing [] _ => Some (goto t Idle s)
  | Releasing ((a, p, n) :: l) result => s ← Release p n s; Some (goto t (Releasing l result) s)
  end.

(** When it can be taken. *)
Definition free_lock (p : Z) (s : State) : bool := bool_decide (locks s !! p = None).
Definition can_run (t : Z) (s : State) : bool :=
  match users s !! t with
  | None => false
  | Some u =>
      match pc u with
      | Idle | Exited | Gone => false
      | Waiting_lock x => free_lock (futex_ref x) s
      | Waking _ p _ _ => free_lock p s
      | Requeue_lock x => free_lock (wake_futex_ref x) s && free_lock (requeue_futex_ref x) s
      | Sleeping => match threads (ker (ow s)) !! t with Some th => bool_decide (blocking_wait_queue th = None) | None => true end
      | _ => true
      end
  end.

End Futex.
