(* ===== verification/FutexFacts.v ===== *)
(** * Futexes: references and the pool

    The references that each thread holds to futexes, their sum, and what the operations
    on the pool do to the counts. *)

From S2P Require Import Prelude Zx WaitQueue OwnedWaitQueue Futex.
Import WaitQueue OwnedWaitQueue Futex.

(** ** References *)

Definition one (a b : Z) : Z := if decide (a = b) then 1 else 0.

Definition listed (a : Z) (l : list (Z * Z * Z)) : Z := foldr (fun e n => one a e.1.1 * e.2 + n) 0 l.

(** How many references to the futex [a] a thread answers for. *)
Definition held (u : uthread) (a : Z) : Z :=
  match pc u with
  | Waiting_lock x | Waiting_value x | Waiting_owner x | Waiting_block x _ => one a (futex_id x)
  | Sleeping | Woken _ => one a (blocking_futex_id_ u)
  | Clearing b _ _ => 2 * one a b
  | Waking b _ _ _ | Asking b _ => one a b
  | Requeue_lock x | Requeue_value x | Requeue_owner x | Requeue_move x _ => one a (wake_id x) + one a (requeue_id x)
  | Releasing l _ => listed a l
  | Idle | Exited | Gone => 0
  end.

(** The states that it refers to. *)
Definition refs (c : Pc) : list (Z * Z) :=
  match c with
  | Waiting_lock x | Waiting_value x | Waiting_owner x | Waiting_block x _ => [(futex_id x, futex_ref x)]
  | Clearing a p _ | Waking a p _ _ | Asking a p => [(a, p)]
  | Requeue_lock x | Requeue_value x | Requeue_owner x | Requeue_move x _ => [(wake_id x, wake_futex_ref x); (requeue_id x, requeue_futex_ref x)]
  | Releasing l _ => map fst l
  | Idle | Sleeping | Woken _ | Exited | Gone => []
  end.

(** The mutexes that it holds. *)
Definition holds (c : Pc) : list Z :=
  match c with
  | Waiting_value x | Waiting_owner x | Waiting_block x _ => [futex_ref x]
  | Requeue_value x | Requeue_owner x | Requeue_move x _ => [wake_futex_ref x; requeue_futex_ref x]
  | _ => []
  end.

Definition requeue_ok (x : RequeueArgs) : Prop := wake_id x <> requeue_id x /\ 0 <= wake_count x /\ 0 <= requeue_count x.

Definition pc_ok (c : Pc) : Prop :=
  match c with
  | Requeue_lock x | Requeue_value x | Requeue_owner x | Requeue_move x _ => requeue_ok x
  | Waking _ _ n _ => 0 <= n
  | Releasing l _ => (length l <= 2)%nat /\ Forall (fun e => 0 < e.2) l
  | _ => True
  end.

Lemma one_nonneg a b : 0 <= one a b.
Proof. unfold one. case_decide; lia. Qed.
Lemma one_refl a : one a a = 1.
Proof. unfold one. by rewrite decide_True. Qed.
Lemma one_ne a b : a <> b -> one a b = 0.
Proof. intros H. unfold one. by rewrite decide_False. Qed.

Lemma listed_nonneg a l : Forall (fun e : Z * Z * Z => 0 < e.2) l -> 0 <= listed a l.
Proof. induction 1 as [|e l He _ IH]; simpl; [lia|]. pose proof (one_nonneg a e.1.1). nia. Qed.

Lemma listed_in a p l : Forall (fun e : Z * Z * Z => 0 < e.2) l -> (a, p) ∈ map fst l -> 0 < listed a l.
Proof.
  induction 1 as [|[[b q] m] l He Hl IH]; simpl; [by intros ?%not_elem_of_nil|]. simpl in He. pose proof (listed_nonneg a l Hl). pose proof (one_nonneg a b). intros [[= <- <-]|Hin]%elem_of_cons.
  - rewrite one_refl. lia.
  - specialize (IH Hin). nia.
Qed.

Ltac ones := repeat match goal with |- context [one ?a ?b] => pose proof (one_nonneg a b); generalize dependent (one a b); intros end; lia.

Lemma held_nonneg u a : pc_ok (pc u) -> 0 <= held u a.
Proof. unfold held, pc_ok. destruct (pc u); intros Hok; try ones. apply listed_nonneg, Hok. Qed.

Lemma refs_held u a p : pc_ok (pc u) -> (a, p) ∈ refs (pc u) -> 0 < held u a.
Proof.
  unfold held, refs, pc_ok. destruct (pc u); intros Hok Hin;
    repeat match goal with H : _ ∈ _ :: _ |- _ => apply elem_of_cons in H as [[= -> ->]|H] end; try (by apply not_elem_of_nil in Hin); try (rewrite one_refl; ones). apply (listed_in a p); [apply Hok | done].
Qed.

(** ** Their sum *)

Definition tally (f : uthread -> Z) (us : gmap Z uthread) : Z := map_fold (fun _ u n => f u + n) 0 us.
Definition total (us : gmap Z uthread) (a : Z) : Z := tally (fun u => held u a) us.

Lemma tally_insert_new f us t u : us !! t = None -> tally f (<[t := u]> us) = f u + tally f us.
Proof. intros H. unfold tally. rewrite map_fold_insert_L; [done | intros; lia | done]. Qed.

Lemma tally_delete f us t u : us !! t = Some u -> tally f us = f u + tally f (delete t us).
Proof. intros H. rewrite <- (insert_delete_id us t u H) at 1. apply tally_insert_new, lookup_delete_eq. Qed.

Lemma tally_insert f us t u u' : us !! t = Some u -> tally f (<[t := u']> us) = tally f us - f u + f u'.
Proof. intros H. rewrite (tally_delete f us t u H), <- insert_delete_eq, tally_insert_new by apply lookup_delete_eq. lia. Qed.

Lemma tally_empty f : tally f ∅ = 0.
Proof. unfold tally. by rewrite map_fold_empty. Qed.

Definition users_ok (us : gmap Z uthread) : Prop := forall t u, us !! t = Some u -> pc_ok (pc u).

Lemma refs_nonneg us a : users_ok us -> 0 <= total us a.
Proof.
  unfold users_ok, total. induction us as [|t u us Hn IH] using map_ind; intros Hok; [by rewrite tally_empty|]. rewrite tally_insert_new by done. pose proof (held_nonneg u a (Hok t u (lookup_insert_eq _ _ _))).
  assert (0 <= tally (fun u => held u a) us); [|lia]. apply IH. intros x v Hx. apply (Hok x). rewrite lookup_insert_ne; [done | congruence].
Qed.

Lemma held_total us t u a : users_ok us -> us !! t = Some u -> held u a <= total us a.
Proof.
  intros Hok Ht. unfold total. rewrite (tally_delete _ us t u Ht). assert (0 <= total (delete t us) a); [|unfold total in *; lia]. apply refs_nonneg. intros x v [_ Hx]%lookup_delete_Some. by apply (Hok x).
Qed.

(** Two threads hold no more than all. *)
Lemma held_total2 us t u x v a : users_ok us -> us !! t = Some u -> us !! x = Some v -> t <> x -> held u a + held v a <= total us a.
Proof.
  intros Hok Ht Hx Hne. unfold total. rewrite (tally_delete _ us t u Ht). assert (held v a <= total (delete t us) a); [|unfold total in *; lia]. apply (held_total _ x).
  - intros y w [_ Hy]%lookup_delete_Some. by apply (Hok y).
  - by rewrite lookup_delete_ne.
Qed.

Lemma total_pos us a : 0 < total us a -> exists t u, us !! t = Some u /\ 0 < held u a.
Proof.
  unfold total. induction us as [|t u us Hn IH] using map_ind; [by rewrite tally_empty|]. rewrite tally_insert_new by done. intros H. destruct (decide (0 < held u a)) as [Hu|Hu].
  - exists t, u. by rewrite lookup_insert_eq.
  - destruct IH as (x & v & Hx & Hv); [lia|]. exists x, v. rewrite lookup_insert_ne; [done | congruence].
Qed.

(** ** How many states are needed *)

Definition is_live (u : uthread) : Z := match pc u with Gone => 0 | _ => 1 end.
Definition is_quiet (u : uthread) : Z := match pc u with Idle | Exited => 1 | _ => 0 end.
Definition live (us : gmap Z uthread) : Z := tally is_live us.
Definition quiet (us : gmap Z uthread) : Z := tally is_quiet us.

Definition wants (u : uthread) : list Z :=
  match pc u with
  | Waiting_lock x | Waiting_value x | Waiting_owner x | Waiting_block x _ => [futex_id x]
  | Sleeping | Woken _ => [blocking_futex_id_ u]
  | Clearing b _ _ | Waking b _ _ _ | Asking b _ => [b]
  | Requeue_lock x | Requeue_value x | Requeue_owner x | Requeue_move x _ => [wake_id x; requeue_id x]
  | Releasing l _ => map (fun e => e.1.1) l
  | Idle | Exited | Gone => []
  end.

Lemma one_pos a b : 0 < one a b -> a = b.
Proof. unfold one. by case_decide. Qed.

Lemma held_wants u a : pc_ok (pc u) -> 0 < held u a -> a ∈ wants u.
Proof.
  unfold held, wants, pc_ok. destruct (pc u) as [|x|x|x|x ?| | | | | |x|x|x|x ?|l ?| |]; intros Hok H; try lia; try (apply list_elem_of_singleton, one_pos; lia).
  5: { destruct Hok as [_ Hok]. induction Hok as [|[[b q] m] l He Hl IH]; simpl in *; [lia|]. destruct (decide (a = b)) as [->|Hne]; [apply list_elem_of_here|]. rewrite one_ne in H by done. right. by apply IH. }
  all: destruct (decide (a = wake_id x)) as [->|Hne]; [apply list_elem_of_here|]; rewrite (one_ne a (wake_id x)) in H by done; right; apply list_elem_of_singleton, one_pos; lia.
Qed.

Lemma wants_length u : pc_ok (pc u) -> zlen (wants u) + 2 * is_quiet u <= 2 * is_live u.
Proof. unfold wants, pc_ok, is_quiet, is_live. unfold zlen. destruct (pc u); intros Hok; simpl; try lia. rewrite length_map. lia. Qed.

Lemma wanted us : users_ok us -> exists l, (forall t u a, us !! t = Some u -> 0 < held u a -> a ∈ l) /\ zlen l + 2 * quiet us <= 2 * live us.
Proof.
  unfold quiet, live. induction us as [|t u us Hn IH] using map_ind; intros Hok; [exists []; split; [intros t u a; by rewrite lookup_empty | by vm_compute]|]. rewrite !tally_insert_new by done.
  destruct IH as (l & Hl & Hc); [intros x v Hx; apply (Hok x); rewrite lookup_insert_ne; [done | congruence]|]. pose proof (Hok t u (lookup_insert_eq _ _ _)) as Hu. exists (wants u ++ l). split.
  - intros x v a [[<- <-]|[Hne Hx]]%lookup_insert_Some Hh; apply elem_of_app; [left; by apply held_wants | right; by apply (Hl x v)].
  - rewrite zlen_app. pose proof (wants_length u Hu). lia.
Qed.

(** ** The pool *)

(** [T]: how many references there are to each futex. *)
Record pool (T : Z -> Z) (s : State) : Prop := {
  po_active : forall a p, active_futexes_ s !! a = Some p -> a <> 0 /\ exists f, fx s !! p = Some f /\ id_ f = a;
  po_free : forall p, p ∈ free_futexes_ s -> fx s !! p = Some (mkFutexState 0 0);
  po_state : forall p f, fx s !! p = Some f -> if decide (id_ f = 0) then p ∈ free_futexes_ s else active_futexes_ s !! id_ f = Some p;
  po_nodup : NoDup (free_futexes_ s);
  po_count : forall a, a <> 0 -> match active_futexes_ s !! a with Some p => fx s !! p = Some (mkFutexState a (T a)) /\ 0 < T a | None => T a = 0 end;
}.

Lemma pool_ext T T' s : (forall a, a <> 0 -> T' a = T a) -> pool T s -> pool T' s.
Proof. intros E [P1 P2 P3 P4 P5]. split; try done. intros a Ha. specialize (P5 a Ha). by rewrite E. Qed.

Lemma pool_fields T s s' : fx s' = fx s -> active_futexes_ s' = active_futexes_ s -> free_futexes_ s' = free_futexes_ s -> pool T s -> pool T s'.
Proof. intros E1 E2 E3 [P1 P2 P3 P4 P5]. split; rewrite ?E1, ?E2, ?E3; done. Qed.

Lemma pool_at T s a p : pool T s -> active_futexes_ s !! a = Some p -> fx s !! p = Some (mkFutexState a (T a)) /\ 0 < T a /\ a <> 0.
Proof. intros P Ha. destruct (po_active _ _ P a p Ha) as [H0 _]. pose proof (po_count _ _ P a H0) as H. rewrite Ha in H. by destruct H. Qed.

Lemma pool_inj T s a b p : pool T s -> active_futexes_ s !! a = Some p -> active_futexes_ s !! b = Some p -> a = b.
Proof. intros P Ha Hb. destruct (pool_at T s a p P Ha) as (H1 & _), (pool_at T s b p P Hb) as (H2 & _). congruence. Qed.

Lemma pool_active_free T s a p : pool T s -> active_futexes_ s !! a = Some p -> p ∉ free_futexes_ s.
Proof. intros P Ha Hf. destruct (pool_at T s a p P Ha) as (H1 & _ & H0). rewrite (po_free _ _ P p Hf) in H1. congruence. Qed.

(** The count of an active futex changes. *)
Lemma pool_recount T T' s a p n :
  pool T s -> active_futexes_ s !! a = Some p -> T' a = n -> 0 < n -> (forall b, b <> a -> T' b = T b) -> pool T' (with_fx (<[p := mkFutexState a n]> (fx s)) s).
Proof.
  intros P Ha Hn Hpos HT. destruct (pool_at T s a p P Ha) as (Hp & _ & H0). pose proof P as [P1 P2 P3 P4 P5]. split; simpl.
  - intros b q Hb. destruct (P1 b q Hb) as (Hb0 & f & Hf & Hid). split; [done|]. destruct (decide (q = p)) as [->|Hq]; [|exists f; by rewrite lookup_insert_ne]. assert (b = a) as -> by (by apply (pool_inj T s b a p)). eexists. by rewrite lookup_insert_eq.
  - intros q Hq. rewrite lookup_insert_ne; [by apply P2|]. intros ->. by apply (pool_active_free T s a q).
  - intros q f [[<- <-]|[_ Hf]]%lookup_insert_Some; [simpl; by rewrite decide_False | by apply P3].
  - done.
  - intros b Hb. destruct (decide (b = a)) as [->|Hba].
    + by rewrite Ha, lookup_insert_eq, Hn.
    + specialize (P5 b Hb). rewrite HT by done. destruct (active_futexes_ s !! b) as [q|] eqn:Hq; [|done]. rewrite lookup_insert_ne; [done|]. intros ->. by apply Hba, (pool_inj T s b a q).
Qed.

Definition plus (T : Z -> Z) (a n : Z) : Z -> Z := fun b => T b + one b a * n.
Lemma plus_eq T a n : plus T a n a = T a + n.
Proof. unfold plus. rewrite one_refl. lia. Qed.
Lemma plus_ne T a n b : b <> a -> plus T a n b = T b.
Proof. intros H. unfold plus. rewrite one_ne by done. lia. Qed.

(** Two states agree but for the pool. *)
Definition pool_only (s s' : State) : Prop := ow s' = ow s /\ locks s' = locks s /\ users s' = users s /\ mem s' = mem s.

Lemma pool_only_trans s1 s2 s3 : pool_only s1 s2 -> pool_only s2 s3 -> pool_only s1 s3.
Proof. intros (? & ? & ? & ?) (? & ? & ? & ?). by split_and!; etransitivity. Qed.

Lemma find_spec T a s :
  pool T s -> exists r s', FindActiveFutexLocked a s = Some (r, s') /\ r = active_futexes_ s !! a /\ pool_only s s' /\ active_futexes_ s' = active_futexes_ s /\ free_futexes_ s' = free_futexes_ s /\
    match r with Some _ => pool (plus T a 1) s' | None => s' = s end.
Proof.
  intros P. unfold FindActiveFutexLocked. destruct (active_futexes_ s !! a) as [p|] eqn:Ha; [|by eexists _, _]. destruct (pool_at T s a p P Ha) as (Hp & Hpos & H0). rewrite Hp. cbn [mbind option_bind]. simpl.
  destruct (T a >? 0) eqn:E; [|lia]. eexists _, _. split_and!; try done. apply (pool_recount T); [done | done | by rewrite plus_eq | lia|]. intros b Hb. by apply plus_ne.
Qed.

Definition states (s : State) : nat := length (free_futexes_ s) + size (active_futexes_ s).

Lemma activate_spec T a s :
  pool T s -> a <> 0 -> free_futexes_ s <> [] -> (forall p, p ∈ free_futexes_ s -> owner p (ow s) = None) ->
  exists p s', ActivateFutexLocked a s = Some (p, s') /\ pool (plus T a 1) s' /\ pool_only s s' /\ active_futexes_ s' !! a = Some p /\ (forall b q, active_futexes_ s !! b = Some q -> active_futexes_ s' !! b = Some q) /\
    (forall b, b <> a -> active_futexes_ s' !! b = active_futexes_ s !! b) /\ states s' = states s /\ (exists l, free_futexes_ s = l ++ free_futexes_ s' /\ (length l <= 1)%nat) /\ dom (fx s') = dom (fx s).
Proof.
  intros P H0 Hfree Hown. unfold ActivateFutexLocked. destruct (find_spec T a s P) as (r & s1 & E & Hr & Ho & Ea & Ef & Hp). rewrite E. cbn [mbind option_bind]. destruct r as [p|].
  - exists p, s1. unfold states. rewrite Ea, Ef. split_and!; try done; [exists []; split; [done | simpl; lia]|]. unfold FindActiveFutexLocked in E. rewrite <- Hr in E. destruct (fx s !! p) as [f|] eqn:Hf; [|done]. cbn [mbind option_bind] in E. destruct (_ >? 0); [|done]. injection E as <-. simpl. by apply dom_insert_lookup_L.
  - subst s1. destruct (free_futexes_ s) as [|p l] eqn:El; [done|]. assert (p ∈ free_futexes_ s) as Hin by (rewrite El; apply list_elem_of_here). rewrite (po_free _ _ P p Hin). cbn [mbind option_bind]. simpl.
    rewrite (Hown p) by apply list_elem_of_here. eexists _, _. split; [done|]. pose proof P as [P1 P2 P3 P4 P5]. rewrite El in P4. apply NoDup_cons in P4 as [Hni Hnd]. assert (T a = 0) as HT by (specialize (P5 a H0); by rewrite <- Hr in P5). unfold states. simpl.
    split_and!; try done.
    + split; simpl.
      * intros b q [[<- <-]|[Hb Hq]]%lookup_insert_Some; [split; [done|]; eexists; by rewrite lookup_insert_eq|]. destruct (P1 b q Hq) as (? & f & Hf & ?). split; [done|]. exists f. rewrite lookup_insert_ne; [done|]. intros ->. by apply (pool_active_free T s b q).
      * intros q Hq. rewrite lookup_insert_ne by (intros ->; done). apply P2. rewrite El. by right.
      * intros q f [[<- <-]|[Hq Hf]]%lookup_insert_Some; [simpl; rewrite decide_False by done; apply lookup_insert_eq|]. specialize (P3 q f Hf). case_decide as Hi; [rewrite El in P3; apply elem_of_cons in P3 as [->|?]; done|]. rewrite lookup_insert_ne; [done|]. intros Hx. rewrite <- Hx in P3. congruence.
      * done.
      * intros b Hb. destruct (decide (b = a)) as [->|Hba]; [rewrite lookup_insert_eq, lookup_insert_eq, plus_eq, HT; by split|]. rewrite lookup_insert_ne, plus_ne by done. specialize (P5 b Hb). destruct (active_futexes_ s !! b) as [q|] eqn:Hq; [|done].
        rewrite lookup_insert_ne; [done|]. intros ->. by apply (pool_active_free T s b q).
    + by rewrite lookup_insert_eq.
    + intros b q Hb. rewrite lookup_insert_ne; [done|]. congruence.
    + intros b Hb. by rewrite lookup_insert_ne.
    + rewrite El. simpl. rewrite map_size_insert_None by done. lia.
    + exists [p]. split; [done | simpl; lia].
    + apply dom_insert_lookup_L. rewrite (po_free _ _ P p Hin). by eexists.
Qed.

Lemma release_spec T a p n s :
  pool T s -> active_futexes_ s !! a = Some p -> 0 < n <= T a -> (T a = n -> owner p (ow s) = None) ->
  exists s', Release p n s = Some s' /\ pool (plus T a (- n)) s' /\ pool_only s s' /\ active_futexes_ s' = (if decide (T a = n) then delete a (active_futexes_ s) else active_futexes_ s) /\ states s' = states s /\ dom (fx s') = dom (fx s).
Proof.
  intros P Ha Hn Hown. destruct (pool_at T s a p P Ha) as (Hp & Hpos & H0). unfold Release. rewrite Hp. cbn [mbind option_bind]. simpl. destruct (Z.eqb_spec a 0); [done|]. cbn [negb]. destruct (T a >=? n) eqn:E; [|lia]. destruct (Z.eqb_spec (T a - n) 0) as [Hz|Hz].
  - rewrite (Hown ltac:(lia)). eexists. split; [done|]. rewrite decide_True by lia. unfold states. simpl. pose proof P as [P1 P2 P3 P4 P5]. split_and!; try done.
    + split; simpl.
      * intros b q [Hb Hq]%lookup_delete_Some. destruct (P1 b q Hq) as (? & f & Hf & ?). split; [done|]. exists f. rewrite lookup_insert_ne; [done|]. intros ->. by apply Hb, (pool_inj T s a b q).
      * intros q [->|Hq]%elem_of_cons; [rewrite lookup_insert_eq; by rewrite Hz|]. rewrite lookup_insert_ne; [by apply P2|]. intros ->. by apply (pool_active_free T s a q).
      * intros q f [[<- <-]|[Hq Hf]]%lookup_insert_Some; [simpl; apply list_elem_of_here|]. specialize (P3 q f Hf). case_decide as Hi; [by right|]. rewrite lookup_delete_ne; [done|]. intros Hx. rewrite <- Hx in P3. congruence.
      * apply NoDup_cons. split; [by apply (pool_active_free T s a)|done].
      * intros b Hb. destruct (decide (b = a)) as [->|Hba]; [rewrite lookup_delete_eq, plus_eq; lia|]. rewrite lookup_delete_ne, plus_ne by done. specialize (P5 b Hb). destruct (active_futexes_ s !! b) as [q|] eqn:Hq; [|done].
        rewrite lookup_insert_ne; [done|]. intros ->. by apply Hba, (pool_inj T s b a q).
    + rewrite map_size_delete_Some by done. assert (size (active_futexes_ s) <> 0%nat); [|lia]. rewrite map_size_ne_0_lookup. by exists a, p.
    + by apply dom_insert_lookup_L.
  - eexists. split; [done|]. rewrite decide_False by lia. split_and!; try done; [|simpl; by apply dom_insert_lookup_L]. apply (pool_recount T _ _ a p (T a - n)); [done | done | rewrite plus_eq; lia | lia|]. intros b Hb. by apply plus_ne.
Qed.

Lemma take_refs_spec T a p b q n s :
  pool T s -> active_futexes_ s !! a = Some p -> active_futexes_ s !! b = Some q -> a <> b -> 0 <= n < T b ->
  exists s', TakeRefs p q n s = Some s' /\ pool (plus (plus T a n) b (- n)) s' /\ pool_only s s' /\ active_futexes_ s' = active_futexes_ s /\ free_futexes_ s' = free_futexes_ s /\ dom (fx s') = dom (fx s).
Proof.
  intros P Ha Hb Hab Hn. destruct (pool_at T s a p P Ha) as (Hp & Hpos & _), (pool_at T s b q P Hb) as (Hq & Hposb & _). unfold TakeRefs. rewrite Hp. cbn [mbind option_bind]. rewrite Hq. cbn [mbind option_bind]. simpl.
  destruct (T a >? 0) eqn:E1; [|lia]. destruct (T b >? n) eqn:E2; [|lia]. assert (p <> q) as Hpq by (intros ->; by apply Hab, (pool_inj T s a b q)). rewrite lookup_insert_ne, Hq by done. cbn [mbind option_bind]. simpl. eexists. split; [done|].
  assert (pool (plus T a n) (with_fx (<[p := mkFutexState a (T a + n)]> (fx s)) s)) as P1 by (apply (pool_recount T); [done | done | by rewrite plus_eq | lia | intros c Hc; by apply plus_ne]).
  split_and!; try done.
  - apply (pool_recount _ (plus (plus T a n) b (- n)) _ b q (T b - n) P1); [done | rewrite plus_eq, plus_ne by done; lia | lia | intros c Hc; by apply plus_ne].
  - simpl. rewrite !dom_insert_lookup_L; [done | by exists (mkFutexState a (T a))|]. rewrite lookup_insert_ne by done. by eexists.
Qed.

(** A thread that does nothing leaves two states for its next call. *)
Lemma two_free s :
  pool (total (users s)) s -> users_ok (users s) -> Z.of_nat (states s) = 2 * live (users s) -> 0 < quiet (users s) -> (2 <= length (free_futexes_ s))%nat.
Proof.
  intros P Hok Hs Hq. destruct (wanted (users s) Hok) as (l & Hl & Hlen). unfold states in Hs. assert (size (active_futexes_ s) <= length l)%nat; [|unfold zlen in *; lia]. rewrite <- length_map_to_list, <- (length_map fst).
  apply NoDup_incl_length; [apply NoDup_ListNoDup, NoDup_fst_map_to_list|]. intros a Ha%list_elem_of_In. apply list_elem_of_In. apply list_elem_of_fmap_1 in Ha as ([a' p] & -> & Ha%elem_of_map_to_list). simpl.
  destruct (pool_at _ _ _ _ P Ha) as (_ & Hpos & _). apply total_pos in Hpos as (t & u & Ht & Hu). by apply (Hl t u).
Qed.
