(* ===== verification/FutexSystem.v ===== *)
(** * Futexes: the system

    The threads of a process that call futexes in any interleaving, time out, are
    signalled, get other priorities, start and end, and write to the memory the futexes
    are in; the invariant of all this, and what a step must provide for it to hold after
    it. *)

From S2P Require Import Prelude Zx WaitQueue WaitQueueFacts OwnedWaitQueue OwnedWaitQueueFacts OwnedWaitQueueSteps OwnedWaitQueueOps OwnedWaitQueueWake OwnedWaitQueueTheorems Futex FutexFacts.
Import WaitQueue OwnedWaitQueue Futex.

(** ** Events *)

Inductive Event :=
| Call (t : Z) (c : Call)
| Run (t now : Z)
| Interrupt (t : Z) (e : zx_status_t)   (* a timeout, or the thread is killed or suspended *)
| Signal (t sig : Z)
| Priority (t n : Z)
| Store (a v : Z)
| Grow (t base p1 p2 : Z)               (* a thread is created *)
| Exit (t : Z)
| Shrink (t : Z).                       (* the thread's dispatcher is destroyed *)

Definition happens (e : Event) (s : State) : option State :=
  match e with
  | Call t c => call t c s
  | Run t now => run t now s
  | Interrupt t e => '(_, w) ← unblock_thread false t e (ow s); Some (with_ow w s)
  | Signal t sig => th ← threads (ker (ow s)) !! t; Some (with_ow (with_ker (with_thread t (set_signals sig (interruptable th) th) (ker (ow s))) (ow s)) s)
  | Priority t n => w ← sched_change_priority false t n (ow s); Some (with_ow w s)
  | Store a v => Some (with_mem (<[a := v]> (mem s)) s)
  | Grow t base p1 p2 => let s := GrowFutexStatePool p1 p2 s in Some (with_users (<[t := mkUser 0 Idle]> (users s)) (with_ow (new_thread t base false (ow s)) s))
  | Exit t => w ← exit_thread false t (ow s); Some (goto t Exited (with_ow w s))
  | Shrink t => s ← ShrinkFutexStatePool s; Some (goto t Gone s)
  end.

Definition known_owner (v : Validator) (s : State) : Prop := forall o, dispatcher_ v = Some o -> is_Some (users s !! o).

Definition call_ok (c : Futex.Call) (s : State) : Prop :=
  match c with
  | CallWait _ _ v _ => known_owner v s
  | CallWake _ n _ => 0 <= n
  | CallRequeue _ n _ _ _ m v => 0 <= n /\ 0 <= m /\ known_owner v s
  | CallGetOwner _ => True
  end.

Definition at_pc (t : Z) (c : Pc) (s : State) : Prop := pc <$> users s !! t = Some c.

(** What can happen. *)
Definition may_happen (e : Event) (s : State) : Prop :=
  match e with
  | Call t c => at_pc t Idle s /\ call_ok c s
  | Run t _ => can_run t s = true
  | Interrupt t e => at_pc t Sleeping s /\ e <> ZX_OK
  | Signal t _ => is_Some (users s !! t)
  | Priority t n => is_Some (users s !! t) /\ 0 <= n
  | Store _ _ => True
  | Grow t base p1 p2 => users s !! t = None /\ 0 <= base /\ p1 <> p2 /\ fx s !! p1 = None /\ fx s !! p2 = None
  | Exit t => at_pc t Idle s
  | Shrink t => at_pc t Exited s
  end.

(** A requeue that wakes a thread to own the first futex and moves all the others away:
    the one case in which the code goes wrong. *)
Definition strands (x : RequeueArgs) (s : State) : bool :=
  match owner_action x with
  | RELEASE => false
  | ASSIGN_WOKEN => let l := thread_list (wake_futex_ref x) (ow s) in negb (wake_count x =? 0) && (1 <? zlen l) && (zlen l - 1 <=? requeue_count x)
  end.

Definition strands_owner (e : Event) (s : State) : bool :=
  match e with
  | Run t _ => match pc <$> users s !! t with Some (Requeue_move x _) => strands x s | _ => false end
  | _ => false
  end.

Definition fstep (s s' : State) : Prop := exists e, may_happen e s /\ strands_owner e s = false /\ happens e s = Some s'.

Definition no_futexes : State := mkState no_threads ∅ ∅ [] ∅ ∅ ∅.

(** ** The invariant *)

Definition view : Type := thread_state * Z * bool * zx_status_t * option Z.
Definition v_state (v : view) : thread_state := v.1.1.1.1.
Definition v_status (v : view) : zx_status_t := v.1.2.
Definition v_queue (v : view) : option Z := v.2.

(** What the scheduler knows of a thread agrees with where it is. *)
Definition kernel_ok (act : gmap Z Z) (v : view) (u : uthread) : Prop :=
  match pc u with
  | Sleeping =>
      match v_queue v with
      | Some p => blocking_futex_id_ u <> 0 /\ act !! blocking_futex_id_ u = Some p
      | None => if decide (blocking_futex_id_ u = 0) then v_status v = ZX_OK else v_status v <> ZX_OK
      end
  | Woken _ => v_queue v = None /\ blocking_futex_id_ u <> 0
  | Waiting_block x _ => v_queue v = None /\ blocking_futex_id_ u = futex_id x
  | _ => v_queue v = None /\ blocking_futex_id_ u = 0
  end /\ dead_state (v_state v) = match pc u with Exited | Gone => true | _ => false end.

(** The thread will see to it that the state [p] has no owner if it has no waiters. *)
Definition clears (act : gmap Z Z) (v : view) (u : uthread) (p : Z) : Prop :=
  match pc u with
  | Clearing _ q _ => q = p
  | Woken _ => act !! blocking_futex_id_ u = Some p
  | Sleeping => v_queue v = None /\ blocking_futex_id_ u <> 0 /\ act !! blocking_futex_id_ u = Some p
  | _ => False
  end.

(** Who is to own a futex does not wait for it. *)
Definition plan_ok (us : gmap Z uthread) (t : Z) (c : Pc) : Prop :=
  match c with
  | Waiting_lock x | Waiting_value x | Waiting_owner x => forall o, dispatcher_ (owner_validator x) = Some o -> is_Some (us !! o)
  | Waiting_block x (Some o) => o <> t /\ exists u, us !! o = Some u /\ blocking_futex_id_ u <> futex_id x
  | Requeue_lock x | Requeue_value x | Requeue_owner x => forall o, dispatcher_ (requeue_validator x) = Some o -> is_Some (us !! o)
  | Requeue_move x (Some o) => exists u, us !! o = Some u /\ blocking_futex_id_ u <> wake_id x /\ blocking_futex_id_ u <> requeue_id x
  | _ => True
  end.

Record finv (s : State) : Prop := {
  fi_ow : good false [] (ow s);
  fi_dom : forall t, is_Some (users s !! t) <-> is_Some (pis (ow s) !! t);
  fi_queues : forall p, is_Some (queues (ker (ow s)) !! p) <-> is_Some (fx s !! p);
  fi_ok : users_ok (users s);
  fi_pool : pool (total (users s)) s;
  fi_states : Z.of_nat (states s) = 2 * live (users s);
  fi_refs : forall t u a p, users s !! t = Some u -> (a, p) ∈ refs (pc u) -> active_futexes_ s !! a = Some p;
  fi_kernel : forall t u, users s !! t = Some u -> exists v, sees (ow s) t = Some v /\ kernel_ok (active_futexes_ s) v u;
  fi_locks : forall p t, locks s !! p = Some t <-> exists u, users s !! t = Some u /\ p ∈ holds (pc u);
  fi_plan : forall t u, users s !! t = Some u -> plan_ok (users s) t (pc u);
  fi_owner : forall p o, owner p (ow s) = Some o -> waiters p (ker (ow s)) <> [] \/ exists t u v, users s !! t = Some u /\ sees (ow s) t = Some v /\ clears (active_futexes_ s) v u p;
  fi_self : forall p o, owner p (ow s) = Some o -> o ∉ waiters p (ker (ow s));
}.

(** ** Consequences *)

Lemma waits_sleeping act v u p : kernel_ok act v u -> v_queue v = Some p -> pc u = Sleeping /\ blocking_futex_id_ u <> 0 /\ act !! blocking_futex_id_ u = Some p.
Proof. unfold kernel_ok. intros [H _] Hv. rewrite Hv in H. destruct (pc u); try (by destruct H as [H _]). done. Qed.

Lemma sees_waiter b s t v p : good b [] s -> sees s t = Some v -> v_queue v = Some p -> t ∈ waiters p (ker s).
Proof.
  unfold sees. intros G Hs Hv. destruct (threads (ker s) !! t) as [th|] eqn:Ht; [|done]. injection Hs as <-. unfold v_queue, strip in Hv. simpl in Hv. pose proof (sh_ker _ _ (proj1 G)) as Ik. pose proof (ki_blocked _ _ Ik t th Ht) as H. rewrite Hv in H.
  destruct H as (_ & [q Hq] & _). unfold waiters. rewrite Hq. apply (ki_member _ _ Ik p q t Hq). by exists th.
Qed.

Lemma waiter_sees b s t p : good b [] s -> t ∈ waiters p (ker s) -> exists v, sees s t = Some v /\ v_queue v = Some p.
Proof.
  intros G Hin. destruct (waiters_blocked _ _ _ _ (sh_ker _ _ (proj1 G)) Hin) as (q & th & _ & Ht & Hb). exists (strip th). unfold sees. by rewrite Ht.
Qed.

Lemma waiter_user s p t : finv s -> t ∈ waiters p (ker (ow s)) -> exists u, users s !! t = Some u /\ pc u = Sleeping /\ blocking_futex_id_ u <> 0 /\ active_futexes_ s !! blocking_futex_id_ u = Some p.
Proof.
  intros I Hin. destruct (waiter_alive [] (ow s) p t (sh_ker _ _ (proj1 (fi_ow _ I))) Hin) as [_ Hth]. apply (sh_dom _ _ (proj1 (fi_ow _ I))) in Hth. apply (fi_dom _ I) in Hth as [u Hu]. exists u. split; [done|].
  destruct (waiter_sees false (ow s) t p (fi_ow _ I) Hin) as (v & Hs & Hv). destruct (fi_kernel _ I t u Hu) as (v' & Hs' & K). assert (v' = v) as -> by congruence. by apply (waits_sleeping _ v).
Qed.

(** A thread that sleeps on a futex or is about to look for it holds a reference. *)
Lemma id_held us t u : users_ok us -> us !! t = Some u -> pc u = Sleeping \/ (exists e, pc u = Woken e) -> 0 < total us (blocking_futex_id_ u).
Proof. intros Hok Ht Hp. pose proof (held_total us t u (blocking_futex_id_ u) Hok Ht) as H. unfold held in H. destruct Hp as [E|[e E]]; rewrite E, one_refl in H; lia. Qed.

Lemma refs_total us t u a p : users_ok us -> us !! t = Some u -> (a, p) ∈ refs (pc u) -> 0 < total us a.
Proof. intros Hok Ht Hr. pose proof (held_total us t u a Hok Ht). pose proof (refs_held u a p (Hok t u Ht) Hr). lia. Qed.

Lemma total_active T s a : pool T s -> a <> 0 -> 0 < T a -> is_Some (active_futexes_ s !! a).
Proof. intros P H0 Ht. pose proof (po_count _ _ P a H0) as H. destruct (active_futexes_ s !! a); [by eexists | lia]. Qed.

Lemma clears_ref act v u p : clears act v u p -> pc u = Sleeping /\ blocking_futex_id_ u <> 0 /\ act !! blocking_futex_id_ u = Some p \/ (exists e, pc u = Woken e) /\ act !! blocking_futex_id_ u = Some p \/ exists a, (a, p) ∈ refs (pc u).
Proof.
  unfold clears. destruct (pc u) as [| | | | | |e|a q e| | | | | | | | |] eqn:E; try done.
  - intros (_ & H1 & H2). by left.
  - intros H. right. left. split; [by exists e | done].
  - intros ->. right. right. exists a. simpl. apply list_elem_of_here.
Qed.

(** A state nobody refers to has no waiters and no owner. *)
Lemma unused_state s p : finv s -> (forall a, active_futexes_ s !! a <> Some p) -> waiters p (ker (ow s)) = [] /\ owner p (ow s) = None.
Proof.
  intros I Ha. assert (waiters p (ker (ow s)) = []) as Hw.
  { destruct (waiters p (ker (ow s))) as [|t l] eqn:E; [done|]. destruct (waiter_user s p t I) as (u & _ & _ & _ & Hu); [rewrite E; apply list_elem_of_here|]. by apply Ha in Hu. }
  split; [done|]. destruct (owner p (ow s)) as [o|] eqn:Ho; [|done]. destruct (fi_owner _ I p o Ho) as [?|(t & u & v & Hu & _ & Hc)]; [done|].
  apply clears_ref in Hc as [(_ & _ & H)|[[_ H]|[a H]]]; [by apply Ha in H | by apply Ha in H|]. apply (fi_refs _ I t u a p Hu) in H. by apply Ha in H.
Qed.

Lemma free_state s p : finv s -> p ∈ free_futexes_ s -> waiters p (ker (ow s)) = [] /\ owner p (ow s) = None.
Proof. intros I Hp. apply unused_state; [done|]. intros a Ha. by apply (pool_active_free _ s a p (fi_pool _ I)). Qed.

Lemma lock_owner s p t x u v : finv s -> users s !! t = Some u -> p ∈ holds (pc u) -> users s !! x = Some v -> p ∈ holds (pc v) -> t = x.
Proof. intros I Hu Hp Hv Hp'. assert (locks s !! p = Some t) as H1 by (apply (fi_locks _ I); by exists u). assert (locks s !! p = Some x) as H2 by (apply (fi_locks _ I); by exists v). congruence. Qed.

(** ** The frame *)

Record fresh_ok (s : State) (x : Z) (w : uthread) : Prop := {
  fr_pc : pc_ok (pc w);
  fr_refs : forall a p, (a, p) ∈ refs (pc w) -> active_futexes_ s !! a = Some p;
  fr_kernel : exists v, sees (ow s) x = Some v /\ kernel_ok (active_futexes_ s) v w;
  fr_plan : plan_ok (users s) x (pc w);
}.

(** How the id of a thread may change when [t] takes a step. *)
Definition id_step (t : Z) (s : State) (b b' : Z) : Prop := b' = b \/ b' = 0 \/ exists p, active_futexes_ s !! b' = Some p /\ locks s !! p = Some t.

Lemma plan_frame t s s' x w :
  finv s -> users s !! x = Some w -> x <> t -> (forall y, is_Some (users s' !! y) <-> is_Some (users s !! y)) ->
  (forall o v v', users s !! o = Some v -> users s' !! o = Some v' -> id_step t s (blocking_futex_id_ v) (blocking_futex_id_ v')) -> plan_ok (users s') x (pc w).
Proof.
  intros I Hx Hxt Hdom Hid. pose proof (fi_plan _ I x w Hx) as HP. pose proof (fi_refs _ I x w) as HR.
  assert (forall a p o v, (a, p) ∈ refs (pc w) -> p ∈ holds (pc w) -> users s !! o = Some v -> blocking_futex_id_ v <> a -> exists v', users s' !! o = Some v' /\ blocking_futex_id_ v' <> a) as Hkeep.
  { intros a p o v Hr Hh Ho Hne. destruct (proj2 (Hdom o)) as [v' Hv']; [by exists v|]. exists v'. split; [done|]. pose proof (HR a p Hx Hr) as Ha. destruct (pool_at _ _ _ _ (fi_pool _ I) Ha) as (_ & _ & H0).
    destruct (Hid o v v' Ho Hv') as [->|[->|(q & Hq & Hl)]]; [done | done|]. intros Hc. rewrite Hc, Ha in Hq. injection Hq as <-. apply (fi_locks _ I) in Hl as (u & Hu & Hp). by apply Hxt, (lock_owner s p x t w u). }
  unfold plan_ok in *. destruct (pc w) as [|y|y|y|y [o|]| | | | | |y|y|y|y [o|]| | |] eqn:E; try done; try (intros o Ho; apply Hdom; by apply HP).
  - destruct HP as (Hne & v & Hv & Hb). split; [done|]. apply (Hkeep (futex_id y) (futex_ref y) o v); try done; simpl; apply list_elem_of_here.
  - destruct HP as (v & Hv & Hb1 & Hb2). destruct (Hkeep (wake_id y) (wake_futex_ref y) o v) as (v' & Hv' & H1); try done; [simpl; apply list_elem_of_here | simpl; apply list_elem_of_here|]. exists v'. split_and!; try done.
    destruct (Hkeep (requeue_id y) (requeue_futex_ref y) o v) as (v'' & Hv'' & H2); try done; [simpl; right; apply list_elem_of_here | simpl; right; apply list_elem_of_here|]. congruence.
Qed.

(** The step of [t] changes the threads it says and leaves the others. *)
Record framed (t : Z) (s s' : State) : Prop := {
  fm_dom : forall x, is_Some (users s' !! x) <-> is_Some (users s !! x);
  fm_users : forall x w, users s' !! x = Some w -> x <> t /\ users s !! x = Some w /\ sees (ow s') x = sees (ow s) x \/ fresh_ok s' x w;
  fm_ids : forall o v v', users s !! o = Some v -> users s' !! o = Some v' -> id_step t s (blocking_futex_id_ v) (blocking_futex_id_ v');
  fm_pool : pool (total (users s')) s';
  fm_states : states s' = states s;
  fm_live : live (users s') = live (users s);
  fm_active : forall a p, active_futexes_ s !! a = Some p -> active_futexes_ s' !! a = Some p \/ total (users s') a = 0;
  fm_locks : forall p x, locks s' !! p = Some x <-> exists u, users s' !! x = Some u /\ p ∈ holds (pc u);
  fm_good : good false [] (ow s');
  fm_pis : forall x, is_Some (pis (ow s') !! x) <-> is_Some (pis (ow s) !! x);
  fm_queues : same_queues (ker (ow s)) (ker (ow s'));
  fm_fx : dom (fx s') = dom (fx s);
}.

Lemma framed_ok t s s' : finv s -> framed t s s' -> users_ok (users s').
Proof. intros I F x w Hx. destruct (fm_users _ _ _ F x w Hx) as [(_ & Hx' & _)|Hf]; [by apply (fi_ok _ I x) | apply (fr_pc _ _ _ Hf)]. Qed.

(** The futexes that an unchanged thread refers to stay. *)
Lemma framed_kept t s s' a p : finv s -> framed t s s' -> 0 < total (users s') a -> active_futexes_ s !! a = Some p -> active_futexes_ s' !! a = Some p.
Proof. intros I F Ht Ha. destruct (fm_active _ _ _ F a p Ha); [done | lia]. Qed.

Lemma frame_step t s s' :
  finv s -> framed t s s' ->
  (forall p o, owner p (ow s') = Some o -> waiters p (ker (ow s')) <> [] \/ exists x u v, users s' !! x = Some u /\ sees (ow s') x = Some v /\ clears (active_futexes_ s') v u p) ->
  (forall p o, owner p (ow s') = Some o -> o ∉ waiters p (ker (ow s'))) -> finv s'.
Proof.
  intros I F Ho Hs. pose proof (framed_ok t s s' I F) as Hok. split; try done; try apply F.
  - intros x. rewrite (fm_dom _ _ _ F), (fm_pis _ _ _ F). apply (fi_dom _ I).
  - intros p. rewrite <- (fm_queues _ _ _ F p), (fi_queues _ I p), <- !elem_of_dom, (fm_fx _ _ _ F). done.
  - rewrite (fm_states _ _ _ F), (fm_live _ _ _ F). apply (fi_states _ I).
  - intros x u a p Hx Hr. destruct (fm_users _ _ _ F x u Hx) as [(_ & Hx' & _)|Hf]; [|by apply (fr_refs _ _ _ Hf)]. apply (framed_kept t s); [done | done | by apply (refs_total _ x u a p) | by apply (fi_refs _ I x u)].
  - intros x u Hx. destruct (fm_users _ _ _ F x u Hx) as [(_ & Hx' & Hse)|Hf]; [|apply (fr_kernel _ _ _ Hf)]. destruct (fi_kernel _ I x u Hx') as (v & Hv & [K1 K2]). exists v. split; [by rewrite Hse|]. split; [|done].
    destruct (pc u) eqn:E; try done. destruct (v_queue v) as [p|]; [|done]. destruct K1 as [H0 Ha]. split; [done|]. apply (framed_kept t s); [done | done | apply (id_held _ x); [done | done | by left] | done].
  - intros x u Hx. destruct (fm_users _ _ _ F x u Hx) as [(Hne & Hx' & Hse)|Hf]; [|apply (fr_plan _ _ _ Hf)]. apply (plan_frame t s); [done | done | done | apply (fm_dom _ _ _ F) | apply (fm_ids _ _ _ F)].
Qed.

(** A thread that clears a state and is not changed still does. *)
Lemma clears_kept t s s' x u v p :
  finv s -> framed t s s' -> users s' !! x = Some u -> clears (active_futexes_ s) v u p -> clears (active_futexes_ s') v u p.
Proof.
  intros I F Hx Hc. pose proof (framed_ok t s s' I F) as Hok. unfold clears in *. destruct (pc u) as [| | | | | |e| | | | | | | | | |] eqn:E; try done.
  - destruct Hc as (H1 & H2 & H3). split_and!; try done. apply (framed_kept t s); [done | done | apply (id_held _ x); [done | done | by left] | done].
  - apply (framed_kept t s); [done | done | apply (id_held _ x); [done | done | right; by exists e] | done].
Qed.

(** ** One thread moves on, and the scheduler is not involved *)

Lemma locks_same s t u u' :
  (forall p x, locks s !! p = Some x <-> exists u, users s !! x = Some u /\ p ∈ holds (pc u)) -> users s !! t = Some u -> holds (pc u') = holds (pc u) ->
  forall p x, locks s !! p = Some x <-> exists v, <[t := u']> (users s) !! x = Some v /\ p ∈ holds (pc v).
Proof.
  intros L Ht Hh p x. rewrite L. destruct (decide (x = t)) as [->|Hne]; [rewrite lookup_insert_eq, Ht | by rewrite lookup_insert_ne]. split; (intros (v & [= <-] & Hv); eexists; split; [done | congruence]).
Qed.

Lemma locks_drop s t u u' (m : gmap Z Z) :
  (forall p x, locks s !! p = Some x <-> exists u, users s !! x = Some u /\ p ∈ holds (pc u)) -> users s !! t = Some u -> holds (pc u') = [] ->
  (forall p x, m !! p = Some x <-> locks s !! p = Some x /\ p ∉ holds (pc u)) -> forall p x, m !! p = Some x <-> exists v, <[t := u']> (users s) !! x = Some v /\ p ∈ holds (pc v).
Proof.
  intros L Ht Hh Hm p x. rewrite Hm, L. destruct (decide (x = t)) as [->|Hne].
  - rewrite lookup_insert_eq, Ht. split; [intros [(v & [= <-] & Hv) Hn]; done | intros (v & [= <-] & Hv); rewrite Hh in Hv; by apply not_elem_of_nil in Hv].
  - rewrite lookup_insert_ne by done. split; [by intros [? _]|]. intros Hv. split; [done|]. intros Hp. assert (locks s !! p = Some t) as H1 by (apply L; by exists u). assert (locks s !! p = Some x) as H2 by (by apply L). congruence.
Qed.

Lemma local_step t s s' u u' :
  finv s -> users s !! t = Some u -> ow s' = ow s -> users s' = <[t := u']> (users s) ->
  fresh_ok s' t u' -> id_step t s (blocking_futex_id_ u) (blocking_futex_id_ u') -> is_live u' = is_live u ->
  pool (total (users s')) s' -> states s' = states s -> dom (fx s') = dom (fx s) -> (forall a p, active_futexes_ s !! a = Some p -> active_futexes_ s' !! a = Some p \/ total (users s') a = 0) ->
  (forall p x, locks s' !! p = Some x <-> exists v, users s' !! x = Some v /\ p ∈ holds (pc v)) -> (forall v p, sees (ow s) t = Some v -> clears (active_futexes_ s) v u p -> clears (active_futexes_ s') v u' p) ->
  finv s'.
Proof.
  intros I Ht Eo Eu Hf Hid Hl HP Hst Hfx Ha HL Hc. assert (framed t s s') as F.
  { split; try done; rewrite ?Eo; try done.
    - intros x. rewrite Eu. destruct (decide (x = t)) as [->|Hne]; [rewrite lookup_insert_eq, Ht; split; by eexists | by rewrite lookup_insert_ne].
    - intros x w. rewrite Eu. intros [[<- <-]|[Hne Hx]]%lookup_insert_Some; [by right | by left].
    - intros o v v'. rewrite Eu. intros Hv [[<- <-]|[Hne Hx]]%lookup_insert_Some; [congruence | left; congruence].
    - unfold live. rewrite Eu, (tally_insert _ _ t u u' Ht). lia.
    - apply (fi_ow _ I). }
  apply (frame_step t s); [done | done | |]; rewrite Eo; [|apply (fi_self _ I)]. intros p o Ho. destruct (fi_owner _ I p o Ho) as [?|(x & w & v & Hx & Hv & Hcl)]; [by left|]. right. destruct (decide (x = t)) as [->|Hne].
  - exists t, u', v. assert (w = u) as -> by congruence. rewrite Eu, lookup_insert_eq. split_and!; try done. by apply Hc.
  - exists x, w, v. assert (users s' !! x = Some w) as Hx' by (by rewrite Eu, lookup_insert_ne). split_and!; try done. by apply (clears_kept t s s' x).
Qed.
