(* ===== verification/FutexSteps.v ===== *)
(** * Futexes: the steps

    Each step but wakes and requeues keeps the invariant: those of a thread on its own,
    those under the thread lock, and threads that come and go. *)

From S2P Require Import Prelude Zx WaitQueue WaitQueueFacts OwnedWaitQueue OwnedWaitQueueFacts OwnedWaitQueueSteps OwnedWaitQueueOps OwnedWaitQueueWake OwnedWaitQueueTheorems Futex FutexFacts FutexSystem.
Import WaitQueue OwnedWaitQueue Futex.

Lemma alter_users (f : uthread -> uthread) t (us : gmap Z uthread) u : us !! t = Some u -> alter f t us = <[t := f u]> us.
Proof. intros H. apply map_eq. intros x. destruct (decide (x = t)) as [->|Hne]; [by rewrite lookup_alter_eq, lookup_insert_eq, H | by rewrite lookup_alter_ne, lookup_insert_ne]. Qed.

Lemma goto_users t c s u : users s !! t = Some u -> users (goto t c s) = <[t := mkUser (blocking_futex_id_ u) c]> (users s).
Proof. intros H. simpl. by rewrite (alter_users _ t _ u). Qed.

Lemma total_goto us t u u' a : us !! t = Some u -> total (<[t := u']> us) a = total us a - held u a + held u' a.
Proof. apply (tally_insert (fun u => held u a)). Qed.

(** [t] goes on with the same references and the same futex it waits for. *)
Lemma move_step t s s' u c :
  finv s -> users s !! t = Some u -> ow s' = ow s -> fx s' = fx s -> active_futexes_ s' = active_futexes_ s -> free_futexes_ s' = free_futexes_ s -> users s' = <[t := mkUser (blocking_futex_id_ u) c]> (users s) ->
  pc_ok c -> (forall e, e ∈ refs c -> e ∈ refs (pc u)) -> (forall a, held (mkUser (blocking_futex_id_ u) c) a = held u a) -> (forall v, kernel_ok (active_futexes_ s) v u -> kernel_ok (active_futexes_ s) v (mkUser (blocking_futex_id_ u) c)) ->
  plan_ok (users s') t c -> is_live (mkUser 0 c) = is_live u -> (forall p x, locks s' !! p = Some x <-> exists v, users s' !! x = Some v /\ p ∈ holds (pc v)) -> (forall v p, ~ clears (active_futexes_ s) v u p) ->
  finv s'.
Proof.
  intros I Ht Eo Ef Ea Er Eu Hok Hrefs Hh Hk Hp Hl HL Hc. assert (forall a, total (users s') a = total (users s) a) as HT by (intros a; rewrite Eu, (total_goto _ t u), Hh by done; lia).
  apply (local_step t s s' u (mkUser (blocking_futex_id_ u) c)); try done.
  - split; simpl; try done; rewrite ?Ea, ?Eo.
    + intros a p Hr. apply (fi_refs _ I t u); [done | by apply Hrefs].
    + destruct (fi_kernel _ I t u Ht) as (v & Hv & K). exists v. split; [done | by apply Hk].
  - by left.
  - apply (pool_ext (total (users s))); [done|]. by apply (pool_fields _ s), (fi_pool _ I).
  - unfold states. by rewrite Ea, Er.
  - by rewrite Ef.
  - intros a p Ha. left. by rewrite Ea.
  - intros v p _ H. by apply Hc in H.
Qed.

Lemma no_locks (us : gmap Z uthread) (m : gmap Z Z) p t u : (forall p x, m !! p = Some x <-> exists u, us !! x = Some u /\ p ∈ holds (pc u)) -> us !! t = Some u -> m !! p = None -> p ∉ holds (pc u).
Proof. intros L Ht Hn Hp. assert (m !! p = Some t) as H by (apply L; by exists u). congruence. Qed.

(** Taking a mutex that is free. *)
Lemma locks_take s (t : Z) u u' l :
  (forall p x, locks s !! p = Some x <-> exists u, users s !! x = Some u /\ p ∈ holds (pc u)) -> users s !! t = Some u -> holds (pc u) = [] -> holds (pc u') = l -> (forall p, p ∈ l -> locks s !! p = None) ->
  forall m : gmap Z Z, (forall p, m !! p = if decide (p ∈ l) then Some t else locks s !! p) -> forall p x, m !! p = Some x <-> exists v, <[t := u']> (users s) !! x = Some v /\ p ∈ holds (pc v).
Proof.
  intros L Ht Hh Hl Hfree m Hm p x. rewrite Hm. destruct (decide (p ∈ l)) as [Hp|Hp].
  - split.
    + intros [= <-]. exists u'. rewrite lookup_insert_eq. split; [done | by rewrite Hl].
    + intros (v & Hv & Hpv). destruct (decide (x = t)) as [->|Hne]; [done|]. rewrite lookup_insert_ne in Hv by done. exfalso. by apply (no_locks (users s) (locks s) p x v L Hv (Hfree p Hp)).
  - rewrite L. destruct (decide (x = t)) as [->|Hne]; [rewrite lookup_insert_eq, Ht | by rewrite lookup_insert_ne]. split; intros (v & [= <-] & Hv); [rewrite Hh in Hv; by apply not_elem_of_nil in Hv | by rewrite Hl in Hv].
Qed.

Lemma plan_goto (us : gmap Z uthread) t u c x c' : us !! t = Some u -> plan_ok us x c -> plan_ok (<[t := mkUser (blocking_futex_id_ u) c']> us) x c.
Proof.
  intros Ht. assert (forall o w, us !! o = Some w -> exists w', <[t := mkUser (blocking_futex_id_ u) c']> us !! o = Some w' /\ blocking_futex_id_ w' = blocking_futex_id_ w) as Hb.
  { intros o w Ho. destruct (decide (o = t)) as [->|Hne]; [eexists; rewrite lookup_insert_eq; split; [done|]; simpl; congruence | exists w; by rewrite lookup_insert_ne]. }
  unfold plan_ok. destruct c as [|y|y|y|y [o|]| | | | | |y|y|y|y [o|]| | |]; try done.
  1-3, 5-7: intros H o Ho; destruct (H o Ho) as [w Hw]; destruct (Hb o w Hw) as (w' & Hw' & _); by eexists.
  - intros (Hne & w & Hw & H). split; [done|]. destruct (Hb o w Hw) as (w' & Hw' & E). exists w'. by rewrite E.
  - intros (w & Hw & H). destruct (Hb o w Hw) as (w' & Hw' & E). exists w'. by rewrite E.
Qed.

(** The simple conditions of [move_step], where [E] is the old place of the thread; what
    remains are the plan and the mutexes. *)
Ltac moves I Ht E c :=
  match type of Ht with users ?s !! ?t = Some ?u =>
    apply (move_step t s _ u c I Ht); try done; try (by rewrite (goto_users _ _ _ u)); try (unfold is_live; by rewrite E); try (intros ?; unfold held; rewrite E; simpl; lia); try (unfold kernel_ok; by rewrite E);
    try (by rewrite E); try (split; simpl; [lia | repeat constructor; simpl; lia]); try (let Hc := fresh in intros ? ? Hc; unfold clears in Hc; by rewrite E in Hc); try rewrite (goto_users _ _ _ u) by done
  end.

Ltac same_plan I Ht E := apply plan_goto; [done|]; let HP := fresh in pose proof (fi_plan _ I _ _ Ht) as HP; by rewrite E in HP.

Ltac in_list := simpl; repeat first [apply list_elem_of_here | apply list_elem_of_further].

(** ** [FutexWait] up to the scheduler *)

Lemma wait_lock_step t s u x : finv s -> users s !! t = Some u -> pc u = Waiting_lock x -> locks s !! futex_ref x = None -> finv (goto t (Waiting_value x) (lock t (futex_ref x) s)).
Proof.
  intros I Ht E Hl. moves I Ht E (Waiting_value x); [same_plan I Ht E|]. simpl. apply (locks_take s t u _ [futex_ref x]); try done; [apply (fi_locks _ I) | by rewrite E | by intros p ->%list_elem_of_singleton|].
  intros p. destruct (decide (p = futex_ref x)) as [->|Hne]; [rewrite lookup_insert_eq, decide_True by apply list_elem_of_here; done | rewrite lookup_insert_ne, decide_False by (done || by intros ?%list_elem_of_singleton); done].
Qed.

Lemma wait_fails_step t s u x e : finv s -> users s !! t = Some u -> (pc u = Waiting_value x \/ pc u = Waiting_owner x) -> finv (wait_fails t x e s).
Proof.
  intros I Ht E. assert (holds (pc u) = [futex_ref x]) as Hh by (destruct E as [->| ->]; done).
  assert (forall p y, locks (wait_fails t x e s) !! p = Some y <-> exists v, users (wait_fails t x e s) !! y = Some v /\ p ∈ holds (pc v)) as HL.
  { unfold wait_fails. rewrite (goto_users _ _ _ u) by done. apply (locks_drop s t u); [apply (fi_locks _ I) | done | done|]. intros p y. simpl. rewrite lookup_delete_Some, Hh, list_elem_of_singleton. split; intros [? ?]; split; congruence. }
  unfold wait_fails in *. destruct E as [E|E]; moves I Ht E (Releasing [(futex_id x, futex_ref x, 1)] e).
Qed.

Lemma wait_value_step t s u x : finv s -> users s !! t = Some u -> pc u = Waiting_value x -> finv (wait_value t x s).
Proof.
  intros I Ht E. unfold wait_value. destruct (copy_from_user _ _) as [r v]. destruct (negb (bool_decide _)); [apply (wait_fails_step t s u); auto|]. destruct (negb _); [apply (wait_fails_step t s u); auto|].
  moves I Ht E (Waiting_owner x); [same_plan I Ht E|]. simpl. apply locks_same with (u := u); [apply (fi_locks _ I) | done | by rewrite E].
Qed.

Lemma wait_owner_step t s u x : finv s -> users s !! t = Some u -> pc u = Waiting_owner x -> exists s', wait_owner t x s = Some s' /\ finv s'.
Proof.
  intros I Ht E. unfold wait_owner. pose proof (fi_plan _ I t u Ht) as HP. rewrite E in HP. simpl in HP. assert ((futex_id x, futex_ref x) ∈ refs (pc u)) as Hr by (rewrite E; in_list). pose proof (fi_refs _ I t u _ _ Ht Hr) as Ha.
  destruct (pool_at _ _ _ _ (fi_pool _ I) Ha) as (_ & _ & H0). destruct (fi_kernel _ I t u Ht) as (v & Hv & K1 & K2). rewrite E in K1, K2. destruct K1 as [K0 K1].
  destruct (negb (bool_decide _)); [eexists; split; [done|]; apply (wait_fails_step t s u); auto|]. set (v0 := dispatcher_ (owner_validator x)) in *.
  assert (exists b, match v0 with Some o => if o =? t then Some true else id ← blocked_id o s; Some (id =? futex_id x) | None => Some false end = Some b /\
    (b = false -> forall o, v0 = Some o -> o <> t /\ exists w, users s !! o = Some w /\ blocking_futex_id_ w <> futex_id x)) as (b & Eb & Hb).
  { destruct v0 as [o|]; [|by exists false]. destruct (Z.eqb_spec o t) as [Hot|Hot]; [by exists true|]. destruct (HP o eq_refl) as [w Hw]. unfold blocked_id. rewrite Hw. cbn [fmap option_fmap option_map mbind option_bind].
    eexists. split; [done|]. intros Hne o' [= <-]. split; [done|]. exists w. split; [done|]. by apply Z.eqb_neq. }
  rewrite Eb. cbn [mbind option_bind]. destruct b; [eexists; split; [done|]; apply (wait_fails_step t s u); auto|]. eexists. split; [done|]. apply (local_step t s _ u (mkUser (futex_id x) (Waiting_block x v0))); try done.
  - split; simpl; try done.
    + by intros a p [= -> ->]%list_elem_of_singleton.
    + by exists v.
    + destruct v0 as [o|]; [|done]. destruct (Hb eq_refl o eq_refl) as (Hne & w & Hw & Hbw). split; [done|]. exists w. by rewrite lookup_insert_ne.
  - right. right. exists (futex_ref x). split; [done|]. apply (fi_locks _ I). exists u. split; [done|]. rewrite E. in_list.
  - unfold is_live. by rewrite E.
  - simpl. apply (pool_ext (total (users s))); [|by apply (pool_fields _ s), (fi_pool _ I)]. intros a. rewrite (total_goto _ t u) by done. unfold held. rewrite E. simpl. lia.
  - by left.
  - apply (locks_same s t u); [apply (fi_locks _ I) | done | by rewrite E].
  - intros v' p _ Hc. unfold clears in Hc. by rewrite E in Hc.
Qed.

(** ** [FutexRequeue] up to the scheduler *)

Lemma requeue_refs s t u x : finv s -> users s !! t = Some u -> refs (pc u) = [(wake_id x, wake_futex_ref x); (requeue_id x, requeue_futex_ref x)] -> requeue_ok x ->
  active_futexes_ s !! wake_id x = Some (wake_futex_ref x) /\ active_futexes_ s !! requeue_id x = Some (requeue_futex_ref x) /\ wake_futex_ref x <> requeue_futex_ref x.
Proof.
  intros I Ht E (Hne & _). assert (active_futexes_ s !! wake_id x = Some (wake_futex_ref x)) as H1 by (apply (fi_refs _ I t u); [done | rewrite E; in_list]).
  assert (active_futexes_ s !! requeue_id x = Some (requeue_futex_ref x)) as H2 by (apply (fi_refs _ I t u); [done | rewrite E; in_list]). split_and!; try done. intros Hc. rewrite Hc in H1. by apply Hne, (pool_inj _ s _ _ _ (fi_pool _ I) H1).
Qed.

Lemma requeue_lock_step t s u x : finv s -> users s !! t = Some u -> pc u = Requeue_lock x -> locks s !! wake_futex_ref x = None -> locks s !! requeue_futex_ref x = None ->
  finv (goto t (Requeue_value x) (lock t (requeue_futex_ref x) (lock t (wake_futex_ref x) s))).
Proof.
  intros I Ht E H1 H2. pose proof (fi_ok _ I t u Ht) as Hok. rewrite E in Hok. moves I Ht E (Requeue_value x); [same_plan I Ht E|]. simpl.
  apply (locks_take s t u _ [wake_futex_ref x; requeue_futex_ref x]); try done; [apply (fi_locks _ I) | by rewrite E | by intros p [->|[->|?%not_elem_of_nil]%elem_of_cons]%elem_of_cons|].
  intros p. case_decide as Hp.
  - apply elem_of_cons in Hp as [->|[->|?%not_elem_of_nil]%elem_of_cons]; [|apply lookup_insert_eq|done]. destruct (decide (wake_futex_ref x = requeue_futex_ref x)) as [->|Hne]; [apply lookup_insert_eq | rewrite lookup_insert_ne by done; apply lookup_insert_eq].
  - apply not_elem_of_cons in Hp as [Hp1 [Hp2 _]%not_elem_of_cons]. by rewrite !lookup_insert_ne.
Qed.

Lemma requeue_fails_step t s u x e : finv s -> users s !! t = Some u -> (pc u = Requeue_value x \/ pc u = Requeue_owner x) -> finv (requeue_fails t x e s).
Proof.
  intros I Ht E. assert (holds (pc u) = [wake_futex_ref x; requeue_futex_ref x]) as Hh by (destruct E as [->| ->]; done).
  assert (forall p y, locks (requeue_fails t x e s) !! p = Some y <-> exists v, users (requeue_fails t x e s) !! y = Some v /\ p ∈ holds (pc v)) as HL.
  { unfold requeue_fails. rewrite (goto_users _ _ _ u) by done. apply (locks_drop s t u); [apply (fi_locks _ I) | done | done|]. intros p y. simpl. rewrite !lookup_delete_Some, Hh, elem_of_cons, list_elem_of_singleton. split; [intros (? & ? & ?); split; [done|] | intros [? ?]; split_and!]; intuition congruence. }
  unfold requeue_fails in *.
  destruct E as [E|E]; (moves I Ht E (Releasing [(requeue_id x, requeue_futex_ref x, 1); (wake_id x, wake_futex_ref x, 1)] e); intros [a p]; rewrite E; simpl; rewrite !elem_of_cons; tauto).
Qed.

Lemma requeue_value_ok t s u x : finv s -> users s !! t = Some u -> pc u = Requeue_value x -> finv (requeue_value_step t x s).
Proof.
  intros I Ht E. pose proof (fi_ok _ I t u Ht) as Hok. rewrite E in Hok. unfold requeue_value_step. destruct (copy_from_user _ _) as [r v]. destruct (negb (bool_decide _)); [apply (requeue_fails_step t s u); auto|]. destruct (negb _); [apply (requeue_fails_step t s u); auto|].
  moves I Ht E (Requeue_owner x); [same_plan I Ht E|]. simpl. apply locks_same with (u := u); [apply (fi_locks _ I) | done | by rewrite E].
Qed.

Lemma requeue_owner_ok t s u x : finv s -> users s !! t = Some u -> pc u = Requeue_owner x -> exists s', requeue_owner_step t x s = Some s' /\ finv s'.
Proof.
  intros I Ht E. unfold requeue_owner_step. pose proof (fi_plan _ I t u Ht) as HP. rewrite E in HP. simpl in HP. pose proof (fi_ok _ I t u Ht) as Hok. rewrite E in Hok. destruct (negb (bool_decide _)); [eexists; split; [done|]; apply (requeue_fails_step t s u); auto|].
  set (v0 := dispatcher_ (requeue_validator x)) in *.
  assert (exists b, match v0 with Some o => id ← blocked_id o s; Some ((id =? wake_id x) || (id =? requeue_id x)) | None => Some false end = Some b /\
    (b = false -> forall o, v0 = Some o -> exists w, users s !! o = Some w /\ blocking_futex_id_ w <> wake_id x /\ blocking_futex_id_ w <> requeue_id x)) as (b & Eb & Hb).
  { destruct v0 as [o|]; [|by exists false]. destruct (HP o eq_refl) as [w Hw]. unfold blocked_id. rewrite Hw. cbn [fmap option_fmap option_map mbind option_bind].
    eexists. split; [done|]. intros [H1 H2]%orb_false_iff o' [= <-]. exists w. split_and!; [done | by apply Z.eqb_neq | by apply Z.eqb_neq]. }
  rewrite Eb. cbn [mbind option_bind]. destruct b; [eexists; split; [done|]; apply (requeue_fails_step t s u); auto|]. eexists. split; [done|].
  moves I Ht E (Requeue_move x v0).
  - apply plan_goto; [done|]. simpl. destruct v0 as [o|]; [|done]. by apply (Hb eq_refl).
  - simpl. apply locks_same with (u := u); [apply (fi_locks _ I) | done | by rewrite E].
Qed.

(** ** The rest of the calls *)

Lemma ask_step t s u a p : finv s -> users s !! t = Some u -> pc u = Asking a p -> finv (ask t a p s).2.
Proof. intros I Ht E. simpl. moves I Ht E (Releasing [(a, p, 1)] ZX_OK). simpl. apply locks_same with (u := u); [apply (fi_locks _ I) | done | by rewrite E]. Qed.

Lemma done_step t s u e : finv s -> users s !! t = Some u -> pc u = Releasing [] e -> finv (goto t Idle s).
Proof. intros I Ht E. moves I Ht E Idle. simpl. apply locks_same with (u := u); [apply (fi_locks _ I) | done | by rewrite E]. Qed.

Lemma return_step t s u e : finv s -> users s !! t = Some u -> pc u = Idle -> finv (goto t (Releasing [] e) s).
Proof. intros I Ht E. moves I Ht E (Releasing [] e). simpl. apply locks_same with (u := u); [apply (fi_locks _ I) | done | by rewrite E]. Qed.

(** ** Steps under the pool lock *)

Lemma pool_step t s s1 u u' T :
  finv s -> users s !! t = Some u -> pool_only s s1 -> pool T s1 -> (forall a, T a = total (users s) a - held u a + held u' a) -> states s1 = states s -> dom (fx s1) = dom (fx s) ->
  (forall a p, active_futexes_ s !! a = Some p -> active_futexes_ s1 !! a = Some p \/ T a = 0) -> fresh_ok (with_users (<[t := u']> (users s)) s1) t u' ->
  blocking_futex_id_ u' = blocking_futex_id_ u \/ blocking_futex_id_ u' = 0 -> holds (pc u) = [] -> holds (pc u') = [] -> is_live u' = is_live u ->
  (forall v p, sees (ow s) t = Some v -> clears (active_futexes_ s) v u p -> clears (active_futexes_ s1) v u' p) -> finv (with_users (<[t := u']> (users s)) s1).
Proof.
  intros I Ht (Eo & El & Eu & Em) P HT Hst Hfx Ha Hf Hb H1 H2 Hl Hc. assert (forall a, total (<[t := u']> (users s)) a = T a) as HT' by (intros a; by rewrite (total_goto _ t u), HT).
  apply (local_step t s _ u u'); try done.
  - destruct Hb as [Hb|Hb]; [by left | right; by left].
  - apply (pool_ext T); [done|]. by apply (pool_fields _ s1).
  - intros a p Hap. destruct (Ha a p Hap) as [?|?]; [by left | right; by rewrite HT'].
  - simpl. rewrite El. apply (locks_same s t u); [apply (fi_locks _ I) | done | congruence].
Qed.

Lemma with_users_goto t c s s1 u : users s1 = users s -> users s !! t = Some u -> goto t c s1 = with_users (<[t := mkUser (blocking_futex_id_ u) c]> (users s)) s1.
Proof. intros E Ht. unfold goto. by rewrite E, (alter_users _ t _ u). Qed.

Lemma idle_kernel s t u : finv s -> users s !! t = Some u -> holds (pc u) = [] -> (pc u = Idle \/ exists l e, pc u = Releasing l e) -> blocking_futex_id_ u = 0 /\ exists v, sees (ow s) t = Some v /\ v_queue v = None /\ dead_state (v_state v) = false.
Proof.
  intros I Ht _ Hp. destruct (fi_kernel _ I t u Ht) as (v & Hv & K1 & K2). destruct Hp as [E|(l & e & E)]; rewrite E in K1, K2; destruct K1 as [K0 K1]; (split; [done|]; by exists v).
Qed.

(** A thread starts a call with references that were counted. *)
Lemma start_step t s s1 u c T :
  finv s -> users s !! t = Some u -> pc u = Idle -> pool_only s s1 -> pool T s1 -> (forall a, T a = total (users s) a + held (mkUser 0 c) a) -> states s1 = states s -> dom (fx s1) = dom (fx s) ->
  (forall a p, active_futexes_ s !! a = Some p -> active_futexes_ s1 !! a = Some p) -> pc_ok c -> (forall a p, (a, p) ∈ refs c -> active_futexes_ s1 !! a = Some p) -> plan_ok (users s) t c ->
  (forall act v, v_queue v = None -> dead_state (v_state v) = false -> kernel_ok act v (mkUser 0 c)) -> holds c = [] -> is_live (mkUser 0 c) = 1 -> finv (goto t c s1).
Proof.
  intros I Ht E HO P HT Hst Hfx Ha Hok Hr Hp Hk Hh Hl. destruct (idle_kernel s t u I Ht) as (Hb & v & Hv & Hq & Hd); [by rewrite E | by left|]. rewrite (with_users_goto t c s s1 u (proj1 (proj2 (proj2 HO))) Ht), Hb.
  apply (pool_step t s s1 u (mkUser 0 c) T); try done.
  - intros a. rewrite HT. unfold held at 2. rewrite E. lia.
  - intros a p Hap. left. by apply Ha.
  - split; try done; simpl.
    + exists v. destruct HO as [-> _]. split; [done | by apply Hk].
    + rewrite <- Hb. by apply plan_goto.
  - by right.
  - by rewrite E.
  - unfold is_live at 2. by rewrite E.
  - intros v' p _ Hc. unfold clears in Hc. by rewrite E in Hc.
Qed.

Lemma validated a : ValidateFutexPointer a = ZX_OK -> a <> 0.
Proof. unfold ValidateFutexPointer. intros H ->. by rewrite Z.eqb_refl in H. Qed.

Lemma free_for_call s t u : finv s -> users s !! t = Some u -> pc u = Idle \/ pc u = Exited -> (2 <= length (free_futexes_ s))%nat.
Proof.
  intros I Ht E. apply two_free; [apply (fi_pool _ I) | apply (fi_ok _ I) | apply (fi_states _ I)|]. unfold quiet. rewrite (tally_delete _ _ t u Ht). assert (0 <= tally is_quiet (delete t (users s))) as H.
  { generalize (delete t (users s)). intros m. induction m as [|x w m Hx IH] using map_ind; [done|]. rewrite tally_insert_new by done. unfold is_quiet at 1. destruct (pc w); lia. }
  unfold is_quiet at 1. destruct E as [-> | ->]; lia.
Qed.

Lemma call_wait_step t s u a value v d :
  finv s -> users s !! t = Some u -> pc u = Idle -> known_owner v s -> exists s', call t (CallWait a value v d) s = Some s' /\ finv s'.
Proof.
  intros I Ht E Hv. simpl. unfold FutexWait, returns. case_bool_decide as Ha; cbn [negb]; [|eexists; split; [done|]; by apply (return_step t s u)].
  pose proof (free_for_call s t u I Ht (or_introl E)) as Hf. destruct (activate_spec (total (users s)) a s (fi_pool _ I)) as (p & s1 & E1 & P1 & O1 & A1 & K1 & _ & S1 & _ & D1); [by apply validated | by intros H; rewrite H in Hf; simpl in Hf; lia | intros q Hq; by apply (free_state s)|].
  rewrite E1. cbn [mbind option_bind]. eexists. split; [done|]. apply (start_step t s s1 u _ (plus (total (users s)) a 1)); try done.
  - intros b. unfold plus, held. simpl. lia.
  - by intros b q [= -> ->]%list_elem_of_singleton.
Qed.

Lemma call_find_step t s u a c :
  finv s -> users s !! t = Some u -> pc u = Idle -> (forall p, pc_ok (c p) /\ refs (c p) = [(a, p)] /\ holds (c p) = [] /\ is_live (mkUser 0 (c p)) = 1 /\ plan_ok (users s) t (c p)) -> (forall p b, held (mkUser 0 (c p)) b = one b a) ->
  (forall p act v, v_queue v = None -> dead_state (v_state v) = false -> kernel_ok act v (mkUser 0 (c p))) ->
  exists s', ('(r, s) ← FindActiveFutexLocked a s; match r with None => Some (goto t (Releasing [] ZX_OK) s) | Some p => Some (goto t (c p) s) end) = Some s' /\ finv s'.
Proof.
  intros I Ht E Hc Hh Hk. destruct (find_spec (total (users s)) a s (fi_pool _ I)) as (r & s1 & E1 & Hr & O1 & A1 & F1 & H1). rewrite E1. cbn [mbind option_bind]. destruct r as [p|]; [|subst s1; eexists; split; [done|]; by apply (return_step t s u)].
  eexists. split; [done|]. destruct (Hc p) as (C1 & C2 & C3 & C4 & C5). apply (start_step t s s1 u _ (plus (total (users s)) a 1)); try done.
  - intros b. unfold plus. rewrite Hh. lia.
  - unfold states. by rewrite A1, F1.
  - unfold FindActiveFutexLocked in E1. rewrite <- Hr in E1. destruct (fx s !! p) as [f|] eqn:Hf; [|done]. cbn [mbind option_bind] in E1. destruct (_ >? 0); [|done]. injection E1 as <-. simpl. by apply dom_insert_lookup_L.
  - intros b q Hb. by rewrite A1.
  - rewrite C2. intros b q [= -> ->]%list_elem_of_singleton. by rewrite A1.
  - by apply Hk.
Qed.

Lemma call_requeue_step t s u a n value action b m v :
  finv s -> users s !! t = Some u -> pc u = Idle -> 0 <= n -> 0 <= m -> known_owner v s -> exists s', call t (CallRequeue a n value action b m v) s = Some s' /\ finv s'.
Proof.
  intros I Ht E Hn Hm Hv. simpl. unfold FutexRequeue, returns. case_bool_decide as Ha; cbn [negb]; [|eexists; split; [done|]; by apply (return_step t s u)]. case_bool_decide as Hb; cbn [negb]; [|eexists; split; [done|]; by apply (return_step t s u)].
  destruct (Z.eqb_spec a b) as [Hab|Hab]; [eexists; split; [done|]; by apply (return_step t s u)|]. pose proof (free_for_call s t u I Ht (or_introl E)) as Hf.
  destruct (activate_spec (total (users s)) a s (fi_pool _ I)) as (p & s1 & E1 & P1 & O1 & A1 & K1 & _ & S1 & (l & El & Hl) & D1); [by apply validated | by intros H; rewrite H in Hf; simpl in Hf; lia | intros q Hq; by apply (free_state s)|].
  rewrite E1. cbn [mbind option_bind]. destruct (activate_spec (plus (total (users s)) a 1) b s1 P1) as (q & s2 & E2 & P2 & O2 & A2 & K2 & _ & S2 & _ & D2).
  { by apply validated. }
  { intros H. rewrite El, H, app_nil_r in Hf. lia. }
  { intros x Hx. destruct O1 as [-> _]. apply (free_state s); [done|]. rewrite El. apply elem_of_app. by right. }
  rewrite E2. cbn [mbind option_bind]. eexists. split; [done|]. apply (start_step t s s2 u _ (plus (plus (total (users s)) a 1) b 1)); try done.
  - by apply (pool_only_trans s s1).
  - intros c. unfold plus, held. simpl. lia.
  - by rewrite S2.
  - by rewrite D2.
  - intros c x Hc. by apply K2, K1.
  - intros c x [[= -> ->]|[[= -> ->]|?%not_elem_of_nil]%elem_of_cons]%elem_of_cons; [by apply K2 | done | done].
Qed.

Lemma wait_find_step t s u e : finv s -> users s !! t = Some u -> pc u = Woken e -> exists s', wait_find t e s = Some s' /\ finv s'.
Proof.
  intros I Ht E. unfold wait_find, blocked_id. rewrite Ht. cbn [fmap option_fmap option_map mbind option_bind]. set (b := blocking_futex_id_ u). destruct (fi_kernel _ I t u Ht) as (v & Hv & K1 & K2). rewrite E in K1, K2. destruct K1 as [Kq Kb]. fold b in Kb.
  destruct (Z.eqb_spec b 0); [done|]. cbn [negb]. destruct (find_spec (total (users s)) b s (fi_pool _ I)) as (r & s1 & E1 & Hr & O1 & A1 & F1 & H1). rewrite E1. cbn [mbind option_bind].
  destruct (total_active _ s b (fi_pool _ I) Kb) as [p Hp]; [apply (id_held _ t u); [apply (fi_ok _ I) | done | right; by exists e]|]. rewrite Hp in Hr. subst r. cbn [mbind option_bind]. eexists. split; [done|]. pose proof O1 as (Oo & Ol & Ou & Om).
  assert (goto t (Clearing b p e) (with_users (set_id t 0 (users s1)) s1) = with_users (<[t := mkUser 0 (Clearing b p e)]> (users s)) s1) as ->.
  { unfold goto, set_id. simpl. rewrite Ou, (alter_users _ t _ u Ht). rewrite (alter_users _ t _ (mkUser 0 (pc u))) by apply lookup_insert_eq. by rewrite insert_insert_eq. }
  apply (pool_step t s s1 u (mkUser 0 (Clearing b p e)) (plus (total (users s)) b 1)); try done.
  - intros a. unfold plus, held. rewrite E. simpl. fold b. lia.
  - unfold states. by rewrite A1, F1.
  - unfold FindActiveFutexLocked in E1. rewrite Hp in E1. destruct (fx s !! p) as [f|] eqn:Hf; [|done]. cbn [mbind option_bind] in E1. destruct (_ >? 0); [|done]. injection E1 as <-. simpl. by apply dom_insert_lookup_L.
  - intros a q Ha. left. by rewrite A1.
  - split; simpl; try done; [intros a q [= -> ->]%list_elem_of_singleton; by rewrite A1|]. exists v. by rewrite Oo.
  - by right.
  - by rewrite E.
  - unfold is_live at 2. by rewrite E.
  - intros v' q _. unfold clears. rewrite E. fold b. simpl. congruence.
Qed.

(** Only the references of [t] are left: nobody waits, and no thread has to clear. *)
Lemma last_reference s t u a p n :
  finv s -> users s !! t = Some u -> active_futexes_ s !! a = Some p -> n <= held u a -> total (users s) a = n -> (exists l e, pc u = Releasing l e) -> owner p (ow s) = None.
Proof.
  intros I Ht Ha Hn HT (l & e & E). destruct (owner p (ow s)) as [o|] eqn:Ho; [|done]. exfalso. assert (forall x w, users s !! x = Some w -> x <> t -> held w a <= 0) as Hz.
  { intros x w Hx Hne. pose proof (held_total2 (users s) t u x w a (fi_ok _ I) Ht Hx ltac:(congruence)). lia. }
  destruct (fi_owner _ I p o Ho) as [Hw|(x & w & v & Hx & Hv & Hc)].
  - destruct (waiters p (ker (ow s))) as [|x k] eqn:Ew; [done|]. destruct (waiter_user s p x I) as (w & Hx & Hs & H0 & Hb); [rewrite Ew; apply list_elem_of_here|]. assert (blocking_futex_id_ w = a) as Hba by (by apply (pool_inj _ s _ _ p (fi_pool _ I))).
    assert (x <> t) as Hne by congruence. specialize (Hz x w Hx Hne). unfold held in Hz. rewrite Hs, Hba, one_refl in Hz. lia.
  - assert (x <> t) as Hne by (intros ->; assert (w = u) as -> by congruence; unfold clears in Hc; by rewrite E in Hc). specialize (Hz x w Hx Hne).
    apply clears_ref in Hc as [(Hs & _ & Hb)|[[[e' Hs] Hb]|[a' Hr]]].
    + assert (blocking_futex_id_ w = a) as Hba by (by apply (pool_inj _ s _ _ p (fi_pool _ I))). unfold held in Hz. rewrite Hs, Hba, one_refl in Hz. lia.
    + assert (blocking_futex_id_ w = a) as Hba by (by apply (pool_inj _ s _ _ p (fi_pool _ I))). unfold held in Hz. rewrite Hs, Hba, one_refl in Hz. lia.
    + pose proof (fi_refs _ I x w a' p Hx Hr) as Ha'. assert (a' = a) as -> by (by apply (pool_inj _ s _ _ p (fi_pool _ I))). pose proof (refs_held w a p (fi_ok _ I x w Hx) Hr). lia.
Qed.

Lemma release_step t s u a p n l e :
  finv s -> users s !! t = Some u -> pc u = Releasing ((a, p, n) :: l) e -> exists s1, Release p n s = Some s1 /\ finv (goto t (Releasing l e) s1).
Proof.
  intros I Ht E. pose proof (fi_ok _ I t u Ht) as Hok. rewrite E in Hok. destruct Hok as [Hlen Hpos]. apply Forall_cons in Hpos as [Hn Hpos]. simpl in Hn, Hlen. assert (active_futexes_ s !! a = Some p) as Ha by (apply (fi_refs _ I t u); [done | rewrite E; in_list]).
  assert (n <= held u a) as Hh by (unfold held; rewrite E; simpl; rewrite one_refl; pose proof (listed_nonneg a l Hpos); lia). pose proof (held_total (users s) t u a (fi_ok _ I) Ht) as HT.
  destruct (release_spec (total (users s)) a p n s (fi_pool _ I) Ha) as (s1 & E1 & P1 & O1 & A1 & S1 & D1); [lia | intros Heq; apply (last_reference s t u a p n); try done; by exists ((a, p, n) :: l), e|]. exists s1. split; [done|].
  destruct (idle_kernel s t u I Ht) as (Hb & v & Hv & Hq & Hd); [by rewrite E | right; by exists ((a, p, n) :: l), e|]. rewrite (with_users_goto t _ s s1 u (proj1 (proj2 (proj2 O1))) Ht), Hb.
  apply (pool_step t s s1 u (mkUser 0 (Releasing l e)) (plus (total (users s)) a (- n))); try done.
  - intros b. unfold plus, held. rewrite E. simpl. lia.
  - intros b q Hbq. rewrite A1. case_decide as Hd'; [|by left]. destruct (decide (b = a)) as [->|Hne]; [right; rewrite plus_eq; lia | left; by rewrite lookup_delete_ne].
  - split; simpl; try done; [split; [lia | done] | |exists v; destruct O1 as [-> _]; by split].
    intros b q Hr. assert (active_futexes_ s !! b = Some q) as Hbq by (apply (fi_refs _ I t u); [done | rewrite E; by right]). rewrite A1. case_decide as Hd'; [|done]. rewrite lookup_delete_ne; [done|]. intros <-. pose proof (listed_in a q l Hpos Hr). unfold held in HT. rewrite E in HT. simpl in HT. rewrite one_refl in HT. lia.
  - by right.
  - by rewrite E.
  - unfold is_live at 2. by rewrite E.
  - intros v' q _ Hc. unfold clears in Hc. by rewrite E in Hc.
Qed.

(** ** Steps under the thread lock *)

(** *** Signals and priorities *)

Definition core (v : view) : bool * zx_status_t * option Z := (dead_state (v_state v), v_status v, v_queue v).

Lemma kernel_ok_core act v v' u : core v' = core v -> kernel_ok act v u -> kernel_ok act v' u.
Proof. unfold core, kernel_ok. intros [= -> -> ->]. done. Qed.

Lemma clears_core act v v' u p : core v' = core v -> clears act v u p -> clears act v' u p.
Proof. unfold core, clears. intros [= _ _ ->]. done. Qed.

Lemma core_of s s' x v : core <$> sees s' x = core <$> sees s x -> sees s x = Some v -> exists v', sees s' x = Some v' /\ core v' = core v.
Proof. intros H Hv. rewrite Hv in H. destruct (sees s' x) as [v'|]; [|done]. simpl in H. apply (inj Some) in H. by exists v'. Qed.

Lemma ow_step s w :
  finv s -> good false [] w -> (forall x, is_Some (pis w !! x) <-> is_Some (pis (ow s) !! x)) -> same_queues (ker (ow s)) (ker w) -> (forall x, core <$> sees w x = core <$> sees (ow s) x) ->
  (forall p, waiters p (ker w) ≡ₚ waiters p (ker (ow s))) -> owners w = owners (ow s) -> finv (with_ow w s).
Proof.
  intros I G Hp Hq Hc Hw Ho. pose proof I as [I1 I2 I3 I4 I5 I6 I7 I8 I9 I10 I11 I12]. split; simpl; try done.
  - intros x. by rewrite Hp.
  - intros p. rewrite <- (Hq p). apply I3.
  - by apply (pool_fields _ s).
  - intros t u Ht. destruct (I8 t u Ht) as (v & Hv & K). destruct (core_of _ _ t v (Hc t) Hv) as (v' & Hv' & E). exists v'. split; [done | by apply (kernel_ok_core _ v)].
  - intros p o. unfold owner. rewrite Ho. intros Hpo. destruct (I11 p o Hpo) as [Hn|(x & u & v & Hx & Hv & Hcl)].
    + left. intros E. specialize (Hw p). rewrite E in Hw. by apply Permutation_nil_l in Hw.
    + right. destruct (core_of _ _ x v (Hc x) Hv) as (v' & Hv' & E). exists x, u, v'. split_and!; try done. by apply (clears_core _ v).
  - intros p o. unfold owner. rewrite Ho, Hw. apply I12.
Qed.

Lemma sees_core_same s s' x : sees s' x = sees s x -> core <$> sees s' x = core <$> sees s x.
Proof. by intros ->. Qed.

Lemma good_pis b s : good b [] s -> forall x, is_Some (pis s !! x) <-> is_Some (sees s x).
Proof. intros G x. rewrite <- (sh_dom _ _ (proj1 G)). unfold sees. destruct (threads (ker s) !! x); split; intros [y Hy]; try done; by eexists. Qed.

Lemma core_pis b s s' : good b [] s -> good b [] s' -> (forall x, core <$> sees s' x = core <$> sees s x) -> forall x, is_Some (pis s' !! x) <-> is_Some (pis s !! x).
Proof. intros G G' H x. rewrite (good_pis b s G), (good_pis b s' G'). specialize (H x). destruct (sees s' x), (sees s x); try done; split; intros _; by eexists. Qed.

Lemma user_thread s t u : finv s -> users s !! t = Some u -> exists th v, threads (ker (ow s)) !! t = Some th /\ sees (ow s) t = Some v /\ v = strip th /\ kernel_ok (active_futexes_ s) v u.
Proof. intros I Ht. destruct (fi_kernel _ I t u Ht) as (v & Hv & K). unfold sees in Hv. destruct (threads (ker (ow s)) !! t) as [th|] eqn:E; [|done]. injection Hv as <-. exists th, (strip th). unfold sees. by rewrite E. Qed.

Lemma with_signals_core t th sig i w x : threads (ker w) !! t = Some th -> core <$> sees (with_ker (with_thread t (set_signals sig i th) (ker w)) w) x = core <$> sees w x.
Proof. intros Ht. unfold sees. simpl. destruct (decide (x = t)) as [->|Hne]; [by rewrite lookup_insert_eq, Ht | by rewrite lookup_insert_ne]. Qed.

Lemma set_signals_step t th sig i s : finv s -> threads (ker (ow s)) !! t = Some th -> finv (with_ow (with_ker (with_thread t (set_signals sig i th) (ker (ow s))) (ow s)) s).
Proof.
  intros I Ht. assert (forall x, core <$> sees (with_ker (with_thread t (set_signals sig i th) (ker (ow s))) (ow s)) x = core <$> sees (ow s) x) as Hc by (intros x; by apply with_signals_core).
  apply ow_step; try done. apply signal_good; [apply (fi_ow _ I) | done].
Qed.

Lemma priority_step t u n s : finv s -> users s !! t = Some u -> 0 <= n -> exists w, sched_change_priority false t n (ow s) = Some w /\ finv (with_ow w s).
Proof.
  intros I Ht Hn. destruct (user_thread s t u I Ht) as (th & v & Hth & _). destruct (change_priority_owned false t n (ow s) th (fi_ow _ I) Hth Hn) as (w & E & G & Hs & Hw & Hq & Ho). exists w. split; [done|].
  apply ow_step; try done; [apply (core_pis false); [apply (fi_ow _ I) | done|] |]; intros x; by apply sees_core_same.
Qed.

(** *** One thread and the scheduler *)

Record sched (t : Z) (u u' : uthread) (s s' : State) : Prop := {
  sc_user : users s !! t = Some u;
  sc_users : users s' = <[t := u']> (users s);
  sc_pool : fx s' = fx s /\ active_futexes_ s' = active_futexes_ s /\ free_futexes_ s' = free_futexes_ s;
  sc_held : forall a, a <> 0 -> held u' a = held u a;
  sc_live : is_live u' = is_live u;
  sc_good : good false [] (ow s');
  sc_queues : same_queues (ker (ow s)) (ker (ow s'));
  sc_sees : forall x, x <> t -> sees (ow s') x = sees (ow s) x;
  sc_fresh : fresh_ok s' t u';
  sc_id : blocking_futex_id_ u' = blocking_futex_id_ u \/ blocking_futex_id_ u' = 0;
  sc_locks : forall p x, locks s' !! p = Some x <-> exists v, users s' !! x = Some v /\ p ∈ holds (pc v);
}.

Lemma sched_framed t u u' s s' : finv s -> sched t u u' s s' -> framed t s s'.
Proof.
  intros I [Ht Eu (Ef & Ea & Er) Hh Hl G Hq Hs Hf Hid HL].
  assert (forall x, is_Some (users s' !! x) <-> is_Some (users s !! x)) as Hdom by (intros x; rewrite Eu; destruct (decide (x = t)) as [->|Hne]; [rewrite lookup_insert_eq, Ht; split; by eexists | by rewrite lookup_insert_ne]). split; try done.
  - intros x w. rewrite Eu. intros [[<- <-]|[Hne Hx]]%lookup_insert_Some; [by right|]. left. split_and!; [done | done | by apply Hs].
  - intros o v v'. rewrite Eu. intros Hv [[<- <-]|[Hne Hx]]%lookup_insert_Some; [|left; congruence]. assert (v = u) as -> by congruence. destruct Hid as [->|Hid]; [by left | right; by left].
  - apply (pool_ext (total (users s))); [|by apply (pool_fields _ s), (fi_pool _ I)]. intros a H0. rewrite Eu, (total_goto _ t u) by done. rewrite Hh by done. lia.
  - unfold states. by rewrite Ea, Er.
  - unfold live. rewrite Eu, (tally_insert _ _ t u u' Ht). lia.
  - intros a p Ha. left. by rewrite Ea.
  - intros x. rewrite (good_pis false _ G), (good_pis false _ (fi_ow _ I)). destruct (decide (x = t)) as [->|Hne]; [|by rewrite Hs]. destruct (fr_kernel _ _ _ Hf) as (v & -> & _). destruct (fi_kernel _ I t u Ht) as (v0 & -> & _). split; by eexists.
  - by rewrite Ef.
Qed.

(** A queue that the step does not touch. *)
Lemma owner_frame t u u' s s' p o :
  finv s -> sched t u u' s s' -> owner p (ow s) = Some o -> waiters p (ker (ow s')) ≡ₚ waiters p (ker (ow s)) -> (forall v, sees (ow s) t = Some v -> clears (active_futexes_ s) v u p -> exists v', sees (ow s') t = Some v' /\ clears (active_futexes_ s') v' u' p) ->
  waiters p (ker (ow s')) <> [] \/ exists x w v, users s' !! x = Some w /\ sees (ow s') x = Some v /\ clears (active_futexes_ s') v w p.
Proof.
  intros I C Ho Hw Hc. pose proof (sched_framed t u u' s s' I C) as F. destruct (fi_owner _ I p o Ho) as [Hn|(x & w & v & Hx & Hv & Hcl)].
  - left. intros E. rewrite E in Hw. by apply Permutation_nil_l in Hw.
  - right. destruct (decide (x = t)) as [->|Hne].
    + assert (w = u) as -> by (pose proof (sc_user _ _ _ _ _ C); congruence). destruct (Hc v Hv Hcl) as (v' & Hv' & Hcl'). exists t, u', v'. rewrite (sc_users _ _ _ _ _ C), lookup_insert_eq. by split_and!.
    + assert (users s' !! x = Some w) as Hx' by (by rewrite (sc_users _ _ _ _ _ C), lookup_insert_ne). exists x, w, v. rewrite (sc_sees _ _ _ _ _ C) by done. split_and!; try done. by apply (clears_kept t s s' x).
Qed.

(** *** A thread ends *)

Lemma exit_step t s u : finv s -> users s !! t = Some u -> pc u = Idle -> exists w, exit_thread false t (ow s) = Some w /\ finv (goto t Exited (with_ow w s)).
Proof.
  intros I Ht E. destruct (user_thread s t u I Ht) as (th & v & Hth & Hv & -> & K1 & K2). rewrite E in K1, K2. destruct K1 as [Kq Kb]. destruct (exit_owned false t (ow s) th (fi_ow _ I) Hth Kq) as (w & Ew & G & Hd & Hs & Hq & Ho). exists w. split; [done|].
  assert (exists vt, sees w t = Some vt /\ v_queue vt = None /\ dead_state (v_state vt) = true) as (vt & Hvt & Hvq & Hvd).
  { unfold exit_thread, DisownAllQueues in Ew. rewrite Hth in Ew. cbn [mbind option_bind] in Ew. simpl in Ew. rewrite lookup_insert_eq in Ew. cbn [mbind option_bind] in Ew. destruct (pis (ow s) !! t) as [p|]; [|done]. injection Ew as <-. unfold sees. simpl. rewrite lookup_insert_eq. by eexists. }
  set (s' := goto t Exited (with_ow w s)). assert (users s' = <[t := mkUser 0 Exited]> (users s)) as Eu by (unfold s'; rewrite (goto_users _ _ _ u) by done; by rewrite Kb).
  assert (sched t u (mkUser 0 Exited) s s') as C.
  { split; try done; try (rewrite E; done).
    - intros a _. unfold held. by rewrite E.
    - unfold is_live. by rewrite E.
    - intros p. simpl. by rewrite Hq.
    - split; simpl; try done; [by intros a p ?%not_elem_of_nil | by exists vt].
    - by right.
    - rewrite Eu. apply (locks_same s t u); [apply (fi_locks _ I) | done | by rewrite E]. }
  assert (forall p, waiters p (ker w) = waiters p (ker (ow s))) as Hw by (intros p; unfold waiters; by rewrite Hq).
  apply (frame_step t s); [done | by apply (sched_framed t u (mkUser 0 Exited)) | |]; intros p o; simpl; intros [Hpo Hne]%Ho.
  - apply (owner_frame t u (mkUser 0 Exited) s s' p o I C Hpo); [simpl; by rewrite Hw|]. intros v' _ Hc. unfold clears in Hc. by rewrite E in Hc.
  - rewrite Hw. by apply (fi_self _ I).
Qed.

(** *** A wait is interrupted *)

Lemma interrupt_step t s u e : finv s -> users s !! t = Some u -> pc u = Sleeping -> e <> ZX_OK -> exists st w, unblock_thread false t e (ow s) = Some (st, w) /\ finv (with_ow w s).
Proof.
  intros I Ht E He. destruct (user_thread s t u I Ht) as (th & v & Hth & Hv & -> & K1 & K2). rewrite E in K1, K2. destruct (unblock_thread_owned false t e (ow s) th (fi_ow _ I) Hth) as (st & w & Ew & G & H). exists st, w. split; [done|]. change (v_queue (strip th)) with (blocking_wait_queue th) in K1.
  destruct (blocking_wait_queue th) as [p|] eqn:Hbq; [|destruct H as [_ ->]; by destruct s]. destruct H as (_ & [U1 U2 U3 U4 (th0 & Hth0 & Hst) U6 U7 U8]). destruct K1 as [Kb Ka]. set (s' := with_ow w s).
  assert (users s' = <[t := u]> (users s)) as Eu by (simpl; by rewrite insert_id).
  assert (sched t u u s s') as C.
  { split; try done.
    - split; simpl; try done; [apply (fi_ok _ I t u Ht) | by rewrite E; intros a q ?%not_elem_of_nil | | by rewrite E]. eexists. split; [done|]. unfold kernel_ok. rewrite E. unfold v_queue, strip, woken. simpl. by rewrite decide_False.
    - by left.
    - apply (fi_locks _ I). }
  apply (frame_step t s); [done | by apply (sched_framed t u u) | |]; intros q o; unfold owner; simpl; rewrite U7; intros Hq.
  - destruct (decide (q = p)) as [->|Hne].
    + right. exists t, u. eexists. split_and!; [done | done|]. unfold clears. rewrite E. unfold v_queue, strip, woken. simpl. by split_and!.
    + apply (owner_frame t u u s s' q o I C Hq); [by apply U3|]. intros v' Hv'' Hc. unfold clears in Hc. rewrite E in Hc. destruct Hc as (Hc & _). rewrite Hv in Hv''. injection Hv'' as <-. unfold v_queue, strip in Hc. simpl in Hc. congruence.
  - destruct (decide (q = p)) as [->|Hne]; [|rewrite (U3 q Hne); by apply (fi_self _ I)]. rewrite U2. intros [_ Hin]%list_elem_of_filter. by apply (fi_self _ I p o).
Qed.

(** *** Blocking and running again *)

Lemma interruptable_spec b t w th : threads (ker w) !! t = Some th -> set_interruptable b t w = Some (with_ker (with_thread t (set_signals (signals th) b th) (ker w)) w).
Proof. intros H. unfold set_interruptable. by rewrite H. Qed.

Lemma interruptable_step b t s u : finv s -> users s !! t = Some u -> exists w, set_interruptable b t (ow s) = Some w /\ finv (with_ow w s) /\ (forall x, core <$> sees w x = core <$> sees (ow s) x) /\ (forall x, blocked_status <$> threads (ker w) !! x = blocked_status <$> threads (ker (ow s)) !! x) /\
  owners w = owners (ow s) /\ queues (ker w) = queues (ker (ow s)).
Proof.
  intros I Ht. destruct (user_thread s t u I Ht) as (th & v & Hth & _). rewrite (interruptable_spec b t _ th Hth). eexists. split; [done|]. split_and!; try done.
  - by apply set_signals_step.
  - intros x. by apply with_signals_core.
  - intros x. simpl. destruct (decide (x = t)) as [->|Hne]; [by rewrite lookup_insert_eq, Hth | by rewrite lookup_insert_ne].
Qed.

Lemma wait_resume_step t s u : finv s -> users s !! t = Some u -> pc u = Sleeping -> (forall th, threads (ker (ow s)) !! t = Some th -> blocking_wait_queue th = None) -> exists s', wait_resume t s = Some s' /\ finv s'.
Proof.
  intros I Ht E Hn. destruct (interruptable_step false t s u I Ht) as (w & Ew & I1 & Hc & Hst & Ho & Hq). unfold wait_resume, blocked_id. destruct (user_thread s t u I Ht) as (th & v & Hth & Hv & -> & K1 & K2). rewrite Hth. cbn [mbind option_bind]. rewrite Ew. cbn [mbind option_bind].
  rewrite Ht. cbn [fmap option_fmap option_map mbind option_bind]. rewrite E in K1, K2. change (v_queue (strip th)) with (blocking_wait_queue th) in K1. rewrite (Hn th Hth) in K1. change (v_status (strip th)) with (blocked_status th) in K1.
  destruct (core_of _ _ t _ (Hc t) Hv) as (v' & Hv' & Ev). assert (v_queue v' = None /\ dead_state (v_state v') = false) as [Hvq Hvd] by (unfold core in Ev; injection Ev as -> _ ->; split; [apply (Hn th Hth) | done]).
  set (s1 := with_ow w s) in *. case_bool_decide as Hok.
  - case_decide as Hb; [|done]. rewrite Hb, Z.eqb_refl. eexists. split; [done|]. set (s' := goto _ _ _). assert (users s' = <[t := mkUser 0 (Releasing [] ZX_OK)]> (users s1)) as Eu by (unfold s'; rewrite (goto_users _ _ _ u) by done; by rewrite Hb).
    assert (sched t u (mkUser 0 (Releasing [] ZX_OK)) s1 s') as C.
    { split; try done.
      - intros a H0. unfold held. rewrite E, Hb. simpl. by rewrite one_ne.
      - unfold is_live. by rewrite E.
      - apply (fi_ow _ I1).
      - split; simpl; try done; [split; [simpl; lia | constructor] | by intros a p ?%not_elem_of_nil | by exists v'].
      - by right.
      - rewrite Eu. apply (locks_same s1 t u); [apply (fi_locks _ I1) | done | by rewrite E]. }
    apply (frame_step t s1); [done | by apply (sched_framed t u (mkUser 0 (Releasing [] ZX_OK))) | | apply (fi_self _ I1)]. intros p o Hp. apply (owner_frame t u (mkUser 0 (Releasing [] ZX_OK)) s1 s' p o I1 C Hp); [done|].
    intros v0 _ Hcl. unfold clears in Hcl. rewrite E in Hcl. by destruct Hcl as (_ & ? & _).
  - case_decide as Hb; [done|]. eexists. split; [done|]. set (s' := goto _ _ _). set (u' := mkUser (blocking_futex_id_ u) (Woken (blocked_status th))). assert (users s' = <[t := u']> (users s1)) as Eu by (unfold s'; by rewrite (goto_users _ _ _ u)).
    assert (sched t u u' s1 s') as C.
    { split; try done.
      - intros a H0. unfold held. by rewrite E.
      - unfold is_live. by rewrite E.
      - apply (fi_ow _ I1).
      - split; simpl; try done; [by intros a p ?%not_elem_of_nil | by exists v'].
      - by left.
      - rewrite Eu. apply (locks_same s1 t u); [apply (fi_locks _ I1) | done | by rewrite E]. }
    apply (frame_step t s1); [done | by apply (sched_framed t u u') | | apply (fi_self _ I1)]. intros p o Hp. apply (owner_frame t u u' s1 s' p o I1 C Hp); [done|].
    intros v0 Hv0 Hcl. exists v0. split; [done|]. unfold clears in *. rewrite E in Hcl. by destruct Hcl as (_ & _ & ?).
Qed.

Lemma futex_queue s a p : finv s -> active_futexes_ s !! a = Some p -> is_Some (queues (ker (ow s)) !! p).
Proof. intros I Ha. apply (fi_queues _ I). destruct (pool_at _ _ _ _ (fi_pool _ I) Ha) as (-> & _). by eexists. Qed.

Lemma living_Some o s x : living o s = Some x -> o = Some x.
Proof. intros H. by apply living_alive in H as [? _]. Qed.

(** Whoever is to own the futex does not wait for it. *)
Lemma plan_not_waiting s a p o v : finv s -> active_futexes_ s !! a = Some p -> users s !! o = Some v -> blocking_futex_id_ v <> a -> o ∉ waiters p (ker (ow s)).
Proof. intros I Ha Ho Hb Hin. destruct (waiter_user s p o I Hin) as (v' & Hv' & _ & _ & Hp). assert (v' = v) as -> by congruence. by apply Hb, (pool_inj _ s _ _ p (fi_pool _ I)). Qed.

Lemma with_owner_ne p q o w : q <> p -> owners (with_owner p o w) !! q = owners w !! q.
Proof. intros H. destruct o; simpl; [by rewrite lookup_insert_ne | by rewrite lookup_delete_ne]. Qed.
Lemma with_owner_eq p o w : owners (with_owner p o w) !! p = o.
Proof. destruct o; simpl; [apply lookup_insert_eq | apply lookup_delete_eq]. Qed.

(** The mutex of [x] is given up, with the queue [futex_ref x] and its owner changed. *)
Lemma blocked_step t s u x o w c v' :
  finv s -> users s !! t = Some u -> pc u = Waiting_block x o -> good false [] w -> same_queues (ker (ow s)) (ker w) -> (forall y, y <> t -> sees w y = sees (ow s) y) -> sees w t = Some v' ->
  owners w = owners (with_owner (futex_ref x) (living o (ow s)) (ow s)) -> (forall q, q <> futex_ref x -> waiters q (ker w) ≡ₚ waiters q (ker (ow s))) -> (forall y, y <> t -> y ∈ waiters (futex_ref x) (ker w) -> y ∈ waiters (futex_ref x) (ker (ow s))) ->
  pc_ok c -> refs c = [] -> holds c = [] -> (forall a, held (mkUser (futex_id x) c) a = one a (futex_id x)) -> is_live (mkUser 0 c) = 1 -> plan_ok (users s) t c -> kernel_ok (active_futexes_ s) v' (mkUser (futex_id x) c) ->
  (waiters (futex_ref x) (ker w) <> [] \/ clears (active_futexes_ s) v' (mkUser (futex_id x) c) (futex_ref x)) -> finv (goto t c (unlock (futex_ref x) (with_ow w s))).
Proof.
  intros I Ht E G Hsq Hse Hv' Ho Hw Hwp Hok Hrf Hhd Hh Hlv Hpl Hk Hcl. pose proof (fi_plan _ I t u Ht) as HP. rewrite E in HP. assert (active_futexes_ s !! futex_id x = Some (futex_ref x)) as Ha by (apply (fi_refs _ I t u); [done | rewrite E; in_list]).
  destruct (fi_kernel _ I t u Ht) as (v & Hv & K1 & K2). rewrite E in K1, K2. destruct K1 as [Kq Kb]. set (p := futex_ref x) in *. set (u' := mkUser (futex_id x) c). set (s' := goto t c (unlock p (with_ow w s))).
  assert (users s' = <[t := u']> (users s)) as Eu by (unfold s'; rewrite (goto_users _ _ _ u) by done; by rewrite Kb).
  assert (sched t u u' s s') as C.
  { split; try done.
    - intros a _. unfold u'. rewrite Hh. unfold held. by rewrite E.
    - unfold is_live, u'. rewrite E. apply Hlv.
    - split; simpl; try done; [by rewrite Hrf; intros a q ?%not_elem_of_nil | by exists v' | rewrite (alter_users _ t _ u Ht); by apply plan_goto].
    - left. by rewrite Kb.
    - rewrite Eu. apply (locks_drop s t u); [apply (fi_locks _ I) | done | done|]. intros q y. simpl. rewrite lookup_delete_Some, E. simpl. rewrite list_elem_of_singleton. fold p. split; intros [? ?]; split; congruence. }
  apply (frame_step t s); [done | by apply (sched_framed t u u') | |]; intros q y; unfold owner; simpl; rewrite Ho; destruct (decide (q = p)) as [->|Hne].
  - intros _. destruct Hcl as [Hcl|Hcl]; [by left|]. right. exists t, u', v'. rewrite (alter_users _ t _ u Ht), lookup_insert_eq, Kb. by split_and!.
  - rewrite with_owner_ne by done. intros Hq. apply (owner_frame t u u' s s' q y I C Hq); [by apply Hw|]. intros v0 _ Hc. unfold clears in Hc. by rewrite E in Hc.
  - rewrite with_owner_eq. intros Hy%living_Some. subst o. destruct HP as (Hyt & uy & Huy & Hby). intros Hin. apply (plan_not_waiting s (futex_id x) p y uy I Ha Huy Hby). by apply Hwp.
  - rewrite with_owner_ne by done. rewrite (Hw q Hne). apply (fi_self _ I).
Qed.

Lemma wait_block_step t now s u x o : finv s -> users s !! t = Some u -> pc u = Waiting_block x o -> exists s', wait_block t now x o s = Some s' /\ finv s'.
Proof.
  intros I Ht E. destruct (interruptable_step true t s u I Ht) as (w1 & Ew & I1 & Hc1 & _ & Ho1 & Hq1). unfold wait_block. rewrite Ew. cbn [mbind option_bind]. set (s1 := with_ow w1 s) in *. pose proof (fi_plan _ I1 t u Ht) as HP. rewrite E in HP.
  assert (active_futexes_ s1 !! futex_id x = Some (futex_ref x)) as Ha by (apply (fi_refs _ I1 t u); [done | rewrite E; in_list]). destruct (user_thread s1 t u I1 Ht) as (th & v & Hth & Hv & -> & K1 & K2). rewrite E in K1, K2. destruct K1 as [Kq Kb]. destruct (pool_at _ _ _ _ (fi_pool _ I1) Ha) as (_ & _ & H0).
  destruct (block_owned false (futex_ref x) t (deadline x) now o Normal w1) as (st & w2 & Eb & G2 & Ho2 & H); [apply (fi_ow _ I1) | by apply (futex_queue s1 (futex_id x)) | by exists th | | | done|].
  { unfold alive, is_dead. simpl in Hth. rewrite Hth. unfold v_state, strip in K2. simpl in K2. by destruct (state th). }
  { intros y ->. apply (fi_dom _ I1). destruct HP as (_ & uy & Huy & _). by eexists. }
  rewrite Eb. cbn [mbind option_bind]. case_bool_decide as Hst.
  - destruct H as [Q1 Q2 Q3 (th0 & b & Hth0 & Hbb & Hsee) Q5 Q6]. eexists. split; [done|]. change (with_ow w2 s) with (with_ow w2 s1). apply (blocked_step t s1 u x o w2 Sleeping (b, signals th0, interruptable th0, ZX_OK, Some (futex_ref x))); try done.
    + intros y Hy. simpl. rewrite Q1. by intros [?|?]%elem_of_cons.
    + split; [by split|]. by apply blocked_dead_state.
    + left. intros Hn. assert (t ∈ waiters (futex_ref x) (ker w2)) as Hin by (rewrite Q1; left). rewrite Hn in Hin. by apply not_elem_of_nil in Hin.
  - destruct H as [C1 C2 C3 C4 C5 C6]. assert (finv (goto t (Woken st) (unlock (futex_ref x) (with_ow w2 s1)))) as I2.
    { apply (blocked_step t s1 u x o w2 (Woken st) (strip th)); try done.
      - intros y _. unfold sees. by rewrite C1.
      - unfold sees. rewrite C1. simpl in Hth. by rewrite Hth.
      - intros y _. simpl. by rewrite C2.
      - by right. }
    destruct (interruptable_step false t _ (mkUser (blocking_futex_id_ u) (Woken st)) I2) as (w3 & Ew3 & I3 & _); [rewrite (goto_users _ _ _ u) by done; apply lookup_insert_eq|]. simpl in Ew3. rewrite Ew3. cbn [mbind option_bind]. eexists. split; [done|]. exact I3.
Qed.

Lemma wait_clear_step t s u a p e : finv s -> users s !! t = Some u -> pc u = Clearing a p e -> exists s', wait_clear t a p e s = Some s' /\ finv s'.
Proof.
  intros I Ht E. unfold wait_clear. assert (active_futexes_ s !! a = Some p) as Ha by (apply (fi_refs _ I t u); [done | rewrite E; in_list]). destruct (user_thread s t u I Ht) as (th & v & Hth & Hv & -> & K1 & K2). rewrite E in K1, K2. destruct K1 as [Kq Kb].
  assert (exists w, (if IsEmpty p (ow s) then AssignOwner false p None (ow s) else Some (ow s)) = Some w /\ good false [] w /\ handed p (if IsEmpty p (ow s) then None else owner p (ow s)) (ow s) w) as (w & Ew & G & [C1 C2 C3 C4 C5 C6]).
  { destruct (IsEmpty p (ow s)); [|exists (ow s); split_and!; [done | apply (fi_ow _ I) | by apply handed_same; [apply pi_calm_refl|]]]. destruct (assign_owned false p None (ow s) (fi_ow _ I)) as (w & Ew & G & Hh); [by apply (futex_queue s a) | done | done|]. by exists w. }
  rewrite Ew. cbn [mbind option_bind]. eexists. split; [done|]. set (u' := mkUser 0 (Releasing [(a, p, 2)] e)). set (s' := goto _ _ _). assert (users s' = <[t := u']> (users s)) as Eu by (unfold s'; rewrite (goto_users _ _ _ u) by done; by rewrite Kb).
  assert (forall y, sees w y = sees (ow s) y) as Hse by (intros y; unfold sees; by rewrite C1).
  assert (sched t u u' s s') as C.
  { split; try done.
    - intros b _. unfold held. rewrite E. simpl. lia.
    - unfold is_live. by rewrite E.
    - split; simpl; try done; [split; [simpl; lia | repeat constructor; simpl; lia] | by intros b q [= -> ->]%list_elem_of_singleton|]. exists (strip th). rewrite Hse. by split.
    - by right.
    - rewrite Eu. apply (locks_same s t u); [apply (fi_locks _ I) | done | by rewrite E]. }
  assert (forall q, owners w !! q = if decide (q = p) then if IsEmpty p (ow s) then None else owner p (ow s) else owners (ow s) !! q) as Ho.
  { intros q. rewrite C5. change (match ?o with Some t => <[p := t]> (owners (ow s)) | None => delete p (owners (ow s)) end) with (owners (with_owner p o (ow s))). case_decide as Hq; [subst q; apply with_owner_eq | by apply with_owner_ne]. }
  apply (frame_step t s); [done | by apply (sched_framed t u u') | |]; intros q o; unfold owner; simpl; rewrite Ho, ?C2; case_decide as Hq.
  - subst q. rewrite (IsEmpty_waiters []) by apply (sh_ker _ _ (proj1 (fi_ow _ I))). case_bool_decide as He; [done|]. intros _. left. intros Hn. apply He. pose proof (C2 p) as HP. rewrite Hn in HP. by apply Permutation_nil_l in HP.
  - intros Hqo. apply (owner_frame t u u' s s' q o I C Hqo); [simpl; by rewrite C2|]. intros v0 _ Hc. unfold clears in Hc. rewrite E in Hc. congruence.
  - subst q. destruct (IsEmpty p (ow s)); [done|]. apply (fi_self _ I).
  - apply (fi_self _ I).
Qed.

(** ** Threads come and go

    A thread brings two states with it and takes two when it goes. *)

(** *** One state more or less *)

Lemma pool_add T s p : pool T s -> fx s !! p = None -> pool T (with_pool (<[p := mkFutexState 0 0]> (fx s)) (active_futexes_ s) (p :: free_futexes_ s) s).
Proof.
  intros P Hp. pose proof P as [P1 P2 P3 P4 P5]. split; simpl.
  - intros a q Ha. destruct (P1 a q Ha) as (H0 & f & Hf & Hi). split; [done|]. exists f. rewrite lookup_insert_ne; [done | congruence].
  - intros q [->|Hq]%elem_of_cons; [apply lookup_insert_eq|]. specialize (P2 q Hq). rewrite lookup_insert_ne; [done | congruence].
  - intros q f [[<- <-]|[_ Hf]]%lookup_insert_Some; [apply list_elem_of_here|]. specialize (P3 q f Hf). case_decide; [by right | done].
  - apply NoDup_cons. split; [|done]. intros Hin. specialize (P2 p Hin). congruence.
  - intros a H0. specialize (P5 a H0). destruct (active_futexes_ s !! a) as [q|]; [|done]. destruct P5 as [Hq ?]. rewrite lookup_insert_ne; [done | congruence].
Qed.

Lemma pool_remove T s p l : pool T s -> free_futexes_ s = p :: l -> pool T (with_pool (delete p (fx s)) (active_futexes_ s) l s).
Proof.
  intros P Hl. pose proof P as [P1 P2 P3 P4 P5]. rewrite Hl in P4. apply NoDup_cons in P4 as [Hni Hnd]. assert (fx s !! p = Some (mkFutexState 0 0)) as Hp by (apply P2; rewrite Hl; apply list_elem_of_here). split; simpl.
  - intros a q Ha. destruct (P1 a q Ha) as (H0 & f & Hf & Hi). split; [done|]. exists f. rewrite lookup_delete_ne; [done|]. intros ->. assert (f = mkFutexState 0 0) as -> by congruence. done.
  - intros q Hq. rewrite lookup_delete_ne by (intros ->; done). apply P2. rewrite Hl. by right.
  - intros q f [Hne Hf]%lookup_delete_Some. specialize (P3 q f Hf). case_decide; [|done]. rewrite Hl in P3. by apply elem_of_cons in P3 as [->|?].
  - done.
  - intros a H0. specialize (P5 a H0). destruct (active_futexes_ s !! a) as [q|]; [|done]. destruct P5 as [Hq ?]. rewrite lookup_delete_ne; [done|]. intros ->. rewrite Hp in Hq. by injection Hq as <-.
Qed.

(** *** A thread starts *)

Lemma waiters_new_queue p q w : queues (ker w) !! p = None -> waiters q (ker (new_queue p w)) = waiters q (ker w).
Proof. intros Hp. unfold waiters. simpl. destruct (decide (q = p)) as [->|Hne]; [by rewrite lookup_insert_eq, Hp | by rewrite lookup_insert_ne]. Qed.

Lemma plan_more us us' x c : (forall o u, us !! o = Some u -> us' !! o = Some u) -> plan_ok us x c -> plan_ok us' x c.
Proof.
  intros H. unfold plan_ok. destruct c as [|y|y|y|y [o|]| | | | | |y|y|y|y [o|]| | |]; try done.
  1-3, 5-7: intros HP o Ho; destruct (HP o Ho) as [u Hu]; exists u; by apply H.
  - intros (Hne & u & Hu & ?). split; [done|]. exists u. split; [by apply H | done].
  - intros (u & Hu & ?). exists u. split; [by apply H | done].
Qed.

Lemma futex_grow_step t base p1 p2 s s' : finv s -> may_happen (Grow t base p1 p2) s -> happens (Grow t base p1 p2) s = Some s' -> finv s'.
Proof.
  intros I (Ht & Hb & Hp & F1 & F2) [= <-]. pose proof I as [I1 I2 I3 I4 I5 I6 I7 I8 I9 I10 I11 I12].
  assert (forall p, fx s !! p = None -> queues (ker (ow s)) !! p = None) as HQ by (intros p Hf; destruct (queues (ker (ow s)) !! p) eqn:E; [|done]; destruct (proj1 (I3 p)) as [? ?]; [by eexists | congruence]).
  assert (pis (ow s) !! t = None) as Hpi by (destruct (pis (ow s) !! t) eqn:E; [|done]; destruct (proj2 (I2 t)) as [? ?]; [by eexists | congruence]). assert (queues (ker (new_queue p1 (ow s))) !! p2 = None) as HQ2 by (simpl; rewrite lookup_insert_ne by done; by apply HQ).
  set (w := new_thread t base false (new_queue p2 (new_queue p1 (ow s)))). set (us := <[t := mkUser 0 Idle]> (users s)). assert (forall q, waiters q (ker w) = waiters q (ker (ow s))) as Hw.
  { intros q. change (waiters q (ker w)) with (waiters q (ker (new_queue p2 (new_queue p1 (ow s))))). rewrite !waiters_new_queue; [done | by apply HQ | done]. }
  assert (forall x, x <> t -> sees w x = sees (ow s) x) as Hs by (intros x Hx; unfold sees; simpl; by rewrite lookup_insert_ne).
  assert (forall x u, users s !! x = Some u -> x <> t) as Hne by (intros x u Hx ->; congruence). assert (forall x u, users s !! x = Some u -> us !! x = Some u) as Hup by (intros x u Hx; unfold us; rewrite lookup_insert_ne; [done | by apply not_eq_sym, (Hne x u)]).
  split; simpl.
  - apply new_thread_good; [|done | done]. apply new_queue_good; [apply new_queue_good; [done | by apply HQ] | done].
  - intros x. unfold us. destruct (decide (x = t)) as [->|Hx]; [rewrite !lookup_insert_eq; split; by eexists | rewrite !lookup_insert_ne by done; apply I2].
  - intros q. destruct (decide (q = p2)) as [->|H2]; [rewrite !lookup_insert_eq; split; by eexists|]. rewrite !(lookup_insert_ne _ p2) by done. destruct (decide (q = p1)) as [->|H1]; [rewrite !lookup_insert_eq; split; by eexists | rewrite !lookup_insert_ne by done; apply I3].
  - intros x u [[<- <-]|[_ Hx]]%lookup_insert_Some; [done | by apply (I4 x)].
  - apply (pool_ext (total (users s))); [intros a _; unfold total, us; by rewrite tally_insert_new|]. pose proof (pool_add _ _ p2 (pool_add _ s p1 I5 F1)) as P. simpl in P. rewrite lookup_insert_ne in P by done. specialize (P F2). by apply (pool_fields _ _ _) with (4 := P).
  - unfold live, states, us in *. simpl. rewrite tally_insert_new by done. unfold is_live at 1. simpl. lia.
  - intros x u a q [[<- <-]|[_ Hx]]%lookup_insert_Some; [by intros ?%not_elem_of_nil | by apply (I7 x)].
  - intros x u [[<- <-]|[Hx Hu]]%lookup_insert_Some; [|rewrite Hs by done; by apply I8]. unfold sees. simpl. rewrite lookup_insert_eq. eexists. by split.
  - intros q x. rewrite I9. split; intros (u & Hu & Hq); exists u; [split; [by apply Hup | done]|]. apply lookup_insert_Some in Hu as [[<- <-]|[_ Hu]]; [by apply not_elem_of_nil in Hq | done].
  - intros x u [[<- <-]|[_ Hx]]%lookup_insert_Some; [done|]. apply (plan_more (users s)); [done | by apply I10].
  - intros q o Ho. rewrite Hw. destruct (I11 q o Ho) as [?|(x & u & v & Hx & Hv & Hc)]; [by left|]. right. exists x, u, v. rewrite Hs by (by apply (Hne x u)). split_and!; try done. by apply Hup.
  - intros q o Ho. rewrite Hw. by apply I12.
Qed.

(** *** A thread is gone *)

Lemma destroy_spec s p l :
  finv s -> p ∈ free_futexes_ s -> forall w f, good false [] w -> owners w = owners (ow s) -> (forall q, waiters q (ker w) = waiters q (ker (ow s))) ->
  destroy p (with_ow w (with_pool f (active_futexes_ s) l s)) = Some (with_ow (with_ker (mkKernel (threads (ker w)) (delete p (queues (ker w))) (ready (ker w))) w) (with_pool (delete p f) (active_futexes_ s) l s)) /\
  good false [] (with_ker (mkKernel (threads (ker w)) (delete p (queues (ker w))) (ready (ker w))) w) /\ (forall q, waiters q (mkKernel (threads (ker w)) (delete p (queues (ker w))) (ready (ker w))) = waiters q (ker (ow s))).
Proof.
  intros I Hp w f G Ho Hw. destruct (free_state s p I Hp) as [H1 H2]. unfold destroy. simpl. unfold owner in *. rewrite (IsEmpty_waiters []), Hw, H1, Ho, H2 by apply (sh_ker _ _ (proj1 G)). simpl. split_and!; [done | apply free_queue_good; [done | by rewrite Hw | by rewrite Ho]|].
  intros q. rewrite <- Hw. unfold waiters. simpl. destruct (decide (q = p)) as [->|Hne]; [|by rewrite lookup_delete_ne]. rewrite lookup_delete_eq. specialize (Hw p). rewrite H1 in Hw. unfold waiters in Hw. by rewrite Hw.
Qed.

Lemma shrink_step t s u : finv s -> users s !! t = Some u -> pc u = Exited -> exists s', ShrinkFutexStatePool s = Some s' /\ finv (goto t Gone s').
Proof.
  intros I Ht E. pose proof (free_for_call s t u I Ht ltac:(by right)) as H2. destruct (free_futexes_ s) as [|p1 [|p2 l]] eqn:El; simpl in H2; try lia. unfold ShrinkFutexStatePool. rewrite El.
  destruct (destroy_spec s p2 l I ltac:(rewrite El; right; apply list_elem_of_here) (ow s) (fx s) (fi_ow _ I) eq_refl ltac:(done)) as (D2 & G2 & W2). change (with_ow (ow s) (with_pool (fx s) (active_futexes_ s) l s)) with (with_pool (fx s) (active_futexes_ s) l s) in D2. rewrite D2. cbn [mbind option_bind].
  set (w2 := with_ker _ (ow s)) in *. destruct (destroy_spec s p1 l I ltac:(rewrite El; apply list_elem_of_here) w2 (delete p2 (fx s)) G2 eq_refl W2) as (D1 & G1 & W1). rewrite D1. eexists. split; [done|]. set (w := with_ker _ w2) in *.
  pose proof I as [I1 I2 I3 I4 I5 I6 I7 I8 I9 I10 I11 I12]. destruct (I8 t u Ht) as (v & Hv & K1 & K2). rewrite E in K1, K2. destruct K1 as [Kq Kb]. set (us := <[t := mkUser 0 Gone]> (users s)).
  assert (alter (fun u => mkUser (blocking_futex_id_ u) Gone) t (users s) = us) as Eu by (rewrite (alter_users _ t _ u) by done; by rewrite Kb). split; simpl; rewrite ?Eu; try done.
  - intros x. rewrite <- I2. unfold us. destruct (decide (x = t)) as [->|Hx]; [rewrite lookup_insert_eq, Ht; split; by eexists | by rewrite lookup_insert_ne].
  - intros q. destruct (decide (q = p1)) as [->|H1]; [rewrite !lookup_delete_eq; done|]. rewrite !(lookup_delete_ne _ p1) by done. destruct (decide (q = p2)) as [->|Hn2]; [rewrite !lookup_delete_eq; done | rewrite !lookup_delete_ne by done; apply I3].
  - intros x y [[<- <-]|[_ Hx]]%lookup_insert_Some; [done | by apply (I4 x)].
  - apply (pool_ext (total (users s))); [intros a _; unfold us; rewrite (total_goto _ t u) by done; unfold held; rewrite E; simpl; lia|]. pose proof (pool_remove _ _ p2 l (pool_remove _ s p1 (p2 :: l) I5 El) eq_refl) as P. apply (pool_fields _ _ _) with (4 := P); simpl; [apply delete_delete | done | done].
  - unfold live, states in *. simpl. unfold us. rewrite (tally_insert _ _ t u _ Ht). unfold is_live at 2 3. rewrite E, El in *. simpl in *. lia.
  - intros x y a q [[<- <-]|[_ Hx]]%lookup_insert_Some; [by intros ?%not_elem_of_nil | by apply (I7 x)].
  - intros x y [[<- <-]|[Hx Hu]]%lookup_insert_Some; [by exists v | by apply I8].
  - apply (locks_same s t u); [done | done | by rewrite E].
  - intros x y [[<- <-]|[_ Hx]]%lookup_insert_Some; [done|]. unfold us. rewrite <- Kb. by apply plan_goto, I10.
  - intros q o Ho. rewrite W1. destruct (I11 q o Ho) as [?|(x & y & z & Hx & Hz & Hc)]; [by left|]. right. exists x, y, z. split_and!; try done. unfold us. rewrite lookup_insert_ne; [done|]. intros ->. assert (y = u) as -> by congruence. unfold clears in Hc. by rewrite E in Hc.
  - intros q o Ho. rewrite W1. by apply I12.
Qed.
