(* ===== verification/FutexWake.v ===== *)
(** * Futexes: waking and requeueing *)

From S2P Require Import Prelude Zx WaitQueue WaitQueueFacts OwnedWaitQueue OwnedWaitQueueFacts OwnedWaitQueueSteps OwnedWaitQueueOps OwnedWaitQueueWake OwnedWaitQueueTheorems Futex FutexFacts FutexSystem FutexSteps.
Import WaitQueue OwnedWaitQueue Futex.

(** ** The threads chosen *)

(** Who is woken, and who of them gets the futex. *)
Definition selected (action : OwnerAction) (n : Z) (l : list Z) : list Z * option Z :=
  match action with
  | RELEASE => (take (Z.to_nat n) l, None)
  | ASSIGN_WOKEN => match l with t :: _ => if n =? 0 then ([], None) else ([t], Some t) | [] => ([], None) end
  end.

Lemma chosen_each n l : forall i h, i < n -> chosen (SetBlockingFutexId SelectAndKeepGoing) n i l h = (take (Z.to_nat (n - i)) l, None, h ++ take (Z.to_nat (n - i)) l).
Proof.
  induction l as [|t l IH]; intros i h Hi; simpl; [by rewrite take_nil, app_nil_r|]. replace (Z.to_nat (n - i)) with (S (Z.to_nat (n - (i + 1)))) by lia. simpl. destruct (Z.ltb_spec (i + 1) n).
  - rewrite IH by done. by rewrite <- app_assoc.
  - replace (Z.to_nat (n - (i + 1))) with 0%nat by lia. by rewrite take_0.
Qed.

Lemma chosen_each_of n l : 0 <= n -> chosen_of (SetBlockingFutexId SelectAndKeepGoing) n l [] = (take (Z.to_nat n) l, None, take (Z.to_nat n) l).
Proof. intros Hn. unfold chosen_of. destruct (Z.eqb_spec n 0) as [->|]; [by rewrite take_0|]. rewrite chosen_each by lia. by rewrite Z.sub_0_r. Qed.

Lemma wake_chosen action n l : 0 <= n -> chosen_of (wake_hook action) n l [] = (selected action n l, (selected action n l).1).
Proof.
  intros Hn. destruct action; [by apply chosen_each_of|]. unfold chosen_of, selected. destruct l as [|t l]; simpl; by destruct (n =? 0).
Qed.

Lemma selected_nodup action n l : NoDup l -> NoDup (selected action n l).1.
Proof. intros H. destruct action; simpl; [apply (sublist_NoDup _ l); [done | apply sublist_take]|]. destruct l as [|t l]; [constructor|]. destruct (n =? 0); simpl; [constructor | apply NoDup_singleton]. Qed.

Lemma selected_owner action n l x : (selected action n l).2 = Some x -> action = ASSIGN_WOKEN /\ n <> 0 /\ exists k, l = x :: k /\ (selected action n l).1 = [x].
Proof. unfold selected. destruct action; [done|]. destruct l as [|t l]; [done|]. destruct (Z.eqb_spec n 0); [done|]. intros [= ->]. split_and!; try done. by exists l. Qed.

(** ** The ids of several threads *)

Lemma lookup_set_ids c l us x : set_ids c l us !! x = if decide (x ∈ l) then (fun u => mkUser c (pc u)) <$> us !! x else us !! x.
Proof.
  induction l as [|y l IH]; [destruct (decide (x ∈ [])) as [H|]; [by apply not_elem_of_nil in H | done]|]. change (set_ids c (y :: l) us) with (set_id y c (set_ids c l us)). unfold set_id. destruct (decide (x = y)) as [->|Hne].
  - rewrite lookup_alter_eq, IH. destruct (decide (y ∈ y :: l)) as [_|H]; [|destruct H; apply list_elem_of_here]. case_decide; [|done]. by destruct (us !! y).
  - rewrite lookup_alter_ne, IH by done. destruct (decide (x ∈ y :: l)) as [H|H], (decide (x ∈ l)) as [H'|H']; try done; [by apply elem_of_cons in H as [?|?] | destruct H; by right].
Qed.

Lemma set_ids_pc c l us x : pc <$> set_ids c l us !! x = pc <$> us !! x.
Proof. rewrite lookup_set_ids. case_decide; [by destruct (us !! x) | done]. Qed.

Lemma set_ids_ok c l us : users_ok us -> users_ok (set_ids c l us).
Proof. intros H x u Hx. pose proof (set_ids_pc c l us x) as E. rewrite Hx in E. destruct (us !! x) as [v|] eqn:Hv; [|done]. injection E as ->. by apply (H x). Qed.

Lemma tally_set_ids f c l us : (forall u, f (mkUser c (pc u)) = f u) -> tally f (set_ids c l us) = tally f us.
Proof.
  intros Hf. induction l as [|y l IH]; [done|]. simpl. unfold set_id. destruct (set_ids c l us !! y) as [u|] eqn:E; [|by rewrite alter_id, IH by congruence]. rewrite (alter_users _ y _ u E), (tally_insert _ _ y u _ E), Hf. lia.
Qed.

Definition sleep_on (a : Z) (l : list Z) (us : gmap Z uthread) : Prop := forall x, x ∈ l -> us !! x = Some (mkUser a Sleeping).

Lemma total_set_ids a c l us e : NoDup l -> sleep_on a l us -> total (set_ids c l us) e = total us e + zlen l * (one e c - one e a).
Proof.
  induction l as [|y l IH]; intros Hn Hs; [unfold zlen; simpl; lia|]. apply NoDup_cons in Hn as [Hy Hn]. simpl. unfold set_id. assert (set_ids c l us !! y = Some (mkUser a Sleeping)) as E by (rewrite lookup_set_ids, decide_False by done; apply Hs, list_elem_of_here).
  rewrite (alter_users _ y _ _ E), (total_goto _ y _ _ e E), IH; [|done | intros x Hx; apply Hs; by right]. rewrite zlen_cons. unfold held. simpl. lia.
Qed.

Lemma sleep_on_set a c l l' us : (forall x, x ∈ l -> x ∉ l') -> sleep_on a l us -> sleep_on a l (set_ids c l' us).
Proof. intros H Hs x Hx. rewrite lookup_set_ids, decide_False by (by apply H). by apply Hs. Qed.

(** Those who wait in the queue of the futex [a]. *)
Lemma waiters_sleep s a p l : finv s -> active_futexes_ s !! a = Some p -> (forall x, x ∈ l -> x ∈ waiters p (ker (ow s))) -> sleep_on a l (users s).
Proof.
  intros I Ha Hl x Hx. destruct (waiter_user s p x I (Hl x Hx)) as ([b c] & Hu & E & H0 & Hp). simpl in *. rewrite Hu, E. by rewrite (pool_inj _ s b a p (fi_pool _ I) Hp Ha).
Qed.

(** ** Threads wake up or move to another futex *)

(** [t], which was at [u], goes to [c]; of the waiters of [a] in the queue [w] the
    threads [ts] wake up and the threads [ms] wait in the queue [d] of [b] now. *)
Record shifted (t : Z) (u : uthread) (c : Pc) (a w b d : Z) (ts ms : list Z) (s s' : State) : Prop := {
  sf_user : users s !! t = Some u;
  sf_pc : pc u <> Sleeping /\ is_live u = 1 /\ (forall v p, ~ clears (active_futexes_ s) v u p);
  sf_source : active_futexes_ s !! a = Some w;
  sf_dest : active_futexes_ s !! b = Some d;
  sf_woken : forall x, x ∈ ts -> x ∈ waiters w (ker (ow s));
  sf_moved : forall x, x ∈ ms -> x ∈ waiters w (ker (ow s)) /\ (x ∉ ts) /\ locks s !! d = Some t;
  sf_users : users s' = <[t := mkUser 0 c]> (set_ids b ms (set_ids 0 ts (users s)));
  sf_pool : pool (total (users s')) s' /\ active_futexes_ s' = active_futexes_ s /\ free_futexes_ s' = free_futexes_ s /\ dom (fx s') = dom (fx s);
  sf_good : good false [] (ow s');
  sf_queues : same_queues (ker (ow s)) (ker (ow s'));
  sf_sees : forall x, sees (ow s') x = (if decide (x ∈ ts) then awake else if decide (x ∈ ms) then at_queue d else id) <$> sees (ow s) x;
  sf_locks : forall p x, locks s' !! p = Some x <-> exists v, users s' !! x = Some v /\ p ∈ holds (pc v);
  sf_fresh : pc_ok c /\ (forall e p, (e, p) ∈ refs c -> active_futexes_ s !! e = Some p) /\ (exists l e, c = Releasing l e) /\ exists v, sees (ow s) t = Some v /\ v_queue v = None /\ dead_state (v_state v) = false;
}.

Section Shifted.
Context (t : Z) (u : uthread) (c : Pc) (a w b d : Z) (ts ms : list Z) (s s' : State) (I : finv s) (S : shifted t u c a w b d ts ms s s').

Lemma shift_sleeps x : x ∈ ts \/ x ∈ ms -> users s !! x = Some (mkUser a Sleeping) /\ x <> t /\ exists v, sees (ow s) x = Some v /\ v_queue v = Some w.
Proof.
  intros Hx. assert (x ∈ waiters w (ker (ow s))) as Hw by (destruct Hx; [by apply (sf_woken _ _ _ _ _ _ _ _ _ _ _ S) | by apply (sf_moved _ _ _ _ _ _ _ _ _ _ _ S)]).
  assert (users s !! x = Some (mkUser a Sleeping)) as Hu by (by apply (waiters_sleep s a w (waiters w (ker (ow s))) I (sf_source _ _ _ _ _ _ _ _ _ _ _ S))). split_and!; [done | | apply (waiter_sees false); [apply (fi_ow _ I) | done]].
  intros ->. rewrite (sf_user _ _ _ _ _ _ _ _ _ _ _ S) in Hu. injection Hu as E. apply (proj1 (sf_pc _ _ _ _ _ _ _ _ _ _ _ S)). by rewrite E.
Qed.

Lemma shift_user x v' : users s' !! x = Some v' -> x = t /\ v' = mkUser 0 c \/ x ∈ ts /\ v' = mkUser 0 Sleeping \/ x ∈ ms /\ (x ∉ ts) /\ v' = mkUser b Sleeping \/ x <> t /\ (x ∉ ts) /\ (x ∉ ms) /\ users s !! x = Some v'.
Proof.
  rewrite (sf_users _ _ _ _ _ _ _ _ _ _ _ S). intros [[<- <-]|[Hne Hx]]%lookup_insert_Some; [by left|]. rewrite !lookup_set_ids in Hx. destruct (decide (x ∈ ms)) as [Hm|Hm].
  - destruct (sf_moved _ _ _ _ _ _ _ _ _ _ _ S x Hm) as (_ & Hn & _). rewrite decide_False in Hx by done. destruct (shift_sleeps x (or_intror Hm)) as (Hu & _). rewrite Hu in Hx. injection Hx as <-. right; right; left. by split_and!.
  - destruct (decide (x ∈ ts)) as [Ht|Ht]; [|right; right; right; by split_and!]. destruct (shift_sleeps x (or_introl Ht)) as (Hu & _). rewrite Hu in Hx. injection Hx as <-. right; left. by split.
Qed.

Lemma shift_kept x v : users s !! x = Some v -> x <> t -> x ∉ ts -> x ∉ ms -> users s' !! x = Some v /\ sees (ow s') x = sees (ow s) x.
Proof.
  intros Hx Hne Ht Hm. rewrite (sf_users _ _ _ _ _ _ _ _ _ _ _ S), (sf_sees _ _ _ _ _ _ _ _ _ _ _ S), lookup_insert_ne, !lookup_set_ids by done. rewrite !decide_False by done. split; [done | apply option_fmap_id].
Qed.

Lemma shift_fresh x v' : users s' !! x = Some v' -> x <> t /\ users s !! x = Some v' /\ sees (ow s') x = sees (ow s) x \/ fresh_ok s' x v'.
Proof.
  intros Hx. destruct (sf_pool _ _ _ _ _ _ _ _ _ _ _ S) as (_ & Ea & _). pose proof (sf_sees _ _ _ _ _ _ _ _ _ _ _ S x) as Hs. destruct (shift_user x v' Hx) as [[-> ->]|[[Ht ->]|[(Hm & Hn & ->)|(Hne & Ht & Hm & Hu)]]].
  - right. destruct (sf_fresh _ _ _ _ _ _ _ _ _ _ _ S) as (Hok & Hr & (l & e & Ec) & v & Hv & Hq & Hd). split; simpl; try done; [by rewrite Ea | | by rewrite Ec]. exists v. split; [|unfold kernel_ok; rewrite Ec; by split]. rewrite Hs, Hv. assert ((t ∉ ts) /\ (t ∉ ms)) as [H1 H2] by (split; intros H; [destruct (shift_sleeps t (or_introl H)) as (_ & ? & _) | destruct (shift_sleeps t (or_intror H)) as (_ & ? & _)]; done). by rewrite !decide_False.
  - right. destruct (shift_sleeps x (or_introl Ht)) as (_ & _ & v & Hv & _). split; simpl; try done; [by intros ? ? ?%not_elem_of_nil|]. exists (awake v). rewrite Hs, Hv, decide_True by done. split; [done|]. by destruct v as [[[[? ?] ?] ?] ?].
  - right. destruct (shift_sleeps x (or_intror Hm)) as (Hu & _ & v & Hv & Hq). split; simpl; try done; [by intros ? ? ?%not_elem_of_nil|]. exists (at_queue d v). rewrite Hs, Hv, decide_False, decide_True by done. split; [done|].
    destruct (fi_kernel _ I x _ Hu) as (v0 & Hv0 & [_ K]). assert (v0 = v) as -> by congruence. simpl in K. destruct (pool_at _ _ _ _ (fi_pool _ I) (sf_dest _ _ _ _ _ _ _ _ _ _ _ S)) as (_ & _ & H0). destruct v as [[[[? ?] ?] ?] ?]. split; simpl; [|done]. split; [done|]. rewrite Ea. apply (sf_dest _ _ _ _ _ _ _ _ _ _ _ S).
  - left. split_and!; [done | done | by apply (shift_kept x v')].
Qed.

Lemma shift_framed : framed t s s'.
Proof.
  pose proof S as [Ht (Hp & Hl & Hc) Ha Hb Hts Hms Eu (HP & Ea & Er & Ef) G Hq Hs HL (_ & _ & (l & e & Ec) & _)]. split; try done.
  - intros x. rewrite Eu. destruct (decide (x = t)) as [->|Hne]; [rewrite lookup_insert_eq, Ht; split; by eexists|]. rewrite lookup_insert_ne, !lookup_set_ids by done. repeat case_decide; rewrite ?fmap_is_Some; done.
  - apply shift_fresh.
  - intros o v v' Ho Ho'. destruct (shift_user o v' Ho') as [[-> ->]|[[_ ->]|[(Hm & _ & ->)|(_ & _ & _ & Hu)]]]; [right; by left | right; by left | | left; congruence]. right. right. exists d. split; [done | by apply (Hms o)].
  - unfold states. by rewrite Ea, Er.
  - unfold live. rewrite Eu. assert (exists u0, set_ids b ms (set_ids 0 ts (users s)) !! t = Some u0 /\ is_live u0 = 1) as (u0 & Hu0 & Hl0).
    { pose proof (set_ids_pc b ms (set_ids 0 ts (users s)) t) as E. rewrite (set_ids_pc 0 ts), Ht in E. destruct (set_ids b ms _ !! t) as [u0|]; [|done]. exists u0. split; [done|]. injection E as E. unfold is_live in *. by rewrite E. }
    rewrite (tally_insert _ _ t u0 _ Hu0), !tally_set_ids by done. rewrite Hl0. unfold is_live at 2. rewrite Ec. simpl. lia.
  - intros e0 p He. left. by rewrite Ea.
  - intros x. rewrite (good_pis false _ G), (good_pis false _ (fi_ow _ I)), Hs, fmap_is_Some. done.
Qed.

Lemma shift_owner q o :
  owner q (ow s) = Some o -> waiters q (ker (ow s')) ≡ₚ waiters q (ker (ow s)) -> waiters q (ker (ow s')) <> [] \/ exists x w v, users s' !! x = Some w /\ sees (ow s') x = Some v /\ clears (active_futexes_ s') v w q.
Proof.
  intros Ho Hw. destruct (fi_owner _ I q o Ho) as [Hn|(x & v & z & Hx & Hz & Hcl)]; [left; intros E; rewrite E in Hw; by apply Permutation_nil_l in Hw|]. right.
  assert (x <> t) as Hne by (intros ->; rewrite (sf_user _ _ _ _ _ _ _ _ _ _ _ S) in Hx; injection Hx as <-; by apply (proj2 (proj2 (sf_pc _ _ _ _ _ _ _ _ _ _ _ S))) in Hcl).
  assert (~ (x ∈ ts \/ x ∈ ms)) as Hni.
  { intros H. destruct (shift_sleeps x H) as (Hu & _ & z' & Hz' & Hq). rewrite Hx in Hu. injection Hu as ->. unfold clears in Hcl. simpl in Hcl. destruct Hcl as [Hcl _]. congruence. }
  destruct (shift_kept x v Hx Hne) as [Hx' Hs']; [tauto | tauto|]. exists x, v, z. rewrite Hs'. split_and!; try done. by apply (clears_kept t s s' x v z q I shift_framed).
Qed.

End Shifted.

(** The pcs, and with them the mutexes held, do not change with the ids. *)
Lemma set_ids_locks s c l :
  (forall p x, locks s !! p = Some x <-> exists u, users s !! x = Some u /\ p ∈ holds (pc u)) -> forall p x, locks s !! p = Some x <-> exists u, set_ids c l (users s) !! x = Some u /\ p ∈ holds (pc u).
Proof.
  intros L p x. rewrite L. pose proof (set_ids_pc c l (users s) x) as E. split; intros (u & Hu & Hp); rewrite Hu in E; simpl in E.
  - destruct (set_ids c l (users s) !! x) as [v|]; [|done]. injection E as E. exists v. by rewrite E.
  - destruct (users s !! x) as [v|]; [|done]. injection E as E. exists v. by rewrite <- E.
Qed.

Lemma waiters_empty s p : finv s -> IsEmpty p (ow s) = bool_decide (waiters p (ker (ow s)) = []).
Proof. intros I. apply (IsEmpty_waiters []), (sh_ker _ _ (proj1 (fi_ow _ I))). Qed.

Lemma heir_waiters p o w x : good false [] w -> heir p o w = Some x -> o = Some x /\ waiters p (ker w) <> [].
Proof. intros G H. split; [by apply heir_Some in H|]. unfold heir in H. destruct o; [|done]. rewrite (IsEmpty_waiters []) in H by apply (sh_ker _ _ (proj1 G)). by case_bool_decide. Qed.

(** [WakeThreads] as a futex uses it. *)
Lemma wake_threads s a p n action :
  finv s -> active_futexes_ s !! a = Some p -> 0 <= n ->
  let ts := (selected action n (waiters p (ker (ow s)))).1 in
  exists w, WakeThreads false (wake_hook action) p n [] (ow s) = Some (ts, w) /\ good false [] w /\ roused p ts (ow s) w /\ NoDup ts /\ (forall q, q <> p -> owner q w = owner q (ow s)) /\
    (action = RELEASE -> owner p w = None) /\ (forall x, owner p w = Some x -> x ∈ ts /\ waiters p (ker w) <> []).
Proof.
  intros I Ha Hn. pose proof (wake_owned (wake_hook action) false p n [] (ow s) (fi_ow _ I) (futex_queue s a p I Ha) ltac:(done)) as H. rewrite wake_chosen in H by done. pose proof (selected_nodup action n (waiters p (ker (ow s))) (waiters_nodup [] p _ (sh_ker _ _ (proj1 (fi_ow _ I))))) as Hnd.
  pose proof (selected_owner action n (waiters p (ker (ow s)))) as Hsel. destruct (selected action n (waiters p (ker (ow s)))) as [ts o] eqn:Es. cbn [fst snd] in *. destruct H as (w & E & G & Ho & R). exists w. unfold owner. rewrite Ho, with_owner_eq. split_and!; try done.
  - intros q Hq. by apply with_owner_ne.
  - intros ->. destruct o as [x|]; [|done]. by destruct (Hsel x eq_refl) as [? _].
  - intros x Hx. destruct (heir_waiters p o w x G Hx) as [-> Hw]. destruct (Hsel x eq_refl) as (_ & _ & k & _ & ->). split; [apply list_elem_of_here | done].
Qed.

Lemma wake_shift t s u a p n action :
  finv s -> users s !! t = Some u -> pc u = Waking a p n action ->
  let ts := (selected action n (waiters p (ker (ow s)))).1 in
  exists s' c, wake t a p n action s = Some s' /\ shifted t u c a p a p ts [] s s' /\ roused p ts (ow s) (ow s') /\ (forall q, q <> p -> owner q (ow s') = owner q (ow s)) /\ (forall x, owner p (ow s') = Some x -> x ∈ ts /\ waiters p (ker (ow s')) <> []).
Proof.
  intros I Ht E ts. assert (active_futexes_ s !! a = Some p) as Ha by (apply (fi_refs _ I t u); [done | rewrite E; in_list]). assert (0 <= n) as Hn by (pose proof (fi_ok _ I t u Ht) as H; by rewrite E in H).
  destruct (wake_threads s a p n action I Ha Hn) as (w & Ew & G & R & Hnd & Ho & HR & HA). fold ts in Ew, R, Hnd, HA. pose proof R as [R1 R2 R3 R4 R5 R6]. unfold wake. rewrite Ew. cbn [mbind option_bind].
  assert ((match action with RELEASE => bool_decide (owner p w = None) | ASSIGN_WOKEN => negb (IsEmpty p w) || bool_decide (owner p w = None) end) = true) as ->.
  { destruct action; [by rewrite bool_decide_eq_true_2 by (by apply HR)|]. rewrite (IsEmpty_waiters []) by apply (sh_ker _ _ (proj1 G)). destruct (owner p w) as [x|]; [|by rewrite orb_true_r]. by rewrite bool_decide_eq_false_2 by (by apply (HA x)). }
  set (c := Releasing [(a, p, 1 + zlen ts)] ZX_OK). set (s' := goto _ _ _). exists s', c. split; [done|]. destruct (fi_kernel _ I t u Ht) as (v & Hv & K1 & K2). rewrite E in K1, K2. destruct K1 as [Kq Kb].
  assert (sleep_on a ts (users s)) as Hsl by (by apply (waiters_sleep s a p)). assert (t ∉ ts) as Hnt by (intros H; specialize (Hsl t H); rewrite Ht in Hsl; injection Hsl as ->; done).
  assert (set_ids 0 ts (users s) !! t = Some u) as Ht0 by (by rewrite lookup_set_ids, decide_False). assert (users s' = <[t := mkUser 0 c]> (set_ids 0 ts (users s))) as Eu by (unfold s'; rewrite (goto_users _ _ _ u) by done; by rewrite Kb).
  split_and!; try done.
  split; try done; rewrite ?E; try done.
  - split_and!; [done | unfold is_live; by rewrite E|]. intros v0 q. unfold clears. rewrite E. by intros [].
  - by intros x ?%not_elem_of_nil.
  - split_and!; try done. apply (pool_ext (total (users s))); [|apply (pool_fields _ s); try done; apply (fi_pool _ I)]. intros e He. rewrite Eu, (total_goto _ t u _ e Ht0), (total_set_ids a) by done. unfold held. rewrite E. unfold c. simpl. rewrite (one_ne e 0) by done. lia.
  - rewrite Eu. apply (locks_same (with_users (set_ids 0 ts (users s)) s) t u); [exact (set_ids_locks s 0 ts (fi_locks _ I)) | done | by rewrite E].
  - split_and!; [split; [simpl; lia | repeat constructor; simpl; pose proof (zlen_nonneg ts); lia] | by intros e q [= -> ->]%list_elem_of_singleton | by eexists _, _ | by exists v].
Qed.

Lemma wake_step t s u a p n action : finv s -> users s !! t = Some u -> pc u = Waking a p n action -> exists s', wake t a p n action s = Some s' /\ finv s'.
Proof.
  intros I Ht E. destruct (wake_shift t s u a p n action I Ht E) as (s' & c & Ew & S & [R1 R2 R3 R4 R5 R6] & Ho & HA). exists s'. split; [done|].
  apply (frame_step t s); [done | by apply (shift_framed _ _ _ _ _ _ _ _ _ _ _ I S) | |]; intros q o Hq; (destruct (decide (q = p)) as [->|Hne]; [destruct (HA o Hq) as [Hin Hw]|rewrite Ho in Hq by done]).
  - by left.
  - apply (shift_owner _ _ _ _ _ _ _ _ _ _ _ I S q o Hq). by apply R3.
  - rewrite R2. by intros [? _]%list_elem_of_filter.
  - rewrite R3 by done. by apply (fi_self _ I).
Qed.

(** ** Requeueing *)

Lemma rest_not_taken (l : list Z) (m : nat) : NoDup l -> (m < length l)%nat -> exists x, x ∈ l /\ x ∉ take m l.
Proof.
  intros Hn Hm. destruct (lookup_lt_is_Some_2 l m Hm) as [x Hx]. exists x. split; [by apply (list_elem_of_lookup_2 l m)|]. intros (i & Hi)%list_elem_of_lookup. apply lookup_take_Some in Hi as [Hi Hlt]. pose proof (NoDup_lookup l i m x Hn Hi Hx). lia.
Qed.

Lemma filter_others (x : Z) k : NoDup (x :: k) -> filter (fun y => y ∉ [x]) (x :: k) = k.
Proof.
  intros [Hx _]%NoDup_cons. rewrite filter_cons_False by (intros H; apply H, list_elem_of_here). induction k as [|y k IH]; [done|]. apply not_elem_of_cons in Hx as [Hy Hx]. rewrite filter_cons_True by (intros ?%list_elem_of_singleton; congruence). by rewrite IH.
Qed.

(** Who is woken and who moves. *)
Definition to_wake (x : RequeueArgs) (s : State) : list Z := (selected (owner_action x) (wake_count x) (waiters (wake_futex_ref x) (ker (ow s)))).1.
Definition to_move (x : RequeueArgs) (s : State) : list Z := take (Z.to_nat (requeue_count x)) (filter (fun y => y ∉ to_wake x s) (waiters (wake_futex_ref x) (ker (ow s)))).

(** The effect on the wait queues. *)
Lemma requeue_threads s x o :
  finv s -> active_futexes_ s !! wake_id x = Some (wake_futex_ref x) -> active_futexes_ s !! requeue_id x = Some (requeue_futex_ref x) -> wake_futex_ref x <> requeue_futex_ref x -> 0 <= wake_count x -> 0 <= requeue_count x -> requeue_count x <> 0 ->
  (forall y, o = Some y -> is_Some (pis (ow s) !! y)) -> strands x s = false ->
  let ts := to_wake x s in let ms := to_move x s in
  exists q, WakeAndRequeue false (wake_hook (owner_action x)) (SetBlockingFutexId SelectAndKeepGoing) (wake_futex_ref x) (wake_count x) (requeue_futex_ref x) (requeue_count x) o [] [] (ow s) = Some (ts, ms, q) /\
    good false [] q /\ requeued (wake_futex_ref x) (requeue_futex_ref x) ts ms (ow s) q /\ NoDup ts /\ NoDup ms /\ (forall p, p <> wake_futex_ref x -> p <> requeue_futex_ref x -> owner p q = owner p (ow s)) /\
    (forall y, owner (wake_futex_ref x) q = Some y -> y ∈ ts /\ waiters (wake_futex_ref x) (ker q) <> []) /\ (forall y, owner (requeue_futex_ref x) q = Some y -> o = Some y /\ waiters (requeue_futex_ref x) (ker q) <> []).
Proof.
  intros I Ha Hb Hne Hn Hm Hm0 Hno Hst. unfold to_move, to_wake. cbv zeta. set (w := wake_futex_ref x) in *. set (r := requeue_futex_ref x) in *. pose proof (sh_ker _ _ (proj1 (fi_ow _ I))) as Ik. pose proof (waiters_nodup [] w _ Ik) as Hnd.
  pose proof (requeue_owned (wake_hook (owner_action x)) (SetBlockingFutexId SelectAndKeepGoing) false w (wake_count x) r (requeue_count x) o [] [] (ow s) (fi_ow _ I) Hne (futex_queue s _ w I Ha) (futex_queue s _ r I Hb) ltac:(done) Hno ltac:(done)) as H.
  rewrite wake_chosen in H by done. pose proof (selected_nodup (owner_action x) (wake_count x) _ Hnd) as Hnt. pose proof (selected_owner (owner_action x) (wake_count x) (waiters w (ker (ow s)))) as Hsel. destruct (selected (owner_action x) (wake_count x) (waiters w (ker (ow s)))) as [ts o'] eqn:Es. cbn [fst snd] in *.
  rewrite chosen_each_of in H by done. set (rest := filter (fun x => x ∉ ts) (waiters w (ker (ow s)))) in *. set (ms := take _ rest) in *. destruct H as (q & E & G & R & Hts & Ho). exists q. assert (NoDup rest) as Hnr by (by apply NoDup_filter).
  split_and!; try done; [apply (sublist_NoDup _ rest); [done | apply sublist_take] | | |]; unfold owner; rewrite Ho; clear Ho.
  - intros p H1 H2. by rewrite !with_owner_ne.
  - intros y. rewrite with_owner_ne, with_owner_eq by done. case_bool_decide as Hr; [done|]. intros ->. destruct (Hsel y eq_refl) as (Hac & Hn0 & k & Hk & Hty). split; [by apply Hts|].
    assert (rest = k) as Hrk by (unfold rest; rewrite Hk, Hty; apply filter_others; by rewrite <- Hk). unfold strands in Hst. rewrite Hac in Hst. change (thread_list (wake_futex_ref x) (ow s)) with (waiters w (ker (ow s))) in Hst. rewrite Hk, zlen_cons in Hst.
    destruct (Z.eqb_spec (wake_count x) 0); [done|]. cbn [negb andb] in Hst. assert (0 < zlen k) by (destruct k; [by rewrite Hrk in Hr | rewrite zlen_cons; pose proof (zlen_nonneg k); lia]).
    destruct (rest_not_taken rest (Z.to_nat (requeue_count x)) Hnr) as (z & Hz & Hz'); [rewrite Hrk; unfold zlen in *; lia|]. intros He. pose proof (rq_source _ _ _ _ _ _ R) as Hp. rewrite He in Hp. apply Permutation_nil_l in Hp. apply (not_elem_of_nil z). rewrite Hp. apply list_elem_of_filter in Hz as [? ?]. by apply list_elem_of_filter.
  - intros y. rewrite with_owner_eq. case_bool_decide as Hr; [done|]. intros Hy%living_Some. split; [done|]. intros He. apply Hr. pose proof (rq_dest _ _ _ _ _ _ R) as Hp. rewrite He in Hp. by apply Permutation_nil_l in Hp.
Qed.

Lemma roused_handed w r o ts s s1 s2 : w <> r -> roused w ts s s1 -> handed r o s1 s2 -> requeued w r ts [] s s2.
Proof.
  intros Hne [R1 R2 R3 R4 R5 R6] [C1 C2 C3 C4 C5 C6]. split; try done.
  - by intros t ?%not_elem_of_nil.
  - rewrite C2, R2. apply reflexive_eq, list_filter_iff. intros x. split; [|by intros [? _]]. intros H. split; [done | apply not_elem_of_nil].
  - rewrite C2. by rewrite R3.
  - intros p H1 H2. rewrite C2. by rewrite R3.
  - intros x. transitivity (sees s1 x); [apply C1|]. rewrite R4. repeat case_decide; try done. by apply not_elem_of_nil in H0.
  - by apply (same_queues_trans _ (ker s1)).
  - intros x. by rewrite C6.
Qed.

(** With nobody to move. *)
Lemma requeue_nobody s x o :
  finv s -> active_futexes_ s !! wake_id x = Some (wake_futex_ref x) -> active_futexes_ s !! requeue_id x = Some (requeue_futex_ref x) -> wake_futex_ref x <> requeue_futex_ref x -> 0 <= wake_count x ->
  (forall y, o = Some y -> is_Some (pis (ow s) !! y)) ->
  let ts := to_wake x s in
  exists q, ('(woken, q) ← WakeThreads false (wake_hook (owner_action x)) (wake_futex_ref x) (wake_count x) [] (ow s); q ← AssignOwner false (requeue_futex_ref x) (if IsEmpty (requeue_futex_ref x) q then None else o) q; Some (woken, [] : list Z, q)) = Some (ts, [], q) /\
    good false [] q /\ requeued (wake_futex_ref x) (requeue_futex_ref x) ts [] (ow s) q /\ NoDup ts /\ (forall p, p <> wake_futex_ref x -> p <> requeue_futex_ref x -> owner p q = owner p (ow s)) /\
    (forall y, owner (wake_futex_ref x) q = Some y -> y ∈ ts /\ waiters (wake_futex_ref x) (ker q) <> []) /\ (forall y, owner (requeue_futex_ref x) q = Some y -> o = Some y /\ waiters (requeue_futex_ref x) (ker q) <> []).
Proof.
  intros I Ha Hb Hne Hn Hno. unfold to_wake. cbv zeta. set (w := wake_futex_ref x) in *. set (r := requeue_futex_ref x) in *. destruct (wake_threads s _ w (wake_count x) (owner_action x) I Ha Hn) as (q1 & E1 & G1 & R & Hnd & Ho1 & _ & HA). rewrite E1. cbn [mbind option_bind].
  destruct (assign_owned false r (if IsEmpty r q1 then None else o) q1 G1) as (q & E & G & Hh); [apply (ro_same _ _ _ _ R), (futex_queue s _ r I Hb) | | done|].
  { intros y Hy. destruct (IsEmpty r q1); [done|]. destruct (Hno y Hy) as [z Hz]. pose proof (ro_base _ _ _ _ R y) as B. rewrite Hz in B. destruct (pis q1 !! y); [by eexists | done]. }
  rewrite E. cbn [mbind option_bind]. exists q. split; [done|]. split; [done|]. split; [by apply (roused_handed w r (living (if IsEmpty r q1 then None else o) q1) _ _ q1)|]. split; [done|].
  assert (forall p, owner p q = if decide (p = r) then living (if IsEmpty r q1 then None else o) q1 else owner p q1) as Ho.
  { intros p. unfold owner. rewrite (h_owners _ _ _ _ Hh). change (match ?o with Some t => <[r := t]> (owners q1) | None => delete r (owners q1) end) with (owners (with_owner r o q1)). case_decide as Hp; [subst p; apply with_owner_eq | by apply with_owner_ne]. }
  assert (forall p, waiters p (ker q1) <> [] -> waiters p (ker q) <> []) as Hw by (intros p Hp E0; apply Hp; pose proof (h_waiters _ _ _ _ Hh p) as P; rewrite E0 in P; by apply Permutation_nil_l in P).
  split_and!.
  - intros p H1 H2. rewrite Ho, decide_False by done. by apply Ho1.
  - intros y. rewrite Ho, decide_False by done. intros Hy. destruct (HA y Hy) as [? ?]. split; [done | by apply Hw].
  - intros y. rewrite Ho, decide_True by done. rewrite (IsEmpty_waiters []) by apply (sh_ker _ _ (proj1 G1)). case_bool_decide as He; intros Hy%living_Some; [done|]. split; [done | by apply Hw].
Qed.

Lemma requeue_effect s x o :
  finv s -> active_futexes_ s !! wake_id x = Some (wake_futex_ref x) -> active_futexes_ s !! requeue_id x = Some (requeue_futex_ref x) -> requeue_ok x -> (forall y, o = Some y -> is_Some (pis (ow s) !! y)) -> strands x s = false ->
  let ts := to_wake x s in let ms := to_move x s in
  exists q, (if negb (requeue_count x =? 0) then WakeAndRequeue false (wake_hook (owner_action x)) (SetBlockingFutexId SelectAndKeepGoing) (wake_futex_ref x) (wake_count x) (requeue_futex_ref x) (requeue_count x) o [] [] (ow s)
     else '(woken, q) ← WakeThreads false (wake_hook (owner_action x)) (wake_futex_ref x) (wake_count x) [] (ow s); q ← AssignOwner false (requeue_futex_ref x) (if IsEmpty (requeue_futex_ref x) q then None else o) q; Some (woken, [] : list Z, q)) = Some (ts, ms, q) /\
    good false [] q /\ requeued (wake_futex_ref x) (requeue_futex_ref x) ts ms (ow s) q /\ NoDup ts /\ NoDup ms /\ (forall p, p <> wake_futex_ref x -> p <> requeue_futex_ref x -> owner p q = owner p (ow s)) /\
    (forall y, owner (wake_futex_ref x) q = Some y -> y ∈ ts /\ waiters (wake_futex_ref x) (ker q) <> []) /\ (forall y, owner (requeue_futex_ref x) q = Some y -> o = Some y /\ waiters (requeue_futex_ref x) (ker q) <> []).
Proof.
  intros I Ha Hb (Hid & Hn & Hm) Hno Hst ts ms. subst ts ms. assert (wake_futex_ref x <> requeue_futex_ref x) as Hne by (intros E; rewrite E in Ha; by apply Hid, (pool_inj _ s _ _ _ (fi_pool _ I) Ha)). destruct (Z.eqb_spec (requeue_count x) 0) as [E0|E0]; cbn [negb].
  - destruct (requeue_nobody s x o I Ha Hb Hne Hn Hno) as (q & E & G & R & H1 & H2). exists q. assert (to_move x s = []) as -> by (unfold to_move; by rewrite E0, take_0). split_and!; try done; [constructor | apply H2..].
  - by apply requeue_threads.
Qed.

(** The references of those who move are taken along. *)
Lemma requeue_take s t u x o ts ms :
  finv s -> users s !! t = Some u -> pc u = Requeue_move x o -> requeue_ok x -> active_futexes_ s !! wake_id x = Some (wake_futex_ref x) -> active_futexes_ s !! requeue_id x = Some (requeue_futex_ref x) ->
  NoDup ts -> NoDup ms -> sleep_on (wake_id x) ts (users s) -> sleep_on (wake_id x) ms (users s) -> (forall y, y ∈ ms -> y ∉ ts) -> forall q,
  let us := set_ids (requeue_id x) ms (set_ids 0 ts (users s)) in
  let c := Releasing [(requeue_id x, requeue_futex_ref x, 1); (wake_id x, wake_futex_ref x, 1 + zlen ts)] ZX_OK in
  exists s1, TakeRefs (requeue_futex_ref x) (wake_futex_ref x) (zlen ms) (with_users us (with_ow q s)) = Some s1 /\ pool_only (with_users us (with_ow q s)) s1 /\ active_futexes_ s1 = active_futexes_ s /\ free_futexes_ s1 = free_futexes_ s /\ dom (fx s1) = dom (fx s) /\
    us !! t = Some u /\ pool (total (<[t := mkUser 0 c]> us)) s1.
Proof.
  intros I Ht E (Hid & _) Ha Hb Hn1 Hn2 Hs1 Hs2 Hd q us c. set (s0 := with_users us (with_ow q s)). assert (forall l, sleep_on (wake_id x) l (users s) -> t ∉ l) as Hni by (intros l Hl H; specialize (Hl t H); rewrite Ht in Hl; injection Hl as ->; done).
  assert (us !! t = Some u) as Hu by (unfold us; rewrite !lookup_set_ids, !decide_False by (by apply Hni); done). pose proof (zlen_nonneg ms) as Hz. assert (zlen ms < total (users s) (wake_id x)) as Hlt.
  { pose proof (held_total (set_ids 0 ms (users s)) t u (wake_id x) (set_ids_ok 0 ms _ (fi_ok _ I))) as H. rewrite lookup_set_ids, decide_False in H by (by apply Hni). specialize (H Ht). rewrite (total_set_ids (wake_id x)) in H by done. unfold held in H. rewrite E in H.
    destruct (pool_at _ _ _ _ (fi_pool _ I) Ha) as (_ & _ & H0). rewrite (one_refl (wake_id x)), (one_ne _ 0), (one_ne _ (requeue_id x)) in H by done. lia. }
  destruct (take_refs_spec (total (users s)) (requeue_id x) (requeue_futex_ref x) (wake_id x) (wake_futex_ref x) (zlen ms) s0) as (s1 & E1 & P1 & Ho & Ea & Er & Ef); [apply (pool_fields _ s); try done; apply (fi_pool _ I) | done | done | congruence | lia|].
  exists s1. split_and!; try done. apply (pool_ext (plus (plus (total (users s)) (requeue_id x) (zlen ms)) (wake_id x) (- zlen ms))); [|done]. intros e He. rewrite (total_goto _ t u _ e Hu). unfold us. rewrite (total_set_ids (wake_id x)); [|done | by apply sleep_on_set].
  rewrite (total_set_ids (wake_id x)) by done. unfold held. rewrite E. unfold c, plus. simpl. rewrite (one_ne e 0) by done. lia.
Qed.

Lemma requeue_shift t s u x o :
  finv s -> users s !! t = Some u -> pc u = Requeue_move x o -> strands x s = false ->
  let ts := to_wake x s in let ms := to_move x s in
  exists s' c, requeue_move t x o s = Some s' /\ shifted t u c (wake_id x) (wake_futex_ref x) (requeue_id x) (requeue_futex_ref x) ts ms s s' /\ requeued (wake_futex_ref x) (requeue_futex_ref x) ts ms (ow s) (ow s') /\
    (forall p, p <> wake_futex_ref x -> p <> requeue_futex_ref x -> owner p (ow s') = owner p (ow s)) /\ (forall y, owner (wake_futex_ref x) (ow s') = Some y -> y ∈ ts /\ waiters (wake_futex_ref x) (ker (ow s')) <> []) /\
    (forall y, owner (requeue_futex_ref x) (ow s') = Some y -> o = Some y /\ waiters (requeue_futex_ref x) (ker (ow s')) <> []).
Proof.
  intros I Ht E Hst ts ms. pose proof (fi_plan _ I t u Ht) as HP. pose proof (fi_ok _ I t u Ht) as Hok. destruct (fi_kernel _ I t u Ht) as (v & Hv & K1 & K2). rewrite E in HP, Hok, K1, K2. destruct K1 as [Kq Kb].
  assert (active_futexes_ s !! wake_id x = Some (wake_futex_ref x)) as Ha by (apply (fi_refs _ I t u); [done | rewrite E; in_list]). assert (active_futexes_ s !! requeue_id x = Some (requeue_futex_ref x)) as Hb by (apply (fi_refs _ I t u); [done | rewrite E; in_list]).
  destruct (requeue_effect s x o I Ha Hb Hok) as (q & Eq & G & R & Hn1 & Hn2 & Ho & How & Hor); [|done|]. { intros y ->. apply (fi_dom _ I). destruct HP as (uy & Huy & _). by eexists. }
  fold ts ms in Eq, R, Hn1, Hn2, How.
  assert (sleep_on (wake_id x) ts (users s)) as Hs1 by (apply (waiters_sleep s _ (wake_futex_ref x)); [done | done | apply R]). assert (sleep_on (wake_id x) ms (users s)) as Hs2 by (apply (waiters_sleep s _ (wake_futex_ref x)); [done | done | intros y Hy; by apply (rq_moved _ _ _ _ _ _ R)]).
  destruct (requeue_take s t u x o ts ms I Ht E Hok Ha Hb Hn1 Hn2 Hs1 Hs2 ltac:(intros y Hy; by apply (rq_moved _ _ _ _ _ _ R)) q) as (s1 & E1 & (P1 & P2 & P3 & _) & Ea & Er & Ef & Hu & HP1). unfold requeue_move. rewrite Eq. cbn [mbind option_bind]. rewrite E1. cbn [mbind option_bind].
  set (c := Releasing _ _). set (s' := goto t c _). simpl in P1, P2, P3. assert (ow s' = q) as Eow by done. assert (users s' = <[t := mkUser 0 c]> (users s1)) as Eu by (unfold s'; rewrite (goto_users _ _ _ u) by (simpl; by rewrite P3); by rewrite Kb).
  exists s', c. split; [done|]. rewrite Eow. split; [|done].
  split; try done; rewrite ?Eow; try apply R; try done.
  - split_and!; [by rewrite E | unfold is_live; by rewrite E|]. intros v0 p. unfold clears. rewrite E. by intros [].
  - intros y Hy. destruct (rq_moved _ _ _ _ _ _ R y Hy). split_and!; try done. apply (fi_locks _ I). exists u. split; [done | rewrite E; in_list].
  - by rewrite Eu, P3.
  - split_and!; try done. rewrite Eu, P3. apply (pool_fields _ s1); done.
  - rewrite Eu. apply (locks_drop s1 t u); [rewrite P2, P3; exact (set_ids_locks (with_users (set_ids 0 ts (users s)) s) _ ms (set_ids_locks s 0 ts (fi_locks _ I))) | by rewrite P3 | done|]. intros p y. simpl. rewrite E, !lookup_delete_Some. simpl. rewrite !not_elem_of_cons. split; [intros (? & ? & ?) | intros (? & ? & ? & _)]; split_and!; try done; try congruence. apply not_elem_of_nil.
  - split_and!; [split; [simpl; lia | repeat constructor; simpl; pose proof (zlen_nonneg ts); lia] | | by eexists _, _ | by exists v]. intros e p. simpl. by intros [[= -> ->]|[[= -> ->]|?%not_elem_of_nil]%elem_of_cons]%elem_of_cons.
Qed.

Lemma requeue_step t s u x o : finv s -> users s !! t = Some u -> pc u = Requeue_move x o -> strands x s = false -> exists s', requeue_move t x o s = Some s' /\ finv s'.
Proof.
  intros I Ht E Hst. destruct (requeue_shift t s u x o I Ht E Hst) as (s' & c & Em & S & R & Ho & How & Hor). exists s'. split; [done|]. pose proof (fi_plan _ I t u Ht) as HP. rewrite E in HP.
  apply (frame_step t s); [done | by apply (shift_framed _ _ _ _ _ _ _ _ _ _ _ I S) | |]; intros p y Hy;
    (destruct (decide (p = wake_futex_ref x)) as [->|H1]; [destruct (How y Hy) as [Hin Hw] | destruct (decide (p = requeue_futex_ref x)) as [->|H2]; [destruct (Hor y Hy) as [-> Hw] | rewrite Ho in Hy by done]]).
  - by left.
  - by left.
  - apply (shift_owner _ _ _ _ _ _ _ _ _ _ _ I S p y Hy). by apply R.
  - rewrite (rq_source _ _ _ _ _ _ R). by intros [[? _] _]%list_elem_of_filter.
  - destruct HP as (uy & Huy & Hb1 & Hb2). rewrite (rq_dest _ _ _ _ _ _ R). intros [Hm|Hm]%elem_of_app; [apply (rq_moved _ _ _ _ _ _ R) in Hm as [Hm _]; apply (plan_not_waiting s (wake_id x) (wake_futex_ref x) y uy); try done; apply S | apply (plan_not_waiting s (requeue_id x) (requeue_futex_ref x) y uy); try done; apply S].
  - rewrite (rq_queues _ _ _ _ _ _ R) by done. by apply (fi_self _ I).
Qed.
