(* ===== verification/FutexTheorems.v ===== *)
(** * Futexes: the theorems *)

From S2P Require Import Prelude Zx WaitQueue WaitQueueFacts OwnedWaitQueue OwnedWaitQueueFacts OwnedWaitQueueSteps OwnedWaitQueueOps OwnedWaitQueueWake OwnedWaitQueueTheorems Futex FutexFacts FutexSystem FutexSteps FutexWake.
Import WaitQueue OwnedWaitQueue Futex.

(** ** The invariant is kept *)

Lemma futex_call_step t c s : finv s -> may_happen (FutexSystem.Call t c) s -> exists s', call t c s = Some s' /\ finv s'.
Proof.
  intros I [Ht Hc]. unfold at_pc in Ht. destruct (users s !! t) as [u|] eqn:Hu; [|done]. injection Ht as E. destruct c as [a value v d|a n action|a n value action b m v|a].
  - by apply (call_wait_step t s u).
  - simpl. unfold FutexWake, returns. case_bool_decide as Ha; cbn [negb]; [|eexists; split; [done|]; by apply (return_step t s u)]. by apply (call_find_step t s u a (fun p => Waking a p n action)).
  - destruct Hc as (? & ? & ?). by apply (call_requeue_step t s u).
  - simpl. unfold FutexGetOwner, returns. case_bool_decide as Ha; cbn [negb]; [|eexists; split; [done|]; by apply (return_step t s u)]. by apply (call_find_step t s u a (fun p => Asking a p)).
Qed.

Lemma run_step t now s : finv s -> can_run t s = true -> strands_owner (Run t now) s = false -> exists s', run t now s = Some s' /\ finv s'.
Proof.
  unfold can_run, run, strands_owner. intros I Hr Hst. destruct (users s !! t) as [u|] eqn:Hu; [|done]. cbn [mbind option_bind]. cbn [fmap option_fmap option_map] in Hst. destruct (pc u) as [|x|x|x|x o| |e|a p e|a p n action|a p|x|x|x|x o|[|[[a p] n] l] e| |] eqn:E; try done.
  - destruct (fi_kernel _ I t u Hu) as (v & _ & K & _). rewrite E in K. destruct K as [_ ->]. eexists. split; [done|]. apply (wait_lock_step t s u); try done. unfold free_lock in Hr. by apply bool_decide_eq_true in Hr.
  - eexists. split; [done|]. by apply (wait_value_step t s u).
  - by apply (wait_owner_step t s u).
  - by apply (wait_block_step t now s u).
  - apply (wait_resume_step t s u); try done. intros th Hth. rewrite Hth in Hr. by apply bool_decide_eq_true in Hr.
  - by apply (wait_find_step t s u).
  - by apply (wait_clear_step t s u).
  - by apply (wake_step t s u).
  - eexists. split; [done|]. by apply (ask_step t s u).
  - apply andb_true_iff in Hr as [H1 H2]. unfold free_lock in H1, H2. apply bool_decide_eq_true in H1, H2. eexists. split; [done|]. by apply (requeue_lock_step t s u).
  - eexists. split; [done|]. by apply (requeue_value_ok t s u).
  - by apply (requeue_owner_ok t s u).
  - by apply (requeue_step t s u).
  - eexists. split; [done|]. by apply (done_step t s u e).
  - destruct (release_step t s u a p n l e I Hu E) as (s1 & E1 & I1). rewrite E1. by eexists.
Qed.

Lemma at_pc_user t c s : at_pc t c s -> exists u, users s !! t = Some u /\ pc u = c.
Proof. unfold at_pc. destruct (users s !! t) as [u|]; [|done]. intros [= E]. by exists u. Qed.

Lemma happens_step e s : finv s -> may_happen e s -> strands_owner e s = false -> exists s', happens e s = Some s' /\ finv s'.
Proof.
  intros I Hm Hst. destruct e as [t c|t now|t e|t sig|t n|a v|t base p1 p2|t|t].
  - by apply futex_call_step.
  - by apply run_step.
  - destruct Hm as [(u & Hu & E)%at_pc_user He]. destruct (interrupt_step t s u e I Hu E He) as (st & w & Ew & Iw). simpl. rewrite Ew. by eexists.
  - destruct Hm as [u Hu]. destruct (user_thread s t u I Hu) as (th & _ & Hth & _). simpl. rewrite Hth. eexists. split; [done|]. by apply set_signals_step.
  - destruct Hm as [[u Hu] Hn]. destruct (priority_step t u n s I Hu Hn) as (w & Ew & Iw). simpl. rewrite Ew. by eexists.
  - eexists. split; [done|]. destruct I. split; try done. by apply (pool_fields _ s).
  - eexists. split; [done|]. by apply (futex_grow_step t base p1 p2 s).
  - destruct (at_pc_user _ _ _ Hm) as (u & Hu & E). destruct (exit_step t s u I Hu E) as (w & Ew & Iw). simpl. rewrite Ew. by eexists.
  - destruct (at_pc_user _ _ _ Hm) as (u & Hu & E). destruct (shrink_step t s u I Hu E) as (s1 & E1 & I1). simpl. rewrite E1. by eexists.
Qed.

Lemma no_futexes_finv : finv no_futexes.
Proof.
  split; try done; simpl.
  - apply no_threads_good.
  - intros t. rewrite !lookup_empty. split; by intros [? ?].
  - intros p. rewrite !lookup_empty. split; by intros [? ?].
  - split; simpl; try done; try (by intros p ?%not_elem_of_nil). apply NoDup_nil_2.
  - intros p t. rewrite lookup_empty. split; [done|]. intros (u & Hu & _). by rewrite lookup_empty in Hu.
Qed.

Lemma reachable_finv s : rtc fstep no_futexes s -> finv s.
Proof.
  apply rtc_ind_r; [apply no_futexes_finv|]. intros x y _ (e & Hm & Hst & E) I. destruct (happens_step e x I Hm Hst) as (s' & E' & I'). congruence.
Qed.

(** ** Runs *)

Fixpoint play (l : list Event) (s : State) : option State :=
  match l with
  | [] => Some s
  | e :: l => s ← happens e s; play l s
  end.

(** An executable version of [may_happen]. *)
Definition is_pc (t : Z) (f : Pc -> bool) (s : State) : bool := match users s !! t with Some u => f (pc u) | None => false end.
Definition is_idle (c : Pc) : bool := match c with Idle => true | _ => false end.
Definition is_sleeping (c : Pc) : bool := match c with Sleeping => true | _ => false end.
Definition is_exited (c : Pc) : bool := match c with Exited => true | _ => false end.
Definition exists_thread (o : option Z) (s : State) : bool := match o with Some t => is_pc t (fun _ => true) s | None => true end.

Definition callable (c : Futex.Call) (s : State) : bool :=
  match c with
  | CallWait _ _ v _ => exists_thread (dispatcher_ v) s
  | CallWake _ n _ => 0 <=? n
  | CallRequeue _ n _ _ _ m v => (0 <=? n) && (0 <=? m) && exists_thread (dispatcher_ v) s
  | CallGetOwner _ => true
  end.

Definition possible (e : Event) (s : State) : bool :=
  match e with
  | FutexSystem.Call t c => is_pc t is_idle s && callable c s
  | Run t _ => can_run t s
  | Interrupt t e => is_pc t is_sleeping s && bool_decide (e <> ZX_OK)
  | Signal t _ => is_pc t (fun _ => true) s
  | Priority t n => is_pc t (fun _ => true) s && (0 <=? n)
  | Store _ _ => true
  | Grow t base p1 p2 => bool_decide (users s !! t = None) && (0 <=? base) && negb (p1 =? p2) && bool_decide (fx s !! p1 = None) && bool_decide (fx s !! p2 = None)
  | Exit t => is_pc t is_idle s
  | Shrink t => is_pc t is_exited s
  end.

Lemma is_pc_at t f c s : is_pc t f s = true -> (forall c', f c' = true -> c' = c) -> at_pc t c s.
Proof. unfold is_pc, at_pc. destruct (users s !! t) as [u|]; [|done]. intros H Hc. simpl. by rewrite (Hc (pc u) H). Qed.
Lemma is_pc_some t f s : is_pc t f s = true -> is_Some (users s !! t).
Proof. unfold is_pc. destruct (users s !! t); [by eexists | done]. Qed.
Lemma exists_known v s : exists_thread (dispatcher_ v) s = true -> known_owner v s.
Proof. intros H o Ho. rewrite Ho in H. by apply is_pc_some in H. Qed.

Lemma possible_may e s : possible e s = true -> may_happen e s.
Proof.
  destruct e as [t c|t now|t e|t sig|t n|a v|t base p1 p2|t|t]; simpl; rewrite ?andb_true_iff, ?negb_true_iff, ?Z.leb_le, ?bool_decide_eq_true, ?Z.eqb_neq.
  - intros [H1 H2]. split; [by apply (is_pc_at t is_idle); [|intros []]|]. destruct c; simpl in *; rewrite ?andb_true_iff, ?Z.leb_le in H2; [by apply exists_known | done | | done]. destruct H2 as [[? ?] ?]. split_and!; try done. by apply exists_known.
  - done.
  - intros [H1 H2]. split; [by apply (is_pc_at t is_sleeping); [|intros []] | done].
  - apply is_pc_some.
  - intros [H1 H2]. split; [by apply (is_pc_some t (fun _ => true)) | done].
  - done.
  - intros [[[[? ?] ?] ?] ?]. by split_and!.
  - intros H. by apply (is_pc_at t is_idle); [|intros []].
  - intros H. by apply (is_pc_at t is_exited); [|intros []].
Qed.

Fixpoint plays (l : list Event) (s : State) : bool :=
  match l with
  | [] => true
  | e :: l => possible e s && negb (strands_owner e s) && match happens e s with Some s' => plays l s' | None => false end
  end.

Lemma plays_reached l : forall s s', plays l s = true -> play l s = Some s' -> rtc fstep s s'.
Proof.
  induction l as [|e l IH]; intros s s'; simpl; [intros _ [= <-]; apply rtc_refl|]. rewrite !andb_true_iff, negb_true_iff. intros [[H1 H2] H3]. destruct (happens e s) as [s1|] eqn:E; [|done]. cbn [mbind option_bind]. intros Hp. apply (rtc_l _ s s1); [|by apply IH]. exists e. split_and!; try done. by apply possible_may.
Qed.

Definition free_owner : Validator := mkValidator ZX_OK None.

(** Two threads wait for the futex at 4, a third one calls. *)
Definition two_wait : list Event :=
  [Grow 1 10 100 101; Grow 2 10 102 103; Grow 3 20 104 105; Store 4 7;
   FutexSystem.Call 1 (sys_futex_wait 4 7 free_owner 1000); Run 1 0; Run 1 0; Run 1 0; Run 1 0;
   FutexSystem.Call 2 (sys_futex_wait 4 7 free_owner 1000); Run 2 0; Run 2 0; Run 2 0; Run 2 0].

Definition after (l : list Event) : State := match play l no_futexes with Some s => s | None => no_futexes end.

Lemma after_reached l : plays l no_futexes = true -> rtc fstep no_futexes (after l).
Proof. intros H. unfold after. destruct (play l no_futexes) as [s|] eqn:E; [by apply (plays_reached l) | apply rtc_refl]. Qed.

(** A wake wakes both, and they return. *)
Example wake_two :
  (fun s => (map (fun t => pc <$> users s !! t) [1; 2; 3], map_to_list (active_futexes_ s))) <$> play (two_wait ++ [FutexSystem.Call 3 (sys_futex_wake 4 5); Run 3 0; Run 1 0; Run 2 0; Run 1 0; Run 2 0; Run 3 0; Run 3 0]) no_futexes = Some ([Some Idle; Some Idle; Some Idle], []).
Proof. vm_compute. reflexivity. Qed.

(** A requeue that makes the thread it wakes the owner and moves the other one leaves an
    owned state without waiters: its last reference cannot be released. *)
Definition stranding : list Event := two_wait ++ [FutexSystem.Call 3 (sys_futex_requeue_single_owner 4 7 8 1 free_owner); Run 3 0; Run 3 0; Run 3 0; Run 3 0; Run 3 0].

Example requeue_strands_owner :
  is_Some (play stranding no_futexes) /\ can_run 3 (after stranding) = true /\ owner 105 (ow (after stranding)) = Some 1 /\ waiters 105 (ker (ow (after stranding))) = [] /\ run 3 0 (after stranding) = None.
Proof. vm_compute. split_and!; try reflexivity. by eexists. Qed.

(** ** Nothing goes wrong *)



(** ** Wakes *)

(** The thread has found the value it expects at [a] and its [FutexWait] has neither
    failed nor been woken. *)
Definition compared (a : Z) (u : uthread) : Prop :=
  match pc u with
  | Waiting_owner x | Waiting_block x _ => futex_id x = a
  | Sleeping => blocking_futex_id_ u = a
  | _ => False
  end.

(** It has timed out, or has been killed or suspended. *)
Definition interrupted (x : Z) (s : State) : Prop := exists u v, users s !! x = Some u /\ pc u = Sleeping /\ sees (ow s) x = Some v /\ v_queue v = None /\ v_status v <> ZX_OK.

(** When it runs next its [FutexWait] is successful. *)
Definition returns_ok (x : Z) (s : State) : Prop := can_run x s = true /\ forall now, exists s', run x now s = Some s' /\ at_pc x (Releasing [] ZX_OK) s'.

Lemma woken_returns x s v : finv s -> users s !! x = Some (mkUser 0 Sleeping) -> sees (ow s) x = Some v -> v_queue v = None -> v_status v = ZX_OK -> returns_ok x s.
Proof.
  intros I Hx Hv Hq He. unfold sees in Hv. destruct (threads (ker (ow s)) !! x) as [th|] eqn:Ht; [|done]. injection Hv as <-. unfold v_queue, v_status, strip in Hq, He. simpl in Hq, He. split.
  - unfold can_run. rewrite Hx. simpl. by rewrite Ht, Hq.
  - intros now. unfold run, wait_resume, set_interruptable, blocked_id. rewrite Hx. cbn [mbind option_bind pc]. rewrite Ht. cbn. rewrite He. eexists. split; [done|]. unfold at_pc. simpl. by rewrite (alter_users _ x _ _ Hx), lookup_insert_eq.
Qed.

Lemma shift_returns t u c a w b d ts ms s s' x : finv s -> finv s' -> shifted t u c a w b d ts ms s s' -> x ∈ ts -> returns_ok x s'.
Proof.
  intros I I' S Hx. destruct (shift_sleeps _ _ _ _ _ _ _ _ _ _ _ I S x (or_introl Hx)) as (Hux & Hne & v & Hv & _). apply (woken_returns x s' (awake v)); try (by destruct v as [[[[? ?] ?] ?] ?]).
  - rewrite (sf_users _ _ _ _ _ _ _ _ _ _ _ S), lookup_insert_ne, !lookup_set_ids by done. rewrite decide_False, decide_True, Hux; [done | done|]. intros Hm. by destruct (sf_moved _ _ _ _ _ _ _ _ _ _ _ S x Hm) as (_ & ? & _).
  - by rewrite (sf_sees _ _ _ _ _ _ _ _ _ _ _ S), Hv, decide_True.
Qed.

(** What the threads in the queue of [a] and those that will be there look like. *)
Lemma compared_waits s a p x u :
  finv s -> active_futexes_ s !! a = Some p -> users s !! x = Some u -> p ∉ holds (pc u) -> compared a u -> x ∈ waiters p (ker (ow s)) \/ interrupted x s.
Proof.
  intros I Ha Hx Hl Hc. pose proof (fi_refs _ I x u) as HR. assert (forall y, futex_id y = a -> (futex_id y, futex_ref y) ∈ refs (pc u) -> futex_ref y ∈ holds (pc u) -> False) as Hno.
  { intros y Hy Hr Hh. pose proof (HR _ _ Hx Hr) as Hp. rewrite Hy, Ha in Hp. injection Hp as ->. done. }
  unfold compared in Hc. destruct (pc u) as [|y|y|y|y o| | | | | | | | | | | |] eqn:E; try done; [exfalso; apply (Hno y Hc); in_list | exfalso; apply (Hno y Hc); in_list|].
  destruct (fi_kernel _ I x u Hx) as (v & Hv & K1 & _). rewrite E in K1. destruct (pool_at _ _ _ _ (fi_pool _ I) Ha) as (_ & _ & H0). destruct (v_queue v) as [q|] eqn:Hq.
  - left. rewrite Hc, Ha in K1. destruct K1 as [_ [= <-]]. by apply (sees_waiter false (ow s) x v p (fi_ow _ I)).
  - right. exists u, v. rewrite decide_False in K1 by congruence. by split_and!.
Qed.

(** C5: No wakeup is lost.  When the critical section of [FutexWake] begins, every thread
    that has found the value it expects there is in the queue of the futex, if it has not
    been interrupted; the first [n] of them by priority, or the first one that is to own
    the futex, are taken out of the queue and their [FutexWait] returns [ZX_OK]. *)
Theorem futex_no_lost_wakeup s t now a p n action :
  rtc fstep no_futexes s -> at_pc t (Waking a p n action) s -> can_run t s = true ->
  let ts := (selected action n (waiters p (ker (ow s)))).1 in
  (forall x u, users s !! x = Some u -> compared a u -> x ∈ waiters p (ker (ow s)) \/ interrupted x s) /\
  exists s', run t now s = Some s' /\ (forall x, x ∈ ts -> returns_ok x s') /\ waiters p (ker (ow s')) ≡ₚ filter (fun x => x ∉ ts) (waiters p (ker (ow s))).
Proof.
  intros Hr (u & Hu & E)%at_pc_user Hc ts. pose proof (reachable_finv s Hr) as I. assert (active_futexes_ s !! a = Some p) as Ha by (apply (fi_refs _ I t u); [done | rewrite E; in_list]).
  unfold can_run in Hc. rewrite Hu, E in Hc. apply bool_decide_eq_true in Hc. split; [intros x v Hx; apply (compared_waits s a p); try done; by apply (no_locks (users s) (locks s) p x v (fi_locks _ I))|]. destruct (wake_shift t s u a p n action I Hu E) as (s' & c & Ew & S & R & _). fold ts in S, R.
  destruct (wake_step t s u a p n action I Hu E) as (s'' & E'' & I'). assert (s'' = s') as -> by congruence. exists s'. unfold run. rewrite Hu. cbn [mbind option_bind]. rewrite E. split_and!; [done | | apply R]. intros x Hx.
  by apply (shift_returns t u c a p a p ts [] s s').
Qed.

(** The third thread is about to wake one of the two. *)
Definition about_to_wake : list Event := two_wait ++ [FutexSystem.Call 3 (sys_futex_wake 4 1)].

Lemma futex_no_lost_wakeup_witness : exists s', run 3 0 (after about_to_wake) = Some s' /\ returns_ok 1 s' /\ waiters 105 (ker (ow s')) ≡ₚ [2].
Proof.
  destruct (futex_no_lost_wakeup (after about_to_wake) 3 0 4 105 1 RELEASE (after_reached about_to_wake eq_refl)) as (_ & s' & E & H & Hw); [reflexivity | reflexivity|]. exists s'. split; [exact E|]. split; [apply H; vm_compute; left | rewrite Hw; reflexivity].
Defined.

(** ** Requeues *)


(** The third thread is about to wake one of the two and to move the other one. *)
Definition about_to_move : list Event := two_wait ++ [FutexSystem.Call 3 (sys_futex_requeue 4 1 7 8 1 free_owner); Run 3 0; Run 3 0; Run 3 0].


(** ** States *)

Lemma live_gone us : (forall x u, us !! x = Some u -> pc u = Gone) -> live us = 0.
Proof.
  unfold live. induction us as [|t u us Hn IH] using map_ind; intros H; [apply tally_empty|]. rewrite tally_insert_new by done. unfold is_live at 1. rewrite (H t u) by apply lookup_insert_eq. rewrite IH; [done|]. intros x v Hx. apply (H x). rewrite lookup_insert_ne; [done | congruence].
Qed.

(** C12: Every state is where it is needed.  An active one counts exactly the references that
    threads hold to its futex, a futex is active just as long as there are any, which
    includes every thread that sleeps on it; there are two states for each thread, when no
    thread is in a call all of them are free, and when all threads are gone the context can
    be destroyed. *)
Theorem futex_states_exact s :
  rtc fstep no_futexes s ->
  (forall a p, active_futexes_ s !! a = Some p -> fx s !! p = Some (mkFutexState a (total (users s) a)) /\ 0 < total (users s) a) /\
  (forall a, a <> 0 -> active_futexes_ s !! a = None -> forall x u, users s !! x = Some u -> held u a = 0 /\ ~ compared a u) /\
  Z.of_nat (length (free_futexes_ s) + size (active_futexes_ s)) = 2 * live (users s) /\
  ((forall x u, users s !! x = Some u -> pc u = Idle \/ pc u = Exited \/ pc u = Gone) -> active_futexes_ s = ∅) /\
  ((forall x u, users s !! x = Some u -> pc u = Gone) -> FutexContext_destroy s = Some ()).
Proof.
  intros Hr. pose proof (reachable_finv s Hr) as I. assert ((forall x u, users s !! x = Some u -> pc u = Idle \/ pc u = Exited \/ pc u = Gone) -> active_futexes_ s = ∅) as Hempty.
  { intros Hidle. apply map_eq. intros a. rewrite lookup_empty. destruct (active_futexes_ s !! a) as [p|] eqn:Ha; [|done]. destruct (pool_at _ _ _ _ (fi_pool _ I) Ha) as (_ & Hpos & _). apply total_pos in Hpos as (x & u & Hx & Hh). unfold held in Hh. destruct (Hidle x u Hx) as [E|[E|E]]; rewrite E in Hh; done. }
  assert (forall x u a, users s !! x = Some u -> a <> 0 -> active_futexes_ s !! a = None -> held u a = 0) as Hz.
  { intros x u a Hx H0 Ha. pose proof (po_count _ _ (fi_pool _ I) a H0) as H. rewrite Ha in H. pose proof (held_total (users s) x u a (fi_ok _ I) Hx). pose proof (held_nonneg u a (fi_ok _ I x u Hx)). lia. }
  split_and!.
  - intros a p Ha. by destruct (pool_at _ _ _ _ (fi_pool _ I) Ha) as (? & ? & _).
  - intros a H0 Ha x u Hx. pose proof (Hz x u a Hx H0 Ha) as Hh. split; [done|]. unfold compared. intros Hc. unfold held in Hh. destruct (pc u); try done; rewrite Hc, one_refl in Hh; done.
  - apply (fi_states _ I).
  - done.
  - intros Hg. assert (active_futexes_ s = ∅) as Ha by (apply Hempty; intros x u Hx; right; right; by apply (Hg x)). pose proof (fi_states _ I) as H. unfold states in H. rewrite (live_gone _ Hg), Ha, map_size_empty in H. unfold FutexContext_destroy. rewrite Ha. rewrite bool_decide_eq_true_2 by done. destruct (free_futexes_ s); [done | simpl in H; lia].
Qed.

Lemma futex_states_exact_witness : fx (after two_wait) !! 105 = Some (mkFutexState 4 2).
Proof. destruct (futex_states_exact (after two_wait) (after_reached two_wait eq_refl)) as (H & _). destruct (H 4 105 ltac:(reflexivity)) as [E _]. exact E. Defined.

(** ** Owners *)


(** The first thread waits for a futex that the second one owns. *)
Definition one_owns : list Event :=
  [Grow 1 10 100 101; Grow 2 10 102 103; Store 4 7; FutexSystem.Call 1 (sys_futex_wait 4 7 (mkValidator ZX_OK (Some 2)) 1000); Run 1 0; Run 1 0; Run 1 0; Run 1 0].

